(* ===== verification/_CoqProject ===== *)
-Q . S2P
Prelude.v
Effects.v
Dag.v
Opcode.v
Crypto.v
Types.v
Script.v
ScriptFacts.v
ScriptValidate.v
ScriptKinds.v
ScriptKindsFacts.v
ScriptAddress.v
ScriptMultisig.v
Merkle.v
Bytes.v
Bloom.v
TxLogic.v
Compress.v
CompressFacts.v
Keys.v
UtxoSet.v
UtxoFacts.v
UtxoDb.v
UtxoDbFacts.v
Validate.v
ValidateFacts.v
ScriptValidator.v
Trie.v
TrieFacts.v
TrieMap.v
TrieRoot.v
EvmMath.v
EvmOpcode.v
EvmState.v
EvmMachine.v
EvmGas.v
EvmInstr.v
EvmPrecompile.v
EvmJump.v
Evm.v
EvmAnalysis.v
EvmArith.v
EvmInv.v
EvmOps.v
EvmCharge.v
EvmStep.v
EvmTable.v
EvmSafe.v
EvmMain.v
WorldState.v
WorldFacts.v
WorldSteps.v
WorldLaws.v
WorldWrite.v
WorldCommit.v
WorldMain.v
Abi.v
AbiFacts.v
AbiMethods.v
Transition.v
Receipt.v
Blocks.v
Processor.v
ProcessorMain.v
Chain.v
ChainFacts.v
ChainMain.v
Bpos.v
BposFacts.v
ChainDemo.v
TxPool.v
TxPoolFacts.v
PackOrder.v
Records.v
RecordsFacts.v
Sync.v
BlockExec.v
BlockExecFacts.v
Producer.v
