(* ===== verification/Prelude.v ===== *)
(** * Boxd: a verification development for the BOX Payout blockchain node

    Boxd is a node of a UTXO blockchain with a script language, tokens, split addresses
    and an Ethereum virtual machine for contracts.  This library models the parts of the
    node that decide what is valid and what is stored, as executable definitions named
    after the Go functions they translate, and proves what makes them correct.

    ** Conventions (this file)

    Byte strings are [bytes := list byte]; a w-bit integer is a [Z] with its wrap-around
    written out ([u8] .. [u64], [i32], [i64]).  [result E A] is a Go value with an error,
    [go A] a computation that may panic; the long-lived parts run in the monad of [Effects]
    (state, errors, panics, and computations that do not go on), the virtual machine and the
    state processor in monads of their own.  Code outside of the repository (digests,
    signatures, protobuf, RLP, floating-point powers, map iteration order) is a class of
    operations; what the node relies on is a second class of laws, and each has a concrete
    instance in the witnesses.

    ** Parts of the program and where they are

    - [Crypto]: src/crypto/hash.go, base58.go.  [Types]: src/core/types (transactions,
      addresses, UTXO entries, conversion to wire messages).  [Blocks]: src/core/types/block.go.
    - [Opcode], [Script]: src/script/opcode.go, script.go, stack.go: assembly, decoding and
      the interpreter.  [ScriptFacts] has the lemmas, [ScriptValidate] what the standard
      locking scripts accept, [ScriptMultisig] the m-of-n check.  [ScriptKinds] is the rest of
      script.go and token.go (recognisers, builders and readers of contract, token and
      split-address scripts), with [ScriptKindsFacts] and [ScriptAddress].
    - [Merkle]: src/util/merkle.go.  [Bytes]: src/util/bytes.go, common.go.  [Bloom]:
      src/util/murmur3 and src/util/bloom.  [Dag]: src/util/priority_queue.go, dag.go.
    - [TxLogic]: transaction kinds and amounts (src/core/txlogic, src/core/chain/common.go).
    - [Compress], [CompressFacts]: the stored form of an unspent output
      (src/core/chain/compress.go, utxoset.go).  [Keys]: names of database records
      (src/storage/key, src/core/chain/dbkey.go).
    - [UtxoSet], [UtxoFacts]: the UTXO set in memory; [UtxoDb], [UtxoDbFacts]: the same in the
      database (src/core/chain/utxoset.go).
    - [Validate], [ValidateFacts]: checks of transactions and blocks;
      [ScriptValidator]: the concurrent script checker (src/core/chain/validate.go).
    - [Trie], [TrieFacts], [TrieMap], [TrieRoot]: the Merkle Patricia trie (src/core/trie).
    - The virtual machine (src/vm).  [EvmMath]: 256-bit and checked 64-bit arithmetic;
      [EvmOpcode]: the opcodes; [EvmState]: the interface of the state database with its laws;
      [EvmMachine]: the frame of a running contract (stack, memory, jump analysis) and the
      monad it runs in; [EvmGas]: gas_table.go, gas.go, memory_table.go; [EvmInstr]:
      instructions.go; [EvmPrecompile]: contracts.go; [EvmJump]: jump_table.go; [Evm]:
      interpreter.go, evm.go and the transfers of src/core/chain/evm.go.  [EvmAnalysis] and
      [EvmArith] have what the jump analysis and the instructions compute, [EvmInv] the program
      logic and the invariants, [EvmOps], [EvmCharge], [EvmStep] and [EvmTable] the
      specifications of the instructions, the charges, a turn and the instruction set,
      [EvmSafe] those of the calls, and [EvmMain] the theorems.
    - [WorldState]: the state database with its journal over the trie (src/core/worldstate).
      [WorldFacts], [WorldSteps] and [WorldLaws] show that it has the laws the virtual machine
      asks for, [WorldWrite] and [WorldCommit] what a commit writes; [WorldMain] has the theorems.
    - [Abi], [AbiFacts], [AbiMethods]: the encoding of calls of contracts (src/core/abi).
    - [Transition], [Receipt], [Processor], [ProcessorMain]: running the contract transactions
      of a block (src/core/chain/state_transition.go, state_processor.go,
      src/core/types/transaction_vm.go, log.go).
    - The chain (src/core/chain/blockchain.go).  [Chain]: which block becomes the tail, over an
      interface [Ledger] for the execution of a block; [ChainFacts], [ChainMain]: its
      invariants.  [BlockExec], [BlockExecFacts]: that execution.  [Records], [RecordsFacts]:
      the records of a block, the index of transactions and split addresses.
    - [Bpos], [BposFacts]: consensus (src/consensus/bpos): whose turn it is, verification of a
      block, the messages that make it final.  [PackOrder], [Producer]: how a block is made.
      [ChainDemo] has a small network on which chain and consensus are run.
    - [TxPool], [TxPoolFacts]: transactions that wait (src/core/txpool).
    - [Sync]: catching up with other nodes (src/blocksync, with src/p2p/peer.go).

    A transaction enters through [TxPool], which asks [UtxoDb] and [Validate]; [PackOrder] and
    [Producer] make a block of the pool; [Sync] or a peer hands blocks to [Chain], which has
    [Bpos] verify them, [BlockExec] execute them with [Processor] on [WorldState] and [Evm], and
    [Records] and [UtxoDb] store them.

    ** What the theorems show

    Value: the ordinary transactions of an accepted block spend unspent outputs, each once, and
    conserve value exactly although the sums are 64-bit; the coinbase takes the reward, the fees
    and the gas; reverting a block undoes applying it; what is written to the database is what
    is loaded.  Scripts: the interpreter terminates; each standard output opens for the right
    key, signatures and time, with the departures proved as theorems of their own; every builder
    is inverted by its reader.  Concurrency: the parallel script check answers what the
    sequential one does under every interleaving and always ends.  Storage: records have
    distinct keys and self-delimiting values; the trie is a map and its root names the map; the
    journal of the state database implements snapshots by copying, and a committed state is read
    back.  Contracts: every call and every creation ends within its gas and without panic, a
    failed one leaves no trace in the state, none creates value, a static one changes nothing, a
    transaction pays for exactly the gas it used, calls are decoded as they were encoded.  Chain:
    processing a block ends, blocks that are final stay on the main chain, which is indexed
    by height, a block made final has a quorum of signatures that delegates sent, and an accepted
    block is signed by the delegate whose turn it is.  Pool: two transactions of the pool never
    spend the same output; requests end unless the channel of scripts is full.  Production:
    transactions are packed after those they depend on, and what a producer packs passes the
    checks of a validator.  Synchronisation: only blocks with the confirmed root are processed.

    Where the code departs from its purpose, an example evaluates the departure; the theorems
    have the weaker conclusion or a condition that says so.

    ** Bounds and fuel

    Loops that are not structural carry fuel.  The interpreter loop has the length of the
    script and [Validate_total] shows it suffices; the other loops have a lemma that their
    fuel gives the source's loop equation ([parse_from_eq], [multisigLoop_fuel]); the trie
    recursion has the length of the path and its specifications exclude [RFuel].  The loop of
    the contract interpreter has its gas as fuel and the nesting of calls 1025 levels, one more
    than the depth the machine allows; [evm_call_total] shows that neither runs out.  The
    variable-length integers have ten groups, enough for 64 bits.  The loops of [Chain] have the
    heights of the blocks, those of [TxPool] the orphans that wait and the outputs that are
    spent ([process_block_ends], [pool_requests_end]); the division of outputs the number of
    split addresses nested in one another; the removal of dependent transactions in [PackOrder]
    takes [(M + 1) ^ N] turns for [N] transactions of [M] outputs and has its fuel as a
    parameter; a locator in [Sync] has 33 skips, which double ([skip_spec]).

    ** Not modelled

    Network, RPC, wallet, command-line and logging code (I/O around generated code), the
    database bindings and the index of Bloom sections; floating point (the sizing of Bloom
    filters, the scores of delegates); locks: operations are atomic, but for [ScriptValidator]
    and [Sync], which are about interleavings, and the race between finality and reorganisation
    that [ChainDemo] evaluates; the tracer, the integer pool and the Cancel flag of the virtual
    machine; cached hashes; JSON and other text for people. *)

From Stdlib Require Export ZArith Lia Bool.
From Stdlib Require Export Strings.Byte.
From stdpp Require Export base option list numbers strings countable gmap.

#[global] Set Default Goal Selector "!".

(** ** Bytes *)

Abbreviation bytes := (list byte).

#[export] Instance byte_eq_dec : EqDecision byte := Byte.byte_eq_dec.

#[export] Program Instance byte_countable : Countable byte :=
  inj_countable Byte.to_N Byte.of_N _.
Next Obligation. apply Byte.of_to_N. Qed.

(** The numeric value of a byte, and Go's conversion [byte(z)]. *)
Definition b2z (b : byte) : Z := Z.of_N (Byte.to_N b).

Definition z2b (z : Z) : byte := default x00 (Byte.of_N (Z.to_N (z mod 256))).

(** ** Machine integers: a w-bit Go integer is a [Z], wrapped explicitly *)

Declare Scope mach_scope.
Delimit Scope mach_scope with mach.

Definition u8 (z : Z) : Z := (z mod 2 ^ 8)%Z.
Definition u16 (z : Z) : Z := (z mod 2 ^ 16)%Z.
Definition u32 (z : Z) : Z := (z mod 2 ^ 32)%Z.
Definition u64 (z : Z) : Z := (z mod 2 ^ 64)%Z.

(** Two's complement reading, Go's [int32(x)] and [int64(x)]; Go's [int] is 64 bits. *)
Definition i32 (z : Z) : Z := ((z + 2 ^ 31) mod 2 ^ 32 - 2 ^ 31)%Z.
Definition i64 (z : Z) : Z := ((z + 2 ^ 63) mod 2 ^ 64 - 2 ^ 63)%Z.

Notation "x +₆₄ y" := (u64 (x + y)%Z) (at level 50, left associativity) : mach_scope.
Notation "x -₆₄ y" := (u64 (x - y)%Z) (at level 50, left associativity) : mach_scope.
Notation "x *₆₄ y" := (u64 (x * y)%Z) (at level 40, left associativity) : mach_scope.
Notation "x +₃₂ y" := (u32 (x + y)%Z) (at level 50, left associativity) : mach_scope.
Notation "x *₃₂ y" := (u32 (x * y)%Z) (at level 40, left associativity) : mach_scope.

(** ** Results: Go's [(value, error)] pairs *)

Inductive result (E A : Type) : Type :=
| Ok (a : A)
| Err (e : E).
Arguments Ok {_ _} _.
Arguments Err {_ _} _.

#[export] Instance result_ret {E} : MRet (result E) := fun A a => Ok a.
#[export] Instance result_bind {E} : MBind (result E) := fun A B f r =>
  match r with Ok a => f a | Err e => Err e end.
#[export] Instance result_fmap {E} : FMap (result E) := fun A B f r =>
  match r with Ok a => Ok (f a) | Err e => Err e end.

Definition is_ok {E A} (r : result E A) : bool :=
  match r with Ok _ => true | Err _ => false end.

(** A computation that may stop with a Go run-time panic (an index out of range). *)
Inductive go (A : Type) : Type :=
| Returns (a : A)
| Panics.
Arguments Returns {_} _.
Arguments Panics {_}.

#[export] Instance go_ret : MRet go := fun A a => Returns a.
#[export] Instance go_bind : MBind go := fun A B f r =>
  match r with Returns a => f a | Panics => Panics end.

(** ** Maps *)

(** The order in which Go visits a map. *)
Class VisitOrder := {
  visit : forall {K} `{Countable K} {A}, gmap K A -> list (K * A);
  visit_perm {K} `{Countable K} {A} (m : gmap K A) : visit m ≡ₚ map_to_list m
}.

(** ** Byte orders *)

(** [binary.LittleEndian.PutUintN] of an [n]-byte integer, and [UintN]. *)
Fixpoint le_bytes (n : nat) (z : Z) : bytes :=
  match n with
  | O => []
  | S n => z2b z :: le_bytes n (z / 256)
  end.

Fixpoint le_value (bs : bytes) : Z :=
  match bs with
  | [] => 0
  | b :: bs => b2z b + 256 * le_value bs
  end.

(** [binary.LittleEndian.UintN(data)] of an [n]-byte integer: the first [n] bytes,
    and a panic on a shorter slice. *)
Definition uint_le (n : nat) (data : bytes) : go Z :=
  if length data <? n then Panics else Returns (le_value (take n data)).

(** [big.Int.SetBytes] and [big.Int.Bytes] (minimal, big endian, absolute value). *)
Definition be_value (bs : bytes) : Z :=
  foldl (fun acc b => 256 * acc + b2z b)%Z 0%Z bs.

Fixpoint be_digits (fuel : nat) (z : Z) (acc : bytes) : bytes :=
  match fuel with
  | O => acc
  | S fuel => if (z =? 0)%Z then acc else be_digits fuel (z / 256) (z2b z :: acc)
  end.

Definition be_bytes (z : Z) : bytes :=
  let a := Z.abs z in be_digits (S (Z.to_nat (Z.log2 a))) a [].

(** ** Automation *)

Create HintDb boxd.
Create Rewrite HintDb boxd.

(** Case analysis on the scrutinee of a match in the goal or a hypothesis. *)
Ltac case_hyp H :=
  match type of H with
  | context [match ?x with _ => _ end] => destruct x eqn:?
  end.

Ltac case_goal :=
  match goal with
  | |- context [match ?x with _ => _ end] => destruct x eqn:?
  end.

(** Turn boolean comparisons into propositions. *)
Ltac bool_to_prop :=
  repeat match goal with
  | H : (_ && _)%bool = true |- _ => apply andb_true_iff in H as [? ?]
  | H : (_ || _)%bool = false |- _ => apply orb_false_iff in H as [? ?]
  | H : negb _ = true |- _ => apply negb_true_iff in H
  | H : negb _ = false |- _ => apply negb_false_iff in H
  | H : (_ <? _)%Z = true |- _ => apply Z.ltb_lt in H
  | H : (_ <? _)%Z = false |- _ => apply Z.ltb_ge in H
  | H : (_ <=? _)%Z = true |- _ => apply Z.leb_le in H
  | H : (_ <=? _)%Z = false |- _ => apply Z.leb_gt in H
  | H : (_ =? _)%Z = true |- _ => apply Z.eqb_eq in H
  | H : (_ =? _)%Z = false |- _ => apply Z.eqb_neq in H
  | H : (_ <? _)%nat = true |- _ => apply Nat.ltb_lt in H
  | H : (_ <? _)%nat = false |- _ => apply Nat.ltb_ge in H
  | H : (_ <=? _)%nat = true |- _ => apply Nat.leb_le in H
  | H : (_ <=? _)%nat = false |- _ => apply Nat.leb_gt in H
  | H : (_ =? _)%nat = true |- _ => apply Nat.eqb_eq in H
  | H : (_ =? _)%nat = false |- _ => apply Nat.eqb_neq in H
  | H : bool_decide _ = true |- _ => apply bool_decide_eq_true_1 in H
  | H : bool_decide _ = false |- _ => apply bool_decide_eq_false_1 in H
  end.

(** ** Visits of maps *)

Section Visit.
Context {VO : VisitOrder} `{Countable K} {A : Type} (m : gmap K A).

Lemma visit_lookup k x : (k, x) ∈ visit m <-> m !! k = Some x.
Proof. by rewrite visit_perm, elem_of_map_to_list. Qed.

Lemma visit_keys k : k ∈ (visit m).*1 <-> is_Some (m !! k).
Proof.
  rewrite visit_perm, list_elem_of_fmap. split; [intros ([k' x] & -> & Hx%elem_of_map_to_list); eauto|].
  intros [x Hx]. exists (k, x). by rewrite elem_of_map_to_list.
Qed.

Lemma visit_nodup : NoDup (visit m).*1.
Proof. rewrite visit_perm. apply NoDup_fst_map_to_list. Qed.

End Visit.

(** ** Byte lemmas *)

Lemma b2z_range b : (0 <= b2z b < 256)%Z.
Proof. unfold b2z. pose proof (Byte.to_N_bounded b). lia. Qed.

Lemma z2b_b2z b : z2b (b2z b) = b.
Proof.
  unfold z2b. rewrite Z.mod_small by apply b2z_range.
  unfold b2z. by rewrite N2Z.id, Byte.of_to_N.
Qed.

Lemma b2z_z2b z : b2z (z2b z) = (z mod 256)%Z.
Proof.
  unfold z2b, b2z. pose proof (Z.mod_pos_bound z 256 ltac:(lia)) as Hb.
  destruct (Byte.of_N (Z.to_N (z mod 256))) as [b|] eqn:E; simpl.
  - apply Byte.to_of_N in E. lia.
  - apply (f_equal (option_map Byte.to_N)) in E.
    rewrite Byte.to_of_N_option_map in E.
    destruct (N.leb_spec (Z.to_N (z mod 256)) 255); [done|lia].
Qed.

Lemma b2z_z2b_small z : (0 <= z < 256)%Z -> b2z (z2b z) = z.
Proof. intros. by rewrite b2z_z2b, Z.mod_small. Qed.

#[export] Instance b2z_inj : Inj (=) (=) b2z.
Proof. intros a b H. by rewrite <- (z2b_b2z a), H, z2b_b2z. Qed.

Lemma z2b_mod z : z2b (z mod 256) = z2b z.
Proof. unfold z2b. by rewrite Z.mod_mod. Qed.

(** ** Little endian *)

Lemma length_le_bytes n z : length (le_bytes n z) = n.
Proof. revert z. induction n; intros; simpl; auto. Qed.

Lemma le_value_bound bs : (0 <= le_value bs < 256 ^ Z.of_nat (length bs))%Z.
Proof.
  induction bs as [|b bs IH]; simpl; [lia|].
  pose proof (b2z_range b). rewrite Nat2Z.inj_succ, Z.pow_succ_r; lia.
Qed.

Lemma le_value_le_bytes n z : le_value (le_bytes n z) = (z mod 256 ^ Z.of_nat n)%Z.
Proof.
  revert z. induction n as [|n IH]; intros z.
  - simpl. by rewrite Z.mod_1_r.
  - cbn [le_bytes le_value]. rewrite b2z_z2b, IH, Nat2Z.inj_succ, Z.pow_succ_r by lia.
    rewrite Z.rem_mul_r by (try lia; apply Z.pow_pos_nonneg; lia). lia.
Qed.

Lemma le_value_le_bytes_small n z :
  (0 <= z < 256 ^ Z.of_nat n)%Z -> le_value (le_bytes n z) = z.
Proof. intros. by rewrite le_value_le_bytes, Z.mod_small. Qed.

Lemma le_bytes_le_value bs : le_bytes (length bs) (le_value bs) = bs.
Proof.
  induction bs as [|b bs IH]; [done|]. cbn [length le_bytes le_value].
  pose proof (b2z_range b). f_equal.
  - rewrite <- z2b_mod, (Z.mul_comm 256), Z.mod_add, Z.mod_small, z2b_b2z by lia. done.
  - rewrite (Z.mul_comm 256), Z.div_add, Z.div_small, Z.add_0_l by lia. done.
Qed.

(** ** Big endian *)

Lemma be_value_app xs ys :
  be_value (xs ++ ys) = (be_value xs * 256 ^ Z.of_nat (length ys) + be_value ys)%Z.
Proof.
  unfold be_value. rewrite foldl_app. generalize (foldl (fun acc b => 256 * acc + b2z b) 0 xs)%Z.
  induction ys as [|y ys IH] using rev_ind; intros a; simpl; [lia|].
  rewrite !foldl_app, length_app. simpl. rewrite IH, Nat2Z.inj_add, Z.pow_add_r; lia.
Qed.

Lemma be_value_cons b bs :
  be_value (b :: bs) = (b2z b * 256 ^ Z.of_nat (length bs) + be_value bs)%Z.
Proof. change (b :: bs) with ([b] ++ bs). by rewrite be_value_app. Qed.

Lemma be_value_nonneg bs : (0 <= be_value bs)%Z.
Proof.
  induction bs as [|b bs IH]; [done|]. rewrite be_value_cons.
  pose proof (b2z_range b). assert (0 < 256 ^ Z.of_nat (length bs))%Z by (apply Z.pow_pos_nonneg; lia).
  nia.
Qed.

Lemma be_digits_value fuel z acc :
  (0 <= z < 2 ^ Z.of_nat fuel)%Z ->
  be_value (be_digits fuel z acc) = (z * 256 ^ Z.of_nat (length acc) + be_value acc)%Z.
Proof.
  revert z acc. induction fuel as [|fuel IH]; intros z acc Hz; cbn [be_digits].
  - assert (z = 0%Z) as -> by (simpl in Hz; lia). lia.
  - destruct (Z.eqb_spec z 0) as [->|Hnz]; [lia|].
    rewrite IH.
    + rewrite be_value_cons, b2z_z2b. cbn [length]. rewrite Nat2Z.inj_succ, Z.pow_succ_r by lia.
      pose proof (Z.div_mod z 256 ltac:(lia)). nia.
    + rewrite Nat2Z.inj_succ, Z.pow_succ_r in Hz by lia.
      split; [apply Z.div_pos; lia|apply Z.div_lt_upper_bound; lia].
Qed.

(** [SetBytes] after [Bytes] gives back the magnitude. *)
Lemma be_value_be_bytes z : be_value (be_bytes z) = Z.abs z.
Proof.
  unfold be_bytes. rewrite be_digits_value.
  - simpl. unfold be_value. simpl. lia.
  - split; [lia|]. destruct (Z.eq_dec (Z.abs z) 0%Z) as [->|]; [done|].
    pose proof (Z.log2_spec (Z.abs z) ltac:(lia)) as [_ H].
    rewrite Nat2Z.inj_succ, Z2Nat.id by apply Z.log2_nonneg. done.
Qed.

Lemma be_digits_length k fuel z acc : (0 <= z < 256 ^ Z.of_nat k)%Z -> length (be_digits fuel z acc) <= length acc + k.
Proof.
  revert fuel z acc. induction k as [|k IH]; intros fuel z acc Hz.
  - assert (z = 0%Z) as -> by (simpl in Hz; lia). destruct fuel; simpl; lia.
  - destruct fuel as [|fuel]; cbn [be_digits]; [lia|].
    destruct (Z.eqb_spec z 0); [lia|].
    rewrite Nat2Z.inj_succ, Z.pow_succ_r in Hz by lia.
    specialize (IH fuel (z / 256)%Z (z2b z :: acc)). simpl length in IH.
    rewrite Nat.add_succ_r. simpl in IH. apply IH.
    split; [apply Z.div_pos; lia|apply Z.div_lt_upper_bound; lia].
Qed.

(** ** Machine integer lemmas *)

Lemma u64_small z : (0 <= z < 2 ^ 64)%Z -> u64 z = z.
Proof. apply Z.mod_small. Qed.
Lemma u64_range z : (0 <= u64 z < 2 ^ 64)%Z.
Proof. apply Z.mod_pos_bound. lia. Qed.
Lemma u32_small z : (0 <= z < 2 ^ 32)%Z -> u32 z = z.
Proof. apply Z.mod_small. Qed.
Lemma u32_range z : (0 <= u32 z < 2 ^ 32)%Z.
Proof. apply Z.mod_pos_bound. lia. Qed.
Lemma i64_small z : (- 2 ^ 63 <= z < 2 ^ 63)%Z -> i64 z = z.
Proof. intros. unfold i64. rewrite Z.mod_small; lia. Qed.
Lemma i32_small z : (- 2 ^ 31 <= z < 2 ^ 31)%Z -> i32 z = z.
Proof. intros. unfold i32. rewrite Z.mod_small; lia. Qed.
Lemma i64_u64 z : i64 (u64 z) = i64 z.
Proof. unfold i64, u64. by rewrite Zplus_mod_idemp_l. Qed.
Lemma i32_u32 z : i32 (u32 z) = i32 z.
Proof. unfold i32, u32. by rewrite Zplus_mod_idemp_l. Qed.

#[export] Hint Rewrite length_le_bytes b2z_z2b z2b_b2z : boxd.
#[export] Hint Resolve b2z_range u64_range u32_range le_value_bound be_value_nonneg : boxd.

(** ** Lists *)

(** Go's slice expression [s[lo:hi]] on an in-range slice. *)
Definition slice {A} (l : list A) (lo hi : nat) : list A := take (hi - lo) (drop lo l).

Lemma length_slice {A} (l : list A) lo hi :
  lo <= hi -> hi <= length l -> length (slice l lo hi) = hi - lo.
Proof. intros. unfold slice. rewrite length_take, length_drop. lia. Qed.

Lemma slice_app_mid {A} (xs ys zs : list A) :
  slice (xs ++ ys ++ zs) (length xs) (length xs + length ys) = ys.
Proof.
  unfold slice. rewrite drop_app_length.
  replace (length xs + length ys - length xs) with (length ys) by lia.
  by rewrite take_app_length.
Qed.

Lemma uint_le_bytes n z :
  (0 <= z < 256 ^ Z.of_nat n)%Z -> uint_le n (le_bytes n z) = Returns z.
Proof.
  intros. unfold uint_le. rewrite length_le_bytes, Nat.ltb_irrefl.
  by rewrite take_ge, le_value_le_bytes_small by (rewrite ?length_le_bytes; done).
Qed.

(** ** Bits *)

Lemma elem_of_insert_inv {A} (l : list A) k w x : x ∈ <[k := w]> l -> x = w \/ x ∈ l.
Proof.
  intros [i Hi]%list_elem_of_lookup_1. apply list_lookup_insert_Some in Hi as [(_ & -> & _)|[_ Hi]]; [by left|].
  right. by eapply list_elem_of_lookup_2.
Qed.

(** Name the elements of a list of known length. *)
Ltac explode l H :=
  repeat (destruct l as [|? l]; [discriminate H|simpl in H; apply Nat.succ_inj in H]);
  destruct l; [clear H|discriminate H].

(** A decidable property of byte values, checked value by value. *)
Lemma forall_byte (P : Z -> bool) :
  forallb P (map Z.of_nat (seq 0 256)) = true -> forall w, (0 <= w < 256)%Z -> P w = true.
Proof.
  intros H w Hw. rewrite forallb_forall in H. apply H, in_map_iff.
  exists (Z.to_nat w). split; [lia|]. apply in_seq. lia.
Qed.

Lemma testbit_small x k n : (0 <= x < 2 ^ k)%Z -> (k <= n)%Z -> Z.testbit x n = false.
Proof.
  intros Hx Hn. destruct (Z.ltb_spec k 0); [rewrite Z.pow_neg_r in Hx; lia|].
  rewrite <- (Z.mod_small x (2 ^ k)) by lia. by apply Z.mod_pow2_bits_high.
Qed.

(** A low part and a shifted high part do not overlap. *)
Lemma lor_shiftl x y k :
  (0 <= x < 2 ^ k)%Z -> (0 <= k)%Z -> Z.lor x (Z.shiftl y k) = (x + y * 2 ^ k)%Z.
Proof.
  intros Hx Hk. rewrite <- Z.shiftl_mul_pow2 by lia.
  assert (Z.land x (Z.shiftl y k) = 0)%Z as Hz.
  { apply Z.bits_inj'. intros n Hn. rewrite Z.land_spec, Z.bits_0.
    destruct (Z.ltb_spec n k).
    - rewrite Z.shiftl_spec_low by lia. apply andb_false_r.
    - by rewrite (testbit_small x k) by lia. }
  pose proof (Z.add_lor_land x (Z.shiftl y k)). lia.
Qed.
