(* ===== verification/Effects.v ===== *)
(** * Effects: computations with a state, errors and panics

    The monad of the long-lived parts of the node: a method changes the state, returns a value or
    an error, panics, or waits and never goes on; a state change made before an error stays.  [ewp] states what holds after
    it, for the answer and for the error. *)

From S2P Require Import Prelude.

Inductive eres (E A : Type) := EOk (a : A) | EErr (e : E) | EPanic | EFuel.
Arguments EOk {_ _} _.
Arguments EErr {_ _} _.
Arguments EPanic {_ _}.
Arguments EFuel {_ _}.

Definition EM (S E A : Type) : Type := S -> eres E A * S.

Section Monad.
Context {S E : Type}.

#[global] Instance EM_ret : MRet (EM S E) := fun A a s => (EOk a, s).
#[global] Instance EM_bind : MBind (EM S E) := fun A B k c s =>
  match c s with
  | (EOk a, s) => k a s
  | (EErr e, s) => (EErr e, s)
  | (EPanic, s) => (EPanic, s)
  | (EFuel, s) => (EFuel, s)
  end.

Definition e_fail {A} (e : E) : EM S E A := fun s => (EErr e, s).
Definition e_panic {A} : EM S E A := fun s => (EPanic, s).
Definition e_fuel {A} : EM S E A := fun s => (EFuel, s).
Definition e_gets {A} (f : S -> A) : EM S E A := fun s => (EOk (f s), s).
Definition e_modify (f : S -> S) : EM S E unit := fun s => (EOk tt, f s).

(** A send on a channel that is full: the call does not return before another goroutine receives. *)
Definition e_block {A} : EM S E A := e_fuel.

(** A value that may be nil and is dereferenced. *)
Definition e_deref {A} (o : option A) : EM S E A := match o with Some a => mret a | None => e_panic end.

(** An error that the caller looks at. *)
Definition e_try {A} (c : EM S E A) : EM S E (result E A) := fun s =>
  match c s with
  | (EOk a, s) => (EOk (Ok a), s)
  | (EErr e, s) => (EOk (Err e), s)
  | (EPanic, s) => (EPanic, s)
  | (EFuel, s) => (EFuel, s)
  end.

(** Errors that cannot be handled. *)
Definition e_must {A} (c : EM S E A) : EM S E A := fun s =>
  match c s with (EErr _, s) => (EPanic, s) | r => r end.

(** ** Rules *)

(** [Q] of the answer, [R] of the error, [F] of a computation that does not go on; nothing is left
    to say after a panic. *)
Definition ewpf {A} (F : S -> Prop) (c : EM S E A) (Q : A -> S -> Prop) (R : E -> S -> Prop) (s : S) : Prop :=
  match c s with
  | (EOk a, s') => Q a s'
  | (EErr e, s') => R e s'
  | (EPanic, _) => True
  | (EFuel, s') => F s'
  end.

Lemma ewp_ret {F} {A} (a : A) (Q : A -> S -> Prop) R s : Q a s -> ewpf F (mret a) Q R s.
Proof. done. Qed.
Lemma ewp_fail {F} {A} e (Q : A -> S -> Prop) (R : E -> S -> Prop) s : R e s -> ewpf F (e_fail e) Q R s.
Proof. done. Qed.
Lemma ewp_panic {F} {A} (Q : A -> S -> Prop) R s : ewpf F e_panic Q R s.
Proof. done. Qed.
Lemma ewp_gets {F} {A} (f : S -> A) (Q : A -> S -> Prop) R s : Q (f s) s -> ewpf F (e_gets f) Q R s.
Proof. done. Qed.
Lemma ewp_modify {F} f (Q : unit -> S -> Prop) R s : Q tt (f s) -> ewpf F (e_modify f) Q R s.
Proof. done. Qed.

Lemma ewp_deref {F} {A} (o : option A) (Q : A -> S -> Prop) R s : (forall a, o = Some a -> Q a s) -> ewpf F (e_deref o) Q R s.
Proof. intros H. destruct o; [by apply H|done]. Qed.

Lemma ewp_bind {F} {A B} (c : EM S E A) (k : A -> EM S E B) Q R s : ewpf F c (fun a => ewpf F (k a) Q R) R s -> ewpf F (c ≫= k) Q R s.
Proof. unfold ewpf, mbind, EM_bind. by destruct (c s) as [[a|e| |] s']. Qed.

Lemma ewp_mono {F} {A} (c : EM S E A) (Q Q' : A -> S -> Prop) (R R' : E -> S -> Prop) s :
  ewpf F c Q R s -> (forall a s', Q a s' -> Q' a s') -> (forall e s', R e s' -> R' e s') -> ewpf F c Q' R' s.
Proof. unfold ewpf. destruct (c s) as [[a|e| |] s']; auto. Qed.

Lemma ewp_try {F} {A} (c : EM S E A) (Q : result E A -> S -> Prop) R s :
  ewpf F c (fun a => Q (Ok a)) (fun e => Q (Err e)) s -> ewpf F (e_try c) Q R s.
Proof. unfold ewpf, e_try. by destruct (c s) as [[a|e| |] s']. Qed.

Lemma ewp_must {F} {A} (c : EM S E A) (Q : A -> S -> Prop) R R' s : ewpf F c Q R' s -> ewpf F (e_must c) Q R s.
Proof. unfold ewpf, e_must. by destruct (c s) as [[a|e| |] s']. Qed.

End Monad.

(** The computation goes on: the model has enough fuel. *)
Abbreviation ewp := (ewpf (fun _ => False)).

(** ** Running *)

Lemma em_bind {S E A B} (c : EM S E A) (k : A -> EM S E B) s a s' : c s = (EOk a, s') -> (c ≫= k) s = k a s'.
Proof. intros H. unfold mbind, EM_bind. by rewrite H. Qed.

Lemma em_bind_inv {S E A B} (c : EM S E A) (k : A -> EM S E B) s b s' : (c ≫= k) s = (EOk b, s') -> exists a s1, c s = (EOk a, s1) /\ k a s1 = (EOk b, s').
Proof. unfold mbind, EM_bind. destruct (c s) as [[a|e| |] s1]; try done. eauto. Qed.
