(* ===== verification/Dag.v ===== *)
(** * Dag: priority queues and the order of dependent items (src/util/priority_queue.go, dag.go)

    [Heap] is the queue with the operations of Go's container/heap on it, [Dag] the graph that
    orders the transactions of a block: a child never before its parents.  Accesses outside of a
    slice panic; the loops of the heap carry fuel, and running out of it is counted as a panic, too,
    so that the theorems that an operation returns exclude both. *)

From Stdlib Require Import Sorted.
From S2P Require Import Prelude.
Module Heap.
Section Queue.
Context {A : Type}.

(** The functions that compare two positions of a queue all read the two items and compare them. *)
Record PriorityQueue := mkQueue { pq_lessFunc : A -> A -> bool; pq_items : list A }.

Definition with_items (pq : PriorityQueue) (l : list A) : PriorityQueue := mkQueue (pq_lessFunc pq) l.

Definition Items (pq : PriorityQueue) (i : nat) : go A := match pq_items pq !! i with Some a => Returns a | None => Panics end.

Definition Len (pq : PriorityQueue) : nat := length (pq_items pq).

Definition Less (pq : PriorityQueue) (i j : nat) : go bool := a ← Items pq i; b ← Items pq j; Returns (pq_lessFunc pq a b).

Definition Swap (pq : PriorityQueue) (i j : nat) : go PriorityQueue :=
  a ← Items pq i;
  b ← Items pq j;
  Returns (with_items pq (<[i := b]> (<[j := a]> (pq_items pq)))).

Definition Push (pq : PriorityQueue) (x : A) : PriorityQueue := with_items pq (pq_items pq ++ [x]).

Definition Pop (pq : PriorityQueue) : go (A * PriorityQueue) :=
  let n := Len pq in
  if n =? 0 then Panics
  else item ← Items pq (n - 1); Returns (item, with_items pq (take (n - 1) (pq_items pq))).

(** ** container/heap *)

Fixpoint up (fuel : nat) (pq : PriorityQueue) (j : nat) : go PriorityQueue :=
  match fuel with
  | O => Panics
  | S fuel =>
      let i := (j - 1) / 2 in
      if i =? j then Returns pq
      else
        less ← Less pq j i;
        if negb less then Returns pq else pq ← Swap pq i j; up fuel pq i
  end.

Fixpoint down (fuel : nat) (pq : PriorityQueue) (i n : nat) : go PriorityQueue :=
  match fuel with
  | O => Panics
  | S fuel =>
      let j1 := 2 * i + 1 in
      if n <=? j1 then Returns pq
      else
        let j2 := j1 + 1 in
        less ← (if j2 <? n then Less pq j2 j1 else Returns false);
        let j := if less : bool then j2 else j1 in
        less ← Less pq j i;
        if negb less then Returns pq else pq ← Swap pq i j; down fuel pq j n
  end.

Fixpoint initLoop (i : nat) (pq : PriorityQueue) : go PriorityQueue :=
  match i with
  | O => Returns pq
  | S i => pq ← down (S (Len pq)) pq i (Len pq); initLoop i pq
  end.

Definition heap_Init (pq : PriorityQueue) : go PriorityQueue := initLoop (Len pq / 2) pq.

Definition heap_Push (pq : PriorityQueue) (x : A) : go PriorityQueue :=
  let pq := Push pq x in up (S (Len pq)) pq (Len pq - 1).

Definition heap_Pop (pq : PriorityQueue) : go (A * PriorityQueue) :=
  match Len pq with
  | O => Panics
  | S n => pq ← Swap pq 0 n; pq ← down (S n) pq 0 n; Pop pq
  end.

Definition SetLessFunc (pq : PriorityQueue) (lessFunc : A -> A -> bool) : go PriorityQueue := heap_Init (mkQueue lessFunc (pq_items pq)).

Definition NewPriorityQueue (lessFunc : A -> A -> bool) : go PriorityQueue := heap_Init (mkQueue lessFunc []).

(** [for queue.Len() > 0] with a [heap.Pop] in each turn. *)
Fixpoint drainLoop (n : nat) (pq : PriorityQueue) : go (list A * PriorityQueue) :=
  match n with
  | O => Returns ([], pq)
  | S n => '(x, pq) ← heap_Pop pq; '(l, pq) ← drainLoop n pq; Returns (x :: l, pq)
  end.
Definition drain (pq : PriorityQueue) : go (list A * PriorityQueue) := drainLoop (Len pq) pq.

End Queue.
Arguments PriorityQueue : clear implicits.
End Heap.

(** ** The heap property *)

Section HeapFacts.
Import Heap.
Context {A : Type} (key : A -> Z).

(** The queue compares the keys of its items. *)
Definition by_key (pq : PriorityQueue A) : Prop := forall a b, pq_lessFunc pq a b = (key a <? key b)%Z.

Definition kat (l : list A) (i : nat) : Z := from_option key 0%Z (l !! i).

Abbreviation parent k := ((k - 1) / 2).

(** The items of which the parent is at [lo] or later are not smaller than it. *)
Definition ordered (l : list A) (n lo : nat) : Prop := forall k, 0 < k < n -> lo <= parent k -> (kat l (parent k) <= kat l k)%Z.

Definition heap_ok (pq : PriorityQueue A) : Prop := by_key pq /\ ordered (pq_items pq) (Len pq) 0.

Lemma parent_spec k : 0 < k -> k = 2 * parent k + 1 \/ k = 2 * parent k + 2.
Proof. intros H. pose proof (Nat.div_mod_eq (k - 1) 2). pose proof (Nat.mod_upper_bound (k - 1) 2). lia. Qed.

Lemma Less_eq (pq : PriorityQueue A) i j : by_key pq -> i < Len pq -> j < Len pq -> Less pq i j = Returns (kat (pq_items pq) i <? kat (pq_items pq) j)%Z.
Proof.
  intros Hk Hi Hj. unfold Less, Items, kat, Len in *. destruct (lookup_lt_is_Some_2 (pq_items pq) i Hi) as [a ->]. destruct (lookup_lt_is_Some_2 (pq_items pq) j Hj) as [b ->]. cbn. by rewrite Hk.
Qed.

Lemma Swap_eq (pq : PriorityQueue A) i j : i < Len pq -> j < Len pq -> exists l, Swap pq i j = Returns (with_items pq l) /\ l ≡ₚ pq_items pq /\ forall k, kat l k = kat (pq_items pq) (if k =? i then j else if k =? j then i else k).
Proof.
  intros Hi Hj. unfold Swap, Items, Len in *. destruct (lookup_lt_is_Some_2 (pq_items pq) i Hi) as [a Ea]. destruct (lookup_lt_is_Some_2 (pq_items pq) j Hj) as [b Eb]. rewrite Ea, Eb. cbn. eexists. split; [done|].
  assert (forall k, <[i := b]> (<[j := a]> (pq_items pq)) !! k = pq_items pq !! (if k =? i then j else if k =? j then i else k)) as Hl.
  { intros k. destruct (Nat.eqb_spec k i) as [->|Hki]; [by rewrite list_lookup_insert_eq by (by rewrite length_insert)|]. rewrite list_lookup_insert_ne by done. destruct (Nat.eqb_spec k j) as [->|Hkj]; [by rewrite list_lookup_insert_eq|by rewrite list_lookup_insert_ne]. }
  split; [|intros k; unfold kat; by rewrite Hl]. apply Permutation_inj. split; [by rewrite !length_insert|]. exists (fun k => if k =? i then j else if k =? j then i else k). split; [|done].
  intros x y. repeat case_match; repeat match goal with H : (_ =? _) = true |- _ => apply Nat.eqb_eq in H | H : (_ =? _) = false |- _ => apply Nat.eqb_neq in H end; lia.
Qed.

Lemma Swap_keeps (pq : PriorityQueue A) i j k l : Swap pq i j = Returns (with_items pq l) -> k <> i -> k <> j -> l !! k = pq_items pq !! k.
Proof.
  unfold Swap. destruct (Items pq i) as [a|]; [|done]. destruct (Items pq j) as [b|]; [|done]. cbn. intros [= <-] Hi Hj. by rewrite !list_lookup_insert_ne by done.
Qed.

(** [down]: everything below [lo] is in order, but for the item at [i], which may be too large. *)
Lemma down_ok fuel pq i n lo : by_key pq -> n <= Len pq -> n - i < fuel -> lo <= i ->
  (forall k, 0 < k < n -> lo <= parent k -> parent k <> i -> (kat (pq_items pq) (parent k) <= kat (pq_items pq) k)%Z) ->
  (0 < i -> lo <= parent i -> forall k, 0 < k < n -> parent k = i -> (kat (pq_items pq) (parent i) <= kat (pq_items pq) k)%Z) ->
  exists l, down fuel pq i n = Returns (with_items pq l) /\ l ≡ₚ pq_items pq /\ ordered l n lo /\ forall k, n <= k -> l !! k = pq_items pq !! k.
Proof.
  revert pq i. induction fuel as [|fuel IH]; intros pq i Hby Hn Hf Hlo H1 H2; [lia|]. cbn [down].
  destruct (Nat.leb_spec n (2 * i + 1)) as [Hj|Hj].
  { exists (pq_items pq). split; [by destruct pq|]. split_and!; [done| |done]. intros k Hk Hp. apply H1; [done..|]. intros <-. pose proof (parent_spec k ltac:(lia)). lia. }
  assert (exists j, (less ← (if 2 * i + 1 + 1 <? n then Less pq (2 * i + 1 + 1) (2 * i + 1) else Returns false); Returns (if less : bool then 2 * i + 1 + 1 else 2 * i + 1)) = Returns j /\
    j < n /\ 0 < j /\ parent j = i /\ forall k, 0 < k < n -> parent k = i -> (kat (pq_items pq) j <= kat (pq_items pq) k)%Z) as (j & Ej & Hjn & Hj0 & Hpj & Hmin).
  { assert (parent (2 * i + 1) = i /\ parent (2 * i + 1 + 1) = i) as [P1 P2] by (split; symmetry; [apply (Nat.div_unique _ _ _ 0)|apply (Nat.div_unique _ _ _ 1)]; lia).
    assert (forall k, 0 < k -> parent k = i -> k = 2 * i + 1 \/ k = 2 * i + 1 + 1) as Hch by (intros k Hk <-; pose proof (parent_spec k Hk); lia).
    destruct (Nat.ltb_spec (2 * i + 1 + 1) n) as [H3|H3]; [rewrite Less_eq by (done || lia); cbn [mbind go_bind]; destruct (Z.ltb_spec (kat (pq_items pq) (2 * i + 1 + 1)) (kat (pq_items pq) (2 * i + 1))) as [Hl|Hl]|].
    - exists (2 * i + 1 + 1). split_and!; [done|lia..|done|]. intros k [Hk _] Hp. destruct (Hch k Hk Hp) as [-> | ->]; lia.
    - exists (2 * i + 1). split_and!; [done|lia..|done|]. intros k [Hk _] Hp. destruct (Hch k Hk Hp) as [-> | ->]; lia.
    - exists (2 * i + 1). split_and!; [done|lia..|done|]. intros k [Hk Hkn] Hp. destruct (Hch k Hk Hp) as [-> | ->]; lia. }
  destruct (if 2 * i + 1 + 1 <? n then _ else _) as [less|]; cbn [mbind go_bind] in *; [|done]. assert ((if less : bool then 2 * i + 1 + 1 else 2 * i + 1) = j) as -> by congruence. assert (i < j) by (pose proof (parent_spec j Hj0); lia).
  rewrite Less_eq by (done || lia). cbn [mbind go_bind]. destruct (Z.ltb_spec (kat (pq_items pq) j) (kat (pq_items pq) i)) as [Hl|Hl]; cbn [negb].
  - destruct (Swap_eq pq i j ltac:(lia) ltac:(lia)) as (l & Es & Hp & Hk). rewrite Es. cbn [mbind go_bind].
    destruct (IH (with_items pq l) j) as (l' & E' & Hp' & Ho & Hkeep); [done|by unfold Len; cbn; rewrite Hp|lia|lia| | |].
    + intros k Hkn Hlk Hne. cbn [with_items pq_items]. assert (k <> parent k) by (pose proof (parent_spec k ltac:(lia)); lia). rewrite !Hk. destruct (Nat.eqb_spec (parent k) i) as [E1|E1].
      * rewrite (proj2 (Nat.eqb_neq k i)) by congruence. destruct (Nat.eqb_spec k j); [lia|by apply Hmin].
      * rewrite (proj2 (Nat.eqb_neq (parent k) j)) by done. destruct (Nat.eqb_spec k i) as [E2|E2]; [|rewrite (proj2 (Nat.eqb_neq k j)) by congruence; by apply H1]. rewrite E2 in *. by apply H2; [lia..| |].
    + intros _ Hlp k Hkn Hpk. cbn [with_items pq_items]. assert (j < k) by (pose proof (parent_spec k ltac:(lia)); lia). rewrite !Hk, Hpj, Nat.eqb_refl, (proj2 (Nat.eqb_neq k i)), (proj2 (Nat.eqb_neq k j)) by lia. rewrite <-Hpk. apply H1; lia.
    + exists l'. split_and!; [done|by rewrite Hp'|done|]. intros k Hkn. rewrite Hkeep by done. cbn [with_items pq_items]. eapply Swap_keeps; [done|lia..].
  - exists (pq_items pq). split; [by destruct pq|]. split_and!; [done| |done]. intros k Hkn Hlk. destruct (decide (parent k = i)) as [E|Hne]; [|by apply H1]. rewrite E. transitivity (kat (pq_items pq) j); [lia|by apply Hmin].
Qed.

(** [up]: everything is in order, but for the item at [j], which may be too small. *)
Lemma up_ok fuel pq j : by_key pq -> j < Len pq -> j < fuel ->
  (forall k, 0 < k < Len pq -> k <> j -> (kat (pq_items pq) (parent k) <= kat (pq_items pq) k)%Z) ->
  (0 < j -> forall k, 0 < k < Len pq -> parent k = j -> (kat (pq_items pq) (parent j) <= kat (pq_items pq) k)%Z) ->
  exists l, up fuel pq j = Returns (with_items pq l) /\ l ≡ₚ pq_items pq /\ ordered l (length l) 0.
Proof.
  revert pq j. induction fuel as [|fuel IH]; intros pq j Hby Hj Hf H1 H2; [lia|]. cbn [up]. destruct (Nat.eqb_spec (parent j) j) as [E|E].
  { assert (j = 0) as -> by (destruct j; [done|pose proof (parent_spec (S j)); lia]). exists (pq_items pq). split; [by destruct pq|]. split; [done|]. intros k Hk _. apply H1; [done|lia]. }
  assert (0 < j) as Hj0 by (destruct j; [done|lia]). assert (parent j < j) as Hpj by (pose proof (parent_spec j Hj0); lia). rewrite Less_eq by (done || lia). cbn [mbind go_bind].
  destruct (Z.ltb_spec (kat (pq_items pq) j) (kat (pq_items pq) (parent j))) as [Hl|Hl]; cbn [negb].
  - destruct (Swap_eq pq (parent j) j ltac:(lia) Hj) as (l & Es & Hp & Hk). rewrite Es. cbn [mbind go_bind]. assert (Len (with_items pq l) = Len pq) as Hlen by (unfold Len; cbn; by rewrite Hp). set (i := parent j) in *.
    destruct (IH (with_items pq l) i) as (l' & E' & Hp' & Ho); [done|lia|lia| | |].
    + rewrite Hlen. intros k Hkn Hne. cbn [with_items pq_items]. rewrite !Hk, (proj2 (Nat.eqb_neq k i)) by done. assert (k <> parent k) by (pose proof (parent_spec k ltac:(lia)); lia). destruct (Nat.eqb_spec k j) as [E1|E1].
      * rewrite E1. fold i. rewrite Nat.eqb_refl. lia.
      * destruct (Nat.eqb_spec (parent k) i) as [E2|E2]; [specialize (H1 k Hkn E1); rewrite E2 in H1; lia|]. destruct (Nat.eqb_spec (parent k) j) as [E3|E3]; [by apply H2|by apply H1].
    + rewrite Hlen. intros Hi k Hkn Hpk. cbn [with_items pq_items]. assert (i < k /\ parent i < i) as [Hik Hpi] by (pose proof (parent_spec k ltac:(lia)); pose proof (parent_spec i Hi); lia).
      rewrite !Hk, (proj2 (Nat.eqb_neq (parent i) i)), (proj2 (Nat.eqb_neq (parent i) j)), (proj2 (Nat.eqb_neq k i)) by lia. assert (kat (pq_items pq) (parent i) <= kat (pq_items pq) i)%Z by (apply H1; lia).
      destruct (Nat.eqb_spec k j) as [|E1]; [done|]. specialize (H1 k Hkn E1). rewrite Hpk in H1. lia.
    + exists l'. split_and!; [done|by rewrite Hp'|done].
  - exists (pq_items pq). split; [by destruct pq|]. split; [done|]. intros k Hkn _. destruct (decide (k = j)) as [->|]; [done|by apply H1].
Qed.

Lemma init_ok pq : by_key pq -> exists l, heap_Init pq = Returns (with_items pq l) /\ l ≡ₚ pq_items pq /\ heap_ok (with_items pq l).
Proof.
  intros Hby. unfold heap_Init. assert (ordered (pq_items pq) (Len pq) (Len pq / 2)) as Ho.
  { intros k Hk Hp. pose proof (parent_spec k ltac:(lia)). pose proof (Nat.div_mod_eq (Len pq) 2). pose proof (Nat.mod_upper_bound (Len pq) 2). lia. }
  revert Ho. generalize (Len pq / 2) as i. intros i. revert pq Hby. induction i as [|i IH]; intros pq Hby Ho; cbn [initLoop]; [exists (pq_items pq); split; [by destruct pq|done]|].
  destruct (down_ok (S (Len pq)) pq i (Len pq) i) as (l & E & Hp & Hl & _); [done|done|lia|done| | |].
  - intros k Hk Hlo Hne. apply Ho; [done|lia].
  - intros Hi Hlo. pose proof (parent_spec i Hi). lia.
  - rewrite E. cbn [mbind go_bind]. assert (length l = Len pq) as Hlen by (by rewrite Hp). destruct (IH (with_items pq l)) as (l' & E' & Hp' & Hok); [done|unfold Len; cbn; by rewrite Hlen|]. exists l'. rewrite E'. split_and!; [done|by rewrite Hp'|done].
Qed.

Lemma push_ok pq x : heap_ok pq -> exists l, heap_Push pq x = Returns (with_items pq l) /\ l ≡ₚ x :: pq_items pq /\ heap_ok (with_items pq l).
Proof.
  intros [Hby Ho]. unfold heap_Push, Push. assert (Len (with_items pq (pq_items pq ++ [x])) = S (Len pq)) as Hlen by (unfold Len; cbn; rewrite length_app; cbn; lia).
  assert (forall k, k < Len pq -> kat (pq_items pq ++ [x]) k = kat (pq_items pq) k) as Hk by (intros k Hk; unfold kat; by rewrite lookup_app_l).
  rewrite Hlen. destruct (up_ok (S (S (Len pq))) (with_items pq (pq_items pq ++ [x])) (S (Len pq) - 1)) as (l & E & Hp & Hl); [done|lia..| | |].
  - rewrite Hlen. intros k Hkn Hne. assert (parent k < k) by (pose proof (parent_spec k ltac:(lia)); lia). cbn [with_items pq_items]. rewrite !Hk by lia. apply Ho; lia.
  - rewrite Hlen. intros _ k Hkn Hpk. pose proof (parent_spec k ltac:(lia)). lia.
  - exists l. split; [done|]. split; [rewrite Hp; cbn; by rewrite Permutation_app_comm|]. by split.
Qed.

(** The first item is the smallest. *)
Lemma heap_min pq k : heap_ok pq -> k < Len pq -> (kat (pq_items pq) 0 <= kat (pq_items pq) k)%Z.
Proof.
  intros [_ Ho]. induction (lt_wf k) as [k _ IH]. intros Hk. destruct (decide (k = 0)) as [->|]; [done|]. assert (parent k < k) by (pose proof (parent_spec k ltac:(lia)); lia).
  etrans; [apply (IH (parent k)); lia|]. apply Ho; lia.
Qed.

Lemma pop_ok pq : heap_ok pq -> 0 < Len pq -> exists x l, heap_Pop pq = Returns (x, with_items pq l) /\ pq_items pq ≡ₚ x :: l /\ heap_ok (with_items pq l) /\ Forall (fun y => (key x <= key y)%Z) l.
Proof.
  intros Hok Hlen. pose proof Hok as [Hby Ho]. unfold heap_Pop. destruct (Len pq) as [|n] eqn:En; [lia|]. destruct (Swap_eq pq 0 n ltac:(lia) ltac:(lia)) as (l1 & Es & Hp1 & Hk). rewrite Es. cbn [mbind go_bind].
  assert (length l1 = S n) as Hl1 by (by rewrite Hp1). destruct (down_ok (S n) (with_items pq l1) 0 n 0) as (l2 & E & Hp2 & Ho2 & Hkeep); [done|unfold Len; cbn; lia|lia|done| |lia|].
  { intros k Hkn _ Hne. assert (parent k < k) by (pose proof (parent_spec k ltac:(lia)); lia). cbn [with_items pq_items]. rewrite !Hk, (proj2 (Nat.eqb_neq (parent k) 0)), (proj2 (Nat.eqb_neq (parent k) n)), (proj2 (Nat.eqb_neq k 0)), (proj2 (Nat.eqb_neq k n)) by lia. apply Ho; lia. }
  rewrite E. cbn [mbind go_bind]. assert (length l2 = S n) as Hl2 by (rewrite Hp2; cbn; lia). unfold Pop, Len, Items. cbn [with_items pq_items pq_lessFunc]. rewrite Hl2. cbn [Nat.eqb]. replace (S n - 1) with n by lia.
  destruct (lookup_lt_is_Some_2 l2 n ltac:(lia)) as [x Ex]. rewrite Ex. cbn [mbind go_bind]. exists x, (take n l2). split; [done|].
  assert (pq_items pq ≡ₚ x :: take n l2) as Hp. { rewrite <-Hp1. cbn [with_items pq_items] in Hp2. rewrite <-Hp2. rewrite <-(take_drop_middle l2 n x Ex) at 1. rewrite drop_ge by lia. by rewrite Permutation_app_comm. }
  assert (key x = kat (pq_items pq) 0) as Hx. { specialize (Hkeep n (le_n n)). cbn [with_items pq_items] in Hkeep. rewrite Ex in Hkeep. pose proof (Hk n) as Hkn. rewrite Nat.eqb_refl in Hkn. unfold kat at 1 in Hkn. rewrite <-Hkeep in Hkn. cbn in Hkn. rewrite Hkn. by destruct (n =? 0) eqn:E0; [apply Nat.eqb_eq in E0 as ->|]. }
  split_and!; [done| |].
  - split; [done|]. unfold Len. cbn [with_items pq_items]. rewrite length_take, Hl2. intros k Hkn _. assert (parent k < k) by (pose proof (parent_spec k ltac:(lia)); lia). unfold kat. rewrite !lookup_take_lt by lia. apply Ho2; lia.
  - apply Forall_forall. intros y Hy. assert (y ∈ pq_items pq) as [k Hyk]%list_elem_of_lookup by (rewrite Hp; by right). rewrite Hx. etrans; [apply (heap_min pq k Hok); by apply lookup_lt_Some in Hyk|]. unfold kat. by rewrite Hyk.
Qed.

(** Emptying a queue gives its items in order. *)
Lemma drain_ok pq : heap_ok pq -> exists l, drain pq = Returns (l, with_items pq []) /\ l ≡ₚ pq_items pq /\ StronglySorted (fun a b => (key a <= key b)%Z) l.
Proof.
  unfold drain. remember (Len pq) as n eqn:En. revert pq En. induction n as [|n IH]; intros pq En Hok; cbn [drainLoop].
  - exists []. destruct pq as [f [|]]; [|done]. split_and!; [done|done|constructor].
  - destruct (pop_ok pq Hok ltac:(lia)) as (x & l & E & Hp & Hok' & Hx). rewrite E. cbn [mbind go_bind]. assert (length l = n) as Hl by (unfold Len in En; rewrite Hp in En; cbn in En; lia).
    destruct (IH (with_items pq l)) as (l' & E' & Hp' & Hs); [by unfold Len|done|]. rewrite E'. cbn [mbind go_bind]. exists (x :: l'). split_and!; [done|by rewrite Hp, Hp'|]. constructor; [done|]. by rewrite Hp'.
Qed.

End HeapFacts.

(** * The graph of dependent items (src/util/dag.go)

    A node is reached through pointers that are as good as its key, since there is one node for a
    key and it is never replaced. *)

Module Dag.
Import Heap.
Section Graph.
Context `{Countable K} {VO : VisitOrder}.

Record Node := mkNode { n_key : K; n_index : nat; n_weight : Z; n_pNum : Z; n_children : list K }.

Record Dag := mkDag { d_nodes : gmap K Node; d_indexs : gmap nat K }.

Inductive DagErr := ErrKeyNotFound | ErrKeyIsExisted.

Definition NewNode (key : K) (index : nat) (weight : Z) : Node := mkNode key index weight 0 [].

Definition NewDag : Dag := mkDag ∅ ∅.

Definition Index (dag : Dag) : nat := size (d_nodes dag).

Definition with_pNum (n : Node) (p : Z) : Node := mkNode (n_key n) (n_index n) (n_weight n) p (n_children n).
Definition with_child (n : Node) (c : K) : Node := mkNode (n_key n) (n_index n) (n_weight n) (n_pNum n) (n_children n ++ [c]).
Definition with_nodes (dag : Dag) (m : gmap K Node) : Dag := mkDag m (d_indexs dag).

Definition AddNode (dag : Dag) (key : K) (weight : Z) : result DagErr Dag :=
  match d_nodes dag !! key with
  | Some _ => Err ErrKeyIsExisted
  | None =>
      let index := size (d_nodes dag) in
      Ok (mkDag (<[key := NewNode key index weight]> (d_nodes dag)) (<[index := key]> (d_indexs dag)))
  end.

Definition AddEdge (dag : Dag) (fkey tkey : K) : result DagErr Dag :=
  match d_nodes dag !! fkey, d_nodes dag !! tkey with
  | Some from, Some to =>
      if bool_decide (tkey ∈ n_children from) then Err ErrKeyIsExisted
      else
        let m := <[tkey := with_pNum to (n_pNum to + 1)]> (d_nodes dag) in
        Ok (with_nodes dag (alter (fun n => with_child n tkey) fkey m))
  | _, _ => Err ErrKeyNotFound
  end.

Definition GetRootNodes (dag : Dag) : list K := omap (fun p => if (n_pNum p.2 =? 0)%Z then Some p.1 else None) (visit (d_nodes dag)).

Definition weight (dag : Dag) (k : K) : Z := from_option n_weight 0%Z (d_nodes dag !! k).

(** The children of a node that is done: those that wait for nothing else are next. *)
Fixpoint childLoop (children : list K) (dag : Dag) (tempNodes : list K) : go (Dag * list K) :=
  match children with
  | [] => Returns (dag, tempNodes)
  | c :: children =>
      match d_nodes dag !! c with
      | None => Panics
      | Some nchild =>
          let p := (n_pNum nchild - 1)%Z in
          childLoop children (with_nodes dag (<[c := with_pNum nchild p]> (d_nodes dag))) (if (p =? 0)%Z then tempNodes ++ [c] else tempNodes)
      end
  end.

Fixpoint rootLoop (rootNodes : list K) (dag : Dag) (queue : PriorityQueue K) (tempNodes : list K) : go (Dag * PriorityQueue K * list K) :=
  match rootNodes with
  | [] => Returns (dag, queue, tempNodes)
  | r :: rootNodes =>
      match d_nodes dag !! r with
      | None => Panics
      | Some node =>
          if (n_pNum node =? 0)%Z then
            queue ← heap_Push queue r;
            '(dag, tempNodes) ← childLoop (n_children node) dag tempNodes;
            rootLoop rootNodes dag queue tempNodes
          else rootLoop rootNodes dag queue tempNodes
      end
  end.

Fixpoint sortNodes (fuel : nat) (rootNodes : list K) (queue : PriorityQueue K) (sortedNodes : list K) (dag : Dag) : go (list K * Dag) :=
  match fuel with
  | O => Panics
  | S fuel =>
      '(dag, queue, tempNodes) ← rootLoop rootNodes dag queue [];
      '(level, queue) ← drain queue;
      let sortedNodes := sortedNodes ++ level in
      if 0 <? length tempNodes then sortNodes fuel tempNodes queue sortedNodes dag else Returns (sortedNodes, dag)
  end.

(** Sorting uses up the counts of parents; the graph is not used afterwards. *)
Definition TopoSort (dag : Dag) : go (list K * Dag) :=
  queue ← NewPriorityQueue (fun a b => (weight dag a <? weight dag b)%Z);
  sortNodes (S (size (d_nodes dag))) (GetRootNodes dag) queue [] dag.

Fixpoint circLoop (visit : K -> gmap K Z -> go (bool * gmap K Z)) (children : list K) (visited : gmap K Z) : go (bool * gmap K Z) :=
  match children with
  | [] => Returns (false, visited)
  | child :: children =>
      if (default 0 (visited !! child) =? 1)%Z then Returns (true, visited)
      else
        '(b, visited) ← visit child visited;
        if b : bool then Returns (true, visited) else circLoop visit children visited
  end.

Fixpoint hasCirclularDep (fuel : nat) (dag : Dag) (current : K) (visited : gmap K Z) : go (bool * gmap K Z) :=
  match fuel with
  | O => Panics
  | S fuel =>
      match d_nodes dag !! current with
      | None => Panics
      | Some node =>
          '(b, visited) ← circLoop (hasCirclularDep fuel dag) (n_children node) (<[current := 1%Z]> visited);
          if b : bool then Returns (true, visited) else Returns (false, <[current := 2%Z]> visited)
      end
  end.

Fixpoint circRoots (dag : Dag) (rootNodes : list K) (visited : gmap K Z) : go (bool * gmap K Z) :=
  match rootNodes with
  | [] => Returns (false, visited)
  | node :: rootNodes =>
      '(b, visited) ← hasCirclularDep (S (size (d_nodes dag))) dag node visited;
      if b : bool then Returns (true, visited) else circRoots dag rootNodes visited
  end.

Definition IsCirclular (dag : Dag) : go bool :=
  '(b, visited) ← circRoots dag (visit (d_nodes dag)).*1 ((fun _ => 0%Z) <$> d_nodes dag);
  Returns (b || existsb (fun p => (p.2 =? 0)%Z) (visit visited)).

End Graph.
Arguments Node K : clear implicits.
Arguments Dag K {_ _}.
End Dag.

(** * the graph is sorted when it has no cycle, and cycles are found

    [dag_ok] is the invariant of the graphs that [AddNode] and [AddEdge] build.  The search for
    cycles answers exactly whether there is one; without one, sorting lists every node once, after
    all its parents. *)

Import Heap Dag.

Section Graph.
Context `{Countable K} {VO : VisitOrder}.
Implicit Types (d : Dag K) (P S : gset K).

Definition edge d (a b : K) : Prop := exists n, d_nodes d !! a = Some n /\ b ∈ n_children n.

(** The parents of a node that are not in [P]. *)
Definition parents d (k : K) P : gmap K (Node K) := filter (fun p => k ∈ n_children p.2 /\ p.1 ∉ P) (d_nodes d).
Definition pcount d (k : K) P : Z := Z.of_nat (size (parents d k P)).

Record dag_ok d : Prop := {
  do_child : forall a b, edge d a b -> b ∈ dom (d_nodes d);
  do_nodup : forall a n, d_nodes d !! a = Some n -> NoDup (n_children n);
  do_pNum : forall k n, d_nodes d !! k = Some n -> n_pNum n = pcount d k ∅
}.

(** ** Building *)

Lemma NewDag_ok : dag_ok NewDag.
Proof. split; unfold edge; cbn; intros *; rewrite ?lookup_empty; naive_solver. Qed.

Lemma parents_dom d k P a : a ∈ dom (parents d k P) <-> edge d a k /\ a ∉ P.
Proof. rewrite elem_of_dom. unfold is_Some, parents, edge. setoid_rewrite map_lookup_filter_Some. naive_solver. Qed.

Lemma pcount_size d k P : pcount d k P = Z.of_nat (size (dom (parents d k P))).
Proof. unfold pcount. by rewrite size_dom. Qed.

Lemma pcount_ext d d' k P : (forall a, edge d a k <-> edge d' a k) -> pcount d k P = pcount d' k P.
Proof. intros He. rewrite !pcount_size. do 2 f_equal. apply set_eq. intros a. rewrite !parents_dom. by rewrite He. Qed.

Lemma pcount_zero d k P : pcount d k P = 0%Z <-> forall a, edge d a k -> a ∈ P.
Proof.
  rewrite pcount_size. split.
  - intros E a Ha. destruct (decide (a ∈ P)) as [|Hn]; [done|]. assert (size (dom (parents d k P)) = 0) as Hz%size_empty_inv by lia. assert (a ∈ dom (parents d k P)) by (by apply parents_dom). set_solver.
  - intros Ha. assert (dom (parents d k P) = ∅) as ->; [|by rewrite size_empty]. apply set_eq. intros a. rewrite parents_dom. set_solver.
Qed.

Lemma pcount_more d k a P P' : edge d a k -> a ∉ P -> (forall b, edge d b k -> b ∉ P <-> b = a \/ b ∉ P') -> a ∈ P' -> pcount d k P = (pcount d k P' + 1)%Z.
Proof.
  intros Ha Hn Hb HP'. rewrite !pcount_size. assert (dom (parents d k P) = {[a]} ∪ dom (parents d k P')) as ->.
  { apply set_eq. intros b. rewrite elem_of_union, elem_of_singleton, !parents_dom. split; [intros [H1 H2]; apply (Hb b H1) in H2; naive_solver|]. intros [->|[H1 H2]]; [done|]. split; [done|]. apply Hb; auto. }
  rewrite size_union, size_singleton; [lia|]. intros b. rewrite elem_of_singleton, parents_dom. naive_solver.
Qed.

Lemma AddNode_ok d k w d' : dag_ok d -> AddNode d k w = Ok d' -> dag_ok d' /\ (forall a b, edge d' a b <-> edge d a b) /\ dom (d_nodes d') = {[k]} ∪ dom (d_nodes d).
Proof.
  intros Hd. unfold AddNode. destruct (d_nodes d !! k) as [n|] eqn:Ek; [done|]. intros [= <-].
  assert (forall a b, edge (mkDag (<[k := NewNode k (size (d_nodes d)) w]> (d_nodes d)) (<[size (d_nodes d) := k]> (d_indexs d))) a b <-> edge d a b) as He.
  { intros a b. unfold edge. cbn [d_nodes]. destruct (decide (a = k)) as [->|Hne]; [|by rewrite lookup_insert_ne by done]. rewrite lookup_insert_eq, Ek. split; [|naive_solver]. intros (n & [= <-] & Hb). by apply not_elem_of_nil in Hb. }
  split_and!; [|done|cbn [d_nodes]; apply dom_insert_L]. split.
  - intros a b Hab%He. cbn [d_nodes]. rewrite dom_insert_L. apply elem_of_union_r. by eapply do_child.
  - intros a n. cbn [d_nodes]. intros [[<- <-]|[Hne Ha]]%lookup_insert_Some; [constructor|by eapply do_nodup].
  - intros a n. cbn [d_nodes]. intros [[<- <-]|[Hne Ha]]%lookup_insert_Some; [|rewrite (do_pNum _ Hd _ _ Ha); by apply pcount_ext].
    symmetry. apply pcount_zero. intros b Hb%He. apply (do_child _ Hd), elem_of_dom in Hb. rewrite Ek in Hb. by destruct Hb.
Qed.

Lemma AddEdge_ok d f t d' : dag_ok d -> AddEdge d f t = Ok d' -> dag_ok d' /\ (forall a b, edge d' a b <-> edge d a b \/ (a = f /\ b = t)) /\ dom (d_nodes d') = dom (d_nodes d).
Proof.
  intros Hd. unfold AddEdge. destruct (d_nodes d !! f) as [from|] eqn:Ef; [|done]. destruct (d_nodes d !! t) as [to|] eqn:Et; [|done]. case_bool_decide as Hin; [done|]. intros [= <-].
  set (d' := with_nodes _ _). assert (forall k, d_nodes d' !! k = (fun n => let n := if bool_decide (k = t) then with_pNum n (n_pNum n + 1) else n in if bool_decide (k = f) then with_child n t else n) <$> d_nodes d !! k) as Hl.
  { intros k. unfold d'. cbn [with_nodes d_nodes]. destruct (decide (k = f)) as [->|Hf].
    - rewrite lookup_alter_eq, (bool_decide_eq_true_2 (f = f)) by done. destruct (decide (f = t)) as [->|]; [rewrite lookup_insert_eq, bool_decide_eq_true_2, Et by done; done|rewrite lookup_insert_ne, bool_decide_eq_false_2 by done; done].
    - rewrite lookup_alter_ne, (bool_decide_eq_false_2 (k = f)) by done. destruct (decide (k = t)) as [->|]; [rewrite lookup_insert_eq, bool_decide_eq_true_2, Et by done; done|rewrite lookup_insert_ne, bool_decide_eq_false_2 by done; by destruct (d_nodes d !! k)]. }
  assert (forall a b, edge d' a b <-> edge d a b \/ (a = f /\ b = t)) as He.
  { intros a b. unfold edge. rewrite Hl. destruct (d_nodes d !! a) as [n|] eqn:Ea; cbn [fmap option_fmap option_map]; [|naive_solver]. split.
    - intros (n' & [= <-] & Hb). revert Hb. do 2 case_bool_decide; cbn [with_child with_pNum n_children]; rewrite ?elem_of_app, ?list_elem_of_singleton; naive_solver.
    - intros [(n' & [= <-] & Hb)|[-> ->]]; (eexists; split; [done|]); do 2 case_bool_decide; cbn [with_child with_pNum n_children]; rewrite ?elem_of_app, ?list_elem_of_singleton; naive_solver. }
  assert (dom (d_nodes d') = dom (d_nodes d)) as Hdom by (apply set_eq; intros k; rewrite !elem_of_dom, Hl; by rewrite fmap_is_Some).
  split_and!; [|done|done]. split.
  - intros a b [Hab|[-> ->]]%He; rewrite Hdom; [by eapply do_child|by apply elem_of_dom].
  - intros a n. rewrite Hl. destruct (d_nodes d !! a) as [m|] eqn:Ea; [|done]. cbn. intros [= <-]. pose proof (do_nodup _ Hd _ _ Ea). do 2 case_bool_decide; cbn [with_child with_pNum n_children]; try done; apply NoDup_app; (split_and!; [done| |apply NoDup_singleton]); intros x Hx ->%list_elem_of_singleton; apply Hin; congruence.
  - intros k n. rewrite Hl. destruct (d_nodes d !! k) as [m|] eqn:Ek; [|done]. cbn. intros [= <-]. pose proof (do_pNum _ Hd _ _ Ek) as Hp. destruct (decide (k = t)) as [->|Hne].
    + rewrite (bool_decide_eq_true_2 (t = t)) by done. assert (pcount d' t ∅ = pcount d t ∅ + 1)%Z as ->; [|case_bool_decide; cbn; lia]. assert (edge d' f t) as Hft by (apply He; by right).
      rewrite (pcount_more d' t f ∅ {[f]} Hft); [|apply not_elem_of_empty| |by apply elem_of_singleton].
      2: { intros b _. rewrite not_elem_of_singleton. split; [intros _; destruct (decide (b = f)); auto|intros _; apply not_elem_of_empty]. }
      f_equal. rewrite !pcount_size. do 2 f_equal. apply set_eq. intros a. rewrite !parents_dom, He, not_elem_of_singleton. split; [intros [[Ha|[-> _]] Hn]; [split; [done|apply not_elem_of_empty]|done]|]. intros [Ha _]. split; [by left|]. intros ->. apply Hin. destruct Ha as (n & En & Hn). congruence.
    + rewrite (bool_decide_eq_false_2 (k = t)) by done. assert (pcount d' k ∅ = pcount d k ∅) as -> by (apply pcount_ext; intros a; rewrite He; split; [intros [|[_ ?]]; done|by left]). case_bool_decide; cbn; done.
Qed.

(** ** Cycles *)

Definition cyclic d : Prop := exists k, tc (edge d) k k.

(** The nodes that are being visited are [S]; each of them leads to the current one. *)
Definition visiting (v : gmap K Z) S : Prop := forall k, v !! k = Some 1%Z <-> k ∈ S.

(** A visit that finds a cycle or leaves the marks as it found them. *)
Definition visited_ok d x S (v : gmap K Z) (r : go (bool * gmap K Z)) : Prop :=
  exists b v', r = Returns (b, v') /\ if b : bool then cyclic d else visiting v' S /\ dom v' = dom v /\ v' !! x = Some 2%Z /\ forall k, v !! k = Some 2%Z -> v' !! k = Some 2%Z.

Lemma circLoop_ok d x S f children v : x ∈ S -> (forall s, s ∈ S -> rtc (edge d) s x) -> (forall c, c ∈ children -> edge d x c) ->
  (forall c v, edge d x c -> c ∉ S -> visiting v S -> dom v = dom (d_nodes d) -> visited_ok d c S v (f c v)) -> visiting v S -> dom v = dom (d_nodes d) ->
  exists b v', circLoop f children v = Returns (b, v') /\ if b : bool then cyclic d else visiting v' S /\ dom v' = dom v /\ forall k, v !! k = Some 2%Z -> v' !! k = Some 2%Z.
Proof.
  intros Hx Hs Hc Hf. revert v. induction children as [|c children IH]; intros v Hv Hd; cbn [circLoop]; [by exists false, v|]. assert (edge d x c) as Hxc by (apply Hc; by left).
  destruct (Z.eqb_spec (default 0%Z (v !! c)) 1) as [E|E].
  - exists true, v. split; [done|]. exists x. apply (tc_rtc_r x c); [by apply tc_once|]. apply Hs, Hv. by destruct (v !! c); cbn in E; [subst|].
  - assert (c ∉ S) as Hn by (intros Hin%Hv; by rewrite Hin in E). destruct (Hf c v Hxc Hn Hv Hd) as (b & v1 & -> & Hb). cbn [mbind go_bind]. destruct b; [by exists true, v1|]. destruct Hb as (Hv1 & Hd1 & _ & H2).
    destruct (IH ltac:(intros; apply Hc; by right) v1 Hv1 ltac:(congruence)) as (b & v2 & E2 & Hb). exists b, v2. split; [done|]. destruct b; [done|]. destruct Hb as (? & ? & ?). split_and!; [done|congruence|auto].
Qed.

Lemma hasCirclularDep_ok fuel d x S v : dag_ok d -> x ∈ dom (d_nodes d) -> x ∉ S -> S ⊆ dom (d_nodes d) -> size (dom (d_nodes d)) <= size S + fuel -> (forall s, s ∈ S -> rtc (edge d) s x) ->
  visiting v S -> dom v = dom (d_nodes d) -> visited_ok d x S v (hasCirclularDep fuel d x v).
Proof.
  intros Hd. revert x S v. induction fuel as [|fuel IH]; intros x S v Hx Hn HS Hf Hs Hv Hdom.
  - assert ({[x]} ∪ S ⊆ dom (d_nodes d)) as Hsub%subseteq_size by set_solver. rewrite size_union, size_singleton in Hsub by set_solver. lia.
  - unfold visited_ok. cbn [hasCirclularDep]. pose proof Hx as [n En]%elem_of_dom. rewrite En. assert (visiting (<[x := 1%Z]> v) ({[x]} ∪ S)) as Hv1.
    { intros k. rewrite elem_of_union, elem_of_singleton, <-(Hv k). destruct (decide (k = x)) as [->|Hne]; [rewrite lookup_insert_eq; tauto|rewrite lookup_insert_ne by done; tauto]. }
    destruct (circLoop_ok d x ({[x]} ∪ S) (hasCirclularDep fuel d) (n_children n) (<[x := 1%Z]> v)) as (b & v1 & E & Hb); [set_solver| | | |done|rewrite dom_insert_L; set_solver|].
    + intros s [->%elem_of_singleton|Hin]%elem_of_union; [done|by apply Hs].
    + intros c Hc. by exists n.
    + intros c v2 Hc Hcn Hv2 Hd2. apply IH; [by eapply do_child|done|set_solver| | |done|done].
      * rewrite size_union, size_singleton by set_solver. lia.
      * intros s [->%elem_of_singleton|Hin]%elem_of_union; [by apply rtc_once|]. eapply rtc_r; [by apply Hs|done].
    + rewrite E. cbn [mbind go_bind]. destruct b; [by exists true, v1|]. destruct Hb as (Hv2 & Hd2 & H2). eexists false, _. split; [done|]. rewrite lookup_insert_eq. split_and!.
      * intros k. destruct (decide (k = x)) as [->|Hne]; [rewrite lookup_insert_eq; split; [done|intros ?; done]|]. rewrite lookup_insert_ne, (Hv2 k) by done. set_solver.
      * rewrite dom_insert_L, Hd2, dom_insert_L. set_solver.
      * done.
      * intros k Hk. destruct (decide (k = x)) as [->|Hne]; [by rewrite lookup_insert_eq|]. rewrite lookup_insert_ne by done. apply H2. by rewrite lookup_insert_ne.
Qed.

(** A search that ends without a cycle bounds the length of the paths. *)
Lemma hasCirclularDep_bound fuel d x v v' : hasCirclularDep fuel d x v = Returns (false, v') -> forall n y, nsteps (edge d) n x y -> n < fuel.
Proof.
  revert x v v'. induction fuel as [|fuel IH]; intros x v v'; cbn [hasCirclularDep]; [done|]. destruct (d_nodes d !! x) as [m|] eqn:Ex; [|done].
  destruct (circLoop _ _ _) as [[[|] v1]|] eqn:E; cbn [mbind go_bind]; [done| |done]. intros _ n y Hp. destruct Hp as [|n x c y (m' & Em & Hc) Hp]; [lia|]. rewrite Ex in Em. injection Em as <-.
  apply le_n_S. revert E Hc. generalize (<[x := 1%Z]> v) as w. induction (n_children m) as [|c' cs IHc]; intros w; cbn [circLoop]; [by intros _ ?%not_elem_of_nil|]. destruct (_ =? 1)%Z; [done|].
  destruct (hasCirclularDep fuel d c' w) as [[[|] w1]|] eqn:Ec; cbn [mbind go_bind]; [done| |done]. intros E [->|Hc]%elem_of_cons; [|by eapply IHc]. pose proof (IH _ _ _ Ec _ _ Hp). lia.
Qed.

Lemma circRoots_ok d roots v : dag_ok d -> (forall x, x ∈ roots -> x ∈ dom (d_nodes d)) -> visiting v ∅ -> dom v = dom (d_nodes d) ->
  exists b v', circRoots d roots v = Returns (b, v') /\ if b : bool then cyclic d else dom v' = dom v /\ (forall k, v !! k = Some 2%Z -> v' !! k = Some 2%Z) /\
    forall x, x ∈ roots -> v' !! x = Some 2%Z /\ forall n y, nsteps (edge d) n x y -> n <= size (d_nodes d).
Proof.
  intros Hd. revert v. induction roots as [|x roots IH]; intros v Hr Hv Hdom; cbn [circRoots]; [exists false, v; split_and!; try done; by intros x ?%not_elem_of_nil|].
  destruct (hasCirclularDep_ok (S (size (d_nodes d))) d x ∅ v Hd) as (b & v1 & E & Hb); [apply Hr; by left|set_solver|set_solver|rewrite size_dom; lia|set_solver|done|done|].
  rewrite E. cbn [mbind go_bind]. destruct b; [by exists true, v1|]. destruct Hb as (Hv1 & Hd1 & Hx & H2). destruct (IH v1 ltac:(intros; apply Hr; by right) Hv1 ltac:(congruence)) as (b & v2 & E2 & Hb). exists b, v2. split; [done|].
  destruct b; [done|]. destruct Hb as (Hd2 & H3 & Hall). split_and!; [congruence|auto|]. intros y [->|Hy]%elem_of_cons; [|by apply Hall]. split; [auto|]. intros n z Hp. pose proof (hasCirclularDep_bound _ _ _ _ _ E _ _ Hp). lia.
Qed.

Lemma nsteps_tc {A} (R : A -> A -> Prop) x : tc R x x -> forall n, exists y, nsteps R n x y /\ tc R y x.
Proof.
  intros Hc n. induction n as [|n (y & Hp & Hy)]; [by exists x; split; [constructor|]|]. assert (exists z, R y z /\ tc R z x) as (z & Hz & Hzx).
  { destruct Hy as [y z|y w z]; eauto. }
  exists z. split; [by eapply nsteps_r|done].
Qed.

(** Whether there is a cycle. *)
Lemma IsCirclular_ok d : dag_ok d -> exists b, IsCirclular d = Returns b /\ (b = true <-> cyclic d) /\ (b = false -> forall x n y, nsteps (edge d) n x y -> n <= size (d_nodes d)).
Proof.
  intros Hd. unfold IsCirclular. set (v := (fun _ => 0%Z) <$> d_nodes d). destruct (circRoots_ok d (visit (d_nodes d)).*1 v Hd) as (b & v1 & E & Hb).
  - intros x Hx%visit_keys. by apply elem_of_dom.
  - intros k. unfold v. rewrite lookup_fmap. split; [|set_solver]. by destruct (d_nodes d !! k).
  - unfold v. apply dom_fmap_L.
  - rewrite E. cbn [mbind go_bind]. destruct b; cbn [orb]; [exists true; split_and!; done|]. destruct Hb as (Hd1 & _ & Hall).
    assert (existsb (fun p => (p.2 =? 0)%Z) (visit v1) = false) as ->.
    { apply not_true_is_false. intros ([k z] & Hin & Hz)%existsb_exists. cbn in Hz. apply Z.eqb_eq in Hz as ->. apply list_elem_of_In, visit_lookup in Hin. assert (k ∈ dom v1) as Hk by (by apply elem_of_dom).
      rewrite Hd1 in Hk. unfold v in Hk. rewrite dom_fmap_L in Hk. destruct (Hall k) as [H2 _]; [by apply visit_keys, elem_of_dom|]. congruence. }
    assert (forall x n y, nsteps (edge d) n x y -> n <= size (d_nodes d)) as Hbound.
    { intros x n y Hp. destruct (decide (x ∈ dom (d_nodes d))) as [Hx|Hx]; [apply (Hall x) with (y := y); [by apply visit_keys, elem_of_dom|done]|]. destruct Hp as [|n x z y (m & Em & _)]; [lia|]. destruct Hx. by apply elem_of_dom. }
    exists false. split; [done|]. split; [|done]. split; [done|]. intros [k Hk]. destruct (nsteps_tc (edge d) k Hk (S (size (d_nodes d)))) as (y & Hp & _). apply Hbound in Hp. lia.
Qed.

(** ** Sorting *)

(** The graph after the nodes of [P] are done: the others wait for their parents outside of [P]. *)
Definition after d P (d' : Dag K) : Prop := forall k, d_nodes d' !! k = (fun n => with_pNum n (pcount d k P)) <$> d_nodes d !! k.

Lemma pcount_done d r n k P : d_nodes d !! r = Some n -> r ∉ P -> pcount d k ({[r]} ∪ P) = (if bool_decide (k ∈ n_children n) then pcount d k P - 1 else pcount d k P)%Z.
Proof.
  intros Er Hr. case_bool_decide as Hk.
  - rewrite (pcount_more d k r P ({[r]} ∪ P)); [lia|by exists n|done| |set_solver]. intros b _. rewrite not_elem_of_union, not_elem_of_singleton. destruct (decide (b = r)) as [->|]; naive_solver.
  - rewrite !pcount_size. do 2 f_equal. apply set_eq. intros a. rewrite !parents_dom, not_elem_of_union, not_elem_of_singleton. split; [naive_solver|]. intros [Ha Hn]. split_and!; [done| |done]. intros ->. apply Hk. destruct Ha as (m & Em & Hm). congruence.
Qed.

Lemma childLoop_ok children d temp : NoDup children -> (forall c, c ∈ children -> c ∈ dom (d_nodes d)) ->
  exists d', childLoop children d temp = Returns (d', temp ++ filter (fun c => from_option n_pNum 0%Z (d_nodes d !! c) = 1%Z) children) /\
    forall k, d_nodes d' !! k = (fun n => if bool_decide (k ∈ children) then with_pNum n (n_pNum n - 1) else n) <$> d_nodes d !! k.
Proof.
  revert d temp. induction children as [|c children IH]; intros d temp Hd Hc; cbn [childLoop]; [exists d; split; [by rewrite app_nil_r|]; intros k; by destruct (d_nodes d !! k)|].
  apply NoDup_cons in Hd as [Hn Hd]. pose proof (Hc c ltac:(by left)) as [n En]%elem_of_dom. rewrite En. set (d1 := with_nodes d _).
  assert (forall k, d_nodes d1 !! k = if decide (k = c) then Some (with_pNum n (n_pNum n - 1)) else d_nodes d !! k) as Hl by (intros k; unfold d1; cbn; destruct (decide (k = c)) as [->|]; [by rewrite lookup_insert_eq|by rewrite lookup_insert_ne]).
  destruct (IH d1 (if (n_pNum n - 1 =? 0)%Z then temp ++ [c] else temp) Hd) as (d' & E & Hk).
  { intros c' Hc'. apply elem_of_dom. rewrite Hl. destruct (decide _); [done|]. apply elem_of_dom, Hc. by right. }
  exists d'. rewrite E. split.
  - do 2 f_equal. rewrite filter_cons, En. cbn [from_option]. assert (filter (fun c => from_option n_pNum 0%Z (d_nodes d1 !! c) = 1%Z) children = filter (fun c => from_option n_pNum 0%Z (d_nodes d !! c) = 1%Z) children) as ->.
    { clear -Hl Hn. induction children as [|x l IHl]; [done|]. apply not_elem_of_cons in Hn as [Hx Hn]. rewrite !filter_cons, Hl, IHl by done. by rewrite (decide_False (P := x = c)) by congruence. }
    destruct (Z.eqb_spec (n_pNum n - 1) 0) as [E1|E1]; [rewrite decide_True by lia; by rewrite <-app_assoc|by rewrite decide_False by lia].
  - intros k. rewrite Hk, Hl. destruct (decide (k = c)) as [->|Hne]; [rewrite En; cbn; rewrite (bool_decide_eq_false_2 (c ∈ children)) by done; by rewrite bool_decide_eq_true_2 by (by left)|].
    destruct (d_nodes d !! k); [|done]. cbn. f_equal. by rewrite (bool_decide_ext (k ∈ c :: children) (k ∈ children)) by (rewrite elem_of_cons; naive_solver).
Qed.

Lemma pcount_nonneg d k P : (0 <= pcount d k P)%Z.
Proof. unfold pcount. lia. Qed.

Lemma pcount_mono d k P P' : P ⊆ P' -> pcount d k P = 0%Z -> pcount d k P' = 0%Z.
Proof. intros HP. rewrite !pcount_zero. set_solver. Qed.

(** The nodes that wait for nothing after [P] and waited for something before. *)
Definition freed d P0 P (temp : list K) : Prop := NoDup temp /\ forall c, c ∈ temp <-> c ∈ dom (d_nodes d) /\ (0 < pcount d c P0)%Z /\ pcount d c P = 0%Z.

Lemma freed_more d P0 P r n temp : dag_ok d -> P0 ⊆ P -> r ∉ P -> d_nodes d !! r = Some n -> freed d P0 P temp -> freed d P0 ({[r]} ∪ P) (temp ++ filter (fun c => pcount d c P = 1%Z) (n_children n)).
Proof.
  intros Hd HP Hr Er [Hn Ht]. split.
  - apply NoDup_app. split_and!; [done| |apply NoDup_filter; by eapply do_nodup]. intros c (_ & _ & Hc)%Ht [Hc1 _]%list_elem_of_filter. lia.
  - intros c. rewrite elem_of_app, Ht, list_elem_of_filter, (pcount_done d r n c P Er Hr). split.
    + intros [(Hc & H0 & H1)|[H1 Hc]].
      * split_and!; [done|done|]. case_bool_decide as Hin; [|done]. exfalso. apply Hr. apply (proj1 (pcount_zero d c P) H1). by exists n.
      * rewrite bool_decide_eq_true_2 by done. assert (edge d r c) as Hrc by (by exists n). split_and!; [by eapply do_child| |lia]. pose proof (pcount_nonneg d c P0). assert (pcount d c P0 <> 0%Z); [|lia]. intros Hz. apply Hr, HP. by apply (proj1 (pcount_zero d c P0) Hz).
    + intros (Hc & H0 & H1). case_bool_decide; [right; split; [lia|done]|by left].
Qed.

Lemma rootLoop_ok key d P0 P roots dc queue temp : dag_ok d -> after d P dc -> NoDup roots -> (forall r, r ∈ roots -> r ∈ dom (d_nodes d) /\ (r ∉ P) /\ pcount d r P0 = 0%Z) -> P0 ⊆ P -> heap_ok key queue -> freed d P0 P temp ->
  exists d' l temp', rootLoop roots dc queue temp = Returns (d', with_items queue l, temp') /\ after d (list_to_set roots ∪ P) d' /\ heap_ok key (with_items queue l) /\ l ≡ₚ roots ++ pq_items queue /\ freed d P0 (list_to_set roots ∪ P) temp'.
Proof.
  intros Hd. revert P dc queue temp. induction roots as [|r roots IH]; intros P dc queue temp Ha Hn Hr HP Hq Ht; cbn [rootLoop].
  - exists dc, (pq_items queue), temp. assert (list_to_set [] ∪ P = P) as -> by set_solver. destruct queue. done.
  - apply NoDup_cons in Hn as [Hrn Hn]. destruct (Hr r ltac:(by left)) as ((n & En)%elem_of_dom & Hrp & Hr0). pose proof (Ha r) as Er. rewrite En in Er. cbn in Er. rewrite Er. cbn [n_pNum with_pNum n_children].
    rewrite (pcount_mono d r P0 P HP Hr0). cbn [Z.eqb]. destruct (push_ok key queue r Hq) as (l1 & E1 & Hp1 & Hq1). rewrite E1. cbn [mbind go_bind].
    destruct (childLoop_ok (n_children n) dc temp) as (d1 & E2 & Hl); [by eapply do_nodup| |].
    { intros c Hc. apply elem_of_dom. rewrite Ha, fmap_is_Some. apply elem_of_dom. apply (do_child _ Hd r). by exists n. }
    rewrite E2. cbn [mbind go_bind]. assert (filter (fun c => from_option n_pNum 0%Z (d_nodes dc !! c) = 1%Z) (n_children n) = filter (fun c => pcount d c P = 1%Z) (n_children n)) as ->.
    { assert (Forall (fun c => c ∈ dom (d_nodes d)) (n_children n)) as Hall by (apply Forall_forall; intros c Hc; apply (do_child _ Hd r); by exists n). clear -Ha Hall. induction Hall as [|c l [m Em]%elem_of_dom _ IHl]; [done|]. rewrite !filter_cons, Ha, Em, IHl. done. }
    destruct (IH ({[r]} ∪ P) d1 (with_items queue l1) (temp ++ filter (fun c => pcount d c P = 1%Z) (n_children n))) as (d' & l & temp' & E & Ha' & Hq' & Hp' & Hf'); [|done| |set_solver|done|by apply freed_more|].
    + intros k. rewrite Hl, Ha. destruct (d_nodes d !! k) as [m|] eqn:Ek; [|done]. cbn. f_equal. rewrite (pcount_done d r n k P En Hrp). by case_bool_decide.
    + intros r' Hr'. destruct (Hr r' ltac:(by right)) as (? & ? & ?). split_and!; [done| |done]. rewrite not_elem_of_union, not_elem_of_singleton. split; [by intros ->|done].
    + exists d', l, temp'. rewrite E. assert (list_to_set (r :: roots) ∪ P = list_to_set roots ∪ ({[r]} ∪ P)) as -> by (cbn; set_solver). split_and!; [done|done|done| |done]. rewrite Hp'. cbn [with_items pq_items]. rewrite Hp1. cbn. by rewrite Permutation_middle.
Qed.

(** Every node has its parents before it. *)
Definition topological d (l : list K) : Prop := forall i b a, l !! i = Some b -> edge d a b -> exists j, j < i /\ l !! j = Some a.

Lemma topological_app d l level : topological d l -> (forall b a, b ∈ level -> edge d a b -> a ∈ l) -> topological d (l ++ level).
Proof.
  intros Hl Hv i b a [Hi|[Hi Hb]]%lookup_app_Some He.
  - destruct (Hl i b a Hi He) as (j & Hj & Ha). exists j. split; [done|]. by apply lookup_app_l_Some.
  - apply list_elem_of_lookup_2 in Hb. pose proof (Hv b a Hb He) as [j Ha]%list_elem_of_lookup. exists j. pose proof (lookup_lt_Some _ _ _ Ha). split; [lia|]. by apply lookup_app_l_Some.
Qed.

(** Without a cycle nothing waits for ever. *)
Lemma all_done d P : dag_ok d -> (forall x n y, nsteps (edge d) n x y -> n <= size (d_nodes d)) -> (forall k, k ∈ dom (d_nodes d) -> k ∉ P -> pcount d k P <> 0%Z) -> forall k, k ∈ dom (d_nodes d) -> k ∈ P.
Proof.
  intros Hd Hb Hw k Hk. destruct (decide (k ∈ P)) as [|Hn]; [done|]. exfalso. assert (forall n, exists y, y ∈ dom (d_nodes d) /\ (y ∉ P) /\ nsteps (edge d) n y k) as Hp.
  { intros n. induction n as [|n (y & Hy & Hyn & Hp)]; [exists k; split_and!; [done|done|constructor]|]. destruct (decide (dom (parents d y P) = ∅)) as [E|E].
    - destruct (Hw y Hy Hyn). by rewrite pcount_size, E, size_empty.
    - apply set_choose_L in E as [a [Ha Han]%parents_dom]. exists a. split_and!; [|done|by econstructor]. destruct Ha as (m & Em & _). by apply elem_of_dom. }
  destruct (Hp (S (size (d_nodes d)))) as (y & _ & _ & Hy). apply Hb in Hy. lia.
Qed.

(** Between two levels: [P] is done and listed, [roots] are the nodes that wait for nothing. *)
Record level_ok d P (roots sorted : list K) : Prop := {
  lv_done : forall k, k ∈ sorted <-> k ∈ P;
  lv_nodup : NoDup sorted;
  lv_sub : P ⊆ dom (d_nodes d);
  lv_closed : forall k, k ∈ P -> pcount d k P = 0%Z;
  lv_topo : topological d sorted;
  lv_distinct : NoDup roots;
  lv_roots : forall k, k ∈ roots <-> k ∈ dom (d_nodes d) /\ (k ∉ P) /\ pcount d k P = 0%Z
}.

Lemma level_next d P roots sorted level temp : level_ok d P roots sorted -> level ≡ₚ roots -> freed d P (list_to_set roots ∪ P) temp -> level_ok d (list_to_set roots ∪ P) temp (sorted ++ level).
Proof.
  intros [Hd Hn Hs Hc Ht Hrn Hr] Hl [Hfn Hf]. assert (forall k, k ∈ level <-> k ∈ roots) as Hlr by (intros k; by rewrite Hl). split.
  - intros k. rewrite elem_of_app, Hd, Hlr, elem_of_union, elem_of_list_to_set. tauto.
  - apply NoDup_app. split_and!; [done| |by rewrite Hl]. intros k Hk%Hd [_ [Hk' _]]%Hlr%Hr. done.
  - intros k [Hk%elem_of_list_to_set|Hk]%elem_of_union; [by apply Hr|by apply Hs].
  - intros k [Hk%elem_of_list_to_set|Hk]%elem_of_union; (eapply pcount_mono; [apply union_subseteq_r|]); [by apply Hr|by apply Hc].
  - apply topological_app; [done|]. intros b a (_ & _ & Hb)%Hlr%Hr Ha. apply Hd. by apply (proj1 (pcount_zero d b P) Hb).
  - done.
  - intros k. rewrite Hf, not_elem_of_union, not_elem_of_list_to_set. split.
    + intros (Hk & Hp & Hz). split_and!; [done| | |done]; intros Hin; [apply Hr in Hin as (_ & _ & Hin)|apply Hc in Hin]; lia.
    + intros (Hk & [Hn1 Hn2] & Hz). split_and!; [done| |done]. pose proof (pcount_nonneg d k P). assert (pcount d k P <> 0%Z); [|lia]. intros Hz'. apply Hn1. by apply Hr.
Qed.

Lemma sortNodes_ok key fuel d P roots queue sorted dc : dag_ok d -> (forall x n y, nsteps (edge d) n x y -> n <= size (d_nodes d)) -> after d P dc -> heap_ok key queue -> pq_items queue = [] ->
  level_ok d P roots sorted -> size (dom (d_nodes d)) < fuel + size P -> exists l d', sortNodes fuel roots queue sorted dc = Returns (l, d') /\ NoDup l /\ (forall k, k ∈ l <-> k ∈ dom (d_nodes d)) /\ topological d l.
Proof.
  intros Hd Hb. revert P roots queue sorted dc. induction fuel as [|fuel IH]; intros P roots queue sorted dc Ha Hq Hqi Hlv Hf; [pose proof (subseteq_size _ _ (lv_sub _ _ _ _ Hlv)); lia|]. cbn [sortNodes].
  destruct (rootLoop_ok key d P P roots dc queue []) as (d1 & l1 & temp & E1 & Ha1 & Hq1 & Hp1 & Hf1); [done|done|apply Hlv| |done|done| |].
  { intros r Hr. by apply (lv_roots _ _ _ _ Hlv). }
  { split; [constructor|]. intros c. split; [by intros ?%not_elem_of_nil|]. lia. }
  rewrite E1. cbn [mbind go_bind]. destruct (drain_ok key _ Hq1) as (level & E2 & Hp2 & _). rewrite E2. cbn [mbind go_bind with_items pq_items]. cbn [with_items pq_items] in Hp2. rewrite Hp1, Hqi, app_nil_r in Hp2.
  pose proof (level_next _ _ _ _ _ _ Hlv Hp2 Hf1) as Hlv1. destruct temp as [|t temp]; cbn [length Nat.ltb Nat.leb].
  - eexists _, _. split; [done|]. split; [apply Hlv1|]. split; [|apply Hlv1]. intros k. rewrite (lv_done _ _ _ _ Hlv1). split; [apply (lv_sub _ _ _ _ Hlv1)|]. apply (all_done d); [done|done|]. intros k' Hk Hn Hz.
    assert (k' ∈ []) as Hin by (apply (lv_roots _ _ _ _ Hlv1); done). by apply not_elem_of_nil in Hin.
  - apply (IH (list_to_set roots ∪ P)); [done|by split; [apply Hq1|intros k Hk; cbn in Hk; lia]|done|done|]. assert (roots <> []) as Hne.
    { intros ->. destruct (proj1 (proj2 Hf1 t) ltac:(by left)) as (_ & H0 & H1). assert (list_to_set [] ∪ P = P) as Hx by set_solver. rewrite Hx in H1. lia. }
    destruct roots as [|r roots]; [done|]. assert (r ∉ P) as Hr by (by apply (lv_roots _ _ _ _ Hlv); left). assert (size ({[r]} ∪ P) <= size (list_to_set (r :: roots) ∪ P)) as Hsz by (apply subseteq_size; cbn; set_solver).
    rewrite size_union, size_singleton in Hsz by set_solver. lia.
Qed.

(** A graph without a cycle is listed completely, each node once and after its parents. *)
Lemma TopoSort_ok d : dag_ok d -> IsCirclular d = Returns false -> exists l d', TopoSort d = Returns (l, d') /\ NoDup l /\ (forall k, k ∈ l <-> k ∈ dom (d_nodes d)) /\ topological d l.
Proof.
  intros Hd E. destruct (IsCirclular_ok d Hd) as (b & E' & _ & Hb). rewrite E in E'. injection E' as <-. specialize (Hb eq_refl). unfold TopoSort, NewPriorityQueue.
  destruct (init_ok (weight d) (mkQueue (fun a b => (weight d a <? weight d b)%Z) [])) as (l & -> & Hl & Hq); [done|]. cbn [mbind go_bind]. apply Permutation_nil_r in Hl as ->.
  apply (sortNodes_ok (weight d) _ d ∅); [done|done| |done|done| |rewrite size_dom, size_empty; lia].
  - intros k. destruct (d_nodes d !! k) as [n|] eqn:Ek; [|done]. cbn. rewrite <-(do_pNum _ Hd _ _ Ek). by destruct n.
  - split.
    + intros k. rewrite elem_of_nil. set_solver.
    + constructor.
    + set_solver.
    + set_solver.
    + intros i b a Hi. by rewrite lookup_nil in Hi.
    + unfold GetRootNodes. pose proof (visit_nodup (d_nodes d)) as Hn. induction (visit (d_nodes d)) as [|[k n] v IHv]; [constructor|]. cbn in Hn. apply NoDup_cons in Hn as [Hk Hn]. cbn [omap list_omap]. cbn [fst snd]. destruct (n_pNum n =? 0)%Z; [|by apply IHv].
      constructor; [|by apply IHv]. intros ([k' n'] & Hin & Hs)%list_elem_of_omap. cbn in Hs. destruct (n_pNum n' =? 0)%Z; [|done]. injection Hs as ->. apply Hk. apply list_elem_of_fmap. by exists (k, n').
    + intros k. unfold GetRootNodes. rewrite list_elem_of_omap. split.
      * intros ([k' n] & Hin%visit_lookup & Hs). cbn in Hs. destruct (Z.eqb_spec (n_pNum n) 0) as [Ez|]; [|done]. injection Hs as ->. split_and!; [by apply elem_of_dom|set_solver|]. by rewrite <-(do_pNum _ Hd _ _ Hin).
      * intros ([n Hn]%elem_of_dom & _ & Hz). exists (k, n). split; [by apply visit_lookup|]. cbn. by rewrite (do_pNum _ Hd _ _ Hn), Hz.
Qed.

End Graph.
