(* ===== verification/Opcode.v ===== *)
(** * Opcode: the instruction set of the script engine (src/script/opcode.go)

    The opcodes are bytes with the names of the source; [opCodeToName] is the
    mnemonic table of the disassembler. *)

From S2P Require Import Prelude.

Module Opcode.

(** ** The opcode constants *)

Definition OP0 : byte := x00.
Definition OPFALSE : byte := x00.
Definition OPDATA20 : byte := x14.
Definition OPPUSHDATA1 : byte := x4c.
Definition OPPUSHDATA2 : byte := x4d.
Definition OPPUSHDATA4 : byte := x4e.
Definition OP1NEGATE : byte := x4f.
Definition OPRESERVED : byte := x50.
Definition OP1 : byte := x51.
Definition OPTRUE : byte := x51.
Definition OP2 : byte := x52.
Definition OP3 : byte := x53.
Definition OP4 : byte := x54.
Definition OP5 : byte := x55.
Definition OP6 : byte := x56.
Definition OP7 : byte := x57.
Definition OP8 : byte := x58.
Definition OP9 : byte := x59.
Definition OP10 : byte := x5a.
Definition OP11 : byte := x5b.
Definition OP12 : byte := x5c.
Definition OP13 : byte := x5d.
Definition OP14 : byte := x5e.
Definition OP15 : byte := x5f.
Definition OP16 : byte := x60.
Definition OPNOP : byte := x61.
Definition OPVER : byte := x62.
Definition OPIF : byte := x63.
Definition OPNOTIF : byte := x64.
Definition OPVERIF : byte := x65.
Definition OPVERNOTIF : byte := x66.
Definition OPELSE : byte := x67.
Definition OPENDIF : byte := x68.
Definition OPVERIFY : byte := x69.
Definition OPRETURN : byte := x6a.
Definition OPTOALTSTACK : byte := x6b.
Definition OPFROMALTSTACK : byte := x6c.
Definition OP2DROP : byte := x6d.
Definition OP2DUP : byte := x6e.
Definition OP3DUP : byte := x6f.
Definition OP2OVER : byte := x70.
Definition OP2ROT : byte := x71.
Definition OP2SWAP : byte := x72.
Definition OPIFDUP : byte := x73.
Definition OPDEPTH : byte := x74.
Definition OPDROP : byte := x75.
Definition OPDUP : byte := x76.
Definition OPNIP : byte := x77.
Definition OPOVER : byte := x78.
Definition OPPICK : byte := x79.
Definition OPROLL : byte := x7a.
Definition OPROT : byte := x7b.
Definition OPSWAP : byte := x7c.
Definition OPTUCK : byte := x7d.
Definition OPCAT : byte := x7e.
Definition OPSUBSTR : byte := x7f.
Definition OPLEFT : byte := x80.
Definition OPRIGHT : byte := x81.
Definition OPSIZE : byte := x82.
Definition OPINVERT : byte := x83.
Definition OPAND : byte := x84.
Definition OPOR : byte := x85.
Definition OPXOR : byte := x86.
Definition OPEQUAL : byte := x87.
Definition OPEQUALVERIFY : byte := x88.
Definition OPRESERVED1 : byte := x89.
Definition OPRESERVED2 : byte := x8a.
Definition OP1ADD : byte := x8b.
Definition OP1SUB : byte := x8c.
Definition OP2MUL : byte := x8d.
Definition OP2DIV : byte := x8e.
Definition OPNEGATE : byte := x8f.
Definition OPABS : byte := x90.
Definition OPNOT : byte := x91.
Definition OP0NOTEQUAL : byte := x92.
Definition OPADD : byte := x93.
Definition OPSUB : byte := x94.
Definition OPMUL : byte := x95.
Definition OPDIV : byte := x96.
Definition OPMOD : byte := x97.
Definition OPLSHIFT : byte := x98.
Definition OPRSHIFT : byte := x99.
Definition OPBOOLAND : byte := x9a.
Definition OPBOOLOR : byte := x9b.
Definition OPNUMEQUAL : byte := x9c.
Definition OPNUMEQUALVERIFY : byte := x9d.
Definition OPNUMNOTEQUAL : byte := x9e.
Definition OPLESSTHAN : byte := x9f.
Definition OPGREATERTHAN : byte := xa0.
Definition OPLESSTHANOREQUAL : byte := xa1.
Definition OPGREATERTHANOREQUAL : byte := xa2.
Definition OPMIN : byte := xa3.
Definition OPMAX : byte := xa4.
Definition OPWITHIN : byte := xa5.
Definition OPRIPEMD160 : byte := xa6.
Definition OPSHA1 : byte := xa7.
Definition OPSHA256 : byte := xa8.
Definition OPHASH160 : byte := xa9.
Definition OPHASH256 : byte := xaa.
Definition OPCODESEPARATOR : byte := xab.
Definition OPCHECKSIG : byte := xac.
Definition OPCHECKSIGVERIFY : byte := xad.
Definition OPCHECKMULTISIG : byte := xae.
Definition OPCHECKMULTISIGVERIFY : byte := xaf.
Definition OPCHECKLOCKTIMEVERIFY : byte := xb0.
Definition OPCONTRACT : byte := xb1.

(** ** Mnemonics *)

Definition opCodeToName (opCode : byte) : string :=
  match opCode with
  | x00 => "OP_0"
  | x4c => "OP_PUSHDATA1"
  | x4d => "OP_PUSHDATA2"
  | x4e => "OP_PUSHDATA4"
  | x4f => "-1"
  | x50 => "OP_RESERVED"
  | x51 => "OP_1"
  | x52 => "OP_2"
  | x53 => "OP_3"
  | x54 => "OP_4"
  | x55 => "OP_5"
  | x56 => "OP_6"
  | x57 => "OP_7"
  | x58 => "OP_8"
  | x59 => "OP_9"
  | x5a => "OP_10"
  | x5b => "OP_11"
  | x5c => "OP_12"
  | x5d => "OP_13"
  | x5e => "OP_14"
  | x5f => "OP_15"
  | x60 => "OP_16"
  | x61 => "OP_NOP"
  | x62 => "OP_VER"
  | x63 => "OP_IF"
  | x64 => "OP_NOTIF"
  | x65 => "OP_VERIF"
  | x66 => "OP_VERNOTIF"
  | x67 => "OP_ELSE"
  | x68 => "OP_ENDIF"
  | x69 => "OP_VERIFY"
  | x6a => "OP_RETURN"
  | x6b => "OP_TOALTSTACK"
  | x6c => "OP_FROMALTSTACK"
  | x6d => "OP_2DROP"
  | x6e => "OP_2DUP"
  | x6f => "OP_3DUP"
  | x70 => "OP_2OVER"
  | x71 => "OP_2ROT"
  | x72 => "OP_2SWAP"
  | x73 => "OP_IFDUP"
  | x74 => "OP_DEPTH"
  | x75 => "OP_DROP"
  | x76 => "OP_DUP"
  | x77 => "OP_NIP"
  | x78 => "OP_OVER"
  | x79 => "OP_PICK"
  | x7a => "OP_ROLL"
  | x7b => "OP_ROT"
  | x7c => "OP_SWAP"
  | x7d => "OP_TUCK"
  | x7e => "OP_CAT"
  | x7f => "OP_SUBSTR"
  | x80 => "OP_LEFT"
  | x81 => "OP_RIGHT"
  | x82 => "OP_SIZE"
  | x83 => "OP_INVERT"
  | x84 => "OP_AND"
  | x85 => "OP_OR"
  | x86 => "OP_XOR"
  | x87 => "OP_EQUAL"
  | x88 => "OP_EQUALVERIFY"
  | x89 => "OP_RESERVED1"
  | x8a => "OP_RESERVED2"
  | x8b => "OP_1ADD"
  | x8c => "OP_1SUB"
  | x8d => "OP_2MUL"
  | x8e => "OP_2DIV"
  | x8f => "OP_NEGATE"
  | x90 => "OP_ABS"
  | x91 => "OP_NOT"
  | x92 => "OP_0NOTEQUAL"
  | x93 => "OP_ADD"
  | x94 => "OP_SUB"
  | x95 => "OP_MUL"
  | x96 => "OP_DIV"
  | x97 => "OP_MOD"
  | x98 => "OP_LSHIFT"
  | x99 => "OP_RSHIFT"
  | x9a => "OP_BOOLAND"
  | x9b => "OP_BOOLOR"
  | x9c => "OP_NUMEQUAL"
  | x9d => "OP_NUMEQUALVERIFY"
  | x9e => "OP_NUMNOTEQUAL"
  | x9f => "OP_LESSTHAN"
  | xa0 => "OP_GREATERTHAN"
  | xa1 => "OP_LESSTHANOREQUAL"
  | xa2 => "OP_GREATERTHANOREQUAL"
  | xa3 => "OP_MIN"
  | xa4 => "OP_MAX"
  | xa5 => "OP_WITHIN"
  | xa6 => "OP_RIPEMD160"
  | xa7 => "OP_SHA1"
  | xa8 => "OP_SHA256"
  | xa9 => "OP_HASH160"
  | xaa => "OP_HASH256"
  | xab => "OP_CODESEPARATOR"
  | xac => "OP_CHECKSIG"
  | xad => "OP_CHECKSIGVERIFY"
  | xae => "OP_CHECKMULTISIG"
  | xaf => "OP_CHECKMULTISIGVERIFY"
  | xb0 => "OP_CHECKLOCKTIMEVERIFY"
  | xb1 => "OP_CONTRACT"
  | _ => "OP_UNKNOWN"
  end%string.

Definition named_opcodes : list byte :=
  [x00; x4c; x4d; x4e; x4f; x50; x51; x52; x53; x54; x55; x56; x57; x58; x59; x5a; x5b; x5c; x5d; x5e; x5f; x60; x61; x62; x63; x64; x65; x66; x67; x68; x69; x6a; x6b; x6c; x6d; x6e; x6f; x70; x71; x72; x73; x74; x75; x76; x77; x78; x79; x7a; x7b; x7c; x7d; x7e; x7f; x80; x81; x82; x83; x84; x85; x86; x87; x88; x89; x8a; x8b; x8c; x8d; x8e; x8f; x90; x91; x92; x93; x94; x95; x96; x97; x98; x99; x9a; x9b; x9c; x9d; x9e; x9f; xa0; xa1; xa2; xa3; xa4; xa5; xa6; xa7; xa8; xa9; xaa; xab; xac; xad; xae; xaf; xb0; xb1].

(** Distinct named opcodes have distinct mnemonics, so disassembly loses nothing. *)
Lemma opCodeToName_inj (a b : byte) :
  a ∈ named_opcodes -> b ∈ named_opcodes -> opCodeToName a = opCodeToName b -> a = b.
Proof.
  intros Ha Hb E.
  assert (forallb (fun x => forallb (fun y =>
    bool_decide (opCodeToName x = opCodeToName y -> x = y)) named_opcodes) named_opcodes = true)
    as H by (vm_compute; reflexivity).
  rewrite forallb_forall in H. specialize (H a (proj1 (list_elem_of_In _ _) Ha)).
  rewrite forallb_forall in H. specialize (H b (proj1 (list_elem_of_In _ _) Hb)).
  apply bool_decide_eq_true_1 in H. exact (H E).
Qed.

End Opcode.
