(* ===== verification/Crypto.v ===== *)
(** * Crypto: digests, hash values and checked base58 (src/crypto)

    The digests (SHA-256, RIPEMD-160, SHA3-256), the elliptic-curve primitives and
    the base58 alphabet coding come from third-party packages: they are the
    operations of the class [Crypto], and what the node relies on are the laws of
    [CryptoLaws].  Everything the repository itself defines on top of them
    (src/crypto/hash.go, src/crypto/base58.go) is defined here. *)

From S2P Require Import Prelude.

(** The third-party primitives. *)
Class Crypto := {
  sha256 : bytes -> bytes;
  ripemd160 : bytes -> bytes;
  sha3_256 : bytes -> bytes;
  Signature : Type;
  PublicKey : Type;
  SigFromBytes : bytes -> option Signature;
  PublicKeyFromBytes : bytes -> option PublicKey;
  VerifySignature : Signature -> PublicKey -> bytes -> bool;
  base58_Encode : bytes -> string;
  base58_Decode : string -> bytes
}.

(** Their documented behaviour: digest sizes, and base58 coding is invertible. *)
Class CryptoLaws (C : Crypto) : Prop := {
  sha256_length : forall b, length (sha256 b) = 32;
  ripemd160_length : forall b, length (ripemd160 b) = 20;
  sha3_256_length : forall b, length (sha3_256 b) = 32;
  base58_Decode_Encode : forall b, base58_Decode (base58_Encode b) = b
}.

Module Crypto.

Definition HashSize : nat := 32.

(** [ripemd160.Size]. *)
Definition AddrSize : nat := 20.

Definition ZeroHash : bytes := replicate HashSize x00.

(** [SetBytes] of a fixed-size array [old] of [n] bytes: crop from the left, or
    overwrite the low-order end and keep the high-order bytes of [old]. *)
Definition SetBytes (n : nat) (old hashBytes : bytes) : bytes :=
  let hashBytes := if n <? length hashBytes
                   then drop (length hashBytes - n) hashBytes else hashBytes in
  take (n - length hashBytes) old ++ hashBytes.

Definition BytesToHash (b : bytes) : bytes := SetBytes HashSize ZeroHash b.

(** [NewHashType]: copy into a zero array from the left. *)
Definition NewHashType (b : bytes) : bytes :=
  take HashSize b ++ replicate (HashSize - length b) x00.

(** [IsEqual] on possibly nil hash pointers. *)
Definition IsEqual (hash target : option bytes) : bool :=
  match hash, target with
  | None, None => true
  | Some h, Some t => bool_decide (h = t)
  | _, _ => false
  end.

(** [reverseBytes]: swap the two ends up to the middle, in place. *)
Fixpoint reverse_loop (i n : nat) (buf : bytes) : bytes :=
  match n with
  | O => buf
  | S n =>
      let len := length buf in
      let a := default x00 (buf !! i) in
      let b := default x00 (buf !! (len - i - 1)) in
      reverse_loop (S i) n (<[len - i - 1 := a]> (<[i := b]> buf))
  end.

Definition reverseBytes (buf : bytes) : bytes := reverse_loop 0 (length buf / 2) buf.

(** [BigToHash]. *)
Definition BigToHash (z : Z) : bytes :=
  let bb := be_bytes z in
  let bb := if HashSize <? length bb then drop (length bb - HashSize) bb else bb in
  BytesToHash (replicate (HashSize - length bb) x00 ++ bb).

Inductive Base58Error :=
| ErrInvalidBase58Encoding
| ErrInvalidBase58StringLength
| ErrInvalidBase58Checksum.

#[global] Instance Base58Error_eq_dec : EqDecision Base58Error.
Proof. solve_decision. Defined.

Section WithCrypto.
Context `{C : Crypto}.

Definition Hash160 (b : bytes) : bytes := ripemd160 (sha256 b).

Definition DoubleHashH (b : bytes) : bytes := sha256 (sha256 b).

Definition Checksum (input : bytes) : bytes := take 4 (sha256 (sha256 input)).

Definition Base58CheckEncode (b : bytes) : string :=
  base58_Encode (b ++ Checksum b).

Definition Base58CheckDecode (s : string) : result Base58Error bytes :=
  let rawBytes := base58_Decode s in
  if bool_decide (rawBytes = []) then Err ErrInvalidBase58Encoding
  else if length rawBytes <? 5 then Err ErrInvalidBase58StringLength
  else
    let sep := length rawBytes - 4 in
    let cksum := drop sep rawBytes in
    let content := take sep rawBytes in
    if bool_decide (Checksum content = cksum) then Ok content
    else Err ErrInvalidBase58Checksum.

Context `{CL : !CryptoLaws C}.

Lemma length_Hash160 b : length (Hash160 b) = AddrSize.
Proof. apply ripemd160_length. Qed.

Lemma length_DoubleHashH b : length (DoubleHashH b) = HashSize.
Proof. apply sha256_length. Qed.

Lemma length_Checksum b : length (Checksum b) = 4.
Proof. unfold Checksum. rewrite length_take, sha256_length. done. Qed.

(** Decoding the checked encoding of a non-empty content gives the content back. *)
Lemma Base58Check_roundtrip (b : bytes) :
  b <> [] -> Base58CheckDecode (Base58CheckEncode b) = Ok b.
Proof.
  intros Hb. unfold Base58CheckDecode, Base58CheckEncode.
  rewrite base58_Decode_Encode, length_app, length_Checksum.
  rewrite bool_decide_eq_false_2 by (destruct b; done).
  destruct (Nat.ltb_spec (length b + 4) 5) as [Hl|_]; [destruct b; simpl in *; [done|lia]|].
  rewrite Nat.add_sub, drop_app_length, take_app_length.
  by rewrite bool_decide_eq_true_2.
Qed.

End WithCrypto.

Lemma length_SetBytes n old b : length old = n -> length (SetBytes n old b) = n.
Proof.
  intros Hold. unfold SetBytes. rewrite length_app, length_take.
  destruct (Nat.ltb_spec n (length b)); rewrite ?length_drop; lia.
Qed.

Lemma SetBytes_full n old b : length old = n -> length b = n -> SetBytes n old b = b.
Proof.
  intros Hold Hb. unfold SetBytes. rewrite Hb, Nat.ltb_irrefl, Hb, Nat.sub_diag. done.
Qed.

Lemma length_BytesToHash b : length (BytesToHash b) = HashSize.
Proof. by apply length_SetBytes. Qed.

Lemma BytesToHash_full b : length b = HashSize -> BytesToHash b = b.
Proof. intros. by apply SetBytes_full. Qed.

Lemma length_reverse_loop n i buf : length (reverse_loop i n buf) = length buf.
Proof.
  revert i buf. induction n as [|n IH]; intros i buf; simpl; [done|].
  by rewrite IH, !length_insert.
Qed.

(** Loop invariant of [reverseBytes]: the remaining [n] iterations mirror the
    positions [i .. i+n) on each side and touch nothing else. *)
Lemma reverse_loop_lookup n i buf k :
  2 * (i + n) <= length buf -> k < length buf ->
  reverse_loop i n buf !! k =
    if bool_decide (i <= k < i + n \/ i <= length buf - 1 - k < i + n)
    then buf !! (length buf - 1 - k) else buf !! k.
Proof.
  revert i buf. induction n as [|n IH]; intros i buf Hlen Hk; cbn [reverse_loop].
  - rewrite bool_decide_eq_false_2 by lia. done.
  - destruct (lookup_lt_is_Some_2 buf i) as [a Ha]; [lia|].
    destruct (lookup_lt_is_Some_2 buf (length buf - i - 1)) as [b Hb]; [lia|].
    rewrite Ha, Hb. simpl.
    assert (forall m, m < length buf ->
      <[length buf - i - 1:=a]> (<[i:=b]> buf) !! m =
        if decide (m = i) then Some b else
        if decide (m = length buf - i - 1) then Some a else buf !! m) as Hupd.
    { intros m Hm. destruct (decide (m = i)) as [->|].
      - rewrite list_lookup_insert_ne, list_lookup_insert_eq by lia. done.
      - destruct (decide (m = length buf - i - 1)) as [->|].
        + rewrite list_lookup_insert_eq; [done|]. rewrite length_insert. lia.
        + by rewrite !list_lookup_insert_ne by lia. }
    rewrite IH; rewrite !length_insert; [|lia|lia].
    rewrite !Hupd by lia.
    repeat case_bool_decide; repeat case_decide; try lia; subst;
      try (rewrite <- ?Ha, <- ?Hb; f_equal; lia); done.
Qed.

Lemma reverseBytes_reverse buf : reverseBytes buf = reverse buf.
Proof.
  apply list_eq_same_length with (length buf).
  - apply length_reverse.
  - apply length_reverse_loop.
  - intros k x y Hk Hx Hy. unfold reverseBytes in Hx.
    pose proof (Nat.div_mod_eq (length buf) 2) as Hd.
    pose proof (Nat.mod_upper_bound (length buf) 2 ltac:(lia)).
    rewrite reverse_loop_lookup in Hx by lia.
    rewrite reverse_lookup in Hy by lia.
    case_bool_decide; replace (length buf - S k) with (length buf - 1 - k) in Hy by lia.
    + congruence.
    + replace (length buf - 1 - k) with k in Hy by lia. congruence.
Qed.

End Crypto.

(** ** A concrete instance

    Executable stand-ins that satisfy the laws; the concrete runs of the development
    evaluate on them.  A "digest" is zero padding or truncation, and a "signature" of a
    message under a key is the key followed by the message. *)
Module ToyCrypto.

Definition pad (n : nat) (b : bytes) : bytes := take n (b ++ replicate n x00).

#[global] Instance toy : Crypto := {|
  sha256 := pad 32;
  ripemd160 := pad 20;
  sha3_256 := pad 32;
  Signature := bytes;
  PublicKey := bytes;
  SigFromBytes := fun b => if bool_decide (b = []) then None else Some b;
  PublicKeyFromBytes := fun b => if bool_decide (b = []) then None else Some b;
  VerifySignature := fun sg pk h => bool_decide (sg = pk ++ h);
  base58_Encode := String.string_of_list_byte;
  base58_Decode := String.list_byte_of_string
|}.

Lemma length_pad n b : length (pad n b) = n.
Proof. unfold pad. rewrite length_take, length_app, length_replicate. lia. Qed.

#[global] Instance toy_laws : CryptoLaws toy.
Proof.
  split; simpl; intros; try apply length_pad.
  apply String.list_byte_of_string_of_list_byte.
Qed.

End ToyCrypto.
