(* ===== verification/Types.v ===== *)
(** * Types: addresses, transactions and utxo entries (src/core/types)

    The data of a transaction as the node keeps it, the address values a script can
    name, and [UtxoWrap], the entry of the utxo set with its spent/modified flags.
    The protobuf messages are converted here; their encoding is generated code, the
    operation [pb_marshal] of the class [TxCodec]. *)

From Stdlib Require Import Strings.Ascii.
From S2P Require Import Prelude Crypto.

(** ** Transactions *)

Record OutPoint := mkOutPoint { op_hash : bytes; op_index : Z }.

Record TxIn := mkTxIn { PrevOutPoint : OutPoint; ScriptSig : bytes; Sequence : Z }.

Record TxOut := mkTxOut { Value : Z; ScriptPubKey : bytes }.

(** [corepb.Data]. *)
Record TxData := mkTxData { data_type : Z; data_content : bytes }.

Inductive TxType :=
| UnknownTx | PayToPubkTx | ContractTx | TokenIssueTx | TokenTransferTx
| SplitTx | InternalTx | ErrorTx.

Record Transaction := mkTx {
  tx_type : TxType;
  Version : Z;
  Vin : list TxIn;
  Vout : list TxOut;
  Data : option TxData;
  Magic : Z;
  LockTime : Z
}.

#[export] Instance OutPoint_eq_dec : EqDecision OutPoint.
Proof. solve_decision. Defined.
#[export] Instance TxType_eq_dec : EqDecision TxType.
Proof. solve_decision. Defined.
#[export] Instance TxIn_eq_dec : EqDecision TxIn.
Proof. solve_decision. Defined.
#[export] Instance TxOut_eq_dec : EqDecision TxOut.
Proof. solve_decision. Defined.

#[export] Program Instance OutPoint_countable : Countable OutPoint :=
  inj_countable' (fun o => (op_hash o, op_index o)) (fun p => mkOutPoint p.1 p.2) _.
Next Obligation. by intros []. Qed.

(** ** Protobuf messages: a pointer may be nil, and a hash may have any length *)

Record PbOutPoint := mkPbOutPoint { pb_Hash : bytes; pb_Index : Z }.

Record PbTxIn := mkPbTxIn { pb_PrevOutPoint : option PbOutPoint; pb_ScriptSig : bytes; pb_Sequence : Z }.

Record PbTransaction := mkPbTransaction {
  pb_Version : Z;
  pb_Vin : list (option PbTxIn);
  pb_Vout : list TxOut;
  pb_Data : option TxData;
  pb_Magic : Z;
  pb_LockTime : Z
}.

(** The generated protobuf codec of a transaction; [None] is a marshalling error. *)
Class TxCodec := { pb_marshal : PbTransaction -> option bytes }.

Module Types.

Definition MaxUint32 : Z := 2 ^ 32 - 1.

Definition NewTx (ver magic lockTime : Z) : Transaction :=
  mkTx UnknownTx ver [] [] None magic lockTime.

Definition NewTxIn (prevOutPoint : OutPoint) (scriptSig : bytes) (seq : Z) : TxIn :=
  mkTxIn prevOutPoint scriptSig seq.

Definition AppendVin (tx : Transaction) (ins : list TxIn) : Transaction :=
  mkTx (tx_type tx) (Version tx) (Vin tx ++ ins) (Vout tx) (Data tx) (Magic tx) (LockTime tx).

Definition AppendVout (tx : Transaction) (outs : list TxOut) : Transaction :=
  mkTx (tx_type tx) (Version tx) (Vin tx) (Vout tx ++ outs) (Data tx) (Magic tx) (LockTime tx).

Definition set_data (tx : Transaction) (d : option TxData) : Transaction :=
  mkTx (tx_type tx) (Version tx) (Vin tx) (Vout tx) d (Magic tx) (LockTime tx).

(** [NewOutPoint] of a possibly nil hash. *)
Definition NewOutPoint (hash : option bytes) (index : Z) : OutPoint :=
  mkOutPoint (default Crypto.ZeroHash hash) index.

Definition NewNullOutPoint : OutPoint := mkOutPoint Crypto.ZeroHash MaxUint32.

Definition ZeroAddressHash : bytes := replicate Crypto.AddrSize x00.

(** [ToProtoMessage]; the type of the transaction is not part of the message. *)
Definition OutPoint_ToProtoMessage (op : OutPoint) : PbOutPoint :=
  mkPbOutPoint (op_hash op) (op_index op).

Definition TxIn_ToProtoMessage (txin : TxIn) : PbTxIn :=
  mkPbTxIn (Some (OutPoint_ToProtoMessage (PrevOutPoint txin))) (ScriptSig txin) (Sequence txin).

Definition Transaction_ToProtoMessage (tx : Transaction) : PbTransaction :=
  mkPbTransaction (Version tx) (map (fun v => Some (TxIn_ToProtoMessage v)) (Vin tx)) (Vout tx)
    (Data tx) (Magic tx) (LockTime tx).

Inductive PbErr := ErrEmptyProtoMessage.

(** [copy(op.Hash[:], message.Hash[:])] into a zero hash. *)
Definition copyHash (h : bytes) : bytes :=
  take Crypto.HashSize h ++ replicate (Crypto.HashSize - length h) x00.

Definition OutPoint_FromProtoMessage (message : option PbOutPoint) : result PbErr OutPoint :=
  match message with
  | None => Err ErrEmptyProtoMessage
  | Some m => Ok (mkOutPoint (copyHash (pb_Hash m)) (pb_Index m))
  end.

Definition TxIn_FromProtoMessage (message : option PbTxIn) : result PbErr TxIn :=
  match message with
  | None => Err ErrEmptyProtoMessage
  | Some m =>
      outPoint ← OutPoint_FromProtoMessage (pb_PrevOutPoint m);
      Ok (mkTxIn outPoint (pb_ScriptSig m) (pb_Sequence m))
  end.

Fixpoint vins_FromProtoMessage (vin : list (option PbTxIn)) : result PbErr (list TxIn) :=
  match vin with
  | [] => Ok []
  | v :: vin =>
      txin ← TxIn_FromProtoMessage v;
      vins ← vins_FromProtoMessage vin;
      Ok (txin :: vins)
  end.

Definition Transaction_FromProtoMessage (message : option PbTransaction) : result PbErr Transaction :=
  match message with
  | None => Err ErrEmptyProtoMessage
  | Some m =>
      vins ← vins_FromProtoMessage (pb_Vin m);
      Ok (mkTx UnknownTx (pb_Version m) vins (pb_Vout m) (pb_Data m) (pb_Magic m) (pb_LockTime m))
  end.

(** [Copy]: a deep copy, the cached hash left out. *)
Definition Transaction_Copy (tx : Transaction) : Transaction :=
  mkTx (tx_type tx) (Version tx)
    (map (fun i => mkTxIn (PrevOutPoint i) (ScriptSig i) (Sequence i)) (Vin tx))
    (map (fun o => mkTxOut (Value o) (ScriptPubKey o)) (Vout tx))
    (Data tx) (Magic tx) (LockTime tx).

(** [IsContractType]; the second comparison is between a 20-byte and an 8-byte slice,
    as in the source. *)
Definition IsContractType (op : OutPoint) : bool :=
  if negb (op_index op =? 0)%Z then false
  else if negb (bool_decide (take 12 (op_hash op) = take 12 ZeroAddressHash))
          || bool_decide (drop 12 (op_hash op) = drop 12 ZeroAddressHash)
  then false
  else true.

(** ** Addresses *)

Inductive AddrError :=
| ErrInvalidPKHash
| ErrInvalidAddressString
| ErrBase58 (e : Crypto.Base58Error).

#[global] Instance AddrError_eq_dec : EqDecision AddrError.
Proof. solve_decision. Defined.

(** The implementations of the [Address] interface; a contract address may be the nil
    pointer (a contract creation). *)
Inductive Address :=
| AddressPubKeyHash (hash : bytes)
| AddressTypeSplit (hash : bytes)
| AddressContract (hash : option bytes).

Definition address_Hash160 (a : Address) : option bytes :=
  match a with
  | AddressPubKeyHash h | AddressTypeSplit h => Some h
  | AddressContract h => h
  end.

Definition NewAddressPubKeyHash (pkHash : bytes) : result AddrError bytes :=
  if negb (length pkHash =? Crypto.AddrSize) then Err ErrInvalidPKHash else Ok pkHash.

Definition NewSplitAddressFromHash (hash : bytes) : result AddrError bytes :=
  if negb (length hash =? Crypto.AddrSize) then Err ErrInvalidPKHash else Ok hash.

Definition NewContractAddressFromHash (hash : bytes) : result AddrError bytes :=
  if negb (length hash =? Crypto.AddrSize) then Err ErrInvalidPKHash else Ok hash.

Definition BytesToAddressHash (b : bytes) : bytes :=
  Crypto.SetBytes Crypto.AddrSize ZeroAddressHash b.

Definition NormalizeAddressHash (addrHash : option bytes) : bytes :=
  match addrHash with
  | None => Crypto.ZeroHash
  | Some a => if bool_decide (a = ZeroAddressHash) then Crypto.ZeroHash
              else replicate 12 x00 ++ a
  end.

(** ** Utxo entries *)

(** The flags of the source are the bits [spent = 1] and [modified = 2]. *)
Definition spent : Z := 1.
Definition modified : Z := 2.

Record UtxoWrap := mkUtxoWrap {
  uw_value : Z;
  uw_script : bytes;
  uw_height : Z;
  uw_flags : Z
}.

#[global] Instance UtxoWrap_eq_dec : EqDecision UtxoWrap.
Proof. solve_decision. Defined.

Definition NewUtxoWrap (value : Z) (script : bytes) (height : Z) : UtxoWrap :=
  mkUtxoWrap value script height modified.

Definition IsModified (w : UtxoWrap) : bool := (Z.land (uw_flags w) modified =? modified)%Z.
Definition IsSpent (w : UtxoWrap) : bool := (Z.land (uw_flags w) spent =? spent)%Z.

Definition set_flags (w : UtxoWrap) (f : Z) : UtxoWrap :=
  mkUtxoWrap (uw_value w) (uw_script w) (uw_height w) f.

Definition Modified (w : UtxoWrap) : UtxoWrap := set_flags w (Z.lor (uw_flags w) modified).

Definition Spend (w : UtxoWrap) : UtxoWrap :=
  if IsSpent w then w else set_flags w (Z.lor (uw_flags w) (Z.lor spent modified)).

Definition UnSpend (w : UtxoWrap) : UtxoWrap := set_flags w modified.

Definition SetValue (w : UtxoWrap) (value : Z) : UtxoWrap :=
  Modified (mkUtxoWrap value (uw_script w) (uw_height w) (uw_flags w)).

Definition AddValue (w : UtxoWrap) (value : Z) : UtxoWrap :=
  Modified (mkUtxoWrap (u64 (uw_value w + value)) (uw_script w) (uw_height w) (uw_flags w)).

(** ** Transaction hashes *)

Section WithCodec.
Context `{C : Crypto} `{TC : TxCodec}.

(** [tx.Marshal]. *)
Definition tx_marshal (tx : Transaction) : option bytes := pb_marshal (Transaction_ToProtoMessage tx).

(** [CalcTxHash]: double SHA-256 of the protobuf encoding. *)
Definition CalcTxHash (tx : Transaction) : option bytes :=
  data ← tx_marshal tx; Some (Crypto.DoubleHashH data).

(** [encodeAddress]. *)
Definition encodeAddress (hash prefix : bytes) : string :=
  Crypto.Base58CheckEncode (prefix ++ hash).

Definition AddressTypeP2PKHPrefix : bytes := [x13; x26].
Definition AddressTypeSplitAddrPrefix : bytes := [x13; x28].
Definition AddressTypeP2SHPrefix : bytes := [x13; x2a].
Definition AddressTypeContractPrefix : bytes := [x13; x30].
Definition EncodeAddressLength : nat := 35.

Definition starts_with_b (s : string) : bool :=
  match s with String c _ => bool_decide (c = "b"%char) | EmptyString => false end.

(** [SetString] of the three address types: [ok] says which prefixes are accepted. *)
Definition SetString_with (ok : bytes -> bool) (s : string) : result AddrError bytes :=
  if negb (String.length s =? EncodeAddressLength) || negb (starts_with_b s)
  then Err ErrInvalidAddressString
  else match Crypto.Base58CheckDecode s with
       | Err e => Err (ErrBase58 e)
       | Ok rawBytes =>
           if negb (length rawBytes =? 22) then Err ErrInvalidAddressString
           else if ok (take 2 rawBytes) then Ok (drop 2 rawBytes)
           else Err ErrInvalidAddressString
       end.

Definition AddressPubKeyHash_SetString : string -> result AddrError bytes :=
  SetString_with (fun p => bool_decide (p = AddressTypeP2PKHPrefix)
                           || bool_decide (p = AddressTypeP2SHPrefix)).
Definition AddressTypeSplit_SetString : string -> result AddrError bytes :=
  SetString_with (fun p => bool_decide (p = AddressTypeSplitAddrPrefix)).
Definition AddressContract_SetString : string -> result AddrError bytes :=
  SetString_with (fun p => bool_decide (p = AddressTypeContractPrefix)).

(** [ParseAddress]: dispatch on the first two characters. *)
Definition ParseAddress (s : string) : result AddrError Address :=
  if negb (String.length s =? EncodeAddressLength) || negb (starts_with_b s)
  then Err ErrInvalidAddressString
  else
    let p := String.substring 0 2 s in
    if String.eqb p "b1" then AddressPubKeyHash <$> AddressPubKeyHash_SetString s
    else if String.eqb p "b2" then AddressTypeSplit <$> AddressTypeSplit_SetString s
    else if String.eqb p "b5" then (fun h => AddressContract (Some h)) <$> AddressContract_SetString s
    else Err ErrInvalidAddressString.

(** The strings of the three address types. *)
Definition Address_String (a : Address) : string :=
  match a with
  | AddressPubKeyHash h => encodeAddress h AddressTypeP2PKHPrefix
  | AddressTypeSplit h => encodeAddress h AddressTypeSplitAddrPrefix
  | AddressContract (Some h) => encodeAddress h AddressTypeContractPrefix
  | AddressContract None => EmptyString
  end.

End WithCodec.

Lemma copyHash_full h : length h = Crypto.HashSize -> copyHash h = h.
Proof. intros Hh. unfold copyHash. rewrite Hh, Nat.sub_diag, take_ge, app_nil_r by lia. done. Qed.

Lemma vins_roundtrip vin : Forall (fun i => length (op_hash (PrevOutPoint i)) = Crypto.HashSize) vin ->
  vins_FromProtoMessage (map (fun v => Some (TxIn_ToProtoMessage v)) vin) = Ok vin.
Proof.
  induction 1 as [|[[h i] sg q] vin Hh _ IH]; [done|]. simpl in *. rewrite IH.
  unfold OutPoint_FromProtoMessage. simpl. by rewrite copyHash_full.
Qed.

(** a transaction converted to its wire message and back is the same transaction,
    with its type forgotten. *)
Theorem proto_roundtrip (tx : Transaction) :
  Forall (fun i => length (op_hash (PrevOutPoint i)) = Crypto.HashSize) (Vin tx) ->
  Transaction_FromProtoMessage (Some (Transaction_ToProtoMessage tx)) =
    Ok (mkTx UnknownTx (Version tx) (Vin tx) (Vout tx) (Data tx) (Magic tx) (LockTime tx)).
Proof.
  intros Hv. unfold Transaction_FromProtoMessage, Transaction_ToProtoMessage. simpl. by rewrite vins_roundtrip.
Qed.

Lemma proto_roundtrip_witness :
  let tx := mkTx ContractTx 1 [mkTxIn NewNullOutPoint [x01] 7] [mkTxOut 5 [x02]] None 3 9 in
  Transaction_FromProtoMessage (Some (Transaction_ToProtoMessage tx)) =
    Ok (mkTx UnknownTx 1 (Vin tx) (Vout tx) None 3 9).
Proof.
  apply (proto_roundtrip (mkTx ContractTx 1 [mkTxIn NewNullOutPoint [x01] 7] [mkTxOut 5 [x02]] None 3 9)).
  repeat constructor.
Defined.

(** ** Flag lemmas *)

(** The flag words the operations produce: only the two low bits. *)
Definition flags_wf (w : UtxoWrap) : Prop := (0 <= uw_flags w < 4)%Z.

Lemma flags_cases w : flags_wf w ->
  uw_flags w = 0%Z \/ uw_flags w = 1%Z \/ uw_flags w = 2%Z \/ uw_flags w = 3%Z.
Proof. unfold flags_wf. lia. Qed.

Lemma IsSpent_Spend w : flags_wf w -> IsSpent (Spend w) = true.
Proof.
  intros H. unfold Spend. destruct (IsSpent w) eqn:E; [done|].
  unfold IsSpent, set_flags; simpl. destruct (flags_cases w H) as [->|[->|[->| ->]]]; done.
Qed.

Lemma IsSpent_UnSpend w : IsSpent (UnSpend w) = false.
Proof. done. Qed.

Lemma flags_wf_New v s h : flags_wf (NewUtxoWrap v s h).
Proof. unfold flags_wf; simpl. unfold modified. lia. Qed.

Lemma flags_wf_Spend w : flags_wf w -> flags_wf (Spend w).
Proof.
  intros H. unfold Spend. destruct (IsSpent w) eqn:E; [done|].
  unfold flags_wf, set_flags; simpl. destruct (flags_cases w H) as [->|[->|[->| ->]]]; split; by vm_compute.
Qed.

Lemma length_NormalizeAddressHash a :
  (forall h, a = Some h -> length h = Crypto.AddrSize) ->
  length (NormalizeAddressHash a) = Crypto.HashSize.
Proof.
  intros H. destruct a as [h|]; simpl; [|done]. case_bool_decide; [done|].
  rewrite length_cons, ?length_app. simpl. rewrite (H h); done.
Qed.

End Types.

(** A concrete codec for the concrete runs: the input scripts, the output scripts and
    the low byte of the lock time, concatenated. *)
Module ToyCodec.

#[global] Instance toy_codec : TxCodec := {|
  pb_marshal := fun tx =>
    Some (concat (map (fun v => default [] (pb_ScriptSig <$> v)) (pb_Vin tx))
          ++ concat (map ScriptPubKey (pb_Vout tx)) ++ [z2b (pb_LockTime tx)])
|}.

(** One input, one output, lock time 7. *)
Definition tx0 : Transaction :=
  mkTx UnknownTx 1 [mkTxIn Types.NewNullOutPoint [] 0] [mkTxOut 5 []] None 0 7.

End ToyCodec.
