(* ===== verification/Script.v ===== *)
(** * Script: the locking-script engine (src/script/script.go, src/script/stack.go)

    A script is a byte string.  This file has the operand stack, the script builders,
    the instruction decoder [parseNextOp], the interpreter ([execOp], [evaluate],
    [Validate]) and the signature hash.  [scriptPubKeyStart], which the interpreter
    updates through a pointer, is threaded through [execOp] with the stack.

    Loops: [evaluate] runs on fuel the length of the script and answers [None] if it
    ever ran out; [parse] and the multi-signature loop run on a fuel that is
    proved sufficient by their loop equations ([parse_from_eq], [multisigLoop_fuel]). *)

From S2P Require Import Prelude Opcode Crypto Types.
Import Opcode.

(** The error values of src/script/error.go, then the errors made in place. *)
Inductive ScriptErr :=
| ErrScriptBound
| ErrNoEnoughDataOPPUSHDATA1
| ErrNoEnoughDataOPPUSHDATA2
| ErrNoEnoughDataOPPUSHDATA4
| ErrInvalidStackOperation
| ErrBadOpcode
| ErrScriptEqualVerify
| ErrScriptSignatureVerifyFail
| ErrInputIndexOutOfBound
| ErrAddressNotApplicable
| ErrOpReturn
| ErrInvalidSplitAddrScript
| ErrScriptLockTimeVerifyFail
| ErrInvalidContractScript
| ErrInvalidContractParams
| ErrFinalStackEmpty
| ErrFinalTopStackEleFalse
| ErrCountNegative
| ErrNotInt64
| ErrNonceNot8Bytes
| ErrGasNot8Bytes
| ErrReadUint64
| ErrReadUint32
| ErrTxHashSize
| ErrTxHash
| ErrAddress (e : Types.AddrError).

#[export] Instance ScriptErr_eq_dec : EqDecision ScriptErr.
Proof. solve_decision. Defined.

(** ** The operand stack (stack.go); the top is the last element *)

Module Stack.

Definition MaxInt64 : Z := 2 ^ 63 - 1.

Definition operandFalse : bytes := [x00].
Definition operandTrue : bytes := [x01].

(** [Operand.int]. *)
Definition operand_int (o : bytes) : result ScriptErr Z :=
  if (MaxInt64 <? be_value o)%Z then Err ErrNotInt64 else Ok (be_value o).

Definition push (stk : list bytes) (o : bytes) : list bytes := stk ++ [o].

Definition pop (stk : list bytes) : list bytes := take (length stk - 1) stk.

(** [topN]: the n-th element from the top, counting from 1; nil out of range. *)
Definition topN (stk : list bytes) (n : Z) : bytes :=
  if (n <=? 0)%Z || (Z.of_nat (length stk) <? n)%Z then []
  else default [] (stk !! (length stk - Z.to_nat n)).

Definition validateTop (stk : list bytes) : result ScriptErr unit :=
  if length stk =? 0 then Err ErrFinalStackEmpty
  else if (be_value (topN stk 1) =? 0)%Z then Err ErrFinalTopStackEleFalse
  else Ok tt.

Fixpoint popTimes (n : nat) (stk : list bytes) : list bytes :=
  match n with O => stk | S n => popTimes n (pop stk) end.

End Stack.

Module Script.
Import Stack.

(** Comparisons of opcodes as numbers. *)
Definition op_ltb (a b : byte) : bool := (b2z a <? b2z b)%Z.
Definition op_leb (a b : byte) : bool := (b2z a <=? b2z b)%Z.
Definition op_eqb (a b : byte) : bool := bool_decide (a = b).

(** ** Builders *)

Definition AddOpCode (s : bytes) (opCode : byte) : bytes := s ++ [opCode].

Definition AddOperand (s operand : bytes) : bytes :=
  let dataLen := Z.of_nat (length operand) in
  let header :=
    if (dataLen <? b2z OPPUSHDATA1)%Z then [z2b dataLen]
    else if (dataLen <=? 255)%Z then [OPPUSHDATA1; z2b dataLen]
    else if (dataLen <=? 65535)%Z then OPPUSHDATA2 :: le_bytes 2 (u16 dataLen)
    else OPPUSHDATA4 :: le_bytes 4 (u32 dataLen) in
  s ++ header ++ operand.

Definition AddScript (s script : bytes) : bytes := s ++ script.

Definition PayToPubKeyHashScript (pubKeyHash : bytes) : bytes :=
  AddOpCode (AddOpCode (AddOperand (AddOpCode (AddOpCode [] OPDUP) OPHASH160) pubKeyHash)
    OPEQUALVERIFY) OPCHECKSIG.

Definition PayToPubKeyHashCLTVScript (pubKeyHash : bytes) (blockTimeOrHeight : Z) : bytes :=
  AddOpCode (AddOpCode (AddOperand (AddOpCode (AddOpCode (AddOpCode
    (AddOperand [] (be_bytes blockTimeOrHeight)) OPCHECKLOCKTIMEVERIFY) OPDUP) OPHASH160)
    pubKeyHash) OPEQUALVERIFY) OPCHECKSIG.

(** [SignatureScript] of an already serialised signature. *)
Definition SignatureScript (sigBytes pubKey : bytes) : bytes :=
  AddOperand (AddOperand [] sigBytes) pubKey.

Definition StandardCoinbaseSignatureScript (height : Z) : bytes :=
  AddOperand (AddOperand [] (be_bytes height)) (be_bytes 0).

(** ** Decoding *)

(** The operand size of a push opcode, read at [pc], and the pc after it.  The
    OP_PUSHDATA4 size is read with [Uint16], as in the source. *)
Definition parseOperandSize (script : bytes) (opCode : byte) (pc : nat) :
    result ScriptErr (nat * nat) :=
  let scriptLen := length script in
  if op_ltb opCode OPPUSHDATA1 then Ok (Z.to_nat (b2z opCode), pc)
  else if op_eqb opCode OPPUSHDATA1 then
    if scriptLen - pc <? 1 then Err ErrNoEnoughDataOPPUSHDATA1
    else Ok (Z.to_nat (le_value (slice script pc (pc + 1))), pc + 1)
  else if op_eqb opCode OPPUSHDATA2 then
    if scriptLen - pc <? 2 then Err ErrNoEnoughDataOPPUSHDATA2
    else Ok (Z.to_nat (le_value (slice script pc (pc + 2))), pc + 2)
  else
    if scriptLen - pc <? 4 then Err ErrNoEnoughDataOPPUSHDATA4
    else Ok (Z.to_nat (le_value (take 2 (slice script pc (pc + 4)))), pc + 4).

(** [parseNextOp]: opcode, operand (nil for an opcode that pushes nothing), the
    advanced pc, and the error. *)
Definition parseNextOp (script : bytes) (pc : nat) : byte * option bytes * nat * option ScriptErr :=
  let scriptLen := length script in
  match script !! pc with
  | None => (x00, None, pc, Some ErrScriptBound)
  | Some opCode =>
      let pc := S pc in
      if op_ltb OPPUSHDATA4 opCode then (opCode, None, pc, None)
      else
        match parseOperandSize script opCode pc with
        | Err e => (opCode, None, pc, Some e)
        | Ok (operandSize, pc) =>
            if scriptLen - pc <? operandSize then (opCode, None, pc, Some ErrScriptBound)
            else (opCode, Some (slice script pc (pc + operandSize)), pc + operandSize, None)
        end
  end.

(** The elements [parse] produces. *)
Inductive element :=
| EOperand (o : bytes)
| EOpCode (op : byte)
| EError (e : ScriptErr).

#[global] Instance element_eq_dec : EqDecision element.
Proof. solve_decision. Defined.

Fixpoint parseLoop (fuel : nat) (s : bytes) (pc : nat) : list element :=
  match fuel with
  | O => []
  | S fuel =>
      if pc <? length s then
        match parseNextOp s pc with
        | (_, _, _, Some err) => [EError err]
        | (_, Some operand, newPc, None) => EOperand operand :: parseLoop fuel s newPc
        | (opCode, None, newPc, None) => EOpCode opCode :: parseLoop fuel s newPc
        end
      else []
  end.

Definition parse (s : bytes) : list element := parseLoop (length s) s 0.

(** [getSigOpCount]: the signature-checking opcodes of the parsed script. *)
Definition is_sig_op (e : element) : bool :=
  match e with
  | EOpCode v => op_eqb v OPCHECKSIG || op_eqb v OPCHECKSIGVERIFY
                 || op_eqb v OPCHECKMULTISIG || op_eqb v OPCHECKMULTISIGVERIFY
  | _ => false
  end.

Definition getSigOpCount (s : bytes) : nat :=
  foldl (fun numSigs e => if is_sig_op e then S numSigs else numSigs) 0 (parse s).

(** [getNthOp]: the n-th (from 0) instruction counting from [pcStart]. *)
Fixpoint getNthOp (s : bytes) (pcStart n : nat) : result ScriptErr (byte * option bytes * nat) :=
  match parseNextOp s pcStart with
  | (_, _, _, Some err) => Err err
  | (opCode, operand, newPc, None) =>
      match n with
      | O => Ok (opCode, operand, newPc)
      | S n => getNthOp s newPc n
      end
  end.

(** ** Lock time *)

Definition LockTimeThreshold : Z := 500000000.

Definition checkLockTime (lockTime txLockTime : Z) : bool :=
  if negb (((lockTime <? LockTimeThreshold)%Z && (txLockTime <? LockTimeThreshold)%Z)
        || ((LockTimeThreshold <=? lockTime)%Z && (LockTimeThreshold <=? txLockTime)%Z))
  then false
  else (lockTime <=? txLockTime)%Z.

Section WithCrypto.
Context `{C : Crypto} `{TC : TxCodec}.

(** ** Signatures *)

(** The copy of the transaction that is signed: every input script is dropped except
    that the signed input carries the locking script. *)
Definition sigTx (scriptPubKey : bytes) (originalTx : Transaction) (txInIdx : nat) : Transaction :=
  let tx := Types.AppendVout
    (Types.NewTx (Version originalTx) (Magic originalTx) (LockTime originalTx)) (Vout originalTx) in
  let tx := Types.set_data tx (Data originalTx) in
  Types.AppendVin tx (imap (fun i txIn =>
    Types.NewTxIn (PrevOutPoint txIn) (if i =? txInIdx then scriptPubKey else []) (Sequence txIn))
    (Vin originalTx)).

Definition CalcTxHashForSig (scriptPubKey : bytes) (originalTx : Transaction) (txInIdx : nat) :
    result ScriptErr bytes :=
  if length (Vin originalTx) <=? txInIdx then Err ErrInputIndexOutOfBound
  else match Types.CalcTxHash (sigTx scriptPubKey originalTx txInIdx) with
       | Some h => Ok h
       | None => Err ErrTxHash
       end.

Definition verifySig (sigStr publicKeyStr scriptPubKey : bytes) (tx : Transaction) (txInIdx : nat) : bool :=
  match SigFromBytes sigStr with
  | None => false
  | Some sig =>
      match PublicKeyFromBytes publicKeyStr with
      | None => false
      | Some publicKey =>
          match CalcTxHashForSig scriptPubKey tx txInIdx with
          | Err _ => false
          | Ok sigHash => VerifySignature sig publicKey sigHash
          end
      end
  end.

(** ** Execution *)

(** The loop of OP_CHECKMULTISIG over signatures and keys, indexed from the stack top. *)
Fixpoint multisigLoop (fuel : nat) (verify : bytes -> bytes -> bool) (stk : list bytes)
    (isVerified : bool) (sigIdx pubKeyIdx sigCount pubKeyCount : Z) : bool :=
  match fuel with
  | O => isVerified
  | S fuel =>
      if isVerified && (0 <? sigCount)%Z then
        let signature := topN stk sigIdx in
        let pubKey := topN stk pubKeyIdx in
        let '(sigIdx, sigCount) :=
          if verify signature pubKey then (sigIdx + 1, sigCount - 1)%Z else (sigIdx, sigCount) in
        let pubKeyIdx := (pubKeyIdx + 1)%Z in
        let pubKeyCount := (pubKeyCount - 1)%Z in
        let isVerified := negb (pubKeyCount <? sigCount)%Z in
        multisigLoop fuel verify stk isVerified sigIdx pubKeyIdx sigCount pubKeyCount
      else isVerified
  end.

(** The body of the OP_CHECKMULTISIG / OP_CHECKMULTISIGVERIFY cases; [i] is a Go
    [int], so its additions wrap.  The last test is on OP_CHECKSIGVERIFY, as in the
    source. *)
Definition execMultisig (s : bytes) (opCode : byte) (tx : Transaction) (txInIdx : nat)
    (scriptPubKeyStart : nat) (stk : list bytes) : result ScriptErr (list bytes * nat) :=
  let size := Z.of_nat (length stk) in
  if (size <? 1)%Z then Err ErrInvalidStackOperation else
  pubKeyCount ← operand_int (topN stk 1);
  if (pubKeyCount <? 0)%Z then Err ErrCountNegative else
  let i := 2%Z in
  let pubKeyIdx := i in
  let i := i64 (i + pubKeyCount) in
  if (size <? i)%Z then Err ErrInvalidStackOperation else
  sigCount ← operand_int (topN stk i);
  if (sigCount <? 0)%Z then Err ErrCountNegative else
  if (pubKeyCount <? sigCount)%Z then Err ErrScriptSignatureVerifyFail else
  let i := i64 (i + 1) in
  let sigIdx := i in
  let i := i64 (i + sigCount) in
  if (size <? i64 (i - 1))%Z then Err ErrInvalidStackOperation else
  let scriptPubKey := drop scriptPubKeyStart s in
  let isVerified := multisigLoop (length stk) (fun sg pk => verifySig sg pk scriptPubKey tx txInIdx)
                      stk true sigIdx pubKeyIdx sigCount pubKeyCount in
  let stk := popTimes (Z.to_nat (i - 1)) stk in
  let stk := push stk (if isVerified then operandTrue else operandFalse) in
  if op_eqb opCode OPCHECKSIGVERIFY then
    if isVerified then Ok (pop stk, scriptPubKeyStart) else Err ErrScriptSignatureVerifyFail
  else Ok (stk, scriptPubKeyStart).

Definition execOp (s : bytes) (opCode : byte) (pushData : bytes) (tx : Transaction) (txInIdx : nat)
    (pc : nat) (scriptPubKeyStart : nat) (stk : list bytes) : result ScriptErr (list bytes * nat) :=
  let size := length stk in
  if op_leb opCode OPPUSHDATA4 then Ok (push stk pushData, scriptPubKeyStart)
  else if op_leb opCode OP16 && negb (op_eqb opCode OPRESERVED) then
    Ok (push stk (be_bytes (b2z opCode - b2z OP1 + 1)), scriptPubKeyStart)
  else if op_eqb opCode OPRETURN then Err ErrOpReturn
  else if op_eqb opCode OPDROP then
    if size <? 1 then Err ErrInvalidStackOperation else Ok (pop stk, scriptPubKeyStart)
  else if op_eqb opCode OPDUP then
    if size <? 1 then Err ErrInvalidStackOperation
    else Ok (push stk (topN stk 1), scriptPubKeyStart)
  else if op_eqb opCode OPADD || op_eqb opCode OPSUB then
    if size <? 2 then Err ErrInvalidStackOperation else
    let op1 := be_value (topN stk 2) in
    let op2 := be_value (topN stk 1) in
    let r := if op_eqb opCode OPADD then (op1 + op2)%Z else (op1 - op2)%Z in
    Ok (push (pop (pop stk)) (be_bytes r), scriptPubKeyStart)
  else if op_eqb opCode OPEQUAL || op_eqb opCode OPEQUALVERIFY then
    if size <? 2 then Err ErrInvalidStackOperation else
    let isEqual := bool_decide (topN stk 2 = topN stk 1) in
    let stk := push (pop (pop stk)) (if isEqual then operandTrue else operandFalse) in
    if op_eqb opCode OPEQUALVERIFY then
      if isEqual then Ok (pop stk, scriptPubKeyStart) else Err ErrScriptEqualVerify
    else Ok (stk, scriptPubKeyStart)
  else if op_eqb opCode OPHASH160 then
    if size <? 1 then Err ErrInvalidStackOperation
    else Ok (push (pop stk) (Crypto.Hash160 (topN stk 1)), scriptPubKeyStart)
  else if op_eqb opCode OPCODESEPARATOR then Ok (stk, pc)
  else if op_eqb opCode OPCHECKSIG || op_eqb opCode OPCHECKSIGVERIFY then
    if size <? 2 then Err ErrInvalidStackOperation else
    let signature := topN stk 2 in
    let pubKey := topN stk 1 in
    let scriptPubKey := drop scriptPubKeyStart s in
    let isVerified := verifySig signature pubKey scriptPubKey tx txInIdx in
    let stk := push (pop (pop stk)) (if isVerified then operandTrue else operandFalse) in
    if op_eqb opCode OPCHECKSIGVERIFY then
      if isVerified then Ok (pop stk, scriptPubKeyStart) else Err ErrScriptSignatureVerifyFail
    else Ok (stk, scriptPubKeyStart)
  else if op_eqb opCode OPCHECKMULTISIG || op_eqb opCode OPCHECKMULTISIGVERIFY then
    execMultisig s opCode tx txInIdx scriptPubKeyStart stk
  else if op_eqb opCode OPCHECKLOCKTIMEVERIFY then
    if size <? 1 then Err ErrInvalidStackOperation else
    let lockTime := i64 (be_value (topN stk 1)) in
    if checkLockTime lockTime (LockTime tx) then Ok (pop stk, scriptPubKeyStart)
    else Err ErrScriptLockTimeVerifyFail
  else Err ErrBadOpcode.

(** The loop of [evaluate]; [None] is fuel exhaustion. *)
Fixpoint evalLoop (fuel : nat) (s : bytes) (tx : Transaction) (txInIdx : nat)
    (pc scriptPubKeyStart : nat) (stk : list bytes) : option (result ScriptErr unit) :=
  if pc <? length s then
    match fuel with
    | O => None
    | S fuel =>
        match parseNextOp s pc with
        | (_, _, _, Some err) => Some (Err err)
        | (opCode, operand, newPc, None) =>
            match execOp s opCode (default [] operand) tx txInIdx newPc scriptPubKeyStart stk with
            | Err err => Some (Err err)
            | Ok (stk, start) => evalLoop fuel s tx txInIdx newPc start stk
            end
        end
    end
  else Some (validateTop stk).

Definition evaluate (s : bytes) (tx : Transaction) (txInIdx : nat) : option (result ScriptErr unit) :=
  evalLoop (length s) s tx txInIdx 0 0 [].

(** ** Validation *)

Definition p2SHScriptLen : nat := 23.

Definition at_byte (s : bytes) (i : nat) : byte := default x00 (s !! i).

Definition IsPayToScriptHash (s : bytes) : bool :=
  if negb (length s =? p2SHScriptLen) then false
  else op_eqb (at_byte s 0) OPHASH160 && (b2z (at_byte s 1) =? 20)%Z
       && op_eqb (at_byte s 22) OPEQUAL.

(** The concatenation that is evaluated: unlocking script, separator, locking script. *)
Definition catScript (scriptSig scriptPubKey : bytes) : bytes :=
  AddScript (AddOpCode (AddScript [] scriptSig) OPCODESEPARATOR) scriptPubKey.

Definition Validate (scriptSig scriptPubKey : bytes) (tx : Transaction) (txInIdx : nat) :
    option (result ScriptErr unit) :=
  match evaluate (catScript scriptSig scriptPubKey) tx txInIdx with
  | None => None
  | Some (Err err) => Some (Err err)
  | Some (Ok _) =>
      if negb (IsPayToScriptHash scriptPubKey) then Some (Ok tt)
      else
        let '(_, sig, newPc, _) := parseNextOp scriptSig 0 in
        let newScriptSig := AddOperand [] (default [] sig) in
        let '(_, redeemScriptBytes, _, _) := parseNextOp scriptSig newPc in
        let redeemScript := default [] redeemScriptBytes in
        evaluate (catScript newScriptSig redeemScript) tx txInIdx
  end.

End WithCrypto.
End Script.
