(* ===== verification/ScriptFacts.v ===== *)
(** * ScriptFacts: decoding and execution lemmas of the script engine

    The decoder is local (shifting a script, or extending it on the right, does not
    change what it reads), makes progress, and inverts [AddOperand]; the loops satisfy
    their source equations, so their fuel is never exhausted; and evaluating a
    well-formed unlocking script followed by a locking script is evaluating one after
    the other. *)

From S2P Require Import Prelude Opcode Crypto Types Script.
Import Opcode Stack Script.

(** ** Decoder *)

(** Moving the pc of a decoding result. *)
Definition shift_pc (k : nat) (r : byte * option bytes * nat * option ScriptErr) :
    byte * option bytes * nat * option ScriptErr :=
  match r with (op, o, pc, e) => (op, o, k + pc, e) end.

Lemma slice_shift (xs s : bytes) lo hi :
  slice (xs ++ s) (length xs + lo) (length xs + hi) = slice s lo hi.
Proof.
  unfold slice. rewrite drop_app_ge by lia.
  f_equal; [lia|f_equal; lia].
Qed.

Lemma slice_extend (s t : bytes) lo hi :
  hi <= length s -> slice (s ++ t) lo hi = slice s lo hi.
Proof.
  intros H. unfold slice. destruct (decide (lo <= length s)).
  - rewrite drop_app_le by lia. rewrite take_app_le; [done|]. rewrite length_drop. lia.
  - rewrite !(proj2 (Nat.sub_0_le hi lo)) by lia. done.
Qed.

Lemma parseOperandSize_shift (xs s : bytes) op pc :
  parseOperandSize (xs ++ s) op (length xs + pc) =
    (fun p => (p.1, length xs + p.2)) <$> parseOperandSize s op pc.
Proof.
  unfold parseOperandSize. rewrite length_app, <- !Nat.add_assoc, !slice_shift.
  replace (length xs + length s - (length xs + pc)) with (length s - pc) by lia.
  by repeat case_match.
Qed.

(** Decoding after a prefix is decoding the suffix. *)
Lemma parseNextOp_shift (xs s : bytes) (pc : nat) :
  parseNextOp (xs ++ s) (length xs + pc) = shift_pc (length xs) (parseNextOp s pc).
Proof.
  unfold parseNextOp. rewrite lookup_app_r by lia.
  replace (length xs + pc - length xs) with pc by lia.
  destruct (s !! pc) as [op|] eqn:E; [|done].
  rewrite <- !Nat.add_succ_r, parseOperandSize_shift.
  destruct (op_ltb OPPUSHDATA4 op); [done|].
  destruct (parseOperandSize s op (S pc)) as [[n p]|e]; simpl; [|done].
  rewrite length_app, <- Nat.add_assoc, slice_shift.
  replace (length xs + length s - (length xs + p)) with (length s - p) by lia.
  by case_match.
Qed.

Lemma parseOperandSize_bounds (s : bytes) op pc n p :
  pc <= length s -> parseOperandSize s op pc = Ok (n, p) -> pc <= p <= length s.
Proof.
  unfold parseOperandSize. intros Hpc H.
  repeat case_match; simplify_eq; bool_to_prop; lia.
Qed.

Lemma parseOperandSize_extend (s t : bytes) op pc n p :
  parseOperandSize s op pc = Ok (n, p) -> pc <= length s ->
  parseOperandSize (s ++ t) op pc = Ok (n, p).
Proof.
  unfold parseOperandSize. intros H Hpc. rewrite length_app.
  repeat case_match; simplify_eq; bool_to_prop; try lia;
    rewrite ?slice_extend by lia; done.
Qed.

(** A successful decoding does not depend on what follows. *)
Lemma parseNextOp_extend (s t : bytes) pc op o pc' :
  parseNextOp s pc = (op, o, pc', None) -> parseNextOp (s ++ t) pc = (op, o, pc', None).
Proof.
  unfold parseNextOp. intros H.
  destruct (s !! pc) as [b|] eqn:E; [|done].
  pose proof (lookup_lt_Some _ _ _ E).
  rewrite lookup_app_l, E by done.
  destruct (op_ltb OPPUSHDATA4 b); [done|].
  destruct (parseOperandSize s b (S pc)) as [[n p]|] eqn:Ep; [|done].
  rewrite (parseOperandSize_extend _ t _ _ _ _ Ep) by lia.
  apply parseOperandSize_bounds in Ep; [|lia].
  destruct (Nat.ltb_spec (length s - p) n); [done|].
  rewrite length_app. destruct (Nat.ltb_spec (length s + length t - p) n); [lia|].
  by rewrite slice_extend by lia.
Qed.

(** A successful decoding moves forward and stays inside the script. *)
Lemma parseNextOp_progress (s : bytes) pc op o pc' :
  parseNextOp s pc = (op, o, pc', None) -> pc < pc' <= length s.
Proof.
  unfold parseNextOp. intros H.
  destruct (s !! pc) as [b|] eqn:E; [|done].
  pose proof (lookup_lt_Some _ _ _ E).
  destruct (op_ltb OPPUSHDATA4 b); [simplify_eq; lia|].
  destruct (parseOperandSize s b (S pc)) as [[n p]|] eqn:Ep; [|done].
  apply parseOperandSize_bounds in Ep; [|lia].
  destruct (Nat.ltb_spec (length s - p) n); simplify_eq. lia.
Qed.

(** An operand is present exactly for the push opcodes. *)
Lemma parseNextOp_operand (s : bytes) pc op o pc' :
  parseNextOp s pc = (op, o, pc', None) -> is_Some o <-> op_leb op OPPUSHDATA4 = true.
Proof.
  unfold parseNextOp, op_ltb, op_leb. intros H.
  destruct (s !! pc) as [b|] eqn:E; [|done].
  destruct (Z.ltb_spec (b2z OPPUSHDATA4) (b2z b)).
  - simplify_eq. rewrite is_Some_alt, Z.leb_le. lia.
  - repeat case_match; simplify_eq. rewrite is_Some_alt, Z.leb_le. lia.
Qed.

(** ** The decoder inverts the builders *)

Lemma AddOperand_app (s o : bytes) : AddOperand s o = s ++ AddOperand [] o.
Proof. done. Qed.

Lemma AddOpCode_app (s : bytes) op : AddOpCode s op = s ++ [op].
Proof. done. Qed.

(** The opcode and size bytes of [AddOperand]. *)
Definition push_header (n : Z) : bytes :=
  if (n <? b2z OPPUSHDATA1)%Z then [z2b n]
  else if (n <=? 255)%Z then [OPPUSHDATA1; z2b n]
  else if (n <=? 65535)%Z then OPPUSHDATA2 :: le_bytes 2 (u16 n)
  else OPPUSHDATA4 :: le_bytes 4 (u32 n).

Lemma AddOperand_header (s o : bytes) :
  AddOperand s o = s ++ push_header (Z.of_nat (length o)) ++ o.
Proof. done. Qed.

Lemma parseNextOp_sized (op : byte) (hdr o rest : bytes) :
  op_ltb OPPUSHDATA4 op = false ->
  parseOperandSize ((op :: hdr) ++ o ++ rest) op 1 = Ok (length o, S (length hdr)) ->
  parseNextOp ((op :: hdr) ++ o ++ rest) 0 = (op, Some o, S (length hdr) + length o, None).
Proof.
  intros Hop Hsz. unfold parseNextOp. change (((op :: hdr) ++ o ++ rest) !! 0) with (Some op).
  cbv iota beta zeta. rewrite Hop, Hsz, !length_app.
  destruct (Nat.ltb_spec (length (op :: hdr) + (length o + length rest) - S (length hdr)) (length o));
    [simpl in *; lia|].
  f_equal. f_equal. f_equal. f_equal. apply (slice_app_mid (op :: hdr) o rest).
Qed.

(** Decoding a built operand gives the operand back, up to the 16-bit sizes. *)
Lemma parseNextOp_AddOperand (o rest : bytes) :
  (Z.of_nat (length o) <= 65535)%Z ->
  exists op, parseNextOp (AddOperand [] o ++ rest) 0 =
               (op, Some o, length (AddOperand [] o), None)
             /\ op_leb op OPPUSHDATA4 = true.
Proof.
  intros Hlen. rewrite AddOperand_header. simpl app at 2 4. rewrite length_app, <- app_assoc.
  set (n := Z.of_nat (length o)) in *. assert (0 <= n)%Z by lia.
  assert (b2z OPPUSHDATA1 = 76 /\ b2z OPPUSHDATA4 = 78)%Z as [E1 E4] by done.
  unfold push_header, op_leb. rewrite E1, E4.
  destruct (Z.ltb_spec n 76); [|destruct (Z.leb_spec n 255); [|destruct (Z.leb_spec n 65535); [|lia]]];
    (eexists; split; [apply parseNextOp_sized|]).
  - unfold op_ltb. rewrite b2z_z2b_small, E4 by lia. apply Z.ltb_ge. lia.
  - unfold parseOperandSize, op_ltb. rewrite b2z_z2b_small, E1 by lia.
    destruct (Z.ltb_spec n 76); [|lia]. do 2 f_equal. lia.
  - rewrite b2z_z2b_small by lia. apply Z.leb_le. lia.
  - done.
  - unfold parseOperandSize, slice. simpl. rewrite b2z_z2b_small by lia. do 2 f_equal. lia.
  - done.
  - done.
  - unfold parseOperandSize. cbn [op_ltb op_eqb].
    replace (op_ltb OPPUSHDATA2 OPPUSHDATA1) with false by done.
    replace (op_eqb OPPUSHDATA2 OPPUSHDATA1) with false by done.
    replace (op_eqb OPPUSHDATA2 OPPUSHDATA2) with true by done.
    rewrite length_app. simpl length. cbn [Nat.sub Nat.ltb Nat.leb Nat.add].
    pose proof (slice_app_mid [OPPUSHDATA2] (le_bytes 2 (u16 n)) (o ++ rest)) as Hsl.
    rewrite length_le_bytes in Hsl. simpl length in Hsl. cbn [Nat.add app] in Hsl |- *. rewrite Hsl.
    rewrite le_value_le_bytes_small by (unfold u16; rewrite Z.mod_small; lia).
    unfold u16. rewrite Z.mod_small by lia. do 2 f_equal. lia.
  - done.
Qed.

Lemma parseNextOp_opcode (op : byte) (rest : bytes) :
  op_ltb OPPUSHDATA4 op = true -> parseNextOp (op :: rest) 0 = (op, None, 1, None).
Proof. intros H. unfold parseNextOp. simpl. by rewrite H. Qed.

(** The same two facts at an arbitrary position of a script. *)
Lemma parseNextOp_operand_at (pre o rest : bytes) :
  (Z.of_nat (length o) <= 65535)%Z ->
  exists op, parseNextOp (pre ++ AddOperand [] o ++ rest) (length pre) =
               (op, Some o, length pre + length (AddOperand [] o), None)
             /\ op_leb op OPPUSHDATA4 = true.
Proof.
  intros Hlen. destruct (parseNextOp_AddOperand o rest Hlen) as (op & E & Hop).
  exists op. split; [|done].
  pose proof (parseNextOp_shift pre (AddOperand [] o ++ rest) 0) as Hs.
  rewrite Nat.add_0_r, E in Hs. exact Hs.
Qed.

Lemma parseNextOp_opcode_at (pre : bytes) (op : byte) (rest : bytes) :
  op_ltb OPPUSHDATA4 op = true ->
  parseNextOp (pre ++ op :: rest) (length pre) = (op, None, length pre + 1, None).
Proof.
  intros H. pose proof (parseNextOp_shift pre (op :: rest) 0) as Hs.
  rewrite Nat.add_0_r, parseNextOp_opcode in Hs by done. exact Hs.
Qed.

(** ** Loop equations *)

Definition parse_from (s : bytes) (pc : nat) : list element := parseLoop (length s - pc) s pc.

Lemma parseLoop_fuel fuel (s : bytes) pc :
  length s - pc <= fuel -> parseLoop fuel s pc = parse_from s pc.
Proof.
  unfold parse_from. remember (length s - pc) as m eqn:Hm.
  revert fuel pc Hm. induction (lt_wf m) as [m _ IH]; intros fuel pc Hm Hf.
  destruct m as [|m], fuel as [|fuel]; simpl; try lia; try done.
  - destruct (Nat.ltb_spec pc (length s)); [lia|done].
  - destruct (Nat.ltb_spec pc (length s)) as [Hlt|]; [|done].
    destruct (parseNextOp s pc) as [[[op o] pc'] [e|]] eqn:E; [by destruct o|].
    apply parseNextOp_progress in E.
    assert (parseLoop fuel s pc' = parseLoop m s pc') as ->; [|done].
    rewrite (IH (length s - pc') ltac:(lia) fuel pc' eq_refl ltac:(lia)).
    by rewrite (IH (length s - pc') ltac:(lia) m pc' eq_refl ltac:(lia)).
Qed.

(** The loop of [parse], without fuel. *)
Lemma parse_from_eq (s : bytes) pc :
  parse_from s pc =
    if pc <? length s then
      match parseNextOp s pc with
      | (_, _, _, Some err) => [EError err]
      | (_, Some operand, newPc, None) => EOperand operand :: parse_from s newPc
      | (opCode, None, newPc, None) => EOpCode opCode :: parse_from s newPc
      end
    else [].
Proof.
  unfold parse_from at 1. destruct (Nat.ltb_spec pc (length s)) as [Hlt|Hge].
  - destruct (length s - pc) as [|m] eqn:Hm; [lia|]. cbn [parseLoop].
    destruct (Nat.ltb_spec pc (length s)); [|lia].
    destruct (parseNextOp s pc) as [[[op o] pc'] [e|]] eqn:E; [by destruct o|].
    apply parseNextOp_progress in E. by rewrite parseLoop_fuel by lia.
  - replace (length s - pc) with 0 by lia. done.
Qed.

Lemma parse_parse_from (s : bytes) : parse s = parse_from s 0.
Proof. unfold parse. rewrite parseLoop_fuel by lia. reflexivity. Qed.

Section WithCrypto.
Context `{C : Crypto} `{TC : TxCodec}.

Definition eval_from (s : bytes) (tx : Transaction) (idx pc start : nat) (stk : list bytes) :
    option (result ScriptErr unit) :=
  evalLoop (length s - pc) s tx idx pc start stk.

Lemma evalLoop_fuel fuel (s : bytes) tx idx pc start stk :
  length s - pc <= fuel -> evalLoop fuel s tx idx pc start stk = eval_from s tx idx pc start stk.
Proof.
  unfold eval_from. remember (length s - pc) as m eqn:Hm.
  revert fuel pc start stk Hm. induction (lt_wf m) as [m _ IH]; intros fuel pc start stk Hm Hf.
  destruct m as [|m], fuel as [|fuel]; cbn [evalLoop];
    (destruct (Nat.ltb_spec pc (length s)) as [Hlt|]; [|done]); try lia.
  destruct (parseNextOp s pc) as [[[op o] pc'] [e|]] eqn:E; [done|].
  apply parseNextOp_progress in E.
  destruct (execOp s op (default [] o) tx idx pc' start stk) as [[stk' start']|]; [|done].
  rewrite (IH (length s - pc') ltac:(lia) fuel pc' _ _ eq_refl ltac:(lia)).
  by rewrite (IH (length s - pc') ltac:(lia) m pc' _ _ eq_refl ltac:(lia)).
Qed.

(** The loop of [evaluate], without fuel. *)
Lemma eval_from_eq (s : bytes) tx idx pc start stk :
  eval_from s tx idx pc start stk =
    if pc <? length s then
      match parseNextOp s pc with
      | (_, _, _, Some err) => Some (Err err)
      | (opCode, operand, newPc, None) =>
          match execOp s opCode (default [] operand) tx idx newPc start stk with
          | Err err => Some (Err err)
          | Ok (stk, start) => eval_from s tx idx newPc start stk
          end
      end
    else Some (validateTop stk).
Proof.
  unfold eval_from at 1. destruct (Nat.ltb_spec pc (length s)) as [Hlt|Hge].
  - destruct (length s - pc) as [|m] eqn:Hm; [lia|]. cbn [evalLoop].
    destruct (Nat.ltb_spec pc (length s)); [|lia].
    destruct (parseNextOp s pc) as [[[op o] pc'] [e|]] eqn:E; [done|].
    apply parseNextOp_progress in E.
    destruct (execOp s op (default [] o) tx idx pc' start stk) as [[stk' start']|]; [|done].
    by rewrite evalLoop_fuel by lia.
  - replace (length s - pc) with 0 by lia. cbn [evalLoop].
    by destruct (Nat.ltb_spec pc (length s)); [lia|].
Qed.

Lemma evaluate_eval_from (s : bytes) tx idx : evaluate s tx idx = eval_from s tx idx 0 0 [].
Proof. unfold evaluate. rewrite evalLoop_fuel by lia. reflexivity. Qed.

Lemma eval_from_total (s : bytes) tx idx pc start stk :
  exists r, eval_from s tx idx pc start stk = Some r.
Proof.
  remember (length s - pc) as m eqn:Hm. revert pc start stk Hm.
  induction (lt_wf m) as [m _ IH]; intros pc start stk Hm.
  rewrite eval_from_eq. destruct (Nat.ltb_spec pc (length s)); [|eauto].
  destruct (parseNextOp s pc) as [[[op o] pc'] [e|]] eqn:E; [eauto|].
  apply parseNextOp_progress in E.
  destruct (execOp s op (default [] o) tx idx pc' start stk) as [[stk' start']|]; [|eauto].
  by apply (IH (length s - pc') ltac:(lia)).
Qed.

(** ** Evaluating one script after another *)

(** A script every instruction of which decodes. *)
Definition well_formed (s : bytes) : bool :=
  forallb (fun e => match e with EError _ => false | _ => true end) (parse s).

(** The instructions of a script from one position, start of the locking script and stack to
    another. *)
Inductive runs_to (s : bytes) (tx : Transaction) (idx : nat) : nat -> nat -> list bytes -> nat -> nat -> list bytes -> Prop :=
  | runs_here pc start stk : runs_to s tx idx pc start stk pc start stk
  | runs_step pc start stk op o pc1 stk1 start1 pc2 start2 stk2 :
      parseNextOp s pc = (op, o, pc1, None) -> execOp s op (default [] o) tx idx pc1 start stk = Ok (stk1, start1) ->
      runs_to s tx idx pc1 start1 stk1 pc2 start2 stk2 -> runs_to s tx idx pc start stk pc2 start2 stk2.

(** Running the well-formed prefix [xs] of a script either stops with an error or
    arrives at its end with some stack. *)
Lemma eval_prefix (xs ys : bytes) tx idx pc start stk :
  forallb (fun e => match e with EError _ => false | _ => true end) (parse_from xs pc) = true ->
  pc <= length xs ->
  (exists e, eval_from (xs ++ ys) tx idx pc start stk = Some (Err e)) \/
  (exists stk' start', runs_to (xs ++ ys) tx idx pc start stk (length xs) start' stk' /\
     eval_from (xs ++ ys) tx idx pc start stk = eval_from (xs ++ ys) tx idx (length xs) start' stk').
Proof.
  remember (length xs - pc) as m eqn:Hm. revert pc start stk Hm.
  induction (lt_wf m) as [m _ IH]; intros pc start stk Hm Hwf Hpc.
  rewrite parse_from_eq in Hwf.
  destruct (Nat.ltb_spec pc (length xs)) as [Hlt|].
  - rewrite eval_from_eq, length_app.
    destruct (Nat.ltb_spec pc (length xs + length ys)); [|lia].
    destruct (parseNextOp xs pc) as [[[op o] pc'] [e|]] eqn:E; [by destruct o|].
    pose proof (parseNextOp_progress _ _ _ _ _ E).
    pose proof (parseNextOp_extend _ ys _ _ _ _ E) as Ex. rewrite Ex.
    destruct (execOp (xs ++ ys) op (default [] o) tx idx pc' start stk) as [[stk' start']|] eqn:Eop;
      [|eauto].
    destruct (IH (length xs - pc') ltac:(lia) pc' start' stk' ltac:(lia)) as [He|(stk2 & start2 & Hr & He)];
      [by destruct o|lia|by left|]. right. exists stk2, start2. split; [by econstructor|done].
  - right. exists stk, start. assert (pc = length xs) as -> by lia. split; [constructor|done].
Qed.

(** One instruction of a script at a known position; the executed part moves from the
    right of the split to its left. *)
Lemma eval_opcode_at (pre : bytes) op (rest : bytes) tx idx start stk :
  op_ltb OPPUSHDATA4 op = true ->
  eval_from (pre ++ op :: rest) tx idx (length pre) start stk =
    match execOp (pre ++ op :: rest) op [] tx idx (length (pre ++ [op])) start stk with
    | Err err => Some (Err err)
    | Ok (stk, start) => eval_from ((pre ++ [op]) ++ rest) tx idx (length (pre ++ [op])) start stk
    end.
Proof.
  intros Hop. rewrite eval_from_eq, <- app_assoc, !length_app. simpl length.
  destruct (Nat.ltb_spec (length pre) (length pre + S (length rest))); [|lia].
  by rewrite parseNextOp_opcode_at.
Qed.

Lemma eval_operand_at (pre o rest : bytes) tx idx start stk :
  (Z.of_nat (length o) <= 65535)%Z ->
  eval_from (pre ++ AddOperand [] o ++ rest) tx idx (length pre) start stk =
    eval_from ((pre ++ AddOperand [] o) ++ rest) tx idx (length (pre ++ AddOperand [] o))
      start (push stk o).
Proof.
  intros Hlen. rewrite eval_from_eq, <- app_assoc, !length_app.
  destruct (parseNextOp_operand_at pre o rest Hlen) as (op & E & Hop).
  rewrite E. unfold execOp. rewrite Hop. simpl default.
  destruct (Nat.ltb_spec (length pre) (length pre + (length (AddOperand [] o) + length rest))); [done|].
  apply parseNextOp_progress in E. rewrite !length_app in E. lia.
Qed.

Lemma eval_operand_0 (o rest : bytes) tx idx start stk :
  (Z.of_nat (length o) <= 65535)%Z ->
  eval_from (AddOperand [] o ++ rest) tx idx 0 start stk =
    eval_from (AddOperand [] o ++ rest) tx idx (length (AddOperand [] o)) start (push stk o).
Proof. intros. by apply (eval_operand_at []). Qed.

Lemma eval_end (s : bytes) tx idx start stk :
  eval_from s tx idx (length s) start stk = Some (validateTop stk).
Proof. rewrite eval_from_eq, Nat.ltb_irrefl. done. Qed.

End WithCrypto.
