(* ===== verification/ScriptValidate.v ===== *)
(** * ScriptValidate: what the script engine accepts

    Who can spend an output: the pay-to-public-key-hash, time-locked, script-hash and
    multi-signature locking scripts, with the outcome of [Validate] on each branch,
    and the inputs on which the engine departs from the intent of its opcodes. *)

From S2P Require Import Prelude Opcode Crypto Types Script ScriptFacts.
Import Opcode Stack Script.

(** ** Stack lemmas *)

Lemma topN_1 (stk : list bytes) x : topN (stk ++ [x]) 1 = x.
Proof.
  unfold topN. rewrite length_app. simpl length.
  destruct (Z.ltb_spec (Z.of_nat (length stk + 1)) 1); [lia|]. simpl orb.
  replace (length stk + 1 - Z.to_nat 1) with (length stk) by lia.
  by rewrite list_lookup_middle.
Qed.

Lemma topN_2 (stk : list bytes) y x : topN ((stk ++ [y]) ++ [x]) 2 = y.
Proof.
  rewrite <- app_assoc. change ([y] ++ [x]) with [y; x].
  unfold topN. rewrite length_app. simpl length.
  destruct (Z.ltb_spec (Z.of_nat (length stk + 2)) 2); [lia|]. simpl orb.
  replace (length stk + 2 - Z.to_nat 2) with (length stk) by lia.
  by rewrite list_lookup_middle.
Qed.

Lemma pop_snoc (stk : list bytes) x : pop (stk ++ [x]) = stk.
Proof.
  unfold pop. rewrite length_app. simpl length. rewrite Nat.add_sub. apply take_app_length.
Qed.

Lemma popTimes_snoc (xs ys : list bytes) : popTimes (length ys) (xs ++ ys) = xs.
Proof.
  revert xs. induction ys as [|y ys IH] using rev_ind; intros xs; [by rewrite app_nil_r|].
  rewrite length_app, Nat.add_comm. simpl. by rewrite app_assoc, pop_snoc.
Qed.

Lemma validateTop_snoc (stk : list bytes) x :
  validateTop (stk ++ [x]) = if (be_value x =? 0)%Z then Err ErrFinalTopStackEleFalse else Ok tt.
Proof.
  unfold validateTop. rewrite topN_1, length_app. simpl length.
  destruct (Nat.eqb_spec (length stk + 1) 0); [lia|done].
Qed.

Lemma size_snoc (stk : list bytes) x n : n <= 1 -> (length (stk ++ [x]) <? n) = false.
Proof. intros. rewrite length_app. simpl. apply Nat.ltb_ge. lia. Qed.

Lemma size_snoc2 (stk : list bytes) y x n : n <= 2 -> (length ((stk ++ [y]) ++ [x]) <? n) = false.
Proof. intros. rewrite !length_app. simpl. apply Nat.ltb_ge. lia. Qed.

(** Decide the comparisons of constant opcodes, then unfold the taken branch. *)
Ltac eval_ops :=
  repeat match goal with
  | |- context [op_eqb ?a ?b] => let v := eval vm_compute in (op_eqb a b) in change (op_eqb a b) with v
  | |- context [op_leb ?a ?b] => let v := eval vm_compute in (op_leb a b) in change (op_leb a b) with v
  | |- context [op_ltb ?a ?b] => let v := eval vm_compute in (op_ltb a b) in change (op_ltb a b) with v
  end;
  cbv beta iota zeta delta [andb orb negb].

Section WithCrypto.
Context `{C : Crypto} `{TC : TxCodec}.
Implicit Types (s pre rest : bytes) (tx : Transaction) (idx start pc : nat) (stk : list bytes).

(** ** Effect of the opcodes of the standard locking scripts *)

Lemma exec_dup s tx idx pc start stk x :
  execOp s OPDUP [] tx idx pc start (stk ++ [x]) = Ok ((stk ++ [x]) ++ [x], start).
Proof.
  unfold execOp. eval_ops. rewrite size_snoc, topN_1 by lia.
  done.
Qed.

Lemma exec_hash160 s tx idx pc start stk x :
  execOp s OPHASH160 [] tx idx pc start (stk ++ [x]) = Ok (stk ++ [Crypto.Hash160 x], start).
Proof.
  unfold execOp. eval_ops. by rewrite size_snoc, topN_1, pop_snoc by lia.
Qed.

Lemma exec_equal s tx idx pc start stk y x :
  execOp s OPEQUAL [] tx idx pc start ((stk ++ [y]) ++ [x]) =
    Ok (stk ++ [if bool_decide (y = x) then operandTrue else operandFalse], start).
Proof.
  unfold execOp. eval_ops.
  by rewrite size_snoc2, topN_2, topN_1, !pop_snoc by lia.
Qed.

Lemma exec_equalverify s tx idx pc start stk y x :
  execOp s OPEQUALVERIFY [] tx idx pc start ((stk ++ [y]) ++ [x]) =
    if bool_decide (y = x) then Ok (stk, start) else Err ErrScriptEqualVerify.
Proof.
  unfold execOp. eval_ops.
  rewrite size_snoc2, topN_2, topN_1, !pop_snoc by lia. unfold push. by rewrite pop_snoc.
Qed.

Lemma exec_checksig s tx idx pc start stk sg pk :
  execOp s OPCHECKSIG [] tx idx pc start ((stk ++ [sg]) ++ [pk]) =
    Ok (stk ++ [if verifySig sg pk (drop start s) tx idx then operandTrue else operandFalse], start).
Proof.
  unfold execOp. eval_ops.
  by rewrite size_snoc2, topN_2, topN_1, !pop_snoc by lia.
Qed.

Lemma exec_separator s tx idx pc start stk :
  execOp s OPCODESEPARATOR [] tx idx pc start stk = Ok (stk, pc).
Proof. done. Qed.

Lemma exec_cltv s tx idx pc start stk x :
  execOp s OPCHECKLOCKTIMEVERIFY [] tx idx pc start (stk ++ [x]) =
    if checkLockTime (i64 (be_value x)) (LockTime tx) then Ok (stk, start)
    else Err ErrScriptLockTimeVerifyFail.
Proof.
  unfold execOp. eval_ops.
  by rewrite size_snoc, topN_1, pop_snoc by lia.
Qed.

(** ** Pay to public key hash *)

(** The outcome of the p2pkh locking script on the stack the unlocking script left. *)
Definition p2pkh_outcome (h scriptPubKey : bytes) tx idx (stk : list bytes) : result ScriptErr unit :=
  match reverse stk with
  | [] => Err ErrInvalidStackOperation
  | pk :: below =>
      if bool_decide (Crypto.Hash160 pk = h) then
        match below with
        | [] => Err ErrInvalidStackOperation
        | sg :: _ => if verifySig sg pk scriptPubKey tx idx then Ok tt
                     else Err ErrFinalTopStackEleFalse
        end
      else Err ErrScriptEqualVerify
  end.

Lemma p2pkh_shape (h : bytes) :
  PayToPubKeyHashScript h =
    OPDUP :: OPHASH160 :: AddOperand [] h ++ [OPEQUALVERIFY; OPCHECKSIG].
Proof. unfold PayToPubKeyHashScript, AddOpCode. rewrite AddOperand_app, <- !app_assoc. done. Qed.

Lemma exec_underflow1 s tx idx pc start op :
  op = OPDUP \/ op = OPHASH160 \/ op = OPCHECKLOCKTIMEVERIFY \/ op = OPDROP ->
  execOp s op [] tx idx pc start [] = Err ErrInvalidStackOperation.
Proof. by intros [->|[->|[->| ->]]]. Qed.

Lemma exec_checksig_underflow s tx idx pc start pk :
  execOp s OPCHECKSIG [] tx idx pc start [pk] = Err ErrInvalidStackOperation.
Proof. done. Qed.

Lemma validateTop_bool (stk : list bytes) (b : bool) :
  validateTop (stk ++ [if b then operandTrue else operandFalse]) =
    if b then Ok tt else Err ErrFinalTopStackEleFalse.
Proof. rewrite validateTop_snoc. by destruct b. Qed.

(** Running the p2pkh script at the end of a script. *)
Lemma eval_p2pkh (pre h : bytes) tx idx start stk :
  (Z.of_nat (length h) <= 65535)%Z ->
  eval_from (pre ++ PayToPubKeyHashScript h) tx idx (length pre) start stk =
    Some (p2pkh_outcome h (drop start (pre ++ PayToPubKeyHashScript h)) tx idx stk).
Proof.
  intros Hh. unfold p2pkh_outcome. remember (drop start _) as spk eqn:Hspk. revert Hspk.
  rewrite p2pkh_shape, eval_opcode_at by done.
  destruct stk as [|pk stk _] using rev_ind; [by rewrite exec_underflow1 by auto|].
  intros Hspk. rewrite reverse_snoc, exec_dup, eval_opcode_at by done.
  rewrite exec_hash160, eval_operand_at by done. unfold push.
  rewrite eval_opcode_at, exec_equalverify by done.
  destruct (bool_decide _) eqn:Hd; [|done].
  rewrite eval_opcode_at by done.
  destruct stk as [|sg stk _] using rev_ind; [by rewrite app_nil_l, exec_checksig_underflow|].
  rewrite reverse_snoc, exec_checksig, app_nil_r, eval_end, validateTop_bool.
  replace (drop start _) with spk; [by destruct (verifySig _ _ _ _ _)|].
  rewrite Hspk. f_equal. by rewrite <- !app_assoc.
Qed.

(** The unlocking script is followed by the separator, which fixes where the locking
    script starts. *)
Lemma eval_separator (scriptSig lock : bytes) tx idx start stk :
  eval_from (scriptSig ++ OPCODESEPARATOR :: lock) tx idx (length scriptSig) start stk =
    eval_from ((scriptSig ++ [OPCODESEPARATOR]) ++ lock) tx idx
      (length (scriptSig ++ [OPCODESEPARATOR])) (length (scriptSig ++ [OPCODESEPARATOR])) stk.
Proof. by rewrite eval_opcode_at. Qed.

Lemma catScript_shape (scriptSig lock : bytes) :
  catScript scriptSig lock = scriptSig ++ OPCODESEPARATOR :: lock.
Proof. unfold catScript, AddScript, AddOpCode. by rewrite app_nil_l, <- app_assoc. Qed.

Lemma Validate_not_p2sh (scriptSig lock : bytes) tx idx :
  IsPayToScriptHash lock = false ->
  Validate scriptSig lock tx idx = evaluate (catScript scriptSig lock) tx idx.
Proof.
  intros H. unfold Validate. rewrite H. simpl.
  destruct (evaluate _ _ _) as [[[]|]|]; done.
Qed.

(** An unlocking script that pushes a signature and a key. *)
Lemma eval_SignatureScript (sg pk lock : bytes) tx idx :
  (Z.of_nat (length sg) <= 65535)%Z -> (Z.of_nat (length pk) <= 65535)%Z ->
  evaluate (catScript (SignatureScript sg pk) lock) tx idx =
    let pre := SignatureScript sg pk ++ [OPCODESEPARATOR] in
    eval_from (pre ++ lock) tx idx (length pre) (length pre) [sg; pk].
Proof.
  intros Hsg Hpk. rewrite evaluate_eval_from, catScript_shape.
  unfold SignatureScript. rewrite (AddOperand_app (AddOperand [] sg)), <- app_assoc.
  rewrite eval_operand_0 by done.
  rewrite eval_operand_at by done. rewrite eval_separator. done.
Qed.

Lemma p2pkh_not_p2sh (h : bytes) : length h = 20 -> IsPayToScriptHash (PayToPubKeyHashScript h) = false.
Proof.
  intros Hh. unfold IsPayToScriptHash. rewrite p2pkh_shape, AddOperand_header. simpl length.
  rewrite !length_app, Hh. done.
Qed.

(** [Validate] is total: the interpreter loop terminates on every pair of scripts,
    within the length of the concatenated script. *)
Theorem Validate_total (scriptSig scriptPubKey : bytes) tx idx :
  exists r, Validate scriptSig scriptPubKey tx idx = Some r.
Proof.
  unfold Validate. rewrite evaluate_eval_from.
  destruct (eval_from_total (catScript scriptSig scriptPubKey) tx idx 0 0 []) as [[?|?] ->]; [|eauto].
  case_match; [eauto|].
  destruct (parseNextOp scriptSig 0) as [[[op sg] pc] e].
  destruct (parseNextOp scriptSig pc) as [[[op' rd] pc'] e'].
  rewrite evaluate_eval_from. apply eval_from_total.
Qed.

(** C36: spending a pay-to-public-key-hash output needs the key: whatever unlocking script is
    accepted, if it decodes on its own, its instructions run from the empty stack to its end and
    leave there, on top, a public key with the committed hash and below it a signature of the
    spending transaction that verifies under that key.  The condition is needed: an unlocking script
    that ends in a push opcode without its operand swallows the locking script (Validate_swallow). *)
Theorem p2pkh_sound (scriptSig h : bytes) tx idx :
  well_formed scriptSig = true -> length h = 20 ->
  Validate scriptSig (PayToPubKeyHashScript h) tx idx = Some (Ok tt) ->
  exists start below sg pk,
    runs_to (catScript scriptSig (PayToPubKeyHashScript h)) tx idx 0 0 [] (length scriptSig) start (below ++ [sg; pk]) /\
    Crypto.Hash160 pk = h /\ verifySig sg pk (PayToPubKeyHashScript h) tx idx = true.
Proof.
  intros Hwf Hh. unfold well_formed in Hwf. rewrite parse_parse_from in Hwf.
  rewrite Validate_not_p2sh, evaluate_eval_from, catScript_shape by by apply p2pkh_not_p2sh.
  destruct (eval_prefix scriptSig (OPCODESEPARATOR :: PayToPubKeyHashScript h) tx idx 0 0 [])
    as [[e ->]|(stk & start & Hr & ->)]; [done|lia|done|].
  rewrite eval_separator, eval_p2pkh, drop_app_length by lia.
  unfold p2pkh_outcome. intros [= H].
  destruct (reverse stk) as [|pk [|sg below]] eqn:Es; [done|by case_bool_decide|].
  case_bool_decide; [|done]. exists start, (reverse below), sg, pk.
  apply (f_equal reverse) in Es. rewrite reverse_involutive, !reverse_cons, <- app_assoc in Es. cbn in Es. rewrite <- Es.
  split; [done|]. split; [done|]. by destruct (verifySig _ _ _ _ _).
Qed.

(** what [Validate] answers on the unlocking script [SignatureScript] builds, on
    every branch: accepted with the right key and a verifying signature, and otherwise
    the error of the check that failed. *)
Theorem p2pkh_outcomes (sg pk h : bytes) tx idx :
  (Z.of_nat (length sg) <= 65535)%Z -> (Z.of_nat (length pk) <= 65535)%Z -> length h = 20 ->
  Validate (SignatureScript sg pk) (PayToPubKeyHashScript h) tx idx =
    Some (if bool_decide (Crypto.Hash160 pk = h) then
            if verifySig sg pk (PayToPubKeyHashScript h) tx idx then Ok tt
            else Err ErrFinalTopStackEleFalse
          else Err ErrScriptEqualVerify).
Proof.
  intros Hsg Hpk Hh.
  rewrite Validate_not_p2sh, eval_SignatureScript by (done || by apply p2pkh_not_p2sh).
  cbv zeta. by rewrite eval_p2pkh, drop_app_length by lia.
Qed.

(** the unlocking and locking scripts are concatenated before they are decoded, so
    an unlocking script of one push opcode can swallow the separator and the whole
    locking script as data: every locking script of at most 74 bytes that is not
    pay-to-script-hash is then accepted without any signature. *)
Theorem Validate_swallow (lock : bytes) tx idx :
  length lock <= 74 -> IsPayToScriptHash lock = false ->
  Validate [z2b (Z.of_nat (length lock) + 1)] lock tx idx = Some (Ok tt).
Proof.
  intros Hlen Hns. rewrite Validate_not_p2sh, evaluate_eval_from, catScript_shape by done.
  set (o := OPCODESEPARATOR :: lock).
  assert ([z2b (Z.of_nat (length lock) + 1)] ++ o = AddOperand [] o ++ []) as ->.
  { assert (Z.of_nat (length o) = Z.of_nat (length lock) + 1)%Z as E by (subst o; simpl length; lia).
    rewrite AddOperand_header, app_nil_r, E. unfold push_header.
    destruct (Z.ltb_spec (Z.of_nat (length lock) + 1) (b2z OPPUSHDATA1)); [done|].
    change (b2z OPPUSHDATA1) with 76%Z in *. lia. }
  rewrite eval_operand_0 by (subst o; simpl length; lia).
  rewrite app_nil_r, eval_end. unfold push. rewrite validateTop_snoc.
  subst o. rewrite be_value_cons. pose proof (be_value_nonneg lock).
  assert (0 < 256 ^ Z.of_nat (length lock))%Z by (apply Z.pow_pos_nonneg; lia).
  change (b2z OPCODESEPARATOR) with 171%Z.
  destruct (Z.eqb_spec (171 * 256 ^ Z.of_nat (length lock) + be_value lock) 0); [lia|done].
Qed.

(** ** Time-locked outputs *)

Lemma length_be_bytes z : (0 <= z < 2 ^ 63)%Z -> length (be_bytes z) <= 8.
Proof. intros. unfold be_bytes. apply (be_digits_length 8 _ _ []). change (256 ^ Z.of_nat 8)%Z with (2 ^ 64)%Z. lia. Qed.

Lemma cltv_shape (h : bytes) t :
  PayToPubKeyHashCLTVScript h t =
    AddOperand [] (be_bytes t) ++ OPCHECKLOCKTIMEVERIFY :: PayToPubKeyHashScript h.
Proof.
  rewrite p2pkh_shape. unfold PayToPubKeyHashCLTVScript, AddOpCode.
  rewrite (AddOperand_app (_ ++ [OPHASH160])), <- !app_assoc. done.
Qed.

Lemma cltv_not_p2sh (h : bytes) t :
  length h = 20 -> IsPayToScriptHash (PayToPubKeyHashCLTVScript h t) = false.
Proof.
  intros Hh. unfold IsPayToScriptHash. rewrite cltv_shape, p2pkh_shape, length_app.
  simpl length. rewrite length_app, !(AddOperand_header []), !length_app, Hh. simpl length.
  match goal with |- context [?n =? p2SHScriptLen] => destruct (Nat.eqb_spec n p2SHScriptLen) as [E|] end;
    [|done]. unfold p2SHScriptLen in E. lia.
Qed.

(** an output locked until [t] is spendable only by a transaction whose lock time is
    of the same kind (height or time) and at least [t]; then it behaves as pay to public
    key hash, and otherwise every signature script is refused with the lock-time error. *)
Theorem cltv_outcomes (sg pk h : bytes) (t : Z) tx idx :
  (Z.of_nat (length sg) <= 65535)%Z -> (Z.of_nat (length pk) <= 65535)%Z -> length h = 20 ->
  (0 <= t < 2 ^ 63)%Z ->
  Validate (SignatureScript sg pk) (PayToPubKeyHashCLTVScript h t) tx idx =
    Some (if Bool.eqb (t <? LockTimeThreshold)%Z (LockTime tx <? LockTimeThreshold)%Z
             && (t <=? LockTime tx)%Z then
            if bool_decide (Crypto.Hash160 pk = h) then
              if verifySig sg pk (PayToPubKeyHashCLTVScript h t) tx idx then Ok tt
              else Err ErrFinalTopStackEleFalse
            else Err ErrScriptEqualVerify
          else Err ErrScriptLockTimeVerifyFail).
Proof.
  intros Hsg Hpk Hh Ht. pose proof (length_be_bytes t Ht).
  rewrite Validate_not_p2sh, eval_SignatureScript by (done || by apply cltv_not_p2sh).
  cbv zeta. set (pre := SignatureScript sg pk ++ [OPCODESEPARATOR]).
  rewrite cltv_shape, eval_operand_at by lia. unfold push.
  rewrite eval_opcode_at, exec_cltv, be_value_be_bytes, Z.abs_eq, i64_small by (done || lia).
  replace (checkLockTime t (LockTime tx)) with
    (Bool.eqb (t <? LockTimeThreshold)%Z (LockTime tx <? LockTimeThreshold)%Z
      && (t <=? LockTime tx)%Z).
  2: { unfold checkLockTime.
    destruct (Z.ltb_spec t LockTimeThreshold), (Z.ltb_spec (LockTime tx) LockTimeThreshold),
      (Z.leb_spec LockTimeThreshold t), (Z.leb_spec LockTimeThreshold (LockTime tx)); done || lia. }
  destruct (_ && _); [|done].
  rewrite eval_p2pkh by lia. f_equal.
  rewrite <- !app_assoc, drop_app_length. done.
Qed.

(** ** Pay to script hash *)

Definition p2sh_script (h : bytes) : bytes := OPHASH160 :: AddOperand [] h ++ [OPEQUAL].

Lemma p2sh_is_p2sh (h : bytes) : length h = 20 -> IsPayToScriptHash (p2sh_script h) = true.
Proof.
  intros Hh. unfold p2sh_script. rewrite AddOperand_header, Hh.
  do 20 (destruct h as [|? h]; [done|]). by destruct h.
Qed.

(** a pay-to-script-hash output is opened by the script with the committed hash and
    nothing else, and then the redeem script decides, run on the pushed signature. *)
Theorem p2sh_outcomes (sg redeem h : bytes) tx idx :
  (Z.of_nat (length sg) <= 65535)%Z -> (Z.of_nat (length redeem) <= 65535)%Z -> length h = 20 ->
  Validate (SignatureScript sg redeem) (p2sh_script h) tx idx =
    if bool_decide (Crypto.Hash160 redeem = h)
    then evaluate (catScript (AddOperand [] sg) redeem) tx idx
    else Some (Err ErrFinalTopStackEleFalse).
Proof.
  intros Hsg Hrd Hh. unfold Validate. rewrite p2sh_is_p2sh by done.
  rewrite eval_SignatureScript by done. cbv zeta.
  set (pre := SignatureScript sg redeem ++ [OPCODESEPARATOR]). unfold p2sh_script.
  change [sg; redeem] with ([sg] ++ [redeem]).
  rewrite eval_opcode_at, exec_hash160, eval_operand_at by (done || lia). unfold push.
  rewrite eval_opcode_at, exec_equal, app_nil_r, eval_end, validateTop_bool by done.
  destruct (bool_decide _); [|done]. simpl negb. cbv iota.
  unfold SignatureScript. rewrite (AddOperand_app (AddOperand [] sg)).
  destruct (parseNextOp_AddOperand sg (AddOperand [] redeem) Hsg) as (op & -> & _).
  destruct (parseNextOp_operand_at (AddOperand [] sg) redeem [] Hrd) as (op' & E & _).
  rewrite app_nil_r in E. rewrite E. done.
Qed.

End WithCrypto.

(** ** Concrete runs *)

Module ValidateScriptRun.

Definition pk : bytes := [x05].
Definition h : bytes := Crypto.Hash160 (C := ToyCrypto.toy) pk.

(** The signature of a transaction under a locking script, for the toy scheme. *)
Definition sign (lock : bytes) (tx : Transaction) : bytes :=
  match CalcTxHashForSig (C := ToyCrypto.toy) (TC := ToyCodec.toy_codec) lock tx 0 with
  | Ok d => pk ++ d
  | Err _ => []
  end.

Definition sg : bytes := sign (PayToPubKeyHashScript h) ToyCodec.tx0.

End ValidateScriptRun.

Lemma p2pkh_sound_witness :
  exists start below sg pk,
    runs_to (C := ToyCrypto.toy) (TC := ToyCodec.toy_codec)
      (catScript (SignatureScript ValidateScriptRun.sg ValidateScriptRun.pk) (PayToPubKeyHashScript ValidateScriptRun.h))
      ToyCodec.tx0 0 0 0 [] (length (SignatureScript ValidateScriptRun.sg ValidateScriptRun.pk)) start (below ++ [sg; pk]) /\
    Crypto.Hash160 (C := ToyCrypto.toy) pk = ValidateScriptRun.h /\
    verifySig (C := ToyCrypto.toy) (TC := ToyCodec.toy_codec) sg pk
      (PayToPubKeyHashScript ValidateScriptRun.h) ToyCodec.tx0 0 = true.
Proof.
  apply (p2pkh_sound (C := ToyCrypto.toy) (TC := ToyCodec.toy_codec)
    (SignatureScript ValidateScriptRun.sg ValidateScriptRun.pk)); vm_compute; reflexivity.
Defined.

Lemma p2pkh_outcomes_witness :
  Validate (C := ToyCrypto.toy) (TC := ToyCodec.toy_codec)
    (SignatureScript ValidateScriptRun.sg ValidateScriptRun.pk)
    (PayToPubKeyHashScript ValidateScriptRun.h) ToyCodec.tx0 0 = Some (Ok tt).
Proof.
  rewrite (p2pkh_outcomes (C := ToyCrypto.toy) (TC := ToyCodec.toy_codec)
    ValidateScriptRun.sg ValidateScriptRun.pk ValidateScriptRun.h ToyCodec.tx0 0);
    vm_compute; congruence.
Defined.

Lemma Validate_swallow_witness :
  Validate (C := ToyCrypto.toy) (TC := ToyCodec.toy_codec) [x1a]
    (PayToPubKeyHashScript ValidateScriptRun.h) ToyCodec.tx0 0 = Some (Ok tt).
Proof.
  apply (Validate_swallow (C := ToyCrypto.toy) (TC := ToyCodec.toy_codec)
    (PayToPubKeyHashScript ValidateScriptRun.h)); [simpl; lia|reflexivity].
Defined.

Lemma cltv_outcomes_witness :
  Validate (C := ToyCrypto.toy) (TC := ToyCodec.toy_codec)
    (SignatureScript ValidateScriptRun.sg ValidateScriptRun.pk)
    (PayToPubKeyHashCLTVScript ValidateScriptRun.h 8) ToyCodec.tx0 0 =
  Some (Err ErrScriptLockTimeVerifyFail).
Proof.
  rewrite (cltv_outcomes (C := ToyCrypto.toy) (TC := ToyCodec.toy_codec)
    ValidateScriptRun.sg ValidateScriptRun.pk ValidateScriptRun.h 8 ToyCodec.tx0 0);
    try (vm_compute; congruence). lia.
Defined.

(** The redeem script [OP_1]. *)
Lemma p2sh_outcomes_witness :
  Validate (C := ToyCrypto.toy) (TC := ToyCodec.toy_codec)
    (SignatureScript [x07] [OP1]) (p2sh_script (Crypto.Hash160 (C := ToyCrypto.toy) [OP1])) ToyCodec.tx0 0 =
  Some (Ok tt).
Proof.
  rewrite (p2sh_outcomes (C := ToyCrypto.toy) (TC := ToyCodec.toy_codec)
    [x07] [OP1] (Crypto.Hash160 (C := ToyCrypto.toy) [OP1]) ToyCodec.tx0 0);
    vm_compute; congruence.
Defined.
