(* ===== verification/ScriptKinds.v ===== *)
(** * ScriptKinds: recognising, building and reading the standard scripts

    The rest of src/script/script.go and src/script/token.go: the predicates that
    recognise each kind of locking script, [PubkType] and [ExtractAddress], and the
    builders and readers of split-address, contract and token scripts.  A reader that
    indexes past the end of an operand panics in Go; such readers answer in [go]. *)

From S2P Require Import Prelude Opcode Crypto Types Script.
Import Opcode Script.

(** [VMTxParams] of src/core/types/transaction_vm.go, as the script carries it. *)
Record VMTxParams := mkVMTxParams {
  vp_From : bytes;
  vp_To : bytes;
  vp_Nonce : Z;
  vp_GasLimit : Z;
  vp_Version : Z
}.

Inductive ContractType := ContractUnkownType | ContractCreationType | ContractCallType.

Inductive PubkTypeT :=
| UnknownPubk | PayToPubk | TokenTransferPubk | TokenIssuePubk | ContractPubk
| SplitAddrPubk | PayToPubkCLTV | PayToScriptPubk | OpReturnPubk.

#[global] Instance PubkTypeT_eq_dec : EqDecision PubkTypeT.
Proof. solve_decision. Defined.

Record IssueParams := mkIssueParams {
  ip_Name : bytes;
  ip_Symbol : bytes;
  ip_TotalSupply : Z;
  ip_Decimals : Z
}.

Record TransferParams := mkTransferParams {
  tp_Hash : bytes;
  tp_Index : Z;
  tp_Amount : Z
}.

Module Kinds.

Definition p2PKHScriptLen : nat := 25.
Definition MaxSplitAddrs : nat := 32.
Definition MaxOpReturnSize : nat := 512.

(** [script[i] == v] for an in-range index. *)
Definition byte_is (s : bytes) (i : nat) (v : Z) : bool := (b2z (at_byte s i) =? v)%Z.

(** ** Recognisers *)

Definition IsPayToPubKeyHash (s : bytes) : bool :=
  if negb (length s =? p2PKHScriptLen) then false
  else op_eqb (at_byte s 0) OPDUP && op_eqb (at_byte s 1) OPHASH160 && byte_is s 2 20
       && op_eqb (at_byte s 23) OPEQUALVERIFY && op_eqb (at_byte s 24) OPCHECKSIG.

Definition IsPayToPubKeyHashCLTVScript (s : bytes) : bool :=
  let l := length s in
  (27 <=? l) && op_eqb (at_byte s (l - 1)) OPCHECKSIG && op_eqb (at_byte s (l - 2)) OPEQUALVERIFY
  && byte_is s (l - 23) 20 && op_eqb (at_byte s (l - 24)) OPHASH160
  && op_eqb (at_byte s (l - 25)) OPDUP && op_eqb (at_byte s (l - 26)) OPCHECKLOCKTIMEVERIFY.

(** The loop [for i := 23; i < len(ss); i += 26], [n] iterations left. *)
Fixpoint splitCheckLoop (n : nat) (s : bytes) (i : nat) : bool :=
  match n with
  | O => true
  | S n =>
      if i <? length s then
        if negb (byte_is s i 20) || negb (byte_is s (i + 21) 4) then false
        else if (i + 26) / 26 =? MaxSplitAddrs then false
        else splitCheckLoop n s (i + 26)
      else true
  end.

Definition IsSplitAddrScript (s : bytes) : bool :=
  if length s <? 49 then false
  else if negb ((length s - 23) mod 26 =? 0) || negb (op_eqb (at_byte s 0) OPRETURN)
          || negb (op_eqb (at_byte s 1) OP0) then false
  else splitCheckLoop (length s) s 23.

Definition IsContractSig (sig : bytes) : bool :=
  (length sig =? 10) && op_eqb (at_byte sig 0) OPCONTRACT && byte_is sig 1 8.

Definition IsContractPubkey (s : bytes) : bool :=
  if negb (length s =? 66) then false
  else if negb (op_eqb (at_byte s 0) OPCONTRACT) || negb (byte_is s 1 20) || negb (byte_is s 22 20)
          || negb (byte_is s 43 8) || negb (byte_is s 52 8) || negb (byte_is s 61 4) then false
  else true.

Definition IsOpReturnScript (s : bytes) : bool :=
  if length s <? 3 then false
  else if negb (op_eqb (at_byte s 0) OPRETURN) then false
  else if op_eqb (at_byte s 1) OP0 then false
  else match parseNextOp s 1 with
       | (_, _, _, Some _) => false
       | (_, operand, newPc, None) =>
           if MaxOpReturnSize <? length (default [] operand) then false
           else if negb (length s =? newPc) then false
           else true
       end.

(** ** Tokens: keys and recognisers (token.go) *)

Definition TokenNameKey : bytes := String.list_byte_of_string "Name".
Definition TokenSymbolKey : bytes := String.list_byte_of_string "Symbol".
Definition TokenAmountKey : bytes := String.list_byte_of_string "Amount".
Definition TokenDecimalsKey : bytes := String.list_byte_of_string "Decimals".
Definition TokenTxHashKey : bytes := String.list_byte_of_string "TokenTxHash".
Definition TokenTxOutIdxKey : bytes := String.list_byte_of_string "TokenTxOutIdx".

Definition elem_is (r : list element) (i : nat) (e : element) : bool :=
  bool_decide (r !! i = Some e).

Definition P2PKHScriptPrefix (s : bytes) : bytes := take p2PKHScriptLen s.

Definition IsTokenIssue (s : bytes) : bool :=
  if length s <? p2PKHScriptLen then false
  else if negb (IsPayToPubKeyHash (P2PKHScriptPrefix s)) then false
  else
    let r := parse (drop p2PKHScriptLen s) in
    (length r =? 16)
    && elem_is r 0 (EOperand TokenNameKey) && elem_is r 1 (EOpCode OPDROP) && elem_is r 3 (EOpCode OPDROP)
    && elem_is r 4 (EOperand TokenSymbolKey) && elem_is r 5 (EOpCode OPDROP) && elem_is r 7 (EOpCode OPDROP)
    && elem_is r 8 (EOperand TokenAmountKey) && elem_is r 9 (EOpCode OPDROP) && elem_is r 11 (EOpCode OPDROP)
    && elem_is r 12 (EOperand TokenDecimalsKey) && elem_is r 13 (EOpCode OPDROP)
    && elem_is r 15 (EOpCode OPDROP).

Definition IsTokenTransfer (s : bytes) : bool :=
  if length s <? p2PKHScriptLen then false
  else if negb (IsPayToPubKeyHash (P2PKHScriptPrefix s)) then false
  else
    let r := parse (drop p2PKHScriptLen s) in
    (length r =? 12)
    && elem_is r 0 (EOperand TokenTxHashKey) && elem_is r 1 (EOpCode OPDROP) && elem_is r 3 (EOpCode OPDROP)
    && elem_is r 4 (EOperand TokenTxOutIdxKey) && elem_is r 5 (EOpCode OPDROP) && elem_is r 7 (EOpCode OPDROP)
    && elem_is r 8 (EOperand TokenAmountKey) && elem_is r 9 (EOpCode OPDROP) && elem_is r 11 (EOpCode OPDROP).

(** ** The kind of a locking script *)

Definition PubkType (s : bytes) : PubkTypeT :=
  if IsPayToPubKeyHash s then PayToPubk
  else if IsTokenTransfer s then TokenTransferPubk
  else if IsTokenIssue s then TokenIssuePubk
  else if IsContractPubkey s then ContractPubk
  else if IsSplitAddrScript s then SplitAddrPubk
  else if IsPayToPubKeyHashCLTVScript s then PayToPubkCLTV
  else if IsPayToScriptHash s then PayToScriptPubk
  else if IsOpReturnScript s then OpReturnPubk
  else UnknownPubk.

(** ** Contract scripts *)

Definition addr_result {A} (f : bytes -> A) (r : result Types.AddrError bytes) : result ScriptErr A :=
  match r with Ok h => Ok (f h) | Err e => Err (ErrAddress e) end.

(** [operand] of the instruction at [pc], as a possibly nil slice. *)
Definition operandAt (s : bytes) (pc : nat) : result ScriptErr (bytes * nat) :=
  match getNthOp s pc 0 with
  | Err e => Err e
  | Ok (_, operand, pc) => Ok (default [] operand, pc)
  end.

Definition ParseContractFrom (s : bytes) : result ScriptErr bytes :=
  '(operand, _) ← operandAt s 1;
  if negb (length operand =? Crypto.AddrSize) then Err ErrInvalidContractScript
  else addr_result id (Types.NewAddressPubKeyHash operand).

(** The contract address; nil for a contract creation. *)
Definition ParseContractAddr (s : bytes) : result ScriptErr (option bytes) :=
  '(operand, _) ← operandAt s 22;
  if negb (length operand =? Crypto.AddrSize) then Err ErrInvalidContractScript
  else if bool_decide (operand = Types.ZeroAddressHash) then Ok None
  else addr_result Some (Types.NewContractAddressFromHash operand).

Definition ParseContractNonce (s : bytes) : result ScriptErr Z :=
  '(operand, _) ← operandAt s 43;
  if negb (length operand =? 8) then Err ErrNonceNot8Bytes else Ok (le_value operand).

Definition ParseContractGas (s : bytes) : result ScriptErr Z :=
  '(operand, _) ← operandAt s 52;
  if negb (length operand =? 8) then Err ErrGasNot8Bytes else Ok (le_value operand).

Definition ParseContractInfo (s : bytes) : result ScriptErr (bytes * option bytes * Z) :=
  from ← ParseContractFrom s;
  contractAddress ← ParseContractAddr s;
  nonce ← ParseContractNonce s;
  Ok (from, contractAddress, nonce).

Definition readUint64 (s : bytes) (pc : nat) : result ScriptErr (Z * nat) :=
  '(operand, pc) ← operandAt s pc;
  if negb (length operand =? 8) then Err ErrReadUint64 else Ok (le_value operand, pc).

(** [readUint32] with all three results: the value and the pc are meaningful to the
    caller even when there is an error. *)
Definition readUint32 (s : bytes) (pc : nat) : Z * nat * option ScriptErr :=
  match operandAt s pc with
  | Err e => (0%Z, 0, Some e)
  | Ok (operand, pc) =>
      if negb (length operand =? 4) then (0%Z, pc, Some ErrReadUint32)
      else (le_value operand, pc, None)
  end.

Definition is_bound_error {A} (r : result ScriptErr A) : bool :=
  match r with Err ErrScriptBound => true | _ => false end.

(** [ParseContractParams]; the error of [readUint32] is not looked at, as in the
    source. *)
Definition ParseContractParams (s : bytes) : result ScriptErr (VMTxParams * ContractType) :=
  match getNthOp s 0 0 with
  | Err _ => Err ErrInvalidContractScript
  | Ok (opCode, _, pc) =>
      if negb (op_eqb opCode OPCONTRACT) then Err ErrInvalidContractScript else
      '(from, pc) ← operandAt s pc;
      if negb (length from =? Crypto.AddrSize) then Err ErrInvalidContractScript else
      '(to, pc) ← operandAt s pc;
      if negb (length to =? Crypto.AddrSize) then Err ErrInvalidContractScript else
      let typ := if bool_decide (to = Types.ZeroAddressHash) then ContractCreationType
                 else ContractCallType in
      '(nonce, pc) ← readUint64 s pc;
      '(gasLimit, pc) ← readUint64 s pc;
      let '(ver, pc, _) := readUint32 s pc in
      if is_bound_error (getNthOp s pc 0)
      then Ok (mkVMTxParams from to nonce gasLimit (i32 ver), typ)
      else Err ErrInvalidContractScript
  end.

Definition FixedGasPrice : Z := 50.

Definition MakeContractScriptPubkey (from to : option bytes) (gasLimit nonce version : Z) :
    result ScriptErr bytes :=
  match from with
  | None => Err ErrInvalidContractParams
  | Some from =>
      if (gasLimit =? 0)%Z then Err ErrInvalidContractParams
      else if ((2 ^ 63 - 1) / FixedGasPrice <=? gasLimit)%Z then Err ErrInvalidContractParams
      else
        let toHash := default Types.ZeroAddressHash to in
        Ok (AddOperand (AddOperand (AddOperand (AddOperand (AddOperand
              (AddOpCode [] OPCONTRACT) from) toHash) (le_bytes 8 nonce)) (le_bytes 8 gasLimit))
              (le_bytes 4 (u32 version)))
  end.

Definition MakeContractScriptSig (nonce : Z) : bytes :=
  AddOperand (AddOpCode [] OPCONTRACT) (le_bytes 8 nonce).

(** ** Addresses *)

Definition ExtractAddress (s : bytes) : result ScriptErr Types.Address :=
  match PubkType s with
  | PayToPubk | TokenTransferPubk | TokenIssuePubk =>
      '(pubKeyHash, _) ← operandAt s 2;
      addr_result Types.AddressPubKeyHash (Types.NewAddressPubKeyHash pubKeyHash)
  | ContractPubk => Types.AddressContract <$> ParseContractAddr s
  | SplitAddrPubk =>
      '(pubKeyHash, _) ← operandAt s 2;
      addr_result Types.AddressTypeSplit (Types.NewSplitAddressFromHash pubKeyHash)
  | PayToPubkCLTV =>
      '(pubKeyHash, _) ← operandAt s (length s - 23);
      addr_result Types.AddressPubKeyHash (Types.NewAddressPubKeyHash pubKeyHash)
  | PayToScriptPubk =>
      '(pubKeyHash, _) ← operandAt s 1;
      addr_result Types.AddressPubKeyHash (Types.NewAddressPubKeyHash pubKeyHash)
  | _ => Err ErrAddressNotApplicable
  end.

Definition IsStandard (s : bytes) : bool :=
  if is_ok (ExtractAddress s) then true else IsOpReturnScript s.

(** ** Token scripts *)

Definition IssueTokenScript (addrHash : bytes) (params : IssueParams) : bytes :=
  let add (s key operand : bytes) :=
    AddOpCode (AddOperand (AddOpCode (AddOperand s key) OPDROP) operand) OPDROP in
  let s := PayToPubKeyHashScript addrHash in
  let s := add s TokenNameKey (ip_Name params) in
  let s := add s TokenSymbolKey (ip_Symbol params) in
  let s := add s TokenAmountKey (le_bytes 8 (ip_TotalSupply params)) in
  add s TokenDecimalsKey [z2b (ip_Decimals params)].

Definition TransferTokenScript (addrHash : bytes) (params : TransferParams) : bytes :=
  let add (s key operand : bytes) :=
    AddOpCode (AddOperand (AddOpCode (AddOperand s key) OPDROP) operand) OPDROP in
  let s := PayToPubKeyHashScript addrHash in
  let s := add s TokenTxHashKey (tp_Hash params) in
  let s := add s TokenTxOutIdxKey (le_bytes 4 (tp_Index params)) in
  add s TokenAmountKey (le_bytes 8 (tp_Amount params)).

Definition index0 (operand : bytes) : go Z :=
  match operand with [] => Panics | b :: _ => Returns (b2z b) end.

(** The n-th operand from [pc]. *)
Definition nthOperand (s : bytes) (pc n : nat) : result ScriptErr (bytes * nat) :=
  match getNthOp s pc n with
  | Err e => Err e
  | Ok (_, operand, pc) => Ok (default [] operand, pc)
  end.

Definition GetIssueParams (s : bytes) : go (result ScriptErr IssueParams) :=
  match nthOperand s 0 7 with
  | Err e => Returns (Err e)
  | Ok (name, pc) =>
  match nthOperand s pc 3 with
  | Err e => Returns (Err e)
  | Ok (symbol, pc) =>
  match nthOperand s pc 3 with
  | Err e => Returns (Err e)
  | Ok (operand, pc) =>
      totalSupply ← uint_le 8 operand;
      match nthOperand s pc 3 with
      | Err e => Returns (Err e)
      | Ok (operand, _) =>
          decimals ← index0 operand;
          Returns (Ok (mkIssueParams name symbol totalSupply decimals))
      end
  end end end.

Definition GetTransferParams (s : bytes) : go (result ScriptErr TransferParams) :=
  match nthOperand s 0 7 with
  | Err e => Returns (Err e)
  | Ok (operand, pc) =>
      if negb (Nat.min Crypto.HashSize (length operand) =? Crypto.HashSize)
      then Returns (Err ErrTxHashSize)
      else
        let hash := take Crypto.HashSize operand in
        match nthOperand s pc 3 with
        | Err e => Returns (Err e)
        | Ok (operand, pc) =>
            index ← uint_le 4 operand;
            match nthOperand s pc 3 with
            | Err e => Returns (Err e)
            | Ok (operand, _) =>
                amount ← uint_le 8 operand;
                Returns (Ok (mkTransferParams hash index amount))
            end
        end
  end.

(** ** Split addresses *)

(** The address/weight pairs as the script stores them. *)
Fixpoint splitPairs (s : bytes) (addrs : list bytes) (weights : list Z) : bytes :=
  match addrs, weights with
  | a :: addrs, w :: weights =>
      splitPairs (AddOperand (AddOperand s a) (le_bytes 4 w)) addrs weights
  | _, _ => s
  end.

(** [GetSplitAddrScriptPrefix]: errors are not looked at, so a failed read gives the
    zero values. *)
Definition GetSplitAddrScriptPrefix (s : bytes) : bytes :=
  let zero (r : result ScriptErr (byte * option bytes * nat)) :=
    match r with Ok p => p | Err _ => (x00, None, 0) end in
  let '(opCode, _, _) := zero (getNthOp s 0 0) in
  let '(opCode2, _, pc) := zero (getNthOp s 1 0) in
  let '(_, operandHash, _) := zero (getNthOp s pc 0) in
  AddOperand (AddOpCode (AddOpCode [] opCode) opCode2) (default [] operandHash).

(** The loop that collects addresses (even positions) and weights (odd positions). *)
Fixpoint splitLoop (fuel : nat) (s : bytes) (pc i : nat) (addrs : list bytes) (weights : list Z) :
    result ScriptErr (list bytes * list Z) :=
  match fuel with
  | O => Err ErrInvalidSplitAddrScript
  | S fuel =>
      match getNthOp s pc i with
      | Err ErrScriptBound => Ok (addrs, weights)
      | Err _ => Err ErrInvalidSplitAddrScript
      | Ok (_, operand, _) =>
          let operand := default [] operand in
          if i mod 2 =? 0 then
            match Types.NewAddressPubKeyHash operand with
            | Err _ => Err ErrInvalidSplitAddrScript
            | Ok addr => splitLoop fuel s pc (S i) (addrs ++ [addr]) weights
            end
          else if negb (length operand =? 4) then Err ErrInvalidSplitAddrScript
          else splitLoop fuel s pc (S i) addrs (weights ++ [le_value operand])
      end
  end.

Section WithCrypto.
Context `{C : Crypto}.

(** [nil] is the refusal of unusable arguments. *)
Definition SplitAddrScript (addrs : list bytes) (weights : list Z) : option bytes :=
  if (length addrs =? 0) || negb (length addrs =? length weights) || (MaxSplitAddrs <? length addrs)
  then None
  else
    let s := splitPairs [] addrs weights in
    let scriptHash := Crypto.Hash160 s in
    Some (AddScript (AddOperand (AddOpCode (AddOpCode [] OPRETURN) OP0) scriptHash) s).

(** [ParseSplitAddrScript]; with fewer weights than addresses the rebuild loop indexes
    [weights] out of range. *)
Definition ParseSplitAddrScript (s : bytes) : go (result ScriptErr (list bytes * list Z)) :=
  match getNthOp s 0 0 with
  | Err _ => Returns (Err ErrInvalidSplitAddrScript)
  | Ok (opCode, _, pc) =>
  if negb (op_eqb opCode OPRETURN) then Returns (Err ErrInvalidSplitAddrScript) else
  match getNthOp s pc 0 with
  | Err _ => Returns (Err ErrInvalidSplitAddrScript)
  | Ok (opCode, _, pc) =>
  if negb (op_eqb opCode OP0) then Returns (Err ErrInvalidSplitAddrScript) else
  match operandAt s pc with
  | Err _ => Returns (Err ErrInvalidSplitAddrScript)
  | Ok (operandHash, pc) =>
  if negb (length operandHash =? Crypto.AddrSize) then Returns (Err ErrInvalidSplitAddrScript) else
  match splitLoop (S (length s)) s pc 0 [] [] with
  | Err e => Returns (Err e)
  | Ok (addrs, weights) =>
      if MaxSplitAddrs <? length addrs then Returns (Err ErrInvalidSplitAddrScript)
      else if length weights <? length addrs then Panics
      else if bool_decide (Crypto.Hash160 (splitPairs [] addrs weights) = operandHash)
      then Returns (Ok (addrs, weights))
      else Returns (Err ErrInvalidSplitAddrScript)
  end end end end.

End WithCrypto.
End Kinds.
