(* ===== verification/ScriptKindsFacts.v ===== *)
(** * ScriptKindsFacts: the readers invert the builders

    Every builder produces the encoding of a list of instructions; decoding it gives the
    list back.  On top of that: the readers of contract, token and split-address scripts
    return what was built, each builder's script is recognised as its own kind, and its
    address is extracted. *)

From S2P Require Import Prelude Opcode Crypto Types Script ScriptFacts ScriptValidate ScriptKinds.
Import Opcode Stack Script Kinds.

(** ** Instruction lists *)

Inductive instr := IPush (o : bytes) | IOp (op : byte).

Definition encode1 (i : instr) : bytes :=
  match i with IPush o => AddOperand [] o | IOp op => [op] end.

Definition encode (prog : list instr) : bytes := concat (map encode1 prog).

Definition instr_ok (i : instr) : Prop :=
  match i with
  | IPush o => (Z.of_nat (length o) <= 65535)%Z
  | IOp op => op_ltb OPPUSHDATA4 op = true
  end.

Definition instr_operand (i : instr) : option bytes :=
  match i with IPush o => Some o | IOp _ => None end.

Definition instr_element (i : instr) : element :=
  match i with IPush o => EOperand o | IOp op => EOpCode op end.

Lemma encode_cons i prog : encode (i :: prog) = encode1 i ++ encode prog.
Proof. done. Qed.

Lemma encode_app xs ys : encode (xs ++ ys) = encode xs ++ encode ys.
Proof. unfold encode. by rewrite map_app, concat_app. Qed.

Lemma encode1_nonempty i : 0 < length (encode1 i).
Proof.
  destruct i as [o|op]; simpl; [|lia]. rewrite AddOperand_header. unfold push_header.
  repeat case_match; simpl; lia.
Qed.

Lemma parseNextOp_head (s : bytes) pc op o pc' :
  parseNextOp s pc = (op, o, pc', None) -> s !! pc = Some op.
Proof. unfold parseNextOp. intros H. repeat case_match; simplify_eq; done. Qed.

(** Decoding one encoded instruction at a known position. *)
Lemma parse_instr (pre : bytes) i (rest : bytes) :
  instr_ok i ->
  exists op, parseNextOp (pre ++ encode1 i ++ rest) (length pre) =
    (op, instr_operand i, length (pre ++ encode1 i), None) /\
    (forall b, i = IOp b -> op = b) /\ at_byte (encode1 i) 0 = op.
Proof.
  intros Hi. destruct i as [o|op]; simpl in *.
  - destruct (parseNextOp_operand_at pre o rest Hi) as (op & E & _).
    exists op. rewrite length_app. split; [done|]. split; [done|].
    apply parseNextOp_head in E. rewrite lookup_app_r, Nat.sub_diag in E by lia.
    unfold at_byte. pose proof (encode1_nonempty (IPush o)). simpl in *.
    rewrite lookup_app_l in E by lia. by rewrite E.
  - exists op. rewrite length_app. split; [by apply parseNextOp_opcode_at|].
    split; [by intros ? [=]|done].
Qed.

(** Decoding a built script gives the instruction list: nothing is lost or split. *)
Lemma parse_from_encode (pre : bytes) prog :
  Forall instr_ok prog ->
  parse_from (pre ++ encode prog) (length pre) = map instr_element prog.
Proof.
  revert pre. induction prog as [|i prog IH]; intros pre Hok.
  - rewrite parse_from_eq. unfold encode. simpl. rewrite app_nil_r.
    by rewrite (proj2 (Nat.ltb_ge _ _)).
  - apply Forall_cons in Hok as [Hi Hok]. rewrite parse_from_eq, encode_cons, !length_app.
    pose proof (encode1_nonempty i).
    rewrite (proj2 (Nat.ltb_lt _ _)) by lia.
    destruct (parse_instr pre i (encode prog) Hi) as (op & -> & Hop & _).
    rewrite app_assoc. destruct i as [o|b]; simpl; rewrite IH by done; [done|].
    by rewrite (Hop b).
Qed.

Lemma parse_encode prog : Forall instr_ok prog -> parse (encode prog) = map instr_element prog.
Proof. intros. rewrite parse_parse_from. by apply (parse_from_encode []). Qed.

(** The n-th instruction from a position. *)
Lemma getNthOp_encode (pre : bytes) prog (rest : bytes) n i :
  Forall instr_ok prog -> prog !! n = Some i ->
  getNthOp (pre ++ encode prog ++ rest) (length pre) n =
    Ok (at_byte (encode1 i) 0, instr_operand i, length (pre ++ encode (take (S n) prog))).
Proof.
  revert pre n. induction prog as [|j prog IH]; intros pre n Hok Hn; [done|].
  apply Forall_cons in Hok as [Hj Hok]. rewrite encode_cons, <- app_assoc.
  destruct (parse_instr pre j (encode prog ++ rest) Hj) as (op & E & _ & Hop).
  destruct n as [|n]; simpl in Hn; cbn [getNthOp]; rewrite E.
  - simplify_eq. cbn [take]. rewrite encode_cons. unfold encode. simpl.
    by rewrite app_nil_r.
  - rewrite app_assoc, IH by done. cbn [take]. rewrite encode_cons, app_assoc. done.
Qed.

(** The same in the two forms the readers use: an operand, with the prefix itself an
    instruction list. *)
Lemma nthOperand_encode (xs ys : list instr) n o :
  Forall instr_ok ys -> ys !! n = Some (IPush o) ->
  nthOperand (encode (xs ++ ys)) (length (encode xs)) n =
    Ok (o, length (encode (xs ++ take (S n) ys))).
Proof.
  intros Hok Hn. unfold nthOperand. rewrite !encode_app, <- (app_nil_r (encode ys)).
  by rewrite (getNthOp_encode _ _ _ _ _ Hok Hn).
Qed.

Lemma operandAt_encode (xs : list instr) o (ys : list instr) :
  (Z.of_nat (length o) <= 65535)%Z ->
  operandAt (encode (xs ++ IPush o :: ys)) (length (encode xs)) =
    Ok (o, length (encode (xs ++ [IPush o]))).
Proof.
  intros Ho. unfold operandAt. rewrite !encode_app, encode_cons.
  pose proof (getNthOp_encode (encode xs) [IPush o] (encode ys) 0 (IPush o)) as H.
  rewrite encode_cons in H. change (encode []) with (@nil byte) in H. rewrite app_nil_r in H.
  rewrite H by (done || by repeat constructor). simpl. rewrite encode_cons, app_nil_r. done.
Qed.

Lemma getNthOp_end (s : bytes) : getNthOp s (length s) 0 = Err ErrScriptBound.
Proof.
  cbn [getNthOp]. unfold parseNextOp. rewrite lookup_ge_None_2 by lia. done.
Qed.

(** ** Builders as instruction lists *)

Definition p2pkh_instrs (h : bytes) : list instr :=
  [IOp OPDUP; IOp OPHASH160; IPush h; IOp OPEQUALVERIFY; IOp OPCHECKSIG].

Lemma p2pkh_encode (h : bytes) : PayToPubKeyHashScript h = encode (p2pkh_instrs h).
Proof. rewrite p2pkh_shape. done. Qed.

Definition token_field (key operand : bytes) : list instr :=
  [IPush key; IOp OPDROP; IPush operand; IOp OPDROP].

(** The fields of an issue script with arbitrary operands. *)
Definition issue_fields (name symbol supply decimals : bytes) : list instr :=
  token_field TokenNameKey name ++ token_field TokenSymbolKey symbol ++
  token_field TokenAmountKey supply ++ token_field TokenDecimalsKey decimals.

Definition issue_instrs (p : IssueParams) : list instr :=
  issue_fields (ip_Name p) (ip_Symbol p) (le_bytes 8 (ip_TotalSupply p)) [z2b (ip_Decimals p)].

Lemma issue_encode (a : bytes) p :
  IssueTokenScript a p = encode (p2pkh_instrs a ++ issue_instrs p).
Proof.
  unfold IssueTokenScript, AddOpCode. rewrite p2pkh_encode, encode_app.
  rewrite (AddOperand_app (encode _)). repeat rewrite (AddOperand_app (_ ++ _)).
  rewrite <- !app_assoc. done.
Qed.

Definition transfer_instrs (p : TransferParams) : list instr :=
  token_field TokenTxHashKey (tp_Hash p) ++
  token_field TokenTxOutIdxKey (le_bytes 4 (tp_Index p)) ++
  token_field TokenAmountKey (le_bytes 8 (tp_Amount p)).

Lemma transfer_encode (a : bytes) p :
  TransferTokenScript a p = encode (p2pkh_instrs a ++ transfer_instrs p).
Proof.
  unfold TransferTokenScript, AddOpCode. rewrite p2pkh_encode, encode_app.
  rewrite (AddOperand_app (encode _)). repeat rewrite (AddOperand_app (_ ++ _)).
  rewrite <- !app_assoc. done.
Qed.

Definition contract_instrs (from to : bytes) (nonce gasLimit version : Z) : list instr :=
  [IOp OPCONTRACT; IPush from; IPush to; IPush (le_bytes 8 nonce); IPush (le_bytes 8 gasLimit);
   IPush (le_bytes 4 (u32 version))].


(** ** Sizes *)

Lemma length_push_small (o : bytes) : length o < 76 -> length (AddOperand [] o) = S (length o).
Proof.
  intros H. rewrite AddOperand_header. simpl app. rewrite length_app. unfold push_header.
  destruct (Z.ltb_spec (Z.of_nat (length o)) (b2z OPPUSHDATA1)); [done|].
  change (b2z OPPUSHDATA1) with 76%Z in *. lia.
Qed.

(** ** Contract scripts *)

Lemma contract_encode (from to : bytes) gasLimit nonce version :
  (0 < gasLimit < (2 ^ 63 - 1) / FixedGasPrice)%Z ->
  MakeContractScriptPubkey (Some from) (Some to) gasLimit nonce version =
    Ok (encode (contract_instrs from to nonce gasLimit version)).
Proof.
  intros Hgas. unfold MakeContractScriptPubkey.
  destruct (Z.eqb_spec gasLimit 0); [lia|].
  rewrite (proj2 (Z.leb_gt _ _)) by lia. simpl default. unfold AddOpCode, contract_instrs.
  f_equal. rewrite (AddOperand_app ([] ++ _)). repeat rewrite (AddOperand_app (_ ++ _)).
  rewrite <- !app_assoc. done.
Qed.

Section ContractScript.
Context (from to : bytes) (nonce gasLimit version : Z).
Context (Hfrom : length from = 20) (Hto : length to = 20).

Let prog := contract_instrs from to nonce gasLimit version.

Lemma contract_pos :
  length (encode (take 1 prog)) = 1 /\ length (encode (take 2 prog)) = 22 /\
  length (encode (take 3 prog)) = 43 /\ length (encode (take 4 prog)) = 52 /\
  length (encode (take 5 prog)) = 61 /\ length (encode prog) = 66.
Proof.
  subst prog. unfold encode, contract_instrs. cbn [take map concat encode1].
  repeat rewrite ?length_app, ?length_push_small, ?length_le_bytes
    by (rewrite ?length_le_bytes; lia).
  rewrite Hfrom, Hto. simpl. lia.
Qed.

Lemma contract_ok : Forall instr_ok prog.
Proof.
  repeat (apply Forall_cons; split); try apply Forall_nil; simpl; rewrite ?length_le_bytes;
    done || lia.
Qed.

Lemma contract_operand n o :
  prog !! S n = Some (IPush o) ->
  operandAt (encode prog) (length (encode (take (S n) prog))) =
    Ok (o, length (encode (take (S (S n)) prog))).
Proof.
  intros Hn. pose proof (take_drop_middle _ _ _ Hn) as Hsplit.
  pose proof (take_S_r _ _ _ Hn) as ->. rewrite <- Hsplit at 1. apply operandAt_encode.
  apply (Forall_lookup_1 _ _ _ _ contract_ok Hn).
Qed.

End ContractScript.

Lemma contract_recognised (from to : bytes) nonce gasLimit version :
  length from = 20 -> length to = 20 ->
  IsContractPubkey (encode (contract_instrs from to nonce gasLimit version)) = true.
Proof.
  intros Hfrom Hto.
  destruct (contract_pos from to nonce gasLimit version Hfrom Hto) as (_ & _ & _ & _ & _ & Hlen).
  unfold IsContractPubkey. rewrite Hlen. simpl. clear Hlen.
  unfold encode, contract_instrs. cbn [map concat encode1].
  rewrite !AddOperand_header, !length_le_bytes, Hfrom, Hto.
  explode from Hfrom. explode to Hto. reflexivity.
Qed.

(** a contract output carries its parameters faithfully: the script built from sender,
    contract (the zero hash for a creation), gas limit, nonce and version is recognised as a contract script
    and every reader returns exactly what went in. *)
Theorem contract_script_roundtrip (from to : bytes) (gasLimit nonce version : Z) :
  length from = 20 -> length to = 20 ->
  (0 < gasLimit < (2 ^ 63 - 1) / FixedGasPrice)%Z -> (0 <= nonce < 2 ^ 64)%Z ->
  (- 2 ^ 31 <= version < 2 ^ 31)%Z ->
  exists s, MakeContractScriptPubkey (Some from) (Some to) gasLimit nonce version = Ok s /\
    IsContractPubkey s = true /\
    ParseContractParams s =
      Ok (mkVMTxParams from to nonce gasLimit version,
          if bool_decide (to = Types.ZeroAddressHash) then ContractCreationType else ContractCallType) /\
    ParseContractInfo s =
      Ok (from, if bool_decide (to = Types.ZeroAddressHash) then None else Some to, nonce) /\
    ParseContractGas s = Ok gasLimit.
Proof.
  intros Hfrom Hto Hgas Hnonce Hver. eexists. split; [by apply contract_encode|].
  split; [by apply contract_recognised|].
  destruct (contract_pos from to nonce gasLimit version Hfrom Hto) as (P1 & P2 & P3 & P4 & P5 & P6).
  pose proof (contract_operand from to nonce gasLimit version Hfrom Hto) as Hop.
  pose proof (Hop 0 from eq_refl) as O1. pose proof (Hop 1 to eq_refl) as O2.
  pose proof (Hop 2 _ eq_refl) as O3. pose proof (Hop 3 _ eq_refl) as O4.
  pose proof (Hop 4 _ eq_refl) as O5. clear Hop.
  rewrite P1, P2 in O1. rewrite P2, P3 in O2. rewrite P3, P4 in O3. rewrite P4, P5 in O4.
  rewrite P5 in O5. change (take 6 _) with (contract_instrs from to nonce gasLimit version) in O5.
  rewrite P6 in O5.
  set (s := encode (contract_instrs from to nonce gasLimit version)) in *.
  assert (0 < gasLimit < 2 ^ 63)%Z.
  { unfold FixedGasPrice in Hgas. pose proof (Z.div_le_upper_bound (2 ^ 63 - 1) 50 (2 ^ 63 - 1)). lia. }
  assert (le_value (le_bytes 8 nonce) = nonce) as En by (apply le_value_le_bytes_small; simpl; lia).
  assert (le_value (le_bytes 8 gasLimit) = gasLimit) as Eg by (apply le_value_le_bytes_small; simpl; lia).
  assert (i32 (le_value (le_bytes 4 (u32 version))) = version) as Ev.
  { rewrite le_value_le_bytes_small by (pose proof (u32_range version); simpl; lia).
    rewrite i32_u32. by apply i32_small. }
  split_and!.
  - unfold ParseContractParams, readUint64, readUint32.
    assert (getNthOp s 0 0 = Ok (OPCONTRACT, None, 1)) as -> by done.
    change (op_eqb OPCONTRACT OPCONTRACT) with true. cbn [negb].
    rewrite O1. cbn [mbind result_bind]. rewrite Hfrom. cbn [negb Nat.eqb].
    rewrite O2. cbn [mbind result_bind]. rewrite Hto. cbn [negb Nat.eqb].
    rewrite O3. cbn [mbind result_bind]. rewrite length_le_bytes, En. cbn [negb Nat.eqb mbind result_bind].
    rewrite O4. cbn [mbind result_bind]. rewrite length_le_bytes, Eg. cbn [negb Nat.eqb mbind result_bind].
    rewrite O5, length_le_bytes. cbn [negb Nat.eqb].
    rewrite <- P6. unfold s. rewrite getNthOp_end. cbn [is_bound_error]. by rewrite Ev.
  - unfold ParseContractInfo, ParseContractFrom, ParseContractAddr, ParseContractNonce.
    rewrite O1, O2, O3. cbn [mbind result_bind]. rewrite Hfrom, Hto, length_le_bytes, En.
    cbn [negb Nat.eqb]. unfold Types.NewAddressPubKeyHash, Types.NewContractAddressFromHash.
    rewrite Hfrom, Hto. cbn. by case_bool_decide.
  - unfold ParseContractGas. rewrite O4. cbn [mbind result_bind]. by rewrite length_le_bytes, Eg.
Qed.

(** ** Token scripts *)

(** [nthOperand] inside an instruction list, by instruction numbers. *)
Lemma nthOperand_at prog k n o :
  Forall instr_ok prog -> prog !! (k + n) = Some (IPush o) ->
  nthOperand (encode prog) (length (encode (take k prog))) n =
    Ok (o, length (encode (take (k + S n) prog))).
Proof.
  intros Hok Hn. rewrite <- (take_drop k prog) at 1.
  rewrite (nthOperand_encode _ _ n o).
  - by rewrite take_take_drop.
  - by apply Forall_drop.
  - by rewrite lookup_drop.
Qed.

Lemma nthOperand_start prog n o :
  Forall instr_ok prog -> prog !! n = Some (IPush o) ->
  nthOperand (encode prog) 0 n = Ok (o, length (encode (take (S n) prog))).
Proof. apply (nthOperand_at prog 0). Qed.

Lemma p2pkh_prefix (a rest : bytes) :
  length a = 20 ->
  (length (PayToPubKeyHashScript a ++ rest) <? p2PKHScriptLen) = false /\
  take p2PKHScriptLen (PayToPubKeyHashScript a ++ rest) = PayToPubKeyHashScript a /\
  drop p2PKHScriptLen (PayToPubKeyHashScript a ++ rest) = rest /\
  IsPayToPubKeyHash (PayToPubKeyHashScript a) = true.
Proof.
  intros Ha. assert (length (PayToPubKeyHashScript a) = p2PKHScriptLen) as Hlen.
  { rewrite p2pkh_encode. unfold encode, p2pkh_instrs. cbn [map concat encode1].
    rewrite !length_app, length_push_small, Ha by lia. done. }
  rewrite take_app_length', drop_app_length' by done. split_and!; try done.
  { apply Nat.ltb_ge. rewrite length_app. lia. }
  rewrite p2pkh_encode. unfold encode, p2pkh_instrs. cbn [map concat encode1].
  rewrite AddOperand_header, Ha. explode a Ha. reflexivity.
Qed.

(** An instruction list a push of at most 65535 bytes keeps decodable. *)
Ltac instrs_ok :=
  repeat (apply Forall_cons; split); try apply Forall_nil; simpl; rewrite ?length_le_bytes;
    first [done | lia].

Lemma and_assoc_l (P Q R : Prop) : (P /\ Q) /\ R -> P /\ Q /\ R.
Proof. tauto. Qed.

Section TokenFields.
Context (a name symbol supply decimals : bytes).
Context (Ha : length a = 20) (Hname : (Z.of_nat (length name) <= 65535)%Z)
  (Hsymbol : (Z.of_nat (length symbol) <= 65535)%Z)
  (Hsupply : (Z.of_nat (length supply) <= 65535)%Z)
  (Hdecimals : (Z.of_nat (length decimals) <= 65535)%Z).

Let prog := p2pkh_instrs a ++ issue_fields name symbol supply decimals.

Lemma issue_ok : Forall instr_ok prog.
Proof. instrs_ok. Qed.

Lemma issue_recognised :
  IsTokenIssue (encode prog) = true /\ IsTokenTransfer (encode prog) = false.
Proof.
  unfold IsTokenIssue, IsTokenTransfer, P2PKHScriptPrefix, prog.
  rewrite encode_app, <- p2pkh_encode.
  destruct (p2pkh_prefix a (encode (issue_fields name symbol supply decimals)) Ha)
    as (-> & -> & -> & ->).
  rewrite parse_encode by by pose proof issue_ok as [_ ?]%Forall_app. done.
Qed.

Lemma issue_read :
  GetIssueParams (encode prog) =
    (totalSupply ← uint_le 8 supply; d ← index0 decimals;
     Returns (Ok (mkIssueParams name symbol totalSupply d))).
Proof.
  unfold GetIssueParams.
  rewrite (nthOperand_start _ 7 name issue_ok eq_refl).
  rewrite (nthOperand_at _ 8 3 symbol issue_ok eq_refl).
  cbn [Nat.add]. rewrite (nthOperand_at _ 12 3 supply issue_ok eq_refl).
  cbn [Nat.add]. by rewrite (nthOperand_at _ 16 3 decimals issue_ok eq_refl).
Qed.

End TokenFields.

Lemma transfer_ok (a : bytes) p :
  length a = 20 -> length (tp_Hash p) = 32 ->
  Forall instr_ok (p2pkh_instrs a ++ transfer_instrs p).
Proof. intros. instrs_ok. Qed.

(** a token issue script is a pay-to-pubkey-hash script with the token's name,
    symbol, supply and decimals; it is recognised as an issue, not as a transfer, and the
    reader returns the parameters it was built from. *)
Theorem issue_roundtrip (a : bytes) (p : IssueParams) :
  length a = 20 -> (Z.of_nat (length (ip_Name p)) <= 65535)%Z ->
  (Z.of_nat (length (ip_Symbol p)) <= 65535)%Z ->
  (0 <= ip_TotalSupply p < 2 ^ 64)%Z -> (0 <= ip_Decimals p < 256)%Z ->
  IsTokenIssue (IssueTokenScript a p) = true /\
  IsTokenTransfer (IssueTokenScript a p) = false /\
  GetIssueParams (IssueTokenScript a p) = Returns (Ok p).
Proof.
  intros Ha Hn Hs Ht Hd. rewrite issue_encode. unfold issue_instrs.
  pose proof (length_le_bytes 8 (ip_TotalSupply p)).
  apply and_assoc_l. split; [apply issue_recognised; simpl; done || lia|].
  rewrite issue_read by (simpl; done || lia).
  rewrite uint_le_bytes by (simpl; lia). cbn [mbind go_bind index0].
  rewrite b2z_z2b_small by lia. by destruct p.
Qed.

(** a script can be recognised as a token issue and still crash the reader: with a
    supply operand of fewer than eight bytes, or an empty decimals operand, the
    recogniser accepts and [GetIssueParams] panics. *)
Theorem issue_params_panic (a name symbol supply decimals : bytes) :
  length a = 20 -> (Z.of_nat (length name) <= 65535)%Z -> (Z.of_nat (length symbol) <= 65535)%Z ->
  (Z.of_nat (length supply) <= 65535)%Z -> (Z.of_nat (length decimals) <= 65535)%Z ->
  let s := encode (p2pkh_instrs a ++ issue_fields name symbol supply decimals) in
  IsTokenIssue s = true /\ (GetIssueParams s = Panics <-> length supply < 8 \/ decimals = []).
Proof.
  intros Ha Hn Hs Ht Hd s. split; [by apply issue_recognised|]. subst s.
  rewrite issue_read by done. unfold uint_le.
  destruct (Nat.ltb_spec (length supply) 8); simpl; [by intuition|].
  destruct decimals; simpl; [by intuition|]. split; [done|]. intros [?|?]; [lia|done].
Qed.

Lemma transfer_recognised (a : bytes) p :
  length a = 20 -> length (tp_Hash p) = 32 ->
  IsTokenTransfer (TransferTokenScript a p) = true /\
  IsTokenIssue (TransferTokenScript a p) = false.
Proof.
  intros Ha Hh. pose proof (transfer_ok a p Ha Hh) as Hok. rewrite transfer_encode.
  unfold IsTokenIssue, IsTokenTransfer, P2PKHScriptPrefix.
  rewrite encode_app, <- p2pkh_encode.
  destruct (p2pkh_prefix a (encode (transfer_instrs p)) Ha) as (-> & -> & -> & ->).
  rewrite parse_encode by by apply Forall_app in Hok as [_ ?]. done.
Qed.

Lemma transfer_read (a : bytes) p :
  length a = 20 -> length (tp_Hash p) = 32 -> (0 <= tp_Index p < 2 ^ 32)%Z ->
  (0 <= tp_Amount p < 2 ^ 64)%Z -> GetTransferParams (TransferTokenScript a p) = Returns (Ok p).
Proof.
  intros Ha Hh Hi Hm. pose proof (transfer_ok a p Ha Hh) as Hok. rewrite transfer_encode.
  unfold GetTransferParams.
  rewrite (nthOperand_start _ 7 (tp_Hash p) Hok eq_refl), Hh.
  change (negb (Nat.min Crypto.HashSize 32 =? Crypto.HashSize)) with false. cbn iota.
  rewrite (nthOperand_at _ 8 3 _ Hok eq_refl).
  rewrite uint_le_bytes by (simpl; lia). cbn [mbind go_bind].
  cbn [Nat.add]. rewrite (nthOperand_at _ 12 3 _ Hok eq_refl).
  rewrite uint_le_bytes by (simpl; lia). cbn [mbind go_bind].
  rewrite take_ge by (rewrite Hh; done). by destruct p.
Qed.

(** a token transfer script is recognised as a transfer, not as an issue, and the
    reader returns the token id and the amount it was built from. *)
Theorem transfer_roundtrip (a : bytes) (p : TransferParams) :
  length a = 20 -> length (tp_Hash p) = 32 -> (0 <= tp_Index p < 2 ^ 32)%Z ->
  (0 <= tp_Amount p < 2 ^ 64)%Z ->
  IsTokenTransfer (TransferTokenScript a p) = true /\
  IsTokenIssue (TransferTokenScript a p) = false /\
  GetTransferParams (TransferTokenScript a p) = Returns (Ok p).
Proof.
  intros Ha Hh Hi Hm. apply and_assoc_l. split; [by apply transfer_recognised|by apply transfer_read].
Qed.

(** ** Concrete runs *)

Definition addrA : bytes := replicate 20 x0a.
Definition addrB : bytes := replicate 20 x0b.

Lemma contract_script_roundtrip_witness :
  exists s, MakeContractScriptPubkey (Some addrA) (Some addrB) 21000 7 0 = Ok s /\
    IsContractPubkey s = true /\
    ParseContractParams s = Ok (mkVMTxParams addrA addrB 7 21000 0, ContractCallType) /\
    ParseContractInfo s = Ok (addrA, Some addrB, 7%Z) /\
    ParseContractGas s = Ok 21000%Z.
Proof.
  apply (contract_script_roundtrip addrA addrB 21000 7 0); try reflexivity; vm_compute; intuition congruence.
Defined.

Lemma issue_roundtrip_witness :
  let s := IssueTokenScript addrA (mkIssueParams [x42; x4f; x58] [x42] 3000 2) in
  IsTokenIssue s = true /\ IsTokenTransfer s = false /\
  GetIssueParams s = Returns (Ok (mkIssueParams [x42; x4f; x58] [x42] 3000 2)).
Proof.
  apply (issue_roundtrip addrA (mkIssueParams [x42; x4f; x58] [x42] 3000 2)); simpl; lia || reflexivity.
Defined.

Lemma issue_params_panic_witness :
  let s := encode (p2pkh_instrs addrA ++ issue_fields [x42] [x42] [x01] [x02]) in
  IsTokenIssue s = true /\ (GetIssueParams s = Panics <-> length [x01] < 8 \/ [x02] = []).
Proof.
  apply (issue_params_panic addrA [x42] [x42] [x01] [x02]); simpl; lia || reflexivity.
Defined.

Lemma transfer_roundtrip_witness :
  let p := mkTransferParams (replicate 32 x01) 1 500 in
  IsTokenTransfer (TransferTokenScript addrA p) = true /\
  IsTokenIssue (TransferTokenScript addrA p) = false /\
  GetTransferParams (TransferTokenScript addrA p) = Returns (Ok p).
Proof.
  apply (transfer_roundtrip addrA (mkTransferParams (replicate 32 x01) 1 500)); simpl; lia || reflexivity.
Defined.
