(* ===== verification/ScriptAddress.v ===== *)
(** * ScriptAddress: split-address scripts, and the addresses that scripts pay

    A split address is a list of weighted addresses, committed to by the hash of its
    pairs.  The reader inverts the builder, and the recogniser accepts what the builder
    makes, but for the largest list it allows. *)

From S2P Require Import Prelude Opcode Crypto Types Script ScriptFacts ScriptValidate ScriptKinds ScriptKindsFacts.
Import Opcode Stack Script Kinds.

(** ** The pairs as instructions *)

Definition pair_instrs (p : bytes * Z) : list instr := [IPush p.1; IPush (le_bytes 4 p.2)].

Definition pairs_instrs (l : list (bytes * Z)) : list instr := concat (map pair_instrs l).

Lemma pairs_instrs_app l1 l2 : pairs_instrs (l1 ++ l2) = pairs_instrs l1 ++ pairs_instrs l2.
Proof. unfold pairs_instrs. by rewrite map_app, concat_app. Qed.

Lemma length_pairs_instrs l : length (pairs_instrs l) = 2 * length l.
Proof.
  induction l as [|p l IH]; [done|].
  change (S (S (length (pairs_instrs l))) = 2 * S (length l)). rewrite IH. lia.
Qed.

Lemma splitPairs_encode (s : bytes) addrs weights :
  length addrs = length weights ->
  splitPairs s addrs weights = s ++ encode (pairs_instrs (zip addrs weights)).
Proof.
  revert s weights. induction addrs as [|a addrs IH]; intros s [|w weights] Hlen; try done.
  - by rewrite app_nil_r.
  - simpl in Hlen. simpl splitPairs. rewrite IH by lia.
    rewrite (AddOperand_app (AddOperand s a)), (AddOperand_app s), <- !app_assoc. done.
Qed.

Definition pair_ok (p : bytes * Z) : Prop := length p.1 = 20 /\ (0 <= p.2 < 2 ^ 32)%Z.

Lemma pairs_instrs_ok l : Forall pair_ok l -> Forall instr_ok (pairs_instrs l).
Proof.
  induction 1 as [|[a w] l [Ha Hw]]; [constructor|]. simpl in *.
  repeat (apply Forall_cons; split); [simpl; lia| |done].
  done.
Qed.

Lemma length_encode_pairs l : Forall pair_ok l -> length (encode (pairs_instrs l)) = 26 * length l.
Proof.
  induction 1 as [|[a w] l [Ha Hw] _ IH]; [done|].
  change (pairs_instrs ((a, w) :: l)) with (pair_instrs (a, w) ++ pairs_instrs l).
  rewrite encode_app, length_app, IH. unfold encode, pair_instrs.
  cbn [map concat encode1 fst snd] in *.
  rewrite !length_app, !length_push_small, Ha, length_le_bytes by (rewrite ?length_le_bytes; lia).
  simpl. lia.
Qed.

(** ** Reading the pairs back *)

Lemma getNthOp_past (pre : bytes) prog :
  Forall instr_ok prog ->
  getNthOp (pre ++ encode prog) (length pre) (length prog) = Err ErrScriptBound.
Proof.
  revert pre. induction prog as [|i prog IH]; intros pre Hok.
  - unfold encode. simpl map. simpl concat. rewrite app_nil_r. apply getNthOp_end.
  - apply Forall_cons in Hok as [Hi Hok]. rewrite encode_cons. simpl length. cbn [getNthOp].
    destruct (parse_instr pre i (encode prog) Hi) as (op & -> & _).
    by rewrite app_assoc, IH.
Qed.

Lemma getNthOp_push (pre : bytes) prog n o :
  Forall instr_ok prog -> prog !! n = Some (IPush o) ->
  exists op pc, getNthOp (pre ++ encode prog) (length pre) n = Ok (op, Some o, pc).
Proof.
  intros Hok Hn. rewrite <- (app_nil_r (encode prog)).
  rewrite (getNthOp_encode _ _ _ _ _ Hok Hn). eauto.
Qed.

Lemma NewAddressPubKeyHash_ok (a : bytes) : length a = 20 -> Types.NewAddressPubKeyHash a = Ok a.
Proof. unfold Types.NewAddressPubKeyHash. by intros ->. Qed.

Lemma splitLoop_pairs (pre : bytes) l1 l2 fuel :
  Forall pair_ok (l1 ++ l2) -> 2 * length l2 < fuel ->
  splitLoop fuel (pre ++ encode (pairs_instrs (l1 ++ l2))) (length pre) (2 * length l1)
    l1.*1 l1.*2 = Ok ((l1 ++ l2).*1, (l1 ++ l2).*2).
Proof.
  revert l1 fuel. induction l2 as [|[a w] l2 IH]; intros l1 fuel Hok Hfuel.
  - destruct fuel as [|fuel]; [simpl in *; lia|]. rewrite app_nil_r in *. cbn [splitLoop].
    by rewrite <- length_pairs_instrs, getNthOp_past by by apply pairs_instrs_ok.
  - simpl in Hfuel. destruct fuel as [|[|fuel]]; [lia|lia|].
    pose proof (pairs_instrs_ok _ Hok) as Hi.
    pose proof Hok as [_ [[Ha Hw] _]%Forall_cons]%Forall_app. simpl in Ha, Hw.
    assert (pairs_instrs (l1 ++ (a, w) :: l2) !! (2 * length l1) = Some (IPush a) /\
      pairs_instrs (l1 ++ (a, w) :: l2) !! S (2 * length l1) = Some (IPush (le_bytes 4 w)))
      as [E1 E2].
    { rewrite pairs_instrs_app, <- length_pairs_instrs.
      rewrite !lookup_app_r by lia. by rewrite Nat.sub_diag, Nat.sub_succ_l, Nat.sub_diag. }
    destruct (getNthOp_push pre _ _ _ Hi E1) as (op1 & pc1 & F1).
    destruct (getNthOp_push pre _ _ _ Hi E2) as (op2 & pc2 & F2).
    replace ((2 * length l1) mod 2) with 0 in *.
    2: { rewrite Nat.mul_comm, Nat.Div0.mod_mul. done. }
    assert (S (2 * length l1) mod 2 = 1) as Hodd.
    { replace (S (2 * length l1)) with (1 + length l1 * 2) by lia. by rewrite Nat.Div0.mod_add. }
    remember (2 * length l1) as k eqn:Ek. cbn [splitLoop]. rewrite F1. cbn [default].
    rewrite Ek, Nat.mul_comm, Nat.Div0.mod_mul. cbn [Nat.eqb].
    change (default [] (Some a)) with a. rewrite NewAddressPubKeyHash_ok by done.
    rewrite Nat.mul_comm, <- Ek, F2, Hodd. cbn [Nat.eqb].
    change (default [] (Some (le_bytes 4 w))) with (le_bytes 4 w). rewrite length_le_bytes. cbn [negb Nat.eqb].
    rewrite le_value_le_bytes_small by (simpl; lia).
    replace (S (S k)) with (2 * length (l1 ++ [(a, w)])) by (rewrite length_app; simpl; lia).
    specialize (IH (l1 ++ [(a, w)]) fuel). rewrite <- !app_assoc, !fmap_app in IH.
    rewrite !fmap_app. apply IH; [done|lia].
Qed.

(** ** The recogniser's loop *)

Lemma at_byte_app_r (xs ys : bytes) k : at_byte (xs ++ ys) (length xs + k) = at_byte ys k.
Proof. unfold at_byte. rewrite lookup_app_r by lia. by rewrite Nat.add_comm, Nat.add_sub. Qed.

Lemma pair_bytes p rest :
  pair_ok p -> byte_is (encode (pair_instrs p) ++ rest) 0 20 = true /\
    byte_is (encode (pair_instrs p) ++ rest) 21 4 = true.
Proof.
  destruct p as [a w]. intros [Ha Hw]. unfold encode, pair_instrs.
  cbn [map concat encode1 fst snd] in *. rewrite !AddOperand_header, length_le_bytes, Ha.
  clear Hw. explode a Ha. done.
Qed.

Lemma splitCheckLoop_pairs (pre : bytes) l1 l2 n :
  length pre = 23 -> Forall pair_ok (l1 ++ l2) -> length l2 <= n -> length l1 < 32 ->
  splitCheckLoop n (pre ++ encode (pairs_instrs (l1 ++ l2))) (23 + 26 * length l1) =
    (length (l1 ++ l2) <? 32).
Proof.
  intros Hpre. revert l1 n. induction l2 as [|p l2 IH]; intros l1 n Hok Hn Hl1.
  - rewrite app_nil_r in *. rewrite (proj2 (Nat.ltb_lt _ _)) by lia.
    destruct n as [|n]; [done|]. cbn [splitCheckLoop].
    rewrite length_app, Hpre, length_encode_pairs, Nat.ltb_irrefl by done. done.
  - simpl in Hn. destruct n as [|n]; [lia|]. cbn [splitCheckLoop].
    rewrite length_app, Hpre, length_encode_pairs, length_app by done. simpl length.
    rewrite (proj2 (Nat.ltb_lt _ _)) by lia.
    pose proof Hok as [Hok1 [Hp Hok2]%Forall_cons]%Forall_app.
    destruct (pair_bytes p (encode (pairs_instrs l2)) Hp) as [B1 B2].
    assert (forall k v, byte_is (pre ++ encode (pairs_instrs (l1 ++ p :: l2)))
      (23 + 26 * length l1 + k) v = byte_is (encode (pair_instrs p) ++ encode (pairs_instrs l2)) k v)
      as Hb.
    { intros k v. unfold byte_is. rewrite pairs_instrs_app, encode_app, app_assoc.
      change (pairs_instrs (p :: l2)) with (pair_instrs p ++ pairs_instrs l2).
      rewrite encode_app.
      rewrite <- (at_byte_app_r (pre ++ encode (pairs_instrs l1)) (encode (pair_instrs p) ++ _)).
      by rewrite length_app, Hpre, length_encode_pairs. }
    rewrite Hb, B2. rewrite <- (Nat.add_0_r (23 + 26 * length l1)), Hb, B1, Nat.add_0_r.
    cbn [negb orb].
    replace ((23 + 26 * length l1 + 26) / 26) with (S (length l1))
      by (apply (Nat.div_unique _ _ _ 23); lia).
    destruct (Nat.eqb_spec (S (length l1)) MaxSplitAddrs) as [E|E]; unfold MaxSplitAddrs in E.
    + symmetry. apply Nat.ltb_ge. lia.
    + specialize (IH (l1 ++ [p]) n). rewrite <- app_assoc, length_app in IH. cbn [length app] in IH.
      replace (23 + 26 * length l1 + 26) with (23 + 26 * (length l1 + 1)) by lia.
      rewrite IH by (done || lia). rewrite length_app. done.
Qed.

(** ** Whole scripts *)

Section WithCrypto.
Context `{CL : CryptoLaws}.

Definition split_head (h : bytes) : bytes := [OPRETURN; OP0] ++ AddOperand [] h.

Lemma length_split_head (h : bytes) : length h = 20 -> length (split_head h) = 23.
Proof. intros Hh. unfold split_head. rewrite length_app, length_push_small, Hh by lia. done. Qed.

Lemma SplitAddrScript_encode addrs weights :
  0 < length addrs <= 32 -> length addrs = length weights ->
  SplitAddrScript addrs weights =
    Some (split_head (Crypto.Hash160 (encode (pairs_instrs (zip addrs weights)))) ++
          encode (pairs_instrs (zip addrs weights))).
Proof.
  intros Hlen Hw. unfold SplitAddrScript, MaxSplitAddrs. rewrite <- Hw, Nat.eqb_refl.
  destruct (Nat.eqb_spec (length addrs) 0); [lia|].
  rewrite (proj2 (Nat.ltb_ge _ _)) by lia. cbn [negb orb].
  rewrite splitPairs_encode by done. done.
Qed.

Lemma zip_pairs_ok addrs weights :
  length addrs = length weights -> Forall (fun a => length a = 20) addrs ->
  Forall (fun w => 0 <= w < 2 ^ 32)%Z weights -> Forall pair_ok (zip addrs weights).
Proof.
  intros Hlen Ha. revert weights Hlen.
  induction Ha as [|a addrs Ha _ IH]; intros [|w weights] Hlen Hw; try done.
  apply Forall_cons in Hw as [Hw Hws]. simpl. constructor; [done|]. apply IH; [simpl in Hlen; lia|done].
Qed.

(** a split address of one to 32 weighted addresses is read back exactly: the reader
    returns the addresses and weights in order, having checked the committed hash. *)
Theorem split_roundtrip (addrs : list bytes) (weights : list Z) :
  0 < length addrs <= 32 -> length addrs = length weights ->
  Forall (fun a => length a = 20) addrs -> Forall (fun w => 0 <= w < 2 ^ 32)%Z weights ->
  exists s, SplitAddrScript addrs weights = Some s /\
    ParseSplitAddrScript s = Returns (Ok (addrs, weights)).
Proof.
  intros Hlen Hw Ha Hws. eexists. split; [by apply SplitAddrScript_encode|].
  pose proof (zip_pairs_ok _ _ Hw Ha Hws) as Hok.
  set (l := zip addrs weights) in *. set (h := Crypto.Hash160 _).
  assert (length h = 20) as Hh by apply Crypto.length_Hash160.
  unfold ParseSplitAddrScript.
  assert (getNthOp (split_head h ++ encode (pairs_instrs l)) 0 0 = Ok (OPRETURN, None, 1)) as -> by done.
  change (op_eqb OPRETURN OPRETURN) with true. cbn [negb].
  assert (getNthOp (split_head h ++ encode (pairs_instrs l)) 1 0 = Ok (OP0, Some [], 2)) as -> by done.
  change (op_eqb OP0 OP0) with true. cbn [negb].
  pose proof (operandAt_encode [IOp OPRETURN; IPush []] h (pairs_instrs l)) as Hop.
  change (encode ([IOp OPRETURN; IPush []] ++ IPush h :: pairs_instrs l))
    with (OPRETURN :: OP0 :: AddOperand [] h ++ encode (pairs_instrs l)) in Hop.
  change (split_head h ++ encode (pairs_instrs l))
    with (OPRETURN :: OP0 :: AddOperand [] h ++ encode (pairs_instrs l)).
  change (length (encode [IOp OPRETURN; IPush []])) with 2 in Hop. rewrite Hop by lia.
  rewrite Hh. cbn [Nat.eqb negb Crypto.AddrSize].
  replace (length (encode ([IOp OPRETURN; IPush []] ++ [IPush h]))) with (length (split_head h)).
  2: { unfold encode, split_head. cbn [app map concat encode1]. by rewrite app_nil_r. }
  pose proof (splitLoop_pairs (split_head h) [] l) as Hloop. simpl app in Hloop.
  change (OPRETURN :: OP0 :: AddOperand [] h ++ encode (pairs_instrs l))
    with (split_head h ++ encode (pairs_instrs l)).
  rewrite Hloop; [|done|rewrite length_app, length_encode_pairs by done; lia].
  assert (l.*1 = addrs /\ l.*2 = weights) as [-> ->].
  { subst l. by rewrite fst_zip, snd_zip by lia. }
  unfold MaxSplitAddrs. rewrite (proj2 (Nat.ltb_ge 32 _)), Hw, Nat.ltb_irrefl by lia.
  by rewrite splitPairs_encode, bool_decide_eq_true_2 by done.
Qed.

Lemma SplitAddrScript_inv addrs weights s :
  SplitAddrScript addrs weights = Some s ->
  0 < length addrs <= 32 /\ length addrs = length weights.
Proof.
  unfold SplitAddrScript. intros Hs. destruct (_ || _) eqn:E; [done|].
  apply orb_false_iff in E as [[E1 E2]%orb_false_iff E3].
  apply Nat.eqb_neq in E1. apply negb_false_iff, Nat.eqb_eq in E2.
  apply Nat.ltb_ge in E3. unfold MaxSplitAddrs in E3. lia.
Qed.

Lemma pairs_recognised (h : bytes) l :
  length h = 20 -> Forall pair_ok l -> 0 < length l ->
  IsSplitAddrScript (split_head h ++ encode (pairs_instrs l)) = (length l <? 32).
Proof.
  intros Hh%length_split_head Hok Hl.
  unfold IsSplitAddrScript. rewrite !length_app, Hh, length_encode_pairs by done.
  rewrite (proj2 (Nat.ltb_ge _ _)) by lia.
  replace (23 + 26 * length l - 23) with (length l * 26) by lia.
  rewrite Nat.Div0.mod_mul. change (op_eqb (at_byte _ 0) _) with true.
  change (op_eqb (at_byte _ 1) _) with true. cbn [Nat.eqb negb orb].
  apply (splitCheckLoop_pairs (split_head h) [] l); simpl; done || lia.
Qed.

Lemma length_zip_same {A B} (xs : list A) (ys : list B) :
  length xs = length ys -> length (zip xs ys) = length xs.
Proof. intros. rewrite length_zip. lia. Qed.

(** the recogniser accepts exactly the split-address scripts of at most 31
    addresses: the 32 addresses the builder and the reader allow are not recognised. *)
Theorem split_recognised (addrs : list bytes) (weights : list Z) s :
  Forall (fun a => length a = 20) addrs -> Forall (fun w => 0 <= w < 2 ^ 32)%Z weights ->
  SplitAddrScript addrs weights = Some s ->
  IsSplitAddrScript s = (length addrs <? 32).
Proof.
  intros Ha Hws Hs. destruct (SplitAddrScript_inv _ _ _ Hs) as [Hlen Hw].
  rewrite SplitAddrScript_encode in Hs by done. apply (inj Some) in Hs. subst s.
  rewrite pairs_recognised; rewrite ?length_zip_same by done; [done| |by apply zip_pairs_ok|lia].
  apply Crypto.length_Hash160.
Qed.

End WithCrypto.

(** ** Concrete runs *)

Lemma split_roundtrip_witness :
  exists s, SplitAddrScript (C := ToyCrypto.toy) [addrA; addrB] [3; 4]%Z = Some s /\
    ParseSplitAddrScript (C := ToyCrypto.toy) s = Returns (Ok ([addrA; addrB], [3; 4]%Z)).
Proof.
  apply (split_roundtrip (C := ToyCrypto.toy) [addrA; addrB] [3; 4]%Z);
    repeat constructor; simpl; lia.
Defined.

Lemma split_recognised_witness :
  exists s, SplitAddrScript (C := ToyCrypto.toy) (replicate 32 addrA) (replicate 32 1%Z) = Some s /\
    IsSplitAddrScript s = false.
Proof.
  eexists. split; [reflexivity|].
  apply (split_recognised (C := ToyCrypto.toy) (replicate 32 addrA) (replicate 32 1%Z));
    [repeat constructor|repeat constructor; lia|reflexivity].
Defined.

(** * Every standard output is classified and pays its address

    [PubkType] tries the recognisers in order; on the scripts the builders make, exactly
    the intended one answers, and [ExtractAddress] finds the address paid. *)

Import Opcode Stack Script Kinds.

(** ** Recognisers by first byte and by length *)

Lemma not_p2pkh_head (s : bytes) b :
  s !! 0 = Some b -> op_eqb b OPDUP = false -> IsPayToPubKeyHash s = false.
Proof.
  intros Hb Hd. unfold IsPayToPubKeyHash, at_byte. rewrite Hb. simpl. rewrite Hd.
  by destruct (negb _).
Qed.

Lemma not_token_head (s : bytes) b :
  s !! 0 = Some b -> op_eqb b OPDUP = false -> IsTokenTransfer s = false /\ IsTokenIssue s = false.
Proof.
  intros Hb Hd. unfold IsTokenTransfer, IsTokenIssue, P2PKHScriptPrefix.
  rewrite (not_p2pkh_head (take _ s) b); [|rewrite lookup_take_lt; [done|unfold p2PKHScriptLen; lia]|done].
  by destruct (length s <? _).
Qed.

Lemma not_contract_head (s : bytes) b :
  s !! 0 = Some b -> op_eqb b OPCONTRACT = false -> IsContractPubkey s = false.
Proof.
  intros Hb Hd. unfold IsContractPubkey, at_byte. rewrite Hb. simpl. rewrite Hd.
  by destruct (negb _).
Qed.

Lemma not_split_head (s : bytes) b :
  s !! 0 = Some b -> op_eqb b OPRETURN = false -> IsSplitAddrScript s = false.
Proof.
  intros Hb Hd. unfold IsSplitAddrScript, at_byte. rewrite Hb. simpl. rewrite Hd.
  destruct (_ <? _); [done|]. by rewrite orb_true_r.
Qed.

Lemma operandAt_push (pre o rest : bytes) :
  (Z.of_nat (length o) <= 65535)%Z ->
  exists pc, operandAt (pre ++ AddOperand [] o ++ rest) (length pre) = Ok (o, pc).
Proof.
  intros Ho. unfold operandAt. cbn [getNthOp].
  destruct (parse_instr pre (IPush o) rest Ho) as (op & E & _). simpl in E. rewrite E. eauto.
Qed.

(** ** Each builder *)

Lemma p2pkh_operand (h rest : bytes) :
  length h = 20 -> exists pc, operandAt (PayToPubKeyHashScript h ++ rest) 2 = Ok (h, pc).
Proof.
  intros Hh. rewrite p2pkh_shape.
  destruct (operandAt_push [OPDUP; OPHASH160] h ([OPEQUALVERIFY; OPCHECKSIG] ++ rest)) as [pc E]; [lia|].
  exists pc. rewrite <- E. simpl. by rewrite <- app_assoc.
Qed.

Lemma token_not_p2pkh (h rest : bytes) :
  length h = 20 -> rest <> [] -> IsPayToPubKeyHash (PayToPubKeyHashScript h ++ rest) = false.
Proof.
  intros Hh Hr. unfold IsPayToPubKeyHash, p2PKHScriptLen.
  rewrite p2pkh_shape. simpl length. rewrite !length_app, length_push_small, Hh by lia. simpl length.
  destruct rest; [done|]. simpl length.
  destruct (Nat.eqb_spec (S (S (21 + 2 + S (length rest)))) 25); [lia|done].
Qed.

Lemma std_p2pkh (h : bytes) :
  length h = 20 -> PubkType (PayToPubKeyHashScript h) = PayToPubk /\
    ExtractAddress (PayToPubKeyHashScript h) = Ok (Types.AddressPubKeyHash h).
Proof.
  intros Hh. assert (PubkType (PayToPubKeyHashScript h) = PayToPubk) as E.
  { unfold PubkType. destruct (p2pkh_prefix h [] Hh) as (_ & _ & _ & ->). done. }
  split; [done|]. unfold ExtractAddress. rewrite E.
  destruct (p2pkh_operand h [] Hh) as [pc Hop]. rewrite app_nil_r in Hop. rewrite Hop.
  cbn [mbind result_bind]. by rewrite NewAddressPubKeyHash_ok.
Qed.

Lemma std_token (h rest : bytes) k :
  length h = 20 -> rest <> [] -> k = TokenTransferPubk \/ k = TokenIssuePubk ->
  PubkType (PayToPubKeyHashScript h ++ rest) = k ->
  ExtractAddress (PayToPubKeyHashScript h ++ rest) = Ok (Types.AddressPubKeyHash h).
Proof.
  intros Hh Hr Hk E. unfold ExtractAddress. rewrite E.
  destruct (p2pkh_operand h rest Hh) as [pc ->]. cbn [mbind result_bind].
  rewrite NewAddressPubKeyHash_ok by done. by destruct Hk as [-> | ->].
Qed.

Section CLTV.
Context (h : bytes) (t : Z) (Hh : length h = 20) (Ht : (0 <= t < 2 ^ 63)%Z).

Let n := length (be_bytes t).
Let tail := [OPCHECKLOCKTIMEVERIFY; OPDUP; OPHASH160] ++ AddOperand [] h ++ [OPEQUALVERIFY; OPCHECKSIG].

Lemma cltv_tail : PayToPubKeyHashCLTVScript h t = AddOperand [] (be_bytes t) ++ tail.
Proof. unfold tail. rewrite cltv_shape, p2pkh_shape. done. Qed.

Lemma length_cltv : length (PayToPubKeyHashCLTVScript h t) = n + 27.
Proof.
  pose proof (length_be_bytes t Ht). rewrite cltv_tail. unfold tail.
  rewrite !length_app, !length_push_small, Hh by lia. simpl. lia.
Qed.

Lemma cltv_head op :
  (8 < b2z op)%Z ->
  exists b, PayToPubKeyHashCLTVScript h t !! 0 = Some b /\ op_eqb b op = false.
Proof.
  intros Hop. pose proof (length_be_bytes t Ht). exists (z2b (Z.of_nat n)). split.
  - rewrite cltv_tail, AddOperand_header. unfold push_header.
    rewrite (proj2 (Z.ltb_lt _ _)); [done|]. change (b2z OPPUSHDATA1) with 76%Z. lia.
  - apply bool_decide_eq_false_2. intros <-. unfold n in Hop.
    rewrite b2z_z2b_small in Hop; lia.
Qed.

Lemma cltv_at k : at_byte (PayToPubKeyHashCLTVScript h t) (n + 1 + k) = at_byte tail k.
Proof.
  pose proof (length_be_bytes t Ht). rewrite cltv_tail.
  replace (n + 1) with (length (AddOperand [] (be_bytes t)))
    by (rewrite length_push_small; unfold n; lia).
  apply at_byte_app_r.
Qed.

Lemma cltv_tail_bytes :
  op_eqb (at_byte tail 25) OPCHECKSIG && op_eqb (at_byte tail 24) OPEQUALVERIFY &&
  (b2z (at_byte tail 3) =? 20)%Z && op_eqb (at_byte tail 2) OPHASH160 &&
  op_eqb (at_byte tail 1) OPDUP && op_eqb (at_byte tail 0) OPCHECKLOCKTIMEVERIFY = true.
Proof.
  unfold tail. rewrite AddOperand_header, Hh. clear tail n Ht. revert Hh. generalize h.
  intros l Hl. explode l Hl. done.
Qed.

Lemma cltv_kind : PubkType (PayToPubKeyHashCLTVScript h t) = PayToPubkCLTV.
Proof.
  unfold PubkType.
  destruct (cltv_head OPDUP) as (b1 & H1 & E1); [done|].
  destruct (cltv_head OPCONTRACT) as (b2 & H2 & E2); [done|].
  destruct (cltv_head OPRETURN) as (b3 & H3 & E3); [done|].
  rewrite (not_p2pkh_head _ _ H1), (not_contract_head _ _ H2), (not_split_head _ _ H3) by done.
  destruct (not_token_head _ _ H1) as [-> ->]; [done|].
  unfold IsPayToPubKeyHashCLTVScript, byte_is. rewrite length_cltv.
  rewrite (proj2 (Nat.leb_le _ _)) by lia.
  replace (n + 27 - 1) with (n + 1 + 25) by lia. replace (n + 27 - 2) with (n + 1 + 24) by lia.
  replace (n + 27 - 23) with (n + 1 + 3) by lia. replace (n + 27 - 24) with (n + 1 + 2) by lia.
  replace (n + 27 - 25) with (n + 1 + 1) by lia. replace (n + 27 - 26) with (n + 1 + 0) by lia.
  rewrite !cltv_at. cbn [andb]. by rewrite cltv_tail_bytes.
Qed.

Lemma std_cltv :
  ExtractAddress (PayToPubKeyHashCLTVScript h t) = Ok (Types.AddressPubKeyHash h).
Proof.
  pose proof (length_be_bytes t Ht). unfold ExtractAddress. rewrite cltv_kind, length_cltv, cltv_tail.
  destruct (operandAt_push (AddOperand [] (be_bytes t) ++ [OPCHECKLOCKTIMEVERIFY; OPDUP; OPHASH160]) h
    [OPEQUALVERIFY; OPCHECKSIG]) as [pc Hop]; [lia|].
  rewrite length_app, length_push_small, <- app_assoc in Hop by lia. simpl length in Hop.
  replace (n + 27 - 23) with (S (length (be_bytes t)) + 3) by (unfold n; lia).
  unfold tail. rewrite Hop. cbn [mbind result_bind]. by rewrite NewAddressPubKeyHash_ok.
Qed.

End CLTV.

Lemma std_p2sh (h : bytes) :
  length h = 20 -> PubkType (p2sh_script h) = PayToScriptPubk /\
    ExtractAddress (p2sh_script h) = Ok (Types.AddressPubKeyHash h).
Proof.
  intros Hh. assert (PubkType (p2sh_script h) = PayToScriptPubk) as E.
  { unfold PubkType. assert (p2sh_script h !! 0 = Some OPHASH160) as H0 by done.
    rewrite (not_p2pkh_head _ _ H0), (not_contract_head _ _ H0), (not_split_head _ _ H0) by done.
    destruct (not_token_head _ _ H0) as [-> ->]; [done|].
    unfold IsPayToPubKeyHashCLTVScript. unfold p2sh_script at 1.
    simpl length. rewrite length_app, length_push_small, Hh by lia. simpl andb.
    by rewrite p2sh_is_p2sh. }
  split; [done|]. unfold ExtractAddress. rewrite E.
  destruct (operandAt_push [OPHASH160] h [OPEQUAL]) as [pc Hop]; [lia|].
  change (operandAt (p2sh_script h) 1 = Ok (h, pc)) in Hop. rewrite Hop.
  cbn [mbind result_bind]. by rewrite NewAddressPubKeyHash_ok.
Qed.

Lemma std_contract (from to : bytes) gasLimit nonce version s :
  length from = 20 -> length to = 20 -> (0 < gasLimit < (2 ^ 63 - 1) / FixedGasPrice)%Z ->
  MakeContractScriptPubkey (Some from) (Some to) gasLimit nonce version = Ok s ->
  PubkType s = ContractPubk /\
  ExtractAddress s =
    Ok (Types.AddressContract (if bool_decide (to = Types.ZeroAddressHash) then None else Some to)).
Proof.
  intros Hf Ht Hg Hs. rewrite contract_encode in Hs by done. injection Hs as Es.
  pose proof (contract_recognised from to nonce gasLimit version Hf Ht) as Hrec.
  destruct (contract_pos from to nonce gasLimit version Hf Ht) as (_ & P2 & P3 & _).
  pose proof (contract_operand from to nonce gasLimit version Hf Ht 1 to eq_refl) as O2.
  rewrite P2, P3 in O2. assert (s !! 0 = Some OPCONTRACT) as H0 by (by rewrite <- Es).
  rewrite Es in *. clear Es.
  assert (PubkType s = ContractPubk) as E.
  { unfold PubkType. rewrite (not_p2pkh_head _ _ H0) by done.
    destruct (not_token_head _ _ H0) as [-> ->]; [done|]. by rewrite Hrec. }
  split; [done|]. unfold ExtractAddress, ParseContractAddr. rewrite E, O2.
  cbn [mbind result_bind]. rewrite Ht. cbn [Nat.eqb negb Crypto.AddrSize].
  case_bool_decide; [done|]. unfold Types.NewContractAddressFromHash. rewrite Ht. done.
Qed.

Lemma std_issue (h : bytes) p :
  length h = 20 -> (Z.of_nat (length (ip_Name p)) <= 65535)%Z ->
  (Z.of_nat (length (ip_Symbol p)) <= 65535)%Z ->
  PubkType (IssueTokenScript h p) = TokenIssuePubk /\
  ExtractAddress (IssueTokenScript h p) = Ok (Types.AddressPubKeyHash h).
Proof.
  intros Hh Hn Hs. rewrite issue_encode, encode_app, <- p2pkh_encode.
  assert (PubkType (PayToPubKeyHashScript h ++ encode (issue_instrs p)) = TokenIssuePubk) as E.
  { unfold PubkType. rewrite token_not_p2pkh by done.
    pose proof (length_le_bytes 8 (ip_TotalSupply p)).
    destruct (issue_recognised h (ip_Name p) (ip_Symbol p) (le_bytes 8 (ip_TotalSupply p))
      [z2b (ip_Decimals p)]) as [Ei Et]; try done; try lia.
    rewrite encode_app, <- p2pkh_encode in Ei, Et. unfold issue_instrs. by rewrite Et, Ei. }
  split; [done|]. apply (std_token _ _ TokenIssuePubk); auto.
Qed.

Lemma std_transfer (h : bytes) p :
  length h = 20 -> length (tp_Hash p) = 32 ->
  PubkType (TransferTokenScript h p) = TokenTransferPubk /\
  ExtractAddress (TransferTokenScript h p) = Ok (Types.AddressPubKeyHash h).
Proof.
  intros Hh Hp. destruct (transfer_recognised h p Hh Hp) as [Et _].
  rewrite transfer_encode, encode_app, <- p2pkh_encode in *.
  assert (PubkType (PayToPubKeyHashScript h ++ encode (transfer_instrs p)) = TokenTransferPubk) as E.
  { unfold PubkType. rewrite token_not_p2pkh by done. by rewrite Et. }
  split; [done|]. apply (std_token _ _ TokenTransferPubk); auto.
Qed.

(** A standard output: its script, its kind and the address it pays. *)
Inductive standard `{Crypto} : bytes -> PubkTypeT -> Types.Address -> Prop :=
| StdP2PKH h : length h = 20 ->
    standard (PayToPubKeyHashScript h) PayToPubk (Types.AddressPubKeyHash h)
| StdCLTV h t : length h = 20 -> (0 <= t < 2 ^ 63)%Z ->
    standard (PayToPubKeyHashCLTVScript h t) PayToPubkCLTV (Types.AddressPubKeyHash h)
| StdP2SH h : length h = 20 ->
    standard (p2sh_script h) PayToScriptPubk (Types.AddressPubKeyHash h)
| StdIssue h p : length h = 20 -> (Z.of_nat (length (ip_Name p)) <= 65535)%Z ->
    (Z.of_nat (length (ip_Symbol p)) <= 65535)%Z ->
    standard (IssueTokenScript h p) TokenIssuePubk (Types.AddressPubKeyHash h)
| StdTransfer h p : length h = 20 -> length (tp_Hash p) = 32 ->
    standard (TransferTokenScript h p) TokenTransferPubk (Types.AddressPubKeyHash h)
| StdContract from to gasLimit nonce version s : length from = 20 -> length to = 20 ->
    (0 < gasLimit < (2 ^ 63 - 1) / FixedGasPrice)%Z ->
    MakeContractScriptPubkey (Some from) (Some to) gasLimit nonce version = Ok s ->
    standard s ContractPubk
      (Types.AddressContract (if bool_decide (to = Types.ZeroAddressHash) then None else Some to))
| StdSplit addrs weights s : Forall (fun a => length a = 20) addrs ->
    Forall (fun w => 0 <= w < 2 ^ 32)%Z weights -> length addrs < 32 ->
    SplitAddrScript addrs weights = Some s ->
    standard s SplitAddrPubk
      (Types.AddressTypeSplit (Crypto.Hash160 (splitPairs [] addrs weights))).


Section WithCrypto.
Context `{CL : CryptoLaws}.

Lemma std_split addrs weights s :
  Forall (fun a => length a = 20) addrs -> Forall (fun w => 0 <= w < 2 ^ 32)%Z weights ->
  length addrs < 32 -> SplitAddrScript addrs weights = Some s ->
  PubkType s = SplitAddrPubk /\
  ExtractAddress s = Ok (Types.AddressTypeSplit (Crypto.Hash160 (splitPairs [] addrs weights))).
Proof.
  intros Ha Hw Hlt Hs. destruct (SplitAddrScript_inv _ _ _ Hs) as [Hlen Hl].
  rewrite SplitAddrScript_encode in Hs by done. apply (inj Some) in Hs. subst s.
  rewrite splitPairs_encode, app_nil_l by done.
  set (l := zip addrs weights). set (h := Crypto.Hash160 (encode (pairs_instrs l))).
  assert (length h = 20) as Hh by apply Crypto.length_Hash160.
  assert ((split_head h ++ encode (pairs_instrs l)) !! 0 = Some OPRETURN) as H0 by done.
  assert (PubkType (split_head h ++ encode (pairs_instrs l)) = SplitAddrPubk) as E.
  { unfold PubkType. rewrite (not_p2pkh_head _ _ H0), (not_contract_head _ _ H0) by done.
    destruct (not_token_head _ _ H0) as [-> ->]; [done|].
    unfold l. rewrite pairs_recognised; rewrite ?length_zip_same by done;
      [|done|by apply zip_pairs_ok|lia].
    by rewrite (proj2 (Nat.ltb_lt _ _)). }
  split; [done|]. unfold ExtractAddress. rewrite E.
  destruct (operandAt_push [OPRETURN; OP0] h (encode (pairs_instrs l))) as [pc Hop]; [lia|].
  change (operandAt (split_head h ++ encode (pairs_instrs l)) 2 = Ok (h, pc)) in Hop.
  rewrite Hop. cbn [mbind result_bind]. unfold Types.NewSplitAddressFromHash. by rewrite Hh.
Qed.

(** the scripts the node builds are told apart and pay the address they were built
    for: on every standard output the classifier gives its own kind, the address
    extracted is the recipient, and the script counts as standard. *)
Theorem standard_address (s : bytes) k a :
  standard s k a -> PubkType s = k /\ ExtractAddress s = Ok a /\ IsStandard s = true.
Proof.
  intros Hstd. assert (PubkType s = k /\ ExtractAddress s = Ok a) as [Hk Ha].
  { destruct Hstd; eauto using std_p2pkh, cltv_kind, std_cltv, std_p2sh, std_issue, std_transfer,
      std_contract, std_split. }
  split; [done|]. split; [done|]. unfold IsStandard. by rewrite Ha.
Qed.

End WithCrypto.

Lemma standard_address_witness :
  PubkType (PayToPubKeyHashScript addrA) = PayToPubk /\
  ExtractAddress (PayToPubKeyHashScript addrA) = Ok (Types.AddressPubKeyHash addrA) /\
  IsStandard (PayToPubKeyHashScript addrA) = true.
Proof.
  apply (standard_address (C := ToyCrypto.toy) _ PayToPubk (Types.AddressPubKeyHash addrA)).
  by apply StdP2PKH.
Defined.
