(* ===== verification/ScriptMultisig.v ===== *)
(** * ScriptMultisig: the m-of-n signature check

    The loop of OP_CHECKMULTISIG walks the keys once and consumes a signature whenever
    it verifies.  The declarative reading is that the signatures match a subsequence
    of the keys, in order ([key_match]); the loop decides exactly that. *)

From S2P Require Import Prelude Opcode Crypto Types Script ScriptFacts ScriptValidate ScriptKinds ScriptKindsFacts.
Import Opcode Stack Script.

Section Match.
Context (verify : bytes -> bytes -> bool).

(** Every signature is matched with its own key, in the order of the keys. *)
Inductive key_match : list bytes -> list bytes -> Prop :=
| km_nil keys : key_match [] keys
| km_use sg sigs k keys :
    verify sg k = true -> key_match sigs keys -> key_match (sg :: sigs) (k :: keys)
| km_skip sigs k keys : key_match sigs keys -> key_match sigs (k :: keys).

Hint Constructors key_match : core.

(** The loop as a recursion on the two lists. *)
Fixpoint greedy (sigs keys : list bytes) : bool :=
  match sigs with
  | [] => true
  | sg :: sigs' =>
      match keys with
      | [] => false
      | k :: keys => if verify sg k then greedy sigs' keys else greedy sigs keys
      end
  end.

Lemma greedy_nil keys : greedy [] keys = true.
Proof. by destruct keys. Qed.

Lemma key_match_tail sg sigs keys : key_match (sg :: sigs) keys -> key_match sigs keys.
Proof.
  intros H. remember (sg :: sigs) as l eqn:E. revert sg sigs E.
  induction H; intros; simplify_eq; eauto.
Qed.

(** Taking a matching key as soon as it appears loses nothing. *)
Lemma greedy_match sigs keys : greedy sigs keys = true <-> key_match sigs keys.
Proof.
  revert sigs. induction keys as [|k keys IH]; intros [|sg sigs]; simpl; try (split; [auto|done]; fail).
  - split; [done|inversion 1].
  - destruct (verify sg k) eqn:V; rewrite IH.
    + split; [auto|]. inversion 1; subst; [done|]. by eapply key_match_tail.
    + split; [auto|]. inversion 1; subst; [congruence|done].
Qed.

Lemma key_match_length sigs keys : key_match sigs keys -> length sigs <= length keys.
Proof. induction 1; simpl; lia. Qed.

Lemma key_match_snoc_skip sigs keys k : key_match sigs keys -> key_match sigs (keys ++ [k]).
Proof. induction 1; simpl; auto. Qed.

Lemma key_match_snoc_use sigs keys sg k :
  verify sg k = true -> key_match sigs keys -> key_match (sigs ++ [sg]) (keys ++ [k]).
Proof.
  intros V. induction 1 as [keys| |]; simpl; auto.
  induction keys as [|k' keys IH]; simpl; auto.
Qed.

Lemma key_match_reverse sigs keys : key_match sigs keys -> key_match (reverse sigs) (reverse keys).
Proof.
  induction 1; rewrite ?reverse_cons; auto using key_match_snoc_use, key_match_snoc_skip.
Qed.

Lemma key_match_reverse_iff sigs keys :
  key_match (reverse sigs) (reverse keys) <-> key_match sigs keys.
Proof.
  split; [|apply key_match_reverse]. intros H. apply key_match_reverse in H.
  by rewrite !reverse_involutive in H.
Qed.

(** [sigs] are the elements of the stack at [i], [i+1], ... from the top. *)
Definition window (stk : list bytes) (i : Z) (xs : list bytes) : Prop :=
  forall j x, xs !! j = Some x -> topN stk (i + Z.of_nat j) = x.

Lemma window_cons stk i x xs : window stk i (x :: xs) -> topN stk i = x /\ window stk (i + 1) xs.
Proof.
  intros H. split.
  - rewrite <- (H 0 x eq_refl). f_equal. lia.
  - intros j y Hj. rewrite <- (H (S j) y Hj). f_equal. lia.
Qed.

Lemma multisigLoop_done fuel stk sigIdx keyIdx n m :
  (n <= 0)%Z -> multisigLoop fuel verify stk true sigIdx keyIdx n m = true.
Proof. intros. destruct fuel; [done|]. simpl. destruct (Z.ltb_spec 0 n); [lia|done]. Qed.

Lemma multisigLoop_stop fuel stk sigIdx keyIdx n m :
  multisigLoop fuel verify stk false sigIdx keyIdx n m = false.
Proof. by destruct fuel. Qed.

(** The loop is the recursion, with fuel for every key. *)
Lemma multisigLoop_greedy fuel stk sigIdx keyIdx sigs keys :
  window stk sigIdx sigs -> window stk keyIdx keys ->
  length sigs <= length keys -> length keys <= fuel ->
  multisigLoop fuel verify stk true sigIdx keyIdx
    (Z.of_nat (length sigs)) (Z.of_nat (length keys)) = greedy sigs keys.
Proof.
  revert fuel sigIdx keyIdx sigs. induction keys as [|k keys IH];
    intros fuel sigIdx keyIdx sigs Hs Hk Hle Hfuel.
  - destruct sigs; simpl in *; [|lia]. rewrite multisigLoop_done; [done|lia].
  - destruct fuel as [|fuel]; [simpl in *; lia|].
    destruct sigs as [|sg sigs]; [by rewrite multisigLoop_done by done|].
    cbn [multisigLoop greedy]. rewrite (proj2 (Z.ltb_lt _ _)) by (simpl length; lia). simpl andb. cbv iota.
    destruct (window_cons _ _ _ _ Hs) as [-> Hs']. destruct (window_cons _ _ _ _ Hk) as [-> Hk'].
    simpl length in *.
    replace (Z.of_nat (S (length keys)) - 1)%Z with (Z.of_nat (length keys)) by lia.
    destruct (verify sg k).
    + replace (Z.of_nat (S (length sigs)) - 1)%Z with (Z.of_nat (length sigs)) by lia.
      rewrite (proj2 (Z.ltb_ge _ _)) by lia. simpl negb. apply IH; auto; lia.
    + destruct (Z.ltb_spec (Z.of_nat (length keys)) (Z.of_nat (S (length sigs)))); simpl negb.
      * rewrite multisigLoop_stop. symmetry. apply not_true_iff_false.
        rewrite greedy_match. intros Hm%key_match_length. simpl in Hm. lia.
      * apply (IH _ _ _ (sg :: sigs)); auto; simpl; lia.
Qed.

(** The loop equation of the source, for every state in which no more signatures than
    keys remain: the fuel is not observed. *)
Lemma multisigLoop_fuel fuel fuel' stk v i j n m :
  (n <= m)%Z -> (m <= Z.of_nat fuel)%Z -> (m <= Z.of_nat fuel')%Z ->
  multisigLoop fuel verify stk v i j n m = multisigLoop fuel' verify stk v i j n m.
Proof.
  revert fuel' v i j n m. induction fuel as [|fuel IH]; intros [|fuel'] v i j n m H1 H2 H3;
    cbn [multisigLoop]; try done;
    destruct v; simpl; try done; destruct (Z.ltb_spec 0 n); try lia; try done.
  case_match; simplify_eq.
  match goal with |- context [(?a <? ?b)%Z] => destruct (Z.ltb_spec a b) end;
    simpl; [by rewrite !multisigLoop_stop|].
  apply IH; lia.
Qed.

End Match.

(** ** The opcode on a laid-out stack *)

Lemma topN_reverse (stk : list bytes) k x :
  reverse stk !! k = Some x -> topN stk (Z.of_nat (S k)) = x.
Proof.
  intros H. pose proof (lookup_lt_Some _ _ _ H) as Hl. rewrite length_reverse in Hl.
  rewrite reverse_lookup in H by done.
  unfold topN. destruct (Z.leb_spec (Z.of_nat (S k)) 0); [lia|].
  destruct (Z.ltb_spec (Z.of_nat (length stk)) (Z.of_nat (S k))); [lia|].
  simpl orb. rewrite Nat2Z.id, H. done.
Qed.

(** A segment of the stack, read from the top. *)
Lemma window_segment (base seg above : list bytes) :
  window (base ++ seg ++ above) (Z.of_nat (S (length above))) (reverse seg).
Proof.
  intros j x Hj. rewrite <- Nat2Z.inj_add. apply (topN_reverse _ (length above + j)).
  rewrite !reverse_app, <- app_assoc, lookup_app_r by (rewrite length_reverse; lia).
  rewrite length_reverse. replace (length above + j - length above) with j by lia.
  apply lookup_app_l_Some. done.
Qed.

Section WithCrypto.
Context `{C : Crypto} `{TC : TxCodec}.

Lemma operand_int_small o : (be_value o < 2 ^ 63)%Z -> operand_int o = Ok (be_value o).
Proof.
  intros. unfold operand_int. destruct (Z.ltb_spec MaxInt64 (be_value o)); [|done].
  unfold MaxInt64 in *. lia.
Qed.

(** C37: OP_CHECKMULTISIG on [<sigs> m <keys> n] replaces the whole group by true exactly
    when the signatures match a subsequence of the keys in order, and by false
    otherwise: the single pass over the keys decides m-of-n. *)
Theorem multisig_correct (s : bytes) tx idx start (base sigs keys : list bytes) (m n : bytes) :
  be_value m = Z.of_nat (length sigs) -> be_value n = Z.of_nat (length keys) ->
  length sigs <= length keys -> (Z.of_nat (length keys) < 2 ^ 61)%Z ->
  exists v : bool,
    execMultisig s OPCHECKMULTISIG tx idx start (base ++ sigs ++ [m] ++ keys ++ [n]) =
      Ok (base ++ [if v then operandTrue else operandFalse], start) /\
    (v = true <-> key_match (fun sg pk => verifySig sg pk (drop start s) tx idx) sigs keys).
Proof.
  intros Hm Hn Hle Hsmall.
  set (stk := base ++ sigs ++ [m] ++ keys ++ [n]).
  assert (length stk = length base + length sigs + length keys + 2) as Hlen
    by (subst stk; rewrite !length_app; simpl; lia).
  assert (topN stk 1 = n) as Htop.
  { subst stk. rewrite !app_assoc. apply topN_1. }
  assert (topN stk (2 + Z.of_nat (length keys)) = m) as Hcnt.
  { pose proof (window_segment (base ++ sigs) [m] (keys ++ [n]) 0 m eq_refl) as W.
    rewrite <- app_assoc in W. rewrite <- W. f_equal. rewrite length_app. simpl. lia. }
  assert (window stk 2 (reverse keys)) as Wk.
  { pose proof (window_segment (base ++ sigs ++ [m]) keys [n]) as W.
    rewrite <- !app_assoc in W. exact W. }
  assert (window stk (3 + Z.of_nat (length keys)) (reverse sigs)) as Ws.
  { pose proof (window_segment base sigs ([m] ++ keys ++ [n])) as W.
    replace (3 + Z.of_nat (length keys))%Z with (Z.of_nat (S (length ([m] ++ keys ++ [n]))));
      [exact W|]. rewrite !length_app. simpl. lia. }
  unfold execMultisig.
  rewrite (proj2 (Z.ltb_ge (Z.of_nat (length stk)) 1)), Htop, operand_int_small by lia.
  cbn [mbind result_bind]. rewrite Hn, (proj2 (Z.ltb_ge (Z.of_nat (length keys)) 0)) by lia.
  rewrite (i64_small (2 + _)) by lia.
  rewrite (proj2 (Z.ltb_ge (Z.of_nat (length stk)) (2 + _))) by lia.
  rewrite Hcnt, operand_int_small by lia. cbn [mbind result_bind].
  rewrite Hm, (proj2 (Z.ltb_ge (Z.of_nat (length sigs)) 0)) by lia.
  rewrite (proj2 (Z.ltb_ge (Z.of_nat (length keys)) (Z.of_nat (length sigs)))) by lia.
  replace (2 + Z.of_nat (length keys) + 1)%Z with (3 + Z.of_nat (length keys))%Z by lia.
  rewrite (i64_small (3 + Z.of_nat (length keys))) by lia.
  rewrite (i64_small (_ + Z.of_nat (length sigs))), (i64_small (_ - 1)) by lia.
  rewrite (proj2 (Z.ltb_ge (Z.of_nat (length stk)) _)) by lia.
  rewrite <- (length_reverse sigs), <- (length_reverse keys).
  rewrite multisigLoop_greedy by (rewrite ?length_reverse; first [done | lia | idtac]).
  eexists. split.
  - change (op_eqb OPCHECKMULTISIG OPCHECKSIGVERIFY) with false. cbv iota. unfold push.
    do 3 f_equal. replace (Z.to_nat _) with (length (sigs ++ [m] ++ keys ++ [n])).
    + apply popTimes_snoc.
    + rewrite !length_reverse, !length_app. simpl. lia.
  - by rewrite greedy_match, key_match_reverse_iff.
Qed.

(** OP_CHECKMULTISIGVERIFY never verifies: its last test compares the opcode with
    OP_CHECKSIGVERIFY, so on every stack it does what OP_CHECKMULTISIG does, leaving the
    verdict on the stack instead of failing. *)
Theorem multisigverify_is_multisig (s : bytes) tx idx pc start stk :
  execOp s OPCHECKMULTISIGVERIFY [] tx idx pc start stk =
    execOp s OPCHECKMULTISIG [] tx idx pc start stk.
Proof. unfold execOp. eval_ops. reflexivity. Qed.

(** a key count of [2^63 - 2] or [2^63 - 1] overflows the index arithmetic: the bounds
    checks pass on negative indices, the signature count reads as zero, and the opcode
    pushes true on any stack without looking at a key or a signature. *)
Theorem multisig_overflow (s : bytes) tx idx start (base : list bytes) (n : bytes) :
  (2 ^ 63 - 2 <= be_value n < 2 ^ 63)%Z ->
  execMultisig s OPCHECKMULTISIG tx idx start (base ++ [n]) =
    Ok (base ++ [n] ++ [operandTrue], start).
Proof.
  intros Hn. unfold execMultisig. set (stk := base ++ [n]).
  assert (i64 (2 + be_value n) = 2 + be_value n - 2 ^ 64)%Z as Hi.
  { unfold i64. rewrite <- (Z.mod_add _ (-1)), Z.mod_small by lia. lia. }
  assert (1 <= Z.of_nat (length stk))%Z as Hlen by (subst stk; rewrite length_app; simpl; lia).
  rewrite (proj2 (Z.ltb_ge (Z.of_nat (length stk)) 1)) by lia.
  replace (topN stk 1) with n by (symmetry; apply topN_1).
  rewrite operand_int_small by lia. cbn [mbind result_bind].
  rewrite (proj2 (Z.ltb_ge (be_value n) 0)), Hi by lia.
  rewrite (proj2 (Z.ltb_ge (Z.of_nat (length stk)) (2 + be_value n - 2 ^ 64))) by lia.
  assert (topN stk (2 + be_value n - 2 ^ 64) = []) as ->.
  { unfold topN. destruct (Z.leb_spec (2 + be_value n - 2 ^ 64) 0); [done|lia]. }
  change (operand_int []) with (Ok (E := ScriptErr) 0%Z). cbn [mbind result_bind].
  rewrite (proj2 (Z.ltb_ge 0 0)), (proj2 (Z.ltb_ge (be_value n) 0)) by lia.
  rewrite !(i64_small (_ + 1)), Z.add_0_r, (i64_small (_ + 1)), (i64_small (_ - 1)) by lia.
  rewrite (proj2 (Z.ltb_ge (Z.of_nat (length stk)) _)) by lia.
  rewrite multisigLoop_done by lia. 
  match goal with |- context [Z.to_nat ?z] => replace (Z.to_nat z) with 0 by lia end.
  change (op_eqb OPCHECKMULTISIG OPCHECKSIGVERIFY) with false. cbn [popTimes].
  subst stk. unfold push. by rewrite <- app_assoc.
Qed.

End WithCrypto.

(** ** Concrete runs *)

(** One of two: the second key signed the empty script. *)
Lemma multisig_correct_witness :
  exists v : bool,
    execMultisig (C := ToyCrypto.toy) (TC := ToyCodec.toy_codec) [] OPCHECKMULTISIG ToyCodec.tx0 0 0
      ([] ++ [[x09]] ++ [[x01]] ++ [[x04]; [x05]] ++ [[x02]]) =
      Ok ([] ++ [if v then operandTrue else operandFalse], 0) /\
    (v = true <-> key_match (fun sg pk =>
       verifySig (C := ToyCrypto.toy) (TC := ToyCodec.toy_codec) sg pk (drop 0 []) ToyCodec.tx0 0)
       [[x09]] [[x04]; [x05]]).
Proof.
  apply (multisig_correct (C := ToyCrypto.toy) (TC := ToyCodec.toy_codec)
    [] ToyCodec.tx0 0 0 [] [[x09]] [[x04]; [x05]] [x01] [x02]); try reflexivity; simpl; lia.
Defined.

(** The key count [7f ff ff ff ff ff ff fe] on an otherwise empty stack. *)
Lemma multisig_overflow_witness :
  let n := [x7f; xff; xff; xff; xff; xff; xff; xfe] in
  execMultisig (C := ToyCrypto.toy) (TC := ToyCodec.toy_codec) [] OPCHECKMULTISIG ToyCodec.tx0 0 0 ([] ++ [n]) =
    Ok ([] ++ [n] ++ [operandTrue], 0).
Proof.
  apply (multisig_overflow (C := ToyCrypto.toy) (TC := ToyCodec.toy_codec) [] ToyCodec.tx0 0 0 []
    [x7f; xff; xff; xff; xff; xff; xff; xfe]).
  vm_compute. split; [discriminate|reflexivity].
Defined.

(** * Scripts built instruction by instruction, and the limits

    Building a script with [AddOpCode] and [AddOperand] and decoding it gives the
    instructions back, for operands that fit a two-byte size.  Beyond that size the
    four-byte form is decoded wrongly; and a contract script's version operand is read
    without looking at the error. *)

Import Opcode Stack Script Kinds.

Definition add_instr (s : bytes) (i : instr) : bytes :=
  match i with IPush o => AddOperand s o | IOp op => AddOpCode s op end.

Lemma add_instr_encode (s : bytes) prog : foldl add_instr s prog = s ++ encode prog.
Proof.
  revert s. induction prog as [|i prog IH]; intros s; simpl; [by rewrite app_nil_r|].
  rewrite IH, encode_cons. destruct i as [o|op]; simpl.
  - by rewrite AddOperand_app, <- app_assoc.
  - unfold AddOpCode. by rewrite <- app_assoc.
Qed.

Lemma sigops_fold es n :
  foldl (fun numSigs e => if is_sig_op e then S numSigs else numSigs) n es =
    n + length (filter (fun e => is_sig_op e = true) es).
Proof.
  revert n. induction es as [|e es IH]; intros n; simpl; [lia|].
  rewrite IH. destruct (is_sig_op e) eqn:E.
  - rewrite filter_cons_True by done. simpl. lia.
  - rewrite filter_cons_False by (rewrite E; done). lia.
Qed.

(** whatever script is assembled from opcodes and operands of at most 65535 bytes is
    decoded back to exactly those instructions, and its signature operations are the
    signature opcodes among them: no operand byte is ever read as an opcode. *)
Theorem script_roundtrip (prog : list instr) :
  Forall instr_ok prog ->
  parse (foldl add_instr [] prog) = map instr_element prog /\
  getSigOpCount (foldl add_instr [] prog) =
    length (filter (fun e => is_sig_op e = true) (map instr_element prog)).
Proof.
  intros Hok. rewrite add_instr_encode, app_nil_l. unfold getSigOpCount.
  rewrite parse_encode by done. split; [done|]. apply sigops_fold.
Qed.

Lemma script_roundtrip_witness :
  let prog := [IPush [OPCHECKSIG]; IOp OPCHECKSIG; IPush []; IOp OPRETURN] in
  parse (foldl add_instr [] prog) = map instr_element prog /\
  getSigOpCount (foldl add_instr [] prog) =
    length (filter (fun e => is_sig_op e = true) (map instr_element prog)).
Proof.
  apply (script_roundtrip [IPush [OPCHECKSIG]; IOp OPCHECKSIG; IPush []; IOp OPRETURN]).
  repeat constructor; vm_compute; congruence.
Defined.

Lemma le_value_take2 (z : Z) : (0 <= z)%Z -> le_value (take 2 (le_bytes 4 z)) = (z mod 65536)%Z.
Proof. intros. change (take 2 (le_bytes 4 z)) with (le_bytes 2 z). by rewrite le_value_le_bytes. Qed.

(** the four-byte operand size is read as two bytes: an operand of 65536 bytes or
    more comes back cut to its length modulo 65536, and decoding goes on inside it. *)
Theorem pushdata4_truncates (o : bytes) :
  (65535 < Z.of_nat (length o) < 2 ^ 32)%Z ->
  let n := Z.to_nat (Z.of_nat (length o) mod 65536) in
  parseNextOp (AddOperand [] o) 0 = (OPPUSHDATA4, Some (take n o), 5 + n, None) /\
  n < length o.
Proof.
  intros Ho n. pose proof (Z.mod_pos_bound (Z.of_nat (length o)) 65536 ltac:(lia)) as Hm.
  assert (n < length o) as Hn by (unfold n; lia). split; [|done].
  assert (length (take n o) = n) as Hl by (rewrite length_take; lia).
  rewrite AddOperand_header. unfold push_header.
  change (b2z OPPUSHDATA1) with 76%Z.
  rewrite (proj2 (Z.ltb_ge _ _)), !(proj2 (Z.leb_gt _ _)), u32_small by lia.
  set (hdr := le_bytes 4 (Z.of_nat (length o))).
  assert (length hdr = 4) as Hh by apply length_le_bytes.
  rewrite <- (take_drop n o) at 1. rewrite app_nil_l.
  rewrite (parseNextOp_sized OPPUSHDATA4 hdr (take n o) (drop n o)).
  - by rewrite Hl, Hh.
  - done.
  - unfold parseOperandSize. change (op_ltb OPPUSHDATA4 OPPUSHDATA1) with false.
    change (op_eqb OPPUSHDATA4 OPPUSHDATA1) with false.
    change (op_eqb OPPUSHDATA4 OPPUSHDATA2) with false. cbv iota zeta.
    rewrite (proj2 (Nat.ltb_ge _ _)).
    2: { rewrite length_app. cbn [length]. lia. }
    pose proof (slice_app_mid [OPPUSHDATA4] hdr (take n o ++ drop n o)) as Hs.
    rewrite Hh in Hs. change ([OPPUSHDATA4] ++ hdr ++ take n o ++ drop n o)
      with ((OPPUSHDATA4 :: hdr) ++ take n o ++ drop n o) in Hs.
    simpl length in Hs. rewrite Hs, Hh, Hl. unfold hdr.
    by rewrite le_value_take2 by lia.
Qed.

(** The contract script with an arbitrary version operand. *)
Definition contract_fields (from to : bytes) (nonce gasLimit : Z) (version : bytes) : list instr :=
  [IOp OPCONTRACT; IPush from; IPush to; IPush (le_bytes 8 nonce); IPush (le_bytes 8 gasLimit);
   IPush version].

(** a contract script whose version operand does not have four bytes is not refused:
    the read error is dropped and the parameters come back with version 0. *)
Theorem contract_version_unchecked (from to version : bytes) (nonce gasLimit : Z) :
  length from = 20 -> length to = 20 -> (0 <= nonce < 2 ^ 64)%Z -> (0 <= gasLimit < 2 ^ 64)%Z ->
  length version <> 4 -> (Z.of_nat (length version) <= 65535)%Z ->
  ParseContractParams (encode (contract_fields from to nonce gasLimit version)) =
    Ok (mkVMTxParams from to nonce gasLimit 0,
        if bool_decide (to = Types.ZeroAddressHash) then ContractCreationType else ContractCallType).
Proof.
  intros Hf Ht Hn Hg Hv Hv'. set (prog := contract_fields from to nonce gasLimit version).
  assert (Forall instr_ok prog) as Hok by instrs_ok.
  assert (forall k o, prog !! k = Some (IPush o) ->
    operandAt (encode prog) (length (encode (take k prog))) =
      Ok (o, length (encode (take (S k) prog)))) as Hop.
  { intros k o Hk. pose proof (nthOperand_at prog k 0 o Hok) as H.
    rewrite Nat.add_0_r, Nat.add_1_r in H. apply (H Hk). }
  unfold ParseContractParams, readUint64, readUint32.
  assert (getNthOp (encode prog) 0 0 = Ok (OPCONTRACT, None, length (encode (take 1 prog)))) as -> by done.
  change (op_eqb OPCONTRACT OPCONTRACT) with true. cbn [negb].
  rewrite (Hop 1 from) by done. cbn [mbind result_bind]. rewrite Hf. cbn [negb Nat.eqb].
  rewrite (Hop 2 to) by done. cbn [mbind result_bind]. rewrite Ht. cbn [negb Nat.eqb].
  rewrite (Hop 3 (le_bytes 8 nonce)) by done. cbn [mbind result_bind].
  rewrite length_le_bytes, le_value_le_bytes_small by (simpl; lia). cbn [negb Nat.eqb mbind result_bind].
  rewrite (Hop 4 (le_bytes 8 gasLimit)) by done. cbn [mbind result_bind].
  rewrite length_le_bytes, le_value_le_bytes_small by (simpl; lia). cbn [negb Nat.eqb mbind result_bind].
  rewrite (Hop 5 version) by done. rewrite (proj2 (Nat.eqb_neq _ _)) by done. cbn [negb].
  change (take 6 prog) with prog. by rewrite getNthOp_end.
Qed.

Lemma pushdata4_truncates_witness :
  exists o, length o = Z.to_nat 65537 /\
    parseNextOp (AddOperand [] o) 0 = (OPPUSHDATA4, Some (take 1 o), 6, None).
Proof.
  exists (replicate (Z.to_nat 65537) x00).
  assert (length (replicate (Z.to_nat 65537) x00) = Z.to_nat 65537) as E by apply length_replicate.
  split; [exact E|].
  pose proof (pushdata4_truncates (replicate (Z.to_nat 65537) x00)) as P.
  rewrite E, Z2Nat.id in P by lia.
  change (Z.to_nat (65537 mod 65536)) with 1 in P. apply P. lia.
Defined.

Lemma contract_version_unchecked_witness :
  ParseContractParams (encode (contract_fields addrA addrB 7 21000 [x01])) =
    Ok (mkVMTxParams addrA addrB 7 21000 0, ContractCallType).
Proof.
  apply (contract_version_unchecked addrA addrB [x01] 7 21000); simpl; lia || reflexivity.
Defined.
