(* ===== verification/Merkle.v ===== *)
(** * Merkle: the transaction Merkle tree (src/util/merkle.go)

    [BuildMerkleRoot] fills one array, level after level.  The last entry is the root of
    the tree that splits the leaves at powers of two and repeats the left child where the
    right one is missing.  Two lists of the same length with the same root are equal or
    exhibit a collision among the strings they hash; lists of different length need not be: repeating an
    odd last leaf keeps the root. *)

From S2P Require Import Prelude Crypto Types.

Module Merkle.
Section WithCrypto.
Context `{C : Crypto}.

(** Go: [copy] of both hashes into one 64-byte array. *)
Definition combineHash (left right : bytes) : bytes := Crypto.DoubleHashH (left ++ right).

(** The least power of two that is at least [n], for [n] at least one; zero for zero. *)
Definition calcLowestHierarchyCount (n : nat) : nat :=
  let z := Z.of_nat n in
  if (Z.land z (z - 1) =? 0)%Z then n
  else
    let hierarchy := S (Nat.log2 n) in
    Z.to_nat (Z.shiftl 1 (Z.of_nat hierarchy)).

(** The [switch] of the loop: what is stored for the entries at [i] and [i+1]. *)
Definition combineEntry (l r : option bytes) : option bytes :=
  match l, r with
  | None, _ => None
  | Some x, None => Some (combineHash x x)
  | Some x, Some y => Some (combineHash x y)
  end.

(** [for i := 0; i < arraySize-1; i += 2], with the loop's [offset]; an index out of
    range panics. *)
Fixpoint merkleLoop (fuel : nat) (merkles : list (option bytes)) (i offset : nat) :
    go (list (option bytes)) :=
  match fuel with
  | O => Returns merkles
  | S fuel =>
      if i <? length merkles - 1 then
        match merkles !! i, merkles !! S i with
        | Some l, Some r =>
            if offset <? length merkles
            then merkleLoop fuel (<[offset:=combineEntry l r]> merkles) (i + 2) (S offset)
            else Panics
        | _, _ => Panics
        end
      else Returns merkles
  end.

(** [make] of the negative size the empty list gives panics.  A nil pointer is [None]. *)
Definition BuildMerkleRoot (hashs : list (option bytes)) : go (list (option bytes)) :=
  let leafSize := calcLowestHierarchyCount (length hashs) in
  if leafSize =? 0 then Panics
  else
    let arraySize := leafSize * 2 - 1 in
    let merkles := hashs ++ replicate (arraySize - length hashs) None in
    merkleLoop arraySize merkles 0 leafSize.

Definition CalcTxsHash `{TxCodec} (txs : list Transaction) : go (option bytes) :=
  txsHash ← BuildMerkleRoot (map Types.CalcTxHash txs);
  match txsHash !! (length txsHash - 1) with
  | Some h => Returns h
  | None => Panics
  end.

(** ** Specification: the tree *)

(** The root of a tree of depth [k] over at most [2^k] leaves. *)
Fixpoint tree_root (k : nat) (l : list bytes) : bytes :=
  match k with
  | O => default [] (head l)
  | S k =>
      let lft := take (2 ^ k) l in
      let rgt := drop (2 ^ k) l in
      combineHash (tree_root k lft) (tree_root k (if bool_decide (rgt = []) then lft else rgt))
  end.

(** The least depth that holds [n] leaves. *)
Definition depth (n : nat) : nat := Nat.log2_up n.

Definition merkle_root (l : list bytes) : bytes := tree_root (depth (length l)) l.

(** ** The size of the lowest level *)

Lemma land_pred_pow2 k : Z.land (2 ^ Z.of_nat k) (2 ^ Z.of_nat k - 1) = 0%Z.
Proof.
  replace (2 ^ Z.of_nat k - 1)%Z with (Z.ones (Z.of_nat k)) by (rewrite Z.ones_equiv; lia).
  rewrite Z.land_ones by lia. apply Z.mod_same. lia.
Qed.

(** Between two powers of two the top bit survives in [n & (n-1)]. *)
Lemma land_pred_not_pow2 n k :
  (2 ^ Z.of_nat k < n < 2 ^ (Z.of_nat k + 1))%Z -> Z.land n (n - 1) <> 0%Z.
Proof.
  intros Hn Heq. assert (Z.testbit (Z.land n (n - 1)) (Z.of_nat k) = true) as Hb.
  { rewrite Z.land_spec. apply andb_true_iff. split; apply Z.testbit_true; try lia.
    all: rewrite Z.pow_add_r, Z.pow_1_r in Hn by lia.
    - rewrite <- (Z.div_unique n (2 ^ Z.of_nat k) 1 (n - 2 ^ Z.of_nat k)); [done|lia|lia].
    - rewrite <- (Z.div_unique (n - 1) (2 ^ Z.of_nat k) 1 (n - 1 - 2 ^ Z.of_nat k)); [done|lia|lia]. }
  rewrite Heq, Z.bits_0 in Hb. done.
Qed.

Lemma pow2_Z k : Z.of_nat (2 ^ k) = (2 ^ Z.of_nat k)%Z.
Proof. by rewrite Nat2Z.inj_pow. Qed.

Lemma lowest_pow2 n : 0 < n -> calcLowestHierarchyCount n = 2 ^ depth n.
Proof.
  intros Hn. unfold calcLowestHierarchyCount, depth.
  pose proof (Nat.log2_spec n Hn) as [Hlo Hhi].
  destruct (decide (n = 2 ^ Nat.log2 n)) as [E|E].
  - rewrite E at 1 2. rewrite pow2_Z, land_pred_pow2. simpl.
    rewrite E at 2. rewrite Nat.log2_up_pow2 by lia. done.
  - assert (2 ^ Nat.log2 n < n) by lia.
    rewrite (proj2 (Z.eqb_neq _ _)).
    2: { apply (land_pred_not_pow2 _ (Nat.log2 n)).
      replace (Z.of_nat (Nat.log2 n) + 1)%Z with (Z.of_nat (S (Nat.log2 n))) by lia.
      rewrite <- !pow2_Z. lia. }
    rewrite Z.shiftl_1_l, <- pow2_Z, Nat2Z.id. f_equal.
    symmetry. apply Nat.log2_up_unique; [lia|]. simpl Nat.pred. lia.
Qed.

(** ** One level of the tree *)

Fixpoint pair_up (l : list bytes) : list bytes :=
  match l with
  | [] => []
  | [x] => [combineHash x x]
  | x :: y :: l => combineHash x y :: pair_up l
  end.

(** The same on array entries. *)
Fixpoint pair_entries (l : list (option bytes)) : list (option bytes) :=
  match l with
  | x :: y :: l => combineEntry x y :: pair_entries l
  | _ => []
  end.

Lemma list_ind2 {A} (P : list A -> Prop) :
  P [] -> (forall x, P [x]) -> (forall x y l, P l -> P (x :: y :: l)) -> forall l, P l.
Proof.
  intros H0 H1 H2 l. assert (P l /\ forall x, P (x :: l)) as [? _]; [|done].
  induction l as [|x l [IH1 IH2]]; auto.
Qed.

Lemma pair_entries_padded l n m :
  length l + n = 2 * m ->
  pair_entries (map Some l ++ replicate n None) =
    map Some (pair_up l) ++ replicate (m - length (pair_up l)) None.
Proof.
  revert n m. induction l as [|x|x y l IH] using list_ind2; intros n m Hn; simpl in Hn.
  - simpl. rewrite Nat.sub_0_r. revert n Hn. induction m as [|m IH]; intros n Hn.
    + by replace n with 0 by lia.
    + destruct n as [|[|n]]; [lia|lia|]. simpl. f_equal. apply IH. lia.
  - destruct n as [|n]; [lia|]. simpl. f_equal.
    destruct m as [|m]; [lia|]. simpl. rewrite Nat.sub_0_r.
    clear x. assert (n = 2 * m) as -> by lia. clear Hn. induction m as [|m IH]; [done|].
    replace (2 * S m) with (S (S (2 * m))) by lia. simpl. f_equal. simpl in IH. apply IH.
  - destruct m as [|m]; [lia|]. simpl. f_equal. apply IH. lia.
Qed.

Lemma length_pair_up l : length (pair_up l) = Nat.div2 (S (length l)).
Proof. induction l as [|x|x y l IH] using list_ind2; simpl; [done|done|]. by rewrite IH. Qed.

Lemma pair_up_app l1 l2 m :
  length l1 = 2 * m -> pair_up (l1 ++ l2) = pair_up l1 ++ pair_up l2.
Proof.
  revert m. induction l1 as [|x|x y l IH] using list_ind2; intros m Hm; simpl in Hm; [done|lia|].
  simpl. f_equal. apply (IH (m - 1)). lia.
Qed.

Fixpoint levels_up (k : nat) (l : list bytes) : list bytes :=
  match k with O => l | S k => levels_up k (pair_up l) end.

Lemma levels_up_S k l : levels_up (S k) l = pair_up (levels_up k l).
Proof. revert l. induction k as [|k IH]; intros l; [done|]. simpl in *. by rewrite <- IH. Qed.

Lemma length_levels_up k l : length l = 2 ^ k -> length (levels_up k l) = 1.
Proof.
  revert l. induction k as [|k IH]; intros l Hl; [done|]. simpl. apply IH.
  rewrite length_pair_up, Hl. replace (S (2 ^ S k)) with (S (2 * 2 ^ k)) by (simpl; lia).
  apply Nat.div2_succ_double.
Qed.

Lemma levels_up_app k l1 l2 m :
  length l1 = 2 ^ k * m -> levels_up k (l1 ++ l2) = levels_up k l1 ++ levels_up k l2.
Proof.
  revert l1 l2. induction k as [|k IH]; intros l1 l2 Hl; [done|]. cbn [levels_up].
  assert (length l1 = 2 * (2 ^ k * m)) as Hl' by (rewrite Hl; simpl; lia).
  rewrite (pair_up_app _ _ (2 ^ k * m)) by done. apply IH.
  rewrite length_pair_up, Hl', Nat.div2_succ_double. done.
Qed.

(** Going up level by level reaches the root of the tree. *)
Lemma levels_up_root k l : 0 < length l <= 2 ^ k -> levels_up k l = [tree_root k l].
Proof.
  revert l. induction k as [|k IH]; intros l Hl.
  - destruct l as [|x [|]]; simpl in *; [lia|done|lia].
  - rewrite levels_up_S. cbn [tree_root]. simpl in Hl.
    destruct (decide (length l <= 2 ^ k)) as [Hs|Hs].
    + rewrite drop_ge, take_ge, bool_decide_eq_true_2 by done. by rewrite IH by lia.
    + rewrite bool_decide_eq_false_2.
      2: { intros E%(f_equal length). rewrite length_drop in E. simpl in E. lia. }
      rewrite <- (take_drop (2 ^ k) l) at 1.
      rewrite (levels_up_app _ _ _ 1) by (rewrite length_take; lia).
      rewrite !IH by (rewrite ?length_take, ?length_drop; lia). done.
Qed.

(** ** The loop over the array *)

Lemma length_pair_entries l m : length l = 2 * m -> length (pair_entries l) = m.
Proof.
  revert m. induction l as [|x|x y l IH] using list_ind2; intros m Hm; simpl in *; [lia|lia|].
  rewrite (IH (m - 1)); lia.
Qed.

(** Consuming the entries [cur], [m] pairs, writes their combinations from [offset] on. *)
Lemma merkleLoop_level m fuel (pre cur mid free : list (option bytes)) :
  length cur = 2 * m -> m <= length free ->
  merkleLoop (m + fuel) (pre ++ cur ++ mid ++ free) (length pre) (length (pre ++ cur ++ mid)) =
  merkleLoop fuel (pre ++ cur ++ mid ++ pair_entries cur ++ drop m free)
    (length (pre ++ cur)) (length (pre ++ cur ++ mid ++ pair_entries cur)).
Proof.
  revert pre cur mid free. induction m as [|m IH]; intros pre cur mid free Hc Hf.
  - destruct cur; [|simpl in Hc; lia]. rewrite drop_0. simpl. by rewrite !app_nil_r.
  - destruct cur as [|x [|y cur]]; simpl in Hc; [lia|lia|].
    destruct free as [|f free]; simpl in Hf; [lia|].
    cbn [Nat.add merkleLoop]. rewrite !length_app. simpl length.
    rewrite (proj2 (Nat.ltb_lt (length pre) _)) by lia.
    rewrite !(lookup_app_r pre) by lia.
    rewrite Nat.sub_diag, Nat.sub_succ_l, Nat.sub_diag by lia. simpl lookup.
    rewrite (proj2 (Nat.ltb_lt _ _)) by lia.
    specialize (IH (pre ++ [x; y]) cur (mid ++ [combineEntry x y]) free).
    rewrite !length_app in IH. rewrite <- !app_assoc in IH. simpl in IH.
    simpl pair_entries. simpl drop. rewrite ?length_app. simpl length.
    match type of IH with _ -> _ -> ?L = ?R => transitivity L end.
    + f_equal; [|lia].
      replace (pre ++ (x :: y :: cur) ++ mid ++ f :: free)
        with ((pre ++ (x :: y :: cur) ++ mid) ++ f :: free) by by rewrite <- !app_assoc.
      rewrite insert_app_r_alt by (rewrite !length_app; simpl; lia).
      replace (_ - _) with 0 by (rewrite !length_app; simpl; lia).
      by rewrite <- !app_assoc.
    + rewrite IH by lia. f_equal; simpl; lia.
Qed.

(** All levels above and including [cur]. *)
Fixpoint all_levels (k : nat) (cur : list (option bytes)) : list (option bytes) :=
  match k with O => cur | S k => cur ++ all_levels k (pair_entries cur) end.

Lemma merkleLoop_levels k fuel (pre cur : list (option bytes)) :
  length cur = 2 ^ k -> 2 ^ k <= fuel ->
  merkleLoop fuel (pre ++ cur ++ replicate (2 ^ k - 1) None) (length pre) (length (pre ++ cur)) =
    Returns (pre ++ all_levels k cur).
Proof.
  revert fuel pre cur. induction k as [|k IH]; intros fuel pre cur Hc Hf.
  - simpl in *. rewrite app_nil_r. destruct fuel as [|fuel]; [lia|]. simpl.
    rewrite length_app, Hc, (proj2 (Nat.ltb_ge _ _)) by lia. done.
  - pose proof (Nat.pow_nonzero 2 k ltac:(lia)). cbn [Nat.pow] in Hc, Hf.
    pose proof (length_pair_entries cur (2 ^ k)) as Hp.
    pose proof (merkleLoop_level (2 ^ k) (fuel - 2 ^ k) pre cur [] (replicate (2 ^ S k - 1) None)) as Hl.
    rewrite length_replicate, !app_nil_l, app_nil_r in Hl.
    replace (2 ^ k + (fuel - 2 ^ k)) with fuel in Hl by lia.
    rewrite Hl by (cbn [Nat.pow]; lia). clear Hl.
    rewrite drop_replicate. replace (2 ^ S k - 1 - 2 ^ k) with (2 ^ k - 1) by (cbn [Nat.pow]; lia).
    rewrite !app_assoc, <- (app_assoc (pre ++ cur)). rewrite IH by lia.
    cbn [all_levels]. by rewrite <- app_assoc.
Qed.

Lemma all_levels_last k l :
  0 < length l <= 2 ^ k ->
  let a := all_levels k (map Some l ++ replicate (2 ^ k - length l) None) in
  length a = 2 ^ k * 2 - 1 /\ last a = Some (Some (tree_root k l)).
Proof.
  intros Hl a. subst a. enough (forall l, 0 < length l <= 2 ^ k ->
    let a := all_levels k (map Some l ++ replicate (2 ^ k - length l) None) in
    length a = 2 ^ k * 2 - 1 /\ last a = Some <$> last (levels_up k l)) as H.
  { destruct (H l Hl) as [-> ->]. by rewrite levels_up_root. }
  clear l Hl. induction k as [|k IH]; intros l Hl.
  - simpl in *. destruct l as [|x [|]]; simpl in *; [lia|done|lia].
  - cbn [all_levels levels_up Nat.pow] in *.
    rewrite (pair_entries_padded _ _ (2 ^ k)) by lia.
    assert (0 < length (pair_up l) <= 2 ^ k) as Hp.
    { rewrite length_pair_up, Nat.div2_div. split.
      - apply Nat.div_str_pos. lia.
      - apply Nat.lt_succ_r, Nat.Div0.div_lt_upper_bound. lia. }
    destruct (IH (pair_up l) Hp) as [IH1 IH2]. cbv zeta. rewrite length_app, IH1.
    rewrite length_app, length_map, length_replicate. split; [lia|].
    rewrite last_app, IH2, levels_up_root by done. done.
Qed.

Lemma depth_spec n : 0 < n -> n <= 2 ^ depth n.
Proof.
  intros. unfold depth. destruct (decide (n = 1)) as [->|]; [done|].
  pose proof (Nat.log2_up_spec n). lia.
Qed.

Lemma BuildMerkleRoot_levels l :
  l <> [] ->
  BuildMerkleRoot (map Some l) =
    Returns (all_levels (depth (length l))
      (map Some l ++ replicate (2 ^ depth (length l) - length l) None)).
Proof.
  intros Hl. assert (0 < length l) as Hpos by (destruct l; simpl; [done|lia]).
  pose proof (depth_spec _ Hpos) as Hd. set (k := depth (length l)) in *.
  unfold BuildMerkleRoot. rewrite length_map, lowest_pow2 by done. fold k.
  pose proof (Nat.pow_nonzero 2 k ltac:(lia)).
  rewrite (proj2 (Nat.eqb_neq _ _)) by done.
  pose proof (merkleLoop_levels k (2 ^ k * 2 - 1) [] (map Some l ++ replicate (2 ^ k - length l) None)) as H1.
  rewrite !app_nil_l, <- app_assoc, <- replicate_add, length_app, length_map, length_replicate in H1.
  replace (2 ^ k - length l + (2 ^ k - 1)) with (2 ^ k * 2 - 1 - length l) in H1 by lia.
  replace (length l + (2 ^ k - length l)) with (2 ^ k) in H1 by lia.
  apply H1; lia.
Qed.

Lemma BuildMerkleRoot_last l m :
  l <> [] -> BuildMerkleRoot (map Some l) = Returns m -> last m = Some (Some (merkle_root l)).
Proof.
  intros Hl. rewrite BuildMerkleRoot_levels by done. intros [= <-].
  apply all_levels_last. destruct l; [done|]. split; [simpl; lia|apply depth_spec; simpl; lia].
Qed.

(** for a non-empty list of hashes the array algorithm stays in range and ends with
    the root of the Merkle tree over the list; the array has one entry per node. *)
Theorem BuildMerkleRoot_tree (l : list bytes) :
  l <> [] ->
  exists m, BuildMerkleRoot (map Some l) = Returns m /\
    length m = 2 ^ depth (length l) * 2 - 1 /\ last m = Some (Some (merkle_root l)).
Proof.
  intros Hl. eexists. split; [by apply BuildMerkleRoot_levels|].
  apply all_levels_last. destruct l; [done|]. split; [simpl; lia|apply depth_spec; simpl; lia].
Qed.

(** ** What the root commits to *)

(** The strings that are hashed to compute [tree_root k l]: the two children of every inner
    node. *)
Fixpoint hashed (k : nat) (l : list bytes) : list bytes :=
  match k with
  | O => []
  | S k =>
      let lft := take (2 ^ k) l in
      let rgt := drop (2 ^ k) l in
      let rgt := if bool_decide (rgt = []) then lft else rgt in
      (tree_root k lft ++ tree_root k rgt) :: hashed k lft ++ hashed k rgt
  end.

(** Two different strings with the same double hash, one of each list. *)
Definition collide (xs ys : list bytes) : Prop :=
  exists x y, x ∈ xs /\ y ∈ ys /\ x <> y /\ Crypto.DoubleHashH x = Crypto.DoubleHashH y.

Context `{CL : !CryptoLaws C}.

Definition hashes (l : list bytes) : Prop := Forall (fun h => length h = Crypto.HashSize) l.

Lemma collide_mono xs xs' ys ys' :
  xs ⊆ xs' -> ys ⊆ ys' -> collide xs ys -> collide xs' ys'.
Proof. intros Hx Hy (x & y & ? & ? & ?). exists x, y. eauto. Qed.

Lemma combineHash_inj a b c d xs ys :
  length a = length c -> combineHash a b = combineHash c d ->
  (a = c /\ b = d) \/ collide ((a ++ b) :: xs) ((c ++ d) :: ys).
Proof.
  intros Hl E. destruct (decide (a ++ b = c ++ d)) as [E'|E'].
  - left. by apply app_inj_1 in E'.
  - right. exists (a ++ b), (c ++ d). repeat split; try done; by apply list_elem_of_here.
Qed.

Lemma length_tree_root k l : hashes l -> l <> [] -> length (tree_root k l) = Crypto.HashSize.
Proof.
  intros Hh Hl. destruct k as [|k]; [|apply Crypto.length_DoubleHashH].
  destruct l; [done|]. by apply Forall_cons in Hh as [? _].
Qed.

Lemma tree_root_inj k l1 l2 :
  hashes l1 -> hashes l2 -> length l1 = length l2 -> 0 < length l1 <= 2 ^ k ->
  tree_root k l1 = tree_root k l2 -> l1 = l2 \/ collide (hashed k l1) (hashed k l2).
Proof.
  revert l1 l2. induction k as [|k IH]; intros l1 l2 H1 H2 Hlen Hk E.
  - destruct l1 as [|x [|]], l2 as [|y [|]]; simpl in *; try lia. subst. by left.
  - cbn [tree_root hashed Nat.pow] in *. cbv zeta.
    assert (0 < 2 ^ k) by (pose proof (Nat.pow_nonzero 2 k); lia).
    eapply combineHash_inj in E as [[EL ER]|]; [|right; eassumption|].
    2: { rewrite !length_tree_root; [done|by apply Forall_take| |by apply Forall_take|];
      intros E'%(f_equal length); rewrite length_take in E'; simpl in E'; lia. }
    apply IH in EL; [|by apply Forall_take|by apply Forall_take|rewrite !length_take; lia
      |rewrite length_take; lia].
    destruct EL as [EL|Hc]; [|right; revert Hc; apply collide_mono; set_solver].
    destruct (decide (length l1 <= 2 ^ k)) as [Hs|Hs].
    + left. by rewrite !take_ge in EL by lia.
    + assert (forall l : list bytes, 2 ^ k < length l -> bool_decide (drop (2 ^ k) l = []) = false) as Hd.
      { intros l Hl. apply bool_decide_eq_false_2. intros E'%(f_equal length).
        rewrite length_drop in E'. simpl in E'. lia. }
      rewrite !Hd in * by lia.
      apply IH in ER; [|by apply Forall_drop|by apply Forall_drop|rewrite !length_drop; lia
        |rewrite length_drop; lia].
      destruct ER as [ER|Hc]; [|right; revert Hc; apply collide_mono; set_solver].
      left. rewrite <- (take_drop (2 ^ k) l1), <- (take_drop (2 ^ k) l2). by rewrite EL, ER.
Qed.

Lemma merkle_root_inj (l1 l2 : list bytes) : hashes l1 -> hashes l2 -> length l1 = length l2 -> l1 <> [] -> merkle_root l1 = merkle_root l2 ->
  l1 = l2 \/ collide (hashed (depth (length l1)) l1) (hashed (depth (length l2)) l2).
Proof.
  intros H1 H2 Hlen Hne E. assert (0 < length l1) as Hpos by (destruct l1; simpl; [done|lia]).
  unfold merkle_root in E. rewrite <- Hlen in E |- *. pose proof (depth_spec _ Hpos) as Hd.
  apply (tree_root_inj (depth (length l1))); done || lia.
Qed.

(** C39: the root binds the leaves: two lists of the same number of hashes with the same
    Merkle root are equal, or two different strings collide, each among the strings hashed
    to compute its root. *)
Theorem merkle_binding (l1 l2 : list bytes) (m1 m2 : list (option bytes)) :
  hashes l1 -> hashes l2 -> length l1 = length l2 -> l1 <> [] ->
  BuildMerkleRoot (map Some l1) = Returns m1 -> BuildMerkleRoot (map Some l2) = Returns m2 ->
  last m1 = last m2 ->
  l1 = l2 \/ collide (hashed (depth (length l1)) l1) (hashed (depth (length l2)) l2).
Proof.
  intros H1 H2 Hlen Hne B1 B2 E. assert (l2 <> []) as Hne2 by (intros ->; destruct l1; done).
  apply BuildMerkleRoot_last in B1; [|done]. apply BuildMerkleRoot_last in B2; [|done].
  apply merkle_root_inj; [done..|]. congruence.
Qed.

Lemma depth_odd n : 0 < n -> depth (2 * n + 1) = depth (2 * n + 2).
Proof.
  intros Hn. unfold depth. replace (2 * n + 2) with (2 * S n) by lia.
  rewrite Nat.log2_up_double by lia. rewrite Nat.log2_up_succ_double by lia.
  by rewrite Nat.log2_up_eqn by lia.
Qed.

Lemma merkle_root_dup (l : list bytes) (x : bytes) n :
  length l = 2 * n -> 0 < n -> merkle_root (l ++ [x]) = merkle_root (l ++ [x; x]).
Proof.
  intros Hl Hn.
  assert (depth (length (l ++ [x])) = depth (length (l ++ [x; x]))) as Ed.
  { rewrite !length_app, Hl. by apply depth_odd. }
  pose proof (depth_spec (length (l ++ [x]))) as D1. pose proof (depth_spec (length (l ++ [x; x]))) as D2.
  unfold merkle_root. rewrite <- Ed in *. clear Ed. set (k := depth (length (l ++ [x]))) in *.
  clearbody k. rewrite length_app in D1, D2. simpl length in D1, D2.
  match goal with |- ?a = ?b => enough ([a] = [b]) as E by (by injection E) end.
  rewrite <- !levels_up_root by (rewrite length_app; simpl; lia).
  destruct k as [|k]; [simpl in D1; lia|].
  cbn [levels_up]. by rewrite !(pair_up_app l _ n).
Qed.

(** the root does not bind the number of transactions: a block with an odd number
    (three or more) of transactions has the same transaction root as the block with its
    last transaction repeated. *)
Theorem merkle_duplicate_last `{TC : TxCodec} (txs : list Transaction) (tx : Transaction) n :
  length txs = 2 * n -> 0 < n ->
  (forall t, t ∈ txs ++ [tx] -> is_Some (Types.tx_marshal t)) ->
  exists root, CalcTxsHash (txs ++ [tx]) = Returns root /\ CalcTxsHash (txs ++ [tx; tx]) = Returns root.
Proof.
  intros Hl Hn Hm. set (h := fun t => default [] (Types.CalcTxHash t)).
  assert (forall ts, (forall t, t ∈ ts -> is_Some (Types.tx_marshal t)) ->
    map Types.CalcTxHash ts = map Some (map h ts)) as Hh.
  { induction ts as [|t ts IH]; intros Ht; [done|]. simpl. rewrite IH by set_solver.
    destruct (Ht t ltac:(set_solver)) as [d Hd]. f_equal.
    unfold h, Types.CalcTxHash. by rewrite Hd. }
  assert (forall ts, ts <> [] -> (forall t, t ∈ ts -> is_Some (Types.tx_marshal t)) ->
    CalcTxsHash ts = Returns (Some (merkle_root (map h ts)))) as Hc.
  { intros ts Hne Ht. unfold CalcTxsHash. rewrite Hh by done.
    assert (map h ts <> []) as Hne' by by destruct ts.
    rewrite BuildMerkleRoot_levels by done. cbn [mbind go_bind].
    rewrite Nat.sub_1_r, <- last_lookup.
    by rewrite (BuildMerkleRoot_last (map h ts)) by (done || by rewrite BuildMerkleRoot_levels). }
  rewrite !Hc; [|by destruct txs|set_solver|by destruct txs|set_solver].
  eexists. split; [done|]. rewrite !map_app. simpl map.
  by rewrite (merkle_root_dup _ _ n) by (done || by rewrite length_map).
Qed.

End WithCrypto.

(** ** Concrete runs *)

Definition leafA : bytes := replicate 32 x0a.
Definition leafB : bytes := replicate 32 x0b.

Lemma BuildMerkleRoot_tree_witness :
  exists m, BuildMerkleRoot (C := ToyCrypto.toy) (map Some [leafA; leafB; leafA]) = Returns m /\
    length m = 2 ^ depth 3 * 2 - 1 /\
    last m = Some (Some (merkle_root (C := ToyCrypto.toy) [leafA; leafB; leafA])).
Proof. apply (BuildMerkleRoot_tree (C := ToyCrypto.toy) [leafA; leafB; leafA]). discriminate. Defined.

Lemma merkle_binding_witness :
  [leafA; leafB] = [leafA; leafB] \/
  collide (C := ToyCrypto.toy) (hashed (C := ToyCrypto.toy) 1 [leafA; leafB])
    (hashed (C := ToyCrypto.toy) 1 [leafA; leafB]).
Proof.
  eapply (merkle_binding (C := ToyCrypto.toy) [leafA; leafB] [leafA; leafB]);
    try reflexivity; try discriminate; repeat constructor.
Defined.

Lemma merkle_duplicate_last_witness :
  exists root, CalcTxsHash (C := ToyCrypto.toy) [ToyCodec.tx0; ToyCodec.tx0; ToyCodec.tx0] = Returns root /\
    CalcTxsHash (C := ToyCrypto.toy) [ToyCodec.tx0; ToyCodec.tx0; ToyCodec.tx0; ToyCodec.tx0] = Returns root.
Proof.
  apply (merkle_duplicate_last (C := ToyCrypto.toy) [ToyCodec.tx0; ToyCodec.tx0] ToyCodec.tx0 1);
    [reflexivity|lia|].
  intros t Ht. simpl in Ht. rewrite !elem_of_cons, elem_of_nil in Ht.
  assert (t = ToyCodec.tx0) as -> by tauto. vm_compute. eauto.
Defined.

End Merkle.
