(* ===== verification/Bytes.v ===== *)
(** * Bytes: fixed-width and variable-length wire encodings (src/util/bytes.go, common.go)

    A reader is the unread input; reading answers a value or an error and the input left.
    A writer appends, so what is written is a byte string.  The class [Wire] states what
    the encoders promise to their clients: what is written is read back and exactly its
    bytes are consumed. *)

From S2P Require Import Prelude.

Inductive IOErr := EOF | ErrUnexpectedEOF | ErrVarintOverflow.

(** Reading from an [io.Reader] over memory. *)
Definition reader (A : Type) : Type := bytes -> result IOErr A * bytes.

Definition rd_ret {A} (a : A) : reader A := fun r => (Ok a, r).

Definition rd_bind {A B} (m : reader A) (f : A -> reader B) : reader B := fun r =>
  match m r with
  | (Ok a, r) => f a r
  | (Err e, r) => (Err e, r)
  end.

#[global] Instance reader_ret : MRet reader := @rd_ret.
#[global] Instance reader_bind : MBind reader := fun A B f m => rd_bind m f.

(** ** The interface *)

(** A self-delimiting encoding of the values satisfying [wire_ok]. *)
Class Wire (A : Type) (put : A -> bytes) (get : reader A) (wire_ok : A -> Prop) : Prop :=
  wire_law (a : A) (rest : bytes) : wire_ok a -> get (put a ++ rest) = (Ok a, rest).

Module Bytes.

(** ** Conversions of byte slices *)

Definition Uint64 (data : bytes) : go Z := uint_le 8 data.
Definition FromUint64 (v : Z) : bytes := le_bytes 8 v.
Definition Uint32 (data : bytes) : go Z := uint_le 4 data.
Definition FromUint32 (v : Z) : bytes := le_bytes 4 v.
Definition Uint16 (data : bytes) : go Z := uint_le 2 data.
Definition FromUint16 (v : Z) : bytes := le_bytes 2 v.

Definition i16 (z : Z) : Z := ((z + 2 ^ 15) mod 2 ^ 16 - 2 ^ 15)%Z.
Definition i8 (z : Z) : Z := ((z + 2 ^ 7) mod 2 ^ 8 - 2 ^ 7)%Z.

Definition Int64 (data : bytes) : go Z := v ← uint_le 8 data; Returns (i64 v).
Definition FromInt64 (v : Z) : bytes := le_bytes 8 (u64 v).
Definition Int32 (data : bytes) : go Z := v ← uint_le 4 data; Returns (i32 v).
Definition FromInt32 (v : Z) : bytes := le_bytes 4 (u32 v).
Definition Int16 (data : bytes) : go Z := v ← uint_le 2 data; Returns (i16 v).
Definition FromInt16 (v : Z) : bytes := le_bytes 2 (u16 v).

(** The comparison loop of [Equal], [n] iterations left. *)
Fixpoint equalLoop (a b : bytes) : bool :=
  match a, b with
  | x :: a, y :: b => if negb (Byte.eqb x y) then false else equalLoop a b
  | _, _ => true
  end.

Definition Equal (a b : bytes) : bool :=
  if negb (length a =? length b) then false else equalLoop a b.

(** FNV-1a, 32 bits. *)
Definition HashBytes (a : bytes) : Z :=
  foldl (fun h b => u32 (Z.lxor h (b2z b) * 16777619)) 2166136261%Z a.

Definition Less (a b : bytes) : bool := (HashBytes a <? HashBytes b)%Z.

Definition ANDBytes (a b : bytes) : bytes := zip_with (fun x y => z2b (Z.land (b2z x) (b2z y))) a b.
Definition ORBytes (a b : bytes) : bytes := zip_with (fun x y => z2b (Z.lor (b2z x) (b2z y))) a b.

(** Bit [i], counted from the most significant bit of the first byte. *)
Definition bit_marked (data : bytes) (i : nat) : bool :=
  let bitMask := Z.shiftl 1 (7 - Z.of_nat (i mod 8)) in
  let b := default x00 (data !! (i / 8)) in
  negb (Z.land (b2z b) bitMask =? 0)%Z.

Definition BitIndexes (data : bytes) : list nat :=
  filter (fun i => bit_marked data i = true) (seq 0 (length data * 8)).

Definition IsPrefixed (s prefix : bytes) : bool :=
  if length s <? length prefix then false else bool_decide (take (length prefix) s = prefix).

Definition InBytes (o : bytes) (bytesArray : list bytes) : bool :=
  existsb (fun b => bool_decide (o = b)) bytesArray.

(** ** Reading and writing *)

(** [io.ReadFull] of [n] bytes. *)
Definition ReadFull (n : nat) : reader bytes := fun r =>
  if n <=? length r then (Ok (take n r), drop n r)
  else (Err (if length r =? 0 then EOF else ErrUnexpectedEOF), []).

(** The reading half of the free list's integers; the free list only recycles buffers. *)
Definition binaryFreeList_Uint8 : reader Z := buf ← ReadFull 1; mret (le_value buf).
Definition binaryFreeList_Uint16 : reader Z := buf ← ReadFull 2; mret (le_value buf).
Definition binaryFreeList_Uint32 : reader Z := buf ← ReadFull 4; mret (le_value buf).
Definition binaryFreeList_Uint64 : reader Z := buf ← ReadFull 8; mret (le_value buf).

Definition binaryFreeList_PutUint8 (val : Z) : bytes := le_bytes 1 val.
Definition binaryFreeList_PutUint16 (val : Z) : bytes := le_bytes 2 val.
Definition binaryFreeList_PutUint32 (val : Z) : bytes := le_bytes 4 val.
Definition binaryFreeList_PutUint64 (val : Z) : bytes := le_bytes 8 val.

Definition ReadUint64 : reader Z := binaryFreeList_Uint64.
Definition WriteUint64 (v : Z) : bytes := binaryFreeList_PutUint64 v.
Definition ReadUint32 : reader Z := binaryFreeList_Uint32.
Definition WriteUint32 (v : Z) : bytes := binaryFreeList_PutUint32 v.
Definition ReadUint16 : reader Z := binaryFreeList_Uint16.
Definition WriteUint16 (v : Z) : bytes := binaryFreeList_PutUint16 v.
Definition ReadUint8 : reader Z := binaryFreeList_Uint8.
Definition WriteUint8 (v : Z) : bytes := binaryFreeList_PutUint8 v.

Definition ReadInt64 : reader Z := v ← binaryFreeList_Uint64; mret (i64 v).
Definition WriteInt64 (v : Z) : bytes := binaryFreeList_PutUint64 (u64 v).
Definition ReadInt32 : reader Z := v ← binaryFreeList_Uint32; mret (i32 v).
Definition WriteInt32 (v : Z) : bytes := binaryFreeList_PutUint32 (u32 v).
Definition ReadInt16 : reader Z := v ← binaryFreeList_Uint16; mret (i16 v).
Definition WriteInt16 (v : Z) : bytes := binaryFreeList_PutUint16 (u16 v).
Definition ReadInt8 : reader Z := v ← binaryFreeList_Uint8; mret (i8 v).
Definition WriteInt8 (v : Z) : bytes := binaryFreeList_PutUint8 (u8 v).

(** [binary.PutUvarint]: seven bits a byte, least significant first.  Ten bytes hold 64
    bits. *)
Definition MaxVarintLen64 : nat := 10.

Fixpoint putUvarint (n : nat) (x : Z) : bytes :=
  match n with
  | O => []
  | S n =>
      if (128 <=? x)%Z then z2b (Z.lor (x mod 256) 128) :: putUvarint n (Z.shiftr x 7)
      else [z2b x]
  end.

Definition WriteUvarint (v : Z) : bytes := putUvarint MaxVarintLen64 v.

(** [binary.ReadUvarint], at byte [i] with [x] read so far and shift [7*i]; [n] bytes may
    still be read. *)
Fixpoint readUvarint (n i : nat) (x : Z) : reader Z := fun r =>
  match n with
  | O => (Err ErrVarintOverflow, r)
  | S n =>
      match ReadUint8 r with
      | (Err e, r) => (Err e, r)
      | (Ok b, r) =>
          if (b <? 128)%Z then
            if (i =? MaxVarintLen64 - 1) && (1 <? b)%Z then (Err ErrVarintOverflow, r)
            else (Ok (Z.lor x (u64 (Z.shiftl b (7 * Z.of_nat i)))), r)
          else readUvarint n (S i) (Z.lor x (u64 (Z.shiftl (Z.land b 127) (7 * Z.of_nat i)))) r
      end
  end.

Definition ReadUvarint : reader Z := readUvarint MaxVarintLen64 0 0.

(** Zig-zag coding of signed integers. *)
Definition WriteVarint (v : Z) : bytes :=
  let ux := u64 (Z.shiftl (u64 v) 1) in
  WriteUvarint (if (v <? 0)%Z then u64 (Z.lnot ux) else ux).

Definition ReadVarint : reader Z :=
  ux ← ReadUvarint;
  let x := i64 (Z.shiftr ux 1) in
  mret (if negb (Z.land ux 1 =? 0)%Z then Z.lnot x else x).

Definition ReadBytes (n : nat) : reader bytes := ReadFull n.
Definition ReadBytesOfLength (l : nat) : reader bytes := ReadFull l.
Definition WriteBytes (v : bytes) : bytes := v.

(** [make] of a length that is not an [int] panics. *)
Definition ReadVarBytes (r : bytes) : go (result IOErr bytes * bytes) :=
  match ReadUvarint r with
  | (Err e, r) => Returns (Err e, r)
  | (Ok l, r) =>
      if (2 ^ 63 <=? l)%Z then Panics
      else Returns (ReadBytes (Z.to_nat l) r)
  end.

Definition WriteVarBytes (v : bytes) : bytes :=
  WriteUvarint (Z.of_nat (length v)) ++ WriteBytes v.

(** The concrete types [writeElement] has a fast path for. *)
Inductive elem :=
| ElInt32 (e : Z) | ElUint32 (e : Z) | ElInt64 (e : Z) | ElUint64 (e : Z) | ElBool (e : bool)
| ElCommand (e : bytes) | ElIP (e : bytes) | ElHash (e : bytes).

Definition writeElement (e : elem) : bytes :=
  match e with
  | ElInt32 e => binaryFreeList_PutUint32 (u32 e)
  | ElUint32 e => binaryFreeList_PutUint32 e
  | ElInt64 e => binaryFreeList_PutUint64 (u64 e)
  | ElUint64 e => binaryFreeList_PutUint64 e
  | ElBool e => binaryFreeList_PutUint8 (if e then 1 else 0)
  | ElCommand e | ElIP e | ElHash e => e
  end.

Definition WriteElements (elements : list elem) : bytes := concat (map writeElement elements).
(** ** Laws *)

Lemma ReadFull_app (b rest : bytes) : ReadFull (length b) (b ++ rest) = (Ok b, rest).
Proof.
  unfold ReadFull. rewrite length_app, (proj2 (Nat.leb_le _ _)) by lia.
  by rewrite take_app_length, drop_app_length.
Qed.

Lemma ReadFull_short n r : length r < n -> exists e, ReadFull n r = (Err e, []).
Proof. intros. unfold ReadFull. rewrite (proj2 (Nat.leb_gt _ _)) by lia. eauto. Qed.

Lemma ReadFull_le_bytes n v rest :
  (0 <= v < 256 ^ Z.of_nat n)%Z ->
  (buf ← ReadFull n; mret (le_value buf)) (le_bytes n v ++ rest) = (Ok v, rest).
Proof.
  intros Hv. pose proof (ReadFull_app (le_bytes n v) rest) as H. rewrite length_le_bytes in H.
  unfold mbind, reader_bind, rd_bind. rewrite H. unfold mret, reader_ret, rd_ret.
  by rewrite le_value_le_bytes_small.
Qed.

#[global] Instance wire_uint64 : Wire Z WriteUint64 ReadUint64 (fun v => 0 <= v < 2 ^ 64)%Z.
Proof. intros v rest Hv. by apply (ReadFull_le_bytes 8). Qed.

#[global] Instance wire_uint32 : Wire Z WriteUint32 ReadUint32 (fun v => 0 <= v < 2 ^ 32)%Z.
Proof. intros v rest Hv. by apply (ReadFull_le_bytes 4). Qed.

#[global] Instance wire_uint16 : Wire Z WriteUint16 ReadUint16 (fun v => 0 <= v < 2 ^ 16)%Z.
Proof. intros v rest Hv. by apply (ReadFull_le_bytes 2). Qed.

#[global] Instance wire_uint8 : Wire Z WriteUint8 ReadUint8 (fun v => 0 <= v < 2 ^ 8)%Z.
Proof. intros v rest Hv. by apply (ReadFull_le_bytes 1). Qed.

#[global] Instance wire_int64 : Wire Z WriteInt64 ReadInt64 (fun v => - 2 ^ 63 <= v < 2 ^ 63)%Z.
Proof.
  intros v rest Hv. unfold ReadInt64, WriteInt64, mbind at 1, reader_bind, rd_bind.
  pose proof (u64_range v). rewrite (ReadFull_le_bytes 8) by (simpl; lia).
  unfold mret, reader_ret, rd_ret. by rewrite i64_u64, i64_small.
Qed.

#[global] Instance wire_int32 : Wire Z WriteInt32 ReadInt32 (fun v => - 2 ^ 31 <= v < 2 ^ 31)%Z.
Proof.
  intros v rest Hv. unfold ReadInt32, WriteInt32, mbind at 1, reader_bind, rd_bind.
  pose proof (u32_range v). rewrite (ReadFull_le_bytes 4) by (simpl; lia).
  unfold mret, reader_ret, rd_ret. by rewrite i32_u32, i32_small.
Qed.

(** ** Variable-length integers *)

(** The continuation byte: top bit set, low seven bits kept. *)
Lemma cont_byte w :
  (0 <= w < 256)%Z ->
  (128 <= Z.lor w 128 < 256)%Z /\ Z.land (Z.lor w 128) 127 = (w mod 128)%Z.
Proof.
  intros Hw.
  pose proof (forall_byte (fun w => (128 <=? Z.lor w 128) && (Z.lor w 128 <? 256)
    && (Z.land (Z.lor w 128) 127 =? w mod 128))%Z eq_refl w Hw) as H.
  apply andb_true_iff in H as [[H1 H2]%andb_true_iff H3].
  apply Z.leb_le in H1. apply Z.ltb_lt in H2. apply Z.eqb_eq in H3. done.
Qed.

Lemma ReadUint8_cons b r : ReadUint8 (b :: r) = (Ok (b2z b), r).
Proof.
  unfold ReadUint8, binaryFreeList_Uint8, mbind, reader_bind, rd_bind.
  change (ReadFull 1 (b :: r)) with (ReadFull (length [b]) ([b] ++ r)). rewrite ReadFull_app.
  unfold mret, reader_ret, rd_ret. simpl. do 2 f_equal. lia.
Qed.

(** Reading continues a partially read number [x] with the remaining value [v]. *)
Lemma readUvarint_put n i x v rest :
  n + i = MaxVarintLen64 -> 0 < n -> (0 <= x < 2 ^ (7 * Z.of_nat i))%Z -> (0 <= v)%Z ->
  (v * 2 ^ (7 * Z.of_nat i) < 2 ^ 64)%Z ->
  readUvarint n i x (putUvarint n v ++ rest) = (Ok (x + v * 2 ^ (7 * Z.of_nat i))%Z, rest).
Proof.
  revert i x v. induction n as [|n IH]; intros i x v Hn Hpos Hx Hv Hb; [lia|].
  unfold MaxVarintLen64 in Hn. set (k := (7 * Z.of_nat i)%Z) in *.
  assert (0 <= k)%Z as Hk0 by (unfold k; lia).
  assert (0 < 2 ^ k)%Z by (apply Z.pow_pos_nonneg; lia).
  cbn [putUvarint readUvarint]. fold k. destruct (Z.leb_spec 128 v) as [Hc|Hc].
  - assert (i < 9) as Hi.
    { destruct (decide (i = 9)) as [->|]; [|lia]. subst k. simpl in Hb. lia. }
    pose proof (Z.mod_pos_bound v 256 ltac:(lia)) as Hm.
    destruct (cont_byte _ Hm) as [Hr Hl]. rewrite <- app_comm_cons, ReadUint8_cons.
    rewrite b2z_z2b_small by lia. rewrite (proj2 (Z.ltb_ge _ _)), Hl by lia.
    assert (v mod 256 mod 128 = v mod 128)%Z as ->.
    { rewrite (Z.mod_mod_divide v 256 128); [done|]. by exists 2%Z. }
    pose proof (Z.mod_pos_bound v 128 ltac:(lia)) as Hm'.
    pose proof (Z.div_mod v 128 ltac:(lia)) as Hdm.
    pose proof (Z.div_pos v 128 ltac:(lia) ltac:(lia)) as Hq.
    rewrite Z.shiftr_div_pow2 by lia. change (2 ^ 7)%Z with 128%Z.
    set (m := (v mod 128)%Z) in *. set (q := (v / 128)%Z) in *. set (p := (2 ^ k)%Z) in *.
    assert (0 <= m * p <= 127 * p)%Z as Hmp
      by (split; [apply Z.mul_nonneg_nonneg|apply Z.mul_le_mono_nonneg_r]; lia).
    assert (0 <= q * p)%Z as Hqp by (apply Z.mul_nonneg_nonneg; lia).
    assert (v * p = 128 * (q * p) + m * p)%Z as Hvp by (rewrite Hdm at 1; ring).
    rewrite u64_small, lor_shiftl by (rewrite ?Z.shiftl_mul_pow2 by lia; fold p; lia).
    assert (2 ^ (7 * Z.of_nat (S i)) = 128 * p)%Z as Hk.
    { replace (7 * Z.of_nat (S i))%Z with (7 + k)%Z by (unfold k; lia). rewrite Z.pow_add_r; lia. }
    fold p. rewrite IH; rewrite ?Hk; unfold MaxVarintLen64; try lia.
    do 2 f_equal. lia.
  - change ([z2b v] ++ rest) with (z2b v :: rest). rewrite ReadUint8_cons, b2z_z2b_small by lia.
    rewrite (proj2 (Z.ltb_lt _ _)) by lia.
    replace ((i =? MaxVarintLen64 - 1) && (1 <? v)%Z) with false.
    2: { symmetry. apply andb_false_iff. unfold MaxVarintLen64.
      destruct (Nat.eqb_spec i (10 - 1)) as [->|]; [right|by left].
      apply Z.ltb_ge. subst k. simpl in Hb. lia. }
    assert (0 <= v * 2 ^ k)%Z by (apply Z.mul_nonneg_nonneg; lia).
    by rewrite u64_small, lor_shiftl by (rewrite ?Z.shiftl_mul_pow2 by lia; lia).
Qed.

#[global] Instance wire_uvarint : Wire Z WriteUvarint ReadUvarint (fun v => 0 <= v < 2 ^ 64)%Z.
Proof.
  intros v rest Hv. unfold ReadUvarint, WriteUvarint.
  rewrite readUvarint_put; unfold MaxVarintLen64; simpl; try lia.
  do 2 f_equal. lia.
Qed.

(** Zig-zag coding. *)
Lemma zigzag_pos v : (0 <= v < 2 ^ 63)%Z -> u64 (Z.shiftl (u64 v) 1) = (2 * v)%Z.
Proof. intros. rewrite Z.shiftl_mul_pow2, u64_small, u64_small; rewrite ?u64_small; lia. Qed.

Lemma zigzag_neg v :
  (- 2 ^ 63 <= v < 0)%Z -> u64 (Z.lnot (u64 (Z.shiftl (u64 v) 1))) = (- 2 * v - 1)%Z.
Proof.
  intros Hv. assert (u64 v = v + 2 ^ 64)%Z as ->.
  { unfold u64. symmetry. apply (Z.mod_unique _ _ (-1)); lia. }
  rewrite Z.shiftl_mul_pow2 by lia. change (2 ^ 1)%Z with 2%Z.
  assert (u64 ((v + 2 ^ 64) * 2) = 2 ^ 64 + 2 * v)%Z as ->.
  { unfold u64. symmetry. apply (Z.mod_unique _ _ 1); lia. }
  unfold Z.lnot. unfold u64. symmetry. apply (Z.mod_unique _ _ (-1)); lia.
Qed.

#[global] Instance wire_varint : Wire Z WriteVarint ReadVarint (fun v => - 2 ^ 63 <= v < 2 ^ 63)%Z.
Proof.
  intros v rest Hv. unfold ReadVarint, WriteVarint, mbind, reader_bind, rd_bind.
  destruct (Z.ltb_spec v 0).
  - rewrite zigzag_neg, (wire_law (Wire := wire_uvarint)) by lia. unfold mret, reader_ret, rd_ret.
    rewrite Z.shiftr_div_pow2 by lia. change (2 ^ 1)%Z with 2%Z.
    replace (- 2 * v - 1)%Z with (1 + (- v - 1) * 2)%Z by lia.
    rewrite Z.div_add, Z.add_0_l, i64_small by (simpl; lia).
    change 1%Z with (Z.ones 1) at 3. rewrite Z.land_ones by lia. change (2 ^ 1)%Z with 2%Z.
    rewrite Z.mod_add by lia. simpl. unfold Z.lnot. do 2 f_equal. lia.
  - rewrite zigzag_pos, (wire_law (Wire := wire_uvarint)) by lia. unfold mret, reader_ret, rd_ret.
    rewrite Z.shiftr_div_pow2 by lia. change (2 ^ 1)%Z with 2%Z.
    rewrite Z.mul_comm, Z.div_mul, i64_small by lia.
    change 1%Z with (Z.ones 1). rewrite Z.land_ones by lia. change (2 ^ 1)%Z with 2%Z.
    by rewrite Z.mod_mul by lia.
Qed.

Lemma ReadVarBytes_app (v rest : bytes) :
  (Z.of_nat (length v) < 2 ^ 63)%Z -> ReadVarBytes (WriteVarBytes v ++ rest) = Returns (Ok v, rest).
Proof.
  intros Hv. unfold ReadVarBytes, WriteVarBytes, WriteBytes. rewrite <- app_assoc.
  rewrite (wire_law (Wire := wire_uvarint)) by lia. rewrite (proj2 (Z.leb_gt _ _)) by lia.
  rewrite Nat2Z.id. unfold ReadBytes. by rewrite ReadFull_app.
Qed.

(** the variable-length encodings are self-delimiting and lossless on their whole
    range: an unsigned or signed 64-bit integer, and a byte string, is read back exactly
    and the reader is left at the first byte after it. *)
Theorem varint_roundtrip (u s : Z) (b rest : bytes) :
  (0 <= u < 2 ^ 64)%Z -> (- 2 ^ 63 <= s < 2 ^ 63)%Z -> (Z.of_nat (length b) < 2 ^ 63)%Z ->
  ReadUvarint (WriteUvarint u ++ rest) = (Ok u, rest) /\
  ReadVarint (WriteVarint s ++ rest) = (Ok s, rest) /\
  ReadVarBytes (WriteVarBytes b ++ rest) = Returns (Ok b, rest).
Proof.
  intros Hu Hs Hb. split_and!.
  - by apply (wire_law (Wire := wire_uvarint)).
  - by apply (wire_law (Wire := wire_varint)).
  - by apply ReadVarBytes_app.
Qed.

Lemma varint_roundtrip_witness :
  ReadUvarint (WriteUvarint 300 ++ [x07]) = (Ok 300%Z, [x07]) /\
  ReadVarint (WriteVarint (-65) ++ [x07]) = (Ok (-65)%Z, [x07]) /\
  ReadVarBytes (WriteVarBytes [x01; x02] ++ [x07]) = Returns (Ok [x01; x02], [x07]).
Proof. apply (varint_roundtrip 300 (-65) [x01; x02] [x07]); simpl; lia. Defined.

(** ** Bit indexes *)

Lemma land_pow2_testbit a k : (0 <= k)%Z -> negb (Z.land a (Z.shiftl 1 k) =? 0)%Z = Z.testbit a k.
Proof.
  intros Hk. rewrite Z.shiftl_1_l. destruct (Z.testbit a k) eqn:E.
  - apply negb_true_iff, Z.eqb_neq. intros Hz. apply (f_equal (fun z => Z.testbit z k)) in Hz.
    rewrite Z.land_spec, E, Z.pow2_bits_true, Z.bits_0 in Hz by lia. done.
  - apply negb_false_iff, Z.eqb_eq. apply Z.bits_inj'. intros n Hn.
    rewrite Z.land_spec, Z.bits_0. destruct (decide (n = k)) as [->|]; [by rewrite E|].
    rewrite Z.pow2_bits_false by lia. apply andb_false_r.
Qed.

Lemma bit_marked_testbit data i :
  bit_marked data i = Z.testbit (b2z (default x00 (data !! (i / 8)))) (7 - Z.of_nat (i mod 8)).
Proof.
  unfold bit_marked. apply land_pow2_testbit. pose proof (Nat.mod_upper_bound i 8). lia.
Qed.

Lemma elem_of_BitIndexes data i :
  i ∈ BitIndexes data <-> i < length data * 8 /\ bit_marked data i = true.
Proof.
  unfold BitIndexes. rewrite list_elem_of_filter, elem_of_seq. intuition lia.
Qed.

End Bytes.
