(* ===== verification/Bloom.v ===== *)
(** * Bloom: murmur3 and the bloom filter (src/util/murmur3, src/util/bloom/filter.go)

    The filter is the byte array with the number of hash functions and the tweak.  The
    bit offset of a hash is taken modulo the number of bits, so an empty array is a
    division by zero.  The false-positive rate and the sizing from it are floating-point
    code and are not modelled; the mutex is not either: operations are atomic. *)

From S2P Require Import Prelude Bytes.
Module Murmur3.

Definition c1 : Z := 3432918353.
Definition c2 : Z := 461845907.

Definition rotl (x r : Z) : Z := Z.lor (u32 (Z.shiftl x r)) (Z.shiftr x (32 - r)).

(** The scrambling of a block, shared by the body and the tail. *)
Definition mix (k : Z) : Z := u32 (rotl (u32 (k * c1)) 15 * c2).

(** The body of the block loop. *)
Definition step (hash k : Z) : Z :=
  let hash := rotl (Z.lxor hash (mix k)) 13 in
  u32 (u32 (Z.shiftl hash 2) + hash + 3864292196).

Fixpoint blocks (n : nat) (data : bytes) (hash : Z) : Z :=
  match n with
  | O => hash
  | S n => blocks n (drop 4 data) (step hash (le_value (take 4 data)))
  end.

(** The [switch] on the length of the tail: its bytes, little endian. *)
Definition tail_hash (tail : bytes) (hash : Z) : Z :=
  let at_ (i : nat) := b2z (default x00 (tail !! i)) in
  match (length tail mod 4)%nat with
  | 3%nat => Z.lxor hash (mix (Z.lxor (Z.lxor (Z.shiftl (at_ 2) 16) (Z.shiftl (at_ 1) 8)) (at_ 0)))
  | 2%nat => Z.lxor hash (mix (Z.lxor (Z.shiftl (at_ 1) 8) (at_ 0)))
  | 1%nat => Z.lxor hash (mix (at_ 0))
  | _ => hash
  end.

Definition finish (hash : Z) : Z :=
  let hash := Z.lxor hash (Z.shiftr hash 16) in
  let hash := u32 (hash * 2246822507) in
  let hash := Z.lxor hash (Z.shiftr hash 13) in
  let hash := u32 (hash * 3266489909) in
  Z.lxor hash (Z.shiftr hash 16).

Definition MurmurHash3WithSeed (data : bytes) (seed : Z) : Z :=
  let nlen := u32 (Z.of_nat (length data)) in
  let nblocks := Z.to_nat (nlen / 4) in
  let hash := blocks nblocks data seed in
  let hash := tail_hash (drop (nblocks * 4) data) hash in
  finish (Z.lxor hash nlen).

Definition MurmurHash3 (data : bytes) : Z := MurmurHash3WithSeed data 0.

(** The published test vectors. *)
Lemma vectors :
  let h seed s := MurmurHash3WithSeed (String.list_byte_of_string s) seed in
  (h 0 "" = 0 /\ h 0 "hello" = 613153351 /\ h 0 "hello, world" = 345750399 /\
   h 1 "" = 1364076727 /\ h 1 "hello" = 3142237357 /\
   h 0 "19 Jan 2038 at 3:14:07 AM" = 3810429552 /\
   h 42 "The quick brown fox jumps over the lazy dog." = 3224179764)%Z.
Proof. vm_compute. done. Qed.

(** Bitwise operations keep 32 bits. *)
Lemma u32_bits x : (0 <= x)%Z -> (forall n, (32 <= n)%Z -> Z.testbit x n = false) -> (0 <= x < 2 ^ 32)%Z.
Proof.
  intros Hx Hb. split; [done|]. apply Z.nle_gt. intros Hge.
  pose proof (Z.bit_log2 x ltac:(lia)) as Ht.
  rewrite Hb in Ht; [done|]. apply Z.log2_le_pow2; lia.
Qed.

Lemma lxor_range x y : (0 <= x < 2 ^ 32)%Z -> (0 <= y < 2 ^ 32)%Z -> (0 <= Z.lxor x y < 2 ^ 32)%Z.
Proof.
  intros Hx Hy. apply u32_bits; [by apply Z.lxor_nonneg; lia|].
  intros n Hn. by rewrite Z.lxor_spec, !(testbit_small _ 32) by lia.
Qed.

Lemma shiftr_range x k : (0 <= x < 2 ^ 32)%Z -> (0 <= k)%Z -> (0 <= Z.shiftr x k < 2 ^ 32)%Z.
Proof.
  intros Hx Hk. apply u32_bits; [by apply Z.shiftr_nonneg; lia|].
  intros n Hn. rewrite Z.shiftr_spec by lia. apply (testbit_small _ 32); lia.
Qed.

Lemma MurmurHash3_range data seed : (0 <= MurmurHash3WithSeed data seed < 2 ^ 32)%Z.
Proof.
  unfold MurmurHash3WithSeed, finish.
  apply lxor_range; [apply u32_range|]. apply shiftr_range; [apply u32_range|lia].
Qed.

End Murmur3.

(** ** The filter *)

Record filter_t := mkFilter {
  f_filter : bytes;
  f_hashFuncs : Z;
  f_tweak : Z
}.

Module Bloom.

Definition MaxFilterHashFuncs : Z := 256.
Definition MaxFilterSize : Z := 32 * 1024 * 1024.

Inductive BloomErr := ErrHashFuncsMismatch | ErrSizeMismatch | ErrSeedMismatch | ErrIO (e : IOErr).

Definition newFilter (m k tweak : Z) : filter_t :=
  let m := if (m <=? 0)%Z then 1%Z else m in
  let k := if (k <=? 0)%Z then 1%Z else k in
  let dataLen := ((m + 7) / 8)%Z in
  let dataLen := if (MaxFilterSize <? dataLen)%Z then MaxFilterSize else dataLen in
  let hashFuncs := if (MaxFilterHashFuncs <? k)%Z then MaxFilterHashFuncs else k in
  mkFilter (replicate (Z.to_nat dataLen) x00) hashFuncs tweak.

Definition NewFilterWithMK (m k : Z) : filter_t := newFilter m k 0.
Definition NewFilterWithMKAndTweak (m k tweak : Z) : filter_t := newFilter m k tweak.

(** [hash]: the bit offset of the given hash function; panics on an empty filter. *)
Definition hash (bf : filter_t) (hashFuncNum : Z) (data : bytes) : go Z :=
  let h32 := Murmur3.MurmurHash3WithSeed data (u32 (hashFuncNum * 4221880213 + f_tweak bf)) in
  let size := u32 (Z.shiftl (u32 (Z.of_nat (length (f_filter bf)))) 3) in
  if (size =? 0)%Z then Panics else Returns (h32 mod size)%Z.

(** [bf.filter[idx>>3] & (1<<(idx&7)) != 0], and the corresponding update; an index out
    of range panics. *)
Definition bit_set (f : bytes) (idx : Z) : go bool :=
  match f !! Z.to_nat (Z.shiftr idx 3) with
  | None => Panics
  | Some b => Returns (negb (Z.land (b2z b) (Z.shiftl 1 (Z.land idx 7)) =? 0)%Z)
  end.

Definition set_bit (f : bytes) (idx : Z) : go bytes :=
  match f !! Z.to_nat (Z.shiftr idx 3) with
  | None => Panics
  | Some b =>
      Returns (<[Z.to_nat (Z.shiftr idx 3) := z2b (Z.lor (b2z b) (Z.shiftl 1 (Z.land 7 idx)))]> f)
  end.

Definition with_filter (bf : filter_t) (f : bytes) : filter_t :=
  mkFilter f (f_hashFuncs bf) (f_tweak bf).

(** The loops [for i := 0; i < hashFuncs; i++], [n] iterations left. *)
Fixpoint matchesLoop (n : nat) (i : Z) (bf : filter_t) (data : bytes) : go bool :=
  match n with
  | O => Returns true
  | S n =>
      idx ← hash bf i data;
      b ← bit_set (f_filter bf) idx;
      if negb b then Returns false else matchesLoop n (i + 1) bf data
  end.

Definition Matches (bf : filter_t) (data : bytes) : go bool :=
  matchesLoop (Z.to_nat (f_hashFuncs bf)) 0 bf data.

Fixpoint addLoop (n : nat) (i : Z) (bf : filter_t) (data : bytes) : go filter_t :=
  match n with
  | O => Returns bf
  | S n =>
      idx ← hash bf i data;
      f ← set_bit (f_filter bf) idx;
      addLoop n (i + 1) (with_filter bf f) data
  end.

Definition Add (bf : filter_t) (data : bytes) : go filter_t :=
  addLoop (Z.to_nat (f_hashFuncs bf)) 0 bf data.

Fixpoint matchesAndAddLoop (n : nat) (i : Z) (bf : filter_t) (data : bytes) (r : bool) :
    go (filter_t * bool) :=
  match n with
  | O => Returns (bf, r)
  | S n =>
      idx ← hash bf i data;
      b ← bit_set (f_filter bf) idx;
      if negb b then
        f ← set_bit (f_filter bf) idx;
        matchesAndAddLoop n (i + 1) (with_filter bf f) data false
      else matchesAndAddLoop n (i + 1) bf data r
  end.

Definition MatchesAndAdd (bf : filter_t) (data : bytes) : go (filter_t * bool) :=
  matchesAndAddLoop (Z.to_nat (f_hashFuncs bf)) 0 bf data true.

(** [Merge]; the filters are compared before anything is written. *)
Definition Merge (bf rf : filter_t) : result BloomErr filter_t :=
  if negb (f_hashFuncs bf =? f_hashFuncs rf)%Z then Err ErrHashFuncsMismatch
  else if negb (length (f_filter bf) =? length (f_filter rf)) then Err ErrSizeMismatch
  else if negb (f_tweak bf =? f_tweak rf)%Z then Err ErrSeedMismatch
  else Ok (with_filter bf (zip_with (fun x y => z2b (Z.lor (b2z x) (b2z y))) (f_filter bf) (f_filter rf))).

Definition Reset (bf : filter_t) : filter_t :=
  with_filter bf (replicate (length (f_filter bf)) x00).

Definition Size (bf : filter_t) : Z := u32 (Z.shiftl (u32 (Z.of_nat (length (f_filter bf)))) 3).

(** [Copy] assigns to its receiver variable and merges into the new filter: the caller's
    filter is the first component, the error the second. *)
Definition Copy (bf f : filter_t) : filter_t * option BloomErr :=
  let fresh := NewFilterWithMK (Size f) (f_hashFuncs f) in
  (bf, match Merge fresh f with Ok _ => None | Err e => Some e end).

Definition GetByte (bf : filter_t) (i : nat) : go byte :=
  match f_filter bf !! i with Some b => Returns b | None => Panics end.

Definition byte_bits (b : byte) : nat :=
  length (filter (fun idx => negb (Z.land (b2z b) (Z.shiftl 1 (Z.of_nat idx)) =? 0)%Z = true) (seq 0 8)).

Definition bitsFilled (bf : filter_t) : nat := foldl (fun bits b => bits + byte_bits b) 0 (f_filter bf).

Definition Marshal (bf : filter_t) : bytes :=
  Bytes.WriteUint32 (f_hashFuncs bf) ++ Bytes.WriteUint32 (f_tweak bf) ++ Bytes.WriteVarBytes (f_filter bf).

(** [LoadFilter]. *)
Definition Unmarshal (data : bytes) : go (result BloomErr filter_t) :=
  match Bytes.ReadUint32 data with
  | (Err e, _) => Returns (Err (ErrIO e))
  | (Ok hashFuncs, r) =>
  match Bytes.ReadUint32 r with
  | (Err e, _) => Returns (Err (ErrIO e))
  | (Ok tweak, r) =>
      '(res, _) ← Bytes.ReadVarBytes r;
      Returns (match res with
               | Err e => Err (ErrIO e)
               | Ok f => Ok (mkFilter f hashFuncs tweak)
               end)
  end end.

Definition Indexes (bf : filter_t) : list nat := Bytes.BitIndexes (f_filter bf).

Definition IsEmpty (bf : filter_t) : bool := forallb (fun b => Byte.eqb b x00) (f_filter bf).

End Bloom.

(** * The filter as a set of bits

    Specification of the operations over the set of marked bit positions, and what
    follows: no false negatives, test-and-add, union by merging, the wire format. *)

Import Bloom.

(** A filter with bits, few enough that their number fits 32 bits. *)
Definition wf (bf : filter_t) : Prop :=
  0 < length (f_filter bf) /\ (Z.of_nat (length (f_filter bf)) < 2 ^ 29)%Z.

Definition nbits (f : bytes) : Z := 8 * Z.of_nat (length f).

(** Bit [j] of the array, least significant bit of a byte first. *)
Definition bitv (f : bytes) (j : Z) : bool :=
  match f !! Z.to_nat (Z.shiftr j 3) with
  | None => false
  | Some b => Z.testbit (b2z b) (Z.land j 7)
  end.

(** The positions an element marks. *)
Definition position (bf : filter_t) (data : bytes) (i : Z) : Z :=
  (Murmur3.MurmurHash3WithSeed data (u32 (i * 4221880213 + f_tweak bf)) mod nbits (f_filter bf))%Z.

Definition positions (bf : filter_t) (data : bytes) (n : nat) (i : Z) : list Z :=
  map (fun k => position bf data (i + Z.of_nat k)) (seq 0 n).

Lemma positions_S bf data n i :
  positions bf data (S n) i = position bf data i :: positions bf data n (i + 1).
Proof.
  unfold positions. simpl. rewrite Z.add_0_r. f_equal.
  rewrite <- seq_shift, map_map. apply map_ext. intros k. f_equal. lia.
Qed.

(** ** Single bits *)

Lemma idx_split j : (0 <= j)%Z -> (j = 8 * Z.shiftr j 3 + Z.land j 7 /\ 0 <= Z.land j 7 < 8)%Z.
Proof.
  intros Hj. rewrite Z.shiftr_div_pow2 by lia. change 7%Z with (Z.ones 3).
  rewrite Z.land_ones by lia. change (2 ^ 3)%Z with 8%Z.
  pose proof (Z.div_mod j 8 ltac:(lia)). pose proof (Z.mod_pos_bound j 8 ltac:(lia)). lia.
Qed.

Lemma idx_lookup (f : bytes) j :
  (0 <= j < nbits f)%Z -> is_Some (f !! Z.to_nat (Z.shiftr j 3)).
Proof.
  intros Hj. apply lookup_lt_is_Some. pose proof (idx_split j). unfold nbits in Hj. lia.
Qed.

Lemma hash_position bf i data :
  wf bf -> hash bf i data = Returns (position bf data i) /\
    (0 <= position bf data i < nbits (f_filter bf))%Z.
Proof.
  intros [Hpos Hlt]. unfold hash, position, nbits.
  rewrite (u32_small (Z.of_nat _)), Z.shiftl_mul_pow2 by lia.
  change (2 ^ 3)%Z with 8%Z. rewrite (Z.mul_comm _ 8), (u32_small (8 * _)) by lia.
  rewrite (proj2 (Z.eqb_neq _ _)) by lia. split; [done|]. apply Z.mod_pos_bound. lia.
Qed.

Lemma bit_set_bitv f j : (0 <= j < nbits f)%Z -> bit_set f j = Returns (bitv f j).
Proof.
  intros Hj. destruct (idx_lookup f j Hj) as [b Hb]. unfold bit_set, bitv. rewrite Hb.
  rewrite Bytes.land_pow2_testbit; [done|]. pose proof (idx_split j). lia.
Qed.

(** Setting a bit of a byte. *)
Lemma testbit_set_byte (b : byte) k j :
  (0 <= k < 8)%Z -> (0 <= j < 8)%Z ->
  Z.testbit (b2z (z2b (Z.lor (b2z b) (Z.shiftl 1 k)))) j = Z.testbit (b2z b) j || (j =? k)%Z.
Proof.
  intros Hk Hj. rewrite b2z_z2b. change 256%Z with (2 ^ 8)%Z.
  rewrite Z.mod_pow2_bits_low, Z.lor_spec, Z.shiftl_1_l by lia. f_equal.
  destruct (Z.eqb_spec j k) as [->|]; [by apply Z.pow2_bits_true; lia|].
  apply Z.pow2_bits_false. lia.
Qed.

Lemma set_bit_bitv f j :
  (0 <= j < nbits f)%Z ->
  exists f', set_bit f j = Returns f' /\ length f' = length f /\
    forall i, (0 <= i)%Z -> bitv f' i = bitv f i || (i =? j)%Z.
Proof.
  intros Hj. destruct (idx_lookup f j Hj) as [b Hb]. unfold set_bit. rewrite Hb.
  eexists. split; [done|]. split; [apply length_insert|]. intros i Hi. unfold bitv.
  pose proof (idx_split i Hi) as [Ei Hi7]. pose proof (idx_split j ltac:(lia)) as [Ej Hj7].
  destruct (decide (Z.shiftr i 3 = Z.shiftr j 3)) as [E|E].
  - rewrite E, list_lookup_insert_eq by (by eapply lookup_lt_Some). rewrite Hb.
    rewrite (Z.land_comm 7 j), testbit_set_byte by lia. f_equal.
    destruct (Z.eqb_spec (Z.land i 7) (Z.land j 7)), (Z.eqb_spec i j); lia.
  - assert (0 <= Z.shiftr i 3)%Z by (apply Z.shiftr_nonneg; lia).
    assert (0 <= Z.shiftr j 3)%Z by (apply Z.shiftr_nonneg; lia).
    rewrite list_lookup_insert_ne by lia. destruct (Z.eqb_spec i j) as [->|]; [done|].
    by rewrite orb_false_r.
Qed.

Lemma byte_ext (x y : byte) :
  (forall k, (0 <= k < 8)%Z -> Z.testbit (b2z x) k = Z.testbit (b2z y) k) -> x = y.
Proof.
  intros H. rewrite <- (z2b_b2z x), <- (z2b_b2z y). f_equal. apply Z.bits_inj'. intros n Hn.
  destruct (Z.ltb_spec n 8); [apply H; lia|].
  pose proof (b2z_range x). pose proof (b2z_range y).
  by rewrite !(testbit_small _ 8) by (simpl; lia).
Qed.

(** A set bit stays as it is. *)
Lemma set_bit_same f j : (0 <= j < nbits f)%Z -> bitv f j = true -> set_bit f j = Returns f.
Proof.
  intros Hj Hb. destruct (idx_lookup f j Hj) as [b Eb]. unfold bitv in Hb. rewrite Eb in Hb.
  unfold set_bit. rewrite Eb. f_equal. apply list_insert_id. rewrite Eb. f_equal.
  pose proof (idx_split j ltac:(lia)) as [_ Hj7].
  apply byte_ext. intros k Hk. rewrite (Z.land_comm 7 j), testbit_set_byte by lia.
  destruct (Z.eqb_spec k (Z.land j 7)) as [->|]; [by rewrite Hb|by rewrite orb_false_r].
Qed.

(** ** The loops *)

Lemma wf_with_filter bf f : wf bf -> length f = length (f_filter bf) -> wf (with_filter bf f).
Proof. unfold wf. simpl. by intros ? ->. Qed.

Lemma position_with_filter bf f data i :
  length f = length (f_filter bf) -> position (with_filter bf f) data i = position bf data i.
Proof. intros H. unfold position, nbits. simpl. by rewrite H. Qed.

Lemma positions_with_filter bf f data n i :
  length f = length (f_filter bf) -> positions (with_filter bf f) data n i = positions bf data n i.
Proof. intros H. apply map_ext. intros k. by apply position_with_filter. Qed.

Lemma matchesLoop_spec n i bf data :
  wf bf -> matchesLoop n i bf data = Returns (forallb (bitv (f_filter bf)) (positions bf data n i)).
Proof.
  intros Hwf. revert i. induction n as [|n IH]; intros i; [done|]. cbn [matchesLoop].
  destruct (hash_position bf i data Hwf) as [-> Hp]. cbn [mbind go_bind].
  rewrite bit_set_bitv, positions_S by done. cbn [mbind go_bind forallb].
  destruct (bitv _ _); [|done]. apply IH.
Qed.

Lemma addLoop_spec n i bf data :
  wf bf -> exists f, addLoop n i bf data = Returns (with_filter bf f) /\
    length f = length (f_filter bf) /\
    forall j, (0 <= j)%Z -> bitv f j = bitv (f_filter bf) j || existsb (Z.eqb j) (positions bf data n i).
Proof.
  revert i bf. induction n as [|n IH]; intros i bf Hwf.
  - exists (f_filter bf). split; [by destruct bf|]. split; [done|]. intros j Hj. by rewrite orb_false_r.
  - cbn [addLoop]. destruct (hash_position bf i data Hwf) as [-> Hp]. cbn [mbind go_bind].
    destruct (set_bit_bitv _ _ Hp) as (f1 & -> & Hl1 & Hb1). cbn [mbind go_bind].
    destruct (IH (i + 1)%Z (with_filter bf f1)) as (f & E & Hl & Hb); [by apply wf_with_filter|].
    exists f. rewrite E. simpl in Hl. split; [done|]. split; [by rewrite Hl|].
    intros j Hj. rewrite Hb, positions_with_filter, positions_S by done. simpl.
    by rewrite Hb1, <- orb_assoc.
Qed.

(** Testing and adding in one pass is testing, then adding. *)
Lemma matchesAndAddLoop_spec n i bf data r :
  wf bf -> exists bf', addLoop n i bf data = Returns bf' /\
    matchesAndAddLoop n i bf data r =
      Returns (bf', r && forallb (bitv (f_filter bf)) (positions bf data n i)).
Proof.
  revert i bf r. induction n as [|n IH]; intros i bf r Hwf; cbn [addLoop matchesAndAddLoop].
  - eexists. split; [done|]. by rewrite andb_true_r.
  - destruct (hash_position bf i data Hwf) as [-> Hp]. cbn [mbind go_bind].
    rewrite bit_set_bitv, positions_S by done. cbn [mbind go_bind forallb].
    destruct (bitv (f_filter bf) (position bf data i)) eqn:Eb; simpl negb; cbv iota.
    + rewrite set_bit_same by done. cbn [mbind go_bind].
      replace (with_filter bf (f_filter bf)) with bf by by destruct bf. by apply IH.
    + destruct (set_bit_bitv _ _ Hp) as (f1 & -> & Hl1 & Hb1). cbn [mbind go_bind].
      destruct (IH (i + 1)%Z (with_filter bf f1) false) as (bf' & E1 & E2); [by apply wf_with_filter|].
      exists bf'. rewrite E1, E2. split; [done|]. by rewrite andb_false_r.
Qed.

(** ** Promises *)

Lemma Matches_spec bf data :
  wf bf -> Matches bf data =
    Returns (forallb (bitv (f_filter bf)) (positions bf data (Z.to_nat (f_hashFuncs bf)) 0)).
Proof. apply matchesLoop_spec. Qed.

(** [bf'] has all the bits of [bf], and the same parameters. *)
Definition extends (bf bf' : filter_t) : Prop :=
  length (f_filter bf') = length (f_filter bf) /\ f_hashFuncs bf' = f_hashFuncs bf /\
  f_tweak bf' = f_tweak bf /\
  forall j, (0 <= j)%Z -> bitv (f_filter bf) j = true -> bitv (f_filter bf') j = true.

#[global] Instance extends_preorder : PreOrder extends.
Proof.
  split; [by intros bf; repeat split|].
  intros a b c (L1 & H1 & T1 & B1) (L2 & H2 & T2 & B2). repeat split; [congruence..|]. eauto.
Qed.

Lemma extends_wf bf bf' : extends bf bf' -> wf bf -> wf bf'.
Proof. unfold wf. by intros (-> & _). Qed.

Lemma positions_range bf data n i j :
  wf bf -> j ∈ positions bf data n i -> (0 <= j)%Z.
Proof.
  intros Hwf Hj. unfold positions in Hj. apply list_elem_of_fmap in Hj as (k & -> & _).
  by destruct (hash_position bf (i + Z.of_nat k) data Hwf) as [_ [? _]].
Qed.

Lemma extends_positions bf bf' data n i :
  extends bf bf' -> positions bf' data n i = positions bf data n i.
Proof.
  intros (L & _ & T & _). apply map_ext. intros k. unfold position, nbits. by rewrite L, T.
Qed.

Lemma forallb_bitv f l : forallb (bitv f) l = true <-> forall j, j ∈ l -> bitv f j = true.
Proof. rewrite forallb_forall. by setoid_rewrite list_elem_of_In. Qed.

(** Everything that matched still matches with more bits. *)
Lemma Matches_extends bf bf' data :
  wf bf -> extends bf bf' -> Matches bf data = Returns true -> Matches bf' data = Returns true.
Proof.
  intros Hwf Hext. rewrite !Matches_spec by eauto using extends_wf.
  rewrite (extends_positions _ _ _ _ _ Hext). destruct Hext as (_ & -> & _ & Hb).
  intros [= H]. f_equal. rewrite forallb_bitv in *. eauto using positions_range.
Qed.

Lemma Add_extends bf data :
  wf bf -> exists bf', Add bf data = Returns bf' /\ extends bf bf' /\ Matches bf' data = Returns true.
Proof.
  intros Hwf. destruct (addLoop_spec (Z.to_nat (f_hashFuncs bf)) 0 bf data Hwf) as (f & E & Hl & Hb).
  exists (with_filter bf f). split; [done|].
  assert (extends bf (with_filter bf f)) as Hext.
  { repeat split; simpl; [done|]. intros j Hj Hbj. by rewrite Hb, Hbj. }
  split; [done|]. rewrite Matches_spec by eauto using extends_wf. f_equal.
  rewrite (extends_positions _ _ _ _ _ Hext). apply forallb_bitv. intros j Hj. simpl in *.
  rewrite Hb by eauto using positions_range. apply orb_true_iff. right.
  apply existsb_exists. exists j. split; [by apply list_elem_of_In|apply Z.eqb_refl].
Qed.

(** Adding a sequence of elements. *)
Fixpoint addAll (bf : filter_t) (ds : list bytes) : go filter_t :=
  match ds with
  | [] => Returns bf
  | d :: ds => bf ← Add bf d; addAll bf ds
  end.

(** no false negatives: after any sequence of additions to a filter with at least
    one bit, every element added matches, and so does everything that matched before. *)
Theorem bloom_no_false_negatives (bf : filter_t) (ds : list bytes) :
  wf bf -> exists bf', addAll bf ds = Returns bf' /\
    (forall d, d ∈ ds -> Matches bf' d = Returns true) /\
    (forall d, Matches bf d = Returns true -> Matches bf' d = Returns true).
Proof.
  intros Hwf. enough (exists bf', addAll bf ds = Returns bf' /\ extends bf bf' /\
    forall d, d ∈ ds -> Matches bf' d = Returns true) as (bf' & E & Hext & Hd).
  { exists bf'. split; [done|]. split; [done|]. intros d. by apply Matches_extends. }
  revert bf Hwf. induction ds as [|d ds IH]; intros bf Hwf; simpl.
  - exists bf. split; [done|]. split; [done|]. intros d Hd. by apply not_elem_of_nil in Hd.
  - destruct (Add_extends bf d Hwf) as (bf1 & -> & Hext1 & Hm). cbn [mbind go_bind].
    pose proof (extends_wf _ _ Hext1 Hwf) as Hwf1.
    destruct (IH bf1 Hwf1) as (bf' & E & Hext & Hds).
    exists bf'. split; [done|]. split; [by transitivity bf1|].
    intros d' [->|Hd']%elem_of_cons; [|by apply Hds]. by apply (Matches_extends bf1).
Qed.

Lemma bloom_no_false_negatives_witness :
  exists bf', addAll (NewFilterWithMK 64 3) [[x01]; [x02; x03]] = Returns bf' /\
    (forall d, d ∈ [[x01]; [x02; x03]] -> Matches bf' d = Returns true) /\
    (forall d, Matches (NewFilterWithMK 64 3) d = Returns true -> Matches bf' d = Returns true).
Proof. apply (bloom_no_false_negatives (NewFilterWithMK 64 3)). split; vm_compute; [lia|done]. Defined.

(** [MatchesAndAdd] answers whether the element matched before and leaves the filter
    that [Add] leaves, bit for bit. *)
Theorem bloom_matches_and_add (bf : filter_t) (data : bytes) :
  wf bf -> exists bf' r, MatchesAndAdd bf data = Returns (bf', r) /\
    Matches bf data = Returns r /\ Add bf data = Returns bf'.
Proof.
  intros Hwf.
  destruct (matchesAndAddLoop_spec (Z.to_nat (f_hashFuncs bf)) 0 bf data true Hwf) as (bf' & E1 & E2).
  exists bf', (forallb (bitv (f_filter bf)) (positions bf data (Z.to_nat (f_hashFuncs bf)) 0)).
  split; [done|]. by rewrite Matches_spec.
Qed.

Lemma bloom_matches_and_add_witness :
  exists bf' r, MatchesAndAdd (NewFilterWithMK 64 3) [x01] = Returns (bf', r) /\
    Matches (NewFilterWithMK 64 3) [x01] = Returns r /\ Add (NewFilterWithMK 64 3) [x01] = Returns bf'.
Proof. apply (bloom_matches_and_add (NewFilterWithMK 64 3)). split; vm_compute; [lia|done]. Defined.

Lemma bitv_zip_or (a b : bytes) j :
  (0 <= j)%Z -> length a = length b ->
  bitv (zip_with (fun x y => z2b (Z.lor (b2z x) (b2z y))) a b) j = bitv a j || bitv b j.
Proof.
  intros Hj Hl. unfold bitv. rewrite lookup_zip_with.
  destruct (a !! _) as [x|] eqn:Ea; simpl.
  - destruct (lookup_lt_is_Some_2 b (Z.to_nat (Z.shiftr j 3))) as [y Hy].
    { rewrite <- Hl. by eapply lookup_lt_Some. }
    rewrite Hy. simpl. pose proof (idx_split j Hj) as [_ H7]. rewrite b2z_z2b. change 256%Z with (2 ^ 8)%Z.
    by rewrite Z.mod_pow2_bits_low, Z.lor_spec by lia.
  - rewrite (lookup_ge_None_2 b); [done|]. rewrite <- Hl. by apply lookup_ge_None.
Qed.

(** merging is refused unless both filters have the same size, hash functions and
    tweak; a successful merge has exactly the union of the bits, so it matches whatever
    either filter matched. *)
Theorem bloom_merge (a b : filter_t) :
  wf a ->
  match Merge a b with
  | Ok c =>
      (forall j, (0 <= j)%Z -> bitv (f_filter c) j = bitv (f_filter a) j || bitv (f_filter b) j) /\
      (forall d, Matches a d = Returns true \/ Matches b d = Returns true -> Matches c d = Returns true)
  | Err _ =>
      f_hashFuncs a <> f_hashFuncs b \/ length (f_filter a) <> length (f_filter b) \/
      f_tweak a <> f_tweak b
  end.
Proof.
  intros Hwf. unfold Merge.
  destruct (Z.eqb_spec (f_hashFuncs a) (f_hashFuncs b)) as [Hh|]; simpl; [|by left].
  destruct (Nat.eqb_spec (length (f_filter a)) (length (f_filter b))) as [Hl|]; simpl; [|by right; left].
  destruct (Z.eqb_spec (f_tweak a) (f_tweak b)) as [Ht|]; simpl; [|by right; right].
  assert (forall j, (0 <= j)%Z -> bitv (zip_with (fun x y => z2b (Z.lor (b2z x) (b2z y)))
    (f_filter a) (f_filter b)) j = bitv (f_filter a) j || bitv (f_filter b) j) as Hb.
  { intros. by apply bitv_zip_or. }
  assert (wf b) as Hwfb by (unfold wf in *; by rewrite <- Hl).
  split; [done|]. intros d [Hm|Hm].
  - apply (Matches_extends a); [done| |done]. repeat split; simpl; [rewrite length_zip_with; lia|].
    intros j Hj Ha. by rewrite Hb, Ha.
  - apply (Matches_extends b); [done| |done].
    repeat split; simpl; [rewrite length_zip_with; lia|done|done|].
    intros j Hj Ha. by rewrite Hb, Ha, orb_true_r.
Qed.

Lemma bloom_merge_witness :
  let a := NewFilterWithMK 16 3 in
  let b := mkFilter [x01; x80] 3 0 in
  match Merge a b with
  | Ok c =>
      (forall j, (0 <= j)%Z -> bitv (f_filter c) j = bitv (f_filter a) j || bitv (f_filter b) j) /\
      (forall d, Matches a d = Returns true \/ Matches b d = Returns true -> Matches c d = Returns true)
  | Err _ =>
      f_hashFuncs a <> f_hashFuncs b \/ length (f_filter a) <> length (f_filter b) \/
      f_tweak a <> f_tweak b
  end.
Proof. intros a b. apply (bloom_merge a b). split; vm_compute; [lia|done]. Defined.

(** a filter written to the wire is read back unchanged. *)
Theorem bloom_roundtrip (bf : filter_t) :
  (0 <= f_hashFuncs bf < 2 ^ 32)%Z -> (0 <= f_tweak bf < 2 ^ 32)%Z ->
  (Z.of_nat (length (f_filter bf)) < 2 ^ 63)%Z ->
  Unmarshal (Marshal bf) = Returns (Ok bf).
Proof.
  intros Hk Ht Hl. unfold Unmarshal, Marshal.
  rewrite (wire_law (Wire := Bytes.wire_uint32)) by done.
  rewrite (wire_law (Wire := Bytes.wire_uint32)) by done.
  rewrite <- (app_nil_r (Bytes.WriteVarBytes _)), Bytes.ReadVarBytes_app by done. by destruct bf.
Qed.

Lemma bloom_roundtrip_witness :
  Unmarshal (Marshal (mkFilter [x01; xff] 3 9)) = Returns (Ok (mkFilter [x01; xff] 3 9)).
Proof. apply (bloom_roundtrip (mkFilter [x01; xff] 3 9)); simpl; lia. Defined.

(** [Copy] never changes the filter it is called on: whatever the source, the
    receiver keeps its bits, and the only effect is an error when the source has a
    tweak. *)
Theorem bloom_copy_no_effect (bf f : filter_t) :
  (Copy bf f).1 = bf /\ (f_tweak f <> 0%Z -> (Copy bf f).2 <> None).
Proof.
  split; [done|]. intros Ht. unfold Copy, Merge.
  change (f_tweak (NewFilterWithMK _ _)) with 0%Z.
  destruct (Z.eqb_spec 0 (f_tweak f)); [lia|]. by repeat case_match.
Qed.

(** a serialized filter without bits is accepted, and the first query on it divides
    by zero. *)
Theorem bloom_load_empty_panics (hashFuncs tweak : Z) (data : bytes) :
  (0 < hashFuncs < 2 ^ 32)%Z -> (0 <= tweak < 2 ^ 32)%Z ->
  exists bf, Unmarshal (Bytes.WriteUint32 hashFuncs ++ Bytes.WriteUint32 tweak ++ Bytes.WriteVarBytes [])
               = Returns (Ok bf) /\ Matches bf data = Panics.
Proof.
  intros Hk Ht. exists (mkFilter [] hashFuncs tweak). split.
  - unfold Unmarshal. rewrite (wire_law (Wire := Bytes.wire_uint32)) by lia.
    rewrite (wire_law (Wire := Bytes.wire_uint32)) by lia.
    by rewrite <- (app_nil_r (Bytes.WriteVarBytes _)), Bytes.ReadVarBytes_app by done.
  - unfold Matches. simpl. destruct (Z.to_nat hashFuncs) eqn:E; [lia|]. done.
Qed.

Lemma bloom_load_empty_panics_witness :
  exists bf, Unmarshal (Bytes.WriteUint32 3 ++ Bytes.WriteUint32 0 ++ Bytes.WriteVarBytes [])
               = Returns (Ok bf) /\ Matches bf [x01] = Panics.
Proof. apply (bloom_load_empty_panics 3 0 [x01]); lia. Defined.
