(* ===== verification/TxLogic.v ===== *)
(** * TxLogic: transaction kinds and amounts (src/core/txlogic/tx_utils.go, and the
    coinbase tests, fees and sizes of src/core/chain/common.go and src/core/types)

    The state database is only asked whether an address is a contract: the argument
    [statedb] is that test, [None] for a nil database.  [ParseTxType] stores its answer in
    the transaction, so the functions that call it return the transaction too. *)

From S2P Require Import Prelude Opcode Crypto Types Script ScriptKinds ScriptKindsFacts ScriptAddress.
Import Kinds.

(** [uint64(math.Pow10(d))]: the power of ten while it fits; beyond, what the conversion
    gives depends on the machine. *)
Class Pow10 := { pow10_u64 : Z -> Z }.

Class Pow10Laws (P : Pow10) : Prop := {
  pow10_fits (d : Z) : (0 <= d <= 19)%Z -> pow10_u64 d = (10 ^ d)%Z;
  pow10_range (d : Z) : (0 <= pow10_u64 d < 2 ^ 64)%Z
}.

(** What amd64 does. *)
#[global] Instance pow10_amd64 : Pow10 :=
  {| pow10_u64 := fun d => if (0 <=? d)%Z && (d <=? 19)%Z then (10 ^ d)%Z else (2 ^ 63)%Z |}.

#[global] Instance pow10_amd64_laws : Pow10Laws pow10_amd64.
Proof.
  split; intros d; simpl.
  - intros Hd. by rewrite !(proj2 (Z.leb_le _ _)) by lia.
  - destruct (Z.leb_spec 0 d), (Z.leb_spec d 19); simpl; try lia.
    split; [apply Z.pow_nonneg; lia|].
    apply Z.le_lt_trans with (10 ^ 19)%Z; [apply Z.pow_le_mono_r; lia|lia].
Qed.

Module TxLogic.

(** ** Constants (core/const.go, core/chain/common.go) *)

Definition DuPerBox : Z := 100000000.
Definition SubsidyReductionInterval : Z := 180 * 24 * 3600.
Definition MinCoinbaseScriptLen : nat := 2.
Definition MaxCoinbaseScriptLen : nat := 1000.
Definition MaxVinInTx : nat := 256.
Definition MaxVoutInTx : nat := 256.
Definition TransferGasLimit : Z := 21000.
Definition TransferFee : Z := FixedGasPrice * TransferGasLimit.
Definition InOutNumPerExtraFee : nat := 16.
Definition MaxTxsRoughSize : Z := 4 * 1024 * 1024.
Definition MaxCodeSize : Z := 24576.

Definition TotalSupply : Z := 3000000000 * DuPerBox.
Definition BaseSubsidy : Z := 317 * DuPerBox / 100.

(** ** Coinbase and internal transactions *)

Definition isNullOutPoint (outPoint : OutPoint) : bool :=
  (op_index outPoint =? Types.MaxUint32)%Z && bool_decide (op_hash outPoint = Crypto.ZeroHash).

Definition IsInternalContract (tx : Transaction) : bool :=
  match Vin tx with
  | [i] => (op_index (PrevOutPoint i) =? Types.MaxUint32 - 1)%Z
           && bool_decide (op_hash (PrevOutPoint i) = Crypto.ZeroHash)
  | _ => false
  end.

Definition IsCoinBase (tx : Transaction) : bool :=
  match Vin tx with
  | [i] => (op_index (PrevOutPoint i) =? Types.MaxUint32)%Z
           && bool_decide (op_hash (PrevOutPoint i) = Crypto.ZeroHash)
  | _ => false
  end.

Definition CalcBlockSubsidy (height : Z) : Z :=
  Z.shiftr BaseSubsidy (height / SubsidyReductionInterval).

Definition CreateCoinbaseTx (addr : bytes) (blockHeight : Z) : Transaction :=
  mkTx UnknownTx 1
    [mkTxIn Types.NewNullOutPoint (Script.StandardCoinbaseSignatureScript blockHeight) Types.MaxUint32]
    [mkTxOut (CalcBlockSubsidy blockHeight) (Script.PayToPubKeyHashScript addr)]
    None 0 0.

(** ** Sizes and fees *)

Definition ExtraFee (tx : Transaction) : Z :=
  u64 (Z.of_nat ((length (Vin tx) + length (Vout tx)) / InOutNumPerExtraFee) * TransferFee).

Definition RoughSize (tx : Transaction) : Z :=
  let n := 16%Z in
  let n := foldl (fun n i => n + (32 + 4 + 4 + Z.of_nat (length (ScriptSig i))))%Z n (Vin tx) in
  let n := foldl (fun n o => n + (8 + Z.of_nat (length (ScriptPubKey o))))%Z n (Vout tx) in
  match Data tx with
  | None => n
  | Some d => (n + (4 + Z.of_nat (length (data_content d))))%Z
  end.

Definition OutputAmount (tx : Transaction) : Z := foldl (fun t o => u64 (t + Value o)) 0%Z (Vout tx).

(** ** Kinds of transactions *)

Definition set_type (tx : Transaction) (t : TxType) : Transaction :=
  mkTx t (Version tx) (Vin tx) (Vout tx) (Data tx) (Magic tx) (LockTime tx).

Section WithState.
Context (statedb : option (bytes -> bool)).

(** [statedb != nil && statedb.IsContractAddr(addr.Hash160())], for a non-nil address. *)
Definition isContractAddr (addr : Types.Address) : bool :=
  match statedb with
  | None => false
  | Some f => f (default [] (Types.address_Hash160 addr))
  end.

(** The loop of [ParseTxType] over the outputs left, at index [i].  [typ] is the field
    [tx.Type]; the results are that field at the end, the type returned and the index. *)
Fixpoint parseTypeLoop (outs : list TxOut) (i idx opReturns : nat) (typ : TxType) :
    TxType * TxType * nat :=
  match outs with
  | [] =>
      if bool_decide (typ = UnknownTx) then (PayToPubkTx, PayToPubkTx, 0) else (typ, typ, idx)
  | txOut :: outs =>
      let sc := ScriptPubKey txOut in
      let opReturn :=
        if 1 <? S opReturns then (ErrorTx, ErrorTx, 0)
        else parseTypeLoop outs (S i) idx (S opReturns) typ in
      let next typ := parseTypeLoop outs (S i) i opReturns typ in
      let keep := parseTypeLoop outs (S i) idx opReturns typ in
      if negb (bool_decide (typ = UnknownTx)) then
        match PubkType sc with
        | TokenTransferPubk =>
            if negb (bool_decide (typ = TokenTransferTx)) then (typ, ErrorTx, 0) else keep
        | PayToPubk =>
            match ExtractAddress sc with
            | Err _ => (ErrorTx, ErrorTx, 0)
            | Ok addr => if isContractAddr addr then (typ, ErrorTx, 0) else keep
            end
        | PayToPubkCLTV | PayToScriptPubk => keep
        | OpReturnPubk => opReturn
        | _ => (ErrorTx, ErrorTx, 0)
        end
      else
        match PubkType sc with
        | PayToPubkCLTV | PayToScriptPubk => keep
        | PayToPubk =>
            match ExtractAddress sc with
            | Err _ => (ErrorTx, ErrorTx, 0)
            | Ok addr => if isContractAddr addr then next ContractTx else keep
            end
        | UnknownPubk => (ErrorTx, ErrorTx, 0)
        | TokenTransferPubk => next TokenTransferTx
        | TokenIssuePubk => next TokenIssueTx
        | ContractPubk => next ContractTx
        | SplitAddrPubk => next SplitTx
        | OpReturnPubk => opReturn
        end
  end.

Definition ParseTxType (tx : Transaction) : Transaction * (TxType * nat) :=
  let '(field, typ, idx) := parseTypeLoop (Vout tx) 0 0 0 (tx_type tx) in
  (set_type tx field, (typ, idx)).

Definition GetTxType (tx : Transaction) : Transaction * TxType :=
  if negb (bool_decide (tx_type tx = UnknownTx)) then (tx, tx_type tx)
  else let '(tx, (typ, _)) := ParseTxType tx in (tx, typ).

Definition IsStandardTx (tx : Transaction) : Transaction * bool :=
  if negb (bool_decide (tx_type tx = UnknownTx)) then (tx, negb (bool_decide (tx_type tx = ErrorTx)))
  else let '(tx, (typ, _)) := ParseTxType tx in (tx, negb (bool_decide (typ = ErrorTx))).

End WithState.

(** ** Amounts *)

Inductive AmountErr := ErrNotTokenScript | ErrUtxoNotRecognized | ErrAmountScript (e : ScriptErr).

Section WithPow10.
Context `{P : Pow10}.

Definition ParseTokenAmount (spk : bytes) : go (result AmountErr Z) :=
  if IsTokenIssue spk then
    r ← GetIssueParams spk;
    Returns (match r with
             | Err e => Err (ErrAmountScript e)
             | Ok p => Ok (u64 (ip_TotalSupply p * pow10_u64 (ip_Decimals p)))
             end)
  else if IsTokenTransfer spk then
    r ← GetTransferParams spk;
    Returns (match r with
             | Err e => Err (ErrAmountScript e)
             | Ok p => Ok (tp_Amount p)
             end)
  else Returns (Err ErrNotTokenScript).

(** [ParseUtxoAmount]: amount and token id of an output at a given outpoint. *)
Definition ParseUtxoAmount (op : OutPoint) (out : TxOut) : go (result AmountErr (Z * option OutPoint)) :=
  let s := ScriptPubKey out in
  if IsPayToPubKeyHash s || IsPayToPubKeyHashCLTVScript s || IsContractPubkey s
     || Script.IsPayToScriptHash s || IsOpReturnScript s
  then Returns (Ok (Value out, None))
  else if IsTokenIssue s then
    r ← ParseTokenAmount s;
    Returns (match r with Ok amount => Ok (amount, Some op) | Err e => Err e end)
  else if IsTokenTransfer s then
    r ← GetTransferParams s;
    Returns (match r with
             | Err e => Err (ErrAmountScript e)
             | Ok p => Ok (tp_Amount p, Some (mkOutPoint (tp_Hash p) (tp_Index p)))
             end)
  else if IsSplitAddrScript s then Returns (Ok (0%Z, None))
  else Returns (Err ErrUtxoNotRecognized).

End WithPow10.

(** ** Building inputs and outputs *)

Definition MakeVout (addrHash : bytes) (amount : Z) : TxOut :=
  mkTxOut amount (Script.PayToPubKeyHashScript addrHash).

Definition MakeVin (op : OutPoint) (seq : Z) : TxIn := mkTxIn op [] seq.

Definition MakeContractVin (op : OutPoint) (nonce seq : Z) : TxIn :=
  mkTxIn op (MakeContractScriptSig nonce) seq.

Definition VMVersion : Z := 0.

Definition MakeContractCreationVout (from : bytes) (amount gas nonce : Z) : result ScriptErr TxOut :=
  vs ← MakeContractScriptPubkey (Some from) None gas nonce VMVersion;
  Ok (mkTxOut amount vs).

Definition MakeTokenVout (addrHash : bytes) (tokenID : OutPoint) (amount : Z) : TxOut :=
  mkTxOut 0 (TransferTokenScript addrHash (mkTransferParams (op_hash tokenID) (op_index tokenID) amount)).

Definition MakeIssueTokenVout (addrHash : bytes) (params : IssueParams) : TxOut :=
  mkTxOut 0 (IssueTokenScript addrHash params).

(** The string form of an outpoint: reversed hash, a colon, the index, in base 58. *)
Section WithCrypto.
Context `{C : Crypto}.

Definition colon : byte := x3a.

Definition EncodeOutPoint (op : OutPoint) : string :=
  base58_Encode (reverse (op_hash op) ++ [colon] ++ le_bytes 4 (op_index op)).

(** [None] for either error. *)
Definition DecodeOutPoint (id : string) : option OutPoint :=
  let buf := base58_Decode id in
  if negb (length buf =? Crypto.HashSize + 5) then None
  else if negb (bool_decide (buf !! Crypto.HashSize = Some colon)) then None
  else
    Some (mkOutPoint (Crypto.BytesToHash (reverse (take Crypto.HashSize buf)))
                     (le_value (drop (Crypto.HashSize + 1) buf))).

Context `{CL : !CryptoLaws C}.

(** the text form of an outpoint (a token id) decodes to the outpoint. *)
Theorem outpoint_string_roundtrip (op : OutPoint) :
  length (op_hash op) = Crypto.HashSize -> (0 <= op_index op < 2 ^ 32)%Z ->
  DecodeOutPoint (EncodeOutPoint op) = Some op.
Proof.
  intros Hh Hi. unfold DecodeOutPoint, EncodeOutPoint. rewrite base58_Decode_Encode.
  assert (length (reverse (op_hash op)) = Crypto.HashSize) as Hr by by rewrite length_reverse.
  rewrite !length_app, length_le_bytes, Hr. cbn [length Nat.eqb negb Nat.add Crypto.HashSize].
  rewrite lookup_app_r, Hr, Nat.sub_diag by lia.
  rewrite bool_decide_eq_true_2 by done. cbn [negb].
  rewrite take_app_length' by done. rewrite app_assoc, drop_app_length' by (rewrite length_app, Hr; done).
  rewrite reverse_involutive, Crypto.BytesToHash_full, le_value_le_bytes_small by (simpl; done || lia).
  by destruct op.
Qed.

End WithCrypto.

Lemma outpoint_string_roundtrip_witness :
  DecodeOutPoint (C := ToyCrypto.toy) (EncodeOutPoint (C := ToyCrypto.toy) (mkOutPoint (replicate 32 x07) 3)) =
    Some (mkOutPoint (replicate 32 x07) 3).
Proof.
  apply (outpoint_string_roundtrip (C := ToyCrypto.toy) (mkOutPoint (replicate 32 x07) 3)); simpl;
    lia || reflexivity.
Defined.

End TxLogic.

(** * What makes a transaction standard

    The one-pass classification of [ParseTxType] against its rule: no unknown output, at
    most one OP_RETURN output, and at most one special output unless all of them are token
    transfers. *)

Import Kinds TxLogic.

(** What an output contributes. *)
Inductive out_kind := KPlain | KReturn | KSpecial (t : TxType) | KBad.

Section WithState.
Context (statedb : option (bytes -> bool)).

Definition kind_of (out : TxOut) : out_kind :=
  match PubkType (ScriptPubKey out) with
  | PayToPubkCLTV | PayToScriptPubk => KPlain
  | PayToPubk =>
      match ExtractAddress (ScriptPubKey out) with
      | Err _ => KBad
      | Ok addr => if isContractAddr statedb addr then KSpecial ContractTx else KPlain
      end
  | UnknownPubk => KBad
  | TokenTransferPubk => KSpecial TokenTransferTx
  | TokenIssuePubk => KSpecial TokenIssueTx
  | ContractPubk => KSpecial ContractTx
  | SplitAddrPubk => KSpecial SplitTx
  | OpReturnPubk => KReturn
  end.

Fixpoint specials (ks : list out_kind) : list TxType :=
  match ks with
  | [] => []
  | KSpecial t :: ks => t :: specials ks
  | _ :: ks => specials ks
  end.

Fixpoint returns (ks : list out_kind) : nat :=
  match ks with
  | [] => 0
  | KReturn :: ks => S (returns ks)
  | _ :: ks => returns ks
  end.

Definition has_bad (ks : list out_kind) : bool :=
  existsb (fun k => match k with KBad => true | _ => false end) ks.

(** The type of a transaction from its special outputs. *)
Definition special_type (l : list TxType) : TxType :=
  match l with
  | [] => PayToPubkTx
  | [t] => t
  | _ => if forallb (fun t => bool_decide (t = TokenTransferTx)) l then TokenTransferTx else ErrorTx
  end.

Definition spec_type (ks : list out_kind) : TxType :=
  if has_bad ks || (1 <? returns ks) then ErrorTx else special_type (specials ks).

(** The special outputs seen so far, as the loop remembers them. *)
Definition seen (typ : TxType) : list TxType := if bool_decide (typ = UnknownTx) then [] else [typ].

Lemma special_type_error t u l :
  t <> TokenTransferTx \/ u <> TokenTransferTx -> special_type (t :: u :: l) = ErrorTx.
Proof.
  intros H. unfold special_type. simpl.
  destruct H as [H|H]; rewrite (bool_decide_eq_false_2 _ H); [done|by rewrite andb_false_r].
Qed.

Lemma special_type_transfer l :
  special_type (TokenTransferTx :: TokenTransferTx :: l) = special_type (TokenTransferTx :: l).
Proof. unfold special_type. destruct l; done. Qed.

Definition special_tx (t : TxType) : Prop := t <> UnknownTx /\ t <> ErrorTx.

Lemma kind_of_special out t : kind_of out = KSpecial t -> special_tx t.
Proof.
  unfold kind_of, special_tx. intros H.
  destruct (PubkType _); try done; simplify_eq; try (split; done).
  destruct (ExtractAddress _); try done. destruct (isContractAddr _ _); simplify_eq. done.
Qed.

(** One iteration, by the kind of the output. *)
Lemma parseTypeLoop_step out outs i idx r typ :
  (parseTypeLoop statedb (out :: outs) i idx r typ).1.2 =
    match kind_of out with
    | KPlain => (parseTypeLoop statedb outs (S i) idx r typ).1.2
    | KReturn => if 1 <? S r then ErrorTx else (parseTypeLoop statedb outs (S i) idx (S r) typ).1.2
    | KSpecial t =>
        if bool_decide (typ = UnknownTx) then (parseTypeLoop statedb outs (S i) i r t).1.2
        else if bool_decide (t = TokenTransferTx) && bool_decide (typ = TokenTransferTx)
        then (parseTypeLoop statedb outs (S i) idx r typ).1.2
        else ErrorTx
    | KBad => ErrorTx
    end.
Proof.
  unfold kind_of. cbn [parseTypeLoop].
  destruct (bool_decide (typ = UnknownTx)) eqn:E; cbn [negb];
    destruct (PubkType _); try done; try (by destruct (1 <? S r));
    try (destruct (ExtractAddress _) as [addr|]; [|done]; by destruct (isContractAddr _ _)).
  by destruct (bool_decide (typ = TokenTransferTx)).
Qed.

Lemma parseTypeLoop_spec outs i idx r typ :
  r <= 1 -> typ <> ErrorTx ->
  (parseTypeLoop statedb outs i idx r typ).1.2 =
    if has_bad (map kind_of outs) || (1 <? r + returns (map kind_of outs)) then ErrorTx
    else special_type (seen typ ++ specials (map kind_of outs)).
Proof.
  revert i idx r typ. induction outs as [|out outs IH]; intros i idx r typ Hr Ht.
  - simpl. rewrite Nat.add_0_r. destruct (Nat.ltb_spec 1 r); [lia|].
    unfold seen. by case_bool_decide.
  - rewrite parseTypeLoop_step. cbn [map]. destruct (kind_of out) as [| |t|] eqn:E;
      cbn [has_bad existsb specials returns orb].
    + by apply IH.
    + destruct (Nat.ltb_spec 1 (S r)) as [Hlt|Hge].
      * rewrite (proj2 (Nat.ltb_lt _ _)) by lia. by rewrite orb_true_r.
      * rewrite IH by (done || lia). by rewrite Nat.add_succ_r.
    + apply kind_of_special in E as [Hu He]. unfold seen. case_bool_decide as Hty.
      * rewrite IH by done. unfold seen. by rewrite bool_decide_eq_false_2.
      * destruct (decide (t = TokenTransferTx /\ typ = TokenTransferTx)) as [[-> ->]|Hn].
        -- rewrite !bool_decide_eq_true_2 by done. cbn [andb]. rewrite IH by done.
           unfold seen. rewrite bool_decide_eq_false_2 by done. simpl app.
           by rewrite special_type_transfer.
        -- assert (typ <> TokenTransferTx \/ t <> TokenTransferTx) as Hn'
             by (destruct (decide (typ = TokenTransferTx)); naive_solver).
           simpl app. rewrite (special_type_error typ t) by done.
           replace (bool_decide (t = _) && _) with false; [by destruct (_ || _)|].
           symmetry. apply andb_false_iff. rewrite !bool_decide_eq_false. tauto.
    + done.
Qed.

(** the one-pass classification implements the rule: a fresh transaction is typed by
    its special output, refused when an output is unknown, when two outputs carry data,
    or when special outputs are mixed; only token transfers may repeat. *)
Theorem ParseTxType_rule (tx : Transaction) :
  tx_type tx = UnknownTx ->
  (ParseTxType statedb tx).2.1 = spec_type (map kind_of (Vout tx)) /\
  (IsStandardTx statedb tx).2 = negb (bool_decide (spec_type (map kind_of (Vout tx)) = ErrorTx)).
Proof.
  intros Ht. unfold IsStandardTx, ParseTxType, spec_type. rewrite Ht.
  pose proof (parseTypeLoop_spec (Vout tx) 0 0 0 UnknownTx ltac:(lia) ltac:(done)) as H.
  destruct (parseTypeLoop statedb (Vout tx) 0 0 0 UnknownTx) as [[f t] k]. simpl in *.
  by rewrite <- H.
Qed.

End WithState.

Lemma ParseTxType_rule_witness :
  let tx := mkTx UnknownTx 1 [] [mkTxOut 5 (Script.PayToPubKeyHashScript Types.ZeroAddressHash)] None 0 0 in
  (ParseTxType None tx).2.1 = spec_type (map (kind_of None) (Vout tx)) /\
  (IsStandardTx None tx).2 = negb (bool_decide (spec_type (map (kind_of None) (Vout tx)) = ErrorTx)).
Proof.
  apply (ParseTxType_rule None
    (mkTx UnknownTx 1 [] [mkTxOut 5 (Script.PayToPubKeyHashScript Types.ZeroAddressHash)] None 0 0)).
  reflexivity.
Defined.

(** asking twice can change the answer: a transaction that mixes a token issue with a
    token transfer is not standard, but the first test leaves its type on the
    transaction, and the second test accepts it. *)
Theorem IsStandardTx_second_answer (statedb : option (bytes -> bool)) (tx : Transaction)
    (h1 h2 : bytes) (p : IssueParams) (q : TransferParams) v1 v2 :
  tx_type tx = UnknownTx ->
  Vout tx = [mkTxOut v1 (IssueTokenScript h1 p); mkTxOut v2 (TransferTokenScript h2 q)] ->
  length h1 = 20 -> length h2 = 20 -> length (tp_Hash q) = 32 ->
  (Z.of_nat (length (ip_Name p)) <= 65535)%Z -> (Z.of_nat (length (ip_Symbol p)) <= 65535)%Z ->
  let tx' := set_type tx TokenIssueTx in
  IsStandardTx statedb tx = (tx', false) /\ IsStandardTx statedb tx' = (tx', true).
Proof.
  intros Ht Hv H1 H2 Hq Hn Hs tx'. split; [|done].
  unfold IsStandardTx, ParseTxType. rewrite Ht, Hv. cbn [parseTypeLoop ScriptPubKey].
  destruct (std_issue h1 p H1 Hn Hs) as [-> _]. destruct (std_transfer h2 q H2 Hq) as [-> _]. done.
Qed.

Lemma IsStandardTx_second_answer_witness :
  let h := Types.ZeroAddressHash in
  let tx := mkTx UnknownTx 1 []
    [mkTxOut 0 (IssueTokenScript h (mkIssueParams [] [] 1 0));
     mkTxOut 0 (TransferTokenScript h (mkTransferParams Crypto.ZeroHash 0 1))] None 0 0 in
  IsStandardTx None tx = (set_type tx TokenIssueTx, false) /\
  IsStandardTx None (set_type tx TokenIssueTx) = (set_type tx TokenIssueTx, true).
Proof.
  intros h tx.
  apply (IsStandardTx_second_answer None tx h h (mkIssueParams [] [] 1 0)
    (mkTransferParams Crypto.ZeroHash 0 1) 0 0); reflexivity || (simpl; lia).
Defined.
