(* ===== verification/Compress.v ===== *)
(** * Compress: the stored form of an unspent output (src/core/chain/compress.go and the
      serialization half of src/core/chain/utxoset.go)

    A stored entry is a header (the height), a compressed value and a compressed locking
    script; integers are in a variable-length quantity format ("VLQ") that has exactly one
    encoding for each number.  The Go code writes into a buffer allocated by the caller;
    here a writer takes the buffer and returns it with the bytes written, and writing
    outside of it is a panic.  A slice can be re-sliced up to its capacity, so the readers
    that do take the [spare] bytes behind the slice as an argument. *)

From S2P Require Import Prelude Opcode Crypto Types Script.

Import Opcode Script.

Module Compress.

Definition p2pkh : Z := 0.
Definition p2sh : Z := 1.
Definition specialScripts : Z := 6.

(** ** Variable-length quantities *)

(** [serializeSizeVLQ]; ten rounds are enough for 64 bits ([serializeSizeVLQ_eq]). *)
Fixpoint sizeLoop (fuel : nat) (n : Z) : nat :=
  match fuel with
  | O => 1
  | S fuel => if (127 <? n)%Z then S (sizeLoop fuel (Z.shiftr n 7 - 1)) else 1
  end.

Definition serializeSizeVLQ (n : Z) : nat := sizeLoop 10 n.

(** The first loop of [putVLQ], from the current offset on: seven bits a byte, the least
    significant first; all but the first byte have the high bit. *)
Fixpoint putLoop (highBitMask : Z) (target : bytes) (n : Z) : go (bytes * nat) :=
  match target with
  | [] => Panics
  | _ :: rest =>
      let b := z2b (Z.lor (Z.land n 0x7f) highBitMask) in
      if (n <=? 0x7f)%Z then Returns (b :: rest, 0)
      else
        '(rest, offset) ← putLoop 0x80 rest (Z.shiftr n 7 - 1);
        Returns (b :: rest, S offset)
  end.

(** [putVLQ]: the second loop swaps [target[0..offset]] end to end. *)
Definition putVLQ (target : bytes) (n : Z) : go (bytes * nat) :=
  '(target, offset) ← putLoop 0 target n;
  Returns (Crypto.reverseBytes (take (S offset) target) ++ drop (S offset) target, S offset).

Fixpoint deserializeLoop (serialized : bytes) (n : Z) (size : nat) : Z * nat :=
  match serialized with
  | [] => (n, size)
  | val :: rest =>
      let n := Z.lor (u64 (Z.shiftl n 7)) (Z.land (b2z val) 0x7f) in
      if negb (Z.land (b2z val) 0x80 =? 0x80)%Z then (n, S size)
      else deserializeLoop rest (u64 (n + 1)) (S size)
  end.

Definition deserializeVLQ (serialized : bytes) : Z * nat := deserializeLoop serialized 0 0.

(** ** Scripts *)

Definition isPubKeyHash (pkscript : bytes) : option bytes :=
  if (length pkscript =? 25) && op_eqb (at_byte pkscript 0) OPDUP && op_eqb (at_byte pkscript 1) OPHASH160
     && op_eqb (at_byte pkscript 23) OPEQUALVERIFY && op_eqb (at_byte pkscript 24) OPCHECKSIG
  then Some (slice pkscript 3 23) else None.

Definition isScriptHash (pkscript : bytes) : option bytes :=
  if (length pkscript =? 23) && op_eqb (at_byte pkscript 0) OPHASH160 && op_eqb (at_byte pkscript 22) OPEQUAL
  then Some (slice pkscript 2 22) else None.

Definition compressedScriptSize (pkScript : bytes) : nat :=
  if isPubKeyHash pkScript is Some _ then 21
  else if isScriptHash pkScript is Some _ then 21
  else serializeSizeVLQ (u64 (Z.of_nat (length pkScript) + specialScripts)) + length pkScript.

(** An [int]: the subtraction and the conversion wrap. *)
Definition decodeCompressedScriptSize (serialized : bytes) : Z :=
  let '(scriptSize, bytesRead) := deserializeVLQ serialized in
  if (bytesRead =? 0)%nat then 0
  else if (scriptSize =? p2pkh)%Z || (scriptSize =? p2sh)%Z then 21
  else i64 (u64 (u64 (scriptSize - specialScripts) + Z.of_nat bytesRead)).

(** [copy(dst, src)] into a slice of a buffer that starts at [lo] and ends at [hi]. *)
Definition copy_at (target : bytes) (lo hi : nat) (src : bytes) : go bytes :=
  if (hi <? lo) || (length target <? hi) then Panics
  else
    let n := min (hi - lo) (length src) in
    Returns (take lo target ++ take n src ++ drop (lo + n) target).

(** [target[i] = b]. *)
Definition set_at (target : bytes) (i : nat) (b : byte) : go bytes :=
  if (i <? length target) then Returns (<[i := b]> target) else Panics.

Definition compressedScript (target pkScript : bytes) : go (bytes * nat) :=
  match isPubKeyHash pkScript with
  | Some hash =>
      target ← set_at target 0 (z2b p2pkh);
      target ← copy_at target 1 21 hash;
      Returns (target, 21)
  | None =>
      match isScriptHash pkScript with
      | Some hash =>
          target ← set_at target 0 (z2b p2sh);
          target ← copy_at target 1 21 hash;
          Returns (target, 21)
      | None =>
          let encodedSize := u64 (Z.of_nat (length pkScript) + specialScripts) in
          '(target, vlqSizeLen) ← putVLQ target encodedSize;
          target ← copy_at target vlqSizeLen (length target) pkScript;
          Returns (target, vlqSizeLen + length pkScript)
      end
  end.

(** [s[lo:hi]] up to the capacity of [s]. *)
Definition reslice (s spare : bytes) (lo hi : Z) : go bytes :=
  if (lo <? 0)%Z || (hi <? lo)%Z || (Z.of_nat (length (s ++ spare)) <? hi)%Z then Panics
  else Returns (slice (s ++ spare) (Z.to_nat lo) (Z.to_nat hi)).

Definition decompressScript (compressedPkScript spare : bytes) : go bytes :=
  if (length compressedPkScript =? 0)%nat then Returns []
  else
    let '(encodedScriptSize, bytesRead) := deserializeVLQ compressedPkScript in
    let lo := Z.of_nat bytesRead in
    if (encodedScriptSize =? p2pkh)%Z then
      hash ← reslice compressedPkScript spare lo (lo + 20);
      Returns ([OPDUP; OPHASH160; OPDATA20] ++ hash ++ [OPEQUALVERIFY; OPCHECKSIG])
    else if (encodedScriptSize =? p2sh)%Z then
      hash ← reslice compressedPkScript spare lo (lo + 20);
      Returns ([OPHASH160; OPDATA20] ++ hash ++ [OPEQUAL])
    else
      let scriptSize := i64 (u64 (encodedScriptSize - specialScripts)) in
      if (scriptSize <? 0)%Z then Panics
      else reslice compressedPkScript spare lo (i64 (lo + scriptSize)).

(** ** Values *)

(** The loop of [compressTxOutValue]; [k] is [9 - exponent]. *)
Fixpoint stripZeros (k : nat) (value : Z) (exponent : Z) : Z * Z :=
  match k with
  | O => (value, exponent)
  | S k =>
      if (value mod 10 =? 0)%Z then stripZeros k (value / 10) (exponent + 1)
      else (value, exponent)
  end.

Definition compressTxOutValue (value : Z) : Z :=
  if (value =? 0)%Z then 0
  else
    let '(value, exponent) := stripZeros 9 value 0 in
    if (exponent <? 9)%Z then
      let lastDigit := (value mod 10)%Z in
      let value := (value / 10)%Z in
      u64 (1 + u64 (10 * u64 (u64 (9 * value) + lastDigit - 1)) + exponent)
    else u64 (10 + u64 (10 * (value - 1))).

Fixpoint times10 (exponent : nat) (n : Z) : Z :=
  match exponent with
  | O => n
  | S exponent => times10 exponent (u64 (n * 10))
  end.

Definition decompressTxOutValue (value : Z) : Z :=
  if (value =? 0)%Z then 0
  else
    let value := (value - 1)%Z in
    let exponent := (value mod 10)%Z in
    let value := (value / 10)%Z in
    let n :=
      if (exponent <? 9)%Z then
        let lastDigit := (value mod 9 + 1)%Z in
        u64 (u64 (value / 9 * 10) + lastDigit)
      else u64 (value + 1) in
    times10 (Z.to_nat exponent) n.

(** ** Outputs and entries *)

Definition compressedTxOutSize (value : Z) (pkScript : bytes) : nat :=
  serializeSizeVLQ (compressTxOutValue value) + compressedScriptSize pkScript.

Definition compressedTxOut (target : bytes) (value : Z) (pkScript : bytes) : go (bytes * nat) :=
  '(target, offset) ← putVLQ target (compressTxOutValue value);
  '(rest, n) ← compressedScript (drop offset target) pkScript;
  Returns (take offset target ++ rest, offset + n).

Inductive StoreErr := ErrEndAfterAmount | ErrEndAfterScriptSize | ErrSpentHeader | ErrEndAfterHeader.

Definition decodeCompressedTxOut (serialized spare : bytes) : go (result StoreErr (Z * bytes * Z)) :=
  let '(compressedAmount, bytesRead) := deserializeVLQ serialized in
  if length serialized <=? bytesRead then Returns (Err ErrEndAfterAmount)
  else
    let scriptSize := decodeCompressedScriptSize (drop bytesRead serialized) in
    if (Z.of_nat (length (drop bytesRead serialized)) <? scriptSize)%Z
    then Returns (Err ErrEndAfterScriptSize)
    else
      let amount := decompressTxOutValue compressedAmount in
      let lo := Z.of_nat bytesRead in
      s ← reslice serialized spare lo (i64 (lo + scriptSize));
      script ← decompressScript s (drop (bytesRead + length s) (serialized ++ spare));
      Returns (Ok (amount, script, i64 (lo + scriptSize))).

Definition utxoWrapHeaderCode (utxoWrap : Types.UtxoWrap) : result StoreErr Z :=
  if Types.IsSpent utxoWrap then Err ErrSpentHeader
  else Ok (u64 (Z.shiftl (Types.uw_height utxoWrap) 1)).

(** [SerializeUtxoWrap]: [nil] for a spent entry. *)
Definition SerializeUtxoWrap (utxoWrap : Types.UtxoWrap) : go (result StoreErr (option bytes)) :=
  if Types.IsSpent utxoWrap then Returns (Ok None)
  else
    match utxoWrapHeaderCode utxoWrap with
    | Err e => Returns (Err e)
    | Ok headerCode =>
        let size := serializeSizeVLQ headerCode +
                    compressedTxOutSize (Types.uw_value utxoWrap) (Types.uw_script utxoWrap) in
        '(serialized, offset) ← putVLQ (replicate size x00) headerCode;
        '(rest, _) ← compressedTxOut (drop offset serialized) (Types.uw_value utxoWrap)
                       (Types.uw_script utxoWrap);
        Returns (Ok (Some (take offset serialized ++ rest)))
    end.

Definition DeserializeUtxoWrap (serialized spare : bytes) : go (result StoreErr Types.UtxoWrap) :=
  let '(code, offset) := deserializeVLQ serialized in
  if length serialized <=? offset then Returns (Err ErrEndAfterHeader)
  else
    let blockHeight := u32 (Z.shiftr code 1) in
    r ← decodeCompressedTxOut (drop offset serialized) spare;
    Returns (match r with
             | Err e => Err e
             | Ok (value, pkScript, _) => Ok (Types.NewUtxoWrap value pkScript blockHeight)
             end).

(** [utxoKey] on a pooled buffer [key] of [HashSize + 5] bytes with any old content. *)
Definition utxoKey (key : bytes) (outpoint : OutPoint) : go bytes :=
  let idx := op_index outpoint in
  key ← reslice key [] 0 (Z.of_nat (Crypto.HashSize + serializeSizeVLQ idx));
  key ← copy_at key 0 (length key) (op_hash outpoint);
  '(rest, _) ← putVLQ (drop Crypto.HashSize key) idx;
  Returns (take Crypto.HashSize key ++ rest).

End Compress.
