(* ===== verification/CompressFacts.v ===== *)
(** * CompressFacts: stored entries and database keys are read back exactly

    The VLQ format is a bijection between 64-bit numbers and self-delimiting byte strings,
    value compression is lossless up to the total supply and beyond, and the buffer the
    code allocates is exactly the size it writes.  Script compression forgets one byte:
    [stored_script] is what comes back. *)

From S2P Require Import Prelude Opcode Crypto Types Script Compress.
Import Opcode Script Compress.

(** ** Variable-length quantities *)

(** The digits of a number, the least significant first. *)
Fixpoint digits (fuel : nat) (mask : Z) (n : Z) : bytes :=
  match fuel with
  | O => []
  | S fuel =>
      z2b (Z.lor (Z.land n 0x7f) mask) ::
        if (n <=? 0x7f)%Z then [] else digits fuel 0x80 (Z.shiftr n 7 - 1)
  end.

Lemma digits_S fuel mask n :
  digits (S fuel) mask n =
    z2b (Z.lor (Z.land n 0x7f) mask) ::
      if (n <=? 0x7f)%Z then [] else digits fuel 0x80 (Z.shiftr n 7 - 1).
Proof. done. Qed.

(** The encoding of a 64-bit number. *)
Definition vlq (n : Z) : bytes := reverse (digits 10 0 n).

Lemma shiftr7 n : (0 <= n)%Z ->
  (0 <= Z.shiftr n 7 /\ Z.shiftr n 7 * 128 + n mod 128 = n /\ 0 <= n mod 128 < 128)%Z.
Proof.
  intros. rewrite Z.shiftr_div_pow2 by lia. change (2 ^ 7)%Z with 128%Z.
  pose proof (Z.mod_pos_bound n 128 ltac:(lia)). pose proof (Z.div_mod n 128 ltac:(lia)). pose proof (Z.div_pos n 128 ltac:(lia)). lia.
Qed.

Lemma pow7_S f : (2 ^ Z.of_nat (7 * S f) = 128 * 2 ^ Z.of_nat (7 * f))%Z.
Proof. replace (Z.of_nat (7 * S f)) with (7 + Z.of_nat (7 * f))%Z by lia. by rewrite Z.pow_add_r by lia. Qed.

Lemma sizeLoop_digits fuel mask n :
  0 < fuel -> (0 <= n < 2 ^ Z.of_nat (7 * fuel))%Z -> sizeLoop fuel n = length (digits fuel mask n).
Proof.
  revert mask n. induction fuel as [|f IH]; intros mask n Hf Hn; [lia|]. rewrite pow7_S in Hn.
  cbn [sizeLoop digits length]. destruct (Z.ltb_spec 127 n), (Z.leb_spec n 127); try lia; [|done].
  destruct (shiftr7 n) as (H1 & H2 & H3); [lia|]. f_equal. apply IH; [|lia].
  destruct f; [simpl in Hn; lia|lia].
Qed.

Lemma putLoop_digits fuel mask target n :
  (0 <= n < 2 ^ Z.of_nat (7 * fuel))%Z -> 0 < fuel -> length (digits fuel mask n) <= length target ->
  exists k, length (digits fuel mask n) = S k /\
    putLoop mask target n = Returns (digits fuel mask n ++ drop (S k) target, k).
Proof.
  revert mask target n. induction fuel as [|f IH]; intros mask target n Hn Hf Hlen; [lia|].
  rewrite pow7_S in Hn. destruct target as [|c rest]; [simpl in Hlen; lia|].
  cbn [putLoop digits length] in *. destruct (Z.leb_spec n 127); [by exists 0|].
  destruct (shiftr7 n) as (H1 & H2 & H3); [lia|].
  destruct (IH 128%Z rest (Z.shiftr n 7 - 1)%Z) as (k & Hk & ->);
    [lia|destruct f; [simpl in Hn|]; lia|simpl in Hlen; lia|].
  exists (S k). rewrite Hk. by split.
Qed.

Lemma u64_pow70 n : (0 <= n < 2 ^ 64)%Z -> (0 <= n < 2 ^ Z.of_nat (7 * 10))%Z.
Proof. change (2 ^ Z.of_nat (7 * 10))%Z with (2 ^ 70)%Z. lia. Qed.

Lemma serializeSizeVLQ_vlq n : (0 <= n < 2 ^ 64)%Z -> serializeSizeVLQ n = length (vlq n).
Proof.
  intros. unfold vlq, serializeSizeVLQ. rewrite length_reverse.
  apply sizeLoop_digits; [lia|by apply u64_pow70].
Qed.

Lemma sizeLoop_bound fuel n : 0 < sizeLoop fuel n <= S fuel.
Proof.
  revert n. induction fuel as [|f IH]; intros n; cbn [sizeLoop]; [lia|].
  case_match; [|lia]. specialize (IH (Z.shiftr n 7 - 1)%Z). lia.
Qed.

(** [putVLQ] writes the encoding at the start of the buffer and nothing behind it. *)
Lemma putVLQ_vlq target n :
  (0 <= n < 2 ^ 64)%Z -> length (vlq n) <= length target ->
  putVLQ target n = Returns (vlq n ++ drop (length (vlq n)) target, length (vlq n)).
Proof.
  unfold vlq. rewrite length_reverse. intros Hn Hlen. unfold putVLQ.
  destruct (putLoop_digits 10 0 target n) as (k & Hk & ->); [by apply u64_pow70|lia|done|].
  cbn [mbind go_bind]. rewrite Hk.
  rewrite take_app_le, drop_app_ge, firstn_all2 by lia.
  rewrite Crypto.reverseBytes_reverse, Hk, Nat.sub_diag. done.
Qed.

(** The bits of a digit: [d] below 128, with and without the continuation bit. *)
Lemma digit_bits (d : Z) (m : Z) : (0 <= d < 128)%Z -> m = 0%Z \/ m = 128%Z ->
  let b := b2z (z2b (Z.lor d m)) in Z.land b 0x7f = d /\ Z.land b 0x80 = m.
Proof.
  intros Hd Hm.
  assert (forall m, m = 0%Z \/ m = 128%Z -> forall w, (0 <= w < 256)%Z ->
    (let b := b2z (z2b (Z.lor w m)) in
     (128 <=? w)%Z || (Z.land b 127 =? w)%Z && (Z.land b 128 =? m)%Z) = true) as H.
  { intros m' [-> | ->]; apply forall_byte; reflexivity. }
  specialize (H m Hm d ltac:(lia)). rewrite (proj2 (Z.leb_gt 128 d)) in H by lia.
  apply andb_true_iff in H as [H1 H2]. split; lia.
Qed.

Lemma land127 n : (0 <= n)%Z -> Z.land n 0x7f = (n mod 128)%Z.
Proof. intros. change 0x7f%Z with (Z.ones 7). by rewrite Z.land_ones by lia. Qed.

(** Appending a digit to the number read so far. *)
Lemma append_digit h n : (0 <= n < 2 ^ 64)%Z -> h = Z.shiftr n 7 ->
  Z.lor (u64 (Z.shiftl h 7)) (n mod 128) = n.
Proof.
  intros Hn ->. destruct (shiftr7 n) as (H1 & H2 & H3); [lia|].
  pose proof (Z.mod_pos_bound n 128 ltac:(lia)).
  assert (Z.shiftl (Z.shiftr n 7) 7 = Z.shiftr n 7 * 128)%Z as E by (by rewrite Z.shiftl_mul_pow2 by lia).
  rewrite u64_small by lia. rewrite Z.lor_comm, lor_shiftl; lia.
Qed.

Lemma deserializeLoop_high fuel n rest size :
  (0 <= n < 2 ^ Z.of_nat (7 * fuel))%Z -> (n < 2 ^ 64 - 1)%Z -> 0 < fuel ->
  deserializeLoop (reverse (digits fuel 0x80 n) ++ rest) 0 size =
    deserializeLoop rest (n + 1) (size + length (digits fuel 0x80 n)).
Proof.
  revert n rest size. induction fuel as [|f IH]; intros n rest size Hn Hb Hf; [lia|].
  rewrite pow7_S in Hn. cbn [digits length]. rewrite reverse_cons, <- app_assoc.
  rewrite land127 by lia. pose proof (Z.mod_pos_bound n 128 ltac:(lia)) as Hd.
  destruct (digit_bits (n mod 128) 128 Hd) as [D1 D2]; [by right|].
  destruct (shiftr7 n) as (H1 & H2 & H3); [lia|].
  assert (forall h k, h = Z.shiftr n 7 -> deserializeLoop ([z2b (Z.lor (n mod 128) 128)] ++ rest) h k =
    deserializeLoop rest (n + 1) (S k)) as Hstep.
  { intros h k ->. cbn [deserializeLoop app]. rewrite D1, D2, append_digit by lia || done.
    cbn. by rewrite u64_small by lia. }
  destruct (Z.leb_spec n 127).
  - rewrite Hstep; [|lia]. f_equal. simpl. lia.
  - assert (0 < f) by (destruct f; [simpl in Hn|]; lia).
    rewrite IH by lia. rewrite Hstep by lia. f_equal. lia.
Qed.

(** The encoding is self-delimiting. *)
Lemma deserializeVLQ_vlq n rest : (0 <= n < 2 ^ 64)%Z ->
  deserializeVLQ (vlq n ++ rest) = (n, length (vlq n)).
Proof.
  intros Hn. unfold vlq, deserializeVLQ. rewrite length_reverse, (digits_S 9).
  cbn [length]. rewrite reverse_cons, <- app_assoc, land127 by lia.
  pose proof (Z.mod_pos_bound n 128 ltac:(lia)) as Hd.
  destruct (digit_bits (n mod 128) 0 Hd) as [D1 D2]; [by left|].
  destruct (shiftr7 n) as (H1 & H2 & H3); [lia|].
  assert (forall h k, h = Z.shiftr n 7 -> deserializeLoop ([z2b (Z.lor (n mod 128) 0)] ++ rest) h k = (n, S k))
    as Hstep.
  { intros h k ->. cbn [deserializeLoop app]. rewrite D1, D2, append_digit by lia || done. done. }
  destruct (Z.leb_spec n 127).
  - rewrite Hstep; [done|lia].
  - rewrite deserializeLoop_high by (change (2 ^ Z.of_nat (7 * 9))%Z with (2 ^ 63)%Z; lia).
    rewrite Hstep by lia. done.
Qed.

(** ** Values *)

Lemma stripZeros_spec k v e :
  (0 < v)%Z -> (0 <= e)%Z ->
  exists v' j, stripZeros k v e = (v', e + Z.of_nat j)%Z /\ (v = v' * 10 ^ Z.of_nat j)%Z /\
    (0 < v' <= v)%Z /\ j <= k /\ (j < k -> (v' mod 10 <> 0)%Z).
Proof.
  revert v e. induction k as [|k IH]; intros v e Hv He; cbn [stripZeros].
  { exists v, 0. change (10 ^ Z.of_nat 0)%Z with 1%Z. rewrite Z.add_0_r. repeat split; lia. }
  destruct (Z.eqb_spec (v mod 10) 0) as [E|E].
  - pose proof (Z.div_mod v 10 ltac:(lia)) as D.
    destruct (IH (v / 10)%Z (e + 1)%Z) as (v' & j & -> & Ev & Hv' & Hj & Hlast); [lia..|].
    exists v', (S j). split; [f_equal; lia|].
    replace (Z.of_nat (S j)) with (1 + Z.of_nat j)%Z by lia.
    rewrite Z.pow_add_r by lia. change (10 ^ 1)%Z with 10%Z.
    repeat split; lia.
  - exists v, 0. change (10 ^ Z.of_nat 0)%Z with 1%Z. rewrite Z.add_0_r. repeat split; lia.
Qed.

Lemma times10_pow k n : (0 <= n)%Z -> (n * 10 ^ Z.of_nat k < 2 ^ 64)%Z ->
  times10 k n = (n * 10 ^ Z.of_nat k)%Z.
Proof.
  revert n. induction k as [|k IH]; intros n Hn Hb; cbn [times10]; [lia|].
  replace (Z.of_nat (S k)) with (1 + Z.of_nat k)%Z in Hb |- * by lia.
  rewrite Z.pow_add_r in Hb |- * by lia. change (10 ^ 1)%Z with 10%Z in Hb |- *.
  assert (1 <= 10 ^ Z.of_nat k)%Z by lia.
  assert (n * 10 <= n * (10 * 10 ^ Z.of_nat k))%Z by nia.
  rewrite u64_small, IH by lia. lia.
Qed.

(** The compressed code of [v = v' * 10^e], computed without wrapping. *)
Lemma compressTxOutValue_cases v :
  (0 < v)%Z -> (9 * v + 10 < 2 ^ 64)%Z ->
  exists v' e, (v = v' * 10 ^ e)%Z /\ (0 < v' <= v)%Z /\ (0 <= e <= 9)%Z /\
    (if (e <? 9)%Z
     then exists q d, v' = (10 * q + d)%Z /\ (1 <= d <= 9)%Z /\ (0 <= q)%Z /\
            compressTxOutValue v = (1 + 10 * (9 * q + d - 1) + e)%Z
     else compressTxOutValue v = (10 * v')%Z).
Proof.
  intros Hv Hb. unfold compressTxOutValue. rewrite (proj2 (Z.eqb_neq v 0)) by lia.
  destruct (stripZeros_spec 9 v 0 Hv) as (v' & j & -> & Ev & Hv' & Hj & Hlast); [lia|].
  exists v', (0 + Z.of_nat j)%Z. split; [done|]. split; [done|]. split; [lia|].
  destruct (Z.ltb_spec (0 + Z.of_nat j) 9).
  - pose proof (Z.div_mod v' 10 ltac:(lia)) as D. pose proof (Z.mod_pos_bound v' 10 ltac:(lia)).
    pose proof (Z.div_pos v' 10 ltac:(lia) ltac:(lia)). specialize (Hlast ltac:(lia)).
    exists (v' / 10)%Z, (v' mod 10)%Z. set (q := (v' / 10)%Z) in *. set (d := (v' mod 10)%Z) in *.
    rewrite (u64_small (9 * q)), (u64_small (9 * q + d - 1)), (u64_small (10 * _)), u64_small by lia. lia.
  - assert (j = 9) as -> by lia. change (10 ^ Z.of_nat 9)%Z with 1000000000%Z in Ev.
    rewrite (u64_small (10 * _)), u64_small by lia. lia.
Qed.

Lemma divmod_unique a b q r : (a = b * q + r)%Z -> (0 <= r < b)%Z -> (a / b = q /\ a mod b = r)%Z.
Proof. intros. split; symmetry; [apply Z.div_unique with r|apply Z.mod_unique with q]; lia. Qed.

Lemma compress_value_roundtrip v : (0 <= v)%Z -> (9 * v + 10 < 2 ^ 64)%Z ->
  decompressTxOutValue (compressTxOutValue v) = v /\ (0 <= compressTxOutValue v < 2 ^ 64)%Z.
Proof.
  intros Hv Hb. destruct (Z.eqb_spec v 0) as [->|]; [split; [done|cbn; lia]|].
  destruct (compressTxOutValue_cases v) as (v' & e & Ev & Hv' & He & H); [lia..|].
  assert (times10 (Z.to_nat e) v' = v) as Ht.
  { rewrite times10_pow; rewrite ?Z2Nat.id; lia. }
  destruct (Z.ltb_spec e 9).
  - destruct H as (q & d & -> & Hd & Hq & ->). split; [|lia].
    unfold decompressTxOutValue. rewrite (proj2 (Z.eqb_neq _ 0)) by lia.
    destruct (divmod_unique (1 + 10 * (9 * q + d - 1) + e - 1) 10 (9 * q + d - 1) e) as [-> ->]; [lia..|].
    destruct (divmod_unique (9 * q + d - 1) 9 q (d - 1)) as [-> ->]; [lia..|].
    rewrite (proj2 (Z.ltb_lt e 9)), (u64_small (q * 10)), u64_small by lia.
    by replace (q * 10 + (d - 1 + 1))%Z with (10 * q + d)%Z by lia.
  - assert (e = 9)%Z as -> by lia. change (10 ^ 9)%Z with 1000000000%Z in Ev.
    rewrite H. split; [|lia]. unfold decompressTxOutValue. rewrite (proj2 (Z.eqb_neq _ 0)) by lia.
    destruct (divmod_unique (10 * v' - 1) 10 (v' - 1) 9) as [-> ->]; [lia..|].
    cbn [Z.ltb Z.compare Pos.compare Pos.compare_cont]. rewrite u64_small by lia.
    by replace (v' - 1 + 1)%Z with v' by lia.
Qed.

(** ** Scripts *)

(** The compressed form of a script, and the script it is read back as. *)
Definition cscript (s : bytes) : bytes :=
  match isPubKeyHash s, isScriptHash s with
  | Some h, _ => x00 :: h
  | None, Some h => x01 :: h
  | None, None => vlq (Z.of_nat (length s) + specialScripts) ++ s
  end.

Definition stored_script (s : bytes) : bytes :=
  match isPubKeyHash s, isScriptHash s with
  | Some h, _ => [OPDUP; OPHASH160; OPDATA20] ++ h ++ [OPEQUALVERIFY; OPCHECKSIG]
  | None, Some h => [OPHASH160; OPDATA20] ++ h ++ [OPEQUAL]
  | None, None => s
  end.

Lemma isPubKeyHash_length s h : isPubKeyHash s = Some h -> length h = 20.
Proof.
  unfold isPubKeyHash. destruct (Nat.eqb_spec (length s) 25); simpl; [|done].
  case_match; [|done]. intros [= <-]. rewrite length_slice; lia.
Qed.

Lemma isScriptHash_length s h : isScriptHash s = Some h -> length h = 20.
Proof.
  unfold isScriptHash. destruct (Nat.eqb_spec (length s) 23); simpl; [|done].
  case_match; [|done]. intros [= <-]. rewrite length_slice; lia.
Qed.

Lemma reslice_mid (a b spare : bytes) lo hi :
  lo = Z.of_nat (length a) -> hi = Z.of_nat (length a + length b) ->
  reslice (a ++ b) spare lo hi = Returns b.
Proof.
  intros -> ->. unfold reslice. rewrite !length_app.
  rewrite !(proj2 (Z.ltb_ge _ _)) by lia. cbn [orb].
  by rewrite !Nat2Z.id, <- app_assoc, slice_app_mid.
Qed.

(** Writing a marker and a hash. *)
Lemma write_hash (target h : bytes) (m : Z) (b : byte) :
  z2b m = b -> length h = 20 -> 21 <= length target ->
  (target ← set_at target 0 (z2b m); target ← copy_at target 1 21 h; Returns (target, 21)) =
    Returns ((b :: h) ++ drop 21 target, 21).
Proof.
  intros <- Hh Ht. unfold set_at, copy_at. destruct target as [|c t]; [simpl in Ht; lia|].
  rewrite (proj2 (Nat.ltb_lt 0 _)) by lia. cbn [mbind go_bind list_insert insert].
  rewrite (proj2 (Nat.ltb_ge (length _) 21)) by (simpl in *; lia). cbn [orb Nat.ltb Nat.leb mbind go_bind].
  rewrite Hh. replace (min (21 - 1) 20) with 20 by lia.
  rewrite (firstn_all2 h) by lia. done.
Qed.

Lemma deserialize_marker (b : byte) (m : Z) rest : (b2z b = m)%Z -> (0 <= m < 128)%Z ->
  deserializeVLQ (b :: rest) = (m, 1).
Proof.
  intros Hb Hm. unfold deserializeVLQ. cbn [deserializeLoop]. rewrite Hb.
  rewrite land127, Z.mod_small by lia.
  assert ((Z.land m 128 =? 128)%Z = false) as ->; [|done].
  apply Z.eqb_neq. intros H. assert (Z.testbit (Z.land m 128) 7 = true) as Ht by (by rewrite H).
  rewrite Z.land_spec, (testbit_small m 7 7) in Ht by lia. done.
Qed.

Section Scripts.
Context (s : bytes) (Hs : (Z.of_nat (length s) < 2 ^ 62)%Z).

Lemma encodedSize_range : (0 <= Z.of_nat (length s) + specialScripts < 2 ^ 64)%Z.
Proof. unfold specialScripts. lia. Qed.

Lemma compressedScriptSize_eq : compressedScriptSize s = length (cscript s).
Proof.
  unfold compressedScriptSize, cscript. destruct (isPubKeyHash s) as [h|] eqn:E.
  { by rewrite length_cons, (isPubKeyHash_length _ _ E). }
  destruct (isScriptHash s) as [h|] eqn:E'; [by rewrite length_cons, (isScriptHash_length _ _ E')|].
  rewrite u64_small, serializeSizeVLQ_vlq, length_app by apply encodedSize_range. done.
Qed.

Lemma compressedScript_eq (target : bytes) : length (cscript s) <= length target ->
  compressedScript target s =
    Returns (cscript s ++ drop (length (cscript s)) target, length (cscript s)).
Proof.
  unfold compressedScript, cscript. intros Hlen. destruct (isPubKeyHash s) as [h|] eqn:E.
  { pose proof (isPubKeyHash_length _ _ E) as Hh. simpl in Hlen. rewrite length_cons, Hh.
    by apply write_hash; [|done|lia]. }
  destruct (isScriptHash s) as [h|] eqn:E'.
  { pose proof (isScriptHash_length _ _ E') as Hh. simpl in Hlen. rewrite length_cons, Hh.
    by apply write_hash; [|done|lia]. }
  rewrite length_app in Hlen |- *. rewrite u64_small by apply encodedSize_range.
  rewrite putVLQ_vlq by (apply encodedSize_range || lia). cbn [mbind go_bind].
  set (v := vlq _) in *. unfold copy_at.
  rewrite length_app, length_drop, (proj2 (Nat.ltb_ge _ (length v))), Nat.ltb_irrefl by lia.
  cbn [orb mbind go_bind]. rewrite Nat.min_r, take_app_length, firstn_all by lia.
  rewrite drop_app_add, drop_drop, <- app_assoc. done.
Qed.

Lemma decodeCompressedScriptSize_eq rest :
  decodeCompressedScriptSize (cscript s ++ rest) = Z.of_nat (length (cscript s)).
Proof.
  unfold decodeCompressedScriptSize, cscript. destruct (isPubKeyHash s) as [h|] eqn:E.
  { simpl app. rewrite (deserialize_marker x00 0) by done. simpl. by rewrite (isPubKeyHash_length _ _ E). }
  destruct (isScriptHash s) as [h|] eqn:E'.
  { simpl app. rewrite (deserialize_marker x01 1) by done. simpl. by rewrite (isScriptHash_length _ _ E'). }
  rewrite <- app_assoc, deserializeVLQ_vlq by apply encodedSize_range.
  assert (0 < length (vlq (Z.of_nat (length s) + specialScripts)) <= 11) as Hv.
  { rewrite <- serializeSizeVLQ_vlq by apply encodedSize_range. apply sizeLoop_bound. }
  rewrite length_app. set (v := vlq _) in *.
  destruct (Nat.eqb_spec (length v) 0); [lia|]. unfold p2pkh, p2sh, specialScripts.
  rewrite !(proj2 (Z.eqb_neq _ _)) by lia. cbn [orb].
  replace (Z.of_nat (length s) + 6 - 6)%Z with (Z.of_nat (length s)) by lia.
  rewrite (u64_small (Z.of_nat _)), u64_small, i64_small by lia. lia.
Qed.

Lemma cscript_nonempty : (length (cscript s) =? 0) = false.
Proof.
  apply Nat.eqb_neq. rewrite <- compressedScriptSize_eq. unfold compressedScriptSize.
  repeat case_match; try done. unfold serializeSizeVLQ.
  pose proof (sizeLoop_bound 10 (u64 (Z.of_nat (length s) + specialScripts))). lia.
Qed.

Lemma decompressScript_eq spare : decompressScript (cscript s) spare = Returns (stored_script s).
Proof.
  unfold decompressScript. rewrite cscript_nonempty. unfold cscript, stored_script.
  destruct (isPubKeyHash s) as [h|] eqn:E.
  { rewrite (deserialize_marker x00 0) by done. cbn [Z.eqb p2pkh].
    by rewrite (reslice_mid [x00] h) by (rewrite ?(isPubKeyHash_length _ _ E); done). }
  destruct (isScriptHash s) as [h|] eqn:E'.
  { rewrite (deserialize_marker x01 1) by done. cbn [Z.eqb p2pkh p2sh Pos.eqb].
    by rewrite (reslice_mid [x01] h) by (rewrite ?(isScriptHash_length _ _ E'); done). }
  rewrite deserializeVLQ_vlq by apply encodedSize_range.
  assert (length (vlq (Z.of_nat (length s) + specialScripts)) <= 11) as Hv.
  { rewrite <- serializeSizeVLQ_vlq by apply encodedSize_range. apply sizeLoop_bound. }
  set (v := vlq _) in *. unfold p2pkh, p2sh, specialScripts.
  rewrite !(proj2 (Z.eqb_neq _ _)) by lia.
  replace (Z.of_nat (length s) + 6 - 6)%Z with (Z.of_nat (length s)) by lia.
  rewrite u64_small, i64_small, (proj2 (Z.ltb_ge _ _)) by lia.
  apply reslice_mid; [done|]. rewrite i64_small; lia.
Qed.

End Scripts.

Lemma op_eqb_eq a b : op_eqb a b = true <-> a = b.
Proof. apply bool_decide_eq_true. Qed.

(** The stored form of a script is the script itself, except for the push byte of the two
    hash forms, which is not looked at and comes back as a push of 20 bytes. *)
Lemma stored_script_byte s :
  stored_script s =
    if bool_decide (is_Some (isPubKeyHash s)) then <[2 := OPDATA20]> s
    else if bool_decide (is_Some (isScriptHash s)) then <[1 := OPDATA20]> s else s.
Proof.
  unfold stored_script. destruct (isPubKeyHash s) as [h|] eqn:E.
  - rewrite bool_decide_true by eauto. unfold isPubKeyHash in E.
    destruct (Nat.eqb_spec (length s) 25) as [Hl|]; [|done]. explode s Hl.
    case_match eqn:Hb; [|done]. simplify_eq.
    rewrite !andb_true_iff, !op_eqb_eq in Hb. unfold at_byte in Hb. simpl in Hb. destruct Hb as [[[[_ ->] ->] ->] ->]. done.
  - rewrite bool_decide_false by (intros [? [=]]). destruct (isScriptHash s) as [h|] eqn:E'; [|by rewrite bool_decide_false by (intros [? [=]])].
    rewrite bool_decide_true by eauto. unfold isScriptHash in E'.
    destruct (Nat.eqb_spec (length s) 23) as [Hl|]; [|done]. explode s Hl.
    case_match eqn:Hb; [|done]. simplify_eq.
    rewrite !andb_true_iff, !op_eqb_eq in Hb. unfold at_byte in Hb. simpl in Hb. destruct Hb as [[_ ->] ->]. done.
Qed.

(** ** Outputs, entries and keys *)

Section Entries.
Context (v : Z) (s : bytes).
Context (Hv : (0 <= v)%Z) (Hb : (9 * v + 10 < 2 ^ 64)%Z) (Hs : (Z.of_nat (length s) < 2 ^ 62)%Z).

Let amount : bytes := vlq (compressTxOutValue v).

Lemma compressedTxOutSize_eq : compressedTxOutSize v s = length (amount ++ cscript s).
Proof.
  unfold compressedTxOutSize. rewrite length_app, compressedScriptSize_eq by done.
  by rewrite serializeSizeVLQ_vlq by (by apply compress_value_roundtrip).
Qed.

Lemma compressedTxOut_eq target : length target = length (amount ++ cscript s) ->
  compressedTxOut target v s = Returns (amount ++ cscript s, length target).
Proof.
  rewrite length_app. intros Hlen. unfold compressedTxOut.
  destruct (compress_value_roundtrip v Hv Hb) as [_ Hc].
  rewrite putVLQ_vlq by (done || (fold amount; lia)). fold amount. cbn [mbind go_bind].
  rewrite drop_app_length, compressedScript_eq by (done || rewrite length_drop; lia).
  cbn [mbind go_bind]. rewrite take_app_length, drop_drop, drop_ge by lia.
  by rewrite app_nil_r, Hlen.
Qed.

Lemma decodeCompressedTxOut_eq spare :
  decodeCompressedTxOut (amount ++ cscript s) spare =
    Returns (Ok (v, stored_script s, Z.of_nat (length (amount ++ cscript s)))).
Proof.
  unfold decodeCompressedTxOut. destruct (compress_value_roundtrip v Hv Hb) as [Hd Hc].
  unfold amount. rewrite deserializeVLQ_vlq by done. fold amount.
  pose proof (cscript_nonempty s Hs) as Hne. apply Nat.eqb_neq in Hne.
  assert (length amount <= 11) as Ha.
  { unfold amount. rewrite <- serializeSizeVLQ_vlq by done. apply sizeLoop_bound. }
  assert (length (cscript s) <= 32 + length s) as Hcs.
  { rewrite <- compressedScriptSize_eq by done. unfold compressedScriptSize, serializeSizeVLQ.
    pose proof (sizeLoop_bound 10 (u64 (Z.of_nat (length s) + specialScripts))).
    repeat case_match; lia. }
  rewrite length_app, (proj2 (Nat.leb_gt _ _)) by lia. rewrite drop_app_length.
  pose proof (decodeCompressedScriptSize_eq s Hs []) as Hsz. rewrite app_nil_r in Hsz. rewrite Hsz.
  rewrite (proj2 (Z.ltb_ge _ _)), i64_small by lia.
  rewrite (reslice_mid amount (cscript s)) by lia. cbn [mbind go_bind].
  rewrite decompressScript_eq by done. cbn [mbind go_bind]. rewrite Hd. do 4 f_equal. lia.
Qed.

End Entries.

(** The stored bytes of an entry. *)
Definition entry_bytes (w : Types.UtxoWrap) : bytes :=
  vlq (2 * Types.uw_height w) ++ vlq (compressTxOutValue (Types.uw_value w)) ++ cscript (Types.uw_script w).

Definition storable (w : Types.UtxoWrap) : Prop :=
  (0 <= Types.uw_value w)%Z /\ (9 * Types.uw_value w + 10 < 2 ^ 64)%Z /\
  (0 <= Types.uw_height w < 2 ^ 32)%Z /\ (Z.of_nat (length (Types.uw_script w)) < 2 ^ 62)%Z.

Lemma SerializeUtxoWrap_eq w : Types.IsSpent w = false -> storable w ->
  SerializeUtxoWrap w = Returns (Ok (Some (entry_bytes w))).
Proof.
  intros Hsp (Hv & Hb & Hh & Hs). unfold SerializeUtxoWrap, utxoWrapHeaderCode, entry_bytes. rewrite Hsp.
  rewrite Z.shiftl_mul_pow2 by lia. change (2 ^ 1)%Z with 2%Z. rewrite (Z.mul_comm _ 2), u64_small by lia.
  rewrite compressedTxOutSize_eq, serializeSizeVLQ_vlq by lia.
  rewrite putVLQ_vlq by (lia || rewrite length_replicate; lia). cbn [mbind go_bind].
  rewrite drop_app_length, compressedTxOut_eq
    by (done || rewrite length_drop, length_replicate; lia).
  cbn [mbind go_bind]. by rewrite take_app_length.
Qed.

Lemma DeserializeUtxoWrap_eq w spare : storable w ->
  DeserializeUtxoWrap (entry_bytes w) spare =
    Returns (Ok (Types.NewUtxoWrap (Types.uw_value w) (stored_script (Types.uw_script w)) (Types.uw_height w))).
Proof.
  intros (Hv & Hb & Hh & Hs). unfold DeserializeUtxoWrap, entry_bytes.
  rewrite deserializeVLQ_vlq by lia. rewrite drop_app_length.
  pose proof (cscript_nonempty _ Hs) as Hne. apply Nat.eqb_neq in Hne.
  rewrite !length_app, (proj2 (Nat.leb_gt _ _)) by lia.
  rewrite decodeCompressedTxOut_eq by done. cbn [mbind go_bind].
  rewrite Z.shiftr_div_pow2 by lia. change (2 ^ 1)%Z with 2%Z.
  by rewrite Z.mul_comm, Z.div_mul, u32_small by lia.
Qed.

(** C40: an unspent entry (a value below 2^64/9, a height of 32 bits, a script in memory) written to
    the database is read back: the serializer fills the whole buffer it allocated, without room left
    over, with the height, the compressed value and the compressed script, each once, and from these
    bytes, whatever the capacity behind them holds, the deserializer returns the value, the height
    and the script of the entry, marked modified.  The one byte of the script that is not stored is the push byte of a script of the form
    of pay-to-public-key-hash (byte 2) or, failing that, of pay-to-script-hash (byte 1): the script
    read back is the one written with the push of 20 bytes there, and every other script is read
    back as it is. *)
Theorem utxo_store_roundtrip (w : Types.UtxoWrap) :
  Types.IsSpent w = false ->
  (0 <= Types.uw_value w)%Z -> (9 * Types.uw_value w + 10 < 2 ^ 64)%Z ->
  (0 <= Types.uw_height w < 2 ^ 32)%Z -> (Z.of_nat (length (Types.uw_script w)) < 2 ^ 62)%Z ->
  let s := Types.uw_script w in
  let s' := if bool_decide (is_Some (isPubKeyHash s)) then <[2 := OPDATA20]> s
            else if bool_decide (is_Some (isScriptHash s)) then <[1 := OPDATA20]> s else s in
  let b := vlq (2 * Types.uw_height w) ++ vlq (compressTxOutValue (Types.uw_value w)) ++ cscript s in
  SerializeUtxoWrap w = Returns (Ok (Some b)) /\
    length b = serializeSizeVLQ (2 * Types.uw_height w) + compressedTxOutSize (Types.uw_value w) s /\
    forall spare, DeserializeUtxoWrap b spare =
      Returns (Ok (Types.NewUtxoWrap (Types.uw_value w) s' (Types.uw_height w))).
Proof.
  intros Hsp Hv Hb Hh Hs s s' b.
  split; [by apply SerializeUtxoWrap_eq|].
  split; [unfold b; rewrite length_app, compressedTxOutSize_eq, serializeSizeVLQ_vlq by (done || lia); done|].
  intros spare. replace s' with (stored_script s) by apply stored_script_byte. by apply DeserializeUtxoWrap_eq.
Qed.

Lemma vlq_inj n m r r' : (0 <= n < 2 ^ 64)%Z -> (0 <= m < 2 ^ 64)%Z ->
  vlq n ++ r = vlq m ++ r' -> n = m /\ r = r'.
Proof.
  intros Hn Hm E. pose proof (deserializeVLQ_vlq n r Hn) as D. rewrite E in D.
  rewrite deserializeVLQ_vlq in D by done. by simplify_eq.
Qed.

Lemma digits_length fuel k mask n : (0 <= n < 2 ^ Z.of_nat (7 * k))%Z -> length (digits fuel mask n) <= max 1 k.
Proof.
  revert k mask n. induction fuel as [|f IH]; intros k mask n Hn; cbn [digits length]; [lia|].
  destruct (Z.leb_spec n 127); [simpl; lia|]. destruct (shiftr7 n) as (H1 & H2 & H3); [lia|].
  destruct k as [|k]; [simpl in Hn; lia|]. rewrite pow7_S in Hn.
  specialize (IH k 128%Z (Z.shiftr n 7 - 1)%Z ltac:(lia)). destruct k; [simpl in Hn|]; lia.
Qed.

Lemma length_vlq_u32 n : (0 <= n < 2 ^ 32)%Z -> 0 < length (vlq n) <= 5.
Proof.
  intros Hn. unfold vlq. rewrite length_reverse. split.
  - rewrite (digits_S 9), length_cons. lia.
  - apply (digits_length 10 5). change (2 ^ Z.of_nat (7 * 5))%Z with (2 ^ 35)%Z. lia.
Qed.

Definition outpoint_ok (op : OutPoint) : Prop :=
  length (op_hash op) = Crypto.HashSize /\ (0 <= op_index op < 2 ^ 32)%Z.

(** The key of an entry is the hash followed by the index, whatever the pooled buffer held. *)
Lemma utxoKey_eq key op : length key = Crypto.HashSize + 5 -> outpoint_ok op ->
  utxoKey key op = Returns (op_hash op ++ vlq (op_index op)).
Proof.
  intros Hk [Hh Hi]. unfold utxoKey. rewrite serializeSizeVLQ_vlq by lia.
  destruct (length_vlq_u32 _ Hi) as [_ Hv].
  unfold reslice. rewrite app_nil_r, Hk, !(proj2 (Z.ltb_ge _ _)) by lia. cbn [orb mbind go_bind].
  rewrite Nat2Z.id. unfold slice. rewrite drop_0, Nat.sub_0_r. set (k := take _ key).
  assert (length k = Crypto.HashSize + length (vlq (op_index op))) as Hlen.
  { unfold k. rewrite length_take. lia. }
  unfold copy_at. rewrite Hlen, Nat.ltb_irrefl. cbn [orb Nat.ltb Nat.leb mbind go_bind].
  rewrite Nat.sub_0_r, Hh, Nat.min_r, take_0, (firstn_all2 (op_hash op)) by lia. cbn [Nat.add app].
  rewrite <- Hh, drop_app_length, take_app_length.
  rewrite putVLQ_vlq by (lia || rewrite length_drop, Hlen, Hh; lia). cbn [mbind go_bind].
  rewrite (drop_ge (drop _ _)) by (rewrite length_drop; lia). by rewrite app_nil_r.
Qed.

Lemma utxoKey_inj op op' : outpoint_ok op -> outpoint_ok op' ->
  op_hash op ++ vlq (op_index op) = op_hash op' ++ vlq (op_index op') -> op = op'.
Proof.
  intros [Hh Hi] [Hh' Hi'] E. apply app_inj_1 in E as [E1 E2]; [|lia].
  destruct (vlq_inj (op_index op) (op_index op') [] []) as [Ei _]; [lia..|by rewrite !app_nil_r|].
  destruct op, op'. simpl in *. by subst.
Qed.

Lemma utxo_store_roundtrip_witness :
  let s := PayToPubKeyHashScript (replicate 20 x0a) in
  let w := Types.NewUtxoWrap 500000000 s 1000 in
  let b := vlq 2000 ++ vlq (compressTxOutValue 500000000) ++ cscript s in
  SerializeUtxoWrap w = Returns (Ok (Some b)) /\
    length b = serializeSizeVLQ 2000 + compressedTxOutSize 500000000 s /\
    forall spare, DeserializeUtxoWrap b spare = Returns (Ok (Types.NewUtxoWrap 500000000 s 1000)).
Proof.
  apply (utxo_store_roundtrip (Types.NewUtxoWrap 500000000 (PayToPubKeyHashScript (replicate 20 x0a)) 1000));
    [reflexivity|vm_compute; intuition congruence..].
Defined.
