(* ===== verification/Keys.v ===== *)
(** * Keys: the names of database records (src/storage/key/key.go, src/core/chain/dbkey.go)

    A key is a rooted path such as [/bk/<hash>]; the constructors normalise it with Go's
    [path.Clean].  [Module Key] is the key type, [Module DbKey] the record names of the
    chain database.  The theorem is that records never share a name. *)

From Stdlib Require Import Strings.String.
From S2P Require Import Prelude Crypto Types Compress CompressFacts.
Import Compress.
Open Scope list_scope.

(** A string literal as bytes. *)
Definition lit (s : string) : bytes := String.list_byte_of_string s.

Definition slash : byte := x2f.

(** ** Paths *)

(** [strings.Split(s, "/")]. *)
Fixpoint split_slash (s : bytes) : list bytes :=
  match s with
  | [] => [[]]
  | c :: s =>
      if bool_decide (c = slash) then [] :: split_slash s
      else match split_slash s with
           | w :: ws => (c :: w) :: ws
           | [] => [[c]]
           end
  end.

(** [strings.Join(ws, "/")]. *)
Fixpoint join_slash (ws : list bytes) : bytes :=
  match ws with
  | [] => []
  | [w] => w
  | w :: ws => w ++ slash :: join_slash ws
  end.

(** [path.Clean] of a rooted path: empty and [.] elements go, [..] removes the element
    before it, and at the root itself. *)
Definition clean_step (stack : list bytes) (w : bytes) : list bytes :=
  if bool_decide (w = []) || bool_decide (w = lit ".") then stack
  else if bool_decide (w = lit "..") then tail stack
  else w :: stack.

Definition path_Clean (s : bytes) : bytes :=
  slash :: join_slash (reverse (foldl clean_step [] (split_slash s))).

(** Go's [<] on strings: byte by byte, a proper prefix first. *)
Fixpoint bytes_ltb (a b : bytes) : bool :=
  match a, b with
  | _, [] => false
  | [], _ :: _ => true
  | x :: a, y :: b => (b2z x <? b2z y)%Z || ((b2z x =? b2z y)%Z && bytes_ltb a b)
  end.

Definition has_prefix (pre s : bytes) : bool := bool_decide (take (length pre) s = pre).

Module Key.

Definition Clean (k : bytes) : bytes :=
  match k with
  | [] => [slash]
  | c :: _ => if bool_decide (c = slash) then path_Clean k else path_Clean (slash :: k)
  end.

Definition NewKey (s : bytes) : bytes := Clean s.

Definition NewKeyWithPathList (l : list bytes) : bytes := NewKey (join_slash l).

(** [RawKey]: a malformed key is a programming error. *)
Definition RawKey (s : bytes) : go bytes :=
  match s with
  | [] => Returns [slash]
  | c :: _ =>
      if negb (bool_decide (c = slash)) || ((1 <? length s) && bool_decide (last s = Some slash))
      then Panics else Returns s
  end.

Definition List_ (k : bytes) : list bytes := tail (split_slash k).

Fixpoint lessLoop (list1 list2 : list bytes) : bool :=
  match list1, list2 with
  | [], l2 => 0 <? length l2
  | _ :: _, [] => false
  | c1 :: l1, c2 :: l2 =>
      if bytes_ltb c1 c2 then true else if bytes_ltb c2 c1 then false else lessLoop l1 l2
  end.

Definition Less (k k2 : bytes) : bool := lessLoop (List_ k) (List_ k2).

Definition BaseName (k : bytes) : bytes := default [] (last (List_ k)).

Definition Base (k : bytes) : bytes := NewKey (BaseName k).

Definition Parent (k : bytes) : go bytes :=
  let n := List_ k in
  if length n =? 1 then RawKey [slash]
  else Returns (NewKey (join_slash (take (length n - 1) n))).

Definition Child (k k2 : bytes) : go bytes :=
  if bool_decide (k = [slash]) then Returns k2
  else if bool_decide (k2 = [slash]) then Returns k
  else RawKey (k ++ k2).

Definition ChildString (k s : bytes) : bytes :=
  match s with
  | [] => k
  | c :: _ => NewKey (k ++ (if bool_decide (c = slash) then s else slash :: s))
  end.

Definition IsAncestorOf (k other : bytes) : bool :=
  if bool_decide (other = k) then false else has_prefix k other.

Definition IsDescendantOf (k other : bytes) : bool :=
  if bool_decide (other = k) then false else has_prefix other k.

Definition IsTopLevel (k : bytes) : bool := length (List_ k) =? 1.

End Key.

(** ** Hexadecimal text *)

(** One digit, and [hex.EncodeToString]. *)
Definition hex_digit (n : Z) : byte := default x00 (lit "0123456789abcdef" !! Z.to_nat n).

Fixpoint hex_encode (b : bytes) : bytes :=
  match b with
  | [] => []
  | c :: b => hex_digit (b2z c / 16) :: hex_digit (b2z c mod 16) :: hex_encode b
  end.

(** [fmt.Sprintf("%x", n)] of an unsigned integer; sixteen digits are enough for 64 bits. *)
Fixpoint hex_loop (fuel : nat) (n : Z) (acc : bytes) : bytes :=
  match fuel with
  | O => acc
  | S fuel =>
      let acc := hex_digit (n mod 16) :: acc in
      if (n <? 16)%Z then acc else hex_loop fuel (n / 16) acc
  end.

Definition hex_uint (n : Z) : bytes := hex_loop 16 n [].

(** [HashType.String]. *)
Definition hash_String (h : bytes) : bytes := hex_encode (Crypto.reverseBytes h).

(** ** Record names *)

Module DbKey.
Import Key.

Definition blkBase : bytes := NewKey (lit "/bk").
Definition txBase : bytes := NewKey (lit "/tx").
Definition splitTxHashBase : bytes := NewKey (lit "/split").
Definition blkHashBase : bytes := NewKey (lit "/bh").
Definition txixBase : bytes := NewKey (lit "/ti").
Definition receiptBase : bytes := NewKey (lit "/rc").
Definition candidatesBase : bytes := NewKey (lit "/candidates").
Definition splitAddrBase : bytes := NewKey (lit "/sap").
Definition addrUtxoBase : bytes := NewKey (lit "/aut").
Definition addrTokenUtxoBase : bytes := NewKey (lit "/atut").
Definition secBloomBitSetBase : bytes := NewKey (lit "/sec/bf").

Definition TailKey : bytes := lit "/tail".
Definition GenesisKey : bytes := lit "/genesis".
Definition EternalKey : bytes := lit "/eternal".
Definition PeriodKey : bytes := lit "/period/current".
Definition MissrateKey : bytes := lit "/missrate".
Definition SectionKey : bytes := lit "/sec".

Definition BlockKey (h : bytes) : bytes := ChildString blkBase (hash_String h).
Definition ReceiptKey (h : bytes) : bytes := ChildString receiptBase (hash_String h).
Definition TxKey (h : bytes) : bytes := ChildString txBase (hash_String h).
Definition SplitTxHashKey (h : bytes) : bytes := ChildString splitTxHashBase (hash_String h).
Definition BlockHashKey (height : Z) : bytes := ChildString blkHashBase (hex_uint height).
Definition TxIndexKey (h : bytes) : bytes := ChildString txixBase (hash_String h).
Definition CandidatesKey (h : bytes) : bytes := ChildString candidatesBase (hash_String h).
Definition SplitAddrKey (hash : bytes) : bytes := ChildString splitAddrBase (hex_encode hash).

Definition AddrAllUtxoKey (addrHash : bytes) : bytes := ChildString addrUtxoBase (hex_encode addrHash).

Definition AddrUtxoKey (addrHash : bytes) (op : OutPoint) : bytes :=
  ChildString (ChildString (ChildString addrUtxoBase (hex_encode addrHash))
    (hash_String (op_hash op))) (hex_uint (op_index op)).

Definition AddrAllTokenUtxoKey (addrHash : bytes) (tid : OutPoint) : bytes :=
  ChildString (ChildString (ChildString addrTokenUtxoBase (hex_encode addrHash))
    (hash_String (op_hash tid))) (hex_uint (op_index tid)).

Definition AddrTokenUtxoKey (addrHash : bytes) (tid op : OutPoint) : bytes :=
  ChildString (ChildString (ChildString (ChildString (ChildString addrTokenUtxoBase (hex_encode addrHash))
    (hash_String (op_hash tid))) (hex_uint (op_index tid)))
    (hash_String (op_hash op))) (hex_uint (op_index op)).

Definition SecBloomBitSetKey (section bit : Z) : bytes :=
  ChildString (ChildString secBloomBitSetBase (hex_uint section)) (hex_uint bit).

End DbKey.

(** * Record names are normal forms and never clash *)

Import Compress Key DbKey.
Open Scope list_scope.

(** ** Paths *)

Definition render (ws : list bytes) : bytes := concat (map (cons slash) ws).

(** A path element that [path.Clean] keeps. *)
Definition good (w : bytes) : Prop := w <> [] /\ (slash ∉ w) /\ w <> lit "." /\ w <> lit "..".

Lemma split_slash_word w : slash ∉ w -> split_slash w = [w].
Proof.
  induction w as [|c w IH]; intros Hw; [done|]. rewrite not_elem_of_cons in Hw. destruct Hw as [Hc Hw].
  cbn [split_slash]. rewrite bool_decide_eq_false_2 by done. by rewrite IH.
Qed.

Lemma split_slash_app w s : slash ∉ w -> split_slash (w ++ slash :: s) = w :: split_slash s.
Proof.
  induction w as [|c w IH]; intros Hw; [done|]. rewrite not_elem_of_cons in Hw. destruct Hw as [Hc Hw].
  cbn [split_slash app]. rewrite bool_decide_eq_false_2 by done. by rewrite IH.
Qed.

Lemma split_slash_render ws : Forall (fun w => slash ∉ w) ws -> split_slash (render ws) = [] :: ws.
Proof.
  induction ws as [|w ws IH]; intros H; [done|]. apply Forall_cons in H as [Hw H].
  specialize (IH H). unfold render in *. cbn [map concat app split_slash].
  rewrite bool_decide_eq_true_2 by done. f_equal.
  destruct ws as [|w' ws]; [rewrite app_nil_r; by apply split_slash_word|].
  cbn [map concat app] in *. rewrite split_slash_app by done. cbn [split_slash] in IH.
  rewrite bool_decide_eq_true_2 in IH by done. by injection IH as ->.
Qed.

Lemma join_render ws : ws <> [] -> slash :: join_slash ws = render ws.
Proof.
  induction ws as [|w ws IH]; intros Hne; [done|]. destruct ws as [|w' ws].
  { unfold render. simpl. by rewrite app_nil_r. }
  unfold render in *. cbn [map concat app]. f_equal. change (join_slash (w :: w' :: ws)) with
    (w ++ slash :: join_slash (w' :: ws)). by rewrite IH.
Qed.

Lemma clean_good ws stack : Forall good ws -> foldl clean_step stack ws = reverse ws ++ stack.
Proof.
  revert stack. induction ws as [|w ws IH]; intros stack H; [done|].
  apply Forall_cons in H as [(H1 & H2 & H3 & H4) H]. cbn [foldl].
  rewrite IH, reverse_cons, <- app_assoc by done. f_equal. unfold clean_step.
  by rewrite !bool_decide_eq_false_2 by done.
Qed.

Lemma path_Clean_render ws : Forall good ws -> ws <> [] -> path_Clean (render ws) = render ws.
Proof.
  intros H Hne. unfold path_Clean. rewrite split_slash_render.
  2:{ eapply Forall_impl; [exact H|]. by intros w (_ & ? & _). }
  cbn [foldl]. change (clean_step [] []) with (@nil bytes).
  by rewrite clean_good, app_nil_r, reverse_involutive, join_render.
Qed.

Lemma ChildString_render ws s : Forall good ws -> good s -> ChildString (render ws) s = render (ws ++ [s]).
Proof.
  intros H Hs. pose proof Hs as (H1 & H2 & _ & _). unfold ChildString. destruct s as [|c s]; [done|].
  rewrite not_elem_of_cons in H2. rewrite bool_decide_eq_false_2 by (destruct H2; done).
  assert (render ws ++ slash :: c :: s = render (ws ++ [c :: s])) as ->.
  { unfold render. rewrite map_app, concat_app. simpl. by rewrite app_nil_r. }
  unfold NewKey, Clean. destruct (render (ws ++ [c :: s])) as [|b k] eqn:E.
  { unfold render in E. rewrite map_app, concat_app in E. apply app_eq_nil in E as [_ E]. done. }
  assert (b = slash) as ->.
  { unfold render in E. destruct ws; simpl in E; congruence. }
  rewrite bool_decide_eq_true_2 by done. rewrite <- E.
  apply path_Clean_render; [apply Forall_app; auto|by destruct ws].
Qed.

Lemma render_inj ws ws' : Forall good ws -> Forall good ws' -> render ws = render ws' -> ws = ws'.
Proof.
  intros H H' E.
  assert (forall l, Forall good l -> split_slash (render l) = [] :: l) as S.
  { intros l Hl. apply split_slash_render. eapply Forall_impl; [exact Hl|]. by intros w (_ & ? & _). }
  apply (f_equal split_slash) in E. rewrite !S in E by done. by injection E.
Qed.

(** ** Hexadecimal text *)

Definition is_hex (c : byte) : Prop := c ∈ lit "0123456789abcdef".

Lemma hex_digit_cases (P : Z -> byte -> Prop) :
  (forall k : nat, k < 16 -> P (Z.of_nat k) (hex_digit (Z.of_nat k))) ->
  forall n, (0 <= n < 16)%Z -> P n (hex_digit n).
Proof. intros H n Hn. rewrite <- (Z2Nat.id n) by lia. apply H. lia. Qed.

Lemma hex_digit_hex n : (0 <= n < 16)%Z -> is_hex (hex_digit n).
Proof.
  apply (hex_digit_cases (fun _ c => is_hex c)). intros k Hk. unfold is_hex, hex_digit. rewrite Nat2Z.id.
  destruct (lookup_lt_is_Some_2 (lit "0123456789abcdef") k) as [c Hc]; [done|].
  rewrite Hc. by eapply list_elem_of_lookup_2.
Qed.

Lemma hex_digit_inj n m : (0 <= n < 16)%Z -> (0 <= m < 16)%Z -> hex_digit n = hex_digit m -> n = m.
Proof.
  intros Hn Hm E. unfold hex_digit in E.
  destruct (lookup_lt_is_Some_2 (lit "0123456789abcdef") (Z.to_nat n)) as [a Ha]; [simpl; lia|].
  destruct (lookup_lt_is_Some_2 (lit "0123456789abcdef") (Z.to_nat m)) as [b Hb]; [simpl; lia|].
  rewrite Ha, Hb in E. simpl in E. subst b.
  assert (NoDup (lit "0123456789abcdef")) as Hnd by (apply (bool_decide_unpack _); reflexivity).
  pose proof (NoDup_lookup _ _ _ _ Hnd Ha Hb). lia.
Qed.

Lemma hex_good w : w <> [] -> Forall is_hex w -> good w.
Proof.
  intros Hne H. assert (forall c, is_hex c -> c <> slash /\ c <> x2e) as Hc.
  { intros c Hc. unfold is_hex in Hc. split; intros ->; apply (bool_decide_pack _) in Hc; done. }
  split; [done|]. split; [|split].
  - rewrite Forall_forall in H. intros Hin. by destruct (Hc slash (H _ Hin)).
  - intros ->. apply Forall_cons in H as [H _]. by destruct (Hc _ H).
  - intros ->. apply Forall_cons in H as [H _]. by destruct (Hc _ H).
Qed.

Lemma byte_digits c : (0 <= b2z c / 16 < 16)%Z /\ (0 <= b2z c mod 16 < 16)%Z.
Proof.
  pose proof (b2z_range c). pose proof (Z.mod_pos_bound (b2z c) 16 ltac:(lia)).
  pose proof (Z.div_mod (b2z c) 16 ltac:(lia)). lia.
Qed.

Lemma hex_encode_hex b : Forall is_hex (hex_encode b).
Proof.
  induction b as [|c b IH]; [constructor|]. destruct (byte_digits c).
  cbn [hex_encode]. do 2 (apply Forall_cons; split; [by apply hex_digit_hex|]). done.
Qed.

Lemma length_hex_encode b : length (hex_encode b) = 2 * length b.
Proof. induction b; simpl; lia. Qed.

Lemma hex_encode_inj b b' : hex_encode b = hex_encode b' -> b = b'.
Proof.
  revert b'. induction b as [|c b IH]; intros [|c' b'] E; try done.
  injection E as E1 E2 E3. destruct (byte_digits c), (byte_digits c').
  apply hex_digit_inj in E1, E2; [|done..]. rewrite (IH _ E3). f_equal. apply (inj b2z).
  rewrite (Z.div_mod (b2z c) 16), (Z.div_mod (b2z c') 16) by lia. congruence.
Qed.

Lemma hash_String_hex h : Forall is_hex (hash_String h).
Proof. apply hex_encode_hex. Qed.

Lemma length_hash_String h : length (hash_String h) = 2 * length h.
Proof. unfold hash_String. by rewrite length_hex_encode, Crypto.reverseBytes_reverse, length_reverse. Qed.

Lemma hash_String_inj h h' : hash_String h = hash_String h' -> h = h'.
Proof.
  unfold hash_String. rewrite !Crypto.reverseBytes_reverse. intros E%hex_encode_inj. by apply (inj reverse).
Qed.

(** The digits of [hex_uint], without an accumulator. *)
Lemma hex_loop_app fuel n acc : hex_loop fuel n acc = hex_loop fuel n [] ++ acc.
Proof.
  revert n acc. induction fuel as [|f IH]; intros n acc; [done|]. cbn [hex_loop].
  case_match; [done|]. rewrite IH, (IH _ [_]), <- app_assoc. done.
Qed.

Lemma hex_loop_hex fuel n acc : (0 <= n)%Z -> Forall is_hex acc -> Forall is_hex (hex_loop fuel n acc).
Proof.
  revert n acc. induction fuel as [|f IH]; intros n acc Hn Ha; [done|]. cbn [hex_loop].
  pose proof (Z.mod_pos_bound n 16 ltac:(lia)).
  assert (Forall is_hex (hex_digit (n mod 16) :: acc)) by (constructor; [by apply hex_digit_hex|done]).
  case_match; [done|]. apply IH; [|done]. by apply Z.div_pos.
Qed.

Lemma hex_loop_length fuel n k : (0 <= n < 16 ^ Z.of_nat k)%Z -> 0 < k -> 0 < fuel ->
  0 < length (hex_loop fuel n []) <= k.
Proof.
  revert n k. induction fuel as [|f IH]; intros n k Hn Hk Hf; [lia|]. cbn [hex_loop].
  destruct (Z.ltb_spec n 16); [simpl; lia|]. rewrite hex_loop_app, length_app. simpl.
  destruct k as [|k]; [lia|]. rewrite Nat2Z.inj_succ, Z.pow_succ_r in Hn by lia.
  destruct f as [|f]; [simpl; lia|].
  destruct k as [|k]; [simpl in Hn; lia|].
  assert (0 <= n / 16 < 16 ^ Z.of_nat (S k))%Z as Hd.
  { split; [apply Z.div_pos; lia|]. apply Z.div_lt_upper_bound; lia. }
  specialize (IH (n / 16)%Z (S k) Hd). lia.
Qed.

Lemma hex_loop_inj fuel n m : (0 <= n < 16 ^ Z.of_nat fuel)%Z -> (0 <= m < 16 ^ Z.of_nat fuel)%Z ->
  hex_loop fuel n [] = hex_loop fuel m [] -> n = m.
Proof.
  revert n m. induction fuel as [|f IH]; intros n m Hn Hm E; [simpl in Hn, Hm; lia|].
  rewrite Nat2Z.inj_succ, Z.pow_succ_r in Hn, Hm by lia. cbn [hex_loop] in E.
  pose proof (Z.mod_pos_bound n 16 ltac:(lia)) as Bn. pose proof (Z.mod_pos_bound m 16 ltac:(lia)) as Bm.
  pose proof (Z.div_mod n 16 ltac:(lia)) as Dn. pose proof (Z.div_mod m 16 ltac:(lia)) as Dm.
  rewrite !(hex_loop_app _ _ [_]) in E.
  assert (forall k, (0 <= k < 16)%Z -> (k / 16 = 0)%Z) as D0 by (intros; by apply Z.div_small).
  destruct (Z.ltb_spec n 16), (Z.ltb_spec m 16).
  - injection E as E. apply hex_digit_inj in E; [|done..]. rewrite !Z.mod_small in E; lia.
  - apply (app_inj_2 [] _ [_] [_]) in E as [E1 E2]; [|done]. destruct f as [|f]; [simpl in Hm; lia|].
    pose proof (hex_loop_length (S f) (m / 16) (S f)). rewrite <- E1 in *. simpl in *. lia.
  - apply (app_inj_2 _ [] [_] [_]) in E as [E1 E2]; [|done]. destruct f as [|f]; [simpl in Hn; lia|].
    pose proof (hex_loop_length (S f) (n / 16) (S f)). rewrite E1 in *. simpl in *. lia.
  - apply app_inj_2 in E as [E1 E2]; [|done]. injection E2 as E2. apply hex_digit_inj in E2; [|done..].
    apply IH in E1; lia.
Qed.

(** ** Records *)

(** The records of the chain database; [RUtxo] is the binary key of an unspent output. *)
Inductive record :=
| RTail | RGenesis | REternal | RPeriod | RMissrate | RSection
| RBlock (h : bytes) | RReceipt (h : bytes) | RTx (h : bytes) | RSplitTx (h : bytes)
| RBlockHash (height : Z) | RTxIndex (h : bytes) | RCandidates (h : bytes)
| RSplitAddr (a : bytes) | RAddrUtxo (a : bytes) (op : OutPoint)
| RAddrTokenUtxo (a : bytes) (tid op : OutPoint) | RSecBloom (section bit : Z)
| RUtxo (op : OutPoint).

(** The key the code computes for a record; [buf] is the pooled buffer it is written to. *)
Definition record_key (buf : bytes) (r : record) : go bytes :=
  match r with
  | RTail => Returns TailKey
  | RGenesis => Returns GenesisKey
  | REternal => Returns EternalKey
  | RPeriod => Returns PeriodKey
  | RMissrate => Returns MissrateKey
  | RSection => Returns SectionKey
  | RBlock h => Returns (BlockKey h)
  | RReceipt h => Returns (ReceiptKey h)
  | RTx h => Returns (TxKey h)
  | RSplitTx h => Returns (SplitTxHashKey h)
  | RBlockHash n => Returns (BlockHashKey n)
  | RTxIndex h => Returns (TxIndexKey h)
  | RCandidates h => Returns (CandidatesKey h)
  | RSplitAddr a => Returns (SplitAddrKey a)
  | RAddrUtxo a op => Returns (AddrUtxoKey a op)
  | RAddrTokenUtxo a tid op => Returns (AddrTokenUtxoKey a tid op)
  | RSecBloom s b => Returns (SecBloomBitSetKey s b)
  | RUtxo op => utxoKey buf op
  end.

(** Hashes of 32 bytes, addresses of 20, and 32-bit numbers. *)
Definition hash_ok (h : bytes) : Prop := length h = Crypto.HashSize.
Definition addr_ok (a : bytes) : Prop := length a = Crypto.AddrSize.
Definition u32_ok (n : Z) : Prop := (0 <= n < 2 ^ 32)%Z.

Definition record_ok (r : record) : Prop :=
  match r with
  | RBlock h | RReceipt h | RTx h | RSplitTx h | RTxIndex h | RCandidates h => hash_ok h
  | RBlockHash n => u32_ok n
  | RSplitAddr a => addr_ok a
  | RAddrUtxo a op => addr_ok a /\ outpoint_ok op
  | RAddrTokenUtxo a tid op => addr_ok a /\ outpoint_ok tid /\ outpoint_ok op
  | RSecBloom s b => u32_ok s /\ u32_ok b
  | RUtxo op => outpoint_ok op
  | _ => True
  end.

Definition op_path (op : OutPoint) : list bytes := [hash_String (op_hash op); hex_uint (op_index op)].

(** The path of a text record. *)
Definition record_path (r : record) : list bytes :=
  match r with
  | RTail => [lit "tail"]
  | RGenesis => [lit "genesis"]
  | REternal => [lit "eternal"]
  | RPeriod => [lit "period"; lit "current"]
  | RMissrate => [lit "missrate"]
  | RSection => [lit "sec"]
  | RBlock h => [lit "bk"; hash_String h]
  | RReceipt h => [lit "rc"; hash_String h]
  | RTx h => [lit "tx"; hash_String h]
  | RSplitTx h => [lit "split"; hash_String h]
  | RBlockHash n => [lit "bh"; hex_uint n]
  | RTxIndex h => [lit "ti"; hash_String h]
  | RCandidates h => [lit "candidates"; hash_String h]
  | RSplitAddr a => [lit "sap"; hex_encode a]
  | RAddrUtxo a op => lit "aut" :: hex_encode a :: op_path op
  | RAddrTokenUtxo a tid op => lit "atut" :: hex_encode a :: op_path tid ++ op_path op
  | RSecBloom s b => [lit "sec"; lit "bf"; hex_uint s; hex_uint b]
  | RUtxo _ => []
  end.

Lemma u32_16 n : u32_ok n -> (0 <= n < 16 ^ Z.of_nat 8)%Z /\ (0 <= n < 16 ^ Z.of_nat 16)%Z.
Proof.
  unfold u32_ok. change (16 ^ Z.of_nat 8)%Z with (2 ^ 32)%Z. change (16 ^ Z.of_nat 16)%Z with (2 ^ 64)%Z. lia.
Qed.

Lemma hex_uint_length n : u32_ok n -> 0 < length (hex_uint n) <= 8.
Proof. intros [H _]%u32_16. by apply (hex_loop_length 16 n 8); [|lia..]. Qed.

Lemma hex_uint_inj n m : u32_ok n -> u32_ok m -> hex_uint n = hex_uint m -> n = m.
Proof. intros [_ Hn]%u32_16 [_ Hm]%u32_16. by apply hex_loop_inj. Qed.

Lemma good_hash h : hash_ok h -> good (hash_String h).
Proof.
  intros H. apply hex_good; [|apply hash_String_hex].
  intros E. apply (f_equal length) in E. rewrite length_hash_String, H in E. done.
Qed.

Lemma good_addr a : addr_ok a -> good (hex_encode a).
Proof.
  intros H. apply hex_good; [|apply hex_encode_hex].
  intros E. apply (f_equal length) in E. rewrite length_hex_encode, H in E. done.
Qed.

Lemma good_u32 n : u32_ok n -> good (hex_uint n).
Proof.
  intros H. apply hex_good; [|apply hex_loop_hex; [by destruct H|done]].
  intros E. pose proof (hex_uint_length n H) as Hl. rewrite E in Hl. simpl in Hl. lia.
Qed.

(** A literal path element. *)
Ltac good_lit := repeat split; try discriminate; apply (bool_decide_unpack _); reflexivity.

Create HintDb keys.
#[export] Hint Resolve good_hash good_addr good_u32 : keys.
#[export] Hint Unfold hash_ok addr_ok u32_ok : keys.
#[export] Hint Extern 1 (good (lit _)) => good_lit : keys.
#[export] Hint Extern 1 (good (_ :: _)) => good_lit : keys.
#[export] Hint Extern 0 (Forall good _) => repeat (apply Forall_cons; split); [..|by apply Forall_nil] : keys.

(** One more path element; [NewKey] of a literal path. *)
Ltac key_path :=
  repeat match goal with
  | |- context [ChildString (NewKey (lit ?s)) _] =>
      let ws := eval vm_compute in (tail (split_slash (lit s))) in
      change (NewKey (lit s)) with (render ws)
  | |- context [ChildString (render ?ws) ?s] =>
      rewrite (ChildString_render ws s) by eauto with keys; cbn [app]
  end.

Lemma record_path_good r : record_ok r -> (forall op, r <> RUtxo op) -> Forall good (record_path r).
Proof.
  intros H Hr. destruct r; simpl in *; unfold outpoint_ok in *; try (by destruct (Hr op));
    destruct_and?; unfold op_path; cbn [app];
    repeat (apply Forall_cons; split); try apply Forall_nil; eauto with keys.
Qed.

Lemma record_key_render buf r : record_ok r -> (forall op, r <> RUtxo op) ->
  record_key buf r = Returns (render (record_path r)).
Proof.
  intros H Hr. pose proof (record_path_good r H Hr) as G.
  destruct r; simpl record_key; simpl record_path in *; try (by destruct (Hr op)); try reflexivity; f_equal.
  all: repeat (apply Forall_cons in G as [? G]).
  all: unfold BlockKey, ReceiptKey, TxKey, SplitTxHashKey, BlockHashKey, TxIndexKey, CandidatesKey,
    SplitAddrKey, AddrUtxoKey, AddrTokenUtxoKey, SecBloomBitSetKey, blkBase, txBase, splitTxHashBase,
    blkHashBase, txixBase, receiptBase, candidatesBase, splitAddrBase, addrUtxoBase, addrTokenUtxoBase,
    secBloomBitSetBase.
  all: key_path; reflexivity.
Qed.

(** A text key is never as long as the key of an unspent output (33 to 37 bytes). *)
Lemma record_path_length r : record_ok r -> (forall op, r <> RUtxo op) ->
  ~ (33 <= length (render (record_path r)) <= 37).
Proof.
  intros H Hr. destruct r; simpl in H; unfold outpoint_ok, hash_ok, addr_ok in *; destruct_and?;
    try (by destruct (Hr op)); unfold render; cbn [record_path op_path map concat app length lit];
    repeat rewrite ?length_app, ?length_cons, ?length_hash_String, ?length_hex_encode;
    repeat match goal with
    | E : length ?x = _ |- context [length ?x] => rewrite E
    | H : u32_ok ?n |- context [hex_uint ?n] =>
        lazymatch goal with
        | _ : 0 < length (hex_uint n) <= 8 |- _ => fail
        | _ => pose proof (hex_uint_length n H)
        end
    end; unfold Crypto.HashSize, Crypto.AddrSize; simpl; lia.
Qed.

Lemma op_path_inj op op' : outpoint_ok op -> outpoint_ok op' -> op_path op = op_path op' -> op = op'.
Proof.
  intros [_ Hi] [_ Hi'] E. injection E as E1 E2. apply hash_String_inj in E1.
  apply hex_uint_inj in E2; [|done..]. destruct op, op'. simpl in *. by subst.
Qed.

Lemma record_path_inj r r' : record_ok r -> record_ok r' ->
  (forall op, r <> RUtxo op) -> (forall op, r' <> RUtxo op) ->
  record_path r = record_path r' -> r = r'.
Proof.
  intros H H' Hr Hr' E. destruct r; try (by destruct (Hr op)); destruct r'; try (by destruct (Hr' op));
    simpl in E; try discriminate E; try reflexivity; simpl in H, H'; destruct_and?.
  all: try (injection E as E; first [apply hash_String_inj in E | apply hex_uint_inj in E; [|done..]
    | apply hex_encode_inj in E]; by subst).
  - injection E as E1 E2 E3. apply hex_encode_inj in E1. f_equal; [done|].
    apply op_path_inj; [done..|]. unfold op_path. congruence.
  - injection E as E1 E2 E3 E4 E5. apply hex_encode_inj in E1.
    f_equal; [done| |]; (apply op_path_inj; [done..|]; unfold op_path; congruence).
  - injection E as E1 E2. apply hex_uint_inj in E1, E2; [|done..]. by subst.
Qed.

Lemma record_key_inj (buf buf' : bytes) (r r' : record) :
  length buf = Crypto.HashSize + 5 -> length buf' = Crypto.HashSize + 5 ->
  record_ok r -> record_ok r' -> record_key buf r = record_key buf' r' -> r = r'.
Proof.
  intros Hb Hb' H H' E.
  assert (forall r, (exists op, r = RUtxo op) \/ (forall op, r <> RUtxo op)) as D.
  { intros r0. destruct r0; try (by right); left; eauto. }
  assert (forall b op, length b = Crypto.HashSize + 5 -> outpoint_ok op -> exists k,
    record_key b (RUtxo op) = Returns k /\ 33 <= length k <= 37) as U.
  { intros b op Hl Hop. eexists. split; [by apply utxoKey_eq|]. destruct Hop as [Hh Hi].
    rewrite length_app, Hh. pose proof (length_vlq_u32 _ Hi). unfold Crypto.HashSize. lia. }
  destruct (D r) as [[op ->]|Hr], (D r') as [[op' ->]|Hr'].
  - simpl in E. rewrite !utxoKey_eq in E by done. injection E as E. f_equal. by apply utxoKey_inj.
  - destruct (U buf op) as (k & E1 & Hk); [done..|]. rewrite E1, record_key_render in E by done.
    injection E as ->. by destruct (record_path_length r').
  - destruct (U buf' op') as (k & E1 & Hk); [done..|]. rewrite E1, record_key_render in E by done.
    injection E as <-. by destruct (record_path_length r).
  - rewrite !record_key_render in E by done. injection E as E.
    apply render_inj in E; [|by apply record_path_good..]. by apply record_path_inj.
Qed.

(** no two records of the chain database share a key: blocks, transactions, receipts,
    indexes, address entries and singletons have text keys, unspent outputs binary ones,
    and equal keys, whatever buffers they were written to, name the same record. *)
Theorem record_keys_distinct (buf buf' : bytes) (r r' : record) :
  length buf = Crypto.HashSize + 5 -> length buf' = Crypto.HashSize + 5 ->
  record_ok r -> record_ok r' -> record_key buf r = record_key buf' r' -> r = r'.
Proof. apply record_key_inj. Qed.

(** ** Prefix scans *)

Lemma has_prefix_spec pre s : has_prefix pre s = true <-> exists r, s = pre ++ r.
Proof.
  unfold has_prefix. rewrite bool_decide_eq_true. split.
  - intros E. exists (drop (length pre) s). rewrite <- E at 1. by rewrite take_drop.
  - intros [r ->]. apply take_app_length.
Qed.

(** A slash-free word that starts [w ++ "/" ++ ...] starts [w]. *)
Lemma word_prefix u w r s : slash ∉ u -> u ++ r = w ++ slash :: s -> exists k, w = u ++ k.
Proof.
  revert w. induction u as [|c u IH]; intros w Hu E; [by exists w|].
  apply not_elem_of_cons in Hu as [Hc Hu]. destruct w as [|c' w]; simpl in E; [congruence|].
  injection E as -> E. destruct (IH w Hu E) as [k ->]. by exists k.
Qed.

(** listing the unspent outputs of an address by key prefix finds its entries and no
    others; for the outputs of a token the prefix ends in the hexadecimal output index
    without a separator, so the scan for one token also finds the entries of every token
    of the same transaction whose index starts with the same digits. *)
Theorem prefix_scan (a a' : bytes) (tid tid' op : OutPoint) :
  addr_ok a -> addr_ok a' -> outpoint_ok tid -> outpoint_ok tid' -> outpoint_ok op ->
  (has_prefix (AddrAllUtxoKey a) (AddrUtxoKey a' op) = true <-> a = a') /\
  (has_prefix (AddrAllTokenUtxoKey a tid) (AddrTokenUtxoKey a' tid' op) = true <->
     a = a' /\ op_hash tid = op_hash tid' /\
     exists k, hex_uint (op_index tid') = hex_uint (op_index tid) ++ k).
Proof.
  intros Ha Ha' Ht Ht' Hop. pose proof Ht as [Hth Hti]. pose proof Ht' as [Hth' Hti'].
  assert (AddrAllUtxoKey a = render [lit "aut"; hex_encode a]) as ->.
  { unfold AddrAllUtxoKey, addrUtxoBase. key_path. done. }
  assert (AddrAllTokenUtxoKey a tid = render (lit "atut" :: hex_encode a :: op_path tid)) as ->.
  { unfold AddrAllTokenUtxoKey, addrTokenUtxoBase. key_path. done. }
  pose proof (record_key_render [] (RAddrUtxo a' op) ltac:(done) ltac:(done)) as R1.
  pose proof (record_key_render [] (RAddrTokenUtxo a' tid' op) ltac:(done) ltac:(done)) as R2.
  injection R1 as ->. injection R2 as ->.
  rewrite !has_prefix_spec. unfold render, op_path. cbn [record_path op_path map concat app].
  rewrite !app_nil_r. split.
  - split; [|intros ->; eexists; cbn [app]; by rewrite <- ?app_assoc]. intros [r E].
    cbn [app] in E. injection E as E. rewrite <- ?app_assoc in E.
    apply app_inj_1 in E as [E _]; [by apply hex_encode_inj in E|].
    rewrite !length_hex_encode, Ha, Ha'. done.
  - rewrite <- ?app_assoc. cbn [app]. split.
    + intros [r E]. injection E as E. rewrite <- ?app_assoc in E. cbn [app] in E.
      apply app_inj_1 in E as [E E']; [|rewrite !length_hex_encode, Ha, Ha'; done].
      apply hex_encode_inj in E. injection E' as E'. rewrite <- ?app_assoc in E'. cbn [app] in E'.
      apply app_inj_1 in E' as [E3 E4]; [|rewrite !length_hash_String, Hth, Hth'; done].
      apply hash_String_inj in E3. injection E4 as E4. symmetry in E4.
      apply word_prefix in E4; [done|]. by destruct (good_u32 _ Hti) as (_ & ? & _).
    + intros (-> & -> & k & ->). eexists. rewrite <- ?app_assoc. cbn [app].
      rewrite <- ?app_assoc. cbn [app]. by rewrite <- ?app_assoc.
Qed.

(** ** Concrete runs *)

Definition run_addr : bytes := replicate 20 x0a.
Definition run_op (i : Z) : OutPoint := mkOutPoint (replicate 32 x01) i.

Lemma record_keys_distinct_witness :
  record_key (replicate 37 x00) (RAddrUtxo run_addr (run_op 1)) =
    record_key (replicate 37 xff) (RAddrUtxo run_addr (run_op 1)) /\
  RAddrUtxo run_addr (run_op 1) = RAddrUtxo run_addr (run_op 1).
Proof.
  split; [reflexivity|].
  apply (record_keys_distinct (replicate 37 x00) (replicate 37 xff)); try reflexivity;
    repeat split; simpl; lia || reflexivity.
Defined.

(** The entries of output 16 (hexadecimal 10) are found for the token issued by output 1. *)
Lemma prefix_scan_witness :
  has_prefix (AddrAllTokenUtxoKey run_addr (run_op 1))
    (AddrTokenUtxoKey run_addr (run_op 16) (run_op 0)) = true.
Proof.
  apply (prefix_scan run_addr run_addr (run_op 1) (run_op 16) (run_op 0));
    try (repeat split; simpl; lia || reflexivity).
  split; [reflexivity|]. split; [reflexivity|]. exists (lit "0"). reflexivity.
Defined.
