(* ===== verification/UtxoSet.v ===== *)
(** * UtxoSet: the unspent outputs of a chain (src/core/chain/utxoset.go)

    The set is a map from outpoints to entries that are marked spent rather than removed,
    with two sets of outpoints: those touched by normal transactions and those of
    contracts.  The state database answers two questions, whether an address is a contract
    and what its utxo is; the address of a new contract comes from RLP and Keccak, which
    are libraries.  Both are the class [ChainState]. *)

From S2P Require Import Prelude Opcode Crypto Types Script ScriptKinds TxLogic.
Import Kinds TxLogic.

Class ChainState := {
  cs_IsContractAddr : bytes -> bool;
  cs_ContractUtxo : bytes -> option Types.UtxoWrap;
  CreateAddress : bytes -> Z -> bytes
}.

Inductive UtxoErr :=
| ErrTxOutIndexOob | ErrAddExistingUtxo | ErrUtxoNotFound | ErrOpReturnVout | ErrContractVout
| ErrContractUtxoNotFound | ErrUtxoScript (e : ScriptErr).

#[global] Instance UtxoErr_eq_dec : EqDecision UtxoErr.
Proof. solve_decision. Defined.

Record UtxoSet := mkUtxoSet {
  utxoMap : gmap OutPoint Types.UtxoWrap;
  normalTxUtxoSet : gset OutPoint;
  contractUtxos : gset OutPoint
}.

(** [types.Block], as far as this file needs it. *)
Record BlockTxs := mkBlockTxs { blk_Height : Z; blk_Txs : list Transaction; blk_InternalTxs : list Transaction }.

Module Utxo.

Definition NewUtxoSet : UtxoSet := mkUtxoSet ∅ ∅ ∅.

Definition with_map (u : UtxoSet) (m : gmap OutPoint Types.UtxoWrap) : UtxoSet :=
  mkUtxoSet m (normalTxUtxoSet u) (contractUtxos u).

Definition GetUtxos (u : UtxoSet) : gmap OutPoint Types.UtxoWrap :=
  filter (fun kv => Types.IsSpent kv.2 = false) (utxoMap u).

Definition FindUtxo (u : UtxoSet) (op : OutPoint) : option Types.UtxoWrap := utxoMap u !! op.

Definition ImportUtxoMap (u : UtxoSet) (m : gmap OutPoint Types.UtxoWrap) : UtxoSet :=
  with_map u (m ∪ utxoMap u).

Definition SpendUtxo (u : UtxoSet) (op : OutPoint) : UtxoSet :=
  let w := default (Types.mkUtxoWrap 0 [] 0 0) (utxoMap u !! op) in
  with_map u (<[op := Types.Spend w]> (utxoMap u)).

(** [TxInputAmount]: zero when an input is missing or spent. *)
Definition TxInputAmount (u : UtxoSet) (tx : Transaction) : Z :=
  let fix go (ins : list TxIn) (total : Z) : Z :=
    match ins with
    | [] => total
    | i :: ins =>
        match FindUtxo u (PrevOutPoint i) with
        | None => 0%Z
        | Some w => if Types.IsSpent w then 0%Z else go ins (u64 (total + Types.uw_value w))
        end
    end in
  go (Vin tx) 0%Z.

Section WithHash.
Context `{C : Crypto} `{TC : TxCodec}.

(** [AddUtxo]; a transaction without a hash is a nil dereference. *)
Definition AddUtxo (u : UtxoSet) (tx : Transaction) (txOutIdx blockHeight : Z) :
    go (result UtxoErr UtxoSet) :=
  match Vout tx !! Z.to_nat txOutIdx with
  | None => Returns (Err ErrTxOutIndexOob)
  | Some vout =>
      if IsOpReturnScript (ScriptPubKey vout) then Returns (Err ErrOpReturnVout)
      else if IsContractPubkey (ScriptPubKey vout) then Returns (Err ErrContractVout)
      else
        match Types.CalcTxHash tx with
        | None => Panics
        | Some txHash =>
            let outPoint := mkOutPoint txHash txOutIdx in
            match utxoMap u !! outPoint with
            | Some _ => Returns (Err ErrAddExistingUtxo)
            | None =>
                let w := Types.NewUtxoWrap (Value vout) (ScriptPubKey vout) blockHeight in
                Returns (Ok (with_map u (<[outPoint := w]> (utxoMap u))))
            end
        end
  end.

(** ** Applying transactions *)

Section WithState.
Context `{CS : ChainState}.

Definition statedb : option (bytes -> bool) := Some cs_IsContractAddr.

Definition add_normal (u : UtxoSet) (op : OutPoint) : UtxoSet :=
  mkUtxoSet (utxoMap u) ({[op]} ∪ normalTxUtxoSet u) (contractUtxos u).

Definition add_contract (u : UtxoSet) (op : OutPoint) : UtxoSet :=
  mkUtxoSet (utxoMap u) (normalTxUtxoSet u) ({[op]} ∪ contractUtxos u).

(** [MakeContractAddress]: nil for a zero sender. *)
Definition MakeContractAddress (sender : bytes) (nonce : Z) : option bytes :=
  if bool_decide (sender = Types.ZeroAddressHash) then None else Some (CreateAddress sender nonce).

(** The output pays an address that is not a contract. *)
Definition applyCommon (u : UtxoSet) (tx : Transaction) (vout : TxOut) (txOutIdx blockHeight : Z) :
    result UtxoErr (UtxoSet * Transaction) :=
  let outPoint := Types.NewOutPoint (Types.CalcTxHash tx) txOutIdx in
  match utxoMap u !! outPoint with
  | Some _ => Err ErrAddExistingUtxo
  | None =>
      let w := Types.NewUtxoWrap (Value vout) (ScriptPubKey vout) blockHeight in
      let u := with_map u (<[outPoint := w]> (utxoMap u)) in
      let '(tx, typ) := GetTxType statedb tx in
      Ok (if negb (bool_decide (typ = ContractTx)) then add_normal u outPoint else u, tx)
  end.

(** The output pays box to the contract [addr]. *)
Definition applyToContract (u : UtxoSet) (vout : TxOut) (addr : bytes) : result UtxoErr UtxoSet :=
  if (Value vout =? 0)%Z then Ok u
  else
    let outPoint := mkOutPoint (Types.NormalizeAddressHash (Some addr)) 0 in
    let w := match utxoMap u !! outPoint with
             | Some w => Some w
             | None => cs_ContractUtxo addr
             end in
    match w with
    | None => Err ErrUtxoNotFound
    | Some w =>
        let w := Types.SetValue w (u64 (Types.uw_value w + Value vout)) in
        Ok (with_map u (<[outPoint := w]> (utxoMap u)))
    end.

(** The output creates or calls a contract. *)
Definition applyContract (u : UtxoSet) (vout : TxOut) (blockHeight : Z) : result UtxoErr UtxoSet :=
  match ParseContractInfo (ScriptPubKey vout) with
  | Err e => Err (ErrUtxoScript e)
  | Ok (from, None, nonce) =>
      let outPoint := mkOutPoint (Types.NormalizeAddressHash (MakeContractAddress from nonce)) 0 in
      let w := Types.NewUtxoWrap 0 (ScriptPubKey vout) blockHeight in
      Ok (add_contract (with_map u (<[outPoint := w]> (utxoMap u))) outPoint)
  | Ok (_, Some contractAddr, _) =>
      let outPoint := mkOutPoint (Types.NormalizeAddressHash (Some contractAddr)) 0 in
      match utxoMap u !! outPoint with
      | None => Err ErrContractUtxoNotFound
      | Some w =>
          Ok (add_contract
                (with_map u (<[outPoint := Types.AddValue w (Value vout)]> (utxoMap u))) outPoint)
      end
  end.

Definition applyUtxo (u : UtxoSet) (tx : Transaction) (txOutIdx blockHeight : Z) :
    result UtxoErr (UtxoSet * Transaction) :=
  match Vout tx !! Z.to_nat txOutIdx with
  | None => Err ErrTxOutIndexOob
  | Some vout =>
      if negb (IsContractPubkey (ScriptPubKey vout)) then
        match ExtractAddress (ScriptPubKey vout) with
        | Err e => Err (ErrUtxoScript e)
        | Ok address =>
            let h := default [] (Types.address_Hash160 address) in
            if negb (cs_IsContractAddr h) then applyCommon u tx vout txOutIdx blockHeight
            else u ← applyToContract u vout h; Ok (u, tx)
        end
      else u ← applyContract u vout blockHeight; Ok (u, tx)
  end.

(** The loop over the outputs, from index [i]. *)
Fixpoint applyOuts (outs : list TxOut) (i : nat) (u : UtxoSet) (tx : Transaction) (blockHeight : Z) :
    result UtxoErr (UtxoSet * Transaction) :=
  match outs with
  | [] => Ok (u, tx)
  | txOut :: outs =>
      if IsOpReturnScript (ScriptPubKey txOut) then applyOuts outs (S i) u tx blockHeight
      else
        match applyUtxo u tx (Z.of_nat i) blockHeight with
        | Ok (u, tx) => applyOuts outs (S i) u tx blockHeight
        | Err ErrAddExistingUtxo => applyOuts outs (S i) u tx blockHeight
        | Err e => Err e
        end
  end.

(** Spending the inputs. *)
Fixpoint applyIns (ins : list TxIn) (u : UtxoSet) (tx : Transaction) : UtxoSet * Transaction :=
  match ins with
  | [] => (u, tx)
  | txIn :: ins =>
      let u := SpendUtxo u (PrevOutPoint txIn) in
      let '(tx, typ) := GetTxType statedb tx in
      applyIns ins (if negb (bool_decide (typ = ContractTx)) then add_normal u (PrevOutPoint txIn) else u) tx
  end.

Definition applyTx (u : UtxoSet) (tx : Transaction) (blockHeight : Z) : result UtxoErr UtxoSet :=
  '(u, tx) ← applyOuts (Vout tx) 0 u tx blockHeight;
  if IsCoinBase tx || IsInternalContract tx then Ok u
  else Ok (applyIns (Vin tx) u tx).1.

(** [applyInternalTx]: the pay-to-pubkey-hash outputs of a contract's transfer. *)
Fixpoint applyInternalOuts (outs : list TxOut) (idx : nat) (txHash : option bytes) (u : UtxoSet)
    (height : Z) : UtxoSet :=
  match outs with
  | [] => u
  | vout :: outs =>
      let u :=
        if negb (IsPayToPubKeyHash (ScriptPubKey vout)) then u
        else with_map u (<[Types.NewOutPoint txHash (Z.of_nat idx) :=
                           Types.NewUtxoWrap (Value vout) (ScriptPubKey vout) height]> (utxoMap u)) in
      applyInternalOuts outs (S idx) txHash u height
  end.

Definition applyInternalTx (u : UtxoSet) (tx : Transaction) (height : Z) : UtxoSet :=
  applyInternalOuts (Vout tx) 0 (Types.CalcTxHash tx) u height.

Definition ApplyInternalTxs (u : UtxoSet) (block : BlockTxs) : UtxoSet :=
  foldl (fun u tx => applyInternalTx u tx (blk_Height block)) u (blk_InternalTxs block).

Fixpoint applyTxs (txs : list Transaction) (u : UtxoSet) (height : Z) : result UtxoErr UtxoSet :=
  match txs with
  | [] => Ok u
  | tx :: txs => u ← applyTx u tx height; applyTxs txs u height
  end.

Definition ApplyBlock (u : UtxoSet) (block : BlockTxs) : result UtxoErr UtxoSet :=
  applyTxs (blk_Txs block) u (blk_Height block).

End WithState.

(** ** Reverting transactions *)

Section WithChain.

(** [chain.LoadBlockInfoByTxHash]: the height and the transaction with a hash. *)
Context (load : bytes -> option (Z * Transaction)).

Fixpoint revertOuts (outs : list TxOut) (i : nat) (txHash : option bytes) (u : UtxoSet) : UtxoSet :=
  match outs with
  | [] => u
  | o :: outs =>
      let u :=
        if IsOpReturnScript (ScriptPubKey o) || IsContractPubkey (ScriptPubKey o) then u
        else SpendUtxo u (Types.NewOutPoint txHash (Z.of_nat i)) in
      revertOuts outs (S i) txHash u
  end.

Fixpoint revertIns (ins : list TxIn) (u : UtxoSet) : go UtxoSet :=
  match ins with
  | [] => Returns u
  | txIn :: ins =>
      let op := PrevOutPoint txIn in
      if Types.IsContractType op then revertIns ins u
      else
        match utxoMap u !! op with
        | Some w => revertIns ins (with_map u (<[op := Types.UnSpend w]> (utxoMap u)))
        | None =>
            match load (op_hash op) with
            | None => Panics
            | Some (height, prevTx) =>
                match Vout prevTx !! Z.to_nat (op_index op) with
                | None => Panics
                | Some prevOut =>
                    if IsOpReturnScript (ScriptPubKey prevOut) then revertIns ins u
                    else
                      let w := Types.NewUtxoWrap (Value prevOut) (ScriptPubKey prevOut) height in
                      revertIns ins (with_map u (<[op := w]> (utxoMap u)))
                end
            end
        end
  end.

Definition RevertTx (u : UtxoSet) (tx : Transaction) : go UtxoSet :=
  let u := revertOuts (Vout tx) 0 (Types.CalcTxHash tx) u in
  if IsCoinBase tx || IsInternalContract tx then Returns u
  else revertIns (Vin tx) u.

(** From the last transaction to the first. *)
Fixpoint revertTxs (txs : list Transaction) (u : UtxoSet) : go UtxoSet :=
  match txs with
  | [] => Returns u
  | tx :: txs => u ← revertTxs txs u; RevertTx u tx
  end.

Definition RevertBlock (u : UtxoSet) (block : BlockTxs) : go UtxoSet :=
  revertTxs (blk_Txs block ++ blk_InternalTxs block) u.

End WithChain.
End WithHash.
End Utxo.
