(* ===== verification/UtxoFacts.v ===== *)
(** * UtxoFacts: reverting a block undoes applying it

    The set keeps spent entries, so undoing is stated up to the preorder [restores]: the
    same entries with the same contents and the same spent status, and possibly more
    entries that are spent. *)

From S2P Require Import Prelude Opcode Crypto Types Script ScriptKinds TxLogic UtxoSet.
Import Kinds TxLogic Utxo.

(** ** Entries *)

Definition content (w : Types.UtxoWrap) : Z * bytes * Z :=
  (Types.uw_value w, Types.uw_script w, Types.uw_height w).

Lemma content_Spend w : content (Types.Spend w) = content w.
Proof. unfold Types.Spend. by destruct (Types.IsSpent w). Qed.

Lemma content_UnSpend w : content (Types.UnSpend w) = content w.
Proof. done. Qed.

Lemma UnSpend_Spend w : Types.UnSpend (Types.Spend w) = Types.UnSpend w.
Proof. unfold Types.UnSpend, Types.Spend. by destruct (Types.IsSpent w). Qed.

Lemma IsSpent_Spend_any w : Types.IsSpent (Types.Spend w) = true.
Proof.
  unfold Types.Spend. destruct (Types.IsSpent w) eqn:E; [done|].
  unfold Types.IsSpent, Types.spent, Types.modified. simpl. apply Z.eqb_eq.
  apply Z.bits_inj'. intros n Hn. rewrite Z.land_spec, Z.lor_spec.
  destruct (decide (n = 0%Z)) as [->|]; [by rewrite orb_true_r|].
  assert (Z.testbit 1 n = false) as ->; [|apply andb_false_r].
  apply (testbit_small _ 1); lia.
Qed.

Lemma Spend_Spend w : Types.Spend (Types.Spend w) = Types.Spend w.
Proof. unfold Types.Spend at 1. by rewrite IsSpent_Spend_any. Qed.

(** ** The preorder *)

Definition entry_restores (o o' : option Types.UtxoWrap) : Prop :=
  match o, o' with
  | Some w, Some w' => content w = content w' /\ Types.IsSpent w = Types.IsSpent w'
  | None, Some w' => Types.IsSpent w' = true
  | None, None => True
  | Some _, None => False
  end.

Definition restores (u u' : UtxoSet) : Prop :=
  forall op, entry_restores (utxoMap u !! op) (utxoMap u' !! op).

#[global] Instance restores_preorder : PreOrder restores.
Proof.
  split.
  - intros u op. by destruct (utxoMap u !! op); simpl.
  - intros a b c Hab Hbc op. specialize (Hab op). specialize (Hbc op).
    destruct (utxoMap a !! op), (utxoMap b !! op), (utxoMap c !! op); simpl in *;
      intuition congruence.
Qed.

(** What a wallet sees of a set: the unspent outputs with their contents. *)
Definition unspent_view (u : UtxoSet) : gmap OutPoint (Z * bytes * Z) := content <$> GetUtxos u.

Lemma lookup_unspent_view u op :
  unspent_view u !! op =
    w ← utxoMap u !! op; if Types.IsSpent w then None else Some (content w).
Proof.
  unfold unspent_view, GetUtxos. rewrite lookup_fmap, map_lookup_filter.
  destruct (utxoMap u !! op) as [w|]; simpl; [|done].
  destruct (Types.IsSpent w) eqn:E.
  - rewrite option_guard_False by (simpl; congruence). done.
  - by rewrite option_guard_True.
Qed.

Lemma restores_view u u' : restores u u' -> unspent_view u' = unspent_view u.
Proof.
  intros H. apply map_eq. intros op. rewrite !lookup_unspent_view. specialize (H op).
  destruct (utxoMap u !! op) as [w|], (utxoMap u' !! op) as [w'|]; simpl in *; try done.
  - destruct H as [Hc Hs]. by rewrite Hs, Hc.
  - by rewrite H.
Qed.

(** ** The loops on the map *)

Lemma lookup_SpendUtxo u op op' :
  utxoMap (SpendUtxo u op) !! op' =
    if decide (op' = op)
    then Some (Types.Spend (default (Types.mkUtxoWrap 0 [] 0 0) (utxoMap u !! op)))
    else utxoMap u !! op'.
Proof.
  unfold SpendUtxo. simpl. destruct (decide (op' = op)) as [->|].
  - by rewrite lookup_insert_eq.
  - by rewrite lookup_insert_ne.
Qed.

Section WithHash.
Context `{C : Crypto} `{TC : TxCodec}.

Definition outpoints (ins : list TxIn) : list OutPoint := map PrevOutPoint ins.

(** Outpoints of the outputs of a transaction that apply and revert touch. *)
Definition is_plain_out (o : TxOut) : bool :=
  negb (IsOpReturnScript (ScriptPubKey o) || IsContractPubkey (ScriptPubKey o)).

(** The outpoints of the outputs left, from index [i]. *)
Fixpoint plain_ops (txHash : option bytes) (outs : list TxOut) (i : nat) : list OutPoint :=
  match outs with
  | [] => []
  | o :: outs =>
      (if is_plain_out o then [Types.NewOutPoint txHash (Z.of_nat i)] else [])
      ++ plain_ops txHash outs (S i)
  end.

Lemma plain_ops_later txHash outs i j :
  i < j -> Types.NewOutPoint txHash (Z.of_nat i) ∉ plain_ops txHash outs j.
Proof.
  revert j. induction outs as [|o outs IH]; intros j Hij; simpl; [apply not_elem_of_nil|].
  intros [H|H]%elem_of_app; [|by apply (IH (S j) ltac:(lia))].
  destruct (is_plain_out o); [|by apply not_elem_of_nil in H].
  apply list_elem_of_singleton in H. unfold Types.NewOutPoint in H. injection H. lia.
Qed.

(** Reverting the outputs marks each of them spent and touches nothing else. *)
Lemma revertOuts_lookup outs i txHash u op :
  utxoMap (revertOuts outs i txHash u) !! op =
    if decide (op ∈ plain_ops txHash outs i)
    then Some (Types.Spend (default (Types.mkUtxoWrap 0 [] 0 0) (utxoMap u !! op)))
    else utxoMap u !! op.
Proof.
  revert i u. induction outs as [|o outs IH]; intros i u.
  { cbn [revertOuts plain_ops]. by rewrite decide_False by apply not_elem_of_nil. }
  cbn [revertOuts plain_ops]. rewrite IH. unfold is_plain_out.
  destruct (_ || _); cbn [negb app]; [done|].
  rewrite lookup_SpendUtxo. destruct (decide (op = Types.NewOutPoint txHash (Z.of_nat i))) as [->|Hne].
  - rewrite decide_False by (by apply plain_ops_later; lia).
    by rewrite decide_True by (apply elem_of_cons; by left).
  - destruct (decide (op ∈ plain_ops txHash outs (S i))).
    + by rewrite decide_True by (apply elem_of_cons; by right).
    + rewrite decide_False; [done|]. rewrite elem_of_cons. tauto.
Qed.

(** Un-spending inputs that are all present. *)
Lemma revertIns_lookup load ins u :
  (forall op, op ∈ outpoints ins -> Types.IsContractType op = false /\ is_Some (utxoMap u !! op)) ->
  exists u', revertIns load ins u = Returns u' /\
    forall op, utxoMap u' !! op =
      if decide (op ∈ outpoints ins) then Types.UnSpend <$> utxoMap u !! op else utxoMap u !! op.
Proof.
  revert u. induction ins as [|txIn ins IH]; intros u Hin; cbn [revertIns outpoints map].
  - exists u. split; [done|]. intros op. by rewrite decide_False by apply not_elem_of_nil.
  - destruct (Hin (PrevOutPoint txIn)) as [Hc [w Hw]]; [by left|]. rewrite Hc, Hw.
    set (u1 := with_map u (<[PrevOutPoint txIn := Types.UnSpend w]> (utxoMap u))).
    destruct (IH u1) as (u' & E & Hl).
    { intros op Hop. destruct (Hin op) as [Hc' Hs]; [by right|]. split; [done|].
      simpl. destruct (decide (op = PrevOutPoint txIn)) as [->|].
      - rewrite lookup_insert_eq. eauto.
      - by rewrite lookup_insert_ne. }
    exists u'. split; [done|]. intros op. rewrite Hl. unfold u1. cbn [utxoMap with_map].
    destruct (decide (op = PrevOutPoint txIn)) as [->|Hne].
    + rewrite lookup_insert_eq, Hw, (decide_True (P := _ ∈ _ :: _)) by (by left).
      by destruct (decide _).
    + rewrite lookup_insert_ne by done.
      destruct (decide (op ∈ outpoints ins)).
      * by rewrite decide_True by by right.
      * rewrite decide_False; [done|]. rewrite elem_of_cons. tauto.
Qed.

Section WithState.
Context `{CS : ChainState}.

Lemma CalcTxHash_GetTxType tx : Types.CalcTxHash (GetTxType statedb tx).1 = Types.CalcTxHash tx.
Proof.
  unfold GetTxType, ParseTxType. destruct (negb _); [done|].
  by destruct (parseTypeLoop _ _ _ _ _ _) as [[? ?] ?].
Qed.

Lemma Vout_GetTxType tx :
  Vout (GetTxType statedb tx).1 = Vout tx /\ Vin (GetTxType statedb tx).1 = Vin tx.
Proof.
  unfold GetTxType, ParseTxType. destruct (negb _); [done|].
  by destruct (parseTypeLoop _ _ _ _ _ _) as [[? ?] ?].
Qed.

(** Spending the inputs. *)
Lemma applyIns_lookup ins u tx op :
  utxoMap (applyIns ins u tx).1 !! op =
    if decide (op ∈ outpoints ins)
    then Some (Types.Spend (default (Types.mkUtxoWrap 0 [] 0 0) (utxoMap u !! op)))
    else utxoMap u !! op.
Proof.
  revert u tx. induction ins as [|txIn ins IH]; intros u tx; cbn [applyIns outpoints map].
  - by rewrite decide_False by apply not_elem_of_nil.
  - destruct (GetTxType statedb tx) as [tx' typ].
    set (u1 := if negb _ then _ else _).
    assert (utxoMap u1 = utxoMap (SpendUtxo u (PrevOutPoint txIn))) as Hu1
      by (unfold u1; by destruct (negb _)).
    rewrite IH, Hu1, lookup_SpendUtxo. destruct (decide (op = PrevOutPoint txIn)) as [->|Hne].
    + rewrite (decide_True (P := _ ∈ _ :: _)) by by left.
      destruct (decide _); [|done]. simpl. by rewrite Spend_Spend.
    + destruct (decide (op ∈ outpoints ins)).
      * by rewrite decide_True by by right.
      * rewrite decide_False; [done|]. rewrite elem_of_cons. tauto.
Qed.

(** An output that is not for a contract. *)
Definition out_ok (o : TxOut) : Prop :=
  IsOpReturnScript (ScriptPubKey o) = true \/
  (IsContractPubkey (ScriptPubKey o) = false /\
   exists addr, ExtractAddress (ScriptPubKey o) = Ok addr /\
     cs_IsContractAddr (default [] (Types.address_Hash160 addr)) = false).

(** The same transaction but for its cached type. *)
Definition same_tx (tx tx' : Transaction) : Prop :=
  Vin tx' = Vin tx /\ Vout tx' = Vout tx /\ Types.CalcTxHash tx' = Types.CalcTxHash tx.

Lemma applyCommon_fresh u tx o i h :
  utxoMap u !! Types.NewOutPoint (Types.CalcTxHash tx) i = None ->
  exists u' tx', applyCommon u tx o i h = Ok (u', tx') /\ same_tx tx tx' /\
    utxoMap u' = <[Types.NewOutPoint (Types.CalcTxHash tx) i :=
                   Types.NewUtxoWrap (Value o) (ScriptPubKey o) h]> (utxoMap u).
Proof.
  intros Hf. unfold applyCommon. rewrite Hf.
  pose proof (CalcTxHash_GetTxType tx) as Hh. pose proof (Vout_GetTxType tx) as [Hvo Hvi].
  destruct (GetTxType statedb tx) as [tx' typ]. simpl in *.
  eexists _, tx'. split; [done|]. split; [done|]. by destruct (negb _).
Qed.

Lemma applyOuts_lookup outs i u tx h :
  (forall k o, outs !! k = Some o -> Vout tx !! (i + k) = Some o) -> Forall out_ok outs ->
  (forall op, op ∈ plain_ops (Types.CalcTxHash tx) outs i -> utxoMap u !! op = None) ->
  exists u' tx', applyOuts outs i u tx h = Ok (u', tx') /\ same_tx tx tx' /\
    (forall op, op ∈ plain_ops (Types.CalcTxHash tx) outs i -> is_Some (utxoMap u' !! op)) /\
    (forall op, op ∉ plain_ops (Types.CalcTxHash tx) outs i -> utxoMap u' !! op = utxoMap u !! op).
Proof.
  revert i u tx. induction outs as [|o outs IH]; intros i u tx Hout Hok Hf.
  - exists u, tx. split_and!; try done. intros op H. by apply not_elem_of_nil in H.
  - apply Forall_cons in Hok as [Ho Hok]. cbn [applyOuts plain_ops] in *.
    assert (forall tx' k o', Vout tx' = Vout tx -> outs !! k = Some o' -> Vout tx' !! (S i + k) = Some o') as Hout'.
    { intros tx' k o' -> Hk. rewrite Nat.add_succ_l, <- Nat.add_succ_r. by apply Hout. }
    unfold is_plain_out in *.
    destruct Ho as [Ho|(Hc & addr & Ha & Hna)]; [|destruct (IsOpReturnScript (ScriptPubKey o)) eqn:Hor].
    + rewrite Ho in *. simpl in *. apply IH; [eauto|done|done].
    + rewrite orb_true_l in *. simpl in *. apply IH; [eauto|done|done].
    + rewrite Hc in *. simpl in Hf. simpl negb. cbv iota.
      unfold applyUtxo. rewrite Nat2Z.id.
      rewrite <- (Nat.add_0_r i), (Hout 0 o eq_refl), Nat.add_0_r, Hc, Ha, Hna. simpl negb. cbv iota.
      destruct (applyCommon_fresh u tx o (Z.of_nat i) h) as (u1 & tx1 & -> & Hs & Hm); [by apply Hf; left|].
      destruct Hs as (Hvi & Hvo & Hh).
      destruct (IH (S i) u1 tx1) as (u' & tx' & E & Hs' & Hin & Hnin); [by eauto|done| |].
      { intros op Hop. rewrite Hh in Hop. rewrite Hm, lookup_insert_ne; [by apply Hf; right|].
        intros <-. revert Hop. apply plain_ops_later. lia. }
      rewrite E. exists u', tx'. rewrite Hh in *. split; [done|].
      destruct Hs' as (Hvi' & Hvo' & Hh'). split; [unfold same_tx; split_and!; congruence|]. split.
      * intros op [->|Hop]%elem_of_cons; [|by apply Hin].
        rewrite Hnin by (apply plain_ops_later; lia). rewrite Hm, lookup_insert_eq. eauto.
      * intros op Hop. apply not_elem_of_cons in Hop as [Hne Hop]. rewrite Hnin by done.
        by rewrite Hm, lookup_insert_ne.
Qed.

(** ** One transaction *)

(** A transaction that can be applied to [u] and reverted without the chain: it pays no
    contract, its outputs are new, and its inputs are unspent entries of [u]. *)
Definition tx_ok (u : UtxoSet) (tx : Transaction) : Prop :=
  Forall out_ok (Vout tx) /\
  (forall op, op ∈ plain_ops (Types.CalcTxHash tx) (Vout tx) 0 -> utxoMap u !! op = None) /\
  (IsCoinBase tx || IsInternalContract tx = true \/
   forall op, op ∈ outpoints (Vin tx) ->
     Types.IsContractType op = false /\ exists w, utxoMap u !! op = Some w /\ Types.IsSpent w = false).

(** What reverting needs to find. *)
Definition present (u : UtxoSet) (tx : Transaction) : Prop :=
  (forall op, op ∈ plain_ops (Types.CalcTxHash tx) (Vout tx) 0 -> is_Some (utxoMap u !! op)) /\
  (IsCoinBase tx || IsInternalContract tx = true \/
   forall op, op ∈ outpoints (Vin tx) -> Types.IsContractType op = false /\ is_Some (utxoMap u !! op)).

Lemma same_tx_coinbase tx tx' : same_tx tx tx' ->
  IsCoinBase tx' = IsCoinBase tx /\ IsInternalContract tx' = IsInternalContract tx.
Proof. intros (Hv & _). unfold IsCoinBase, IsInternalContract. by rewrite Hv. Qed.

Lemma applyTx_lookup u tx h :
  tx_ok u tx ->
  exists u', applyTx u tx h = Ok u' /\ present u' tx /\
    (forall op, op ∉ plain_ops (Types.CalcTxHash tx) (Vout tx) 0 ->
       utxoMap u' !! op =
         if decide (op ∈ outpoints (Vin tx) /\ IsCoinBase tx || IsInternalContract tx = false)
         then Types.Spend <$> utxoMap u !! op else utxoMap u !! op).
Proof.
  intros (Hok & Hf & Hins). unfold applyTx.
  destruct (applyOuts_lookup (Vout tx) 0 u tx h) as (u1 & tx1 & -> & Hs & Hin & Hnin); [done|done|done|].
  cbn [mbind result_bind]. destruct (same_tx_coinbase _ _ Hs) as [-> ->]. destruct Hs as (Hvi & _ & _).
  destruct (IsCoinBase tx || IsInternalContract tx) eqn:Ecb.
  - exists u1. split; [done|]. split; [split; [done|by left; rewrite Ecb]|].
    intros op Hop. rewrite decide_False by (intros [_ ?]; congruence). by apply Hnin.
  - destruct Hins as [Hx|Hins]; [congruence|]. eexists. split; [done|]. rewrite Hvi.
    assert (forall op, op ∈ outpoints (Vin tx) -> op ∉ plain_ops (Types.CalcTxHash tx) (Vout tx) 0) as Hdisj.
    { intros op Hop Hp. destruct (Hins op Hop) as (_ & w & Hw & _). by rewrite Hf in Hw. }
    split; [split|].
    + intros op Hop. rewrite applyIns_lookup. destruct (decide _); [eauto|]. by apply Hin.
    + right. intros op Hop. split; [by apply Hins|]. rewrite applyIns_lookup.
      rewrite decide_True by done. eauto.
    + intros op Hop. rewrite applyIns_lookup, Hnin by done.
      destruct (decide (op ∈ outpoints (Vin tx))) as [Hi|Hi].
      * rewrite decide_True by done. destruct (Hins op Hi) as (_ & w & -> & _). done.
      * rewrite decide_False by (by intros [? _]). done.
Qed.

Section WithLoad.
Context (load : bytes -> option (Z * Transaction)).

(** The effect of reverting when everything is there. *)
Lemma RevertTx_lookup u tx :
  present u tx ->
  exists u', RevertTx load u tx = Returns u' /\
    forall op, utxoMap u' !! op =
      if decide (op ∈ outpoints (Vin tx) /\ IsCoinBase tx || IsInternalContract tx = false)
      then Types.UnSpend <$> utxoMap u !! op
      else if decide (op ∈ plain_ops (Types.CalcTxHash tx) (Vout tx) 0)
      then Types.Spend <$> utxoMap u !! op else utxoMap u !! op.
Proof.
  intros [Hout Hin]. unfold RevertTx. set (u1 := revertOuts _ _ _ _).
  assert (forall op, utxoMap u1 !! op =
    if decide (op ∈ plain_ops (Types.CalcTxHash tx) (Vout tx) 0)
    then Types.Spend <$> utxoMap u !! op else utxoMap u !! op) as Hu1.
  { intros op. unfold u1. rewrite revertOuts_lookup.
    destruct (decide _) as [Hp|]; [|done]. by destruct (Hout op Hp) as [w ->]. }
  destruct (IsCoinBase tx || IsInternalContract tx) eqn:Ecb.
  - exists u1. split; [done|]. intros op. rewrite (decide_False (P := _ /\ _)) by (intros [_ ?]; congruence). done.
  - destruct Hin as [Hx|Hin]; [congruence|].
    destruct (revertIns_lookup load (Vin tx) u1) as (u' & E & Hl).
    { intros op Hop. destruct (Hin op Hop) as [Hc [w Hw]]. split; [done|]. rewrite Hu1, Hw.
      destruct (decide _); simpl; eauto. }
    exists u'. split; [done|]. intros op. rewrite Hl, Hu1.
    destruct (decide (op ∈ outpoints (Vin tx))) as [Hi|Hi].
    + rewrite (decide_True (P := _ /\ _)) by done. destruct (decide _); [|done].
      destruct (utxoMap u !! op); simpl; [by rewrite UnSpend_Spend|done].
    + rewrite (decide_False (P := _ /\ _)) by (by intros [? _]). done.
Qed.

(** Reverting respects the preorder. *)
Lemma RevertTx_mono u u' tx v :
  restores u u' -> present u tx -> RevertTx load u tx = Returns v ->
  exists v', RevertTx load u' tx = Returns v' /\ restores v v'.
Proof.
  intros Hr Hp Hv. assert (forall op, is_Some (utxoMap u !! op) -> is_Some (utxoMap u' !! op)) as Hsome.
  { intros op [w Hw]. specialize (Hr op). rewrite Hw in Hr. destruct (utxoMap u' !! op); [eauto|done]. }
  assert (present u' tx) as Hp'.
  { destruct Hp as [Ho Hi]. split; [by eauto|]. destruct Hi as [Hi|Hi]; [by left|right].
    intros op Hop. destruct (Hi op Hop) as [? ?]. split; [done|eauto]. }
  destruct (RevertTx_lookup u tx Hp) as (v0 & E & Hl). rewrite Hv in E. simplify_eq.
  destruct (RevertTx_lookup u' tx Hp') as (v' & E' & Hl'). exists v'. split; [done|].
  intros op. rewrite Hl, Hl'. specialize (Hr op).
  assert (forall o o', is_Some o -> entry_restores o o' ->
    entry_restores (Types.UnSpend <$> o) (Types.UnSpend <$> o') /\
    entry_restores (Types.Spend <$> o) (Types.Spend <$> o')) as Hent.
  { intros [w|] [w'|] [? ?] He; simpl in *; try done. destruct He as [Hc Hs].
    by rewrite !content_UnSpend, !content_Spend, !IsSpent_Spend_any. }
  destruct Hp as [Ho Hi].
  destruct (decide (_ /\ _)) as [[Hop Hcb]|_]; [|destruct (decide (_ ∈ _)) as [Hop|_]; [|done]].
  - destruct Hi as [Hi|Hi]; [congruence|]. by apply Hent; [apply Hi|].
  - by apply Hent; [apply Ho|].
Qed.

(** Applying, then reverting, restores. *)
Lemma apply_revert_tx u tx h :
  tx_ok u tx ->
  exists u1 u2, applyTx u tx h = Ok u1 /\ present u1 tx /\ RevertTx load u1 tx = Returns u2 /\
    restores u u2.
Proof.
  intros Hok. destruct (applyTx_lookup u tx h Hok) as (u1 & Ea & Hp & Hl).
  destruct (RevertTx_lookup u1 tx Hp) as (u2 & Er & Hl2). exists u1, u2. split_and!; try done.
  destruct Hok as (_ & Hf & Hins). intros op. rewrite Hl2.
  destruct (decide (op ∈ plain_ops (Types.CalcTxHash tx) (Vout tx) 0)) as [Hop|Hop].
  - rewrite (Hf op Hop). destruct Hp as [Ho _]. destruct (Ho op Hop) as [w Hw].
    destruct (decide (_ /\ _)) as [[Hi Hcb]|_].
    + destruct Hins as [Hx|Hins]; [congruence|]. destruct (Hins op Hi) as (_ & w' & Hw' & _).
      by rewrite Hf in Hw'.
    + rewrite Hw. simpl. apply IsSpent_Spend_any.
  - rewrite Hl by done. destruct (decide (_ /\ _)) as [[Hi Hcb]|_].
    + destruct Hins as [Hx|Hins]; [congruence|]. destruct (Hins op Hi) as (_ & w & Hw & Hs).
      rewrite Hw. simpl. by rewrite content_UnSpend, content_Spend, Hs.
    + by destruct (utxoMap u !! op); simpl.
Qed.

(** ** Blocks *)

(** Each transaction is applicable to the set the previous ones leave. *)
Inductive txs_ok (h : Z) : UtxoSet -> list Transaction -> Prop :=
| txs_ok_nil u : txs_ok h u []
| txs_ok_cons u tx txs u1 :
    tx_ok u tx -> applyTx u tx h = Ok u1 -> txs_ok h u1 txs -> txs_ok h u (tx :: txs).

Lemma apply_revert_txs h u txs :
  txs_ok h u txs ->
  exists u1 u2, applyTxs txs u h = Ok u1 /\ revertTxs load txs u1 = Returns u2 /\ restores u u2.
Proof.
  induction 1 as [u|u tx txs um Hok Ha _ (u1 & u2 & E1 & E2 & Hr)].
  - exists u, u. by split_and!.
  - destruct (apply_revert_tx u tx h Hok) as (um' & v & Ha' & Hp & Er & Hrv). rewrite Ha in Ha'. simplify_eq.
    destruct (RevertTx_mono _ _ _ _ Hr Hp Er) as (v' & Er' & Hrv').
    exists u1, v'. simpl. rewrite Ha, E2. cbn [mbind result_bind go_bind]. split_and!; try done.
    by transitivity v.
Qed.

(** C6: reverting a block undoes applying it: when each transaction of the block pays no
    contract, spends unspent entries and creates new outputs, applying the block succeeds,
    reverting it does not panic, and the unspent outputs, with their values, scripts and
    heights, are those from before. *)
Theorem apply_revert_block (u : UtxoSet) (block : BlockTxs) :
  txs_ok (blk_Height block) u (blk_Txs block) -> blk_InternalTxs block = [] ->
  exists u1 u2, ApplyBlock u block = Ok u1 /\ RevertBlock load u1 block = Returns u2 /\
    unspent_view u2 = unspent_view u.
Proof.
  intros Hok Hint. destruct (apply_revert_txs _ _ _ Hok) as (u1 & u2 & E1 & E2 & Hr).
  exists u1, u2. split; [done|]. split; [|by apply restores_view].
  unfold RevertBlock. by rewrite Hint, app_nil_r.
Qed.

End WithLoad.

End WithState.
End WithHash.

(** ** A concrete block: a coinbase and a payment spending it *)

Module UtxoRun.

#[global] Instance no_contracts : ChainState := {|
  cs_IsContractAddr := fun _ => false;
  cs_ContractUtxo := fun _ => None;
  CreateAddress := fun a _ => a
|}.

Definition addr1 : bytes := replicate 20 x01.
Definition coinbase : Transaction := CreateCoinbaseTx addr1 5.
Definition coinbase_op : OutPoint :=
  Types.NewOutPoint (Types.CalcTxHash (C := ToyCrypto.toy) (TC := ToyCodec.toy_codec) coinbase) 0.
Definition payment : Transaction :=
  mkTx UnknownTx 1 [mkTxIn coinbase_op [] 0] [MakeVout (replicate 20 x02) 100] None 0 0.
Definition block : BlockTxs := mkBlockTxs 5 [coinbase; payment] [].

Definition after (u : UtxoSet) (tx : Transaction) : UtxoSet :=
  match applyTx (C := ToyCrypto.toy) (TC := ToyCodec.toy_codec) u tx 5 with Ok u => u | Err _ => u end.
Definition after1 : UtxoSet := after NewUtxoSet coinbase.
Definition after2 : UtxoSet := after after1 payment.

Lemma after_ok u tx :
  is_ok (applyTx (C := ToyCrypto.toy) (TC := ToyCodec.toy_codec) u tx 5) = true ->
  applyTx (C := ToyCrypto.toy) (TC := ToyCodec.toy_codec) u tx 5 = Ok (after u tx).
Proof. unfold after. by destruct (applyTx u tx 5). Qed.

End UtxoRun.

Lemma apply_revert_block_witness :
  exists u1 u2, ApplyBlock (C := ToyCrypto.toy) (TC := ToyCodec.toy_codec) NewUtxoSet UtxoRun.block = Ok u1 /\
    RevertBlock (C := ToyCrypto.toy) (TC := ToyCodec.toy_codec) (fun _ => None) u1 UtxoRun.block = Returns u2 /\
    unspent_view u2 = unspent_view NewUtxoSet.
Proof.
  apply (apply_revert_block (C := ToyCrypto.toy) (TC := ToyCodec.toy_codec)); [|reflexivity].
  apply (txs_ok_cons _ _ _ _ UtxoRun.after1).
  - split; [|split; [|by left]].
    + constructor; [|constructor]. right. split; [reflexivity|]. eexists. split; reflexivity.
    + intros op _. reflexivity.
  - apply UtxoRun.after_ok. vm_compute. reflexivity.
  - apply (txs_ok_cons _ _ _ _ UtxoRun.after2);
      [|apply UtxoRun.after_ok; vm_compute; reflexivity|constructor].
    split; [|split].
    + constructor; [|constructor]. right. split; [reflexivity|]. eexists. split; reflexivity.
    + intros op Hop. apply list_elem_of_singleton in Hop as ->. vm_compute. reflexivity.
    + right. intros op Hop. apply list_elem_of_singleton in Hop as ->. split; [reflexivity|].
      exists (Types.NewUtxoWrap 317000000 (Script.PayToPubKeyHashScript UtxoRun.addr1) 5).
      split; vm_compute; reflexivity.
Defined.
