(* ===== verification/UtxoDb.v ===== *)
(** * UtxoDb: the unspent outputs in the database (src/core/chain/utxoset.go)

    Writing a set to the database and loading the entries a transaction or a block needs.
    A table of the key-value store is a finite map from keys to values; a failing store is
    not modelled.  The Go code ranges over maps, in an order the language leaves open: the
    orders are the class [MapOrder], and the theorems hold for every instance. *)

From S2P Require Import Prelude Opcode Crypto Types Script ScriptKinds TxLogic Compress Keys UtxoSet.
Import Kinds TxLogic Compress DbKey Utxo.

Abbreviation Db := (gmap bytes bytes).

(** The orders in which a set and a map are visited. *)
Class MapOrder := {
  order_set : gset OutPoint -> list OutPoint;
  order_map : gmap OutPoint Types.UtxoWrap -> list (OutPoint * Types.UtxoWrap);
  order_set_perm s : order_set s ≡ₚ elements s;
  order_map_perm m : order_map m ≡ₚ map_to_list m
}.

#[export] Instance default_order : MapOrder := {|
  order_set := elements;
  order_map := map_to_list;
  order_set_perm s := reflexivity _;
  order_map_perm m := reflexivity _
|}.

Inductive DbErr := ErrStore (e : StoreErr) | ErrOpReturnInSet | ErrDbScript (e : ScriptErr).

Module UtxoDb.

Section WithPool.
Context `{C : Crypto}.

(** The buffer the key pool hands out. *)
Context (pool : bytes).

(** ** Writing *)

(** The token an output belongs to. *)
Definition tokenOf (sc : bytes) (outpoint : OutPoint) : go (result ScriptErr OutPoint) :=
  if IsTokenTransfer sc then
    v ← GetTransferParams sc;
    Returns (match v with Err e => Err e | Ok v => Ok (mkOutPoint (tp_Hash v) (tp_Index v)) end)
  else Returns (Ok outpoint).

(** The key of the address index entry of an output; none for a deleted non-contract entry. *)
Definition addrUtxoKey (outpoint : OutPoint) (utxoWrap : Types.UtxoWrap) :
    go (result DbErr (option bytes)) :=
  let sc := Types.uw_script utxoWrap in
  if length sc =? 0 then
    Returns (Ok (if Types.IsContractType outpoint
                 then Some (AddrUtxoKey (Types.BytesToAddressHash (op_hash outpoint)) outpoint)
                 else None))
  else if IsOpReturnScript sc then Returns (Err ErrOpReturnInSet)
  else
    match ExtractAddress sc with
    | Err e => Returns (Err (ErrDbScript e))
    | Ok addr =>
        if IsTokenTransfer sc || IsTokenIssue sc then
          tokenID ← tokenOf sc outpoint;
          match tokenID, Types.address_Hash160 addr with
          | Err e, _ => Returns (Err (ErrDbScript e))
          | Ok _, None => Panics
          | Ok tokenID, Some h => Returns (Ok (Some (AddrTokenUtxoKey h tokenID outpoint)))
          end
        else if negb (IsContractPubkey sc) then
          match Types.address_Hash160 addr with
          | None => Panics
          | Some h => Returns (Ok (Some (AddrUtxoKey h outpoint)))
          end
        else Returns (Ok (Some (AddrUtxoKey (Types.BytesToAddressHash (op_hash outpoint)) outpoint)))
    end.

(** One round of the loop of [WriteUtxoSetToDB]. *)
Definition writeEntry (outpoint : OutPoint) (utxoWrap : Types.UtxoWrap) (db : Db) : go (result DbErr Db) :=
  if negb (Types.IsModified utxoWrap) then Returns (Ok db)
  else
    key ← utxoKey pool outpoint;
    r ← addrUtxoKey outpoint utxoWrap;
    match r with
    | Err e => Returns (Err e)
    | Ok addrKey =>
        if Types.IsSpent utxoWrap then
          let db := delete key db in
          Returns (Ok (match addrKey with Some k => delete k db | None => db end))
        else
          r ← SerializeUtxoWrap utxoWrap;
          match r with
          | Err e => Returns (Err (ErrStore e))
          | Ok serialized =>
              let serialized := default [] serialized in
              let db := <[key := serialized]> db in
              Returns (Ok (match addrKey with Some k => <[k := serialized]> db | None => db end))
          end
    end.

Fixpoint writeLoop (entries : list (OutPoint * Types.UtxoWrap)) (db : Db) : go (result DbErr Db) :=
  match entries with
  | [] => Returns (Ok db)
  | (op, w) :: entries =>
      r ← writeEntry op w db;
      match r with
      | Err e => Returns (Err e)
      | Ok db => writeLoop entries db
      end
  end.

Context `{MO : MapOrder}.

Definition WriteUtxoSetToDB (u : UtxoSet) (db : Db) : go (result DbErr Db) :=
  writeLoop (order_map (utxoMap u)) db.

(** ** Loading *)

Definition fetchUtxoWrapFromDB (db : Db) (outpoint : OutPoint) :
    go (result DbErr (option Types.UtxoWrap)) :=
  key ← utxoKey pool outpoint;
  match db !! key with
  | None => Returns (Ok None)
  | Some serialized =>
      r ← DeserializeUtxoWrap serialized [];
      Returns (match r with Err e => Err (ErrStore e) | Ok w => Ok (Some w) end)
  end.

(** On an error the entries fetched so far stay in the set. *)
Fixpoint fetchLoop (outPoints : list OutPoint) (db : Db) (m : gmap OutPoint Types.UtxoWrap) :
    go (gmap OutPoint Types.UtxoWrap * option DbErr) :=
  match outPoints with
  | [] => Returns (m, None)
  | outPoint :: outPoints =>
      r ← fetchUtxoWrapFromDB db outPoint;
      match r with
      | Err e => Returns (m, Some e)
      | Ok None => fetchLoop outPoints db m
      | Ok (Some entry) => fetchLoop outPoints db (<[outPoint := entry]> m)
      end
  end.

Definition fetchUtxosFromOutPointSet (u : UtxoSet) (outPoints : gset OutPoint) (db : Db) :
    go (UtxoSet * option DbErr) :=
  '(m, err) ← fetchLoop (order_set outPoints) db (utxoMap u);
  Returns (with_map u m, err).

Definition LoadTxUtxos (u : UtxoSet) (tx : Transaction) (db : Db) : go (UtxoSet * option DbErr) :=
  if IsCoinBase tx || IsInternalContract tx then Returns (u, None)
  else fetchUtxosFromOutPointSet u (list_to_set (map PrevOutPoint (Vin tx))) db.

Context `{TC : TxCodec}.

(** The outputs of transactions that are not in a block yet. *)
Fixpoint extendLoop (ins : list TxIn) (spendableTxs : gmap bytes (Transaction * Z)) (u : UtxoSet) : go UtxoSet :=
  match ins with
  | [] => Returns u
  | txIn :: ins =>
      let continue := extendLoop ins spendableTxs u in
      let extend :=
        match spendableTxs !! op_hash (PrevOutPoint txIn) with
        | None => continue
        | Some (tx, height) =>
            r ← AddUtxo u tx (op_index (PrevOutPoint txIn)) height;
            match r with
            | Ok u => extendLoop ins spendableTxs u
            | Err _ => continue
            end
        end in
      match FindUtxo u (PrevOutPoint txIn) with
      | Some utxo => if negb (Types.IsSpent utxo) then continue else extend
      | None => extend
      end
  end.

Definition GetExtendedTxUtxoSet (tx : Transaction) (db : Db) (spendableTxs : gmap bytes (Transaction * Z)) :
    go (result DbErr UtxoSet) :=
  '(u, err) ← LoadTxUtxos NewUtxoSet tx db;
  match err with
  | Some e => Returns (Err e)
  | None => u ← extendLoop (Vin tx) spendableTxs u; Returns (Ok u)
  end.

(** ** Loading for a block *)

(** The position of the last transaction with a hash. *)
Fixpoint txIndex (txs : list Transaction) (i : nat) (m : gmap bytes nat) : go (gmap bytes nat) :=
  match txs with
  | [] => Returns m
  | tx :: txs =>
      match Types.CalcTxHash tx with
      | None => Panics
      | Some h => txIndex txs (S i) (<[h := i]> m)
      end
  end.

(** The inputs of transaction [i]: an output of the block itself is added to the set (an
    error is only logged), any other one that is not in the set is to be fetched. *)
Fixpoint blockIns (ins : list TxIn) (i : nat) (needContract : bool) (txs : gmap bytes nat)
    (block : BlockTxs) (u : UtxoSet) (toFetch : gset OutPoint) : go (UtxoSet * gset OutPoint) :=
  match ins with
  | [] => Returns (u, toFetch)
  | txIn :: ins =>
      let op := PrevOutPoint txIn in
      let other :=
        match utxoMap u !! op with
        | Some _ => blockIns ins i needContract txs block u toFetch
        | None => blockIns ins i needContract txs block u ({[op]} ∪ toFetch)
        end in
      if negb needContract && Types.IsContractType op
      then blockIns ins i needContract txs block u toFetch
      else
        match txs !! op_hash op with
        | Some index =>
            if index <=? i then
              match blk_Txs block !! index with
              | None => Panics
              | Some originTx =>
                  r ← AddUtxo u originTx (op_index op) (blk_Height block);
                  blockIns ins i needContract txs block (match r with Ok u => u | Err _ => u end) toFetch
              end
            else other
        | None => other
        end
  end.

Context `{CS : ChainState}.

(** The contracts an output of a block touches; their entries are to be fetched. *)
Fixpoint blockOuts (outs : list TxOut) (toFetch : gset OutPoint) : go (gset OutPoint * option DbErr) :=
  match outs with
  | [] => Returns (toFetch, None)
  | txOut :: outs =>
      let sc := ScriptPubKey txOut in
      let fetch (addr : option bytes) :=
        match addr with
        | None => toFetch
        | Some _ => {[mkOutPoint (Types.NormalizeAddressHash addr) 0]} ∪ toFetch
        end in
      if IsContractPubkey sc then
        match ParseContractAddr sc with
        | Err e => Returns (toFetch, Some (ErrDbScript e))
        | Ok contractAddr => blockOuts outs (fetch contractAddr)
        end
      else if IsPayToPubKeyHash sc then
        match ExtractAddress sc with
        | Ok addrPkh =>
            match Types.address_Hash160 addrPkh with
            | None => Panics
            | Some h => blockOuts outs (fetch (if cs_IsContractAddr h then Some h else None))
            end
        | Err _ => Panics
        end
      else blockOuts outs toFetch
  end.

Fixpoint blockTxs (rest : list Transaction) (i : nat) (needContract : bool) (txs : gmap bytes nat)
    (block : BlockTxs) (u : UtxoSet) (toFetch : gset OutPoint) :
    go (UtxoSet * gset OutPoint * option DbErr) :=
  match rest with
  | [] => Returns (u, toFetch, None)
  | tx :: rest =>
      '(u, toFetch) ← (if 0 <? i then blockIns (Vin tx) i needContract txs block u toFetch
                       else Returns (u, toFetch));
      if (0 <? i) && negb needContract then blockTxs rest (S i) needContract txs block u toFetch
      else
        '(toFetch, err) ← blockOuts (Vout tx) toFetch;
        match err with
        | Some e => Returns (u, toFetch, Some e)
        | None => blockTxs rest (S i) needContract txs block u toFetch
        end
  end.

Definition LoadBlockUtxos (u : UtxoSet) (block : BlockTxs) (needContract : bool) (db : Db) :
    go (UtxoSet * option DbErr) :=
  txs ← txIndex (blk_Txs block) 0 ∅;
  '(u, toFetch, err) ← blockTxs (blk_Txs block) 0 needContract txs block u ∅;
  match err with
  | Some e => Returns (u, Some e)
  | None => if 0 <? size toFetch then fetchUtxosFromOutPointSet u toFetch db else Returns (u, None)
  end.

(** The outputs of a block that are entries of the set. *)
Fixpoint outPointsOf (outs : list TxOut) (idx : nat) (hash : bytes) (needContract : bool)
    (toFetch : gset OutPoint) : gset OutPoint :=
  match outs with
  | [] => toFetch
  | out :: outs =>
      let sc := ScriptPubKey out in
      outPointsOf outs (S idx) hash needContract
        (if IsOpReturnScript sc || (negb needContract && IsContractPubkey sc) then toFetch
         else {[mkOutPoint hash (u32 (Z.of_nat idx))]} ∪ toFetch)
  end.

Fixpoint allOutPoints (txs : list Transaction) (needContract : bool) (toFetch : gset OutPoint) :
    go (gset OutPoint) :=
  match txs with
  | [] => Returns toFetch
  | tx :: txs =>
      match Types.CalcTxHash tx with
      | None => Panics
      | Some hash => allOutPoints txs needContract (outPointsOf (Vout tx) 0 hash needContract toFetch)
      end
  end.

(** [LoadBlockAllUtxos]: an error of loading the inputs is not looked at. *)
Definition LoadBlockAllUtxos (u : UtxoSet) (block : BlockTxs) (needContract : bool) (db : Db) :
    go (UtxoSet * option DbErr) :=
  '(u, _) ← LoadBlockUtxos u block needContract db;
  toFetch ← allOutPoints (blk_Txs block ++ blk_InternalTxs block) needContract ∅;
  if 0 <? size toFetch then fetchUtxosFromOutPointSet u toFetch db else Returns (u, None).

End WithPool.
End UtxoDb.
