(* ===== verification/UtxoDbFacts.v ===== *)
(** * UtxoDbFacts: the database holds what the set says

    Writing a set and loading entries back: the entries of the database after
    [WriteUtxoSetToDB] are those of the set where the set was modified and the old ones
    elsewhere, in whatever order the map was visited. *)

From S2P Require Import Prelude Opcode Crypto Types Script ScriptKinds TxLogic.
From S2P Require Import Compress CompressFacts Keys UtxoSet UtxoDb.
Import Kinds TxLogic Compress DbKey Utxo UtxoDb.

(** ** Keys of index entries *)

Lemma addr_result_ok {A} (f : bytes -> A) (r : result Types.AddrError bytes) a :
  addr_result f r = Ok a -> exists h, r = Ok h /\ a = f h.
Proof. destruct r; simpl; intros [= <-]; eauto. Qed.

Lemma NewAddressPubKeyHash_addr b h : Types.NewAddressPubKeyHash b = Ok h -> addr_ok h.
Proof.
  unfold Types.NewAddressPubKeyHash, addr_ok. destruct (Nat.eqb_spec (length b) Crypto.AddrSize); simpl;
    intros [= <-]. done.
Qed.

(** The address of an output has 20 bytes. *)
Lemma ExtractAddress_ok s addr h :
  ExtractAddress s = Ok addr -> Types.address_Hash160 addr = Some h -> addr_ok h.
Proof.
  unfold ExtractAddress. intros E Eh. destruct (PubkType s); try done.
  all: try (destruct (operandAt _ _) as [[b n]|]; [|done]; cbn [mbind result_bind] in E;
    apply addr_result_ok in E as (h' & E & ->); simpl in Eh; simplify_eq; by eapply NewAddressPubKeyHash_addr).
  unfold ParseContractAddr in E. destruct (operandAt s 22) as [[b n]|]; [|done].
  cbn [mbind result_bind] in E. destruct (negb _); [done|]. case_bool_decide.
  { injection E as <-. done. }
  destruct (addr_result _ _) as [o|] eqn:Er; [|done]. injection E as <-.
  apply addr_result_ok in Er as (h' & Er & ->). simpl in Eh. simplify_eq. by eapply NewAddressPubKeyHash_addr.
Qed.

Lemma BytesToAddressHash_ok b : addr_ok (Types.BytesToAddressHash b).
Proof. by apply Crypto.length_SetBytes. Qed.

Lemma uint_le_range n b z : uint_le n b = Returns z -> (0 <= z < 256 ^ Z.of_nat n)%Z.
Proof.
  unfold uint_le. destruct (Nat.ltb_spec (length b) n); [done|]. intros [= <-].
  pose proof (le_value_bound (take n b)) as H'. rewrite length_take, Nat.min_l in H' by lia. done.
Qed.

(** A transfer names its token by an outpoint. *)
Lemma GetTransferParams_ok s p :
  GetTransferParams s = Returns (Ok p) -> outpoint_ok (mkOutPoint (tp_Hash p) (tp_Index p)).
Proof.
  unfold GetTransferParams. destruct (nthOperand s 0 7) as [[o pc]|]; [|done].
  destruct (Nat.eqb_spec (Crypto.HashSize `min` length o) Crypto.HashSize); [|done]. cbn [negb].
  destruct (nthOperand s pc 3) as [[o2 pc2]|]; [|done].
  destruct (uint_le 4 o2) as [i|] eqn:Ei; [|done]. cbn [mbind go_bind].
  destruct (nthOperand s pc2 3) as [[o3 pc3]|]; [|done].
  destruct (uint_le 8 o3) as [a|]; [|done]. cbn [mbind go_bind]. intros [= <-]. simpl.
  apply uint_le_range in Ei. split; simpl; [|done]. rewrite length_take. lia.
Qed.

(** The text keys of an output are not the length of a binary key. *)
Lemma text_key_length r k : record_key [] r = Returns k -> record_ok r -> (forall op, r <> RUtxo op) ->
  ~ (33 <= length k <= 37).
Proof. intros E H Hr. rewrite record_key_render in E by done. injection E as <-. by apply record_path_length. Qed.

Lemma addrUtxoKey_length op w k : outpoint_ok op -> addrUtxoKey op w = Returns (Ok (Some k)) ->
  ~ (33 <= length k <= 37).
Proof.
  intros Hop. unfold addrUtxoKey. set (sc := Types.uw_script w).
  assert (forall a k, addr_ok a -> Some (AddrUtxoKey a op) = Some k -> ~ (33 <= length k <= 37)) as A.
  { intros a k' Ha [= <-]. by apply (text_key_length (RAddrUtxo a op)). }
  destruct (length sc =? 0).
  { intros [= E]. destruct (Types.IsContractType op); [|done].
    eapply A; [apply BytesToAddressHash_ok|exact E]. }
  destruct (IsOpReturnScript sc); [done|]. destruct (ExtractAddress sc) as [addr|] eqn:Ea; [|done].
  destruct (Types.address_Hash160 addr) as [h|] eqn:Eh.
  - assert (addr_ok h) as Hh by (by eapply ExtractAddress_ok). destruct (_ || _).
    + unfold tokenOf. intros E.
      assert (forall tid, outpoint_ok tid -> AddrTokenUtxoKey h tid op = k -> ~ (33 <= length k <= 37)) as T.
      { intros tid Ht <-. by apply (text_key_length (RAddrTokenUtxo h tid op)). }
      destruct (IsTokenTransfer sc); [|injection E as E; by eapply T].
      destruct (GetTransferParams sc) as [[p|]|] eqn:Ep; try done. injection E as E.
      eapply T; [|exact E]. by eapply GetTransferParams_ok.
    + destruct (negb _); intros [= E]; [by eapply A; [|f_equal]|].
      eapply A; [apply BytesToAddressHash_ok|by f_equal].
  - destruct (_ || _).
    { destruct (tokenOf sc op) as [[|]|]; done. }
    destruct (negb _); [done|]. intros [= E]. eapply A; [apply BytesToAddressHash_ok|by f_equal].
Qed.

(** ** Writing *)

Definition key_of (op : OutPoint) : bytes := op_hash op ++ vlq (op_index op).

Lemma length_key_of op : outpoint_ok op -> 33 <= length (key_of op) <= 37.
Proof.
  intros [Hh Hi]. unfold key_of. rewrite length_app, Hh. pose proof (length_vlq_u32 _ Hi).
  unfold Crypto.HashSize. lia.
Qed.

(** An entry the code can write: what is modified has an index key, and what is unspent a
    value, height and script in range. *)
Definition entry_ok (op : OutPoint) (w : Types.UtxoWrap) : Prop :=
  outpoint_ok op /\
  (Types.IsModified w = true ->
     (Types.IsSpent w = false -> storable w) /\ exists k, addrUtxoKey op w = Returns (Ok k)).

(** What a modified entry leaves at its key. *)
Definition written (w : Types.UtxoWrap) : option bytes :=
  if Types.IsSpent w then None else Some (entry_bytes w).

Section Pool.
Context (pool : bytes) (Hpool : length pool = Crypto.HashSize + 5).

Lemma writeEntry_spec op w db : entry_ok op w ->
  exists db', writeEntry pool op w db = Returns (Ok db') /\
    forall op', outpoint_ok op' ->
      db' !! key_of op' =
        if Types.IsModified w && bool_decide (op' = op) then written w else db !! key_of op'.
Proof.
  intros [Hop Hw]. unfold writeEntry. destruct (Types.IsModified w); [|by exists db].
  destruct Hw as [Hst [ak Hak]]; [done|]. cbn [negb andb].
  rewrite utxoKey_eq by done. fold (key_of op). cbn [mbind go_bind]. rewrite Hak. cbn [mbind go_bind].
  assert (forall op', outpoint_ok op' -> forall k, ak = Some k -> key_of op' <> k) as Hne.
  { intros op' Hop' k -> E. pose proof (length_key_of op' Hop') as L. rewrite E in L.
    exact (addrUtxoKey_length op w k Hop Hak L). }
  assert (forall op', outpoint_ok op' -> op' <> op -> key_of op <> key_of op') as Hinj.
  { intros op' Hop' Hd E. apply Hd. by apply utxoKey_inj. }
  unfold written. destruct (Types.IsSpent w) eqn:Es.
  - eexists. split; [done|]. intros op' Hop'.
    assert (delete (key_of op) db !! key_of op' =
      if bool_decide (op' = op) then None else db !! key_of op') as Hd.
    { case_bool_decide as E; [subst; by rewrite lookup_delete_eq|].
      rewrite lookup_delete_ne; [done|]. by apply Hinj. }
    destruct ak as [k|]; [|done]. rewrite lookup_delete_ne; [done|]. intros E. by eapply Hne.
  - rewrite SerializeUtxoWrap_eq by auto. cbn [mbind go_bind default].
    eexists. split; [done|]. intros op' Hop'.
    assert (<[key_of op := entry_bytes w]> db !! key_of op' =
      if bool_decide (op' = op) then Some (entry_bytes w) else db !! key_of op') as Hd.
    { case_bool_decide as E; [subst; by rewrite lookup_insert_eq|].
      rewrite lookup_insert_ne; [done|]. by apply Hinj. }
    destruct ak as [k|]; [|done]. rewrite lookup_insert_ne; [done|]. intros E. by eapply Hne.
Qed.

Lemma writeLoop_spec entries db :
  NoDup entries.*1 -> (forall op w, (op, w) ∈ entries -> entry_ok op w) ->
  exists db', writeLoop pool entries db = Returns (Ok db') /\
    forall op', outpoint_ok op' ->
      db' !! key_of op' =
        match (list_to_map entries : gmap OutPoint Types.UtxoWrap) !! op' with
        | Some w => if Types.IsModified w then written w else db !! key_of op'
        | None => db !! key_of op'
        end.
Proof.
  revert db. induction entries as [|[op w] entries IH]; intros db Hnd Hok; [by exists db|].
  apply NoDup_cons in Hnd as [Hnotin Hnd].
  destruct (writeEntry_spec op w db) as (db1 & E1 & H1); [by apply Hok; left|].
  destruct (IH db1) as (db2 & E2 & H2); [done| |].
  { intros op' w' Hin. by apply Hok; right. }
  exists db2. cbn [writeLoop]. rewrite E1. cbn [mbind go_bind]. split; [done|].
  intros op' Hop'. rewrite H2, H1 by done. simpl. destruct (decide (op' = op)) as [->|Hd].
  - rewrite lookup_insert_eq, bool_decide_eq_true_2, andb_true_r by done.
    by rewrite not_elem_of_list_to_map_1.
  - rewrite lookup_insert_ne, bool_decide_eq_false_2, andb_false_r by done. done.
Qed.

(** The entry read back for a written one. *)
Definition stored (w : Types.UtxoWrap) : Types.UtxoWrap :=
  Types.NewUtxoWrap (Types.uw_value w) (stored_script (Types.uw_script w)) (Types.uw_height w).

Lemma fetch_key_of db op : outpoint_ok op ->
  fetchUtxoWrapFromDB pool db op =
    match db !! key_of op with
    | None => Returns (Ok None)
    | Some b => r ← DeserializeUtxoWrap b [];
                Returns (match r with Err e => Err (ErrStore e) | Ok w => Ok (Some w) end)
    end.
Proof. intros. unfold fetchUtxoWrapFromDB. by rewrite utxoKey_eq. Qed.

End Pool.

(** The answer does not depend on the pooled buffer. *)
Lemma fetch_pool pool pool' db op :
  length pool = Crypto.HashSize + 5 -> length pool' = Crypto.HashSize + 5 -> outpoint_ok op ->
  fetchUtxoWrapFromDB pool db op = fetchUtxoWrapFromDB pool' db op.
Proof. intros. by rewrite !fetch_key_of. Qed.

Section Order.
Context `{MO : MapOrder} (pool : bytes) (Hpool : length pool = Crypto.HashSize + 5).

Lemma write_spec u db :
  (forall op w, utxoMap u !! op = Some w -> entry_ok op w) ->
  exists db', WriteUtxoSetToDB pool u db = Returns (Ok db') /\
    forall op, outpoint_ok op ->
      fetchUtxoWrapFromDB pool db' op =
        match utxoMap u !! op with
        | Some w => if Types.IsModified w
                    then Returns (Ok (if Types.IsSpent w then None else Some (stored w)))
                    else fetchUtxoWrapFromDB pool db op
        | None => fetchUtxoWrapFromDB pool db op
        end.
Proof.
  intros Hok. unfold WriteUtxoSetToDB. pose proof (order_map_perm (utxoMap u)) as P.
  assert (NoDup (order_map (utxoMap u)).*1) as Hnd by (rewrite P; apply NoDup_fst_map_to_list).
  assert (list_to_map (order_map (utxoMap u)) = utxoMap u) as Em.
  { rewrite (list_to_map_proper _ (map_to_list (utxoMap u))) by done. apply list_to_map_to_list. }
  destruct (writeLoop_spec pool Hpool (order_map (utxoMap u)) db) as (db' & E & H); [done| |].
  { intros op w Hin. apply Hok. rewrite P in Hin. by apply elem_of_map_to_list. }
  exists db'. split; [done|]. intros op Hop. rewrite !fetch_key_of, H, Em by done.
  destruct (utxoMap u !! op) as [w|] eqn:Ew; [|done]. destruct (Types.IsModified w) eqn:Em'; [|done].
  unfold written. destruct (Types.IsSpent w) eqn:Es; [done|].
  destruct (Hok op w Ew) as [_ Hw]. destruct (Hw Em') as [Hst _]. by rewrite DeserializeUtxoWrap_eq by auto.
Qed.

(** ** Loading *)

(** [f] is what the database holds for the outpoints in [ops]. *)
Lemma fetchLoop_spec ops db (f : OutPoint -> option Types.UtxoWrap) m :
  (forall op, op ∈ ops -> fetchUtxoWrapFromDB pool db op = Returns (Ok (f op))) ->
  exists m', fetchLoop pool ops db m = Returns (m', None) /\
    forall op, m' !! op = if bool_decide (op ∈ ops) then match f op with Some w => Some w | None => m !! op end
      else m !! op.
Proof.
  revert m. induction ops as [|o ops IH]; intros m Hf; [by exists m|]. cbn [fetchLoop].
  rewrite Hf by left. cbn [mbind go_bind].
  assert (forall op, op ∈ ops -> fetchUtxoWrapFromDB pool db op = Returns (Ok (f op))) as Hf'.
  { intros op Hin. apply Hf. by right. }
  assert (forall op, bool_decide (op ∈ o :: ops) = bool_decide (op = o) || bool_decide (op ∈ ops)) as Hb.
  { intros op. rewrite <- bool_decide_or. apply bool_decide_ext. apply elem_of_cons. }
  destruct (f o) as [w|] eqn:Eo.
  - destruct (IH (<[o := w]> m) Hf') as (m' & -> & Hm). exists m'. split; [done|]. intros op.
    rewrite Hm, Hb. destruct (decide (op = o)) as [->|].
    + rewrite lookup_insert_eq, (bool_decide_eq_true_2 (o = o)) by done. rewrite Eo. by case_bool_decide.
    + by rewrite lookup_insert_ne, (bool_decide_eq_false_2 (op = o)) by done.
  - destruct (IH m Hf') as (m' & -> & Hm). exists m'. split; [done|]. intros op.
    rewrite Hm, Hb. destruct (decide (op = o)) as [->|].
    + rewrite (bool_decide_eq_true_2 (o = o)) by done. rewrite Eo. cbn [orb].
      by case_bool_decide.
    + by rewrite (bool_decide_eq_false_2 (op = o)) by done.
Qed.

Lemma LoadTxUtxos_spec tx db (f : OutPoint -> option Types.UtxoWrap) :
  IsCoinBase tx = false -> IsInternalContract tx = false ->
  (forall op, op ∈ map PrevOutPoint (Vin tx) -> fetchUtxoWrapFromDB pool db op = Returns (Ok (f op))) ->
  exists u, LoadTxUtxos pool NewUtxoSet tx db = Returns (u, None) /\
    forall op, utxoMap u !! op = if bool_decide (op ∈ map PrevOutPoint (Vin tx)) then f op else None.
Proof.
  intros Hc Hi Hf. unfold LoadTxUtxos, fetchUtxosFromOutPointSet. rewrite Hc, Hi. cbn [orb].
  set (S := list_to_set (map PrevOutPoint (Vin tx)) : gset OutPoint).
  assert (forall op, op ∈ order_set S <-> op ∈ map PrevOutPoint (Vin tx)) as HS.
  { intros op. rewrite order_set_perm, elem_of_elements. apply elem_of_list_to_set. }
  destruct (fetchLoop_spec (order_set S) db f (utxoMap NewUtxoSet)) as (m' & -> & Hm).
  { intros op Hin. by apply Hf, HS. }
  cbn [mbind go_bind]. eexists. split; [done|]. intros op. simpl. rewrite Hm, (bool_decide_ext _ _ (HS op)).
  simpl. rewrite lookup_empty. case_bool_decide; [by destruct (f op)|done].
Qed.

End Order.

(** C31: the database is a faithful copy of the set: when the modified entries are in range,
    writing a set succeeds, and afterwards loading a transaction finds, for each of its
    inputs, nothing if the set had it spent, the value, script (as stored) and height of the
    set's entry if it was modified and unspent, and otherwise what the database held before;
    index entries never overwrite it, and the order of the map does not matter. *)
Theorem write_then_load `{MO : MapOrder} (pool pool' : bytes) (u : UtxoSet) (tx : Transaction) (db : Db)
    (old : OutPoint -> option Types.UtxoWrap) :
  length pool = Crypto.HashSize + 5 -> length pool' = Crypto.HashSize + 5 ->
  (forall op w, utxoMap u !! op = Some w -> entry_ok op w) ->
  IsCoinBase tx = false -> IsInternalContract tx = false ->
  (forall op, op ∈ map PrevOutPoint (Vin tx) ->
     outpoint_ok op /\ fetchUtxoWrapFromDB pool' db op = Returns (Ok (old op))) ->
  exists db' u', WriteUtxoSetToDB pool u db = Returns (Ok db') /\
    LoadTxUtxos pool' NewUtxoSet tx db' = Returns (u', None) /\
    forall op, utxoMap u' !! op =
      if bool_decide (op ∈ map PrevOutPoint (Vin tx)) then
        match utxoMap u !! op with
        | Some w => if Types.IsModified w
                    then if Types.IsSpent w then None else Some (stored w)
                    else old op
        | None => old op
        end
      else None.
Proof.
  intros Hp Hp' Hok Hc Hi Hold. destruct (write_spec pool Hp u db Hok) as (db' & E & H).
  destruct (LoadTxUtxos_spec pool' tx db' (fun op =>
    match utxoMap u !! op with
    | Some w => if Types.IsModified w then if Types.IsSpent w then None else Some (stored w) else old op
    | None => old op
    end)) as (u' & Eu & Hu); [done..| |by exists db', u'].
  intros op Hin. destruct (Hold op Hin) as [Hop Hf].
  rewrite (fetch_pool pool' pool), H by done. rewrite (fetch_pool pool pool'), Hf by done.
  destruct (utxoMap u !! op) as [w|]; [|done]. by destruct (Types.IsModified w), (Types.IsSpent w).
Qed.

(** ** A concrete run: a spent and an unspent entry *)

Module UtxoDbRun.

Definition pay : bytes := Script.PayToPubKeyHashScript (replicate 20 x0a).
Definition opA : OutPoint := mkOutPoint (replicate 32 x01) 0.
Definition opB : OutPoint := mkOutPoint (replicate 32 x02) 1.
Definition wA : Types.UtxoWrap := Types.NewUtxoWrap 700 pay 12.
Definition wB : Types.UtxoWrap := Types.Spend (Types.NewUtxoWrap 800 pay 13).
Definition u : UtxoSet := mkUtxoSet {[opA := wA; opB := wB]} ∅ ∅.
Definition tx : Transaction :=
  Types.AppendVin (Types.NewTx 1 0 0) [MakeVin opA 0; MakeVin opB 0].

Lemma entries_ok op w : utxoMap u !! op = Some w -> entry_ok op w.
Proof.
  unfold u. cbn [utxoMap]. intros [[<- <-]|[_ [<- <-]%lookup_singleton_Some]]%lookup_insert_Some.
  - split; [by split|]. intros _. split; [|eexists; vm_compute; reflexivity].
    intros _. unfold storable. simpl. lia.
  - split; [by split|]. intros _. split; [done|]. eexists. vm_compute. reflexivity.
Qed.

End UtxoDbRun.

Lemma write_then_load_witness :
  exists db' u', WriteUtxoSetToDB (replicate 37 x00) UtxoDbRun.u ∅ = Returns (Ok db') /\
    LoadTxUtxos (replicate 37 xff) NewUtxoSet UtxoDbRun.tx db' = Returns (u', None) /\
    utxoMap u' !! UtxoDbRun.opA = Some UtxoDbRun.wA /\ utxoMap u' !! UtxoDbRun.opB = None.
Proof.
  destruct (write_then_load (replicate 37 x00) (replicate 37 xff) UtxoDbRun.u UtxoDbRun.tx ∅ (fun _ => None))
    as (db' & u' & Hw & Hl & Hu); [reflexivity..|apply UtxoDbRun.entries_ok|reflexivity|reflexivity| |].
  { intros op Hin. simpl in Hin.
    assert (op = UtxoDbRun.opA \/ op = UtxoDbRun.opB) as [-> | ->] by set_solver; by repeat split. }
  exists db', u'. repeat split; [done|done|..]; rewrite Hu; reflexivity.
Defined.
