(* ===== verification/Validate.v ===== *)
(** * Validate: the checks on transactions and blocks (src/core/chain/validate.go)

    Every check is a function to [go (result ChainErr _)]: the error the code returns, or
    a panic where it dereferences a nil result.  Amounts are 64-bit and wrap.  A block
    carries the identity of each transaction object, because the code that looks for
    duplicates compares pointers. *)

From S2P Require Import Prelude Opcode Crypto Types Script ScriptKinds TxLogic UtxoSet Merkle.
Import Kinds TxLogic Utxo.

Inductive ChainErr :=
| ErrBlockTimeOut | ErrFutureBlock
| ErrNoTransactions | ErrFirstTxNotCoinbase | ErrMultipleCoinbases | ErrMaxTxsSizeExceeded
| ErrUnfinalizedTx | ErrDoubleSpendTx | ErrNonStandardTransaction | ErrBadMerkleRoot | ErrDuplicateTx
| ErrMissingTxOut | ErrBadTxOutValue | ErrTokenInvalidName | ErrSpendTooHigh
| ErrTokenInputsOutputNotEqual | ErrNoTxInputs | ErrNoTxOutputs | ErrUtxosOob | ErrVoutsOob
| ErrBadCoinbaseScriptLen | ErrBadTxInput | ErrInvalidFee | ErrBadFees | ErrMaxCodeSizeExceeded
| ErrContractFromMismatch | ErrChainScript (e : ScriptErr) | ErrScriptFuel.

Record Block := mkBlock {
  b_Height : Z;
  b_TimeStamp : Z;
  b_TxsRoot : bytes;
  b_Txs : list Transaction;
  b_Ptrs : list nat
}.

Module Validate.

(** ** Single transactions *)

Definition MaxBlockTimeOut : Z := 1.

(** [VerifyBlockTimeOut] at time [now]. *)
Definition VerifyBlockTimeOut (now : Z) (block : Block) : option ChainErr :=
  if (MaxBlockTimeOut <? now - b_TimeStamp block)%Z then Some ErrBlockTimeOut
  else if (now <? b_TimeStamp block)%Z then Some ErrFutureBlock
  else None.

Definition IsTxFinalized (tx : Transaction) (blockHeight blockTime : Z) : bool :=
  let lockTime := LockTime tx in
  if (lockTime =? 0)%Z then true
  else
    let blockTimeOrHeight := if (lockTime <? Script.LockTimeThreshold)%Z then blockHeight else blockTime in
    if (lockTime <? blockTimeOrHeight)%Z then true
    else forallb (fun txIn => (Sequence txIn =? Types.MaxUint32)%Z) (Vin tx).

(** The sum of the outputs, with the range checks. *)
Fixpoint outValuesLoop (outs : list TxOut) (totalValue : Z) : option ChainErr :=
  match outs with
  | [] => None
  | txOut :: outs =>
      let value := Value txOut in
      if (TotalSupply <? value)%Z then Some ErrBadTxOutValue
      else
        let totalValue := u64 (totalValue + value) in
        if (totalValue <? value)%Z then Some ErrBadTxOutValue
        else if (TotalSupply <? totalValue)%Z then Some ErrBadTxOutValue
        else outValuesLoop outs totalValue
  end.

Definition ValidateTransactionPreliminary (tx : Transaction) : option ChainErr :=
  if length (Vin tx) =? 0 then Some ErrNoTxInputs
  else if length (Vout tx) =? 0 then Some ErrNoTxOutputs
  else if MaxVinInTx <? length (Vin tx) then Some ErrUtxosOob
  else if MaxVoutInTx <? length (Vout tx) then Some ErrVoutsOob
  else
    match outValuesLoop (Vout tx) 0 with
    | Some e => Some e
    | None =>
        if IsCoinBase tx || IsInternalContract tx then
          let slen := default 0 (length <$> (ScriptSig <$> head (Vin tx))) in
          if (slen <? MinCoinbaseScriptLen) || (MaxCoinbaseScriptLen <? slen)
          then Some ErrBadCoinbaseScriptLen else None
        else if existsb (fun txIn => isNullOutPoint (PrevOutPoint txIn)) (Vin tx)
        then Some ErrBadTxInput else None
    end.

(** ** Amounts *)

(** [strings.EqualFold(name, "box")]. *)
Definition lower (b : byte) : byte :=
  if (65 <=? b2z b)%Z && (b2z b <=? 90)%Z then z2b (b2z b + 32) else b.

Definition is_box (name : bytes) : bool :=
  bool_decide (map lower name = String.list_byte_of_string "box").

Definition add_amount (m : gmap OutPoint Z) (k : OutPoint) (v : Z) : gmap OutPoint Z :=
  <[k := u64 (default 0%Z (m !! k) + v)]> m.

Section WithPow10.
Context `{P : Pow10}.

(** What an input adds to the token sums; [params, _ :=] drops the error, and the use of
    the nil parameters panics. *)
Definition tokenIn (op : OutPoint) (s : bytes) (m : gmap OutPoint Z) :
    go (result ChainErr (gmap OutPoint Z)) :=
  if IsTokenIssue s then
    r ← GetIssueParams s;
    match r with
    | Err _ => Panics
    | Ok p =>
        if is_box (ip_Name p) then Returns (Err ErrTokenInvalidName)
        else Returns (Ok (add_amount m op (u64 (ip_TotalSupply p * pow10_u64 (ip_Decimals p)))))
    end
  else if IsTokenTransfer s then
    r ← GetTransferParams s;
    match r with
    | Err _ => Panics
    | Ok p => Returns (Ok (add_amount m (mkOutPoint (tp_Hash p) (tp_Index p)) (tp_Amount p)))
    end
  else Returns (Ok m).

Fixpoint inputsLoop (u : UtxoSet) (ins : list TxIn) (total : Z) (tokens : gmap OutPoint Z) :
    go (result ChainErr (Z * gmap OutPoint Z)) :=
  match ins with
  | [] => Returns (Ok (total, tokens))
  | txIn :: ins =>
      match FindUtxo u (PrevOutPoint txIn) with
      | None => Returns (Err ErrMissingTxOut)
      | Some utxo =>
          if Types.IsSpent utxo then Returns (Err ErrMissingTxOut)
          else
            let utxoAmount := Types.uw_value utxo in
            if (TotalSupply <? utxoAmount)%Z then Returns (Err ErrBadTxOutValue)
            else
              let lastAmount := total in
              let total := u64 (total + utxoAmount) in
              if (total <? lastAmount)%Z || (TotalSupply <? total)%Z then Returns (Err ErrBadTxOutValue)
              else
                r ← tokenIn (PrevOutPoint txIn) (Types.uw_script utxo) tokens;
                match r with
                | Err e => Returns (Err e)
                | Ok tokens => inputsLoop u ins total tokens
                end
      end
  end.

Definition tokenOut (s : bytes) (m : gmap OutPoint Z) : go (gmap OutPoint Z) :=
  if IsTokenTransfer s then
    r ← GetTransferParams s;
    match r with
    | Err _ => Panics
    | Ok p => Returns (add_amount m (mkOutPoint (tp_Hash p) (tp_Index p)) (tp_Amount p))
    end
  else Returns m.

Fixpoint outputsLoop (outs : list TxOut) (total : Z) (tokens : gmap OutPoint Z) :
    go (Z * gmap OutPoint Z) :=
  match outs with
  | [] => Returns (total, tokens)
  | txOut :: outs =>
      tokens ← tokenOut (ScriptPubKey txOut) tokens;
      outputsLoop outs (u64 (total + Value txOut)) tokens
  end.

(** [ValidateTxInputs]: the fee. *)
Definition ValidateTxInputs (u : UtxoSet) (tx : Transaction) : go (result ChainErr Z) :=
  if IsCoinBase tx || IsInternalContract tx then Returns (Ok 0%Z)
  else
    r ← inputsLoop u (Vin tx) 0 ∅;
    match r with
    | Err e => Returns (Err e)
    | Ok (totalInputAmount, tokenInputAmounts) =>
        '(totalOutputAmount, tokenOutputAmounts) ← outputsLoop (Vout tx) 0 ∅;
        if (totalInputAmount <? totalOutputAmount)%Z then Returns (Err ErrSpendTooHigh)
        else if negb (size tokenOutputAmounts =? size tokenInputAmounts)
        then Returns (Err ErrTokenInputsOutputNotEqual)
        else if negb (bool_decide (map_Forall (fun k v => tokenInputAmounts !! k = Some v) tokenOutputAmounts))
        then Returns (Err ErrTokenInputsOutputNotEqual)
        else Returns (Ok (u64 (totalInputAmount - totalOutputAmount)))
    end.

End WithPow10.

(** ** Scripts *)

Record ScriptItem := mkScriptItem {
  si_tx : Transaction;
  si_txInIdx : nat;
  si_scriptSig : bytes;
  si_prevScriptPubKey : bytes
}.

Section WithHash.
Context `{C : Crypto} `{TC : TxCodec}.

(** [script.Validate] on an item; [None] is success. *)
Definition validate_item (it : ScriptItem) : option ChainErr :=
  match Script.Validate (si_scriptSig it) (si_prevScriptPubKey it) (si_tx it) (si_txInIdx it) with
  | None => Some ErrScriptFuel
  | Some (Err e) => Some (ErrChainScript e)
  | Some (Ok _) => None
  end.

(** The loop of [CheckTxScripts] from input [i]. *)
Fixpoint checkScriptsLoop (u : UtxoSet) (tx : Transaction) (skipValidation : bool) (ins : list TxIn)
    (i : nat) (items : list ScriptItem) : result ChainErr (list ScriptItem) :=
  match ins with
  | [] => Ok items
  | txIn :: ins =>
      match FindUtxo u (PrevOutPoint txIn) with
      | None => Err ErrMissingTxOut
      | Some utxo =>
          if Types.IsSpent utxo then Err ErrMissingTxOut
          else
            let it := mkScriptItem tx i (ScriptSig txIn) (Types.uw_script utxo) in
            if skipValidation then checkScriptsLoop u tx skipValidation ins (S i) (items ++ [it])
            else match validate_item it with
                 | Some e => Err e
                 | None => checkScriptsLoop u tx skipValidation ins (S i) items
                 end
      end
  end.

Definition CheckTxScripts (u : UtxoSet) (tx : Transaction) (skipValidation : bool) :
    result ChainErr (list ScriptItem) :=
  checkScriptsLoop u tx skipValidation (Vin tx) 0 [].

(** The items [validateBlockScripts] hands to the validators. *)
Fixpoint blockScriptItems (u : UtxoSet) (txs : list Transaction) (items : list ScriptItem) :
    result ChainErr (list ScriptItem) :=
  match txs with
  | [] => Ok items
  | tx :: txs =>
      if IsInternalContract tx then blockScriptItems u txs items
      else
        txItems ← CheckTxScripts u tx true;
        blockScriptItems u txs (items ++ txItems)
  end.

(** ** Blocks *)

Section WithState.
Context (statedb : option (bytes -> bool)).

(** The outpoints seen so far and the inputs of one more transaction. *)
Fixpoint doubleSpendLoop (ins : list TxIn) (existing : gset OutPoint) : option (gset OutPoint) :=
  match ins with
  | [] => Some existing
  | txIn :: ins =>
      if bool_decide (PrevOutPoint txIn ∈ existing) then None
      else doubleSpendLoop ins ({[PrevOutPoint txIn]} ∪ existing)
  end.

(** The loop over the transactions; it returns them with their cached types. *)
Fixpoint txsLoop (block : Block) (txs : list Transaction) (existing : gset OutPoint) (roughSize : Z) :
    result ChainErr (list Transaction) :=
  match txs with
  | [] => Ok []
  | tx :: txs =>
      let roughSize := (roughSize + RoughSize tx)%Z in
      if (MaxTxsRoughSize <? roughSize)%Z then Err ErrMaxTxsSizeExceeded
      else if negb (IsTxFinalized tx (b_Height block) (b_TimeStamp block)) then Err ErrUnfinalizedTx
      else
        match ValidateTransactionPreliminary tx with
        | Some e => Err e
        | None =>
            match doubleSpendLoop (Vin tx) existing with
            | None => Err ErrDoubleSpendTx
            | Some existing =>
                let '(tx, ok) := IsStandardTx statedb tx in
                if negb ok then Err ErrNonStandardTransaction
                else
                  txs ← txsLoop block txs existing roughSize;
                  Ok (tx :: txs)
            end
        end
  end.

(** The search for duplicates, in a map keyed by pointers. *)
Fixpoint dupPointer (ptrs : list nat) (existing : gset nat) : bool :=
  match ptrs with
  | [] => false
  | p :: ptrs => if bool_decide (p ∈ existing) then true else dupPointer ptrs ({[p]} ∪ existing)
  end.

Definition validateBlock (block : Block) : go (result ChainErr (list Transaction)) :=
  match b_Txs block with
  | [] => Returns (Err ErrNoTransactions)
  | coinbase :: rest =>
      if negb (IsCoinBase coinbase) then Returns (Err ErrFirstTxNotCoinbase)
      else if existsb IsCoinBase rest then Returns (Err ErrMultipleCoinbases)
      else
        match txsLoop block (b_Txs block) ∅ 0 with
        | Err e => Returns (Err e)
        | Ok txs =>
            root ← Merkle.CalcTxsHash txs;
            if negb (Crypto.IsEqual (Some (b_TxsRoot block)) root)
            then (* the message dereferences the calculated root *)
              match root with None => Panics | Some _ => Returns (Err ErrBadMerkleRoot) end
            else if dupPointer (b_Ptrs block) ∅ then Returns (Err ErrDuplicateTx)
            else Returns (Ok txs)
        end
  end.

End WithState.
End WithHash.
End Validate.
