(* ===== verification/ValidateFacts.v ===== *)
(** * ValidateFacts: what an accepted transaction and an accepted block satisfy

    Value is conserved exactly, although the sums are 64-bit; tokens are conserved only
    modulo 2^64.  An accepted block spends no output twice and repeats no transaction. *)

From S2P Require Import Prelude Opcode Crypto Types Script ScriptKinds ScriptKindsFacts TxLogic.
From S2P Require Import UtxoSet Merkle Validate.
Import Kinds TxLogic Utxo Validate.

Fixpoint zsum (l : list Z) : Z :=
  match l with [] => 0 | z :: l => z + zsum l end.

(** ** Outputs *)

Lemma outValuesLoop_sum outs total :
  Forall (fun o => 0 <= Value o < 2 ^ 64)%Z outs -> (0 <= total <= TotalSupply)%Z ->
  outValuesLoop outs total = None -> (total + zsum (map Value outs) <= TotalSupply)%Z.
Proof.
  intros Hv. revert total. induction Hv as [|o outs Ho _ IH]; intros total Ht H; simpl in *; [lia|].
  unfold TotalSupply, DuPerBox in *.
  destruct (Z.ltb_spec (3000000000 * 100000000) (Value o)); [done|].
  rewrite u64_small in H by lia.
  destruct (Z.ltb_spec (total + Value o) (Value o)); [done|].
  destruct (Z.ltb_spec (3000000000 * 100000000) (total + Value o)); [done|].
  apply IH in H; lia.
Qed.

Lemma zsum_nonneg l : Forall (fun z => 0 <= z)%Z l -> (0 <= zsum l)%Z.
Proof. induction 1; simpl; lia. Qed.

Lemma outputsLoop_sum outs total tokens total' tokens' :
  Forall (fun o => 0 <= Value o)%Z outs -> (0 <= total)%Z ->
  (total + zsum (map Value outs) < 2 ^ 64)%Z ->
  outputsLoop outs total tokens = Returns (total', tokens') ->
  total' = (total + zsum (map Value outs))%Z.
Proof.
  intros Hv. revert total tokens. induction Hv as [|o outs Ho Hv IH]; intros total tokens Ht Hs H; simpl in *.
  - simplify_eq. lia.
  - destruct (tokenOut _ _) as [m|]; simpl in H; [|done].
    pose proof (zsum_nonneg (map Value outs)) as Hn. rewrite List.Forall_map in Hn. specialize (Hn Hv).
    rewrite u64_small in H by lia. apply IH in H; lia.
Qed.

(** ** Inputs *)

(** The entries a transaction spends. *)
Definition spends (u : UtxoSet) (ins : list TxIn) (ws : list Types.UtxoWrap) : Prop :=
  Forall2 (fun i w => FindUtxo u (PrevOutPoint i) = Some w /\ Types.IsSpent w = false) ins ws.

Definition values_ok (u : UtxoSet) : Prop :=
  map_Forall (fun _ w => 0 <= Types.uw_value w < 2 ^ 64)%Z (utxoMap u).

Section WithPow10.
Context `{P : Pow10}.

Lemma inputsLoop_sum u ins total tokens total' tokens' :
  values_ok u -> (0 <= total <= TotalSupply)%Z ->
  inputsLoop u ins total tokens = Returns (Ok (total', tokens')) ->
  exists ws, spends u ins ws /\ total' = (total + zsum (map Types.uw_value ws))%Z /\
    (total <= total' <= TotalSupply)%Z.
Proof.
  intros Hu. revert total tokens. induction ins as [|i ins IH]; intros total tokens Ht H; simpl in H.
  - simplify_eq. exists []. split; [constructor|]. simpl. lia.
  - destruct (FindUtxo u (PrevOutPoint i)) as [w|] eqn:Ew; [|done].
    destruct (Types.IsSpent w) eqn:Es; [done|].
    destruct (Z.ltb_spec TotalSupply (Types.uw_value w)) as [|Hle]; [done|].
    pose proof (Hu _ _ Ew) as Hw.
    rewrite u64_small in H by (unfold TotalSupply, DuPerBox in *; lia).
    destruct (Z.ltb_spec (total + Types.uw_value w) total); [done|].
    destruct (Z.ltb_spec TotalSupply (total + Types.uw_value w)); [done|]. simpl in H.
    destruct (tokenIn _ _ _) as [[m|]|]; simpl in H; [|done|done].
    apply IH in H as (ws & Hs & -> & Hr); [|lia].
    exists (w :: ws). split; [by constructor|]. simpl. lia.
Qed.

Lemma value_kept (u : UtxoSet) (tx : Transaction) (fee : Z) :
  values_ok u -> Forall (fun o => 0 <= Value o < 2 ^ 64)%Z (Vout tx) ->
  IsCoinBase tx = false -> IsInternalContract tx = false ->
  ValidateTransactionPreliminary tx = None -> ValidateTxInputs u tx = Returns (Ok fee) ->
  exists ws, spends u (Vin tx) ws /\
    zsum (map Types.uw_value ws) = (zsum (map Value (Vout tx)) + fee)%Z /\
    (0 <= fee)%Z /\ (zsum (map Types.uw_value ws) <= TotalSupply)%Z.
Proof.
  intros Hu Hv Hcb Hic Hpre Hval. unfold ValidateTransactionPreliminary in Hpre.
  rewrite Hcb, Hic in Hpre. cbn [orb] in Hpre. repeat case_match; try done. rename select (outValuesLoop _ _ = None) into Hout.
  apply outValuesLoop_sum in Hout; [|done|unfold TotalSupply, DuPerBox; lia].
  unfold ValidateTxInputs in Hval. rewrite Hcb, Hic in Hval. cbn [orb] in Hval.
  destruct (inputsLoop u (Vin tx) 0 ∅) as [[[tin min]|]|] eqn:Ein; simpl in Hval; [|done|done].
  apply inputsLoop_sum in Ein as (ws & Hs & Etin & Hr); [|done|unfold TotalSupply, DuPerBox; lia].
  assert (Forall (fun o => 0 <= Value o)%Z (Vout tx)) as Hv0 by (eapply Forall_impl; [done|]; simpl; lia).
  pose proof (zsum_nonneg (map Value (Vout tx))) as Hn. rewrite List.Forall_map in Hn. specialize (Hn Hv0).
  unfold TotalSupply, DuPerBox in *.
  destruct (outputsLoop (Vout tx) 0 ∅) as [[tout mout]|] eqn:Eout; simpl in Hval; [|done].
  apply outputsLoop_sum in Eout; [|done|lia|lia].
  destruct (Z.ltb_spec tin tout); [done|]. repeat case_match; try done. simplify_eq.
  exists ws. rewrite u64_small by lia. split; [done|]. lia.
Qed.

(** ** Tokens *)

(** tokens are conserved only modulo 2^64: whoever holds an output of any amount of a
    token can spend it into two outputs of 2^63 units each, besides the amount held; the
    wrapped sums agree and the transaction passes the checks. *)
Theorem token_inflation (u : UtxoSet) (op : OutPoint) (w : Types.UtxoWrap) (h : bytes)
    (p : TransferParams) (sg : bytes) (seq : Z) :
  let out a := mkTxOut 0 (TransferTokenScript h (mkTransferParams (tp_Hash p) (tp_Index p) a)) in
  let tx := mkTx UnknownTx 1 [mkTxIn op sg seq] [out (2 ^ 63)%Z; out (2 ^ 63)%Z; out (tp_Amount p)] None 0 0 in
  length h = 20 -> length (tp_Hash p) = 32 -> (0 <= tp_Index p < 2 ^ 32)%Z ->
  (0 <= tp_Amount p < 2 ^ 64)%Z -> (0 <= Types.uw_value w <= TotalSupply)%Z ->
  IsCoinBase tx = false -> IsInternalContract tx = false -> isNullOutPoint op = false ->
  FindUtxo u op = Some w -> Types.IsSpent w = false -> Types.uw_script w = TransferTokenScript h p ->
  ValidateTransactionPreliminary tx = None /\ ValidateTxInputs u tx = Returns (Ok (Types.uw_value w)).
Proof.
  intros out tx Hh Hp Hi Ha Hv Hcb Hic Hnull Hw Hs Hsc.
  set (k := mkOutPoint (tp_Hash p) (tp_Index p)).
  assert (forall m a, (0 <= a < 2 ^ 64)%Z -> tokenOut (ScriptPubKey (out a)) m = Returns (add_amount m k a)) as Hout.
  { intros m a Hr. unfold tokenOut. simpl ScriptPubKey.
    destruct (transfer_recognised h (mkTransferParams (tp_Hash p) (tp_Index p) a) Hh Hp) as [-> _].
    by rewrite transfer_read. }
  split.
  - unfold ValidateTransactionPreliminary. rewrite Hcb, Hic. cbn. by rewrite Hnull.
  - unfold ValidateTxInputs. rewrite Hcb, Hic. cbn [orb inputsLoop Vin tx PrevOutPoint].
    rewrite Hw, Hs, Hsc, (proj2 (Z.ltb_ge TotalSupply _)), Z.add_0_l by lia.
    rewrite u64_small by (unfold TotalSupply, DuPerBox in *; lia).
    rewrite !(proj2 (Z.ltb_ge _ _)) by lia. cbn [orb].
    unfold tokenIn. destruct (transfer_recognised h p Hh Hp) as [-> ->].
    rewrite transfer_read by done. cbn [mbind go_bind]. fold k.
    cbn [outputsLoop Vout tx]. rewrite Hout by lia. cbn [mbind go_bind]. rewrite Hout by lia.
    cbn [mbind go_bind]. rewrite Hout by done. cbn [mbind go_bind Value out].
    change (u64 (u64 (u64 (0 + 0) + 0) + 0)) with 0%Z. rewrite (proj2 (Z.ltb_ge _ _)) by lia.
    assert (add_amount (add_amount (add_amount ∅ k (2 ^ 63)) k (2 ^ 63)) k (tp_Amount p) =
            add_amount ∅ k (tp_Amount p)) as ->.
    { unfold add_amount. rewrite lookup_empty, !lookup_insert_eq, !insert_insert_eq. done. }
    rewrite Nat.eqb_refl. cbn [negb]. rewrite bool_decide_eq_true_2 by by intros ? ?. cbn [negb].
    rewrite Z.sub_0_r, u64_small by (unfold TotalSupply, DuPerBox in *; lia). done.
Qed.

End WithPow10.

(** ** Blocks *)

Section Blocks.
Context `{P : Pow10} `{C : Crypto} `{TC : TxCodec}.

Definition spent_ops (tx : Transaction) : list OutPoint := map PrevOutPoint (Vin tx).

Lemma doubleSpendLoop_sound ins existing existing' :
  doubleSpendLoop ins existing = Some existing' ->
  NoDup (map PrevOutPoint ins) /\ (forall op, op ∈ map PrevOutPoint ins -> op ∉ existing) /\
  existing' = list_to_set (map PrevOutPoint ins) ∪ existing.
Proof.
  revert existing. induction ins as [|i ins IH]; intros existing H; cbn [doubleSpendLoop map] in *.
  - simplify_eq. split; [constructor|]. split; [intros op Hop; by apply not_elem_of_nil in Hop|].
    simpl. by rewrite (left_id_L ∅ (∪)).
  - case_bool_decide as Hin; [done|]. apply IH in H as (Hnd & Hdis & ->). split_and!.
    + apply NoDup_cons. split; [|done]. intros Hi. apply (Hdis _ Hi). set_solver.
    + intros op [->|Hop]%elem_of_cons; [done|]. specialize (Hdis _ Hop). set_solver.
    + simpl. set_solver.
Qed.

(** What the loop checks of each transaction. *)
Definition tx_checked (block : Block) (tx : Transaction) : Prop :=
  IsTxFinalized tx (b_Height block) (b_TimeStamp block) = true /\
  ValidateTransactionPreliminary tx = None.

Lemma CalcTxHash_IsStandardTx statedb tx :
  Types.CalcTxHash (IsStandardTx statedb tx).1 = Types.CalcTxHash tx.
Proof.
  unfold IsStandardTx, ParseTxType. destruct (negb _); [done|].
  by destruct (parseTypeLoop _ _ _ _ _ _) as [[? ?] ?].
Qed.

Lemma txsLoop_sound statedb block txs existing rough txs' :
  txsLoop statedb block txs existing rough = Ok txs' ->
  NoDup (concat (map spent_ops txs)) /\ (forall op, op ∈ concat (map spent_ops txs) -> op ∉ existing) /\
  Forall (tx_checked block) txs /\ map Types.CalcTxHash txs' = map Types.CalcTxHash txs /\
  ((rough <= MaxTxsRoughSize)%Z -> (rough + zsum (map RoughSize txs) <= MaxTxsRoughSize)%Z).
Proof.
  revert existing rough txs'. induction txs as [|tx txs IH]; intros existing rough txs' H; cbn [txsLoop] in H.
  - simplify_eq. split; [apply NoDup_nil_2|]. split; [intros op Hop; by apply not_elem_of_nil in Hop|].
    split; [constructor|]. split; [done|]. simpl. lia.
  - destruct (Z.ltb_spec MaxTxsRoughSize (rough + RoughSize tx)) as [|Hr]; [done|].
    destruct (IsTxFinalized tx _ _) eqn:Efin; [|done]. cbn [negb] in H.
    destruct (ValidateTransactionPreliminary tx) eqn:Epre; [done|].
    destruct (doubleSpendLoop (Vin tx) existing) as [e1|] eqn:Eds; [|done].
    pose proof (CalcTxHash_IsStandardTx statedb tx) as Hh.
    destruct (IsStandardTx statedb tx) as [tx1 []]; [|done]. cbn [negb fst] in *.
    destruct (txsLoop statedb block txs e1 _) as [txs1|] eqn:El; [|done]. simpl in H. simplify_eq.
    apply IH in El as (Hnd & Hdis & Hck & Hhs & Hsz).
    apply doubleSpendLoop_sound in Eds as (Hnd1 & Hdis1 & ->). simpl. split_and!.
    + apply NoDup_app. split; [done|]. split; [|done]. intros op Hop Hop2.
      apply (Hdis _ Hop2). apply elem_of_union_l. by apply elem_of_list_to_set.
    + intros op [Hop|Hop]%elem_of_app; [by apply Hdis1|]. specialize (Hdis _ Hop).
      apply not_elem_of_union in Hdis. by destruct Hdis.
    + by constructor.
    + by rewrite Hh, Hhs.
    + intros _. specialize (Hsz Hr). lia.
Qed.

Lemma NoDup_concat_inj {A B} (f : A -> list B) (l : list A) :
  NoDup (concat (map f l)) -> Forall (fun x => f x <> []) l -> NoDup l.
Proof.
  induction l as [|x l IH]; intros Hnd Hne; [constructor|].
  apply Forall_cons in Hne as [Hx Hne]. simpl in Hnd. apply NoDup_app in Hnd as (_ & Hdis & Hnd).
  constructor; [|by apply IH]. intros Hin. destruct (f x) as [|y ys] eqn:Ey; [done|].
  apply (Hdis y); [by left|]. apply list_elem_of_In, in_concat. exists (f x). split.
  - apply in_map, list_elem_of_In, Hin.
  - rewrite Ey. by left.
Qed.

Lemma validateBlock_checked (statedb : option (bytes -> bool)) (block : Block) txs :
  validateBlock statedb block = Returns (Ok txs) ->
  NoDup (concat (map spent_ops (b_Txs block))) /\ Forall (tx_checked block) (b_Txs block).
Proof.
  unfold validateBlock. intros H. destruct (b_Txs block) as [|cb rest] eqn:Eb; [done|].
  destruct (negb (IsCoinBase cb)); [done|]. destruct (existsb IsCoinBase rest) eqn:Er; [done|].
  destruct (txsLoop statedb block (cb :: rest) ∅ 0) as [txs1|] eqn:El; [|done].
  by apply txsLoop_sound in El as (Hnd & _ & Hck & _).
Qed.

(** C17: an accepted block starts with its only coinbase, spends no output twice, contains
    no transaction twice, has only finalized and well-formed transactions within the size
    limit, and its header commits to exactly these transactions. *)
Theorem validateBlock_sound (statedb : option (bytes -> bool)) (block : Block) txs :
  validateBlock statedb block = Returns (Ok txs) ->
  (exists cb rest, b_Txs block = cb :: rest /\ IsCoinBase cb = true /\ existsb IsCoinBase rest = false) /\
  NoDup (concat (map spent_ops (b_Txs block))) /\ NoDup (b_Txs block) /\
  Forall (tx_checked block) (b_Txs block) /\
  (zsum (map RoughSize (b_Txs block)) <= MaxTxsRoughSize)%Z /\
  Merkle.CalcTxsHash (b_Txs block) = Returns (Some (b_TxsRoot block)).
Proof.
  unfold validateBlock. intros H. destruct (b_Txs block) as [|cb rest] eqn:Eb; [done|].
  destruct (IsCoinBase cb) eqn:Ecb; [|done]. cbn [negb] in H.
  destruct (existsb IsCoinBase rest) eqn:Er; [done|].
  destruct (txsLoop statedb block (cb :: rest) ∅ 0) as [txs1|] eqn:El; [|done].
  apply txsLoop_sound in El as (Hnd & _ & Hck & Hhs & Hsz).
  assert (Merkle.CalcTxsHash txs1 = Merkle.CalcTxsHash (cb :: rest)) as Hroot
    by (unfold Merkle.CalcTxsHash; by rewrite Hhs).
  rewrite Hroot in H. destruct (Merkle.CalcTxsHash (cb :: rest)) as [[root|]|]; simpl in H; try done.
  case_bool_decide as Heq; simpl in H; [|done]. destruct (dupPointer _ _); [done|].
  split; [eauto|]. split; [done|]. split_and!; try done.
  - apply (NoDup_concat_inj spent_ops); [done|]. eapply Forall_impl; [exact Hck|].
    intros tx [_ Hpre] Hno. unfold ValidateTransactionPreliminary, spent_ops in *.
    apply map_eq_nil in Hno. by rewrite Hno in Hpre.
  - specialize (Hsz ltac:(vm_compute; congruence)). lia.
  - by rewrite Heq.
Qed.

(** The search for duplicate transactions compares the addresses of the hashes: among
    distinct objects it finds nothing, whatever they contain. *)
Lemma dupPointer_distinct (ptrs : list nat) (existing : gset nat) :
  NoDup ptrs -> (forall p, p ∈ ptrs -> p ∉ existing) -> dupPointer ptrs existing = false.
Proof.
  intros Hnd. revert existing. induction Hnd as [|p ptrs Hp _ IH]; intros existing Hdis; [done|].
  cbn [dupPointer]. rewrite bool_decide_eq_false_2 by (apply Hdis; by left).
  apply IH. intros q Hq. apply not_elem_of_union. split; [|by apply Hdis; right].
  apply not_elem_of_singleton. by intros ->.
Qed.

(** *** Value *)

(** The transactions that move value: neither the coinbase nor one a contract made. *)
Definition ordinary (tx : Transaction) : bool := negb (IsCoinBase tx || IsInternalContract tx).

(** The value of an unspent entry. *)
Definition value_at (u : UtxoSet) (op : OutPoint) : Z :=
  match FindUtxo u op with Some w => Types.uw_value w | None => 0 end.

Definition unspent_at (u : UtxoSet) (op : OutPoint) : Prop :=
  exists w, FindUtxo u op = Some w /\ Types.IsSpent w = false.

Lemma spends_ops u ins ws :
  spends u ins ws ->
  Forall (unspent_at u) (map PrevOutPoint ins) /\
  zsum (map (value_at u) (map PrevOutPoint ins)) = zsum (map Types.uw_value ws).
Proof.
  induction 1 as [|i w ins ws [Hw Hs] _ [IH1 IH2]]; simpl; [done|]. split.
  - constructor; [by exists w|done].
  - unfold value_at at 1. rewrite Hw, IH2. done.
Qed.

Lemma zsum_app l1 l2 : zsum (l1 ++ l2) = (zsum l1 + zsum l2)%Z.
Proof. induction l1; simpl; lia. Qed.

Lemma NoDup_concat_filter {A B} (f : A -> list B) (b : A -> bool) (l : list A) :
  NoDup (concat (map f l)) -> NoDup (concat (map f (List.filter b l))).
Proof.
  assert (forall y k, y ∈ concat (map f (List.filter b k)) -> y ∈ concat (map f k)) as Hsub.
  { intros y k. rewrite !list_elem_of_In, !in_concat. intros (ys & (x & <- & [Hx _]%filter_In)%in_map_iff & Hy).
    exists (f x). split; [by apply in_map|done]. }
  induction l as [|x l IH]; simpl; [done|]. intros (Hx & Hdis & Hl)%NoDup_app.
  destruct (b x); [|by apply IH]. simpl. apply NoDup_app. split; [done|]. split; [|by apply IH].
  intros y Hy Hy2. by apply (Hdis y), Hsub.
Qed.

(** What one ordinary transaction contributes. *)
Lemma ordinary_value u block tx fee :
  values_ok u -> Forall (fun o => 0 <= Value o < 2 ^ 64)%Z (Vout tx) ->
  ordinary tx = true -> tx_checked block tx -> ValidateTxInputs u tx = Returns (Ok fee) ->
  Forall (unspent_at u) (spent_ops tx) /\
  zsum (map (value_at u) (spent_ops tx)) = (zsum (map Value (Vout tx)) + fee)%Z /\
  (0 <= fee)%Z /\ (zsum (map Value (Vout tx)) + fee <= TotalSupply)%Z.
Proof.
  intros Hu Hv Ho [_ Hpre] Hval. apply negb_true_iff, orb_false_iff in Ho as [Hcb Hic].
  destruct (value_kept u tx fee Hu Hv Hcb Hic Hpre Hval) as (ws & Hs & Hsum & Hfee & Hle).
  apply spends_ops in Hs as [Hun Heq]. unfold spent_ops. rewrite Heq. split; [done|]. lia.
Qed.

(** C1: value is conserved by a block: take a block whose transactions pass the structural
    checks of validateBlock and whose ordinary transactions (every one but the coinbase and
    those that contracts made, which these checks let through) pass ValidateTxInputs, each
    with the fee it returns.  Then the outpoints they spend are pairwise distinct, within a
    transaction and across the block; each of them is an existing unspent output; the true
    sum of the values of these distinct outputs is the true sum of the outputs created plus
    the fees; no fee is negative and no transaction moves more than the total supply, so no
    64-bit sum wrapped.  Distinctness comes from the block check: the two checks of a
    single transaction accept one that lists an outpoint twice. *)
Theorem value_conserved (statedb : option (bytes -> bool)) (u : UtxoSet) (block : Block) txs (fees : list Z) :
  let moved := List.filter ordinary (b_Txs block) in
  let ops := concat (map spent_ops moved) in
  values_ok u -> Forall (fun tx => Forall (fun o => 0 <= Value o < 2 ^ 64)%Z (Vout tx)) (b_Txs block) ->
  validateBlock statedb block = Returns (Ok txs) ->
  Forall2 (fun tx fee => ValidateTxInputs u tx = Returns (Ok fee)) moved fees ->
  NoDup ops /\ Forall (unspent_at u) ops /\
  zsum (map (value_at u) ops) = (zsum (map (fun tx => zsum (map Value (Vout tx))) moved) + zsum fees)%Z /\
  Forall2 (fun tx fee => 0 <= fee /\ zsum (map Value (Vout tx)) + fee <= TotalSupply)%Z moved fees.
Proof.
  intros moved ops Hu Hv Hb Hf. apply validateBlock_checked in Hb as (Hnd & Hck).
  split; [by apply NoDup_concat_filter|]. subst ops.
  assert (Forall (fun tx => Forall (fun o => 0 <= Value o < 2 ^ 64)%Z (Vout tx) /\ ordinary tx = true /\
                            tx_checked block tx) moved) as Hall.
  { apply List.Forall_forall. intros tx [Hin Ho]%filter_In. rewrite List.Forall_forall in Hv, Hck. auto. }
  clear Hnd Hv Hck. clearbody moved. induction Hf as [|tx fee moved fees Hval Hf IH]; [done|].
  apply Forall_cons in Hall as [(Hv & Ho & Hck) Hall]. specialize (IH Hall) as (Hun & Hsum & Hfees).
  destruct (ordinary_value u block tx fee Hu Hv Ho Hck Hval) as (Hun1 & Hsum1 & Hfee & Hle).
  simpl. rewrite map_app, zsum_app. split; [by apply Forall_app|]. split; [lia|]. by constructor.
Qed.

End Blocks.

(** ** Concrete runs *)

Module ValidateRun.

Definition op1 : OutPoint := mkOutPoint (replicate 32 x07) 1.
Definition addr1 : bytes := replicate 20 x01.

(** One entry worth 1000, and a payment of 900 from it. *)
Definition u1 : UtxoSet :=
  mkUtxoSet {[op1 := Types.NewUtxoWrap 1000 (Script.PayToPubKeyHashScript addr1) 3]} ∅ ∅.
Definition pay1 : Transaction := mkTx UnknownTx 1 [mkTxIn op1 [] 0] [MakeVout addr1 900] None 0 0.

(** One entry holding 5 units of a token. *)
Definition params1 : TransferParams := mkTransferParams (replicate 32 x09) 0 5.
Definition w2 : Types.UtxoWrap := Types.NewUtxoWrap 0 (TransferTokenScript addr1 params1) 3.
Definition u2 : UtxoSet := mkUtxoSet {[op1 := w2]} ∅ ∅.

(** A block with a coinbase and the payment. *)
Definition txs : list Transaction := [CreateCoinbaseTx addr1 5; pay1].
Definition root : bytes :=
  match Merkle.CalcTxsHash (C := ToyCrypto.toy) (H := ToyCodec.toy_codec) txs with
  | Returns (Some h) => h
  | _ => []
  end.
Definition block1 : Block := mkBlock 5 100 root txs [0; 1].
Definition accepted : list Transaction :=
  match validateBlock (C := ToyCrypto.toy) (TC := ToyCodec.toy_codec) None block1 with
  | Returns (Ok l) => l
  | _ => []
  end.

Lemma accepted_ok :
  match validateBlock (C := ToyCrypto.toy) (TC := ToyCodec.toy_codec) None block1 with
  | Returns (Ok _) => true
  | _ => false
  end = true ->
  validateBlock (C := ToyCrypto.toy) (TC := ToyCodec.toy_codec) None block1 = Returns (Ok accepted).
Proof. unfold accepted. by destruct (validateBlock _ _) as [[|]|]. Qed.

End ValidateRun.

(** A payment that lists the output worth 1000 twice passes both checks of a transaction
    with 1900 paid out; the block check refuses it. *)
Definition twice : Transaction :=
  mkTx UnknownTx 1 [mkTxIn ValidateRun.op1 [] 0; mkTxIn ValidateRun.op1 [] 0]
    [MakeVout ValidateRun.addr1 1900] None 0 0.

Example twice_passes :
  ValidateTransactionPreliminary twice = None /\
  ValidateTxInputs ValidateRun.u1 twice = Returns (Ok 100%Z) /\
  validateBlock (C := ToyCrypto.toy) (TC := ToyCodec.toy_codec) None
    (mkBlock 5 100 [] [CreateCoinbaseTx ValidateRun.addr1 5; twice] [0; 1]) = Returns (Err ErrDoubleSpendTx).
Proof. vm_compute. auto. Qed.

Lemma value_conserved_witness :
  let moved := [ValidateRun.pay1] in
  let ops := [ValidateRun.op1] in
  NoDup ops /\ Forall (unspent_at ValidateRun.u1) ops /\
  zsum (map (value_at ValidateRun.u1) ops) = (zsum (map (fun tx => zsum (map Value (Vout tx))) moved) + zsum [100])%Z /\
  Forall2 (fun tx fee => 0 <= fee /\ zsum (map Value (Vout tx)) + fee <= TotalSupply)%Z moved [100%Z].
Proof.
  apply (value_conserved (C := ToyCrypto.toy) (TC := ToyCodec.toy_codec) None ValidateRun.u1
    ValidateRun.block1 ValidateRun.accepted [100%Z]).
  - apply map_Forall_singleton. simpl. lia.
  - apply Forall_cons; split; [|apply Forall_cons; split; [|done]]; apply Forall_cons; split; simpl; done || lia.
  - apply ValidateRun.accepted_ok. vm_compute. reflexivity.
  - repeat constructor.
Defined.

Lemma token_inflation_witness :
  let p := ValidateRun.params1 in
  let out a := mkTxOut 0 (TransferTokenScript ValidateRun.addr1 (mkTransferParams (tp_Hash p) (tp_Index p) a)) in
  let tx := mkTx UnknownTx 1 [mkTxIn ValidateRun.op1 [] 0]
    [out (2 ^ 63)%Z; out (2 ^ 63)%Z; out (tp_Amount p)] None 0 0 in
  ValidateTransactionPreliminary tx = None /\ ValidateTxInputs ValidateRun.u2 tx = Returns (Ok 0%Z).
Proof.
  apply (token_inflation ValidateRun.u2 ValidateRun.op1 ValidateRun.w2 ValidateRun.addr1
    ValidateRun.params1 [] 0); try reflexivity; try (simpl; lia).
  vm_compute. split; congruence.
Defined.

Lemma validateBlock_sound_witness :
  (exists cb rest, ValidateRun.txs = cb :: rest /\ IsCoinBase cb = true /\ existsb IsCoinBase rest = false) /\
  NoDup (concat (map spent_ops ValidateRun.txs)) /\ NoDup ValidateRun.txs /\
  Forall (tx_checked ValidateRun.block1) ValidateRun.txs /\
  (zsum (map RoughSize ValidateRun.txs) <= MaxTxsRoughSize)%Z /\
  Merkle.CalcTxsHash (C := ToyCrypto.toy) (H := ToyCodec.toy_codec) ValidateRun.txs =
    Returns (Some ValidateRun.root).
Proof.
  apply (validateBlock_sound (C := ToyCrypto.toy) (TC := ToyCodec.toy_codec) None ValidateRun.block1
    ValidateRun.accepted).
  apply ValidateRun.accepted_ok. vm_compute. reflexivity.
Defined.
