(* ===== verification/ScriptValidator.v ===== *)
(** * ScriptValidator: checking the scripts of a block in parallel (src/core/chain/validate.go)

    [validate] starts a number of workers and is itself a coordinator: it hands out script
    items over one unbuffered channel and collects results over another, until all items
    are validated or one fails; closing [quitCh] ends the idle workers.  A state of the
    system is the coordinator's variables with the local state of every worker, a send
    over an unbuffered channel is one step of sender and receiver together, and the steps
    can happen in any order the channels allow.  [validate] itself is the set of runs of
    this system. *)

From stdpp Require Import relations.
From S2P Require Import Prelude Crypto Types Script TxLogic UtxoSet Validate.
Import TxLogic Utxo Validate.

Module ScriptValidator.

Section System.

(** Items and the check of one of them ([script.Validate]); [None] is success. *)
Context {Item Err : Type} (check : Item -> option Err).

(** A worker waits in its [select], runs the check, waits to send the result, or returned. *)
Inductive worker :=
| WSelect
| WCheck (it : Item)
| WSend (it : Item) (err : option Err)
| WReturned.

Record state := mkState {
  scriptItems : list Item;
  nextItemIdx : nat;
  validatedItems : nat;
  workers : list worker;
  quitClosed : bool;
  returned : option (option Err)  (* what [validate] returned, when it has *)
}.

Definition set_worker (k : nat) (w : worker) (s : state) : state :=
  mkState (scriptItems s) (nextItemIdx s) (validatedItems s) (<[k := w]> (workers s))
    (quitClosed s) (returned s).

(** [close(sv.quitCh)] and return. *)
Definition finish (r : option Err) (s : state) : state :=
  mkState (scriptItems s) (nextItemIdx s) (validatedItems s) (workers s) true (Some r).

(** The coordinator is in its loop. *)
Definition in_loop (s : state) : bool :=
  match returned s with
  | None => validatedItems s <? length (scriptItems s)
  | Some _ => false
  end.

(** Who moves, and which worker takes part. *)
Inductive label := Hand (k : nat) | Check_ (k : nat) | Collect (k : nat) | Finish | Quit (k : nat).

Definition exec (l : label) (s : state) : option state :=
  match l with
  | Hand k =>
      if in_loop s then
        match scriptItems s !! nextItemIdx s, workers s !! k with
        | Some it, Some WSelect =>
            Some (set_worker k (WCheck it)
                    (mkState (scriptItems s) (S (nextItemIdx s)) (validatedItems s) (workers s)
                       (quitClosed s) (returned s)))
        | _, _ => None
        end
      else None
  | Check_ k =>
      match workers s !! k with
      | Some (WCheck it) => Some (set_worker k (WSend it (check it)) s)
      | _ => None
      end
  | Collect k =>
      if in_loop s then
        match workers s !! k with
        | Some (WSend _ err) =>
            let s := mkState (scriptItems s) (nextItemIdx s) (S (validatedItems s)) (workers s)
                       (quitClosed s) (returned s) in
            match err with
            | None => Some (set_worker k WSelect s)
            | Some e => Some (finish (Some e) (set_worker k WReturned s))
            end
        | _ => None
        end
      else None
  | Finish =>
      match returned s with
      | None => if validatedItems s <? length (scriptItems s) then None else Some (finish None s)
      | Some _ => None
      end
  | Quit k =>
      match workers s !! k with
      | Some WSelect => if quitClosed s then Some (set_worker k WReturned s) else None
      | _ => None
      end
  end.

Definition step (s s' : state) : Prop := exists l, exec l s = Some s'.

(** [newScriptValidator().validate(items)] on [n] processors. *)
Definition validate (n : nat) (items : list Item) : state :=
  mkState items 0 0 (replicate n WSelect) false None.

Fixpoint runs (ls : list label) (s : state) : option state :=
  match ls with
  | [] => Some s
  | l :: ls => match exec l s with Some s => runs ls s | None => None end
  end.

(** ** The invariant *)

Definition held (w : worker) : list Item :=
  match w with
  | WCheck it | WSend it _ => [it]
  | _ => []
  end.

Definition in_flight (ws : list worker) : list Item := concat (map held ws).

Definition ok_worker (w : worker) : Prop :=
  match w with WSend it err => err = check it | _ => True end.

(** Every item handed out is either validated or held by one worker; results are those of
    the check; while the coordinator runs, no worker has returned; and what was returned
    is right. *)
Record inv (s : state) : Prop := {
  inv_items : exists done, take (nextItemIdx s) (scriptItems s) ≡ₚ done ++ in_flight (workers s) /\
    (returned s = None -> length done = validatedItems s /\ Forall (fun it => check it = None) done);
  inv_next : nextItemIdx s <= length (scriptItems s);
  inv_workers : Forall ok_worker (workers s);
  inv_running : returned s = None -> (WReturned ∉ workers s) /\ quitClosed s = false;
  inv_result : match returned s with
    | None => True
    | Some None => Forall (fun it => check it = None) (scriptItems s)
    | Some (Some e) => exists it, it ∈ scriptItems s /\ check it = Some e
    end
}.

Lemma in_flight_insert ws k w0 : ws !! k = Some w0 ->
  exists rest, in_flight ws ≡ₚ held w0 ++ rest /\
    forall w, in_flight (<[k := w]> ws) ≡ₚ held w ++ rest.
Proof.
  intros E. exists (in_flight (take k ws) ++ in_flight (drop (S k) ws)).
  assert (forall a w b, in_flight (a ++ w :: b) ≡ₚ held w ++ in_flight a ++ in_flight b) as H.
  { intros a w b. unfold in_flight. rewrite map_app, concat_app. cbn [map concat].
    rewrite !(assoc_L (++)). f_equiv. apply Permutation_app_comm. }
  split.
  - rewrite <- (take_drop_middle ws k w0 E) at 1. apply H.
  - intros w. rewrite insert_take_drop by (by eapply lookup_lt_Some). apply H.
Qed.

Lemma inv_init n items : inv (validate n items).
Proof.
  split; simpl; [|lia| | |done].
  - exists []. split; [|done]. unfold in_flight. by induction n.
  - by apply Forall_replicate.
  - intros _. split; [|done]. intros H. apply elem_of_replicate in H as [H _]. done.
Qed.

(** A worker moves on with the item it holds. *)
Lemma inv_check s k it : inv s -> workers s !! k = Some (WCheck it) ->
  inv (set_worker k (WSend it (check it)) s).
Proof.
  intros [(dn & P & Hd) Hn Hw Hr Hres] Ek. destruct (in_flight_insert _ _ _ Ek) as (rest & P1 & P2).
  split; simpl; [|done| | |done].
  - exists dn. split; [|done]. by rewrite P2, P, P1.
  - by apply Forall_insert.
  - intros E. destruct (Hr E) as [Hr1 Hr2]. split; [|done].
    intros [H|H]%elem_of_insert_inv; [done|by apply Hr1].
Qed.

Lemma inv_hand s k it : inv s -> in_loop s = true ->
  scriptItems s !! nextItemIdx s = Some it -> workers s !! k = Some WSelect ->
  inv (set_worker k (WCheck it)
         (mkState (scriptItems s) (S (nextItemIdx s)) (validatedItems s) (workers s)
            (quitClosed s) (returned s))).
Proof.
  intros [(dn & P & Hd) Hn Hw Hr Hres] _ Ei Ek. destruct (in_flight_insert _ _ _ Ek) as (rest & P1 & P2).
  split; simpl; [| | | |done].
  - exists dn. split; [|done]. rewrite (take_S_r _ _ _ Ei), P2, P, P1. simpl.
    rewrite <- (assoc_L (++)). f_equiv. apply Permutation_app_comm.
  - by apply lookup_lt_Some in Ei.
  - by apply Forall_insert.
  - intros E. destruct (Hr E) as [Hr1 Hr2]. split; [|done].
    intros [H|H]%elem_of_insert_inv; [done|by apply Hr1].
Qed.

Lemma inv_collect s k it err s' : inv s -> in_loop s = true -> workers s !! k = Some (WSend it err) ->
  exec (Collect k) s = Some s' -> inv s'.
Proof.
  intros [(dn & P & Hd) Hn Hw Hr Hres] Hl Ek. cbn [exec]. rewrite Hl, Ek.
  assert (returned s = None) as E0. { unfold in_loop in Hl. by destruct (returned s). }
  destruct (in_flight_insert _ _ _ Ek) as (rest & P1 & P2). destruct (Hd E0) as [Hd1 Hd2].
  pose proof (proj1 (Forall_lookup _ _) Hw k _ Ek) as He. simpl in He.
  destruct err as [e|]; intros [= <-].
  - split; simpl; [|done| |done|].
    + exists (dn ++ [it]). split; [|done]. rewrite P2, P, P1. simpl. by rewrite <- (assoc_L (++)).
    + by apply Forall_insert.
    + exists it. split; [|done]. rewrite <- (take_drop (nextItemIdx s) (scriptItems s)), P, P1.
      set_solver.
  - destruct (Hr E0) as [Hr1 Hr2]. split; simpl; [|done| | |by rewrite E0].
    + exists (dn ++ [it]). split.
      * rewrite P2, P, P1. simpl. by rewrite <- (assoc_L (++)).
      * intros _. rewrite length_app. simpl. split; [lia|]. by apply Forall_app_2; [|constructor].
    + by apply Forall_insert.
    + intros _. split; [|done]. intros [H|H]%elem_of_insert_inv; [done|by apply Hr1].
Qed.

Lemma inv_finish s : inv s -> returned s = None -> length (scriptItems s) <= validatedItems s ->
  inv (finish None s).
Proof.
  intros [(dn & P & Hd) Hn Hw Hr Hres] E0 Hv. destruct (Hd E0) as [Hd1 Hd2].
  split; simpl; [by exists dn|done|done|done|].
  assert (length (take (nextItemIdx s) (scriptItems s)) = length (dn ++ in_flight (workers s))) as L
    by (by rewrite P).
  rewrite length_take, length_app in L. assert (in_flight (workers s) = []) as Ef.
  { apply length_zero_iff_nil. lia. }
  rewrite Ef, app_nil_r, take_ge in P by lia. by rewrite P.
Qed.

Lemma inv_step s s' : inv s -> step s s' -> inv s'.
Proof.
  intros I [l E]. destruct l as [k|k|k| |k].
  - cbn [exec] in E. destruct (in_loop s) eqn:Hl; [|done].
    destruct (scriptItems s !! nextItemIdx s) as [it|] eqn:Ei; [|done].
    destruct (workers s !! k) as [[]|] eqn:Ek; try done. injection E as <-. by apply inv_hand.
  - cbn [exec] in E. destruct (workers s !! k) as [[]|] eqn:Ek; try done. injection E as <-. by apply inv_check.
  - pose proof E as E'. cbn [exec] in E'. destruct (in_loop s) eqn:Hl; [|done].
    destruct (workers s !! k) as [[]|] eqn:Ek; try done. by eapply inv_collect.
  - cbn [exec] in E. destruct (returned s) eqn:E0; [done|].
    destruct (Nat.ltb_spec (validatedItems s) (length (scriptItems s))); [done|]. injection E as <-.
    by apply inv_finish.
  - cbn [exec] in E. destruct (workers s !! k) as [[]|] eqn:Ek; try done.
    destruct (quitClosed s) eqn:Eq; [|done]. injection E as <-.
    destruct I as [(dn & P & Hd) Hn Hw Hr Hres]. destruct (in_flight_insert _ _ _ Ek) as (rest & P1 & P2).
    split; simpl; [|done| | |done].
    + exists dn. split; [|done]. by rewrite P2, P, P1.
    + by apply Forall_insert.
    + intros E0. destruct (Hr E0) as [_ Hq]. congruence.
Qed.

Lemma inv_reachable n items s : rtc step (validate n items) s -> inv s.
Proof. revert s. apply rtc_ind_r; [apply inv_init|]. intros s s' _ St I. by eapply inv_step. Qed.

(** The items and the number of workers do not change. *)
Lemma step_const s s' : step s s' ->
  scriptItems s' = scriptItems s /\ length (workers s') = length (workers s).
Proof.
  intros [l E]. destruct l as [k|k|k| |k]; cbn [exec] in E; repeat case_match; simplify_eq; simpl;
    rewrite ?length_insert; done.
Qed.

Lemma reachable_const n items s : rtc step (validate n items) s ->
  scriptItems s = items /\ length (workers s) = n.
Proof.
  revert s. apply rtc_ind_r; [simpl; by rewrite length_replicate|].
  intros s s' _ St [IH1 IH2]. destruct (step_const _ _ St) as [-> ->]. done.
Qed.

(** ** Progress and termination *)

(** While the coordinator runs, something can happen. *)
Lemma progress s : inv s -> workers s <> [] -> returned s = None -> exists s', step s s'.
Proof.
  intros [(dn & P & Hd) Hn Hw Hr _] Hne E0. destruct (Hr E0) as [Hr1 _]. destruct (Hd E0) as [Hd1 _].
  destruct (Nat.ltb_spec (validatedItems s) (length (scriptItems s))) as [Hv|Hv].
  2:{ eexists. exists Finish. cbn [exec]. by rewrite E0, (proj2 (Nat.ltb_ge _ _)). }
  assert (in_loop s = true) as Hl. { unfold in_loop. rewrite E0. by apply Nat.ltb_lt. }
  assert ((exists k w, workers s !! k = Some w /\ w <> WSelect) \/ in_flight (workers s) = []) as [(k & w & Ek & Hw')|Ef].
  { clear -Hne. induction (workers s) as [|w ws IH]; [by right|].
    destruct w as [|it|it err|]; [|left; by eexists 0, _..].
    destruct ws as [|w' ws]; [by right|]. destruct IH as [(k & w & Ek & Hw)|IH]; [done| |by right].
    left. by exists (S k), w. }
  - destruct w as [|it|it err|]; [done| | |].
    + eexists. exists (Check_ k). cbn [exec]. by rewrite Ek.
    + destruct err; eexists; exists (Collect k); cbn [exec]; by rewrite Hl, Ek.
    + destruct Hr1. by eapply list_elem_of_lookup_2.
  - apply Permutation_length in P. rewrite Ef, app_nil_r, length_take in P.
    destruct (lookup_lt_is_Some_2 (scriptItems s) (nextItemIdx s)) as [it Ei]; [lia|].
    destruct (workers s) as [|w ws] eqn:Ew; [done|].
    assert (w = WSelect) as ->.
    { destruct w as [|it'|it' err|]; [done|done|done|]. destruct Hr1. by left. }
    eexists. exists (Hand 0). cbn [exec]. by rewrite Hl, Ei, Ew.
Qed.

Definition weight (w : worker) : nat :=
  match w with WSelect => 1 | WCheck _ => 3 | WSend _ _ => 2 | WReturned => 0 end.

Fixpoint weights (ws : list worker) : nat :=
  match ws with [] => 0 | w :: ws => weight w + weights ws end.

(** The steps that are left, at most. *)
Definition measure (s : state) : nat :=
  4 * (length (scriptItems s) - nextItemIdx s) + weights (workers s) +
  match returned s with None => 1 | Some _ => 0 end.

Lemma weights_insert ws k w0 w : ws !! k = Some w0 -> weights (<[k := w]> ws) + weight w0 = weights ws + weight w.
Proof.
  revert k. induction ws as [|w' ws IH]; intros [|k] E; simplify_eq/=; [lia|]. specialize (IH k E). lia.
Qed.

Lemma measure_step s s' : step s s' -> measure s' < measure s.
Proof.
  intros [l E]. unfold measure. destruct l as [k|k|k| |k]; cbn [exec] in E.
  - destruct (in_loop s); [|done]. destruct (scriptItems s !! nextItemIdx s) as [it|] eqn:Ei; [|done].
    destruct (workers s !! k) as [[]|] eqn:Ek; try done. injection E as <-. simpl.
    apply lookup_lt_Some in Ei. apply (weights_insert _ _ _ (WCheck it)) in Ek. simpl in Ek. lia.
  - destruct (workers s !! k) as [[|it| |]|] eqn:Ek; try done. injection E as <-. simpl.
    apply (weights_insert _ _ _ (WSend it (check it))) in Ek. simpl in Ek. lia.
  - unfold in_loop in E. destruct (returned s); [done|]. destruct (_ <? _); [|done].
    destruct (workers s !! k) as [[| |it [e|]|]|] eqn:Ek; try done; injection E as <-; simpl.
    + apply (weights_insert _ _ _ WReturned) in Ek. simpl in Ek. lia.
    + apply (weights_insert _ _ _ WSelect) in Ek. simpl in Ek. lia.
  - destruct (returned s); [done|]. destruct (_ <? _); [done|]. injection E as <-. simpl. lia.
  - destruct (workers s !! k) as [[]|] eqn:Ek; try done. destruct (quitClosed s); [|done]. injection E as <-.
    simpl. apply (weights_insert _ _ _ WReturned) in Ek. simpl in Ek. lia.
Qed.

Lemma nsteps_measure m s s' : nsteps step m s s' -> m + measure s' <= measure s.
Proof. induction 1 as [|m s1 s2 s3 St _ IH]; [lia|]. apply measure_step in St. lia. Qed.

Lemma measure_init n items : measure (validate n items) = 4 * length items + n + 1.
Proof. unfold measure. simpl. rewrite Nat.sub_0_r. f_equal. f_equal. induction n; simpl; lia. Qed.

(** From every reachable state the coordinator can be driven to its return. *)
Lemma returns_from s : inv s -> workers s <> [] -> exists s' r, rtc step s s' /\ returned s' = Some r.
Proof.
  remember (measure s) as m eqn:Em. revert s Em. induction m as [m IH] using lt_wf_ind. intros s -> I Hw.
  destruct (returned s) as [r|] eqn:Er; [by exists s, r|].
  destruct (progress s I Hw Er) as [s1 St].
  destruct (IH (measure s1) (measure_step _ _ St) s1) as (s' & r & R & E); [done|by eapply inv_step| |].
  { destruct (step_const _ _ St) as [_ L]. intros E. rewrite E in L. by destruct (workers s). }
  exists s', r. split; [|done]. by econstructor.
Qed.

Lemma returned_sound n items s r : rtc step (validate n items) s -> returned s = Some r ->
  (r = None <-> Forall (fun it => check it = None) items) /\
  (forall e, r = Some e -> exists it, it ∈ items /\ check it = Some e).
Proof.
  intros R Er. destruct (reachable_const _ _ _ R) as [<- _]. pose proof (inv_result _ (inv_reachable _ _ _ R)) as H.
  rewrite Er in H. destruct r as [e|]; [|split; [done|]; intros e; discriminate].
  destruct H as (it & Hin & He). split; [|intros e' [= ->]; eauto].
  split; [done|]. rewrite Forall_forall. intros Hall. by rewrite (Hall it Hin) in He.
Qed.

(** C35: the parallel validator is correct under every interleaving: with at least one
    worker, no run has more than [4 * items + workers + 1] steps, the coordinator is never
    blocked before it returns, it returns success exactly when every item passes its
    check, and a returned error is the error of one of the items. *)
Theorem validator_correct (n : nat) (items : list Item) :
  0 < n ->
  (forall m s, nsteps step m (validate n items) s -> m <= 4 * length items + n + 1) /\
  (forall s, rtc step (validate n items) s -> returned s = None -> exists s', step s s') /\
  (forall s r, rtc step (validate n items) s -> returned s = Some r ->
     (r = None <-> Forall (fun it => check it = None) items) /\
     (forall e, r = Some e -> exists it, it ∈ items /\ check it = Some e)).
Proof.
  intros Hn. split; [|split].
  - intros m s R. apply nsteps_measure in R. rewrite measure_init in R. lia.
  - intros s R Er. apply progress; [by eapply inv_reachable| |done].
    destruct (reachable_const _ _ _ R) as [_ L]. intros E. rewrite E in L. simpl in L. lia.
  - intros s r R Er. by eapply returned_sound.
Qed.

Lemma blocked_step s s' k it err : returned s <> None -> workers s !! k = Some (WSend it err) ->
  step s s' -> returned s' <> None /\ workers s' !! k = Some (WSend it err).
Proof.
  intros Hr Ek [l E]. unfold step in E.
  destruct l as [j|j|j| |j]; cbn [exec] in E; unfold in_loop in E; destruct (returned s) as [r|] eqn:Er; try done;
    destruct (workers s !! j) as [[]|] eqn:Ej; try done; try (destruct (quitClosed s); [|done]);
    injection E as <-; simpl; rewrite Er; (split; [done|]);
    (rewrite list_lookup_insert_ne; [done|]); intros ->; congruence.
Qed.

(** a worker that holds a result when the coordinator returns is blocked for ever: the
    channel has no receiver any more, and the worker no longer looks at [quitCh]. *)
Theorem validator_leak (s s' : state) (k : nat) (it : Item) (err : option Err) :
  returned s <> None -> workers s !! k = Some (WSend it err) -> rtc step s s' ->
  workers s' !! k = Some (WSend it err).
Proof.
  intros Hr Ek R. induction R as [|s1 s2 s3 St R IH]; [done|].
  destruct (blocked_step _ _ _ _ _ Hr Ek St). by apply IH.
Qed.

End System.

(** ** Blocks *)

Section Blocks.
Context `{C : Crypto} `{TC : TxCodec}.

(** The outcomes of [validateBlockScripts] for a block with these transactions on [n]
    processors. *)
Inductive validateBlockScripts (n : nat) (u : UtxoSet) (txs : list Transaction) : option ChainErr -> Prop :=
| VBSItems e : blockScriptItems u (tail txs) [] = Err e -> validateBlockScripts n u txs (Some e)
| VBSRun items s r : blockScriptItems u (tail txs) [] = Ok items ->
    rtc (step validate_item) (validate n items) s -> returned s = Some r ->
    validateBlockScripts n u txs r.

(** Collecting the items of a transaction and checking them is checking the transaction. *)
Lemma checkScriptsLoop_items u tx ins i acc acc' :
  match checkScriptsLoop u tx true ins i acc with
  | Ok its => exists new, its = acc ++ new /\
      (checkScriptsLoop u tx false ins i acc' = Ok acc' <-> Forall (fun it => validate_item it = None) new)
  | Err _ => is_ok (checkScriptsLoop u tx false ins i acc') = false
  end.
Proof.
  revert i acc. induction ins as [|txIn ins IH]; intros i acc; cbn [checkScriptsLoop].
  { exists []. by rewrite app_nil_r. }
  destruct (FindUtxo u (PrevOutPoint txIn)) as [utxo|]; [|done]. destruct (Types.IsSpent utxo); [done|].
  set (it := mkScriptItem _ _ _ _). specialize (IH (S i) (acc ++ [it])).
  destruct (checkScriptsLoop u tx true ins (S i) (acc ++ [it])) as [its|e]; [|by destruct (validate_item it)].
  destruct IH as (new & -> & IH). exists (it :: new). rewrite <- (assoc_L (++)). split; [done|].
  rewrite Forall_cons. destruct (validate_item it); [|tauto]. split; [done|]. by intros [? _].
Qed.

Definition tx_scripts_ok (u : UtxoSet) (tx : Transaction) : Prop :=
  IsInternalContract tx = true \/ CheckTxScripts u tx false = Ok [].

Lemma blockScriptItems_spec u txs acc :
  match blockScriptItems u txs acc with
  | Ok its => exists new, its = acc ++ new /\
      (Forall (tx_scripts_ok u) txs <-> Forall (fun it => validate_item it = None) new)
  | Err _ => ~ Forall (tx_scripts_ok u) txs
  end.
Proof.
  revert acc. induction txs as [|tx txs IH]; intros acc; cbn [blockScriptItems].
  { exists []. rewrite app_nil_r. by rewrite !Forall_nil. }
  destruct (IsInternalContract tx) eqn:Hi.
  { specialize (IH acc). destruct (blockScriptItems u txs acc) as [its|e].
    - destruct IH as (new & -> & IH). exists new. split; [done|]. rewrite Forall_cons, IH. unfold tx_scripts_ok. tauto.
    - rewrite Forall_cons. tauto. }
  pose proof (checkScriptsLoop_items u tx (Vin tx) 0 [] []) as H. unfold CheckTxScripts.
  destruct (checkScriptsLoop u tx true (Vin tx) 0 []) as [its|e]; cbn [mbind result_bind].
  2:{ rewrite Forall_cons. unfold tx_scripts_ok at 1, CheckTxScripts.
      intros [[?|E] _]; [congruence|]. by rewrite E in H. }
  destruct H as (new & -> & H). simpl. specialize (IH (acc ++ new)).
  assert (tx_scripts_ok u tx <-> Forall (fun it => validate_item it = None) new) as Htx.
  { unfold tx_scripts_ok, CheckTxScripts. rewrite Hi, H. intuition congruence. }
  destruct (blockScriptItems u txs (acc ++ new)) as [its|e].
  - destruct IH as (new' & -> & IH). exists (new ++ new'). rewrite (assoc_L (++)). split; [done|].
    by rewrite Forall_cons, Forall_app, IH, Htx.
  - rewrite Forall_cons. tauto.
Qed.

(** C34: checking the scripts of a block in parallel is checking its transactions one by
    one: on any number of processors there is an outcome, and every outcome is success
    exactly when each transaction after the coinbase is an internal one or passes
    [CheckTxScripts] in sequence. *)
Theorem block_scripts_parallel (n : nat) (u : UtxoSet) (txs : list Transaction) :
  0 < n ->
  (exists r, validateBlockScripts n u txs r) /\
  (forall r, validateBlockScripts n u txs r ->
     (r = None <-> Forall (fun tx => IsInternalContract tx = true \/ CheckTxScripts u tx false = Ok [])
                     (tail txs))).
Proof.
  intros Hn. pose proof (blockScriptItems_spec u (tail txs) []) as H. split.
  - destruct (blockScriptItems u (tail txs) []) as [items|e] eqn:E; [|by eexists; apply VBSItems].
    destruct (returns_from validate_item (validate n items)) as (s & r & R & Er).
    + apply inv_init.
    + simpl. by destruct n; [lia|].
    + exists r. by eapply VBSRun.
  - intros r V. destruct V as [e E|items s r E R Er]; rewrite E in H.
    + split; [done|]. intros F. by destruct (H F).
    + destruct H as (new & -> & H). destruct (returned_sound _ _ _ _ _ R Er) as [-> _].
      symmetry. apply H.
Qed.

End Blocks.

(** ** Concrete runs: items are numbers, and 3 does not pass *)

Definition no3 (n : nat) : option nat := if n =? 3 then Some 33 else None.

Lemma validator_correct_witness :
  (forall m s, nsteps (step no3) m (validate 2 [1; 3]) s -> m <= 11) /\
  (forall s, rtc (step no3) (validate 2 [1; 3]) s -> returned s = None -> exists s', step no3 s s') /\
  (forall s r, rtc (step no3) (validate 2 [1; 3]) s -> returned s = Some r ->
     (r = None <-> Forall (fun it => no3 it = None) [1; 3]) /\
     (forall e, r = Some e -> exists it, it ∈ [1; 3] /\ no3 it = Some e)).
Proof. apply (validator_correct no3 2 [1; 3]). lia. Defined.

(** Three workers, two failing items: the second failure is never received, also after the
    idle worker has quit. *)
Definition leaking : state (Item := nat) (Err := nat) :=
  default (validate 0 []) (runs no3 [Hand 0; Hand 1; Check_ 0; Check_ 1; Collect 0] (validate 3 [3; 3])).

Lemma validator_leak_witness :
  returned leaking = Some (Some 33) /\
  exists s', exec no3 (Quit 2) leaking = Some s' /\ workers s' !! 1 = Some (WSend 3 (Some 33)).
Proof.
  split; [reflexivity|]. eexists. split; [reflexivity|].
  apply (validator_leak no3 leaking); [discriminate|reflexivity|].
  apply rtc_once. exists (Quit 2). reflexivity.
Defined.

Lemma block_scripts_parallel_witness :
  (exists r, validateBlockScripts (C := ToyCrypto.toy) (TC := ToyCodec.toy_codec) 1 NewUtxoSet [ToyCodec.tx0] r) /\
  (forall r, validateBlockScripts (C := ToyCrypto.toy) (TC := ToyCodec.toy_codec) 1 NewUtxoSet [ToyCodec.tx0] r ->
     (r = None <-> Forall (fun tx => IsInternalContract tx = true \/
        CheckTxScripts (C := ToyCrypto.toy) (TC := ToyCodec.toy_codec) NewUtxoSet tx false = Ok []) [])).
Proof.
  apply (block_scripts_parallel (C := ToyCrypto.toy) (TC := ToyCodec.toy_codec) 1 NewUtxoSet [ToyCodec.tx0]). lia.
Defined.

End ScriptValidator.
