(* ===== verification/Trie.v ===== *)
(** * Trie: the Merkle Patricia trie (src/core/trie/trie.go and node.go)

    A node is a list of byte strings: [path, value, terminator] for a leaf, [path, next hash]
    for an extension, sixteen hashes for a branch.  Nodes live in the key-value table under
    the SHA3 hash of their protobuf form and are never updated in place; a trie is a root
    hash.  Paths are half-byte ("nibble") strings.

    The operations run in a monad over the table, with Go's errors and panics, and with fuel
    for the recursion along hashes ([RFuel] when it runs out; the theorems show that the
    fuel given suffices).  The state carries one ghost field: [clash] is set when something is
    stored under a hash that already names something different, that is, when hashes collide,
    or under the zero hash, which stands for the empty trie.  No operation reads it. *)

From S2P Require Import Prelude Crypto.

(** The protobuf encoding of a node, with its documented behaviour. *)
Class TrieCodec := {
  node_marshal : list bytes -> option bytes;
  node_unmarshal : bytes -> option (list bytes)
}.

Class TrieCodecLaws (TC : TrieCodec) := {
  node_marshal_total v : exists b, node_marshal v = Some b;
  node_roundtrip v b : node_marshal v = Some b -> node_unmarshal b = Some v
}.

Inductive TrieErr :=
| ErrNodeNotFound | ErrInvalidKeyPath | ErrInvalidNodeType | ErrNodeMarshal | ErrNodeUnmarshal.

Record TrieDb := mkTrieDb { table : gmap bytes bytes; clash : bool }.

(** ** The monad *)

Inductive res (A : Type) := ROk (a : A) | RErr (e : TrieErr) | RPanic | RFuel.
Arguments ROk {A}.
Arguments RErr {A}.
Arguments RPanic {A}.
Arguments RFuel {A}.

Definition M (A : Type) : Type := TrieDb -> res A * TrieDb.

Definition ret {A} (a : A) : M A := fun s => (ROk a, s).
Definition fail {A} (e : TrieErr) : M A := fun s => (RErr e, s).
Definition panic {A} : M A := fun s => (RPanic, s).
Definition out_of_fuel {A} : M A := fun s => (RFuel, s).

Definition bind {A B} (c : M A) (k : A -> M B) : M B := fun s =>
  let '(r, s) := c s in
  match r with
  | ROk a => k a s
  | RErr e => (RErr e, s)
  | RPanic => (RPanic, s)
  | RFuel => (RFuel, s)
  end.

#[global] Instance M_ret : MRet M := fun A a => ret a.
#[global] Instance M_bind : MBind M := fun A B k c => bind c k.

Module Trie.

(** ** Nodes *)

Inductive Flag := unknown | leaf | extension | branch.

Definition termintor : bytes := [x00].

Definition Type_ (value : list bytes) : Flag :=
  match length value with
  | 3 => leaf
  | 2 => extension
  | 16 => branch
  | _ => unknown
  end.

Definition newEmptyBranchNode : list bytes := replicate 16 [].
Definition newExtensionNode (key value : bytes) : list bytes := [key; value].

Fixpoint BranchLen (value : list bytes) : nat :=
  match value with
  | [] => 0
  | v :: value => (if 0 <? length v then 1 else 0) + BranchLen value
  end.

Definition bytesToHash (b : bytes) : option bytes :=
  match b with [] => None | _ => Some (Crypto.BytesToHash b) end.

Definition hashToBytes (hash : option bytes) : bytes := default [] hash.

(** [FirstSubNodeHashInBranch], from index [idx]. *)
Fixpoint firstSubNode (value : list bytes) (idx : nat) : option bytes * nat :=
  match value with
  | [] => (None, 0)
  | v :: value => if 0 <? length v then (bytesToHash v, idx) else firstSubNode value (S idx)
  end.

Definition FirstSubNodeHashInBranch (value : list bytes) : option bytes * nat := firstSubNode value 0.

(** ** Paths *)

(** The length of the common prefix; a path longer than the key is an error. *)
Fixpoint prefixLen (old new : bytes) : nat :=
  match old, new with
  | a :: old, b :: new => if bool_decide (a = b) then S (prefixLen old new) else 0
  | _, _ => 0
  end.

Definition commonPrefixes (old new : bytes) : result TrieErr bytes :=
  if length new <? length old then Err ErrInvalidKeyPath
  else Ok (take (prefixLen old new) old).

Fixpoint keyToHex (key : bytes) : bytes :=
  match key with
  | [] => []
  | b :: key => z2b (b2z b / 16) :: z2b (b2z b mod 16) :: keyToHex key
  end.

Definition lift {A} (r : result TrieErr A) : M A := match r with Ok a => ret a | Err e => fail e end.

Definition nibble (b : byte) : nat := Z.to_nat (b2z b).

(** [value[b]] and [value[b] = x] on a node, [key[0]] and [key[1:]] on a path. *)
Definition slot (value : list bytes) (b : byte) : M bytes :=
  match value !! nibble b with Some x => ret x | None => panic end.

Definition set_slot (value : list bytes) (b : byte) (x : bytes) : M (list bytes) :=
  if nibble b <? length value then ret (<[nibble b := x]> value) else panic.

Definition head_ (key : bytes) : M byte := match key with b :: _ => ret b | [] => panic end.
Definition tail_ (key : bytes) : M bytes := match key with _ :: k => ret k | [] => panic end.

Section WithCodec.
Context `{C : Crypto} `{TC : TrieCodec}.

(** ** The table *)

Definition put (k v : bytes) : M unit := fun s =>
  (ROk tt, mkTrieDb (<[k := v]> (table s))
             (clash s || bool_decide (k = Crypto.ZeroHash) ||
                         match table s !! k with
                         | Some v' => negb (bool_decide (v' = v))
                         | None => false
                         end)).

Definition getNode (hash : bytes) : M (list bytes) := fun s =>
  match table s !! hash with
  | None => (RErr ErrNodeNotFound, s)
  | Some nodeBin =>
      match node_unmarshal nodeBin with
      | None => (RErr ErrNodeUnmarshal, s)
      | Some value =>
          match node_marshal value with
          | None => (RErr ErrNodeMarshal, s)
          | Some _ => (ROk value, s)
          end
      end
  end.

(** [commit], returning the hash it sets. *)
Definition commit (value : list bytes) : M bytes :=
  match Type_ value with
  | unknown => fail ErrNodeNotFound
  | _ =>
      match node_marshal value with
      | None => fail ErrNodeMarshal
      | Some nodeBin =>
          let hash := Crypto.BytesToHash (sha3_256 nodeBin) in
          _ ← put hash nodeBin;
          ret hash
      end
  end.

(** ** Get *)

Fixpoint get (fuel : nat) (hash : option bytes) (key : bytes) : M bytes :=
  match fuel with
  | O => out_of_fuel
  | S fuel =>
      match hash with
      | None => fail ErrNodeNotFound
      | Some hash =>
          root ← getNode hash;
          match Type_ root with
          | unknown => fail ErrNodeNotFound
          | branch =>
              b ← head_ key;
              h ← slot root b;
              key ← tail_ key;
              get fuel (bytesToHash h) key
          | leaf =>
              let path := default [] (root !! 0) in
              prefixs ← lift (commonPrefixes path key);
              if negb (length prefixs =? length path) || negb (length prefixs =? length key)
              then fail ErrNodeNotFound
              else ret (default [] (root !! 1))
          | extension =>
              let path := default [] (root !! 0) in
              prefixs ← lift (commonPrefixes path key);
              get fuel (bytesToHash (default [] (root !! 1))) (drop (length prefixs) key)
          end
      end
  end.

(** ** Update *)

(** [update(nil, key, value)]. *)
Definition newLeaf (key value : bytes) : M bytes := commit [key; value; termintor].

(** The end of the three cases in which two paths part after [prefixs]: a branch for the
    old node and the new leaf, below an extension if [prefixs] is not empty. *)
Definition fork (path key prefixs oldHash newLeafHash : bytes) : M bytes :=
  let n := length prefixs in
  b ← head_ (drop n path);
  br ← set_slot newEmptyBranchNode b oldHash;
  b ← head_ (drop n key);
  br ← set_slot br b newLeafHash;
  branchHash ← commit br;
  if n =? 0 then ret branchHash
  else commit (newExtensionNode prefixs branchHash).

(** A leaf meets a different key. *)
Definition splitLeaf (path oldValue prefixs key value : bytes) : M bytes :=
  let n := length prefixs in
  oldleafHash ← newLeaf (drop (S n) path) oldValue;
  newLeafHash ← newLeaf (drop (S n) key) value;
  fork path key prefixs oldleafHash newLeafHash.

(** A key leaves the path of an extension after [prefixs]. *)
Definition splitExtension (path next prefixs key value : bytes) : M bytes :=
  let n := length prefixs in
  newLeafHash ← newLeaf (drop (S n) key) value;
  sub ← (if n =? length path - 1 then ret next
         else commit (newExtensionNode (drop (S n) path) next));
  fork path key prefixs sub newLeafHash.

Fixpoint update (fuel : nat) (hash : option bytes) (key value : bytes) : M bytes :=
  match fuel with
  | O => out_of_fuel
  | S fuel =>
      match hash with
      | None => newLeaf key value
      | Some hash =>
          root ← getNode hash;
          match Type_ root with
          | unknown => fail ErrNodeNotFound
          | branch =>
              b ← head_ key;
              h ← slot root b;
              rest ← tail_ key;
              hash ← update fuel (bytesToHash h) rest value;
              root ← set_slot root b hash;
              commit root
          | leaf =>
              let path := default [] (root !! 0) in
              prefixs ← lift (commonPrefixes path key);
              if length prefixs =? length path
              then commit [path; value; default [] (root !! 2)]
              else splitLeaf path (default [] (root !! 1)) prefixs key value
          | extension =>
              let path := default [] (root !! 0) in
              prefixs ← lift (commonPrefixes path key);
              if length prefixs =? length path then
                hash ← update fuel (bytesToHash (default [] (root !! 1))) (drop (length prefixs) key) value;
                commit [path; hash]
              else splitExtension path (default [] (root !! 1)) prefixs key value
          end
      end
  end.

(** ** Delete *)

(** A branch with one child left becomes that child with a longer path. *)
Definition collapseBranch (root : list bytes) : M bytes :=
  let '(subHash, index) := FirstSubNodeHashInBranch root in
  match subHash with
  | None => panic
  | Some subHash =>
      subNode ← getNode subHash;
      let i := z2b (Z.of_nat index) in
      match Type_ subNode with
      | leaf => commit [i :: default [] (subNode !! 0); default [] (subNode !! 1); default [] (subNode !! 2)]
      | branch => commit (newExtensionNode [i] subHash)
      | extension => commit (newExtensionNode (i :: default [] (subNode !! 0)) (default [] (subNode !! 1)))
      | unknown => fail ErrInvalidNodeType
      end
  end.

(** The node below an extension with path [path] changed to [newHash]. *)
Definition rejoinExtension (path newHash : bytes) : M bytes := fun s =>
  match getNode newHash s with
  | (ROk subNode, s) =>
      match Type_ subNode with
      | unknown => (RErr ErrInvalidNodeType, s)
      | branch => commit [path; newHash] s
      | _ => commit ((path ++ default [] (subNode !! 0)) :: tail subNode) s
      end
  | (_, s) => (RPanic, s)
  end.

Fixpoint delete (fuel : nat) (hash : option bytes) (key : bytes) : M (option bytes) :=
  match fuel with
  | O => out_of_fuel
  | S fuel =>
      match hash with
      | None => fail ErrNodeNotFound
      | Some hash =>
          root ← getNode hash;
          let path := default [] (root !! 0) in
          match Type_ root with
          | unknown => fail ErrInvalidNodeType
          | leaf =>
              match commonPrefixes path key with
              | Err _ => fail ErrNodeNotFound
              | Ok prefixs =>
                  if negb (length prefixs =? length path) || negb (length prefixs =? length key)
                  then fail ErrNodeNotFound
                  else ret None
              end
          | branch =>
              b ← head_ key;
              h ← slot root b;
              rest ← tail_ key;
              newHash ← delete fuel (bytesToHash h) rest;
              root ← set_slot root b (hashToBytes newHash);
              hash ← (if BranchLen root =? 1 then collapseBranch root else commit root);
              ret (Some hash)
          | extension =>
              match commonPrefixes path key with
              | Err _ => fail ErrNodeNotFound
              | Ok prefixs =>
                  newHash ← delete fuel (bytesToHash (default [] (root !! 1))) (drop (length prefixs) key);
                  match newHash with
                  | None => ret None
                  | Some newHash => hash ← rejoinExtension path newHash; ret (Some hash)
                  end
              end
          end
      end
  end.

(** ** The trie *)

(** Every node on the way to a leaf stands for at least one element of the path. *)
Definition fuel_for (key : bytes) : nat := S (length key).

Definition Get (rootHash : option bytes) (key : bytes) : M (option bytes) := fun s =>
  let k := keyToHex key in
  match get (fuel_for k) rootHash k s with
  | (ROk v, s) => (ROk (Some v), s)
  | (RErr ErrNodeNotFound, s) => (ROk None, s)
  | (RErr e, s) => (RErr e, s)
  | (RPanic, s) => (RPanic, s)
  | (RFuel, s) => (RFuel, s)
  end.

(** [Update]: the new root hash; on an error the root stays as it was. *)
Definition Update (rootHash : option bytes) (key value : bytes) : M (option bytes) :=
  let k := keyToHex key in
  if negb (length value =? 0) then
    hash ← update (fuel_for k) rootHash k value;
    ret (Some hash)
  else delete (fuel_for k) rootHash k.

Definition Delete (rootHash : option bytes) (key : bytes) : M (option bytes) := Update rootHash key [].

(** [New]: the zero hash is the empty trie; any other root has to be in the table. *)
Definition New (rootHash : option bytes) : M (option bytes) := fun s =>
  let rootHash := match rootHash with
                  | Some h => if bool_decide (h = Crypto.ZeroHash) then None else Some h
                  | None => None
                  end in
  match rootHash with
  | None => (ROk None, s)
  | Some h => match table s !! h with Some _ => (ROk (Some h), s) | None => (RErr ErrNodeNotFound, s) end
  end.

Definition Hash (rootHash : option bytes) : bytes := default Crypto.ZeroHash rootHash.

End WithCodec.
End Trie.
