(* ===== verification/TrieFacts.v ===== *)
(** * TrieFacts: the trie is a finite map, and its root names the map

    [rep db h n m]: below the hash [h], table [db] holds the normal form of the map [m] from
    paths of length [n] to values.  The operations are specified with a weakest-precondition
    predicate that speaks about runs without a hash clash. *)

From S2P Require Import Prelude Crypto Trie.
Import Trie.

(** ** Runs without a clash *)

Definition mono {A} (c : M A) : Prop := forall s, clash s = true -> clash (c s).2 = true.

(** If no clash happened, the table only grew and [Q] holds of the outcome. *)
Definition wp {A} (c : M A) (s : TrieDb) (Q : res A -> TrieDb -> Prop) : Prop :=
  clash (c s).2 = false -> table s ⊆ table (c s).2 /\ Q (c s).1 (c s).2.

Lemma mono_ret {A} (a : A) : mono (ret a).
Proof. by intros s. Qed.
Lemma mono_fail {A} e : mono (fail (A := A) e).
Proof. by intros s. Qed.
Lemma mono_panic {A} : mono (panic (A := A)).
Proof. by intros s. Qed.
Lemma mono_fuel {A} : mono (out_of_fuel (A := A)).
Proof. by intros s. Qed.

Lemma mono_bind {A B} (c : M A) (k : A -> M B) : mono c -> (forall a, mono (k a)) -> mono (c ≫= k).
Proof.
  intros Hc Hk s Hs. specialize (Hc s Hs). unfold mbind, M_bind, bind.
  destruct (c s) as [[a|e| |] s1]; [by apply Hk|done..].
Qed.

Create HintDb trie.
#[export] Hint Resolve mono_ret mono_fail mono_panic mono_fuel mono_bind : trie.

Lemma twp_ret {A} (a : A) s (Q : res A -> TrieDb -> Prop) : Q (ROk a) s -> wp (ret a) s Q.
Proof. by intros HQ _. Qed.

Lemma twp_fail {A} e s (Q : res A -> TrieDb -> Prop) : Q (RErr e) s -> wp (fail e) s Q.
Proof. by intros HQ _. Qed.

Lemma twp_bind {A B} (c : M A) (k : A -> M B) s Q :
  (forall a, mono (k a)) ->
  wp c s (fun r s1 => match r with
                      | ROk a => wp (k a) s1 Q
                      | RErr e => Q (RErr e) s1
                      | RPanic => Q RPanic s1
                      | RFuel => Q RFuel s1
                      end) ->
  wp (c ≫= k) s Q.
Proof.
  intros Hk Hc. unfold wp, mbind, M_bind, bind in *. destruct (c s) as [[a|e| |] s1] eqn:E; simpl in *.
  2-4: exact Hc.
  intros Hf. assert (clash s1 = false) as H1.
  { destruct (clash s1) eqn:Hs1; [|done]. by rewrite (Hk a s1 Hs1) in Hf. }
  destruct (Hc H1) as [Hsub Hw]. destruct (Hw Hf) as [Hsub' HQ]. split; [by etrans|done].
Qed.

Lemma twp_mono {A} (c : M A) s (Q Q' : res A -> TrieDb -> Prop) :
  wp c s Q -> (forall r s', table s ⊆ table s' -> Q r s' -> Q' r s') -> wp c s Q'.
Proof. intros Hw HQ Hf. destruct (Hw Hf) as [Hsub H]. split; [done|by apply HQ]. Qed.

Lemma ret_bind {A B} (a : A) (k : A -> M B) s : (ret a ≫= k) s = k a s.
Proof. done. Qed.

Lemma wp_ret_bind {A B} (a : A) (k : A -> M B) s Q : wp (k a) s Q -> wp (ret a ≫= k) s Q.
Proof. done. Qed.

Lemma mono_lift {A} (r : result TrieErr A) : mono (lift r).
Proof. destruct r; simpl; auto with trie. Qed.
Lemma mono_slot v b : mono (slot v b).
Proof. unfold slot. destruct (v !! _); auto with trie. Qed.
Lemma mono_set_slot v b x : mono (set_slot v b x).
Proof. unfold set_slot. destruct (_ <? _); auto with trie. Qed.
Lemma mono_head k : mono (head_ k).
Proof. destruct k; simpl; auto with trie. Qed.
Lemma mono_tail k : mono (tail_ k).
Proof. destruct k; simpl; auto with trie. Qed.

#[export] Hint Resolve mono_lift mono_slot mono_set_slot mono_head mono_tail : trie.

Section WithCodec.
Context `{C : Crypto} `{TCL : TrieCodecLaws}.

Lemma mono_put k v : mono (put k v).
Proof. intros s Hs. simpl. by rewrite Hs. Qed.

Lemma mono_getNode h : mono (getNode h).
Proof. intros s Hs. unfold getNode. by repeat case_match. Qed.

Lemma mono_commit v : mono (commit v).
Proof.
  unfold commit. destruct (Type_ v); try apply mono_fail; destruct (node_marshal v); try apply mono_fail;
    apply mono_bind; try apply mono_put; intros; apply mono_ret.
Qed.

Lemma mono_rejoin path h : mono (rejoinExtension path h).
Proof.
  intros s Hs. unfold rejoinExtension. pose proof (mono_getNode h s Hs) as Hg.
  destruct (getNode h s) as [[a|e| |] s1]; try done. destruct (Type_ a); try done; by apply mono_commit.
Qed.

Hint Resolve mono_put mono_getNode mono_commit mono_rejoin : trie.

(** Chains of binds and case analyses. *)
Ltac mono :=
  repeat first
    [ apply mono_bind; [|intros ?]
    | progress auto with trie
    | match goal with |- mono (match ?x with _ => _ end) => destruct x end ].

Lemma mono_fork path key prefixs h1 h2 : mono (fork path key prefixs h1 h2).
Proof. unfold fork. mono. Qed.

Lemma mono_newLeaf key value : mono (newLeaf key value).
Proof. apply mono_commit. Qed.

Hint Resolve mono_fork mono_newLeaf : trie.

Lemma mono_update fuel h key value : mono (update fuel h key value).
Proof.
  revert h key. induction fuel as [|f IH]; intros h key; cbn [update]; [apply mono_fuel|].
  unfold splitLeaf, splitExtension. mono.
Qed.

Lemma mono_collapse root : mono (collapseBranch root).
Proof. unfold collapseBranch. destruct (FirstSubNodeHashInBranch root). mono. Qed.

Hint Resolve mono_update mono_collapse : trie.

Lemma mono_delete fuel h key : mono (delete fuel h key).
Proof. revert h key. induction fuel as [|f IH]; intros h key; cbn [delete]; [apply mono_fuel|]. mono. Qed.

Hint Resolve mono_delete : trie.

(** ** Normal forms *)

(** The node [v] is stored under [h]. *)
Definition node_at (db : gmap bytes bytes) (h : bytes) (v : list bytes) : Prop :=
  exists b, (db !! h = Some b /\ h <> Crypto.ZeroHash) /\ node_marshal v = Some b /\ h = Crypto.BytesToHash (sha3_256 b).

Definition nibbles (k : bytes) : Prop := Forall (fun c => nibble c < 16) k.

Fixpoint strip (k q : bytes) : option bytes :=
  match k, q with
  | [], _ => Some q
  | a :: k, b :: q => if bool_decide (a = b) then strip k q else None
  | _ :: _, [] => None
  end.

(** The hash in slot [i] of a branch. *)
Definition child (cs : list bytes) (i : nat) : option bytes := bytesToHash (default [] (cs !! i)).

(** An empty slot, or a hash. *)
Definition slot_ok (x : bytes) : Prop := x = [] \/ length x = Crypto.HashSize.

Inductive rep (db : gmap bytes bytes) : option bytes -> nat -> (bytes -> option bytes) -> Prop :=
| rep_empty n m : (forall q, m q = None) -> rep db None n m
| rep_leaf h k v m : node_at db h [k; v; termintor] -> nibbles k ->
    (forall q, m q = if bool_decide (q = k) then Some v else None) ->
    rep db (Some h) (length k) m
| rep_ext h k h1 cs n m1 m : node_at db h [k; h1] -> k <> [] -> nibbles k ->
    node_at db h1 cs -> length cs = 16 -> rep db (Some h1) n m1 ->
    (forall q, m q = match strip k q with Some q => m1 q | None => None end) ->
    rep db (Some h) (length k + n) m
| rep_branch h cs i j n (ms : nat -> bytes -> option bytes) m : node_at db h cs -> length cs = 16 -> Forall slot_ok cs ->
    (forall i, i < 16 -> rep db (child cs i) n (ms i)) ->
    i < j < 16 -> child cs i <> None -> child cs j <> None ->
    (forall q, m q = match q with
                     | [] => None
                     | c :: q => if nibble c <? 16 then ms (nibble c) q else None
                     end) ->
    rep db (Some h) (S n) m.

Lemma node_at_mono db db' h v : db ⊆ db' -> node_at db h v -> node_at db' h v.
Proof. intros Hsub (b & [Hb Hz] & Hr). exists b. split; [split; [by eapply lookup_weaken|done]|done]. Qed.

Lemma rep_weaken db db' h n m : rep db h n m -> db ⊆ db' -> rep db' h n m.
Proof.
  induction 1 as [n m Hm|h k v m Hn Hk Hm|h k h1 cs n m1 m Hn Hk Hnk Hc Hl R IH Hm|
    h cs i j n ms m Hn Hl Hs R IH Hij Hi Hj Hm]; intros Hsub.
  - by apply rep_empty.
  - apply rep_leaf with v; [by eapply node_at_mono|done..].
  - eapply rep_ext; [by eapply node_at_mono|done|done|by eapply node_at_mono|done|by apply IH|done].
  - eapply rep_branch; [by eapply node_at_mono|done|done| |exact Hij|done|done|exact Hm]. intros. by apply IH.
Qed.

Lemma rep_ext_eq db h n m m' : rep db h n m -> (forall q, m q = m' q) -> rep db h n m'.
Proof.
  intros R E. destruct R as [n m Hm|h k v m Hn Hk Hm|h k h1 cs n m1 m Hn Hk Hnk Hc Hl R Hm|
    h cs i j n ms m Hn Hl Hs R Hij Hi Hj Hm].
  - apply rep_empty. intros q. by rewrite <- E.
  - apply rep_leaf with v; [done..|]. intros q. by rewrite <- E.
  - eapply rep_ext; [done..|]. intros q. rewrite <- E. apply Hm.
  - eapply rep_branch; [exact Hn|done|done|exact R|done..|]. intros q. rewrite <- E. apply Hm.
Qed.

Lemma node_at_length db h v : node_at db h v -> length h = Crypto.HashSize.
Proof. intros (b & _ & _ & ->). apply Crypto.length_BytesToHash. Qed.

Lemma rep_hash_length db h n m : rep db (Some h) n m -> length h = Crypto.HashSize.
Proof. inversion 1; subst; by eapply node_at_length. Qed.

(** A root is in the table and not the zero hash. *)
Lemma rep_root db h n m : rep db (Some h) n m -> is_Some (db !! h) /\ h <> Crypto.ZeroHash.
Proof. inversion 1 as [|? ? ? ? (b & [Hb Hz] & _)|? ? ? ? ? ? ? (b & [Hb Hz] & _)|? ? ? ? ? ? ? (b & [Hb Hz] & _)]; subst; eauto. Qed.

Lemma bytesToHash_full h : length h = Crypto.HashSize -> bytesToHash h = Some h.
Proof. intros H. destruct h; [done|]. unfold bytesToHash. by rewrite Crypto.BytesToHash_full. Qed.

Lemma bytesToHash_rep db h n m : rep db (Some h) n m -> bytesToHash h = Some h.
Proof. intros. by eapply bytesToHash_full, rep_hash_length. Qed.

Lemma getNode_at h v s : node_at (table s) h v -> getNode h s = (ROk v, s).
Proof.
  intros (b & [Hb _] & Hm & _). unfold getNode. by rewrite Hb, (node_roundtrip v b Hm), Hm.
Qed.

Lemma wp_getNode_bind {B} h v s (k : list bytes -> M B) Q :
  node_at (table s) h v -> wp (k v) s Q -> wp (getNode h ≫= k) s Q.
Proof.
  intros Hn Hw. unfold wp, mbind, M_bind, bind in *. by rewrite (getNode_at _ _ _ Hn).
Qed.

Lemma wp_commit v s (Q : res bytes -> TrieDb -> Prop) :
  Type_ v <> unknown ->
  (forall h s', table s ⊆ table s' -> node_at (table s') h v -> Q (ROk h) s') ->
  wp (commit v) s Q.
Proof.
  intros Ht HQ. unfold commit. destruct (node_marshal_total v) as [b Hb].
  assert (wp (let hash := Crypto.BytesToHash (sha3_256 b) in
    _ ← put hash b; ret hash) s Q) as W.
  { intros Hf. unfold mbind, M_bind, bind in *. simpl in *. apply orb_false_iff in Hf as [[_ Hz]%orb_false_iff Hc]. apply bool_decide_eq_false in Hz.
    set (h := Crypto.BytesToHash (sha3_256 b)) in *.
    assert (table s ⊆ <[h := b]> (table s)) as Hsub.
    { destruct (table s !! h) as [b'|] eqn:E; [|by apply insert_subseteq].
      apply negb_false_iff, bool_decide_eq_true in Hc. subst b'. by rewrite insert_id. }
    split; [done|]. apply HQ; [done|]. exists b. simpl. by rewrite lookup_insert_eq. }
  rewrite Hb. destruct (Type_ v); [done|exact W..].
Qed.

(** ** Paths *)

Lemma strip_app k q : strip k (k ++ q) = Some q.
Proof. induction k as [|a k IH]; [done|]. simpl. by rewrite bool_decide_eq_true_2. Qed.

Lemma strip_Some k q q' : strip k q = Some q' -> q = k ++ q'.
Proof.
  revert q. induction k as [|a k IH]; intros q E; [by injection E as ->|].
  destruct q as [|b q]; [done|]. simpl in E. case_bool_decide; [|done]. subst. simpl. f_equal. by apply IH.
Qed.

Lemma strip_app_l k k' q : strip (k ++ k') q = match strip k q with Some q => strip k' q | None => None end.
Proof.
  revert q. induction k as [|a k IH]; intros q; [done|]. destruct q as [|b q]; [done|]. simpl.
  case_bool_decide; [apply IH|done].
Qed.

(** A path and a key at least as long share a prefix and then part, unless the path is a
    prefix of the key. *)
Lemma commonPrefixes_cases path key : length path <= length key ->
  (exists rest, key = path ++ rest /\ commonPrefixes path key = Ok path) \/
  (exists pre a x b y, path = pre ++ a :: x /\ key = pre ++ b :: y /\ a <> b /\
     commonPrefixes path key = Ok pre).
Proof.
  intros Hlen. unfold commonPrefixes. rewrite (proj2 (Nat.ltb_ge _ _)) by done.
  revert key Hlen. induction path as [|a path IH]; intros key Hlen; [left; by exists key|].
  destruct key as [|b key]; [simpl in Hlen; lia|]. simpl in *. case_bool_decide as E.
  - subst b. destruct (IH key) as [(rest & -> & [= E])|(pre & a' & x & b' & y & -> & -> & Hne & [= E])]; [lia|..].
    + left. exists rest. simpl. by rewrite E.
    + right. exists (a :: pre), a', x, b', y. simpl. by rewrite E.
  - right. by exists [], a, path, b, key.
Qed.

Lemma commonPrefixes_same path key : length path = length key ->
  (key = path /\ commonPrefixes path key = Ok path) \/
  (exists pre a x b y, path = pre ++ a :: x /\ key = pre ++ b :: y /\ a <> b /\
     commonPrefixes path key = Ok pre).
Proof.
  intros Hlen. destruct (commonPrefixes_cases path key) as [(rest & -> & E)|H]; [lia| |by right].
  left. rewrite length_app in Hlen. destruct rest; [|simpl in Hlen; lia]. by rewrite app_nil_r in *.
Qed.

Lemma strip_part pre (a b : byte) x y : a <> b -> strip (pre ++ a :: x) (pre ++ b :: y) = None.
Proof. intros. rewrite strip_app_l, strip_app. simpl. by rewrite bool_decide_eq_false_2. Qed.

Lemma nibbles_app k k' : nibbles (k ++ k') <-> nibbles k /\ nibbles k'.
Proof. apply Forall_app. Qed.

Lemma nibble_inj a b : nibble a = nibble b -> a = b.
Proof. unfold nibble. pose proof (b2z_range a). pose proof (b2z_range b). intros. apply (inj b2z). lia. Qed.

Lemma nibble_eq a b : bool_decide (nibble a = nibble b) = bool_decide (a = b).
Proof. apply bool_decide_ext. split; [apply nibble_inj|by intros ->]. Qed.

(** ** Building nodes *)

Lemma wp_newLeaf k v s (Q : res bytes -> TrieDb -> Prop) :
  nibbles k ->
  (forall h s', table s ⊆ table s' ->
     rep (table s') (Some h) (length k) (fun q => if bool_decide (q = k) then Some v else None) -> Q (ROk h) s') ->
  wp (newLeaf k v) s Q.
Proof. intros Hk HQ. apply wp_commit; [done|]. intros h s' Hsub Hn. apply HQ; [done|]. by apply rep_leaf with v. Qed.

Lemma child_insert cs i j h : i < length cs ->
  child (<[i := h]> cs) j = if bool_decide (j = i) then bytesToHash h else child cs j.
Proof.
  intros Hi. unfold child. case_bool_decide as E; [subst; by rewrite list_lookup_insert_eq|].
  by rewrite list_lookup_insert_ne.
Qed.

Lemma child_empty i : child newEmptyBranchNode i = None.
Proof.
  unfold child, newEmptyBranchNode. destruct (replicate 16 [] !! i) as [x|] eqn:E; [|done].
  apply lookup_replicate in E as [-> _]. done.
Qed.

(** A branch with two children. *)
Lemma rep_branch2 db h a b h1 h2 n m1 m2 m :
  node_at db h (<[nibble b := h2]> (<[nibble a := h1]> newEmptyBranchNode)) ->
  nibble a < 16 -> nibble b < 16 -> a <> b -> rep db (Some h1) n m1 -> rep db (Some h2) n m2 ->
  (forall q, m q = match q with
                   | [] => None
                   | c :: q => if bool_decide (c = a) then m1 q
                               else if bool_decide (c = b) then m2 q else None
                   end) ->
  rep db (Some h) (S n) m.
Proof.
  intros Hn Ha Hb Hne R1 R2 Hm.
  assert (nibble a <> nibble b) as Hne' by (intros E; by apply nibble_inj in E).
  set (cs := <[nibble b := h2]> (<[nibble a := h1]> newEmptyBranchNode)) in *.
  assert (forall i, child cs i = if bool_decide (i = nibble b) then Some h2
                                 else if bool_decide (i = nibble a) then Some h1 else None) as Hc.
  { intros i. unfold cs. rewrite child_insert by (rewrite length_insert; done).
    rewrite child_insert by done. rewrite child_empty.
    by rewrite (bytesToHash_rep _ _ _ _ R1), (bytesToHash_rep _ _ _ _ R2). }
  apply (rep_branch db h cs (min (nibble a) (nibble b)) (max (nibble a) (nibble b)) n
    (fun i => if bool_decide (i = nibble b) then m2 else if bool_decide (i = nibble a) then m1 else fun _ => None));
    [done| | | |lia| | |].
  - unfold cs. by rewrite !length_insert.
  - unfold cs. apply Forall_insert; [apply Forall_insert; [by apply Forall_replicate; left|]|];
      right; by eapply rep_hash_length.
  - intros i Hi. rewrite Hc. repeat case_bool_decide; [done|done|]. by apply rep_empty.
  - rewrite Hc. repeat case_bool_decide; try done. lia.
  - rewrite Hc. repeat case_bool_decide; try done. lia.
  - intros [|c q]; rewrite Hm; [done|]. destruct (Nat.ltb_spec (nibble c) 16).
    + rewrite !nibble_eq. repeat case_bool_decide; subst; done.
    + repeat case_bool_decide; subst; try done; lia.
Qed.

Lemma set_slot_in value b x : nibble b < length value -> set_slot value b x = ret (<[nibble b := x]> value).
Proof. intros. unfold set_slot. by rewrite (proj2 (Nat.ltb_lt _ _)). Qed.

Lemma wp_fork pre a x b y h1 h2 n m1 m2 s (Q : res bytes -> TrieDb -> Prop) :
  nibbles pre -> nibble a < 16 -> nibble b < 16 -> a <> b ->
  rep (table s) (Some h1) n m1 -> rep (table s) (Some h2) n m2 ->
  (forall h s', table s ⊆ table s' ->
     rep (table s') (Some h) (length pre + S n)
       (fun q => match strip pre q with
                 | Some (c :: q) => if bool_decide (c = a) then m1 q
                                    else if bool_decide (c = b) then m2 q else None
                 | _ => None
                 end) -> Q (ROk h) s') ->
  wp (fork (pre ++ a :: x) (pre ++ b :: y) pre h1 h2) s Q.
Proof.
  intros Hpre Ha Hb Hne R1 R2 HQ. unfold fork. rewrite !drop_app_length. cbn [head_].
  apply wp_ret_bind. rewrite set_slot_in by done. do 2 apply wp_ret_bind.
  rewrite set_slot_in by (by rewrite length_insert). apply wp_ret_bind.
  apply twp_bind; [intros; destruct (_ =? _); auto using mono_ret, mono_commit|].
  apply wp_commit; [unfold Type_; by rewrite !length_insert|]. intros h s' Hsub Hn.
  assert (rep (table s') (Some h) (S n) (fun q => match q with
    | [] => None
    | c :: q => if bool_decide (c = a) then m1 q else if bool_decide (c = b) then m2 q else None
    end)) as R.
  { eapply rep_branch2; [exact Hn|done|done|done|by eapply rep_weaken|by eapply rep_weaken|done]. }
  destruct pre as [|p pre]; [by apply twp_ret, HQ|]. cbn [length Nat.eqb].
  apply wp_commit; [done|]. intros h' s'' Hsub' Hn'. apply HQ; [by etrans|].
  apply (rep_ext (table s'') h' (p :: pre) h (<[nibble b:=h2]> (<[nibble a:=h1]> newEmptyBranchNode)) (S n)
    (fun q => match q with
      | [] => None
      | c :: q => if bool_decide (c = a) then m1 q else if bool_decide (c = b) then m2 q else None
      end)); [done|done|done|by eapply node_at_mono| |by eapply rep_weaken|done].
  by rewrite !length_insert.
Qed.

(** ** Update *)

Definition is_branch (db : gmap bytes bytes) (h : bytes) : Prop := exists cs, node_at db h cs /\ length cs = 16.

(** The root was a branch, and the new one is again. *)
Definition keeps_branch (db db' : gmap bytes bytes) (h : option bytes) (h' : bytes) : Prop :=
  forall h0, h = Some h0 -> is_branch db h0 -> is_branch db' h'.

Definition upd (m : bytes -> option bytes) (k v : bytes) (q : bytes) : option bytes :=
  if bool_decide (q = k) then Some v else m q.

Definition update_post (db : gmap bytes bytes) (h : option bytes) (n : nat) (m : bytes -> option bytes)
    (k v : bytes) (r : res bytes) (s' : TrieDb) : Prop :=
  exists h', r = ROk h' /\ rep (table s') (Some h') n (upd m k v) /\ keeps_branch db (table s') h h'.

Lemma node_at_inj db h v v' : node_at db h v -> node_at db h v' -> v = v'.
Proof.
  intros (b & [Hb _] & Hm & _) (b' & [Hb' _] & Hm' & _). assert (b = b') as -> by congruence.
  apply node_roundtrip in Hm, Hm'. congruence.
Qed.

Lemma not_branch db h v : node_at db h v -> length v <> 16 -> ~ is_branch db h.
Proof. intros Hn Hl (cs & Hc & Hcs). by rewrite (node_at_inj _ _ _ _ Hn Hc) in Hl. Qed.

Lemma drop_S_app {A} (pre : list A) a x : drop (S (length pre)) (pre ++ a :: x) = x.
Proof. induction pre; simpl; auto. Qed.

(** The map below a fork is the old one with the new key. *)
Lemma fork_upd pre (a b : byte) y v (M1 m : bytes -> option bytes) : a <> b ->
  (forall q, m q = match strip pre q with
                   | Some (c :: q) => if bool_decide (c = a) then M1 q else None
                   | _ => None
                   end) ->
  forall q, match strip pre q with
            | Some (c :: q) => if bool_decide (c = a) then M1 q
                               else if bool_decide (c = b) then (if bool_decide (q = y) then Some v else None)
                               else None
            | _ => None
            end = upd m (pre ++ b :: y) v q.
Proof.
  intros Hne Hm q. unfold upd. rewrite Hm. destruct (strip pre q) as [l|] eqn:E.
  - apply strip_Some in E as ->. destruct l as [|c l].
    { rewrite bool_decide_eq_false_2; [done|]. by intros E%app_inv_head. }
    rewrite (bool_decide_ext (pre ++ c :: l = pre ++ b :: y) (c = b /\ l = y)).
    2:{ split; [intros E%app_inv_head; by simplify_eq|by intros [-> ->]]. }
    repeat case_bool_decide; naive_solver.
  - rewrite bool_decide_eq_false_2; [done|]. intros ->. by rewrite strip_app in E.
Qed.

Lemma update_leaf path v0 key v s (m : bytes -> option bytes) h :
  node_at (table s) h [path; v0; termintor] -> nibbles path -> nibbles key ->
  length path = length key -> (forall q, m q = if bool_decide (q = path) then Some v0 else None) ->
  wp (prefixs ← lift (commonPrefixes path key);
      if length prefixs =? length path then commit [path; v; termintor]
      else splitLeaf path v0 prefixs key v) s (update_post (table s) (Some h) (length path) m key v).
Proof.
  intros Hn Hp Hk Hlen Hm.
  assert (forall db' h', keeps_branch (table s) db' (Some h) h') as Hkb.
  { intros db' h' h0 [= <-] Hb. by eapply not_branch in Hb. }
  destruct (commonPrefixes_same path key Hlen) as [(-> & ->)|(pre & a & x & b & y & -> & -> & Hne & ->)];
    apply wp_ret_bind.
  - rewrite Nat.eqb_refl. apply wp_commit; [done|]. intros h' s' Hsub Hn'. exists h'.
    split; [done|]. split; [|done]. apply rep_leaf with v; [done..|]. intros q. unfold upd. rewrite Hm.
    by case_bool_decide.
  - apply nibbles_app in Hp as [Hpre Hp], Hk as [_ Hk]. apply Forall_cons in Hp as [Ha Hx], Hk as [Hb Hy].
    rewrite (proj2 (Nat.eqb_neq _ _)) by (rewrite length_app; simpl; lia). unfold splitLeaf.
    rewrite !drop_S_app. rewrite !length_app in Hlen. simpl in Hlen.
    apply twp_bind; [intros; apply mono_bind; [apply mono_newLeaf|intros; apply mono_fork]|].
    apply wp_newLeaf; [done|]. intros h1 s1 Hsub1 R1.
    apply twp_bind; [intros; apply mono_fork|]. apply wp_newLeaf; [done|]. intros h2 s2 Hsub2 R2.
    replace (length y) with (length x) in R2 by lia.
    eapply wp_fork; [done..|by eapply rep_weaken|done|]. intros h' s' Hsub' R. exists h'.
    split; [done|]. split; [|done]. rewrite length_app. simpl. eapply rep_ext_eq; [exact R|].
    apply fork_upd; [done|]. intros q. rewrite Hm. destruct (strip pre q) as [l|] eqn:E.
    + apply strip_Some in E as ->. destruct l as [|c l].
      { rewrite bool_decide_eq_false_2; [done|]. by intros E%app_inv_head. }
      rewrite (bool_decide_ext (pre ++ c :: l = pre ++ a :: x) (c = a /\ l = x)).
      2:{ split; [intros E%app_inv_head; by simplify_eq|by intros [-> ->]]. }
      repeat case_bool_decide; naive_solver.
    + rewrite bool_decide_eq_false_2; [done|]. intros ->. by rewrite strip_app in E.
Qed.

Lemma wp_splitExtension path next cs prefixs a x b y v n m1 s (Q : res bytes -> TrieDb -> Prop) :
  path = prefixs ++ a :: x -> nibbles path -> nibble b < 16 -> nibbles y -> a <> b ->
  node_at (table s) next cs -> length cs = 16 -> rep (table s) (Some next) n m1 ->
  length y = length x + n ->
  (forall h s', rep (table s') (Some h) (length path + n)
     (upd (fun q => match strip path q with Some q => m1 q | None => None end) (prefixs ++ b :: y) v) ->
     Q (ROk h) s') ->
  wp (splitExtension path next prefixs (prefixs ++ b :: y) v) s Q.
Proof.
  intros -> Hp Hb Hy Hne Hc Hl R1 Hlen HQ. unfold splitExtension. rewrite !drop_S_app.
  apply nibbles_app in Hp as [Hpre Hp]. apply Forall_cons in Hp as [Ha Hx].
  apply twp_bind.
  { intros. apply mono_bind; [destruct (_ =? _); auto using mono_ret, mono_commit|intros; apply mono_fork]. }
  apply wp_newLeaf; [done|]. intros h2 s2 Hsub2 R2. rewrite Hlen in R2.
  apply twp_bind; [intros; apply mono_fork|].
  assert (forall sub s3, table s2 ⊆ table s3 -> rep (table s3) (Some sub) (length x + n)
    (fun q => match strip x q with Some q => m1 q | None => None end) ->
    wp (fork (prefixs ++ a :: x) (prefixs ++ b :: y) prefixs sub h2) s3 Q) as Hfork.
  { intros sub s3 Hsub3 R3. eapply wp_fork; [done..|by eapply rep_weaken|]. intros h' s' Hsub' R. apply HQ.
    rewrite length_app. simpl. replace (length prefixs + S (length x) + n)
      with (length prefixs + S (length x + n)) by lia. eapply rep_ext_eq; [exact R|].
    apply fork_upd; [done|]. intros q. rewrite strip_app_l. destruct (strip prefixs q) as [[|c l]|]; [done| |done].
    simpl. repeat case_bool_decide; congruence. }
  destruct (Nat.eqb_spec (length prefixs) (length (prefixs ++ a :: x) - 1)) as [E|E].
  - rewrite length_app in E. destruct x as [|? ?]; [|simpl in E; lia]. apply twp_ret, Hfork; [done|]. simpl.
    eapply rep_ext_eq; [by eapply rep_weaken|done].
  - apply wp_commit; [done|]. intros e s3 Hsub3 Hn3. apply Hfork; [done|].
    assert (table s ⊆ table s3) as Hsub by (by etrans).
    eapply (rep_ext _ e x next cs); [done| |done|by eapply node_at_mono|done|by eapply rep_weaken|done].
    intros ->. rewrite length_app in E. simpl in E. lia.
Qed.

Lemma slot_in cs b : length cs = 16 -> nibble b < 16 ->
  exists x, slot cs b = ret x /\ bytesToHash x = child cs (nibble b).
Proof.
  intros Hl Hb. unfold slot, child. destruct (lookup_lt_is_Some_2 cs (nibble b)) as [x ->]; [lia|]. by exists x.
Qed.

(** Replacing a child of a branch by another one that is not empty. *)
Lemma rep_set_child db h cs b h' n ms m' i j m :
  node_at db h (<[nibble b := h']> cs) -> length cs = 16 -> Forall slot_ok cs -> nibble b < 16 ->
  (forall i, i < 16 -> i <> nibble b -> rep db (child cs i) n (ms i)) -> rep db (Some h') n m' ->
  i < j < 16 -> child cs i <> None -> child cs j <> None ->
  (forall q, m q = match q with
                   | [] => None
                   | c :: q => if nibble c <? 16 then (if bool_decide (c = b) then m' q else ms (nibble c) q) else None
                   end) ->
  rep db (Some h) (S n) m.
Proof.
  intros Hn Hl Hs Hb R R' Hij Hi Hj Hm.
  assert (forall k, child (<[nibble b := h']> cs) k = if bool_decide (k = nibble b) then Some h' else child cs k) as Hc.
  { intros k. rewrite child_insert by lia. by rewrite (bytesToHash_rep _ _ _ _ R'). }
  apply (rep_branch db h (<[nibble b := h']> cs) i j n (fun k => if bool_decide (k = nibble b) then m' else ms k));
    [done|by rewrite length_insert| | |done|..].
  - apply Forall_insert; [done|]. right. by eapply rep_hash_length.
  - intros k Hk. rewrite Hc. case_bool_decide; [done|]. by apply R.
  - rewrite Hc. by case_bool_decide.
  - rewrite Hc. by case_bool_decide.
  - intros [|c q]; rewrite Hm; [done|]. rewrite nibble_eq. by destruct (bool_decide (c = b)).
Qed.

Lemma upd_strip k rest v (m m1 : bytes -> option bytes) :
  (forall q, m q = match strip k q with Some q => m1 q | None => None end) ->
  forall q, upd m (k ++ rest) v q = match strip k q with Some q => upd m1 rest v q | None => None end.
Proof.
  intros Hm q. unfold upd. rewrite Hm. destruct (strip k q) as [l|] eqn:E.
  - apply strip_Some in E as ->. rewrite (bool_decide_ext (k ++ l = k ++ rest) (l = rest)); [done|].
    split; [apply app_inv_head|by intros ->].
  - rewrite bool_decide_eq_false_2; [done|]. intros ->. by rewrite strip_app in E.
Qed.

Lemma update_ext fuel k h1 cs n m1 m h key v s :
  (forall key, length key = n -> nibbles key -> 
     wp (update fuel (Some h1) key v) s (update_post (table s) (Some h1) n m1 key v)) ->
  node_at (table s) h [k; h1] -> k <> [] -> nibbles k -> node_at (table s) h1 cs -> length cs = 16 ->
  rep (table s) (Some h1) n m1 ->
  (forall q, m q = match strip k q with Some q => m1 q | None => None end) ->
  length key = length k + n -> nibbles key ->
  wp (prefixs ← lift (commonPrefixes k key);
      if length prefixs =? length k then
        hash ← update fuel (bytesToHash h1) (drop (length prefixs) key) v;
        commit [k; hash]
      else splitExtension k h1 prefixs key v) s (update_post (table s) (Some h) (length k + n) m key v).
Proof.
  intros IH Hn Hk Hnk Hc Hl R1 Hm Hlen Hkey.
  assert (forall db' h', keeps_branch (table s) db' (Some h) h') as Hkb.
  { intros db' h' h0 [= <-] Hb. by eapply not_branch in Hb. }
  destruct (commonPrefixes_cases k key) as [(rest & -> & ->)|(pre & a & x & b & y & -> & -> & Hne & ->)]; [lia|..];
    apply wp_ret_bind.
  - rewrite Nat.eqb_refl, drop_app_length, (bytesToHash_rep _ _ _ _ R1).
    apply nibbles_app in Hkey as [_ Hrest]. rewrite length_app in Hlen.
    apply twp_bind; [intros; apply mono_commit|].
    eapply twp_mono; [apply IH; [lia|done]|]. intros r s1 Hsub1 (h' & -> & R & Hb).
    destruct (Hb h1) as (cs' & Hc' & Hl'); [done|by exists cs|].
    apply wp_commit; [done|]. intros h2 s2 Hsub2 Hn2. exists h2. split; [done|]. split; [|done].
    eapply (rep_ext _ h2 k h' cs'); [done..|by eapply node_at_mono|done|by eapply rep_weaken|].
    by apply upd_strip.
  - rewrite (proj2 (Nat.eqb_neq _ _)) by (rewrite length_app; simpl; lia).
    apply nibbles_app in Hkey as [_ Hkey]. apply Forall_cons in Hkey as [Hb Hy].
    rewrite !length_app in Hlen. simpl in Hlen.
    eapply wp_splitExtension; [done..|lia|]. intros h' s' R. exists h'. split; [done|]. split; [|done].
    eapply rep_ext_eq; [exact R|]. intros q. unfold upd. by rewrite Hm.
Qed.

Lemma update_spec fuel h n m key v s :
  rep (table s) h n m -> length key = n -> nibbles key -> n < fuel ->
  wp (update fuel h key v) s (update_post (table s) h n m key v).
Proof.
  revert h n m key s. induction fuel as [|f IH]; intros h n m key s R Hlen Hk Hf; [lia|]. cbn [update].
  destruct R as [n m Hm|h k v0 m Hn Hnk Hm|h k h1 cs n m1 m Hn Hne Hnk Hc Hl R Hm|
    h cs i j n ms m Hn Hl Hs R Hij Hi Hj Hm].
  - apply wp_newLeaf; [done|]. intros h' s' Hsub R. exists h'. split; [done|]. split; [|done].
    subst n. eapply rep_ext_eq; [exact R|]. intros q. unfold upd. by rewrite Hm.
  - eapply wp_getNode_bind; [done|]. by apply update_leaf.
  - eapply wp_getNode_bind; [done|]. eapply update_ext; [|done..].
    intros key' Hlen' Hk'. apply IH; [done..|]. destruct k; [done|simpl in *; lia].
  - eapply wp_getNode_bind; [done|]. unfold Type_. rewrite Hl. cbn [Type_].
    destruct key as [|b y]; [done|]. apply Forall_cons in Hk as [Hb Hy]. injection Hlen as Hlen.
    apply wp_ret_bind. destruct (slot_in cs b Hl Hb) as (x & -> & Hx). do 2 apply wp_ret_bind. rewrite Hx.
    apply twp_bind; [intros; apply mono_bind; [apply mono_set_slot|intros; apply mono_commit]|].
    eapply twp_mono; [apply IH; [by apply R|done..|lia]|]. intros r s1 Hsub1 (h' & -> & R' & _).
    rewrite set_slot_in by lia. apply wp_ret_bind.
    apply wp_commit; [unfold Type_; by rewrite length_insert, Hl|]. intros h2 s2 Hsub2 Hn2.
    exists h2. split; [done|]. split.
    + apply (rep_set_child _ h2 cs b h' n ms (upd (ms (nibble b)) y v) i j); [done..| | |done|done|done|].
      * intros k Hk' _. eapply rep_weaken; [by apply R|by etrans].
      * by eapply rep_weaken.
      * intros [|c q]; unfold upd; rewrite Hm; [done|]. destruct (Nat.ltb_spec (nibble c) 16) as [Hc|Hc].
        -- case_bool_decide as E; [by simplify_eq; rewrite !bool_decide_eq_true_2|].
           case_bool_decide; [|done]. subst c. rewrite bool_decide_eq_false_2; [done|]. congruence.
        -- rewrite bool_decide_eq_false_2; [done|]. intros [= -> ->]. lia.
    + intros h0 _ _. exists (<[nibble b := h']> cs). by rewrite length_insert.
Qed.

End WithCodec.
