(* ===== verification/TrieMap.v ===== *)
(** * TrieMap: lookup, deletion and the canonical root of the trie *)

From S2P Require Import Prelude Crypto Trie TrieFacts.
Import Trie.

Section WithCodec.
Context `{C : Crypto} `{TCL : TrieCodecLaws}.

(** ** Get *)

Lemma getNode_bind {B} h v s (k : list bytes -> M B) :
  node_at (table s) h v -> (getNode h ≫= k) s = k v s.
Proof. intros Hn. unfold mbind, M_bind, bind. by rewrite (getNode_at _ _ _ Hn). Qed.

Lemma Type_branch cs : length cs = 16 -> Type_ cs = branch.
Proof. intros Hl. unfold Type_. by rewrite Hl. Qed.

Lemma commonPrefixes_le old new : length old <= length new ->
  exists p, commonPrefixes old new = Ok p /\ length p <= length old.
Proof.
  intros Hl. unfold commonPrefixes. rewrite (proj2 (Nat.ltb_ge _ _)) by done. eexists. split; [done|].
  rewrite length_take. lia.
Qed.

(** A key that is longer than the paths is not found: a leaf compares lengths.  This is what
    makes up for [get] and [delete] not comparing the whole path of an extension. *)
Lemma get_long fuel h n m key s :
  rep (table s) h n m -> n < length key -> nibbles key -> n < fuel ->
  get fuel h key s = (RErr ErrNodeNotFound, s).
Proof.
  revert h n m key. induction fuel as [|f IH]; intros h n m key R Hlen Hk Hf; [lia|]. cbn [get].
  destruct R as [n m Hm|h k v0 m Hn Hnk Hm|h k h1 cs n m1 m Hn Hne Hnk Hc Hl R Hm|
    h cs i j n ms m Hn Hl Hs R Hij Hi Hj Hm]; [done|..]; rewrite (getNode_bind _ _ _ _ Hn).
  - change (Type_ _) with leaf. change (default [] ([k; v0; termintor] !! 0)) with k. cbv zeta match.
    destruct (commonPrefixes_le k key) as (p & -> & Hp); [lia|]. cbn [lift]. rewrite ret_bind.
    rewrite (proj2 (Nat.eqb_neq (length p) (length key))) by lia. by rewrite orb_true_r.
  - change (Type_ _) with extension. change (default [] ([k; h1] !! 0)) with k.
    change (default [] ([k; h1] !! 1)) with h1. cbv zeta match. rewrite (bytesToHash_rep _ _ _ _ R).
    assert (0 < length k) by (destruct k; [done|simpl; lia]).
    destruct (commonPrefixes_cases k key) as [(rest & -> & ->)|(pre & a & x & b & y & -> & -> & Hne' & ->)]; [lia|..];
      cbn [lift]; rewrite ret_bind, drop_app_length; apply nibbles_app in Hk as [_ Hk];
      rewrite ?length_app in *; simpl in *; eapply IH; try done; simpl; lia.
  - rewrite (Type_branch _ Hl). destruct key as [|b y]; [simpl in Hlen; lia|].
    apply Forall_cons in Hk as [Hb Hy]. cbn [head_]. rewrite ret_bind.
    destruct (slot_in cs b Hl Hb) as (x & -> & Hx). cbn [tail_]. rewrite !ret_bind, Hx.
    simpl in Hlen. eapply IH; [by apply R|lia..|done|lia].
Qed.

Definition get_answer (o : option bytes) : res bytes :=
  match o with Some v => ROk v | None => RErr ErrNodeNotFound end.

Lemma get_spec fuel h n m key s :
  rep (table s) h n m -> length key = n -> nibbles key -> n < fuel ->
  get fuel h key s = (get_answer (m key), s).
Proof.
  revert h n m key. induction fuel as [|f IH]; intros h n m key R Hlen Hk Hf; [lia|]. 
  destruct R as [n m Hm|h k v0 m Hn Hnk Hm|h k h1 cs n m1 m Hn Hne Hnk Hc Hl R Hm|
    h cs i j n ms m Hn Hl Hs R Hij Hi Hj Hm]; rewrite Hm; cbn [get]; [done|..]; rewrite (getNode_bind _ _ _ _ Hn).
  - change (Type_ _) with leaf. change (default [] ([k; v0; termintor] !! 0)) with k. cbv zeta match.
    destruct (commonPrefixes_same k key) as [(-> & ->)|(pre & a & x & b & y & -> & -> & Hne & ->)];
      [done|..]; cbn [lift]; rewrite ret_bind.
    + by rewrite !Nat.eqb_refl, bool_decide_eq_true_2.
    + rewrite (proj2 (Nat.eqb_neq _ (length (pre ++ a :: x)))) by (rewrite length_app; simpl; lia).
      rewrite bool_decide_eq_false_2; [done|]. intros E%app_inv_head. congruence.
  - change (Type_ _) with extension. change (default [] ([k; h1] !! 0)) with k.
    change (default [] ([k; h1] !! 1)) with h1. cbv zeta match. rewrite (bytesToHash_rep _ _ _ _ R). assert (0 < length k) by (destruct k; [done|simpl; lia]).
    destruct (commonPrefixes_cases k key) as [(rest & -> & ->)|(pre & a & x & b & y & -> & -> & Hne' & ->)]; [lia|..];
      cbn [lift]; rewrite ret_bind, drop_app_length; apply nibbles_app in Hk as [_ Hk];
      rewrite ?length_app in *; simpl in *.
    + rewrite strip_app. eapply IH; [done|lia|done|lia].
    + rewrite strip_part by done. eapply get_long; [done|simpl; lia|done|lia].
  - rewrite (Type_branch _ Hl). destruct key as [|b y]; [done|].
    apply Forall_cons in Hk as [Hb Hy]. cbn [head_]. rewrite ret_bind.
    destruct (slot_in cs b Hl Hb) as (x & -> & Hx). cbn [tail_]. rewrite !ret_bind, Hx.
    injection Hlen as Hlen. rewrite (proj2 (Nat.ltb_lt _ _)) by done. eapply IH; [by apply R|done|done|lia].
Qed.

(** ** Delete *)

Lemma delete_long fuel h n m key s :
  rep (table s) h n m -> n < length key -> nibbles key -> n < fuel ->
  delete fuel h key s = (RErr ErrNodeNotFound, s).
Proof.
  revert h n m key. induction fuel as [|f IH]; intros h n m key R Hlen Hk Hf; [lia|]. cbn [delete].
  destruct R as [n m Hm|h k v0 m Hn Hnk Hm|h k h1 cs n m1 m Hn Hne Hnk Hc Hl R Hm|
    h cs i j n ms m Hn Hl Hs R Hij Hi Hj Hm]; [done|..]; rewrite (getNode_bind _ _ _ _ Hn).
  - change (Type_ _) with leaf. change (default [] ([k; v0; termintor] !! 0)) with k. cbv zeta match.
    destruct (commonPrefixes_le k key) as (p & -> & Hp); [lia|].
    rewrite (proj2 (Nat.eqb_neq (length p) (length key))) by lia. by rewrite orb_true_r.
  - change (Type_ _) with extension. change (default [] ([k; h1] !! 0)) with k.
    change (default [] ([k; h1] !! 1)) with h1. cbv zeta match. rewrite (bytesToHash_rep _ _ _ _ R).
    assert (0 < length k) by (destruct k; [done|simpl; lia]).
    destruct (commonPrefixes_cases k key) as [(rest & -> & ->)|(pre & a & x & b & y & -> & -> & Hne' & ->)]; [lia|..];
      rewrite drop_app_length; apply nibbles_app in Hk as [_ Hk]; rewrite ?length_app in *; simpl in *;
      unfold mbind, M_bind, bind; (erewrite IH; [done|exact R|simpl; lia|done|lia]).
  - rewrite (Type_branch _ Hl). cbv zeta match. destruct key as [|b y]; [simpl in Hlen; lia|].
    apply Forall_cons in Hk as [Hb Hy]. cbn [head_]. rewrite ret_bind.
    destruct (slot_in cs b Hl Hb) as (x & -> & Hx). cbn [tail_]. rewrite !ret_bind, Hx.
    simpl in Hlen. unfold mbind, M_bind, bind. erewrite IH; [done|by apply R|lia|done|lia].
Qed.

(** Counting the children of a branch. *)
Lemma BranchLen_one cs : 1 <= BranchLen cs <-> exists j, j < length cs /\ default [] (cs !! j) <> [].
Proof.
  induction cs as [|w cs IH]; simpl; [split; [lia|by intros (j & ? & _); lia]|].
  destruct w as [|c w]; simpl.
  - rewrite IH. split; intros (j & Hj & Hne); [exists (S j); split; [lia|done]|].
    destruct j as [|j]; [done|]. exists j. split; [lia|done].
  - split; [|lia]. intros _. exists 0. split; [lia|done].
Qed.

Lemma BranchLen_two cs : 2 <= BranchLen cs <->
  exists i j, i < j < length cs /\ default [] (cs !! i) <> [] /\ default [] (cs !! j) <> [].
Proof.
  induction cs as [|w cs IH]; simpl; [split; [lia|intros (i & j & ? & _); lia]|].
  destruct w as [|c w]; simpl.
  - rewrite IH. split; intros (i & j & Hij & Hi & Hj).
    + exists (S i), (S j). split; [lia|done].
    + destruct i as [|i]; [done|]. destruct j as [|j]; [lia|]. exists i, j. split; [lia|done].
  - rewrite <- Nat.succ_le_mono, BranchLen_one. split.
    + intros (j & Hj & Hne). exists 0, (S j). split; [lia|done].
    + intros (i & j & Hij & Hi & Hj). destruct j as [|j]; [lia|]. exists j. split; [lia|done].
Qed.

Lemma firstSubNode_spec cs k : 1 <= BranchLen cs ->
  exists i, i < length cs /\ default [] (cs !! i) <> [] /\
    firstSubNode cs k = (bytesToHash (default [] (cs !! i)), k + i).
Proof.
  revert k. induction cs as [|w cs IH]; intros k Hb; simpl in Hb; [lia|]. simpl.
  destruct w as [|c w]; simpl in Hb |- *.
  - destruct (IH (S k) Hb) as (i & Hi & Hne & E). exists (S i). split; [lia|]. split; [done|].
    rewrite E. simpl. f_equal. lia.
  - exists 0. split; [lia|]. split; [done|]. f_equal. lia.
Qed.

Lemma child_None cs i : child cs i = None <-> default [] (cs !! i) = [].
Proof. unfold child. by destruct (default [] (cs !! i)). Qed.

(** The map with a key removed. *)
Definition del (m : bytes -> option bytes) (k q : bytes) : option bytes :=
  if bool_decide (q = k) then None else m q.

(** A node with a longer path in front is a leaf or an extension again. *)
Lemma wp_prepend k h n m s (Q : res bytes -> TrieDb -> Prop) :
  k <> [] -> nibbles k -> rep (table s) (Some h) n m ->
  (forall h' s', rep (table s') (Some h') (length k + n)
     (fun q => match strip k q with Some q => m q | None => None end) -> Q (ROk h') s') ->
  (exists v, node_at (table s) h v /\
     ((exists k' v0, v = [k'; v0; termintor] /\ wp (commit [k ++ k'; v0; termintor]) s Q) \/
      (exists k' h1, v = [k'; h1] /\ wp (commit [k ++ k'; h1]) s Q) \/
      (length v = 16 /\ wp (commit [k; h]) s Q))).
Proof.
  intros Hne Hk R HQ. inversion R as [|h' k' v0 m' Hn Hnk Hm|h' k' h1 cs n' m1 m' Hn Hne' Hnk Hc Hl R' Hm|
    h' cs i j n' ms m' Hn Hl Hs R' Hij Hi Hj Hm]; subst.
  - eexists. split; [exact Hn|]. left. exists k', v0. split; [done|]. apply wp_commit; [done|].
    intros h2 s2 Hsub Hn2. apply HQ. rewrite <- length_app. apply rep_leaf with v0; [done|by apply nibbles_app|].
    intros q. destruct (strip k q) as [l|] eqn:E.
    + apply strip_Some in E as ->. rewrite Hm. rewrite (bool_decide_ext (k ++ l = k ++ k') (l = k')); [done|].
      split; [apply app_inv_head|by intros ->].
    + rewrite bool_decide_eq_false_2; [done|]. intros ->. by rewrite strip_app in E.
  - eexists. split; [exact Hn|]. right. left. exists k', h1. split; [done|]. apply wp_commit; [done|].
    intros h2 s2 Hsub Hn2. apply HQ. rewrite Nat.add_assoc, <- length_app.
    eapply rep_ext; [exact Hn2|by destruct k|by apply nibbles_app|by eapply node_at_mono|done|by eapply rep_weaken|].
    intros q. rewrite strip_app_l. destruct (strip k q); [apply Hm|done].
  - eexists. split; [exact Hn|]. right. right. split; [done|]. apply wp_commit; [done|].
    intros h2 s2 Hsub Hn2. apply HQ.
    eapply rep_ext; [exact Hn2|done|done|by eapply node_at_mono|done|by eapply rep_weaken|done].
Qed.

(** The map of a branch, from the maps of its children. *)
Definition branch_map (ms : nat -> bytes -> option bytes) (q : bytes) : option bytes :=
  match q with
  | [] => None
  | c :: q => if nibble c <? 16 then ms (nibble c) q else None
  end.

Lemma rep_None db n m q : rep db None n m -> m q = None.
Proof. by inversion 1. Qed.

Lemma nibble_z2b i : i < 16 -> nibble (z2b (Z.of_nat i)) = i.
Proof. intros. unfold nibble. rewrite b2z_z2b_small by lia. lia. Qed.

Lemma wp_collapse cs ms n s (Q : res bytes -> TrieDb -> Prop) :
  length cs = 16 -> (forall i, i < 16 -> rep (table s) (child cs i) n (ms i)) -> BranchLen cs = 1 ->
  (forall h s', rep (table s') (Some h) (S n) (branch_map ms) -> Q (ROk h) s') ->
  wp (collapseBranch cs) s Q.
Proof.
  intros Hl R Hb HQ. destruct (firstSubNode_spec cs 0) as (i & Hi & Hne & E); [lia|].
  unfold collapseBranch, FirstSubNodeHashInBranch. rewrite E. cbn [Nat.add]. fold (child cs i).
  assert (forall j, j < 16 -> j <> i -> child cs j = None) as Hother.
  { intros j Hj Hji. apply child_None. destruct (default [] (cs !! j)) eqn:Ej; [done|].
    assert (2 <= BranchLen cs); [|lia]. apply BranchLen_two.
    exists (min i j), (max i j). split; [lia|].
    destruct (Nat.lt_ge_cases i j); [rewrite Nat.min_l, Nat.max_r|rewrite Nat.min_r, Nat.max_l]; try lia;
      (split; congruence). }
  destruct (child cs i) as [h|] eqn:Ec; [|by apply child_None in Ec].
  pose proof (R i ltac:(lia)) as Ri. rewrite Ec in Ri. set (b := z2b (Z.of_nat i)).
  assert (nibble b = i) as Eb by (apply nibble_z2b; lia).
  destruct (wp_prepend [b] h n (ms i) s Q) as (v & Hn & Hv); [done| |done| |].
  { apply Forall_cons. split; [lia|by apply Forall_nil]. }
  { intros h' s' Rh. apply HQ. eapply rep_ext_eq; [exact Rh|]. intros [|c q]; [done|]. cbn [strip branch_map].
    destruct (decide (b = c)) as [<-|Hbc].
    - rewrite bool_decide_eq_true_2 by done. by rewrite Eb, (proj2 (Nat.ltb_lt _ _)) by lia.
    - rewrite bool_decide_eq_false_2 by done. destruct (Nat.ltb_spec (nibble c) 16); [|done].
      symmetry. eapply rep_None. rewrite <- (Hother (nibble c)); [by apply R|done|].
      intros E'. apply Hbc. apply nibble_inj. congruence. }
  eapply wp_getNode_bind; [exact Hn|].
  destruct Hv as [(k & v0 & -> & W)|[(k & h1 & -> & W)|[Hl' W]]]; [exact W|exact W|].
  by rewrite (Type_branch _ Hl').
Qed.

Lemma wp_rejoin k h n m s (Q : res bytes -> TrieDb -> Prop) :
  k <> [] -> nibbles k -> rep (table s) (Some h) n m ->
  (forall h' s', rep (table s') (Some h') (length k + n)
     (fun q => match strip k q with Some q => m q | None => None end) -> Q (ROk h') s') ->
  wp (rejoinExtension k h) s Q.
Proof.
  intros Hne Hk R HQ. destruct (wp_prepend k h n m s Q Hne Hk R HQ) as (v & Hn & Hv).
  unfold wp, rejoinExtension. rewrite (getNode_at _ _ _ Hn).
  destruct Hv as [(k' & v0 & -> & W)|[(k' & h1 & -> & W)|[Hl W]]]; [exact W|exact W|].
  by rewrite (Type_branch _ Hl).
Qed.

Definition delete_post (n : nat) (m : bytes -> option bytes) (key : bytes)
    (r : res (option bytes)) (s' : TrieDb) : Prop :=
  match m key with
  | None => r = RErr ErrNodeNotFound
  | Some _ => exists h', r = ROk h' /\ rep (table s') h' n (del m key)
  end.

(** After a deletion below child [b]: the branch is written again, or collapses. *)
Lemma delete_branch cs b y i j h' n ms s :
  length cs = 16 -> Forall slot_ok cs -> nibble b < 16 ->
  (forall i, i < 16 -> i <> nibble b -> rep (table s) (child cs i) n (ms i)) ->
  rep (table s) h' n (del (ms (nibble b)) y) ->
  i < j < 16 -> child cs i <> None -> child cs j <> None ->
  wp (root ← set_slot cs b (hashToBytes h');
      hash ← (if BranchLen root =? 1 then collapseBranch root else commit root);
      ret (Some hash)) s
    (fun r s' => exists h, r = ROk h /\ rep (table s') h (S n) (del (branch_map ms) (b :: y))).
Proof.
  intros Hl Hs Hb R R' Hij Hi Hj. rewrite set_slot_in by lia. apply wp_ret_bind.
  set (cs' := <[nibble b := hashToBytes h']> cs).
  set (ms' := fun i => if bool_decide (i = nibble b) then del (ms i) y else ms i).
  assert (length cs' = 16) as Hl' by (unfold cs'; by rewrite length_insert).
  assert (bytesToHash (hashToBytes h') = h') as Eh.
  { destruct h'; [|done]. by eapply bytesToHash_rep. }
  assert (forall k, child cs' k = if bool_decide (k = nibble b) then h' else child cs k) as Hc.
  { intros k. unfold cs'. rewrite child_insert by lia. by rewrite Eh. }
  assert (forall k, k < 16 -> rep (table s) (child cs' k) n (ms' k)) as R1.
  { intros k Hk. rewrite Hc. unfold ms'. case_bool_decide; [by subst|by apply R]. }
  assert (forall q, branch_map ms' q = del (branch_map ms) (b :: y) q) as Em.
  { intros [|c q]; unfold branch_map, del, ms'; [done|]. rewrite nibble_eq.
    rewrite (bool_decide_ext (c :: q = b :: y) (c = b /\ q = y)) by (split; [by intros [= -> ->]|by intros [-> ->]]).
    destruct (Nat.ltb_spec (nibble c) 16); [|by case_bool_decide].
    destruct (decide (c = b)) as [->|Hcb].
    - rewrite (bool_decide_eq_true_2 (b = b)) by done. unfold del.
      rewrite (bool_decide_ext (b = b /\ q = y) (q = y)) by tauto. done.
    - rewrite !bool_decide_eq_false_2; [done|tauto|done]. }
  assert (1 <= BranchLen cs') as H1.
  { apply BranchLen_one. exists (if bool_decide (i = nibble b) then j else i).
    split; [case_bool_decide; lia|]. rewrite <- child_None, Hc. case_bool_decide; case_bool_decide; try done; lia. }
  apply twp_bind; [intros; apply mono_ret|]. destruct (Nat.eqb_spec (BranchLen cs') 1) as [E1|E1].
  - eapply wp_collapse; [done|exact R1|done|]. intros h s' Rh. apply twp_ret. exists (Some h). split; [done|].
    by eapply rep_ext_eq.
  - assert (2 <= BranchLen cs') as H2 by lia. apply BranchLen_two in H2 as (i' & j' & Hij' & Hi' & Hj').
    apply wp_commit; [by rewrite (Type_branch _ Hl')|]. intros h s' Hsub Hn. apply twp_ret. exists (Some h). split; [done|].
    apply (rep_branch _ h cs' i' j' n ms'); [done|done| | |lia|by rewrite child_None|by rewrite child_None|].
    + apply Forall_insert; [done|]. destruct h'; [right; by eapply rep_hash_length|by left].
    + intros k Hk. eapply rep_weaken; [by apply R1|done].
    + intros q. by rewrite <- Em.
Qed.

Lemma del_strip k rest (m m1 : bytes -> option bytes) :
  (forall q, m q = match strip k q with Some q => m1 q | None => None end) ->
  forall q, match strip k q with Some q => del m1 rest q | None => None end = del m (k ++ rest) q.
Proof.
  intros Hm q. unfold del. rewrite Hm. destruct (strip k q) as [l|] eqn:E.
  - apply strip_Some in E as ->. rewrite (bool_decide_ext (k ++ l = k ++ rest) (l = rest)); [done|].
    split; [apply app_inv_head|by intros ->].
  - by case_bool_decide.
Qed.

Lemma wp_const {A} (c : M A) s r (Q : res A -> TrieDb -> Prop) : c s = (r, s) -> Q r s -> wp c s Q.
Proof. intros E HQ. unfold wp. by rewrite E. Qed.

Lemma delete_spec fuel h n m key s :
  rep (table s) h n m -> length key = n -> nibbles key -> n < fuel ->
  wp (delete fuel h key) s (delete_post n m key).
Proof.
  revert h n m key s. induction fuel as [|f IH]; intros h n m key s R Hlen Hk Hf; [lia|]. unfold delete_post.
  destruct R as [n m Hm|h k v0 m Hn Hnk Hm|h k h1 cs n m1 m Hn Hne Hnk Hc Hl R Hm|
    h cs i j n ms m Hn Hl Hs R Hij Hi Hj Hm]; rewrite Hm; cbn [delete].
  - by apply twp_fail.
  - eapply wp_getNode_bind; [done|]. change (Type_ _) with leaf.
    change (default [] ([k; v0; termintor] !! 0)) with k. cbv zeta match.
    destruct (commonPrefixes_same k key) as [(-> & ->)|(pre & a & x & b & y & -> & -> & Hne & ->)]; [done|..].
    + rewrite !Nat.eqb_refl, bool_decide_eq_true_2 by done. apply twp_ret. exists None. split; [done|].
      apply rep_empty. intros q. unfold del. rewrite Hm. by case_bool_decide.
    + rewrite (proj2 (Nat.eqb_neq _ (length (pre ++ a :: x)))) by (rewrite length_app; simpl; lia).
      rewrite bool_decide_eq_false_2; [by apply twp_fail|]. intros E%app_inv_head. congruence.
  - eapply wp_getNode_bind; [done|]. change (Type_ _) with extension.
    change (default [] ([k; h1] !! 0)) with k. change (default [] ([k; h1] !! 1)) with h1. cbv zeta match.
    rewrite (bytesToHash_rep _ _ _ _ R). assert (0 < length k) by (destruct k; [done|simpl; lia]).
    destruct (commonPrefixes_cases k key) as [(rest & -> & ->)|(pre & a & x & b & y & -> & -> & Hne' & ->)]; [lia|..];
      rewrite drop_app_length; apply nibbles_app in Hk as [_ Hk]; rewrite length_app in Hlen.
    + rewrite strip_app. apply twp_bind.
      { intros [|]; [apply mono_bind; [apply mono_rejoin|intros; apply mono_ret]|apply mono_ret]. }
      eapply twp_mono; [apply IH; [exact R|lia|done|lia]|]. intros r s1 Hsub1. unfold delete_post.
      destruct (m1 rest) as [v|]; [|by intros ->]. intros (h' & -> & R'). destruct h' as [h'|].
      * apply twp_bind; [intros; apply mono_ret|]. eapply wp_rejoin; [done|done|exact R'|].
        intros h2 s2 R2. apply twp_ret. exists (Some h2). split; [done|]. eapply rep_ext_eq; [exact R2|].
        by apply del_strip.
      * apply twp_ret. exists None. split; [done|]. apply rep_empty. intros q. rewrite <- (del_strip _ _ _ _ Hm).
        destruct (strip k q); [|done]. by eapply rep_None.
    + rewrite strip_part by done. eapply wp_const; [|done]. unfold mbind, M_bind, bind.
      rewrite length_app in *. simpl in *. erewrite delete_long; [done|exact R|simpl; lia|done|lia].
  - eapply wp_getNode_bind; [done|]. rewrite (Type_branch _ Hl). cbv zeta match.
    destruct key as [|b y]; [done|]. apply Forall_cons in Hk as [Hb Hy]. injection Hlen as Hlen.
    apply wp_ret_bind. destruct (slot_in cs b Hl Hb) as (x & -> & Hx). do 2 apply wp_ret_bind. rewrite Hx.
    rewrite (proj2 (Nat.ltb_lt _ _)) by done. apply twp_bind.
    { intros. apply mono_bind; [apply mono_set_slot|]. intros. apply mono_bind; [|intros; apply mono_ret].
      destruct (_ =? _); [apply mono_collapse|apply mono_commit]. }
    eapply twp_mono; [apply IH; [by apply R|done|done|lia]|]. intros r s1 Hsub1. unfold delete_post.
    destruct (ms (nibble b) y) as [v|]; [|by intros ->]. intros (h' & -> & R').
    eapply twp_mono; [eapply (delete_branch cs b y i j h' n ms)|]; try done.
    + intros k Hk _. eapply rep_weaken; [by apply R|done].
    + intros r2 s2 _ (h2 & -> & R2). exists h2. split; [done|]. eapply rep_ext_eq; [exact R2|].
      intros q. unfold del. by rewrite Hm.
Qed.

End WithCodec.
