(* ===== verification/TrieRoot.v ===== *)
(** * TrieRoot: the trie as a map with byte-string keys, and its root hash *)

From S2P Require Import Prelude Crypto Trie TrieFacts TrieMap.
Import Trie.

Section WithCodec.
Context `{C : Crypto} `{TCL : TrieCodecLaws}.

(** ** The root hash determines, and is determined by, the map *)

Lemma node_at_hash db db' h h' v : node_at db h v -> node_at db' h' v -> h = h'.
Proof. intros (b & _ & Hm & ->) (b' & _ & Hm' & ->). congruence. Qed.

Lemma rep_dom db h n m q v : rep db h n m -> m q = Some v -> length q = n /\ nibbles q.
Proof.
  intros R. revert q v. induction R as [n m Hm|h k v0 m Hn Hnk Hm|h k h1 cs n m1 m Hn Hne Hnk Hc Hl R IH Hm|
    h cs i j n ms m Hn Hl Hs R IH Hij Hi Hj Hm]; intros q v E; rewrite Hm in E.
  - done.
  - case_bool_decide; [|done]. by subst.
  - destruct (strip k q) as [q'|] eqn:Es; [|done]. apply strip_Some in Es as ->.
    destruct (IH q' v E) as [L N]. rewrite length_app. split; [lia|by apply nibbles_app].
  - destruct q as [|c q]; [done|]. destruct (Nat.ltb_spec (nibble c) 16); [|done].
    destruct (IH _ ltac:(done) q v E) as [L N]. split; [simpl; lia|]. by apply Forall_cons.
Qed.

(** A branch has two keys that differ in their first element, so every node has a key. *)
Lemma rep_keys db h n m : rep db h n m ->
  (forall h0, h = Some h0 -> exists q v, m q = Some v) /\
  (forall h0, h = Some h0 -> is_branch db h0 -> exists a q v b q' v', a <> b /\
     m (a :: q) = Some v /\ m (b :: q') = Some v').
Proof.
  induction 1 as [n m Hm|h k v0 m Hn Hnk Hm|h k h1 cs n m1 m Hn Hne Hnk Hc Hl R [IH _] Hm|
    h cs i j n ms m Hn Hl Hs R IH Hij Hi Hj Hm]; [done|..].
  - split; [|intros h0 [= <-] Hb; by eapply not_branch in Hb]. intros _ _. exists k, v0.
    by rewrite Hm, bool_decide_eq_true_2.
  - split; [|intros h0 [= <-] Hb; by eapply not_branch in Hb]. intros _ _.
    destruct (IH h1 eq_refl) as (q & v & E). exists (k ++ q), v. by rewrite Hm, strip_app.
  - assert (forall k, k < 16 -> child cs k <> None -> exists c q v, nibble c = k /\ m (c :: q) = Some v) as H.
    { intros k Hk Hne. destruct (child cs k) as [h0|] eqn:Ec; [|done].
      destruct (IH k Hk) as [IH1 _]. destruct (IH1 h0 Ec) as (q & v & E).
      exists (z2b (Z.of_nat k)), q, v. pose proof (nibble_z2b k Hk) as Ek. split; [done|].
      by rewrite Hm, Ek, (proj2 (Nat.ltb_lt _ _)). }
    destruct (H i ltac:(lia) Hi) as (a & q & v & Ea & E1). destruct (H j ltac:(lia) Hj) as (b & q' & v' & Eb & E2).
    split; [by eauto|]. intros _ _ _. exists a, q, v, b, q', v'. split; [|done]. intros ->. lia.
Qed.

Lemma strip_prefix k q l : strip k q = Some l -> exists r, q = k ++ r.
Proof. intros E. exists l. by apply strip_Some. Qed.

(** Two extensions above branches with the same map have the same path. *)
Lemma ext_path_le k k' (m1 m1' : bytes -> option bytes) a q v b q' v' :
  a <> b -> m1 (a :: q) = Some v -> m1 (b :: q') = Some v' ->
  (forall p, match strip k p with Some p => m1 p | None => None end =
             match strip k' p with Some p => m1' p | None => None end) ->
  exists r, k = k' ++ r.
Proof.
  intros Hne E1 E2 H. pose proof (H (k ++ a :: q)) as H1. pose proof (H (k ++ b :: q')) as H2.
  rewrite strip_app in H1, H2. rewrite E1 in H1. rewrite E2 in H2.
  destruct (strip k' (k ++ a :: q)) as [l1|] eqn:S1; [|done]. destruct (strip k' (k ++ b :: q')) as [l2|] eqn:S2; [|done].
  apply strip_Some in S1, S2. clear -Hne S1 S2. revert k' S1 S2. induction k as [|c k IH]; intros k' S1 S2.
  - destruct k'; simpl in *; [by exists []|congruence].
  - destruct k' as [|c' k']; [by exists (c :: k)|]. simpl in *. injection S1 as -> S1. injection S2 as S2.
    destruct (IH k' S1 S2) as [r ->]. by exists r.
Qed.

Lemma slots_eq cs cs' : length cs = 16 -> length cs' = 16 -> Forall slot_ok cs -> Forall slot_ok cs' ->
  (forall i, i < 16 -> child cs i = child cs' i) -> cs = cs'.
Proof.
  intros Hl Hl' Hs Hs' E. apply list_eq_same_length with 16; [done|done|]. intros i x y Hi Hx Hy.
  specialize (E i Hi). unfold child in E. rewrite Hx, Hy in E. simpl in E.
  rewrite Forall_lookup in Hs, Hs'. specialize (Hs _ _ Hx). specialize (Hs' _ _ Hy).
  destruct Hs as [->|H1], Hs' as [->|H2]; [done| | |].
  - rewrite (bytesToHash_full y) in E by done. done.
  - rewrite (bytesToHash_full x) in E by done. done.
  - rewrite !bytesToHash_full in E by done. by injection E.
Qed.

(** The keys a node forces its map to have. *)
Lemma leaf_key k v0 (m : bytes -> option bytes) q v :
  (forall q, m q = if bool_decide (q = k) then Some v0 else None) -> m q = Some v -> q = k /\ v = v0.
Proof. intros Hm E. rewrite Hm in E. case_bool_decide; [by simplify_eq|done]. Qed.

Lemma branch_keys db h cs n m : rep db (Some h) n m -> node_at db h cs -> length cs = 16 ->
  exists a q v b q' v', a <> b /\ m (a :: q) = Some v /\ m (b :: q') = Some v'.
Proof. intros R Hc Hl. destruct (rep_keys _ _ _ _ R) as [_ K]. apply (K h); [done|by exists cs]. Qed.

(** An extension over a branch has two keys that start with its path and then part. *)
Lemma ext_keys db k h1 cs n m1 (m : bytes -> option bytes) :
  rep db (Some h1) n m1 -> node_at db h1 cs -> length cs = 16 ->
  (forall q, m q = match strip k q with Some q => m1 q | None => None end) ->
  exists a q v b q' v', a <> b /\ m1 (a :: q) = Some v /\ m1 (b :: q') = Some v' /\
    m (k ++ a :: q) = Some v /\ m (k ++ b :: q') = Some v'.
Proof.
  intros R Hc Hl Hm. destruct (branch_keys _ _ _ _ _ R Hc Hl) as (a & q & v & b & q' & v' & Hne & E1 & E2).
  exists a, q, v, b, q', v'. by rewrite !Hm, !strip_app.
Qed.

Lemma rep_det_leaf db k v0 h m db' h' m' :
  node_at db h [k; v0; termintor] -> (forall q, m q = if bool_decide (q = k) then Some v0 else None) ->
  rep db' h' (length k) m' -> (forall q, m q = m' q) -> Some h = h'.
Proof.
  intros Hn Hm R' E.
  inversion R' as [n' m'' Hm'|h'' k' v' m'' Hn' Hnk' Hm'|h'' k' h1' cs' n' m1' m'' Hn' Hne' Hnk' Hc' Hl' R1' Hm'|
    h'' cs' i' j' n' ms' m'' Hn' Hl' Hs' R1' Hij' Hi' Hj' Hm']; subst.
  - specialize (E k). by rewrite Hm, Hm', bool_decide_eq_true_2 in E.
  - pose proof (E k) as Ek. rewrite Hm, bool_decide_eq_true_2 in Ek by done. symmetry in Ek.
    destruct (leaf_key _ _ _ _ _ Hm' Ek) as [-> ->]. f_equal. by eapply node_at_hash.
  - destruct (ext_keys _ _ _ _ _ _ _ R1' Hc' Hl' Hm') as (a & q & v & b & q' & v2 & Hab & _ & _ & E1 & E2).
    rewrite <- E in E1, E2. apply (leaf_key _ _ _ _ _ Hm) in E1 as [E1 _], E2 as [E2 _].
    rewrite <- E2 in E1. apply app_inv_head in E1. congruence.
  - destruct (branch_keys _ _ _ _ _ R' Hn' Hl') as (a & q & v & b & q' & v2 & Hab & E1 & E2).
    rewrite <- E in E1, E2. apply (leaf_key _ _ _ _ _ Hm) in E1 as [E1 _], E2 as [E2 _]. congruence.
Qed.

Lemma rep_det_ext db h k h1 cs n m1 m db' h' m' :
  (forall db' h' m', rep db' h' n m' -> (forall q, m1 q = m' q) -> Some h1 = h') ->
  node_at db h [k; h1] -> k <> [] -> node_at db h1 cs -> length cs = 16 -> rep db (Some h1) n m1 ->
  (forall q, m q = match strip k q with Some q => m1 q | None => None end) ->
  rep db' h' (length k + n) m' -> (forall q, m q = m' q) -> Some h = h'.
Proof.
  intros IH Hn Hne Hc Hl R Hm R' E.
  destruct (ext_keys _ _ _ _ _ _ _ R Hc Hl Hm) as (a & q & v & b & q' & v2 & Hab & F1 & F2 & E1 & E2).
  inversion R' as [n' m'' Hm'|h'' k' v' m'' Hn' Hnk' Hm'|h'' k' h1' cs' n' m1' m'' Hn' Hne' Hnk' Hc' Hl' R1' Hm'|
    h'' cs' i' j' n' ms' m'' Hn' Hl' Hs' R1' Hij' Hi' Hj' Hm']; subst.
  - by rewrite E, Hm' in E1.
  - rewrite E in E1, E2. apply (leaf_key _ _ _ _ _ Hm') in E1 as [E1 _], E2 as [E2 _].
    rewrite <- E2 in E1. apply app_inv_head in E1. congruence.
  - destruct (ext_keys _ _ _ _ _ _ _ R1' Hc' Hl' Hm') as (a' & p & w & b' & p' & w2 & Hab' & G1 & G2 & _ & _).
    assert (forall p, match strip k p with Some p => m1 p | None => None end =
      match strip k' p with Some p => m1' p | None => None end) as EE.
    { intros p0. by rewrite <- Hm, <- Hm'. }
    destruct (ext_path_le k k' m1 m1' a q v b q' v2 Hab F1 F2 EE) as [r Hr].
    destruct (ext_path_le k' k m1' m1 a' p w b' p' w2 Hab' G1 G2) as [r' Hr']; [by intros; rewrite EE|].
    assert (k = k') as <-.
    { rewrite Hr in Hr'. rewrite <- app_assoc in Hr'. apply (f_equal length) in Hr'. rewrite !length_app in Hr'.
      destruct r; [by rewrite app_nil_r in Hr|simpl in Hr'; lia]. }
    assert (n' = n) as -> by lia. assert (Some h1 = Some h1') as [= <-].
    { eapply IH; [exact R1'|]. intros p0. specialize (EE (k ++ p0)). by rewrite !strip_app in EE. }
    f_equal. by eapply node_at_hash.
  - destruct (branch_keys _ _ _ _ _ R' Hn' Hl') as (a' & p & w & b' & p' & w2 & Hab' & G1 & G2).
    rewrite <- E, Hm in G1, G2. destruct k as [|c k]; [done|]. simpl in G1, G2.
    repeat case_bool_decide; congruence.
Qed.

Lemma rep_det db h n m : rep db h n m -> forall db' h' m', rep db' h' n m' -> (forall q, m q = m' q) -> h = h'.
Proof.
  induction 1 as [n m Hm|h k v0 m Hn Hnk Hm|h k h1 cs n m1 m Hn Hne Hnk Hc Hl R IH Hm|
    h cs i j n ms m Hn Hl Hs R IH Hij Hi Hj Hm]; intros db' h' m' R' E.
  - destruct h' as [h'|]; [|done]. destruct (rep_keys _ _ _ _ R') as [K _].
    destruct (K h' eq_refl) as (q & v & Eq). by rewrite <- E, Hm in Eq.
  - by eapply rep_det_leaf.
  - by eapply rep_det_ext.
  - destruct (branch_keys db h cs (S n) m) as (a & q & v & b & q' & v2 & Hab & E1 & E2);
      [by eapply rep_branch|done|done|].
    inversion R' as [n' m'' Hm'|h'' k' v' m'' Hn' Hnk' Hm'|h'' k' h1' cs' n' m1' m'' Hn' Hne' Hnk' Hc' Hl' R1' Hm'|
      h'' cs' i' j' n' ms' m'' Hn' Hl' Hs' R1' Hij' Hi' Hj' Hm']; subst.
    + by rewrite E, Hm' in E1.
    + rewrite E in E1, E2. apply (leaf_key _ _ _ _ _ Hm') in E1 as [E1 _], E2 as [E2 _]. congruence.
    + rewrite E, Hm' in E1, E2. destruct k' as [|c k']; [done|]. simpl in E1, E2.
      repeat case_bool_decide; congruence.
    + f_equal. assert (cs = cs') as ->; [|by eapply node_at_hash]. apply slots_eq; [done..|].
      intros k Hk. eapply (IH k Hk); [by apply R1'|]. intros q0.
      specialize (E (z2b (Z.of_nat k) :: q0)). rewrite Hm, Hm', nibble_z2b, (proj2 (Nat.ltb_lt _ _)) in E by done.
      done.
Qed.

(** ** Byte-string keys *)

Lemma keyToHex_length key : length (keyToHex key) = 2 * length key.
Proof. induction key; simpl; lia. Qed.

Lemma nibble_small z : (0 <= z < 16)%Z -> nibble (z2b z) < 16.
Proof. intros. unfold nibble. rewrite b2z_z2b_small; lia. Qed.

Lemma byte_halves b : (0 <= b2z b / 16 < 16)%Z /\ (0 <= b2z b mod 16 < 16)%Z /\
  (b2z b = 16 * (b2z b / 16) + b2z b mod 16)%Z.
Proof.
  pose proof (b2z_range b). pose proof (Z.mod_pos_bound (b2z b) 16 ltac:(lia)).
  pose proof (Z.div_mod (b2z b) 16 ltac:(lia)). lia.
Qed.

Lemma keyToHex_nibbles key : nibbles (keyToHex key).
Proof.
  induction key as [|b key IH]; [by apply Forall_nil|]. destruct (byte_halves b) as (H1 & H2 & _).
  cbn [keyToHex]. do 2 (apply Forall_cons; split; [by apply nibble_small|]). done.
Qed.

Lemma keyToHex_inj key key' : keyToHex key = keyToHex key' -> key = key'.
Proof.
  revert key'. induction key as [|b key IH]; intros [|b' key'] E; try done. injection E as E1 E2 E3.
  rewrite (IH _ E3). f_equal. destruct (byte_halves b) as (H1 & H2 & H3), (byte_halves b') as (H1' & H2' & H3').
  apply (f_equal b2z) in E1, E2. rewrite !b2z_z2b_small in E1, E2 by lia. apply (inj b2z). lia.
Qed.

(** Every path of even length is the path of a key. *)
Lemma keyToHex_onto L q : length q = 2 * L -> nibbles q -> exists key, length key = L /\ q = keyToHex key.
Proof.
  revert q. induction L as [|L IH]; intros q Hl Hq; [destruct q; [by exists []|done]|].
  destruct q as [|a [|b q]]; [done|simpl in Hl; lia|]. apply Forall_cons in Hq as [Ha Hq].
  apply Forall_cons in Hq as [Hb Hq]. destruct (IH q) as (key & Hk & ->); [simpl in Hl; lia|done|].
  unfold nibble in Ha, Hb. pose proof (b2z_range a). pose proof (b2z_range b).
  exists (z2b (16 * b2z a + b2z b) :: key). split; [simpl; lia|]. cbn [keyToHex].
  rewrite b2z_z2b_small by lia.
  assert ((16 * b2z a + b2z b) / 16 = b2z a)%Z as -> by (symmetry; apply Z.div_unique with (b2z b); lia).
  assert ((16 * b2z a + b2z b) mod 16 = b2z b)%Z as -> by (symmetry; apply Z.mod_unique with (b2z a); lia).
  by rewrite !z2b_b2z.
Qed.

(** The trie with root [root] holds the map [m] on keys of [L] bytes. *)
Definition contents (s : TrieDb) (root : option bytes) (L : nat) (m : gmap bytes bytes) : Prop :=
  exists mm, rep (table s) root (2 * L) mm /\ forall key, length key = L -> mm (keyToHex key) = m !! key.

Lemma contents_weaken s s' root L m : contents s root L m -> table s ⊆ table s' -> contents s' root L m.
Proof. intros (mm & R & H) Hsub. exists mm. split; [by eapply rep_weaken|done]. Qed.

Lemma keyToHex_eq key key' : bool_decide (keyToHex key = keyToHex key') = bool_decide (key = key').
Proof. apply bool_decide_ext. split; [apply keyToHex_inj|by intros ->]. Qed.

Section Contents.
Context (s : TrieDb) (root : option bytes) (L : nat) (m : gmap bytes bytes) (key : bytes).
Context (Hc : contents s root L m) (Hk : length key = L).

Lemma path_ok : length (keyToHex key) = 2 * L /\ nibbles (keyToHex key).
Proof. split; [by rewrite keyToHex_length, Hk|apply keyToHex_nibbles]. Qed.

Lemma Get_contents : Get root key s = (ROk (m !! key), s).
Proof.
  destruct Hc as (mm & R & Hm). destruct path_ok as [Hl Hn]. unfold Get, fuel_for.
  erewrite get_spec; [|exact R|done|done|lia]. rewrite (Hm key Hk). by destruct (m !! key).
Qed.

Lemma Update_contents value r s' : value <> [] -> Update root key value s = (r, s') -> clash s' = false ->
  table s ⊆ table s' /\
  exists root', r = ROk (Some root') /\ contents s' (Some root') L (<[key := value]> m).
Proof.
  intros Hv E Hcl. pose proof Hc as (mm & R & Hm). destruct path_ok as [Hl Hn]. unfold Update, fuel_for in E.
  rewrite (proj2 (Nat.eqb_neq (length value) 0)) in E by (destruct value; [done|simpl; lia]). cbn [negb] in E.
  pose proof (update_spec (S (length (keyToHex key))) root (2 * L) mm (keyToHex key) value s R Hl Hn ltac:(lia)) as W.
  unfold mbind, M_bind, bind, wp in *. destruct (update _ _ _ _ s) as [r0 s0]. simpl in W.
  assert (s0 = s') as ->. { destruct r0; injection E as <- <-; done. }
  destruct (W Hcl) as [Hsub (h' & -> & R' & _)]. injection E as <-.
  split; [done|]. exists h'. split; [done|]. eexists. split; [exact R'|].
  intros key' Hk'. unfold upd. rewrite keyToHex_eq, Hm by done.
  case_bool_decide; [subst; by rewrite lookup_insert_eq|]. by rewrite lookup_insert_ne.
Qed.

Lemma Delete_contents r s' : Delete root key s = (r, s') -> clash s' = false ->
  table s ⊆ table s' /\
  match m !! key with
  | None => r = RErr ErrNodeNotFound
  | Some _ => exists root', r = ROk root' /\ contents s' root' L (base.delete key m)
  end.
Proof.
  intros E Hcl. pose proof Hc as (mm & R & Hm). destruct path_ok as [Hl Hn].
  unfold Delete, Update, fuel_for in E. cbn [length Nat.eqb negb] in E.
  pose proof (delete_spec (S (length (keyToHex key))) root (2 * L) mm (keyToHex key) s R Hl Hn ltac:(lia)) as W.
  unfold wp, delete_post in W. rewrite E in W. simpl in W. rewrite (Hm key Hk) in W.
  destruct (W Hcl) as [Hsub H]. split; [done|].
  destruct (m !! key); [|done]. destruct H as (h' & -> & R'). exists h'. split; [done|]. eexists.
  split; [exact R'|]. intros key' Hk'. unfold del. rewrite keyToHex_eq, Hm by done.
  case_bool_decide; [subst; by rewrite lookup_delete_eq|]. by rewrite lookup_delete_ne.
Qed.

End Contents.

(** C4: the trie is a map from keys of a fixed length to values: on a trie that holds the
    map [m], [Get] answers as [m] does and changes nothing; as long as no two different nodes
    have the same SHA3 hash and none has the zero hash, [Update] gives a trie that holds [m] with the key set, [Delete]
    one without the key, or the not-found error when it is absent; and the old root still
    holds [m]. *)
Theorem trie_is_map (s : TrieDb) (root : option bytes) (L : nat) (m : gmap bytes bytes) (key value : bytes) :
  contents s root L m -> length key = L -> value <> [] ->
  Get root key s = (ROk (m !! key), s) /\
  (forall r s', Update root key value s = (r, s') -> clash s' = false ->
     contents s' root L m /\
     exists root', r = ROk (Some root') /\ contents s' (Some root') L (<[key := value]> m)) /\
  (forall r s', Delete root key s = (r, s') -> clash s' = false ->
     contents s' root L m /\
     match m !! key with
     | None => r = RErr ErrNodeNotFound
     | Some _ => exists root', r = ROk root' /\ contents s' root' L (base.delete key m)
     end).
Proof.
  intros Hc Hk Hv. split; [by eapply Get_contents|]. split; intros r s' E Hcl.
  - destruct (Update_contents _ _ _ _ _ Hc Hk _ _ _ Hv E Hcl) as [Hsub H].
    split; [by eapply contents_weaken|exact H].
  - destruct (Delete_contents _ _ _ _ _ Hc Hk _ _ E Hcl) as [Hsub H].
    split; [by eapply contents_weaken|exact H].
Qed.

(** ** Histories *)

Lemma contents_det s s' root root' L m : contents s root L m -> contents s' root' L m -> root = root'.
Proof.
  intros (mm & R & Hm) (mm' & R' & Hm'). apply (rep_det _ _ _ _ R _ _ _ R').
  assert (forall db h mm0 q, rep db h (2 * L) mm0 -> (length q = 2 * L /\ nibbles q) \/ mm0 q = None) as D.
  { intros db h mm0 q R0. destruct (mm0 q) as [v|] eqn:Eq; [|by right]. left. by eapply rep_dom. }
  intros q. destruct (D _ _ _ q R) as [[Hl Hn]|E1].
  - destruct (keyToHex_onto L q Hl Hn) as (key & Hk & ->). by rewrite Hm, Hm'.
  - destruct (D _ _ _ q R') as [[Hl Hn]|E2]; [|congruence].
    destruct (keyToHex_onto L q Hl Hn) as (key & Hk & ->). by rewrite Hm, Hm'.
Qed.

(** A sequence of [Update]s, an empty value being a deletion; the root stays as it is when
    one answers an error. *)
Fixpoint history (kvs : list (bytes * bytes)) (root : option bytes) : M (option bytes) := fun s =>
  match kvs with
  | [] => (ROk root, s)
  | (key, value) :: kvs =>
      match Update root key value s with
      | (ROk root, s) => history kvs root s
      | (RErr _, s) => history kvs root s
      | (RPanic, s) => (RPanic, s)
      | (RFuel, s) => (RFuel, s)
      end
  end.

(** The map after the sequence. *)
Definition set_key (m : gmap bytes bytes) (kv : bytes * bytes) : gmap bytes bytes :=
  if length kv.2 =? 0 then base.delete kv.1 m else <[kv.1 := kv.2]> m.

Definition final (kvs : list (bytes * bytes)) (m : gmap bytes bytes) : gmap bytes bytes := foldl set_key m kvs.

Lemma mono_Update root key value : mono (Update root key value).
Proof.
  unfold Update. destruct (negb _); [apply mono_bind; [apply mono_update|intros; apply mono_ret]|apply mono_delete].
Qed.

Lemma mono_history kvs root : mono (history kvs root).
Proof.
  revert root. induction kvs as [|[key value] kvs IH]; intros root s Hs; [done|]. cbn [history].
  pose proof (mono_Update root key value s Hs) as Hu. destruct (Update root key value s) as [[] s1]; try done; by apply IH.
Qed.

(** One step of a history, on a set or a deleted key. *)
Lemma Update_step s root L m key value r s' :
  contents s root L m -> length key = L -> Update root key value s = (r, s') -> clash s' = false ->
  table s ⊆ table s' /\
  exists root', (r = ROk root' \/ (exists e, r = RErr e) /\ root' = root) /\
    contents s' root' L (set_key m (key, value)).
Proof.
  intros Hc Hk E Hcl. unfold set_key. simpl. destruct (Nat.eqb_spec (length value) 0) as [Hv|Hv].
  - apply nil_length_inv in Hv as ->.
    destruct (Delete_contents s root L m key Hc Hk r s' E Hcl) as [Hsub H]. split; [done|].
    destruct (m !! key) eqn:Em; [destruct H as (root' & -> & Hc'); eauto|subst].
    exists root. split; [eauto|]. rewrite delete_id by done. by eapply contents_weaken.
  - destruct (Update_contents s root L m key Hc Hk value r s' ltac:(by intros ->) E Hcl) as [Hsub (h & -> & Hc')]. eauto.
Qed.

Lemma history_spec kvs s root L m r s' :
  contents s root L m -> Forall (fun kv => length kv.1 = L) kvs ->
  history kvs root s = (r, s') -> clash s' = false ->
  table s ⊆ table s' /\ exists root', r = ROk root' /\ contents s' root' L (final kvs m).
Proof.
  revert s root m. induction kvs as [|[key value] kvs IH]; intros s root m Hc Hk E Hcl.
  { injection E as <- <-. eauto. }
  apply Forall_cons in Hk as [Hk Hks]. cbn [history] in E. destruct (Update root key value s) as [r1 s1] eqn:Eu.
  destruct (clash s1) eqn:Hcl1.
  { pose proof (fun k => mono_history kvs k s1 Hcl1) as Hh.
    destruct r1 as [root1|e| |]; [specialize (Hh root1)|specialize (Hh root)|simplify_eq|simplify_eq];
      congruence || (rewrite E in Hh; simpl in Hh; congruence). }
  destruct (Update_step _ _ _ _ _ _ _ _ Hc Hk Eu Hcl1) as [Hsub (root1 & H & Hc1)].
  assert (history kvs root1 s1 = (r, s')) as E1 by (destruct H as [->|[[e ->] ->]]; exact E).
  destruct (IH _ _ _ Hc1 Hks E1 Hcl) as [Hsub' H']. split; [by etrans|exact H'].
Qed.

Lemma contents_empty s L : contents s None L ∅.
Proof. exists (fun _ => None). split; [by apply rep_empty|]. intros. by rewrite lookup_empty. Qed.

Lemma final_keys kvs L m : Forall (fun kv => length kv.1 = L) kvs ->
  (forall key, is_Some (m !! key) -> length key = L) -> forall key, is_Some (final kvs m !! key) -> length key = L.
Proof.
  revert m. induction kvs as [|[k v] kvs IH]; intros m Hk Hm; [done|]. apply Forall_cons in Hk as [Hk Hks].
  apply IH; [done|]. intros key [x Hx]. unfold set_key in Hx. simpl in *. destruct (length v =? 0).
  - apply lookup_delete_Some in Hx as [_ Hx]. eauto.
  - apply lookup_insert_Some in Hx as [[<- _]|[_ Hx]]; eauto.
Qed.

(** One root holds one map. *)
Lemma contents_inj s root L m m' : contents s root L m -> contents s root L m' ->
  (forall key, is_Some (m !! key) -> length key = L) -> (forall key, is_Some (m' !! key) -> length key = L) -> m = m'.
Proof.
  intros Hc Hc' Hd Hd'. assert (forall key, length key = L -> m !! key = m' !! key) as E.
  { intros key Hk. pose proof (Get_contents _ _ _ _ _ Hc Hk) as G. rewrite (Get_contents _ _ _ _ _ Hc' Hk) in G. congruence. }
  apply map_eq. intros key. destruct (decide (length key = L)) as [|Hn]; [by apply E|].
  destruct (m !! key) eqn:E1; [by destruct Hn; eauto|]. destruct (m' !! key) eqn:E2; [by destruct Hn; eauto|done].
Qed.

(** C5: the root hash identifies the contents: after two sequences of updates and deletions,
    the second in the table the first one left, each from the empty trie, neither run panics,
    and the two roots are equal exactly when the two resulting maps are, as long as no two
    different nodes have the same SHA3 hash and none has the zero hash. *)
Theorem trie_root_canonical (s : TrieDb) (L : nat) (kvs1 kvs2 : list (bytes * bytes)) :
  Forall (fun kv => length kv.1 = L) (kvs1 ++ kvs2) ->
  clash (history kvs2 None (history kvs1 None s).2).2 = false ->
  exists root1 root2,
    (history kvs1 None s).1 = ROk root1 /\
    (history kvs2 None (history kvs1 None s).2).1 = ROk root2 /\
    (root1 = root2 <-> final kvs1 ∅ = final kvs2 ∅).
Proof.
  intros [Hk1 Hk2]%Forall_app Hcl. destruct (history kvs1 None s) as [r1 s1] eqn:E1. simpl in *.
  destruct (history kvs2 None s1) as [r2 s2] eqn:E2. simpl in *.
  assert (clash s1 = false) as Hcl1.
  { destruct (clash s1) eqn:H; [|done]. apply (mono_history kvs2 None) in H. rewrite E2 in H. simpl in H. congruence. }
  destruct (history_spec _ _ _ _ _ _ _ (contents_empty s L) Hk1 E1 Hcl1) as [_ (root1 & -> & Hc1)].
  destruct (history_spec _ _ _ _ _ _ _ (contents_empty s1 L) Hk2 E2 Hcl) as [Hsub (root2 & -> & Hc2)].
  pose proof (contents_weaken _ s2 _ _ _ Hc1 Hsub) as Hc1'.
  exists root1, root2. split; [done|]. split; [done|]. split.
  - intros <-. eapply contents_inj; [done|done|..]; apply final_keys; done || (intros ? [? Hx]; by rewrite lookup_empty in Hx).
  - intros Em. rewrite Em in Hc1'. by eapply contents_det.
Qed.

End WithCodec.

(** ** A concrete codec, digest and run *)

Module ToyTrie.

(** A byte is [01 c], the end of a string [00]. *)
Fixpoint enc_string (b : bytes) : bytes :=
  match b with [] => [x00] | c :: b => x01 :: c :: enc_string b end.

Fixpoint enc (v : list bytes) : bytes := match v with [] => [] | b :: v => enc_string b ++ enc v end.

Fixpoint dec (s : bytes) : option (list bytes) :=
  match s with
  | [] => Some []
  | x00 :: s => match dec s with Some v => Some ([] :: v) | None => None end
  | x01 :: c :: s => match dec s with Some (b :: v) => Some ((c :: b) :: v) | _ => None end
  | _ => None
  end.

#[global] Instance toy_trie_codec : TrieCodec := {| node_marshal := fun v => Some (enc v); node_unmarshal := dec |}.

#[global] Instance toy_trie_laws : TrieCodecLaws toy_trie_codec.
Proof.
  split; [by eexists|]. intros v b [= <-]. simpl. induction v as [|w v IH]; [done|]. simpl.
  induction w as [|c w IHw]; simpl; [by rewrite IH|by rewrite IHw].
Qed.

(** A polynomial digest. *)
Definition digest (b : bytes) : bytes := le_bytes 32 (foldl (fun a c => (a * 259 + b2z c + 1) mod 2 ^ 40)%Z 7%Z b).

#[local] Instance mixing : Crypto := {|
  sha256 := digest; ripemd160 := fun b => take 20 (digest b); sha3_256 := digest;
  Signature := bytes; PublicKey := bytes; SigFromBytes := Some; PublicKeyFromBytes := Some;
  VerifySignature := fun sg pk h => bool_decide (sg = pk ++ h);
  base58_Encode := String.string_of_list_byte; base58_Decode := String.list_byte_of_string
|}.

Definition empty : TrieDb := mkTrieDb ∅ false.

Definition kvs1 : list (bytes * bytes) := [([x12], [x01]); ([x13], [x02]); ([x55], [x03])].
Definition kvs2 : list (bytes * bytes) := [([x55], [x03]); ([x13], [x02]); ([x77], [x04]); ([x12], [x01]); ([x77], [])].

(** The trie after the first sequence. *)
Definition run1 : res (option bytes) * TrieDb := history (C := mixing) kvs1 None empty.
Definition root1 : option bytes := match run1.1 with ROk root => root | _ => None end.
Definition map1 : gmap bytes bytes := final kvs1 ∅.

Lemma contents1 : contents (C := mixing) run1.2 root1 1 map1.
Proof.
  destruct (history_spec (C := mixing) kvs1 empty None 1 ∅ run1.1 run1.2) as [_ (root & E & Hc)].
  - apply contents_empty.
  - repeat constructor.
  - unfold run1. by destruct (history kvs1 None empty).
  - vm_compute. reflexivity.
  - unfold root1. by rewrite E.
Qed.

End ToyTrie.

Lemma trie_is_map_witness :
  Get ToyTrie.root1 [x13] ToyTrie.run1.2 = (ROk (Some [x02]), ToyTrie.run1.2) /\
  exists root' s', Delete (C := ToyTrie.mixing) ToyTrie.root1 [x13] ToyTrie.run1.2 = (ROk root', s') /\
    contents (C := ToyTrie.mixing) s' root' 1 (base.delete [x13] ToyTrie.map1).
Proof.
  destruct (trie_is_map (C := ToyTrie.mixing) ToyTrie.run1.2 ToyTrie.root1 1
    ToyTrie.map1 [x13] [x09] ToyTrie.contents1 eq_refl ltac:(discriminate)) as (HG & _ & HD).
  assert (ToyTrie.map1 !! [x13] = Some [x02]) as Em by (vm_compute; reflexivity).
  rewrite Em in HG, HD. split; [exact HG|].
  destruct (Delete ToyTrie.root1 [x13] ToyTrie.run1.2) as [r s'] eqn:E.
  assert (clash s' = false) as Hcl.
  { apply (f_equal (fun p => clash p.2)) in E. simpl in E. rewrite <- E. vm_compute. reflexivity. }
  destruct (HD r s' eq_refl Hcl) as [_ (root' & -> & Hc)]. exists root', s'. split; [reflexivity|exact Hc].
Defined.

Lemma trie_root_canonical_witness :
  exists root1 root2,
    (history (C := ToyTrie.mixing) ToyTrie.kvs1 None ToyTrie.empty).1 = ROk root1 /\
    (history (C := ToyTrie.mixing) ToyTrie.kvs2 None (history (C := ToyTrie.mixing) ToyTrie.kvs1 None ToyTrie.empty).2).1 = ROk root2 /\
    root1 = root2.
Proof.
  destruct (trie_root_canonical (C := ToyTrie.mixing) ToyTrie.empty 1 ToyTrie.kvs1 ToyTrie.kvs2) as (root1 & root2 & E1 & E2 & [_ H]).
  - repeat constructor.
  - vm_compute. reflexivity.
  - exists root1, root2. split; [exact E1|]. split; [exact E2|]. apply H. apply map_eq. intros q.
    unfold final, set_key, ToyTrie.kvs1, ToyTrie.kvs2. cbn [foldl fst snd length Nat.eqb].
    rewrite lookup_delete, !lookup_insert, !lookup_empty.
    repeat case_decide; congruence.
Defined.
