(* ===== verification/EvmMath.v ===== *)
(** * EvmMath: the arithmetic of the virtual machine (src/vm/common/math, src/vm/common/bytes.go)

    Stack items of the virtual machine are [big.Int]s, modelled by [Z]; the operations of
    package math/big that the code uses are the first module.  [Module Math] is
    src/vm/common/math: truncation to 256 bits, two's complement, exponentiation by
    squaring over the machine words of the exponent, byte access, and the overflow-checked
    64-bit operations of the gas calculation. *)

From S2P Require Import Prelude.

(** ** Package math/big *)

Module Big.

Definition BitLen (x : Z) : Z := if (x =? 0)%Z then 0%Z else (Z.log2 (Z.abs x) + 1)%Z.

(** The low 64 bits of the absolute value. *)
Definition Uint64 (x : Z) : Z := u64 (Z.abs x).

Definition Int64 (x : Z) : Z :=
  let v := i64 (Z.abs x) in
  if (x <? 0)%Z then i64 (- v) else v.

(** The absolute value as little-endian machine words. *)
Fixpoint words (fuel : nat) (z : Z) : list Z :=
  match fuel with
  | O => []
  | S fuel => if (z =? 0)%Z then [] else (z mod 2 ^ 64)%Z :: words fuel (z / 2 ^ 64)
  end.

Definition Bits (x : Z) : list Z := words (Z.to_nat (BitLen x)) (Z.abs x).

(** [SetBytes] and [Bytes]. *)
Definition SetBytes (b : bytes) : Z := be_value b.
Definition Bytes (x : Z) : bytes := be_bytes x.

End Big.

(** ** Padding *)

(** [RightPadBytes]; the length is a Go [int]. *)
Definition RightPadBytes (slice : bytes) (l : Z) : bytes :=
  if (l <=? Z.of_nat (length slice))%Z then slice
  else slice ++ replicate (Z.to_nat l - length slice) x00.

Definition LeftPadBytes (slice : bytes) (l : Z) : bytes :=
  if (l <=? Z.of_nat (length slice))%Z then slice
  else replicate (Z.to_nat l - length slice) x00 ++ slice.

Module Math.

Definition tt255 : Z := 2 ^ 255.
Definition tt256 : Z := 2 ^ 256.
Definition tt256m1 : Z := tt256 - 1.

Definition wordBits : nat := 64.
Definition wordBytes : nat := 8.

Definition BigMax (x y : Z) : Z := if (x <? y)%Z then y else x.
Definition BigMin (x y : Z) : Z := if (y <? x)%Z then y else x.

Definition U256 (x : Z) : Z := Z.land x tt256m1.

Definition S256 (x : Z) : Z := if (x <? tt255)%Z then x else (x - tt256)%Z.

(** The inner loop of [Exp], over [n] bits of a word; it squares [base] in place. *)
Fixpoint expWord (n : nat) (word result base : Z) : Z * Z :=
  match n with
  | O => (result, base)
  | S n =>
      let result := if (Z.land word 1 =? 1)%Z then U256 (result * base) else result in
      expWord n (Z.shiftr word 1) result (U256 (base * base))
  end.

Fixpoint expLoop (ws : list Z) (result base : Z) : Z * Z :=
  match ws with
  | [] => (result, base)
  | word :: ws =>
      let '(result, base) := expWord wordBits word result base in
      expLoop ws result base
  end.

(** [Exp]: the result, and what [base] holds afterwards. *)
Definition Exp (base exponent : Z) : Z * Z := expLoop (Big.Bits exponent) 1 base.

Definition bigEndianByteAt (bigint : Z) (n : nat) : byte :=
  match Big.Bits bigint !! (n / wordBytes) with
  | None => x00
  | Some word => z2b (Z.shiftr word (8 * Z.of_nat (n mod wordBytes)))
  end.

Definition Byte (bigint : Z) (padlength n : nat) : byte :=
  if padlength <=? n then x00 else bigEndianByteAt bigint (padlength - 1 - n).

(** The inner loop of [ReadBits]: at most [j] bytes of the word [d], written downwards from
    index [i]. *)
Fixpoint readWord (j : nat) (d : Z) (i : nat) (buf : bytes) : nat * bytes :=
  match j, i with
  | S j, S i => readWord j (Z.shiftr d 8) i (<[i := z2b d]> buf)
  | _, _ => (i, buf)
  end.

Fixpoint readLoop (ws : list Z) (i : nat) (buf : bytes) : bytes :=
  match ws with
  | [] => buf
  | d :: ws => let '(i, buf) := readWord wordBytes d i buf in readLoop ws i buf
  end.

Definition ReadBits (bigint : Z) (buf : bytes) : bytes := readLoop (Big.Bits bigint) (length buf) buf.

Definition PaddedBigBytes (bigint : Z) (n : nat) : bytes :=
  if (Z.of_nat n <=? Big.BitLen bigint / 8)%Z then Big.Bytes bigint
  else ReadBits bigint (replicate n x00).

Definition MaxUint64 : Z := 2 ^ 64 - 1.

Definition SafeSub (x y : Z) : Z * bool := (u64 (x - y), (x <? y)%Z).
Definition SafeAdd (x y : Z) : Z * bool := (u64 (x + y), (MaxUint64 - x <? y)%Z).
Definition SafeMul (x y : Z) : Z * bool :=
  if (x =? 0)%Z || (y =? 0)%Z then (0%Z, false) else (u64 (x * y), (MaxUint64 / x <? y)%Z).

End Math.

(** ** Facts *)

Import Math.

(** A 256-bit word. *)
Definition word (x : Z) : Prop := (0 <= x < 2 ^ 256)%Z.

Lemma tt256_pos : (0 < 2 ^ 256)%Z.
Proof. lia. Qed.

Lemma U256_mod x : U256 x = (x mod 2 ^ 256)%Z.
Proof. unfold U256, tt256m1, tt256. rewrite <- Z.land_ones by lia. by rewrite Z.ones_equiv. Qed.

Lemma U256_word x : word (U256 x).
Proof. rewrite U256_mod. apply Z.mod_pos_bound. lia. Qed.

Lemma U256_small x : word x -> U256 x = x.
Proof. intros. rewrite U256_mod. by apply Z.mod_small. Qed.

Lemma S256_range x : word x -> (- 2 ^ 255 <= S256 x < 2 ^ 255)%Z.
Proof. unfold word, S256, tt255, tt256. intros. case_match; bool_to_prop; lia. Qed.

Lemma U256_S256 x : word x -> U256 (S256 x) = x.
Proof.
  intros H. rewrite U256_mod. unfold S256, tt256. case_match; [by apply Z.mod_small|].
  replace (x - 2 ^ 256)%Z with (x + (-1) * 2 ^ 256)%Z by lia. rewrite Z.mod_add by lia. by apply Z.mod_small.
Qed.

(** *** Exponentiation *)

(** Congruence modulo 2^256. *)
Inductive cong (a b : Z) : Prop := mk_cong (_ : (a mod 2 ^ 256 = b mod 2 ^ 256)%Z).

#[export] Instance cong_equiv : Equivalence cong.
Proof. split; repeat intros []; repeat intro; constructor; congruence. Qed.

#[export] Instance cong_mul : Proper (cong ==> cong ==> cong) Z.mul.
Proof.
  intros a a' [Ha] b b' [Hb]. constructor. rewrite (Z.mul_mod a b), (Z.mul_mod a' b'), Ha, Hb by lia. done.
Qed.

#[export] Instance cong_pow : Proper (cong ==> eq ==> cong) Z.pow.
Proof.
  intros a a' Ha n ? <-. destruct (decide (0 <= n)%Z) as [Hn|Hn]; [|by rewrite !Z.pow_neg_r by lia].
  pattern n. apply natlike_ind; [by rewrite !Z.pow_0_r| |done]. intros k Hk IH.
  rewrite !Z.pow_succ_r by done. by apply cong_mul.
Qed.

Lemma cong_U256 x : cong (U256 x) x.
Proof. constructor. rewrite U256_mod. apply Z.mod_mod. lia. Qed.

Lemma cong_word x y : cong x y -> word x -> x = (y mod 2 ^ 256)%Z.
Proof. intros [<-] Hx. symmetry. by apply Z.mod_small. Qed.

Lemma land_1 w : Z.land w 1 = (w mod 2)%Z.
Proof. change 1%Z with (Z.ones 1). by rewrite Z.land_ones. Qed.

Lemma mod_pow_succ w n :
  (0 <= w)%Z -> (w mod 2 ^ Z.of_nat (S n) = w mod 2 + 2 * ((w / 2) mod 2 ^ Z.of_nat n))%Z.
Proof.
  intros. rewrite Nat2Z.inj_succ, Z.pow_succ_r by lia.
  rewrite Z.rem_mul_r by lia. lia.
Qed.

Lemma expWord_spec n w r b r' b' :
  (0 <= w)%Z -> word r -> expWord n w r b = (r', b') ->
  word r' /\ cong r' (r * b ^ (w mod 2 ^ Z.of_nat n)) /\ cong b' (b ^ (2 ^ Z.of_nat n)).
Proof.
  revert w r b. induction n as [|n IH]; intros w r b Hw Hr E.
  { injection E as <- <-. rewrite Z.mod_1_r, !Z.pow_0_r, Z.mul_1_r, Z.pow_1_r. done. }
  cbn [expWord] in E. apply IH in E as (Hr' & Er & Eb); [|by apply Z.shiftr_nonneg|].
  2: { case_match; [apply U256_word|done]. }
  rewrite land_1, Z.shiftr_div_pow2, Z.pow_1_r in Er by lia. rewrite (cong_U256 (b * b)) in Er, Eb.
  split; [done|]. rewrite Er, Eb. split.
  - rewrite mod_pow_succ by done. pose proof (Z.mod_pos_bound (w / 2) (2 ^ Z.of_nat n) ltac:(lia)).
    pose proof (Z.mod_pos_bound w 2 ltac:(lia)). rewrite Z.pow_add_r, Z.pow_mul_r, Z.pow_2_r by lia.
    destruct (Z.eqb_spec (w mod 2) 1) as [->|Hne].
    + rewrite cong_U256, Z.pow_1_r. by rewrite Z.mul_assoc.
    + assert (w mod 2 = 0)%Z as -> by lia. by rewrite Z.pow_0_r, Z.mul_1_l.
  - rewrite Nat2Z.inj_succ, Z.pow_succ_r, Z.pow_mul_r, Z.pow_2_r by lia. done.
Qed.

(** The number a list of words stands for. *)
Fixpoint words_value (ws : list Z) : Z :=
  match ws with [] => 0 | w :: ws => w + 2 ^ 64 * words_value ws end.

Lemma words_ok fuel z :
  (0 <= z < 2 ^ (64 * Z.of_nat fuel))%Z ->
  words_value (Big.words fuel z) = z /\ Forall (fun w => 0 <= w < 2 ^ 64)%Z (Big.words fuel z).
Proof.
  revert z. induction fuel as [|n IH]; intros z Hz; [simpl in Hz; split; [simpl; lia|constructor]|].
  cbn [Big.words]. destruct (Z.eqb_spec z 0); [subst; split; [done|constructor]|].
  assert (0 <= z / 2 ^ 64 < 2 ^ (64 * Z.of_nat n))%Z as Hd.
  { split; [apply Z.div_pos; lia|]. apply Z.div_lt_upper_bound; [lia|].
    rewrite <- Z.pow_add_r by lia. replace (64 + 64 * Z.of_nat n)%Z with (64 * Z.of_nat (S n))%Z by lia. lia. }
  destruct (IH _ Hd) as [IHv IHf]. split.
  - cbn [words_value]. rewrite IHv. pose proof (Z.div_mod z (2 ^ 64) ltac:(lia)). lia.
  - constructor; [apply Z.mod_pos_bound; lia|done].
Qed.

Lemma Bits_ok x :
  words_value (Big.Bits x) = Z.abs x /\ Forall (fun w => 0 <= w < 2 ^ 64)%Z (Big.Bits x).
Proof.
  apply words_ok. split; [lia|]. unfold Big.BitLen. destruct (Z.eqb_spec x 0) as [->|Hx]; [done|].
  pose proof (Z.log2_nonneg (Z.abs x)). rewrite Z2Nat.id by lia.
  pose proof (Z.log2_spec (Z.abs x) ltac:(lia)) as [_ H1].
  eapply Z.lt_le_trans; [exact H1|]. apply Z.pow_le_mono_r; lia.
Qed.

Lemma words_value_nonneg ws : Forall (fun w => 0 <= w < 2 ^ 64)%Z ws -> (0 <= words_value ws)%Z.
Proof. induction 1; simpl; lia. Qed.

Lemma expLoop_spec ws r b :
  Forall (fun w => 0 <= w < 2 ^ 64)%Z ws -> word r ->
  word (expLoop ws r b).1 /\ cong (expLoop ws r b).1 (r * b ^ words_value ws).
Proof.
  revert r b. induction ws as [|w ws IH]; intros r b Hws Hr.
  { cbn [expLoop fst words_value]. by rewrite Z.pow_0_r, Z.mul_1_r. }
  apply Forall_cons in Hws as [Hw Hws]. cbn [expLoop]. destruct (expWord wordBits w r b) as [r1 b1] eqn:E.
  apply expWord_spec in E as (Hr1 & E1 & Eb); [|lia|done]. destruct (IH r1 b1 Hws Hr1) as [IH1 IH2].
  split; [done|]. rewrite IH2, E1, Eb. cbn [words_value]. change (Z.of_nat wordBits) with 64%Z.
  pose proof (words_value_nonneg ws Hws). rewrite (Z.mod_small w) by lia.
  rewrite Z.pow_add_r, Z.pow_mul_r by lia. by rewrite Z.mul_assoc.
Qed.

Lemma Exp_pow base exponent : (0 <= exponent)%Z -> (Exp base exponent).1 = (base ^ exponent mod 2 ^ 256)%Z.
Proof.
  intros He. unfold Exp. destruct (Bits_ok exponent) as [Hv Hw].
  destruct (expLoop_spec _ 1 base Hw ltac:(unfold word; lia)) as [H1 H2].
  rewrite Hv, Z.abs_eq, Z.mul_1_l in H2 by done. by apply cong_word.
Qed.

(** *** Byte access *)

(** The 32-byte big-endian form of a word. *)
Definition be32 (x : Z) : bytes := reverse (le_bytes 32 x).

Lemma le_bytes_app n m z : le_bytes (n + m) z = le_bytes n z ++ le_bytes m (z / 256 ^ Z.of_nat n).
Proof.
  revert z. induction n as [|n IH]; intros z; [by rewrite Z.pow_0_r, Z.div_1_r|].
  cbn [Nat.add le_bytes app]. rewrite IH, Nat2Z.inj_succ, Z.pow_succ_r, Z.div_div by lia. done.
Qed.

Lemma le_bytes_0 n : le_bytes n 0 = replicate n x00.
Proof. induction n as [|n IH]; [done|]. cbn [le_bytes replicate]. by rewrite Z.div_0_l, IH. Qed.

(** The low bytes do not depend on the high part. *)
Lemma le_bytes_low n k a b : n <= k -> le_bytes n (a + 256 ^ Z.of_nat k * b) = le_bytes n a.
Proof.
  revert k a. induction n as [|n IH]; intros k a Hk; [done|]. destruct k as [|k]; [lia|]. cbn [le_bytes].
  rewrite Nat2Z.inj_succ, Z.pow_succ_r by lia.
  replace (a + 256 * 256 ^ Z.of_nat k * b)%Z with (a + (256 ^ Z.of_nat k * b) * 256)%Z by lia.
  rewrite Z.div_add by lia. rewrite IH by lia. f_equal.
  rewrite <- (z2b_mod (a + _)), Z.mod_add, z2b_mod by lia. done.
Qed.

(** One word, written downwards over zeroes. *)
Lemma readWord_spec j i d t :
  readWord j d i (replicate i x00 ++ t) =
  (i - j, replicate (i - j) x00 ++ reverse (le_bytes (min j i) d) ++ t).
Proof.
  revert i d t. induction j as [|j IH]; intros i d t; [by destruct i|].
  destruct i as [|i]; [done|]. cbn [readWord].
  replace (replicate (S i) x00 ++ t) with (replicate i x00 ++ x00 :: t)
    by (rewrite replicate_S_end, <- app_assoc; done).
  rewrite insert_app_r_alt by (rewrite length_replicate; lia). rewrite length_replicate, Nat.sub_diag. cbn [insert list_insert].
  rewrite IH, Z.shiftr_div_pow2 by lia. cbn [Nat.sub Nat.min le_bytes]. change (2 ^ 8)%Z with 256%Z.
  by rewrite reverse_cons, <- !app_assoc.
Qed.

Lemma readLoop_spec ws i t :
  Forall (fun w => 0 <= w < 2 ^ 64)%Z ws ->
  readLoop ws i (replicate i x00 ++ t) = reverse (le_bytes i (words_value ws)) ++ t.
Proof.
  revert i t. induction ws as [|w ws IH]; intros i t Hws.
  { cbn [readLoop words_value]. by rewrite le_bytes_0, reverse_replicate. }
  apply Forall_cons in Hws as [Hw Hws]. cbn [readLoop]. rewrite readWord_spec.
  rewrite IH by done. cbn [words_value]. change (2 ^ 64)%Z with (256 ^ Z.of_nat 8)%Z. unfold wordBytes.
  destruct (decide (8 <= i)) as [Hi|Hi].
  - replace (min 8 i) with 8 by lia. set (v := (w + _)%Z).
    assert (le_bytes i v = le_bytes (8 + (i - 8)) v) as -> by (f_equal; lia). subst v.
    rewrite le_bytes_app, reverse_app, <- app_assoc. f_equal; [f_equal; f_equal|by rewrite le_bytes_low].
    rewrite Z.mul_comm, Z.div_add, Z.div_small by lia. lia.
  - replace (i - 8) with 0 by lia. replace (min 8 i) with i by lia. by rewrite le_bytes_low by lia.
Qed.

Lemma ReadBits_be n x : (0 <= x)%Z -> ReadBits x (replicate n x00) = reverse (le_bytes n x).
Proof.
  intros Hx. unfold ReadBits. rewrite length_replicate. destruct (Bits_ok x) as [Hv Hw].
  pose proof (readLoop_spec _ n [] Hw) as E. rewrite !app_nil_r, Hv, Z.abs_eq in E by done. done.
Qed.

Lemma be_value_snoc b bs : be_value (bs ++ [b]) = (256 * be_value bs + b2z b)%Z.
Proof. rewrite be_value_app. cbn [length]. unfold be_value at 2. simpl. lia. Qed.

Lemma be_value_reverse bs : be_value (reverse bs) = le_value bs.
Proof.
  induction bs as [|b bs IH]; [done|]. rewrite reverse_cons, be_value_snoc, IH. cbn [le_value]. lia.
Qed.

Lemma be_value_be32 x : word x -> be_value (be32 x) = x.
Proof. intros Hx. unfold be32. by rewrite be_value_reverse, le_value_le_bytes_small. Qed.

Lemma length_be32 x : length (be32 x) = 32.
Proof. unfold be32. by rewrite length_reverse, length_le_bytes. Qed.

Lemma be_value_bound bs : (be_value bs < 256 ^ Z.of_nat (length bs))%Z.
Proof.
  rewrite <- (reverse_involutive bs), be_value_reverse, length_reverse. apply le_value_bound.
Qed.

(** Word [i] of a number. *)
Lemma words_lookup ws i :
  Forall (fun w => 0 <= w < 2 ^ 64)%Z ws ->
  default 0%Z (ws !! i) = ((words_value ws / 2 ^ (64 * Z.of_nat i)) mod 2 ^ 64)%Z.
Proof.
  revert i. induction ws as [|w ws IH]; intros i Hws; [by destruct i; rewrite Z.div_0_l by lia|].
  apply Forall_cons in Hws as [Hw Hws]. cbn [words_value]. destruct i as [|i].
  - rewrite Z.div_1_r, Z.mul_comm, Z.mod_add, Z.mod_small by lia. done.
  - cbn [lookup list_lookup]. change (list_lookup i ws) with (ws !! i). rewrite IH by done.
    replace (64 * Z.of_nat (S i))%Z with (64 + 64 * Z.of_nat i)%Z by lia.
    rewrite Z.pow_add_r, <- Z.div_div by lia. do 2 f_equal.
    rewrite Z.mul_comm, Z.div_add, Z.div_small by lia. lia.
Qed.

Lemma bigEndianByteAt_spec x n : (0 <= x)%Z ->
  b2z (bigEndianByteAt x n) = ((x / 256 ^ Z.of_nat n) mod 256)%Z.
Proof.
  intros Hx. destruct (Bits_ok x) as [Hv Hw]. rewrite Z.abs_eq in Hv by done.
  pose proof (words_lookup _ (n / wordBytes) Hw) as El. rewrite Hv in El.
  pose proof (Nat.div_mod n wordBytes ltac:(done)) as Hn. unfold wordBytes in *.
  assert (b2z (bigEndianByteAt x n) =
    (default 0 (Big.Bits x !! (n / 8)%nat) / 2 ^ (8 * Z.of_nat (n mod 8))) mod 256)%Z as ->.
  { unfold bigEndianByteAt, wordBytes. destruct (Big.Bits x !! (n / 8)) as [w|]; simpl;
      [|by rewrite Z.div_0_l by lia]. rewrite b2z_z2b, Z.shiftr_div_pow2 by lia. done. }
  rewrite El. set (q := n / 8) in *. set (r := n mod 8) in *.
  assert (r < 8) as Hr by (apply Nat.mod_upper_bound; lia).
  assert (256 ^ Z.of_nat n = 2 ^ (64 * Z.of_nat q) * 2 ^ (8 * Z.of_nat r))%Z as ->.
  { change 256%Z with (2 ^ 8)%Z. rewrite <- Z.pow_mul_r, <- Z.pow_add_r by lia. f_equal. lia. }
  rewrite <- Z.div_div by lia. set (y := (x / 2 ^ (64 * Z.of_nat q))%Z).
  assert (2 ^ 64 = 2 ^ (8 * Z.of_nat r) * (256 * 2 ^ (8 * (7 - Z.of_nat r))))%Z as ->.
  { change 256%Z with (2 ^ 8)%Z. rewrite <- !Z.pow_add_r by lia. f_equal. lia. }
  rewrite Z.rem_mul_r by lia. rewrite (Z.mul_comm (2 ^ (8 * Z.of_nat r))), Z.div_add by lia.
  rewrite (Z.div_small (y mod _)) by (apply Z.mod_pos_bound; lia). rewrite Z.add_0_l.
  rewrite Z.rem_mul_r by lia. rewrite (Z.mul_comm 256), Z.mod_add by lia. apply Z.mod_mod. lia.
Qed.

Lemma Uint64_small x : (0 <= x < 2 ^ 64)%Z -> Big.Uint64 x = x.
Proof. intros. unfold Big.Uint64. rewrite Z.abs_eq by lia. by apply u64_small. Qed.
