(* ===== verification/EvmOpcode.v ===== *)
(** * EvmOpcode: the instruction set of the virtual machine (src/vm/opcodes.go)

    The families PUSH1..PUSH32, DUP1..DUP16, SWAP1..SWAP16 and LOG0..LOG4 are constructors
    with an index.  The mnemonic tables are those of the source, entry by entry. *)

From S2P Require Import Prelude.

Inductive OpCode :=
| STOP | ADD | MUL | SUB | DIV | SDIV | MOD | SMOD | ADDMOD | MULMOD | EXP | SIGNEXTEND | LT
| GT | SLT | SGT | EQ | ISZERO | AND | OR | XOR | NOT | BYTE | SHL | SHR | SAR | SHA3 | ADDRESS
| BALANCE | ORIGIN | CALLER | CALLVALUE | CALLDATALOAD | CALLDATASIZE | CALLDATACOPY | CODESIZE
| CODECOPY | GASPRICE | EXTCODESIZE | EXTCODECOPY | RETURNDATASIZE | RETURNDATACOPY
| EXTCODEHASH | BLOCKHASH | COINBASE | TIMESTAMP | NUMBER | DIFFICULTY | GASLIMIT | POP | MLOAD
| MSTORE | MSTORE8 | SLOAD | SSTORE | JUMP | JUMPI | PC | MSIZE | GAS | JUMPDEST | PUSH | DUP
| SWAP | CREATE | CALL | CALLCODE | RETURN | DELEGATECALL | CREATE2 | STATICCALL | REVERT
| SELFDESTRUCT
| PUSHn (n : nat) | DUPn (n : nat) | SWAPn (n : nat) | LOGn (n : nat).

(** An injection into the integers, for deciding equality. *)
Definition op_tag (op : OpCode) : Z :=
  match op with
  | PUSHn n => 256 + 4 * Z.of_nat n
  | DUPn n => 257 + 4 * Z.of_nat n
  | SWAPn n => 258 + 4 * Z.of_nat n
  | LOGn n => 259 + 4 * Z.of_nat n
  | STOP => 0 | ADD => 1 | MUL => 2 | SUB => 3 | DIV => 4 | SDIV => 5 | MOD => 6 | SMOD => 7
  | ADDMOD => 8 | MULMOD => 9 | EXP => 10 | SIGNEXTEND => 11 | LT => 16 | GT => 17 | SLT => 18
  | SGT => 19 | EQ => 20 | ISZERO => 21 | AND => 22 | OR => 23 | XOR => 24 | NOT => 25
  | BYTE => 26 | SHL => 27 | SHR => 28 | SAR => 29 | SHA3 => 32 | ADDRESS => 48 | BALANCE => 49
  | ORIGIN => 50 | CALLER => 51 | CALLVALUE => 52 | CALLDATALOAD => 53 | CALLDATASIZE => 54
  | CALLDATACOPY => 55 | CODESIZE => 56 | CODECOPY => 57 | GASPRICE => 58 | EXTCODESIZE => 59
  | EXTCODECOPY => 60 | RETURNDATASIZE => 61 | RETURNDATACOPY => 62 | EXTCODEHASH => 63
  | BLOCKHASH => 64 | COINBASE => 65 | TIMESTAMP => 66 | NUMBER => 67 | DIFFICULTY => 68
  | GASLIMIT => 69 | POP => 80 | MLOAD => 81 | MSTORE => 82 | MSTORE8 => 83 | SLOAD => 84
  | SSTORE => 85 | JUMP => 86 | JUMPI => 87 | PC => 88 | MSIZE => 89 | GAS => 90
  | JUMPDEST => 91 | PUSH => 176 | DUP => 177 | SWAP => 178 | CREATE => 240 | CALL => 241
  | CALLCODE => 242 | RETURN => 243 | DELEGATECALL => 244 | CREATE2 => 245 | STATICCALL => 250
  | REVERT => 253 | SELFDESTRUCT => 255
  end%Z.

Definition op_untag (z : Z) : OpCode :=
  if (z <? 256)%Z then
    match z2b z with
    | x00 => STOP | x01 => ADD | x02 => MUL | x03 => SUB | x04 => DIV | x05 => SDIV
    | x06 => MOD | x07 => SMOD | x08 => ADDMOD | x09 => MULMOD | x0a => EXP | x0b => SIGNEXTEND
    | x10 => LT | x11 => GT | x12 => SLT | x13 => SGT | x14 => EQ | x15 => ISZERO | x16 => AND
    | x17 => OR | x18 => XOR | x19 => NOT | x1a => BYTE | x1b => SHL | x1c => SHR | x1d => SAR
    | x20 => SHA3 | x30 => ADDRESS | x31 => BALANCE | x32 => ORIGIN | x33 => CALLER
    | x34 => CALLVALUE | x35 => CALLDATALOAD | x36 => CALLDATASIZE | x37 => CALLDATACOPY
    | x38 => CODESIZE | x39 => CODECOPY | x3a => GASPRICE | x3b => EXTCODESIZE
    | x3c => EXTCODECOPY | x3d => RETURNDATASIZE | x3e => RETURNDATACOPY | x3f => EXTCODEHASH
    | x40 => BLOCKHASH | x41 => COINBASE | x42 => TIMESTAMP | x43 => NUMBER | x44 => DIFFICULTY
    | x45 => GASLIMIT | x50 => POP | x51 => MLOAD | x52 => MSTORE | x53 => MSTORE8
    | x54 => SLOAD | x55 => SSTORE | x56 => JUMP | x57 => JUMPI | x58 => PC | x59 => MSIZE
    | x5a => GAS | x5b => JUMPDEST | xb0 => PUSH | xb1 => DUP | xb2 => SWAP | xf0 => CREATE
    | xf1 => CALL | xf2 => CALLCODE | xf3 => RETURN | xf4 => DELEGATECALL | xf5 => CREATE2
    | xfa => STATICCALL | xfd => REVERT | xff => SELFDESTRUCT
    | _ => STOP
    end
  else
    let n := Z.to_nat ((z - 256) / 4) in
    match ((z - 256) mod 4)%Z with 0%Z => PUSHn n | 1%Z => DUPn n | 2%Z => SWAPn n | _ => LOGn n end.

Lemma op_untag_tag op : op_untag (op_tag op) = op.
Proof.
  assert (forall c k n, (0 <= k < 4)%Z -> (c = 256 + k)%Z -> ((c + 4 * Z.of_nat n - 256) / 4 = Z.of_nat n /\
    (c + 4 * Z.of_nat n - 256) mod 4 = k)%Z) as H.
  { intros c k n Hk ->. replace (256 + k + 4 * Z.of_nat n - 256)%Z with (k + Z.of_nat n * 4)%Z by lia.
    rewrite Z.div_add, Z.mod_add, Z.div_small, Z.mod_small by lia. lia. }
  destruct op; try reflexivity; unfold op_untag, op_tag; rewrite (proj2 (Z.ltb_ge _ _)) by lia.
  1: destruct (H 256 0 n ltac:(lia) eq_refl)%Z as [-> ->]. 2: destruct (H 257 1 n ltac:(lia) eq_refl)%Z as [-> ->].
  3: destruct (H 258 2 n ltac:(lia) eq_refl)%Z as [-> ->]. 4: destruct (H 259 3 n ltac:(lia) eq_refl)%Z as [-> ->].
  all: by rewrite Nat2Z.id.
Qed.

#[global] Instance OpCode_eq_dec : EqDecision OpCode.
Proof.
  refine (fun a b => cast_if (decide (op_tag a = op_tag b))); [|congruence].
  by rewrite <- (op_untag_tag a), <- (op_untag_tag b), e.
Defined.

Module OpCode.

(** The opcode of a byte, if it has one. *)
Definition of_byte (b : byte) : option OpCode :=
  let z := b2z b in
  if (0x60 <=? z)%Z && (z <=? 0x7f)%Z then Some (PUSHn (Z.to_nat (z - 0x5f)))
  else if (0x80 <=? z)%Z && (z <=? 0x8f)%Z then Some (DUPn (Z.to_nat (z - 0x7f)))
  else if (0x90 <=? z)%Z && (z <=? 0x9f)%Z then Some (SWAPn (Z.to_nat (z - 0x8f)))
  else if (0xa0 <=? z)%Z && (z <=? 0xa4)%Z then Some (LOGn (Z.to_nat (z - 0xa0)))
  else
    match b with
    | x00 => Some STOP | x01 => Some ADD | x02 => Some MUL | x03 => Some SUB | x04 => Some DIV
    | x05 => Some SDIV | x06 => Some MOD | x07 => Some SMOD | x08 => Some ADDMOD
    | x09 => Some MULMOD | x0a => Some EXP | x0b => Some SIGNEXTEND | x10 => Some LT
    | x11 => Some GT | x12 => Some SLT | x13 => Some SGT | x14 => Some EQ | x15 => Some ISZERO
    | x16 => Some AND | x17 => Some OR | x18 => Some XOR | x19 => Some NOT | x1a => Some BYTE
    | x1b => Some SHL | x1c => Some SHR | x1d => Some SAR | x20 => Some SHA3
    | x30 => Some ADDRESS | x31 => Some BALANCE | x32 => Some ORIGIN | x33 => Some CALLER
    | x34 => Some CALLVALUE | x35 => Some CALLDATALOAD | x36 => Some CALLDATASIZE
    | x37 => Some CALLDATACOPY | x38 => Some CODESIZE | x39 => Some CODECOPY
    | x3a => Some GASPRICE | x3b => Some EXTCODESIZE | x3c => Some EXTCODECOPY
    | x3d => Some RETURNDATASIZE | x3e => Some RETURNDATACOPY | x3f => Some EXTCODEHASH
    | x40 => Some BLOCKHASH | x41 => Some COINBASE | x42 => Some TIMESTAMP | x43 => Some NUMBER
    | x44 => Some DIFFICULTY | x45 => Some GASLIMIT | x50 => Some POP | x51 => Some MLOAD
    | x52 => Some MSTORE | x53 => Some MSTORE8 | x54 => Some SLOAD | x55 => Some SSTORE
    | x56 => Some JUMP | x57 => Some JUMPI | x58 => Some PC | x59 => Some MSIZE
    | x5a => Some GAS | x5b => Some JUMPDEST | xb0 => Some PUSH | xb1 => Some DUP
    | xb2 => Some SWAP | xf0 => Some CREATE | xf1 => Some CALL | xf2 => Some CALLCODE
    | xf3 => Some RETURN | xf4 => Some DELEGATECALL | xf5 => Some CREATE2
    | xfa => Some STATICCALL | xfd => Some REVERT | xff => Some SELFDESTRUCT
    | _ => None
    end.

Definition to_byte (op : OpCode) : byte :=
  match op with
  | PUSHn n => z2b (0x5f + Z.of_nat n)
  | DUPn n => z2b (0x7f + Z.of_nat n)
  | SWAPn n => z2b (0x8f + Z.of_nat n)
  | LOGn n => z2b (0xa0 + Z.of_nat n)
  | STOP => x00 | ADD => x01 | MUL => x02 | SUB => x03 | DIV => x04 | SDIV => x05 | MOD => x06
  | SMOD => x07 | ADDMOD => x08 | MULMOD => x09 | EXP => x0a | SIGNEXTEND => x0b | LT => x10
  | GT => x11 | SLT => x12 | SGT => x13 | EQ => x14 | ISZERO => x15 | AND => x16 | OR => x17
  | XOR => x18 | NOT => x19 | BYTE => x1a | SHL => x1b | SHR => x1c | SAR => x1d | SHA3 => x20
  | ADDRESS => x30 | BALANCE => x31 | ORIGIN => x32 | CALLER => x33 | CALLVALUE => x34
  | CALLDATALOAD => x35 | CALLDATASIZE => x36 | CALLDATACOPY => x37 | CODESIZE => x38
  | CODECOPY => x39 | GASPRICE => x3a | EXTCODESIZE => x3b | EXTCODECOPY => x3c
  | RETURNDATASIZE => x3d | RETURNDATACOPY => x3e | EXTCODEHASH => x3f | BLOCKHASH => x40
  | COINBASE => x41 | TIMESTAMP => x42 | NUMBER => x43 | DIFFICULTY => x44 | GASLIMIT => x45
  | POP => x50 | MLOAD => x51 | MSTORE => x52 | MSTORE8 => x53 | SLOAD => x54 | SSTORE => x55
  | JUMP => x56 | JUMPI => x57 | PC => x58 | MSIZE => x59 | GAS => x5a | JUMPDEST => x5b
  | PUSH => xb0 | DUP => xb1 | SWAP => xb2 | CREATE => xf0 | CALL => xf1 | CALLCODE => xf2
  | RETURN => xf3 | DELEGATECALL => xf4 | CREATE2 => xf5 | STATICCALL => xfa | REVERT => xfd
  | SELFDESTRUCT => xff
  end.

Definition IsPush (op : OpCode) : bool := match op with PUSHn n => (1 <=? n) && (n <=? 32) | _ => false end.

Definition IsStaticJump (op : OpCode) : bool := match op with JUMP => true | _ => false end.

Definition opCodeToString : list (OpCode * string) := [
  (STOP, "STOP"); (ADD, "ADD"); (MUL, "MUL"); (SUB, "SUB"); (DIV, "DIV"); (SDIV, "SDIV");
  (MOD, "MOD"); (SMOD, "SMOD"); (EXP, "EXP"); (NOT, "NOT"); (LT, "LT"); (GT, "GT");
  (SLT, "SLT"); (SGT, "SGT"); (EQ, "EQ"); (ISZERO, "ISZERO"); (SIGNEXTEND, "SIGNEXTEND");
  (AND, "AND"); (OR, "OR"); (XOR, "XOR"); (BYTE, "BYTE"); (SHL, "SHL"); (SHR, "SHR");
  (SAR, "SAR"); (ADDMOD, "ADDMOD"); (MULMOD, "MULMOD"); (SHA3, "SHA3"); (ADDRESS, "ADDRESS");
  (BALANCE, "BALANCE"); (ORIGIN, "ORIGIN"); (CALLER, "CALLER"); (CALLVALUE, "CALLVALUE");
  (CALLDATALOAD, "CALLDATALOAD"); (CALLDATASIZE, "CALLDATASIZE");
  (CALLDATACOPY, "CALLDATACOPY"); (CODESIZE, "CODESIZE"); (CODECOPY, "CODECOPY");
  (GASPRICE, "GASPRICE"); (EXTCODESIZE, "EXTCODESIZE"); (EXTCODECOPY, "EXTCODECOPY");
  (RETURNDATASIZE, "RETURNDATASIZE"); (RETURNDATACOPY, "RETURNDATACOPY");
  (EXTCODEHASH, "EXTCODEHASH"); (BLOCKHASH, "BLOCKHASH"); (COINBASE, "COINBASE");
  (TIMESTAMP, "TIMESTAMP"); (NUMBER, "NUMBER"); (DIFFICULTY, "DIFFICULTY");
  (GASLIMIT, "GASLIMIT"); (POP, "POP"); (MLOAD, "MLOAD"); (MSTORE, "MSTORE");
  (MSTORE8, "MSTORE8"); (SLOAD, "SLOAD"); (SSTORE, "SSTORE"); (JUMP, "JUMP"); (JUMPI, "JUMPI");
  (PC, "PC"); (MSIZE, "MSIZE"); (GAS, "GAS"); (JUMPDEST, "JUMPDEST"); (PUSHn 1, "PUSH1");
  (PUSHn 2, "PUSH2"); (PUSHn 3, "PUSH3"); (PUSHn 4, "PUSH4"); (PUSHn 5, "PUSH5");
  (PUSHn 6, "PUSH6"); (PUSHn 7, "PUSH7"); (PUSHn 8, "PUSH8"); (PUSHn 9, "PUSH9");
  (PUSHn 10, "PUSH10"); (PUSHn 11, "PUSH11"); (PUSHn 12, "PUSH12"); (PUSHn 13, "PUSH13");
  (PUSHn 14, "PUSH14"); (PUSHn 15, "PUSH15"); (PUSHn 16, "PUSH16"); (PUSHn 17, "PUSH17");
  (PUSHn 18, "PUSH18"); (PUSHn 19, "PUSH19"); (PUSHn 20, "PUSH20"); (PUSHn 21, "PUSH21");
  (PUSHn 22, "PUSH22"); (PUSHn 23, "PUSH23"); (PUSHn 24, "PUSH24"); (PUSHn 25, "PUSH25");
  (PUSHn 26, "PUSH26"); (PUSHn 27, "PUSH27"); (PUSHn 28, "PUSH28"); (PUSHn 29, "PUSH29");
  (PUSHn 30, "PUSH30"); (PUSHn 31, "PUSH31"); (PUSHn 32, "PUSH32"); (DUPn 1, "DUP1");
  (DUPn 2, "DUP2"); (DUPn 3, "DUP3"); (DUPn 4, "DUP4"); (DUPn 5, "DUP5"); (DUPn 6, "DUP6");
  (DUPn 7, "DUP7"); (DUPn 8, "DUP8"); (DUPn 9, "DUP9"); (DUPn 10, "DUP10"); (DUPn 11, "DUP11");
  (DUPn 12, "DUP12"); (DUPn 13, "DUP13"); (DUPn 14, "DUP14"); (DUPn 15, "DUP15");
  (DUPn 16, "DUP16"); (SWAPn 1, "SWAP1"); (SWAPn 2, "SWAP2"); (SWAPn 3, "SWAP3");
  (SWAPn 4, "SWAP4"); (SWAPn 5, "SWAP5"); (SWAPn 6, "SWAP6"); (SWAPn 7, "SWAP7");
  (SWAPn 8, "SWAP8"); (SWAPn 9, "SWAP9"); (SWAPn 10, "SWAP10"); (SWAPn 11, "SWAP11");
  (SWAPn 12, "SWAP12"); (SWAPn 13, "SWAP13"); (SWAPn 14, "SWAP14"); (SWAPn 15, "SWAP15");
  (SWAPn 16, "SWAP16"); (LOGn 0, "LOG0"); (LOGn 1, "LOG1"); (LOGn 2, "LOG2"); (LOGn 3, "LOG3");
  (LOGn 4, "LOG4"); (CREATE, "CREATE"); (CALL, "CALL"); (RETURN, "RETURN");
  (CALLCODE, "CALLCODE"); (DELEGATECALL, "DELEGATECALL"); (CREATE2, "CREATE2");
  (STATICCALL, "STATICCALL"); (REVERT, "REVERT"); (SELFDESTRUCT, "SELFDESTRUCT");
  (PUSH, "PUSH"); (DUP, "DUP"); (SWAP, "SWAP")
]%string.

Definition stringToOp : list (string * OpCode) := [
  ("STOP", STOP); ("ADD", ADD); ("MUL", MUL); ("SUB", SUB); ("DIV", DIV); ("SDIV", SDIV);
  ("MOD", MOD); ("SMOD", SMOD); ("EXP", EXP); ("NOT", NOT); ("LT", LT); ("GT", GT);
  ("SLT", SLT); ("SGT", SGT); ("EQ", EQ); ("ISZERO", ISZERO); ("SIGNEXTEND", SIGNEXTEND);
  ("AND", AND); ("OR", OR); ("XOR", XOR); ("BYTE", BYTE); ("SHL", SHL); ("SHR", SHR);
  ("SAR", SAR); ("ADDMOD", ADDMOD); ("MULMOD", MULMOD); ("SHA3", SHA3); ("ADDRESS", ADDRESS);
  ("BALANCE", BALANCE); ("ORIGIN", ORIGIN); ("CALLER", CALLER); ("CALLVALUE", CALLVALUE);
  ("CALLDATALOAD", CALLDATALOAD); ("CALLDATASIZE", CALLDATASIZE);
  ("CALLDATACOPY", CALLDATACOPY); ("DELEGATECALL", DELEGATECALL); ("STATICCALL", STATICCALL);
  ("CODESIZE", CODESIZE); ("CODECOPY", CODECOPY); ("GASPRICE", GASPRICE);
  ("EXTCODESIZE", EXTCODESIZE); ("EXTCODECOPY", EXTCODECOPY);
  ("RETURNDATASIZE", RETURNDATASIZE); ("RETURNDATACOPY", RETURNDATACOPY);
  ("EXTCODEHASH", EXTCODEHASH); ("BLOCKHASH", BLOCKHASH); ("COINBASE", COINBASE);
  ("TIMESTAMP", TIMESTAMP); ("NUMBER", NUMBER); ("DIFFICULTY", DIFFICULTY);
  ("GASLIMIT", GASLIMIT); ("POP", POP); ("MLOAD", MLOAD); ("MSTORE", MSTORE);
  ("MSTORE8", MSTORE8); ("SLOAD", SLOAD); ("SSTORE", SSTORE); ("JUMP", JUMP); ("JUMPI", JUMPI);
  ("PC", PC); ("MSIZE", MSIZE); ("GAS", GAS); ("JUMPDEST", JUMPDEST); ("PUSH1", PUSHn 1);
  ("PUSH2", PUSHn 2); ("PUSH3", PUSHn 3); ("PUSH4", PUSHn 4); ("PUSH5", PUSHn 5);
  ("PUSH6", PUSHn 6); ("PUSH7", PUSHn 7); ("PUSH8", PUSHn 8); ("PUSH9", PUSHn 9);
  ("PUSH10", PUSHn 10); ("PUSH11", PUSHn 11); ("PUSH12", PUSHn 12); ("PUSH13", PUSHn 13);
  ("PUSH14", PUSHn 14); ("PUSH15", PUSHn 15); ("PUSH16", PUSHn 16); ("PUSH17", PUSHn 17);
  ("PUSH18", PUSHn 18); ("PUSH19", PUSHn 19); ("PUSH20", PUSHn 20); ("PUSH21", PUSHn 21);
  ("PUSH22", PUSHn 22); ("PUSH23", PUSHn 23); ("PUSH24", PUSHn 24); ("PUSH25", PUSHn 25);
  ("PUSH26", PUSHn 26); ("PUSH27", PUSHn 27); ("PUSH28", PUSHn 28); ("PUSH29", PUSHn 29);
  ("PUSH30", PUSHn 30); ("PUSH31", PUSHn 31); ("PUSH32", PUSHn 32); ("DUP1", DUPn 1);
  ("DUP2", DUPn 2); ("DUP3", DUPn 3); ("DUP4", DUPn 4); ("DUP5", DUPn 5); ("DUP6", DUPn 6);
  ("DUP7", DUPn 7); ("DUP8", DUPn 8); ("DUP9", DUPn 9); ("DUP10", DUPn 10); ("DUP11", DUPn 11);
  ("DUP12", DUPn 12); ("DUP13", DUPn 13); ("DUP14", DUPn 14); ("DUP15", DUPn 15);
  ("DUP16", DUPn 16); ("SWAP1", SWAPn 1); ("SWAP2", SWAPn 2); ("SWAP3", SWAPn 3);
  ("SWAP4", SWAPn 4); ("SWAP5", SWAPn 5); ("SWAP6", SWAPn 6); ("SWAP7", SWAPn 7);
  ("SWAP8", SWAPn 8); ("SWAP9", SWAPn 9); ("SWAP10", SWAPn 10); ("SWAP11", SWAPn 11);
  ("SWAP12", SWAPn 12); ("SWAP13", SWAPn 13); ("SWAP14", SWAPn 14); ("SWAP15", SWAPn 15);
  ("SWAP16", SWAPn 16); ("LOG0", LOGn 0); ("LOG1", LOGn 1); ("LOG2", LOGn 2); ("LOG3", LOGn 3);
  ("LOG4", LOGn 4); ("CREATE", CREATE); ("CREATE2", CREATE2); ("CALL", CALL);
  ("RETURN", RETURN); ("CALLCODE", CALLCODE); ("REVERT", REVERT); ("SELFDESTRUCT", SELFDESTRUCT)
]%string.

Fixpoint name_of (l : list (OpCode * string)) (op : OpCode) : option string :=
  match l with
  | [] => None
  | (op', s) :: l => if bool_decide (op = op') then Some s else name_of l op
  end.

(** [op.String()] on the opcodes that have a name. *)
Definition String_ (op : OpCode) : option string := name_of opCodeToString op.

Fixpoint op_of (l : list (string * OpCode)) (str : string) : OpCode :=
  match l with
  | [] => STOP
  | (s, op) :: l => if bool_decide (str = s) then op else op_of l str
  end.

(** [StringToOp]: a missing key of the Go map reads as the zero opcode. *)
Definition StringToOp (str : string) : OpCode := op_of stringToOp str.

(** ** Facts *)

Lemma of_byte_to_byte b op : of_byte b = Some op -> to_byte op = b.
Proof. intros E. destruct b; vm_compute in E; try discriminate E; injection E as <-; reflexivity. Qed.

Lemma of_byte_push b n : of_byte b = Some (PUSHn n) -> 1 <= n <= 32 /\ b2z b = (0x5f + Z.of_nat n)%Z.
Proof.
  intros E. destruct b; vm_compute in E; try discriminate E; injection E as <-; (split; [lia|reflexivity]).
Qed.

Definition names_agree (p : OpCode * string) : bool :=
  match p.1 with
  | PUSH | DUP | SWAP => true
  | op => bool_decide (StringToOp p.2 = op)
  end.

Lemma names_agree_all : forallb names_agree opCodeToString = true.
Proof. vm_compute. reflexivity. Qed.

End OpCode.
