(* ===== verification/EvmState.v ===== *)
(** * EvmState: the state database as the virtual machine sees it (src/vm/interface.go)

    The interface [StateDB] as a class of operations; getters return the database too,
    because implementations cache what they read.  [StateDBLaws] states what the machine
    relies on: an observation [obs] of the database that every operation reads or updates
    in the documented way, and snapshots that bring an earlier observation back. *)

From S2P Require Import Prelude Crypto.

(** Keccak-256, from golang.org/x/crypto/sha3. *)
Class Keccak := {
  keccak256 : bytes -> bytes;
  keccak256_length : forall b, length (keccak256 b) = 32
}.

(** The errors of the virtual machine (errors.go). *)
Inductive EvmErr :=
| ErrOutOfGas | ErrCodeStoreOutOfGas | ErrDepth | ErrInsufficientBalance | ErrContractAddressCollision
| ErrExecutionReverted | ErrMaxCodeSizeExceeded | ErrWriteProtection | ErrReturnDataOutOfBounds
| ErrGasUintOverflow | ErrInvalidOpcode | ErrStackUnderflow | ErrStackLimit | ErrInvalidJump
| ErrPrecompile.

#[global] Instance EvmErr_eq_dec : EqDecision EvmErr.
Proof. solve_decision. Defined.

Record Log := mkLog {
  log_Address : bytes;
  log_Topics : list bytes;
  log_Data : bytes;
  log_BlockNumber : Z;
  log_TxHash : bytes;
  log_BlockHash : bytes;
  log_TxIndex : Z;
  log_Index : Z
}.

(** ** The interface *)

Class StateDB := {
  sdb : Type;
  CreateAccount : bytes -> sdb -> go (unit * sdb);
  SubBalance : bytes -> Z -> sdb -> go (unit * sdb);
  AddBalance : bytes -> Z -> sdb -> go (unit * sdb);
  GetBalance : bytes -> sdb -> go (Z * sdb);
  GetNonce : bytes -> sdb -> go (Z * sdb);
  SetNonce : bytes -> Z -> sdb -> go (unit * sdb);
  GetCodeHash : bytes -> sdb -> go (bytes * sdb);
  GetCode : bytes -> sdb -> go (bytes * sdb);
  SetCode : bytes -> bytes -> sdb -> go (unit * sdb);
  GetCodeSize : bytes -> sdb -> go (Z * sdb);
  IsContractAddr : bytes -> sdb -> go (bool * sdb);
  SetError : option EvmErr -> sdb -> go (unit * sdb);
  AddRefund : Z -> sdb -> go (unit * sdb);
  GetRefund : sdb -> go (Z * sdb);
  GetState : bytes -> bytes -> sdb -> go (bytes * sdb);
  SetState : bytes -> bytes -> bytes -> sdb -> go (unit * sdb);
  Suicide : bytes -> sdb -> go (bool * sdb);
  HasSuicided : bytes -> sdb -> go (bool * sdb);
  Exist : bytes -> sdb -> go (bool * sdb);
  Empty : bytes -> sdb -> go (bool * sdb);
  RevertToSnapshot : nat -> sdb -> go (unit * sdb);
  Snapshot : sdb -> go (nat * sdb);
  AddLog : Log -> sdb -> go (unit * sdb);
  AddPreimage : bytes -> bytes -> sdb -> go (unit * sdb);
  GetLogs : bytes -> sdb -> go (list Log * sdb)
}.

(** ** Observations *)

(** An account: its nonce, balance, code with its hash, storage, and whether it has
    self-destructed in this transaction. *)
Record Acct := mkAcct {
  a_nonce : Z;
  a_balance : Z;
  a_codeHash : bytes;
  a_code : bytes;
  a_storage : bytes -> bytes;
  a_suicided : bool
}.

Record Obs := mkObs {
  o_acct : bytes -> option Acct;
  o_refund : Z;
  o_logs : bytes -> list Log;
  o_logSize : Z;
  o_tx : bytes * bytes * Z
}.

Definition fupd {A} (f : bytes -> A) (a : bytes) (v : A) : bytes -> A :=
  fun x => if decide (x = a) then v else f x.

Lemma fupd_eq {A} (f : bytes -> A) a v : fupd f a v a = v.
Proof. unfold fupd. by rewrite decide_True. Qed.

Lemma fupd_ne {A} (f : bytes -> A) a b v : b <> a -> fupd f a v b = f b.
Proof. intros. unfold fupd. by rewrite decide_False. Qed.

Section Observations.
Context `{K : Keccak}.

Definition emptyCodeHash : bytes := keccak256 [].

Definition newAcct : Acct := mkAcct 0 0 emptyCodeHash [] (fun _ => Crypto.ZeroHash) false.

(** What the getters answer about an address without an account. *)
Definition balance (o : Obs) (a : bytes) : Z := default 0%Z (a_balance <$> o_acct o a).
Definition nonce (o : Obs) (a : bytes) : Z := default 0%Z (a_nonce <$> o_acct o a).
Definition code (o : Obs) (a : bytes) : bytes := default [] (a_code <$> o_acct o a).
Definition codeHash (o : Obs) (a : bytes) : bytes := default Crypto.ZeroHash (a_codeHash <$> o_acct o a).
Definition storage (o : Obs) (a k : bytes) : bytes :=
  match o_acct o a with Some c => a_storage c k | None => Crypto.ZeroHash end.
Definition suicided (o : Obs) (a : bytes) : bool := default false (a_suicided <$> o_acct o a).
Definition exist (o : Obs) (a : bytes) : bool := match o_acct o a with Some _ => true | None => false end.

Definition acct_empty (c : Acct) : bool :=
  (a_nonce c =? 0)%Z && (a_balance c =? 0)%Z && bool_decide (a_codeHash c = emptyCodeHash).

Definition empty (o : Obs) (a : bytes) : bool :=
  match o_acct o a with Some c => acct_empty c | None => true end.

Definition set_acct (a : bytes) (c : Acct) (o : Obs) : Obs :=
  mkObs (fupd (o_acct o) a (Some c)) (o_refund o) (o_logs o) (o_logSize o) (o_tx o).

(** Change an account, which is created if there is none. *)
Definition on_acct (a : bytes) (f : Acct -> Acct) (o : Obs) : Obs :=
  set_acct a (f (default newAcct (o_acct o a))) o.

Definition set_balance (v : Z) (c : Acct) : Acct :=
  mkAcct (a_nonce c) v (a_codeHash c) (a_code c) (a_storage c) (a_suicided c).
Definition set_nonce (v : Z) (c : Acct) : Acct :=
  mkAcct v (a_balance c) (a_codeHash c) (a_code c) (a_storage c) (a_suicided c).
Definition set_code (v : bytes) (c : Acct) : Acct :=
  mkAcct (a_nonce c) (a_balance c) (keccak256 v) v (a_storage c) (a_suicided c).
Definition set_storage (k v : bytes) (c : Acct) : Acct :=
  mkAcct (a_nonce c) (a_balance c) (a_codeHash c) (a_code c) (fupd (a_storage c) k v) (a_suicided c).
Definition set_suicided (c : Acct) : Acct :=
  mkAcct (a_nonce c) 0 (a_codeHash c) (a_code c) (a_storage c) true.

Definition set_refund (v : Z) (o : Obs) : Obs := mkObs (o_acct o) v (o_logs o) (o_logSize o) (o_tx o).

(** A log is stored under the hash of the running transaction and stamped with its
    position. *)
Definition stamp (o : Obs) (l : Log) : Log :=
  let '(thash, bhash, txIndex) := o_tx o in
  mkLog (log_Address l) (log_Topics l) (log_Data l) (log_BlockNumber l) thash bhash (u32 txIndex) (u32 (o_logSize o)).

Definition add_log (l : Log) (o : Obs) : Obs :=
  let thash := (o_tx o).1.1 in
  mkObs (o_acct o) (o_refund o) (fupd (o_logs o) thash (o_logs o thash ++ [stamp o l])) (u64 (o_logSize o + 1)) (o_tx o).

(** ** Laws *)

Definition id_obs (o : Obs) : Obs := o.

(** How a database is observed. *)
Class StateDBView (D : StateDB) := {
  (** The databases the laws are about. *)
  sdb_ok : sdb -> Prop;
  obs : sdb -> Obs;
  (** The snapshots that can be returned to, the latest first, and the next identifier. *)
  snaps : sdb -> list (nat * Obs);
  next : sdb -> nat
}.

(** An operation answers from the observation and changes it in the given way. *)
Definition op_spec {D : StateDB} {V : StateDBView D} {A} (op : sdb -> go (A * sdb)) (ans : Obs -> A) (upd : Obs -> Obs) : Prop :=
  forall s, sdb_ok s -> exists s', op s = Returns (ans (obs s), s') /\ sdb_ok s' /\
    obs s' = upd (obs s) /\ snaps s' = snaps s /\ next s' = next s.

(** Addresses are arrays of 20 bytes, storage keys and values arrays of 32. *)
Class StateDBLaws (D : StateDB) (V : StateDBView D) : Prop := {
  law_CreateAccount a : length a = 20 -> op_spec (CreateAccount a) (fun _ => tt)
    (fun o => set_acct a (set_balance (balance o a) newAcct) o);
  law_SubBalance a v : length a = 20 -> op_spec (SubBalance a v) (fun _ => tt)
    (fun o => on_acct a (set_balance (balance o a - v)) o);
  law_AddBalance a v : length a = 20 -> op_spec (AddBalance a v) (fun _ => tt)
    (fun o => on_acct a (set_balance (balance o a + v)) o);
  law_GetBalance a : length a = 20 -> op_spec (GetBalance a) (fun o => balance o a) id_obs;
  law_GetNonce a : length a = 20 -> op_spec (GetNonce a) (fun o => nonce o a) id_obs;
  law_SetNonce a v : length a = 20 -> op_spec (SetNonce a v) (fun _ => tt) (on_acct a (set_nonce v));
  law_GetCodeHash a : length a = 20 -> op_spec (GetCodeHash a) (fun o => codeHash o a) id_obs;
  law_GetCode a : length a = 20 -> op_spec (GetCode a) (fun o => code o a) id_obs;
  law_SetCode a c : length a = 20 -> op_spec (SetCode a c) (fun _ => tt) (on_acct a (set_code c));
  law_GetCodeSize a : length a = 20 -> op_spec (GetCodeSize a) (fun o => Z.of_nat (length (code o a))) id_obs;
  law_IsContractAddr a : length a = 20 -> op_spec (IsContractAddr a) (fun o => negb (length (code o a) =? 0)) id_obs;
  law_SetError e : op_spec (SetError e) (fun _ => tt) id_obs;
  law_AddRefund v : op_spec (AddRefund v) (fun _ => tt) (fun o => set_refund (u64 (o_refund o + v)) o);
  law_GetRefund : op_spec GetRefund o_refund id_obs;
  law_GetState a k : length a = 20 -> length k = 32 -> op_spec (GetState a k) (fun o => storage o a k) id_obs;
  law_SetState a k v : length a = 20 -> length k = 32 -> length v = 32 -> op_spec (SetState a k v) (fun _ => tt) (on_acct a (set_storage k v));
  law_Suicide a : length a = 20 -> op_spec (Suicide a) (fun o => exist o a)
    (fun o => match o_acct o a with Some c => set_acct a (set_suicided c) o | None => o end);
  law_HasSuicided a : length a = 20 -> op_spec (HasSuicided a) (fun o => suicided o a) id_obs;
  law_Exist a : length a = 20 -> op_spec (Exist a) (fun o => exist o a) id_obs;
  law_Empty a : length a = 20 -> op_spec (Empty a) (fun o => empty o a) id_obs;
  law_AddLog l : op_spec (AddLog l) (fun _ => tt) (add_log l);
  law_AddPreimage h p : op_spec (AddPreimage h p) (fun _ => tt) id_obs;
  law_GetLogs h : op_spec (GetLogs h) (fun o => o_logs o h) id_obs;

  snaps_fresh s : sdb_ok s -> Forall (fun p => p.1 < next s) (snaps s);
  law_Snapshot s : sdb_ok s -> exists s', Snapshot s = Returns (next s, s') /\ sdb_ok s' /\
    obs s' = obs s /\ snaps s' = (next s, obs s) :: snaps s /\ next s' = S (next s);
  law_RevertToSnapshot s id o later earlier : sdb_ok s ->
    snaps s = later ++ (id, o) :: earlier -> id ∉ later.*1 ->
    exists s', RevertToSnapshot id s = Returns (tt, s') /\ sdb_ok s' /\
      obs s' = o /\ snaps s' = earlier /\ next s' = next s
}.

End Observations.

(** ** The abstract database

    Observations with a stack of snapshots, the specification as a database; it satisfies
    the laws, and serves as a concrete instance. *)

Module RefDB.
Section RefDB.
Context `{K : Keccak}.

Record ref := mkRef { r_obs : Obs; r_snaps : list (nat * Obs); r_next : nat }.

Definition ref_op {A} (ans : Obs -> A) (upd : Obs -> Obs) (s : ref) : go (A * ref) :=
  Returns (ans (r_obs s), mkRef (upd (r_obs s)) (r_snaps s) (r_next s)).

Definition ref_set (upd : Obs -> Obs) : ref -> go (unit * ref) := ref_op (fun _ => tt) upd.
Definition ref_get {A} (ans : Obs -> A) : ref -> go (A * ref) := ref_op ans id_obs.

(** The snapshot [id] and the ones before it. *)
Fixpoint find_snap (id : nat) (l : list (nat * Obs)) : option (Obs * list (nat * Obs)) :=
  match l with
  | [] => None
  | (i, o) :: l => if decide (i = id) then Some (o, l) else find_snap id l
  end.

Definition ref_revert (id : nat) (s : ref) : go (unit * ref) :=
  match find_snap id (r_snaps s) with
  | None => Panics
  | Some (o, l) => Returns (tt, mkRef o l (r_next s))
  end.

Definition ref_snapshot (s : ref) : go (nat * ref) :=
  Returns (r_next s, mkRef (r_obs s) ((r_next s, r_obs s) :: r_snaps s) (S (r_next s))).

#[export] Instance RefDB : StateDB := {|
  sdb := ref;
  CreateAccount a := ref_set (fun o => set_acct a (set_balance (balance o a) newAcct) o);
  SubBalance a v := ref_set (fun o => on_acct a (set_balance (balance o a - v)) o);
  AddBalance a v := ref_set (fun o => on_acct a (set_balance (balance o a + v)) o);
  GetBalance a := ref_get (fun o => balance o a);
  GetNonce a := ref_get (fun o => nonce o a);
  SetNonce a v := ref_set (on_acct a (set_nonce v));
  GetCodeHash a := ref_get (fun o => codeHash o a);
  GetCode a := ref_get (fun o => code o a);
  SetCode a c := ref_set (on_acct a (set_code c));
  GetCodeSize a := ref_get (fun o => Z.of_nat (length (code o a)));
  IsContractAddr a := ref_get (fun o => negb (length (code o a) =? 0));
  SetError e := ref_set id_obs;
  AddRefund v := ref_set (fun o => set_refund (u64 (o_refund o + v)) o);
  GetRefund := ref_get o_refund;
  GetState a k := ref_get (fun o => storage o a k);
  SetState a k v := ref_set (on_acct a (set_storage k v));
  Suicide a := ref_op (fun o => exist o a)
    (fun o => match o_acct o a with Some c => set_acct a (set_suicided c) o | None => o end);
  HasSuicided a := ref_get (fun o => suicided o a);
  Exist a := ref_get (fun o => exist o a);
  Empty a := ref_get (fun o => empty o a);
  RevertToSnapshot := ref_revert;
  Snapshot := ref_snapshot;
  AddLog l := ref_set (add_log l);
  AddPreimage h p := ref_set id_obs;
  GetLogs h := ref_get (fun o => o_logs o h)
|}.

#[export] Instance RefView : StateDBView RefDB := @Build_StateDBView RefDB
  (fun s : ref => Forall (fun p => p.1 < r_next s) (r_snaps s)) r_obs r_snaps r_next.

Lemma ref_op_spec {A} (ans : Obs -> A) upd : op_spec (D := RefDB) (V := RefView) (ref_op ans upd) ans upd.
Proof. intros s Hs. eexists. split_and!; [done|exact Hs|done..]. Qed.

Lemma find_snap_spec id o later earlier :
  id ∉ later.*1 -> find_snap id (later ++ (id, o) :: earlier) = Some (o, earlier).
Proof.
  induction later as [|[i o'] later IH]; intros H; cbn [find_snap app].
  - by rewrite decide_True.
  - apply not_elem_of_cons in H as [Hi H]. rewrite decide_False by done. auto.
Qed.

#[export] Instance RefLaws : StateDBLaws RefDB RefView.
Proof.
  constructor; try (intros; apply ref_op_spec).
  - by intros s Hs.
  - intros s Hs. eexists. split_and!; [done| |done..]. cbn in *. constructor; [simpl; lia|].
    eapply Forall_impl; [exact Hs|]. simpl. lia.
  - intros s id o later earlier Hs E Hn. cbn in *. unfold ref_revert. rewrite E, find_snap_spec by done.
    eexists. split_and!; [done| |done..]. cbn. rewrite E, Forall_app, Forall_cons in Hs. by destruct Hs as (_ & _ & Hs).
Qed.

End RefDB.
End RefDB.
