(* ===== verification/EvmMachine.v ===== *)
(** * EvmMachine: frames of the virtual machine (src/vm: stack.go, memory.go, contract.go,
      analysis.go, common.go, stack_table.go)

    A [Machine] is what one call of the interpreter works on: program counter, stack,
    memory, remaining gas, and the part shared by all frames of a transaction ([Global]).
    The [big.Int] objects of the stack are owned by the stack or by the pool that recycles
    them, so a stack is a list of numbers, the top first.  Operations run in the monad [X]:
    a Go error, a panic, or [XFuel] where the model runs out of fuel (never, as is proved).

    The cache of jump-destination analyses is kept by code hash; the model stores with an
    analysis the code it was made from, which no operation reads but to set the ghost flag
    [g_clash]: two different codes with one Keccak hash. *)

From S2P Require Import Prelude Crypto EvmMath EvmOpcode EvmState.

Inductive xres (A : Type) := XOk (a : A) | XErr (e : EvmErr) | XPanic | XFuel.
Arguments XOk {_} _.
Arguments XErr {_} _.
Arguments XPanic {_}.
Arguments XFuel {_}.

(** [TransferInfo] and [ContractCreatedItem] of src/vm/evm.go. *)
Record TransferInfo := mkTransferInfo { ti_From : bytes; ti_To : bytes; ti_Value : Z }.

Record ContractCreatedItem := mkCreated { cc_Caller : bytes; cc_Address : bytes; cc_Nonce : Z; cc_Value : Z }.

Abbreviation bitvec := (list byte).

Record Global `{D : StateDB} := mkGlobal {
  g_db : sdb;
  g_returnData : bytes;
  g_callGasTemp : Z;
  g_Transfers : gmap bytes (list TransferInfo);
  g_Created : list ContractCreatedItem;
  g_jumpdests : gmap bytes (bytes * bitvec);
  g_clash : bool
}.

Record Machine `{D : StateDB} := mkMachine {
  m_pc : Z;
  m_stack : list Z;
  m_store : bytes;
  m_lastGasCost : Z;
  m_gas : Z;
  m_analysis : option bitvec;
  m_g : Global
}.

Arguments mkGlobal {_} _ _ _ _ _ _ _.
Arguments mkMachine {_} _ _ _ _ _ _ _.

(** The fixed part of a [Contract]. *)
Record Contract := mkContract {
  c_CallerAddress : bytes;
  c_self : bytes;
  c_Code : bytes;
  c_CodeHash : bytes;
  c_CodeAddr : option bytes;
  c_Input : bytes;
  c_value : Z
}.

(** ** Code analysis *)

Module Analysis.

(** [bits[i] |= m]. *)
Definition or_at (bits : bitvec) (i : nat) (m : Z) : go bitvec :=
  match bits !! i with
  | None => Panics
  | Some b => Returns (<[i := z2b (Z.lor (b2z b) m)]> bits)
  end.

Definition set (bits : bitvec) (pos : Z) : go bitvec :=
  or_at bits (Z.to_nat (pos / 8)) (Z.shiftr 0x80 (pos mod 8)).

Definition set8 (bits : bitvec) (pos : Z) : go bitvec :=
  let m := Z.shiftr 0xff (pos mod 8) in
  bits ← or_at bits (Z.to_nat (pos / 8)) m;
  or_at bits (Z.to_nat (pos / 8) + 1) (Z.lxor 0xff m).

Definition codeSegment (bits : bitvec) (pos : Z) : go bool :=
  match bits !! Z.to_nat (pos / 8) with
  | None => Panics
  | Some b => Returns (Z.land (b2z b) (Z.shiftr 0x80 (pos mod 8)) =? 0)%Z
  end.

(** The two inner loops: whole bytes, then single bits. *)
Fixpoint markBytes (numbits : nat) (bits : bitvec) (pc : Z) : go (bitvec * Z) :=
  match numbits with
  | S (S (S (S (S (S (S (S n))))))) => bits ← set8 bits pc; markBytes n bits (pc + 8)
  | _ => Returns (bits, pc)
  end.

Fixpoint markBits (numbits : nat) (bits : bitvec) (pc : Z) : go (bitvec * Z) :=
  match numbits with
  | O => Returns (bits, pc)
  | S n => bits ← set bits pc; markBits n bits (pc + 1)
  end.

(** The loop of [codeBitmap] from [pc], with fuel for the bytes that are left. *)
Fixpoint bitmapLoop (fuel : nat) (code : bytes) (bits : bitvec) (pc : Z) : go bitvec :=
  match fuel with
  | O => Returns bits
  | S fuel =>
      match code !! Z.to_nat pc with
      | None => Returns bits
      | Some op =>
          let z := b2z op in
          if (0x60 <=? z)%Z && (z <=? 0x7f)%Z then
            let numbits := Z.to_nat (z - 0x60 + 1) in
            '(bits, pc) ← markBytes numbits bits (pc + 1);
            '(bits, pc) ← markBits (numbits mod 8) bits pc;
            bitmapLoop fuel code bits pc
          else bitmapLoop fuel code bits (pc + 1)
      end
  end.

Definition codeBitmap (code : bytes) : go bitvec :=
  bitmapLoop (length code) code (replicate (length code / 8 + 1 + 4) x00) 0.

End Analysis.

(** ** The monad *)

(** State, error, panic and fuel; the state is kept by an error. *)
Definition ST (S A : Type) : Type := S -> xres A * S.

#[global] Instance ST_ret S : MRet (ST S) := fun A a s => (XOk a, s).
#[global] Instance ST_bind S : MBind (ST S) := fun A B k c s =>
  match c s with
  | (XOk a, s) => k a s
  | (XErr e, s) => (XErr e, s)
  | (XPanic, s) => (XPanic, s)
  | (XFuel, s) => (XFuel, s)
  end.

Definition fail {S A} (e : EvmErr) : ST S A := fun s => (XErr e, s).
Definition panic {S A} : ST S A := fun s => (XPanic, s).
Definition out_of_fuel {S A} : ST S A := fun s => (XFuel, s).
Definition gets {S A} (f : S -> A) : ST S A := fun s => (XOk (f s), s).
Definition modify {S} (f : S -> S) : ST S unit := fun s => (XOk tt, f s).

Definition lift_go {S A} (r : go A) : ST S A := fun s =>
  match r with Returns a => (XOk a, s) | Panics => (XPanic, s) end.

(** An error as a value, as [if err != nil] sees it. *)
Definition try {S A} (c : ST S A) : ST S (A + EvmErr) := fun s =>
  match c s with
  | (XOk a, s) => (XOk (inl a), s)
  | (XErr e, s) => (XOk (inr e), s)
  | (XPanic, s) => (XPanic, s)
  | (XFuel, s) => (XFuel, s)
  end.

(** Operations of a frame, and operations on the shared part. *)
Abbreviation X := (ST Machine).
Abbreviation G := (ST Global).

Section Machine.
Context {D : StateDB}.

Definition with_pc (m : Machine) (pc : Z) : Machine :=
  mkMachine pc (m_stack m) (m_store m) (m_lastGasCost m) (m_gas m) (m_analysis m) (m_g m).
Definition with_stack (m : Machine) (st : list Z) : Machine :=
  mkMachine (m_pc m) st (m_store m) (m_lastGasCost m) (m_gas m) (m_analysis m) (m_g m).
Definition with_store (m : Machine) (s : bytes) : Machine :=
  mkMachine (m_pc m) (m_stack m) s (m_lastGasCost m) (m_gas m) (m_analysis m) (m_g m).
Definition with_lastGasCost (m : Machine) (c : Z) : Machine :=
  mkMachine (m_pc m) (m_stack m) (m_store m) c (m_gas m) (m_analysis m) (m_g m).
Definition with_gas (m : Machine) (g : Z) : Machine :=
  mkMachine (m_pc m) (m_stack m) (m_store m) (m_lastGasCost m) g (m_analysis m) (m_g m).
Definition with_analysis (m : Machine) (a : option bitvec) : Machine :=
  mkMachine (m_pc m) (m_stack m) (m_store m) (m_lastGasCost m) (m_gas m) a (m_g m).
Definition with_g (m : Machine) (g : Global) : Machine :=
  mkMachine (m_pc m) (m_stack m) (m_store m) (m_lastGasCost m) (m_gas m) (m_analysis m) g.

Definition with_db (g : Global) (d : sdb) : Global :=
  mkGlobal d (g_returnData g) (g_callGasTemp g) (g_Transfers g) (g_Created g) (g_jumpdests g) (g_clash g).
Definition with_returnData (g : Global) (r : bytes) : Global :=
  mkGlobal (g_db g) r (g_callGasTemp g) (g_Transfers g) (g_Created g) (g_jumpdests g) (g_clash g).
Definition with_callGasTemp (g : Global) (c : Z) : Global :=
  mkGlobal (g_db g) (g_returnData g) c (g_Transfers g) (g_Created g) (g_jumpdests g) (g_clash g).
Definition with_jumpdests (g : Global) (j : gmap bytes (bytes * bitvec)) (clash : bool) : Global :=
  mkGlobal (g_db g) (g_returnData g) (g_callGasTemp g) (g_Transfers g) (g_Created g) j clash.

(** An operation of the state database. *)
Definition db {A} (op : sdb -> go (A * sdb)) : G A := fun g =>
  match op (g_db g) with
  | Panics => (XPanic, g)
  | Returns (a, d) => (XOk a, with_db g d)
  end.

(** An operation on the shared part, within a frame. *)
Definition shared {A} (c : G A) : X A := fun m => let '(r, g) := c (m_g m) in (r, with_g m g).

(** ** The stack *)

Definition push (d : Z) : X unit := modify (fun m => with_stack m (d :: m_stack m)).

Definition pop : X Z := fun m =>
  match m_stack m with
  | [] => (XPanic, m)
  | d :: st => (XOk d, with_stack m st)
  end.

(** [Back(n)]: item [n] from the top. *)
Definition Back (n : nat) : X Z := fun m =>
  match m_stack m !! n with None => (XPanic, m) | Some d => (XOk d, m) end.

Definition swap (n : nat) : X unit := fun m =>
  match m_stack m !! (n - 1), m_stack m !! 0 with
  | Some x, Some y => (XOk tt, with_stack m (<[0 := x]> (<[n - 1 := y]> (m_stack m))))
  | _, _ => (XPanic, m)
  end.

Definition dup (n : nat) : X unit :=
  d ← Back (n - 1);
  push d.

Definition StackLimit : nat := 1024.

(** [makeStackFunc]. *)
Definition makeStackFunc (pops pushes : nat) (st : list Z) : option EvmErr :=
  if length st <? pops then Some ErrStackUnderflow
  else if StackLimit + pops <? length st + pushes then Some ErrStackLimit
  else None.

Definition makeDupStackFunc (n : nat) : list Z -> option EvmErr := makeStackFunc n (n + 1).
Definition makeSwapStackFunc (n : nat) : list Z -> option EvmErr := makeStackFunc n n.

(** ** Memory: accesses outside of the store are panics *)

(** [copy(store[lo:hi], value)]. *)
Definition write_at (store : bytes) (lo hi : Z) (value : bytes) : go bytes :=
  if (hi <? lo)%Z || (Z.of_nat (length store) <? hi)%Z then Panics
  else
    let n := min (Z.to_nat (hi - lo)) (length value) in
    Returns (take (Z.to_nat lo) store ++ take n value ++ drop (Z.to_nat lo + n) store).

Definition read_at (store : bytes) (lo hi : Z) : go bytes :=
  if (lo <? 0)%Z || (hi <? lo)%Z || (Z.of_nat (length store) <? hi)%Z then Panics
  else Returns (take (Z.to_nat (hi - lo)) (drop (Z.to_nat lo) store)).

Definition memory_Set (offset size : Z) (value : bytes) : X unit :=
  if (0 <? size)%Z then
    store ← gets m_store;
    if (Z.of_nat (length store) <? u64 (offset + size))%Z then panic
    else
      store ← lift_go (write_at store offset (u64 (offset + size)) value);
      modify (fun m => with_store m store)
  else mret tt.

Definition memory_Set32 (offset : Z) (val : Z) : X unit :=
  store ← gets m_store;
  if (Z.of_nat (length store) <? u64 (offset + 32))%Z then panic
  else
    store ← lift_go (write_at store offset (u64 (offset + 32)) (replicate 32 x00));
    area ← lift_go (read_at store offset (u64 (offset + 32)));
    store ← lift_go (write_at store offset (u64 (offset + 32)) (Math.ReadBits val area));
    modify (fun m => with_store m store).

Definition memory_Resize (size : Z) : X unit :=
  modify (fun m =>
    if (Z.of_nat (length (m_store m)) <? size)%Z
    then with_store m (m_store m ++ replicate (Z.to_nat size - length (m_store m)) x00) else m).

(** [Get] and [GetPtr]; the contents are the same, and no frame writes to its memory after
    it has handed out a pointer. *)
Definition memory_Get (offset size : Z) : X bytes :=
  if (size =? 0)%Z then mret []
  else
    store ← gets m_store;
    if (offset <? Z.of_nat (length store))%Z
    then lift_go (read_at store offset (i64 (offset + size)))
    else mret [].

Definition memory_GetPtr (offset size : Z) : X bytes := memory_Get offset size.

(** ** Helpers of common.go *)

Definition calcMemSize (off l : Z) : Z := if (l =? 0)%Z then 0%Z else (off + l)%Z.

Definition slice_of (data : bytes) (lo hi : Z) : go bytes := read_at data lo hi.

Definition getData (data : bytes) (start size : Z) : go bytes :=
  let length := Z.of_nat (length data) in
  let start := if (length <? start)%Z then length else start in
  let fin := u64 (start + size) in
  let fin := if (length <? fin)%Z then length else fin in
  s ← slice_of data start fin;
  Returns (RightPadBytes s (i64 size)).

Definition getDataBig (data : bytes) (start size : Z) : go bytes :=
  let dlen := Z.of_nat (length data) in
  let s := Math.BigMin start dlen in
  let e := Math.BigMin (s + size) dlen in
  d ← slice_of data (Big.Uint64 s) (Big.Uint64 e);
  Returns (RightPadBytes d (i64 (Big.Uint64 size))).

Definition bigUint64 (v : Z) : Z * bool := (Big.Uint64 v, (64 <? Big.BitLen v)%Z).

Definition toWordSize (size : Z) : Z :=
  if (Math.MaxUint64 - 31 <? size)%Z then (Math.MaxUint64 / 32 + 1)%Z else ((size + 31) / 32)%Z.

Definition allZero (b : bytes) : bool := forallb (fun x => bool_decide (x = x00)) b.

(** ** The contract *)

Definition GetByte (c : Contract) (n : Z) : byte :=
  if (n <? Z.of_nat (length (c_Code c)))%Z then default x00 (c_Code c !! Z.to_nat n) else x00.

Definition UseGas (gas : Z) : X bool := fun m =>
  if (m_gas m <? gas)%Z then (XOk false, m)
  else (XOk true, with_gas m (u64 (m_gas m - gas))).

Definition validJumpdest (c : Contract) (dest : Z) : X bool :=
  let udest := Big.Uint64 dest in
  if (63 <=? Big.BitLen dest)%Z || (Z.of_nat (length (c_Code c)) <=? udest)%Z then mret false
  else if negb (bool_decide (GetByte c udest = x5b)) then mret false
  else if negb (bool_decide (c_CodeHash c = Crypto.ZeroHash)) then
    g ← gets m_g;
    match g_jumpdests g !! c_CodeHash c with
    | Some (code, analysis) =>
        _ ← modify (fun m => with_g m (with_jumpdests g (g_jumpdests g)
              (g_clash g || negb (bool_decide (code = c_Code c)))));
        lift_go (Analysis.codeSegment analysis udest)
    | None =>
        analysis ← lift_go (Analysis.codeBitmap (c_Code c));
        _ ← modify (fun m => with_g m (with_jumpdests g
              (<[c_CodeHash c := (c_Code c, analysis)]> (g_jumpdests g)) (g_clash g)));
        lift_go (Analysis.codeSegment analysis udest)
    end
  else
    cached ← gets m_analysis;
    analysis ← match cached with
               | Some a => mret a
               | None =>
                   a ← lift_go (Analysis.codeBitmap (c_Code c));
                   _ ← modify (fun m => with_analysis m (Some a));
                   mret a
               end;
    lift_go (Analysis.codeSegment analysis udest).

End Machine.
