(* ===== verification/EvmGas.v ===== *)
(** * EvmGas: memory sizes and gas costs of the instructions (src/vm: memory_table.go,
      gas.go, gas_table.go; src/vm/common/types)

    A memory-size function reads the stack; a gas function may also read the state, count
    refunds, remember the fee of the memory it has charged, and leave the gas of the next
    call in [g_callGasTemp]. *)

From S2P Require Import Prelude Crypto EvmMath EvmState EvmMachine.

(** ** Prices *)

Record GasTable := mkGasTable {
  ExtcodeSize : Z; ExtcodeCopy : Z; ExtcodeHash : Z; Balance : Z; SLoad : Z;
  Calls_ : Z; Suicide_ : Z; ExpByte : Z; CreateBySuicide : Z
}.

Definition DefaultGasTable : GasTable := {|
  ExtcodeSize := 700; ExtcodeCopy := 700; ExtcodeHash := 400; Balance := 400; SLoad := 200;
  Calls_ := 700; Suicide_ := 5000; ExpByte := 50; CreateBySuicide := 25000
|}.

Module Params.

Definition CallValueTransferGas : Z := 9000.
Definition CallNewAccountGas : Z := 25000.
Definition QuadCoeffDiv : Z := 512.
Definition LogDataGas : Z := 8.
Definition CallStipend : Z := 2300.
Definition Sha3Gas : Z := 30.
Definition Sha3WordGas : Z := 6.
Definition SstoreSetGas : Z := 20000.
Definition SstoreResetGas : Z := 5000.
Definition SstoreClearGas : Z := 5000.
Definition SstoreRefundGas : Z := 15000.
Definition JumpdestGas : Z := 1.
Definition CreateDataGas : Z := 200.
Definition CallCreateDepth : Z := 1024.
Definition LogGas : Z := 375.
Definition CopyGas : Z := 3.
Definition LogTopicGas : Z := 375.
Definition CreateGas : Z := 32000.
Definition Create2Gas : Z := 32000.
Definition SuicideRefundGas : Z := 24000.
Definition MemoryGas : Z := 3.
Definition MaxCodeSize : Z := 24576.

Definition GasQuickStep : Z := 2.
Definition GasFastestStep : Z := 3.
Definition GasFastStep : Z := 5.
Definition GasMidStep : Z := 8.
Definition GasSlowStep : Z := 10.
Definition GasExtStep : Z := 20.

End Params.

Import Params.

(** [BytesToAddressHash], [BigToAddressHash] and [BigToHash]. *)
Definition AddressSize : nat := 20.
Definition BytesToAddressHash (b : bytes) : bytes := Crypto.SetBytes AddressSize (replicate AddressSize x00) b.
Definition BigToAddressHash (b : Z) : bytes := BytesToAddressHash (Big.Bytes b).
Definition BigToHash (b : Z) : bytes := Crypto.BytesToHash (Big.Bytes b).
Arguments BytesToAddressHash : simpl never.
Arguments BigToAddressHash : simpl never.
Arguments BigToHash : simpl never.

Section Gas.
Context {D : StateDB}.

(** ** memory_table.go *)

Definition memory2 (off l : nat) : X Z :=
  o ← Back off;
  s ← Back l;
  mret (calcMemSize o s).

Definition memorySha3 : X Z := memory2 0 1.
Definition memoryCallDataCopy : X Z := memory2 0 2.
Definition memoryReturnDataCopy : X Z := memory2 0 2.
Definition memoryCodeCopy : X Z := memory2 0 2.
Definition memoryExtCodeCopy : X Z := memory2 1 3.
Definition memoryMLoad : X Z := o ← Back 0; mret (calcMemSize o 32).
Definition memoryMStore8 : X Z := o ← Back 0; mret (calcMemSize o 1).
Definition memoryMStore : X Z := o ← Back 0; mret (calcMemSize o 32).
Definition memoryCreate : X Z := memory2 1 2.
Definition memoryCreate2 : X Z := memory2 1 2.
Definition memoryCall : X Z := x ← memory2 5 6; y ← memory2 3 4; mret (Math.BigMax x y).
Definition memoryDelegateCall : X Z := x ← memory2 4 5; y ← memory2 2 3; mret (Math.BigMax x y).
Definition memoryStaticCall : X Z := x ← memory2 4 5; y ← memory2 2 3; mret (Math.BigMax x y).
Definition memoryReturn : X Z := memory2 0 1.
Definition memoryRevert : X Z := memory2 0 1.
Definition memoryLog : X Z := memory2 0 1.

(** ** gas.go *)

Definition callGas (gt : GasTable) (availableGas base callCost : Z) : Z + EvmErr :=
  let availableGas := u64 (availableGas - base) in
  let gas := u64 (availableGas - availableGas / 64) in
  if (0 <? CreateBySuicide gt)%Z && ((64 <? Big.BitLen callCost)%Z || (gas <? Big.Uint64 callCost)%Z)
  then inl gas
  else if (64 <? Big.BitLen callCost)%Z then inr ErrGasUintOverflow
  else inl (Big.Uint64 callCost).

(** ** gas_table.go *)

(** The result of an overflow-checked operation. *)
Definition checked (r : Z * bool) : X Z := if r.2 then fail ErrGasUintOverflow else mret r.1.

Definition memoryGasCost (newMemSize : Z) : X Z :=
  if (newMemSize =? 0)%Z then mret 0%Z
  else if (0xffffffffe0 <? newMemSize)%Z then fail ErrGasUintOverflow
  else
    let newMemSizeWords := toWordSize newMemSize in
    let newMemSize := u64 (newMemSizeWords * 32) in
    len ← gets (fun m => Z.of_nat (length (m_store m)));
    if (len <? newMemSize)%Z then
      let square := u64 (newMemSizeWords * newMemSizeWords) in
      let linCoef := u64 (newMemSizeWords * MemoryGas) in
      let quadCoef := (square / QuadCoeffDiv)%Z in
      let newTotalFee := u64 (linCoef + quadCoef) in
      last ← gets m_lastGasCost;
      _ ← modify (fun m => with_lastGasCost m newTotalFee);
      mret (u64 (newTotalFee - last))
    else mret 0%Z.

(** Memory, then a base price, then a price per word of the size that stack item [n] gives. *)
Definition gasCopy (base perWord : Z) (n : nat) (memorySize : Z) : X Z :=
  gas ← memoryGasCost memorySize;
  gas ← checked (Math.SafeAdd gas base);
  d ← Back n;
  words ← checked (bigUint64 d);
  words ← checked (Math.SafeMul (toWordSize words) perWord);
  checked (Math.SafeAdd gas words).

(** Memory, then a base price. *)
Definition gasMem (base memorySize : Z) : X Z :=
  gas ← memoryGasCost memorySize;
  checked (Math.SafeAdd gas base).

Definition gasFunc : Type := GasTable -> Contract -> Z -> X Z.

Definition constGasFunc (gas : Z) : gasFunc := fun gt c memorySize => mret gas.

Definition gasCallDataCopy : gasFunc := fun gt c memorySize => gasCopy GasFastestStep CopyGas 2 memorySize.
Definition gasReturnDataCopy : gasFunc := fun gt c memorySize => gasCopy GasFastestStep CopyGas 2 memorySize.

Definition gasSStore : gasFunc := fun gt c memorySize =>
  y ← Back 1;
  x ← Back 0;
  current ← shared (db (GetState (c_self c) (BigToHash x)));
  if bool_decide (current = Crypto.ZeroHash) && negb (y =? 0)%Z then mret SstoreSetGas
  else if negb (bool_decide (current = Crypto.ZeroHash)) && (y =? 0)%Z then
    _ ← shared (db (AddRefund SstoreRefundGas));
    mret SstoreClearGas
  else mret SstoreResetGas.

Definition makeGasLog (n : Z) : gasFunc := fun gt c memorySize =>
  d ← Back 1;
  requestedSize ← checked (bigUint64 d);
  gas ← memoryGasCost memorySize;
  gas ← checked (Math.SafeAdd gas LogGas);
  gas ← checked (Math.SafeAdd gas (u64 (n * LogTopicGas)));
  memorySizeGas ← checked (Math.SafeMul requestedSize LogDataGas);
  checked (Math.SafeAdd gas memorySizeGas).

Definition gasSha3 : gasFunc := fun gt c memorySize => gasCopy Sha3Gas Sha3WordGas 1 memorySize.
Definition gasCodeCopy : gasFunc := fun gt c memorySize => gasCopy GasFastestStep CopyGas 2 memorySize.
Definition gasExtCodeCopy : gasFunc := fun gt c memorySize => gasCopy (ExtcodeCopy gt) CopyGas 3 memorySize.
Definition gasExtCodeHash : gasFunc := fun gt c memorySize => mret (ExtcodeHash gt).
Definition gasMLoad : gasFunc := fun gt c memorySize => gasMem GasFastestStep memorySize.
Definition gasMStore8 : gasFunc := fun gt c memorySize => gasMem GasFastestStep memorySize.
Definition gasMStore : gasFunc := fun gt c memorySize => gasMem GasFastestStep memorySize.
Definition gasCreate : gasFunc := fun gt c memorySize => gasMem CreateGas memorySize.
Definition gasCreate2 : gasFunc := fun gt c memorySize => gasCopy Create2Gas Sha3WordGas 2 memorySize.
Definition gasBalance : gasFunc := fun gt c memorySize => mret (Balance gt).
Definition gasExtCodeSize : gasFunc := fun gt c memorySize => mret (ExtcodeSize gt).
Definition gasSLoad : gasFunc := fun gt c memorySize => mret (SLoad gt).

Definition gasExp : gasFunc := fun gt c memorySize =>
  d ← Back 1;
  let expByteLen := ((Big.BitLen d + 7) / 8)%Z in
  checked (Math.SafeAdd (u64 (expByteLen * ExpByte gt)) GasSlowStep).

(** The part the call instructions share: the gas passed on, on top of [gas]. *)
Definition addCallGas (gt : GasTable) (gas : Z) : X Z :=
  available ← gets m_gas;
  requested ← Back 0;
  match callGas gt available gas requested with
  | inr e => fail e
  | inl temp =>
      _ ← modify (fun m => with_g m (with_callGasTemp (m_g m) temp));
      checked (Math.SafeAdd gas temp)
  end.

Definition gasCall : gasFunc := fun gt c memorySize =>
  let gas := Calls_ gt in
  value ← Back 2;
  addr ← Back 1;
  let transfersValue := negb (value =? 0)%Z in
  gas ← (if transfersValue then
           isEmpty ← shared (db (Empty (BigToAddressHash addr)));
           mret (if (isEmpty : bool) then u64 (gas + CallNewAccountGas) else gas)
         else mret gas);
  let gas := if transfersValue then u64 (gas + CallValueTransferGas) else gas in
  memoryGas ← memoryGasCost memorySize;
  gas ← checked (Math.SafeAdd gas memoryGas);
  addCallGas gt gas.

Definition gasCallCode : gasFunc := fun gt c memorySize =>
  value ← Back 2;
  let gas := if negb (value =? 0)%Z then u64 (Calls_ gt + CallValueTransferGas) else Calls_ gt in
  memoryGas ← memoryGasCost memorySize;
  gas ← checked (Math.SafeAdd gas memoryGas);
  addCallGas gt gas.

Definition gasReturn : gasFunc := fun gt c memorySize => memoryGasCost memorySize.
Definition gasRevert : gasFunc := fun gt c memorySize => memoryGasCost memorySize.

Definition gasSuicide : gasFunc := fun gt c memorySize =>
  let gas := Suicide_ gt in
  addr ← Back 0;
  isEmpty ← shared (db (Empty (BigToAddressHash addr)));
  gas ← (if (isEmpty : bool) then
           bal ← shared (db (GetBalance (c_self c)));
           mret (if negb (bal =? 0)%Z then u64 (gas + CreateBySuicide gt) else gas)
         else mret gas);
  gone ← shared (db (HasSuicided (c_self c)));
  _ ← (if negb gone then shared (db (AddRefund SuicideRefundGas)) else mret tt);
  mret gas.

Definition gasDelegateCall : gasFunc := fun gt c memorySize =>
  gas ← gasMem (Calls_ gt) memorySize;
  addCallGas gt gas.

Definition gasStaticCall : gasFunc := fun gt c memorySize =>
  gas ← gasMem (Calls_ gt) memorySize;
  addCallGas gt gas.

Definition gasPush : gasFunc := fun gt c memorySize => mret GasFastestStep.
Definition gasSwap : gasFunc := fun gt c memorySize => mret GasFastestStep.
Definition gasDup : gasFunc := fun gt c memorySize => mret GasFastestStep.

End Gas.
