(* ===== verification/EvmInstr.v ===== *)
(** * EvmInstr: the instructions of the virtual machine (src/vm/instructions.go)

    One definition per [executionFunc].  The numbers of the pool ([intPool]) are only
    recycled objects, so taking one and putting it back leave no trace.  The instructions
    that start another frame are given the methods of the machine they call as a record
    [Calls]; Evm.v ties the knot. *)

From S2P Require Import Prelude Crypto EvmMath EvmState EvmMachine EvmGas.

(** The part of [Context] and [Config] that instructions read. *)
Record Context := mkContext {
  Origin : bytes;
  GasPrice : Z;
  Coinbase : bytes;
  GasLimit : Z;
  BlockNumber : Z;
  Time_ : Z;
  GetHash : Z -> option bytes;
  NoRecursion : bool;
  EnablePreimageRecording : bool
}.

(** Returned data, left-over gas and error of a call; a creation also has an address. *)
Definition call_res : Type := bytes * Z * option EvmErr.
Definition create_res : Type := bytes * bytes * Z * option EvmErr.

Record Calls `{D : StateDB} := mkCalls {
  k_Call : Contract -> bytes -> bytes -> Z -> Z -> G call_res;
  k_CallCode : Contract -> bytes -> bytes -> Z -> Z -> G call_res;
  k_DelegateCall : Contract -> bytes -> bytes -> Z -> G call_res;
  k_StaticCall : Contract -> bytes -> bytes -> Z -> G call_res;
  k_Create : Contract -> bytes -> Z -> Z -> G create_res;
  k_Create2 : Contract -> bytes -> Z -> Z -> Z -> G create_res
}.
Arguments mkCalls {_} _ _ _ _ _ _.

(** ** Arithmetic on the operands *)

Module Arith.

Definition b2w (b : bool) : Z := if b then 1%Z else 0%Z.

Definition add (x y : Z) : Z := Math.U256 (x + y).
Definition sub (x y : Z) : Z := Math.U256 (x - y).
Definition mul (x y : Z) : Z := Math.U256 (x * y).

(** [big.Int.Div] and [Mod] are Euclidean. *)
Definition bigDiv (x y : Z) : Z := (Z.sgn y * (x / Z.abs y))%Z.
Definition bigMod (x y : Z) : Z := (x mod Z.abs y)%Z.

Definition div (x y : Z) : Z := if negb (y =? 0)%Z then Math.U256 (bigDiv x y) else 0%Z.

Definition sdiv (a b : Z) : Z :=
  let x := Math.S256 a in
  let y := Math.S256 b in
  if (y =? 0)%Z || (x =? 0)%Z then 0%Z
  else
    let res := bigDiv (Z.abs x) (Z.abs y) in
    Math.U256 (if negb (Z.sgn x =? Z.sgn y)%Z then - res else res)%Z.

Definition mod_ (x y : Z) : Z := if (y =? 0)%Z then 0%Z else Math.U256 (bigMod x y).

Definition smod (a b : Z) : Z :=
  let x := Math.S256 a in
  let y := Math.S256 b in
  if (y =? 0)%Z then 0%Z
  else
    let res := bigMod (Z.abs x) (Z.abs y) in
    Math.U256 (if (x <? 0)%Z then - res else res)%Z.

Definition exp (base exponent : Z) : Z :=
  if (exponent <? 1)%Z then 1%Z
  else if (base =? 0)%Z then 0%Z
  else if (exponent =? 1)%Z then base
  else (Math.Exp base exponent).1.

(** [opSignExtend] once both operands are there; [None]: the second is not touched. *)
Definition signExtend (back num : Z) : option Z :=
  if (back <? 31)%Z then
    let bit := u64 (Big.Uint64 back * 8 + 7) in
    let mask := (Z.shiftl 1 bit - 1)%Z in
    Some (Math.U256 (if Z.testbit num bit then Z.lor num (Z.lnot mask) else Z.land num mask))
  else None.

Definition not (x : Z) : Z := Math.U256 (Z.lnot x).
Definition lt (x y : Z) : Z := b2w (x <? y)%Z.
Definition gt (x y : Z) : Z := b2w (y <? x)%Z.

Definition slt (x y : Z) : Z :=
  if (Math.tt255 <=? x)%Z && (y <? Math.tt255)%Z then 1%Z
  else if (x <? Math.tt255)%Z && (Math.tt255 <=? y)%Z then 0%Z
  else b2w (x <? y)%Z.

Definition sgt (x y : Z) : Z :=
  if (Math.tt255 <=? x)%Z && (y <? Math.tt255)%Z then 0%Z
  else if (x <? Math.tt255)%Z && (Math.tt255 <=? y)%Z then 1%Z
  else b2w (y <? x)%Z.

Definition eq (x y : Z) : Z := b2w (x =? y)%Z.
Definition iszero (x : Z) : Z := if (0 <? x)%Z then 0%Z else 1%Z.

Definition byte_ (th val : Z) : Z :=
  if (th <? 32)%Z then b2z (Math.Byte val 32 (Z.to_nat (Big.Int64 th))) else 0%Z.

Definition addmod (x y z : Z) : Z := if (0 <? z)%Z then Math.U256 (bigMod (x + y) z) else 0%Z.
Definition mulmod (x y z : Z) : Z := if (0 <? z)%Z then Math.U256 (bigMod (x * y) z) else 0%Z.

Definition shl (s v : Z) : Z :=
  let shift := Math.U256 s in
  let value := Math.U256 v in
  if (256 <=? shift)%Z then 0%Z else Math.U256 (Z.shiftl value (Big.Uint64 shift)).

Definition shr (s v : Z) : Z :=
  let shift := Math.U256 s in
  let value := Math.U256 v in
  if (256 <=? shift)%Z then 0%Z else Math.U256 (Z.shiftr value (Big.Uint64 shift)).

Definition sar (s v : Z) : Z :=
  let shift := Math.U256 s in
  let value := Math.S256 v in
  if (256 <=? shift)%Z then Math.U256 (if (0 <=? value)%Z then 0%Z else (-1)%Z)
  else Math.U256 (Z.shiftr value (Big.Uint64 shift)).

End Arith.

Section Instructions.
Context {D : StateDB} `{K : Keccak} (ctx : Context).

(** Instructions on one, two and three operands that leave one result. *)
Definition op1 (f : Z -> Z) : X bytes := x ← pop; _ ← push (f x); mret [].
Definition op2 (f : Z -> Z -> Z) : X bytes := x ← pop; y ← pop; _ ← push (f x y); mret [].
Definition op3 (f : Z -> Z -> Z -> Z) : X bytes := x ← pop; y ← pop; z ← pop; _ ← push (f x y z); mret [].
Definition op0 (v : Z) : X bytes := _ ← push v; mret [].

Definition opAdd : X bytes := op2 Arith.add.
Definition opSub : X bytes := op2 Arith.sub.
Definition opMul : X bytes := op2 Arith.mul.
Definition opDiv : X bytes := op2 Arith.div.
Definition opSdiv : X bytes := op2 Arith.sdiv.
Definition opMod : X bytes := op2 Arith.mod_.
Definition opSmod : X bytes := op2 Arith.smod.
Definition opExp : X bytes := op2 Arith.exp.

Definition opSignExtend : X bytes :=
  back ← pop;
  if (back <? 31)%Z then
    num ← pop;
    _ ← push (default num (Arith.signExtend back num));
    mret []
  else mret [].

Definition opNot : X bytes := op1 Arith.not.
Definition opLt : X bytes := op2 Arith.lt.
Definition opGt : X bytes := op2 Arith.gt.
Definition opSlt : X bytes := op2 Arith.slt.
Definition opSgt : X bytes := op2 Arith.sgt.
Definition opEq : X bytes := op2 Arith.eq.
Definition opIszero : X bytes := op1 Arith.iszero.
Definition opAnd : X bytes := op2 Z.land.
Definition opOr : X bytes := op2 Z.lor.
Definition opXor : X bytes := op2 Z.lxor.
Definition opByte : X bytes := op2 Arith.byte_.
Definition opAddmod : X bytes := op3 Arith.addmod.
Definition opMulmod : X bytes := op3 Arith.mulmod.
Definition opSHL : X bytes := op2 Arith.shl.
Definition opSHR : X bytes := op2 Arith.shr.
Definition opSAR : X bytes := op2 Arith.sar.

Definition opSha3 : X bytes :=
  offset ← pop;
  size ← pop;
  data ← memory_Get (Big.Int64 offset) (Big.Int64 size);
  _ ← (if EnablePreimageRecording ctx then shared (db (AddPreimage (keccak256 data) data)) else mret tt);
  _ ← push (Big.SetBytes (keccak256 data));
  mret [].

(** ** Environment *)

Definition opAddress (c : Contract) : X bytes := op0 (Big.SetBytes (c_self c)).

(** The top of the stack, an address, is replaced by what the database answers. *)
Definition query {A} (get : bytes -> sdb -> go (A * sdb)) (f : A -> Z) : X bytes :=
  slot ← pop;
  v ← shared (db (get (BigToAddressHash slot)));
  _ ← push (f v);
  mret [].

Definition opBalance : X bytes := query GetBalance id.
Definition opOrigin : X bytes := op0 (Big.SetBytes (Origin ctx)).
Definition opCaller (c : Contract) : X bytes := op0 (Big.SetBytes (c_CallerAddress c)).
Definition opCallValue (c : Contract) : X bytes := op0 (c_value c).

Definition opCallDataLoad (c : Contract) : X bytes :=
  off ← pop;
  d ← lift_go (getDataBig (c_Input c) off 32);
  op0 (Big.SetBytes d).

Definition opCallDataSize (c : Contract) : X bytes := op0 (i64 (Z.of_nat (length (c_Input c)))).

(** Copy part of some data, padded with zeroes, to memory. *)
Definition copyData (data : bytes) : X bytes :=
  memOffset ← pop;
  dataOffset ← pop;
  len ← pop;
  d ← lift_go (getDataBig data dataOffset len);
  _ ← memory_Set (Big.Uint64 memOffset) (Big.Uint64 len) d;
  mret [].

Definition opCallDataCopy (c : Contract) : X bytes := copyData (c_Input c).

Definition opReturnDataSize : X bytes :=
  d ← gets (fun m => g_returnData (m_g m));
  op0 (u64 (Z.of_nat (length d))).

Definition opReturnDataCopy : X bytes :=
  memOffset ← pop;
  dataOffset ← pop;
  len ← pop;
  let fin := (dataOffset + len)%Z in
  d ← gets (fun m => g_returnData (m_g m));
  if (64 <? Big.BitLen fin)%Z || (Z.of_nat (length d) <? Big.Uint64 fin)%Z then fail ErrReturnDataOutOfBounds
  else
    s ← lift_go (slice_of d (Big.Uint64 dataOffset) (Big.Uint64 fin));
    _ ← memory_Set (Big.Uint64 memOffset) (Big.Uint64 len) s;
    mret [].

Definition opExtCodeSize : X bytes := query GetCodeSize u64.
Definition opCodeSize (c : Contract) : X bytes := op0 (i64 (Z.of_nat (length (c_Code c)))).
Definition opCodeCopy (c : Contract) : X bytes := copyData (c_Code c).

Definition opExtCodeCopy : X bytes :=
  addr ← pop;
  memOffset ← pop;
  codeOffset ← pop;
  len ← pop;
  code ← shared (db (GetCode (BigToAddressHash addr)));
  d ← lift_go (getDataBig code codeOffset len);
  _ ← memory_Set (Big.Uint64 memOffset) (Big.Uint64 len) d;
  mret [].

Definition opExtCodeHash : X bytes :=
  slot ← pop;
  let address := BigToAddressHash slot in
  isEmpty ← shared (db (Empty address));
  if (isEmpty : bool) then op0 0
  else
    h ← shared (db (GetCodeHash address));
    op0 (Big.SetBytes h).

Definition opGasprice : X bytes := op0 (GasPrice ctx).

Definition opBlockhash : X bytes :=
  num ← pop;
  if (BlockNumber ctx - 257 <? num)%Z && (num <? BlockNumber ctx)%Z then
    match GetHash ctx (Big.Uint64 num) with
    | None => panic
    | Some h => op0 (Big.SetBytes h)
    end
  else op0 0.

Definition opCoinbase : X bytes := op0 (Big.SetBytes (Coinbase ctx)).
Definition opTimestamp : X bytes := op0 (Math.U256 (Time_ ctx)).
Definition opNumber : X bytes := op0 (Math.U256 (BlockNumber ctx)).
Definition opGasLimit : X bytes := op0 (Math.U256 (GasLimit ctx)).

(** ** Stack, memory, storage and flow *)

Definition opPop : X bytes := _ ← pop; mret [].

Definition opMload : X bytes :=
  offset ← pop;
  d ← memory_Get (Big.Int64 offset) 32;
  op0 (Big.SetBytes d).

Definition opMstore : X bytes :=
  mStart ← pop;
  val ← pop;
  _ ← memory_Set32 (Big.Uint64 mStart) val;
  mret [].

Definition opMstore8 : X bytes :=
  off ← pop;
  val ← pop;
  let off := Big.Int64 off in
  store ← gets m_store;
  if (off <? 0)%Z || (Z.of_nat (length store) <=? off)%Z then panic
  else
    _ ← modify (fun m => with_store m (<[Z.to_nat off := z2b (Z.land (Big.Int64 val) 0xff)]> store));
    mret [].

Definition opSload (c : Contract) : X bytes :=
  loc ← pop;
  val ← shared (db (GetState (c_self c) (BigToHash loc)));
  op0 (Big.SetBytes val).

Definition opSstore (c : Contract) : X bytes :=
  loc ← pop;
  val ← pop;
  _ ← shared (db (SetState (c_self c) (BigToHash loc) (BigToHash val)));
  mret [].

Definition set_pc (pc : Z) : X unit := modify (fun m => with_pc m pc).

Definition opJump (c : Contract) : X bytes :=
  pos ← pop;
  valid ← validJumpdest c pos;
  if negb valid then fail ErrInvalidJump
  else
    _ ← set_pc (Big.Uint64 pos);
    mret [].

Definition opJumpi (c : Contract) : X bytes :=
  pos ← pop;
  cond ← pop;
  if negb (cond =? 0)%Z then
    valid ← validJumpdest c pos;
    if negb valid then fail ErrInvalidJump
    else
      _ ← set_pc (Big.Uint64 pos);
      mret []
  else
    pc ← gets m_pc;
    _ ← set_pc (u64 (pc + 1));
    mret [].

Definition opJumpdest : X bytes := mret [].
Definition opPc : X bytes := pc ← gets m_pc; op0 pc.
Definition opMsize : X bytes := store ← gets m_store; op0 (i64 (Z.of_nat (length store))).
Definition opGas : X bytes := gas ← gets m_gas; op0 gas.

(** ** Calls and creations *)

Definition add_gas (returnGas : Z) : X unit := modify (fun m => with_gas m (u64 (m_gas m + returnGas))).

(** What [opCreate] and [opCreate2] do with the outcome. *)
Definition finishCreate (r : create_res) : X bytes :=
  let '(res, addr, returnGas, suberr) := r in
  _ ← push (match suberr with None => Big.SetBytes addr | Some _ => 0%Z end);
  _ ← add_gas returnGas;
  mret (match suberr with Some ErrExecutionReverted => res | _ => [] end).

Definition opCreate (k : Calls) (c : Contract) : X bytes :=
  value ← pop;
  offset ← pop;
  size ← pop;
  input ← memory_Get (Big.Int64 offset) (Big.Int64 size);
  gas ← gets m_gas;
  let gas := u64 (gas - gas / 64) in
  _ ← UseGas gas;
  r ← shared (k_Create k c input gas value);
  finishCreate r.

Definition opCreate2 (k : Calls) (c : Contract) : X bytes :=
  endowment ← pop;
  offset ← pop;
  size ← pop;
  salt ← pop;
  input ← memory_Get (Big.Int64 offset) (Big.Int64 size);
  gas ← gets m_gas;
  let gas := u64 (gas - gas / 64) in
  _ ← UseGas gas;
  r ← shared (k_Create2 k c input gas endowment salt);
  finishCreate r.

(** What the call instructions do with the outcome. *)
Definition finishCall (retOffset retSize : Z) (r : call_res) : X bytes :=
  let '(ret, returnGas, err) := r in
  _ ← push (match err with None => 1%Z | Some _ => 0%Z end);
  _ ← match err with
      | None | Some ErrExecutionReverted => memory_Set (Big.Uint64 retOffset) (Big.Uint64 retSize) ret
      | Some _ => mret tt
      end;
  _ ← add_gas returnGas;
  mret ret.

(** [opCall] and [opCallCode] differ in the method they call. *)
Definition callValue (call : bytes -> bytes -> Z -> Z -> G call_res) : X bytes :=
  _ ← pop;
  gas ← gets (fun m => g_callGasTemp (m_g m));
  addr ← pop;
  value ← pop;
  inOffset ← pop;
  inSize ← pop;
  retOffset ← pop;
  retSize ← pop;
  let value := Math.U256 value in
  args ← memory_Get (Big.Int64 inOffset) (Big.Int64 inSize);
  let gas := if negb (value =? 0)%Z then u64 (gas + Params.CallStipend) else gas in
  r ← shared (call (BigToAddressHash addr) args gas value);
  finishCall retOffset retSize r.

Definition opCall (k : Calls) (c : Contract) : X bytes := callValue (k_Call k c).
Definition opCallCode (k : Calls) (c : Contract) : X bytes := callValue (k_CallCode k c).

(** So do [opDelegateCall] and [opStaticCall]. *)
Definition callPlain (call : bytes -> bytes -> Z -> G call_res) : X bytes :=
  _ ← pop;
  gas ← gets (fun m => g_callGasTemp (m_g m));
  addr ← pop;
  inOffset ← pop;
  inSize ← pop;
  retOffset ← pop;
  retSize ← pop;
  args ← memory_Get (Big.Int64 inOffset) (Big.Int64 inSize);
  r ← shared (call (BigToAddressHash addr) args gas);
  finishCall retOffset retSize r.

Definition opDelegateCall (k : Calls) (c : Contract) : X bytes := callPlain (k_DelegateCall k c).
Definition opStaticCall (k : Calls) (c : Contract) : X bytes := callPlain (k_StaticCall k c).

Definition opReturn : X bytes :=
  offset ← pop;
  size ← pop;
  memory_GetPtr (Big.Int64 offset) (Big.Int64 size).

Definition opRevert : X bytes :=
  offset ← pop;
  size ← pop;
  memory_GetPtr (Big.Int64 offset) (Big.Int64 size).

Definition opStop : X bytes := mret [].

Definition opSuicide (c : Contract) : X bytes :=
  bal ← shared (db (GetBalance (c_self c)));
  to ← pop;
  _ ← shared (db (AddBalance (BigToAddressHash to) bal));
  _ ← shared (db (Suicide (c_self c)));
  mret [].

(** ** Families *)

Fixpoint popTopics (size : nat) : X (list bytes) :=
  match size with
  | O => mret []
  | S size =>
      t ← pop;
      topics ← popTopics size;
      mret (BigToHash t :: topics)
  end.

Definition makeLog (size : nat) (c : Contract) : X bytes :=
  mStart ← pop;
  mSize ← pop;
  topics ← popTopics size;
  d ← memory_Get (Big.Int64 mStart) (Big.Int64 mSize);
  _ ← shared (db (AddLog (mkLog (c_self c) topics d (Big.Uint64 (BlockNumber ctx)) Crypto.ZeroHash Crypto.ZeroHash 0 0)));
  mret [].

Definition makePush (size : Z) (pushByteSize : nat) (c : Contract) : X bytes :=
  pc ← gets m_pc;
  let codeLen := Z.of_nat (length (c_Code c)) in
  let startMin := if (i64 (u64 (pc + 1)) <? codeLen)%Z then i64 (u64 (pc + 1)) else codeLen in
  let endMin := if (startMin + Z.of_nat pushByteSize <? codeLen)%Z then (startMin + Z.of_nat pushByteSize)%Z else codeLen in
  s ← lift_go (slice_of (c_Code c) startMin endMin);
  _ ← push (Big.SetBytes (RightPadBytes s (Z.of_nat pushByteSize)));
  _ ← set_pc (u64 (pc + size));
  mret [].

Definition makeDup (size : nat) : X bytes := _ ← dup size; mret [].
Definition makeSwap (size : nat) : X bytes := _ ← swap (size + 1); mret [].

End Instructions.
