(* ===== verification/EvmPrecompile.v ===== *)
(** * EvmPrecompile: the native contracts (src/vm/contracts.go, src/vm/crypto)

    Key recovery (btcec) and the curves of bn256 are parameters. *)

From Stdlib Require Import Zpow_facts.
From S2P Require Import Prelude Crypto EvmMath EvmState EvmMachine EvmGas.

(** github.com/ethereum/go-ethereum/crypto/bn256, and [RecoverCompact] of btcec followed by
    [SerializeUncompressed]. *)
Class Curves := {
  G1 : Type;
  G2 : Type;
  G1_Unmarshal : bytes -> option G1;
  G2_Unmarshal : bytes -> option G2;
  G1_Add : G1 -> G1 -> G1;
  G1_ScalarMult : G1 -> Z -> G1;
  G1_Marshal : G1 -> bytes;
  PairingCheck : list G1 -> list G2 -> bool;
  RecoverCompact : bytes -> bytes -> option bytes
}.

(** ** src/vm/crypto *)

Definition secp256k1N : Z := 0xfffffffffffffffffffffffffffffffebaaedce6af48a03bbfd25e8cd0364141.
Definition secp256k1halfN : Z := secp256k1N / 2.

Definition ValidateSignatureValues (v r s : Z) (homestead : bool) : bool :=
  if (r <? 1)%Z || (s <? 1)%Z then false
  else if homestead && (secp256k1halfN <? s)%Z then false
  else (r <? secp256k1N)%Z && (s <? secp256k1N)%Z && ((v =? 0)%Z || (v =? 1)%Z).

Section Precompile.
Context `{C : Crypto} `{K : Keccak} `{E : Curves}.

(** [SigToPub] and [Ecrecover]; the signature has 65 bytes. *)
Definition SigToPub (hash sig : bytes) : go (option bytes) :=
  match sig !! 64 with
  | None => Panics
  | Some v => Returns (RecoverCompact (z2b (b2z v + 27) :: take 64 sig) hash)
  end.

Definition Ecrecover (hash sig : bytes) : go (option bytes) := SigToPub hash sig.

(** ** The contracts *)

Record PrecompiledContract := mkPrecompiled {
  RequiredGas : bytes -> go Z;
  Run : bytes -> go (bytes + EvmErr)
}.

(** [(len(input)+31)/32*perWord + base]. *)
Definition wordGas (perWord base : Z) (input : bytes) : Z :=
  u64 (u64 (u64 (Z.of_nat (length input) + 31) / 32 * perWord) + base).

(** The answer, and the contents of the caller's slice afterwards: [append(input[64:128], v)]
    writes into it when it is longer than 128 bytes. *)
Definition ecrecover_Run (arg : bytes) : go (bytes * bytes) :=
  let input := RightPadBytes arg 128 in
  let r := Big.SetBytes (take 32 (drop 64 input)) in
  let s := Big.SetBytes (take 32 (drop 96 input)) in
  match input !! 63 with
  | None => Panics
  | Some b =>
      let v := u8 (b2z b - 27) in
      if negb (allZero (take 31 (drop 32 input))) || negb (ValidateSignatureValues v r s false)
      then Returns ([], arg)
      else
        let arg := if 128 <? length arg then <[128 := z2b v]> arg else arg in
        pubKey ← Ecrecover (take 32 input) (take 64 (drop 64 input) ++ [z2b v]);
        match pubKey with
        | None => Returns ([], arg)
        | Some pub =>
            if length pub =? 0 then Panics
            else Returns (LeftPadBytes (drop 12 (keccak256 (drop 1 pub))) 32, arg)
        end
  end.

Definition ecrecover : PrecompiledContract := mkPrecompiled
  (fun input => Returns 3000%Z)
  (fun input => '(ret, _) ← ecrecover_Run input; Returns (inl ret)).

Definition sha256hash : PrecompiledContract := mkPrecompiled
  (fun input => Returns (wordGas 12 60 input))
  (fun input => Returns (inl (sha256 input))).

Definition ripemd160hash : PrecompiledContract := mkPrecompiled
  (fun input => Returns (wordGas 120 600 input))
  (fun input => Returns (inl (LeftPadBytes (ripemd160 input) 32))).

Definition dataCopy : PrecompiledContract := mkPrecompiled
  (fun input => Returns (wordGas 3 15 input))
  (fun input => Returns (inl input)).

(** [input[96:]], or nothing. *)
Definition modExpBody (input : bytes) : bytes := if 96 <? length input then drop 96 input else [].

(** The price of a multiplication of numbers of [gas] bytes. *)
Definition multComplexity (gas : Z) : Z :=
  if (gas <=? 64)%Z then (gas * gas)%Z
  else if (gas <=? 1024)%Z then (gas * gas / 4 + (96 * gas - 3072))%Z
  else (gas * gas / 16 + (480 * gas - 199680))%Z.

Definition bigModExp_RequiredGas (input : bytes) : go Z :=
  bl ← getData input 0 32;
  el ← getData input 32 32;
  ml ← getData input 64 32;
  let baseLen := Big.SetBytes bl in
  let expLen := Big.SetBytes el in
  let modLen := Big.SetBytes ml in
  let input := modExpBody input in
  expHead ← (if (Z.of_nat (length input) <=? baseLen)%Z then Returns 0%Z
             else
               d ← (if (32 <? expLen)%Z then getData input (Big.Uint64 baseLen) 32
                    else getData input (Big.Uint64 baseLen) (Big.Uint64 expLen));
               Returns (Big.SetBytes d));
  let bitlen := Big.BitLen expHead in
  let msb := if (0 <? bitlen)%Z then (bitlen - 1)%Z else 0%Z in
  let adjExpLen := ((if (32 <? expLen)%Z then 8 * (expLen - 32) else 0) + msb)%Z in
  let gas := multComplexity (Math.BigMax modLen baseLen) in
  let gas := (gas * Math.BigMax adjExpLen 1 / 20)%Z in
  Returns (if (64 <? Big.BitLen gas)%Z then Math.MaxUint64 else Big.Uint64 gas).

Definition bigModExp_Run (input : bytes) : go bytes :=
  bl ← getData input 0 32;
  el ← getData input 32 32;
  ml ← getData input 64 32;
  let baseLen := Big.Uint64 (Big.SetBytes bl) in
  let expLen := Big.Uint64 (Big.SetBytes el) in
  let modLen := Big.Uint64 (Big.SetBytes ml) in
  let input := modExpBody input in
  if (baseLen =? 0)%Z && (modLen =? 0)%Z then Returns []
  else
    b ← getData input 0 baseLen;
    e ← getData input baseLen expLen;
    m ← getData input (u64 (baseLen + expLen)) modLen;
    let mod_ := Big.SetBytes m in
    if (Big.BitLen mod_ =? 0)%Z then Returns (LeftPadBytes [] (i64 modLen))
    else Returns (LeftPadBytes (Big.Bytes (Zpow_mod (Big.SetBytes b) (Big.SetBytes e) mod_)) (i64 modLen)).

Definition bigModExp : PrecompiledContract := mkPrecompiled bigModExp_RequiredGas
  (fun input => r ← bigModExp_Run input; Returns (inl r)).

Definition newCurvePoint (blob : bytes) : G1 + EvmErr :=
  match G1_Unmarshal blob with Some p => inl p | None => inr ErrPrecompile end.

Definition newTwistPoint (blob : bytes) : G2 + EvmErr :=
  match G2_Unmarshal blob with Some p => inl p | None => inr ErrPrecompile end.

Definition bn256Add : PrecompiledContract := mkPrecompiled
  (fun input => Returns 500%Z)
  (fun input =>
     a ← getData input 0 64;
     b ← getData input 64 64;
     match newCurvePoint a with
     | inr e => Returns (inr e)
     | inl x =>
         match newCurvePoint b with
         | inr e => Returns (inr e)
         | inl y => Returns (inl (G1_Marshal (G1_Add x y)))
         end
     end).

Definition bn256ScalarMul : PrecompiledContract := mkPrecompiled
  (fun input => Returns 40000%Z)
  (fun input =>
     a ← getData input 0 64;
     k ← getData input 64 32;
     match newCurvePoint a with
     | inr e => Returns (inr e)
     | inl p => Returns (inl (G1_Marshal (G1_ScalarMult p (Big.SetBytes k))))
     end).

Definition true32Byte : bytes := replicate 31 x00 ++ [x01].
Definition false32Byte : bytes := replicate 32 x00.

(** The loop over chunks of 192 bytes, [n] of them. *)
Fixpoint pairingPoints (n : nat) (input : bytes) : (list G1 * list G2) + EvmErr :=
  match n with
  | O => inl ([], [])
  | S n =>
      match newCurvePoint (take 64 input) with
      | inr e => inr e
      | inl c =>
          match newTwistPoint (take 128 (drop 64 input)) with
          | inr e => inr e
          | inl t =>
              match pairingPoints n (drop 192 input) with
              | inr e => inr e
              | inl (cs, ts) => inl (c :: cs, t :: ts)
              end
          end
      end
  end.

Definition bn256Pairing : PrecompiledContract := mkPrecompiled
  (fun input => Returns (u64 (100000 + u64 (Z.of_nat (length input / 192) * 80000)))%Z)
  (fun input =>
     if negb (length input mod 192 =? 0) then Returns (inr ErrPrecompile)
     else match pairingPoints (length input / 192) input with
          | inr e => Returns (inr e)
          | inl (cs, ts) => Returns (inl (if PairingCheck cs ts then true32Byte else false32Byte))
          end).

(** [PrecompiledContracts]: addresses 1 to 8. *)
Definition PrecompiledContracts (addr : bytes) : option PrecompiledContract :=
  if negb (bool_decide (take 19 addr = replicate 19 x00) && (length addr =? 20)) then None
  else match drop 19 addr with
       | [x01] => Some ecrecover
       | [x02] => Some sha256hash
       | [x03] => Some ripemd160hash
       | [x04] => Some dataCopy
       | [x05] => Some bigModExp
       | [x06] => Some bn256Add
       | [x07] => Some bn256ScalarMul
       | [x08] => Some bn256Pairing
       | _ => None
       end.

(** [RunPrecompiledContract]: answer, gas left and error. *)
Definition RunPrecompiledContract (p : PrecompiledContract) (input : bytes) (gas : Z) : go (bytes * Z * option EvmErr) :=
  g ← RequiredGas p input;
  if (gas <? g)%Z then Returns ([], gas, Some ErrOutOfGas)
  else
    r ← Run p input;
    Returns (match r with inl ret => (ret, u64 (gas - g), None) | inr e => ([], u64 (gas - g), Some e) end).

End Precompile.
