(* ===== verification/EvmJump.v ===== *)
(** * EvmJump: the instruction table (src/vm/jump_table.go)

    The array of 256 operations as a function on opcodes, [None] where the source leaves an
    entry invalid; the literal is split at the comments of opcodes.go. *)

From S2P Require Import Prelude EvmMath EvmOpcode EvmState EvmMachine EvmGas EvmInstr.
Import Params.

Record operation `{D : StateDB} := mkOperation {
  execute : Calls -> Contract -> X bytes;
  gasCost : gasFunc;
  validateStack : list Z -> option EvmErr;
  memorySize : option (X Z);
  halts : bool;
  jumps : bool;
  writes : bool;
  reverts : bool;
  returns : bool
}.
Arguments mkOperation {_} _ _ _ _ _ _ _ _ _.

Section Table.
Context {D : StateDB} `{K : Keccak} (ctx : Context).

(** An entry without flags, and the flags. *)
Definition op_ (e : Calls -> Contract -> X bytes) (g : gasFunc) (v : list Z -> option EvmErr) : operation :=
  mkOperation e g v None false false false false false.
Definition with_memory (f : X Z) (o : operation) : operation :=
  mkOperation (execute o) (gasCost o) (validateStack o) (Some f) (halts o) (jumps o) (writes o) (reverts o) (returns o).
Definition halting (o : operation) : operation :=
  mkOperation (execute o) (gasCost o) (validateStack o) (memorySize o) true (jumps o) (writes o) (reverts o) (returns o).
Definition jumping (o : operation) : operation :=
  mkOperation (execute o) (gasCost o) (validateStack o) (memorySize o) (halts o) true (writes o) (reverts o) (returns o).
Definition writing (o : operation) : operation :=
  mkOperation (execute o) (gasCost o) (validateStack o) (memorySize o) (halts o) (jumps o) true (reverts o) (returns o).
Definition reverting (o : operation) : operation :=
  mkOperation (execute o) (gasCost o) (validateStack o) (memorySize o) (halts o) (jumps o) (writes o) true (returns o).
Definition returning (o : operation) : operation :=
  mkOperation (execute o) (gasCost o) (validateStack o) (memorySize o) (halts o) (jumps o) (writes o) (reverts o) true.

(** Arithmetic and comparison. *)
Definition arithSet (op : OpCode) : option operation :=
  match op with
  | STOP => Some (halting (op_ (fun k c => opStop) (constGasFunc 0) (makeStackFunc 0 0)))
  | ADD => Some (op_ (fun k c => opAdd) (constGasFunc GasFastestStep) (makeStackFunc 2 1))
  | MUL => Some (op_ (fun k c => opMul) (constGasFunc GasFastStep) (makeStackFunc 2 1))
  | SUB => Some (op_ (fun k c => opSub) (constGasFunc GasFastestStep) (makeStackFunc 2 1))
  | DIV => Some (op_ (fun k c => opDiv) (constGasFunc GasFastStep) (makeStackFunc 2 1))
  | SDIV => Some (op_ (fun k c => opSdiv) (constGasFunc GasFastStep) (makeStackFunc 2 1))
  | MOD => Some (op_ (fun k c => opMod) (constGasFunc GasFastStep) (makeStackFunc 2 1))
  | SMOD => Some (op_ (fun k c => opSmod) (constGasFunc GasFastStep) (makeStackFunc 2 1))
  | ADDMOD => Some (op_ (fun k c => opAddmod) (constGasFunc GasMidStep) (makeStackFunc 3 1))
  | MULMOD => Some (op_ (fun k c => opMulmod) (constGasFunc GasMidStep) (makeStackFunc 3 1))
  | EXP => Some (op_ (fun k c => opExp) gasExp (makeStackFunc 2 1))
  | SIGNEXTEND => Some (op_ (fun k c => opSignExtend) (constGasFunc GasFastStep) (makeStackFunc 2 1))
  | LT => Some (op_ (fun k c => opLt) (constGasFunc GasFastestStep) (makeStackFunc 2 1))
  | GT => Some (op_ (fun k c => opGt) (constGasFunc GasFastestStep) (makeStackFunc 2 1))
  | SLT => Some (op_ (fun k c => opSlt) (constGasFunc GasFastestStep) (makeStackFunc 2 1))
  | SGT => Some (op_ (fun k c => opSgt) (constGasFunc GasFastestStep) (makeStackFunc 2 1))
  | EQ => Some (op_ (fun k c => opEq) (constGasFunc GasFastestStep) (makeStackFunc 2 1))
  | ISZERO => Some (op_ (fun k c => opIszero) (constGasFunc GasFastestStep) (makeStackFunc 1 1))
  | AND => Some (op_ (fun k c => opAnd) (constGasFunc GasFastestStep) (makeStackFunc 2 1))
  | XOR => Some (op_ (fun k c => opXor) (constGasFunc GasFastestStep) (makeStackFunc 2 1))
  | OR => Some (op_ (fun k c => opOr) (constGasFunc GasFastestStep) (makeStackFunc 2 1))
  | NOT => Some (op_ (fun k c => opNot) (constGasFunc GasFastestStep) (makeStackFunc 1 1))
  | BYTE => Some (op_ (fun k c => opByte) (constGasFunc GasFastestStep) (makeStackFunc 2 1))
  | _ => None
  end.

(** Hashing, environment and block. *)
Definition envSet (op : OpCode) : option operation :=
  match op with
  | SHA3 => Some (with_memory memorySha3 (op_ (fun k c => opSha3 ctx) gasSha3 (makeStackFunc 2 1)))
  | ADDRESS => Some (op_ (fun k c => opAddress c) (constGasFunc GasQuickStep) (makeStackFunc 0 1))
  | BALANCE => Some (op_ (fun k c => opBalance) gasBalance (makeStackFunc 1 1))
  | ORIGIN => Some (op_ (fun k c => opOrigin ctx) (constGasFunc GasQuickStep) (makeStackFunc 0 1))
  | CALLER => Some (op_ (fun k c => opCaller c) (constGasFunc GasQuickStep) (makeStackFunc 0 1))
  | CALLVALUE => Some (op_ (fun k c => opCallValue c) (constGasFunc GasQuickStep) (makeStackFunc 0 1))
  | CALLDATALOAD => Some (op_ (fun k c => opCallDataLoad c) (constGasFunc GasFastestStep) (makeStackFunc 1 1))
  | CALLDATASIZE => Some (op_ (fun k c => opCallDataSize c) (constGasFunc GasQuickStep) (makeStackFunc 0 1))
  | CALLDATACOPY => Some (with_memory memoryCallDataCopy (op_ (fun k c => opCallDataCopy c) gasCallDataCopy (makeStackFunc 3 0)))
  | CODESIZE => Some (op_ (fun k c => opCodeSize c) (constGasFunc GasQuickStep) (makeStackFunc 0 1))
  | CODECOPY => Some (with_memory memoryCodeCopy (op_ (fun k c => opCodeCopy c) gasCodeCopy (makeStackFunc 3 0)))
  | GASPRICE => Some (op_ (fun k c => opGasprice ctx) (constGasFunc GasQuickStep) (makeStackFunc 0 1))
  | EXTCODESIZE => Some (op_ (fun k c => opExtCodeSize) gasExtCodeSize (makeStackFunc 1 1))
  | EXTCODECOPY => Some (with_memory memoryExtCodeCopy (op_ (fun k c => opExtCodeCopy) gasExtCodeCopy (makeStackFunc 4 0)))
  | BLOCKHASH => Some (op_ (fun k c => opBlockhash ctx) (constGasFunc GasExtStep) (makeStackFunc 1 1))
  | COINBASE => Some (op_ (fun k c => opCoinbase ctx) (constGasFunc GasQuickStep) (makeStackFunc 0 1))
  | TIMESTAMP => Some (op_ (fun k c => opTimestamp ctx) (constGasFunc GasQuickStep) (makeStackFunc 0 1))
  | NUMBER => Some (op_ (fun k c => opNumber ctx) (constGasFunc GasQuickStep) (makeStackFunc 0 1))
  | GASLIMIT => Some (op_ (fun k c => opGasLimit ctx) (constGasFunc GasQuickStep) (makeStackFunc 0 1))
  | _ => None
  end.

(** Memory, storage and flow. *)
Definition flowSet (op : OpCode) : option operation :=
  match op with
  | POP => Some (op_ (fun k c => opPop) (constGasFunc GasQuickStep) (makeStackFunc 1 0))
  | MLOAD => Some (with_memory memoryMLoad (op_ (fun k c => opMload) gasMLoad (makeStackFunc 1 1)))
  | MSTORE => Some (with_memory memoryMStore (op_ (fun k c => opMstore) gasMStore (makeStackFunc 2 0)))
  | MSTORE8 => Some (with_memory memoryMStore8 (op_ (fun k c => opMstore8) gasMStore8 (makeStackFunc 2 0)))
  | SLOAD => Some (op_ (fun k c => opSload c) gasSLoad (makeStackFunc 1 1))
  | SSTORE => Some (writing (op_ (fun k c => opSstore c) gasSStore (makeStackFunc 2 0)))
  | JUMP => Some (jumping (op_ (fun k c => opJump c) (constGasFunc GasMidStep) (makeStackFunc 1 0)))
  | JUMPI => Some (jumping (op_ (fun k c => opJumpi c) (constGasFunc GasSlowStep) (makeStackFunc 2 0)))
  | PC => Some (op_ (fun k c => opPc) (constGasFunc GasQuickStep) (makeStackFunc 0 1))
  | MSIZE => Some (op_ (fun k c => opMsize) (constGasFunc GasQuickStep) (makeStackFunc 0 1))
  | GAS => Some (op_ (fun k c => opGas) (constGasFunc GasQuickStep) (makeStackFunc 0 1))
  | JUMPDEST => Some (op_ (fun k c => opJumpdest) (constGasFunc JumpdestGas) (makeStackFunc 0 0))
  | _ => None
  end.

(** Creations, calls and ends. *)
Definition callSet (op : OpCode) : option operation :=
  match op with
  | CREATE => Some (returning (writing (with_memory memoryCreate (op_ opCreate gasCreate (makeStackFunc 3 1)))))
  | CALL => Some (returning (with_memory memoryCall (op_ opCall gasCall (makeStackFunc 7 1))))
  | CALLCODE => Some (returning (with_memory memoryCall (op_ opCallCode gasCallCode (makeStackFunc 7 1))))
  | RETURN => Some (halting (with_memory memoryReturn (op_ (fun k c => opReturn) gasReturn (makeStackFunc 2 0))))
  | SELFDESTRUCT => Some (writing (halting (op_ (fun k c => opSuicide c) gasSuicide (makeStackFunc 1 0))))
  | _ => None
  end.

(** The entries assigned after the literal. *)
Definition lateSet (op : OpCode) : option operation :=
  match op with
  | DELEGATECALL => Some (returning (with_memory memoryDelegateCall (op_ opDelegateCall gasDelegateCall (makeStackFunc 6 1))))
  | STATICCALL => Some (returning (with_memory memoryStaticCall (op_ opStaticCall gasStaticCall (makeStackFunc 6 1))))
  | RETURNDATASIZE => Some (op_ (fun k c => opReturnDataSize) (constGasFunc GasQuickStep) (makeStackFunc 0 1))
  | RETURNDATACOPY => Some (with_memory memoryReturnDataCopy (op_ (fun k c => opReturnDataCopy) gasReturnDataCopy (makeStackFunc 3 0)))
  | REVERT => Some (returning (reverting (with_memory memoryRevert (op_ (fun k c => opRevert) gasRevert (makeStackFunc 2 0)))))
  | SHL => Some (op_ (fun k c => opSHL) (constGasFunc GasFastestStep) (makeStackFunc 2 1))
  | SHR => Some (op_ (fun k c => opSHR) (constGasFunc GasFastestStep) (makeStackFunc 2 1))
  | SAR => Some (op_ (fun k c => opSAR) (constGasFunc GasFastestStep) (makeStackFunc 2 1))
  | EXTCODEHASH => Some (op_ (fun k c => opExtCodeHash) gasExtCodeHash (makeStackFunc 1 1))
  | CREATE2 => Some (returning (writing (with_memory memoryCreate2 (op_ opCreate2 gasCreate2 (makeStackFunc 4 1)))))
  | _ => None
  end.

(** [PUSH1] to [PUSH32]. *)
Definition pushSet (op : OpCode) : option operation :=
  match op with
  | PUSHn n => if (1 <=? n) && (n <=? 32) then Some (op_ (fun k c => makePush (Z.of_nat n) n c) gasPush (makeStackFunc 0 1)) else None
  | _ => None
  end.

(** [DUP1] to [DUP16]. *)
Definition dupSet (op : OpCode) : option operation :=
  match op with
  | DUPn n => if (1 <=? n) && (n <=? 16) then Some (op_ (fun k c => makeDup n) gasDup (makeDupStackFunc n)) else None
  | _ => None
  end.

(** [SWAP1] to [SWAP16]. *)
Definition swapSet (op : OpCode) : option operation :=
  match op with
  | SWAPn n => if (1 <=? n) && (n <=? 16) then Some (op_ (fun k c => makeSwap n) gasSwap (makeSwapStackFunc (n + 1))) else None
  | _ => None
  end.

(** [LOG0] to [LOG4]. *)
Definition logSet (op : OpCode) : option operation :=
  match op with
  | LOGn n => if n <=? 4 then Some (writing (with_memory memoryLog (op_ (fun k c => makeLog ctx n c) (makeGasLog (Z.of_nat n)) (makeStackFunc (n + 2) 0)))) else None
  | _ => None
  end.

Definition newInstructionSet (op : OpCode) : option operation :=
  match op with
  | PUSHn _ => pushSet op
  | DUPn _ => dupSet op
  | SWAPn _ => swapSet op
  | LOGn _ => logSet op
  | _ =>
      match lateSet op with
      | Some o => Some o
      | None =>
          match arithSet op with
          | Some o => Some o
          | None =>
              match envSet op with
              | Some o => Some o
              | None => match flowSet op with Some o => Some o | None => callSet op end
              end
          end
      end
  end.

End Table.
