(* ===== verification/Evm.v ===== *)
(** * Evm: the interpreter and the calls (src/vm/interpreter.go, src/vm/evm.go,
      src/core/chain/evm.go, src/core/types/address.go)

    [step] is one turn of the loop of [Run]; [Call], [CallCode], [DelegateCall],
    [StaticCall] and [create] are given the function that runs a contract, and [run_at]
    ties the knot on the call depth.  The counter [evm.depth] and the flag [readOnly],
    which the source restores on return, are arguments. *)

From S2P Require Import Prelude Crypto EvmMath EvmOpcode EvmState EvmMachine EvmGas EvmInstr EvmPrecompile EvmJump.
Import Params.

(** [rlp.EncodeToBytes] of an address and a nonce (go-ethereum/rlp). *)
Class Rlp := { rlp_create : bytes -> Z -> bytes }.

(** Who makes a call: an account, or a running contract. *)
Inductive Caller := CallerAccount (a : bytes) | CallerContract (c : Contract).

Definition caller_address (c : Caller) : bytes :=
  match c with CallerAccount a => a | CallerContract c => c_self c end.

Section Evm.
Context {D : StateDB} `{C : Crypto} `{K : Keccak} `{E : Curves} `{R : Rlp} (ctx : Context).

Definition CreateAddress (b : bytes) (nonce : Z) : bytes :=
  BytesToAddressHash (drop 12 (keccak256 (rlp_create b nonce))).

Definition CreateAddress2 (b salt inithash : bytes) : bytes :=
  BytesToAddressHash (drop 12 (keccak256 (xff :: b ++ salt ++ inithash))).

(** ** The interpreter *)

Definition enforceRestrictions (readOnly : bool) (op : OpCode) (o : operation) : X unit :=
  if readOnly then
    if writes o then fail ErrWriteProtection
    else if bool_decide (op = CALL) then
      v ← Back 2;
      if (0 <? Big.BitLen v)%Z then fail ErrWriteProtection else mret tt
    else mret tt
  else mret tt.

(** The memory the operation needs, in bytes rounded up to words. *)
Definition requiredMemory (o : operation) : X Z :=
  match memorySize o with
  | None => mret 0%Z
  | Some f =>
      s ← f;
      memSize ← checked (bigUint64 s);
      checked (Math.SafeMul (toWordSize memSize) 32)
  end.

(** Charge for an operation and make room for it. *)
Definition charge (o : operation) (c : Contract) : X unit :=
  memSize ← requiredMemory o;
  cost ← try (gasCost o DefaultGasTable c memSize);
  match cost with
  | inr _ => fail ErrOutOfGas
  | inl cost =>
      ok ← UseGas cost;
      if negb ok then fail ErrOutOfGas
      else if (0 <? memSize)%Z then memory_Resize memSize else mret tt
  end.

Definition set_returnData (d : bytes) : X unit := modify (fun m => with_g m (with_returnData (m_g m) d)).

(** Execute an operation, and go on ([None]) or end. *)
Definition perform (k : Calls) (o : operation) (c : Contract) : X (option (bytes * option EvmErr)) :=
  r ← try (execute o k c);
  let res := match r with inl res => res | inr _ => [] end in
  _ ← (if returns o then set_returnData res else mret tt);
  match r with
  | inr e => fail e
  | inl _ =>
      if reverts o then mret (Some (res, Some ErrExecutionReverted))
      else if halts o then mret (Some (res, None))
      else if jumps o then mret None
      else
        pc ← gets m_pc;
        _ ← set_pc (u64 (pc + 1));
        mret None
  end.

Definition step (k : Calls) (readOnly : bool) (c : Contract) : X (option (bytes * option EvmErr)) :=
  pc ← gets m_pc;
  match OpCode.of_byte (GetByte c pc) with
  | None => fail ErrInvalidOpcode
  | Some op =>
      match newInstructionSet ctx op with
      | None => fail ErrInvalidOpcode
      | Some o =>
          st ← gets m_stack;
          match validateStack o st with
          | Some e => fail e
          | None =>
              _ ← enforceRestrictions readOnly op o;
              _ ← charge o c;
              perform k o c
          end
      end
  end.

(** The loop; an error ends the run with no data. *)
Fixpoint loop (fuel : nat) (k : Calls) (readOnly : bool) (c : Contract) : X (bytes * option EvmErr) :=
  match fuel with
  | O => out_of_fuel
  | S fuel =>
      r ← try (step k readOnly c);
      match r with
      | inr e => mret ([], Some e)
      | inl (Some r) => mret r
      | inl None => loop fuel k readOnly c
      end
  end.

Definition with_input (c : Contract) (input : bytes) : Contract :=
  mkContract (c_CallerAddress c) (c_self c) (c_Code c) (c_CodeHash c) (c_CodeAddr c) input (c_value c).

(** [EVMInterpreter.Run]; an instruction that goes on costs gas, so the gas bounds the
    number of turns. *)
Definition Run (k : Calls) (readOnly : bool) (c : Contract) (gas : Z) (input : bytes) : G call_res := fun g =>
  let g := with_returnData g [] in
  if length (c_Code c) =? 0 then (XOk ([], gas, None), g)
  else
    match loop (S (Z.to_nat gas)) k readOnly (with_input c input) (mkMachine 0 [] [] 0 gas None g) with
    | (XOk (ret, err), m) => (XOk (ret, m_gas m, err), m_g m)
    | (XErr e, m) => (XErr e, m_g m)
    | (XPanic, m) => (XPanic, m_g m)
    | (XFuel, m) => (XFuel, m_g m)
    end.

(** [run]: a native contract, or the interpreter. *)
Definition run (k : Calls) (readOnly : bool) (c : Contract) (gas : Z) (input : bytes) : G call_res :=
  match c_CodeAddr c ≫= PrecompiledContracts with
  | Some p => lift_go (RunPrecompiledContract p input gas)
  | None => Run k readOnly c gas input
  end.

(** ** Transfers (src/core/chain/evm.go) *)

Definition CanTransfer (addr : bytes) (amount : Z) : G bool :=
  bal ← db (GetBalance addr);
  mret (amount <=? bal)%Z.

(** Add to the first entry for the recipient. *)
Fixpoint addTransfer (recipient : bytes) (amount : Z) (v : list TransferInfo) : option (list TransferInfo) :=
  match v with
  | [] => None
  | w :: v =>
      if bool_decide (ti_To w = recipient)
      then Some (mkTransferInfo (ti_From w) (ti_To w) (u64 (ti_Value w + amount)) :: v)
      else cons w <$> addTransfer recipient amount v
  end.

Definition recordTransfer (sender recipient : bytes) (amount : Z) (g : Global) : Global :=
  let v := default [] (g_Transfers g !! sender) in
  let v := match addTransfer recipient amount v with
           | Some v => v
           | None => v ++ [mkTransferInfo sender recipient amount]
           end in
  mkGlobal (g_db g) (g_returnData g) (g_callGasTemp g) (<[sender := v]> (g_Transfers g)) (g_Created g) (g_jumpdests g) (g_clash g).

Definition Transfer (sender recipient : bytes) (amount : Z) : G unit :=
  _ ← db (SubBalance sender amount);
  _ ← db (AddBalance recipient amount);
  isContract ← db (IsContractAddr sender);
  if (isContract : bool) && (0 <? Big.Uint64 amount)%Z
  then modify (recordTransfer sender recipient (Big.Uint64 amount)) else mret tt.

Definition ContractCreated (caller addr : bytes) (value nonce : Z) : G unit :=
  modify (fun g => mkGlobal (g_db g) (g_returnData g) (g_callGasTemp g) (g_Transfers g)
    (g_Created g ++ [mkCreated caller addr nonce value]) (g_jumpdests g) (g_clash g)).

(** ** Calls (src/vm/evm.go) *)

(** [NewContract]: an account starts with an empty cache of analyses. *)
Definition NewContract (caller : Caller) (object : bytes) (value : Z) : G Contract :=
  let c := mkContract (caller_address caller) object [] Crypto.ZeroHash None [] value in
  match caller with
  | CallerAccount _ => _ ← modify (fun g => with_jumpdests g ∅ (g_clash g)); mret c
  | CallerContract _ => mret c
  end.

(** [AsDelegate]: caller and value of the calling contract. *)
Definition AsDelegate (caller : Caller) (c : Contract) : G Contract :=
  match caller with
  | CallerAccount _ => panic
  | CallerContract p => mret (mkContract (c_CallerAddress p) (c_self c) (c_Code c) (c_CodeHash c) (c_CodeAddr c) (c_Input c) (c_value p))
  end.

Definition SetCode_ (c : Contract) (addr hash code : bytes) : Contract :=
  mkContract (c_CallerAddress c) (c_self c) code hash (Some addr) (c_Input c) (c_value c).

(** [SetCallCode] with the code of [addr]. *)
Definition SetCallCode (c : Contract) (addr : bytes) : G Contract :=
  hash ← db (GetCodeHash addr);
  code ← db (GetCode addr);
  mret (SetCode_ c addr hash code).

(** After a run: on an error go back to the snapshot, and keep the gas only of a revert. *)
Definition settle (snapshot : nat) (r : call_res) : G call_res :=
  let '(ret, gas, err) := r in
  match err with
  | None => mret r
  | Some e =>
      _ ← db (RevertToSnapshot snapshot);
      mret (ret, if bool_decide (e = ErrExecutionReverted) then gas else 0%Z, err)
  end.

(** The type of [run], without the methods it needs. *)
Definition runner : Type := bool -> Contract -> Z -> bytes -> G call_res.

Section Methods.
Context (runf : runner) (depth : Z) (readOnly : bool).

Definition Call (caller : Caller) (addr input : bytes) (gas value : Z) : G call_res :=
  if NoRecursion ctx && (0 <? depth)%Z then mret ([], gas, None)
  else if (CallCreateDepth <? depth)%Z then mret ([], gas, Some ErrDepth)
  else
    can ← CanTransfer (caller_address caller) value;
    if negb can then mret ([], gas, Some ErrInsufficientBalance)
    else
      snapshot ← db Snapshot;
      exists_ ← db (Exist addr);
      if negb exists_ && negb (bool_decide (is_Some (PrecompiledContracts addr))) && (value =? 0)%Z
      then mret ([], gas, None)
      else
        _ ← (if negb exists_ then db (CreateAccount addr) else mret tt);
        _ ← Transfer (caller_address caller) addr value;
        c ← NewContract caller addr value;
        c ← SetCallCode c addr;
        r ← runf readOnly c gas input;
        settle snapshot r.

Definition CallCode (caller : Caller) (addr input : bytes) (gas value : Z) : G call_res :=
  if NoRecursion ctx && (0 <? depth)%Z then mret ([], gas, None)
  else if (CallCreateDepth <? depth)%Z then mret ([], gas, Some ErrDepth)
  else
    can ← CanTransfer (caller_address caller) value;
    if negb can then mret ([], gas, Some ErrInsufficientBalance)
    else
      snapshot ← db Snapshot;
      c ← NewContract caller (caller_address caller) value;
      c ← SetCallCode c addr;
      r ← runf readOnly c gas input;
      settle snapshot r.

Definition DelegateCall (caller : Caller) (addr input : bytes) (gas : Z) : G call_res :=
  if NoRecursion ctx && (0 <? depth)%Z then mret ([], gas, None)
  else if (CallCreateDepth <? depth)%Z then mret ([], gas, Some ErrDepth)
  else
    snapshot ← db Snapshot;
    c ← NewContract caller (caller_address caller) 0;
    c ← AsDelegate caller c;
    c ← SetCallCode c addr;
    r ← runf readOnly c gas input;
    settle snapshot r.

Definition StaticCall (caller : Caller) (addr input : bytes) (gas : Z) : G call_res :=
  if NoRecursion ctx && (0 <? depth)%Z then mret ([], gas, None)
  else if (CallCreateDepth <? depth)%Z then mret ([], gas, Some ErrDepth)
  else
    snapshot ← db Snapshot;
    c ← NewContract caller addr 0;
    c ← SetCallCode c addr;
    _ ← db (AddBalance addr 0);
    r ← runf true c gas input;
    settle snapshot r.

(** The end of [create]: store the code if it is small enough and paid for. *)
Definition storeCode (address : bytes) (snapshot : nat) (r : call_res) : G create_res :=
  let '(ret, gas, err) := r in
  let tooBig := (MaxCodeSize <? Z.of_nat (length ret))%Z in
  '(gas, err) ← match err with
    | Some e => mret (gas, Some e)
    | None =>
        if tooBig then mret (gas, None)
        else
          let createDataGas := u64 (Z.of_nat (length ret) * CreateDataGas) in
          if (gas <? createDataGas)%Z then mret (gas, Some ErrCodeStoreOutOfGas)
          else
            _ ← db (SetCode address ret);
            mret (u64 (gas - createDataGas), None)
    end;
  gas ← (if tooBig || bool_decide (is_Some err) then
           _ ← db (RevertToSnapshot snapshot);
           mret (if bool_decide (err = Some ErrExecutionReverted) then gas else 0%Z)
         else mret gas);
  mret (ret, address, gas, match err with None => if tooBig then Some ErrMaxCodeSizeExceeded else None | Some e => Some e end).

Definition create (caller : Caller) (code codeHash_ : bytes) (gas value : Z) (address : bytes) : G create_res :=
  if (CallCreateDepth <? depth)%Z then mret ([], replicate AddressSize x00, gas, Some ErrDepth)
  else
    can ← CanTransfer (caller_address caller) value;
    if negb can then mret ([], replicate AddressSize x00, gas, Some ErrInsufficientBalance)
    else
      nonce ← db (GetNonce (caller_address caller));
      _ ← db (SetNonce (caller_address caller) (u64 (nonce + 1)));
      contractHash ← db (GetCodeHash address);
      n ← db (GetNonce address);
      if negb (n =? 0)%Z || (negb (bool_decide (contractHash = Crypto.ZeroHash)) && negb (bool_decide (contractHash = emptyCodeHash)))
      then mret ([], replicate AddressSize x00, 0%Z, Some ErrContractAddressCollision)
      else
        snapshot ← db Snapshot;
        _ ← db (CreateAccount address);
        _ ← db (SetNonce address 1);
        _ ← Transfer (caller_address caller) address value;
        _ ← ContractCreated (caller_address caller) address (Big.Uint64 value) (u64 (nonce + 1));
        c ← NewContract caller address value;
        let c := SetCode_ c address codeHash_ code in
        if NoRecursion ctx && (0 <? depth)%Z then mret ([], address, gas, None)
        else
          r ← runf readOnly c gas [];
          storeCode address snapshot r.

(** The hash of the code is only computed for [Create2]. *)
Definition Create (caller : Caller) (code : bytes) (gas value : Z) : G create_res :=
  nonce ← db (GetNonce (caller_address caller));
  create caller code Crypto.ZeroHash gas value (CreateAddress (caller_address caller) (u64 (nonce + 1))).

Definition Create2 (caller : Caller) (code : bytes) (gas endowment salt : Z) : G create_res :=
  let hash := keccak256 code in
  create caller code hash gas endowment (CreateAddress2 (caller_address caller) (BigToHash salt) hash).

(** The methods, as a running contract calls them. *)
Definition methods : Calls := mkCalls
  (fun c => Call (CallerContract c)) (fun c => CallCode (CallerContract c))
  (fun c => DelegateCall (CallerContract c)) (fun c => StaticCall (CallerContract c))
  (fun c => Create (CallerContract c)) (fun c => Create2 (CallerContract c)).

End Methods.

(** Running a contract at a call depth, with fuel for the frames below. *)
Fixpoint run_at (fuel : nat) (depth : Z) (readOnly : bool) (c : Contract) (gas : Z) (input : bytes) : G call_res :=
  match fuel with
  | O => out_of_fuel
  | S fuel => run (methods (run_at fuel (depth + 1)) (depth + 1) readOnly) readOnly c gas input
  end.

(** Frames are at most at depth 1025. *)
Definition frames : nat := 1025.

(** The methods as a transaction calls them. *)
Definition EVM_Call (caller addr input : bytes) (gas value : Z) : G call_res :=
  Call (run_at frames 0) 0 false (CallerAccount caller) addr input gas value.
Definition EVM_StaticCall (caller addr input : bytes) (gas : Z) : G call_res :=
  StaticCall (run_at frames 0) 0 (CallerAccount caller) addr input gas.
Definition EVM_Create (caller code : bytes) (gas value : Z) : G create_res :=
  Create (run_at frames 0) 0 false (CallerAccount caller) code gas value.

End Evm.
