(* ===== verification/EvmAnalysis.v ===== *)
(** * EvmAnalysis: the code bitmap marks exactly the data of push instructions

    The reference is the relation [instr_at]: the offsets that are reached from the start of
    the code by going from each instruction to the next one. *)

From S2P Require Import Prelude EvmMath EvmState EvmMachine.
Import Analysis.

(** Bytes of data after an opcode. *)
Definition pushed (b : byte) : nat :=
  if (0x60 <=? b2z b)%Z && (b2z b <=? 0x7f)%Z then Z.to_nat (b2z b - 0x60 + 1) else 0.

(** From the instruction at [p], the code reaches the instruction at [q]. *)
Inductive reaches (code : bytes) (p : nat) : nat -> Prop :=
| reaches_here : reaches code p p
| reaches_next b q : code !! p = Some b -> reaches code (p + 1 + pushed b) q -> reaches code p q.

(** An instruction starts at [q]. *)
Definition instr_at (code : bytes) (q : nat) : Prop := reaches code 0 q.

Lemma reaches_le code p q : reaches code p q -> p <= q.
Proof. induction 1; lia. Qed.

Lemma reaches_inv code p b q :
  code !! p = Some b -> p <> q -> reaches code p q -> reaches code (p + 1 + pushed b) q.
Proof. intros Hb Hne H. destruct H as [|b' q Hb' H]; [done|]. congruence. Qed.

(** ** Bits *)

Definition marked (bits : bitvec) (q : nat) : bool :=
  match bits !! (q / 8) with
  | Some b => Z.testbit (b2z b) (7 - Z.of_nat (q mod 8))
  | None => false
  end.

Lemma shiftr_one_bit r : (0 <= r < 8)%Z -> Z.shiftr 0x80 r = (2 ^ (7 - r))%Z.
Proof. intros H. assert (r ∈ [0;1;2;3;4;5;6;7])%Z as Hr by (rewrite !elem_of_cons; lia).
  rewrite !elem_of_cons, elem_of_nil in Hr. destruct_or! Hr; by subst. Qed.

Lemma codeSegment_marked bits q :
  q / 8 < length bits -> codeSegment bits (Z.of_nat q) = Returns (negb (marked bits q)).
Proof.
  intros Hq. unfold codeSegment, marked. replace (Z.to_nat (Z.of_nat q / 8)) with (q / 8)
    by (change 8%Z with (Z.of_nat 8); by rewrite <- Nat2Z.inj_div, Nat2Z.id).
  apply lookup_lt_is_Some_2 in Hq as [b ->]. f_equal. change 8%Z with (Z.of_nat 8). rewrite <- Nat2Z.inj_mod.
  pose proof (Nat.mod_upper_bound q 8 ltac:(lia)). rewrite shiftr_one_bit by lia.
  set (i := (7 - Z.of_nat (q mod 8))%Z). destruct (Z.testbit (b2z b) i) eqn:E.
  - apply Z.eqb_neq. intros H0. apply (f_equal (fun z => Z.testbit z i)) in H0.
    rewrite Z.land_spec, E, Z.pow2_bits_true, Z.bits_0 in H0 by lia. done.
  - apply Z.eqb_eq, Z.bits_inj'. intros n Hn. rewrite Z.land_spec, Z.bits_0, Z.pow2_bits_eqb by lia.
    destruct (Z.eqb_spec i n) as [<-|]; [by rewrite E|by rewrite andb_false_r].
Qed.

Lemma byte_lor_bits b m i : (0 <= m < 256)%Z -> (0 <= i < 8)%Z ->
  Z.testbit (b2z (z2b (Z.lor (b2z b) m))) i = Z.testbit (b2z b) i || Z.testbit m i.
Proof.
  intros Hm Hi. rewrite b2z_z2b. change 256%Z with (2 ^ 8)%Z. rewrite Z.mod_pow2_bits_low by lia.
  apply Z.lor_spec.
Qed.

(** The bits an [or_at] adds. *)
Lemma or_at_spec bits i m : i < length bits -> (0 <= m < 256)%Z ->
  exists bits', or_at bits i m = Returns bits' /\ length bits' = length bits /\
    forall q, marked bits' q = marked bits q || (bool_decide (q / 8 = i) && Z.testbit m (7 - Z.of_nat (q mod 8))).
Proof.
  intros Hi Hm. unfold or_at. apply lookup_lt_is_Some_2 in Hi as [b Hb]. rewrite Hb.
  eexists. split; [done|]. split; [by rewrite length_insert|]. intros q. unfold marked.
  pose proof (Nat.mod_upper_bound q 8 ltac:(lia)). case_bool_decide as E.
  - subst i. rewrite list_lookup_insert_eq, Hb by (by eapply lookup_lt_Some). by rewrite byte_lor_bits by lia.
  - rewrite list_lookup_insert_ne by done. by rewrite orb_false_r.
Qed.

(** The mask of the first byte of [set8]: its low [8 - r] bits. *)
Lemma mask8 r j : (0 <= r < 8)%Z -> (0 <= j < 8)%Z ->
  Z.testbit (Z.shiftr 0xff r) (7 - j) = (r <=? j)%Z /\ Z.testbit (Z.lxor 0xff (Z.shiftr 0xff r)) (7 - j) = (j <? r)%Z.
Proof.
  intros Hr Hj. change 0xff%Z with (Z.ones 8). rewrite Z.lxor_spec, Z.shiftr_spec, !Z.testbit_ones_nonneg by lia.
  destruct (Z.leb_spec r j), (Z.ltb_spec j r), (Z.ltb_spec (7 - j + r) 8), (Z.ltb_spec (7 - j) 8); try lia; done.
Qed.

Lemma shiftr_mask_bound m r : (0 <= m < 256)%Z -> (0 <= r)%Z -> (0 <= Z.shiftr m r < 256)%Z.
Proof.
  intros Hm Hr. rewrite Z.shiftr_div_pow2 by done. split; [apply Z.div_pos; lia|].
  apply Z.div_lt_upper_bound; [lia|]. nia.
Qed.

Lemma lxor_mask_bound r : (0 <= r)%Z -> (0 <= Z.lxor 0xff (Z.shiftr 0xff r) < 256)%Z.
Proof.
  intros Hr. pose proof (shiftr_mask_bound 0xff r ltac:(lia) Hr) as H. split; [apply Z.lxor_nonneg; lia|].
  change 256%Z with (2 ^ 8)%Z. apply Z.log2_lt_cancel. rewrite Z.log2_pow2 by lia.
  pose proof (Z.log2_lxor 0xff (Z.shiftr 0xff r) ltac:(lia) ltac:(lia)).
  assert (Z.log2 (Z.shiftr 0xff r) <= 7)%Z by (change 7%Z with (Z.log2 255); apply Z.log2_le_mono; lia).
  change (Z.log2 255) with 7%Z in *. lia.
Qed.

Lemma pos_div (q : nat) : Z.to_nat (Z.of_nat q / 8) = q / 8.
Proof. change 8%Z with (Z.of_nat 8). by rewrite <- Nat2Z.inj_div, Nat2Z.id. Qed.

Lemma pos_mod (q : nat) : (Z.of_nat q mod 8 = Z.of_nat (q mod 8))%Z.
Proof. change 8%Z with (Z.of_nat 8). by rewrite <- Nat2Z.inj_mod. Qed.

(** [set] and [set8] add the bits of a range. *)
Definition adds (lo hi : nat) (bits bits' : bitvec) : Prop :=
  length bits' = length bits /\ forall q, marked bits' q = marked bits q || ((lo <=? q) && (q <? hi)).

Lemma adds_trans a b c x y z : a <= b -> b <= c -> adds a b x y -> adds b c y z -> adds a c x z.
Proof.
  intros Hab Hbc [L1 H1] [L2 H2]. split; [congruence|]. intros q. rewrite H2, H1, <- orb_assoc. f_equal.
  apply Bool.eq_iff_eq_true. rewrite orb_true_iff, !andb_true_iff, !Nat.leb_le, !Nat.ltb_lt. lia.
Qed.

Lemma adds_refl a x : adds a a x x.
Proof.
  split; [done|]. intros q. apply Bool.eq_iff_eq_true. rewrite orb_true_iff, !andb_true_iff, !Nat.leb_le, !Nat.ltb_lt.
  split; [by left|]. intros [?|?]; [done|lia].
Qed.

Lemma set_spec bits p : p / 8 < length bits -> exists bits', set bits (Z.of_nat p) = Returns bits' /\ adds p (p + 1) bits bits'.
Proof.
  intros Hp. unfold set. rewrite pos_div, pos_mod. pose proof (Nat.mod_upper_bound p 8 ltac:(lia)).
  destruct (or_at_spec bits (p / 8) (Z.shiftr 0x80 (Z.of_nat (p mod 8))) Hp) as (bits' & E & L & H');
    [apply shiftr_mask_bound; lia|].
  exists bits'. split; [done|]. split; [done|]. intros q. rewrite H'. f_equal.
  rewrite shiftr_one_bit, Z.pow2_bits_eqb by lia. pose proof (Nat.mod_upper_bound q 8 ltac:(lia)).
  pose proof (Nat.div_mod p 8 ltac:(lia)). pose proof (Nat.div_mod q 8 ltac:(lia)).
  apply Bool.eq_iff_eq_true. rewrite !andb_true_iff, bool_decide_eq_true, Z.eqb_eq, Nat.leb_le, Nat.ltb_lt. lia.
Qed.

Lemma set8_spec bits p : p / 8 + 1 < length bits -> exists bits', set8 bits (Z.of_nat p) = Returns bits' /\ adds p (p + 8) bits bits'.
Proof.
  intros Hp. unfold set8. rewrite pos_div, pos_mod. pose proof (Nat.mod_upper_bound p 8 ltac:(lia)) as Hr.
  set (r := Z.of_nat (p mod 8)).
  destruct (or_at_spec bits (p / 8) (Z.shiftr 0xff r) ltac:(lia)) as (b1 & E1 & L1 & H1); [apply shiftr_mask_bound; lia|].
  destruct (or_at_spec b1 (p / 8 + 1) (Z.lxor 0xff (Z.shiftr 0xff r)) ltac:(lia)) as (b2 & E2 & L2 & H2);
    [apply lxor_mask_bound; lia|].
  exists b2. split; [by rewrite E1|]. split; [congruence|].
  intros q. rewrite H2, H1, <- orb_assoc. f_equal. pose proof (Nat.mod_upper_bound q 8 ltac:(lia)).
  destruct (mask8 r (Z.of_nat (q mod 8)) ltac:(lia) ltac:(lia)) as [-> ->].
  pose proof (Nat.div_mod p 8 ltac:(lia)). pose proof (Nat.div_mod q 8 ltac:(lia)).
  apply Bool.eq_iff_eq_true.
  rewrite orb_true_iff, !andb_true_iff, !bool_decide_eq_true, Z.leb_le, Z.ltb_lt, Nat.leb_le, Nat.ltb_lt. lia.
Qed.

(** ** The loops *)

Lemma returns_bind {A B} (a : A) (k : A -> go B) : (Returns a ≫= k) = k a.
Proof. done. Qed.

Lemma markBytes_spec n bits p : (p + n) / 8 < length bits ->
  exists bits', markBytes n bits (Z.of_nat p) = Returns (bits', Z.of_nat (p + n / 8 * 8)) /\ adds p (p + n / 8 * 8) bits bits'.
Proof.
  revert bits p. induction (lt_wf n) as [n _ IH]. intros bits p Hp.
  destruct (decide (n < 8)) as [Hn|Hn].
  { exists bits. rewrite Nat.div_small, Nat.add_0_r by done. split; [|apply adds_refl].
    do 8 (destruct n as [|n]; [done|]). lia. }
  do 8 (destruct n as [|n]; [lia|]). clear Hn. cbn [markBytes].
  assert (S (S (S (S (S (S (S (S n))))))) / 8 = 1 + n / 8) as Hd
    by (replace (S (S (S (S (S (S (S (S n)))))))) with (1 * 8 + n) by lia; by rewrite Nat.div_add_l).
  destruct (set8_spec bits p) as (b1 & E1 & A1).
  { assert (p / 8 + 1 = (p + 8) / 8) as -> by (replace (p + 8) with (p + 1 * 8) by lia; by rewrite Nat.div_add by lia).
    eapply Nat.le_lt_trans; [|exact Hp]. apply Nat.Div0.div_le_mono. lia. }
  destruct (IH n ltac:(lia) b1 (p + 8)) as (b2 & E2 & A2).
  { destruct A1 as [-> _]. eapply Nat.le_lt_trans; [|exact Hp]. apply Nat.Div0.div_le_mono. lia. }
  exists b2. rewrite E1, returns_bind.
  replace (Z.of_nat p + 8)%Z with (Z.of_nat (p + 8)) by lia. rewrite E2, Hd.
  replace (p + 8 + n / 8 * 8) with (p + (1 + n / 8) * 8) in * by lia. split; [done|].
  eapply adds_trans; [| |exact A1|exact A2]; lia.
Qed.

Lemma markBits_spec n bits p : (p + n) / 8 < length bits ->
  exists bits', markBits n bits (Z.of_nat p) = Returns (bits', Z.of_nat (p + n)) /\ adds p (p + n) bits bits'.
Proof.
  revert bits p. induction n as [|n IH]; intros bits p Hp.
  { exists bits. rewrite Nat.add_0_r. split; [done|apply adds_refl]. }
  cbn [markBits]. destruct (set_spec bits p) as (b1 & E1 & A1).
  { eapply Nat.le_lt_trans; [|exact Hp]. apply Nat.Div0.div_le_mono. lia. }
  destruct (IH b1 (p + 1)) as (b2 & E2 & A2).
  { destruct A1 as [-> _]. by replace (p + 1 + n) with (p + S n) by lia. }
  exists b2. rewrite E1, returns_bind. replace (Z.of_nat p + 1)%Z with (Z.of_nat (p + 1)) by lia. rewrite E2.
  replace (p + 1 + n) with (p + S n) in * by lia. split; [done|]. eapply adds_trans; [| |exact A1|exact A2]; lia.
Qed.

(** The whole of a push instruction. *)
Lemma mark_spec n bits p : (p + n) / 8 < length bits ->
  exists bits', ('(bits, pc) ← markBytes n bits (Z.of_nat p); markBits (n mod 8) bits pc) = Returns (bits', Z.of_nat (p + n)) /\
    adds p (p + n) bits bits'.
Proof.
  intros Hp. pose proof (Nat.div_mod n 8 ltac:(lia)) as Hn.
  destruct (markBytes_spec n bits p Hp) as (b1 & E1 & A1). rewrite E1, returns_bind.
  destruct (markBits_spec (n mod 8) b1 (p + n / 8 * 8)) as (b2 & E2 & A2).
  { destruct A1 as [-> _]. by replace (p + n / 8 * 8 + n mod 8) with (p + n) by lia. }
  replace (p + n / 8 * 8 + n mod 8) with (p + n) in * by lia. exists b2. split; [exact E2|].
  eapply adds_trans; [| |exact A1|exact A2]; lia.
Qed.

(** One turn of the loop. *)
Lemma bitmapLoop_turn fuel code bits p b :
  code !! p = Some b -> (p + 1 + pushed b) / 8 < length bits ->
  exists bits', bitmapLoop (S fuel) code bits (Z.of_nat p) = bitmapLoop fuel code bits' (Z.of_nat (p + 1 + pushed b)) /\
    adds (p + 1) (p + 1 + pushed b) bits bits'.
Proof.
  intros Hb Hp. cbn [bitmapLoop]. rewrite Nat2Z.id, Hb. replace (Z.of_nat p + 1)%Z with (Z.of_nat (p + 1)) by lia.
  unfold pushed in *. destruct (_ && _).
  - destruct (mark_spec _ bits (p + 1) Hp) as (b2 & E2 & A2). exists b2. split; [|done]. cbn zeta in *.
    destruct (markBytes _ bits _) as [[b1 pc1]|]; [|done]. cbn in E2 |- *. by rewrite E2.
  - exists bits. rewrite Nat.add_0_r. split; [done|apply adds_refl].
Qed.

(** From offset [p] the loop marks the offsets it passes over that are not instructions. *)
Lemma bitmapLoop_spec fuel code bits p :
  length code <= p + fuel -> length bits = length code / 8 + 5 -> (forall q, p <= q -> marked bits q = false) ->
  exists bits', bitmapLoop fuel code bits (Z.of_nat p) = Returns bits' /\ length bits' = length bits /\
    (forall q, q < p -> marked bits' q = marked bits q) /\
    (forall q, p <= q < length code -> marked bits' q = false <-> reaches code p q).
Proof.
  revert bits p. induction fuel as [|fuel IH]; intros bits p Hf Hl Hm.
  { exists bits. split_and!; [done..|]. lia. }
  destruct (code !! p) as [b|] eqn:Hb.
  2: { exists bits. cbn [bitmapLoop]. rewrite Nat2Z.id, Hb. apply lookup_ge_None in Hb.
       split_and!; [done..|]. lia. }
  pose proof (lookup_lt_Some _ _ _ Hb) as Hlt.
  assert (pushed b <= 32) as H32 by (unfold pushed; case_match; [bool_to_prop|]; lia).
  destruct (bitmapLoop_turn fuel code bits p b Hb) as (b1 & E1 & L1 & A1).
  { rewrite Hl. pose proof (Nat.div_mod (length code) 8 ltac:(lia)). pose proof (Nat.mod_upper_bound (length code) 8 ltac:(lia)).
    apply Nat.Div0.div_lt_upper_bound. lia. }
  destruct (IH b1 (p + 1 + pushed b)) as (b2 & E2 & L2 & B2 & R2); [lia|congruence| |].
  { intros q Hq. rewrite A1, Hm by lia. apply andb_false_iff. right. apply Nat.ltb_ge. lia. }
  exists b2. split_and!; [congruence|congruence| |].
  - intros q Hq. rewrite B2, A1 by lia. replace (p + 1 <=? q) with false by (symmetry; apply Nat.leb_gt; lia).
    by rewrite orb_false_r.
  - intros q Hq. destruct (decide (q < p + 1 + pushed b)) as [Hin|Hout].
    + rewrite B2, A1, Hm, orb_false_l by lia. destruct (decide (p = q)) as [<-|Hne].
      * split; [by constructor|]. intros _. apply andb_false_iff. left. apply Nat.leb_gt. lia.
      * split; [|intros R%(reaches_inv _ _ b)%reaches_le; [lia|done..]].
        intros F. apply andb_false_iff in F as [F%Nat.leb_gt|F%Nat.ltb_ge]; lia.
    + rewrite R2 by lia. split; [by apply reaches_next|]. intros R. apply (reaches_inv _ _ b) in R; [done|done|lia].
Qed.

Lemma codeBitmap_ok code :
  exists bits, codeBitmap code = Returns bits /\ length bits = length code / 8 + 5 /\
    forall q, q < length code -> marked bits q = false <-> instr_at code q.
Proof.
  destruct (bitmapLoop_spec (length code) code (replicate (length code / 8 + 1 + 4) x00) 0) as (bits & E & L & _ & R).
  - lia.
  - rewrite length_replicate. lia.
  - intros q _. unfold marked. destruct (_ !! _) eqn:E; [|done]. apply lookup_replicate in E as [-> _]. apply Z.bits_0.
  - exists bits. split; [exact E|]. rewrite length_replicate in L. split; [lia|]. intros q Hq. apply R. lia.
Qed.

Lemma codeSegment_ok code bits p : codeBitmap code = Returns bits -> p < length code ->
  exists b, codeSegment bits (Z.of_nat p) = Returns b /\ (b = true <-> instr_at code p).
Proof.
  intros E Hp. destruct (codeBitmap_ok code) as (bits' & E' & L & H). rewrite E in E'. injection E' as <-.
  eexists. split; [apply codeSegment_marked|].
  - rewrite L. pose proof (Nat.Div0.div_le_mono p (length code) 8 ltac:(lia)). lia.
  - rewrite <- H by done. by destruct (marked bits p).
Qed.

(** the jump-destination analysis is right: [codeBitmap] never runs out of its buffer,
    and for every offset of the code, [codeSegment] answers that it is code exactly when an
    instruction starts there, as opposed to the data of a push instruction. *)
Theorem code_bitmap_exact (code : bytes) :
  exists bits, codeBitmap code = Returns bits /\
    forall p, p < length code -> exists b, codeSegment bits (Z.of_nat p) = Returns b /\ (b = true <-> instr_at code p).
Proof.
  destruct (codeBitmap_ok code) as (bits & E & _). exists bits. split; [done|].
  intros p. by apply codeSegment_ok.
Qed.
