(* ===== verification/EvmArith.v ===== *)
(** * EvmArith: the arithmetic instructions compute on 256-bit words

    The reference operations are the integer operations on the values of the operands,
    unsigned ([x] itself) or in two's complement ([signed x]), and reduction modulo
    2^256. *)

From S2P Require Import Prelude EvmMath EvmState EvmMachine EvmGas EvmInstr.
Import Math.

(** Reduction modulo 2^256, and the two's complement value of a word. *)
Definition wrap (z : Z) : Z := z mod 2 ^ 256.
Definition signed (x : Z) : Z := if (2 ^ 255 <=? x)%Z then x - 2 ^ 256 else x.

(** The low [n] bits of [x], as a signed number. *)
Definition signed_low (n x : Z) : Z :=
  let v := (x mod 2 ^ n)%Z in if (2 ^ (n - 1) <=? v)%Z then v - 2 ^ n else v.

Lemma U256_wrap x : U256 x = wrap x.
Proof. apply U256_mod. Qed.

Lemma S256_signed x : S256 x = signed x.
Proof. unfold S256, signed, tt255, tt256. case_match; case_match; bool_to_prop; lia. Qed.

Lemma wrap_small x : word x -> wrap x = x.
Proof. apply Z.mod_small. Qed.

Lemma wrap_word x : word (wrap x).
Proof. apply Z.mod_pos_bound. lia. Qed.

Lemma signed_zero x : word x -> signed x = 0%Z <-> x = 0%Z.
Proof. unfold word, signed. intros. case_match; bool_to_prop; lia. Qed.

Module Arith_ok.
Import Arith.

Lemma div_ok x y : word x -> word y -> div x y = if (y =? 0)%Z then 0%Z else (x / y)%Z.
Proof.
  unfold word, div, bigDiv. intros. destruct (Z.eqb_spec y 0); [done|]. simpl.
  rewrite Z.sgn_pos, Z.abs_eq, Z.mul_1_l, U256_wrap by lia. apply wrap_small. split; [apply Z.div_pos; lia|].
  apply Z.div_lt_upper_bound; nia.
Qed.

Lemma mod_ok x y : word x -> word y -> mod_ x y = if (y =? 0)%Z then 0%Z else (x mod y)%Z.
Proof.
  unfold word, mod_, bigMod. intros. destruct (Z.eqb_spec y 0); [done|].
  rewrite Z.abs_eq, U256_wrap by lia. apply wrap_small. pose proof (Z.mod_pos_bound x y ltac:(lia)). unfold word. lia.
Qed.

(** Truncated division from the division of magnitudes. *)
Lemma quot_abs x y : y <> 0%Z ->
  (if negb (Z.sgn x =? Z.sgn y)%Z then - (Z.abs x / Z.abs y) else Z.abs x / Z.abs y)%Z = Z.quot x y \/ x = 0%Z.
Proof.
  intros Hy. destruct (decide (x = 0%Z)); [by right|]. left.
  rewrite Z.quot_div by done.
  destruct (Z.lt_total x 0) as [?|[?|?]], (Z.lt_total y 0) as [?|[?|?]]; try lia;
    rewrite ?(Z.sgn_neg x), ?(Z.sgn_pos x), ?(Z.sgn_neg y), ?(Z.sgn_pos y) by lia; simpl; lia.
Qed.

Lemma sdiv_ok x y : word x -> word y -> sdiv x y = if (y =? 0)%Z then 0%Z else wrap (Z.quot (signed x) (signed y)).
Proof.
  intros Hx Hy. unfold sdiv. rewrite !S256_signed. destruct (Z.eqb_spec y 0) as [->|Hy0]; [done|].
  pose proof (signed_zero y Hy) as [Hsy _]. destruct (Z.eqb_spec (signed y) 0) as [E|E]; [lia|]. simpl.
  destruct (Z.eqb_spec (signed x) 0) as [E'|E']; [by rewrite E', Z.quot_0_l|].
  unfold bigDiv. rewrite (Z.sgn_pos (Z.abs (signed y))), Z.mul_1_l, (Z.abs_eq (Z.abs (signed y))), U256_wrap by lia.
  destruct (quot_abs (signed x) (signed y) E) as [->|?]; done.
Qed.

Lemma smod_ok x y : word x -> word y -> smod x y = if (y =? 0)%Z then 0%Z else wrap (Z.rem (signed x) (signed y)).
Proof.
  intros Hx Hy. unfold smod. rewrite !S256_signed. destruct (Z.eqb_spec y 0) as [->|Hy0]; [done|].
  pose proof (signed_zero y Hy) as [Hsy _]. destruct (Z.eqb_spec (signed y) 0) as [E|E]; [lia|].
  unfold bigMod. rewrite (Z.abs_eq (Z.abs (signed y))), U256_wrap by lia. f_equal.
  rewrite <- Z.rem_abs_r by done. set (b := Z.abs (signed y)) in *. assert (0 < b)%Z by lia.
  destruct (Z.ltb_spec (signed x) 0).
  - rewrite Z.abs_neq, <- Z.rem_mod_nonneg by lia. rewrite Z.rem_opp_l by lia. lia.
  - by rewrite Z.abs_eq, Z.rem_mod_nonneg by lia.
Qed.

Lemma exp_ok x y : word x -> word y -> exp x y = wrap (x ^ y).
Proof.
  unfold word, exp. intros. destruct (Z.ltb_spec y 1); [by assert (y = 0)%Z as -> by lia|].
  destruct (Z.eqb_spec x 0) as [->|]; [by rewrite Z.pow_0_l by lia|].
  destruct (Z.eqb_spec y 1) as [->|]; [by rewrite Z.pow_1_r, wrap_small|]. by apply Exp_pow; lia.
Qed.

Lemma addmod_ok x y z : word z -> addmod x y z = if (z =? 0)%Z then 0%Z else ((x + y) mod z)%Z.
Proof.
  unfold word, addmod, bigMod. intros. destruct (Z.eqb_spec z 0) as [->|]; [done|].
  destruct (Z.ltb_spec 0 z); [|lia]. rewrite Z.abs_eq, U256_wrap by lia. apply wrap_small.
  pose proof (Z.mod_pos_bound (x + y) z ltac:(lia)). unfold word. lia.
Qed.

Lemma mulmod_ok x y z : word z -> mulmod x y z = if (z =? 0)%Z then 0%Z else ((x * y) mod z)%Z.
Proof.
  unfold word, mulmod, bigMod. intros. destruct (Z.eqb_spec z 0) as [->|]; [done|].
  destruct (Z.ltb_spec 0 z); [|lia]. rewrite Z.abs_eq, U256_wrap by lia. apply wrap_small.
  pose proof (Z.mod_pos_bound (x * y) z ltac:(lia)). unfold word. lia.
Qed.

Lemma slt_ok x y : word x -> word y -> slt x y = b2w (signed x <? signed y)%Z.
Proof.
  unfold word. intros. unfold slt, signed, tt255. repeat case_match; bool_to_prop; unfold b2w; try lia; try done;
    repeat case_match; bool_to_prop; lia.
Qed.

Lemma not_ok x : word x -> not x = (2 ^ 256 - 1 - x)%Z.
Proof.
  unfold word, not. intros. rewrite U256_wrap, <- (Z.mod_small (2 ^ 256 - 1 - x) (2 ^ 256)) by lia.
  unfold Z.lnot, wrap. replace (2 ^ 256 - 1 - x)%Z with (Z.pred (- x) + 1 * 2 ^ 256)%Z by lia. by rewrite Z.mod_add.
Qed.

Lemma sgt_ok x y : word x -> word y -> sgt x y = b2w (signed y <? signed x)%Z.
Proof.
  unfold word. intros. unfold sgt, signed, tt255. repeat case_match; bool_to_prop; unfold b2w; try lia; try done;
    repeat case_match; bool_to_prop; lia.
Qed.

Lemma iszero_ok x : word x -> iszero x = b2w (x =? 0)%Z.
Proof. unfold word, iszero, b2w. intros. repeat case_match; bool_to_prop; lia. Qed.

Lemma byte_ok i x : word i -> word x ->
  byte_ i x = if (i <? 32)%Z then ((x / 256 ^ (31 - i)) mod 256)%Z else 0%Z.
Proof.
  unfold word, byte_. intros. destruct (Z.ltb_spec i 32); [|done].
  assert (Big.Int64 i = i) as ->.
  { unfold Big.Int64. destruct (Z.ltb_spec i 0); [lia|]. rewrite Z.abs_eq by lia. apply i64_small. lia. }
  unfold Byte. destruct (Nat.leb_spec 32 (Z.to_nat i)); [lia|].
  rewrite bigEndianByteAt_spec by lia. do 2 f_equal. f_equal. lia.
Qed.

Lemma shift_amount s : word s -> (s < 256)%Z -> Big.Uint64 s = s.
Proof. unfold word. intros. unfold Big.Uint64. rewrite Z.abs_eq by lia. apply u64_small. lia. Qed.

Lemma shl_ok s x : word s -> word x -> shl s x = if (s <? 256)%Z then wrap (x * 2 ^ s) else 0%Z.
Proof.
  intros Hs Hx. unfold shl. rewrite (U256_small s), (U256_small x) by done. rewrite Z.ltb_antisym. destruct (Z.leb_spec 256 s); [done|].
  cbn [negb]. pose proof Hs as []. rewrite shift_amount, U256_wrap, Z.shiftl_mul_pow2 by (done || lia). done.
Qed.

Lemma shr_ok s x : word s -> word x -> shr s x = if (s <? 256)%Z then (x / 2 ^ s)%Z else 0%Z.
Proof.
  intros Hs Hx. unfold shr. rewrite (U256_small s), (U256_small x) by done. rewrite Z.ltb_antisym. destruct (Z.leb_spec 256 s); [done|].
  cbn [negb]. pose proof Hs as []. rewrite shift_amount, U256_wrap, Z.shiftr_div_pow2 by (done || lia). apply wrap_small.
  destruct Hx. split; [apply Z.div_pos; lia|]. apply Z.div_lt_upper_bound; nia.
Qed.

Lemma sar_ok s x : word s -> word x ->
  sar s x = if (s <? 256)%Z then wrap (signed x / 2 ^ s) else if (signed x <? 0)%Z then (2 ^ 256 - 1)%Z else 0%Z.
Proof.
  intros Hs Hx. unfold sar. rewrite U256_small, S256_signed by done. rewrite (Z.ltb_antisym 256 s), (Z.ltb_antisym 0 (signed x)).
  destruct (Z.leb_spec 256 s); cbn [negb].
  - by destruct (Z.leb_spec 0 (signed x)).
  - pose proof Hs as []. rewrite shift_amount, U256_wrap, Z.shiftr_div_pow2 by (done || lia). done.
Qed.

Lemma land_mask_neg num n : (0 <= n)%Z -> Z.land num (Z.shiftl 1 n - 1) = (num mod 2 ^ n)%Z.
Proof. intros. rewrite Z.shiftl_1_l, Z.sub_1_r, <- Z.ones_equiv. by apply Z.land_ones. Qed.

Lemma lor_mask num n : (0 <= n)%Z -> Z.lor num (Z.lnot (Z.shiftl 1 n - 1)) = (num mod 2 ^ n - 2 ^ n)%Z.
Proof.
  intros Hn. rewrite <- (Z.lnot_involutive num) at 1. rewrite <- Z.lnot_land, land_mask_neg by done.
  unfold Z.lnot.
  assert (Z.pred (- num) = (-1 - num mod 2 ^ n) + (- (num / 2 ^ n)) * 2 ^ n)%Z as ->
    by (pose proof (Z.div_mod num (2 ^ n) ltac:(lia)); lia).
  rewrite Z.mod_add by lia. pose proof (Z.mod_pos_bound num (2 ^ n) ltac:(lia)).
  replace (-1 - num mod 2 ^ n)%Z with ((2 ^ n - 1 - num mod 2 ^ n) + (-1) * 2 ^ n)%Z by lia.
  rewrite Z.mod_add, Z.mod_small by lia. lia.
Qed.

(** Sign extension from byte [b]: the low [8 * (b + 1)] bits as a signed number. *)
Lemma signExtend_ok b x : word b -> word x -> (b < 31)%Z ->
  signExtend b x = Some (wrap (signed_low (8 * (b + 1)) x)).
Proof.
  unfold word, signExtend. intros Hb Hx Hlt. destruct (Z.ltb_spec b 31); [|lia]. f_equal.
  assert (u64 (Big.Uint64 b * 8 + 7) = 8 * b + 7)%Z as ->.
  { rewrite shift_amount by (unfold word; lia). rewrite u64_small; lia. }
  rewrite U256_wrap. f_equal. set (t := (8 * b + 7)%Z). unfold signed_low.
  replace (8 * (b + 1))%Z with (t + 1)%Z by lia. replace (t + 1 - 1)%Z with t by lia.
  assert (x mod 2 ^ (t + 1) = x mod 2 ^ t + 2 ^ t * (x / 2 ^ t mod 2))%Z as ->
    by (rewrite Z.pow_add_r, Z.pow_1_r by lia; by apply Z.rem_mul_r; lia).
  pose proof (Z.mod_pos_bound x (2 ^ t) ltac:(lia)). rewrite Z.testbit_eqb by lia.
  pose proof (Z.mod_pos_bound (x / 2 ^ t) 2 ltac:(lia)). rewrite Z.pow_add_r, Z.pow_1_r by lia.
  destruct (Z.eqb_spec (x / 2 ^ t mod 2) 1) as [E|E].
  - rewrite lor_mask, E by lia. destruct (Z.leb_spec (2 ^ t) (x mod 2 ^ t + 2 ^ t * 1)); lia.
  - assert (x / 2 ^ t mod 2 = 0)%Z as -> by lia. rewrite land_mask_neg by lia.
    destruct (Z.leb_spec (2 ^ t) (x mod 2 ^ t + 2 ^ t * 0)); lia.
Qed.

End Arith_ok.

(** ** The instructions *)

Section Instructions.
Context {D : StateDB}.

(** The instruction takes operands from the top of the stack of [m] and leaves [r]. *)
Definition leaves (op : X bytes) (m : Machine) (st : list Z) (r : Z) : Prop :=
  op m = (XOk [], with_stack m (r :: st)).

Lemma op1_leaves f m x st r : m_stack m = x :: st -> f x = r -> leaves (op1 f) m st r.
Proof. intros E <-. unfold leaves, op1, pop, push, modify, mbind, ST_bind, mret, ST_ret. by rewrite E. Qed.

Lemma op2_leaves f m x y st r : m_stack m = x :: y :: st -> f x y = r -> leaves (op2 f) m st r.
Proof. intros E <-. unfold leaves, op2, pop, push, modify, mbind, ST_bind, mret, ST_ret. by rewrite E. Qed.

Lemma op3_leaves f m x y z st r : m_stack m = x :: y :: z :: st -> f x y z = r -> leaves (op3 f) m st r.
Proof. intros E <-. unfold leaves, op3, pop, push, modify, mbind, ST_bind, mret, ST_ret. by rewrite E. Qed.

Lemma opSignExtend_leaves m b x st : m_stack m = b :: x :: st -> word b -> word x ->
  leaves opSignExtend m st (if (b <? 31)%Z then wrap (signed_low (8 * (b + 1)) x) else x).
Proof.
  intros E Hb Hx. unfold leaves, opSignExtend, pop, push, modify, mbind, ST_bind, mret, ST_ret. rewrite E.
  cbn -[Arith.signExtend signed_low wrap Z.ltb Z.mul Z.add].
  destruct (Z.ltb_spec b 31); [|done]. cbn -[Arith.signExtend signed_low wrap Z.mul Z.add].
  by rewrite Arith_ok.signExtend_ok.
Qed.

(** C38: the arithmetic instructions, on 256-bit words, compute the integer operation: sums,
    differences, products and powers modulo 2^256, unsigned and signed (truncated) division
    and remainder with zero for a zero divisor (-2^255 by -1 included), and sums and products
    modulo a third operand without intermediate overflow. *)
Theorem arithmetic_instructions m x y z st : word x -> word y -> word z -> m_stack m = x :: y :: z :: st ->
  leaves opAdd m (z :: st) (wrap (x + y)) /\
  leaves opSub m (z :: st) (wrap (x - y)) /\
  leaves opMul m (z :: st) (wrap (x * y)) /\
  leaves opDiv m (z :: st) (if (y =? 0)%Z then 0 else x / y)%Z /\
  leaves opSdiv m (z :: st) (if (y =? 0)%Z then 0%Z else wrap (Z.quot (signed x) (signed y))) /\
  leaves opMod m (z :: st) (if (y =? 0)%Z then 0 else x mod y)%Z /\
  leaves opSmod m (z :: st) (if (y =? 0)%Z then 0%Z else wrap (Z.rem (signed x) (signed y))) /\
  leaves opExp m (z :: st) (wrap (x ^ y)) /\
  leaves opAddmod m st (if (z =? 0)%Z then 0 else (x + y) mod z)%Z /\
  leaves opMulmod m st (if (z =? 0)%Z then 0 else (x * y) mod z)%Z.
Proof.
  intros Hx Hy Hz E. split_and!; (eapply op2_leaves + eapply op3_leaves); try exact E.
  - apply U256_wrap.
  - apply U256_wrap.
  - apply U256_wrap.
  - by apply Arith_ok.div_ok.
  - by apply Arith_ok.sdiv_ok.
  - by apply Arith_ok.mod_ok.
  - by apply Arith_ok.smod_ok.
  - by apply Arith_ok.exp_ok.
  - by apply Arith_ok.addmod_ok.
  - by apply Arith_ok.mulmod_ok.
Qed.

(** the comparison, bit, byte, shift and sign-extension instructions, on 256-bit words:
    signed comparisons compare two's complement values, BYTE counts from the most significant
    byte, shifts of 256 or more give zero (or the sign, for SAR, which rounds down), and
    SIGNEXTEND reads the low bytes as a signed number. *)
Theorem logic_instructions m x y st : word x -> word y -> m_stack m = x :: y :: st ->
  leaves opLt m st (Arith.b2w (x <? y)%Z) /\
  leaves opGt m st (Arith.b2w (y <? x)%Z) /\
  leaves opSlt m st (Arith.b2w (signed x <? signed y)%Z) /\
  leaves opSgt m st (Arith.b2w (signed y <? signed x)%Z) /\
  leaves opEq m st (Arith.b2w (x =? y)%Z) /\
  leaves opIszero m (y :: st) (Arith.b2w (x =? 0)%Z) /\
  leaves opNot m (y :: st) (2 ^ 256 - 1 - x) /\
  leaves opByte m st (if (x <? 32)%Z then (y / 256 ^ (31 - x)) mod 256 else 0)%Z /\
  leaves opSHL m st (if (x <? 256)%Z then wrap (y * 2 ^ x) else 0%Z) /\
  leaves opSHR m st (if (x <? 256)%Z then y / 2 ^ x else 0)%Z /\
  leaves opSAR m st (if (x <? 256)%Z then wrap (signed y / 2 ^ x) else if (signed y <? 0)%Z then 2 ^ 256 - 1 else 0)%Z /\
  leaves opSignExtend m st (if (x <? 31)%Z then wrap (signed_low (8 * (x + 1)) y) else y).
Proof.
  intros Hx Hy E. split_and!; try (by apply opSignExtend_leaves);
    (eapply op2_leaves + eapply op1_leaves); try exact E; try done.
  - by apply Arith_ok.slt_ok.
  - by apply Arith_ok.sgt_ok.
  - by apply Arith_ok.iszero_ok.
  - by apply Arith_ok.not_ok.
  - by apply Arith_ok.byte_ok.
  - by apply Arith_ok.shl_ok.
  - by apply Arith_ok.shr_ok.
  - by apply Arith_ok.sar_ok.
Qed.

End Instructions.
