(* ===== verification/EvmInv.v ===== *)
(** * EvmInv: a program logic for the machine, and its invariants

    [wp] is the weakest precondition of an operation: where it ends well, with an error, or
    in a panic; running out of fuel is never allowed.  The rules below and the tactic
    [wp_auto] execute instructions symbolically on an explicit machine. *)

From S2P Require Import Prelude Crypto EvmMath EvmOpcode EvmState EvmMachine EvmGas EvmInstr EvmAnalysis.
Definition wp {S A} (P : S -> Prop) (c : ST S A) (Q : A -> S -> Prop) (R : EvmErr -> S -> Prop) (s : S) : Prop :=
  match c s with
  | (XOk a, s') => Q a s'
  | (XErr e, s') => R e s'
  | (XPanic, s') => P s'
  | (XFuel, _) => False
  end.

Section Rules.
Context {S : Type} (P : S -> Prop).

Lemma wp_ret {A} (a : A) Q R s : Q a s -> wp P (mret a) Q R s.
Proof. done. Qed.

Lemma wp_bind {A B} (c : ST S A) (k : A -> ST S B) Q R s :
  wp P c (fun a => wp P (k a) Q R) R s -> wp P (c ≫= k) Q R s.
Proof. unfold wp, mbind, ST_bind. by destruct (c s) as [[] ?]. Qed.

Lemma wp_fail {A} e (Q : A -> S -> Prop) R s : R e s -> wp P (fail e) Q R s.
Proof. done. Qed.

Lemma wp_panic {A} (Q : A -> S -> Prop) R s : P s -> wp P panic Q R s.
Proof. done. Qed.

Lemma wp_gets {A} (f : S -> A) Q R s : Q (f s) s -> wp P (gets f) Q R s.
Proof. done. Qed.

Lemma wp_modify (f : S -> S) Q R s : Q tt (f s) -> wp P (modify f) Q R s.
Proof. done. Qed.

Lemma wp_lift_go {A} (r : go A) a Q R s : r = Returns a -> Q a s -> wp P (lift_go r) Q R s.
Proof. by intros ->. Qed.

Lemma wp_try {A} (c : ST S A) Q R s : wp P c (fun a => Q (inl a)) (fun e => Q (inr e)) s -> wp P (try c) Q R s.
Proof. unfold wp, try. by destruct (c s) as [[] ?]. Qed.

Lemma wp_mono {A} (c : ST S A) (Q Q' : A -> S -> Prop) (R R' : EvmErr -> S -> Prop) s :
  wp P c Q R s -> (forall a s', Q a s' -> Q' a s') -> (forall e s', R e s' -> R' e s') -> wp P c Q' R' s.
Proof. unfold wp. destruct (c s) as [[] ?]; auto. Qed.

Lemma wp_if {A} (b : bool) (c1 c2 : ST S A) Q R s :
  (b = true -> wp P c1 Q R s) -> (b = false -> wp P c2 Q R s) -> wp P (if b then c1 else c2) Q R s.
Proof. destruct b; auto. Qed.

End Rules.

(** The panics that are not excluded: a clash of code hashes has been seen. *)
Definition gclash `{D : StateDB} (g : Global) : Prop := g_clash g = true.
Definition mclash `{D : StateDB} (m : Machine) : Prop := gclash (m_g m).

Abbreviation gwp := (wp gclash).
Abbreviation mwp := (wp mclash).

Section MachineRules.
Context {D : StateDB}.

Lemma wp_shared {A} (c : G A) Q R m :
  gwp c (fun a g => Q a (with_g m g)) (fun e g => R e (with_g m g)) (m_g m) -> mwp (shared c) Q R m.
Proof. unfold wp, shared. by destruct (c (m_g m)) as [[] ?]. Qed.

Lemma wp_pop x st Q R m : m_stack m = x :: st -> Q x (with_stack m st) -> mwp pop Q R m.
Proof. intros E. unfold wp, pop. by rewrite E. Qed.

Lemma wp_push d Q R m : Q tt (with_stack m (d :: m_stack m)) -> mwp (push d) Q R m.
Proof. done. Qed.

Lemma wp_Back n d Q R m : m_stack m !! n = Some d -> Q d m -> mwp (Back n) Q R m.
Proof. intros E. unfold wp, Back. by rewrite E. Qed.

Lemma wp_swap n x y Q R m : m_stack m !! (n - 1) = Some x -> m_stack m !! 0 = Some y ->
  Q tt (with_stack m (<[0 := x]> (<[n - 1 := y]> (m_stack m)))) -> mwp (swap n) Q R m.
Proof. intros E1 E2. unfold wp, swap. by rewrite E1, E2. Qed.

Lemma wp_checked r Q m : (r.2 = false -> Q r.1 m) -> forall R : EvmErr -> Machine -> Prop,
  (r.2 = true -> R ErrGasUintOverflow m) -> mwp (checked r) Q R m.
Proof. intros H1 R H2. unfold checked. destruct r as [v []]; simpl in *; [by apply wp_fail, H2|by apply wp_ret, H1]. Qed.

Lemma wp_UseGas gas Q R m :
  (m_gas m < gas -> Q false m)%Z -> (gas <= m_gas m -> Q true (with_gas m (u64 (m_gas m - gas))))%Z -> mwp (UseGas gas) Q R m.
Proof. unfold wp, UseGas. intros H1 H2. destruct (Z.ltb_spec (m_gas m) gas); auto. Qed.

End MachineRules.

(** * Invariants of the machine

    [gok] is the invariant of the shared part: accounts are well formed, no balance is
    negative, no set of accounts holds more than the cap [T], and the cached analyses are the
    right ones.  [grel] relates the shared parts before and after some work: the snapshots
    that were there are still there, a read-only frame has left the state as it was
    ([same_state]), and the clash flag is never taken back. *)

(** ** Sums of balances *)

Definition Zsum (l : list Z) : Z := foldr Z.add 0%Z l.

(** No negative entry, and at most [T] in any set of addresses. *)
Definition capped (T : Z) (f : bytes -> Z) : Prop :=
  (forall a, 0 <= f a)%Z /\ (forall l, NoDup l -> Zsum (f <$> l) <= T)%Z.

Lemma capped_ext T f f' : (forall a, f' a = f a) -> capped T f -> capped T f'.
Proof.
  intros E [H1 H2]. split; [intros; by rewrite E|]. intros l Hl.
  assert (f' <$> l = f <$> l) as -> by (apply list_fmap_ext; auto). auto.
Qed.

Lemma capped_le T f a : capped T f -> (0 <= f a <= T)%Z.
Proof. intros [H1 H2]. split; [done|]. specialize (H2 [a] (NoDup_singleton a)). unfold Zsum in H2. simpl in H2. lia. Qed.

Lemma Zsum_fupd f a v l : NoDup l ->
  Zsum (fupd f a v <$> l) = (Zsum (f <$> l) + (if decide (a ∈ l) then v - f a else 0))%Z.
Proof.
  induction 1 as [|x l Hx _ IH]; [done|]. rewrite !fmap_cons. cbn [Zsum foldr]. fold (Zsum (fupd f a v <$> l)) (Zsum (f <$> l)). rewrite IH.
  destruct (decide (x = a)) as [->|Hne].
  - rewrite fupd_eq, (decide_False (P := a ∈ l)), (decide_True (P := a ∈ a :: l)) by (done || set_solver). lia.
  - rewrite fupd_ne by done. destruct (decide (a ∈ l)) as [Ha|Ha].
    + rewrite decide_True by set_solver. lia.
    + rewrite decide_False by set_solver. lia.
Qed.

Lemma capped_lower T f a v : capped T f -> (0 <= v <= f a)%Z -> capped T (fupd f a v).
Proof.
  intros [H1 H2] Hv. split.
  - intros x. destruct (decide (x = a)) as [->|]; [rewrite fupd_eq; lia|by rewrite fupd_ne].
  - intros l Hl. rewrite Zsum_fupd by done. specialize (H2 l Hl). case_decide; lia.
Qed.

(** Moving an amount keeps the cap. *)
Lemma capped_move T f a b v : capped T f -> (0 <= v <= f a)%Z -> a <> b ->
  capped T (fupd (fupd f a (f a - v)%Z) b (f b + v)%Z).
Proof.
  intros [H1 H2] Hv Hne. split.
  - intros x. pose proof (H1 b). destruct (decide (x = b)) as [->|]; [rewrite fupd_eq; lia|rewrite fupd_ne by done].
    destruct (decide (x = a)) as [->|]; [rewrite fupd_eq; lia|by rewrite fupd_ne].
  - intros l Hl. rewrite !Zsum_fupd, (fupd_ne f a b) by done. specialize (H2 l Hl) as Hs.
    destruct (decide (b ∈ l)), (decide (a ∈ l)) as [Ha|Ha]; try lia.
    specialize (H2 (a :: l) ltac:(by constructor)). rewrite fmap_cons in H2.
    cbn [Zsum foldr] in H2. fold (Zsum (f <$> l)) in H2. lia.
Qed.

(** ** Observations *)

Section Inv.
Context {D : StateDB} {V : StateDBView D} `{K : Keccak} {L : StateDBLaws D V} (T : Z).

Definition wf_acct (c : Acct) : Prop :=
  length (a_codeHash c) = 32 /\ (Z.of_nat (length (a_code c)) < 2 ^ 62)%Z /\ forall k, length (a_storage c k) = 32.

Definition wf_obs (o : Obs) : Prop := (forall a c, o_acct o a = Some c -> wf_acct c) /\ (0 <= o_refund o < 2 ^ 64)%Z.

(** What a read-only frame may not change: everything but the existence of empty accounts. *)
Definition same_state (o o' : Obs) : Prop :=
  (forall a, balance o' a = balance o a /\ nonce o' a = nonce o a /\ code o' a = code o a /\
             suicided o' a = suicided o a /\ forall k, storage o' a k = storage o a k) /\
  o_refund o' = o_refund o /\ o_logs o' = o_logs o /\ o_logSize o' = o_logSize o /\ o_tx o' = o_tx o.

Lemma same_state_refl o : same_state o o.
Proof. done. Qed.

Lemma same_state_trans o1 o2 o3 : same_state o1 o2 -> same_state o2 o3 -> same_state o1 o3.
Proof.
  intros (A & E) (A' & E'). split; [|intuition congruence].
  intros a. destruct (A a) as (B1 & B2 & B3 & B4 & B5), (A' a) as (C1 & C2 & C3 & C4 & C5).
  split_and!; congruence.
Qed.

Lemma wf_newAcct : wf_acct newAcct.
Proof. split_and!; [apply keccak256_length|done|done]. Qed.

Lemma wf_default o a : wf_obs o -> wf_acct (default newAcct (o_acct o a)).
Proof. intros [H _]. destruct (o_acct o a) as [c|] eqn:E; [by apply (H a)|apply wf_newAcct]. Qed.

Lemma wf_set_acct o a c : wf_obs o -> wf_acct c -> wf_obs (set_acct a c o).
Proof.
  intros [H Hr] Hc. split; [|done]. intros x c'. cbn. destruct (decide (x = a)) as [->|]; [rewrite fupd_eq; congruence|].
  rewrite fupd_ne by done. apply H.
Qed.

Lemma wf_on_acct o a f : wf_obs o -> (forall c, wf_acct c -> wf_acct (f c)) -> wf_obs (on_acct a f o).
Proof. intros H Hf. apply wf_set_acct; [done|]. by apply Hf, wf_default. Qed.

Lemma balance_set_acct o a c x : balance (set_acct a c o) x = fupd (balance o) a (a_balance c) x.
Proof.
  unfold balance. cbn. destruct (decide (x = a)) as [->|]; [by rewrite !fupd_eq|by rewrite !fupd_ne].
Qed.

Lemma balance_on_acct o a v x : balance (on_acct a (set_balance v) o) x = fupd (balance o) a v x.
Proof. apply balance_set_acct. Qed.

(** Updates that keep the balance. *)
Lemma balance_keep o a f x : (forall c, a_balance (f c) = a_balance c) -> balance (on_acct a f o) x = balance o x.
Proof.
  intros Hf. unfold on_acct. rewrite balance_set_acct, Hf. destruct (decide (x = a)) as [->|]; [|by rewrite fupd_ne].
  rewrite fupd_eq. unfold balance. by destruct (o_acct o a).
Qed.

(** Touching an account without changing it. *)
Lemma same_touch o a : same_state o (on_acct a (set_balance (balance o a)) o).
Proof.
  split; [|done]. intros x. rewrite balance_on_acct. unfold nonce, code, suicided, storage, on_acct. cbn.
  destruct (decide (x = a)) as [->|]; [|by rewrite !fupd_ne]. rewrite !fupd_eq. by destruct (o_acct o a).
Qed.

Lemma same_create o a : o_acct o a = None -> same_state o (set_acct a (set_balance (balance o a) newAcct) o).
Proof.
  intros E. split; [|done]. intros x. rewrite balance_set_acct. unfold nonce, code, suicided, storage. cbn.
  destruct (decide (x = a)) as [->|]; [|by rewrite !fupd_ne]. rewrite !fupd_eq. by rewrite E.
Qed.

Lemma wf_refund o v : wf_obs o -> wf_obs (set_refund (u64 v) o).
Proof. intros [H _]. split; [done|]. apply Z.mod_pos_bound. lia. Qed.

(** ** The shared part *)

Definition O (g : Global) : Obs := obs (g_db g).

Definition caches (g : Global) : Prop :=
  forall h code bits, g_jumpdests g !! h = Some (code, bits) -> Analysis.codeBitmap code = Returns bits.

(** What the machine notes for the processor of the block: addresses are addresses, amounts
    fit an output, and the transfers are noted under their sender. *)
Definition transfers_ok (m : gmap bytes (list TransferInfo)) : Prop := forall a v, m !! a = Some v ->
  length a = 20 /\ v <> [] /\ Forall (fun i => ti_From i = a /\ length (ti_To i) = 20 /\ (0 <= ti_Value i < 2 ^ 64)%Z) v.

Definition created_ok (l : list ContractCreatedItem) : Prop := Forall (fun i => length (cc_Caller i) = 20 /\ length (cc_Address i) = 20) l.

Definition records (g : Global) : Prop := transfers_ok (g_Transfers g) /\ created_ok (g_Created g).

Lemma no_records g : g_Transfers g = ∅ -> g_Created g = [] -> records g.
Proof. intros E1 E2. split; [intros a v|]; rewrite ?E1, ?E2; [by rewrite lookup_empty|constructor]. Qed.

Record gok (g : Global) : Prop := mk_gok {
  gok_db : sdb_ok (g_db g);
  gok_wf : wf_obs (O g);
  gok_cap : capped T (balance (O g));
  gok_caches : caches g;
  gok_records : records g
}.

Record grel (ro : bool) (g g' : Global) : Prop := mk_grel {
  grel_snaps : exists later, snaps (g_db g') = later ++ snaps (g_db g) /\ Forall (fun p => next (g_db g) <= p.1) later;
  grel_next : next (g_db g) <= next (g_db g');
  grel_same : ro = true -> same_state (O g) (O g');
  grel_clash : gclash g -> gclash g'
}.

Lemma grel_refl ro g : grel ro g g.
Proof. split; [by exists []|done|intros _; apply same_state_refl|done]. Qed.

Lemma grel_trans ro g1 g2 g3 : grel ro g1 g2 -> grel ro g2 g3 -> grel ro g1 g3.
Proof.
  intros [(l1 & E1 & F1) N1 S1 C1] [(l2 & E2 & F2) N2 S2 C2]. split; [|lia| |auto].
  - exists (l2 ++ l1). rewrite E2, E1, app_assoc. split; [done|]. apply Forall_app. split; [|done].
    eapply Forall_impl; [exact F2|]. simpl. lia.
  - intros Hr. eapply same_state_trans; auto.
Qed.

(** Weaken a relation of a static frame. *)
Lemma grel_weaken ro g g' : grel true g g' -> grel ro g g'.
Proof. intros [S N E C]. split; auto. Qed.

(** Only the database has moved. *)
Definition only_db (g g' : Global) : Prop := g' = with_db g (g_db g').

(** A change of other fields. *)
Lemma grel_other ro g g' : g_db g' = g_db g -> (gclash g -> gclash g') -> grel ro g g'.
Proof. intros E C. split; [exists []; by rewrite E|by rewrite E|intros _; unfold O; rewrite E; apply same_state_refl|done]. Qed.

Lemma gok_other g g' : g_db g' = g_db g -> g_jumpdests g' = g_jumpdests g -> g_Transfers g' = g_Transfers g -> g_Created g' = g_Created g -> gok g -> gok g'.
Proof. intros E J E1 E2 [A B C F H]. split; unfold O, caches in *; rewrite ?E, ?J; auto. unfold records in *. by rewrite E1, E2. Qed.

(** ** Database operations *)

Lemma gwp_db {A} (op : sdb -> go (A * sdb)) ans upd Q R g :
  op_spec op ans upd -> sdb_ok (g_db g) ->
  (forall d, sdb_ok d -> obs d = upd (O g) -> snaps d = snaps (g_db g) -> next d = next (g_db g) -> Q (ans (O g)) (with_db g d)) ->
  gwp (db op) Q R g.
Proof.
  intros H Hg HQ. destruct (H _ Hg) as (d & E & H1 & H2 & H3 & H4). unfold wp, db. rewrite E. by apply HQ.
Qed.

(** One that keeps the invariant. *)
Lemma gwp_upd {A} (op : sdb -> go (A * sdb)) ans upd ro Q R g :
  op_spec op ans upd -> gok g -> wf_obs (upd (O g)) -> capped T (balance (upd (O g))) ->
  (ro = true -> same_state (O g) (upd (O g))) ->
  (forall g', gok g' -> grel ro g g' -> O g' = upd (O g) -> only_db g g' -> Q (ans (O g)) g') ->
  gwp (db op) Q R g.
Proof.
  intros H Hg Hwf Hcap Hro HQ. eapply gwp_db; [exact H|apply Hg|]. intros d H1 H2 H3 H4. apply HQ.
  - split; unfold O; cbn; rewrite ?H2; auto; apply Hg.
  - split; unfold O; cbn; rewrite ?H2, ?H3, ?H4; auto. by exists [].
  - done.
  - done.
Qed.

(** A getter. *)
Lemma gwp_get {A} (op : sdb -> go (A * sdb)) ans ro Q R g :
  op_spec op ans id_obs -> gok g ->
  (forall g', gok g' -> grel ro g g' -> O g' = O g -> only_db g g' -> Q (ans (O g)) g') ->
  gwp (db op) Q R g.
Proof.
  intros H Hg HQ. eapply (gwp_upd op ans id_obs ro); [done|done|apply Hg|apply Hg|intros _; apply same_state_refl|].
  intros g' H1 H2 H3 H4. by apply HQ.
Qed.

End Inv.

(** * Every instruction keeps the invariant of its frame

    [mok] is the invariant of a frame: stack items are 256-bit words and at most 1024, the
    memory is a whole number of 32-byte words whose fee has been charged exactly, the gas fits,
    and the analysis at hand is that of the code.  For the instructions that do not start
    another frame, [spec_op] says that they keep it, do not touch the gas, and leave the stack
    at the height their table entry announces. *)

(** The fee for [w] words of memory, as the code computes it in 64 bits. *)
Definition memcost (w : Z) : Z := u64 (u64 (w * 3) + u64 (w * w) / 512).

Definition mem_ok (len last : Z) : Prop :=
  exists w, (0 <= w /\ len = 32 * w /\ 32 * w <= 0xffffffffe0)%Z /\ last = memcost w.

Definition ctx_ok (ctx : Context) : Prop :=
  length (Origin ctx) <= 32 /\ length (Coinbase ctx) <= 32 /\ word (GasPrice ctx) /\ (0 <= BlockNumber ctx < 2 ^ 64)%Z /\
  forall n, (BlockNumber ctx - 257 < n < BlockNumber ctx -> 0 <= n ->
    exists h, GetHash ctx n = Some h /\ (length h <= 32)%nat)%Z.

Record cok (c : Contract) : Prop := mk_cok {
  cok_self : length (c_self c) = 20;
  cok_caller : length (c_CallerAddress c) = 20;
  cok_value : word (c_value c);
  cok_code : (Z.of_nat (length (c_Code c)) < 2 ^ 62)%Z;
  cok_input : (Z.of_nat (length (c_Input c)) < 2 ^ 62)%Z
}.

(** ** Addresses and storage keys *)

Create HintDb sized.

Lemma address_length b : length (BigToAddressHash b) = 20.
Proof. by apply Crypto.length_SetBytes. Qed.

Lemma hash_length b : length (BigToHash b) = 32.
Proof. by apply Crypto.length_SetBytes. Qed.

#[export] Hint Resolve cok_self cok_caller address_length hash_length : sized.

(** Use a law of the database, whose arguments have the right sizes. *)
Ltac law H := apply H; auto with sized.

(** ** Words *)

Lemma SetBytes_word b : length b <= 32 -> word (Big.SetBytes b).
Proof.
  intros H. split; [apply be_value_nonneg|]. eapply Z.lt_le_trans; [apply be_value_bound|].
  change (2 ^ 256)%Z with (256 ^ 32)%Z. apply Z.pow_le_mono_r; lia.
Qed.

Lemma word_bits f x y : word x -> word y -> (0 <= f x y)%Z -> (Z.log2 (f x y) <= Z.max (Z.log2 x) (Z.log2 y))%Z -> word (f x y).
Proof.
  intros Hx Hy Hn Hl. destruct Hx, Hy. split; [done|]. assert (forall z, (0 <= z < 2 ^ 256 -> Z.log2 z < 256)%Z) as Hlog.
  { intros z Hz. destruct (decide (z = 0)%Z) as [->|]; [done|]. apply Z.log2_lt_pow2; lia. }
  pose proof (Hlog x ltac:(lia)). pose proof (Hlog y ltac:(lia)).
  destruct (decide (f x y = 0)%Z) as [->|]; [lia|]. apply Z.log2_lt_pow2; lia.
Qed.

Lemma land_word x y : word x -> word y -> word (Z.land x y).
Proof.
  intros Hx Hy. pose proof Hx as []. pose proof Hy as []. apply word_bits; [done..| |].
  - apply Z.land_nonneg. lia.
  - pose proof (Z.log2_land x y ltac:(lia) ltac:(lia)). lia.
Qed.

Lemma lor_word x y : word x -> word y -> word (Z.lor x y).
Proof.
  intros Hx Hy. pose proof Hx as []. pose proof Hy as []. apply word_bits; [done..| |].
  - apply Z.lor_nonneg. lia.
  - rewrite Z.log2_lor by lia. lia.
Qed.

Lemma lxor_word x y : word x -> word y -> word (Z.lxor x y).
Proof.
  intros Hx Hy. pose proof Hx as []. pose proof Hy as []. apply word_bits; [done..| |].
  - apply Z.lxor_nonneg. lia.
  - apply Z.log2_lxor; lia.
Qed.

Lemma small_word x : (0 <= x < 2 ^ 64)%Z -> word x.
Proof. unfold word. lia. Qed.

Lemma b2w_word b : word (Arith.b2w b).
Proof. apply small_word. destruct b; simpl; lia. Qed.

Lemma u64_word x : word (u64 x).
Proof. apply small_word. apply Z.mod_pos_bound. lia. Qed.

Lemma word_0 : word 0.
Proof. apply small_word. lia. Qed.

Create HintDb words.
#[export] Hint Resolve U256_word land_word lor_word lxor_word b2w_word u64_word word_0 : words.

Module ArithWords.
Import Arith.

Lemma add_word x y : word (add x y).
Proof. apply U256_word. Qed.
Lemma sub_word x y : word (sub x y).
Proof. apply U256_word. Qed.
Lemma mul_word x y : word (mul x y).
Proof. apply U256_word. Qed.
Lemma not_word x : word (not x).
Proof. apply U256_word. Qed.
Lemma lt_word x y : word (lt x y).
Proof. apply b2w_word. Qed.
Lemma gt_word x y : word (gt x y).
Proof. apply b2w_word. Qed.
Lemma eq_word x y : word (eq x y).
Proof. apply b2w_word. Qed.
Lemma div_word x y : word (div x y).
Proof. unfold div. case_match; auto with words. Qed.
Lemma sdiv_word x y : word (sdiv x y).
Proof. unfold sdiv. case_match; auto with words. Qed.
Lemma mod_word x y : word (mod_ x y).
Proof. unfold mod_. case_match; auto with words. Qed.
Lemma smod_word x y : word (smod x y).
Proof. unfold smod. case_match; auto with words. Qed.

Lemma exp_word x y : word x -> word y -> word (exp x y).
Proof.
  intros Hx Hy. unfold exp. case_match; [apply small_word; lia|]. case_match; [auto with words|].
  case_match; [done|]. rewrite Exp_pow by apply Hy. apply Z.mod_pos_bound. lia.
Qed.

Lemma signExtend_word b x v : signExtend b x = Some v -> word v.
Proof. unfold signExtend. case_match; intros [= <-]; auto with words. Qed.

Lemma slt_word x y : word (slt x y).
Proof. unfold slt. repeat case_match; auto with words; apply small_word; lia. Qed.
Lemma sgt_word x y : word (sgt x y).
Proof. unfold sgt. repeat case_match; auto with words; apply small_word; lia. Qed.
Lemma iszero_word x : word (iszero x).
Proof. unfold iszero. case_match; apply small_word; lia. Qed.

Lemma byte_word x y : word (byte_ x y).
Proof. unfold byte_. case_match; auto with words. apply small_word. pose proof (b2z_range (Math.Byte y 32 (Z.to_nat (Big.Int64 x)))). lia. Qed.

Lemma addmod_word x y z : word (addmod x y z).
Proof. unfold addmod. case_match; auto with words. Qed.
Lemma mulmod_word x y z : word (mulmod x y z).
Proof. unfold mulmod. case_match; auto with words. Qed.
Lemma shl_word x y : word (shl x y).
Proof. unfold shl. cbn zeta. case_match; auto with words. Qed.
Lemma shr_word x y : word (shr x y).
Proof. unfold shr. cbn zeta. case_match; auto with words. Qed.
Lemma sar_word x y : word (sar x y).
Proof. unfold sar. cbn zeta. case_match; auto with words. Qed.

End ArithWords.

#[export] Hint Resolve ArithWords.add_word ArithWords.sub_word ArithWords.mul_word ArithWords.not_word ArithWords.lt_word
  ArithWords.gt_word ArithWords.eq_word ArithWords.div_word ArithWords.sdiv_word ArithWords.mod_word ArithWords.smod_word ArithWords.exp_word
  ArithWords.slt_word ArithWords.sgt_word ArithWords.iszero_word ArithWords.byte_word ArithWords.addmod_word
  ArithWords.mulmod_word ArithWords.shl_word ArithWords.shr_word ArithWords.sar_word : words.

Lemma Int64_small x : (0 <= x < 2 ^ 63)%Z -> Big.Int64 x = x.
Proof.
  intros. unfold Big.Int64. rewrite Z.abs_eq by lia. destruct (Z.ltb_spec x 0); [lia|]. by apply i64_small; lia.
Qed.

Lemma BitLen_64 x : (0 <= x)%Z -> (64 <? Big.BitLen x)%Z = false -> (x < 2 ^ 64)%Z.
Proof.
  intros Hx. unfold Big.BitLen. destruct (Z.eqb_spec x 0) as [->|]; [done|]. intros H. apply Z.ltb_ge in H.
  rewrite Z.abs_eq in H by done. apply Z.log2_lt_pow2; lia.
Qed.

(** ** Reading and writing memory *)

Lemma calcMemSize_nonneg off l : (0 <= off -> 0 <= l -> 0 <= calcMemSize off l)%Z.
Proof. unfold calcMemSize. case_match; lia. Qed.

Lemma read_at_ok s lo hi : (0 <= lo <= hi)%Z -> (hi <= Z.of_nat (length s))%Z ->
  read_at s lo hi = Returns (take (Z.to_nat (hi - lo)) (drop (Z.to_nat lo) s)).
Proof.
  intros H1 H2. unfold read_at. destruct (Z.ltb_spec lo 0), (Z.ltb_spec hi lo), (Z.ltb_spec (Z.of_nat (length s)) hi); try lia. done.
Qed.

Lemma write_at_ok s lo hi v : (0 <= lo <= hi)%Z -> (hi <= Z.of_nat (length s))%Z ->
  exists s', write_at s lo hi v = Returns s' /\ length s' = length s.
Proof.
  intros H1 H2. unfold write_at. destruct (Z.ltb_spec hi lo), (Z.ltb_spec (Z.of_nat (length s)) hi); try lia.
  eexists. split; [done|]. rewrite !length_app, !length_take, length_drop. lia.
Qed.

Lemma RightPadBytes_length s l : length s <= Z.to_nat l -> length (RightPadBytes s l) = max (length s) (Z.to_nat l).
Proof.
  intros H. unfold RightPadBytes. destruct (Z.leb_spec l (Z.of_nat (length s))); [lia|].
  rewrite length_app, length_replicate. lia.
Qed.

(** [getDataBig] never fails. *)
Lemma getDataBig_ok data start size : (Z.of_nat (length data) < 2 ^ 62)%Z -> (0 <= start)%Z -> (0 <= size)%Z ->
  exists d, getDataBig data start size = Returns d.
Proof.
  intros Hd H1 H2. unfold getDataBig, slice_of, Math.BigMin.
  set (n := Z.of_nat (length data)) in *. set (s := if (n <? start)%Z then n else start).
  assert (0 <= s <= n)%Z as Hs by (subst s; destruct (Z.ltb_spec n start); lia).
  set (e := if (n <? s + size)%Z then n else (s + size)%Z).
  assert (s <= e <= n)%Z as He by (subst e; destruct (Z.ltb_spec n (s + size)); lia).
  rewrite (Uint64_small s), (Uint64_small e), read_at_ok by lia. by eexists.
Qed.

Lemma getDataBig_32 data start : (Z.of_nat (length data) < 2 ^ 62)%Z -> (0 <= start)%Z ->
  exists d, getDataBig data start 32 = Returns d /\ length d = 32.
Proof.
  intros Hd H1. unfold getDataBig, slice_of, Math.BigMin.
  set (n := Z.of_nat (length data)) in *. set (s := if (n <? start)%Z then n else start).
  assert (0 <= s <= n)%Z as Hs by (subst s; destruct (Z.ltb_spec n start); lia).
  set (e := if (n <? s + 32)%Z then n else (s + 32)%Z).
  assert (s <= e <= n /\ e <= s + 32)%Z as He by (subst e; destruct (Z.ltb_spec n (s + 32)); lia).
  rewrite !(Uint64_small s), !(Uint64_small e), read_at_ok by lia. eexists. split; [done|].
  change (i64 (Big.Uint64 32)) with 32%Z. rewrite RightPadBytes_length; rewrite length_take, length_drop; lia.
Qed.

Section Memory.
Context {D : StateDB}.

Lemma mwp_Get off size Q R m :
  (0 <= off)%Z -> (0 <= size)%Z -> (Z.of_nat (length (m_store m)) <= 0xffffffffe0)%Z ->
  (calcMemSize off size <= Z.of_nat (length (m_store m)))%Z ->
  Q (take (Z.to_nat size) (drop (Z.to_nat off) (m_store m))) m -> mwp (memory_Get (Big.Int64 off) (Big.Int64 size)) Q R m.
Proof.
  intros H1 H2 H3 H4 HQ. unfold memory_Get, calcMemSize in *. destruct (Z.eqb_spec size 0) as [->|Hne]; [exact HQ|].
  rewrite !Int64_small by lia. destruct (Z.eqb_spec size 0); [lia|].
  apply wp_bind, wp_gets. destruct (Z.ltb_spec off (Z.of_nat (length (m_store m)))); [|lia].
  eapply wp_lift_go; [apply read_at_ok; rewrite i64_small by lia; lia|]. rewrite i64_small by lia.
  by replace (off + size - off)%Z with size by lia.
Qed.

Lemma mwp_Set off size v Q R m :
  (0 <= off)%Z -> (0 <= size)%Z -> (Z.of_nat (length (m_store m)) <= 0xffffffffe0)%Z ->
  (calcMemSize off size <= Z.of_nat (length (m_store m)))%Z ->
  (forall s, length s = length (m_store m) -> Q tt (with_store m s)) ->
  mwp (memory_Set (Big.Uint64 off) (Big.Uint64 size) v) Q R m.
Proof.
  intros H1 H2 H3 H4 HQ. unfold memory_Set, calcMemSize in *. destruct (Z.eqb_spec size 0) as [->|Hne].
  { apply wp_ret. specialize (HQ (m_store m) eq_refl). by destruct m. }
  rewrite !Uint64_small by lia. destruct (Z.ltb_spec 0 size); [|lia].
  apply wp_bind, wp_gets. rewrite u64_small by lia.
  destruct (Z.ltb_spec (Z.of_nat (length (m_store m))) (off + size)); [lia|].
  destruct (write_at_ok (m_store m) off (off + size) v) as (s' & E & Hl); [lia..|].
  eapply wp_bind, wp_lift_go; [exact E|]. by apply wp_modify, HQ.
Qed.

Lemma mwp_Set32 off val Q R m :
  (0 <= off)%Z -> (Z.of_nat (length (m_store m)) <= 0xffffffffe0)%Z -> (off + 32 <= Z.of_nat (length (m_store m)))%Z ->
  (forall s, length s = length (m_store m) -> Q tt (with_store m s)) ->
  mwp (memory_Set32 (Big.Uint64 off) val) Q R m.
Proof.
  intros H1 H2 H3 HQ. unfold memory_Set32. rewrite !Uint64_small by lia.
  apply wp_bind, wp_gets. rewrite u64_small by lia.
  destruct (Z.ltb_spec (Z.of_nat (length (m_store m))) (off + 32)); [lia|].
  destruct (write_at_ok (m_store m) off (off + 32) (replicate 32 x00)) as (s1 & E1 & Hl1); [lia..|].
  eapply wp_bind, wp_lift_go; [exact E1|].
  eapply wp_bind, wp_lift_go; [apply read_at_ok; lia|].
  edestruct (write_at_ok s1 off (off + 32)) as (s2 & E2 & Hl2); [lia..|].
  eapply wp_bind, wp_lift_go; [exact E2|]. apply wp_modify, HQ. congruence.
Qed.

End Memory.
