(* ===== verification/EvmOps.v ===== *)
(** * EvmOps: the instructions that do not start another frame keep the frame's invariant *)

From S2P Require Import Prelude Crypto EvmMath EvmOpcode EvmState EvmMachine EvmGas EvmInstr EvmAnalysis EvmInv.

(** Symbolic execution. *)
Ltac msimpl :=
  unfold with_pc, with_stack, with_store, with_lastGasCost, with_gas, with_analysis, with_g;
  cbn [m_pc m_stack m_store m_lastGasCost m_gas m_analysis m_g].
Ltac wp_step :=
  lazymatch goal with
  | |- wp _ (mbind _ _) _ _ _ => apply wp_bind
  | |- wp _ (mret _) _ _ _ => apply wp_ret
  | |- wp _ pop _ _ _ => eapply wp_pop; [reflexivity|]
  | |- wp _ (push _) _ _ _ => apply wp_push
  | |- wp _ (Back _) _ _ _ => eapply wp_Back; [reflexivity|]
  | |- wp _ (gets _) _ _ _ => apply wp_gets
  | |- wp _ (modify _) _ _ _ => apply wp_modify
  | |- wp _ (set_pc _) _ _ _ => apply wp_modify
  | |- wp _ (fail _) _ _ _ => apply wp_fail
  | |- wp _ (shared _) _ _ _ => apply wp_shared
  | |- wp _ (if ?b then _ else _) _ _ _ => let E := fresh "E" in destruct b eqn:E
  end; msimpl.
Ltac wp_auto := repeat wp_step.

(** Take the items that are known to be on the stack [st]. *)
Ltac items st :=
  repeat match goal with
  | H : S _ <= length st |- _ => destruct st as [|? st]; [cbn in H; lia|cbn [length] in H; apply le_S_n in H]
  | H : 0 <= length st |- _ => clear H
  end.

Section Ops.
Context {D : StateDB} {V : StateDBView D} `{K : Keccak} {L : StateDBLaws D V} (T : Z) (ro : bool) (c : Contract).

Record mok (m : Machine) : Prop := mk_mok {
  mok_words : Forall word (m_stack m);
  mok_height : length (m_stack m) <= 1024;
  mok_mem : mem_ok (Z.of_nat (length (m_store m))) (m_lastGasCost m);
  mok_gas : (0 <= m_gas m < 2 ^ 62)%Z;
  mok_an : forall b, m_analysis m = Some b -> Analysis.codeBitmap (c_Code c) = Returns b;
  mok_g : gok T (m_g m);
  mok_pc : (0 <= m_pc m < 2 ^ 64)%Z
}.

(** After an instruction that went well, and after one that failed. *)
Definition keeps (m m' : Machine) : Prop := mok m' /\ grel ro (m_g m) (m_g m') /\ m_gas m' = m_gas m.
Definition failed (m m' : Machine) : Prop := gok T (m_g m') /\ grel ro (m_g m) (m_g m') /\ m_gas m' = m_gas m.

(** [e] keeps the invariant where the stack holds its operands and has room for its results. *)
Definition spec_op (pops pushes : nat) (pre : Machine -> Prop) (e : X bytes) : Prop :=
  forall pc st store last gas an g, let m := mkMachine pc st store last gas an g in
  mok m -> pops <= length st -> length st + pushes <= 1024 + pops -> pre m ->
  mwp e (fun _ => keeps m) (fun _ => failed m) m.

Definition anywhere (m : Machine) : Prop := True.

(** The memory holds the area that [f] computes. *)
Definition room (f : X Z) (m : Machine) : Prop :=
  exists s, f m = (XOk s, m) /\ (s <= Z.of_nat (length (m_store m)))%Z.

Lemma mem_bound len last : mem_ok len last -> (0 <= len <= 0xffffffffe0)%Z.
Proof. intros (w & ? & _). lia. Qed.

Lemma mok_update m pc st store g :
  mok m -> Forall word st -> length st <= 1024 -> length store = length (m_store m) -> gok T g -> (0 <= pc < 2 ^ 64)%Z ->
  mok (mkMachine pc st store (m_lastGasCost m) (m_gas m) (m_analysis m) g).
Proof. intros [] ? ? E ? ?. split; cbn; try done. by rewrite E. Qed.

End Ops.

(** Leave an instruction: the parts that have not changed are kept. *)
Ltac leave :=
  lazymatch goal with
  | H : mok _ _ ?m |- keeps _ _ _ ?m _ =>
      split; [apply (mok_update _ _ m); cbn; [exact H|..]|split; [|done]]
  | H : mok _ _ ?m |- failed _ _ ?m _ => split; [|split; [|done]]
  end.

(** The words of a stack that begins with some items. *)
Ltac words :=
  repeat match goal with H : Forall word (_ :: _) |- _ => apply Forall_cons in H as [? H] end.

(** Start a proof of [spec_op]. *)
Ltac enter :=
  let Hm := fresh "Hm" in
  intros pc st store last gas an g m Hm Hlen Hroom Hpre; subst m;
  pose proof (mok_words _ _ _ Hm) as Hw; pose proof (mok_g _ _ _ Hm) as Hg; pose proof (mok_pc _ _ _ Hm) as Hpc;
  pose proof (mem_bound _ _ (mok_mem _ _ _ Hm)) as Hmem; cbn in Hw, Hg, Hpc, Hmem.

Ltac finish :=
  leave; try (apply grel_refl || done || (cbn in *; lia)); repeat (apply Forall_cons; split); auto with words; try assumption.

Section Stack.
Context {D : StateDB} {V : StateDBView D} `{K : Keccak} {L : StateDBLaws D V} (T : Z) (ro : bool) (c : Contract).
Abbreviation spec_op := (spec_op T ro c).

Lemma spec_op0 v : word v -> spec_op 0 1 anywhere (op0 v).
Proof. intros Hv. enter. unfold op0. wp_auto. finish. Qed.

Lemma spec_op1 f : (forall x, word x -> word (f x)) -> spec_op 1 1 anywhere (op1 f).
Proof. intros Hf. enter. items st. words. unfold op1. wp_auto. finish. Qed.

Lemma spec_op2 f : (forall x y, word x -> word y -> word (f x y)) -> spec_op 2 1 anywhere (op2 f).
Proof. intros Hf. enter. items st. words. unfold op2. wp_auto. finish. Qed.

Lemma spec_op3 f : (forall x y z, word x -> word y -> word z -> word (f x y z)) -> spec_op 3 1 anywhere (op3 f).
Proof. intros Hf. enter. items st. words. unfold op3. wp_auto. finish. Qed.

Lemma spec_SignExtend : spec_op 2 1 anywhere opSignExtend.
Proof.
  enter. items st. words. unfold opSignExtend. wp_auto; finish.
  match goal with |- context [Arith.signExtend ?b ?x] => destruct (Arith.signExtend b x) as [v|] eqn:Ev end; [|done].
  by eapply ArithWords.signExtend_word.
Qed.

Lemma spec_Pop : spec_op 1 0 anywhere opPop.
Proof. enter. items st. words. unfold opPop. wp_auto. finish. Qed.

Lemma spec_nop : spec_op 0 0 anywhere (mret []).
Proof. enter. wp_auto. finish. Qed.

Lemma spec_Pc : spec_op 0 1 anywhere opPc.
Proof. enter. unfold opPc, op0. wp_auto. finish. by apply small_word. Qed.

Lemma spec_Msize : spec_op 0 1 anywhere opMsize.
Proof. enter. unfold opMsize, op0. wp_auto. finish. rewrite i64_small by lia. apply small_word. lia. Qed.

Lemma spec_Gas : spec_op 0 1 anywhere opGas.
Proof. enter. unfold opGas, op0. wp_auto. finish. pose proof (mok_gas _ _ _ Hm). apply small_word. cbn in *. lia. Qed.

Lemma spec_Dup n : 1 <= n -> spec_op n (n + 1) anywhere (makeDup n).
Proof.
  intros Hn. enter. unfold makeDup, dup. wp_step. wp_step.
  destruct (lookup_lt_is_Some_2 st (n - 1) ltac:(lia)) as [d Hd]. eapply wp_Back; [exact Hd|]. wp_auto. finish.
  by eapply Forall_lookup_1.
Qed.

Lemma spec_Swap n : 1 <= n -> spec_op (n + 1) (n + 1) anywhere (makeSwap n).
Proof.
  intros Hn. enter. unfold makeSwap. wp_step.
  destruct (lookup_lt_is_Some_2 st n ltac:(lia)) as [x Hx], (lookup_lt_is_Some_2 st 0 ltac:(lia)) as [y Hy].
  eapply wp_swap; cbn; rewrite ?Nat.add_sub; [exact Hx|exact Hy|]. wp_auto.
  finish; [|rewrite !length_insert; pose proof (mok_height _ _ _ Hm); done].
  apply Forall_insert; [apply Forall_insert; [done|]|]; by eapply Forall_lookup_1.
Qed.

End Stack.

(** ** Environment, memory and storage *)

Section Environment.
Context {D : StateDB} {V : StateDBView D} `{K : Keccak} {L : StateDBLaws D V} (T : Z) (ro : bool) (c : Contract) (ctx : Context).
Context (HT : (0 <= T < 2 ^ 256)%Z) (Hctx : ctx_ok ctx) (Hc : cok c).
Abbreviation spec_op := (spec_op T ro c).

(** Apply the law of a getter. *)
Ltac get L := eapply (gwp_get T _ _ ro); [law L|assumption|]; intros g' Hg' Hr HO Honly; cbn beta iota.

Lemma balance_word g a : gok T g -> word (balance (O g) a).
Proof. intros [_ _ Hcap _]. pose proof (capped_le _ _ a Hcap). unfold word. lia. Qed.

Lemma codeHash_word g a : gok T g -> word (Big.SetBytes (codeHash (O g) a)).
Proof.
  intros [_ [Hwf _] _ _]. apply SetBytes_word. unfold codeHash. destruct (o_acct (O g) a) as [x|] eqn:E; [|done].
  destruct (Hwf a x E) as [H _]. cbn. lia.
Qed.

Lemma storage_word g a k : gok T g -> word (Big.SetBytes (storage (O g) a k)).
Proof.
  intros [_ [Hwf _] _ _]. apply SetBytes_word. unfold storage. destruct (o_acct (O g) a) as [x|] eqn:E; [|done].
  destruct (Hwf a x E) as (_ & _ & H). by rewrite H.
Qed.

Lemma code_length g a : gok T g -> (Z.of_nat (length (code (O g) a)) < 2 ^ 62)%Z.
Proof.
  intros [_ [Hwf _] _ _]. unfold code. destruct (o_acct (O g) a) as [x|] eqn:E; [|done].
  by destruct (Hwf a x E) as (_ & H & _).
Qed.

Lemma spec_query {A} (get : bytes -> sdb -> go (A * sdb)) ans f :
  (forall a, length a = 20 -> op_spec (get a) (fun o => ans o a) id_obs) -> (forall g a, gok T g -> word (f (ans (O g) a))) ->
  spec_op 1 1 anywhere (query get f).
Proof.
  intros Hlaw Hf. enter. items st. words. unfold query. wp_auto.
  get Hlaw. wp_auto. finish.
Qed.

Lemma spec_Balance : spec_op 1 1 anywhere opBalance.
Proof. apply (spec_query _ balance); [law law_GetBalance|]. intros. by apply balance_word. Qed.

Lemma spec_ExtCodeSize : spec_op 1 1 anywhere opExtCodeSize.
Proof. apply (spec_query _ (fun o a => Z.of_nat (length (code o a)))); [law law_GetCodeSize|]. auto with words. Qed.

Lemma spec_ExtCodeHash : spec_op 1 1 anywhere opExtCodeHash.
Proof.
  enter. items st. words. unfold opExtCodeHash. wp_auto. get law_Empty.
  unfold op0. wp_auto; [finish|]. eapply (gwp_get T _ _ ro); [law law_GetCodeHash|done|].
  intros g2 Hg2 Hr2 HO2 _. wp_auto. finish; [|by eapply grel_trans]. by apply codeHash_word.
Qed.

Lemma spec_Sload : spec_op 1 1 anywhere (opSload c).
Proof.
  enter. items st. words. unfold opSload, op0. wp_auto. get law_GetState. wp_auto. finish. by apply storage_word.
Qed.

Lemma spec_Sha3 : spec_op 2 1 (room memorySha3) (opSha3 ctx).
Proof.
  enter. items st. words. destruct Hpre as (s & [= <-] & Hs). cbn in Hs. unfold opSha3. wp_auto; [].
  apply mwp_Get; cbn; [apply H|apply H0|lia|done|].
  assert (word (Big.SetBytes (keccak256 (take (Z.to_nat z0) (drop (Z.to_nat z) store)))))
    by (apply SetBytes_word; rewrite keccak256_length; lia).
  wp_auto; [|finish]. get law_AddPreimage. wp_auto. finish.
Qed.

Lemma spec_CallDataLoad : spec_op 1 1 anywhere (opCallDataLoad c).
Proof.
  enter. items st. words. unfold opCallDataLoad, op0. wp_auto.
  destruct (getDataBig_32 (c_Input c) z) as (d & E & Hd); [apply Hc|apply H|].
  eapply wp_lift_go; [exact E|]. wp_auto. finish. apply SetBytes_word. lia.
Qed.

Lemma spec_copyData data (Hd : (Z.of_nat (length data) < 2 ^ 62)%Z) : spec_op 3 0 (room (memory2 0 2)) (copyData data).
Proof.
  enter. items st. words. destruct Hpre as (s & [= <-] & Hs). cbn in Hs. unfold copyData. wp_auto.
  destruct (getDataBig_ok data z0 z1 Hd) as [d E]; [apply H0|apply H1|].
  eapply wp_lift_go; [exact E|]. wp_auto. apply mwp_Set; cbn; [apply H|apply H1|lia|done|]. intros s' Hs'. wp_auto. finish.
Qed.

Lemma spec_ReturnDataSize : spec_op 0 1 anywhere opReturnDataSize.
Proof. enter. unfold opReturnDataSize, op0. wp_auto. finish. Qed.

Lemma spec_ReturnDataCopy : spec_op 3 0 (room (memory2 0 2)) opReturnDataCopy.
Proof.
  enter. items st. words. destruct Hpre as (s & [= <-] & Hs). cbn in Hs. unfold opReturnDataCopy. wp_auto; [finish|].
  destruct H, H0, H1. apply orb_false_iff in E as [E1 E2]. apply BitLen_64 in E1; [|lia]. apply Z.ltb_ge in E2.
  rewrite (Uint64_small (z0 + z1)) in * by lia. rewrite (Uint64_small z0) by lia.
  eapply wp_lift_go; [apply read_at_ok; lia|]. wp_auto. apply mwp_Set; cbn; [lia..|done|]. intros s' Hs'. wp_auto. finish.
Qed.

Lemma spec_ExtCodeCopy : spec_op 4 0 (room (memory2 1 3)) opExtCodeCopy.
Proof.
  enter. items st. words. destruct Hpre as (s & [= <-] & Hs). cbn in Hs. unfold opExtCodeCopy. wp_auto.
  get law_GetCode. wp_auto. destruct (getDataBig_ok (code (O g) (BigToAddressHash z)) z1 z2) as [d E];
    [by apply code_length|apply H1|apply H2|].
  eapply wp_lift_go; [exact E|]. wp_auto. apply mwp_Set; cbn; [apply H0|apply H2|lia|done|]. intros s' Hs'. wp_auto. finish.
Qed.

Lemma spec_Blockhash : spec_op 1 1 anywhere (opBlockhash ctx).
Proof.
  enter. items st. words. unfold opBlockhash, op0. wp_auto; [|finish]. destruct Hctx as (_ & _ & _ & Hn & Hh), H.
  apply andb_true_iff in E as [E1%Z.ltb_lt E2%Z.ltb_lt]. rewrite Uint64_small by lia.
  destruct (Hh z ltac:(lia) ltac:(lia)) as (h & -> & Hl). wp_auto. finish. by apply SetBytes_word.
Qed.

End Environment.

Section Flow.
Context {D : StateDB} {V : StateDBView D} `{K : Keccak} {L : StateDBLaws D V} (T : Z) (ro : bool) (c : Contract) (ctx : Context).
Context (HT : (0 <= T < 2 ^ 256)%Z) (Hc : cok c).
Abbreviation spec_op := (spec_op T ro c).

Lemma spec_Mload : spec_op 1 1 (room memoryMLoad) opMload.
Proof.
  enter. items st. words. destruct Hpre as (s & [= <-] & Hs). cbn in Hs. unfold opMload, op0. wp_auto.
  change 32%Z with (Big.Int64 32). apply mwp_Get; cbn; [apply H|done|lia|done|]. wp_auto. finish.
  apply SetBytes_word. rewrite length_take. lia.
Qed.

Lemma spec_Mstore : spec_op 2 0 (room memoryMStore) opMstore.
Proof.
  enter. items st. words. destruct Hpre as (s & [= <-] & Hs). cbn in Hs. unfold opMstore. wp_auto.
  apply mwp_Set32; cbn; [apply H|lia|done|]. intros s' Hs'. wp_auto. finish.
Qed.

Lemma spec_Mstore8 : spec_op 2 0 (room memoryMStore8) opMstore8.
Proof.
  enter. items st. words. destruct Hpre as (s & [= <-] & Hs). cbn in Hs. unfold opMstore8. wp_auto.
  - exfalso. destruct H. rewrite Int64_small in E by lia. bool_to_prop. lia.
  - finish. by rewrite length_insert.
Qed.

Lemma spec_memory_end : spec_op 2 0 (room (memory2 0 1)) (offset ← pop; size ← pop; memory_GetPtr (Big.Int64 offset) (Big.Int64 size)).
Proof.
  enter. items st. words. destruct Hpre as (s & [= <-] & Hs). cbn in Hs. unfold memory_GetPtr. wp_auto.
  apply mwp_Get; cbn; [apply H|apply H0|lia|done|]. finish.
Qed.

Lemma spec_Sstore : ro = false -> spec_op 2 0 anywhere (opSstore c).
Proof.
  intros Hro. enter. items st. words. unfold opSstore. wp_auto.
  eapply (gwp_upd T _ _ _ ro); [law law_SetState|done| | |by rewrite Hro|].
  - apply wf_on_acct; [apply Hg|]. intros a (W1 & W2 & W3). split_and!; [done..|]. intros k. cbn. unfold fupd.
    case_decide; [|done]. by apply Crypto.length_SetBytes.
  - eapply capped_ext; [|apply Hg]. intros a. by apply balance_keep.
  - intros g' Hg' Hr _ _. wp_auto. finish.
Qed.

Lemma mwp_popTopics n st (Q : list bytes -> Machine -> Prop) (R : EvmErr -> Machine -> Prop) m :
  m_stack m = st -> n <= length st -> (forall ts, Q ts (with_stack m (drop n st))) -> mwp (popTopics n) Q R m.
Proof.
  revert st Q m. induction n as [|n IH]; intros st Q m Est Hn HQ; cbn [popTopics].
  { apply wp_ret. specialize (HQ []). subst st. by destruct m. }
  destruct st as [|x st]; [cbn in Hn; lia|]. apply wp_bind. eapply wp_pop; [exact Est|].
  apply wp_bind. eapply IH; [reflexivity|cbn in *; lia|]. intros ts. apply wp_ret. apply HQ.
Qed.

Lemma spec_Log n : ro = false -> spec_op (n + 2) 0 (room memoryLog) (makeLog ctx n c).
Proof.
  intros Hro. enter. rewrite Nat.add_comm in Hlen. cbn in Hlen. items st. words. destruct Hpre as (s & [= <-] & Hs). cbn in Hs.
  unfold makeLog. wp_auto.
  eapply mwp_popTopics; [reflexivity|done|]. intros ts. wp_auto. apply mwp_Get; cbn; [apply H|apply H0|lia|done|].
  wp_auto. eapply (gwp_upd T _ _ _ ro); [apply law_AddLog|done|apply Hg|apply Hg|by rewrite Hro|].
  intros g' Hg' Hr _ _. wp_auto. finish; [by apply Forall_drop|]. rewrite length_drop. pose proof (mok_height _ _ _ Hm) as Hh. cbn in Hh. lia.
Qed.

(** All of the balance goes to the beneficiary, or is lost when that is the contract itself. *)
Lemma suicide_cap o a to : capped T (balance o) ->
  let o1 := on_acct to (set_balance (balance o to + balance o a)) o in
  capped T (balance (match o_acct o1 a with Some x => set_acct a (set_suicided x) o1 | None => o1 end)).
Proof.
  intros Hcap. cbn zeta. set (o1 := on_acct _ _ _).
  assert (forall x, balance o1 x = fupd (balance o) to (balance o to + balance o a)%Z x) as E1 by apply balance_on_acct.
  pose proof (capped_le _ _ a Hcap) as Ha. destruct (decide (a = to)) as [->|Hne].
  - assert (o_acct o1 to = Some (set_balance (balance o to + balance o to) (default newAcct (o_acct o to)))) as ->
      by (subst o1; cbn; by rewrite fupd_eq).
    eapply capped_ext; [|apply (capped_lower T (balance o) to 0); [done|lia]].
    intros x. rewrite balance_set_acct. destruct (decide (x = to)) as [->|]; [by rewrite !fupd_eq|].
    rewrite !fupd_ne, E1, fupd_ne by done. done.
  - assert (o_acct o1 a = o_acct o a) as -> by (subst o1; cbn; by rewrite fupd_ne).
    eapply capped_ext; [|apply (capped_move T (balance o) a to (balance o a)); [done|lia|done]].
    intros x. destruct (o_acct o a) as [y|] eqn:Ey.
    + rewrite balance_set_acct. destruct (decide (x = a)) as [->|].
      * rewrite fupd_eq, fupd_ne, fupd_eq by done. cbn. lia.
      * rewrite fupd_ne, E1 by done. destruct (decide (x = to)) as [->|]; [by rewrite !fupd_eq|by rewrite !fupd_ne].
    + rewrite E1. destruct (decide (x = to)) as [->|]; [by rewrite !fupd_eq|]. rewrite !(fupd_ne _ to) by done.
      destruct (decide (x = a)) as [->|]; [|by rewrite fupd_ne]. rewrite fupd_eq.
      assert (balance o a = 0%Z) by (unfold balance; by rewrite Ey). lia.
Qed.

Lemma spec_Suicide : ro = false -> spec_op 1 0 anywhere (opSuicide c).
Proof.
  intros Hro. enter. items st. words. unfold opSuicide. wp_auto.
  eapply (gwp_get T _ _ ro); [law law_GetBalance|done|]. intros g1 Hg1 Hr1 HO1 _. wp_auto.
  set (a := c_self c). set (to := BigToAddressHash z).
  eapply gwp_db; [apply law_AddBalance, address_length|apply Hg1|]. intros d2 K2 E2 N2 X2. wp_auto.
  eapply gwp_db; [apply law_Suicide, cok_self, Hc|done|]. intros d3 K3 E3 N3 X3. wp_auto. change (O (with_db g1 d2)) with (obs d2) in E3.
  assert (gok T (with_db (with_db g1 d2) d3)) as Hg3.
  { split; [done| | |apply Hg1..]; unfold O; cbn; rewrite E3, E2, HO1.
    - assert (wf_obs (on_acct to (set_balance (balance (O g) to + balance (O g) a)) (O g))) as W2
        by (apply wf_on_acct; [apply Hg|]; by intros x (W1 & W2 & W3)).
      destruct (o_acct _ a) as [y|] eqn:Ey; [|done]. apply wf_set_acct; [done|]. by destruct (proj1 W2 a y Ey) as (W3 & W4 & W5).
    - apply suicide_cap, Hg. }
  assert (grel ro g (with_db (with_db g1 d2) d3)) as Hr3.
  { eapply grel_trans; [exact Hr1|]. cbn in *. split; cbn; rewrite ?N3, ?N2, ?X3, ?X2; [by exists []|done|by rewrite Hro|done]. }
  finish.
Qed.

End Flow.

(** ** Jumps *)

Section Jumps.
Context {D : StateDB} {V : StateDBView D} `{K : Keccak} {L : StateDBLaws D V} (T : Z) (ro : bool) (c : Contract).
Context (Hc : cok c).
Abbreviation spec_op := (spec_op T ro c).

(** A jump destination: a JUMPDEST at which an instruction starts. *)
Definition jumpdest (code : bytes) (dest : Z) : Prop :=
  (0 <= dest < Z.of_nat (length code))%Z /\ code !! Z.to_nat dest = Some x5b /\ instr_at code (Z.to_nat dest).

(** An analysis of the code answers. *)
Lemma segment_answer a dest (Q : bool -> Machine -> Prop) R m :
  Analysis.codeBitmap (c_Code c) = Returns a -> (0 <= dest < Z.of_nat (length (c_Code c)))%Z ->
  c_Code c !! Z.to_nat dest = Some x5b ->
  (forall b, (b = true <-> jumpdest (c_Code c) dest) -> Q b m) -> mwp (lift_go (Analysis.codeSegment a dest)) Q R m.
Proof.
  intros Ha Hd Hb HQ. destruct (codeSegment_ok _ _ (Z.to_nat dest) Ha) as (v & Ev & Hv); [lia|].
  rewrite Z2Nat.id in Ev by lia. eapply wp_lift_go; [exact Ev|]. apply HQ. rewrite Hv. unfold jumpdest. naive_solver.
Qed.

Lemma BitLen_63 x : (0 <= x)%Z -> (63 <=? Big.BitLen x)%Z = false -> (x < 2 ^ 62)%Z.
Proof.
  intros Hx. unfold Big.BitLen. destruct (Z.eqb_spec x 0) as [->|]; [done|]. intros H. apply Z.leb_gt in H.
  rewrite Z.abs_eq in H by done. apply Z.log2_lt_pow2; lia.
Qed.

Lemma BitLen_63_ge x : (0 <= x < 2 ^ 62)%Z -> (63 <=? Big.BitLen x)%Z = false.
Proof.
  intros Hx. apply Z.leb_gt. unfold Big.BitLen. destruct (Z.eqb_spec x 0) as [->|]; [done|].
  rewrite Z.abs_eq by lia. pose proof (proj1 (Z.log2_lt_pow2 x 62 ltac:(lia)) ltac:(lia)). lia.
Qed.

(** The test for a jump destination is right, unless two codes clash. *)
Lemma mwp_validJumpdest dest pc st store last gas an g (Q : bool -> Machine -> Prop) R :
  gok T g -> (forall b, an = Some b -> Analysis.codeBitmap (c_Code c) = Returns b) -> word dest ->
  (forall b an' g', gok T g' -> grel ro g g' -> (forall b, an' = Some b -> Analysis.codeBitmap (c_Code c) = Returns b) ->
    (~ gclash g' -> b = true <-> jumpdest (c_Code c) dest) -> (b = true -> 0 <= dest < 2 ^ 62)%Z ->
    Q b (mkMachine pc st store last gas an' g')) ->
  mwp (validJumpdest c dest) Q R (mkMachine pc st store last gas an g).
Proof.
  intros Hg Han [Hd0 _] HQ. unfold validJumpdest. pose proof (cok_code _ Hc) as Hlen.
  destruct (63 <=? Big.BitLen dest)%Z eqn:E63; cbn [orb].
  { apply wp_ret, HQ; [done|apply grel_refl|done| |done]. intros _. split; [done|]. intros [H _].
    rewrite BitLen_63_ge in E63 by lia. done. }
  apply BitLen_63 in E63; [|done]. rewrite Uint64_small by lia.
  destruct (Z.leb_spec (Z.of_nat (length (c_Code c))) dest) as [Hout|Hin].
  { apply wp_ret, HQ; [done|apply grel_refl|done| |done]. intros _. split; [done|]. intros [H _]. lia. }
  unfold GetByte. destruct (Z.ltb_spec dest (Z.of_nat (length (c_Code c)))); [|lia].
  destruct (lookup_lt_is_Some_2 (c_Code c) (Z.to_nat dest) ltac:(lia)) as [x Hx]. rewrite Hx. cbn [default from_option id].
  case_bool_decide as Hj; cbn [negb].
  2: { apply wp_ret, HQ; [done|apply grel_refl|done| |done]. intros _. split; [done|]. intros (_ & H' & _). congruence. }
  subst x. case_bool_decide; cbn [negb].
  - apply wp_bind, wp_gets. cbn. destruct an as [a|].
    + wp_auto. eapply segment_answer; [by apply Han|done|done|]. intros b Hb. apply HQ; [done|apply grel_refl|done|done|done].
    + destruct (codeBitmap_ok (c_Code c)) as (a & Ea & _). apply wp_bind. wp_step. eapply wp_lift_go; [exact Ea|]. wp_auto.
      eapply segment_answer; [done..|]. intros b Hb. apply HQ; [done|apply grel_refl| |done|done]. by intros ? [= <-].
  - apply wp_bind, wp_gets. cbn [m_g]. destruct (g_jumpdests g !! c_CodeHash c) as [[code' a]|] eqn:Ec.
    + wp_auto. pose proof (gok_caches _ _ Hg _ _ _ Ec) as Ha.
      assert (gok T (with_jumpdests g (g_jumpdests g) (g_clash g || negb (bool_decide (code' = c_Code c))))) as Hg'
        by (eapply gok_other; [..|exact Hg]; done).
      assert (grel ro g (with_jumpdests g (g_jumpdests g) (g_clash g || negb (bool_decide (code' = c_Code c))))) as Hr'
        by (apply grel_other; [done|]; unfold gclash; cbn; by intros ->).
      destruct (decide (code' = c_Code c)) as [->|Hne].
      * eapply segment_answer; [done..|]. intros b Hb. by apply HQ.
      * rewrite bool_decide_eq_false_2, orb_true_r in * by done. unfold wp, lift_go.
        destruct (Analysis.codeSegment a dest) as [b|]; [|done]. apply HQ; [done..| |done]. unfold gclash. done.
    + destruct (codeBitmap_ok (c_Code c)) as (a & Ea & _). wp_step. eapply wp_lift_go; [exact Ea|]. wp_auto.
      eapply segment_answer; [done..|]. intros b Hb. apply HQ; [|by apply grel_other|done|done|done].
      split; [apply Hg..| |apply Hg]. intros h code' bits. cbn. intros [[_ [= <- <-]]|[_ H']]%lookup_insert_Some; [done|].
      by eapply gok_caches.
Qed.

Lemma mok_jump m pc st an g :
  mok T c m -> Forall word st -> length st <= 1024 -> gok T g -> (0 <= pc < 2 ^ 64)%Z ->
  (forall b, an = Some b -> Analysis.codeBitmap (c_Code c) = Returns b) ->
  mok T c (mkMachine pc st (m_store m) (m_lastGasCost m) (m_gas m) an g).
Proof. intros [] ? ? ? ? ?. split; cbn; done. Qed.

Lemma spec_Jump : spec_op 1 0 anywhere (opJump c).
Proof.
  enter. items st. words. unfold opJump. wp_auto.
  apply mwp_validJumpdest; [done|by apply (mok_an _ _ _ Hm)|done|]. intros b an' g' Hg' Hr Han Hb Hd. wp_auto.
  - finish.
  - split; [|split; [exact Hr|done]]. apply (mok_jump _ _ _ _ _ Hm); try done; [cbn in *; lia|].
    destruct b; [|done]. rewrite Uint64_small; specialize (Hd eq_refl); lia.
Qed.

Lemma spec_Jumpi : spec_op 2 0 anywhere (opJumpi c).
Proof.
  enter. items st. words. unfold opJumpi. wp_auto.
  - apply mwp_validJumpdest; [done|by apply (mok_an _ _ _ Hm)|done|]. intros b an' g' Hg' Hr Han Hb Hd. wp_auto.
    + finish.
    + split; [|split; [exact Hr|done]]. apply (mok_jump _ _ _ _ _ Hm); try done; [cbn in *; lia|].
      destruct b; [|done]. rewrite Uint64_small; specialize (Hd eq_refl); lia.
  - finish. apply Z.mod_pos_bound. lia.
Qed.

(** The program counter is inside the code. *)
Definition in_code (m : Machine) : Prop := (m_pc m < Z.of_nat (length (c_Code c)))%Z.

Lemma spec_Push n : n <= 32 -> spec_op 0 1 in_code (makePush (Z.of_nat n) n c).
Proof.
  intros Hn. enter. unfold in_code in Hpre. cbn in Hpre. pose proof (cok_code _ Hc). unfold makePush. wp_auto.
  rewrite u64_small, i64_small by lia. set (len := Z.of_nat (length (c_Code c))) in *.
  set (s := if (pc + 1 <? len)%Z then (pc + 1)%Z else len).
  assert (0 <= s <= len)%Z as Hs by (subst s; case_match; lia).
  set (e := if (s + Z.of_nat n <? len)%Z then (s + Z.of_nat n)%Z else len).
  assert (s <= e <= len /\ e <= s + Z.of_nat n)%Z as He by (subst e; case_match; bool_to_prop; lia).
  eapply wp_lift_go; [apply read_at_ok; lia|]. wp_auto. finish.
  - apply SetBytes_word. rewrite RightPadBytes_length; rewrite length_take, length_drop; lia.
  - apply Z.mod_pos_bound. lia.
Qed.

End Jumps.
