(* ===== verification/EvmCharge.v ===== *)
(** * EvmCharge: gas costs

    Every gas function either fails or asks for at least a known minimum ([spec_gas]); the
    memory is charged for exactly once, so that resizing it afterwards keeps [mem_ok].  The
    call instructions ask for the gas they pass on plus 700, plus 9000 when they send value. *)

From S2P Require Import Prelude Crypto EvmMath EvmOpcode EvmState EvmMachine EvmGas EvmInstr EvmAnalysis EvmInv EvmOps.
Import Params.

Lemma u64_bounds x : (0 <= u64 x < 2 ^ 64)%Z.
Proof. apply Z.mod_pos_bound. lia. Qed.

Lemma SafeAdd_exact x y : (0 <= x < 2 ^ 64)%Z -> (0 <= y < 2 ^ 64)%Z -> (Math.SafeAdd x y).2 = false ->
  (Math.SafeAdd x y).1 = (x + y)%Z /\ (x + y < 2 ^ 64)%Z.
Proof. unfold Math.SafeAdd, Math.MaxUint64. cbn. intros. bool_to_prop. rewrite u64_small; lia. Qed.

Lemma SafeMul_range x y : (0 <= (Math.SafeMul x y).1 < 2 ^ 64)%Z.
Proof. unfold Math.SafeMul. case_match; cbn; [lia|apply u64_bounds]. Qed.

Lemma SafeMul_exact x y : (0 <= x < 2 ^ 64)%Z -> (0 <= y < 2 ^ 64)%Z -> (Math.SafeMul x y).2 = false ->
  (Math.SafeMul x y).1 = (x * y)%Z /\ (x * y < 2 ^ 64)%Z.
Proof.
  unfold Math.SafeMul, Math.MaxUint64. intros Hx Hy. destruct (Z.eqb_spec x 0) as [->|]; cbn; [lia|].
  destruct (Z.eqb_spec y 0) as [->|]; cbn; [lia|]. intros H%Z.ltb_ge.
  assert (x * y < 2 ^ 64)%Z; [|rewrite u64_small; nia].
  pose proof (Z.mul_div_le (2 ^ 64 - 1) x ltac:(lia)). nia.
Qed.

Lemma toWordSize_range x : (0 <= x < 2 ^ 64)%Z -> (0 <= toWordSize x < 2 ^ 64)%Z.
Proof.
  intros. unfold toWordSize, Math.MaxUint64. case_match; [by vm_compute|]. bool_to_prop.
  split; [apply Z.div_pos; lia|]. apply Z.div_lt_upper_bound; lia.
Qed.

Lemma toWordSize_words w : (0 <= 32 * w < 2 ^ 64)%Z -> toWordSize (32 * w) = w.
Proof.
  intros. unfold toWordSize, Math.MaxUint64. destruct (Z.ltb_spec (2 ^ 64 - 1 - 31) (32 * w)).
  - assert (w = 2 ^ 59 - 1 \/ w >= 2 ^ 59)%Z by lia. lia.
  - rewrite Z.mul_comm, Z.div_add_l by lia. change (31 / 32)%Z with 0%Z. lia.
Qed.

Section Charge.
Context {D : StateDB} {V : StateDBView D} `{K : Keccak} {L : StateDBLaws D V} (T : Z) (ro : bool) (c : Contract).
Abbreviation mok := (mok T c).
Abbreviation failed := (failed T ro).

(** The gas function asked for [cost]: besides the charge for memory of [ms] bytes, only the
    shared part may have changed. *)
Definition charged (low ms : Z) (m : Machine) (cost : Z) (m' : Machine) : Prop :=
  exists last g, m' = mkMachine (m_pc m) (m_stack m) (m_store m) last (m_gas m) (m_analysis m) g /\
    gok T g /\ grel ro (m_g m) g /\ mem_ok (Z.max (Z.of_nat (length (m_store m))) ms) last /\ (low <= cost < 2 ^ 64)%Z.

(** A number of bytes that is a whole number of words. *)
Definition whole (ms : Z) : Prop := exists w, (0 <= w /\ ms = 32 * w /\ ms < 2 ^ 64)%Z.

Definition spec_gas (n : nat) (low : Z) (f : gasFunc) : Prop :=
  forall pc st store last gas an g ms, let m := mkMachine pc st store last gas an g in
  mok m -> n <= length st -> whole ms ->
  mwp (f DefaultGasTable c ms) (charged low ms m) (fun _ => failed m) m.

(** One that does not charge for memory. *)
Definition spec_flat (n : nat) (low : Z) (f : gasFunc) : Prop :=
  forall pc st store last gas an g, let m := mkMachine pc st store last gas an g in
  mok m -> n <= length st ->
  mwp (f DefaultGasTable c 0%Z) (charged low 0%Z m) (fun _ => failed m) m.

Lemma charged_none pc st store last gas an g low cost :
  mok (mkMachine pc st store last gas an g) -> (low <= cost < 2 ^ 64)%Z ->
  charged low 0%Z (mkMachine pc st store last gas an g) cost (mkMachine pc st store last gas an g).
Proof.
  intros Hm Hc. exists last, g. split_and!; try done; [apply Hm|apply grel_refl| |lia|lia].
  cbn. rewrite Z.max_l by lia. apply (mok_mem _ _ _ Hm).
Qed.

(** The charge for memory. *)
Lemma mwp_memoryGasCost pc st store last gas an g ms Q (R : EvmErr -> Machine -> Prop) :
  let m := mkMachine pc st store last gas an g in
  mok m -> whole ms -> R ErrGasUintOverflow m ->
  (forall cost last', (0 <= cost < 2 ^ 64)%Z -> mem_ok (Z.max (Z.of_nat (length store)) ms) last' ->
    Q cost (mkMachine pc st store last' gas an g)) ->
  mwp (memoryGasCost ms) Q R m.
Proof.
  intros m Hm (w & Hw & -> & Hms) HR HQ. pose proof (mok_mem _ _ _ Hm) as Hmem. subst m. cbn in Hmem.
  unfold memoryGasCost. destruct (Z.eqb_spec (32 * w) 0) as [E0|Hne].
  { apply wp_ret, HQ; [lia|]. by rewrite Z.max_l by lia. }
  wp_step; [wp_auto; exact HR|]. apply Z.ltb_ge in E. rewrite toWordSize_words by lia. rewrite (Z.mul_comm w 32), (u64_small (32 * w)) by lia.
  wp_auto.
  - apply Z.ltb_lt in E0. apply HQ; [apply u64_bounds|]. rewrite Z.max_r by lia. exists w. split; [lia|done].
  - apply Z.ltb_ge in E0. apply HQ; [lia|]. by rewrite Z.max_l by lia.
Qed.

Lemma failed_refl pc st store last gas an g :
  mok (mkMachine pc st store last gas an g) -> failed (mkMachine pc st store last gas an g) (mkMachine pc st store last gas an g).
Proof. intros Hm. split; [apply Hm|]. split; [apply grel_refl|done]. Qed.

(** A failure after the charge for memory. *)
Lemma failed_charged pc st store last last' gas an g :
  mok (mkMachine pc st store last gas an g) -> failed (mkMachine pc st store last gas an g) (mkMachine pc st store last' gas an g).
Proof. intros Hm. split; [apply Hm|]. split; [apply grel_refl|done]. Qed.

Ltac start :=
  let Hm := fresh "Hm" in
  intros pc st store last gas an g ms m Hm Hlen Hms; subst m; pose proof (mok_g _ _ _ Hm) as Hg; cbn in Hg.
Ltac start_flat :=
  let Hm := fresh "Hm" in
  intros pc st store last gas an g m Hm Hlen; subst m; pose proof (mok_g _ _ _ Hm) as Hg; cbn in Hg.
Ltac memgas Hm Hms :=
  apply mwp_memoryGasCost; [exact Hm|exact Hms|by apply failed_refl|];
  let cost := fresh "mg" in let last' := fresh "last'" in let Hc := fresh "Hmg" in let Hl := fresh "Hlast" in
  intros cost last' Hc Hl.
Ltac check := apply wp_checked; [|by intros _; apply failed_charged].

Lemma flat_const n v : (0 <= v < 2 ^ 64)%Z -> spec_flat n v (constGasFunc v).
Proof. intros Hv. start_flat. unfold constGasFunc. wp_auto. apply charged_none; [done|lia]. Qed.

Lemma flat_Exp : spec_flat 2 10 gasExp.
Proof.
  start_flat. items st. unfold gasExp. wp_auto. check. intros E.
  apply SafeAdd_exact in E as [-> E]; [|apply u64_bounds|done]. apply charged_none; [done|].
  pose proof (u64_bounds ((Big.BitLen z0 + 7) / 8 * ExpByte DefaultGasTable)). unfold GasSlowStep in *. lia.
Qed.

Lemma flat_SStore : cok c -> ro = false -> spec_flat 2 5000 gasSStore.
Proof.
  intros Hc Hro. start_flat. items st. unfold gasSStore. wp_auto.
  eapply (gwp_get T _ _ ro); [law law_GetState|done|]. intros g1 Hg1 Hr1 HO1 _. cbn beta iota.
  assert (forall cost, (5000 <= cost < 2 ^ 64)%Z -> charged 5000 0%Z (mkMachine pc (z :: z0 :: st) store last gas an g) cost
    (mkMachine pc (z :: z0 :: st) store last gas an g1)) as Hch.
  { intros cost Hcost. exists last, g1. split_and!; try done; [|lia..]. cbn. rewrite Z.max_l by lia. apply (mok_mem _ _ _ Hm). }
  wp_auto; [by apply Hch| |by apply Hch].
  eapply (gwp_upd T _ _ _ ro); [apply law_AddRefund|done|apply wf_refund, Hg1|apply Hg1|by rewrite Hro|].
  intros g2 Hg2 Hr2 _ _. wp_auto. destruct (Hch SstoreClearGas ltac:(done)) as (l' & g' & _ & _ & _ & Hmo & Hco).
  exists last, g2. split_and!; try done; [by eapply grel_trans|]. cbn. rewrite Z.max_l by lia. apply (mok_mem _ _ _ Hm).
Qed.

Lemma flat_Suicide : cok c -> ro = false -> spec_flat 1 0 gasSuicide.
Proof.
  intros Hc Hro. start_flat. items st. unfold gasSuicide. wp_auto.
  eapply (gwp_get T _ _ ro); [law law_Empty|done|]. intros g1 Hg1 Hr1 HO1 _.
  eapply wp_bind, (wp_mono _ _ (fun cost m' => exists g2, m' = mkMachine pc (z :: st) store last gas an g2 /\ gok T g2 /\ grel ro g g2 /\ (0 <= cost < 2 ^ 64)%Z) _ (fun _ _ => False)); [| |done].
  { wp_auto; [|eexists; split_and!; done|eexists; split_and!; done..].
    eapply (gwp_get T _ _ ro); [law law_GetBalance|done|]. intros g2 Hg2 Hr2 HO2 _. wp_auto.
    exists g2. split_and!; [done|done|by eapply grel_trans|case_match; [apply u64_bounds|done]..]. }
  intros cost m' (g2 & -> & Hg2 & Hr2 & Hcost). wp_auto.
  eapply (gwp_get T _ _ ro); [law law_HasSuicided|done|]. intros g3 Hg3 Hr3 HO3 _. cbn beta iota.
  assert (mem_ok (Z.max (Z.of_nat (length store)) 0) last) as Hmem by (rewrite Z.max_l by lia; apply (mok_mem _ _ _ Hm)).
  wp_auto.
  - eapply (gwp_upd T _ _ _ ro); [apply law_AddRefund|done|apply wf_refund, Hg3|apply Hg3|by rewrite Hro|].
    intros g4 Hg4 Hr4 _ _. wp_auto. exists last, g4. split_and!; try done; [|lia..]. do 2 (eapply grel_trans; [eassumption|]). done.
  - exists last, g3. split_and!; try done; [|lia..]. by eapply grel_trans.
Qed.

Lemma gas_mem base : (0 <= base < 2 ^ 64)%Z -> spec_gas 0 base (fun gt c ms => gasMem base ms).
Proof.
  intros Hb. start. unfold gasMem. wp_step. memgas Hm Hms. check. intros E.
  apply SafeAdd_exact in E as [-> E]; [|done..]. eexists _, _. split_and!; try done; [apply grel_refl|lia].
Qed.

Lemma gas_plain : spec_gas 0 0 (fun gt c ms => memoryGasCost ms).
Proof.
  start. memgas Hm Hms. eexists _, _. split_and!; try done; [apply grel_refl|lia..].
Qed.

Lemma gas_copy base per n : (0 <= base < 2 ^ 64)%Z -> spec_gas (n + 1) base (fun gt c ms => gasCopy base per n ms).
Proof.
  intros Hb. start. unfold gasCopy. wp_step. memgas Hm Hms. wp_step. check. intros E.
  apply SafeAdd_exact in E as [-> E]; [|done..]. wp_step.
  destruct (lookup_lt_is_Some_2 st n ltac:(lia)) as [d Hd]. eapply wp_Back; [exact Hd|]. wp_step.
  check. intros _. wp_step. check. intros _. check. intros E2.
  apply SafeAdd_exact in E2 as [-> E2]; [|lia|apply SafeMul_range].
  pose proof (SafeMul_range (toWordSize (bigUint64 d).1) per). eexists _, _. split_and!; try done; [apply grel_refl|lia].
Qed.

Lemma gas_log n : (0 <= n <= 4)%Z -> spec_gas 2 375 (makeGasLog n).
Proof.
  intros Hn. start. items st. unfold makeGasLog. wp_auto. check. intros _. wp_step. memgas Hm Hms. wp_step. check. intros E.
  apply SafeAdd_exact in E as [-> E]; [|done..]. wp_step. check. intros E2.
  unfold LogGas, LogTopicGas in *. rewrite (u64_small (n * 375)) in * by lia.
  apply SafeAdd_exact in E2 as [-> E2]; [|lia..]. wp_step. check. intros _. check. intros E3.
  apply SafeAdd_exact in E3 as [-> E3]; [|lia|apply SafeMul_range].
  pose proof (SafeMul_range (bigUint64 z0).1 LogDataGas). eexists _, _. split_and!; try done; [apply grel_refl|lia].
Qed.

(** *** Calls *)

(** What a call pays on top of the gas it passes on. *)
Definition surcharge (value : Z) : Z := if (value =? 0)%Z then 700%Z else 9700%Z.

Definition charged_call (sur ms : Z) (m : Machine) (cost : Z) (m' : Machine) : Prop :=
  charged 700 ms m cost m' /\ (0 <= g_callGasTemp (m_g m') /\ g_callGasTemp (m_g m') + sur <= cost)%Z.

Lemma callGas_range gt available base cost temp : callGas gt available base cost = inl temp -> (0 <= temp < 2 ^ 64)%Z.
Proof. unfold callGas. repeat case_match; intros [= <-]; apply u64_bounds. Qed.

Lemma mwp_addCallGas pc st store last last' gas an g g' sur ms cost :
  let m := mkMachine pc st store last gas an g in
  mok m -> 1 <= length st -> gok T g' -> grel ro g g' -> mem_ok (Z.max (Z.of_nat (length store)) ms) last' ->
  (700 <= sur)%Z -> (sur <= cost < 2 ^ 64)%Z ->
  mwp (addCallGas DefaultGasTable cost) (charged_call sur ms m) (fun _ => failed m) (mkMachine pc st store last' gas an g').
Proof.
  intros m Hm Hlen Hg' Hr Hmem Hsur Hcost. subst m. items st. unfold addCallGas. wp_auto.
  destruct (callGas _ _ _ _) as [temp|e] eqn:Et; [|by wp_auto]. apply callGas_range in Et. wp_auto.
  assert (gok T (with_callGasTemp g' temp)) as Hg2 by (by eapply gok_other; [..|exact Hg']).
  assert (grel ro g (with_callGasTemp g' temp)) as Hr2 by (eapply grel_trans; [exact Hr|by apply grel_other]).
  apply wp_checked; [|done]. intros E. apply SafeAdd_exact in E as [-> E]; [|lia..].
  split; [|cbn; lia]. exists last', (with_callGasTemp g' temp). split_and!; try done; lia.
Qed.

Definition spec_call (n : nat) (sur : list Z -> Z) (f : gasFunc) : Prop :=
  forall pc st store last gas an g ms, let m := mkMachine pc st store last gas an g in
  mok m -> n <= length st -> whole ms ->
  mwp (f DefaultGasTable c ms) (charged_call (sur st) ms m) (fun _ => failed m) m.

Definition value_sur (st : list Z) : Z := surcharge (default 0%Z (st !! 2)).

Lemma call_Call : spec_call 3 value_sur gasCall.
Proof.
  start. items st. unfold gasCall. wp_auto; cbn [Calls_ DefaultGasTable].
  - eapply (gwp_get T _ _ ro); [law law_Empty|done|]. intros g1 Hg1 Hr1 HO1 _. wp_auto.
    assert (mok (mkMachine pc (z :: z0 :: z1 :: st) store last gas an g1)) as Hm1 by (apply (mok_update T c _ _ _ _ _ Hm); try done; apply Hm).
    match goal with |- context [Math.SafeAdd ?b _] => set (base := b) end.
    assert (9700 <= base < 2 ^ 64)%Z as Hbase by (subst base; destruct (empty _ _); vm_compute; split; congruence).
    apply mwp_memoryGasCost; [exact Hm1|exact Hms|done|]. intros mg last' Hmg Hlast. wp_step.
    apply wp_checked; [|done]. intros E2. apply SafeAdd_exact in E2 as [-> E2]; [|lia..].
    apply mwp_addCallGas; [done|cbn; lia|done|done|done|..]; unfold value_sur, surcharge; cbn;
      (destruct (Z.eqb_spec z1 0); [done|lia]).
  - memgas Hm Hms. wp_step. check. intros E2. apply SafeAdd_exact in E2 as [-> E2]; [|done..].
    apply mwp_addCallGas; [done|cbn; lia|done|apply grel_refl|done|..]; unfold value_sur, surcharge; cbn;
      (destruct (Z.eqb_spec z1 0); [lia|done]).
Qed.

Lemma call_CallCode : spec_call 3 value_sur gasCallCode.
Proof.
  start. items st. unfold gasCallCode. wp_auto. memgas Hm Hms. wp_step.
  match goal with |- context [Math.SafeAdd ?b _] => set (base := b) end.
  assert (value_sur (z :: z0 :: z1 :: st) <= base < 2 ^ 64 /\ 700 <= value_sur (z :: z0 :: z1 :: st))%Z as Hbase.
  { subst base. unfold value_sur, surcharge. cbn. destruct (Z.eqb_spec z1 0); vm_compute; intuition congruence. }
  check. intros E2. apply SafeAdd_exact in E2 as [-> E2]; [|lia..].
  apply mwp_addCallGas; [done|cbn; lia|done|apply grel_refl|done|lia..].
Qed.

Lemma call_plain : spec_call 1 (fun _ => 700%Z) (fun gt c ms => gas ← gasMem (Calls_ gt) ms; addCallGas gt gas).
Proof.
  start. unfold gasMem. wp_step. wp_step. memgas Hm Hms. check. intros E2.
  apply SafeAdd_exact in E2 as [-> E2]; [|done..]. cbn [Calls_ DefaultGasTable] in *.
  apply mwp_addCallGas; [done|done|done|apply grel_refl|done|lia..].
Qed.

End Charge.
