(* ===== verification/EvmStep.v ===== *)
(** * EvmStep: one turn of the interpreter

    For an entry of the instruction table, [spec_entry] is what a turn guarantees: a frame
    that goes on has strictly less gas and keeps its invariant; one that ends, well or with an
    error, has no more gas than before. *)

From S2P Require Import Prelude Crypto EvmMath EvmOpcode EvmState EvmMachine EvmGas EvmInstr EvmAnalysis EvmInv EvmOps EvmCharge EvmJump EvmPrecompile Evm.
Import Params.

Section Step.
Context {D : StateDB} {V : StateDBView D} `{K : Keccak} {L : StateDBLaws D V} (T : Z) (ro : bool) (c : Contract).
Abbreviation mok := (mok T c).
Abbreviation failed := (failed T ro).

(** A memory-size function computes a size from the stack. *)
Definition spec_mem (n : nat) (f : X Z) : Prop :=
  forall st, Forall word st -> n <= length st ->
  exists s, (0 <= s)%Z /\ forall m, m_stack m = st -> f m = (XOk s, m).

Definition mem_entry (n : nat) (o : operation) : Prop :=
  match memorySize o with None => True | Some f => spec_mem n f end.

(** The gas function of an entry, with what else is known of the cost. *)
Definition gas_entry (n : nat) (low : Z) (more : list Z -> Z -> Global -> Prop) (o : operation) : Prop :=
  forall pc st store last gas an g ms, let m := mkMachine pc st store last gas an g in
  mok m -> n <= length st -> whole ms -> (memorySize o = None -> ms = 0%Z) ->
  mwp (gasCost o DefaultGasTable c ms)
    (fun cost m' => charged T ro low ms m cost m' /\ more st cost (m_g m')) (fun _ => failed m) m.

Definition roomy (o : operation) (m : Machine) : Prop :=
  match memorySize o with None => True | Some f => room f m end.

(** After the charge. *)
Definition paid (low : Z) (more : list Z -> Z -> Global -> Prop) (o : operation) (m m' : Machine) : Prop :=
  mok m' /\ grel ro (m_g m) (m_g m') /\ m_stack m' = m_stack m /\ m_pc m' = m_pc m /\ roomy o m' /\
  exists cost, (m_gas m' + cost = m_gas m /\ low <= cost)%Z /\ more (m_stack m) cost (m_g m').

Lemma mwp_requiredMemory o n m (Q : Z -> Machine -> Prop) (R : EvmErr -> Machine -> Prop) :
  mem_entry n o -> Forall word (m_stack m) -> n <= length (m_stack m) ->
  R ErrGasUintOverflow m ->
  (forall ms, whole ms -> (memorySize o = None -> ms = 0%Z) ->
    (forall f, memorySize o = Some f -> exists s, (s <= ms)%Z /\ forall m', m_stack m' = m_stack m -> f m' = (XOk s, m')) ->
    Q ms m) ->
  mwp (requiredMemory o) Q R m.
Proof.
  intros Hmem Hw Hn HR HQ. unfold requiredMemory, mem_entry in *. destruct (memorySize o) as [f|].
  2: { apply wp_ret, HQ; [exists 0%Z; lia|done|done]. }
  destruct (Hmem _ Hw Hn) as (s & Hs & Hf). apply wp_bind. unfold wp at 1. rewrite (Hf m eq_refl).
  apply wp_bind, wp_checked; [|done]. intros E1. cbn in E1. apply BitLen_64 in E1; [|done].
  cbn [fst bigUint64]. rewrite Uint64_small by lia. apply wp_checked; [|done]. intros E2.
  pose proof (toWordSize_range s ltac:(lia)) as Hr. apply SafeMul_exact in E2 as [-> E2]; [|lia..].
  apply HQ; [exists (toWordSize s); lia|done|]. intros f' [= <-]. exists s. split; [|done].
  unfold toWordSize in *. destruct (Z.ltb_spec (Math.MaxUint64 - 31) s); unfold Math.MaxUint64 in *.
  - change (((2 ^ 64 - 1) / 32 + 1) * 32)%Z with (2 ^ 64)%Z. lia.
  - pose proof (Z.div_mod (s + 31) 32 ltac:(lia)). pose proof (Z.mod_pos_bound (s + 31) 32 ltac:(lia)). lia.
Qed.

Lemma mwp_charge o n low more m :
  mem_entry n o -> gas_entry n low more o -> mok m -> n <= length (m_stack m) -> (0 <= low)%Z ->
  mwp (charge o c) (fun _ => paid low more o m) (fun _ => failed m) m.
Proof.
  intros Hmem Hgas Hm Hn Hlow. unfold charge. apply wp_bind. eapply mwp_requiredMemory; [exact Hmem|apply Hm|done| |].
  { destruct m. by eapply failed_refl. }
  intros ms Hms H0 Hroom. destruct m as [pc st store last gas an g]. cbn in Hroom.
  apply wp_bind, wp_try. eapply wp_mono; [by apply Hgas| |].
  2: { intros e m' Hf. apply wp_fail. exact Hf. }
  intros cost m' [(last' & g' & -> & Hg' & Hr & Hl & Hc) Hmore]. cbn in Hl, Hr, Hmore. cbn.
  apply wp_bind, wp_UseGas; cbn.
  { intros _. split; [done|]. split; [exact Hr|done]. }
  intros Hle. pose proof (mok_gas _ _ _ Hm) as Hgs. cbn in Hgs. rewrite u64_small by lia.
  destruct Hms as (w & Hw & Hms & Hlt).
  assert (forall store', Z.of_nat (length store') = Z.max (Z.of_nat (length store)) ms ->
    paid low more o (mkMachine pc st store last gas an g) (mkMachine pc st store' last' (gas - cost) an g')) as Hpaid.
  { intros store' Hs. split_and!; cbn; try done.
    - split; cbn; [apply (mok_words _ _ _ Hm)|apply (mok_height _ _ _ Hm)|by rewrite Hs|lia|apply (mok_an _ _ _ Hm)|done|apply (mok_pc _ _ _ Hm)].
    - unfold roomy. destruct (memorySize o) as [f|]; [|done]. destruct (Hroom f eq_refl) as (s & Hsm & Hf).
      exists s. split; [by apply Hf|]. cbn. lia.
    - exists cost. split; [lia|done]. }
  destruct (Z.ltb_spec 0 ms).
  - apply wp_modify. cbn. destruct (Z.ltb_spec (Z.of_nat (length store)) ms); apply Hpaid; cbn; [|lia].
    rewrite length_app, length_replicate. lia.
  - apply wp_ret, Hpaid. cbn. lia.
Qed.

(** ** Entries *)

(** The outcome of a turn. *)
Definition ended (m m' : Machine) : Prop :=
  gok T (m_g m') /\ grel ro (m_g m) (m_g m') /\ (0 <= m_gas m' <= m_gas m)%Z.
Definition stepped (m : Machine) (r : option (bytes * option EvmErr)) (m' : Machine) : Prop :=
  match r with
  | None => mok m' /\ grel ro (m_g m) (m_g m') /\ (m_gas m' < m_gas m)%Z
  | Some _ => ended m m'
  end.

Definition spec_entry (pre : Machine -> Prop) (k : Calls) (o : operation) : Prop :=
  forall m, mok m -> validateStack o (m_stack m) = None -> pre m ->
  mwp (_ ← charge o c; perform k o c) (stepped m) (fun _ => ended m) m.

Lemma failed_ended m m' : mok m -> failed m m' -> ended m m'.
Proof. intros Hm (H1 & H2 & H3). split_and!; try done; pose proof (mok_gas _ _ _ Hm); lia. Qed.

(** From the execution of an instruction, after the charge, to a turn. *)
Lemma mwp_perform k o m m1 :
  mok m -> (m_gas m1 <= m_gas m)%Z -> grel ro (m_g m) (m_g m1) ->
  mwp (execute o k c)
    (fun _ m2 => mok m2 /\ grel ro (m_g m1) (m_g m2) /\ (m_gas m2 <= m_gas m)%Z /\
       (reverts o || halts o = false -> m_gas m2 < m_gas m)%Z)
    (fun _ m2 => gok T (m_g m2) /\ grel ro (m_g m1) (m_g m2) /\ (0 <= m_gas m2 <= m_gas m)%Z) m1 ->
  mwp (perform k o c) (stepped m) (fun _ => ended m) m1.
Proof.
  intros Hm Hgas Hr1 Hex. unfold perform. apply wp_bind, wp_try. eapply wp_mono; [exact Hex| |].
  - intros res [pc st store last gas an g] (Hm2 & Hr2 & Hle & Hlt). cbn [m_g m_gas] in *.
    assert (forall d, mok (mkMachine pc st store last gas an (with_returnData g d))) as Hm3.
    { intros d. destruct Hm2. split; cbn in *; try done. by eapply gok_other; [..|eassumption]. }
    assert (forall d, grel ro (m_g m) (with_returnData g d)) as Hr3.
    { intros d. eapply grel_trans; [exact Hr1|]. eapply grel_trans; [exact Hr2|]. by apply grel_other. }
    pose proof (mok_gas _ _ _ Hm2) as Hg2. cbn in Hg2.
    assert (forall r, mok r -> grel ro (m_g m) (m_g r) -> m_gas r = gas ->
      mwp (if reverts o then mret (Some (res, Some ErrExecutionReverted))
           else if halts o then mret (Some (res, None))
           else if jumps o then mret None
           else pc ← gets m_pc; _ ← set_pc (u64 (pc + 1)); mret None) (stepped m) (fun _ => ended m) r) as Hend.
    { intros r Hr Hrel Egas. destruct (reverts o); [|destruct (halts o)]; [apply wp_ret; split_and!; [apply Hr|done|lia..]..|].
      cbn in Hlt. specialize (Hlt eq_refl). destruct (jumps o); [apply wp_ret; split_and!; [done..|lia]|].
      destruct r as [pc' st' store' last' gas' an' g']. wp_auto. cbn in *. split_and!; [|done|cbn; lia].
      destruct Hr. split; cbn in *; try done. apply u64_bounds. }
    cbn beta iota zeta. wp_step. destruct (returns o).
    + apply wp_modify. apply Hend; [apply Hm3|apply Hr3|done].
    + apply wp_ret. apply Hend; [done|eapply grel_trans; [exact Hr1|exact Hr2]|done].
  - intros e [pc st store last gas an g] (Hg2 & Hr2 & Hle). cbn [m_g m_gas] in *. wp_step. destruct (returns o).
    + apply wp_modify, wp_fail. split_and!; cbn; [by eapply gok_other; [..|exact Hg2]| |lia..].
      eapply grel_trans; [exact Hr1|]. eapply grel_trans; [exact Hr2|]. by apply grel_other.
    + apply wp_ret, wp_fail. split_and!; cbn; [done|by eapply grel_trans|lia..].
Qed.

(** An entry whose instruction does not start another frame. *)
Lemma entry_simple k o pops pushes low pre e :
  validateStack o = makeStackFunc pops pushes -> execute o k c = e -> spec_op T ro c pops pushes pre e ->
  mem_entry pops o -> gas_entry pops low (fun _ _ _ => True) o -> (0 <= low)%Z ->
  (reverts o || halts o = false -> 1 <= low)%Z ->
  forall prem, (forall m m', m_pc m' = m_pc m -> m_stack m' = m_stack m -> roomy o m' -> prem m -> pre m') ->
  spec_entry prem k o.
Proof.
  intros Hv He Hop Hmem Hgas Hlow Hstop prem Hpre m Hm Hval Hp. rewrite Hv in Hval. unfold makeStackFunc, StackLimit in Hval.
  case_match eqn:E1; [done|]. case_match eqn:E2; [done|]. apply Nat.ltb_ge in E1, E2.
  apply wp_bind. eapply wp_mono; [by eapply mwp_charge| |].
  2: { intros e' m' Hf. by apply failed_ended. }
  intros _ m1 (Hm1 & Hr1 & Est & Epc & Hroom & cost & Hcost & _).
  apply mwp_perform; [done|lia|done|]. rewrite He. pose proof (Hpre _ _ Epc Est Hroom Hp) as Hpre1.
  destruct m1 as [pc1 st1 store1 last1 gas1 an1 g1]. cbn in Est, Epc, Hcost. subst st1 pc1.
  eapply wp_mono; [by eapply Hop| |].
  - intros _ m2 (H1 & H2 & H3). cbn [m_gas m_g] in H2, H3. split_and!; [done..|lia|]. intros Hs. specialize (Hstop Hs). lia.
  - intros _ m2 (H1 & H2 & H3). pose proof (mok_gas _ _ _ Hm1) as Hg1. cbn [m_gas m_g] in H2, H3, Hg1. split_and!; [done..|lia|lia].
Qed.

(** ** Calls *)

Definition call_post (g : Global) (gas : Z) (r : call_res) (g' : Global) : Prop :=
  gok T g' /\ grel ro g g' /\ (0 <= r.1.2 <= gas)%Z.
Definition create_post (g : Global) (gas : Z) (r : create_res) (g' : Global) : Prop :=
  gok T g' /\ grel ro g g' /\ (0 <= r.1.2 <= gas)%Z /\ length r.1.1.2 = 20.

(** What the instructions rely on in the methods they call. *)
Record calls_ok (k : Calls) : Prop := mk_calls_ok {
  ok_Call c' addr input gas value g : cok c' -> gok T g -> word value -> length addr = 20 -> (Z.of_nat (length input) < 2 ^ 62)%Z ->
    (0 <= gas < 2 ^ 62)%Z -> (ro = true -> value = 0%Z) ->
    gwp (k_Call k c' addr input gas value) (call_post g gas) (fun _ _ => False) g;
  ok_CallCode c' addr input gas value g : cok c' -> gok T g -> word value -> length addr = 20 -> (Z.of_nat (length input) < 2 ^ 62)%Z ->
    (0 <= gas < 2 ^ 62)%Z -> gwp (k_CallCode k c' addr input gas value) (call_post g gas) (fun _ _ => False) g;
  ok_DelegateCall c' addr input gas g : cok c' -> gok T g -> length addr = 20 -> (Z.of_nat (length input) < 2 ^ 62)%Z ->
    (0 <= gas < 2 ^ 62)%Z -> gwp (k_DelegateCall k c' addr input gas) (call_post g gas) (fun _ _ => False) g;
  ok_StaticCall c' addr input gas g : cok c' -> gok T g -> length addr = 20 -> (Z.of_nat (length input) < 2 ^ 62)%Z ->
    (0 <= gas < 2 ^ 62)%Z -> gwp (k_StaticCall k c' addr input gas) (call_post g gas) (fun _ _ => False) g;
  ok_Create c' code gas value g : cok c' -> gok T g -> word value -> (Z.of_nat (length code) < 2 ^ 62)%Z ->
    (0 <= gas < 2 ^ 62)%Z -> ro = false -> gwp (k_Create k c' code gas value) (create_post g gas) (fun _ _ => False) g;
  ok_Create2 c' code gas value salt g : cok c' -> gok T g -> word value -> (Z.of_nat (length code) < 2 ^ 62)%Z ->
    (0 <= gas < 2 ^ 62)%Z -> ro = false -> gwp (k_Create2 k c' code gas value salt) (create_post g gas) (fun _ _ => False) g
}.

(** The outcome of an instruction that started another frame: [m0] is the machine before the
    charge. *)
Definition called (m0 m1 m2 : Machine) : Prop :=
  mok m2 /\ grel ro (m_g m1) (m_g m2) /\ (m_gas m2 < m_gas m0)%Z.

Lemma mwp_finishCall m0 g1 pc st store last gas an g retOffset retSize (r : call_res) (sent : Z) :
  mok (mkMachine pc st store last gas an g) -> length st < 1024 -> grel ro g1 g ->
  (0 <= retOffset)%Z -> (0 <= retSize)%Z -> (calcMemSize retOffset retSize <= Z.of_nat (length store))%Z ->
  (0 <= r.1.2 <= sent)%Z -> (gas + sent < m_gas m0)%Z -> (m_gas m0 < 2 ^ 62)%Z ->
  mwp (finishCall retOffset retSize r) (fun _ m2 => mok m2 /\ grel ro g1 (m_g m2) /\ (m_gas m2 < m_gas m0)%Z) (fun _ _ => False)
    (mkMachine pc st store last gas an g).
Proof.
  intros Hm Hst Hr H1 H2 Hroom Hret Hsent Hm0. destruct r as [[ret returnGas] err]. cbn in Hret. unfold finishCall. wp_auto.
  pose proof (mok_gas _ _ _ Hm) as Hgas. cbn in Hgas. pose proof (mem_bound _ _ (mok_mem _ _ _ Hm)) as Hmem. cbn in Hmem.
  assert (forall s v, length s = length store -> word v ->
    mwp (_ ← add_gas returnGas; mret ret) (fun _ m2 => mok m2 /\ grel ro g1 (m_g m2) /\ (m_gas m2 < m_gas m0)%Z) (fun _ _ => False)
      (mkMachine pc (v :: st) s last gas an g)) as Hend.
  { intros s v Hs Hv. apply wp_bind, wp_modify. wp_auto. cbn. rewrite u64_small by lia. split_and!; [|done|cbn; lia].
    destruct Hm. split; cbn in *; try done; [by constructor|by rewrite Hs|lia]. }
  destruct err as [[]|]; try (apply wp_ret; by apply Hend; [|apply word_0]);
    (apply mwp_Set; cbn; [done..|lia|done|]; intros s Hs; apply Hend; [done|apply small_word; lia]).
Qed.

Lemma BigMax_le x y z : (Math.BigMax x y <= z -> x <= z /\ y <= z)%Z.
Proof. unfold Math.BigMax. case_match; bool_to_prop; lia. Qed.

(** The gas that was charged covers what is passed on. *)
Definition covered (m0 : Machine) (sur : Z) (m1 : Machine) : Prop :=
  (m_gas m0 < 2 ^ 62 /\ 0 <= g_callGasTemp (m_g m1) /\ m_gas m1 + g_callGasTemp (m_g m1) + sur <= m_gas m0)%Z.

(** A call that is good for the arguments an instruction gives it. *)
Definition good_call (call : bytes -> bytes -> Z -> G call_res) : Prop :=
  forall addr input gas g, gok T g -> length addr = 20 -> (Z.of_nat (length input) < 2 ^ 62)%Z -> (0 <= gas < 2 ^ 62)%Z ->
  gwp (call addr input gas) (call_post g gas) (fun _ _ => False) g.

Lemma mok_below pc st st' store last gas an g g' :
  mok (mkMachine pc st store last gas an g) -> gok T g' -> Forall word st' -> length st' <= 1024 ->
  mok (mkMachine pc st' store last gas an g').
Proof. intros [] ? ? ?. by split. Qed.

(** The part the call instructions share: read the arguments, call, and write the results. *)
Lemma mwp_call_tail m0 call pc st st' store last gas an g inOffset inSize retOffset retSize addr sent :
  mok (mkMachine pc st store last gas an g) -> Forall word st' -> length st' < 1024 ->
  (0 <= inOffset)%Z -> (0 <= inSize)%Z -> (calcMemSize inOffset inSize <= Z.of_nat (length store))%Z ->
  (0 <= retOffset)%Z -> (0 <= retSize)%Z -> (calcMemSize retOffset retSize <= Z.of_nat (length store))%Z ->
  (0 <= sent)%Z -> (gas + sent < m_gas m0 < 2 ^ 62)%Z -> good_call call ->
  mwp (memory_Get (Big.Int64 inOffset) (Big.Int64 inSize))
    (fun args => mwp (r ← shared (call (BigToAddressHash addr) args sent); finishCall retOffset retSize r)
      (fun _ => called m0 (mkMachine pc st store last gas an g)) (fun _ _ => False))
    (fun _ _ => False) (mkMachine pc st' store last gas an g).
Proof.
  intros Hm Hw Hst Hi1 Hi2 Hi3 Hr1 Hr2 Hr3 Hsent Hgas Hcall.
  pose proof (mem_bound _ _ (mok_mem _ _ _ Hm)) as Hmem. pose proof (mok_gas _ _ _ Hm) as Hg0. pose proof (mok_g _ _ _ Hm) as Hg. cbn in Hmem, Hg0, Hg.
  apply mwp_Get; cbn; [done..|lia|done|]. wp_auto.
  eapply wp_mono; [apply Hcall; [done|apply address_length| |lia]| |done].
  { rewrite length_take, length_drop. lia. }
  intros r g' (Hg' & Hr & Hret). msimpl.
  eapply wp_mono; [eapply (mwp_finishCall m0); [eapply mok_below; [exact Hm|exact Hg'|exact Hw|lia]|done|exact Hr|done..|exact Hret| |]| |]; [lia|lia| |done].
  intros _ m2 (H1 & H2 & H3). by split_and!.
Qed.

Lemma mwp_callValue m0 pc st store last gas an g (call : bytes -> bytes -> Z -> Z -> G call_res) :
  let m1 := mkMachine pc st store last gas an g in
  mok m1 -> 7 <= length st -> room memoryCall m1 -> covered m0 (value_sur st) m1 ->
  good_call (fun addr input gas => call addr input gas (default 0%Z (st !! 2))) ->
  mwp (callValue call) (fun _ => called m0 m1) (fun _ _ => False) m1.
Proof.
  intros m1 Hm Hlen (s & Hs & Hroom) (H0 & Ht & Hcov) Hcall. subst m1. pose proof (mok_words _ _ _ Hm) as Hw.
  pose proof (mok_height _ _ _ Hm) as Hh. cbn in Hw, Hh, Hcov, Ht, Hroom. items st. words. injection Hs as <-.
  apply BigMax_le in Hroom as [R1 R2]. unfold callValue. wp_auto. cbn [default lookup list_lookup] in Hcall.
  cbn in Hcall. rewrite (U256_small z1) by done. unfold value_sur, surcharge in Hcov. cbn in Hcov.
  pose proof (mok_gas _ _ _ Hm) as Hgas. cbn in Hgas.
  apply (mwp_call_tail m0 (fun addr input gas => call addr input gas z1));
    [exact Hm|done|cbn in *; lia|apply H3|apply H4|done|apply H5|apply H6|done| | |exact Hcall].
  - destruct (Z.eqb_spec z1 0); cbn; [done|apply u64_bounds].
  - unfold CallStipend. destruct (Z.eqb_spec z1 0); cbn; [lia|]. rewrite u64_small; lia.
Qed.

Lemma mwp_callPlain m0 pc st store last gas an g (call : bytes -> bytes -> Z -> G call_res) :
  let m1 := mkMachine pc st store last gas an g in
  mok m1 -> 6 <= length st -> room memoryDelegateCall m1 -> covered m0 700 m1 -> good_call call ->
  mwp (callPlain call) (fun _ => called m0 m1) (fun _ _ => False) m1.
Proof.
  intros m1 Hm Hlen (s & Hs & Hroom) (H0 & Ht & Hcov) Hcall. subst m1. pose proof (mok_words _ _ _ Hm) as Hw.
  pose proof (mok_height _ _ _ Hm) as Hh. cbn in Hw, Hh, Hcov, Ht, Hroom. items st. words. injection Hs as <-.
  apply BigMax_le in Hroom as [R1 R2]. unfold callPlain. wp_auto.
  apply (mwp_call_tail m0 call);
    [exact Hm|done|cbn in *; lia|apply H2|apply H3|done|apply H4|apply H5|done|done|lia|exact Hcall].
Qed.

(** *** Creations *)

Definition good_create (create : bytes -> Z -> G create_res) : Prop :=
  forall code gas g, gok T g -> (Z.of_nat (length code) < 2 ^ 62)%Z -> (0 <= gas < 2 ^ 62)%Z ->
  gwp (create code gas) (create_post g gas) (fun _ _ => False) g.

(** All but one 64th of the gas goes to the new frame, and comes back at most. *)
Lemma mwp_create_tail m0 create pc st st' store last gas an g offset size :
  mok (mkMachine pc st store last gas an g) -> Forall word st' -> length st' < 1024 ->
  (0 <= offset)%Z -> (0 <= size)%Z -> (calcMemSize offset size <= Z.of_nat (length store))%Z ->
  (gas < m_gas m0)%Z -> good_create create ->
  mwp (memory_Get (Big.Int64 offset) (Big.Int64 size))
    (fun input => mwp (gas ← gets m_gas; let gas := u64 (gas - gas / 64) in _ ← UseGas gas; r ← shared (create input gas); finishCreate r)
      (fun _ => called m0 (mkMachine pc st store last gas an g)) (fun _ _ => False))
    (fun _ _ => False) (mkMachine pc st' store last gas an g).
Proof.
  intros Hm Hw Hst H1 H2 Hroom Hgas Hcr.
  pose proof (mem_bound _ _ (mok_mem _ _ _ Hm)) as Hmem. pose proof (mok_gas _ _ _ Hm) as Hg0. pose proof (mok_g _ _ _ Hm) as Hg. cbn in Hmem, Hg0, Hg.
  apply mwp_Get; cbn; [done..|lia|done|]. wp_auto. set (sent := (gas - gas / 64)%Z).
  assert (0 <= sent <= gas)%Z as Hsent.
  { pose proof (Z.div_pos gas 64 ltac:(lia) ltac:(lia)). pose proof (Z.div_le_upper_bound gas 64 gas ltac:(lia) ltac:(lia)). lia. }
  rewrite (u64_small sent) by lia. apply wp_UseGas; cbn [m_gas]; [lia|]. intros _. msimpl. rewrite (u64_small (gas - sent)) by lia.
  wp_auto. eapply wp_mono; [apply Hcr; [done| |lia]| |done].
  { rewrite length_take, length_drop. lia. }
  intros [[[res addr] returnGas] err] g' (Hg' & Hr & Hret & Ha). msimpl. cbn in Hret, Ha. unfold finishCreate. wp_auto.
  apply wp_modify. wp_auto. msimpl. rewrite u64_small by lia. split_and!; [|done|cbn; lia].
  destruct Hm. split; cbn in *; try done; [|lia]. constructor; [|done].
  destruct err; [apply word_0|apply SetBytes_word; lia].
Qed.

Lemma mwp_opCreate m0 k pc st store last gas an g :
  let m1 := mkMachine pc st store last gas an g in
  mok m1 -> 3 <= length st -> room memoryCreate m1 -> (gas < m_gas m0)%Z -> calls_ok k -> cok c -> ro = false ->
  mwp (opCreate k c) (fun _ => called m0 m1) (fun _ _ => False) m1.
Proof.
  intros m1 Hm Hlen (s & Hs & Hroom) Hgas Hk Hc Hro. subst m1. pose proof (mok_words _ _ _ Hm) as Hw.
  pose proof (mok_height _ _ _ Hm) as Hh. cbn in Hw, Hh, Hroom. items st. words. injection Hs as <-. unfold opCreate. wp_auto.
  apply (mwp_create_tail m0 (fun code gas => k_Create k c code gas z)); [exact Hm|done|cbn in *; lia|apply H0|apply H1|done|done|].
  intros code' gas' g' Hg' Hl Hgs. by apply ok_Create.
Qed.

Lemma mwp_opCreate2 m0 k pc st store last gas an g :
  let m1 := mkMachine pc st store last gas an g in
  mok m1 -> 4 <= length st -> room memoryCreate2 m1 -> (gas < m_gas m0)%Z -> calls_ok k -> cok c -> ro = false ->
  mwp (opCreate2 k c) (fun _ => called m0 m1) (fun _ _ => False) m1.
Proof.
  intros m1 Hm Hlen (s & Hs & Hroom) Hgas Hk Hc Hro. subst m1. pose proof (mok_words _ _ _ Hm) as Hw.
  pose proof (mok_height _ _ _ Hm) as Hh. cbn in Hw, Hh, Hroom. items st. words. injection Hs as <-. unfold opCreate2. wp_auto.
  apply (mwp_create_tail m0 (fun code gas => k_Create2 k c code gas z z2)); [exact Hm|done|cbn in *; lia|apply H0|apply H1|done|done|].
  intros code' gas' g' Hg' Hl Hgs. by apply ok_Create2.
Qed.

(** An entry whose instruction starts another frame. *)
Lemma entry_call k o pops pushes low more prem :
  validateStack o = makeStackFunc pops pushes -> mem_entry pops o -> gas_entry pops low more o -> (0 <= low)%Z ->
  (forall m0 pc st store last gas an g cost, let m1 := mkMachine pc st store last gas an g in
    mok m0 -> mok m1 -> m_stack m0 = st -> pops <= length st -> roomy o m1 -> prem m0 ->
    (gas + cost = m_gas m0)%Z -> (low <= cost)%Z -> more st cost g ->
    mwp (execute o k c) (fun _ => called m0 m1) (fun _ _ => False) m1) ->
  spec_entry prem k o.
Proof.
  intros Hv Hmem Hgas Hlow Hex m Hm Hval Hp. rewrite Hv in Hval. unfold makeStackFunc, StackLimit in Hval.
  case_match eqn:E1; [done|]. clear Hval. apply Nat.ltb_ge in E1.
  apply wp_bind. eapply wp_mono; [by eapply mwp_charge| |].
  2: { intros e' m' Hf. by apply failed_ended. }
  intros _ m1 (Hm1 & Hr1 & Est & Epc & Hroom & cost & [Hc1 Hc2] & Hmore).
  apply mwp_perform; [done|lia|done|]. destruct m1 as [pc1 st1 store1 last1 gas1 an1 g1]. cbn in Est, Epc, Hc1, Hmore. subst st1 pc1.
  eapply wp_mono; [by eapply (Hex m)| |done].
  intros _ m2 (H1 & H2 & H3). split_and!; [done|exact H2|lia|lia].
Qed.

End Step.
