(* ===== verification/EvmTable.v ===== *)
(** * EvmTable: every entry of the instruction table meets [spec_entry], and the native contracts
    answer *)

From Stdlib Require Import Zpow_facts.
From S2P Require Import Prelude Crypto EvmMath EvmOpcode EvmState EvmMachine EvmGas EvmInstr EvmPrecompile EvmJump Evm EvmAnalysis EvmInv EvmOps EvmCharge EvmStep.
Import Params.

Section Table.
Context {D : StateDB} {V : StateDBView D} `{K : Keccak} {L : StateDBLaws D V} (T : Z) (ro : bool) (c : Contract) (ctx : Context) (k : Calls).
Context (HT : (0 <= T < 2 ^ 256)%Z) (Hctx : ctx_ok ctx) (Hc : cok c) (Hk : calls_ok T ro k).
Abbreviation spec_entry := (spec_entry T ro c).
Abbreviation gas_entry := (gas_entry T ro c).

(** ** Memory sizes *)

Lemma mem_2 i j n : i < n -> j < n -> spec_mem n (memory2 i j).
Proof.
  intros Hi Hj st Hw Hn.
  destruct (lookup_lt_is_Some_2 st i ltac:(lia)) as [x Hx], (lookup_lt_is_Some_2 st j ltac:(lia)) as [y Hy].
  pose proof (Forall_lookup_1 _ _ _ _ Hw Hx) as [Hx0 _]. pose proof (Forall_lookup_1 _ _ _ _ Hw Hy) as [Hy0 _].
  exists (calcMemSize x y). split; [by apply calcMemSize_nonneg|]. intros m <-.
  unfold memory2, Back, mbind, ST_bind, mret, ST_ret. by rewrite Hx, Hy.
Qed.

Lemma mem_1 v n : (0 <= v)%Z -> 0 < n -> spec_mem n (o ← Back 0; mret (calcMemSize o v)).
Proof.
  intros Hv Hn st Hw Hl. destruct (lookup_lt_is_Some_2 st 0 ltac:(lia)) as [x Hx].
  pose proof (Forall_lookup_1 _ _ _ _ Hw Hx) as [Hx0 _]. exists (calcMemSize x v). split; [by apply calcMemSize_nonneg|].
  intros m <-. unfold Back, mbind, ST_bind, mret, ST_ret. by rewrite Hx.
Qed.

Lemma mem_max f f' n : spec_mem n f -> spec_mem n f' -> spec_mem n (x ← f; y ← f'; mret (Math.BigMax x y)).
Proof.
  intros H1 H2 st Hw Hl. destruct (H1 st Hw Hl) as (x & Hx & Ex), (H2 st Hw Hl) as (y & Hy & Ey).
  exists (Math.BigMax x y). split; [unfold Math.BigMax; case_match; lia|].
  intros m Hm. unfold mbind, ST_bind. by rewrite Ex, Ey.
Qed.

(** ** Gas *)

Lemma gas_of_flat n low f o : memorySize o = None -> gasCost o = f -> spec_flat T ro c n low f -> gas_entry n low (fun _ _ _ => True) o.
Proof.
  intros Hm <- Hf pc st store last gas an g ms m Hm' Hn _ H0. rewrite (H0 Hm). eapply wp_mono; [by apply Hf|done|done].
Qed.

Lemma gas_of_mem n n' low f o : n' <= n -> gasCost o = f -> spec_gas T ro c n' low f -> gas_entry n low (fun _ _ _ => True) o.
Proof. intros Hle <- Hf pc st store last gas an g ms m Hm' Hn Hms _. eapply wp_mono; [apply Hf; [done|lia|done]|done|done]. Qed.

Definition passes (sur : list Z -> Z) (st : list Z) (cost : Z) (g : Global) : Prop :=
  (0 <= g_callGasTemp g /\ g_callGasTemp g + sur st <= cost)%Z.

Lemma gas_of_call n n' sur f o : n' <= n -> gasCost o = f -> spec_call T ro c n' sur f -> gas_entry n 700 (passes sur) o.
Proof. intros Hle <- Hf pc st store last gas an g ms m Hm' Hn Hms _. eapply wp_mono; [apply Hf; [done|lia|done]|done|done]. Qed.

(** ** The table *)

(** What is known when an operation is chosen: it is the one at the program counter, and a
    read-only frame does not write. *)
Definition chosen (op : OpCode) (o : operation) (m : Machine) : Prop :=
  OpCode.of_byte (GetByte c (m_pc m)) = Some op /\
  (ro = true -> writes o = false /\ (op = CALL -> default 0%Z (m_stack m !! 2) = 0%Z)).

(** Entries without memory, with a constant price. *)
Lemma entry_const e p q v op o :
  o = op_ e (constGasFunc v) (makeStackFunc p q) -> (1 <= v < 2 ^ 64)%Z -> EvmOps.spec_op T ro c p q anywhere (e k c) ->
  spec_entry (chosen op o) k o.
Proof.
  intros -> Hv He. eapply (entry_simple T ro c _ _ p q v); [done|done|exact He|exact I| |lia|intros _; lia|done].
  eapply gas_of_flat; [done|done|]. apply flat_const. lia.
Qed.

(** The same, with another gas function. *)
Lemma entry_flat e p q v f op o :
  o = op_ e f (makeStackFunc p q) -> (1 <= v)%Z -> spec_flat T ro c p v f -> EvmOps.spec_op T ro c p q anywhere (e k c) ->
  spec_entry (chosen op o) k o.
Proof.
  intros -> Hv Hf He. eapply (entry_simple T ro c _ _ p q v); [done|done|exact He|exact I| |lia|intros _; lia|done].
  by eapply gas_of_flat.
Qed.

(** Entries with memory. *)
Lemma entry_mem e p q v n f fm op o :
  o = with_memory fm (op_ e f (makeStackFunc p q)) -> (1 <= v)%Z -> n <= p -> spec_gas T ro c n v f -> spec_mem p fm ->
  EvmOps.spec_op T ro c p q (room fm) (e k c) -> spec_entry (chosen op o) k o.
Proof.
  intros -> Hv Hn Hf Hm He. eapply (entry_simple T ro c _ _ p q v); [done|done|exact He|exact Hm| |lia|intros _; lia|done].
  by eapply gas_of_mem.
Qed.

Lemma arith_entries op o : arithSet op = Some o -> spec_entry (chosen op o) k o.
Proof.
  intros E. destruct op; try done; injection E as <-;
    try (eapply entry_const; [done|done|]; (apply spec_op2 + apply spec_op1 + apply spec_op3); solve [auto with words]).
  - eapply (entry_simple T ro c _ _ 0 0 0); [done|done|apply spec_nop|exact I| |lia|done|done].
    eapply gas_of_flat; [done|done|]. apply flat_const. lia.
  - eapply (entry_flat _ 2 1 10); [done|done|apply flat_Exp|]. apply spec_op2. auto with words.
  - eapply entry_const; [done|done|]. apply spec_SignExtend.
Qed.

Lemma env_entries op o : envSet ctx op = Some o -> spec_entry (chosen op o) k o.
Proof.
  pose proof Hctx as (Ho & Hcb & Hgp & Hbn & _). pose proof Hc as [Hs Hca Hv Hcode Hin].
  assert (forall b, length b <= 32 -> EvmOps.spec_op T ro c 0 1 anywhere (op0 (Big.SetBytes b))) as Haddr
    by (intros b Hb; by apply spec_op0, SetBytes_word).
  intros E. destruct op; try done; injection E as <-.
  - eapply (entry_mem _ 2 1 30 2); [done|done|lia|by apply (gas_copy _ _ _ Sha3Gas Sha3WordGas 1)|by apply mem_2; lia|by apply spec_Sha3].
  - eapply entry_const; [done|done|]. apply Haddr; lia.
  - eapply (entry_flat _ 1 1 400); [done|done|by apply (flat_const _ _ _ 1 400)|by apply spec_Balance].
  - eapply entry_const; [done|done|]. apply Haddr; lia.
  - eapply entry_const; [done|done|]. apply Haddr; lia.
  - eapply entry_const; [done|done|]. by apply spec_op0.
  - eapply entry_const; [done|done|]. by apply spec_CallDataLoad.
  - eapply entry_const; [done|done|]. apply spec_op0. rewrite i64_small by lia. apply small_word. lia.
  - eapply (entry_mem _ 3 0 3 3); [done|done|lia|by apply (gas_copy _ _ _ 3 3 2)|by apply mem_2; lia|by apply spec_copyData].
  - eapply entry_const; [done|done|]. apply spec_op0. rewrite i64_small by lia. apply small_word. lia.
  - eapply (entry_mem _ 3 0 3 3); [done|done|lia|by apply (gas_copy _ _ _ 3 3 2)|by apply mem_2; lia|by apply spec_copyData].
  - eapply entry_const; [done|done|]. by apply spec_op0.
  - eapply (entry_flat _ 1 1 700); [done|done|by apply (flat_const _ _ _ 1 700)|by apply spec_ExtCodeSize].
  - eapply (entry_mem _ 4 0 700 4); [done|done|lia|by apply (gas_copy _ _ _ 700 3 3)|by apply mem_2; lia|by apply spec_ExtCodeCopy].
  - eapply entry_const; [done|done|]. by apply spec_Blockhash.
  - eapply entry_const; [done|done|]. apply Haddr; lia.
  - eapply entry_const; [done|done|]. apply spec_op0. auto with words.
  - eapply entry_const; [done|done|]. apply spec_op0. auto with words.
  - eapply entry_const; [done|done|]. apply spec_op0. auto with words.
Qed.

(** An entry that writes is not chosen in a read-only frame. *)
Lemma entry_writes op o : writes o = true -> (ro = false -> spec_entry (chosen op o) k o) -> spec_entry (chosen op o) k o.
Proof.
  intros Hw H. destruct (decide (ro = false)) as [Er|Er]; [by apply H|].
  intros m Hm Hv [_ Hro]. destruct Hro as [? _]; [by destruct ro|]. congruence.
Qed.

Lemma entry_jump e p v op o :
  o = jumping (op_ e (constGasFunc v) (makeStackFunc p 0)) -> (1 <= v < 2 ^ 64)%Z -> EvmOps.spec_op T ro c p 0 anywhere (e k c) ->
  spec_entry (chosen op o) k o.
Proof.
  intros -> Hv He. eapply (entry_simple T ro c _ _ p 0 v); [done|done|exact He|exact I| |lia|intros _; lia|done].
  eapply gas_of_flat; [done|done|]. apply flat_const. lia.
Qed.

Lemma flow_entries op o : flowSet op = Some o -> spec_entry (chosen op o) k o.
Proof.
  intros E. destruct op; try done; injection E as <-.
  - eapply entry_const; [done|done|]. by apply spec_Pop.
  - eapply (entry_mem _ 1 1 3 0); [done|done|lia|by apply (gas_mem _ _ _ 3)|by apply mem_1; lia|by apply spec_Mload].
  - eapply (entry_mem _ 2 0 3 0); [done|done|lia|by apply (gas_mem _ _ _ 3)|by apply mem_1; lia|by apply spec_Mstore].
  - eapply (entry_mem _ 2 0 3 0); [done|done|lia|by apply (gas_mem _ _ _ 3)|by apply mem_1; lia|by apply spec_Mstore8].
  - eapply (entry_flat _ 1 1 200); [done|done|by apply (flat_const _ _ _ 1 200)|by apply spec_Sload].
  - apply entry_writes; [done|]. intros Hro.
    eapply (entry_simple T ro c _ _ 2 0 5000); [done|done|by apply spec_Sstore|exact I| |lia|intros _; lia|done].
    eapply gas_of_flat; [done|done|]. by apply flat_SStore.
  - eapply entry_jump; [done|done|]. by apply spec_Jump.
  - eapply entry_jump; [done|done|]. by apply spec_Jumpi.
  - eapply entry_const; [done|done|]. by apply spec_Pc.
  - eapply entry_const; [done|done|]. by apply spec_Msize.
  - eapply entry_const; [done|done|]. by apply spec_Gas.
  - eapply entry_const; [done|done|]. by apply spec_nop.
Qed.

(** The value of a call from a read-only frame is zero. *)
Lemma call_entries op o : callSet op = Some o -> spec_entry (chosen op o) k o.
Proof.
  intros E. destruct op; try done; injection E as <-.
  - apply entry_writes; [done|]. intros Hro.
    eapply (entry_call T ro c _ _ 3 1 32000 (fun _ _ _ => True)); [done|by apply mem_2; lia| |lia|].
    + eapply (gas_of_mem _ 0); [lia|done|by apply (gas_mem _ _ _ 32000)].
    + intros m0 pc st store last gas an g cost m1 Hm0 Hm1 Est Hl Hr _ Hg Hlow _. by apply mwp_opCreate; try done; lia.
  - eapply (entry_call T ro c _ _ 7 1 700 (passes value_sur)); [done|by apply mem_max; apply mem_2; lia| |lia|].
    + eapply (gas_of_call _ 3); [lia|done|apply call_Call].
    + intros m0 pc st store last gas an g cost m1 Hm0 Hm1 Est Hl Hr [_ Hro] Hg Hlow [H1 H2].
      apply mwp_callValue; [done|done|exact Hr| |].
      { pose proof (mok_gas _ _ _ Hm0). split_and!; cbn; lia. }
      intros addr input gas' g' Hg' Ha Hi Hgas. apply ok_Call; try done.
      * rewrite <- Est. destruct (m_stack m0 !! 2) eqn:E2; [|apply word_0]. by eapply Forall_lookup_1, E2; apply Hm0.
      * intros Hr1. rewrite <- Est. by apply Hro.
  - eapply (entry_call T ro c _ _ 7 1 700 (passes value_sur)); [done|by apply mem_max; apply mem_2; lia| |lia|].
    + eapply (gas_of_call _ 3); [lia|done|apply call_CallCode].
    + intros m0 pc st store last gas an g cost m1 Hm0 Hm1 Est Hl Hr _ Hg Hlow [H1 H2].
      apply mwp_callValue; [done|done|exact Hr| |].
      { pose proof (mok_gas _ _ _ Hm0). split_and!; cbn; lia. }
      intros addr input gas' g' Hg' Ha Hi Hgas. apply ok_CallCode; try done.
      rewrite <- Est. destruct (m_stack m0 !! 2) eqn:E2; [|apply word_0]. by eapply Forall_lookup_1, E2; apply Hm0.
  - eapply (entry_simple T ro c _ _ 2 0 0); [done|done|apply spec_memory_end|by apply mem_2; lia| |lia|done|done].
    eapply (gas_of_mem _ 0); [lia|done|apply gas_plain].
  - apply entry_writes; [done|]. intros Hro.
    eapply (entry_simple T ro c _ _ 1 0 0); [done|done|by apply spec_Suicide|exact I| |lia|done|done].
    eapply gas_of_flat; [done|done|]. by apply flat_Suicide.
Qed.

(** The plain calls. *)
Lemma plain_entry e f fm op o :
  o = returning (with_memory fm (op_ (fun k c => callPlain (e k c)) f (makeStackFunc 6 1))) ->
  fm = memoryDelegateCall -> spec_call T ro c 1 (fun _ => 700%Z) f -> good_call T ro (e k c) -> spec_entry (chosen op o) k o.
Proof.
  intros -> -> Hf He.
  eapply (entry_call T ro c _ _ 6 1 700 (passes (fun _ => 700%Z))); [done|by apply mem_max; apply mem_2; lia| |lia|].
  - by eapply (gas_of_call _ 1); [lia|done|].
  - intros m0 pc st store last gas an g cost m1 Hm0 Hm1 Est Hl Hr _ Hg Hlow [H1 H2].
    apply mwp_callPlain; [done|done|exact Hr| |done].
    pose proof (mok_gas _ _ _ Hm0). split_and!; cbn; lia.
Qed.

Lemma late_entries op o : lateSet op = Some o -> spec_entry (chosen op o) k o.
Proof.
  intros E. destruct op; try done; injection E as <-;
    try (eapply entry_const; [done|done|]; apply spec_op2; solve [auto with words]).
  - eapply entry_const; [done|done|]. apply spec_ReturnDataSize.
  - eapply (entry_mem _ 3 0 3 3); [done|done|lia|by apply (gas_copy _ _ _ 3 3 2)|by apply mem_2; lia|by apply spec_ReturnDataCopy].
  - eapply (entry_flat _ 1 1 400); [done|done|by apply (flat_const _ _ _ 1 400)|by apply spec_ExtCodeHash].
  - eapply plain_entry; [done|done|apply call_plain|]. intros addr input gas g Hg Ha Hi Hgas. by apply ok_DelegateCall.
  - apply entry_writes; [done|]. intros Hro.
    eapply (entry_call T ro c _ _ 4 1 32000 (fun _ _ _ => True)); [done|by apply mem_2; lia| |lia|].
    + eapply (gas_of_mem _ 3 _ gasCreate2).
      { lia. }
      { reflexivity. }
      apply (gas_copy T ro c Create2Gas Sha3WordGas 2).
      split; done.
    + intros m0 pc st store last gas an g cost m1 Hm0 Hm1 Est Hl Hr _ Hg Hlow _. by apply mwp_opCreate2; try done; lia.
  - eapply plain_entry; [done|done|apply call_plain|]. intros addr input gas g Hg Ha Hi Hgas. by apply ok_StaticCall.
  - eapply (entry_simple T ro c _ _ 2 0 0); [done|done|apply spec_memory_end|by apply mem_2; lia| |lia|done|done].
    eapply (gas_of_mem _ 0); [lia|done|apply gas_plain].
Qed.

(** A push is fetched inside the code. *)
Lemma fetched_in_code m op : OpCode.of_byte (GetByte c (m_pc m)) = Some op -> op <> STOP -> in_code c m.
Proof.
  unfold GetByte, in_code. intros H Hne. destruct (Z.ltb_spec (m_pc m) (Z.of_nat (length (c_Code c)))); [done|].
  by injection H as <-.
Qed.

Lemma table_entry op o : newInstructionSet ctx op = Some o -> spec_entry (chosen op o) k o.
Proof.
  unfold newInstructionSet. intros E. destruct op;
    try (destruct (lateSet _) as [x|] eqn:E1; [injection E as <-; by apply late_entries|];
         destruct (arithSet _) as [x|] eqn:E2; [injection E as <-; by apply arith_entries|];
         destruct (envSet _ _) as [x|] eqn:E3; [injection E as <-; by apply env_entries|];
         destruct (flowSet _) as [x|] eqn:E4; [injection E as <-; by apply flow_entries|]; by apply call_entries);
    unfold pushSet, dupSet, swapSet, logSet in E; (case_match eqn:En; [|done]); injection E as <-; bool_to_prop.
  - eapply (entry_simple T ro c k _ 0 1 3 (in_code c) (makePush (Z.of_nat n) n c));
      [reflexivity|reflexivity|apply spec_Push; [done|lia]|exact I| |lia|intros _; lia|].
    + eapply gas_of_flat; [done|done|]. by apply (flat_const _ _ _ 0 3).
    + intros m m' Epc _ _ [Hf _]. apply fetched_in_code in Hf; [|done]. unfold in_code in *. congruence.
  - eapply (entry_flat _ n (n + 1) 3); [done|done|by apply (flat_const _ _ _ n 3)|]. apply spec_Dup. lia.
  - eapply (entry_flat _ (n + 1) (n + 1) 3); [done|done|by apply (flat_const _ _ _ (n + 1) 3)|]. apply spec_Swap. lia.
  - apply entry_writes; [done|]. intros Hro.
    eapply (entry_simple T ro c _ _ (n + 2) 0 375); [done|done|by apply spec_Log|by apply mem_2; lia| |lia|intros _; lia|done].
    eapply (gas_of_mem _ 2); [lia|done|]. apply gas_log. lia.
Qed.

End Table.

(** * The native contracts always answer when they are paid for

    With less than 2^62 gas: the lengths a caller of the modular exponentiation can pay for
    are then small enough for the 64-bit offsets of [getData]. *)

(** [btcec.PublicKey.SerializeUncompressed] gives 65 bytes. *)
Class CurvesLaws (E : Curves) : Prop := {
  RecoverCompact_length sig hash pub : RecoverCompact sig hash = Some pub -> length pub = 65
}.

Lemma getData_ok data start size : (Z.of_nat (length data) < 2 ^ 62)%Z -> (0 <= start)%Z -> (0 <= size)%Z ->
  (Z.min start (Z.of_nat (length data)) + size < 2 ^ 64)%Z ->
  exists d, getData data start size = Returns d.
Proof.
  intros Hd H1 H2 H3. unfold getData, slice_of. set (n := Z.of_nat (length data)) in *.
  set (s := if (n <? start)%Z then n else start).
  assert (0 <= s <= n /\ s = Z.min start n)%Z as Hs by (subst s; destruct (Z.ltb_spec n start); lia).
  rewrite u64_small by lia. set (e := if (n <? s + size)%Z then n else (s + size)%Z).
  assert (s <= e <= n)%Z as He by (subst e; destruct (Z.ltb_spec n (s + size)); lia).
  rewrite read_at_ok by lia. by eexists.
Qed.

Lemma multComplexity_ge x : (1 <= x)%Z -> (x <= multComplexity x)%Z /\ (1024 < x -> 64 * x <= multComplexity x)%Z.
Proof.
  intros Hx. unfold multComplexity. destruct (Z.leb_spec x 64); [nia|]. destruct (Z.leb_spec x 1024).
  - pose proof (Z.div_pos (x * x) 4 ltac:(nia) ltac:(lia)). lia.
  - assert (64 * x <= x * x / 16)%Z by (apply Z.div_le_lower_bound; nia). lia.
Qed.

Section Native.
Context `{C : Crypto} `{K : Keccak} `{E : Curves} {EL : CurvesLaws E}.

(** It names its price, and answers if the price is below 2^62. *)
Definition answers (p : PrecompiledContract) : Prop :=
  forall input, (Z.of_nat (length input) < 2 ^ 62)%Z ->
  exists g, RequiredGas p input = Returns g /\ (0 <= g)%Z /\ ((g < 2 ^ 62)%Z -> exists r, EvmPrecompile.Run p input = Returns r).

Lemma getData_small input start size : (Z.of_nat (length input) < 2 ^ 62)%Z -> (0 <= start < 2 ^ 62)%Z -> (0 <= size < 2 ^ 62)%Z ->
  exists d, getData input start size = Returns d.
Proof. intros. apply getData_ok; lia. Qed.

Lemma answers_ecrecover : answers ecrecover.
Proof.
  intros input Hi. exists 3000%Z. split; [done|]. split; [lia|]. intros _. cbn. unfold ecrecover_Run.
  set (arg := RightPadBytes input 128). assert (128 <= length arg) as Ha.
  { subst arg. unfold RightPadBytes. destruct (Z.leb_spec 128 (Z.of_nat (length input))); [lia|]. rewrite length_app, length_replicate. lia. }
  destruct (lookup_lt_is_Some_2 arg 63 ltac:(lia)) as [b ->]. case_match; [by eexists|].
  unfold Ecrecover, SigToPub. rewrite lookup_app_r, length_take, length_drop by (rewrite length_take, length_drop; lia).
  replace (64 - min 64 (length arg - 64)) with 0 by lia. cbn.
  destruct (RecoverCompact _ _) as [pub|] eqn:Er; cbn; [|by eexists].
  apply RecoverCompact_length in Er. rewrite Er. by eexists.
Qed.

Lemma answers_words perWord base f : (forall input, exists r, f input = Returns r) -> answers (mkPrecompiled (fun input => Returns (wordGas perWord base input)) f).
Proof. intros Hf input _. eexists. split; [done|]. split; [apply u64_bounds|]. intros _. apply Hf. Qed.

Lemma Uint64_pos x : (0 <= x)%Z -> Big.Uint64 x <> 0%Z -> (1 <= x)%Z.
Proof. intros Hx Hne. destruct (decide (x = 0)%Z) as [->|]; [by destruct Hne|lia]. Qed.

(** The lengths that can be paid for with less than 2^62 gas. *)
Lemma modexp_lengths B X M adj : (0 <= B)%Z -> (0 <= M)%Z -> (0 <= adj)%Z -> (8 * (X - 32) <= adj)%Z -> (1 <= M \/ 1 <= B)%Z ->
  let gas := (multComplexity (Math.BigMax M B) * Math.BigMax adj 1 / 20)%Z in
  ((if (64 <? Big.BitLen gas)%Z then Math.MaxUint64 else Big.Uint64 gas) < 2 ^ 62)%Z -> (X < 3 * 2 ^ 62 /\ M < 2 ^ 62)%Z.
Proof.
  intros HB HM Hadj0 Hadj Hpos gas Hg.
  assert (1 <= Math.BigMax M B /\ M <= Math.BigMax M B)%Z as [Hmx Hmx'] by (unfold Math.BigMax; destruct (Z.ltb_spec M B); lia).
  assert (1 <= Math.BigMax adj 1 /\ adj <= Math.BigMax adj 1)%Z as [Ha1 Ha2] by (unfold Math.BigMax; destruct (Z.ltb_spec adj 1); lia).
  destruct (multComplexity_ge _ Hmx) as [Hc1 Hc2]. subst gas.
  set (mc := multComplexity (Math.BigMax M B)) in *. set (a := Math.BigMax adj 1) in *.
  assert (0 <= mc * a / 20)%Z as Hgas0 by (apply Z.div_pos; nia).
  destruct (64 <? Big.BitLen (mc * a / 20))%Z eqn:Eg; [unfold Math.MaxUint64 in Hg; lia|].
  apply BitLen_64 in Eg; [|done]. rewrite Uint64_small in Hg by lia.
  assert (mc * a < 20 * 2 ^ 62)%Z as Hprod
    by (pose proof (Z.div_mod (mc * a) 20 ltac:(lia)); pose proof (Z.mod_pos_bound (mc * a) 20 ltac:(lia)); lia).
  split; [nia|]. destruct (decide (1024 < Math.BigMax M B)%Z); [specialize (Hc2 ltac:(lia)); nia|lia].
Qed.

(** The head of the exponent. *)
Lemma modexp_head body B X : (Z.of_nat (length body) < 2 ^ 62)%Z -> (0 <= B)%Z -> (0 <= X)%Z ->
  exists h, (if (Z.of_nat (length body) <=? B)%Z then Returns 0%Z
    else d ← (if (32 <? X)%Z then getData body (Big.Uint64 B) 32 else getData body (Big.Uint64 B) (Big.Uint64 X)); Returns (Big.SetBytes d)) = Returns h.
Proof.
  intros Hbody HB HX. destruct (Z.leb_spec (Z.of_nat (length body)) B); [by eexists|]. rewrite (Uint64_small B) by lia.
  destruct (Z.ltb_spec 32 X); [|rewrite Uint64_small by lia].
  - destruct (getData_small body B 32) as [d ->]; [lia..|]. by eexists.
  - destruct (getData_small body B X) as [d ->]; [lia..|]. by eexists.
Qed.

(** The operands, read at 64-bit offsets. *)
Lemma modexp_operands body B X M : (Z.of_nat (length body) < 2 ^ 62)%Z -> (0 <= B < 2 ^ 64)%Z -> (0 <= X < 3 * 2 ^ 62)%Z -> (0 <= M < 2 ^ 62)%Z ->
  exists b e m, getData body 0 B = Returns b /\ getData body B X = Returns e /\ getData body (u64 (B + X)) M = Returns m.
Proof.
  intros Hbody HB HX HM. pose proof (u64_bounds (B + X)) as Hs.
  destruct (getData_ok body 0 B) as [d1 E1]; [lia..|]. destruct (getData_ok body B X) as [d2 E2]; [lia..|].
  destruct (getData_ok body (u64 (B + X)) M) as [d3 E3]; [lia..|]. by exists d1, d2, d3.
Qed.

Lemma answers_modexp : answers bigModExp.
Proof.
  intros input Hi. cbn. unfold bigModExp_RequiredGas, bigModExp_Run.
  destruct (getData_small input 0 32) as [bl ->]; [lia..|]. rewrite !returns_bind.
  destruct (getData_small input 32 32) as [el ->]; [lia..|]. rewrite !returns_bind.
  destruct (getData_small input 64 32) as [ml ->]; [lia..|]. rewrite !returns_bind.
  pose proof (be_value_nonneg bl) as HB. pose proof (be_value_nonneg el) as HX. pose proof (be_value_nonneg ml) as HM.
  fold (Big.SetBytes bl) in HB. fold (Big.SetBytes el) in HX. fold (Big.SetBytes ml) in HM.
  generalize dependent (Big.SetBytes bl). intros B HB. generalize dependent (Big.SetBytes el). intros X HX.
  generalize dependent (Big.SetBytes ml). intros M HM. set (body := modExpBody input).
  assert (Z.of_nat (length body) < 2 ^ 62)%Z as Hbody.
  { subst body. unfold modExpBody. case_match; [rewrite length_drop|cbn]; lia. }
  destruct (modexp_head body B X Hbody HB HX) as [h ->]. rewrite returns_bind. set (msb := if (0 <? Big.BitLen h)%Z then _ else _).
  assert (0 <= msb)%Z as Hmsb by (subst msb; destruct (Z.ltb_spec 0 (Big.BitLen h)); lia).
  set (adj := ((if (32 <? X)%Z then 8 * (X - 32) else 0) + msb)%Z).
  assert (0 <= adj /\ 8 * (X - 32) <= adj)%Z as [Hadj0 Hadj] by (subst adj; destruct (Z.ltb_spec 32 X); lia).
  eexists. split; [done|]. split; [case_match; [done|apply u64_bounds]|]. intros Hg.
  destruct (_ && _) eqn:Ez; [by eexists|].
  destruct (modexp_lengths B X M adj HB HM Hadj0 Hadj) as [HX' HM']; [|exact Hg|].
  { apply andb_false_iff in Ez as [Ez%Z.eqb_neq|Ez%Z.eqb_neq]; apply Uint64_pos in Ez; auto. }
  rewrite (Uint64_small X), (Uint64_small M) by lia.
  destruct (modexp_operands body (Big.Uint64 B) X M) as (b & e & m & -> & E2 & E3); [done|apply u64_bounds|lia..|].
  rewrite returns_bind, E2, returns_bind, E3, returns_bind. destruct (Big.BitLen _ =? 0)%Z; by eexists.
Qed.

Lemma answers_add : answers bn256Add.
Proof.
  intros input Hi. exists 500%Z. split; [done|]. split; [lia|]. intros _. cbn.
  destruct (getData_small input 0 64) as [a ->]; [lia..|]. rewrite returns_bind.
  destruct (getData_small input 64 64) as [b ->]; [lia..|]. rewrite returns_bind.
  destruct (newCurvePoint a); [destruct (newCurvePoint b)|]; by eexists.
Qed.

Lemma answers_mul : answers bn256ScalarMul.
Proof.
  intros input Hi. exists 40000%Z. split; [done|]. split; [lia|]. intros _. cbn.
  destruct (getData_small input 0 64) as [a ->]; [lia..|]. rewrite returns_bind.
  destruct (getData_small input 64 32) as [b ->]; [lia..|]. rewrite returns_bind.
  destruct (newCurvePoint a); by eexists.
Qed.

Lemma answers_pairing : answers bn256Pairing.
Proof.
  intros input Hi. eexists. split; [done|]. split; [apply u64_bounds|]. intros _. cbn -[Nat.div Nat.modulo].
  destruct (negb _); [by eexists|]. destruct (pairingPoints _ _) as [[cs ts]|e]; by eexists.
Qed.

Lemma answers_all addr p : PrecompiledContracts addr = Some p -> answers p.
Proof.
  unfold PrecompiledContracts. intros H. repeat case_match; try done; injection H as <-.
  all: (apply answers_ecrecover || apply answers_modexp || apply answers_add || apply answers_mul || apply answers_pairing ||
        (apply answers_words; by eexists)).
Qed.

Lemma RunPrecompiledContract_ok addr p input gas :
  PrecompiledContracts addr = Some p -> (Z.of_nat (length input) < 2 ^ 62)%Z -> (0 <= gas < 2 ^ 62)%Z ->
  exists r, RunPrecompiledContract p input gas = Returns r /\ (0 <= r.1.2 <= gas)%Z.
Proof.
  intros Hp Hi Hg. destruct (answers_all _ _ Hp input Hi) as (g & E1 & Hg0 & Hrun). unfold RunPrecompiledContract.
  rewrite E1, returns_bind. destruct (Z.ltb_spec gas g); [eexists; split; [done|cbn; lia]|].
  destruct Hrun as [r Er]; [lia|]. rewrite Er, returns_bind. eexists. split; [done|]. destruct r; cbn; rewrite u64_small; lia.
Qed.

End Native.
