(* ===== verification/EvmSafe.v ===== *)
(** * EvmSafe: the machine is safe, terminates, and conserves value

    The turn of the interpreter, the loop, and the calls on top of it, by induction on the gas
    and on the call depth.  [call_ok] collects what a call guarantees. *)

From S2P Require Import Prelude Crypto EvmMath EvmOpcode EvmState EvmMachine EvmGas EvmInstr EvmAnalysis EvmInv EvmOps EvmCharge EvmJump EvmPrecompile Evm EvmStep EvmTable.
Import Params.

(** ** The interpreter *)

Section Interpreter.
Context {D : StateDB} {V : StateDBView D} `{K : Keccak} {L : StateDBLaws D V} `{C : Crypto} `{E : Curves} {EL : CurvesLaws E} (T : Z) (ro : bool) (c : Contract) (ctx : Context) (k : Calls).
Context (HT : (0 <= T < 2 ^ 256)%Z) (Hctx : ctx_ok ctx) (Hk : calls_ok T ro k).

Lemma ended_refl m : mok T c m -> ended T ro m m.
Proof. intros Hm. pose proof (mok_gas _ _ _ Hm). split_and!; [apply Hm|apply grel_refl|lia..]. Qed.

Lemma mwp_enforce op o m (Q : unit -> Machine -> Prop) (R : EvmErr -> Machine -> Prop) :
  newInstructionSet ctx op = Some o -> mok T c m -> validateStack o (m_stack m) = None -> R ErrWriteProtection m ->
  ((ro = true -> writes o = false /\ (op = CALL -> default 0%Z (m_stack m !! 2) = 0%Z)) -> Q tt m) ->
  mwp (enforceRestrictions ro op o) Q R m.
Proof.
  intros Ho Hm Hv HR HQ. unfold enforceRestrictions. destruct ro; [|by apply wp_ret, HQ].
  destruct (writes o) eqn:Ew; [by apply wp_fail|]. case_bool_decide as Ecall; [|apply wp_ret, HQ; by intros _].
  subst op. injection Ho as <-. cbn in Hv. unfold makeStackFunc in Hv. case_match eqn:E1; [done|]. apply Nat.ltb_ge in E1.
  destruct (lookup_lt_is_Some_2 (m_stack m) 2 ltac:(lia)) as [v Hv2]. apply wp_bind. eapply wp_Back; [exact Hv2|].
  destruct (Z.ltb_spec 0 (Big.BitLen v)) as [Hb|Hb]; [by apply wp_fail|]. apply wp_ret, HQ. intros _. split; [done|]. intros _.
  rewrite Hv2. cbn. pose proof (Forall_lookup_1 _ _ _ _ (mok_words _ _ _ Hm) Hv2) as [Hv0 _]. unfold Big.BitLen in Hb.
  destruct (Z.eqb_spec v 0); [done|]. pose proof (Z.log2_nonneg (Z.abs v)). lia.
Qed.

(** One turn. *)
Lemma step_ok m : cok c -> mok T c m -> mwp (step ctx k ro c) (stepped T ro c m) (fun _ => ended T ro m) m.
Proof.
  intros Hc Hm. unfold step. apply wp_bind, wp_gets. pose proof (ended_refl m Hm) as Hend.
  destruct (OpCode.of_byte _) as [op|] eqn:Eop; [|by apply wp_fail].
  destruct (newInstructionSet ctx op) as [o|] eqn:Eo; [|by apply wp_fail].
  apply wp_bind, wp_gets. destruct (validateStack o (m_stack m)) eqn:Ev; [by apply wp_fail|].
  apply wp_bind, (mwp_enforce op); [done..|]. intros Hro.
  by eapply (table_entry T ro c ctx k HT Hctx Hc Hk op).
Qed.

(** The loop ends, because every turn that goes on costs gas. *)
Lemma loop_ok fuel m : cok c -> mok T c m -> (m_gas m < Z.of_nat fuel)%Z ->
  mwp (loop ctx fuel k ro c) (fun _ => ended T ro m) (fun _ _ => False) m.
Proof.
  intros Hc. revert m. induction fuel as [|fuel IH]; intros m Hm Hf.
  { pose proof (mok_gas _ _ _ Hm). lia. }
  cbn [loop]. apply wp_bind, wp_try. eapply wp_mono; [by apply step_ok| |].
  - intros [r|] m1 Hs; [by apply wp_ret|]. destruct Hs as (Hm1 & Hr & Hlt).
    eapply wp_mono; [apply IH; [done|lia]| |done]. intros r m2 (H1 & H2 & H3). split_and!; [done|by eapply grel_trans|lia..].
  - intros e m1 He. by apply wp_ret.
Qed.

Lemma cok_input c' input : cok c' -> (Z.of_nat (length input) < 2 ^ 62)%Z -> cok (with_input c' input).
Proof. intros [] ?. by split. Qed.

End Interpreter.

Section Run.
Context {D : StateDB} {V : StateDBView D} `{K : Keccak} {L : StateDBLaws D V} `{C : Crypto} `{E : Curves} {EL : CurvesLaws E} (T : Z) (ro : bool) (ctx : Context) (k : Calls).
Context (HT : (0 <= T < 2 ^ 256)%Z) (Hctx : ctx_ok ctx) (Hk : calls_ok T ro k).

Lemma Run_ok c gas input g : cok c -> gok T g -> (Z.of_nat (length input) < 2 ^ 62)%Z -> (0 <= gas < 2 ^ 62)%Z ->
  gwp (Evm.Run ctx k ro c gas input) (call_post T ro g gas) (fun _ _ => False) g.
Proof.
  intros Hc Hg Hi Hgas. unfold wp, Evm.Run. cbn zeta.
  assert (gok T (with_returnData g [])) as Hg1 by (by eapply gok_other; [..|exact Hg]).
  assert (grel ro g (with_returnData g [])) as Hr1 by (by apply grel_other).
  destruct (length (c_Code c) =? 0); [split_and!; [done..|cbn; lia|cbn; lia]|].
  set (m := mkMachine 0 [] [] 0 gas None (with_returnData g [])).
  assert (mok T (with_input c input) m) as Hm.
  { split; cbn; [constructor|lia| |done|done|done|lia]. exists 0%Z. split; [lia|done]. }
  pose proof (loop_ok T ro (with_input c input) ctx k HT Hctx Hk (S (Z.to_nat gas)) m (cok_input c input Hc Hi) Hm ltac:(cbn; lia)) as H.
  unfold wp in H. destruct (loop _ _ _ _ _ m) as [[[ret err]|e| |] m'] eqn:El; try done.
  destruct H as (H1 & H2 & H3). split_and!; [done|by eapply grel_trans|cbn in *; lia..].
Qed.

Lemma run_ok c gas input g : cok c -> gok T g -> (Z.of_nat (length input) < 2 ^ 62)%Z -> (0 <= gas < 2 ^ 62)%Z ->
  gwp (run ctx k ro c gas input) (call_post T ro g gas) (fun _ _ => False) g.
Proof.
  intros Hc Hg Hi Hgas. unfold run. destruct (c_CodeAddr c ≫= PrecompiledContracts) as [p|] eqn:Ep; [|by apply Run_ok].
  apply bind_Some in Ep as (a & _ & Ep). destruct (RunPrecompiledContract_ok _ _ input gas Ep Hi Hgas) as (r & Er & Hr).
  eapply wp_lift_go; [exact Er|]. split_and!; [done|apply grel_refl|lia..].
Qed.

End Run.

(** ** Snapshots and transfers *)

Section Pieces.
Context {D : StateDB} {V : StateDBView D} `{K : Keccak} {L : StateDBLaws D V} `{C : Crypto} `{E : Curves} (T : Z) (ro : bool).

(** What a call guarantees: the invariant, the relation to the state before, no more gas than
    it was given, and on an error the state it found. *)
Definition call_ok (g : Global) (gas : Z) (r : call_res) (g' : Global) : Prop :=
  call_post T ro g gas r g' /\ (is_Some r.2 -> O g' = O g).

(** [g2] is [g] with a snapshot taken. *)
Definition snapped (g g2 : Global) : Prop :=
  O g2 = O g /\ snaps (g_db g2) = (next (g_db g), O g) :: snaps (g_db g) /\ next (g_db g2) = S (next (g_db g)).

Lemma snapped_grel g g2 : only_db g g2 -> snapped g g2 -> grel ro g g2.
Proof.
  intros Ho (E1 & E2 & E3). split; [|lia|rewrite E1; intros _; apply same_state_refl|rewrite Ho; done].
  exists [(next (g_db g), O g)]. split; [done|]. by constructor.
Qed.

Lemma gwp_snapshot Q R g : gok T g ->
  (forall g2, gok T g2 -> snapped g g2 -> grel ro g g2 -> only_db g g2 -> Q (next (g_db g)) g2) -> gwp (db Snapshot) Q R g.
Proof.
  intros Hg HQ. destruct (law_Snapshot _ (gok_db _ _ Hg)) as (d & E1 & H1 & H2 & H3 & H4). unfold wp, db. rewrite E1.
  assert (snapped g (with_db g d)) as Hs by done. apply HQ; [|done|by apply snapped_grel|done].
  split; [done|unfold O; cbn; rewrite H2; apply Hg|unfold O; cbn; rewrite H2; apply Hg|apply Hg..].
Qed.

(** Going back to a snapshot. *)
Lemma gwp_revert Q R g g2 g' : gok T g -> snapped g g2 -> grel ro g2 g' -> gok T g' -> (gclash g -> gclash g') ->
  (forall g3, gok T g3 -> grel ro g g3 -> O g3 = O g -> only_db g' g3 -> Q tt g3) -> gwp (db (RevertToSnapshot (next (g_db g)))) Q R g'.
Proof.
  intros Hg (E1 & E2 & E3) [(later & Es & Hl) Hn _ _] Hg' Hcl HQ.
  destruct (law_RevertToSnapshot (g_db g') (next (g_db g)) (O g) later (snaps (g_db g))) as (d & Ed & H1 & H2 & H3 & H4).
  - apply Hg'.
  - by rewrite Es, E2.
  - intros ([i o] & Ei & Hin)%list_elem_of_fmap. rewrite Forall_forall in Hl. specialize (Hl _ Hin). cbn in Hl, Ei. lia.
  - unfold wp, db. rewrite Ed. apply HQ; [..|done].
    + split; [done|unfold O; cbn; rewrite H2; apply Hg|unfold O; cbn; rewrite H2; apply Hg|apply Hg'..].
    + split; unfold O; cbn; rewrite ?H2, ?H3, ?H4; [by exists []|lia|intros _; apply same_state_refl|done].
    + done.
Qed.

Lemma gwp_settle g g2 g' gas r : gok T g -> snapped g g2 -> grel ro g g2 -> grel ro g2 g' -> gok T g' -> (0 <= r.1.2 <= gas)%Z ->
  gwp (settle (next (g_db g)) r) (call_ok g gas) (fun _ _ => False) g'.
Proof.
  intros Hg Hs Hr1 Hr2 Hg' Hgas. destruct r as [[ret left] err]. cbn in Hgas. unfold settle.
  assert (grel ro g g') as Hr by (by eapply grel_trans).
  destruct err as [e|]; [|apply wp_ret; split; [split_and!; [done..|cbn; lia|cbn; lia]|by intros []]].
  apply wp_bind. eapply gwp_revert; [done..|apply Hr|]. intros g3 Hg3 Hr3 HO3 _.
  apply wp_ret. split; [|done]. split_and!; [done..|cbn; case_match; lia|cbn; case_match; lia].
Qed.

Lemma gwp_CanTransfer addr amount Q R g : length addr = 20 -> gok T g ->
  (forall g', gok T g' -> grel ro g g' -> O g' = O g -> only_db g g' -> Q (amount <=? balance (O g) addr)%Z g') ->
  gwp (CanTransfer addr amount) Q R g.
Proof.
  intros Ha Hg HQ. unfold CanTransfer. apply wp_bind. eapply (gwp_get T _ _ ro); [law law_GetBalance|done|].
  intros g' H1 H2 H3 H4. by apply wp_ret, HQ.
Qed.

(** Taking an amount from one account and adding it to another. *)
Lemma move_cap o a b v : capped T (balance o) -> (0 <= v <= balance o a)%Z ->
  let o1 := on_acct a (set_balance (balance o a - v)) o in
  capped T (balance (on_acct b (set_balance (balance o1 b + v)) o1)).
Proof.
  intros Hcap Hv. cbn zeta. destruct (decide (a = b)) as [->|Hne].
  - eapply capped_ext; [|exact Hcap]. intros x. rewrite balance_on_acct, balance_on_acct.
    destruct (decide (x = b)) as [->|]; [rewrite !fupd_eq; lia|]. by rewrite fupd_ne, balance_on_acct, fupd_ne.
  - eapply capped_ext; [|by apply (capped_move T (balance o) a b v)]. intros x.
    rewrite balance_on_acct, balance_on_acct, (fupd_ne _ a b) by done.
    destruct (decide (x = b)) as [->|]; [by rewrite !fupd_eq|]. rewrite !(fupd_ne _ b x) by done. apply balance_on_acct.
Qed.

Lemma move_same o a b : let o1 := on_acct a (set_balance (balance o a - 0)) o in
  same_state o (on_acct b (set_balance (balance o1 b + 0)) o1).
Proof. cbn zeta. rewrite Z.sub_0_r, Z.add_0_r. eapply same_state_trans; [apply same_touch|apply same_touch]. Qed.

Lemma wf_set_balance o a v : wf_obs o -> wf_obs (on_acct a (set_balance v) o).
Proof. intros H. apply wf_on_acct; [done|]. by intros x (W1 & W2 & W3). Qed.

(** Noting a transfer. *)
Lemma addTransfer_ok a recipient amount v v' : Forall (fun i => ti_From i = a /\ length (ti_To i) = 20 /\ (0 <= ti_Value i < 2 ^ 64)%Z) v ->
  addTransfer recipient amount v = Some v' -> v' <> [] /\ Forall (fun i => ti_From i = a /\ length (ti_To i) = 20 /\ (0 <= ti_Value i < 2 ^ 64)%Z) v'.
Proof.
  intros Hv. revert v'. induction Hv as [|w v (H1 & H2 & H3) Hv IH]; intros v'; cbn; [done|]. case_bool_decide.
  - intros [= <-]. split; [done|]. constructor; [|done]. cbn. split_and!; [done|done|apply Z.mod_pos_bound; lia..].
  - destruct (addTransfer recipient amount v) as [v1|]; [|done]. intros [= <-]. destruct (IH v1) as [_ IH']; [done|]. split; [done|by constructor].
Qed.

Lemma gok_transfer sender recipient amount g : length sender = 20 -> length recipient = 20 -> gok T g -> gok T (recordTransfer sender recipient (Big.Uint64 amount) g).
Proof.
  intros Hs Hr [H1 H2 H3 H4 [H5 H6]]. split; try done. split; [|done]. intros a v. unfold recordTransfer. cbn [g_Transfers].
  intros [[<- <-]|[_ Hv]]%lookup_insert_Some; [|by apply H5]. split; [done|].
  assert (Forall (fun i => ti_From i = sender /\ length (ti_To i) = 20 /\ (0 <= ti_Value i < 2 ^ 64)%Z) (default [] (g_Transfers g !! sender))) as Hv.
  { destruct (g_Transfers g !! sender) as [v|] eqn:Ev; [by apply H5|constructor]. }
  destruct (addTransfer _ _ _) as [v'|] eqn:Ev; [by eapply addTransfer_ok|]. split; [by destruct (default [] _)|].
  apply Forall_app. split; [done|]. constructor; [|done]. cbn. split_and!; [done|done|apply Z.mod_pos_bound; lia..].
Qed.

Lemma gok_created caller addr nonce value g : length caller = 20 -> length addr = 20 -> gok T g ->
  gok T (mkGlobal (g_db g) (g_returnData g) (g_callGasTemp g) (g_Transfers g) (g_Created g ++ [mkCreated caller addr nonce value]) (g_jumpdests g) (g_clash g)).
Proof. intros Hc Ha [H1 H2 H3 H4 [H5 H6]]. split; try done. split; [done|]. apply Forall_app. split; [done|]. by constructor. Qed.

Lemma gwp_Transfer sender recipient amount Q R g :
  length sender = 20 -> length recipient = 20 -> gok T g -> (0 <= amount <= balance (O g) sender)%Z -> (ro = true -> amount = 0%Z) ->
  (forall g', gok T g' -> grel ro g g' -> Q tt g') -> gwp (Transfer sender recipient amount) Q R g.
Proof.
  intros Hs Hrec Hg Ha Hro HQ. unfold Transfer. apply wp_bind. eapply gwp_db; [law law_SubBalance|apply Hg|].
  intros d1 K1 E1 N1 X1. apply wp_bind. eapply gwp_db; [law law_AddBalance|done|]. intros d2 K2 E2 N2 X2.
  change (O (with_db g d1)) with (obs d1) in E2. rewrite E1 in E2.
  assert (gok T (with_db (with_db g d1) d2)) as Hg2.
  { split; [done| | |apply Hg..]; unfold O; cbn; rewrite E2; [|apply move_cap; [apply Hg|done]].
    do 2 apply wf_set_balance. apply Hg. }
  assert (grel ro g (with_db (with_db g d1) d2)) as Hr2.
  { split; unfold O; cbn in *; rewrite ?N2, ?N1, ?X2, ?X1, ?E2; [by exists []|done| |done]. intros Hr. rewrite (Hro Hr). apply move_same. }
  apply wp_bind. eapply (gwp_get T _ _ ro); [law law_IsContractAddr|done|]. intros g3 Hg3 Hr3 _ _. cbn beta.
  assert (grel ro g g3) as Hr by (by eapply grel_trans). destruct (_ && _).
  - apply wp_modify, HQ; [by apply gok_transfer|]. eapply grel_trans; [exact Hr|]. by apply grel_other.
  - apply wp_ret. by apply HQ.
Qed.

(** Callers. *)
Definition caller_ok (caller : Caller) : Prop :=
  match caller with CallerAccount a => length a = 20 | CallerContract c => cok c end.

Lemma caller_address_length caller : caller_ok caller -> length (caller_address caller) = 20.
Proof. destruct caller; [done|]. intros []. done. Qed.

Lemma gwp_NewContract caller object value Q R g : gok T g ->
  (forall g', gok T g' -> grel ro g g' -> O g' = O g ->
    Q (mkContract (caller_address caller) object [] Crypto.ZeroHash None [] value) g') ->
  gwp (NewContract caller object value) Q R g.
Proof.
  intros Hg HQ. unfold NewContract. destruct caller as [a|p].
  - apply wp_bind, wp_modify, wp_ret, HQ; [|by apply grel_other|done]. split; [apply Hg..| |apply Hg]. by intros h x y.
  - apply wp_ret, HQ; [done|apply grel_refl|done].
Qed.

Lemma gwp_SetCallCode c addr Q R g : length addr = 20 -> gok T g ->
  (forall g', gok T g' -> grel ro g g' -> Q (SetCode_ c addr (codeHash (O g) addr) (code (O g) addr)) g') ->
  gwp (SetCallCode c addr) Q R g.
Proof.
  intros Ha Hg HQ. unfold SetCallCode. apply wp_bind. eapply (gwp_get T _ _ ro); [law law_GetCodeHash|done|].
  intros g1 Hg1 Hr1 HO1 _. apply wp_bind. eapply (gwp_get T _ _ ro); [law law_GetCode|done|].
  intros g2 Hg2 Hr2 HO2 _. apply wp_ret. rewrite HO1. apply HQ; [done|by eapply grel_trans].
Qed.

End Pieces.

#[export] Hint Resolve caller_address_length : sized.

(** ** The methods *)

Section Methods.
Context {D : StateDB} {V : StateDBView D} `{K : Keccak} {L : StateDBLaws D V} `{C : Crypto} `{E : Curves} {EL : CurvesLaws E} `{R : Rlp} (T : Z) (ctx : Context).
Context (HT : (0 <= T < 2 ^ 256)%Z) (Hctx : ctx_ok ctx).

(** A function that runs contracts well. *)
Definition runner_ok (runf : runner) : Prop :=
  forall ro c gas input g, cok c -> gok T g -> (Z.of_nat (length input) < 2 ^ 62)%Z -> (0 <= gas < 2 ^ 62)%Z ->
  gwp (runf ro c gas input) (call_post T ro g gas) (fun _ _ => False) g.

Context (runf : runner) (depth : Z) (ro : bool) (Hrun : (depth <= 1024)%Z -> runner_ok runf).

(** A call that ends before it has begun. *)
Lemma call_ok_early g g' gas err : gok T g' -> grel ro g g' -> O g' = O g -> (0 <= gas)%Z -> call_ok T ro g gas ([], gas, err) g'.
Proof. intros Hg Hr HO Hgas. split; [|done]. split_and!; [done..|cbn; lia|cbn; lia]. Qed.

(** From the run to the end. *)
Lemma gwp_run_settle ro' c gas input g g2 g3 :
  gok T g -> snapped g g2 -> grel ro g g2 -> grel ro g2 g3 -> gok T g3 -> cok c -> (depth <= 1024)%Z ->
  (ro = true -> ro' = true) -> (Z.of_nat (length input) < 2 ^ 62)%Z -> (0 <= gas < 2 ^ 62)%Z ->
  gwp (r ← runf ro' c gas input; settle (next (g_db g)) r) (call_ok T ro g gas) (fun _ _ => False) g3.
Proof.
  intros Hg Hs Hr1 Hr2 Hg3 Hc Hd Hro Hi Hgas. apply wp_bind. eapply wp_mono; [by apply Hrun| |done].
  intros r g4 (Hg4 & Hr4 & Hle). eapply gwp_settle; [done..| |done|done]. eapply grel_trans; [exact Hr2|].
  destruct Hr4 as [A B S1 F]. split; [done..| |done]. intros Hr. by apply S1, Hro.
Qed.

Lemma cok_called caller addr addr' value g :
  caller_ok caller -> length addr = 20 -> word value -> gok T g ->
  cok (SetCode_ (mkContract (caller_address caller) addr [] Crypto.ZeroHash None [] value) addr' (codeHash (O g) addr') (code (O g) addr')).
Proof.
  intros Hc Ha Hv Hg. split; cbn; [done|by apply caller_address_length|done|by apply (code_length T)|lia].
Qed.

Lemma Call_ok caller addr input gas value g :
  caller_ok caller -> gok T g -> word value -> length addr = 20 -> (Z.of_nat (length input) < 2 ^ 62)%Z -> (0 <= gas < 2 ^ 62)%Z ->
  (ro = true -> value = 0%Z) -> gwp (Call ctx runf depth ro caller addr input gas value) (call_ok T ro g gas) (fun _ _ => False) g.
Proof.
  intros Hca Hg Hv Ha Hi Hgas Hro. unfold Call.
  destruct (_ && _); [apply wp_ret, call_ok_early; [done|apply grel_refl|done|lia]|].
  destruct (Z.ltb_spec CallCreateDepth depth); [apply wp_ret, call_ok_early; [done|apply grel_refl|done|lia]|].
  apply wp_bind, (gwp_CanTransfer T ro); [by apply caller_address_length|done|]. intros g1 Hg1 Hr1 HO1 Hon1.
  destruct (Z.leb_spec value (balance (O g) (caller_address caller))) as [Hbal|]; cbn [negb];
    [|apply wp_ret, call_ok_early; [done..|lia]].
  apply wp_bind, (gwp_snapshot T ro); [done|]. intros g2 Hg2 Hs2 Hr2 Hon2.
  apply wp_bind. eapply (gwp_get T _ _ ro); [law law_Exist|done|]. intros g3 Hg3 Hr3 HO3 _. cbn beta.
  assert (grel ro g1 g3) as Hr13 by (by eapply grel_trans). assert (O g3 = O g) as EO3 by (destruct Hs2 as (E2 & _); congruence).
  destruct (_ && _) eqn:Enon.
  { apply wp_ret, call_ok_early; [done|by eapply grel_trans|done|lia]. }
  apply wp_bind. eapply (wp_mono _ _ (fun _ g4 => gok T g4 /\ grel ro g3 g4 /\ forall a, balance (O g4) a = balance (O g) a) _ (fun _ _ => False)); [| |done].
  { destruct (exist (O g2) addr) eqn:Eex; cbn [negb]; [apply wp_ret; split_and!; [done|apply grel_refl|by rewrite EO3]|].
    unfold exist in Eex. rewrite <- HO3 in Eex. case_match eqn:Eacc; [done|].
    eapply (gwp_upd T _ _ _ ro); [law law_CreateAccount|done| | |by intros _; apply same_create|].
    - apply wf_set_acct; [apply Hg3|]. by destruct (wf_newAcct) as (W1 & W2 & W3).
    - eapply capped_ext; [|apply Hg3]. intros a. rewrite balance_set_acct. destruct (decide (a = addr)) as [->|]; [by rewrite fupd_eq|by rewrite fupd_ne].
    - intros g4 Hg4 Hr4 HO4 _. split_and!; [done..|]. intros a. rewrite HO4, balance_set_acct, EO3.
      destruct (decide (a = addr)) as [->|]; [by rewrite fupd_eq|by rewrite fupd_ne]. }
  intros _ g4 (Hg4 & Hr4 & Hb4). apply wp_bind, (gwp_Transfer T ro); [by apply caller_address_length|done|done|destruct Hv; rewrite Hb4; lia|done|]. intros g5 Hg5 Hr5.
  apply wp_bind, (gwp_NewContract T ro); [done|]. intros g6 Hg6 Hr6 HO6.
  apply wp_bind, (gwp_SetCallCode T ro); [done|done|]. intros g7 Hg7 Hr7.
  assert (grel ro g2 g7) as Hr27 by (do 4 (eapply grel_trans; [eassumption|]); done).
  eapply wp_mono; [eapply (gwp_run_settle ro _ gas input g1 g2 g7); [done..|by apply cok_called|done|done|done|done]| |done].
  intros r g8 [(P1 & P2 & P3) P4]. split; [split_and!; [done|by eapply grel_trans|lia..]|]. intros He. rewrite <- HO1. by apply P4.
Qed.

(** The state relation of a call made after a reading step. *)
Lemma call_ok_after g g1 gas r g' : grel ro g g1 -> O g1 = O g -> call_ok T ro g1 gas r g' -> call_ok T ro g gas r g'.
Proof.
  intros Hr HO [(P1 & P2 & P3) P4]. split; [split_and!; [done|by eapply grel_trans|lia..]|]. intros He. rewrite <- HO. by apply P4.
Qed.

Lemma CallCode_ok caller addr input gas value g :
  caller_ok caller -> gok T g -> word value -> length addr = 20 -> (Z.of_nat (length input) < 2 ^ 62)%Z -> (0 <= gas < 2 ^ 62)%Z ->
  gwp (CallCode ctx runf depth ro caller addr input gas value) (call_ok T ro g gas) (fun _ _ => False) g.
Proof.
  intros Hca Hg Hv Ha Hi Hgas. unfold CallCode.
  destruct (_ && _); [apply wp_ret, call_ok_early; [done|apply grel_refl|done|lia]|].
  destruct (Z.ltb_spec CallCreateDepth depth); [apply wp_ret, call_ok_early; [done|apply grel_refl|done|lia]|].
  apply wp_bind, (gwp_CanTransfer T ro); [by apply caller_address_length|done|]. intros g1 Hg1 Hr1 HO1 Hon1.
  destruct (Z.leb_spec value (balance (O g) (caller_address caller))) as [Hbal|]; cbn [negb];
    [|apply wp_ret, call_ok_early; [done..|lia]].
  apply wp_bind, (gwp_snapshot T ro); [done|]. intros g2 Hg2 Hs2 Hr2 Hon2.
  apply wp_bind, (gwp_NewContract T ro); [done|]. intros g6 Hg6 Hr6 HO6.
  apply wp_bind, (gwp_SetCallCode T ro); [done|done|]. intros g7 Hg7 Hr7.
  eapply wp_mono; [eapply (gwp_run_settle ro _ gas input g1 g2 g7); [done..|by eapply grel_trans|done| |done|done|done|done]| |done].
  - apply cok_called; [done|by apply caller_address_length|done|done].
  - intros r g8 P. by eapply call_ok_after.
Qed.

Lemma DelegateCall_ok p addr input gas g :
  cok p -> gok T g -> length addr = 20 -> (Z.of_nat (length input) < 2 ^ 62)%Z -> (0 <= gas < 2 ^ 62)%Z ->
  gwp (DelegateCall ctx runf depth ro (CallerContract p) addr input gas) (call_ok T ro g gas) (fun _ _ => False) g.
Proof.
  intros Hp Hg Ha Hi Hgas. unfold DelegateCall.
  destruct (_ && _); [apply wp_ret, call_ok_early; [done|apply grel_refl|done|lia]|].
  destruct (Z.ltb_spec CallCreateDepth depth); [apply wp_ret, call_ok_early; [done|apply grel_refl|done|lia]|].
  apply wp_bind, (gwp_snapshot T ro); [done|]. intros g2 Hg2 Hs2 Hr2 Hon2.
  apply wp_bind, (gwp_NewContract T ro); [done|]. intros g6 Hg6 Hr6 HO6.
  apply wp_bind, wp_ret. apply wp_bind, (gwp_SetCallCode T ro); [done|done|]. intros g7 Hg7 Hr7.
  eapply (gwp_run_settle ro); [done..|by eapply grel_trans|done| |done|done|done|done].
  destruct Hp. split; cbn; [done..|by apply (code_length T)|lia].
Qed.

Lemma StaticCall_ok caller addr input gas g :
  caller_ok caller -> gok T g -> length addr = 20 -> (Z.of_nat (length input) < 2 ^ 62)%Z -> (0 <= gas < 2 ^ 62)%Z ->
  gwp (StaticCall ctx runf depth caller addr input gas) (call_ok T ro g gas) (fun _ _ => False) g.
Proof.
  intros Hca Hg Ha Hi Hgas. unfold StaticCall.
  destruct (_ && _); [apply wp_ret, call_ok_early; [done|apply grel_refl|done|lia]|].
  destruct (Z.ltb_spec CallCreateDepth depth); [apply wp_ret, call_ok_early; [done|apply grel_refl|done|lia]|].
  apply wp_bind, (gwp_snapshot T ro); [done|]. intros g2 Hg2 Hs2 Hr2 Hon2.
  apply wp_bind, (gwp_NewContract T ro); [done|]. intros g6 Hg6 Hr6 HO6.
  apply wp_bind, (gwp_SetCallCode T ro); [done|done|]. intros g7 Hg7 Hr7.
  apply wp_bind. eapply (gwp_upd T _ _ _ ro); [law law_AddBalance|done|by apply wf_set_balance, Hg7| | |].
  - cbn beta. rewrite Z.add_0_r. eapply capped_ext; [|apply Hg7]. intros a. rewrite balance_on_acct.
    destruct (decide (a = addr)) as [->|]; [by rewrite fupd_eq|by rewrite fupd_ne].
  - intros _. cbn beta. rewrite Z.add_0_r. apply same_touch.
  - intros g8 Hg8 Hr8 _ _. eapply (gwp_run_settle true); [done|exact Hs2|done| |done| |done|done|done|done].
    + do 2 (eapply grel_trans; [eassumption|]). done.
    + apply cok_called; [done..|apply word_0|done].
Qed.

(** The end of a creation. *)
Lemma gwp_storeCode address gas r g g2 g' : ro = false ->
  gok T g -> snapped g g2 -> grel ro g g2 -> grel ro g2 g' -> gok T g' -> (0 <= r.1.2 <= gas)%Z -> (gas < 2 ^ 62)%Z -> length address = 20 ->
  gwp (storeCode address (next (g_db g)) r) (fun r' g3 => create_post T ro g gas r' g3 /\ (is_Some r'.2 -> O g3 = O g)) (fun _ _ => False) g'.
Proof.
  intros Hro Hg Hs Hr1 Hr2 Hg' Hgas Hlim Ha. destruct r as [[ret left] err]. cbn in Hgas. unfold storeCode. cbn zeta.
  set (tooBig := (MaxCodeSize <? Z.of_nat (length ret))%Z).
  assert (grel ro g g') as Hr by (by eapply grel_trans).
  apply wp_bind. eapply (wp_mono _ _ (fun p g3 => gok T g3 /\ grel ro g2 g3 /\ (0 <= p.1 <= gas)%Z) _ (fun _ _ => False)); [| |done].
  { destruct err as [e|]; [by apply wp_ret|]. destruct tooBig eqn:Ebig; [by apply wp_ret|].
    destruct (Z.ltb_spec left (u64 (Z.of_nat (length ret) * CreateDataGas))); [by apply wp_ret|].
    pose proof (u64_bounds (Z.of_nat (length ret) * CreateDataGas)).
    apply wp_bind. eapply (gwp_upd T _ _ _ ro); [law law_SetCode|done| | |by rewrite Hro|].
    - apply wf_on_acct; [apply Hg'|]. intros a (W1 & W2 & W3). split_and!; cbn; [apply keccak256_length| |done].
      subst tooBig. apply Z.ltb_ge in Ebig. unfold MaxCodeSize in Ebig. lia.
    - eapply capped_ext; [|apply Hg']. intros a. by apply balance_keep.
    - intros g3 Hg3 Hr3 _ _. apply wp_ret. split_and!; [done|by eapply grel_trans|cbn; rewrite u64_small; lia..]. }
  intros [left' err'] g3 (Hg3 & Hr3 & Hl). cbn in Hl. apply wp_bind. destruct (tooBig || _) eqn:Eend.
  - apply wp_bind. eapply gwp_revert; [exact Hg|exact Hs|exact Hr3|done|by intros ?; apply Hr3, Hr1|].
    intros g4 Hg4 Hr4 HO4 _. apply wp_ret, wp_ret. split; [|done]. split_and!; [done..|cbn; case_match; lia|cbn; case_match; lia|done].
  - apply orb_false_iff in Eend as [-> Eerr%bool_decide_eq_false]. apply wp_ret, wp_ret.
    split; [split_and!; [done|exact (grel_trans _ _ _ _ Hr1 Hr3)|cbn; lia|cbn; lia|done]|]. by destruct err' as [e|]; [destruct Eerr|intros []].
Qed.

(** A creation that fails leaves the state, but may have taken a nonce of the caller. *)
Definition bumped (caller : bytes) (o o' : Obs) : Prop := o' = o \/ o' = on_acct caller (set_nonce (u64 (nonce o caller + 1))) o.

Definition create_done (caller : bytes) (g : Global) (gas : Z) (r : create_res) (g' : Global) : Prop :=
  create_post T ro g gas r g' /\ (is_Some r.2 -> bumped caller (O g) (O g')).

Lemma create_early caller g g' gas left err : gok T g' -> grel ro g g' -> (0 <= left <= gas)%Z -> bumped caller (O g) (O g') ->
  create_done caller g gas ([], replicate AddressSize x00, left, err) g'.
Proof. intros Hg Hr Hl Hb. split; [|done]. split_and!; [done..|cbn; lia|cbn; lia|]. cbn. unfold AddressSize. lia. Qed.

Lemma create_ok caller code hash gas value address g : ro = false ->
  caller_ok caller -> gok T g -> word value -> (Z.of_nat (length code) < 2 ^ 62)%Z -> (0 <= gas < 2 ^ 62)%Z -> length address = 20 ->
  gwp (create ctx runf depth ro caller code hash gas value address) (create_done (caller_address caller) g gas) (fun _ _ => False) g.
Proof.
  intros Hro Hca Hg Hv Hco Hgas Ha. unfold create.
  destruct (Z.ltb_spec CallCreateDepth depth); [apply wp_ret, create_early; [done|apply grel_refl|lia|by left]|].
  apply wp_bind, (gwp_CanTransfer T ro); [by apply caller_address_length|done|]. intros g1 Hg1 Hr1 HO1 Hon1.
  destruct (Z.leb_spec value (balance (O g) (caller_address caller))) as [Hbal|]; cbn [negb]; [|apply wp_ret, create_early; [done..|lia|by left]].
  apply wp_bind. eapply (gwp_get T _ _ ro); [law law_GetNonce|done|]. intros g2 Hg2 Hr2 HO2 _.
  apply wp_bind. eapply (gwp_upd T _ _ _ ro); [law law_SetNonce|done| | |by rewrite Hro|].
  { apply wf_on_acct; [apply Hg2|]. by intros a (W1 & W2 & W3). }
  { eapply capped_ext; [|apply Hg2]. intros a. by apply balance_keep. }
  intros g3 Hg3 Hr3 HO3 _. apply wp_bind. eapply (gwp_get T _ _ ro); [law law_GetCodeHash|done|]. intros g4 Hg4 Hr4 HO4 _.
  apply wp_bind. eapply (gwp_get T _ _ ro); [law law_GetNonce|done|]. intros g5 Hg5 Hr5 HO5 _. cbn beta.
  assert (grel ro g g5) as Hr05 by (do 4 (eapply grel_trans; [eassumption|]); done).
  assert (forall a, balance (O g5) a = balance (O g) a) as Hb5.
  { intros a. rewrite HO5, HO4, HO3, balance_keep by done. by rewrite HO2, HO1. }
  assert (bumped (caller_address caller) (O g) (O g5)) as Hbump by (right; rewrite HO5, HO4, HO3, HO2, HO1; done).
  destruct (_ || _); [apply wp_ret, create_early; [done..|lia|done]|].
  apply wp_bind, (gwp_snapshot T ro); [done|]. intros g6 Hg6 Hs6 Hr6 _.
  apply wp_bind. eapply (gwp_upd T _ _ _ ro); [law law_CreateAccount|done| | |by rewrite Hro|].
  { apply wf_set_acct; [apply Hg6|]. by destruct (wf_newAcct) as (W1 & W2 & W3). }
  { eapply capped_ext; [|apply Hg6]. intros a. rewrite balance_set_acct. destruct (decide (a = address)) as [->|]; [by rewrite fupd_eq|by rewrite fupd_ne]. }
  intros g7 Hg7 Hr7 HO7 _. apply wp_bind. eapply (gwp_upd T _ _ _ ro); [law law_SetNonce|done| | |by rewrite Hro|].
  { apply wf_on_acct; [apply Hg7|]. by intros a (W1 & W2 & W3). }
  { eapply capped_ext; [|apply Hg7]. intros a. by apply balance_keep. }
  intros g8 Hg8 Hr8 HO8 _. assert (forall a, balance (O g8) a = balance (O g) a) as Hb8.
  { intros a. rewrite HO8, balance_keep by done. rewrite HO7, balance_set_acct. destruct Hs6 as (-> & _).
    rewrite <- Hb5. destruct (decide (a = address)) as [->|]; [by rewrite fupd_eq|by rewrite fupd_ne]. }
  apply wp_bind, (gwp_Transfer T ro); [by apply caller_address_length|done|done|destruct Hv; rewrite Hb8; lia|by rewrite Hro|]. intros g9 Hg9 Hr9.
  apply wp_bind, wp_modify. apply wp_bind, (gwp_NewContract T ro); [by apply gok_created; [apply caller_address_length|..]|]. intros g10 Hg10 Hr10 HO10.
  assert (grel ro g6 g10) as Hr610.
  { do 3 (eapply grel_trans; [eassumption|]). eapply grel_trans; [|exact Hr10]. by apply grel_other. }
  destruct (_ && _).
  { apply wp_ret. split; [|by intros []]. split_and!; [done| |cbn; lia|cbn; lia|done]. do 2 (eapply grel_trans; [eassumption|]). done. }
  apply wp_bind. eapply wp_mono; [apply Hrun; [done| |done|cbn; lia|done]| |done].
  { split; cbn; [done|by apply caller_address_length|done..|lia]. }
  intros r g11 (P1 & P2 & P3).
  eapply wp_mono; [eapply (gwp_storeCode address gas r g5 g6 g11); try done; [by eapply grel_trans|lia]| |done].
  intros r' g12 ((Q1 & Q2 & Q3 & Q4) & Q5). split; [split_and!; [done|by eapply grel_trans|lia|lia|done]|]. intros He. by rewrite (Q5 He).
Qed.

Lemma Create_ok caller code gas value g : ro = false ->
  caller_ok caller -> gok T g -> word value -> (Z.of_nat (length code) < 2 ^ 62)%Z -> (0 <= gas < 2 ^ 62)%Z ->
  gwp (Create ctx runf depth ro caller code gas value) (create_done (caller_address caller) g gas) (fun _ _ => False) g.
Proof.
  intros Hro Hp Hg Hv Hco Hgas. unfold Create. apply wp_bind. eapply (gwp_get T _ _ ro); [law law_GetNonce; by apply caller_address_length|done|].
  intros g1 Hg1 Hr1 HO1 _. eapply wp_mono; [apply create_ok; [done..|]| |done].
  - unfold CreateAddress. unfold BytesToAddressHash. rewrite Crypto.length_SetBytes; done.
  - intros r g2 ((Q1 & Q2 & Q3 & Q4) & Q5). split; [split_and!; [done|by eapply grel_trans|lia|lia|done]|]. by rewrite <- HO1.
Qed.

Lemma Create2_ok caller code gas value salt g : ro = false ->
  caller_ok caller -> gok T g -> word value -> (Z.of_nat (length code) < 2 ^ 62)%Z -> (0 <= gas < 2 ^ 62)%Z ->
  gwp (Create2 ctx runf depth ro caller code gas value salt) (create_done (caller_address caller) g gas) (fun _ _ => False) g.
Proof.
  intros Hro Hp Hg Hv Hco Hgas. unfold Create2. apply create_ok; [done..|].
  unfold CreateAddress2, BytesToAddressHash. rewrite Crypto.length_SetBytes; done.
Qed.

Lemma methods_ok : calls_ok T ro (methods ctx runf depth ro).
Proof.
  split; intros; cbn.
  - eapply wp_mono; [by apply Call_ok|by intros ? ? []|done].
  - eapply wp_mono; [by apply CallCode_ok|by intros ? ? []|done].
  - eapply wp_mono; [by apply DelegateCall_ok|by intros ? ? []|done].
  - eapply wp_mono; [by apply StaticCall_ok|by intros ? ? []|done].
  - eapply wp_mono; [by apply Create_ok|by intros ? ? []|done].
  - eapply wp_mono; [by apply Create2_ok|by intros ? ? []|done].
Qed.

End Methods.

(** ** All depths *)

Section Depths.
Context {D : StateDB} {V : StateDBView D} `{K : Keccak} {L : StateDBLaws D V} `{C : Crypto} `{E : Curves} {EL : CurvesLaws E} `{R : Rlp} (T : Z) (ctx : Context).
Context (HT : (0 <= T < 2 ^ 256)%Z) (Hctx : ctx_ok ctx).

Lemma run_at_ok n depth : (1025 <= Z.of_nat n + depth)%Z -> (depth <= 1024)%Z -> runner_ok T (run_at ctx n depth).
Proof.
  revert depth. induction n as [|n IH]; intros depth H1 H2; [lia|].
  intros ro c gas input g Hc Hg Hi Hgas. cbn [run_at]. apply run_ok; [done..| |done|done|done|done].
  apply methods_ok; [done..|]. intros H3. apply IH; lia.
Qed.

Lemma top_ok : runner_ok T (run_at ctx frames 0).
Proof. apply run_at_ok; unfold frames; lia. Qed.

End Depths.
