(* ===== verification/EvmMain.v ===== *)
(** * EvmMain: what the virtual machine guarantees to a transaction

    The theorems about [EVM.Call], [EVM.StaticCall] and [EVM.Create] as a transaction calls
    them, about one turn of the interpreter and about jumps and memory fees, with witnesses on
    the abstract database of EvmState.v. *)

From S2P Require Import Prelude Crypto EvmMath EvmOpcode EvmState EvmMachine EvmGas EvmInstr EvmAnalysis EvmArith EvmInv EvmOps EvmCharge EvmJump EvmPrecompile Evm EvmStep EvmTable EvmSafe.
Import Params.

Section Main.
Context {D : StateDB} {V : StateDBView D} `{K : Keccak} {L : StateDBLaws D V} `{C : Crypto} `{E : Curves} {EL : CurvesLaws E} `{R : Rlp} (T : Z) (ctx : Context).

(** A transaction the theorems are about: a machine in good order whose accounts hold at most
    [T] < 2^256 in all, and less than 2^62 gas. *)
Definition transaction_ok (g : Global) (caller addr input : bytes) (gas value : Z) : Prop :=
  (0 <= T < 2 ^ 256)%Z /\ ctx_ok ctx /\ gok T g /\ length caller = 20 /\ length addr = 20 /\
  (Z.of_nat (length input) < 2 ^ 62)%Z /\ (0 <= gas < 2 ^ 62)%Z /\ word value.

Lemma EVM_Call_ok g caller addr input gas value : transaction_ok g caller addr input gas value ->
  gwp (EVM_Call ctx caller addr input gas value) (call_ok T false g gas) (fun _ _ => False) g.
Proof.
  intros (HT & Hctx & Hg & Hca & Ha & Hi & Hgas & Hv). apply (Call_ok T ctx); try done; intros _; by apply top_ok.
Qed.

Lemma EVM_StaticCall_ok g caller addr input gas : transaction_ok g caller addr input gas 0 ->
  gwp (EVM_StaticCall ctx caller addr input gas) (call_ok T true g gas) (fun _ _ => False) g.
Proof.
  intros (HT & Hctx & Hg & Hca & Ha & Hi & Hgas & Hv). apply (StaticCall_ok T ctx); try done; intros _; by apply top_ok.
Qed.

Lemma EVM_Create_ok g caller code gas value : transaction_ok g caller caller code gas value ->
  gwp (EVM_Create ctx caller code gas value) (create_done T false caller g gas) (fun _ _ => False) g.
Proof.
  intros (HT & Hctx & Hg & Hca & Ha & Hi & Hgas & Hv). apply (Create_ok T ctx); try done; intros _; by apply top_ok.
Qed.

(** C18: a contract call by a transaction always ends, whatever the code does: there is an
    answer with at most the gas it was given, the loop and the call depth never exhaust their
    bounds, and no index, stack, memory or snapshot operation panics; the only panic left open
    is after two different contract codes with the same hash have been met. *)
Theorem evm_call_total g caller addr input gas value : transaction_ok g caller addr input gas value ->
  match EVM_Call ctx caller addr input gas value g with
  | (XOk (ret, rest, err), _) => (0 <= rest <= gas)%Z
  | (XPanic, g') => g_clash g' = true
  | _ => False
  end.
Proof.
  intros H. pose proof (EVM_Call_ok _ _ _ _ _ _ H) as Hok. unfold wp in Hok.
  destruct (EVM_Call _ _ _ _ _ _ _) as [[[[ret rest] err]|e| |] g']; try done. by destruct Hok as [(_ & _ & ?) _].
Qed.

(** The ways to start a frame, for a transaction and for a running contract. *)
Inductive Invocation :=
  | ByCall (addr input : bytes) (gas value : Z)
  | ByCallCode (addr input : bytes) (gas value : Z)
  | ByDelegateCall (addr input : bytes) (gas : Z)
  | ByStaticCall (addr input : bytes) (gas : Z)
  | ByCreate (code : bytes) (gas value : Z)
  | ByCreate2 (code : bytes) (gas value salt : Z).

(** The error of the frame, [None] when it succeeds. *)
Definition invoke (runf : runner) (depth : Z) (ro : bool) (caller : Caller) (i : Invocation) : G (option EvmErr) :=
  match i with
  | ByCall addr input gas value => r ← Call ctx runf depth ro caller addr input gas value; mret r.2
  | ByCallCode addr input gas value => r ← CallCode ctx runf depth ro caller addr input gas value; mret r.2
  | ByDelegateCall addr input gas => r ← DelegateCall ctx runf depth ro caller addr input gas; mret r.2
  | ByStaticCall addr input gas => r ← StaticCall ctx runf depth caller addr input gas; mret r.2
  | ByCreate code gas value => r ← Create ctx runf depth ro caller code gas value; mret r.2
  | ByCreate2 code gas value salt => r ← Create2 ctx runf depth ro caller code gas value salt; mret r.2
  end.

(** Sizes as everywhere; a read-only frame sends no value and creates nothing, and only a contract
    delegates. *)
Definition invocation_ok (ro : bool) (caller : Caller) (i : Invocation) : Prop :=
  let sizes (b : bytes) (gas : Z) := (Z.of_nat (length b) < 2 ^ 62)%Z /\ (0 <= gas < 2 ^ 62)%Z in
  match i with
  | ByCall addr input gas value => length addr = 20 /\ sizes input gas /\ word value /\ (ro = true -> value = 0%Z)
  | ByCallCode addr input gas value => length addr = 20 /\ sizes input gas /\ word value
  | ByDelegateCall addr input gas => length addr = 20 /\ sizes input gas /\ exists p, caller = CallerContract p
  | ByStaticCall addr input gas => length addr = 20 /\ sizes input gas
  | ByCreate code gas value | ByCreate2 code gas value _ => sizes code gas /\ word value /\ ro = false
  end.

(** What an error leaves. *)
Definition undone (caller : bytes) (i : Invocation) (o o' : Obs) : Prop :=
  match i with
  | ByCreate _ _ _ | ByCreate2 _ _ _ _ => o' = o \/ o' = on_acct caller (set_nonce (u64 (nonce o caller + 1))) o
  | _ => o' = o
  end.

Lemma invoke_ok n depth ro caller i g : (0 <= T < 2 ^ 256)%Z -> ctx_ok ctx -> (1025 <= Z.of_nat n + depth)%Z -> caller_ok caller -> gok T g -> invocation_ok ro caller i ->
  gwp (invoke (run_at ctx n depth) depth ro caller i) (fun e g' => is_Some e -> undone (caller_address caller) i (obs (g_db g)) (obs (g_db g'))) (fun _ _ => False) g.
Proof.
  intros HT Hctx Hn Hca Hg Hi. assert ((depth <= 1024)%Z -> runner_ok T (run_at ctx n depth)) as Hrun by (intros Hd; by apply run_at_ok).
  destruct i as [addr input gas value|addr input gas value|addr input gas|addr input gas|code gas value|code gas value salt]; cbn [invoke]; apply wp_bind.
  - destruct Hi as (Ha & [Hs Hgas] & Hv & Hro). eapply wp_mono; [by apply (Call_ok T ctx)| |done]. intros r g' [_ Hr]. apply wp_ret, Hr.
  - destruct Hi as (Ha & [Hs Hgas] & Hv). eapply wp_mono; [by apply (CallCode_ok T ctx)| |done]. intros r g' [_ Hr]. apply wp_ret, Hr.
  - destruct Hi as (Ha & [Hs Hgas] & p & ->). eapply wp_mono; [by apply (DelegateCall_ok T ctx)| |done]. intros r g' [_ Hr]. apply wp_ret, Hr.
  - destruct Hi as (Ha & [Hs Hgas]). eapply wp_mono; [by apply (StaticCall_ok T ctx (run_at ctx n depth) depth ro)| |done]. intros r g' [_ Hr]. apply wp_ret, Hr.
  - destruct Hi as ([Hs Hgas] & Hv & Hro). eapply wp_mono; [by apply (Create_ok T ctx)| |done]. intros r g' [_ Hr]. apply wp_ret, Hr.
  - destruct Hi as ([Hs Hgas] & Hv & Hro). eapply wp_mono; [by apply (Create2_ok T ctx)| |done]. intros r g' [_ Hr]. apply wp_ret, Hr.
Qed.

(** C19: a frame that fails leaves the state as it found it: balances, nonces, code, storage, logs,
    refund counter and the set of accounts.  This holds at every depth, 0 for the transaction up to
    the limit of 1024 and beyond it, in which case nothing is run, and for every way to start a
    frame: Call, CallCode, DelegateCall, StaticCall, Create and Create2, whoever the caller, so that
    it is also true of a nested frame whose caller goes on.  A creation that fails may have
    advanced the nonce of its creator, as the code does before it takes the snapshot, and nothing
    else. *)
Theorem evm_call_atomic n depth ro caller i g err g' : (0 <= T < 2 ^ 256)%Z -> ctx_ok ctx -> (1025 <= Z.of_nat n + depth)%Z ->
  caller_ok caller -> gok T g -> invocation_ok ro caller i ->
  invoke (run_at ctx n depth) depth ro caller i g = (XOk (Some err), g') -> undone (caller_address caller) i (obs (g_db g)) (obs (g_db g')).
Proof.
  intros HT Hctx Hn Hca Hg Hi E1. pose proof (invoke_ok n depth ro caller i g HT Hctx Hn Hca Hg Hi) as Hok. unfold wp in Hok. rewrite E1 in Hok. apply Hok. eauto.
Qed.

(** C20: no call creates value: if before it no account is negative and no set of accounts holds
    more than [T] together, then so it is afterwards, whatever contracts were run, value sent,
    contracts created or destroyed on the way. *)
Theorem evm_conserves_value g caller addr input gas value r g' :
  transaction_ok g caller addr input gas value ->
  EVM_Call ctx caller addr input gas value g = (XOk r, g') ->
  (forall a, 0 <= balance (obs (g_db g')) a)%Z /\
  (forall l, NoDup l -> Zsum (balance (obs (g_db g')) <$> l) <= T)%Z.
Proof.
  intros H E1. pose proof (EVM_Call_ok _ _ _ _ _ _ H) as Hok. unfold wp in Hok. rewrite E1 in Hok.
  destruct Hok as [(Hg & _) _]. apply (gok_cap _ _ Hg).
Qed.

(** C21: a static call changes nothing: balances, nonces, code, storage, self-destruction marks,
    logs and refunds are as before, whatever the code called does, nested calls included. *)
Theorem evm_static_call_pure g caller addr input gas r g' :
  transaction_ok g caller addr input gas 0 ->
  EVM_StaticCall ctx caller addr input gas g = (XOk r, g') -> same_state (obs (g_db g)) (obs (g_db g')).
Proof.
  intros H E1. pose proof (EVM_StaticCall_ok _ _ _ _ _ H) as Hok. unfold wp in Hok. rewrite E1 in Hok.
  destruct Hok as [(_ & Hr & _) _]. by apply (grel_same _ _ _ Hr).
Qed.

(** deploying a contract always ends with at most the gas it was given, creates no value,
    and does not panic unless two codes with one hash have been met. *)
Theorem evm_create_total g caller code gas value : transaction_ok g caller caller code gas value ->
  match EVM_Create ctx caller code gas value g with
  | (XOk (ret, addr, rest, err), g') => (0 <= rest <= gas)%Z /\ capped T (balance (obs (g_db g')))
  | (XPanic, g') => g_clash g' = true
  | _ => False
  end.
Proof.
  intros H. pose proof (EVM_Create_ok _ _ _ _ _ H) as Hok. unfold wp in Hok.
  destruct (EVM_Create _ _ _ _ _ _) as [[[[[ret addr] rest] err]|e| |] g']; try done.
  destruct Hok as ((Hg & _ & ? & _) & _). split; [done|apply Hg].
Qed.


(** a jump lands on an instruction: with no clash of hashes, JUMP moves to its target when
    that is a JUMPDEST at which an instruction starts (not inside the data of a push), and
    fails otherwise; cached analyses, shared between the frames of a transaction, do not change
    that. *)
Theorem evm_jump_valid c m pos st : (0 <= T < 2 ^ 256)%Z -> cok c -> mok T c m -> m_stack m = pos :: st ->
  match opJump c m with
  | (XOk _, m') => g_clash (m_g m') = true \/ jumpdest (c_Code c) pos /\ m_pc m' = pos
  | (XErr e, m') => e = ErrInvalidJump /\ (g_clash (m_g m') = true \/ ~ jumpdest (c_Code c) pos)
  | (XPanic, m') => g_clash (m_g m') = true
  | (XFuel, _) => False
  end.
Proof.
  intros HT Hc Hm Est.
  enough (mwp (opJump c) (fun _ m' => g_clash (m_g m') = true \/ jumpdest (c_Code c) pos /\ m_pc m' = pos)
    (fun e m' => e = ErrInvalidJump /\ (g_clash (m_g m') = true \/ ~ jumpdest (c_Code c) pos)) m) as H.
  { unfold wp in H. by destruct (opJump c m) as [[] ?]. }
  destruct m as [pc st' store last gas an g]. cbn in Est. subst st'. unfold opJump. wp_auto.
  pose proof (mok_words _ _ _ Hm) as Hw. cbn in Hw. apply Forall_cons in Hw as [Hp _].
  apply (mwp_validJumpdest T false c Hc); [apply Hm|apply (mok_an _ _ _ Hm)|done|].
  intros b an' g' Hg' Hr Han Hb Hd. wp_auto; cbn.
  - split; [done|]. destruct b; [done|]. destruct (g_clash g') eqn:Ecl; [by left|right].
    intros Hj. apply Hb in Hj; [done|]. unfold gclash. by rewrite Ecl.
  - destruct b; [|done]. destruct (g_clash g') eqn:Ecl; [by left|right]. split; [|rewrite Uint64_small; [done|specialize (Hd eq_refl); lia]].
    apply Hb; [|done]. unfold gclash. by rewrite Ecl.
Qed.

(** The fee for [w] words of memory, in unbounded arithmetic. *)
Definition fee (w : Z) : Z := (3 * w + w * w / 512)%Z.

(** growing the memory to [w'] words, below 128 GiB, costs exactly the difference of the
    quadratic fees 3w + w*w/512, computed without overflow. *)
Theorem memory_fee_exact pc st store gas an g w w' : (0 <= w < w')%Z -> (w' < 2 ^ 32)%Z -> Z.of_nat (length store) = (32 * w)%Z ->
  memoryGasCost (32 * w') (mkMachine pc st store (fee w) gas an g) =
  (XOk (fee w' - fee w)%Z, mkMachine pc st store (fee w') gas an g).
Proof.
  intros Hw Hw' Hl. unfold memoryGasCost. destruct (Z.eqb_spec (32 * w') 0); [lia|]. destruct (Z.ltb_spec 0xffffffffe0 (32 * w')); [lia|].
  rewrite toWordSize_words, (Z.mul_comm w' 32), (u64_small (32 * w')) by lia.
  assert (0 <= w' * w' / 512 < 2 ^ 56)%Z as Hq by (split; [apply Z.div_pos; nia|apply Z.div_lt_upper_bound; nia]).
  assert (w * w / 512 <= w' * w' / 512)%Z as Hmono by (apply Z.div_le_mono; nia).
  assert (0 <= w * w / 512)%Z by (apply Z.div_pos; nia).
  unfold gets, mbind, ST_bind. cbn [m_store m_lastGasCost]. rewrite Hl. destruct (Z.ltb_spec (32 * w) (32 * w')); [|lia].
  unfold modify, mret, ST_ret, with_lastGasCost. cbn. unfold MemoryGas, QuadCoeffDiv, fee.
  rewrite (u64_small (w' * w')), (u64_small (w' * 3)) by nia. rewrite (u64_small (w' * 3 + _)) by nia. rewrite u64_small by nia.
  rewrite (Z.mul_comm w' 3). done.
Qed.

(** above that the computation overflows: for 2^32 words of memory (128 GiB), which the
    check of the size lets pass, the square of the number of words is 0 in 64 bits and the
    charge is 12884901888 gas, a three-millionth of the fee of 36028809903865856 gas. *)
Theorem memory_fee_overflow pc st gas an g :
  memoryGasCost (32 * 2 ^ 32) (mkMachine pc st [] 0 gas an g) =
    (XOk 12884901888%Z, mkMachine pc st [] 12884901888 gas an g) /\
  fee (2 ^ 32) = 36028809903865856%Z.
Proof. split; reflexivity. Qed.

End Main.

(** ** A concrete machine *)

Module EvmDemo.
Import RefDB.

#[export] Instance keccak : Keccak := {| keccak256 b := be32 (Big.SetBytes b + Z.of_nat (length b)); keccak256_length b := length_be32 _ |}.

#[export] Instance curves : Curves := {|
  G1 := unit; G2 := unit; G1_Unmarshal _ := None; G2_Unmarshal _ := None; G1_Add a _ := a; G1_ScalarMult a _ := a;
  G1_Marshal _ := []; PairingCheck _ _ := true; RecoverCompact _ _ := None
|}.

#[export] Instance curves_laws : CurvesLaws curves.
Proof. by split. Qed.

#[export] Instance rlp : Rlp := {| rlp_create a n := a ++ be_bytes n |}.

Definition ctx : Context :=
  mkContext (replicate 20 x01) 1 (replicate 20 x02) 1000 300 5 (fun n => Some (be32 n)) false false.

Definition alice : bytes := replicate 20 x01.
Definition contract : bytes := replicate 20 x03.

(** PUSH1 3 PUSH1 5 ADD PUSH1 0 MSTORE PUSH1 32 PUSH1 0 RETURN. *)
Definition adder : bytes := [x60; x03; x60; x05; x01; x60; x00; x52; x60; x20; x60; x00; xf3].
(** PUSH1 0 PUSH1 0 REVERT. *)
Definition reverter : bytes := [x60; x00; x60; x00; xfd].

Definition no_accounts : Obs := mkObs (fun _ => None) 0 (fun _ => []) 0 ([], [], 0%Z).
Definition state (code : bytes) : Obs := on_acct contract (set_code code) (on_acct alice (set_balance 5) no_accounts).
Definition machine (code : bytes) : Global := mkGlobal (mkRef (state code) [] 0) [] 0 ∅ [] ∅ false.

Lemma ctx_good : ctx_ok ctx.
Proof.
  split; [cbn; lia|]. split; [cbn; lia|]. split; [split; done|]. split; [split; done|]. intros n _ _. exists (be32 n). split; [done|]. by rewrite length_be32.
Qed.

(** Alice with an amount and a contract, where there was nothing. *)
Lemma deployed_good o code v T : (forall a, o_acct o a = None) -> (0 <= o_refund o < 2 ^ 64)%Z -> (0 <= v <= T)%Z -> length code <= 100 ->
  let o' := on_acct contract (set_code code) (on_acct alice (set_balance v) o) in wf_obs o' /\ capped T (balance o').
Proof.
  intros Ho Hrf Hv Hc. split.
  - apply wf_on_acct.
    + apply wf_on_acct; [split; [intros a c; by rewrite Ho|done]|]. by intros c (W1 & W2 & W3).
    + intros c (W1 & W2 & W3). split_and!; [apply keccak256_length|cbn; lia|done].
  - assert (forall a, balance o a = 0%Z) as Hb by (intros a; unfold balance; by rewrite Ho).
    eapply capped_ext; [intros a; apply balance_keep; done|]. eapply capped_ext; [intros a; apply balance_on_acct|].
    split; [intros a; unfold fupd; case_decide; [cbn; lia|by rewrite Hb]|]. intros l Hl. rewrite Zsum_fupd by done.
    assert (Zsum (balance o <$> l) = 0%Z) as -> by (clear Hl; induction l as [|x l IH]; [done|cbn; rewrite Hb; exact IH]).
    rewrite Hb. case_decide; cbn; lia.
Qed.

Lemma machine_good code : length code <= 100 -> gok 5 (machine code).
Proof.
  intros Hc. destruct (deployed_good no_accounts code 5 5) as [H1 H2]; [done|done|lia|done|]. split; [constructor|exact H1|exact H2|by intros h x y|by apply no_records].
Qed.

Lemma transaction_good code gas value : length code <= 100 -> (0 <= gas < 2 ^ 62)%Z -> (0 <= value <= 5)%Z ->
  transaction_ok 5 ctx (machine code) alice contract [] gas value.
Proof.
  intros Hc Hg Hv. split_and!; try done; try lia; [apply ctx_good|by apply machine_good|unfold word; lia..].
Qed.

#[local] Existing Instance ToyCrypto.toy.

Lemma evm_call_total_witness :
  match EVM_Call ctx alice contract [] 1000 3 (machine adder) with
  | (XOk (ret, rest, err), _) => (0 <= rest <= 1000)%Z
  | (XPanic, g') => g_clash g' = true
  | _ => False
  end.
Proof. apply (evm_call_total 5). apply transaction_good; cbn; lia. Defined.

(** Alice's contract, at depth 7, delegates to a contract that reverts. *)
Definition delegating : Caller := CallerContract (mkContract alice alice [] Crypto.ZeroHash None [] 0).

Lemma evm_call_atomic_witness :
  obs (g_db (invoke ctx (run_at ctx 1020 7) 7 false delegating (ByDelegateCall contract [] 100) (machine reverter)).2) = state reverter.
Proof.
  refine (evm_call_atomic 5 ctx 1020 7 false delegating (ByDelegateCall contract [] 100) (machine reverter) ErrExecutionReverted _ _ _ _ _ _ _ _); try lia.
  - apply ctx_good.
  - split; cbn; try done; unfold word; lia.
  - apply machine_good. cbn. lia.
  - split; [done|]. split; [split; cbn; lia|]. eexists. reflexivity.
  - refine (eq_trans (surjective_pairing _) (f_equal (fun x => (x, _)) _)). vm_compute. reflexivity.
Defined.

Lemma evm_conserves_value_witness :
  (forall a, 0 <= balance (obs (g_db (EVM_Call ctx alice contract [] 1000 3 (machine adder)).2)) a)%Z /\
  (forall l, NoDup l -> Zsum (balance (obs (g_db (EVM_Call ctx alice contract [] 1000 3 (machine adder)).2)) <$> l) <= 5)%Z.
Proof.
  apply (evm_conserves_value 5 ctx (machine adder) alice contract [] 1000 3 (replicate 31 x00 ++ [x08], 976%Z, None)).
  - apply transaction_good; cbn; lia.
  - rewrite (surjective_pairing (EVM_Call ctx alice contract [] 1000 3 (machine adder))) at 1.
    f_equal; vm_compute; reflexivity.
Defined.

Lemma evm_static_call_pure_witness :
  same_state (state adder) (obs (g_db (EVM_StaticCall ctx alice contract [] 1000 (machine adder)).2)).
Proof.
  refine (evm_static_call_pure 5 ctx (machine adder) alice contract [] 1000 (replicate 31 x00 ++ [x08], 976%Z, None) _ _ _).
  - apply transaction_good; cbn; lia.
  - rewrite (surjective_pairing (EVM_StaticCall ctx alice contract [] 1000 (machine adder))) at 1.
    f_equal; vm_compute; reflexivity.
Defined.

Lemma evm_create_total_witness :
  match EVM_Create ctx alice adder 40000 3 (machine []) with
  | (XOk (ret, addr, rest, err), g') => (0 <= rest <= 40000)%Z /\ capped 5 (balance (obs (g_db g')))
  | (XPanic, g') => g_clash g' = true
  | _ => False
  end.
Proof.
  apply (evm_create_total 5). split_and!; try done; [apply ctx_good|apply machine_good; cbn; lia].
Defined.

(** A frame at its start. *)
Definition frame (code : bytes) (st : list Z) : Machine := mkMachine 0 st [] 0 1000 None (machine code).
Definition running (code : bytes) : Contract := mkContract alice contract code Crypto.ZeroHash (Some contract) [] 0.

Lemma running_good code : length code <= 100 -> cok (running code).
Proof. intros H. split; cbn; try lia. done. Qed.

Lemma frame_good code st : length code <= 100 -> Forall word st -> length st <= 10 -> mok 5 (running code) (frame code st).
Proof.
  intros Hc Hw Hl. split; cbn; [done|lia| |lia|done|by apply machine_good|lia]. exists 0%Z. split; [lia|done].
Qed.


Lemma evm_jump_valid_witness :
  match opJump (running [x60; x5b; x5b]) (frame [x60; x5b; x5b] [2%Z]) with
  | (XOk _, m') => g_clash (m_g m') = true \/ jumpdest [x60; x5b; x5b] 2 /\ m_pc m' = 2%Z
  | (XErr e, m') => e = ErrInvalidJump /\ (g_clash (m_g m') = true \/ ~ jumpdest [x60; x5b; x5b] 2)
  | (XPanic, m') => g_clash (m_g m') = true
  | (XFuel, _) => False
  end.
Proof.
  apply (evm_jump_valid 5 (running [x60; x5b; x5b]) (frame [x60; x5b; x5b] [2%Z]) 2 []); [lia| | |done].
  - apply running_good. cbn. lia.
  - apply frame_good; [cbn; lia|constructor; [unfold word; lia|constructor]|cbn; lia].
Defined.

Lemma memory_fee_exact_witness :
  memoryGasCost (32 * 1000) (mkMachine 0 [] [] (fee 0) 5000 None (machine [])) =
  (XOk (fee 1000 - fee 0)%Z, mkMachine 0 [] [] (fee 1000) 5000 None (machine [])).
Proof. apply (memory_fee_exact 0 [] [] 5000 None (machine []) 0 1000); [lia..|done]. Defined.

Lemma arithmetic_instructions_witness :
  leaves opAdd (frame [] [2 ^ 256 - 1; 2; 7])%Z [7%Z] (wrap (2 ^ 256 - 1 + 2)) /\ wrap (2 ^ 256 - 1 + 2) = 1%Z.
Proof.
  split; [|vm_compute; reflexivity].
  refine (proj1 (arithmetic_instructions (frame [] [2 ^ 256 - 1; 2; 7])%Z (2 ^ 256 - 1) 2 7 [] _ _ _ eq_refl)); unfold word; lia.
Defined.

Lemma logic_instructions_witness :
  leaves opLt (frame [] [1; 2 ^ 256 - 3])%Z [] (Arith.b2w (1 <? 2 ^ 256 - 3)%Z).
Proof.
  refine (proj1 (logic_instructions (frame [] [1; 2 ^ 256 - 3])%Z 1 (2 ^ 256 - 3) [] _ _ eq_refl)); unfold word; lia.
Defined.

End EvmDemo.
