(* ===== verification/WorldState.v ===== *)
(** * WorldState: the database of contract accounts (src/core/worldstate)

    statedb.go, state_object.go and journal.go.  Live accounts ([stateObject]) are cached over
    two tries in a table; every change is recorded in a journal, so that the state can go back
    to a snapshot.  A pointer to a live object is its address: the map of objects holds the
    only one, and an object that [CreateAccount] replaces lives on in the journal, where nothing
    changes it.  Big integers are values: the code never changes one in place. *)

From S2P Require Import Prelude Crypto EvmState Trie.

(** An account as it is stored. *)
Record Account := mkAccount { Nonce : Z; Balance : Z; Root : bytes; CodeHash : bytes }.

(** The RLP encoding (github.com/ethereum/go-ethereum/rlp); a negative balance cannot be
    encoded.  [rlp_Split] gives the content of the first item. *)
Class AccountRlp := {
  rlp_EncodeAccount : Account -> option bytes;
  rlp_DecodeAccount : bytes -> option Account;
  rlp_EncodeBytes : bytes -> bytes;
  rlp_Split : bytes -> option bytes
}.

Definition account_range (d : Account) : Prop :=
  (0 <= Nonce d < 2 ^ 64)%Z /\ (0 <= Balance d)%Z /\ length (Root d) = 32.

Class AccountRlpLaws (R : AccountRlp) := {
  rlp_account_total d : account_range d -> exists b, rlp_EncodeAccount d = Some b;
  rlp_account_roundtrip d b : account_range d -> rlp_EncodeAccount d = Some b -> rlp_DecodeAccount b = Some d;
  rlp_account_nonempty d b : rlp_EncodeAccount d = Some b -> b <> [];
  rlp_bytes_roundtrip b : rlp_Split (rlp_EncodeBytes b) = Some b;
  rlp_bytes_nonempty b : rlp_EncodeBytes b <> []
}.

(** The errors that are remembered. *)
Inductive WErr := ErrTrie (e : TrieErr) | ErrStorageTrie (e : TrieErr) | ErrRlp | ErrCode (hash : bytes) | ErrVM (e : EvmErr).

(** [bytes.TrimLeft] of zero bytes. *)
Fixpoint trimLeft (b : bytes) : bytes := match b with x00 :: b => trimLeft b | _ => b end.

Module WorldState.

(** ** Objects *)

Record stateObject := mkObject {
  so_address : bytes;
  so_addrHash : bytes;
  so_data : Account;
  so_dbErr : option WErr;
  (** The storage trie, once opened: its root. *)
  so_trie : option (option bytes);
  so_code : option bytes;
  so_originStorage : gmap bytes bytes;
  so_dirtyStorage : gmap bytes bytes;
  so_dirtyCode : bool;
  so_suicided : bool;
  so_deleted : bool
}.

Definition with_data (o : stateObject) (d : Account) : stateObject :=
  mkObject (so_address o) (so_addrHash o) d (so_dbErr o) (so_trie o) (so_code o) (so_originStorage o) (so_dirtyStorage o) (so_dirtyCode o) (so_suicided o) (so_deleted o).
Definition with_dbErr (o : stateObject) (e : option WErr) : stateObject :=
  mkObject (so_address o) (so_addrHash o) (so_data o) e (so_trie o) (so_code o) (so_originStorage o) (so_dirtyStorage o) (so_dirtyCode o) (so_suicided o) (so_deleted o).
Definition with_trie (o : stateObject) (t : option bytes) : stateObject :=
  mkObject (so_address o) (so_addrHash o) (so_data o) (so_dbErr o) (Some t) (so_code o) (so_originStorage o) (so_dirtyStorage o) (so_dirtyCode o) (so_suicided o) (so_deleted o).
Definition with_code (o : stateObject) (c : option bytes) : stateObject :=
  mkObject (so_address o) (so_addrHash o) (so_data o) (so_dbErr o) (so_trie o) c (so_originStorage o) (so_dirtyStorage o) (so_dirtyCode o) (so_suicided o) (so_deleted o).
Definition with_dirtyCode (o : stateObject) (b : bool) : stateObject :=
  mkObject (so_address o) (so_addrHash o) (so_data o) (so_dbErr o) (so_trie o) (so_code o) (so_originStorage o) (so_dirtyStorage o) b (so_suicided o) (so_deleted o).
Definition with_origin (o : stateObject) (m : gmap bytes bytes) : stateObject :=
  mkObject (so_address o) (so_addrHash o) (so_data o) (so_dbErr o) (so_trie o) (so_code o) m (so_dirtyStorage o) (so_dirtyCode o) (so_suicided o) (so_deleted o).
Definition with_dirty (o : stateObject) (m : gmap bytes bytes) : stateObject :=
  mkObject (so_address o) (so_addrHash o) (so_data o) (so_dbErr o) (so_trie o) (so_code o) (so_originStorage o) m (so_dirtyCode o) (so_suicided o) (so_deleted o).
Definition with_suicided (o : stateObject) (b : bool) : stateObject :=
  mkObject (so_address o) (so_addrHash o) (so_data o) (so_dbErr o) (so_trie o) (so_code o) (so_originStorage o) (so_dirtyStorage o) (so_dirtyCode o) b (so_deleted o).
Definition with_deleted (o : stateObject) (b : bool) : stateObject :=
  mkObject (so_address o) (so_addrHash o) (so_data o) (so_dbErr o) (so_trie o) (so_code o) (so_originStorage o) (so_dirtyStorage o) (so_dirtyCode o) (so_suicided o) b.

(** [setNonce], [setBalance], [setState], [setError] and [markSuicided] of an object. *)
Definition setNonce (nonce : Z) (o : stateObject) : stateObject :=
  let d := so_data o in with_data o (mkAccount nonce (Balance d) (Root d) (CodeHash d)).
Definition setBalance (amount : Z) (o : stateObject) : stateObject :=
  let d := so_data o in with_data o (mkAccount (Nonce d) amount (Root d) (CodeHash d)).
Definition setRoot (root : bytes) (o : stateObject) : stateObject :=
  let d := so_data o in with_data o (mkAccount (Nonce d) (Balance d) root (CodeHash d)).
Definition setState (key value : bytes) (o : stateObject) : stateObject := with_dirty o (<[key := value]> (so_dirtyStorage o)).
Definition object_setError (err : option WErr) (o : stateObject) : stateObject :=
  match so_dbErr o with None => with_dbErr o err | Some _ => o end.
Definition markSuicided (o : stateObject) : stateObject := with_suicided o true.

(** [setCode]: the hash is the array, of which the account keeps the bytes. *)
Definition setCode (codeHash : bytes) (code : option bytes) (o : stateObject) : stateObject :=
  let d := so_data o in
  with_dirtyCode (with_data (with_code o code) (mkAccount (Nonce d) (Balance d) (Root d) codeHash)) true.

(** ** The journal *)

Inductive journalEntry :=
| createObjectChange (account : bytes)
| resetObjectChange (prev : stateObject)
| suicideChange (account : bytes) (prev : bool) (prevbalance : Z)
| balanceChange (account : bytes) (prev : Z)
| nonceChange (account : bytes) (prev : Z)
| storageChange (account : bytes) (key prevalue : bytes)
| codeChange (account : bytes) (prevcode : option bytes) (prevhash : bytes)
| refundChange (prev : Z)
| addLogChange (txhash : bytes)
| addPreimageChange (hash : bytes)
| touchChange (account : bytes).

Definition dirtied (e : journalEntry) : option bytes :=
  match e with
  | createObjectChange a | suicideChange a _ _ | balanceChange a _ | nonceChange a _
  | storageChange a _ _ | codeChange a _ _ | touchChange a => Some a
  | resetObjectChange _ | refundChange _ | addLogChange _ | addPreimageChange _ => None
  end.

Record journal := mkJournal { entries : list journalEntry; dirties : gmap bytes Z }.

Definition newJournal : journal := mkJournal [] ∅.

(** [j.dirties[addr]++] *)
Definition dirty (addr : bytes) (j : journal) : journal :=
  mkJournal (entries j) (<[addr := (default 0 (dirties j !! addr) + 1)%Z]> (dirties j)).

(** [journal.append] *)
Definition append (entry : journalEntry) (j : journal) : journal :=
  let j := mkJournal (entries j ++ [entry]) (dirties j) in
  match dirtied entry with Some addr => dirty addr j | None => j end.

Definition undirty (addr : bytes) (m : gmap bytes Z) : gmap bytes Z :=
  let n := (default 0 (m !! addr) - 1)%Z in
  if (n =? 0)%Z then delete addr m else <[addr := n]> m.

(** ** The state *)

Record revision := mkRevision { r_id : nat; r_journalIndex : nat }.

Record WState := mkState {
  db : TrieDb;
  trie : option bytes;
  utxoTrie : option bytes;
  stateObjects : gmap bytes stateObject;
  stateObjectsDirty : gset bytes;
  dbErr : option WErr;
  refund : Z;
  thash : bytes;
  bhash : bytes;
  txIndex : Z;
  logs : gmap bytes (list Log);
  logSize : Z;
  preimages : gmap bytes bytes;
  jrnl : journal;
  validRevisions : list revision;
  nextRevisionID : nat
}.

Definition with_db (s : WState) (d : TrieDb) : WState :=
  mkState d (trie s) (utxoTrie s) (stateObjects s) (stateObjectsDirty s) (dbErr s) (refund s) (thash s) (bhash s) (txIndex s) (logs s) (logSize s) (preimages s) (jrnl s) (validRevisions s) (nextRevisionID s).
Definition with_root (s : WState) (t : option bytes) : WState :=
  mkState (db s) t (utxoTrie s) (stateObjects s) (stateObjectsDirty s) (dbErr s) (refund s) (thash s) (bhash s) (txIndex s) (logs s) (logSize s) (preimages s) (jrnl s) (validRevisions s) (nextRevisionID s).
Definition with_utxoRoot (s : WState) (t : option bytes) : WState :=
  mkState (db s) (trie s) t (stateObjects s) (stateObjectsDirty s) (dbErr s) (refund s) (thash s) (bhash s) (txIndex s) (logs s) (logSize s) (preimages s) (jrnl s) (validRevisions s) (nextRevisionID s).
Definition with_objects (s : WState) (m : gmap bytes stateObject) : WState :=
  mkState (db s) (trie s) (utxoTrie s) m (stateObjectsDirty s) (dbErr s) (refund s) (thash s) (bhash s) (txIndex s) (logs s) (logSize s) (preimages s) (jrnl s) (validRevisions s) (nextRevisionID s).
Definition with_objectsDirty (s : WState) (m : gset bytes) : WState :=
  mkState (db s) (trie s) (utxoTrie s) (stateObjects s) m (dbErr s) (refund s) (thash s) (bhash s) (txIndex s) (logs s) (logSize s) (preimages s) (jrnl s) (validRevisions s) (nextRevisionID s).
Definition with_err (s : WState) (e : option WErr) : WState :=
  mkState (db s) (trie s) (utxoTrie s) (stateObjects s) (stateObjectsDirty s) e (refund s) (thash s) (bhash s) (txIndex s) (logs s) (logSize s) (preimages s) (jrnl s) (validRevisions s) (nextRevisionID s).
Definition with_refund (s : WState) (v : Z) : WState :=
  mkState (db s) (trie s) (utxoTrie s) (stateObjects s) (stateObjectsDirty s) (dbErr s) v (thash s) (bhash s) (txIndex s) (logs s) (logSize s) (preimages s) (jrnl s) (validRevisions s) (nextRevisionID s).
Definition with_logs (s : WState) (l : gmap bytes (list Log)) (n : Z) : WState :=
  mkState (db s) (trie s) (utxoTrie s) (stateObjects s) (stateObjectsDirty s) (dbErr s) (refund s) (thash s) (bhash s) (txIndex s) l n (preimages s) (jrnl s) (validRevisions s) (nextRevisionID s).
Definition with_preimages (s : WState) (m : gmap bytes bytes) : WState :=
  mkState (db s) (trie s) (utxoTrie s) (stateObjects s) (stateObjectsDirty s) (dbErr s) (refund s) (thash s) (bhash s) (txIndex s) (logs s) (logSize s) m (jrnl s) (validRevisions s) (nextRevisionID s).
Definition with_journal (s : WState) (j : journal) : WState :=
  mkState (db s) (trie s) (utxoTrie s) (stateObjects s) (stateObjectsDirty s) (dbErr s) (refund s) (thash s) (bhash s) (txIndex s) (logs s) (logSize s) (preimages s) j (validRevisions s) (nextRevisionID s).
Definition with_revisions (s : WState) (l : list revision) (n : nat) : WState :=
  mkState (db s) (trie s) (utxoTrie s) (stateObjects s) (stateObjectsDirty s) (dbErr s) (refund s) (thash s) (bhash s) (txIndex s) (logs s) (logSize s) (preimages s) (jrnl s) l n.

(** The methods change the state, and may panic. *)
Definition W (A : Type) : Type := WState -> go A * WState.

#[global] Instance W_ret : MRet W := fun A a s => (Returns a, s).
#[global] Instance W_bind : MBind W := fun A B k c s =>
  match c s with (Returns a, s) => k a s | (Panics, s) => (Panics, s) end.

Definition gets {A} (f : WState -> A) : W A := fun s => (Returns (f s), s).
Definition modify (f : WState -> WState) : W unit := fun s => (Returns tt, f s).
Definition panic {A} : W A := fun s => (Panics, s).

(** Run an operation on the table; a trie that is out of fuel counts as a panic. *)
Definition on_table {A} (c : M A) : W (result TrieErr A) := fun s =>
  match c (db s) with
  | (ROk a, d) => (Returns (Ok a), with_db s d)
  | (RErr e, d) => (Returns (Err e), with_db s d)
  | (RPanic, d) | (RFuel, d) => (Panics, with_db s d)
  end.

(** The error of an operation on a trie. *)
Definition err_of {A} (r : result TrieErr A) : option WErr := match r with Ok _ => None | Err e => Some (ErrTrie e) end.

Definition setError (err : option WErr) : W unit :=
  modify (fun s => match dbErr s with None => with_err s err | Some _ => s end).

Definition journal_append (e : journalEntry) : W unit := modify (fun s => with_journal s (append e (jrnl s))).

(** The object behind a pointer, and a change of it. *)
Definition object (addr : bytes) : W stateObject := fun s =>
  match stateObjects s !! addr with Some o => (Returns o, s) | None => (Panics, s) end.

Definition setStateObject (o : stateObject) : W unit :=
  modify (fun s => with_objects s (<[so_address o := o]> (stateObjects s))).

Definition change (addr : bytes) (f : stateObject -> stateObject) : W unit :=
  modify (fun s => with_objects s (alter f addr (stateObjects s))).

Definition deref (o : option stateObject) : W stateObject := match o with Some o => mret o | None => panic end.

(** ripemd, the address whose touches survive a revert. *)
Definition ripemd : bytes := replicate 19 x00 ++ [x03].

Section Params.
Context `{C : Crypto} `{K : Keccak} `{TC : TrieCodec} `{R : AccountRlp} `{V : VisitOrder}.

(** [newObject], for the fields of an [Account] whose pointers may be nil. *)
Definition newObject (address : bytes) (nonce : Z) (balance : option Z) (root : bytes) (codeHash : option bytes) : stateObject :=
  mkObject address (keccak256 address)
    (mkAccount nonce (default 0%Z balance) root (default emptyCodeHash codeHash))
    None None None ∅ ∅ false false false.

Definition loaded (address : bytes) (d : Account) : stateObject :=
  newObject address (Nonce d) (Some (Balance d)) (Root d) (Some (CodeHash d)).

(** ** Reading objects *)

Definition getStateObject (addr : bytes) : W (option stateObject) :=
  objects ← gets stateObjects;
  match objects !! addr with
  | Some obj => mret (if so_deleted obj then None else Some obj)
  | None =>
      root ← gets trie;
      enc ← on_table (Trie.Get root addr);
      match enc with
      | Ok (Some ((_ :: _) as enc)) =>
          match rlp_DecodeAccount enc with
          | None => mret None
          | Some data =>
              let obj := loaded addr data in
              _ ← setStateObject obj;
              mret (Some obj)
          end
      | _ => _ ← setError (err_of enc); mret None
      end
  end.

Definition object_empty (o : stateObject) : bool :=
  (Nonce (so_data o) =? 0)%Z && (Balance (so_data o) =? 0)%Z && bool_decide (CodeHash (so_data o) = emptyCodeHash).

(** [getTrie]: a root that is not in the table gives the empty trie and an error. *)
Definition getTrie (addr : bytes) : W (option bytes) :=
  o ← object addr;
  match so_trie o with
  | Some t => mret t
  | None =>
      t ← on_table (Trie.New (Some (Root (so_data o))));
      match t with
      | Ok t => _ ← change addr (fun o => with_trie o t); mret t
      | Err e =>
          _ ← change addr (fun o => object_setError (Some (ErrStorageTrie e)) (with_trie o None));
          mret None
      end
  end.

Definition object_GetCommittedState (addr key : bytes) : W bytes :=
  o ← object addr;
  match so_originStorage o !! key with
  | Some value => mret value
  | None =>
      t ← getTrie addr;
      enc ← on_table (Trie.Get t key);
      match enc with
      | Err e => _ ← change addr (object_setError (Some (ErrTrie e))); mret Crypto.ZeroHash
      | Ok enc =>
          value ← (match enc with
                   | Some ((_ :: _) as enc) =>
                       match rlp_Split enc with
                       | None => _ ← change addr (object_setError (Some ErrRlp)); mret Crypto.ZeroHash
                       | Some content => mret (Crypto.BytesToHash content)
                       end
                   | _ => mret Crypto.ZeroHash
                   end);
          _ ← change addr (fun o => with_origin o (<[key := value]> (so_originStorage o)));
          mret value
      end
  end.

Definition object_GetState (addr key : bytes) : W bytes :=
  o ← object addr;
  match so_dirtyStorage o !! key with
  | Some value => mret value
  | None => object_GetCommittedState addr key
  end.

(** [Code]: the cached code, or the one in the table. *)
Definition object_Code (addr : bytes) : W (option bytes) :=
  o ← object addr;
  match so_code o with
  | Some code => mret (Some code)
  | None =>
      if bool_decide (CodeHash (so_data o) = emptyCodeHash) then mret None
      else
        d ← gets db;
        let code := table d !! CodeHash (so_data o) in
        _ ← (match code with
             | Some (_ :: _) => mret tt
             | _ => change addr (object_setError (Some (ErrCode (CodeHash (so_data o)))))
             end);
        _ ← change addr (fun o => with_code o code);
        mret code
  end.

(** ** The journalled changes of an object *)

Definition object_SetBalance (addr : bytes) (amount : Z) : W unit :=
  o ← object addr;
  _ ← journal_append (balanceChange addr (Balance (so_data o)));
  change addr (setBalance amount).

Definition touch (addr : bytes) : W unit :=
  _ ← journal_append (touchChange addr);
  if bool_decide (addr = ripemd) then modify (fun s => with_journal s (dirty addr (jrnl s))) else mret tt.

Definition object_AddBalance (addr : bytes) (amount : Z) : W unit :=
  o ← object addr;
  if (amount =? 0)%Z then if object_empty o then touch addr else mret tt
  else object_SetBalance addr (Balance (so_data o) + amount).

Definition object_SubBalance (addr : bytes) (amount : Z) : W unit :=
  o ← object addr;
  if (amount =? 0)%Z then mret tt else object_SetBalance addr (Balance (so_data o) - amount).

Definition object_SetNonce (addr : bytes) (nonce : Z) : W unit :=
  o ← object addr;
  _ ← journal_append (nonceChange addr (Nonce (so_data o)));
  change addr (setNonce nonce).

Definition object_SetCode (addr codeHash : bytes) (code : option bytes) : W unit :=
  prevcode ← object_Code addr;
  o ← object addr;
  _ ← journal_append (codeChange addr prevcode (CodeHash (so_data o)));
  change addr (setCode codeHash code).

Definition object_SetState (addr key value : bytes) : W unit :=
  prev ← object_GetState addr key;
  if bool_decide (prev = value) then mret tt
  else
    _ ← journal_append (storageChange addr key prev);
    change addr (setState key value).

(** ** Undoing *)

Definition revert (e : journalEntry) : W unit :=
  match e with
  | createObjectChange a =>
      modify (fun s => with_objectsDirty (with_objects s (delete a (stateObjects s))) (stateObjectsDirty s ∖ {[a]}))
  | resetObjectChange prev => setStateObject prev
  | suicideChange a prev prevbalance =>
      obj ← getStateObject a;
      match obj with
      | None => mret tt
      | Some _ => change a (fun o => setBalance prevbalance (with_suicided o prev))
      end
  | balanceChange a prev => obj ← getStateObject a; _ ← deref obj; change a (setBalance prev)
  | nonceChange a prev => obj ← getStateObject a; _ ← deref obj; change a (setNonce prev)
  | codeChange a prevcode prevhash =>
      obj ← getStateObject a; _ ← deref obj; change a (setCode (Crypto.BytesToHash prevhash) prevcode)
  | storageChange a key prevalue => obj ← getStateObject a; _ ← deref obj; change a (setState key prevalue)
  | refundChange prev => modify (fun s => with_refund s prev)
  | addLogChange txhash => fun s =>
      let l := default [] (logs s !! txhash) in
      let n := u64 (logSize s - 1) in
      if length l =? 0 then (Panics, s)
      else if length l =? 1 then (Returns tt, with_logs s (delete txhash (logs s)) n)
      else (Returns tt, with_logs s (<[txhash := take (length l - 1) l]> (logs s)) n)
  | addPreimageChange hash => modify (fun s => with_preimages s (delete hash (preimages s)))
  | touchChange _ => mret tt
  end.

(** [journal.revert] on the entries to undo, the latest first. *)
Fixpoint revertLoop (es : list journalEntry) : W unit :=
  match es with
  | [] => mret tt
  | e :: es =>
      _ ← revert e;
      _ ← modify (fun s => match dirtied e with
                           | Some addr => with_journal s (mkJournal (entries (jrnl s)) (undirty addr (dirties (jrnl s))))
                           | None => s
                           end);
      revertLoop es
  end.

Definition journal_revert (snapshot : nat) : W unit :=
  j ← gets jrnl;
  _ ← revertLoop (rev (drop snapshot (entries j)));
  if length (entries j) <? snapshot then panic
  else modify (fun s => with_journal s (mkJournal (take snapshot (entries j)) (dirties (jrnl s)))).

(** ** The interface of the virtual machine *)

Definition AddLog (log : Log) : W unit :=
  th ← gets thash;
  _ ← journal_append (addLogChange th);
  modify (fun s =>
    let log := mkLog (log_Address log) (log_Topics log) (log_Data log) (log_BlockNumber log) (thash s) (bhash s) (u32 (txIndex s)) (u32 (logSize s)) in
    with_logs s (<[thash s := default [] (logs s !! thash s) ++ [log]]> (logs s)) (u64 (logSize s + 1))).

Definition GetLogs (hash : bytes) : W (list Log) := gets (fun s => default [] (logs s !! hash)).

(** [Logs]: the logs of all transactions, in the order of the map. *)
Definition Logs : W (list Log) := gets (fun s => concat (visit (logs s)).*2).

Definition AddPreimage (hash preimage : bytes) : W unit :=
  p ← gets preimages;
  match p !! hash with
  | Some _ => mret tt
  | None =>
      _ ← journal_append (addPreimageChange hash);
      modify (fun s => with_preimages s (<[hash := preimage]> (preimages s)))
  end.

Definition AddRefund (gas : Z) : W unit :=
  r ← gets refund;
  _ ← journal_append (refundChange r);
  modify (fun s => with_refund s (u64 (r + gas))).

Definition SubRefund (gas : Z) : W unit :=
  r ← gets refund;
  _ ← journal_append (refundChange r);
  if (r <? gas)%Z then panic else modify (fun s => with_refund s (r - gas)).

Definition Exist (addr : bytes) : W bool :=
  o ← getStateObject addr; mret (bool_decide (is_Some o)).

Definition Empty (addr : bytes) : W bool :=
  o ← getStateObject addr; mret (match o with None => true | Some o => object_empty o end).

Definition GetBalance (addr : bytes) : W Z :=
  o ← getStateObject addr; mret (match o with Some o => Balance (so_data o) | None => 0%Z end).

Definition GetNonce (addr : bytes) : W Z :=
  o ← getStateObject addr; mret (match o with Some o => Nonce (so_data o) | None => 0%Z end).

Definition GetCode (addr : bytes) : W (option bytes) :=
  o ← getStateObject addr;
  match o with Some _ => object_Code addr | None => mret None end.

Definition GetCodeSize (addr : bytes) : W Z :=
  o ← getStateObject addr;
  match o with
  | None => mret 0%Z
  | Some _ => code ← object_Code addr; mret (match code with Some code => Z.of_nat (length code) | None => 0%Z end)
  end.

Definition IsContractAddr (addr : bytes) : W bool := n ← GetCodeSize addr; mret (0 <? n)%Z.

Definition GetCodeHash (addr : bytes) : W bytes :=
  o ← getStateObject addr;
  mret (match o with Some o => Crypto.BytesToHash (CodeHash (so_data o)) | None => Crypto.ZeroHash end).

Definition GetState (addr key : bytes) : W bytes :=
  o ← getStateObject addr;
  match o with Some _ => object_GetState addr key | None => mret Crypto.ZeroHash end.

Definition GetCommittedState (addr key : bytes) : W bytes :=
  o ← getStateObject addr;
  match o with Some _ => object_GetCommittedState addr key | None => mret Crypto.ZeroHash end.

Definition HasSuicided (addr : bytes) : W bool :=
  o ← getStateObject addr; mret (match o with Some o => so_suicided o | None => false end).

(** [createObject]: the account that was there is the answer. *)
Definition createObject (addr : bytes) : W (option stateObject) :=
  prev ← getStateObject addr;
  let newobj := setNonce 0 (newObject addr 0 None Crypto.ZeroHash None) in
  _ ← (match prev with
       | None => journal_append (createObjectChange addr)
       | Some prev => journal_append (resetObjectChange prev)
       end);
  _ ← setStateObject newobj;
  mret prev.

Definition getOrNewStateObject (addr : bytes) : W unit :=
  o ← getStateObject addr;
  match o with
  | Some o => if so_deleted o then _ ← createObject addr; mret tt else mret tt
  | None => _ ← createObject addr; mret tt
  end.

Definition CreateAccount (addr : bytes) : W unit :=
  prev ← createObject addr;
  match prev with
  | Some prev => change addr (setBalance (Balance (so_data prev)))
  | None => mret tt
  end.

Definition AddBalance (addr : bytes) (amount : Z) : W unit := _ ← getOrNewStateObject addr; object_AddBalance addr amount.
Definition SubBalance (addr : bytes) (amount : Z) : W unit := _ ← getOrNewStateObject addr; object_SubBalance addr amount.
Definition SetBalance (addr : bytes) (amount : Z) : W unit := _ ← getOrNewStateObject addr; object_SetBalance addr amount.
Definition SetNonce (addr : bytes) (nonce : Z) : W unit := _ ← getOrNewStateObject addr; object_SetNonce addr nonce.
Definition SetCode (addr : bytes) (code : option bytes) : W unit :=
  _ ← getOrNewStateObject addr; object_SetCode addr (keccak256 (default [] code)) code.
Definition SetState (addr key value : bytes) : W unit := _ ← getOrNewStateObject addr; object_SetState addr key value.

Definition Suicide (addr : bytes) : W bool :=
  o ← getStateObject addr;
  match o with
  | None => mret false
  | Some o =>
      _ ← journal_append (suicideChange addr (so_suicided o) (Balance (so_data o)));
      _ ← change addr (fun o => setBalance 0 (markSuicided o));
      mret true
  end.

(** ** Snapshots *)

Definition Snapshot : W nat :=
  id ← gets nextRevisionID;
  _ ← modify (fun s => with_revisions s (validRevisions s ++ [mkRevision id (length (entries (jrnl s)))]) (S id));
  mret id.

(** [sort.Search]: the first index in [i, j) where [f] holds, by halving; [j] if none. *)
Fixpoint searchLoop (fuel : nat) (f : nat -> bool) (i j : nat) : nat :=
  match fuel with
  | O => i
  | S fuel =>
      if i <? j then
        let h := (i + j) / 2 in
        if negb (f h) then searchLoop fuel f (S h) j else searchLoop fuel f i h
      else i
  end.

Definition sort_Search (n : nat) (f : nat -> bool) : nat := searchLoop n f 0 n.

Definition RevertToSnapshot (revid : nat) : W unit :=
  revs ← gets validRevisions;
  let idx := sort_Search (length revs) (fun i => match revs !! i with Some r => revid <=? r_id r | None => false end) in
  match revs !! idx with
  | None => panic
  | Some r =>
      if negb (r_id r =? revid) then panic
      else
        _ ← journal_revert (r_journalIndex r);
        modify (fun s => with_revisions s (take idx (validRevisions s)) (nextRevisionID s))
  end.

Definition THash : W bytes := gets thash.
Definition GetRefund : W Z := gets refund.

Definition SetError (err : option EvmErr) : W unit := setError (ErrVM <$> err).

Definition Prepare (th bh : bytes) (ti : Z) : W unit := modify (fun s =>
  mkState (db s) (trie s) (utxoTrie s) (stateObjects s) (stateObjectsDirty s) (dbErr s) (refund s) th bh ti (logs s) (logSize s) (preimages s) (jrnl s) (validRevisions s) (nextRevisionID s)).

(** ** Writing to the tries *)

(** The storage of an object, entry by entry. *)
Definition writeSlot (addr key value : bytes) : W unit :=
  _ ← change addr (fun o => with_dirty o (delete key (so_dirtyStorage o)));
  o ← object addr;
  if bool_decide (value = default Crypto.ZeroHash (so_originStorage o !! key)) then mret tt
  else
    _ ← change addr (fun o => with_origin o (<[key := value]> (so_originStorage o)));
    let t := default None (so_trie o) in
    r ← on_table (if bool_decide (value = Crypto.ZeroHash) then Trie.Delete t key
                  else Trie.Update t key (rlp_EncodeBytes (trimLeft value)));
    change addr (fun o => object_setError (err_of r) (match r with Ok t => with_trie o t | Err _ => o end)).

Fixpoint writeSlots (addr : bytes) (kvs : list (bytes * bytes)) : W unit :=
  match kvs with
  | [] => mret tt
  | (key, value) :: kvs => _ ← writeSlot addr key value; writeSlots addr kvs
  end.

Definition updateTrie (addr : bytes) : W (option bytes) :=
  _ ← getTrie addr;
  o ← object addr;
  _ ← writeSlots addr (visit (so_dirtyStorage o));
  o ← object addr;
  mret (default None (so_trie o)).

Definition updateRoot (addr : bytes) : W unit :=
  t ← updateTrie addr;
  change addr (setRoot (Trie.Hash t)).

Definition CommitTrie (addr : bytes) : W (result WErr (option bytes)) :=
  t ← updateTrie addr;
  o ← object addr;
  mret (match so_dbErr o with Some e => Err e | None => Ok t end).

(** The trie of accounts; on an error its root stays. *)
Definition updateTrieOf (key value : bytes) : W unit :=
  root ← gets trie;
  r ← on_table (Trie.Update root key value);
  _ ← (match r with Ok root => modify (fun s => with_root s root) | Err _ => mret tt end);
  setError (err_of r).

Definition updateStateObject (addr : bytes) : W unit :=
  o ← object addr;
  match rlp_EncodeAccount (so_data o) with
  | None => panic
  | Some data => updateTrieOf addr data
  end.

Definition deleteStateObject (addr : bytes) : W unit :=
  _ ← change addr (fun o => with_deleted o true);
  updateTrieOf addr [].

Definition clearJournalAndRefund : W unit :=
  modify (fun s => with_refund (with_revisions (with_journal s newJournal) [] (nextRevisionID s)) 0).

(** The body of the loop over the dirty addresses. *)
Definition finaliseObject (deleteEmptyObjects : bool) (addr : bytes) : W unit :=
  objects ← gets stateObjects;
  match objects !! addr with
  | None => mret tt
  | Some o =>
      _ ← (if so_suicided o || deleteEmptyObjects && object_empty o then deleteStateObject addr
           else _ ← updateRoot addr; updateStateObject addr);
      modify (fun s => with_objectsDirty s ({[addr]} ∪ stateObjectsDirty s))
  end.

Fixpoint finaliseLoop (deleteEmptyObjects : bool) (addrs : list bytes) : W unit :=
  match addrs with
  | [] => mret tt
  | addr :: addrs => _ ← finaliseObject deleteEmptyObjects addr; finaliseLoop deleteEmptyObjects addrs
  end.

Definition finalise (deleteEmptyObjects : bool) : W unit :=
  j ← gets jrnl;
  _ ← finaliseLoop deleteEmptyObjects (visit (dirties j)).*1;
  clearJournalAndRefund.

Definition IntermediateRoot (deleteEmptyObjects : bool) : W bytes :=
  _ ← finalise deleteEmptyObjects;
  gets (fun s => Trie.Hash (trie s)).

(** The code of an object goes to the table. *)
Definition writeCode (addr : bytes) : W unit :=
  o ← object addr;
  match so_code o with
  | Some code =>
      if so_dirtyCode o then
        _ ← on_table (Trie.put (CodeHash (so_data o)) code);
        change addr (fun o => with_dirtyCode o false)
      else mret tt
  | None => mret tt
  end.

(** The body of the loop of [Commit] over the live objects, up to the final [delete]. *)
Definition commitObject (deleteEmptyObjects : bool) (addr : bytes) : W (result WErr unit) :=
  o ← object addr;
  dirtyAddrs ← gets stateObjectsDirty;
  let isDirty := bool_decide (addr ∈ dirtyAddrs) in
  if so_suicided o || isDirty && deleteEmptyObjects && object_empty o
  then _ ← deleteStateObject addr; mret (Ok tt)
  else if isDirty then
    _ ← writeCode addr;
    t ← CommitTrie addr;
    match t with
    | Err e => mret (Err e)
    | Ok _ => _ ← updateStateObject addr; mret (Ok tt)
    end
  else mret (Ok tt).

Fixpoint commitLoop (deleteEmptyObjects : bool) (addrs : list bytes) : W (result WErr unit) :=
  match addrs with
  | [] => mret (Ok tt)
  | addr :: addrs =>
      r ← commitObject deleteEmptyObjects addr;
      match r with
      | Err e => mret (Err e)
      | Ok _ =>
          _ ← modify (fun s => with_objectsDirty s (stateObjectsDirty s ∖ {[addr]}));
          commitLoop deleteEmptyObjects addrs
      end
  end.

Definition Commit (deleteEmptyObjects : bool) : W (result WErr (option bytes * option bytes)) :=
  _ ← finalise deleteEmptyObjects;
  _ ← modify (fun s => with_objectsDirty s (dom (dirties (jrnl s)) ∪ stateObjectsDirty s));
  objects ← gets stateObjects;
  r ← commitLoop deleteEmptyObjects (visit objects).*1;
  roots ← gets (fun s => (trie s, utxoTrie s));
  _ ← clearJournalAndRefund;
  mret (match r with Err e => Err e | Ok _ => Ok roots end).

(** ** Opening, resetting and copying *)

(** [New] on the table [d]. *)
Definition New (rootHash utxoRootHash : option bytes) (d : TrieDb) : go (result WErr WState) :=
  match Trie.New rootHash d with
  | (ROk tr, d) =>
      match Trie.New utxoRootHash d with
      | (ROk utr, d) =>
          Returns (Ok (mkState d tr utr ∅ ∅ None 0 Crypto.ZeroHash Crypto.ZeroHash 0 ∅ 0 ∅ newJournal [] 0))
      | (RErr e, _) => Returns (Err (ErrTrie e))
      | _ => Panics
      end
  | (RErr e, _) => Returns (Err (ErrTrie e))
  | _ => Panics
  end.

Definition Reset : W (result WErr unit) :=
  root ← gets trie;
  tr ← on_table (Trie.New (Some (Trie.Hash root)));
  match tr with
  | Err e => mret (Err (ErrTrie e))
  | Ok tr =>
      _ ← modify (fun s => with_root s tr);
      utxoRoot ← gets utxoTrie;
      utr ← on_table (Trie.New (Some (Trie.Hash utxoRoot)));
      match utr with
      | Err e => mret (Err (ErrTrie e))
      | Ok utr =>
          _ ← modify (fun s => mkState (db s) (trie s) utr ∅ ∅ (dbErr s) (refund s) Crypto.ZeroHash Crypto.ZeroHash 0 ∅ 0 ∅
                                 (jrnl s) (validRevisions s) (nextRevisionID s));
          _ ← clearJournalAndRefund;
          mret (Ok tt)
      end
  end.

(** [deepCopy] into a state whose trie of accounts is [tr]. *)
Definition deepCopy (tr : option bytes) (o : stateObject) : stateObject :=
  let d := so_data o in
  mkObject (so_address o) (keccak256 (so_address o)) d None
    (match so_trie o with Some _ => Some tr | None => None end)
    (so_code o) (so_originStorage o) (so_dirtyStorage o) (so_dirtyCode o) (so_suicided o) (so_deleted o).

(** The objects [Copy] takes: the live ones of the journal and the dirty ones.  A dirty
    address without an object panics, on the nil pointer. *)
Definition copiedObjects (s : WState) : gmap bytes stateObject :=
  filter (fun p => p.1 ∈ dom (dirties (jrnl s)) ∪ stateObjectsDirty s) (stateObjects s).

Definition Copy (s : WState) : go WState :=
  if bool_decide (stateObjectsDirty s ⊆ dom (stateObjects s)) then
    let objects := deepCopy (trie s) <$> copiedObjects s in
    Returns (mkState (db s) (trie s) (utxoTrie s) objects (dom objects) None (refund s)
      Crypto.ZeroHash Crypto.ZeroHash 0 (logs s) (logSize s) (preimages s) newJournal [] 0)
  else Panics.

(** The storage trie a copy of the object has after writing; the copy is not a live object. *)
Definition copiedTrie (addr : bytes) (o : stateObject) : W (option bytes) := fun s =>
  match updateTrie addr (with_objects s (<[addr := deepCopy (trie s) o]> (stateObjects s))) with
  | (r, s') => (r, with_db s (db s'))
  end.

Definition StorageTrie (addr : bytes) : W (option (option bytes)) :=
  o ← getStateObject addr;
  match o with
  | None => mret None
  | Some o => t ← copiedTrie addr o; mret (Some t)
  end.

Definition GetUtxo (addr : bytes) : W (result TrieErr (option bytes)) :=
  root ← gets utxoTrie; on_table (Trie.Get root addr).

Definition UpdateUtxo (addr utxoBytes : bytes) : W (option WErr) :=
  root ← gets utxoTrie;
  r ← on_table (Trie.Update root addr utxoBytes);
  _ ← (match r with Ok root => modify (fun s => with_utxoRoot s root) | Err _ => mret tt end);
  mret (err_of r).

Definition RootHash : W (option bytes) := gets trie.
Definition UtxoRoot : W (option bytes) := gets utxoTrie.

End Params.
End WorldState.
