(* ===== verification/WorldFacts.v ===== *)
(** * WorldFacts: what the world state holds, and how the journal undoes changes

    [wobs] is the observation of a world state in the sense of EvmState.v.  [undo] is the effect
    of undoing a journal entry on observations; [steps s s' N] says that a method went from [s]
    to [s'], leaving the entries [N] that undo what it did. *)

From Stdlib Require Import FunctionalExtensionality.
From S2P Require Import Prelude Crypto EvmState Trie TrieFacts TrieMap TrieRoot WorldState.
Import WorldState.

Section World.
Context `{C : Crypto} `{K : Keccak} {TC : TrieCodec} {TCL : TrieCodecLaws TC} {R : AccountRlp} {RL : AccountRlpLaws R}.

(** ** Observations *)

(** The value of a storage slot from its entry in the trie. *)
Definition slot_value (enc : option bytes) : bytes :=
  match enc with
  | Some ((_ :: _) as enc) => match rlp_Split enc with Some content => Crypto.BytesToHash content | None => Crypto.ZeroHash end
  | _ => Crypto.ZeroHash
  end.

Definition stored (d : TrieDb) (root : option bytes) (k : bytes) : bytes :=
  if length k =? 32 then match (Trie.Get root k d).1 with ROk enc => slot_value enc | _ => Crypto.ZeroHash end
  else Crypto.ZeroHash.

(** The storage trie of an object, opened or not. *)
Definition handle (d : TrieDb) (o : stateObject) : option bytes :=
  match so_trie o with
  | Some t => t
  | None => match (Trie.New (Some (Root (so_data o))) d).1 with ROk t => t | _ => None end
  end.

Definition committed (d : TrieDb) (o : stateObject) (k : bytes) : bytes :=
  default (stored d (handle d o) k) (so_originStorage o !! k).

Definition slot (d : TrieDb) (o : stateObject) (k : bytes) : bytes :=
  default (committed d o k) (so_dirtyStorage o !! k).

Definition code_of (d : TrieDb) (hash : bytes) (code : option bytes) : bytes :=
  match code with
  | Some c => c
  | None => if bool_decide (hash = emptyCodeHash) then [] else default [] (table d !! hash)
  end.

Definition abs (d : TrieDb) (o : stateObject) : Acct :=
  mkAcct (Nonce (so_data o)) (Balance (so_data o)) (CodeHash (so_data o))
    (code_of d (CodeHash (so_data o)) (so_code o)) (slot d o) (so_suicided o).

(** The account an address has in the trie. *)
Definition account (d : TrieDb) (root : option bytes) (a : bytes) : option Account :=
  if length a =? 20 then
    match (Trie.Get root a d).1 with
    | ROk (Some ((_ :: _) as enc)) => rlp_DecodeAccount enc
    | _ => None
    end
  else None.

Definition account_at (s : WState) (a : bytes) : option Acct :=
  match stateObjects s !! a with
  | Some o => if so_deleted o then None else Some (abs (db s) o)
  | None => match account (db s) (trie s) a with Some x => Some (abs (db s) (loaded a x)) | None => None end
  end.

Definition wobs (s : WState) : Obs :=
  mkObs (account_at s) (refund s) (fun h => default [] (logs s !! h)) (logSize s) (thash s, bhash s, txIndex s).

Lemma obs_eq o o' : (forall a, o_acct o a = o_acct o' a) -> o_refund o = o_refund o' ->
  (forall h, o_logs o h = o_logs o' h) -> o_logSize o = o_logSize o' -> o_tx o = o_tx o' -> o = o'.
Proof.
  destruct o, o'. cbn. intros H1 -> H2 -> ->. f_equal; by apply functional_extensionality.
Qed.

Lemma acct_eq c c' : a_nonce c = a_nonce c' -> a_balance c = a_balance c' -> a_codeHash c = a_codeHash c' ->
  a_code c = a_code c' -> (forall k, a_storage c k = a_storage c' k) -> a_suicided c = a_suicided c' -> c = c'.
Proof. destruct c, c'. cbn. intros -> -> -> -> H ->. f_equal. by apply functional_extensionality. Qed.

(** ** Good objects *)

(** A storage trie holds the encodings of values other than zero. *)
Definition storage_map (m : gmap bytes bytes) : Prop :=
  forall k e, m !! k = Some e -> length k = 32 /\
    exists v, length v = 32 /\ v <> Crypto.ZeroHash /\ e = rlp_EncodeBytes (trimLeft v).

Record obj_ok (d : TrieDb) (o : stateObject) : Prop := mk_obj_ok {
  ok_code : CodeHash (so_data o) = keccak256 (code_of d (CodeHash (so_data o)) (so_code o));
  ok_written c : so_code o = Some c -> so_dirtyCode o = false ->
    CodeHash (so_data o) = emptyCodeHash \/ table d !! CodeHash (so_data o) = Some c;
  ok_rootlen : length (Root (so_data o)) = 32;
  ok_root : so_trie o = None -> (Trie.New (Some (Root (so_data o))) d).1 = ROk (handle d o);
  ok_synced : Root (so_data o) = Trie.Hash (handle d o);
  ok_trie : exists m, contents d (handle d o) 32 m /\ storage_map m;
  ok_origin k v : so_originStorage o !! k = Some v -> length k = 32 /\ v = stored d (handle d o) k;
  ok_dirty k v : so_dirtyStorage o !! k = Some v -> length v = 32 /\ is_Some (so_originStorage o !! k);
  ok_err : so_dbErr o = None
}.

Lemma ok_hash_length d o : obj_ok d o -> length (CodeHash (so_data o)) = 32.
Proof. intros H. rewrite (ok_code _ _ H). apply keccak256_length. Qed.

Lemma New_hash root d t : Trie.New (Some root) d = (ROk t, d) -> root = Trie.Hash t.
Proof.
  unfold Trie.New. case_bool_decide; [by intros [= <-]|]. destruct (table d !! root); [|done]. by intros [= <-].
Qed.

(** ** Undoing on observations *)

Definition set_acct_opt (a : bytes) (c : option Acct) (o : Obs) : Obs :=
  mkObs (fupd (o_acct o) a c) (o_refund o) (o_logs o) (o_logSize o) (o_tx o).

Definition upd_acct (a : bytes) (f : Acct -> Acct) (o : Obs) : Obs := set_acct_opt a (f <$> o_acct o a) o.

Definition undo (d : TrieDb) (e : journalEntry) (o : Obs) : Obs :=
  match e with
  | createObjectChange a => set_acct_opt a None o
  | resetObjectChange p => set_acct_opt (so_address p) (Some (abs d p)) o
  | suicideChange a b v => upd_acct a (fun c => mkAcct (a_nonce c) v (a_codeHash c) (a_code c) (a_storage c) b) o
  | balanceChange a v => upd_acct a (set_balance v) o
  | nonceChange a v => upd_acct a (set_nonce v) o
  | storageChange a k v => upd_acct a (set_storage k v) o
  | codeChange a c h => upd_acct a (fun x => mkAcct (a_nonce x) (a_balance x) h (default [] c) (a_storage x) (a_suicided x)) o
  | refundChange v => set_refund v o
  | addLogChange th => mkObs (o_acct o) (o_refund o) (fupd (o_logs o) th (take (length (o_logs o th) - 1) (o_logs o th))) (u64 (o_logSize o - 1)) (o_tx o)
  | addPreimageChange _ | touchChange _ => o
  end.

(** What an entry, the latest of a journal, says about the state it was left in. *)
Definition entry_ok (d : TrieDb) (root : option bytes) (e : journalEntry) (o : Obs) : Prop :=
  match e with
  | createObjectChange a => length a = 20 /\ account d root a = None /\ is_Some (o_acct o a)
  | resetObjectChange p => length (so_address p) = 20 /\ obj_ok d p /\ so_deleted p = false /\ exists c, o_acct o (so_address p) = Some c /\ a_suicided c = false
  | suicideChange a _ _ | balanceChange a _ | nonceChange a _ => length a = 20 /\ is_Some (o_acct o a)
  | storageChange a k v => length a = 20 /\ is_Some (o_acct o a) /\ length v = 32
  | codeChange a c h => length a = 20 /\ is_Some (o_acct o a) /\ h = keccak256 (default [] c)
  | addLogChange th => o_logs o th <> []
  | refundChange _ | addPreimageChange _ | touchChange _ => True
  end.

(** Journals, the latest entry first. *)
Fixpoint undo_all (d : TrieDb) (es : list journalEntry) (o : Obs) : Obs :=
  match es with [] => o | e :: es => undo_all d es (undo d e o) end.

Fixpoint valid (d : TrieDb) (root : option bytes) (es : list journalEntry) (o : Obs) : Prop :=
  match es with [] => True | e :: es => entry_ok d root e o /\ valid d root es (undo d e o) end.

(** The slots of an object that have been read; undoing a change of a slot needs it read. *)
Definition cached (objs : gmap bytes stateObject) (a : bytes) : gset bytes :=
  match objs !! a with Some o => if so_deleted o then ∅ else dom (so_originStorage o) | None => ∅ end.

Fixpoint cached_ok (es : list journalEntry) (g : bytes -> gset bytes) : Prop :=
  match es with
  | [] => True
  | storageChange a k _ :: es => k ∈ g a /\ cached_ok es g
  | createObjectChange a :: es => cached_ok es (fupd g a ∅)
  | resetObjectChange p :: es => cached_ok es (fupd g (so_address p) (dom (so_originStorage p)))
  | _ :: es => cached_ok es g
  end.

Lemma undo_all_app d es es' o : undo_all d (es ++ es') o = undo_all d es' (undo_all d es o).
Proof. revert o. induction es; intros o; cbn; auto. Qed.

Lemma valid_app d r es es' o : valid d r (es ++ es') o <-> valid d r es o /\ valid d r es' (undo_all d es o).
Proof. revert o. induction es as [|e es IH]; intros o; cbn; [tauto|]. rewrite IH. tauto. Qed.

Lemma cached_ok_mono es g g' : (forall a, g a ⊆ g' a) -> cached_ok es g -> cached_ok es g'.
Proof.
  revert g g'. induction es as [|e es IH]; intros g g' H; [done|].
  destruct e; cbn; eauto.
  - apply IH. intros b. unfold fupd. by case_decide.
  - apply IH. intros b. unfold fupd. by case_decide.
  - intros [H1 H2]. split; [set_solver|eauto].
Qed.

(** The journal counts the entries about each address. *)
Definition counted (es : list journalEntry) (m : gmap bytes Z) : Prop :=
  forall a, (Z.of_nat (length (filter (fun e => dirtied e = Some a) es)) <= default 0 (m !! a))%Z.

(** ** Good states *)

(** A stored account: its storage trie is in the table. *)
Definition tries_ok (d : TrieDb) (x : Account) : Prop :=
  length (Root x) = 32 /\ exists t m, Trie.New (Some (Root x)) d = (ROk t, d) /\ contents d t 32 m /\ storage_map m.

(** Its code is, too. *)
Definition code_ok (d : TrieDb) (x : Account) : Prop := CodeHash x = keccak256 (code_of d (CodeHash x) None).

Record core (s : WState) : Prop := mk_core {
  core_trie : exists m, contents (db s) (trie s) 20 m;
  core_tries a x : account (db s) (trie s) a = Some x -> tries_ok (db s) x;
  core_codes a x : account (db s) (trie s) a = Some x -> stateObjects s !! a = None -> code_ok (db s) x;
  core_objs a o : stateObjects s !! a = Some o -> so_address o = a /\ length a = 20 /\ obj_ok (db s) o /\
    (so_deleted o = true -> so_suicided o = true /\ account (db s) (trie s) a = None);
  core_logs : (0 <= logSize s < 2 ^ 64)%Z;
  core_marked a n : dirties (jrnl s) !! a = Some n ->
    match stateObjects s !! a with Some o => so_deleted o = false | None => account (db s) (trie s) a = None end;
  core_utxo : exists m, contents (db s) (utxoTrie s) 20 m
}.

Record steps (s s' : WState) (N : list journalEntry) : Prop := mk_steps {
  st_core : core s';
  st_db : db s' = db s;
  st_trie : trie s' = trie s;
  st_revs : validRevisions s' = validRevisions s;
  st_next : nextRevisionID s' = nextRevisionID s;
  st_entries : entries (jrnl s') = entries (jrnl s) ++ N;
  st_objsDirty : stateObjectsDirty s' = stateObjectsDirty s;
  st_counted : counted (entries (jrnl s)) (dirties (jrnl s)) -> counted (entries (jrnl s')) (dirties (jrnl s'));
  st_undo : undo_all (db s) (rev N) (wobs s') = wobs s;
  st_valid : valid (db s) (trie s) (rev N) (wobs s');
  st_cached es : cached_ok es (cached (stateObjects s)) -> cached_ok (rev N ++ es) (cached (stateObjects s'))
}.

Lemma steps_refl s : core s -> steps s s [].
Proof. intros H. split; try done. by rewrite app_nil_r. Qed.

Lemma steps_trans s s' s'' N N' : steps s s' N -> steps s' s'' N' -> steps s s'' (N ++ N').
Proof.
  intros H1 H2. destruct H1 as [A1 A2 A3 A4 A5 A6 D1 D2 A7 A8 A9], H2 as [B1 B2 B3 B4 B5 B6 D3 D4 B7 B8 B9].
  split; try congruence; auto.
  - rewrite B6, A6. by rewrite <- app_assoc.
  - rewrite rev_app_distr, undo_all_app, <- A2, B7. by rewrite A2.
  - rewrite rev_app_distr, valid_app. rewrite A2, A3 in B8. rewrite A2 in B7. split; [done|]. by rewrite B7.
  - intros es H. rewrite rev_app_distr, <- app_assoc. auto.
Qed.

(** A step that only reads, loads or caches. *)
Definition reads (s s' : WState) : Prop := steps s s' [] /\ wobs s' = wobs s /\ jrnl s' = jrnl s.

Lemma reads_intro s s' : core s' -> db s' = db s -> trie s' = trie s -> validRevisions s' = validRevisions s ->
  nextRevisionID s' = nextRevisionID s -> jrnl s' = jrnl s -> stateObjectsDirty s' = stateObjectsDirty s -> wobs s' = wobs s ->
  (forall a, cached (stateObjects s) a ⊆ cached (stateObjects s') a) -> reads s s'.
Proof.
  intros H1 H2 H3 H4 H5 H6 H7 H8 H9. split; [|done]. split; try done; [by rewrite H6, app_nil_r|by rewrite H6|].
  intros es. by apply cached_ok_mono.
Qed.

Lemma reads_refl s : core s -> reads s s.
Proof. intros. split; [by apply steps_refl|done]. Qed.

Lemma reads_trans s s' s'' : reads s s' -> reads s' s'' -> reads s s''.
Proof. intros (H1 & H2 & H3) (H1' & H2' & H3'). split; [by apply (steps_trans _ _ _ _ _ H1 H1')|split; congruence]. Qed.

Lemma reads_core s s' : reads s s' -> core s'.
Proof. intros [H _]. apply H. Qed.

(** The one address a change is about. *)
Lemma wobs_objects s a o : so_deleted o = false ->
  wobs (with_objects s (<[a := o]> (stateObjects s))) = set_acct_opt a (Some (abs (db s) o)) (wobs s).
Proof.
  intros Hd. apply obs_eq; try done. intros b. cbn. unfold account_at, fupd. cbn. case_decide as Hb.
  - subst b. by rewrite lookup_insert_eq, Hd.
  - by rewrite lookup_insert_ne.
Qed.

Lemma set_acct_opt_same a c o : o_acct o a = c -> set_acct_opt a c o = o.
Proof. intros H. apply obs_eq; try done. intros b. cbn. unfold fupd. case_decide; congruence. Qed.

Lemma set_acct_opt_twice a c c' o : set_acct_opt a c (set_acct_opt a c' o) = set_acct_opt a c o.
Proof. apply obs_eq; try done. intros b. cbn. unfold fupd. by case_decide. Qed.

Lemma core_insert s a o : core s -> length a = 20 -> so_address o = a -> obj_ok (db s) o -> so_deleted o = false ->
  core (with_objects s (<[a := o]> (stateObjects s))).
Proof.
  intros [H1 H2 H3 H4 H5 H6 H7] Ha Ho Hok Hd. split; try done; cbn.
  - intros b x Hx. rewrite lookup_insert. case_decide; [done|]. by apply H3.
  - intros b o'. rewrite lookup_insert. case_decide as Hb; [|by apply H4].
    intros [= <-]. subst b. split_and!; try done; congruence.
  - intros b n Hn. rewrite lookup_insert. case_decide; [done|]. by apply (H6 b n).
Qed.

(** ** Reading *)

#[local] Arguments setError _ _ : simpl never.
#[local] Arguments change _ _ _ : simpl never.
#[local] Arguments object _ _ : simpl never.

Definition live (s : WState) (a : bytes) (o : stateObject) : Prop := stateObjects s !! a = Some o /\ so_deleted o = false.

Lemma live_ok s a o : core s -> live s a o -> so_address o = a /\ length a = 20 /\ obj_ok (db s) o.
Proof. intros Hc [Ho _]. by destruct (core_objs _ Hc _ _ Ho) as (H1 & H2 & H3 & _). Qed.

Lemma live_obs s a o : live s a o -> o_acct (wobs s) a = Some (abs (db s) o).
Proof. intros [Ho Hd]. cbn. unfold account_at. by rewrite Ho, Hd. Qed.

Lemma alter_live s a o f : live s a o -> alter f a (stateObjects s) = <[a := f o]> (stateObjects s).
Proof.
  intros [Ho _]. apply map_eq. intros b. rewrite lookup_alter, lookup_insert. case_decide; [|done]. subst. by rewrite Ho.
Qed.

Lemma cached_live s a o : live s a o -> cached (stateObjects s) a = dom (so_originStorage o).
Proof. intros [Ho Hd]. unfold cached. by rewrite Ho, Hd. Qed.

Lemma live_insert s a o : so_deleted o = false -> live (with_objects s (<[a := o]> (stateObjects s))) a o.
Proof. intros Hd. split; [|done]. cbn. by rewrite lookup_insert_eq. Qed.

Lemma cached_insert objs a o b : so_deleted o = false ->
  cached (<[a := o]> objs) b = fupd (cached objs) a (dom (so_originStorage o)) b.
Proof. intros Hd. unfold cached, fupd. rewrite lookup_insert. case_decide as H; [subst; rewrite decide_True by done; by rewrite Hd|by rewrite decide_False by done]. Qed.

(** Caching in an object. *)
Lemma cache_reads s a o o' : core s -> live s a o -> so_address o' = a -> so_deleted o' = false -> obj_ok (db s) o' ->
  abs (db s) o' = abs (db s) o -> dom (so_originStorage o) ⊆ dom (so_originStorage o') ->
  reads s (with_objects s (<[a := o']> (stateObjects s))).
Proof.
  intros Hc Hl Ha Hd Hok Habs Hdom. destruct (live_ok _ _ _ Hc Hl) as (_ & Hlen & _).
  apply reads_intro; try done; [by apply core_insert| |].
  - rewrite wobs_objects, Habs by done. apply set_acct_opt_same. by apply live_obs.
  - intros b. cbn. rewrite cached_insert by done. unfold fupd. case_decide; [subst b|done]. by rewrite (cached_live _ _ _ Hl).
Qed.

Lemma setError_reads s e : core s -> exists s', setError e s = (Returns tt, s') /\ reads s s'.
Proof.
  intros Hc. eexists. split; [done|]. destruct (dbErr s); [by apply reads_refl|].
  apply reads_intro; try done. destruct Hc. by split.
Qed.

Lemma loaded_ok d a x : tries_ok d x -> code_ok d x -> obj_ok d (loaded a x).
Proof.
  intros (Hl & t & m & Ht & Hm & Hs) Hc. assert (handle d (loaded a x) = t) as Eh by (unfold handle; cbn; by rewrite Ht).
  split; rewrite ?Eh; try done.
  - intros _. cbn. by rewrite Ht.
  - exact (New_hash _ _ _ Ht).
  - by exists m.
Qed.

Lemma getStateObject_ok s a : core s -> length a = 20 -> exists r s', getStateObject a s = (Returns r, s') /\ reads s s' /\
  match r with
  | None => o_acct (wobs s) a = None /\ account (db s) (trie s) a = None /\ cached (stateObjects s) a = ∅
  | Some o => live s' a o
  end.
Proof.
  intros Hc Ha. unfold getStateObject, mbind, W_bind, gets. cbn -[Trie.Get]. unfold account_at, cached.
  destruct (stateObjects s !! a) as [o|] eqn:Eo.
  { destruct (so_deleted o) eqn:Ed; eexists _, s; (split; [done|split; [by apply reads_refl|]]); [|done].
    split_and!; try done. by destruct (core_objs _ Hc _ _ Eo) as (_ & _ & _ & [_ ?]). }
  destruct (core_trie _ Hc) as [m Hm]. pose proof (Get_contents _ _ _ _ _ Hm Ha) as EG.
  unfold on_table. rewrite EG. cbn. unfold account. rewrite EG, Ha. cbn.
  assert (with_db s (db s) = s) as Es by (by destruct s). rewrite Es.
  assert (forall e, exists s', setError e s = (Returns tt, s') /\ reads s s') as Herr by (intros; by apply setError_reads).
  destruct (m !! a) as [[|x enc]|] eqn:Em; [|destruct (rlp_DecodeAccount (x :: enc)) as [dt|] eqn:Edec|].
  - destruct (Herr None) as (s' & E1 & E2). eexists _, s'. split; [by rewrite E1|done].
  - eexists _, _. split; [done|]. unfold live. cbn. rewrite lookup_insert_eq. split; [|done].
    assert (account (db s) (trie s) a = Some dt) as Eacc by (unfold account; by rewrite EG, Ha).
    apply reads_intro; try done.
    + apply core_insert; try done. apply loaded_ok; [by apply (core_tries _ Hc a)|by apply (core_codes _ Hc a)].
    + rewrite wobs_objects by done. apply set_acct_opt_same. cbn. unfold account_at. by rewrite Eo, Eacc.
    + intros b. cbn. rewrite cached_insert by done. unfold fupd. case_decide; [subst b|done]. unfold cached. by rewrite Eo.
  - eexists _, s. split; [done|]. split; [by apply reads_refl|done].
  - destruct (Herr None) as (s' & E1 & E2). eexists _, s'. split; [by rewrite E1|done].
Qed.

(** Steps of a computation. *)
Lemma W_bind_eq {A B} (c : W A) (k : A -> W B) s a s' : c s = (Returns a, s') -> (c ≫= k) s = k a s'.
Proof. intros E. unfold mbind, W_bind. by rewrite E. Qed.

Lemma object_live s a o : live s a o -> object a s = (Returns o, s).
Proof. intros [Ho _]. unfold object. by rewrite Ho. Qed.

Lemma change_live s a o f : live s a o -> change a f s = (Returns tt, with_objects s (<[a := f o]> (stateObjects s))).
Proof. intros Hl. unfold change, modify. by rewrite (alter_live _ _ _ _ Hl). Qed.

Lemma with_trie_same o t : so_trie o = Some t -> with_trie o t = o.
Proof. destruct o. cbn. by intros ->. Qed.

Lemma New_db root d : (Trie.New root d).2 = d.
Proof. unfold Trie.New. by repeat case_match. Qed.

Lemma with_objects_same s a o : live s a o -> with_objects s (<[a := o]> (stateObjects s)) = s.
Proof. intros [Ho _]. rewrite insert_id by done. by destruct s. Qed.

Lemma handle_with_trie d o : handle d (with_trie o (handle d o)) = handle d o.
Proof. done. Qed.

Lemma slot_with_trie d o k : slot d (with_trie o (handle d o)) k = slot d o k.
Proof. done. Qed.

Lemma obj_ok_with_trie d o : obj_ok d o -> obj_ok d (with_trie o (handle d o)).
Proof. intros [H1 H2 H3 H4 H5 H6 H7 H8 H9]. by split. Qed.

Lemma getTrie_run s a o : live s a o -> obj_ok (db s) o ->
  getTrie a s = (Returns (handle (db s) o), with_objects s (<[a := with_trie o (handle (db s) o)]> (stateObjects s))).
Proof.
  intros Hl Hok. unfold getTrie. rewrite (W_bind_eq _ _ _ _ _ (object_live _ _ _ Hl)). destruct (so_trie o) as [t|] eqn:Et.
  { assert (handle (db s) o = t) as -> by (unfold handle; by rewrite Et). rewrite with_trie_same by done. by rewrite with_objects_same. }
  pose proof (ok_root _ _ Hok Et) as Er. pose proof (New_db (Some (Root (so_data o))) (db s)) as Ed.
  unfold on_table, mbind, W_bind. destruct (Trie.New _ (db s)) as [r d]. cbn in Er, Ed. subst r d.
  assert (with_db s (db s) = s) as -> by (by destruct s). cbn. by rewrite (change_live _ _ _ _ Hl).
Qed.

Lemma getTrie_ok s a o : core s -> live s a o -> exists s', getTrie a s = (Returns (handle (db s) o), s') /\ reads s s' /\
  live s' a (with_trie o (handle (db s) o)).
Proof.
  intros Hc Hl. destruct (live_ok _ _ _ Hc Hl) as (Ha & Hlen & Hok). eexists. split; [by apply getTrie_run|].
  split; [|by apply live_insert, Hl]. apply (cache_reads s a o); try done; [apply Hl|by apply obj_ok_with_trie].
Qed.

(** What a read of the storage trie finds. *)
Lemma Get_storage s o k : obj_ok (db s) o -> length k = 32 -> exists enc,
  Trie.Get (handle (db s) o) k (db s) = (ROk enc, db s) /\ slot_value enc = stored (db s) (handle (db s) o) k /\
  forall e, enc = Some e -> e <> [] /\ is_Some (rlp_Split e).
Proof.
  intros Hok Hk. destruct (ok_trie _ _ Hok) as (m & Hm & Hsm). pose proof (Get_contents _ _ _ _ _ Hm Hk) as E.
  exists (m !! k). split; [done|]. split; [unfold stored; by rewrite E, Hk|]. intros e He.
  destruct (Hsm _ _ He) as (_ & v & _ & _ & ->). split; [apply rlp_bytes_nonempty|]. rewrite rlp_bytes_roundtrip. eauto.
Qed.

(** The slot [k] is in the cache. *)
Definition with_slot (d : TrieDb) (o : stateObject) (k : bytes) : stateObject :=
  with_origin (with_trie o (handle d o)) (<[k := committed d o k]> (so_originStorage o)).

Lemma slot_value_length enc : length (slot_value enc) = 32.
Proof.
  unfold slot_value. destruct enc as [[|]|]; try done. destruct (rlp_Split _); [|done]. apply Crypto.length_BytesToHash.
Qed.

Lemma stored_length d t k : length (stored d t k) = 32.
Proof. unfold stored. destruct (_ =? _); [|done]. destruct ((Trie.Get t k d).1); try done. apply slot_value_length. Qed.

Lemma committed_stored d o k : obj_ok d o -> committed d o k = stored d (handle d o) k.
Proof.
  intros Hok. unfold committed. destruct (so_originStorage o !! k) as [v|] eqn:E; [|done]. cbn. by apply (ok_origin _ _ Hok) in E as [_ ->].
Qed.

Lemma slot_length d o k : obj_ok d o -> length (slot d o k) = 32.
Proof.
  intros Hok. unfold slot. destruct (so_dirtyStorage o !! k) as [v|] eqn:E; cbn; [by apply (ok_dirty _ _ Hok) in E as [? _]|].
  rewrite committed_stored by done. apply stored_length.
Qed.

Lemma obj_ok_with_slot d o k : obj_ok d o -> length k = 32 -> obj_ok d (with_slot d o k).
Proof.
  intros Hok Hk. pose proof (committed_stored d o k Hok) as Ec. destruct Hok as [H1 H2 H3 H4 H5 H6 H7 H8 H9]. split; try done; cbn.
  - intros k' v. rewrite lookup_insert. case_decide; [intros [= <-]; by subst|]. apply H7.
  - intros k' v E. apply H8 in E as [? ?]. split; [done|]. rewrite lookup_insert. by case_decide.
Qed.

Lemma abs_with_slot d o k : abs d (with_slot d o k) = abs d o.
Proof.
  apply acct_eq; try done. intros k'. cbn. unfold slot. cbn. f_equal. unfold committed. cbn. rewrite lookup_insert.
  case_decide as E; [subst|done]. done.
Qed.

(** A cached slot with the trie not opened. *)
Lemma object_GetCommittedState_ok s a o k : core s -> live s a o -> length k = 32 -> exists s' o',
  object_GetCommittedState a k s = (Returns (committed (db s) o k), s') /\ reads s s' /\ live s' a o' /\
  so_data o' = so_data o /\ so_dirtyStorage o' = so_dirtyStorage o /\ is_Some (so_originStorage o' !! k).
Proof.
  intros Hc Hl Hk. destruct (live_ok _ _ _ Hc Hl) as (Ha & Hlen & Hok). unfold object_GetCommittedState.
  rewrite (W_bind_eq _ _ _ _ _ (object_live _ _ _ Hl)). destruct (so_originStorage o !! k) as [v|] eqn:Ev.
  { exists s, o. unfold committed. rewrite Ev. split_and!; eauto. by apply reads_refl. }
  destruct (getTrie_ok _ _ _ Hc Hl) as (s1 & E1 & Hr1 & Hl1). rewrite (W_bind_eq _ _ _ _ _ E1).
  assert (db s1 = db s) as Ed by apply Hr1. assert (with_db s1 (db s) = s1) as Es1 by (rewrite <- Ed; by destruct s1).
  destruct (Get_storage s o k Hok Hk) as (enc & Eg & Esv & Henc).
  assert (on_table (Trie.Get (handle (db s) o) k) s1 = (Returns (Ok enc), s1)) as E2 by (unfold on_table; rewrite Ed, Eg; by rewrite Es1).
  rewrite (W_bind_eq _ _ _ _ _ E2). rewrite (W_bind_eq _ _ s1 (slot_value enc) s1).
  2: { destruct enc as [[|x e]|]; [by destruct (Henc _ eq_refl)| |done]. destruct (Henc _ eq_refl) as [_ [c Ec]]. cbn. by rewrite Ec. }
  assert (slot_value enc = committed (db s) o k) as -> by (unfold committed; by rewrite Ev).
  eexists _, (with_slot (db s) o k). split; [by rewrite (W_bind_eq _ _ _ _ _ (change_live _ _ _ _ Hl1))|].
  split; [|split; [exact (live_insert s1 a (with_slot (db s) o k) (proj2 Hl))|split_and!; [done..|]; cbn; rewrite lookup_insert_eq; eauto]].
  eapply reads_trans; [exact Hr1|].
  pose proof (cache_reads s1 a _ (with_slot (db s) o k) (reads_core _ _ Hr1) Hl1) as H. rewrite Ed in H.
  apply H; [done|exact (proj2 Hl)|by apply obj_ok_with_slot|by rewrite abs_with_slot|cbn; set_solver].
Qed.

Lemma object_GetState_ok s a o k : core s -> live s a o -> length k = 32 -> exists s' o',
  object_GetState a k s = (Returns (slot (db s) o k), s') /\ reads s s' /\ live s' a o' /\
  is_Some (so_originStorage o' !! k).
Proof.
  intros Hc Hl Hk. unfold object_GetState. rewrite (W_bind_eq _ _ _ _ _ (object_live _ _ _ Hl)). unfold slot.
  destruct (live_ok _ _ _ Hc Hl) as (_ & _ & Hok).
  destruct (so_dirtyStorage o !! k) as [v|] eqn:Ev; cbn.
  - exists s, o. split_and!; try done; [by apply reads_refl|]. by apply (ok_dirty _ _ Hok) in Ev as [_ ?].
  - destruct (object_GetCommittedState_ok s a o k Hc Hl Hk) as (s' & o' & H1 & H2 & H3 & _ & _ & H4). by exists s', o'.
Qed.

Lemma code_of_cached d h c : table d !! h = c -> h <> emptyCodeHash -> code_of d h c = code_of d h None.
Proof. intros E Hne. unfold code_of. rewrite bool_decide_eq_false_2 by done. rewrite E. by destruct c. Qed.

Lemma object_Code_ok s a o : core s -> live s a o -> exists c s',
  object_Code a s = (Returns c, s') /\ reads s s' /\ default [] c = a_code (abs (db s) o) /\
  exists o', live s' a o' /\ so_data o' = so_data o /\ abs (db s) o' = abs (db s) o.
Proof.
  intros Hc Hl. destruct (live_ok _ _ _ Hc Hl) as (Ha & Hlen & Hok). unfold object_Code.
  rewrite (W_bind_eq _ _ _ _ _ (object_live _ _ _ Hl)). cbn. unfold code_of.
  destruct (so_code o) as [c|] eqn:Ec; [exists (Some c), s; split_and!; eauto; by apply reads_refl|].
  case_bool_decide as Eh; [exists None, s; split_and!; eauto; by apply reads_refl|].
  pose proof (ok_code _ _ Hok) as Hkec. rewrite Ec in Hkec. unfold code_of in Hkec. rewrite bool_decide_eq_false_2 in Hkec by done.
  destruct (table (db s) !! CodeHash (so_data o)) as [c|] eqn:Et; [|by destruct Eh]. destruct c as [|x c]; [by destruct Eh|].
  exists (Some (x :: c)). eexists. split; [unfold mbind, W_bind; cbn; rewrite Et; cbn; by rewrite (change_live _ _ _ _ Hl)|].
  assert (abs (db s) (with_code o (Some (x :: c))) = abs (db s) o) as Eabs.
  { apply acct_eq; try done. cbn. rewrite Ec. unfold code_of. rewrite bool_decide_eq_false_2 by done. by rewrite Et. }
  split; [|split; [done|exists (with_code o (Some (x :: c))); split_and!; [exact (live_insert _ _ _ (proj2 Hl : so_deleted (with_code o _) = false))|done|done]]].
  apply (cache_reads s a o); try done; [apply Hl|]. destruct Hok as [H1 H2 H3 H4 H5 H6 H7 H8 H9]. split; try done; cbn.
  intros c' [= <-] _. by right.
Qed.

End World.
