(* ===== verification/WorldSteps.v ===== *)
(** * WorldSteps: every method of the world state is undone by the entries it leaves *)

From Stdlib Require Import FunctionalExtensionality.
From S2P Require Import Prelude Crypto EvmState Trie TrieFacts TrieMap TrieRoot WorldState WorldFacts.
Import WorldState.

Section World.
Context `{C : Crypto} `{K : Keccak} {TC : TrieCodec} {TCL : TrieCodecLaws TC} {R : AccountRlp} {RL : AccountRlpLaws R}.

#[local] Arguments change _ _ _ : simpl never.
#[local] Arguments object _ _ : simpl never.

(** ** Journalled changes of a live object *)

Lemma entries_append e j : entries (append e j) = entries j ++ [e].
Proof. unfold append. by destruct (dirtied e). Qed.

Lemma counted_append e j : counted (entries j) (dirties j) -> counted (entries (append e j)) (dirties (append e j)).
Proof.
  intros H a. rewrite entries_append, filter_app, length_app. specialize (H a). unfold append. cbn [filter list_filter].
  destruct (dirtied e) as [b|]; cbn [dirty dirties].
  - rewrite lookup_insert. destruct (decide (b = a)) as [->|]; [rewrite decide_True by done|rewrite decide_False by congruence]; cbn; lia.
  - rewrite decide_False by done. cbn. lia.
Qed.

Lemma counted_dirty a j : counted (entries j) (dirties j) -> counted (entries (dirty a j)) (dirties (dirty a j)).
Proof. intros H b. specialize (H b). cbn. rewrite lookup_insert. case_decide; [subst|done]. cbn. lia. Qed.

(** Only [a] may be new among the dirty addresses. *)
Definition marks (a : bytes) (m m' : gmap bytes Z) : Prop := forall b n, m' !! b = Some n -> b = a \/ exists n', m !! b = Some n'.

Lemma marks_dirty a j : marks a (dirties j) (dirties (dirty a j)).
Proof. intros b n. cbn. rewrite lookup_insert. case_decide; eauto. Qed.

Lemma marks_append a e j : (forall b, dirtied e = Some b -> b = a) -> marks a (dirties j) (dirties (append e j)).
Proof.
  intros He b n. unfold append. destruct (dirtied e) as [x|]; [|cbn; eauto]. rewrite (He x eq_refl).
  apply (marks_dirty a (mkJournal _ (dirties j))).
Qed.

Lemma marks_trans a m m' m'' : marks a m m' -> marks a m' m'' -> marks a m m''.
Proof. intros H H' b n Hn. destruct (H' b n Hn) as [->|[n' Hn']]; eauto. Qed.

Lemma marks_touch a j : marks a (dirties j) (dirties (append (touchChange a) j)).
Proof. apply marks_append. by intros b [= <-]. Qed.

Lemma core_install s a o' j : core s -> length a = 20 -> so_address o' = a -> obj_ok (db s) o' -> so_deleted o' = false ->
  marks a (dirties (jrnl s)) (dirties j) -> core (with_objects (with_journal s j) (<[a := o']> (stateObjects s))).
Proof.
  intros Hc Ha Ho Hok Hd Hm. destruct (core_insert s a o' Hc Ha Ho Hok Hd) as [H1 H2 H3 H4 H5 H6 H7]. split; try done.
  intros b n Hn. cbn. rewrite lookup_insert. case_decide as E; [done|]. destruct (Hm b n Hn) as [->|[n' Hn']]; [done|].
  by apply (core_marked _ Hc b n').
Qed.

Lemma journalled s a o e f : core s -> live s a o -> (forall b, dirtied e = Some b -> b = a) -> so_address (f o) = a -> so_deleted (f o) = false -> obj_ok (db s) (f o) ->
  let o' := set_acct_opt a (Some (abs (db s) (f o))) (wobs s) in
  undo (db s) e o' = wobs s -> entry_ok (db s) (trie s) e o' ->
  (forall es g, dom (so_originStorage (f o)) ⊆ g a -> cached_ok es g -> cached_ok (e :: es) g) ->
  dom (so_originStorage o) ⊆ dom (so_originStorage (f o)) ->
  exists s', (journal_append e ≫= fun _ => change a f) s = (Returns tt, s') /\ steps s s' [e] /\ wobs s' = o' /\ live s' a (f o).
Proof.
  intros Hc Hl He Ha Hd Hok o' Hundo Hent Hcache Hdom. destruct (live_ok _ _ _ Hc Hl) as (_ & Hlen & _).
  set (s1 := with_journal s (append e (jrnl s))). assert (live s1 a o) as Hl1 by apply Hl.
  exists (with_objects s1 (<[a := f o]> (stateObjects s1))). split; [|split; [|split]].
  - rewrite (W_bind_eq _ _ _ tt s1) by done. by apply change_live.
  - assert (wobs (with_objects s1 (<[a := f o]> (stateObjects s1))) = o') as Ew by (by rewrite wobs_objects).
    split; try done; rewrite ?Ew; [exact (core_install s a (f o) _ Hc Hlen Ha Hok Hd (marks_append a e _ He))|apply entries_append|apply counted_append|done|done|].
    intros es Hes. apply Hcache; cbn.
    + rewrite cached_insert by done. by rewrite fupd_eq.
    + eapply cached_ok_mono; [|exact Hes]. intros b. rewrite cached_insert by done. unfold fupd. case_decide; [subst b|done].
      by rewrite (cached_live _ _ _ Hl).
  - by rewrite wobs_objects.
  - by apply live_insert.
Qed.

Lemma undo_upd a c c' g o : o_acct o a = Some c -> g c' = c -> upd_acct a g (set_acct_opt a (Some c') o) = o.
Proof.
  intros E H. unfold upd_acct. rewrite set_acct_opt_twice. apply set_acct_opt_same. cbn. rewrite fupd_eq. cbn. congruence.
Qed.

Lemma obj_ok_data d o nonce bal : obj_ok d o -> obj_ok d (with_data o (mkAccount nonce bal (Root (so_data o)) (CodeHash (so_data o)))).
Proof. intros [H1 H2 H3 H4 H5 H6 H7 H8 H9]. by split. Qed.

(** [f] journalled with [e] on the object at [a] changes its account to [g (account)]. *)
Definition step_of (s : WState) (a : bytes) (o : stateObject) (c : W unit) (new : Acct) : Prop :=
  exists s' N, c s = (Returns tt, s') /\ steps s s' N /\ wobs s' = set_acct_opt a (Some new) (wobs s).

Lemma object_SetBalance_ok s a o v : core s -> live s a o -> step_of s a o (object_SetBalance a v) (set_balance v (abs (db s) o)).
Proof.
  intros Hc Hl. destruct (live_ok _ _ _ Hc Hl) as (Ha & Hlen & Hok).
  destruct (journalled s a o (balanceChange a (Balance (so_data o))) (setBalance v)) as (s' & E & Hs & Ew & _); try done; cbn;
    [by intros b [= <-]|apply Hl|by apply obj_ok_data| |split; [done|rewrite fupd_eq; eauto]|].
  - apply (undo_upd _ (abs (db s) o)); [by apply live_obs|done].
  - exists s', [balanceChange a (Balance (so_data o))]. split; [|done]. unfold object_SetBalance.
    by rewrite (W_bind_eq _ _ _ _ _ (object_live _ _ _ Hl)).
Qed.

Lemma object_SetNonce_ok s a o v : core s -> live s a o -> step_of s a o (object_SetNonce a v) (set_nonce v (abs (db s) o)).
Proof.
  intros Hc Hl. destruct (live_ok _ _ _ Hc Hl) as (Ha & Hlen & Hok).
  destruct (journalled s a o (nonceChange a (Nonce (so_data o))) (setNonce v)) as (s' & E & Hs & Ew & _); try done; cbn;
    [by intros b [= <-]|apply Hl|by apply obj_ok_data| |split; [done|rewrite fupd_eq; eauto]|].
  - apply (undo_upd _ (abs (db s) o)); [by apply live_obs|done].
  - exists s', [nonceChange a (Nonce (so_data o))]. split; [|done]. unfold object_SetNonce.
    by rewrite (W_bind_eq _ _ _ _ _ (object_live _ _ _ Hl)).
Qed.

(** After reads the step starts from the state reached. *)
Lemma step_after_reads s s1 s' N new a : reads s s1 -> steps s1 s' N -> wobs s' = set_acct_opt a (Some new) (wobs s1) ->
  steps s s' N /\ wobs s' = set_acct_opt a (Some new) (wobs s).
Proof. intros (H1 & E & _) H2 E2. split; [apply (steps_trans _ _ _ _ _ H1 H2)|]. by rewrite E2, E. Qed.

(** A nil code has no bytes. *)
Definition slice (c : bytes) : option bytes := match c with [] => None | _ => Some c end.

Lemma code_of_slice d c : code_of d (keccak256 (default [] c)) c = default [] c.
Proof. destruct c as [c|]; [done|]. cbn. by rewrite bool_decide_eq_true_2. Qed.

Lemma obj_ok_setCode d o c : obj_ok d o -> obj_ok d (setCode (keccak256 (default [] c)) c o).
Proof. intros [H1 H2 H3 H4 H5 H6 H7 H8 H9]. split; try done. cbn. by rewrite code_of_slice. Qed.

Lemma object_SetCode_ok s a o c : core s -> live s a o ->
  step_of s a o (object_SetCode a (keccak256 (default [] c)) c) (set_code (default [] c) (abs (db s) o)).
Proof.
  intros Hc Hl. unfold object_SetCode. destruct (object_Code_ok s a o Hc Hl) as (pc & s1 & E1 & Hr & Epc & o1 & Hl1 & Ed1 & Ea1).
  assert (db s1 = db s) as Edb by apply Hr. assert (trie s1 = trie s) as Etr by apply Hr.
  pose proof (reads_core _ _ Hr) as Hc1. destruct (live_ok _ _ _ Hc1 Hl1) as (Ha & Hlen & Hok).
  set (e := codeChange a pc (CodeHash (so_data o1))).
  assert (CodeHash (so_data o1) = keccak256 (default [] pc)) as Eh.
  { rewrite Epc, <- Ea1, <- Edb. apply (ok_code _ _ Hok). }
  assert (abs (db s) (setCode (keccak256 (default [] c)) c o1) = set_code (default [] c) (abs (db s) o)) as Eab.
  { rewrite <- Ea1. apply acct_eq; try done. cbn. apply code_of_slice. }
  destruct (journalled s1 a o1 e (setCode (keccak256 (default [] c)) c)) as (s' & E & Hs & Ew & _); try done.
  - by intros b [= <-].
  - apply Hl1.
  - by apply obj_ok_setCode.
  - subst e. cbn [undo]. apply (undo_upd _ (abs (db s1) o1)); [by apply live_obs|]. rewrite Edb, Eab, <- Ea1, Eh.
    apply acct_eq; try done. cbn. by rewrite Epc, <- Ea1.
  - subst e. cbn. rewrite fupd_eq. eauto.
  - destruct (step_after_reads s s1 s' _ (set_code (default [] c) (abs (db s) o)) a Hr Hs) as [H1 H2]; [by rewrite Ew, Edb, Eab|].
    exists s', [e]. split; [|done]. rewrite (W_bind_eq _ _ _ _ _ E1). by rewrite (W_bind_eq _ _ _ _ _ (object_live _ _ _ Hl1)).
Qed.

Lemma obj_ok_setState d o k v : obj_ok d o -> length v = 32 -> is_Some (so_originStorage o !! k) -> obj_ok d (setState k v o).
Proof.
  intros [H1 H2 H3 H4 H5 H6 H7 H8 H9] Hv Hk. split; try done. cbn. intros k' v'. rewrite lookup_insert.
  case_decide; [intros [= <-]; by subst|]. apply H8.
Qed.

Lemma abs_setState d o k v : abs d (setState k v o) = set_storage k v (abs d o).
Proof.
  apply acct_eq; try done. intros k'. cbn. unfold slot, fupd. cbn. rewrite lookup_insert.
  destruct (decide (k = k')) as [->|]; [by rewrite decide_True|by rewrite decide_False].
Qed.

Lemma storage_set_same k v c : a_storage c k = v -> set_storage k v c = c.
Proof. intros <-. apply acct_eq; try done. intros k'. cbn. unfold fupd. by case_decide; subst. Qed.

Lemma storage_set_twice k v v' c : set_storage k v (set_storage k v' c) = set_storage k v c.
Proof. apply acct_eq; try done. intros k'. cbn. unfold fupd. by case_decide. Qed.

Lemma object_SetState_ok s a o k v : core s -> live s a o -> length k = 32 -> length v = 32 ->
  step_of s a o (object_SetState a k v) (set_storage k v (abs (db s) o)).
Proof.
  intros Hc Hl Hk Hv. destruct (live_ok _ _ _ Hc Hl) as (_ & _ & Hok0).
  unfold object_SetState. destruct (object_GetState_ok s a o k Hc Hl Hk) as (s1 & o1 & E1 & Hr & Hl1 & Hcache).
  unfold step_of. rewrite (W_bind_eq _ _ _ _ _ E1). assert (db s1 = db s) as Edb by apply Hr.
  assert (abs (db s) o1 = abs (db s) o) as Ea.
  { destruct Hr as (_ & Ew & _). pose proof (live_obs _ _ _ Hl1) as H1. rewrite Ew, (live_obs _ _ _ Hl), Edb in H1. congruence. }
  case_bool_decide as Ev.
  { exists s1, []. split; [done|]. split; [apply Hr|]. destruct Hr as (_ & -> & _). rewrite storage_set_same by done.
    symmetry. apply set_acct_opt_same. by apply live_obs. }
  pose proof (reads_core _ _ Hr) as Hc1. destruct (live_ok _ _ _ Hc1 Hl1) as (Ha & Hlen & Hok).
  set (e := storageChange a k (slot (db s) o k)).
  destruct (journalled s1 a o1 e (setState k v)) as (s' & E & Hs & Ew & _); try done.
  - by intros b [= <-].
  - apply Hl1.
  - by apply obj_ok_setState.
  - subst e. cbn [undo]. apply (undo_upd _ (abs (db s1) o1)); [by apply live_obs|]. rewrite abs_setState, storage_set_twice.
    apply storage_set_same. rewrite Edb, Ea. done.
  - subst e. cbn. rewrite fupd_eq. split_and!; eauto. by apply slot_length.
  - intros es g Hg Hes. split; [|done]. apply Hg. by apply elem_of_dom.
  - destruct (step_after_reads s s1 s' _ (set_storage k v (abs (db s) o)) a Hr Hs) as [H1 H2]; [by rewrite Ew, abs_setState, Edb, Ea|].
    by exists s', [e].
Qed.

(** ** New objects *)

Definition fresh (a : bytes) : stateObject := setNonce 0 (newObject a 0 None Crypto.ZeroHash None).

Lemma New_zero d : Trie.New (Some Crypto.ZeroHash) d = (ROk None, d).
Proof. unfold Trie.New. by rewrite bool_decide_eq_true_2. Qed.

Lemma handle_fresh d a : handle d (fresh a) = None.
Proof. unfold handle. cbn. by rewrite New_zero. Qed.

Lemma abs_fresh d a : abs d (fresh a) = newAcct.
Proof.
  apply acct_eq; try done; [cbn; by rewrite bool_decide_eq_true_2|]. intros k. cbn. unfold slot, committed, stored. cbn.
  by destruct (length k =? 32).
Qed.

Lemma obj_ok_fresh d a : obj_ok d (fresh a).
Proof.
  split; cbn; try done.
  - by rewrite bool_decide_eq_true_2.
  - exists ∅. split; [apply contents_empty|]. intros k e. by rewrite lookup_empty.
Qed.

Lemma fupd_twice {A} (f : bytes -> A) a v v' b : fupd (fupd f a v) a v' b = fupd f a v' b.
Proof. unfold fupd. by case_decide. Qed.

Lemma fupd_same {A} (f : bytes -> A) a b : fupd f a (f a) b = f b.
Proof. unfold fupd. by case_decide; subst. Qed.

(** A new object [o'] replaces what is at its address, with an entry for it. *)
Definition newborn (d : TrieDb) (a : bytes) (o' : stateObject) : Prop :=
  so_address o' = a /\ so_deleted o' = false /\ obj_ok d o' /\ so_originStorage o' = ∅ /\ so_suicided o' = false.

Lemma newborn_fresh d a b : newborn d a (setBalance b (fresh a)).
Proof. split_and!; try done. apply obj_ok_data, obj_ok_fresh. Qed.

Lemma install s a e o' : core s -> length a = 20 -> newborn (db s) a o' -> (forall b, dirtied e = Some b -> b = a) ->
  (forall c, undo (db s) e (set_acct_opt a c (wobs s)) = wobs s) -> (forall c, a_suicided c = false -> entry_ok (db s) (trie s) e (set_acct_opt a (Some c) (wobs s))) ->
  (forall es, cached_ok es (cached (stateObjects s)) -> cached_ok (e :: es) (fupd (cached (stateObjects s)) a ∅)) ->
  let s' := with_objects (with_journal s (append e (jrnl s))) (<[a := o']> (stateObjects s)) in
  steps s s' [e] /\ wobs s' = set_acct_opt a (Some (abs (db s) o')) (wobs s).
Proof.
  intros Hc Ha (Ho & Hd & Hok & Hor & Hsu) He Hundo Hent Hcache. set (s1 := with_journal s (append e (jrnl s))).
  intros s2.
  assert (wobs s2 = set_acct_opt a (Some (abs (db s) o')) (wobs s)) as Ew by (by apply (wobs_objects s1)).
  split; [|done]. split; try done; rewrite ?Ew; [exact (core_install s a o' _ Hc Ha Ho Hok Hd (marks_append a e _ He))|apply entries_append|apply counted_append|apply Hundo|by split; [apply Hent|]|].
  intros es Hes. cbn. eapply (cached_ok_mono (e :: es)); [|by apply Hcache]. intros b.
  rewrite cached_insert, Hor, dom_empty_L by done. done.
Qed.

Lemma createObject_ok s a : core s -> length a = 20 -> exists prev s' N, createObject a s = (Returns prev, s') /\ live s' a (fresh a) /\
  o_acct (wobs s) a = abs (db s) <$> prev /\
  forall o', newborn (db s) a o' -> let s2 := with_objects s' (<[a := o']> (stateObjects s')) in
    steps s s2 N /\ wobs s2 = set_acct_opt a (Some (abs (db s) o')) (wobs s).
Proof.
  intros Hc Ha. unfold createObject. destruct (getStateObject_ok s a Hc Ha) as (r & s1 & E1 & Hr & Hres).
  rewrite (W_bind_eq _ _ _ _ _ E1). pose proof (reads_core _ _ Hr) as Hc1.
  assert (db s1 = db s) as Edb by apply Hr. assert (trie s1 = trie s) as Etr by apply Hr. assert (wobs s1 = wobs s) as Ew by apply Hr.
  set (e := match r with None => createObjectChange a | Some p => resetObjectChange p end).
  assert (o_acct (wobs s) a = abs (db s) <$> r) as Eacc.
  { destruct r as [o|]; [|apply Hres]. rewrite <- Ew, <- Edb. by apply live_obs. }
  assert (forall p, r = Some p -> so_address p = a /\ obj_ok (db s) p /\ so_deleted p = false /\ cached (stateObjects s1) a = dom (so_originStorage p)) as Hp.
  { intros p ->. destruct (live_ok _ _ _ Hc1 Hres) as (? & _ & Hok). rewrite Edb in Hok. split_and!; try done; [apply Hres|by apply cached_live]. }
  set (s' := with_objects (with_journal s1 (append e (jrnl s1))) (<[a := fresh a]> (stateObjects s1))).
  exists r, s', [e]. split; [subst e; by destruct r|]. split; [by apply (live_insert (with_journal s1 (append e (jrnl s1))))|]. split; [done|]. intros o' Ho'.
  assert (with_objects s' (<[a := o']> (stateObjects s')) = with_objects (with_journal s1 (append e (jrnl s1))) (<[a := o']> (stateObjects s1))) as Es.
  { unfold s', with_objects. cbn. by rewrite insert_insert_eq. }
  rewrite Es. destruct (install s1 a e o') as [H1 H2]; try done.
  - by rewrite Edb.
  - subst e. destruct r; [done|]. by intros b [= <-].
  - intros c. subst e. destruct r as [p|]; cbn [undo]; [destruct (Hp p eq_refl) as (-> & _)|]; rewrite set_acct_opt_twice; apply set_acct_opt_same;
      rewrite Ew, Eacc, ?Edb; done.
  - intros c Hsu. assert (o_acct (set_acct_opt a (Some c) (wobs s1)) a = Some c) as Hsome by (cbn; by rewrite fupd_eq).
    subst e. destruct r as [p|]; cbn [entry_ok]; rewrite ?Edb, ?Etr; [destruct (Hp p eq_refl) as (-> & ? & ? & _); split_and!; try done; by exists c|].
    split_and!; [done|apply Hres|by exists c].
  - intros es Hes. subst e. destruct r as [p|]; cbn [cached_ok]; (eapply cached_ok_mono; [|exact Hes]); intros b.
    + destruct (Hp p eq_refl) as (-> & _ & _ & Hca). by rewrite fupd_twice, <- Hca, fupd_same.
    + rewrite fupd_twice. unfold fupd. case_decide; [subst b|done].
      assert (cached (stateObjects s1) a = ∅) as ->; [|done]. unfold cached. destruct Hres as (HN & _). rewrite <- Ew in HN.
      cbn in HN. unfold account_at in HN. destruct (stateObjects s1 !! a) as [o|]; [|done]. by destruct (so_deleted o).
  - split; [apply (steps_trans _ _ _ [] [e] (proj1 Hr) H1)|]. by rewrite H2, Ew, Edb.
Qed.

Lemma getOrNewStateObject_ok s a : core s -> length a = 20 -> exists s' N o, getOrNewStateObject a s = (Returns tt, s') /\ steps s s' N /\
  live s' a o /\ abs (db s) o = default newAcct (o_acct (wobs s) a) /\ wobs s' = set_acct_opt a (Some (abs (db s) o)) (wobs s).
Proof.
  intros Hc Ha. unfold getOrNewStateObject. destruct (getStateObject_ok s a Hc Ha) as (r & s1 & E1 & Hr & Hres).
  rewrite (W_bind_eq _ _ _ _ _ E1). pose proof (reads_core _ _ Hr) as Hc1.
  assert (db s1 = db s) as Edb by apply Hr. assert (wobs s1 = wobs s) as Ew by apply Hr. destruct r as [o|].
  - rewrite (proj2 Hres). exists s1, [], o. pose proof (live_obs _ _ _ Hres) as Ho. rewrite Ew, Edb in Ho.
    split_and!; [done|apply Hr|done|by rewrite Ho|]. rewrite Ew. symmetry. by apply set_acct_opt_same.
  - destruct (createObject_ok s1 a Hc1 Ha) as (prev & s' & N & E & Hl & _ & Hnew). exists s', N, (fresh a).
    destruct (Hnew (fresh a) (newborn_fresh _ a 0)) as [Hs Ew']. rewrite with_objects_same in Hs, Ew' by done. rewrite abs_fresh in Ew'.
    split_and!; [by rewrite (W_bind_eq _ _ _ _ _ E)|apply (steps_trans _ _ _ [] N (proj1 Hr) Hs)|done| |].
    + rewrite abs_fresh. destruct Hres as (-> & _). done.
    + by rewrite Ew', Ew, abs_fresh.
Qed.

(** ** The methods *)

Definition does {A} (c : W A) (ans : Obs -> A) (upd : Obs -> Obs) (s : WState) : Prop :=
  exists s' N, c s = (Returns (ans (wobs s)), s') /\ steps s s' N /\ wobs s' = upd (wobs s).

(** A change of the account at [a], which is made when there is none. *)
Lemma on_object s a (c : W unit) f : core s -> length a = 20 ->
  (forall s o, core s -> live s a o -> step_of s a o c (f (abs (db s) o))) ->
  does (getOrNewStateObject a ≫= fun _ => c) (fun _ => tt) (on_acct a f) s.
Proof.
  intros Hc Ha Hstep. destruct (getOrNewStateObject_ok s a Hc Ha) as (s1 & N1 & o & E1 & H1 & Hl & Eo & Ew1).
  destruct (Hstep s1 o (st_core _ _ _ H1) Hl) as (s' & N & E & Hs & Ew).
  exists s', (N1 ++ N). split; [by rewrite (W_bind_eq _ _ _ _ _ E1)|]. split; [by eapply steps_trans|].
  rewrite Ew, Ew1, set_acct_opt_twice, (st_db _ _ _ H1), Eo. done.
Qed.

Lemma SetNonce_ok s a v : core s -> length a = 20 -> does (SetNonce a v) (fun _ => tt) (on_acct a (set_nonce v)) s.
Proof. intros Hc Ha. apply on_object; [done..|]. intros. by apply object_SetNonce_ok. Qed.

Lemma SetBalance_ok s a v : core s -> length a = 20 -> does (SetBalance a v) (fun _ => tt) (on_acct a (set_balance v)) s.
Proof. intros Hc Ha. apply on_object; [done..|]. intros. by apply object_SetBalance_ok. Qed.

Lemma SetCode_ok s a c : core s -> length a = 20 -> does (SetCode a c) (fun _ => tt) (on_acct a (set_code (default [] c))) s.
Proof. intros Hc Ha. apply on_object; [done..|]. intros. by apply object_SetCode_ok. Qed.

Lemma SetState_ok s a k v : core s -> length a = 20 -> length k = 32 -> length v = 32 ->
  does (SetState a k v) (fun _ => tt) (on_acct a (set_storage k v)) s.
Proof. intros Hc Ha Hk Hv. apply on_object; [done..|]. intros. by apply object_SetState_ok. Qed.

Lemma journal_steps s a o j e : core s -> live s a o -> marks a (dirties (jrnl s)) (dirties j) -> entries j = entries (jrnl s) ++ [e] ->
  (counted (entries (jrnl s)) (dirties (jrnl s)) -> counted (entries j) (dirties j)) -> undo (db s) e (wobs s) = wobs s ->
  entry_ok (db s) (trie s) e (wobs s) -> (forall es g, cached_ok es g -> cached_ok (e :: es) g) -> steps s (with_journal s j) [e].
Proof.
  intros Hc Hl Hm Hj Hn Hu He Hg. split; try done; cbn; [|by intros es; apply Hg].
  destruct (live_ok _ _ _ Hc Hl) as (Ha & Hlen & Hok).
  pose proof (core_install s a o j Hc Hlen Ha Hok (proj2 Hl) Hm) as H. by rewrite insert_id in H by apply Hl.
Qed.

Lemma set_balance_same v c : a_balance c = v -> set_balance v c = c.
Proof. intros <-. by destruct c. Qed.

Lemma same_step s a o c new : live s a o -> new = abs (db s) o -> (exists s' N, c s = (Returns tt, s') /\ steps s s' N /\ wobs s' = wobs s) ->
  step_of s a o c new.
Proof.
  intros Hl -> (s' & N & E & Hs & Ew). exists s', N. split_and!; try done. rewrite Ew. symmetry. apply set_acct_opt_same. by apply live_obs.
Qed.

Lemma object_AddBalance_ok s a o v : core s -> live s a o ->
  step_of s a o (object_AddBalance a v) (set_balance (a_balance (abs (db s) o) + v) (abs (db s) o)).
Proof.
  intros Hc Hl. unfold object_AddBalance, step_of. rewrite (W_bind_eq _ _ _ _ _ (object_live _ _ _ Hl)).
  destruct (Z.eqb_spec v 0) as [->|Hv]; [|by apply object_SetBalance_ok].
  apply (same_step s a o); [done|by rewrite Z.add_0_r, set_balance_same|].
  destruct (object_empty o); [|exists s, []; split_and!; [done|by apply steps_refl|done]].
  unfold touch, mbind, W_bind. cbn. case_bool_decide; [exists (with_journal s (dirty a (append (touchChange a) (jrnl s))))|exists (with_journal s (append (touchChange a) (jrnl s)))];
    exists [touchChange a]; (split; [reflexivity|]); (split; [apply (journal_steps s a o); try done|done]); eauto using counted_append, counted_dirty, marks_touch, marks_dirty, marks_trans.
Qed.

Lemma object_SubBalance_ok s a o v : core s -> live s a o ->
  step_of s a o (object_SubBalance a v) (set_balance (a_balance (abs (db s) o) - v) (abs (db s) o)).
Proof.
  intros Hc Hl. unfold object_SubBalance, step_of. rewrite (W_bind_eq _ _ _ _ _ (object_live _ _ _ Hl)).
  destruct (Z.eqb_spec v 0) as [->|Hv]; [|by apply object_SetBalance_ok].
  apply (same_step s a o); [done|by rewrite Z.sub_0_r, set_balance_same|]. exists s, []. split_and!; [done|by apply steps_refl|done].
Qed.

Lemma does_ext {A} (c : W A) ans upd upd' s : does c ans upd s -> upd (wobs s) = upd' (wobs s) -> does c ans upd' s.
Proof. intros (s' & N & E & Hs & Ew) H. exists s', N. split_and!; try done. by rewrite Ew. Qed.

Lemma on_acct_balance a (f : Z -> Z) o : on_acct a (fun c => set_balance (f (a_balance c)) c) o = on_acct a (set_balance (f (balance o a))) o.
Proof. unfold on_acct, balance. by destruct (o_acct o a). Qed.

Lemma AddBalance_ok s a v : core s -> length a = 20 ->
  does (AddBalance a v) (fun _ => tt) (fun o => on_acct a (set_balance (balance o a + v)) o) s.
Proof.
  intros Hc Ha. eapply does_ext; [apply (on_object _ _ _ (fun c => set_balance (a_balance c + v) c)); [done..|]; intros; by apply (object_AddBalance_ok _ a)|].
  apply (on_acct_balance a (fun b => b + v)%Z).
Qed.

Lemma SubBalance_ok s a v : core s -> length a = 20 ->
  does (SubBalance a v) (fun _ => tt) (fun o => on_acct a (set_balance (balance o a - v)) o) s.
Proof.
  intros Hc Ha. eapply does_ext; [apply (on_object _ _ _ (fun c => set_balance (a_balance c - v) c)); [done..|]; intros; by apply (object_SubBalance_ok _ a)|].
  apply (on_acct_balance a (fun b => b - v)%Z).
Qed.

(** [CreateAccount]: the change of the balance is not in the journal, because the entry for the
    new object undoes it. *)
Lemma CreateAccount_ok s a : core s -> length a = 20 ->
  does (CreateAccount a) (fun _ => tt) (fun o => set_acct a (set_balance (balance o a) newAcct) o) s.
Proof.
  intros Hc Ha. unfold CreateAccount. destruct (createObject_ok s a Hc Ha) as (prev & s1 & N & E & Hl & Eacc & Hnew).
  unfold does. rewrite (W_bind_eq _ _ _ _ _ E).
  assert (balance (wobs s) a = default 0%Z (Balance ∘ so_data <$> prev)) as -> by (unfold balance; rewrite Eacc; by destruct prev).
  destruct prev as [p|]; cbn.
  - rewrite (change_live _ _ _ _ Hl). destruct (Hnew (setBalance (Balance (so_data p)) (fresh a)) (newborn_fresh _ _ _)) as [Hs Ew].
    eexists _, N. split; [done|]. split; [done|]. rewrite Ew. unfold set_acct. f_equal. f_equal. f_equal. by rewrite <- (abs_fresh (db s) a).
  - destruct (Hnew (fresh a) (newborn_fresh _ _ 0)) as [Hs Ew]. rewrite with_objects_same in Hs, Ew by done.
    eexists _, N. split; [done|]. split; [done|]. by rewrite Ew, abs_fresh.
Qed.

Lemma Suicide_ok s a : core s -> length a = 20 -> does (Suicide a) (fun o => exist o a)
  (fun o => match o_acct o a with Some c => set_acct a (set_suicided c) o | None => o end) s.
Proof.
  intros Hc Ha. unfold Suicide, does. destruct (getStateObject_ok s a Hc Ha) as (r & s1 & E1 & Hr & Hres).
  rewrite (W_bind_eq _ _ _ _ _ E1). pose proof (reads_core _ _ Hr) as Hc1.
  assert (db s1 = db s) as Edb by apply Hr. assert (wobs s1 = wobs s) as Ew by apply Hr. unfold exist. destruct r as [o|].
  - pose proof (live_obs _ _ _ Hres) as Eo. rewrite Ew, Edb in Eo. rewrite Eo. destruct (live_ok _ _ _ Hc1 Hres) as (Hao & _ & Hok).
    set (e := suicideChange a (so_suicided o) (Balance (so_data o))). set (f := fun o => setBalance 0 (markSuicided o)).
    destruct (journalled s1 a o e f) as (s' & E & Hs & Ew' & _); try done.
    + by intros b [= <-].
    + apply Hres.
    + destruct Hok as [H1 H2 H3 H4 H5 H6 H7 H8 H9]. by split.
    + subst e. cbn [undo]. by apply (undo_upd _ (abs (db s1) o)); [apply live_obs|].
    + subst e. cbn. rewrite fupd_eq. eauto.
    + exists s', [e]. split; [|split; [apply (steps_trans _ _ _ [] [e] (proj1 Hr) Hs)|by rewrite Ew', Ew, Edb]].
      unfold mbind, W_bind in E |- *. by destruct (journal_append e s1) as [[[]|] s2]; [rewrite E|].
  - destruct Hres as (-> & _). exists s1, []. split_and!; [done|apply Hr|done].
Qed.

(** Entries that are not about accounts. *)
Lemma other_steps s s' e : core s' -> db s' = db s -> trie s' = trie s -> validRevisions s' = validRevisions s ->
  nextRevisionID s' = nextRevisionID s -> jrnl s' = append e (jrnl s) -> stateObjectsDirty s' = stateObjectsDirty s -> undo (db s) e (wobs s') = wobs s ->
  entry_ok (db s) (trie s) e (wobs s') -> stateObjects s' = stateObjects s -> (forall es g, cached_ok es g -> cached_ok (e :: es) g) ->
  steps s s' [e].
Proof.
  intros H1 H2 H3 H4 H5 H6 H6' H7 H8 H9 H10. split; try done; rewrite ?H6; [apply entries_append|apply counted_append|].
  cbn [rev app]. intros es Hes. rewrite H9. by apply H10.
Qed.

Lemma AddRefund_ok s v : core s -> does (AddRefund v) (fun _ => tt) (fun o => set_refund (u64 (o_refund o + v)) o) s.
Proof.
  intros Hc. eexists _, [refundChange (refund s)]. split; [done|]. split; [|done].
  apply other_steps; try done. destruct Hc; by split.
Qed.

Lemma AddPreimage_ok s h p : core s -> does (AddPreimage h p) (fun _ => tt) id_obs s.
Proof.
  intros Hc. unfold AddPreimage, does, mbind, W_bind, gets. destruct (preimages s !! h); [exists s, []; split_and!; [done|by apply steps_refl|done]|].
  eexists _, [addPreimageChange h]. split; [done|]. split; [|done]. apply other_steps; try done. destruct Hc; by split.
Qed.

Lemma u64_pred n : (0 <= n < 2 ^ 64)%Z -> u64 (u64 (n + 1) - 1) = n.
Proof. intros H. unfold u64. rewrite Zminus_mod_idemp_l. replace (n + 1 - 1)%Z with n by lia. by apply Z.mod_small. Qed.

Lemma AddLog_ok s l : core s -> does (AddLog l) (fun _ => tt) (add_log l) s.
Proof.
  intros Hc. eexists _, [addLogChange (thash s)]. split; [done|]. cbn.
  match goal with |- steps s ?x _ /\ _ => set (s' := x) end.
  assert (wobs s' = add_log l (wobs s)) as Ew.
  { apply obs_eq; try done. intros h. cbn. rewrite lookup_insert. unfold fupd.
    destruct (decide (h = thash s)) as [->|]; [by rewrite decide_True|by rewrite decide_False]. }
  split; [|done]. apply other_steps; rewrite ?Ew; try done.
  - destruct Hc; split; try done. cbn. unfold u64. apply Z.mod_pos_bound. lia.
  - apply obs_eq; try done; cbn.
    + intros h. unfold fupd. case_decide as E; [subst h|done]. rewrite decide_True by done.
      rewrite length_app, Nat.add_sub, take_app_length. done.
    + apply u64_pred, Hc.
  - cbn. rewrite fupd_eq. by destruct (default [] (logs s !! thash s)).
Qed.

(** ** The getters *)

Lemma does_reads {A} (c : W A) ans s s' : c s = (Returns (ans (wobs s)), s') -> reads s s' -> does c ans id_obs s.
Proof. intros E (H1 & H2 & _). exists s', []. done. Qed.

(** A getter that looks at the object only. *)
Lemma getter_ok {A} s a (f : option stateObject -> A) (ans : Obs -> A) : core s -> length a = 20 ->
  (o_acct (wobs s) a = None -> f None = ans (wobs s)) ->
  (forall o, obj_ok (db s) o -> o_acct (wobs s) a = Some (abs (db s) o) -> f (Some o) = ans (wobs s)) ->
  does (getStateObject a ≫= fun o => mret (f o)) ans id_obs s.
Proof.
  intros Hc Ha H1 H2. destruct (getStateObject_ok s a Hc Ha) as (r & s1 & E1 & Hr & Hres). apply (does_reads _ _ _ s1); [|done].
  rewrite (W_bind_eq _ _ _ _ _ E1). assert (db s1 = db s) as Edb by apply Hr. assert (wobs s1 = wobs s) as Ew by apply Hr.
  unfold mret, W_ret. do 2 f_equal. destruct r as [o|]; [|apply H1, (proj1 Hres)].
  destruct (live_ok _ _ _ (reads_core _ _ Hr) Hres) as (_ & _ & Hok). apply H2; [by rewrite <- Edb|]. rewrite <- Ew, <- Edb. by apply live_obs.
Qed.

(** One that goes on with the object. *)
Lemma deep_getter_ok {A} s a (c : W A) (z : A) (ans : Obs -> A) : core s -> length a = 20 ->
  (o_acct (wobs s) a = None -> z = ans (wobs s)) ->
  (forall s o, core s -> live s a o -> exists r s', c s = (Returns r, s') /\ reads s s' /\ r = ans (wobs s)) ->
  does (getStateObject a ≫= fun o => match o with Some _ => c | None => mret z end) ans id_obs s.
Proof.
  intros Hc Ha H1 H2. destruct (getStateObject_ok s a Hc Ha) as (r & s1 & E1 & Hr & Hres).
  assert (wobs s1 = wobs s) as Ew by apply Hr. unfold does. rewrite (W_bind_eq _ _ _ _ _ E1). destruct r as [o|].
  - destruct (H2 s1 o (reads_core _ _ Hr) Hres) as (r & s' & E & Hr' & ->). pose proof (reads_trans _ _ _ Hr Hr') as (Hs & Hw & _).
    exists s', []. split; [by rewrite E, Ew|done].
  - exists s1, []. rewrite <- (H1 (proj1 Hres)). split_and!; [done|apply Hr|done].
Qed.

Ltac getter := apply getter_ok; [done|done|intros E0; unfold balance, nonce, code, codeHash, suicided, exist, empty; by rewrite E0|
  intros o Hok E0; unfold balance, nonce, code, codeHash, suicided, exist, empty; rewrite E0; try done].

Lemma GetBalance_ok s a : core s -> length a = 20 -> does (GetBalance a) (fun o => balance o a) id_obs s.
Proof. intros Hc Ha. getter. Qed.

Lemma GetNonce_ok s a : core s -> length a = 20 -> does (GetNonce a) (fun o => nonce o a) id_obs s.
Proof. intros Hc Ha. getter. Qed.

Lemma GetCodeHash_ok s a : core s -> length a = 20 -> does (GetCodeHash a) (fun o => codeHash o a) id_obs s.
Proof. intros Hc Ha. getter. cbn. by apply Crypto.BytesToHash_full, (ok_hash_length (db s)). Qed.

Lemma HasSuicided_ok s a : core s -> length a = 20 -> does (HasSuicided a) (fun o => suicided o a) id_obs s.
Proof. intros Hc Ha. getter. Qed.

Lemma Exist_ok s a : core s -> length a = 20 -> does (Exist a) (fun o => exist o a) id_obs s.
Proof. intros Hc Ha. getter. Qed.

Lemma Empty_ok s a : core s -> length a = 20 -> does (Empty a) (fun o => empty o a) id_obs s.
Proof. intros Hc Ha. getter. Qed.

Lemma GetState_ok s a k : core s -> length a = 20 -> length k = 32 -> does (GetState a k) (fun o => storage o a k) id_obs s.
Proof.
  intros Hc Ha Hk. apply deep_getter_ok; [done|done|intros E0; unfold storage; by rewrite E0|].
  intros s1 o Hc1 Hl. destruct (object_GetState_ok s1 a o k Hc1 Hl Hk) as (s' & o' & E & Hr & _).
  exists (slot (db s1) o k), s'. split_and!; try done. unfold storage. by rewrite (live_obs _ _ _ Hl).
Qed.

Lemma GetCode_ok s a : core s -> length a = 20 -> exists c s', GetCode a s = (Returns c, s') /\ reads s s' /\ default [] c = code (wobs s) a.
Proof.
  intros Hc Ha. unfold GetCode. destruct (getStateObject_ok s a Hc Ha) as (r & s1 & E1 & Hr & Hres).
  assert (wobs s1 = wobs s) as Ew by apply Hr. rewrite (W_bind_eq _ _ _ _ _ E1). unfold code. destruct r as [o|].
  - destruct (object_Code_ok s1 a o (reads_core _ _ Hr) Hres) as (c & s' & E & Hr' & Ec & _). exists c, s'.
    split_and!; [done|by eapply reads_trans|]. rewrite <- Ew, (live_obs _ _ _ Hres). done.
  - exists None, s1. destruct Hres as (-> & _). done.
Qed.

Lemma GetCodeSize_ok s a : core s -> length a = 20 -> does (GetCodeSize a) (fun o => Z.of_nat (length (code o a))) id_obs s.
Proof.
  intros Hc Ha. unfold GetCodeSize, does. destruct (getStateObject_ok s a Hc Ha) as (r & s1 & E1 & Hr & Hres).
  assert (wobs s1 = wobs s) as Ew by apply Hr. rewrite (W_bind_eq _ _ _ _ _ E1). unfold code. destruct r as [o|].
  - destruct (object_Code_ok s1 a o (reads_core _ _ Hr) Hres) as (c & s' & E & Hr' & Ec & _). exists s', [].
    rewrite (W_bind_eq _ _ _ _ _ E), <- Ew, (live_obs _ _ _ Hres). cbn [default fmap option_fmap option_map]. rewrite <- Ec.
    split; [by destruct c|]. pose proof (reads_trans _ _ _ Hr Hr') as (Hs & Hw & _). split; [done|]. by rewrite Hw, Ew.
  - exists s1, []. destruct Hres as (-> & _). split_and!; [done|apply Hr|done].
Qed.

Lemma IsContractAddr_ok s a : core s -> length a = 20 -> does (IsContractAddr a) (fun o => negb (length (code o a) =? 0)) id_obs s.
Proof.
  intros Hc Ha. destruct (GetCodeSize_ok s a Hc Ha) as (s' & N & E & Hs & Ew). exists s', N. split; [|done].
  unfold IsContractAddr. rewrite (W_bind_eq _ _ _ _ _ E). unfold mret, W_ret. do 2 f_equal. by destruct (length (code (wobs s) a)).
Qed.

End World.
