(* ===== verification/WorldLaws.v ===== *)
(** * WorldLaws: the world state is a database with snapshots

    Going back to a snapshot undoes the journal, so the world state implements the abstract
    database of EvmState.v, and the theorems about the virtual machine hold on it. *)

From stdpp Require Import sorting.
From S2P Require Import Prelude Crypto EvmState Trie TrieFacts TrieMap TrieRoot WorldState WorldFacts WorldSteps.
Import WorldState.

Section World.
Context `{C : Crypto} `{K : Keccak} {TC : TrieCodec} {TCL : TrieCodecLaws TC} {R : AccountRlp} {RL : AccountRlpLaws R}.

#[local] Arguments change _ _ _ : simpl never.
#[local] Arguments object _ _ : simpl never.

(** ** Undoing one entry *)

(** From [s] to [s'] with the entry [e] undone; the journal is not touched. *)
Record undone (e : journalEntry) (s s' : WState) : Prop := mk_undone {
  un_core : core s';
  un_db : db s' = db s;
  un_trie : trie s' = trie s;
  un_journal : jrnl s' = jrnl s;
  un_revs : validRevisions s' = validRevisions s;
  un_next : nextRevisionID s' = nextRevisionID s;
  un_dirty : stateObjectsDirty s = ∅ -> stateObjectsDirty s' = ∅;
  un_obs : wobs s' = undo (db s) e (wobs s);
  un_cached es : cached_ok (e :: es) (cached (stateObjects s)) -> cached_ok es (cached (stateObjects s'))
}.

(** An entry that changes the object at [a] with [f], its account with [g]. *)
Lemma undo_change s a e f g : core s -> length a = 20 -> is_Some (o_acct (wobs s) a) ->
  undo (db s) e (wobs s) = upd_acct a g (wobs s) ->
  (forall es s, cached_ok (e :: es) s -> cached_ok es s) ->
  (forall s1 o, reads s s1 -> live s1 a o ->
     so_address (f o) = so_address o /\ so_deleted (f o) = so_deleted o /\ obj_ok (db s) (f o) /\
     abs (db s) (f o) = g (abs (db s) o) /\ so_originStorage (f o) = so_originStorage o) ->
  exists s1 o, getStateObject a s = (Returns (Some o), s1) /\ exists s', change a f s1 = (Returns tt, s') /\ undone e s s'.
Proof.
  intros Hc Ha [c Hac] Hundo Hcache Hf. destruct (getStateObject_ok s a Hc Ha) as (r & s1 & E1 & Hr & Hres).
  destruct r as [o|]; [|destruct Hres; congruence]. exists s1, o. split; [done|].
  pose proof (reads_core _ _ Hr) as Hc1. assert (db s1 = db s) as Edb by apply Hr. assert (wobs s1 = wobs s) as Ew by apply Hr.
  destruct (live_ok _ _ _ Hc1 Hres) as (Hao & _ & Hok). destruct (Hf s1 o Hr Hres) as (F1 & F2 & F3 & F4 & F5).
  eexists. split; [by apply change_live|]. pose proof (proj2 Hres) as Hd.
  assert (so_deleted (f o) = false) as Hd' by congruence. destruct Hr as (Hs & _ & Hj).
  split; try (cbn; apply Hs || done).
  - apply core_insert; try done; [congruence|by rewrite Edb].
  - cbn. by rewrite (st_objsDirty _ _ _ Hs).
  - rewrite wobs_objects, Hundo, Ew, Edb, F4 by done. unfold upd_acct. rewrite <- Ew, (live_obs _ _ _ Hres), Edb. done.
  - intros es Hes. apply Hcache in Hes. apply (st_cached _ _ _ Hs) in Hes. cbn in *. eapply cached_ok_mono; [|exact Hes].
    intros b. rewrite cached_insert, F5 by done. unfold fupd. case_decide; [subst b|done]. by rewrite (cached_live _ _ _ Hres).
Qed.

Lemma deref_change s a e f : (exists s1 o, getStateObject a s = (Returns (Some o), s1) /\ exists s', change a f s1 = (Returns tt, s') /\ undone e s s') ->
  exists s', (getStateObject a ≫= fun obj => deref obj ≫= fun _ => change a f) s = (Returns tt, s') /\ undone e s s'.
Proof. intros (s1 & o & E1 & s' & E & H). exists s'. split; [|done]. by rewrite (W_bind_eq _ _ _ _ _ E1). Qed.

Lemma reads_live_ok s s1 a o : reads s s1 -> live s1 a o -> obj_ok (db s) o.
Proof. intros Hr Hl. rewrite <- (st_db _ _ _ (proj1 Hr)). by apply (live_ok _ _ _ (reads_core _ _ Hr) Hl). Qed.

Lemma undo_create s a : core s -> entry_ok (db s) (trie s) (createObjectChange a) (wobs s) ->
  exists s', revert (createObjectChange a) s = (Returns tt, s') /\ undone (createObjectChange a) s s'.
Proof.
  intros Hc (Ha & Hacc & _). eexists. split; [done|]. split; try done.
  - destruct Hc as [H1 H2 H3 H4 H5 H6 H7]. split; try done; cbn.
    + intros b x Hx. rewrite lookup_delete. case_decide; [congruence|]. by apply H3.
    + intros b o. rewrite lookup_delete. case_decide; [done|]. apply H4.
    + intros b n Hn. rewrite lookup_delete. case_decide; [by subst|]. by apply (H6 b n).
  - cbn. intros ->. set_solver.
  - apply obs_eq; try done. intros b. cbn. unfold account_at, fupd. cbn. rewrite lookup_delete.
    destruct (decide (a = b)) as [->|]; [by rewrite decide_True, Hacc|by rewrite decide_False].
  - intros es Hes. cbn in Hes. eapply cached_ok_mono; [|exact Hes]. intros b. unfold fupd, cached. cbn. rewrite lookup_delete.
    destruct (decide (a = b)) as [->|]; [by rewrite decide_True|by rewrite decide_False].
Qed.

Lemma undo_reset s p : core s -> entry_ok (db s) (trie s) (resetObjectChange p) (wobs s) ->
  exists s', revert (resetObjectChange p) s = (Returns tt, s') /\ undone (resetObjectChange p) s s'.
Proof.
  intros Hc (Ha & Hok & Hd & _). eexists. split; [done|]. split; try done; auto.
  - by apply core_insert.
  - by apply wobs_objects.
  - intros es Hes. cbn in Hes. eapply cached_ok_mono; [|exact Hes]. intros b. cbn. by rewrite cached_insert.
Qed.

Lemma undo_log s th : core s -> entry_ok (db s) (trie s) (addLogChange th) (wobs s) ->
  exists s', revert (addLogChange th) s = (Returns tt, s') /\ undone (addLogChange th) s s'.
Proof.
  intros Hc Hne. cbn in Hne. cbn [revert]. set (l := default [] (logs s !! th)) in *. set (n := u64 (logSize s - 1)).
  assert (forall m, (forall h, default [] (m !! h) = fupd (fun h => default [] (logs s !! h)) th (take (length l - 1) l) h) ->
    undone (addLogChange th) s (with_logs s m n)) as Hgo.
  { intros m Hm. split; try done; auto; [|by apply obs_eq]. destruct Hc as [H1 H2 H3 H4 H5 H6 H7]. split; try done. cbn. subst n. unfold u64.
    apply Z.mod_pos_bound. lia. }
  destruct l as [|x l'] eqn:El; [done|]. cbn [length Nat.eqb]. destruct l' as [|y l']; cbn [length Nat.eqb]; eexists; (split; [done|]); apply Hgo; intros h; unfold fupd.
  - rewrite lookup_delete. destruct (decide (th = h)) as [->|]; [by rewrite decide_True|by rewrite decide_False].
  - rewrite lookup_insert. destruct (decide (th = h)) as [->|]; [by rewrite decide_True|by rewrite decide_False].
Qed.

Lemma revert_ok s e : core s -> entry_ok (db s) (trie s) e (wobs s) -> cached_ok [e] (cached (stateObjects s)) ->
  exists s', revert e s = (Returns tt, s') /\ undone e s s'.
Proof.
  intros Hc He Hca. destruct e as [a|p|a prev prevbalance|a prev|a prev|a key prevalue|a prevcode prevhash|prev|th|h|a]; cbn [revert].
  - by apply undo_create.
  - by apply undo_reset.
  - destruct He as [Ha Hac]. cbn [undo] in *.
    destruct (undo_change s a (suicideChange a prev prevbalance) (fun o => setBalance prevbalance (with_suicided o prev)) _
      Hc Ha Hac eq_refl ltac:(done)) as (s1 & o & E1 & s' & E & H).
    + intros s1 o Hr Hl. split_and!; try done. destruct (reads_live_ok _ _ _ _ Hr Hl). by split.
    + exists s'. split; [|done]. by rewrite (W_bind_eq _ _ _ _ _ E1).
  - destruct He as [Ha Hac]. apply deref_change, (undo_change _ _ _ _ (set_balance prev)); try done. intros s1 o Hr Hl. split_and!; try done.
    by apply obj_ok_data, (reads_live_ok _ _ _ _ Hr Hl).
  - destruct He as [Ha Hac]. apply deref_change, (undo_change _ _ _ _ (set_nonce prev)); try done. intros s1 o Hr Hl. split_and!; try done.
    by apply obj_ok_data, (reads_live_ok _ _ _ _ Hr Hl).
  - destruct He as (Ha & Hac & Hv). apply deref_change, (undo_change _ _ _ _ (set_storage key prevalue)); try done; [by intros es g []|].
    intros s1 o Hr Hl. split_and!; try done; [|apply abs_setState]. apply obj_ok_setState; [by apply (reads_live_ok _ _ _ _ Hr Hl)|done|].
    apply (st_cached _ _ _ (proj1 Hr)) in Hca. destruct Hca as [Hk _]. rewrite (cached_live _ _ _ Hl) in Hk. by apply elem_of_dom.
  - destruct He as (Ha & Hac & ->). rewrite Crypto.BytesToHash_full by apply keccak256_length.
    apply deref_change; eapply undo_change; try done. intros s1 o Hr Hl. split_and!; try done.
    + by apply obj_ok_setCode, (reads_live_ok _ _ _ _ Hr Hl).
    + apply acct_eq; try done. cbn. apply code_of_slice.
  - eexists. split; [done|]. split; try done; auto. destruct Hc; by split.
  - by apply undo_log.
  - eexists. split; [done|]. split; try done; auto. destruct Hc; by split.
  - eexists. split; [done|]. split; try done; auto.
Qed.

(** ** Undoing a journal *)

Definition undirty_for (e : journalEntry) (s : WState) : WState :=
  match dirtied e with
  | Some addr => with_journal s (mkJournal (entries (jrnl s)) (undirty addr (dirties (jrnl s))))
  | None => s
  end.

Lemma counted_head e es m a : counted (e :: es) m -> dirtied e = Some a -> is_Some (m !! a).
Proof.
  intros H He. specialize (H a). rewrite filter_cons_True in H by done. destruct (m !! a); [eauto|]. cbn in H. lia.
Qed.

Lemma undirty_core e es s : core s -> counted (e :: es) (dirties (jrnl s)) -> core (undirty_for e s).
Proof.
  intros Hc Hn. unfold undirty_for. destruct (dirtied e) as [a|] eqn:E; [|done]. destruct (counted_head _ _ _ _ Hn E) as [n' Hn'].
  destruct Hc as [H1 H2 H3 H4 H5 H6 H7]. split; try done. intros b n. cbn. unfold undirty. rewrite Hn'. cbn.
  destruct (decide (b = a)) as [->|Hne]; [intros _; by apply (H6 a n')|].
  case_match; [rewrite lookup_delete_ne by done|rewrite lookup_insert_ne by done]; apply H6.
Qed.

Lemma undirty_for_same e s : let s' := undirty_for e s in
  db s' = db s /\ trie s' = trie s /\ entries (jrnl s') = entries (jrnl s) /\ validRevisions s' = validRevisions s /\
  nextRevisionID s' = nextRevisionID s /\ wobs s' = wobs s /\ stateObjects s' = stateObjects s /\ stateObjectsDirty s' = stateObjectsDirty s.
Proof. unfold undirty_for. by destruct (dirtied e). Qed.

Lemma cached_ok_prefix es es' g : cached_ok (es ++ es') g -> cached_ok es g.
Proof. revert g. induction es as [|e es IH]; intros g; [done|]. destruct e; cbn; eauto. intros []. eauto. Qed.

Lemma counted_perm es es' m : es ≡ₚ es' -> counted es m -> counted es' m.
Proof. intros Hp H a. specialize (H a). by rewrite <- Hp. Qed.

Lemma counted_undirty e es s : counted (e :: es) (dirties (jrnl s)) -> counted es (dirties (jrnl (undirty_for e s))).
Proof.
  intros H a. specialize (H a). unfold undirty_for. rewrite filter_cons in H. destruct (dirtied e) as [b|]; [cbn|by rewrite decide_False in H].
  unfold undirty. destruct (decide (Some b = Some a)) as [[= ->]|Hne].
  - cbn in H. destruct (Z.eqb_spec (default 0%Z (dirties (jrnl s) !! a) - 1) 0) as [E|].
    + rewrite lookup_delete_eq. cbn. lia.
    + rewrite lookup_insert_eq. cbn. lia.
  - assert (b <> a) by congruence. case_match; [rewrite lookup_delete_ne by done|rewrite lookup_insert_ne by done]; lia.
Qed.

Lemma counted_prefix es es' m : counted (es ++ es') m -> counted es m.
Proof. intros H a. specialize (H a). rewrite filter_app, length_app in H. lia. Qed.

(** Undoing [es] leads to [s']. *)
Record unwound (es : list journalEntry) (s s' : WState) : Prop := mk_unwound {
  uw_core : core s';
  uw_db : db s' = db s;
  uw_trie : trie s' = trie s;
  uw_entries : entries (jrnl s') = entries (jrnl s);
  uw_revs : validRevisions s' = validRevisions s;
  uw_next : nextRevisionID s' = nextRevisionID s;
  uw_dirty : stateObjectsDirty s = ∅ -> stateObjectsDirty s' = ∅;
  uw_counted rest : counted (es ++ rest) (dirties (jrnl s)) -> counted rest (dirties (jrnl s'));
  uw_obs : wobs s' = undo_all (db s) es (wobs s);
  uw_cached rest : cached_ok (es ++ rest) (cached (stateObjects s)) -> cached_ok rest (cached (stateObjects s'))
}.

Lemma revertLoop_ok es s : core s -> valid (db s) (trie s) es (wobs s) -> cached_ok es (cached (stateObjects s)) ->
  counted es (dirties (jrnl s)) -> exists s', revertLoop es s = (Returns tt, s') /\ unwound es s s'.
Proof.
  revert s. induction es as [|e es IH]; intros s Hc Hv Hca Hn; [exists s; split; [done|split; try done; auto]|].
  destruct Hv as [He Hv]. destruct (revert_ok s e Hc He (cached_ok_prefix [e] es _ Hca)) as (s1 & E1 & [U1 U2 U3 U4 U5 U6 UD U7 U8]).
  destruct (undirty_for_same e s1) as (V2 & V3 & V4 & V5 & V6 & V7 & V8 & V9). set (s2 := undirty_for e s1) in *.
  destruct (IH s2) as (s' & E' & [W1 W2 W3 W4 W5 W6 WD WC W7 W8]).
  - apply (undirty_core e es); [done|by rewrite U4].
  - by rewrite V2, V3, V7, U2, U3, U7.
  - rewrite V8. by apply U8.
  - apply counted_undirty. by rewrite U4.
  - exists s'. split; [|split; try congruence].
    + cbn [revertLoop]. rewrite (W_bind_eq _ _ _ _ _ E1). rewrite (W_bind_eq _ _ _ tt s2); [done|]. reflexivity.
    + intros Hd. apply WD. rewrite V9. auto.
    + intros rest Hr. apply WC. apply counted_undirty. by rewrite U4.
    + rewrite W7, V2, V7, U7, U2. done.
    + intros rest Hr. apply W8. rewrite V8. by apply U8.
Qed.

(** ** Good states, and their snapshots *)

(** The observation after undoing all but [n] entries. *)
Definition back (s : WState) (n : nat) : Obs := undo_all (db s) (rev (drop n (entries (jrnl s)))) (wobs s).

(** Without the changes of the journal, the accounts are those of the trie. *)
Definition anchored (d : TrieDb) (root : option bytes) (o : Obs) : Prop :=
  forall a, o_acct o a = (fun x => abs d (loaded a x)) <$> account d root a.

Definition earlier (r r' : revision) : Prop := r_id r < r_id r' /\ r_journalIndex r <= r_journalIndex r'.

Record wok (s : WState) : Prop := mk_wok {
  wok_core : core s;
  wok_valid : valid (db s) (trie s) (rev (entries (jrnl s))) (wobs s);
  wok_cached : cached_ok (rev (entries (jrnl s))) (cached (stateObjects s));
  wok_sorted : StronglySorted earlier (validRevisions s);
  wok_revs : Forall (fun r => r_id r < nextRevisionID s /\ r_journalIndex r <= length (entries (jrnl s))) (validRevisions s);
  wok_counted : counted (entries (jrnl s)) (dirties (jrnl s));
  wok_written : stateObjectsDirty s = ∅;
  wok_anchored : anchored (db s) (trie s) (back s 0)
}.

Definition wsnaps (s : WState) : list (nat * Obs) :=
  rev ((fun r => (r_id r, back s (r_journalIndex r))) <$> validRevisions s).

Lemma steps_wok s s' N : wok s -> steps s s' N -> wok s' /\ wsnaps s' = wsnaps s /\ nextRevisionID s' = nextRevisionID s.
Proof.
  intros [H1 H2 H3 H4 H5 H6 H7 H8] [A1 A2 A3 A4 A5 A6 D1 D2 A7 A8 A9]. split_and!; [|unfold wsnaps|done].
  - split; rewrite ?A4, ?A5; try done.
    + rewrite A6, rev_app_distr, A2, A3. apply valid_app. split; [done|]. by rewrite A7.
    + rewrite A6, rev_app_distr. by apply A9.
    + eapply Forall_impl; [exact H5|]. intros r [? ?]. rewrite A6, length_app. lia.
    + auto.
    + by rewrite D1.
    + rewrite A2, A3. unfold back in *. by rewrite A6, A2, !drop_0, rev_app_distr, undo_all_app, A7 in *.
  - rewrite A4. f_equal. apply list_fmap_ext. intros i r Hr. f_equal. unfold back.
    apply (Forall_lookup_1 _ _ _ _ H5) in Hr as [_ Hr]. rewrite A6, A2, drop_app_le, rev_app_distr, undo_all_app, A7 by done. done.
Qed.

Lemma wok_does {A} (c : W A) ans upd s : wok s -> does c ans upd s ->
  exists s', c s = (Returns (ans (wobs s)), s') /\ wok s' /\ wobs s' = upd (wobs s) /\ wsnaps s' = wsnaps s /\ nextRevisionID s' = nextRevisionID s.
Proof. intros Hw (s' & N & E & Hs & Ew). destruct (steps_wok _ _ _ Hw Hs) as (? & ? & ?). by exists s'. Qed.

(** ** Snapshots *)

Lemma back_now s : back s (length (entries (jrnl s))) = wobs s.
Proof. unfold back. by rewrite drop_all. Qed.

Lemma Snapshot_ok s : wok s -> exists s', Snapshot s = (Returns (nextRevisionID s), s') /\ wok s' /\ wobs s' = wobs s /\
  wsnaps s' = (nextRevisionID s, wobs s) :: wsnaps s /\ nextRevisionID s' = S (nextRevisionID s).
Proof.
  intros [H1 H2 H3 H4 H5 H6 H7 H8]. eexists. split; [done|]. split_and!; try done.
  - split; try done; cbn; [destruct H1; by split| |].
    + apply StronglySorted_app_2; [|done|by repeat constructor]. intros r1 r2 Hr1 Hr2. apply list_elem_of_singleton in Hr2 as ->.
      rewrite Forall_forall in H5. destruct (H5 r1 Hr1). by split.
    + apply Forall_app. split; [eapply Forall_impl; [exact H5|]; intros r []; lia|]. repeat constructor; cbn; lia.
  - unfold wsnaps. cbn. rewrite fmap_app, rev_app_distr. cbn. f_equal. f_equal. apply (back_now s).
Qed.

(** Binary search. *)
Lemma searchLoop_ok f n fuel i j : (forall k k', k <= k' < n -> f k = true -> f k' = true) -> i <= j <= n -> j - i <= fuel ->
  (forall k, k < i -> f k = false) -> (forall k, j <= k < n -> f k = true) ->
  let r := searchLoop fuel f i j in r <= n /\ (forall k, k < r -> f k = false) /\ (forall k, r <= k < n -> f k = true).
Proof.
  intros Hmono. revert i j. induction fuel as [|fuel IH]; intros i j Hij Hf Hlo Hhi; cbn [searchLoop].
  { assert (i = j) as -> by lia. split_and!; [lia|done..]. }
  destruct (Nat.ltb_spec i j) as [Hlt|]; [|assert (i = j) as -> by lia; split_and!; [lia|done..]].
  assert (i <= (i + j) / 2 < j) as Hh. { split; [apply Nat.div_le_lower_bound; lia|apply Nat.Div0.div_lt_upper_bound; lia]. }
  destruct (f ((i + j) / 2)) eqn:Eh; cbn [negb]; apply IH; try lia; try done.
  - intros k Hk. eapply Hmono; [|exact Eh]. lia.
  - intros k Hk. destruct (f k) eqn:Ek; [|done]. rewrite (Hmono k ((i + j) / 2)) in Eh; [done|lia|done].
Qed.

Lemma sort_Search_ok f n : (forall k k', k <= k' < n -> f k = true -> f k' = true) ->
  let r := sort_Search n f in r <= n /\ (forall k, k < r -> f k = false) /\ (forall k, r <= k < n -> f k = true).
Proof. intros H. apply searchLoop_ok; [done|lia|lia|lia|lia]. Qed.

Lemma sorted_ids revs i j r r' : StronglySorted earlier revs -> revs !! i = Some r -> revs !! j = Some r' -> i < j -> earlier r r'.
Proof.
  intros Hs Hi Hj Hij. rewrite <- (take_drop j revs) in Hs. eapply StronglySorted_app_1_elem_of; [exact Hs|..].
  - apply list_elem_of_lookup. exists i. by rewrite lookup_take_lt.
  - apply list_elem_of_lookup. exists 0. by rewrite lookup_drop, Nat.add_0_r.
Qed.

(** The search finds the revision. *)
Lemma find_revision revs i r : StronglySorted earlier revs -> revs !! i = Some r ->
  sort_Search (length revs) (fun k => match revs !! k with Some x => r_id r <=? r_id x | None => false end) = i.
Proof.
  intros Hs Hi. set (f := fun k => _). assert (i < length revs) as Hlt by (by eapply lookup_lt_Some).
  assert (forall k, k < length revs -> f k = true <-> i <= k) as Hf.
  { intros k Hk. subst f. cbn. destruct (revs !! k) as [x|] eqn:Ek; [|apply lookup_ge_None in Ek; lia]. rewrite Nat.leb_le. split; intros H.
    - destruct (le_lt_dec i k) as [|Hki]; [done|]. destruct (sorted_ids _ _ _ _ _ Hs Ek Hi Hki). lia.
    - destruct (decide (i = k)) as [->|]; [by simplify_eq|]. destruct (sorted_ids _ i k _ _ Hs Hi Ek); lia. }
  destruct (sort_Search_ok f (length revs)) as (H1 & H2 & H3).
  { intros k k' Hk E. apply Hf; [lia|]. apply Hf in E; lia. }
  set (m := sort_Search (length revs) f) in *. destruct (lt_eq_lt_dec m i) as [[Hm| ->]|Hm]; [|done|].
  - specialize (H3 m ltac:(lia)). apply Hf in H3; lia.
  - specialize (H2 i Hm). assert (f i = true) by (apply Hf; lia). congruence.
Qed.

(** Going back to the journal's first [n] entries. *)
Lemma journal_revert_ok s n : wok s -> n <= length (entries (jrnl s)) -> exists s', journal_revert n s = (Returns tt, s') /\
  core s' /\ db s' = db s /\ trie s' = trie s /\ entries (jrnl s') = take n (entries (jrnl s)) /\ validRevisions s' = validRevisions s /\
  nextRevisionID s' = nextRevisionID s /\ wobs s' = back s n /\ cached_ok (rev (take n (entries (jrnl s)))) (cached (stateObjects s')) /\
  valid (db s) (trie s) (rev (take n (entries (jrnl s)))) (back s n) /\
  counted (entries (jrnl s')) (dirties (jrnl s')) /\ stateObjectsDirty s' = ∅.
Proof.
  intros [H1 H2 H3 H4 H5 H6 H7 H8] Hn. set (es := entries (jrnl s)) in *. set (new := rev (drop n es)). set (old := rev (take n es)).
  assert (rev es = new ++ old) as Ees by (unfold new, old; by rewrite <- rev_app_distr, take_drop).
  rewrite Ees in H2, H3. apply valid_app in H2 as [Hv Hold].
  assert (counted (new ++ old) (dirties (jrnl s))) as Hnum by (apply (counted_perm es); [rewrite <- Ees; apply Permutation_rev|done]).
  destruct (revertLoop_ok new s H1 Hv (cached_ok_prefix _ _ _ H3) (counted_prefix _ _ _ Hnum)) as (s1 & E & [W1 W2 W3 W4 W5 W6 WD WC W7 W8]).
  exists (with_journal s1 (mkJournal (take n es) (dirties (jrnl s1)))). split.
  - unfold journal_revert. rewrite (W_bind_eq _ _ s (jrnl s) s) by done. fold es new. rewrite (W_bind_eq _ _ _ _ _ E).
    destruct (Nat.ltb_spec (length es) n); [lia|done].
  - split_and!; try done; cbn; [destruct W1; by split|by apply W8|..].
    + apply (counted_perm old); [symmetry; apply Permutation_rev|]. by apply WC.
    + by apply WD.
Qed.

Lemma back_back s s' n k : k <= n -> n <= length (entries (jrnl s)) -> db s' = db s -> entries (jrnl s') = take n (entries (jrnl s)) ->
  wobs s' = back s n -> back s' k = back s k.
Proof.
  intros Hk Hn Edb Ee Ew. unfold back at 1. rewrite Ee, Ew, Edb. unfold back. rewrite <- undo_all_app, <- rev_app_distr.
  f_equal. f_equal. rewrite <- (take_drop n (entries (jrnl s))) at 3. rewrite drop_app_le; [done|rewrite length_take; lia].
Qed.

Lemma RevertToSnapshot_ok s i r : wok s -> validRevisions s !! i = Some r -> exists s', RevertToSnapshot (r_id r) s = (Returns tt, s') /\
  wok s' /\ wobs s' = back s (r_journalIndex r) /\ nextRevisionID s' = nextRevisionID s /\
  wsnaps s' = rev (take i ((fun r => (r_id r, back s (r_journalIndex r))) <$> validRevisions s)).
Proof.
  intros Hw Hi. pose proof (wok_sorted _ Hw) as Hs. pose proof (wok_revs _ Hw) as Hf.
  destruct (Forall_lookup_1 _ _ _ _ Hf Hi) as [Hid Hj]. destruct (journal_revert_ok s _ Hw Hj) as (s1 & E & J1 & J2 & J3 & J4 & J5 & J6 & J7 & J8 & J9 & J10 & J11).
  exists (with_revisions s1 (take i (validRevisions s1)) (nextRevisionID s1)).
  assert (forall x, x ∈ take i (validRevisions s) -> r_journalIndex x <= r_journalIndex r) as Hle.
  { intros x Hx. apply list_elem_of_lookup in Hx as [k Hk]. assert (k < i) as Hki.
    { apply lookup_lt_Some in Hk. rewrite length_take in Hk. lia. }
    rewrite lookup_take_lt in Hk by done. by destruct (sorted_ids _ _ _ _ _ Hs Hk Hi Hki). }
  split; [|split_and!]; cbn; try done.
  - unfold RevertToSnapshot. rewrite (W_bind_eq _ _ s (validRevisions s) s) by done. rewrite (find_revision _ i r Hs Hi), Hi, Nat.eqb_refl. cbn [negb].
    by rewrite (W_bind_eq _ _ _ _ _ E).
  - split; cbn; rewrite ?J2, ?J3, ?J4, ?J5, ?J6; try done; [destruct J1; by split|by rewrite <- J7 in J9|..].
    + rewrite <- (take_drop i (validRevisions s)) in Hs. by eapply StronglySorted_app_1_l.
    + rewrite Forall_forall. intros x Hx. split.
      * rewrite Forall_forall in Hf. apply Hf. by eapply subseteq_take.
      * rewrite length_take. specialize (Hle x Hx). lia.
    + by rewrite J4 in J10.
    + assert (back s1 0 = back s 0) as Eb by (by apply (back_back s s1 (r_journalIndex r)); [lia|..]).
      change (back _ 0) with (back s1 0). rewrite Eb. apply Hw.
  - unfold wsnaps. cbn. rewrite J5, <- fmap_take. f_equal. apply list_fmap_ext. intros k x Hx. f_equal.
    apply (back_back s _ (r_journalIndex r)); try done. apply Hle. by eapply list_elem_of_lookup_2.
Qed.

(** ** The database of the virtual machine *)

Definition GetCode_ (a : bytes) : W bytes := c ← GetCode a; mret (default [] c).

(** A method as the interface has it. *)
Definition run {A} (c : W A) (s : WState) : go (A * WState) :=
  match c s with (Returns a, s') => Returns (a, s') | (Panics, _) => Panics end.

Lemma run_eq {A} (c : W A) s a s' : c s = (Returns a, s') -> run c s = Returns (a, s').
Proof. intros E. unfold run. by rewrite E. Qed.

#[export] Instance WorldDB : StateDB := {|
  sdb := WState;
  EvmState.CreateAccount a := run (CreateAccount a);
  EvmState.SubBalance a v := run (SubBalance a v);
  EvmState.AddBalance a v := run (AddBalance a v);
  EvmState.GetBalance a := run (GetBalance a);
  EvmState.GetNonce a := run (GetNonce a);
  EvmState.SetNonce a v := run (SetNonce a v);
  EvmState.GetCodeHash a := run (GetCodeHash a);
  EvmState.GetCode a := run (GetCode_ a);
  EvmState.SetCode a c := run (SetCode a (slice c));
  EvmState.GetCodeSize a := run (GetCodeSize a);
  EvmState.IsContractAddr a := run (IsContractAddr a);
  EvmState.SetError e := run (SetError e);
  EvmState.AddRefund v := run (AddRefund v);
  EvmState.GetRefund := run GetRefund;
  EvmState.GetState a k := run (GetState a k);
  EvmState.SetState a k v := run (SetState a k v);
  EvmState.Suicide a := run (Suicide a);
  EvmState.HasSuicided a := run (HasSuicided a);
  EvmState.Exist a := run (Exist a);
  EvmState.Empty a := run (Empty a);
  EvmState.RevertToSnapshot n := run (RevertToSnapshot n);
  EvmState.Snapshot := run Snapshot;
  EvmState.AddLog l := run (AddLog l);
  EvmState.AddPreimage h p := run (AddPreimage h p);
  EvmState.GetLogs h := run (GetLogs h)
|}.

#[export] Instance WorldView : StateDBView WorldDB := @Build_StateDBView WorldDB wok wobs wsnaps nextRevisionID.

(** A law from what the method does. *)
Lemma law_of {A} (c : W A) ans upd : (forall s, core s -> does c ans upd s) -> op_spec (D := WorldDB) (V := WorldView) (run c) ans upd.
Proof.
  intros H s Hs. destruct (wok_does c ans upd s Hs (H s (wok_core _ Hs))) as (s' & E & Hs'). exists s'. split; [by apply run_eq|exact Hs'].
Qed.

Lemma default_slice c : default [] (slice c) = c.
Proof. by destruct c. Qed.

Lemma GetCode_law s a : core s -> length a = 20 -> does (GetCode_ a) (fun o => code o a) id_obs s.
Proof.
  intros Hc Ha. destruct (GetCode_ok s a Hc Ha) as (c & s' & E & Hr & Ec). apply (does_reads _ _ _ s'); [|done].
  unfold GetCode_. by rewrite (W_bind_eq _ _ _ _ _ E), <- Ec.
Qed.

Lemma GetRefund_ok s : core s -> does GetRefund o_refund id_obs s.
Proof. intros Hc. exists s, []. split; [done|]. split; [by apply steps_refl|done]. Qed.

Lemma SetError_law s e : core s -> does (SetError e) (fun _ => tt) id_obs s.
Proof. intros Hc. destruct (setError_reads s (ErrVM <$> e) Hc) as (s' & E & Hr). by apply (does_reads _ _ _ s'). Qed.

Lemma GetLogs_law s h : core s -> does (GetLogs h) (fun o => o_logs o h) id_obs s.
Proof. intros Hc. exists s, []. split; [done|]. split; [by apply steps_refl|done]. Qed.

Lemma snaps_below s : wok s -> Forall (fun p => p.1 < nextRevisionID s) (wsnaps s).
Proof.
  intros Hw. unfold wsnaps. apply Forall_rev, Forall_fmap. eapply Forall_impl; [apply (wok_revs _ Hw)|]. by intros r [? _].
Qed.

Lemma revert_law s id o later early : wok s -> wsnaps s = later ++ (id, o) :: early -> exists s',
  RevertToSnapshot id s = (Returns tt, s') /\ wok s' /\ wobs s' = o /\ wsnaps s' = early /\ nextRevisionID s' = nextRevisionID s.
Proof.
  intros Hw Es. set (g := fun r => (r_id r, back s (r_journalIndex r))).
  assert (g <$> validRevisions s = rev early ++ (id, o) :: rev later) as Eg.
  { unfold wsnaps in Es. apply (f_equal (@rev _)) in Es. rewrite rev_involutive, rev_app_distr in Es. cbn in Es. by rewrite <- app_assoc in Es. }
  assert ((g <$> validRevisions s) !! length early = Some (id, o)) as Hi.
  { rewrite Eg, lookup_app_r by (rewrite length_rev; lia). by rewrite length_rev, Nat.sub_diag. }
  rewrite list_lookup_fmap in Hi. destruct (validRevisions s !! length early) as [r|] eqn:Er; [|done]. injection Hi as <- <-.
  destruct (RevertToSnapshot_ok s _ r Hw Er) as (s' & H1 & H2 & H3 & H4 & H5). exists s'. split_and!; try done.
  rewrite H5. fold g. rewrite Eg, <- (length_rev early), take_app_length. apply rev_involutive.
Qed.

#[export] Instance WorldLaws : StateDBLaws WorldDB WorldView.
Proof.
  constructor; intros; try (apply law_of; intros s0 Hs0; cbn).
  - by apply CreateAccount_ok.
  - by apply SubBalance_ok.
  - by apply AddBalance_ok.
  - by apply GetBalance_ok.
  - by apply GetNonce_ok.
  - by apply SetNonce_ok.
  - by apply GetCodeHash_ok.
  - by apply GetCode_law.
  - rewrite <- (default_slice c) at 2. by apply SetCode_ok.
  - by apply GetCodeSize_ok.
  - by apply IsContractAddr_ok.
  - by apply SetError_law.
  - by apply AddRefund_ok.
  - by apply GetRefund_ok.
  - by apply GetState_ok.
  - by apply SetState_ok.
  - by apply Suicide_ok.
  - by apply HasSuicided_ok.
  - by apply Exist_ok.
  - by apply Empty_ok.
  - by apply AddLog_ok.
  - by apply AddPreimage_ok.
  - by apply GetLogs_law.
  - by apply snaps_below.
  - destruct (Snapshot_ok s H) as (s' & E & Hs'). exists s'. split; [by apply run_eq|exact Hs'].
  - destruct (revert_law s id o later _ H H0) as (s' & E & Hs'). exists s'. split; [by apply run_eq|exact Hs'].
Qed.

End World.
