(* ===== verification/WorldWrite.v ===== *)
(** * WorldWrite: writing objects to the tries

    The table only grows, which keeps what is read from it; writing the changed slots of an
    object to its storage trie, and its account to the trie of accounts. *)

From S2P Require Import Prelude Crypto EvmState Trie TrieFacts TrieMap TrieRoot WorldState WorldFacts WorldSteps WorldLaws.
Import WorldState.

(** ** Runs without a clash of hashes *)

Definition monoW {A} (c : W A) : Prop := forall s, clash (db s) = true -> clash (db (c s).2) = true.

Definition calm {A} (c : W A) (s : WState) (Q : A -> WState -> Prop) : Prop :=
  clash (db (c s).2) = false -> exists a, (c s).1 = Returns a /\ Q a (c s).2.

Lemma monoW_ret {A} (a : A) : monoW (mret a).
Proof. by intros s. Qed.
Lemma monoW_gets {A} (f : WState -> A) : monoW (gets f).
Proof. by intros s. Qed.
Lemma monoW_panic {A} : monoW (panic (A := A)).
Proof. by intros s. Qed.
Lemma monoW_modify f : (forall s, db (f s) = db s) -> monoW (modify f).
Proof. intros Hf s. cbn. by rewrite Hf. Qed.
Lemma monoW_change a f : monoW (change a f).
Proof. by apply monoW_modify. Qed.
Lemma monoW_object a : monoW (object a).
Proof. intros s. unfold object. by destruct (_ !! _). Qed.
Lemma monoW_on_table {A} (c : M A) : mono c -> monoW (on_table c).
Proof. intros Hc s Hs. unfold on_table. specialize (Hc _ Hs). by destruct (c (db s)) as [[] d]. Qed.
Lemma monoW_setError e : monoW (setError e).
Proof. apply monoW_modify. intros s. by destruct (dbErr s). Qed.

Lemma monoW_bind {A B} (c : W A) (k : A -> W B) : monoW c -> (forall a, monoW (k a)) -> monoW (c ≫= k).
Proof.
  intros Hc Hk s Hs. specialize (Hc s Hs). unfold mbind, W_bind. destruct (c s) as [[a|] s1]; [by apply Hk|done].
Qed.

Create HintDb calm.
#[export] Hint Resolve monoW_ret monoW_gets monoW_panic monoW_change monoW_object monoW_setError : calm.

Ltac monow :=
  repeat first
    [ progress auto with calm
    | apply monoW_bind; [|intros ?]
    | apply monoW_modify; done
    | match goal with |- monoW (match ?x with _ => _ end) => destruct x end
    | match goal with |- monoW (if ?x then _ else _) => destruct x end ].

Lemma calm_ret {A} (a : A) s Q : Q a s -> calm (mret a) s Q.
Proof. intros H _. by exists a. Qed.

Lemma calm_run {A} (c : W A) s a s' Q : c s = (Returns a, s') -> Q a s' -> calm c s Q.
Proof. intros E H _. rewrite E. by exists a. Qed.

Lemma calm_bind {A B} (c : W A) (k : A -> W B) s Q : (forall a, monoW (k a)) -> calm c s (fun a s1 => calm (k a) s1 Q) -> calm (c ≫= k) s Q.
Proof.
  intros Hk Hc. unfold calm, mbind, W_bind in *. destruct (c s) as [[a|] s1] eqn:E; cbn in *; intros Hf.
  - assert (clash (db s1) = false) as H1. { destruct (clash (db s1)) eqn:Hs1; [|done]. by rewrite (Hk a s1 Hs1) in Hf. }
    destruct (Hc H1) as (a' & [= <-] & H). by apply H.
  - by destruct (Hc Hf) as (? & ? & _).
Qed.

(** After a step whose outcome is known. *)
Lemma calm_step {A B} (c : W A) (k : A -> W B) s a s' Q : c s = (Returns a, s') -> calm (k a) s' Q -> calm (c ≫= k) s Q.
Proof. intros E H. unfold calm. by rewrite (W_bind_eq _ _ _ _ _ E). Qed.

Lemma calm_mono {A} (c : W A) s (Q Q' : A -> WState -> Prop) : calm c s Q -> (forall a s', Q a s' -> Q' a s') -> calm c s Q'.
Proof. intros H HQ Hf. destruct (H Hf) as (a & E & Ha). eauto. Qed.

Lemma calm_on_table {A} (c : M A) s (Q : result TrieErr A -> WState -> Prop) :
  (forall r d, c (db s) = (r, d) -> clash d = false ->
     match r with ROk a => Q (Ok a) (with_db s d) | RErr e => Q (Err e) (with_db s d) | _ => False end) ->
  calm (on_table c) s Q.
Proof.
  intros H. unfold calm, on_table. destruct (c (db s)) as [r d]. specialize (H r d eq_refl).
  destruct r; cbn; intros Hf; specialize (H Hf); try done; eauto.
Qed.

Section World.
Context `{C : Crypto} `{K : Keccak} {TC : TrieCodec} {TCL : TrieCodecLaws TC} {R : AccountRlp} {RL : AccountRlpLaws R}.

#[local] Arguments change _ _ _ : simpl never.
#[local] Arguments object _ _ : simpl never.

(** ** Growth of the table *)

Section Grow.
Context (d d' : TrieDb) (Hsub : table d ⊆ table d').

Lemma New_grow root t : Trie.New root d = (ROk t, d) -> Trie.New root d' = (ROk t, d').
Proof.
  unfold Trie.New. destruct root as [h|]; [case_bool_decide; [by intros [= <-]|]|by intros [= <-]].
  destruct (table d !! h) eqn:E; [|done]. intros [= <-]. by rewrite (lookup_weaken _ _ _ _ E Hsub).
Qed.

Lemma stored_grow t m k : contents d t 32 m -> stored d' t k = stored d t k.
Proof.
  intros Hm. unfold stored. destruct (Nat.eqb_spec (length k) 32) as [Hk|]; [|done].
  rewrite (Get_contents _ _ _ _ _ Hm Hk), (Get_contents _ _ _ _ _ (contents_weaken _ _ _ _ _ Hm Hsub) Hk). done.
Qed.

Lemma code_of_grow h c : h = keccak256 (code_of d h c) -> code_of d' h c = code_of d h c.
Proof.
  intros Hh. unfold code_of in *. destruct c as [c|]; [done|]. case_bool_decide as He; [done|].
  destruct (table d !! h) eqn:E; [by rewrite (lookup_weaken _ _ _ _ E Hsub)|]. done.
Qed.

Lemma handle_grow o : obj_ok d o -> handle d' o = handle d o.
Proof.
  intros Hok. unfold handle. destruct (so_trie o) as [t|] eqn:Et; [done|]. pose proof (ok_root _ _ Hok Et) as Er.
  pose proof (New_db (Some (Root (so_data o))) d) as Ed. destruct (Trie.New _ d) as [r x] eqn:En. cbn in Er, Ed. subst r x.
  by rewrite (New_grow _ _ En).
Qed.

Lemma abs_grow o : obj_ok d o -> abs d' o = abs d o.
Proof.
  intros Hok. apply acct_eq; try done; cbn; [by apply code_of_grow, Hok|]. intros k. unfold slot, committed. rewrite (handle_grow _ Hok).
  destruct (ok_trie _ _ Hok) as (m & Hm & _). by rewrite (stored_grow _ _ _ Hm).
Qed.

Lemma obj_ok_grow o : obj_ok d o -> obj_ok d' o.
Proof.
  intros Hok. pose proof (handle_grow o Hok) as Eh. destruct (ok_trie _ _ Hok) as (m & Hm & Hsm).
  destruct Hok as [H1 H2 H3 H4 H5 H6 H7 H8 H9]. split; rewrite ?Eh; try done.
  - by rewrite code_of_grow.
  - intros c Hc Hd. destruct (H2 c Hc Hd) as [|E]; [by left|right]. by eapply lookup_weaken.
  - intros Et. pose proof (H4 Et) as Er. pose proof (New_db (Some (Root (so_data o))) d) as Ed.
    destruct (Trie.New _ d) as [r x] eqn:En. cbn in Er, Ed. subst r x. by rewrite (New_grow _ _ En).
  - exists m. split; [by eapply contents_weaken|done].
  - intros k v Hk. destruct (H7 k v Hk) as [? ->]. split; [done|]. by rewrite (stored_grow _ _ _ Hm).
Qed.

Lemma account_grow root m a : contents d root 20 m -> account d' root a = account d root a.
Proof.
  intros Hm. unfold account. destruct (Nat.eqb_spec (length a) 20) as [Ha|]; [|done].
  rewrite (Get_contents _ _ _ _ _ Hm Ha), (Get_contents _ _ _ _ _ (contents_weaken _ _ _ _ _ Hm Hsub) Ha). done.
Qed.

Lemma tries_ok_grow x : tries_ok d x -> tries_ok d' x.
Proof. intros (Hl & t & m & Ht & Hm & Hs). split; [done|]. exists t, m. split_and!; [by apply New_grow|by eapply contents_weaken|done]. Qed.

Lemma code_ok_grow x : code_ok d x -> code_ok d' x.
Proof. intros H. unfold code_ok in *. by rewrite code_of_grow. Qed.

End Grow.

Lemma core_grow s d' : core s -> table (db s) ⊆ table d' -> core (with_db s d') /\ wobs (with_db s d') = wobs s.
Proof.
  intros Hc Hsub. destruct (core_trie _ Hc) as [m Hm]. destruct (core_utxo _ Hc) as [mu Hmu].
  assert (forall a, account d' (trie s) a = account (db s) (trie s) a) as Ea by (intros; by eapply account_grow).
  split.
  - split; cbn; try apply Hc; intros.
    + exists m. by eapply contents_weaken.
    + rewrite Ea in *. eapply tries_ok_grow; [done|by eapply core_tries].
    + rewrite Ea in *. eapply code_ok_grow; [done|by eapply core_codes].
    + rewrite Ea. destruct (core_objs _ Hc _ _ H) as (H1 & H2 & H3 & H4). split_and!; try done. by eapply obj_ok_grow.
    + rewrite Ea. by apply (core_marked _ Hc a n).
    + exists mu. by eapply contents_weaken.
  - apply obs_eq; try done. intros a. cbn. unfold account_at. cbn. rewrite Ea. destruct (stateObjects s !! a) as [o|] eqn:Eo.
    + destruct (so_deleted o); [done|]. f_equal. apply abs_grow; [done|]. by apply (core_objs _ Hc _ _ Eo).
    + destruct (account (db s) (trie s) a) as [x|] eqn:Ex; [|done]. f_equal. apply abs_grow; [done|].
      apply loaded_ok; [by apply (core_tries _ Hc a)|by apply (core_codes _ Hc a)].
Qed.

(** ** Slots *)

Lemma trimLeft_split v : exists n, v = replicate n x00 ++ trimLeft v.
Proof.
  induction v as [|b v [n IH]]; [by exists 0|]. destruct (decide (b = x00)) as [->|Hb].
  - exists (S n). cbn. by f_equal.
  - exists 0. by destruct b.
Qed.

Lemma BytesToHash_trim v : length v = 32 -> Crypto.BytesToHash (trimLeft v) = v.
Proof.
  intros Hv. destruct (trimLeft_split v) as [n Hn]. set (w := trimLeft v) in *.
  assert (n + length w = 32) as Hl by (rewrite <- Hv, Hn, length_app, length_replicate; done).
  unfold Crypto.BytesToHash, Crypto.SetBytes, Crypto.ZeroHash, Crypto.HashSize. destruct (Nat.ltb_spec 32 (length w)); [lia|].
  rewrite take_replicate, Nat.min_l by lia. rewrite Hn. f_equal. f_equal. lia.
Qed.

Definition slot_enc (v : bytes) : option bytes := if bool_decide (v = Crypto.ZeroHash) then None else Some (rlp_EncodeBytes (trimLeft v)).

Lemma slot_value_enc v : length v = 32 -> slot_value (slot_enc v) = v.
Proof.
  intros Hv. unfold slot_enc, slot_value. case_bool_decide as E; [by rewrite E|].
  pose proof (rlp_bytes_nonempty (trimLeft v)) as Hne. pose proof (rlp_bytes_roundtrip (trimLeft v)) as Hrt.
  destruct (rlp_EncodeBytes (trimLeft v)) as [|x e]; [done|]. rewrite Hrt. by apply BytesToHash_trim.
Qed.

(** An object whose storage trie, opened, holds [m] while its slots are written to it. *)
Record writing (d : TrieDb) (o : stateObject) (t : option bytes) (m : gmap bytes bytes) : Prop := mk_writing {
  wr_trie : so_trie o = Some t;
  wr_contents : contents d t 32 m;
  wr_map : storage_map m;
  wr_origin k v : so_originStorage o !! k = Some v -> length k = 32 /\ v = slot_value (m !! k);
  wr_dirty k v : so_dirtyStorage o !! k = Some v -> length v = 32 /\ is_Some (so_originStorage o !! k);
  wr_err : so_dbErr o = None
}.

Definition val (o : stateObject) (m : gmap bytes bytes) (k : bytes) : bytes := default (slot_value (m !! k)) (so_dirtyStorage o !! k).

(** The same but for the storage. *)
Definition alike (o o' : stateObject) : Prop :=
  so_address o' = so_address o /\ so_data o' = so_data o /\ so_code o' = so_code o /\ so_dirtyCode o' = so_dirtyCode o /\
  so_suicided o' = so_suicided o /\ so_deleted o' = so_deleted o.

Lemma alike_trans o o' o'' : alike o o' -> alike o' o'' -> alike o o''.
Proof. unfold alike. intuition congruence. Qed.

(** The state with the table [d] and the object [o] at [a]. *)
Definition put_obj (s : WState) (d : TrieDb) (a : bytes) (o : stateObject) : WState :=
  with_objects (with_db s d) (<[a := o]> (stateObjects s)).

Lemma put_obj_twice s d a o d' o' : put_obj (put_obj s d a o) d' a o' = put_obj s d' a o'.
Proof. unfold put_obj, with_objects, with_db. cbn. by rewrite insert_insert_eq. Qed.

Lemma put_obj_change s d a o f : change a f (put_obj s d a o) = (Returns tt, put_obj s d a (f o)).
Proof.
  unfold change, modify. do 2 f_equal. unfold put_obj, with_objects. cbn. f_equal. apply map_eq. intros b.
  rewrite lookup_alter, !lookup_insert.
  by repeat case_decide.
Qed.

Lemma put_obj_object s d a o : object a (put_obj s d a o) = (Returns o, put_obj s d a o).
Proof. unfold object, put_obj. cbn. by rewrite lookup_insert_eq. Qed.

Lemma put_obj_table s d a o d' : with_db (put_obj s d a o) d' = put_obj s d' a o.
Proof. done. Qed.

Lemma put_obj_same s a o : stateObjects s !! a = Some o -> put_obj s (db s) a o = s.
Proof. intros E. unfold put_obj. cbn. rewrite insert_id by done. by destruct s. Qed.

Definition put_slot (m : gmap bytes bytes) (k v : bytes) : gmap bytes bytes :=
  match slot_enc v with Some e => <[k := e]> m | None => base.delete k m end.

Lemma put_slot_lookup m k v k' : put_slot m k v !! k' = if decide (k' = k) then slot_enc v else m !! k'.
Proof.
  unfold put_slot. destruct (slot_enc v) as [e|] eqn:E; [rewrite lookup_insert|rewrite lookup_delete];
    (destruct (decide (k' = k)) as [->|]; [by rewrite decide_True|by rewrite decide_False by congruence]).
Qed.

Lemma storage_map_put m k v : storage_map m -> length k = 32 -> length v = 32 -> storage_map (put_slot m k v).
Proof.
  intros Hm Hk Hv k' e. rewrite put_slot_lookup. case_decide; [subst|by apply Hm]. unfold slot_enc. case_bool_decide; [done|].
  intros [= <-]. eauto 10.
Qed.

(** The trie operation for a slot that changes. *)
Lemma write_trie s d a o t m k v (Q : result TrieErr (option bytes) -> WState -> Prop) : contents d t 32 m -> length k = 32 -> length v = 32 ->
  v <> slot_value (m !! k) ->
  (forall d' t', table d ⊆ table d' -> contents d' t' 32 (put_slot m k v) -> Q (Ok t') (put_obj s d' a o)) ->
  calm (on_table (if bool_decide (v = Crypto.ZeroHash) then Trie.Delete t k else Trie.Update t k (rlp_EncodeBytes (trimLeft v)))) (put_obj s d a o) Q.
Proof.
  intros Hw Hk Hv Hne HQ. apply calm_on_table. cbn [db put_obj with_objects with_db]. intros r d' E Hcl.
  unfold put_slot, slot_enc in HQ. destruct (bool_decide (v = Crypto.ZeroHash)) eqn:Ez.
  - destruct (Delete_contents _ _ _ _ _ Hw Hk _ _ E Hcl) as [Hsub H].
    destruct (m !! k) as [e|] eqn:Em; [|by destruct Hne; apply bool_decide_eq_true in Ez]. destruct H as (t' & -> & Hc). by apply HQ.
  - destruct (Update_contents _ _ _ _ _ Hw Hk _ _ _ (rlp_bytes_nonempty _) E Hcl) as [Hsub (t' & -> & Hc)]. by apply HQ.
Qed.

Lemma setError_none o : so_dbErr o = None -> object_setError None o = o.
Proof. destruct o. cbn. by intros ->. Qed.

Lemma writeSlot_ok s d a o t m k v (Q : unit -> WState -> Prop) : writing d o t m -> so_dirtyStorage o !! k = Some v ->
  (forall d' o' t' m', table d ⊆ table d' -> writing d' o' t' m' -> alike o o' -> so_dirtyStorage o' = base.delete k (so_dirtyStorage o) ->
     (forall k', val o' m' k' = val o m k') -> Q tt (put_obj s d' a o')) ->
  calm (writeSlot a k v) (put_obj s d a o) Q.
Proof.
  intros Hw Hd HQ. destruct (wr_dirty _ _ _ _ Hw _ _ Hd) as [Hv [v0 Hv0]]. destruct (wr_origin _ _ _ _ Hw _ _ Hv0) as [Hk Ev0].
  unfold writeSlot. eapply calm_step; [apply put_obj_change|]. eapply calm_step; [apply put_obj_object|]. set (o1 := with_dirty o _).
  assert (forall k' x, base.delete k (so_dirtyStorage o) !! k' = Some x -> k' <> k /\ so_dirtyStorage o !! k' = Some x) as Hdel.
  { intros k' x. rewrite lookup_delete. by case_decide. }
  assert (writing d o1 t m) as Hw1.
  { destruct Hw as [H1 H2 H3 H4 H5 H6]. split; try done. intros k' x [_ E]%Hdel. by apply H5. }
  cbn [so_originStorage o1 with_dirty]. rewrite Hv0. cbn. case_bool_decide as Ev.
  { apply calm_ret, (HQ d o1 t m); try done. intros k'. unfold val. cbn. rewrite lookup_delete. case_decide; [subst|done]. by rewrite Hd. }
  eapply calm_step; [apply put_obj_change|]. set (o2 := with_origin o1 (<[k := v]> (so_originStorage o1))).
  cbn [so_trie o1 with_dirty]. rewrite (wr_trie _ _ _ _ Hw). cbn [default].
  apply calm_bind; [intros; apply monoW_change|]. apply (write_trie s d a o2 t m k v); [apply Hw|done|done|congruence|].
  intros d' t' Hsub Hc. eapply calm_run; [apply put_obj_change|].
  assert (so_dbErr (with_trie o2 t') = None) as He by apply Hw. cbn [err_of]. rewrite (setError_none _ He). clear He.
  apply (HQ d' _ t' (put_slot m k v)); [done| |by repeat split|done|].
  - split; try done; [by apply storage_map_put; [apply Hw| |]| | |apply Hw].
    + intros k' x. cbn. rewrite put_slot_lookup, lookup_insert. destruct (decide (k = k')) as [<-|].
      * rewrite decide_True by done. intros [= <-]. split; [done|]. by rewrite slot_value_enc.
      * rewrite decide_False by congruence. apply Hw.
    + intros k' x [Hn E]%Hdel. destruct (wr_dirty _ _ _ _ Hw _ _ E) as [H1 H2]. split; [done|]. cbn. by rewrite lookup_insert_ne by congruence.
  - intros k'. unfold val. cbn. rewrite lookup_delete, put_slot_lookup. destruct (decide (k = k')) as [<-|].
    + rewrite decide_True by done. rewrite Hd. cbn. by apply slot_value_enc.
    + by rewrite decide_False by congruence.
Qed.

Lemma monoW_writeSlot a k v : monoW (writeSlot a k v).
Proof. unfold writeSlot. monow. apply monoW_on_table. case_bool_decide; apply mono_Update. Qed.

Lemma monoW_writeSlots a kvs : monoW (writeSlots a kvs).
Proof. induction kvs as [|[k v] kvs IH]; cbn; [apply monoW_ret|]. apply monoW_bind; [apply monoW_writeSlot|done]. Qed.

Lemma writeSlots_ok s d a o t m kvs (Q : unit -> WState -> Prop) : writing d o t m -> NoDup kvs.*1 ->
  (forall k v, (k, v) ∈ kvs -> so_dirtyStorage o !! k = Some v) ->
  (forall d' o' t' m', table d ⊆ table d' -> writing d' o' t' m' -> alike o o' ->
     (forall k, so_dirtyStorage o' !! k = if decide (k ∈ kvs.*1) then None else so_dirtyStorage o !! k) ->
     (forall k, val o' m' k = val o m k) -> Q tt (put_obj s d' a o')) ->
  calm (writeSlots a kvs) (put_obj s d a o) Q.
Proof.
  revert d o t m. induction kvs as [|[k v] kvs IH]; intros d o t m Hw Hnd Hin HQ; cbn.
  { apply calm_ret, (HQ d o t m); try done. }
  cbn in Hnd. apply NoDup_cons in Hnd as [Hk Hnd]. apply calm_bind; [intros; apply monoW_writeSlots|].
  eapply writeSlot_ok; [done|apply Hin; left|]. intros d1 o1 t1 m1 Hsub1 Hw1 Ha1 Ed1 Hv1. apply (IH d1 o1 t1 m1); [done|done| |].
  - intros k' v' Hin'. rewrite Ed1, lookup_delete_ne; [apply Hin; by right|]. intros ->. apply Hk. by apply (list_elem_of_fmap_2 fst) in Hin'.
  - intros d2 o2 t2 m2 Hsub2 Hw2 Ha2 Ed2 Hv2. apply (HQ d2 o2 t2 m2); [by etrans|done|by eapply alike_trans| |].
    + intros k'. rewrite Ed2, Ed1. cbn. destruct (decide (k' = k)) as [->|].
      * rewrite lookup_delete_eq. by destruct (decide (k ∈ kvs.*1)), (decide (k ∈ k :: kvs.*1)); set_solver.
      * rewrite lookup_delete_ne by done. destruct (decide (k' ∈ kvs.*1)), (decide (k' ∈ k :: kvs.*1)); set_solver.
    + intros k'. by rewrite Hv2.
Qed.

Lemma writing_of d o : obj_ok d o -> exists m, writing d (with_trie o (handle d o)) (handle d o) m.
Proof.
  intros Hok. destruct (ok_trie _ _ Hok) as (m & Hm & Hsm). exists m. split; try done; [|apply Hok..].
  intros k v E. destruct (ok_origin _ _ Hok _ _ E) as [Hk ->]. split; [done|]. unfold stored. by rewrite (Get_contents _ _ _ _ _ Hm Hk), Hk.
Qed.

Lemma writing_handle d o t m : writing d o t m -> handle d o = t.
Proof. intros Hw. unfold handle. by rewrite (wr_trie _ _ _ _ Hw). Qed.

Lemma slot_val d o t m k : writing d o t m -> slot d o k = val o m k.
Proof.
  intros Hw. unfold slot, val, committed. f_equal. rewrite (writing_handle _ _ _ _ Hw). unfold stored. destruct (_ !! k) as [v|] eqn:E; cbn.
  { by destruct (wr_origin _ _ _ _ Hw _ _ E). }
  destruct (Nat.eqb_spec (length k) 32) as [Hk|Hk]; [by rewrite (Get_contents _ _ _ _ _ (wr_contents _ _ _ _ Hw) Hk)|].
  destruct (m !! k) as [e|] eqn:Em; [|done]. by destruct (wr_map _ _ _ _ Hw _ _ Em).
Qed.

Context {VO : VisitOrder}.

Lemma monoW_New root : monoW (on_table (Trie.New root)).
Proof. apply monoW_on_table. intros s Hs. unfold Trie.New. destruct (match root with Some _ => _ | None => _ end); [|done]. by destruct (table s !! _). Qed.

Lemma monoW_Update t k v : monoW (on_table (Trie.Update t k v)).
Proof. apply monoW_on_table, mono_Update. Qed.

#[local] Hint Resolve monoW_New monoW_Update monoW_writeSlots : calm.

Lemma monoW_getTrie a : monoW (getTrie a).
Proof. unfold getTrie. monow. Qed.

#[local] Hint Resolve monoW_getTrie : calm.

Lemma monoW_updateTrie a : monoW (updateTrie a).
Proof. unfold updateTrie. monow. Qed.

Lemma updateTrie_ok s a o (Q : option bytes -> WState -> Prop) : live s a o -> obj_ok (db s) o ->
  (forall d' o' t' m', table (db s) ⊆ table d' -> writing d' o' t' m' -> alike o o' -> so_dirtyStorage o' = ∅ ->
     (forall k, slot d' o' k = slot (db s) o k) -> Q t' (put_obj s d' a o')) ->
  calm (updateTrie a) s Q.
Proof.
  intros Hl Hok HQ. unfold updateTrie. eapply calm_step; [by apply getTrie_run|].
  destruct (writing_of _ _ Hok) as [m Hw]. set (o1 := with_trie o (handle (db s) o)) in *.
  assert (with_objects s (<[a := o1]> (stateObjects s)) = put_obj s (db s) a o1) as -> by (by destruct s).
  eapply calm_step; [apply put_obj_object|]. apply calm_bind; [intros; monow|].
  eapply writeSlots_ok; [done|apply visit_nodup|by intros k v ?%visit_lookup|]. intros d' o' t' m' Hsub Hw' Ha Ed Hv.
  eapply calm_step; [apply put_obj_object|]. apply calm_ret. rewrite (wr_trie _ _ _ _ Hw'). apply (HQ d' o' t' m'); try done.
  - apply map_eq. intros k. rewrite Ed, lookup_empty. case_decide as Hk; [done|]. destruct (_ !! k) eqn:E; [|done]. destruct Hk. rewrite visit_keys. eauto.
  - intros k. rewrite (slot_val _ _ _ _ _ Hw'), Hv, <- (slot_val _ _ _ _ _ Hw). done.
Qed.

Lemma contents_hash_length d t n m : contents d t n m -> length (Trie.Hash t) = 32.
Proof. intros (mm & Hr & _). destruct t as [h|]; [by eapply rep_hash_length|done]. Qed.

(** The object with its slots written and its root set. *)
Lemma written_ok d d' o o' t m : obj_ok d o -> table d ⊆ table d' -> writing d' o' t m -> alike o o' -> (forall k, slot d' o' k = slot d o k) ->
  length (Trie.Hash t) = 32 -> obj_ok d' (setRoot (Trie.Hash t) o') /\ abs d' (setRoot (Trie.Hash t) o') = abs d o.
Proof.
  intros Hok Hsub Hw (Ea & Ed & Ec & Edc & Es & Edl) Hs Hlen. pose proof (writing_handle _ _ _ _ Hw) as Eh.
  assert (handle d' (setRoot (Trie.Hash t) o') = t) as Eh' by (unfold handle; cbn; by rewrite (wr_trie _ _ _ _ Hw)).
  assert (code_of d' (CodeHash (so_data o)) (so_code o) = code_of d (CodeHash (so_data o)) (so_code o)) as Eco by (apply code_of_grow; [done|apply Hok]).
  split.
  - split; rewrite ?Eh'; cbn; rewrite ?Ed, ?Ec, ?Edc, ?Eco; try done; try apply Hok; try apply Hw.
    + intros c Hc Hd. destruct (ok_written _ _ Hok c Hc Hd) as [|E]; [by left|right]. by eapply lookup_weaken.
    + rewrite (wr_trie _ _ _ _ Hw). done.
    + exists m. split; apply Hw.
    + intros k v E. destruct (wr_origin _ _ _ _ Hw _ _ E) as [Hk ->]. split; [done|].
      unfold stored. by rewrite (Get_contents _ _ _ _ _ (wr_contents _ _ _ _ Hw) Hk), Hk.
  - apply acct_eq; cbn; rewrite ?Ed, ?Ec, ?Eco, ?Es; try done. intros k. rewrite <- Hs. unfold slot, committed. cbn. by rewrite Eh, Eh'.
Qed.

Lemma updateRoot_ok s a o (Q : unit -> WState -> Prop) : live s a o -> obj_ok (db s) o ->
  (forall d' o', table (db s) ⊆ table d' -> obj_ok d' o' -> abs d' o' = abs (db s) o -> so_dirtyStorage o' = ∅ -> so_address o' = so_address o ->
     so_deleted o' = false -> so_suicided o' = so_suicided o -> so_dirtyCode o' = so_dirtyCode o -> Q tt (put_obj s d' a o')) ->
  calm (updateRoot a) s Q.
Proof.
  intros Hl Hok HQ. unfold updateRoot. apply calm_bind; [intros; monow|]. eapply updateTrie_ok; [done..|].
  intros d' o' t' m' Hsub Hw Ha Hd Hs. eapply calm_run; [apply put_obj_change|].
  assert (length (Trie.Hash t') = 32) as Hlen. { exact (contents_hash_length _ _ _ _ (wr_contents _ _ _ _ Hw)). }
 
  destruct (written_ok _ _ _ _ _ _ Hok Hsub Hw Ha Hs Hlen) as [Hok' Habs]. destruct Ha as (E1 & E2 & E3 & E4 & E5 & E6).
  apply HQ; try done. cbn. rewrite E6. apply Hl.
Qed.

(** ** Accounts *)

(** The state with the table [d] and the trie of accounts [t]; an error may have been recorded. *)
Definition put_root (s : WState) (d : TrieDb) (t : option bytes) (e : option WErr) : WState := with_err (with_root (with_db s d) t) e.

(** What the entry [v] of an address says. *)
Definition entry_account (v : bytes) : option Account := match v with [] => None | _ => rlp_DecodeAccount v end.

Lemma account_map d t m a : contents d t 20 m -> length a = 20 -> account d t a = m !! a ≫= entry_account.
Proof. intros Hm Ha. unfold account. rewrite (Get_contents _ _ _ _ _ Hm Ha), Ha. cbn. by destruct (m !! a) as [[]|]. Qed.

Lemma account_short d t a : length a <> 20 -> account d t a = None.
Proof. intros Ha. unfold account. by rewrite (proj2 (Nat.eqb_neq _ _) Ha). Qed.

Lemma account_put d t m d' t' m' a x : contents d t 20 m -> contents d' t' 20 m' -> length a = 20 ->
  (forall b, m' !! b = if decide (b = a) then x else m !! b) ->
  forall b, account d' t' b = if decide (b = a) then x ≫= entry_account else account d t b.
Proof.
  intros Hm Hm' Ha E b. destruct (decide (length b = 20)) as [Hb|Hb].
  - rewrite (account_map _ _ _ _ Hm' Hb), (account_map _ _ _ _ Hm Hb), E. by case_decide.
  - rewrite !account_short by done. case_decide; [by subst|done].
Qed.

Lemma setError_run e s : setError e s = (Returns tt, with_err s (match dbErr s with None => e | Some _ => dbErr s end)).
Proof. unfold setError, modify. destruct s as [?????[]]; done. Qed.

Lemma updateTrieOf_ok s a v m (Q : unit -> WState -> Prop) : contents (db s) (trie s) 20 m -> length a = 20 ->
  (forall d' t' m' e, table (db s) ⊆ table d' -> contents d' t' 20 m' ->
     (forall b, account d' t' b = if decide (b = a) then entry_account v else account (db s) (trie s) b) -> Q tt (put_root s d' t' e)) ->
  calm (updateTrieOf a v) s Q.
Proof.
  intros Hm Ha HQ. unfold updateTrieOf. eapply calm_step; [done|]. apply calm_bind; [intros []; monow|]. apply calm_on_table. intros r d' E Hcl.
  destruct (decide (v = [])) as [->|Hv].
  - destruct (Delete_contents _ _ _ _ _ Hm Ha _ _ E Hcl) as [Hsub H]. destruct (m !! a) as [x|] eqn:Ex.
    + destruct H as (t' & -> & Hm'). eapply calm_step; [done|]. eapply calm_run; [apply setError_run|]. apply (HQ d' t' _ _ Hsub Hm').
      apply (account_put _ _ _ _ _ _ _ None Hm Hm' Ha). intros b. rewrite lookup_delete. by repeat case_decide.
    + subst r. eapply calm_step; [done|]. eapply calm_run; [apply setError_run|].
      assert (contents d' (trie s) 20 m) as Hm' by (by eapply contents_weaken).
      match goal with |- Q tt (with_err _ ?e) => specialize (HQ d' (trie s) m e Hsub Hm') end. cbn in HQ |- *. destruct s; apply HQ.
      apply (account_put _ _ _ _ _ _ _ None Hm Hm' Ha). intros b. case_decide; by subst.
  - destruct (Update_contents _ _ _ _ _ Hm Ha _ _ _ Hv E Hcl) as [Hsub (t' & -> & Hm')]. eapply calm_step; [done|].
    eapply calm_run; [apply setError_run|]. apply (HQ d' _ _ _ Hsub Hm'). intros b.
    rewrite (account_put _ _ _ _ _ _ a (Some v) Hm Hm' Ha); [done|]. intros b'. rewrite lookup_insert. by repeat case_decide.
Qed.

Lemma monoW_updateTrieOf a v : monoW (updateTrieOf a v).
Proof. unfold updateTrieOf. monow. Qed.

Lemma monoW_updateRoot a : monoW (updateRoot a).
Proof. unfold updateRoot. monow. Qed.

#[local] Hint Resolve monoW_updateTrieOf monoW_updateTrie monoW_updateRoot : calm.

Lemma monoW_updateStateObject a : monoW (updateStateObject a).
Proof. unfold updateStateObject. monow. Qed.

Lemma monoW_deleteStateObject a : monoW (deleteStateObject a).
Proof. unfold deleteStateObject. monow. Qed.

End World.

#[export] Hint Resolve monoW_New monoW_Update monoW_updateRoot monoW_updateTrie monoW_updateTrieOf monoW_updateStateObject monoW_deleteStateObject : calm.
