(* ===== verification/WorldCommit.v ===== *)
(** * WorldCommit: committing the world state

    [finalise] and [Commit] write the changed accounts to the tries.  A state opened at the roots
    has the accounts of the committed one, but for those that killed themselves. *)

From S2P Require Import Prelude Crypto EvmState Trie TrieFacts TrieMap TrieRoot WorldState WorldFacts WorldSteps WorldLaws WorldWrite.
Import WorldState.

Section World.
Context `{C : Crypto} `{K : Keccak} {TC : TrieCodec} {TCL : TrieCodecLaws TC} {R : AccountRlp} {RL : AccountRlpLaws R} {VO : VisitOrder}.

#[local] Arguments change _ _ _ : simpl never.
#[local] Arguments object _ _ : simpl never.

(** ** One object written *)

(** While objects are written the journal is on its way out. *)
Definition core0 (s : WState) : Prop := core (with_journal s newJournal).

Lemma core_core0 s : core s -> core0 s.
Proof. intros [H1 H2 H3 H4 H5 H6 H7]. by split. Qed.

(** What writing leaves alone. *)
Definition kept (s : WState) := (utxoTrie s, (logs s, logSize s), (thash s, bhash s, txIndex s)).

Definition frame (s s' : WState) : Prop := table (db s) ⊆ table (db s') /\ kept s' = kept s.

Lemma frame_trans s s' s'' : frame s s' -> frame s' s'' -> frame s s''.
Proof. intros [H1 H2] [H3 H4]. split; [by etrans|congruence]. Qed.

(** The object at [a] became [o'], its account in the trie [x]; nothing else changed. *)
Record moved (s : WState) (a : bytes) (o' : stateObject) (x : option Account) (s' : WState) : Prop := mk_moved {
  mv_core : core0 s';
  mv_frame : frame s s';
  mv_objects : stateObjects s' = <[a := o']> (stateObjects s);
  mv_account b : account (db s') (trie s') b = if decide (b = a) then x else account (db s) (trie s) b;
  mv_dirty : stateObjectsDirty s' = stateObjectsDirty s
}.

Lemma New_rep d t n m : contents d t n m -> Trie.New (Some (Trie.Hash t)) d = (ROk t, d).
Proof.
  intros (mm & Hr & _). unfold Trie.New. destruct t as [h|]; cbn; [|by rewrite bool_decide_true].
  destruct (rep_root _ _ _ _ Hr) as [[b Hb] Hz]. rewrite bool_decide_false by done. by rewrite Hb.
Qed.

Lemma obj_tries_ok d o : obj_ok d o -> tries_ok d (so_data o).
Proof.
  intros Hok. split; [apply Hok|]. destruct (ok_trie _ _ Hok) as (m & Hm & Hs). exists (handle d o), m. split_and!; [|done..].
  rewrite (ok_synced _ _ Hok). by eapply New_rep.
Qed.

Lemma moved_intro s a o o' x s' m' : core0 s -> stateObjects s !! a = Some o -> frame s s' -> contents (db s') (trie s') 20 m' ->
  stateObjects s' = <[a := o']> (stateObjects s) -> stateObjectsDirty s' = stateObjectsDirty s ->
  (forall b, account (db s') (trie s') b = if decide (b = a) then x else account (db s) (trie s) b) ->
  obj_ok (db s') o' -> so_address o' = so_address o -> (so_deleted o' = true -> so_suicided o' = true /\ x = None) -> (forall y, x = Some y -> y = so_data o') ->
  moved s a o' x s'.
Proof.
  intros Hc Ho Hf Hm' Eo Ed Ea Hok Haddr Hdel Hx. split; try done. pose proof Hf as [Hsub [= Eu _ El _ _ _]].
  destruct (core_objs _ Hc _ _ Ho) as (Hoa & Hlen & _ & _). split; cbn.
  - eauto.
  - intros b y. rewrite Ea. case_decide; [intros ->; rewrite (Hx y eq_refl); by apply obj_tries_ok|]. intros Hy.
    eapply tries_ok_grow; [done|]. by eapply (core_tries _ Hc).
  - intros b y. rewrite Ea, Eo, lookup_insert. case_decide; [subst; by rewrite decide_True|]. rewrite decide_False by congruence. intros Hy Hn.
    eapply code_ok_grow; [done|]. by eapply (core_codes _ Hc).
  - intros b p. rewrite Ea, Eo, lookup_insert. case_decide as Hb; [subst b; rewrite decide_True by done; intros [= <-]|rewrite decide_False by congruence; intros Hp].
    + split_and!; [congruence|done..].
    + destruct (core_objs _ Hc _ _ Hp) as (H1 & H2 & H3 & H4). split_and!; try done. by eapply obj_ok_grow.
  - rewrite El. apply (core_logs _ Hc).
  - done.
  - rewrite Eu. destruct (core_utxo _ Hc) as [mu Hmu]. exists mu. by eapply contents_weaken.
Qed.

Lemma store_ok s a o d1 o1 : core0 s -> stateObjects s !! a = Some o -> table (db s) ⊆ table d1 -> obj_ok d1 o1 -> so_address o1 = so_address o ->
  so_deleted o1 = false -> account_range (so_data o1) ->
  calm (updateStateObject a) (put_obj s d1 a o1) (fun _ s' => moved s a o1 (Some (so_data o1)) s' /\ abs (db s') o1 = abs d1 o1).
Proof.
  intros Hc Ho Hsub Hok Haddr Hdel Hr. destruct (core_objs _ Hc _ _ Ho) as (Hoa & Hlen & _ & _). destruct (core_trie _ Hc) as [m Hm]. cbn in Hm.
  unfold updateStateObject. eapply calm_step; [apply put_obj_object|]. destruct (rlp_account_total _ Hr) as [b Hb]. rewrite Hb.
  eapply updateTrieOf_ok; [cbn; by eapply contents_weaken|done|]. cbn. intros d' t' m' e Hsub' Hm' Ha. assert (table (db s) ⊆ table d') as Hs' by (by etrans).
  split; [|by apply abs_grow]. eapply moved_intro; try done; cbn.
  - intros b'. rewrite Ha. destruct (decide (b' = a)); [|by eapply account_grow]. pose proof (rlp_account_nonempty _ _ Hb). pose proof (rlp_account_roundtrip _ _ Hr Hb).
    by destruct b.
  - by apply (obj_ok_grow d1).
  - congruence.
  - by intros y [= <-].
Qed.

Lemma delete_ok s a o : core0 s -> stateObjects s !! a = Some o -> so_suicided o = true ->
  calm (deleteStateObject a) s (fun _ s' => moved s a (with_deleted o true) None s').
Proof.
  intros Hc Ho Hsui. destruct (core_objs _ Hc _ _ Ho) as (Hoa & Hlen & Hok & _). destruct (core_trie _ Hc) as [m Hm]. cbn in Hm.
  unfold deleteStateObject. rewrite <- (put_obj_same _ _ _ Ho) at 1. eapply calm_step; [apply put_obj_change|].
  eapply updateTrieOf_ok; [done|done|]. cbn. intros d' t' m' e Hsub' Hm' Ha. eapply moved_intro; try done; cbn. eapply obj_ok_grow; [done|].
  destruct Hok as [H1 H2 H3 H4 H5 H6 H7 H8 H9]. by split.
Qed.

(** ** Finalising *)

Definition same_at (s s' : WState) (a : bytes) : Prop :=
  stateObjects s' !! a = stateObjects s !! a /\ account (db s') (trie s') a = account (db s) (trie s) a.

(** The object at [a] written, or deleted. *)
Definition settled (s s' : WState) (a : bytes) : Prop :=
  match stateObjects s !! a with
  | None => same_at s s' a
  | Some o => exists o', stateObjects s' !! a = Some o' /\ so_suicided o' = so_suicided o /\
      if so_suicided o then so_deleted o' = true /\ account (db s') (trie s') a = None
      else so_deleted o' = false /\ account (db s') (trie s') a = Some (so_data o') /\ abs (db s') o' = abs (db s) o /\ so_dirtyStorage o' = ∅
  end.

Definition ranged (c : Acct) : Prop := (0 <= a_nonce c < 2 ^ 64)%Z /\ (0 <= a_balance c)%Z.

(** The object at [a] can be written. *)
Definition writable (s : WState) (a : bytes) : Prop :=
  forall o, stateObjects s !! a = Some o -> so_suicided o = false -> so_deleted o = false /\ ranged (abs (db s) o).

Lemma ranged_account d o : obj_ok d o -> ranged (abs d o) -> account_range (so_data o).
Proof. intros Hok [H1 H2]. split_and!; [apply H1|apply H1|apply H2|apply Hok]. Qed.

Lemma core0_abs s s' a o : core0 s -> stateObjects s !! a = Some o -> frame s s' -> abs (db s') o = abs (db s) o.
Proof. intros Hc Ho [Hsub _]. apply abs_grow; [done|]. by apply (core_objs _ Hc _ _ Ho). Qed.

Lemma writable_same s s' a : core0 s -> frame s s' -> same_at s s' a -> writable s a -> writable s' a.
Proof. intros Hc Hf [Eo _] H o. rewrite Eo. intros Ho. rewrite (core0_abs _ _ _ _ Hc Ho Hf). by apply H. Qed.

Lemma settled_before s s1 s' a : core0 s -> frame s s1 -> same_at s s1 a -> settled s1 s' a -> settled s s' a.
Proof.
  intros Hc Hf [E1 E2]. unfold settled. rewrite E1. destruct (stateObjects s !! a) as [o|] eqn:Eo; [|by intros [E3 E4]; split; congruence].
  by rewrite (core0_abs _ _ _ _ Hc Eo Hf).
Qed.

Lemma settled_after s s1 s' a : core0 s1 -> frame s1 s' -> settled s s1 a -> same_at s1 s' a -> settled s s' a.
Proof.
  intros Hc Hf Hs [E1 E2]. unfold settled in *. destruct (stateObjects s !! a) as [o|] eqn:Eo; [|by destruct Hs; split; congruence].
  destruct Hs as (o' & Ho' & Es & H). exists o'. rewrite E1, E2, (core0_abs _ _ _ _ Hc Ho' Hf). done.
Qed.

Lemma moved_same s a o' x s' b : moved s a o' x s' -> b <> a -> same_at s s' b.
Proof. intros Hm Hb. split; [by rewrite (mv_objects _ _ _ _ _ Hm), lookup_insert_ne|]. by rewrite (mv_account _ _ _ _ _ Hm), decide_False. Qed.

(** The address [a] dealt with. *)
Record handled (s : WState) (a : bytes) (s' : WState) : Prop := mk_handled {
  hd_core : core0 s';
  hd_frame : frame s s';
  hd_settled : settled s s' a;
  hd_same b : b <> a -> same_at s s' b
}.

Lemma core0_dirty s X : core0 (with_objectsDirty s X) <-> core0 s.
Proof. split; (intros [H1 H2 H3 H4 H5 H6 H7]; by split). Qed.

Lemma finaliseObject_ok s a : core0 s -> writable s a ->
  calm (finaliseObject false a) s (fun _ s' => handled s a s' /\ forall b, b ∈ stateObjectsDirty s' <-> b ∈ stateObjectsDirty s \/ b = a /\ is_Some (stateObjects s !! a)).
Proof.
  intros Hc Hw. unfold finaliseObject. eapply calm_step; [done|]. destruct (stateObjects s !! a) as [o|] eqn:Eo.
  2: { apply calm_ret. split; [|intros b; split; [auto|by intros [?|[_ []]]]]. split; try done. unfold settled. by rewrite Eo. }
  destruct (core_objs _ Hc _ _ Eo) as (Hoa & Hlen & Hok & _). cbn [andb orb]. rewrite orb_false_r. apply calm_bind; [intros; monow|].
  assert (forall o' x s1, moved s a o' x s1 -> settled s (with_objectsDirty s1 ({[a]} ∪ stateObjectsDirty s1)) a ->
    handled s a (with_objectsDirty s1 ({[a]} ∪ stateObjectsDirty s1)) /\
    forall b, b ∈ ({[a]} ∪ stateObjectsDirty s1) <-> b ∈ stateObjectsDirty s \/ b = a /\ is_Some (Some o)) as Hdone.
  { intros o' x s1 Hm Hs. split; [|intros b; rewrite (mv_dirty _ _ _ _ _ Hm); set_solver]. split; [by apply core0_dirty, Hm|apply Hm|done|].
    intros b Hb. by apply (moved_same _ _ _ _ _ _ Hm). }
  destruct (so_suicided o) eqn:Es.
  - eapply calm_mono; [by apply (delete_ok s a o)|]. intros ? s1 Hm. eapply calm_run; [done|]. apply (Hdone _ _ _ Hm).
    unfold settled. rewrite Eo, Es. exists (with_deleted o true). cbn. rewrite (mv_objects _ _ _ _ _ Hm), lookup_insert_eq, (mv_account _ _ _ _ _ Hm), decide_True by done. done.
  - destruct (Hw o Eo Es) as [Hdel Hr]. apply calm_bind; [intros; apply monoW_updateStateObject|].
    eapply updateRoot_ok; [by split|done|]. intros d1 o1 Hsub Hok1 Habs Hdir Hadr Hdel1 Hsui _.
    eapply calm_mono; [apply (store_ok s a o d1 o1); try done; apply (ranged_account d1); [done|by rewrite Habs]|].
    intros ? s1 [Hm Habs1]. eapply calm_run; [done|]. apply (Hdone _ _ _ Hm). unfold settled. rewrite Eo, Es. exists o1. cbn.
    rewrite (mv_objects _ _ _ _ _ Hm), lookup_insert_eq, (mv_account _ _ _ _ _ Hm), decide_True by done. rewrite Hsui. split_and!; try done.
    by rewrite Habs1.
Qed.

Lemma monoW_finaliseLoop b addrs : monoW (finaliseLoop b addrs).
Proof. induction addrs as [|a addrs IH]; cbn; [apply monoW_ret|]. apply monoW_bind; [|done]. unfold finaliseObject. monow. Qed.

Lemma same_trans s s1 s' a : same_at s s1 a -> same_at s1 s' a -> same_at s s' a.
Proof. intros [H1 H2] [H3 H4]. split; congruence. Qed.

Lemma finaliseLoop_ok s addrs : core0 s -> NoDup addrs -> (forall a, a ∈ addrs -> writable s a) ->
  calm (finaliseLoop false addrs) s (fun _ s' => core0 s' /\ frame s s' /\
    (forall a, if decide (a ∈ addrs) then settled s s' a else same_at s s' a) /\
    forall b, b ∈ stateObjectsDirty s' <-> b ∈ stateObjectsDirty s \/ b ∈ addrs /\ is_Some (stateObjects s !! b)).
Proof.
  revert s. induction addrs as [|a addrs IH]; intros s Hc Hnd Hw; cbn.
  { apply calm_ret. split_and!; try done. set_solver. }
  apply NoDup_cons in Hnd as [Hna Hnd]. apply calm_bind; [intros; apply monoW_finaliseLoop|].
  eapply calm_mono; [apply (finaliseObject_ok s a); [done|apply Hw; left]|]. intros ? s1 [[Hc1 Hf1 Hs1 Ho1] Hd1].
  eapply calm_mono.
  { apply IH; [done|done|]. intros b Hb. assert (b <> a) by (intros ->; done). apply (writable_same s s1); [done|done|by apply Ho1|]. apply Hw. by right. }
  intros ? s2 (Hc2 & Hf2 & Hs2 & Hd2). split_and!; [done|by eapply frame_trans| |].
  - intros b. specialize (Hs2 b). destruct (decide (b = a)) as [->|Hb].
    + rewrite decide_False in Hs2 by done. rewrite decide_True by (by left). by apply (settled_after s s1).
    + specialize (Ho1 b Hb). destruct (decide (b ∈ addrs)); [rewrite decide_True by (by right)|rewrite decide_False by (rewrite elem_of_cons; tauto)].
      * by apply (settled_before s s1).
      * by apply (same_trans s s1).
  - intros b. rewrite Hd2, Hd1, elem_of_cons. destruct (decide (b = a)) as [->|Hb]; [tauto|]. rewrite (proj1 (Ho1 b Hb)). tauto.
Qed.

(** ** Committing *)

Lemma put_ok s a o d h v (Q : result TrieErr unit -> WState -> Prop) :
  (forall d', table d ⊆ table d' -> table d' !! h = Some v -> Q (Ok tt) (put_obj s d' a o)) -> calm (on_table (Trie.put h v)) (put_obj s d a o) Q.
Proof.
  intros HQ. apply calm_on_table. unfold Trie.put. intros r d' E Hcl. injection E as <- <-. cbn in *. apply orb_false_iff in Hcl as [_ Hcl].
  apply HQ; cbn; [|apply lookup_insert_eq]. destruct (table d !! h) as [v'|] eqn:Eh.
  - apply negb_false_iff, bool_decide_eq_true in Hcl as ->. by rewrite insert_id.
  - by apply insert_subseteq.
Qed.

(** An object is saved when it is settled and its code is in the table. *)
Definition saved (s s' : WState) (a : bytes) : Prop := settled s s' a /\
  forall o' c, stateObjects s' !! a = Some o' -> so_suicided o' = false -> so_code o' = Some c -> so_dirtyCode o' = false.

Definition clean (s : WState) (a : bytes) : Prop :=
  forall o, stateObjects s !! a = Some o -> so_suicided o = false -> so_dirtyStorage o = ∅.

Lemma updateTrie_clean s d a o : obj_ok d o -> so_deleted o = false -> so_dirtyStorage o = ∅ ->
  updateTrie a (put_obj s d a o) = (Returns (handle d o), put_obj s d a (with_trie o (handle d o))).
Proof.
  intros Hok Hdel Hd. unfold updateTrie. assert (live (put_obj s d a o) a o) as Hl by (split; [apply lookup_insert_eq|done]).
  rewrite (W_bind_eq _ _ _ _ _ (getTrie_run _ _ _ Hl Hok)). cbn [db put_obj with_objects with_db].
  assert (with_objects (put_obj s d a o) (<[a := with_trie o (handle d o)]> (stateObjects (put_obj s d a o))) = put_obj s d a (with_trie o (handle d o))) as ->
    by exact (put_obj_twice s d a o d _).
  rewrite (W_bind_eq _ _ _ _ _ (put_obj_object _ _ _ _)). cbn [so_dirtyStorage with_trie]. rewrite Hd.
  assert (visit (A := bytes) ∅ = []) as -> by (apply Permutation_nil_r; rewrite visit_perm; by rewrite map_to_list_empty).
  cbn [writeSlots]. rewrite (W_bind_eq (mret tt) _ _ tt _ eq_refl), (W_bind_eq _ _ _ _ _ (put_obj_object _ _ _ _)). done.
Qed.

Lemma writeCode_ok s d a o (Q : unit -> WState -> Prop) : obj_ok d o ->
  (forall d' o', table d ⊆ table d' -> obj_ok d' o' -> abs d' o' = abs d o -> so_data o' = so_data o -> so_dirtyStorage o' = so_dirtyStorage o ->
     so_address o' = so_address o -> so_deleted o' = so_deleted o -> so_suicided o' = so_suicided o ->
     (forall c, so_code o' = Some c -> so_dirtyCode o' = false) -> Q tt (put_obj s d' a o')) ->
  calm (writeCode a) (put_obj s d a o) Q.
Proof.
  intros Hok HQ. unfold writeCode. eapply calm_step; [apply put_obj_object|]. destruct (so_code o) as [c|] eqn:Ec; [|by apply calm_ret, HQ; [..|congruence]].
  destruct (so_dirtyCode o) eqn:Ed; [|by apply calm_ret, HQ]. apply calm_bind; [intros; monow|]. apply put_ok. intros d' Hsub Hc.
  eapply calm_run; [apply put_obj_change|]. pose proof (obj_ok_grow _ _ Hsub _ Hok) as Hok'. pose proof (abs_grow _ _ Hsub _ Hok) as Habs.
  apply HQ; try done. destruct Hok' as [H1 H2 H3 H4 H5 H6 H7 H8 H9]. split; try done. cbn. intros c' Hc' _. right. congruence.
Qed.

Definition killed (s : WState) (a : bytes) : bool := match stateObjects s !! a with Some o => so_suicided o | None => false end.

(** The addresses [Commit] writes. *)
Definition pending (s : WState) (a : bytes) : bool := killed s a || bool_decide (a ∈ stateObjectsDirty s).

Definition committed_at (s s' : WState) (a : bytes) : Prop := if pending s a then saved s s' a else same_at s s' a.

Lemma commitObject_ok s a o : core0 s -> stateObjects s !! a = Some o -> (a ∈ stateObjectsDirty s -> writable s a /\ clean s a) ->
  calm (commitObject false a) s (fun r s' => r = Ok tt /\ core0 s' /\ frame s s' /\ stateObjectsDirty s' = stateObjectsDirty s /\
    committed_at s s' a /\ forall b, b <> a -> same_at s s' b).
Proof.
  intros Hc Eo Hw. destruct (core_objs _ Hc _ _ Eo) as (Hoa & Hlen & Hok & _). unfold commitObject.
  rewrite <- (put_obj_same _ _ _ Eo) at 1. eapply calm_step; [apply put_obj_object|]. eapply calm_step; [done|].
  rewrite (put_obj_same _ _ _ Eo). unfold committed_at, pending, killed. rewrite Eo. cbn [andb]. rewrite andb_false_r, orb_false_r.
  destruct (so_suicided o) eqn:Es; cbn [orb].
  - apply calm_bind; [intros; monow|]. eapply calm_mono; [by apply (delete_ok s a o)|]. intros ? s1 Hm. apply calm_ret.
    pose proof Hm as [H1 H2 H3 H4 H5]. split_and!; try done; [|intros b; exact (moved_same _ _ _ _ _ b Hm)]. split.
    + unfold settled. rewrite Eo, Es. exists (with_deleted o true). by rewrite H3, lookup_insert_eq, H4, decide_True.
    + intros o' c. rewrite H3, lookup_insert_eq. intros [= <-]. cbn. congruence.
  - case_bool_decide as Ed; [|apply calm_ret; by split_and!]. destruct (Hw Ed) as [Hwr Hcl].
    destruct (Hwr o Eo Es) as [Hdel Hr]. specialize (Hcl o Eo Es).
    apply calm_bind; [intros; unfold CommitTrie; monow|]. rewrite <- (put_obj_same _ _ _ Eo) at 1. apply writeCode_ok; [done|].
    intros d1 o1 Hsub Hok1 Habs Edt Eds Ead Edl Esu Hco. set (o2 := with_trie o1 (handle d1 o1)).
    assert (CommitTrie a (put_obj s d1 a o1) = (Returns (Ok (handle d1 o1)), put_obj s d1 a o2)) as ECT.
    { unfold CommitTrie. rewrite (W_bind_eq _ _ _ _ _ (updateTrie_clean s d1 a o1 Hok1 ltac:(congruence) ltac:(congruence))).
      rewrite (W_bind_eq _ _ _ _ _ (put_obj_object _ _ _ _)). cbn. by rewrite (ok_err _ _ Hok1). }
    eapply calm_step; [exact ECT|]. apply calm_bind; [intros; monow|]. pose proof (obj_ok_with_trie _ _ Hok1) as Hok2. fold o2 in Hok2.
    assert (abs d1 o2 = abs d1 o1) as Habs2 by done.
    eapply calm_mono; [apply (store_ok s a o d1 o2 Hc Eo Hsub Hok2 Ead (eq_trans Edl Hdel)), (ranged_account d1); [done|by rewrite Habs2, Habs]|].
    intros ? s1 [Hm Habs1]. apply calm_ret. pose proof Hm as [H1 H2 H3 H4 H5]. split_and!; try done; [|intros b; exact (moved_same _ _ _ _ _ b Hm)]. split.
    + unfold settled. rewrite Eo, Es. exists o2. rewrite H3, lookup_insert_eq, H4, decide_True by done. cbn. rewrite Esu. split_and!; try done; congruence.
    + intros o' c. rewrite H3, lookup_insert_eq. intros [= <-] _. apply Hco.
Qed.

Lemma monoW_writeCode a : monoW (writeCode a).
Proof. unfold writeCode. monow. apply monoW_on_table, mono_put. Qed.

#[local] Hint Resolve monoW_writeCode : calm.

Lemma monoW_commitLoop b addrs : monoW (commitLoop b addrs).
Proof.
  induction addrs as [|a addrs IH]; cbn; [apply monoW_ret|]. unfold commitObject, CommitTrie. monow.
Qed.

Lemma saved_before s s1 s' a : core0 s -> frame s s1 -> same_at s s1 a -> saved s1 s' a -> saved s s' a.
Proof. intros Hc Hf Hs [H1 H2]. split; [by apply (settled_before s s1)|done]. Qed.

Lemma saved_after s s1 s' a : core0 s1 -> frame s1 s' -> saved s s1 a -> same_at s1 s' a -> saved s s' a.
Proof. intros Hc Hf [H1 H2] Hs. split; [by apply (settled_after s s1)|]. intros o' c. rewrite (proj1 Hs). apply H2. Qed.

Lemma killed_same s s1 a : same_at s s1 a -> killed s1 a = killed s a.
Proof. intros [E _]. unfold killed. by rewrite E. Qed.

Lemma commitLoop_ok s addrs : core0 s -> NoDup addrs -> (forall a, a ∈ addrs -> is_Some (stateObjects s !! a)) ->
  (forall a, a ∈ addrs -> a ∈ stateObjectsDirty s -> writable s a /\ clean s a) ->
  calm (commitLoop false addrs) s (fun r s' => r = Ok tt /\ core0 s' /\ frame s s' /\
    (forall a, if decide (a ∈ addrs) then committed_at s s' a else same_at s s' a) /\
    forall b, b ∈ stateObjectsDirty s' <-> b ∈ stateObjectsDirty s /\ b ∉ addrs).
Proof.
  revert s. induction addrs as [|a addrs IH]; intros s Hc Hnd Ho Hw; cbn.
  { apply calm_ret. split_and!; try done. intros b. split; [|tauto]. intros H. split; [done|]. apply not_elem_of_nil. }
  apply NoDup_cons in Hnd as [Hna Hnd]. apply calm_bind; [intros []; [apply monoW_bind; [by apply monoW_modify|intros; apply monoW_commitLoop]|monow]|].
  destruct (Ho a ltac:(by left)) as [o Eo].
  eapply calm_mono; [apply (commitObject_ok s a o); [done|done|apply Hw; left]|]. intros ? s1 (-> & Hc1 & Hf1 & Ed1 & Hs1 & Ho1).
  eapply calm_step; [done|]. set (s2 := with_objectsDirty s1 _).
  assert (forall b, same_at s1 s2 b) as Hsame by done.
  assert (forall b, b ∈ addrs -> b <> a /\ same_at s s1 b) as Hin by (intros b Hb; assert (b <> a) by (by intros ->); auto).
  eapply calm_mono.
  { apply IH; [by apply core0_dirty|done| |].
    - intros b Hb. destruct (Hin b Hb) as [_ [E _]]. cbn. rewrite E. apply Ho. by right.
    - intros b Hb Hd. destruct (Hin b Hb) as [Hba Hsb]. destruct (Hw b) as [H1 H2]; [by right|by cbn in Hd; rewrite Ed1, elem_of_difference in Hd; destruct Hd|].
      split; [by apply (writable_same s s1)|]. intros p. cbn. rewrite (proj1 Hsb). apply H2. }
  intros r s3 (-> & Hc3 & Hf3 & Hs3 & Hd3). split_and!; [done|done|by apply (frame_trans s s1)| |].
  - intros b. specialize (Hs3 b). destruct (decide (b = a)) as [->|Hb].
    + rewrite decide_False in Hs3 by done. rewrite decide_True by (by left). unfold committed_at in *. destruct (pending s a).
      * by apply (saved_after s s1).
      * by apply (same_trans s s1).
    + specialize (Ho1 b Hb). destruct (decide (b ∈ addrs)); [rewrite decide_True by (by right)|rewrite decide_False by (rewrite elem_of_cons; tauto)].
      * unfold committed_at in *. assert (pending s2 b = pending s b) as Ep.
        { unfold pending. f_equal; [by apply (killed_same s s2)|]. apply bool_decide_ext. cbn. rewrite Ed1, elem_of_difference, elem_of_singleton. tauto. }
        rewrite Ep in Hs3. destruct (pending s b); [by apply (saved_before s s1)|by apply (same_trans s s1)].
      * by apply (same_trans s s1).
  - intros b. rewrite Hd3. cbn. rewrite Ed1, elem_of_difference, elem_of_singleton, elem_of_cons. tauto.
Qed.

(** ** What is read back *)

(** The account at [a] as the trie has it. *)
Definition reloaded (s : WState) (a : bytes) : option Acct := (fun x => abs (db s) (loaded a x)) <$> account (db s) (trie s) a.

(** The accounts that outlive the block. *)
Definition surviving (c : Acct) : option Acct := if a_suicided c then None else Some c.
Definition survivors (s : WState) (a : bytes) : option Acct := o_acct (wobs s) a ≫= surviving.

(** The accounts can be encoded, and only the empty code has its hash. *)
Definition storable (s : WState) : Prop :=
  forall a c, o_acct (wobs s) a = Some c -> ranged c /\ (a_codeHash c = emptyCodeHash -> a_code c = []).

(** An account made anew over an old one and not changed in another way: the journal does not count
    the address, so that nothing writes it. *)
Definition resets (a : bytes) (e : journalEntry) : bool := match e with resetObjectChange p => bool_decide (so_address p = a) | _ => false end.
Definition blind_reset (s : WState) (a : bytes) : bool :=
  existsb (resets a) (entries (jrnl s)) && bool_decide (dirties (jrnl s) !! a = None).
Definition no_blind_reset (s : WState) : Prop := forall a, blind_reset s a = false.

(** The account that is stored: the surviving one, and the old one where it was blindly reset. *)
Definition written (s : WState) (a : bytes) : option Acct := if blind_reset s a then reloaded s a else survivors s a.

Lemma abs_reload d a o : obj_ok d o -> so_dirtyStorage o = ∅ -> so_suicided o = false ->
  (forall c, so_code o = Some c -> so_dirtyCode o = false) -> (CodeHash (so_data o) = emptyCodeHash -> code_of d (CodeHash (so_data o)) (so_code o) = []) ->
  abs d (loaded a (so_data o)) = abs d o.
Proof.
  intros Hok Hd Hs Hco Hempty. assert (handle d (loaded a (so_data o)) = handle d o) as Eh.
  { unfold handle at 1. cbn. destruct (ok_trie _ _ Hok) as (m & Hm & _). by rewrite (ok_synced _ _ Hok), (New_rep _ _ _ _ Hm). }
  apply acct_eq; try done; cbn [a_code a_storage abs].
  - cbn. destruct (so_code o) as [c|] eqn:Ec; [|done]. unfold code_of in *. case_bool_decide as He; [by rewrite Hempty|].
    destruct (ok_written _ _ Hok c Ec (Hco c eq_refl)) as [|E]; [done|]. by rewrite E.
  - intros k. unfold slot, committed. rewrite Eh. cbn. rewrite Hd, !lookup_empty. cbn. destruct (so_originStorage o !! k) as [v|] eqn:Ev; [|done].
    by destruct (ok_origin _ _ Hok _ _ Ev).
Qed.

Lemma core_account_hash s a c : core s -> account_at s a = Some c -> a_codeHash c = keccak256 (a_code c).
Proof.
  intros Hc. unfold account_at. destruct (stateObjects s !! a) as [o|] eqn:Eo.
  - destruct (so_deleted o); [done|]. intros [= <-]. apply (core_objs _ Hc _ _ Eo).
  - destruct (account _ _ a) as [x|] eqn:Ex; [|done]. intros [= <-]. exact (core_codes _ Hc a x Ex Eo).
Qed.

Lemma undo_elsewhere d e o a : dirtied e <> Some a -> (forall p, e = resetObjectChange p -> so_address p <> a) -> o_acct (undo d e o) a = o_acct o a.
Proof.
  intros Hd Hr. destruct e; cbn in *; try done; unfold fupd; case_decide; subst; try congruence. by destruct (Hr prev).
Qed.

(** An address the journal neither counts nor resets is as the trie has it. *)
Lemma untouched s a : wok s -> blind_reset s a = false -> dirties (jrnl s) !! a = None -> account_at s a = reloaded s a.
Proof.
  intros Hw Hb Ha. pose proof (wok_anchored _ Hw a) as Han. unfold back in Han. rewrite drop_0 in Han. unfold reloaded. rewrite <- Han. clear Han.
  assert (forall e, e ∈ rev (entries (jrnl s)) -> e ∈ entries (jrnl s)) as Hin by (intros e; by rewrite !list_elem_of_In, <- in_rev).
  change (account_at s a) with (o_acct (wobs s) a). generalize (wobs s). induction (rev (entries (jrnl s))) as [|e es IH]; intros o; [done|]. cbn.
  rewrite <- IH; [|intros e' He'; apply Hin; by right]. symmetry. apply undo_elsewhere.
  - intros He. pose proof (wok_counted _ Hw a) as Hn. rewrite Ha in Hn. cbn in Hn.
    assert (e ∈ filter (fun e => dirtied e = Some a) (entries (jrnl s))) as Hf by (apply list_elem_of_filter; split; [done|apply Hin; left]).
    destruct (filter _ _); [by apply not_elem_of_nil in Hf|cbn in Hn; lia].
  - intros p -> Hp. unfold blind_reset in Hb. rewrite bool_decide_true, andb_true_r in Hb by done. apply not_true_iff_false in Hb. apply Hb, existsb_exists.
    exists (resetObjectChange p). split; [apply list_elem_of_In, Hin; by left|by apply bool_decide_eq_true].
Qed.

Lemma undo_reset_or_not d root es a o : valid d root es o -> (forall e, e ∈ es -> dirtied e <> Some a) -> existsb (resets a) es = true ->
  (exists c, o_acct o a = Some c /\ a_suicided c = false) /\ exists p, obj_ok d p /\ o_acct (undo_all d es o) a = Some (abs d p).
Proof.
  revert o. induction es as [|e es IH]; intros o; cbn [valid existsb undo_all]; [done|]. intros [He Hv] Hn Hr.
  assert (forall e', e' ∈ es -> dirtied e' <> Some a) as Hn' by (intros e' He'; apply Hn; by right).
  destruct (resets a e) eqn:Ee.
  - unfold resets in Ee. destruct e as [|p| | | | | | | | |]; try done. apply bool_decide_eq_true in Ee as <-. destruct He as (_ & Hok & _ & Hc). split; [done|].
    destruct (existsb (resets (so_address p)) es) eqn:Er; [by apply (IH _ Hv Hn')|]. exists p. split; [done|].
    assert (o_acct (undo d (resetObjectChange p) o) (so_address p) = Some (abs d p)) as E by (cbn; by rewrite fupd_eq). rewrite <- E.
    generalize (undo d (resetObjectChange p) o). clear -Hn' Er. induction es as [|e es IH]; intros o; [done|]. cbn in *. apply orb_false_elim in Er as [E1 E2].
    rewrite IH; [|done|intros e' He'; apply Hn'; by right]. apply undo_elsewhere; [apply Hn'; by left|]. intros q -> Hq. cbn in E1. by rewrite bool_decide_true in E1.
  - cbn in Hr. destruct (IH _ Hv Hn' Hr) as [Hc Hp]. split; [|done]. rewrite undo_elsewhere in Hc; [done|apply Hn; by left|].
    intros q -> Hq. cbn in Ee. by rewrite bool_decide_true in Ee.
Qed.

(** Where an account was blindly reset, the new one has not killed itself, and the trie has an old
    one with its code. *)
Lemma blindly s a : wok s -> blind_reset s a = true -> dirties (jrnl s) !! a = None /\ killed s a = false /\
  (exists o, stateObjects s !! a = Some o /\ so_deleted o = false \/ stateObjects s !! a = None) /\
  forall c, reloaded s a = Some c -> a_codeHash c = keccak256 (a_code c).
Proof.
  intros Hw [Hr Hn%bool_decide_eq_true]%andb_prop. assert (existsb (resets a) (rev (entries (jrnl s))) = true) as Hr'.
  { apply existsb_exists in Hr as (e & He & Hre). apply existsb_exists. exists e. by rewrite <- in_rev. }
  assert (forall e, e ∈ rev (entries (jrnl s)) -> dirtied e <> Some a) as Hd.
  { intros e He Hde. pose proof (wok_counted _ Hw a) as Hc. rewrite Hn in Hc. cbn in Hc.
    assert (e ∈ filter (fun e => dirtied e = Some a) (entries (jrnl s))) as Hf by (apply list_elem_of_filter; split; [done|by rewrite list_elem_of_In, in_rev, <- list_elem_of_In]).
    destruct (filter _ _); [by apply not_elem_of_nil in Hf|cbn in Hc; lia]. }
  destruct (undo_reset_or_not _ _ _ _ _ (wok_valid _ Hw) Hd Hr') as ((c & Hc & Hs) & p & Hok & Hp). split; [done|].
  cbn in Hc. unfold account_at in Hc. split_and!.
  - unfold killed. destruct (stateObjects s !! a) as [o|]; [|done]. destruct (so_deleted o); [done|]. injection Hc as <-. exact Hs.
  - destruct (stateObjects s !! a) as [o|]; [exists o; left; split; [done|by destruct (so_deleted o)]|exists (fresh a); by right].
  - intros x. pose proof (wok_anchored _ Hw a) as Han. unfold back in Han. rewrite drop_0, Hp in Han. unfold reloaded. rewrite <- Han. intros [= <-]. apply Hok.
Qed.

(** What holds of each address at the end: the state has the surviving account, and the trie the
    written one. *)
Definition reads_back (s s' : WState) (a : bytes) : Prop := account_at s' a = survivors s a /\ reloaded s' a = written s a.

Lemma reloaded_grow s s' a : core0 s -> frame s s' -> (forall x, account (db s) (trie s) a = Some x -> code_ok (db s) x) ->
  account (db s') (trie s') a = account (db s) (trie s) a -> reloaded s' a = reloaded s a.
Proof.
  intros Hc [Hsub _] Hco Ea. unfold reloaded. rewrite Ea. destruct (account (db s) (trie s) a) as [x|] eqn:Ex; [|done]. cbn. f_equal.
  apply abs_grow; [done|]. apply loaded_ok; [by eapply (core_tries _ Hc)|by apply Hco].
Qed.

Lemma reloaded_code s a x : account (db s) (trie s) a = Some x -> (forall c, reloaded s a = Some c -> a_codeHash c = keccak256 (a_code c)) -> code_ok (db s) x.
Proof. intros Ex H. unfold reloaded in H. rewrite Ex in H. exact (H _ eq_refl). Qed.

Lemma reloaded_survives s a : reloaded s a ≫= surviving = reloaded s a.
Proof. unfold reloaded. by destruct (account _ _ a). Qed.

Lemma same_reads_back s s' a : core s -> frame s s' -> same_at s s' a -> blind_reset s a = false -> account_at s a = reloaded s a -> reads_back s s' a.
Proof.
  intros Hc Hf [Eo Ea] Hb Hu. unfold reads_back, written. rewrite Hb. assert (survivors s a = reloaded s a) as Es by (unfold survivors; cbn; rewrite Hu; apply reloaded_survives).
  assert (reloaded s' a = reloaded s a) as Er.
  { apply reloaded_grow; [by apply core_core0|done| |done]. intros x Hx. apply (reloaded_code s a x Hx). intros c. rewrite <- Hu. by apply core_account_hash. }
  split; rewrite Es; [|done]. unfold account_at. rewrite Eo. destruct (stateObjects s !! a) as [o|] eqn:E.
  - unfold account_at in Hu. rewrite E in Hu. destruct (so_deleted o); [done|]. rewrite <- Hu. f_equal.
    eapply core0_abs; [by apply core_core0|done|done].
  - rewrite <- Er. unfold reloaded. by destruct (account _ _ a).
Qed.

Lemma blind_reads_back s s' a : wok s -> frame s s' -> same_at s s' a -> blind_reset s a = true -> reads_back s s' a.
Proof.
  intros Hw Hf [Eo Ea] Hb. pose proof (wok_core _ Hw) as Hc. destruct (blindly s a Hw Hb) as (_ & Hk & Ho & Hcode). unfold reads_back, written. rewrite Hb.
  assert (reloaded s' a = reloaded s a) as Er by (apply reloaded_grow; [by apply core_core0|done| |done]; intros x Hx; by apply (reloaded_code s a x Hx)).
  split; [|done].
  unfold survivors. cbn. unfold account_at, killed in *. rewrite Eo. destruct (stateObjects s !! a) as [o|] eqn:E.
  - destruct Ho as [o' [[[= ->] Hd]|]]; [|done]. rewrite Hd. cbn. unfold surviving. cbn. rewrite Hk. f_equal. eapply core0_abs; [by apply core_core0|done|done].
  - change (reloaded s' a = reloaded s a ≫= surviving). by rewrite reloaded_survives.
Qed.

Lemma saved_reads_back s s1 s' a o : core s -> blind_reset s a = false -> core0 s' -> frame s s1 -> storable s -> stateObjects s !! a = Some o -> so_deleted o = false ->
  settled s s1 a -> saved s1 s' a -> reads_back s s' a.
Proof.
  intros Hc Hb Hc' Hf Hst Eo Hdel H1 [H2 Hco]. unfold reads_back, written. rewrite Hb. unfold settled in H1. rewrite Eo in H1. destruct H1 as (o1 & Eo1 & Es1 & H1).
  unfold settled in H2. rewrite Eo1 in H2. destruct H2 as (o2 & Eo2 & Es2 & H2). assert (account_at s a = Some (abs (db s) o)) as Ha.
  { unfold account_at. by rewrite Eo, Hdel. }
  unfold survivors, reloaded. cbn. rewrite Ha. unfold account_at. rewrite Eo2. cbn. unfold surviving. cbn. rewrite Es1 in *. destruct (so_suicided o) eqn:Es.
  - destruct H2 as [-> ->]. done.
  - destruct H2 as (-> & -> & Habs2 & Hd2). destruct H1 as (_ & _ & Habs1 & _). rewrite Habs2, Habs1. split; [done|]. cbn. f_equal. rewrite <- Habs1, <- Habs2.
    destruct (Hst a _ Ha) as [_ Hcode]. destruct (core_objs _ Hc' _ _ Eo2) as (_ & _ & Hok2 & _).
    apply abs_reload; try done; [intros c; apply (Hco o2 c Eo2 Es2)|]. rewrite <- Habs1, <- Habs2 in Hcode. exact Hcode.
Qed.

Lemma monoW_clear : monoW clearJournalAndRefund.
Proof. by apply monoW_modify. Qed.

Lemma frame_same s s' : table (db s') = table (db s) -> kept s' = kept s -> frame s s'.
Proof. intros E ?. split; [by rewrite E|done]. Qed.

(** The state between finalising and the loop of [Commit]. *)
Definition finalised (s : WState) : WState := with_refund (with_revisions (with_journal s newJournal) [] (nextRevisionID s)) 0.

Lemma core0_finalised s : core0 s -> core (finalised s).
Proof. intros [H1 H2 H3 H4 H5 H6 H7]. by split. Qed.

Lemma finalise_ok s : wok s -> storable s ->
  calm (finalise false) s (fun _ s' => core s' /\ jrnl s' = newJournal /\ frame s s' /\
    (forall a, if decide (is_Some (dirties (jrnl s) !! a)) then settled s s' a else same_at s s' a) /\
    forall b, b ∈ stateObjectsDirty s' <-> is_Some (dirties (jrnl s) !! b) /\ is_Some (stateObjects s !! b)).
Proof.
  intros Hw Hst. pose proof (wok_core _ Hw) as Hc. unfold finalise. eapply calm_step; [done|]. apply calm_bind; [intros; apply monoW_clear|].
  eapply calm_mono; [apply finaliseLoop_ok; [by apply core_core0|apply visit_nodup|]|].
  - intros b [n Hn]%visit_keys o Eo Es. pose proof (core_marked _ Hc _ _ Hn) as Hm. rewrite Eo in Hm. split; [done|].
    apply (Hst b). cbn. unfold account_at. by rewrite Eo, Hm.
  - intros ? s1 (Hc1 & Hf1 & Hs1 & Hd1). eapply calm_run; [done|]. change (with_refund _ 0) with (finalised s1).
    split_and!; [by apply core0_finalised|done|apply Hf1| |].
    + intros b. specialize (Hs1 b). destruct (decide (is_Some (dirties (jrnl s) !! b))) as [Ha|Ha]; [rewrite decide_True in Hs1 by (by apply visit_keys)|rewrite decide_False in Hs1 by (by rewrite visit_keys)]; exact Hs1.
    + intros b. cbn. rewrite Hd1, (wok_written _ Hw), visit_keys. set_solver.
Qed.

Lemma deleted_reads_back s s1 s2 a : blind_reset s a = false -> account_at s a = reloaded s a -> same_at s s1 a -> saved s1 s2 a -> killed s a = true -> reads_back s s2 a.
Proof.
  intros Hb Hu [Eo1 _] [H2 _] Hk. unfold killed in Hk. unfold settled in H2. rewrite Eo1 in H2. destruct (stateObjects s !! a) as [o|] eqn:Eo; [|done].
  destruct H2 as (o2 & Eo2 & _ & H2). rewrite Hk in H2. destruct H2 as [Hd Hn]. unfold account_at in Hu. rewrite Eo in Hu.
  assert (so_deleted o = true) as Ho.
  { destruct (so_deleted o); [done|]. unfold reloaded in Hu. destruct (account _ _ a); [|done]. injection Hu. cbn. congruence. }
  unfold reads_back, written, survivors, reloaded. rewrite Hb. cbn. unfold account_at. by rewrite Eo2, Hd, Hn, Eo, Ho.
Qed.

Lemma commit_reads_back s s1 s2 a : wok s -> storable s -> frame s s1 -> frame s1 s2 -> core0 s1 -> core0 s2 ->
  (if decide (is_Some (dirties (jrnl s) !! a)) then settled s s1 a else same_at s s1 a) ->
  (a ∈ stateObjectsDirty s1 <-> is_Some (dirties (jrnl s) !! a) /\ is_Some (stateObjects s !! a)) ->
  (if decide (is_Some (stateObjects s1 !! a)) then committed_at s1 s2 a else same_at s1 s2 a) ->
  reads_back s s2 a.
Proof.
  intros Hw Hst Hf1 Hf2 Hc1 Hc2 H1 Hd H2. pose proof (wok_core _ Hw) as Hc. assert (frame s s2) as Hf by (by eapply frame_trans).
  destruct (decide (is_Some (dirties (jrnl s) !! a))) as [Ha|Ha].
  { assert (blind_reset s a = false) as Hb by (unfold blind_reset; destruct Ha as [n ->]; apply andb_false_r).
  - destruct (stateObjects s !! a) as [o|] eqn:Eo.
    + pose proof Ha as [n Hn]. pose proof (core_marked _ Hc _ _ Hn) as Hdel. rewrite Eo in Hdel. pose proof H1 as H1'. unfold settled in H1'. rewrite Eo in H1'.
      destruct H1' as (o1 & Eo1 & _ & _). rewrite decide_True in H2 by eauto. unfold committed_at, pending in H2.
      rewrite bool_decide_true, orb_true_r in H2 by (apply Hd; eauto). by apply (saved_reads_back s s1 s2 a o).
    + pose proof H1 as Hs. unfold settled in Hs. rewrite Eo in Hs. rewrite (proj1 Hs), Eo, decide_False in H2 by (by intros []).
      apply same_reads_back; try done; [by eapply same_trans|]. destruct Ha as [n Hn]. pose proof (core_marked _ Hc _ _ Hn) as Hm. rewrite Eo in Hm.
      unfold account_at, reloaded. by rewrite Eo, Hm. }
  assert (dirties (jrnl s) !! a = None) as Hn by (destruct (_ !! a); [by destruct Ha; eauto|done]).
  assert (pending s1 a = killed s a) as Ep.
  { unfold pending. rewrite bool_decide_false, orb_false_r by (by rewrite Hd; intros []). by apply killed_same. }
  assert (killed s a = false -> same_at s s2 a) as Hsame.
  { intros Hk. apply (same_trans s s1); [done|]. destruct (decide (is_Some (stateObjects s1 !! a))) as [Hs|Hs]; [|done]. unfold committed_at in H2. by rewrite Ep, Hk in H2. }
  destruct (blind_reset s a) eqn:Hb; [destruct (blindly s a Hw Hb) as (_ & Hk & _); by apply blind_reads_back; [..|apply Hsame|]|].
  pose proof (untouched s a Hw Hb Hn) as Hu. destruct (killed s a) eqn:Hk; [|by apply same_reads_back; [..|apply Hsame| |]].
  assert (is_Some (stateObjects s1 !! a)) as Ho.
  { unfold pending, killed in Ep. destruct (stateObjects s1 !! a); [done|]. rewrite bool_decide_false in Ep by (by rewrite Hd; intros []). done. }
  rewrite decide_True in H2 by done. unfold committed_at in H2. rewrite Ep in H2. by apply (deleted_reads_back s s1).
Qed.

(** A state without changes. *)
Lemma wok_fresh s : core s -> jrnl s = newJournal -> validRevisions s = [] -> stateObjectsDirty s = ∅ -> (forall a, account_at s a = reloaded s a) -> wok s.
Proof.
  intros Hc Hj Hv Hd Ha. split; try done; rewrite ?Hj, ?Hv; try done; try by constructor.
  intros a. unfold back. rewrite Hj. exact (Ha a).
Qed.

(** The state opened at the roots. *)
Definition opened (d : TrieDb) (t u : option bytes) : WState :=
  mkState d t u ∅ ∅ None 0 Crypto.ZeroHash Crypto.ZeroHash 0 ∅ 0 ∅ newJournal [] 0.

Lemma New_opens d t u m mu : contents d t 20 m -> contents d u 20 mu ->
  New (Some (Trie.Hash t)) (Some (Trie.Hash u)) d = Returns (Ok (opened d t u)).
Proof. intros Hm Hu. unfold New. by rewrite (New_rep _ _ _ _ Hm), (New_rep _ _ _ _ Hu). Qed.

Lemma opened_ok s : core s -> (forall a c, reloaded s a = Some c -> a_codeHash c = keccak256 (a_code c)) -> wok (opened (db s) (trie s) (utxoTrie s)).
Proof.
  intros Hc Hh. apply wok_fresh; try done. split; cbn; try apply Hc; try done. intros a x Hx _. apply (reloaded_code s a x Hx). apply Hh.
Qed.

Lemma settled_ready s s1 a o : core s -> storable s -> is_Some (dirties (jrnl s) !! a) -> stateObjects s !! a = Some o -> settled s s1 a -> writable s1 a /\ clean s1 a.
Proof.
  intros Hc Hst [n Hn] Eo Hs. pose proof (core_marked _ Hc _ _ Hn) as Hdel. rewrite Eo in Hdel. unfold settled in Hs. rewrite Eo in Hs.
  destruct Hs as (o1 & Eo1 & Es1 & H1). split; intros p; rewrite Eo1; intros [= <-] Hp; rewrite Es1 in Hp; rewrite Hp in H1.
  - destruct H1 as (Hd1 & _ & -> & _). split; [done|]. apply (Hst a). cbn. unfold account_at. by rewrite Eo, Hdel.
  - apply H1.
Qed.

Definition same_roots (r : result WErr (option bytes * option bytes)) (s : WState) : Prop := r = Ok (trie s, utxoTrie s).

Lemma Commit_ok s : wok s -> storable s ->
  calm (Commit false) s (fun r s' => same_roots r s' /\ (no_blind_reset s -> wok s') /\ (forall a, o_acct (wobs s') a = survivors s a) /\
    exists s2, New (Some (Trie.Hash (trie s'))) (Some (Trie.Hash (utxoTrie s'))) (db s') = Returns (Ok s2) /\ wok s2 /\
      forall a, o_acct (wobs s2) a = written s a).
Proof.
  intros Hw Hst. unfold Commit. apply calm_bind.
  { intros []. repeat first [apply monoW_bind; [|intros]|apply monoW_commitLoop|apply monoW_clear|progress monow]. }
  eapply calm_mono; [by apply finalise_ok|]. intros ? s1 (Hc1 & Hj1 & Hf1 & Hs1 & Hd1).
  eapply calm_step; [done|]. rewrite Hj1. change (dom (dirties newJournal) ∪ stateObjectsDirty s1) with ((∅ : gset bytes) ∪ stateObjectsDirty s1).
  assert (∅ ∪ stateObjectsDirty s1 = stateObjectsDirty s1) as -> by set_solver. assert (with_objectsDirty s1 (stateObjectsDirty s1) = s1) as -> by (by destruct s1).
  eapply calm_step; [done|]. apply calm_bind; [intros; monow; apply monoW_clear|].
  eapply calm_mono; [apply commitLoop_ok; [by apply core_core0|apply visit_nodup|by intros b ?%visit_keys|]|].
  - intros b _ [Hn Ho]%Hd1. specialize (Hs1 b). rewrite decide_True in Hs1 by done. destruct Ho as [o Eo].
    by apply (settled_ready s s1 b o); [apply Hw|..].
  - intros r s2 (-> & Hc2 & Hf2 & Hs2 & Hd2). eapply calm_step; [done|]. eapply calm_step; [done|]. apply calm_ret. fold (finalised s2).
    assert (forall a, reads_back s s2 a) as Hrb.
    { intros b. apply (commit_reads_back s s1 s2 b Hw Hst Hf1 Hf2 (core_core0 _ Hc1) Hc2 (Hs1 b) (Hd1 b)). specialize (Hs2 b).
      destruct (decide (is_Some (stateObjects s1 !! b))) as [H|H]; [rewrite decide_True in Hs2 by (by apply visit_keys)|rewrite decide_False in Hs2 by (by rewrite visit_keys)]; done. }
    apply core0_finalised in Hc2. assert (forall a c, written s a = Some c -> a_codeHash c = keccak256 (a_code c)) as Hh.
    { intros b c. unfold written. destruct (blind_reset s b) eqn:Hb; [by destruct (blindly s b Hw Hb) as (_ & _ & _ & ?); auto|]. unfold survivors. destruct (o_acct (wobs s) b) as [c'|] eqn:E; [|done]. cbn. unfold surviving. destruct (a_suicided c'); [done|].
      intros [= <-]. exact (core_account_hash s b _ (wok_core _ Hw) E). }
    assert (no_blind_reset s -> wok (finalised s2)) as Hw2.
    { intros Hnb. apply wok_fresh; try done; [|intros b; destruct (Hrb b) as [H1 H2]; unfold written in H2; rewrite Hnb in H2; exact (eq_trans H1 (eq_sym H2))].
      cbn. apply set_eq. intros b. rewrite Hd2, visit_keys, Hd1. specialize (Hs1 b). split; [|set_solver]. intros [[Hb1 [o Eo]] Hb2]. destruct Hb2.
      rewrite decide_True in Hs1 by done. unfold settled in Hs1. rewrite Eo in Hs1. destruct Hs1 as (o1 & Eo1 & _). eauto. }
    destruct (core_trie _ Hc2) as [m Hm]. destruct (core_utxo _ Hc2) as [mu Hmu]. split_and!; [done|done|intros b; apply (proj1 (Hrb b))|].
    exists (opened (db s2) (trie s2) (utxoTrie s2)). split_and!; [by eapply New_opens|apply (opened_ok (finalised s2) Hc2)|].
    + intros b c E. apply (Hh b). rewrite <- (proj2 (Hrb b)). exact E.
    + intros b. rewrite <- (proj2 (Hrb b)). cbn. unfold account_at, reloaded. cbn. by destruct (account _ _ b).
Qed.

End World.
