(* ===== verification/WorldMain.v ===== *)
(** * WorldMain: what the world state guarantees

    [Refine]: programs of the interface's operations answer the same on the world state, which
    keeps a journal of changes, as on the abstract database, which keeps a copy of everything at
    each snapshot; they panic together, too.  Then the theorems about committing and about the
    virtual machine on the world state, with witnesses on a concrete table, encoding and hash. *)

From S2P Require Import Prelude Crypto Trie TrieFacts TrieMap TrieRoot EvmMath EvmState EvmMachine EvmPrecompile Evm EvmInv EvmTable EvmSafe EvmMain WorldState WorldFacts WorldSteps WorldLaws WorldWrite WorldCommit.

Module Refine.
Import RefDB.

(** ** Programs *)

Inductive StateOp :=
  | OpCreateAccount (a : bytes) | OpSubBalance (a : bytes) (v : Z) | OpAddBalance (a : bytes) (v : Z) | OpGetBalance (a : bytes)
  | OpGetNonce (a : bytes) | OpSetNonce (a : bytes) (v : Z) | OpGetCodeHash (a : bytes) | OpGetCode (a : bytes)
  | OpSetCode (a c : bytes) | OpGetCodeSize (a : bytes) | OpIsContractAddr (a : bytes) | OpSetError (e : option EvmErr) | OpAddRefund (v : Z) | OpGetRefund
  | OpGetState (a k : bytes) | OpSetState (a k v : bytes) | OpSuicide (a : bytes) | OpHasSuicided (a : bytes)
  | OpExist (a : bytes) | OpEmpty (a : bytes) | OpRevertToSnapshot (id : nat) | OpSnapshot | OpAddLog (l : Log) | OpAddPreimage (h p : bytes) | OpGetLogs (h : bytes).

Inductive Answer := AUnit | AZ (z : Z) | ABool (b : bool) | ABytes (b : bytes) | AId (n : nat) | ALogs (l : list Log).

(** Addresses are arrays of 20 bytes, keys and values of 32. *)
Definition sized (op : StateOp) : Prop :=
  match op with
  | OpCreateAccount a | OpSubBalance a _ | OpAddBalance a _ | OpGetBalance a | OpGetNonce a | OpSetNonce a _ | OpGetCodeHash a | OpGetCode a
  | OpSetCode a _ | OpGetCodeSize a | OpIsContractAddr a | OpSuicide a | OpHasSuicided a | OpExist a | OpEmpty a => length a = 20
  | OpGetState a k => length a = 20 /\ length k = 32
  | OpSetState a k v => length a = 20 /\ length k = 32 /\ length v = 32
  | _ => True
  end.

Section Programs.
Context `{K : Keccak} {D : StateDB}.

Definition answer {A} (f : A -> Answer) (r : go (A * sdb)) : go (Answer * sdb) :=
  match r with Returns (a, s) => Returns (f a, s) | Panics => Panics end.

Definition exec (op : StateOp) (s : sdb) : go (Answer * sdb) :=
  match op with
  | OpCreateAccount a => answer (fun _ => AUnit) (CreateAccount a s)
  | OpSubBalance a v => answer (fun _ => AUnit) (SubBalance a v s)
  | OpAddBalance a v => answer (fun _ => AUnit) (AddBalance a v s)
  | OpGetBalance a => answer AZ (GetBalance a s)
  | OpGetNonce a => answer AZ (GetNonce a s)
  | OpSetNonce a v => answer (fun _ => AUnit) (SetNonce a v s)
  | OpGetCodeHash a => answer ABytes (GetCodeHash a s)
  | OpGetCode a => answer ABytes (GetCode a s)
  | OpSetCode a c => answer (fun _ => AUnit) (SetCode a c s)
  | OpGetCodeSize a => answer AZ (GetCodeSize a s)
  | OpIsContractAddr a => answer ABool (IsContractAddr a s)
  | OpSetError e => answer (fun _ => AUnit) (SetError e s)
  | OpAddRefund v => answer (fun _ => AUnit) (AddRefund v s)
  | OpGetRefund => answer AZ (GetRefund s)
  | OpGetState a k => answer ABytes (GetState a k s)
  | OpSetState a k v => answer (fun _ => AUnit) (SetState a k v s)
  | OpSuicide a => answer ABool (Suicide a s)
  | OpHasSuicided a => answer ABool (HasSuicided a s)
  | OpExist a => answer ABool (Exist a s)
  | OpEmpty a => answer ABool (Empty a s)
  | OpRevertToSnapshot id => answer (fun _ => AUnit) (RevertToSnapshot id s)
  | OpSnapshot => answer AId (Snapshot s)
  | OpAddLog l => answer (fun _ => AUnit) (AddLog l s)
  | OpAddPreimage h p => answer (fun _ => AUnit) (AddPreimage h p s)
  | OpGetLogs h => answer ALogs (GetLogs h s)
  end.

(** A program's answers, in order. *)
Fixpoint exec_all (ops : list StateOp) (s : sdb) : go (list Answer * sdb) :=
  match ops with
  | [] => Returns ([], s)
  | op :: ops =>
      match exec op s with
      | Panics => Panics
      | Returns (x, s) => match exec_all ops s with Panics => Panics | Returns (xs, s) => Returns (x :: xs, s) end
      end
  end.

End Programs.

Section Refine.
Context `{C : Crypto} `{K : Keccak} {TC : TrieCodec} {TCL : TrieCodecLaws TC} {R : AccountRlp} {RL : AccountRlpLaws R}.

(** The world state and the abstract database agree. *)
Definition agree (s : WorldState.WState) (r : ref) : Prop :=
  wok s /\ wobs s = r_obs r /\ wsnaps s = r_snaps r /\ WorldState.nextRevisionID s = r_next r.

Definition agree_res {A} (x : go (A * WorldState.WState)) (y : go (A * ref)) : Prop :=
  match x, y with
  | Returns (a, s), Returns (b, r) => a = b /\ agree s r
  | Panics, Panics => True
  | _, _ => False
  end.

Lemma agree_op {A} (op : WorldState.WState -> go (A * WorldState.WState)) ans upd (f : A -> Answer) s r :
  op_spec (D := WorldDB) (V := WorldView) op ans upd -> agree s r ->
  agree_res (answer (D := WorldDB) f (op s)) (answer (D := RefDB) f (ref_op ans upd r)).
Proof.
  intros Hop (Hw & Ho & Hs & Hn). destruct (Hop s Hw) as (s' & -> & Hw' & Ho' & Hs' & Hn'). cbn in *.
  split; [by rewrite Ho|]. split_and!; cbn; congruence.
Qed.

Lemma find_snap_split id l o early : find_snap id l = Some (o, early) -> exists later, l = later ++ (id, o) :: early /\ id ∉ later.*1.
Proof.
  induction l as [|[i p] l IH]; [done|]. cbn. case_decide as Hi.
  - intros [= <- <-]. subst i. exists []. split; [done|apply not_elem_of_nil].
  - intros (later & -> & Hn)%IH. exists ((i, p) :: later). split; [done|]. cbn. rewrite elem_of_cons. intuition congruence.
Qed.

Lemma find_snap_none id l : find_snap id l = None -> id ∉ l.*1.
Proof.
  induction l as [|[i p] l IH]; cbn; [intros _; apply not_elem_of_nil|]. case_decide; [done|]. intros Hf. rewrite elem_of_cons. apply IH in Hf. intuition congruence.
Qed.

(** Going back to a revision that is not there. *)
Lemma revert_unknown s id : id ∉ (wsnaps s).*1 -> run (WorldState.RevertToSnapshot id) s = Panics.
Proof.
  intros Hn. unfold run, WorldState.RevertToSnapshot. rewrite (W_bind_eq _ _ s (WorldState.validRevisions s) s) by done.
  destruct (WorldState.validRevisions s !! _) as [r|] eqn:Er; [|done]. destruct (Nat.eqb_spec (WorldState.r_id r) id) as [Hid|]; [|done].
  destruct Hn. apply list_elem_of_fmap. eexists (_, _). split; [symmetry; exact Hid|]. unfold wsnaps. apply list_elem_of_In, in_rev. rewrite rev_involutive.
  apply list_elem_of_In, (list_elem_of_fmap_2 (fun r => (WorldState.r_id r, back s (WorldState.r_journalIndex r)))), (list_elem_of_lookup_2 _ _ _ Er).
Qed.

Lemma agree_revert id s r : agree s r ->
  agree_res (answer (D := WorldDB) (fun _ => AUnit) (RevertToSnapshot (StateDB := WorldDB) id s)) (answer (D := RefDB) (fun _ => AUnit) (ref_revert id r)).
Proof.
  intros (Hw & Ho & Hs & Hn). unfold ref_revert. destruct (find_snap id (r_snaps r)) as [[o early]|] eqn:Ef.
  - destruct (find_snap_split _ _ _ _ Ef) as (later & El & Hid).
    destruct (law_RevertToSnapshot (D := WorldDB) (V := WorldView) s id o later early Hw) as (s' & E & Hw' & Ho' & Hs' & Hn'); [by rewrite <- El|done|].
    rewrite E. cbn in *. split; [done|]. split_and!; cbn; congruence.
  - apply find_snap_none in Ef. rewrite <- Hs in Ef. cbn. by rewrite (revert_unknown _ _ Ef).
Qed.

Lemma exec_agree op s r : sized op -> agree s r -> agree_res (exec (D := WorldDB) op s) (exec (D := RefDB) op r).
Proof.
  intros Hop Ha. destruct op; cbn [exec]; try (by apply agree_revert);
    try (eapply agree_op; [|done]; first
      [ by apply law_CreateAccount | by apply law_SubBalance | by apply law_AddBalance | by apply law_GetBalance | by apply law_GetNonce
      | by apply law_SetNonce | by apply law_GetCodeHash | by apply law_GetCode | by apply law_SetCode | by apply law_GetCodeSize
      | by apply law_IsContractAddr | by apply law_SetError | by apply law_AddRefund | by apply law_GetRefund | by apply law_GetState; destruct Hop
      | by destruct Hop as (? & ? & ?); apply law_SetState | by apply law_Suicide | by apply law_HasSuicided | by apply law_Exist | by apply law_Empty
      | by apply law_AddLog | by apply law_AddPreimage | by apply law_GetLogs ]).
  destruct Ha as (Hw & Ho & Hs & Hn). destruct (law_Snapshot (D := WorldDB) (V := WorldView) s Hw) as (s' & E & Hw' & Ho' & Hs' & Hn').
  rewrite E. cbn in *. split; [by f_equal|]. split_and!; cbn; congruence.
Qed.

Lemma exec_all_agree ops s r : Forall sized ops -> agree s r -> agree_res (exec_all (D := WorldDB) ops s) (exec_all (D := RefDB) ops r).
Proof.
  intros Hs. revert s r. induction Hs as [|op ops Hop Hs IH]; intros s r Ha; cbn [exec_all]; [done|].
  pose proof (exec_agree op s r Hop Ha) as H1. unfold agree_res in *.
  destruct (exec (D := WorldDB) op s) as [[x s1]|], (exec (D := RefDB) op r) as [[y r1]|]; try done.
  destruct H1 as [-> Ha1]. specialize (IH s1 r1 Ha1). destruct (exec_all (D := WorldDB) ops s1) as [[xs s2]|], (exec_all (D := RefDB) ops r1) as [[ys r2]|]; try done.
  destruct IH as (-> & H). done.
Qed.

Definition ref_of (s : WorldState.WState) : ref := mkRef (wobs s) (wsnaps s) (WorldState.nextRevisionID s).

(** C9: the journal is as good as copies: a program of the operations of the state database, with
    snapshots and returns to them in any order, gives the same answers on the world state as on
    the abstract database that copies everything at a snapshot, panics at the same place, if at
    all, and ends with the same accounts, logs, refund counter and snapshots. *)
Theorem journal_refines_copies ops s : wok s -> Forall sized ops ->
  match exec_all (D := WorldDB) ops s, exec_all (D := RefDB) ops (ref_of s) with
  | Returns (xs, s'), Returns (ys, r') => xs = ys /\ wok s' /\ wobs s' = r_obs r' /\ wsnaps s' = r_snaps r'
  | Panics, Panics => True
  | _, _ => False
  end.
Proof.
  intros Hw Hs. pose proof (exec_all_agree ops s (ref_of s) Hs) as Ha. unfold agree_res, ref_of in *. specialize (Ha ltac:(done)).
  destruct (exec_all (D := WorldDB) ops s) as [[xs s']|], (exec_all (D := RefDB) ops _) as [[ys r']|]; try done. by destruct Ha as (-> & ? & ? & ? & _).
Qed.

End Refine.

End Refine.
Import Refine.


Section Main.
Context `{C : Crypto} `{K : Keccak} {TC : TrieCodec} {TCL : TrieCodecLaws TC} {R : AccountRlp} {RL : AccountRlpLaws R}.

(** C10: committing a block's state returns roots, and a state opened at these roots has the
    accounts of the committed one, with their nonces, balances, code and every storage slot; only
    the accounts that killed themselves are gone.  One case differs, because of a bug: an account
    that CreateAccount made anew over an existing one and that nothing changed afterwards is not
    written, so that the opened state still has the old account there; where there is none, the
    committed state is a good one to go on with.  The accounts must fit the encoding (nonces of 64
    bits, balances that are not negative), no code but the empty one may have its hash, and no two
    values stored by the commit may have the same hash. *)
Theorem commit_reload {VO : VisitOrder} s : wok s -> storable s -> clash (WorldState.db (WorldState.Commit false s).2) = false ->
  exists t u s' s2, WorldState.Commit false s = (Returns (Ok (t, u)), s') /\ ((forall a, blind_reset s a = false) -> wok s') /\
    WorldState.New (Some (Trie.Hash t)) (Some (Trie.Hash u)) (WorldState.db s') = Returns (Ok s2) /\ wok s2 /\
    forall a, o_acct (wobs s') a = survivors s a /\ o_acct (wobs s2) a = if blind_reset s a then reloaded s a else survivors s a.
Proof.
  intros Hw Hs Hcl. destruct (Commit_ok s Hw Hs Hcl) as (r & E & Hr & Hw' & Ha' & s2 & En & Hw2 & Ha2). unfold same_roots in Hr. subst r.
  eexists _, _, _, s2. split; [rewrite (surjective_pairing (WorldState.Commit false s)), E; done|]. split_and!; [done..|]. auto.
Qed.

(** a contract call on the world state always ends, unless two codes have the same hash, and
    leaves a good world state; if it fails, the journal has undone it: every account, log and
    refund is as it was. *)
Theorem evm_on_world_state `{EC : Curves} {EL : CurvesLaws EC} `{RC : Rlp} T ctx (g : Global (D := WorldDB)) caller addr input gas value :
  transaction_ok T ctx g caller addr input gas value ->
  match EVM_Call ctx caller addr input gas value g with
  | (XOk (ret, rest, err), g') => (0 <= rest <= gas)%Z /\ wok (g_db g') /\ (is_Some err -> wobs (g_db g') = wobs (g_db g))
  | (XPanic, g') => g_clash g' = true
  | _ => False
  end.
Proof.
  intros H. pose proof (EVM_Call_ok _ _ _ _ _ _ _ _ H) as Hok. unfold EvmInv.wp in Hok.
  destruct (EVM_Call _ _ _ _ _ _ _) as [[[[ret rest] err]|e| |] g']; try done. destruct Hok as [(Hg & _ & ?) Hobs].
  split; [done|]. split; [exact (gok_db _ _ Hg)|exact Hobs].
Qed.

End Main.

(** ** Witnesses *)

Module WorldDemo.
Import ToyTrie EvmDemo.
#[local] Existing Instance mixing.

(** An account as a list of four strings. *)
#[export] Instance toy_rlp : AccountRlp := {|
  rlp_EncodeAccount d := if (0 <=? Balance d)%Z then Some (enc [be_bytes (Nonce d); be_bytes (Balance d); Root d; CodeHash d]) else None;
  rlp_DecodeAccount b := match dec b with Some [n; v; r; c] => Some (mkAccount (be_value n) (be_value v) r c) | _ => None end;
  rlp_EncodeBytes b := enc [b];
  rlp_Split b := match dec b with Some [b] => Some b | _ => None end
|}.

Lemma dec_enc v : dec (enc v) = Some v.
Proof. apply (node_roundtrip (TrieCodecLaws := toy_trie_laws) v (enc v)). done. Qed.

Lemma enc_nonempty b v : enc (b :: v) <> [].
Proof. by destruct b. Qed.

#[export] Instance toy_rlp_laws : AccountRlpLaws toy_rlp.
Proof.
  split.
  - intros d (_ & Hb & _). cbn [rlp_EncodeAccount toy_rlp]. rewrite (proj2 (Z.leb_le _ _) Hb). eauto.
  - intros [n v r c] b (Hn & Hb & _). cbn [rlp_EncodeAccount rlp_DecodeAccount toy_rlp] in *. rewrite (proj2 (Z.leb_le _ _) Hb). intros Eb%(inj Some). rewrite <- Eb.
    rewrite dec_enc, !be_value_be_bytes. cbn in *. by rewrite !Z.abs_eq by lia.
  - intros d b. cbn [rlp_EncodeAccount toy_rlp]. destruct (_ <=? _)%Z; [|done]. intros Eb%(inj Some). rewrite <- Eb. apply enc_nonempty.
  - intros b. cbn [rlp_Split rlp_EncodeBytes toy_rlp]. by rewrite dec_enc.
  - intros b. apply enc_nonempty.
Qed.

#[export] Instance in_order : VisitOrder := {| visit K _ _ A m := map_to_list m; visit_perm K _ _ A m := reflexivity _ |}.

(** A new chain, and what a block does: it pays Alice, deploys a contract, writes its storage, pays
    another contract that kills itself, and undoes a part. *)
Definition genesis : WorldState.WState := opened ToyTrie.empty None None.

Definition key (n : Z) : bytes := be32 n.
Definition mortal : bytes := replicate 20 x07.

Definition block : list StateOp :=
  [OpAddBalance alice 5; OpSetCode contract adder; OpSetState contract (key 1) (key 9); OpSetState contract (key 2) (key 8);
   OpSetState contract (key 2) (key 0); OpAddBalance mortal 3; OpSnapshot; OpSetState contract (key 1) (key 7); OpSubBalance alice 5;
   OpRevertToSnapshot 0; OpSuicide mortal; OpGetState contract (key 1); OpGetBalance alice].

Definition after : WorldState.WState := match exec_all (D := WorldDB) block genesis with Returns (_, s) => s | Panics => genesis end.

Lemma no_account a : account ToyTrie.empty None a = None.
Proof. unfold account. by destruct (_ =? _). Qed.

Lemma genesis_good : wok genesis.
Proof.
  apply wok_fresh; try done. split; cbn [genesis opened WorldState.db WorldState.trie WorldState.utxoTrie WorldState.stateObjects WorldState.logSize WorldState.jrnl]; try done.
  - exists ∅. apply contents_empty.
  - intros a x. by rewrite no_account.
  - intros a x. by rewrite no_account.
  - exists ∅. apply contents_empty.
Qed.

Lemma block_sized : Forall sized block.
Proof. repeat constructor. Qed.

Lemma after_agree : exists xs r, exec_all (D := RefDB.RefDB) block (ref_of genesis) = Returns (xs, r) /\ agree after r.
Proof.
  pose proof (exec_all_agree block genesis (ref_of genesis) block_sized (conj genesis_good (conj eq_refl (conj eq_refl eq_refl)))) as H. unfold after, agree_res in *.
  destruct (exec_all (D := WorldDB) block genesis) as [[xs s]|]; [|done]. destruct (exec_all (D := RefDB.RefDB) block (ref_of genesis)) as [[ys r]|]; [|done].
  destruct H as [<- H]. by exists xs, r.
Qed.

Definition paid (o : Obs) : Obs :=
  let o := on_acct alice (set_balance (balance o alice + 5)) o in
  let o := on_acct contract (set_storage (key 1) (key 9)) (on_acct contract (set_code adder) o) in
  let o := on_acct contract (set_storage (key 2) (key 0)) (on_acct contract (set_storage (key 2) (key 8)) o) in
  on_acct mortal (set_balance (balance o mortal + 3)) o.

Definition obs_of (x : go (list Answer * RefDB.ref)) : Obs := match x with Returns (_, r) => RefDB.r_obs r | Panics => no_accounts end.

Lemma after_obs : wobs after = match o_acct (paid (wobs genesis)) mortal with Some c => set_acct mortal (set_suicided c) (paid (wobs genesis)) | None => paid (wobs genesis) end.
Proof. destruct after_agree as (xs & r & E & _ & -> & _). change (RefDB.r_obs r) with (obs_of (Returns (xs, r))). rewrite <- E. reflexivity. Qed.

(** What [storable] asks of an account. *)
Definition fits (c : Acct) : Prop := ranged c /\ (a_codeHash c = emptyCodeHash -> a_code c = []).
Definition every (P : Acct -> Prop) (o : Obs) : Prop := forall a c, o_acct o a = Some c -> P c.

Lemma every_set_acct (P : Acct -> Prop) a x o : every P o -> P x -> every P (set_acct a x o).
Proof. intros Ho Hx b c. cbn. unfold fupd. case_decide; [by intros [= <-]|apply Ho]. Qed.

Lemma every_on_acct (P : Acct -> Prop) a f o : P newAcct -> every P o -> (forall c, P c -> P (f c)) -> every P (on_acct a f o).
Proof.
  intros Hn Ho Hf. apply every_set_acct; [done|]. apply Hf. destruct (o_acct o a) eqn:E; [by apply (Ho a)|done].
Qed.

Lemma fits_new : fits newAcct.
Proof. split; [split; cbn; lia|done]. Qed.

Lemma genesis_empty a : o_acct (wobs genesis) a = None.
Proof. cbn. unfold account_at. cbn. by rewrite no_account. Qed.

Lemma paid_fits : every fits (paid (wobs genesis)).
Proof.
  assert (forall o a, every fits o -> (0 <= balance o a)%Z) as Hb.
  { intros o a Ho. unfold balance. destruct (o_acct o a) eqn:E; [apply (Ho a _ E)|done]. }
  assert (forall o a v, (0 <= v)%Z -> every fits o -> every fits (on_acct a (set_balance (balance o a + v)) o)) as Hadd.
  { intros o a v Hv Ho. apply every_on_acct; [apply fits_new|done|]. intros c [[H1 H2] H3]. specialize (Hb o a Ho). split; [split; cbn; lia|done]. }
  unfold paid. apply Hadd; [lia|]. do 2 (apply every_on_acct; [apply fits_new| |by intros c [[] ?]]).
  apply every_on_acct; [apply fits_new| |by intros c [[] ?]]. apply every_on_acct; [apply fits_new| |].
  - apply Hadd; [lia|]. intros a c. by rewrite genesis_empty.
  - intros c [[H1 H2] H3]. split; [done|]. cbn [a_codeHash set_code]. intros E. exfalso. revert E. vm_compute. done.
Qed.

Lemma after_storable : storable after.
Proof.
  unfold storable. rewrite after_obs. pose proof paid_fits as Hp. destruct (o_acct (paid (wobs genesis)) mortal) as [m|] eqn:Em; [|apply Hp].
  apply every_set_acct; [done|]. destruct (Hp _ _ Em) as [[H1 H2] H3]. split; [split; cbn; lia|done].
Qed.

(** A state reopened after [block], in which the contract is then made anew and nothing else. *)
Definition reopen (s : WorldState.WState) : WorldState.WState :=
  match WorldState.Commit false s with
  | (Returns (Ok (t, u)), s') => match WorldState.New (Some (Trie.Hash t)) (Some (Trie.Hash u)) (WorldState.db s') with Returns (Ok s2) => s2 | _ => genesis end
  | _ => genesis
  end.
Definition remade : WorldState.WState := (WorldState.CreateAccount contract (reopen after)).2.

(** The new account has no code, the one read back after the commit has the old code. *)
Example blind_reset_lost :
  blind_reset remade contract = true /\ (a_code <$> survivors remade contract) = Some [] /\
  (a_code <$> o_acct (wobs (reopen remade)) contract) = Some adder.
Proof. vm_compute. auto. Qed.

Lemma after_good : wok after.
Proof. by destruct after_agree as (xs & r & _ & H & _). Qed.

(** A chain with a contract that fails. *)
Definition deploy : list StateOp := [OpAddBalance alice 5; OpSetCode contract reverter].
Definition deployed : WorldState.WState := match exec_all (D := WorldDB) deploy genesis with Returns (_, s) => s | Panics => genesis end.
Definition world_machine : Global (D := WorldDB) := mkGlobal deployed [] 0 ∅ [] ∅ false.

Lemma deployed_agree : wok deployed /\ wobs deployed = on_acct contract (set_code reverter) (on_acct alice (set_balance 5) (wobs genesis)).
Proof.
  pose proof (exec_all_agree deploy genesis (ref_of genesis) ltac:(repeat constructor) (conj genesis_good (conj eq_refl (conj eq_refl eq_refl)))) as H.
  unfold deployed, agree_res in *. destruct (exec_all (D := WorldDB) deploy genesis) as [[xs s]|]; [|done]. cbn in H. destruct H as (_ & Hw & -> & _).
  split; [done|reflexivity].
Qed.

Lemma world_transaction_good : transaction_ok (D := WorldDB) 5 ctx world_machine alice contract [] 100 3.
Proof.
  destruct deployed_agree as [Hw Ho]. destruct (deployed_good (wobs genesis) reverter 5 5) as [H1 H2]; [apply genesis_empty|split; done|lia|cbn; lia|]. rewrite <- Ho in H1, H2.
  assert (gok (D := WorldDB) (V := WorldView) 5 world_machine) as Hg by (split; [exact Hw|exact H1|exact H2|by intros h x y|by apply no_records]).
  split; [lia|]. split; [apply ctx_good|]. split; [exact Hg|]. split; [done|]. split; [done|]. split; [done|]. split; [lia|unfold word; lia].
Qed.

End WorldDemo.

Import EvmDemo WorldDemo.
#[local] Existing Instance ToyTrie.mixing.

Lemma journal_refines_copies_witness :
  match exec_all (D := WorldDB) block genesis, exec_all (D := RefDB.RefDB) block (ref_of genesis) with
  | Returns (xs, s'), Returns (ys, r') => xs = ys /\ wok s' /\ wobs s' = RefDB.r_obs r' /\ wsnaps s' = RefDB.r_snaps r'
  | Panics, Panics => True
  | _, _ => False
  end.
Proof. apply journal_refines_copies; [apply genesis_good|apply block_sized]. Defined.

Lemma commit_reload_witness :
  exists t u s' s2, WorldState.Commit false after = (Returns (Ok (t, u)), s') /\ ((forall a, blind_reset after a = false) -> wok s') /\
    WorldState.New (Some (Trie.Hash t)) (Some (Trie.Hash u)) (WorldState.db s') = Returns (Ok s2) /\ wok s2 /\
    forall a, o_acct (wobs s') a = survivors after a /\ o_acct (wobs s2) a = if blind_reset after a then reloaded after a else survivors after a.
Proof.
  apply (commit_reload after); [apply after_good|apply after_storable|].
  vm_compute. reflexivity.
Defined.

Lemma evm_on_world_state_witness :
  match EVM_Call ctx alice contract [] 100 3 world_machine with
  | (XOk (ret, rest, err), g') => (0 <= rest <= 100)%Z /\ wok (g_db g') /\ (is_Some err -> wobs (g_db g') = wobs (g_db world_machine))
  | (XPanic, g') => g_clash g' = true
  | _ => False
  end.
Proof. apply (evm_on_world_state 5). apply world_transaction_good. Defined.
