(* ===== verification/Abi.v ===== *)
(** * Abi: the encoding of contract calls (src/core/abi)

    Types are an inductive type with the constructors of type.go, without the fields that
    follow from them.  A Go value is what reflection shows of it: its kind and its parts;
    slices and arrays know the kind of their elements.  Packing and unpacking can fail, and
    can panic: a slice index, [reflect.Value.Index], the calls of [panic] in pack.go.

    Sizes and offsets are Go [int]s of data in memory, so they do not overflow
    ([reflect.ArrayOf] refuses larger arrays); the capacity of a slice is its length. *)

From Stdlib Require Import Strings.Ascii.
From S2P Require Import Prelude Crypto EvmMath EvmState EvmGas.

(** The kinds of reflection that occur. *)
Inductive Kind :=
  | KBool | KInt | KInt8 | KInt16 | KInt32 | KInt64 | KUint | KUint8 | KUint16 | KUint32 | KUint64
  | KArray | KPtr | KSlice | KString | KStruct.

#[global] Instance Kind_eq_dec : EqDecision Kind.
Proof. solve_decision. Defined.

(** A pointer is one to a [big.Int] ([VBig]) or to another value.  The fields of a struct have
    a name and possibly a tag of key abi. *)
Inductive Value :=
  | VInt (k : Kind) (z : Z)
  | VBig (z : Z)
  | VPtr (v : Value)
  | VBool (b : bool)
  | VString (s : bytes)
  | VSlice (elem : Kind) (l : list Value)
  | VArray (elem : Kind) (l : list Value)
  | VStruct (fields : list (string * option string * Value)).

Definition kind_of (v : Value) : Kind :=
  match v with
  | VInt k _ => k
  | VBig _ | VPtr _ => KPtr
  | VBool _ => KBool
  | VString _ => KString
  | VSlice _ _ => KSlice
  | VArray _ _ => KArray
  | VStruct _ => KStruct
  end.

Inductive Ty :=
  | IntTy (size : Z)
  | UintTy (size : Z)
  | BoolTy
  | StringTy
  | SliceTy (elem : Ty)
  | ArrayTy (size : nat) (elem : Ty)
  | TupleTy (elems : list (string * Ty))
  | AddressTy
  | FixedBytesTy (size : nat)
  | BytesTy
  | HashTy
  | FixedPointTy
  | FunctionTy.

Inductive AbiErr :=
  | ErrTypeMismatch | ErrFieldNotFound | ErrFieldMap | ErrBadBool | ErrLength | ErrOffset | ErrFunction | ErrUnknownType
  | ErrArgCount | ErrNoMethod | ErrEmptyOutput | ErrFormat | ErrArgType.

#[global] Instance AbiErr_eq_dec : EqDecision AbiErr.
Proof. solve_decision. Defined.

(** ** Errors and panics *)

Definition AM (A : Type) : Type := go (result AbiErr A).
#[global] Instance AM_ret : MRet AM := fun A a => Returns (Ok a).
#[global] Instance AM_bind : MBind AM := fun A B k c =>
  match c with Returns (Ok a) => k a | Returns (Err e) => Returns (Err e) | Panics => Panics end.
Definition abi_fail {A} (e : AbiErr) : AM A := Returns (Err e).
Definition abi_panic {A} : AM A := Panics.

Module Abi.

(** ** Types *)

Definition reflectIntKind (unsigned : bool) (size : Z) : Kind :=
  if (size =? 8)%Z then if unsigned then KUint8 else KInt8
  else if (size =? 16)%Z then if unsigned then KUint16 else KInt16
  else if (size =? 32)%Z then if unsigned then KUint32 else KInt32
  else if (size =? 64)%Z then if unsigned then KUint64 else KInt64
  else KPtr.

(** The field [Kind] of a type. *)
Definition Kind_ (t : Ty) : Kind :=
  match t with
  | IntTy size => reflectIntKind false size
  | UintTy size => reflectIntKind true size
  | BoolTy => KBool
  | StringTy => KString
  | SliceTy _ | BytesTy => KSlice
  | ArrayTy _ _ | AddressTy | FixedBytesTy _ | HashTy | FixedPointTy | FunctionTy => KArray
  | TupleTy _ => KStruct
  end.

Definition requiresLengthPrefix (t : Ty) : bool :=
  match t with StringTy | BytesTy | SliceTy _ => true | _ => false end.

Fixpoint isDynamicType (t : Ty) : bool :=
  match t with
  | TupleTy elems => existsb (fun p => isDynamicType p.2) elems
  | StringTy | BytesTy | SliceTy _ => true
  | ArrayTy _ elem => isDynamicType elem
  | _ => false
  end.

Fixpoint getTypeSize (t : Ty) : nat :=
  match t with
  | ArrayTy size elem =>
      if isDynamicType elem then 32
      else match elem with ArrayTy _ _ => size * getTypeSize elem | _ => size * 32 end
  | TupleTy elems => if isDynamicType t then 32 else list_sum (map (fun p => getTypeSize p.2) elems)
  | _ => 32
  end.

(** ** Packing *)

Definition U256 (n : Z) : bytes := Math.PaddedBigBytes (Math.U256 n) 32.

(** [indirect]. *)
Fixpoint indirect (v : Value) : Value := match v with VPtr v => indirect v | _ => v end.

Definition packNum (v : Value) : AM bytes :=
  match v with
  | VInt (KUint | KUint8 | KUint16 | KUint32 | KUint64 | KInt | KInt8 | KInt16 | KInt32 | KInt64) z => mret (U256 z)
  | VBig z => mret (U256 z)
  | _ => abi_panic
  end.

(** [packNum(reflect.ValueOf(n))] of a length or offset. *)
Definition packLen (n : nat) : bytes := U256 (Z.of_nat n).

Definition packBytesSlice (b : bytes) (l : nat) : bytes :=
  packLen l ++ RightPadBytes b (Z.of_nat ((l + 31) / 32 * 32)).

(** [reflect.Value.Bytes] of a slice of bytes, which a byte array is copied to first. *)
Fixpoint bytes_of (l : list Value) : AM bytes :=
  match l with
  | [] => mret []
  | VInt KUint8 z :: l => bs ← bytes_of l; mret (z2b z :: bs)
  | _ => abi_panic
  end.

Definition Bytes_ (v : Value) : AM bytes :=
  match v with
  | VSlice KUint8 l | VArray KUint8 l => bytes_of l
  | _ => abi_panic
  end.

Definition packElement (t : Ty) (v : Value) : AM bytes :=
  match t with
  | IntTy _ | UintTy _ => packNum v
  | StringTy => match v with VString s => mret (packBytesSlice s (length s)) | _ => abi_panic end
  | AddressTy => b ← Bytes_ v; mret (LeftPadBytes b 32)
  | BoolTy => match v with VBool b => mret (Math.PaddedBigBytes (if b then 1 else 0) 32) | _ => abi_panic end
  | BytesTy => b ← Bytes_ v; mret (packBytesSlice b (length b))
  | FixedBytesTy _ | FunctionTy => b ← Bytes_ v; mret (RightPadBytes b 32)
  | _ => abi_panic
  end.

(** The elements of a slice or an array, with their kind. *)
Definition elements (v : Value) : option (Kind * list Value) :=
  match v with VSlice k l | VArray k l => Some (k, l) | _ => None end.

Fixpoint sliceTypeCheck (t : Ty) (val : Value) : AM unit :=
  match elements val with
  | None => abi_fail ErrTypeMismatch
  | Some (k, l) =>
      match t with
      | SliceTy elem | ArrayTy _ elem =>
          if match t with ArrayTy size _ => negb (length l =? size) | _ => false end then abi_fail ErrTypeMismatch
          else
            let check_kind := if bool_decide (k = Kind_ elem) then mret tt else abi_fail ErrTypeMismatch in
            match elem, l with
            | SliceTy _, v :: _ => sliceTypeCheck elem v
            | ArrayTy _ _, v :: _ => sliceTypeCheck elem v
            | ArrayTy _ _, [] => abi_panic
            | _, _ => check_kind
            end
      | _ => abi_panic
      end
  end.

(** [value.Len()] of an array or slice. *)
Definition Len (v : Value) : nat := match elements v with Some (_, l) => length l | None => 0 end.

Definition typeCheck (t : Ty) (v : Value) : AM unit :=
  match t with
  | SliceTy _ | ArrayTy _ _ => sliceTypeCheck t v
  | _ =>
      if bool_decide (Kind_ t <> kind_of v) then abi_fail ErrTypeMismatch
      else match t with
           | FixedBytesTy size => if negb (Len v =? size) then abi_fail ErrTypeMismatch else mret tt
           | _ => mret tt
           end
  end.

(** *** Names of fields *)

(** [strings.ToUpper] of one ASCII letter. *)
Definition upper (c : Ascii.ascii) : Ascii.ascii :=
  let n := Ascii.nat_of_ascii c in if (97 <=? n) && (n <=? 122) then Ascii.ascii_of_nat (n - 32) else c.

(** [strings.Split(input, "_")]. *)
Fixpoint split_underscores (s : string) : list string :=
  match s with
  | EmptyString => [EmptyString]
  | String c s =>
      match split_underscores s with
      | [] => []
      | part :: parts => if Ascii.eqb c "_"%char then EmptyString :: part :: parts else String c part :: parts
      end
  end.

Definition capital (s : string) : string := match s with String c s => String (upper c) s | EmptyString => EmptyString end.

Definition ToCamelCase (input : string) : string := String.concat "" (map capital (split_underscores input)).

Definition exported (name : string) : bool := bool_decide (capital name = name).

Definition field_named (name : string) (fields : list (string * option string * Value)) : option Value :=
  (fun p => p.2.2) <$> list_find (fun f => f.1.1 = name) fields.

(** The two rounds of [mapArgNamesToStructFields]. *)
Fixpoint pairTag (tag name : string) (argNames : list string) (found : bool) (a2s s2a : gmap string string) : AM (bool * gmap string string * gmap string string) :=
  match argNames with
  | [] => mret (found, a2s, s2a)
  | arg :: argNames =>
      if bool_decide (arg = tag) then
        if negb (bool_decide (default EmptyString (a2s !! arg) = EmptyString)) then abi_fail ErrFieldMap
        else pairTag tag name argNames true (<[arg := name]> a2s) (<[name := arg]> s2a)
      else pairTag tag name argNames found a2s s2a
  end.

Fixpoint tagRound (argNames : list string) (fields : list (string * option string * Value)) (a2s s2a : gmap string string) : AM (gmap string string * gmap string string) :=
  match fields with
  | [] => mret (a2s, s2a)
  | (name, tag, _) :: fields =>
      if negb (exported name) then tagRound argNames fields a2s s2a
      else match tag with
           | None => tagRound argNames fields a2s s2a
           | Some tag =>
               if bool_decide (tag = EmptyString) then abi_fail ErrFieldMap
               else
                 '(found, a2s, s2a) ← pairTag tag name argNames false a2s s2a;
                 if found : bool then tagRound argNames fields a2s s2a else abi_fail ErrFieldMap
           end
  end.

Fixpoint nameRound (fields : list (string * option string * Value)) (argNames : list string) (a2s s2a : gmap string string) : AM (gmap string string) :=
  match argNames with
  | [] => mret a2s
  | argName :: argNames =>
      let structFieldName := ToCamelCase argName in
      let mapped (m : gmap string string) k := default EmptyString (m !! k) in
      let valid := match field_named structFieldName fields with Some _ => true | None => false end in
      if bool_decide (structFieldName = EmptyString) then abi_fail ErrFieldMap
      else if negb (bool_decide (mapped a2s argName = EmptyString)) then
        if negb (bool_decide (mapped a2s argName = structFieldName)) && bool_decide (mapped s2a structFieldName = EmptyString) && valid
        then abi_fail ErrFieldMap
        else nameRound fields argNames a2s s2a
      else if negb (bool_decide (mapped s2a structFieldName = EmptyString)) then abi_fail ErrFieldMap
      else nameRound fields argNames (if valid then <[argName := structFieldName]> a2s else a2s) (<[structFieldName := argName]> s2a)
  end.

Definition mapArgNamesToStructFields (argNames : list string) (fields : list (string * option string * Value)) : AM (gmap string string) :=
  '(a2s, s2a) ← tagRound argNames fields ∅ ∅;
  nameRound fields argNames a2s s2a.

(** *** [Type.pack] *)

(** The loop over the elements of a slice or array: heads, tails and the offset of the next. *)
Definition packElems (packElem : Value -> AM bytes) (offsetReq : bool) : list Value -> nat -> bytes -> bytes -> AM bytes :=
  fix loop l offset ret tail :=
    match l with
    | [] => mret (ret ++ tail)
    | v :: l =>
        val ← packElem v;
        if offsetReq then loop l (offset + length val) (ret ++ packLen offset) (tail ++ val)
        else loop l offset (ret ++ val) tail
    end.

(** The loop over the fields of a struct. *)
Definition packFields (packElem : Ty -> Value -> AM bytes) (fieldmap : gmap string string) (fields : list (string * option string * Value)) :
    list (string * Ty) -> nat -> bytes -> bytes -> AM bytes :=
  fix loop es offset ret tail :=
    match es with
    | [] => mret (ret ++ tail)
    | (name, elem) :: es =>
        match field_named (default EmptyString (fieldmap !! name)) fields with
        | None => abi_fail ErrFieldNotFound
        | Some field =>
            val ← packElem elem field;
            if isDynamicType elem then loop es (offset + length val) (ret ++ packLen offset) (tail ++ val)
            else loop es offset (ret ++ val) tail
        end
    end.

Fixpoint pack (t : Ty) (v : Value) {struct t} : AM bytes :=
  let v := indirect v in
  _ ← typeCheck t v;
  match t with
  | SliceTy elem | ArrayTy _ elem =>
      let l := match elements v with Some (_, l) => l | None => [] end in
      let ret := if requiresLengthPrefix t then packLen (length l) else [] in
      let offsetReq := isDynamicType elem in
      packElems (pack elem) offsetReq l (if offsetReq then getTypeSize elem * length l else 0) ret []
  | TupleTy elems =>
      match v with
      | VStruct fields =>
          fieldmap ← mapArgNamesToStructFields (map fst elems) fields;
          packFields pack fieldmap fields elems (list_sum (map (fun p => getTypeSize p.2) elems)) [] []
      | _ => abi_panic
      end
  | _ => packElement t v
  end.

(** ** Unpacking *)

(** [output[i:j]], in range. *)
Definition sub (output : bytes) (i j : nat) : bytes := take (j - i) (drop i output).

(** A slice and an array of bytes. *)
Definition byte_slice (b : bytes) : Value := VSlice KUint8 (map (fun x => VInt KUint8 (b2z x)) b).
Definition byte_array (b : bytes) : Value := VArray KUint8 (map (fun x => VInt KUint8 (b2z x)) b).

(** [int8(x)] and [int16(x)]. *)
Definition i8 (z : Z) : Z := ((z + 2 ^ 7) mod 2 ^ 8 - 2 ^ 7)%Z.
Definition i16 (z : Z) : Z := ((z + 2 ^ 15) mod 2 ^ 16 - 2 ^ 15)%Z.

Definition maxUint256 : Z := (2 ^ 256 + -1)%Z.
Definition maxInt256 : Z := (2 ^ 255 + -1)%Z.

(** [binary.BigEndian.UintN(b[len(b)-n:])] of a word. *)
Definition lastBytes (n : nat) (b : bytes) : Z := be_value (drop (length b - n) b).

Definition readInteger (t : Ty) (b : bytes) : Value :=
  match Kind_ t with
  | KUint8 => VInt KUint8 (lastBytes 1 b)
  | KUint16 => VInt KUint16 (lastBytes 2 b)
  | KUint32 => VInt KUint32 (lastBytes 4 b)
  | KUint64 => VInt KUint64 (lastBytes 8 b)
  | KInt8 => VInt KInt8 (i8 (lastBytes 1 b))
  | KInt16 => VInt KInt16 (i16 (lastBytes 2 b))
  | KInt32 => VInt KInt32 (i32 (lastBytes 4 b))
  | KInt64 => VInt KInt64 (i64 (lastBytes 8 b))
  | _ =>
      let ret := Big.SetBytes b in
      match t with
      | UintTy _ => VBig ret
      | _ => if (maxInt256 <? ret)%Z then VBig (- ((maxUint256 + - ret) + 1))%Z else VBig ret
      end
  end.

Definition readBool (word : bytes) : AM Value :=
  if negb (forallb (fun b => bool_decide (b = x00)) (take 31 word)) then abi_fail ErrBadBool
  else match word !! 31 with
       | Some x00 => mret (VBool false)
       | Some x01 => mret (VBool true)
       | _ => abi_fail ErrBadBool
       end.

Definition readFunctionType (word : bytes) : AM Value :=
  if negb (be_value (sub word 24 32) =? 0)%Z then abi_fail ErrFunction else mret (byte_array (sub word 0 24)).

Definition readFixedBytes (size : nat) (word : bytes) : AM Value :=
  if length word <? size then abi_panic else mret (byte_array (sub word 0 size)).

Definition lengthPrefixPointsTo (index : nat) (output : bytes) : AM (nat * nat) :=
  let bigOffsetEnd := (Big.SetBytes (sub output index (index + 32)) + 32)%Z in
  let outputLength := Z.of_nat (length output) in
  if (outputLength <? bigOffsetEnd)%Z then abi_fail ErrOffset
  else if (63 <? Big.BitLen bigOffsetEnd)%Z then abi_fail ErrOffset
  else
    let offsetEnd := Z.to_nat (Big.Uint64 bigOffsetEnd) in
    let lengthBig := Big.SetBytes (sub output (offsetEnd - 32) offsetEnd) in
    let totalSize := (bigOffsetEnd + lengthBig)%Z in
    if (63 <? Big.BitLen totalSize)%Z then abi_fail ErrLength
    else if (outputLength <? totalSize)%Z then abi_fail ErrLength
    else mret (Z.to_nat (Big.Uint64 bigOffsetEnd), Z.to_nat (Big.Uint64 lengthBig)).

Definition tuplePointsTo (index : nat) (output : bytes) : AM nat :=
  let offset := Big.SetBytes (sub output index (index + 32)) in
  if (Z.of_nat (length output) <? offset)%Z then abi_fail ErrOffset
  else if (63 <? Big.BitLen offset)%Z then abi_fail ErrOffset
  else mret (Z.to_nat (Big.Uint64 offset)).

(** The loop of [forEachUnpack], where [read] is [toGoType] at an index. *)
Definition eachLoop (read : nat -> AM Value) (elemSize : nat) : nat -> nat -> AM (list Value) :=
  fix loop n i :=
    match n with
    | O => mret []
    | S n => v ← read i; vs ← loop n (i + elemSize); mret (v :: vs)
    end.

Definition forEachUnpack (read : nat -> AM Value) (elemSize : nat) (output : bytes) (start size : nat) : AM (list Value) :=
  if length output <? start + 32 * size then abi_fail ErrOffset else eachLoop read elemSize size start.

(** The words a static array or tuple takes in place, beyond the first. *)
Definition inlined (elem : Ty) : Z :=
  match elem with
  | ArrayTy _ _ | TupleTy _ => if negb (isDynamicType elem) then (Z.of_nat (getTypeSize elem) / 32 - 1)%Z else 0%Z
  | _ => 0%Z
  end.

(** [(index+virtualArgs)*32]. *)
Definition position (index : nat) (virtualArgs : Z) : nat := Z.to_nat ((Z.of_nat index + virtualArgs) * 32).

(** The loop of [forTupleUnpack]. *)
Definition unpackFields (read : nat -> Ty -> AM Value) : list (string * Ty) -> nat -> Z -> AM (list (string * option string * Value)) :=
  fix loop es index virtualArgs :=
    match es with
    | [] => mret []
    | (name, elem) :: es =>
        marshalledValue ← read (position index virtualArgs) elem;
        rest ← loop es (S index) (virtualArgs + inlined elem)%Z;
        mret ((ToCamelCase name, None, marshalledValue) :: rest)
    end.

Definition forTupleUnpack (read : nat -> Ty -> AM Value) (elems : list (string * Ty)) : AM Value :=
  fields ← unpackFields read elems 0 0;
  mret (VStruct fields).

Fixpoint toGoType (index : nat) (t : Ty) (output : bytes) {struct t} : AM Value :=
  if length output <? index + 32 then abi_fail ErrLength
  else
    '(begin, length_) ← (if requiresLengthPrefix t then lengthPrefixPointsTo index output else mret (0, 0));
    let returnOutput := sub output index (index + 32) in
    match t with
    | TupleTy elems =>
        if isDynamicType t then
          begin ← tuplePointsTo index output;
          let output := drop begin output in forTupleUnpack (fun i t => toGoType i t output) elems
        else let output := drop index output in forTupleUnpack (fun i t => toGoType i t output) elems
    | SliceTy elem =>
        let output := drop begin output in
        vs ← forEachUnpack (fun i => toGoType i elem output) (getTypeSize elem) output 0 length_;
        mret (VSlice (Kind_ elem) vs)
    | ArrayTy size elem =>
        let unpack (output : bytes) :=
          vs ← forEachUnpack (fun i => toGoType i elem output) (getTypeSize elem) output 0 size;
          mret (VArray (Kind_ elem) vs) in
        if isDynamicType elem then
          let offset := i64 (lastBytes 8 returnOutput) in
          if (offset <? 0)%Z || (Z.of_nat (length output) <? offset)%Z then abi_panic
          else unpack (drop (Z.to_nat offset) output)
        else unpack (drop index output)
    | StringTy => mret (VString (sub output begin (begin + length_)))
    | IntTy _ | UintTy _ => mret (readInteger t returnOutput)
    | BoolTy => readBool returnOutput
    | AddressTy => mret (byte_array (BytesToAddressHash returnOutput))
    | HashTy => mret (byte_array (Crypto.BytesToHash returnOutput))
    | BytesTy => mret (byte_slice (sub output begin (begin + length_)))
    | FixedBytesTy size => readFixedBytes size returnOutput
    | FunctionTy => readFunctionType returnOutput
    | FixedPointTy => abi_fail ErrUnknownType
    end.

(** ** Arguments *)

(** The type of an argument comes with its name for signatures ([stringKind]). *)
Record Argument := mkArgument { arg_Name : string; arg_Type : Ty; arg_String : string; arg_Indexed : bool }.

Definition NonIndexed (arguments : list Argument) : list Argument := List.filter (fun arg => negb (arg_Indexed arg)) arguments.

Definition LengthNonIndexed (arguments : list Argument) : nat := length (NonIndexed arguments).

Fixpoint unpackLoop (args : list Argument) (data : bytes) (index : nat) (virtualArgs : Z) : AM (list Value) :=
  match args with
  | [] => mret []
  | arg :: args =>
      marshalledValue ← toGoType (position index virtualArgs) (arg_Type arg) data;
      rest ← unpackLoop args data (S index) (virtualArgs + inlined (arg_Type arg))%Z;
      mret (marshalledValue :: rest)
  end.

Definition UnpackValues (arguments : list Argument) (data : bytes) : AM (list Value) :=
  unpackLoop (NonIndexed arguments) data 0 0.

Fixpoint packLoop (abiArgs : list Argument) (args : list Value) (inputOffset : nat) (ret variableInput : bytes) : AM bytes :=
  match abiArgs, args with
  | input :: abiArgs, a :: args =>
      packed ← pack (arg_Type input) a;
      if isDynamicType (arg_Type input) then packLoop abiArgs args (inputOffset + length packed) (ret ++ packLen inputOffset) (variableInput ++ packed)
      else packLoop abiArgs args inputOffset (ret ++ packed) variableInput
  | _, _ => mret (ret ++ variableInput)
  end.

Definition Pack (arguments : list Argument) (args : list Value) : AM bytes :=
  if negb (length args =? length arguments) then abi_fail ErrArgCount
  else packLoop arguments args (list_sum (map (fun arg => getTypeSize (arg_Type arg)) arguments)) [] [].

(** Unpacking into a map of names. *)
Definition UnpackIntoMap (arguments : list Argument) (v : gmap string Value) (data : bytes) : AM (gmap string Value) :=
  values ← UnpackValues arguments data;
  mret (foldl (fun m p => <[arg_Name p.1 := p.2]> m) v (combine (NonIndexed arguments) values)).

(** [UnpackErrMsg]: the message of a failed call, after the selector of Error(string). *)
Definition errMsgPrefix : bytes := [x08; xc3; x79; xa0].

Definition UnpackErrMsg (data : bytes) : AM bytes :=
  let data := if bool_decide (take 4 data = errMsgPrefix) then drop 4 data else data in
  msg ← toGoType 0 StringTy data;
  match msg with VString s => mret s | _ => abi_panic end.

End Abi.
