(* ===== verification/AbiFacts.v ===== *)
(** * AbiFacts: packing and unpacking are inverse

    An encoding lays out its parts as heads and tails; [placed] says that a part can be found
    through its head.  Every type but a static array of tuples reads back what was packed. *)

From S2P Require Import Prelude Crypto EvmMath EvmState EvmGas Abi.
Import Abi.

(** ** Types and their values *)

Section TyInd.
Context (P : Ty -> Prop).
Context (HInt : forall n, P (IntTy n)) (HUint : forall n, P (UintTy n)) (HBool : P BoolTy) (HString : P StringTy)
  (HSlice : forall e, P e -> P (SliceTy e)) (HArray : forall n e, P e -> P (ArrayTy n e))
  (HTuple : forall es, Forall (fun p => P p.2) es -> P (TupleTy es))
  (HAddress : P AddressTy) (HFixed : forall n, P (FixedBytesTy n)) (HBytes : P BytesTy) (HHash : P HashTy)
  (HPoint : P FixedPointTy) (HFunction : P FunctionTy).

Fixpoint Ty_nested_ind (t : Ty) : P t :=
  match t with
  | IntTy n => HInt n
  | UintTy n => HUint n
  | BoolTy => HBool
  | StringTy => HString
  | SliceTy e => HSlice e (Ty_nested_ind e)
  | ArrayTy n e => HArray n e (Ty_nested_ind e)
  | TupleTy es => HTuple es ((fix loop l : Forall (fun p : string * Ty => P p.2) l :=
      match l with [] => Forall_nil_2 _ | p :: l => Forall_cons_2 _ p l (Ty_nested_ind p.2) (loop l) end) es)
  | AddressTy => HAddress
  | FixedBytesTy n => HFixed n
  | BytesTy => HBytes
  | HashTy => HHash
  | FixedPointTy => HPoint
  | FunctionTy => HFunction
  end.
End TyInd.

Definition is_tuple (t : Ty) : bool := match t with TupleTy _ => true | _ => false end.
Definition is_array (t : Ty) : bool := match t with ArrayTy _ _ => true | _ => false end.

(** The types that read back: no static array has tuples for elements, none is empty, and the
    fields of a tuple have different names. *)
Fixpoint wf_ty (t : Ty) : bool :=
  match t with
  | SliceTy e => wf_ty e
  | ArrayTy n e => negb (n =? 0) && wf_ty e && (isDynamicType e || negb (is_tuple e))
  | TupleTy es => negb (length es =? 0) && forallb (fun p => wf_ty p.2) es &&
      forallb (fun p => negb (bool_decide (ToCamelCase p.1 = EmptyString))) es && bool_decide (NoDup (map (fun p => ToCamelCase p.1) es))
  | FixedBytesTy n => negb (n =? 0) && (n <=? 32)
  | HashTy | FixedPointTy => false
  | _ => true
  end.

(** The values of a type. *)
Fixpoint has_type (t : Ty) (v : Value) {struct t} : Prop :=
  match t with
  | UintTy n => match v with
                | VInt k z => k = Kind_ t /\ k <> KPtr /\ (0 <= z < 2 ^ n)%Z
                | VBig z => Kind_ t = KPtr /\ word z
                | _ => False
                end
  | IntTy n => match v with
               | VInt k z => k = Kind_ t /\ k <> KPtr /\ (- 2 ^ (n - 1) <= z < 2 ^ (n - 1))%Z
               | VBig z => Kind_ t = KPtr /\ (- 2 ^ 255 <= z < 2 ^ 255)%Z
               | _ => False
               end
  | BoolTy => exists b, v = VBool b
  | StringTy => exists s, v = VString s
  | SliceTy e => exists l, v = VSlice (Kind_ e) l /\ Forall (has_type e) l /\ (is_array e = true -> l <> [])
  | ArrayTy n e => exists l, v = VArray (Kind_ e) l /\ length l = n /\ Forall (has_type e) l
  | TupleTy es => exists vs, v = VStruct (zip_with (fun p v => (ToCamelCase p.1, None, v)) es vs) /\
      (fix loop es vs := match es, vs with
                         | [], [] => True
                         | p :: es, v :: vs => has_type p.2 v /\ loop es vs
                         | _, _ => False
                         end) es vs
  | AddressTy => exists b, v = byte_array b /\ length b = 20
  | FixedBytesTy n => exists b, v = byte_array b /\ length b = n
  | BytesTy => exists b, v = byte_slice b
  | FunctionTy => exists b, v = byte_array b /\ length b = 24
  | HashTy | FixedPointTy => False
  end.

(** ** Words *)

Lemma be_value_inj a b : length a = length b -> be_value a = be_value b -> a = b.
Proof.
  intros Hl Hv. rewrite <- (reverse_involutive a), <- (reverse_involutive b) in Hv. rewrite !be_value_reverse in Hv.
  apply (inj reverse). rewrite <- (le_bytes_le_value (reverse a)), <- (le_bytes_le_value (reverse b)). by rewrite !length_reverse, Hl, Hv.
Qed.

Lemma PaddedBigBytes_be32 x : word x -> Math.PaddedBigBytes x 32 = be32 x.
Proof.
  intros Hx. pose proof Hx as [H0 H1]. unfold Math.PaddedBigBytes. destruct (Z.leb_spec (Z.of_nat 32) (Big.BitLen x / 8)) as [Hb|Hb]; [|by rewrite ReadBits_be].
  assert (be_value (be_bytes x) = x) as Hv by (rewrite be_value_be_bytes; by apply Z.abs_eq).
  apply be_value_inj; [|by rewrite be_value_be32]. rewrite length_be32. unfold Big.Bytes.
  assert (length (be_bytes x) <= 32) as Hle.
  { unfold be_bytes. apply (be_digits_length 32 _ _ []). rewrite Z.abs_eq by done. change (256 ^ Z.of_nat 32)%Z with (2 ^ 256)%Z. done. }
  unfold Big.BitLen in Hb. destruct (Z.eqb_spec x 0); [by exfalso; apply Hb|]. pose proof (be_value_bound (be_bytes x)) as Hlt. rewrite Hv in Hlt.
  destruct (decide (length (be_bytes x) = 32)) as [|Hne]; [done|]. exfalso.
  assert (2 ^ 255 <= x)%Z as Hbig.
  { rewrite Z.abs_eq in Hb by done. pose proof (Z.log2_spec x ltac:(lia)) as [Hl _]. etrans; [|exact Hl]. apply Z.pow_le_mono_r; [lia|].
    pose proof (Z.mul_div_le (Z.log2 x + 1) 8 ltac:(lia)). lia. }
  assert (256 ^ Z.of_nat (length (be_bytes x)) <= 256 ^ 31)%Z by (apply Z.pow_le_mono_r; lia).
  assert (256 ^ 31 < 2 ^ 255)%Z by done. lia.
Qed.

Lemma U256_be32 z : U256 z = be32 (z mod 2 ^ 256).
Proof. unfold U256. rewrite PaddedBigBytes_be32, U256_mod by apply U256_word. done. Qed.

Lemma length_U256 z : length (U256 z) = 32.
Proof. rewrite U256_be32. apply length_be32. Qed.

Lemma be_value_U256 z : be_value (U256 z) = (z mod 2 ^ 256)%Z.
Proof. rewrite U256_be32. apply be_value_be32, Z.mod_pos_bound. lia. Qed.

Lemma length_packLen n : length (packLen n) = 32.
Proof. apply length_U256. Qed.

Lemma be_value_packLen n : (Z.of_nat n < 2 ^ 63)%Z -> be_value (packLen n) = Z.of_nat n.
Proof. intros H. unfold packLen. rewrite be_value_U256, Z.mod_small; lia. Qed.

Lemma BitLen_small z : (0 <= z < 2 ^ 63)%Z -> (63 <? Big.BitLen z)%Z = false.
Proof.
  intros Hz. apply Z.ltb_ge. unfold Big.BitLen. destruct (Z.eqb_spec z 0); [lia|]. rewrite Z.abs_eq by lia.
  assert (Z.log2 z < 63)%Z by (apply Z.log2_lt_pow2; lia). lia.
Qed.

(** ** Layout *)

Lemma sub_app A X Y i n : i = length A -> n = length X -> sub (A ++ X ++ Y) i (i + n) = X.
Proof. intros -> ->. unfold sub. rewrite drop_app_length, Nat.add_comm, Nat.add_sub. apply take_app_length. Qed.

(** A part of an encoding, dynamic or not; what its head takes. *)
Definition part : Type := bool * bytes.
Definition head_len (p : part) : nat := if p.1 then 32 else length p.2.

(** Heads and tails, the first tail at [off]. *)
Fixpoint lay (parts : list part) (off : nat) : bytes * bytes :=
  match parts with
  | [] => ([], [])
  | (true, b) :: parts => (packLen off ++ (lay parts (off + length b)).1, b ++ (lay parts (off + length b)).2)
  | (false, b) :: parts => (b ++ (lay parts off).1, (lay parts off).2)
  end.

Definition encode (parts : list part) : bytes :=
  let off := list_sum (map head_len parts) in (lay parts off).1 ++ (lay parts off).2.

Lemma length_heads parts off : length (lay parts off).1 = list_sum (map head_len parts).
Proof.
  revert off. induction parts as [|[[] b] parts IH]; intros off; [done| |]; cbn; rewrite length_app, IH; [by rewrite length_packLen|done].
Qed.

(** The part [p] can be read at [i]. *)
Definition placed (output : bytes) (i : nat) (p : part) : Prop :=
  if p.1 then exists off, off + length p.2 <= length output /\ i + 32 <= length output /\
    sub output i (i + 32) = packLen off /\ sub output off (off + length p.2) = p.2
  else i + length p.2 <= length output /\ sub output i (i + length p.2) = p.2.

Fixpoint places (output : bytes) (parts : list part) (i : nat) : Prop :=
  match parts with
  | [] => True
  | p :: parts => placed output i p /\ places output parts (i + head_len p)
  end.

Lemma lay_places parts off A B C :
  off = length (A ++ (lay parts off).1 ++ B) -> places (A ++ (lay parts off).1 ++ B ++ (lay parts off).2 ++ C) parts (length A).
Proof.
  revert off A B. induction parts as [|[dyn b] parts IH]; intros off A B Hoff; [done|]. destruct dyn; cbn [lay fst snd] in *.
  - set (h := (lay parts (off + length b)).1) in *. set (t := (lay parts (off + length b)).2) in *.
    assert (A ++ (packLen off ++ h) ++ B ++ (b ++ t) ++ C = (A ++ packLen off) ++ h ++ (B ++ b) ++ t ++ C) as E by (by rewrite <- !app_assoc).
    split.
    + exists off. cbn [fst snd]. assert (A ++ (packLen off ++ h) ++ B ++ (b ++ t) ++ C = (A ++ (packLen off ++ h) ++ B) ++ b ++ (t ++ C)) as E' by (by rewrite <- !app_assoc).
      split_and!.
      * rewrite E', length_app, <- Hoff, length_app. lia.
      * rewrite !length_app, length_packLen. lia.
      * rewrite <- !app_assoc. apply sub_app; [done|by rewrite length_packLen].
      * rewrite E'. by apply sub_app.
    + cbn [head_len fst]. rewrite E. replace (length A + 32) with (length (A ++ packLen off)) by (by rewrite length_app, length_packLen).
      apply (IH (off + length b)). fold h. rewrite Hoff at 1. rewrite !length_app. lia.
  - set (h := (lay parts off).1) in *. set (t := (lay parts off).2) in *.
    assert (A ++ (b ++ h) ++ B ++ t ++ C = (A ++ b) ++ h ++ B ++ t ++ C) as E by (by rewrite <- !app_assoc).
    split.
    + cbn [placed fst snd]. rewrite <- app_assoc. split; [rewrite !length_app; lia|by apply sub_app].
    + cbn [head_len fst snd]. rewrite E, <- length_app. apply (IH off). fold h. rewrite Hoff at 1. rewrite !length_app. lia.
Qed.

Lemma encode_places parts C : places (encode parts ++ C) parts 0.
Proof.
  unfold encode. set (off := list_sum (map head_len parts)). rewrite <- app_assoc.
  apply (lay_places parts off [] [] C). cbn. by rewrite app_nil_r, length_heads.
Qed.

(** Where a dynamic part is, the rest of the data starts with it. *)
Lemma sub_drop output off b : off + length b <= length output -> sub output off (off + length b) = b -> exists C, drop off output = b ++ C.
Proof.
  intros Hl Hs. unfold sub in Hs. rewrite Nat.add_comm, Nat.add_sub in Hs. exists (drop (length b) (drop off output)).
  rewrite <- Hs at 2. rewrite Hs at 1. rewrite <- Hs at 1. by rewrite take_drop.
Qed.

(** ** Packing *)

Lemma AM_ret_bind {A B} (a : A) (k : A -> AM B) : mret (M := AM) a ≫= k = k a.
Proof. done. Qed.

Lemma lay_static bs off : lay (map (pair false) bs) off = (concat bs, []).
Proof. induction bs as [|b bs IH]; [done|]. cbn. by rewrite IH. Qed.

Lemma packElems_ok f dyn l bs off ret tail : Forall2 (fun v b => f v = mret b) l bs ->
  packElems f dyn l off ret tail = mret (ret ++ (lay (map (pair dyn) bs) off).1 ++ tail ++ (lay (map (pair dyn) bs) off).2).
Proof.
  intros H. revert off ret tail. induction H as [|v b l bs E H IH]; intros off ret tail; cbn.
  { by rewrite app_nil_r. }
  rewrite E, AM_ret_bind. destruct dyn; rewrite IH; cbn; by rewrite <- !app_assoc.
Qed.

Lemma head_sum dyn bs n : Forall (fun b => head_len (dyn, b) = n) bs -> list_sum (map head_len (map (pair dyn) bs)) = n * length bs.
Proof.
  induction 1 as [|b bs Hb _ IH]; [cbn; lia|].
  change (list_sum (map head_len (map (pair dyn) (b :: bs)))) with (head_len (dyn, b) + list_sum (map head_len (map (pair dyn) bs))). rewrite Hb, IH. cbn. lia.
Qed.

Lemma packElems_encode f dyn l bs n ret : Forall2 (fun v b => f v = mret b) l bs -> (dyn = true -> n = 32) ->
  packElems f dyn l (if dyn then n * length l else 0) ret [] = mret (ret ++ encode (map (pair dyn) bs)).
Proof.
  intros H Hn. rewrite (packElems_ok _ _ _ _ _ _ _ H). do 3 f_equal. unfold encode. destruct dyn; [|by rewrite !lay_static].
  rewrite (head_sum true bs 32) by (apply Forall_true; done). by rewrite Hn, (Forall2_length _ _ _ H).
Qed.

Lemma bytes_of_map b : bytes_of (map (fun x => VInt KUint8 (b2z x)) b) = mret b.
Proof. induction b as [|x b IH]; [done|]. cbn. rewrite IH, AM_ret_bind, z2b_b2z. done. Qed.

Lemma indirect_typed t v : has_type t v -> indirect v = v.
Proof. destruct t, v; cbn; try done; intros; destruct_and?; naive_solver. Qed.

Lemma sliceTypeCheck_ok t v : wf_ty t = true -> has_type t v -> requiresLengthPrefix t = true \/ is_array t = true ->
  match t with SliceTy _ | ArrayTy _ _ => sliceTypeCheck t v = mret tt | _ => True end.
Proof.
  revert v. induction t as [| | | |e IH|n e IH| | | | | | |]; intros v Hwf Hty _; try done.
  - destruct Hty as (l & -> & Hl & Hne). cbn [sliceTypeCheck elements].
    assert (match l with x :: _ => has_type e x | [] => True end) as Hx by (by destruct Hl).
    destruct e; try (by rewrite bool_decide_true); destruct l as [|x l]; try (by rewrite bool_decide_true); try (by destruct (Hne eq_refl)); (apply (IH x); [done|done|auto]).
  - destruct Hty as (l & -> & <- & Hl). cbn [sliceTypeCheck elements]. rewrite Nat.eqb_refl. cbn [negb].
    cbn in Hwf. apply andb_true_iff in Hwf as [[H0 H1]%andb_true_iff H2]. assert (match l with x :: _ => has_type e x | [] => True end) as Hx by (by destruct Hl).
    destruct e; try (by rewrite bool_decide_true); destruct l as [|x l]; try done; (apply (IH x); [done|done|auto]).
Qed.

Lemma typeCheck_ok t v : wf_ty t = true -> has_type t v -> typeCheck t v = mret tt.
Proof.
  intros Hwf Hty. pose proof (sliceTypeCheck_ok t v Hwf Hty) as Hs.
  assert (Kind_ t = kind_of v) as Hk.
  { destruct t; cbn in Hty; try (by destruct v; destruct_and?; subst); naive_solver. }
  unfold typeCheck. destruct t; try (rewrite bool_decide_false by (rewrite Hk; congruence)); try done; try (apply Hs; auto).
  destruct Hty as (b & -> & <-). unfold Len. cbn. rewrite length_map, Nat.eqb_refl. done.
Qed.

(** *** Tuples *)

Lemma tagRound_none names es vs : tagRound names (zip_with (fun (p : string * Ty) v => (ToCamelCase p.1, None, v)) es vs) ∅ ∅ = mret (∅, ∅).
Proof. revert vs. induction es as [|p es IH]; intros [|v vs]; try done. cbn. by destruct (negb _). Qed.

Lemma nameRound_ok fields names a2s s2a :
  Forall (fun n => ToCamelCase n <> EmptyString /\ is_Some (field_named (ToCamelCase n) fields) /\ a2s !! n = None /\ s2a !! ToCamelCase n = None) names ->
  NoDup (map ToCamelCase names) ->
  exists m, nameRound fields names a2s s2a = mret m /\ forall n, m !! n = if decide (n ∈ names) then Some (ToCamelCase n) else a2s !! n.
Proof.
  revert a2s s2a. induction names as [|n names IH]; intros a2s s2a Hall Hnd.
  { exists a2s. split; [done|]. intros n. by rewrite decide_False by apply not_elem_of_nil. }
  apply Forall_cons in Hall as [(Hne & [v Hv] & Ha & Hs) Hall]. cbn [map] in Hnd. apply NoDup_cons in Hnd as [Hnin Hnd]. cbn [nameRound].
  rewrite Ha, Hs, Hv. rewrite bool_decide_false by done. rewrite !bool_decide_true by done. cbn [negb].
  destruct (IH (<[n := ToCamelCase n]> a2s) (<[ToCamelCase n := n]> s2a)) as (m & E & Hm); [|done|].
  - apply Forall_forall. intros k Hk. rewrite Forall_forall in Hall. destruct (Hall k Hk) as (H1 & H2 & H3 & H4).
    assert (ToCamelCase k <> ToCamelCase n) as Hkn.
    { intros E. apply Hnin. rewrite <- E. apply list_elem_of_fmap. eauto. }
    split_and!; [done|done| |]; (rewrite lookup_insert_ne; [done|congruence]).
  - exists m. split; [done|]. intros k. rewrite Hm. destruct (decide (k ∈ n :: names)) as [Hc|Hc]; rewrite elem_of_cons in Hc.
    + case_decide; [done|]. destruct Hc as [->|]; [apply lookup_insert_eq|done].
    + rewrite decide_False by tauto. rewrite lookup_insert_ne; [done|]. intros ->. tauto.
Qed.

Lemma field_named_zip (es : list (string * Ty)) vs i p v : NoDup (map (fun p => ToCamelCase p.1) es) -> es !! i = Some p -> vs !! i = Some v ->
  field_named (ToCamelCase p.1) (zip_with (fun p v => (ToCamelCase p.1, None, v)) es vs) = Some v.
Proof.
  intros Hnd Hp Hv. unfold field_named. set (fields := zip_with _ es vs).
  assert (fields !! i = Some (ToCamelCase p.1, None, v)) as Hf by (unfold fields; by rewrite lookup_zip_with, Hp, Hv).
  destruct (list_find (fun f => f.1.1 = ToCamelCase p.1) fields) as [[j f]|] eqn:E.
  - apply list_find_Some in E as (Hj & Hn & _). cbn. f_equal. unfold fields in Hj. rewrite lookup_zip_with in Hj.
    destruct (es !! j) as [q|] eqn:Eq; [|done]. destruct (vs !! j) as [w|] eqn:Ew; [|done]. cbn in Hj. injection Hj as <-. cbn in Hn |- *.
    assert (i = j) as ->; [|congruence]. apply (NoDup_lookup _ _ _ (ToCamelCase p.1) Hnd).
    + by rewrite list_lookup_fmap, Hp.
    + by rewrite list_lookup_fmap, Eq, <- Hn.
  - exfalso. apply list_find_None in E. rewrite Forall_lookup in E. by apply (E _ _ Hf).
Qed.

Definition tuple_parts (es : list (string * Ty)) (bs : list bytes) : list part := zip_with (fun p b => (isDynamicType p.2, b)) es bs.

Lemma packFields_ok pk fm fields es bs off ret tail :
  Forall2 (fun p b => exists v, field_named (default EmptyString (fm !! p.1)) fields = Some v /\ pk p.2 v = mret b) es bs ->
  packFields pk fm fields es off ret tail = mret (ret ++ (lay (tuple_parts es bs) off).1 ++ tail ++ (lay (tuple_parts es bs) off).2).
Proof.
  intros H. revert off ret tail. induction H as [|[n t] b es bs (v & Ef & Ep) H IH]; intros off ret tail; cbn; [by rewrite app_nil_r|].
  cbn in Ef, Ep. rewrite Ef, Ep, AM_ret_bind. destruct (isDynamicType t); rewrite IH; cbn; by rewrite <- !app_assoc.
Qed.

(** The values of the fields, in order. *)
Lemma tuple_values es v : has_type (TupleTy es) v ->
  exists vs, v = VStruct (zip_with (fun p v => (ToCamelCase p.1, None, v)) es vs) /\ Forall2 (fun p v => has_type p.2 v) es vs.
Proof.
  intros (vs & -> & H). exists vs. split; [done|]. revert vs H. induction es as [|p es IH]; intros [|v vs]; try done. intros [H1 H2]. constructor; auto.
Qed.

Lemma wf_tuple es : wf_ty (TupleTy es) = true ->
  es <> [] /\ Forall (fun p => wf_ty p.2 = true) es /\ Forall (fun p => ToCamelCase p.1 <> EmptyString) es /\ NoDup (map (fun p => ToCamelCase p.1) es).
Proof.
  cbn. intros [[[H1 H2]%andb_true_iff H3]%andb_true_iff H4]%andb_true_iff. split_and!.
  - by destruct es.
  - rewrite forallb_forall in H2. apply Forall_forall. intros p Hp%list_elem_of_In. by apply H2.
  - rewrite forallb_forall in H3. apply Forall_forall. intros p Hp%list_elem_of_In. specialize (H3 _ Hp). by apply negb_true_iff, bool_decide_eq_false in H3.
  - by apply bool_decide_eq_true in H4.
Qed.

Lemma fieldmap_ok es vs : wf_ty (TupleTy es) = true -> length es = length vs ->
  exists m, mapArgNamesToStructFields (map fst es) (zip_with (fun p v => (ToCamelCase p.1, None, v)) es vs) = mret m /\
    forall i p v, es !! i = Some p -> vs !! i = Some v ->
      field_named (default EmptyString (m !! p.1)) (zip_with (fun p v => (ToCamelCase p.1, None, v)) es vs) = Some v.
Proof.
  intros (_ & _ & Hne & Hnd)%wf_tuple Hl. unfold mapArgNamesToStructFields. rewrite tagRound_none, AM_ret_bind.
  set (fields := zip_with _ es vs).
  destruct (nameRound_ok fields (map fst es) ∅ ∅) as (m & E & Hm).
  - apply Forall_forall. intros n Hn. apply list_elem_of_fmap in Hn as (p & -> & Hp). rewrite Forall_forall in Hne.
    apply list_elem_of_lookup in Hp as Hp'. destruct Hp' as [i Hi]. assert (i < length vs) as Hiv by (rewrite <- Hl; by eapply lookup_lt_Some).
    destruct (lookup_lt_is_Some_2 vs i Hiv) as [v Hv]. split_and!; [by apply Hne| |apply lookup_empty..]. exists v. by apply (field_named_zip es vs i).
  - by rewrite map_map.
  - exists m. split; [done|]. intros i p v Hp Hv. rewrite Hm, decide_True.
    + by apply (field_named_zip es vs i).
    + apply list_elem_of_fmap. exists p. split; [done|]. by eapply list_elem_of_lookup_2.
Qed.

(** *** Sizes *)

Lemma dynamic_size t : isDynamicType t = true -> getTypeSize t = 32.
Proof. destruct t; try done; cbn; intros H; by rewrite H. Qed.

Lemma array_size n e : wf_ty (ArrayTy n e) = true -> isDynamicType e = false -> getTypeSize (ArrayTy n e) = n * getTypeSize e.
Proof.
  cbn. intros [[_ _]%andb_true_iff H]%andb_true_iff Hd. rewrite Hd in *. destruct e; cbn in *; try done.
Qed.

Lemma list_sum_cons x l : list_sum (x :: l) = x + list_sum l.
Proof. done. Qed.

Lemma static_tuple es : isDynamicType (TupleTy es) = false -> Forall (fun p => isDynamicType p.2 = false) es.
Proof.
  cbn. intros H. apply Forall_forall. intros p Hp. destruct (isDynamicType p.2) eqn:E; [|done]. rewrite <- H. symmetry. apply existsb_exists.
  exists p. split; [by apply list_elem_of_In|done].
Qed.

(** Every type takes a positive number of words. *)
Lemma size_words t : wf_ty t = true -> exists k, getTypeSize t = 32 * S k.
Proof.
  induction t as [| | | |e IH|n e IH|es IH| | | | | |] using Ty_nested_ind; intros Hwf; try (by exists 0); try done.
  - destruct (isDynamicType e) eqn:Hd; [exists 0; by apply dynamic_size|]. rewrite array_size by done. cbn in Hwf.
    apply andb_true_iff in Hwf as [[H0 H1]%andb_true_iff _]. destruct (IH H1) as [k ->]. destruct n as [|n]; [done|]. exists (k + n * S k). lia.
  - destruct (isDynamicType (TupleTy es)) eqn:Hd; [exists 0; by apply dynamic_size|]. apply wf_tuple in Hwf as (Hne & Hwf & _). cbn [getTypeSize]. rewrite Hd. clear Hd.
    destruct es as [|p es]; [done|]. apply Forall_cons in IH as [IHp IH]. apply Forall_cons in Hwf as [Hp Hwf]. destruct (IHp Hp) as [k Hk].
    cbn [map]. rewrite list_sum_cons, Hk. clear Hne IHp Hp Hk.
    assert (exists m, list_sum (map (fun p => getTypeSize p.2) es) = 32 * m) as [m ->]; [|exists (k + m); lia].
    induction es as [|q es IHes]; [by exists 0|]. apply Forall_cons in IH as [IHq IH]. apply Forall_cons in Hwf as [Hq Hwf].
    destruct (IHq Hq) as [k' Hk']. destruct (IHes IH Hwf) as [m Hm]. exists (S k' + m). cbn [map]. rewrite list_sum_cons, Hk', Hm. lia.
Qed.

Lemma size_ge t : wf_ty t = true -> 32 <= getTypeSize t.
Proof. intros H. destruct (size_words t H) as [k ->]. lia. Qed.

Lemma length_encode parts : list_sum (map head_len parts) <= length (encode parts).
Proof. unfold encode. rewrite length_app, length_heads. lia. Qed.

Lemma length_encode_static parts : Forall (fun p => p.1 = false) parts -> length (encode parts) = list_sum (map head_len parts).
Proof.
  intros H. unfold encode. rewrite length_app, length_heads. assert (forall off, (lay parts off).2 = []) as ->; [|cbn; lia].
  induction H as [|[? b] parts Hp _ IH]; intros off; [done|]. cbn in Hp. subst. apply IH.
Qed.

(** What packing a value gives. *)
Definition packed (t : Ty) (v : Value) (b : bytes) : Prop :=
  pack t v = mret b /\ 32 <= length b /\ (isDynamicType t = false -> length b = getTypeSize t).

Lemma packed_head t v b : packed t v b -> head_len (isDynamicType t, b) = getTypeSize t.
Proof. intros (_ & _ & H). unfold head_len. cbn. destruct (isDynamicType t) eqn:E; [by rewrite dynamic_size|auto]. Qed.

Lemma packed_list e l : (forall v, has_type e v -> exists b, packed e v b) -> Forall (has_type e) l -> exists bs, Forall2 (packed e) l bs.
Proof. intros He. induction 1 as [|v l Hv _ [bs IH]]; [by exists []|]. destruct (He v Hv) as [b Hb]. exists (b :: bs). by constructor. Qed.

Lemma packed_heads e l bs : Forall2 (packed e) l bs -> list_sum (map head_len (map (pair (isDynamicType e)) bs)) = getTypeSize e * length l.
Proof.
  intros H. rewrite (head_sum _ _ (getTypeSize e)); [by rewrite (Forall2_length _ _ _ H)|]. eapply Forall2_Forall_r; [exact H|]. apply Forall_forall. intros v _ b. apply packed_head.
Qed.

Lemma packed_elems e l bs : Forall2 (packed e) l bs -> Forall2 (fun v b => pack e v = mret b) l bs.
Proof. intros H. eapply Forall2_impl; [exact H|]. by intros v b []. Qed.

Lemma pack_slice e l bs : wf_ty e = true -> has_type (SliceTy e) (VSlice (Kind_ e) l) -> Forall2 (packed e) l bs ->
  pack (SliceTy e) (VSlice (Kind_ e) l) = mret (packLen (length l) ++ encode (map (pair (isDynamicType e)) bs)).
Proof.
  intros Hwf Hty H. cbn [pack]. rewrite (indirect_typed _ _ Hty), (typeCheck_ok (SliceTy e) _ Hwf Hty), AM_ret_bind. cbn [elements requiresLengthPrefix].
  apply packElems_encode; [by apply packed_elems|apply dynamic_size].
Qed.

Lemma pack_array n e l bs : wf_ty (ArrayTy n e) = true -> has_type (ArrayTy n e) (VArray (Kind_ e) l) -> Forall2 (packed e) l bs ->
  pack (ArrayTy n e) (VArray (Kind_ e) l) = mret (encode (map (pair (isDynamicType e)) bs)).
Proof.
  intros Hwf Hty H. cbn [pack]. rewrite (indirect_typed _ _ Hty), (typeCheck_ok _ _ Hwf Hty), AM_ret_bind. cbn [elements requiresLengthPrefix].
  apply (packElems_encode _ _ _ _ _ []); [by apply packed_elems|apply dynamic_size].
Qed.

Lemma tuple_heads es vs bs : Forall3 (fun p v b => packed p.2 v b) es vs bs ->
  list_sum (map head_len (tuple_parts es bs)) = list_sum (map (fun p => getTypeSize p.2) es).
Proof.
  unfold tuple_parts. induction 1 as [|p v b es vs bs Hp _ IH]; [done|]. cbn [zip_with map]. rewrite !list_sum_cons, (packed_head _ _ _ Hp), IH. done.
Qed.

Lemma pack_tuple es vs bs : wf_ty (TupleTy es) = true -> has_type (TupleTy es) (VStruct (zip_with (fun p v => (ToCamelCase p.1, None, v)) es vs)) ->
  Forall3 (fun p v b => packed p.2 v b) es vs bs ->
  pack (TupleTy es) (VStruct (zip_with (fun p v => (ToCamelCase p.1, None, v)) es vs)) = mret (encode (tuple_parts es bs)).
Proof.
  intros Hwf Hty H. pose proof (Forall3_length_lm _ _ _ _ H) as Hl. destruct (fieldmap_ok es vs Hwf Hl) as (m & Em & Hm).
  cbn [pack]. rewrite (indirect_typed _ _ Hty), (typeCheck_ok _ _ Hwf Hty), AM_ret_bind, Em, AM_ret_bind. rewrite (packFields_ok _ _ _ _ bs).
  - rewrite <- (tuple_heads _ _ _ H). done.
  - apply Forall2_same_length_lookup. split; [exact (Forall3_length_lr _ _ _ _ H)|]. intros i p b Hp Hb.
    destruct (Forall3_lookup_l _ _ _ _ _ _ H Hp) as (v & b' & Hv & Hb' & (Hpk & _)). replace b' with b in Hpk by congruence. exists v. split; [by apply (Hm i)|done].
Qed.

(** *** Simple types *)

Definition is_simple (t : Ty) : bool := match t with SliceTy _ | ArrayTy _ _ | TupleTy _ => false | _ => true end.

Lemma pack_simple t v : is_simple t = true -> wf_ty t = true -> has_type t v -> pack t v = packElement t v.
Proof.
  intros Hs Hwf Hty. destruct t; try done; cbn [pack]; by rewrite (indirect_typed _ _ Hty), (typeCheck_ok _ _ Hwf Hty), AM_ret_bind.
Qed.

Lemma length_RightPad s l : length s <= l -> length (RightPadBytes s (Z.of_nat l)) = l.
Proof.
  intros H. unfold RightPadBytes. destruct (Z.leb_spec (Z.of_nat l) (Z.of_nat (length s))); [lia|]. rewrite length_app, length_replicate. lia.
Qed.

Lemma RightPad_prefix s l : exists k, RightPadBytes s (Z.of_nat l) = s ++ replicate k x00.
Proof. unfold RightPadBytes. destruct (_ <=? _)%Z; [exists 0; by rewrite app_nil_r|eauto]. Qed.

Lemma length_packBytesSlice b : 32 + length b <= length (packBytesSlice b (length b)).
Proof.
  unfold packBytesSlice. rewrite length_app, length_packLen. pose proof (Nat.div_mod_eq (length b + 31) 32). pose proof (Nat.mod_upper_bound (length b + 31) 32 ltac:(lia)).
  rewrite length_RightPad by lia. lia.
Qed.

Lemma LeftPad_address b : length b = 20 -> LeftPadBytes b 32 = replicate 12 x00 ++ b.
Proof. intros H. unfold LeftPadBytes. rewrite H. done. Qed.

Lemma packed_simple t v : wf_ty t = true -> has_type t v -> is_simple t = true -> exists b, packElement t v = mret b /\ 32 <= length b /\
  (isDynamicType t = false -> length b = 32).
Proof.
  intros Hwf Hty Hs. destruct t as [n|n| | | | | | |n| | | |]; try done; cbn in Hty.
  - destruct v as [k z|z| | | | | |]; try done; exists (U256 z); rewrite length_U256; (split; [|done]).
    + destruct Hty as (-> & Hk & _). unfold reflectIntKind in *. by repeat case_match.
    + done.
  - destruct v as [k z|z| | | | | |]; try done; exists (U256 z); rewrite length_U256; (split; [|done]).
    + destruct Hty as (-> & Hk & _). unfold reflectIntKind in *. by repeat case_match.
    + done.
  - destruct Hty as [b ->]. eexists. split; [done|]. rewrite PaddedBigBytes_be32, length_be32 by (unfold word; destruct b; lia). done.
  - destruct Hty as [s ->]. eexists. split; [done|]. pose proof (length_packBytesSlice s). split; [lia|done].
  - destruct Hty as (b & -> & Hb). cbn [packElement byte_array Bytes_]. rewrite bytes_of_map, AM_ret_bind. eexists. split; [done|].
    rewrite LeftPad_address, length_app, Hb, length_replicate by done. done.
  - destruct Hty as (b & -> & Hb). cbn [packElement byte_array Bytes_]. rewrite bytes_of_map, AM_ret_bind. eexists. split; [done|].
    cbn in Hwf. bool_to_prop. change 32%Z with (Z.of_nat 32). rewrite length_RightPad by lia. done.
  - destruct Hty as (b & ->). cbn [packElement byte_slice Bytes_]. rewrite bytes_of_map, AM_ret_bind. eexists. split; [done|]. pose proof (length_packBytesSlice b). split; [lia|done].
  - destruct Hty as (b & -> & Hb). cbn [packElement byte_array Bytes_]. rewrite bytes_of_map, AM_ret_bind. eexists. split; [done|].
    change 32%Z with (Z.of_nat 32). rewrite length_RightPad by lia. done.
Qed.

Lemma simple_size t : is_simple t = true -> getTypeSize t = 32.
Proof. by destruct t. Qed.

(** A value of a type can be packed. *)
Lemma pack_total t v : wf_ty t = true -> has_type t v -> exists b, packed t v b.
Proof.
  revert v. induction t as [| | | |e IH|n e IH|es IH| | | | | |] using Ty_nested_ind; intros v Hwf Hty.
  all: try (destruct (packed_simple _ v Hwf Hty eq_refl) as (b & E & H1 & H2); exists b; split; [by rewrite pack_simple|split; [done|intros Hd; rewrite simple_size by done; auto]]).
  - pose proof Hty as (l & -> & Hl & _). destruct (packed_list e l (fun v => IH v Hwf) Hl) as [bs Hbs]. eexists. split; [by apply pack_slice|]. split; [|done].
    rewrite length_app, length_packLen. lia.
  - pose proof Hty as (l & -> & Hn & Hl). pose proof Hwf as [[Hn0 He]%andb_true_iff _]%andb_true_iff. destruct (packed_list e l (fun v => IH v He) Hl) as [bs Hbs].
    eexists. split; [by apply pack_array|]. pose proof (packed_heads _ _ _ Hbs) as Hh. pose proof (length_encode (map (pair (isDynamicType e)) bs)) as Hle.
    pose proof (size_ge e He). bool_to_prop. split; [nia|]. intros Hd. rewrite array_size by done.
    rewrite length_encode_static, Hh; [lia|]. apply Forall_map, Forall_true. by intros b.
  - destruct (tuple_values es v Hty) as (vs & -> & Hvs). pose proof (wf_tuple es Hwf) as (Hne & Hw & _).
    assert (exists bs, Forall3 (fun p v b => packed p.2 v b) es vs bs) as [bs Hbs].
    { clear Hwf Hty Hne. induction Hvs as [|p v es vs Hv Hvs IHv]; [exists []; constructor|]. apply Forall_cons in IH as [IHp IH]. apply Forall_cons in Hw as [Hp Hw].
      destruct (IHp v Hp Hv) as [b Hb]. destruct (IHv IH Hw) as [bs Hbs]. exists (b :: bs). by constructor. }
    eexists. split; [by apply pack_tuple|]. pose proof (tuple_heads _ _ _ Hbs) as Hh. pose proof (length_encode (tuple_parts es bs)) as Hle. pose proof (size_ge _ Hwf) as Hg.
    split.
    + destruct es as [|p es]; [done|]. apply Forall_cons in Hw as [Hp _]. pose proof (size_ge p.2 Hp). cbn [map] in Hh. rewrite list_sum_cons in Hh. lia.
    + intros Hd. cbn [getTypeSize] in *. rewrite Hd. rewrite length_encode_static; [done|]. apply static_tuple in Hd. clear -Hd Hbs. unfold tuple_parts.
      induction Hbs; [constructor|]. apply Forall_cons in Hd as [H1 H2]. constructor; [done|auto].
Qed.

(** ** Unpacking *)

Lemma lastBytes_mod k b : k <= length b -> lastBytes k b = (be_value b mod 256 ^ Z.of_nat k)%Z.
Proof.
  intros H. unfold lastBytes. rewrite <- (take_drop (length b - k) b) at 3. rewrite be_value_app, length_drop. replace (length b - (length b - k)) with k by lia.
  rewrite Z.add_comm, Z.mod_add by lia. symmetry. apply Z.mod_small. pose proof (be_value_bound (drop (length b - k) b)) as Hb.
  rewrite length_drop in Hb. replace (length b - (length b - k)) with k in Hb by lia. pose proof (be_value_nonneg (drop (length b - k) b)). lia.
Qed.

Lemma lastBytes_U256 k z : k <= 32 -> lastBytes k (U256 z) = (z mod 256 ^ Z.of_nat k)%Z.
Proof.
  intros Hk. rewrite lastBytes_mod, be_value_U256 by (by rewrite length_U256). change (2 ^ 256)%Z with (256 ^ Z.of_nat 32)%Z.
  replace 32 with ((32 - k) + k) by lia. rewrite Nat2Z.inj_add, Z.pow_add_r, Z.mul_comm by lia. apply Z.mod_mod_divide, Z.divide_factor_l.
Qed.

Lemma readInteger_uint n v z : has_type (UintTy n) v -> (v = VBig z \/ exists k, v = VInt k z) -> readInteger (UintTy n) (U256 z) = v.
Proof.
  intros Hty [-> | [k ->]]; cbn in Hty.
  - destruct Hty as [Hk Hz]. unfold readInteger. cbn. rewrite Hk. unfold Big.SetBytes. rewrite be_value_U256, Z.mod_small by done. done.
  - destruct Hty as (-> & Hk & Hz). unfold readInteger. cbn. unfold reflectIntKind in *.
    destruct (Z.eqb_spec n 8) as [->|]; [cbv iota; rewrite lastBytes_U256 by lia; f_equal; by apply Z.mod_small|].
    destruct (Z.eqb_spec n 16) as [->|]; [cbv iota; rewrite lastBytes_U256 by lia; f_equal; by apply Z.mod_small|].
    destruct (Z.eqb_spec n 32) as [->|]; [cbv iota; rewrite lastBytes_U256 by lia; f_equal; by apply Z.mod_small|].
    destruct (Z.eqb_spec n 64) as [->|]; [cbv iota; rewrite lastBytes_U256 by lia; f_equal; by apply Z.mod_small|]. done.
Qed.

Lemma signed_mod w z : (0 < w)%Z -> (- 2 ^ (w - 1) <= z < 2 ^ (w - 1))%Z -> ((z mod 2 ^ w + 2 ^ (w - 1)) mod 2 ^ w - 2 ^ (w - 1) = z)%Z.
Proof.
  intros Hw Hz. rewrite Zplus_mod_idemp_l. assert (2 ^ w = 2 * 2 ^ (w - 1))%Z by (rewrite <- Z.pow_succ_r by lia; f_equal; lia). rewrite Z.mod_small; lia.
Qed.

Lemma readInteger_int n v z : has_type (IntTy n) v -> (v = VBig z \/ exists k, v = VInt k z) -> readInteger (IntTy n) (U256 z) = v.
Proof.
  intros Hty [-> | [k ->]]; cbn in Hty.
  - destruct Hty as [Hk Hz]. unfold readInteger. cbn. rewrite Hk. unfold Big.SetBytes. rewrite be_value_U256. unfold maxInt256, maxUint256.
    destruct (Z.ltb_spec (2 ^ 255 + -1) (z mod 2 ^ 256)) as [Hlt|Hlt]; f_equal.
    + destruct (decide (z < 0)%Z) as [Hn|Hn]; [|rewrite Z.mod_small in Hlt; lia].
      rewrite (Z.mod_eq z), <- (Z.div_unique z (2 ^ 256) (-1) (z + 2 ^ 256)) by lia. lia.
    + destruct (decide (z < 0)%Z) as [Hn|Hn]; [|apply Z.mod_small; lia]. exfalso. rewrite (Z.mod_eq z) in Hlt by lia.
      rewrite <- (Z.div_unique z (2 ^ 256) (-1) (z + 2 ^ 256)) in Hlt by lia. lia.
  - destruct Hty as (-> & Hk & Hz). unfold readInteger. cbn. unfold reflectIntKind in *.
    destruct (Z.eqb_spec n 8) as [->|]; [cbv iota; rewrite lastBytes_U256 by lia; f_equal; by apply (signed_mod 8)|].
    destruct (Z.eqb_spec n 16) as [->|]; [cbv iota; rewrite lastBytes_U256 by lia; f_equal; by apply (signed_mod 16)|].
    destruct (Z.eqb_spec n 32) as [->|]; [cbv iota; rewrite lastBytes_U256 by lia; f_equal; by apply (signed_mod 32)|].
    destruct (Z.eqb_spec n 64) as [->|]; [cbv iota; rewrite lastBytes_U256 by lia; f_equal; by apply (signed_mod 64)|]. done.
Qed.

Lemma sub_prefix a b n : length a = n -> sub (a ++ b) 0 n = a.
Proof. intros <-. unfold sub. rewrite drop_0, Nat.sub_0_r. apply take_app_length. Qed.

Lemma readFunctionType_ok b : length b = 24 -> readFunctionType (RightPadBytes b 32) = mret (byte_array b).
Proof.
  intros H. unfold readFunctionType, RightPadBytes. rewrite H. cbn [Z.leb Z.of_nat]. change (32 <=? Z.of_nat 24)%Z with false. cbv iota.
  rewrite (sub_prefix b) by done. replace (sub (b ++ _) 24 32) with (replicate 8 x00); [done|]. unfold sub. by rewrite (drop_app_length' b).
Qed.

Lemma readFixedBytes_ok n b : length b = n -> n <= 32 -> readFixedBytes n (RightPadBytes b 32) = mret (byte_array b).
Proof.
  intros H Hn. unfold readFixedBytes. change 32%Z with (Z.of_nat 32). rewrite length_RightPad by lia. destruct (Nat.ltb_spec 32 n); [lia|].
  destruct (RightPad_prefix b 32) as [k ->]. by rewrite sub_prefix.
Qed.

Lemma readAddress_ok b : length b = 20 -> BytesToAddressHash (LeftPadBytes b 32) = b.
Proof.
  intros H. rewrite LeftPad_address by done. unfold BytesToAddressHash, Crypto.SetBytes. rewrite length_app, length_replicate, H.
  change (AddressSize <? 12 + 20) with true. cbv iota. change (12 + 20 - AddressSize) with 12. rewrite (drop_app_length' (replicate 12 x00)) by done. by rewrite H.
Qed.

(** Data in memory. *)
Definition in_memory (output : bytes) : Prop := (Z.of_nat (length output) < 2 ^ 63)%Z.

Lemma placed_room output i dyn b : placed output i (dyn, b) -> 32 <= length b -> i + 32 <= length output.
Proof. destruct dyn; [intros (off & _ & H & _)|intros [H _]]; cbn in *; lia. Qed.

Lemma sub_sub output i b n : sub output i (i + length b) = b -> n <= length b -> sub output i (i + n) = take n b.
Proof.
  intros H Hn. rewrite <- H. unfold sub. rewrite take_take. f_equal. lia.
Qed.

(** The length of a dynamic part, and what comes after it. *)
Lemma lengthPrefix_ok output i n rest : in_memory output -> placed output i (true, packLen n ++ rest) -> n <= length rest ->
  exists begin C, lengthPrefixPointsTo i output = mret (begin, n) /\ drop begin output = rest ++ C /\ begin + length rest <= length output.
Proof.
  intros Hm (off & H1 & H2 & H3 & H4) Hn. unfold in_memory in Hm. cbn [snd] in *. rewrite length_app, length_packLen in *.
  assert (be_value (sub output i (i + 32)) = Z.of_nat off) as Eo by (rewrite H3; apply be_value_packLen; lia).
  assert (sub output off (off + 32) = packLen n) as El.
  { rewrite (sub_sub _ _ (packLen n ++ rest)); rewrite ?length_app, ?length_packLen; [apply take_app_length'; by rewrite length_packLen|done|lia]. }
  exists (off + 32). destruct (sub_drop output off (packLen n ++ rest)) as [C HC]; rewrite ?length_app, ?length_packLen; [done..|]. exists C. split_and!; [|..].
  - unfold lengthPrefixPointsTo, Big.SetBytes. rewrite Eo. destruct (Z.ltb_spec (Z.of_nat (length output)) (Z.of_nat off + 32)); [lia|].
    rewrite BitLen_small, Uint64_small by lia. replace (Z.to_nat (Z.of_nat off + 32)) with (off + 32) by lia. rewrite Nat.add_sub, El, be_value_packLen by lia.
    rewrite BitLen_small by lia. destruct (Z.ltb_spec (Z.of_nat (length output)) (Z.of_nat off + 32 + Z.of_nat n)); [lia|].
    rewrite Uint64_small by lia. do 3 f_equal. lia.
  - rewrite <- drop_drop, HC, <- app_assoc, (drop_app_length' (packLen n)) by (by rewrite length_packLen). done.
  - lia.
Qed.

Definition decodes (t : Ty) : Prop := forall v b i output,
  has_type t v -> packed t v b -> placed output i (isDynamicType t, b) -> in_memory output -> toGoType i t output = mret v.

Lemma room_leb output i dyn b : placed output i (dyn, b) -> 32 <= length b -> (length output <? i + 32) = false.
Proof. intros H1 H2. apply Nat.ltb_ge. by eapply placed_room. Qed.

(** *** Simple types *)

Lemma packBytesSlice_eq s : exists rest k, packBytesSlice s (length s) = packLen (length s) ++ rest /\ rest = s ++ replicate k x00.
Proof. unfold packBytesSlice. destruct (RightPad_prefix s ((length s + 31) / 32 * 32)) as [k ->]. eauto. Qed.

Lemma decode_bytes output i s : in_memory output -> placed output i (true, packBytesSlice s (length s)) ->
  exists begin, lengthPrefixPointsTo i output = mret (begin, length s) /\ sub output begin (begin + length s) = s.
Proof.
  intros Hm Hp. destruct (packBytesSlice_eq s) as (rest & k & E & ->). rewrite E in Hp.
  destruct (lengthPrefix_ok _ _ _ _ Hm Hp) as (begin & C & El & Ed & _); [rewrite length_app; lia|]. exists begin. split; [done|].
  unfold sub. rewrite Ed, <- app_assoc, Nat.add_comm, Nat.add_sub. apply take_app_length.
Qed.

Lemma decode_simple t : wf_ty t = true -> is_simple t = true -> decodes t.
Proof.
  intros Hwf Hs v b i output Hty (Hp & Hb & Hd) Hpl Hm. rewrite pack_simple in Hp by done. rewrite simple_size in Hd by done.
  destruct (isDynamicType t) eqn:Hdyn; [|specialize (Hd eq_refl)].
  - destruct t; try done; cbn in Hty; destruct Hty as (s & ->); cbn [toGoType]; rewrite (room_leb _ _ _ _ Hpl Hb); cbn [requiresLengthPrefix].
    + injection Hp as <-. destruct (decode_bytes _ _ _ Hm Hpl) as (begin & -> & E). rewrite AM_ret_bind. by rewrite E.
    + cbn [packElement byte_slice Bytes_] in Hp. rewrite bytes_of_map, AM_ret_bind in Hp. injection Hp as <-.
      destruct (decode_bytes _ _ _ Hm Hpl) as (begin & -> & E). rewrite AM_ret_bind. by rewrite E.
  - pose proof (room_leb _ _ _ _ Hpl Hb) as Hroom. destruct Hpl as [_ Hsub]. cbn [fst snd] in Hsub. rewrite Hd in Hsub.
    destruct t as [n|n| | | | | | |n| | | |]; try done; cbn [toGoType]; rewrite Hroom; cbn [requiresLengthPrefix]; rewrite AM_ret_bind, Hsub; pose proof Hty as Hty'; cbn in Hty'.
    + destruct v as [k z|z| | | | | |]; try done; assert (b = U256 z) as ->; [destruct Hty' as (-> & Hk & _); cbn in Hp; unfold reflectIntKind in *; repeat case_match; naive_solver| |by injection Hp|];
        f_equal; apply readInteger_int; eauto.
    + destruct v as [k z|z| | | | | |]; try done; assert (b = U256 z) as ->; [destruct Hty' as (-> & Hk & _); cbn in Hp; unfold reflectIntKind in *; repeat case_match; naive_solver| |by injection Hp|];
        f_equal; apply readInteger_uint; eauto.
    + destruct Hty' as [c ->]. injection Hp as <-. by destruct c.
    + destruct Hty' as (c & -> & Hc). cbn [packElement byte_array Bytes_] in Hp. rewrite bytes_of_map, AM_ret_bind in Hp. injection Hp as <-. by rewrite readAddress_ok.
    + destruct Hty' as (c & -> & Hc). cbn [packElement byte_array Bytes_] in Hp. rewrite bytes_of_map, AM_ret_bind in Hp. injection Hp as <-.
      cbn in Hwf. bool_to_prop. apply readFixedBytes_ok; [done|lia].
    + destruct Hty' as (c & -> & Hc). cbn [packElement byte_array Bytes_] in Hp. rewrite bytes_of_map, AM_ret_bind in Hp. injection Hp as <-. by apply readFunctionType_ok.
Qed.

(** *** Slices, arrays and tuples *)

Lemma eachLoop_ok e l bs output j : decodes e -> in_memory output -> Forall (has_type e) l -> Forall2 (packed e) l bs ->
  places output (map (pair (isDynamicType e)) bs) j -> eachLoop (fun i => toGoType i e output) (getTypeSize e) (length l) j = mret l.
Proof.
  intros He Hm Hl H. revert j Hl. induction H as [|v b l bs Hb _ IH]; intros j Hl Hpl; [done|]. apply Forall_cons in Hl as [Hv Hl]. destruct Hpl as [Hp Hpl].
  cbn [length eachLoop]. rewrite (He v b j output) by done. rewrite AM_ret_bind. rewrite (packed_head _ _ _ Hb) in Hpl. rewrite (IH _ Hl Hpl). done.
Qed.

Lemma forEachUnpack_ok e l bs C : wf_ty e = true -> decodes e -> Forall (has_type e) l -> Forall2 (packed e) l bs ->
  in_memory (encode (map (pair (isDynamicType e)) bs) ++ C) ->
  let output := encode (map (pair (isDynamicType e)) bs) ++ C in
  forEachUnpack (fun i => toGoType i e output) (getTypeSize e) output 0 (length l) = mret l.
Proof.
  intros Hwf He Hl H Hm output. unfold forEachUnpack. destruct (Nat.ltb_spec (length output) (0 + 32 * length l)) as [Hlt|_].
  - exfalso. subst output. rewrite length_app in Hlt. pose proof (length_encode (map (pair (isDynamicType e)) bs)) as Hle. rewrite (packed_heads _ _ _ H) in Hle.
    pose proof (size_ge e Hwf). nia.
  - by apply (eachLoop_ok e l bs); [..|apply encode_places].
Qed.

Lemma inlined_size e : wf_ty e = true -> Z.of_nat (getTypeSize e) = (32 * (1 + inlined e))%Z.
Proof.
  intros Hwf. destruct (isDynamicType e) eqn:Hd; [rewrite dynamic_size by done; unfold inlined; rewrite Hd; cbn [negb]; destruct e; lia|].
  destruct (is_simple e) eqn:Hs; [rewrite simple_size by done; destruct e; try done; cbn; lia|]. destruct (size_words e Hwf) as [k Hk].
  unfold inlined. rewrite Hd. cbn [negb]. replace (match e with ArrayTy _ _ | TupleTy _ => _ | _ => _ end) with (Z.of_nat (getTypeSize e) / 32 - 1)%Z by (by destruct e).
  rewrite Hk, Nat2Z.inj_mul, Z.mul_comm, Z.div_mul by lia. lia.
Qed.

Lemma position_next i va e : wf_ty e = true -> (0 <= Z.of_nat i + va)%Z -> position (S i) (va + inlined e) = position i va + getTypeSize e.
Proof. intros Hwf H. pose proof (inlined_size e Hwf). unfold position. lia. Qed.

Lemma inlined_nonneg e : wf_ty e = true -> (0 <= inlined e)%Z.
Proof. intros Hwf. pose proof (inlined_size e Hwf). pose proof (size_ge e Hwf). lia. Qed.

Lemma unpackFields_ok es vs bs output i va : Forall (fun p => decodes p.2) es -> Forall (fun p => wf_ty p.2 = true) es -> in_memory output -> (0 <= va)%Z ->
  Forall2 (fun p v => has_type p.2 v) es vs -> Forall3 (fun p v b => packed p.2 v b) es vs bs -> places output (tuple_parts es bs) (position i va) ->
  unpackFields (fun i t => toGoType i t output) es i va = mret (zip_with (fun p v => (ToCamelCase p.1, None, v)) es vs).
Proof.
  intros Hd Hw Hm Hva Hty H. revert i va Hva. induction H as [|[n e] v b es vs bs Hb _ IH]; intros i va Hva Hpl; [done|].
  apply Forall_cons in Hd as [He Hd]. apply Forall_cons in Hw as [Hwe Hw]. apply Forall2_cons in Hty as [Hv Hty]. destruct Hpl as [Hp Hpl]. cbn [snd fst] in *.
  cbn [unpackFields zip_with]. rewrite (He v b _ output) by done. rewrite AM_ret_bind. cbn in Hpl. rewrite (packed_head _ _ _ Hb) in Hpl.
  pose proof (inlined_nonneg e Hwe). rewrite <- position_next in Hpl by (done || lia). rewrite (IH Hd Hw Hty) by (done || lia). done.
Qed.

Lemma forTupleUnpack_ok es vs bs C : Forall (fun p => decodes p.2) es -> Forall (fun p => wf_ty p.2 = true) es ->
  Forall2 (fun p v => has_type p.2 v) es vs -> Forall3 (fun p v b => packed p.2 v b) es vs bs -> in_memory (encode (tuple_parts es bs) ++ C) ->
  let output := encode (tuple_parts es bs) ++ C in
  forTupleUnpack (fun i t => toGoType i t output) es = mret (VStruct (zip_with (fun p v => (ToCamelCase p.1, None, v)) es vs)).
Proof.
  intros Hd Hw Hty H Hm output. unfold forTupleUnpack. rewrite (unpackFields_ok es vs bs) by (done || apply encode_places). done.
Qed.

(** Where a static or a dynamic part is read from, the rest of the data starts with it. *)
Lemma static_at output i b : placed output i (false, b) -> exists C, drop i output = b ++ C.
Proof. intros [H1 H2]. by apply sub_drop. Qed.

Lemma in_memory_drop output off D : in_memory output -> drop off output = D -> in_memory D.
Proof. unfold in_memory. intros H <-. rewrite length_drop. lia. Qed.

Lemma fields_packed (es : list (string * Ty)) vs : Forall (fun p => wf_ty p.2 = true) es -> Forall2 (fun p v => has_type p.2 v) es vs ->
  exists bs, Forall3 (fun p v b => packed p.2 v b) es vs bs.
Proof.
  intros Hw Hvs. induction Hvs as [|p v es vs Hv _ IH]; [exists []; constructor|]. apply Forall_cons in Hw as [Hp Hw].
  destruct (pack_total p.2 v Hp Hv) as [b Hb]. destruct (IH Hw) as [bs Hbs]. exists (b :: bs). by constructor.
Qed.

Lemma decode_slice e : wf_ty e = true -> decodes e -> decodes (SliceTy e).
Proof.
  intros Hwf He v b i output Hty (Hp & Hb & _) Hpl Hm. pose proof Hty as (l & -> & Hl & _).
  destruct (packed_list e l (fun v => pack_total e v Hwf) Hl) as [bs Hbs]. rewrite (pack_slice e l bs Hwf Hty Hbs) in Hp. injection Hp as <-.
  cbn [toGoType]. rewrite (room_leb _ _ _ _ Hpl Hb). cbn [requiresLengthPrefix].
  destruct (lengthPrefix_ok _ _ _ _ Hm Hpl) as (begin & C & -> & Ed & _).
  { pose proof (length_encode (map (pair (isDynamicType e)) bs)) as Hle. rewrite (packed_heads _ _ _ Hbs) in Hle. pose proof (size_ge e Hwf). nia. }
  rewrite AM_ret_bind, Ed, forEachUnpack_ok; [done..|]. by apply (in_memory_drop output begin).
Qed.

Lemma decode_array n e : wf_ty (ArrayTy n e) = true -> decodes e -> decodes (ArrayTy n e).
Proof.
  intros Hwf He v b i output Hty (Hp & Hb & _) Hpl Hm. pose proof Hty as (l & -> & <- & Hl). pose proof Hwf as [[_ Hwe]%andb_true_iff _]%andb_true_iff.
  destruct (packed_list e l (fun v => pack_total e v Hwe) Hl) as [bs Hbs]. rewrite (pack_array _ e l bs Hwf Hty Hbs) in Hp. injection Hp as <-.
  cbn [toGoType]. rewrite (room_leb _ _ _ _ Hpl Hb). cbn [requiresLengthPrefix]. rewrite AM_ret_bind. cbn [isDynamicType] in Hpl.
  destruct (isDynamicType e) eqn:Hd.
  - destruct Hpl as (off & H1 & H2 & H3 & H4). cbn [snd] in *. rewrite H3. unfold in_memory in Hm.
    replace (i64 (lastBytes 8 (packLen off))) with (Z.of_nat off).
    + destruct (Z.ltb_spec (Z.of_nat off) 0); [lia|]. destruct (Z.ltb_spec (Z.of_nat (length output)) (Z.of_nat off)); [lia|]. cbn [orb]. rewrite Nat2Z.id.
      destruct (sub_drop _ _ _ H1 H4) as [C HC]. rewrite HC. rewrite <- Hd in HC |- *. rewrite forEachUnpack_ok; [done..|]. by apply (in_memory_drop output off).
    + unfold packLen. rewrite lastBytes_U256 by lia. rewrite (Z.mod_small (Z.of_nat off)) by lia. unfold i64. rewrite Z.mod_small; lia.
  - destruct (static_at _ _ _ Hpl) as [C HC]. rewrite HC. rewrite <- Hd in HC |- *. rewrite forEachUnpack_ok; [done..|]. by apply (in_memory_drop output i).
Qed.

Lemma decode_tuple es : wf_ty (TupleTy es) = true -> Forall (fun p => decodes p.2) es -> decodes (TupleTy es).
Proof.
  intros Hwf He v b i output Hty (Hp & Hb & _) Hpl Hm. pose proof (wf_tuple es Hwf) as (_ & Hw & _). destruct (tuple_values es v Hty) as (vs & -> & Hvs).
  destruct (fields_packed es vs Hw Hvs) as [bs Hbs]. rewrite (pack_tuple es vs bs Hwf Hty Hbs) in Hp. injection Hp as <-.
  cbn [toGoType]. rewrite (room_leb _ _ _ _ Hpl Hb). cbn [requiresLengthPrefix]. rewrite AM_ret_bind.
  destruct (isDynamicType (TupleTy es)) eqn:Hd.
  - destruct Hpl as (off & H1 & H2 & H3 & H4). cbn [snd] in *. unfold tuplePointsTo, Big.SetBytes. unfold in_memory in Hm. rewrite H3, be_value_packLen by lia.
    destruct (Z.ltb_spec (Z.of_nat (length output)) (Z.of_nat off)); [lia|]. rewrite BitLen_small, Uint64_small by lia. rewrite AM_ret_bind, Nat2Z.id.
    destruct (sub_drop _ _ _ H1 H4) as [C HC]. rewrite HC. rewrite (forTupleUnpack_ok es vs bs); [done..|]. by apply (in_memory_drop output off).
  - destruct (static_at _ _ _ Hpl) as [C HC]. rewrite HC. rewrite (forTupleUnpack_ok es vs bs); [done..|]. by apply (in_memory_drop output i).
Qed.

Lemma decode_ok t : wf_ty t = true -> decodes t.
Proof.
  induction t as [| | | |e IH|n e IH|es IH| | | | | |] using Ty_nested_ind; intros Hwf; try (by apply decode_simple).
  - apply decode_slice; auto.
  - apply decode_array; [done|]. apply IH. by apply andb_true_iff in Hwf as [[_ ?]%andb_true_iff _].
  - apply decode_tuple; [done|]. apply wf_tuple in Hwf as (_ & Hw & _). clear -IH Hw. induction IH as [|p es Hp _ IH]; [done|].
    apply Forall_cons in Hw as [H1 H2]. constructor; auto.
Qed.
