(* ===== verification/AbiMethods.v ===== *)
(** * AbiMethods: the methods and events of a contract (src/core/abi/abi.go, method.go, event.go)

    The interface of a contract is a list of entries as the decoder of JSON gives them; two
    functions of one name are told apart by a suffix.  A call is packed behind the first four
    bytes of the hash of the method's signature, and is read back by them. *)

From stdpp Require Import pretty.
From S2P Require Import Prelude Crypto EvmMath EvmState EvmGas Abi AbiFacts.
Import Abi.

Record Method := mkMethod { m_Name : string; m_RawName : string; m_Const : bool; m_Inputs : list Argument; m_Outputs : list Argument }.

Record Event := mkEvent { e_Name : string; e_RawName : string; e_Anonymous : bool; e_Inputs : list Argument }.

(** The struct [ABI]. *)
Record ABI := mkABI { Constructor : Method; Methods : gmap string Method; Events : gmap string Event }.

(** An entry of the JSON text. *)
Record Field := mkField {
  f_Type : string; f_Name : string; f_Constant : bool; f_Anonymous : bool; f_Inputs : list Argument; f_Outputs : list Argument }.

Module AbiMethods.

Section AbiMethods.
Context `{K : Keccak} `{VisitOrder}.

(** [Sig] of a method and of an event. *)
Definition Sig (rawName : string) (inputs : list Argument) : string :=
  (rawName +:+ "(" +:+ String.concat "," (map arg_String inputs) +:+ ")")%string.

Definition Method_ID (m : Method) : bytes := take 4 (keccak256 (String.list_byte_of_string (Sig (m_RawName m) (m_Inputs m)))).

Definition Event_ID (e : Event) : bytes := keccak256 (String.list_byte_of_string (Sig (e_RawName e) (e_Inputs e))).

(** [ABI.Pack]. *)
Definition ABI_Pack (abi : ABI) (name : string) (args : list Value) : AM bytes :=
  if bool_decide (name = EmptyString) then Pack (m_Inputs (Constructor abi)) args
  else match Methods abi !! name with
       | None => abi_fail ErrNoMethod
       | Some method =>
           arguments ← Pack (m_Inputs method) args;
           mret (Method_ID method ++ arguments)
       end.

(** What [ABI.Unpack] reads from the data, before it is assigned to the destination. *)
Definition ABI_UnpackValues (abi : ABI) (name : string) (data : bytes) : AM (list Value) :=
  if length data =? 0 then abi_fail ErrEmptyOutput
  else match Methods abi !! name with
       | Some method => if negb (length data mod 32 =? 0) then abi_fail ErrFormat else UnpackValues (m_Outputs method) data
       | None => match Events abi !! name with
                 | Some event => UnpackValues (e_Inputs event) data
                 | None => abi_fail ErrNoMethod
                 end
       end.

Definition MethodByID (abi : ABI) (sigdata : bytes) : AM Method :=
  if length sigdata <? 4 then abi_fail ErrLength
  else match list_find (fun p => Method_ID p.2 = take 4 sigdata) (visit (Methods abi)) with
       | Some (_, (_, method)) => mret method
       | None => abi_fail ErrNoMethod
       end.

Definition EventByID (abi : ABI) (topic : bytes) : AM Event :=
  match list_find (fun p => Event_ID p.2 = topic) (visit (Events abi)) with
  | Some (_, (_, event)) => mret event
  | None => abi_fail ErrNoMethod
  end.

Definition MethodByName (abi : ABI) (name : string) : list Method :=
  map snd (List.filter (fun p => bool_decide (p.1 = name) || String.prefix (name +:+ "@") (m_Name p.2)) (visit (Methods abi))).

(** *** [UnmarshalJSON], from the decoded entries *)

(** The loop for a free name: name, name@0, name@1, ... *)
Fixpoint freeName {A} (fuel : nat) (m : gmap string A) (name : string) (idx : nat) : option string :=
  match fuel with
  | O => None
  | S fuel =>
      let candidate := (name +:+ "@" +:+ pretty idx)%string in
      match m !! candidate with Some _ => freeName fuel m name (S idx) | None => Some candidate end
  end.

Definition entryName {A} (m : gmap string A) (name : string) : option string :=
  match m !! name with Some _ => freeName (S (size m)) m name 0 | None => Some name end.

(** One entry; [None] if no free name was found within the fuel. *)
Definition addField (abi : ABI) (field : Field) : option ABI :=
  if bool_decide (f_Type field = "constructor") then
    Some (mkABI (mkMethod EmptyString EmptyString false (f_Inputs field) []) (Methods abi) (Events abi))
  else if bool_decide (f_Type field = "function" \/ f_Type field = EmptyString) then
    name ← entryName (Methods abi) (f_Name field);
    Some (mkABI (Constructor abi) (<[name := mkMethod name (f_Name field) (f_Constant field) (f_Inputs field) (f_Outputs field)]> (Methods abi)) (Events abi))
  else if bool_decide (f_Type field = "event") then
    name ← entryName (Events abi) (f_Name field);
    Some (mkABI (Constructor abi) (Methods abi) (<[name := mkEvent name (f_Name field) (f_Anonymous field) (f_Inputs field)]> (Events abi)))
  else Some abi.

Fixpoint addFields (abi : ABI) (fields : list Field) : option ABI :=
  match fields with [] => Some abi | f :: fields => abi ← addField abi f; addFields abi fields end.

Definition UnmarshalJSON (abi : ABI) (fields : list Field) : option ABI := addFields (mkABI (Constructor abi) ∅ ∅) fields.

End AbiMethods.

End AbiMethods.
Import AbiMethods.

(** ** Packing arguments *)

(** Arguments are laid out as the fields of a tuple. *)
Definition arg_fields (args : list Argument) : list (string * Ty) := map (fun a => (arg_Name a, arg_Type a)) args.

Lemma packLoop_ok args vs bs off ret tail : Forall3 (fun a v b => packed (arg_Type a) v b) args vs bs ->
  packLoop args vs off ret tail = mret (ret ++ (lay (tuple_parts (arg_fields args) bs) off).1 ++ tail ++ (lay (tuple_parts (arg_fields args) bs) off).2).
Proof.
  intros H. revert off ret tail. induction H as [|a v b args vs bs (Ep & _) _ IH]; intros off ret tail; cbn; [by rewrite app_nil_r|].
  rewrite Ep, AM_ret_bind. destruct (isDynamicType (arg_Type a)); rewrite IH; cbn; by rewrite <- !app_assoc.
Qed.

Lemma arg_heads args vs bs : Forall3 (fun a v b => packed (arg_Type a) v b) args vs bs ->
  list_sum (map head_len (tuple_parts (arg_fields args) bs)) = list_sum (map (fun a => getTypeSize (arg_Type a)) args).
Proof.
  unfold tuple_parts. induction 1 as [|a v b args vs bs Hp _ IH]; [done|]. cbn [arg_fields zip_with map snd]. rewrite !list_sum_cons, (packed_head _ _ _ Hp). f_equal. apply IH.
Qed.

Lemma Pack_encode args vs bs : Forall3 (fun a v b => packed (arg_Type a) v b) args vs bs -> Pack args vs = mret (encode (tuple_parts (arg_fields args) bs)).
Proof.
  intros H. unfold Pack. rewrite <- (Forall3_length_lm _ _ _ _ H), Nat.eqb_refl. cbn [negb]. rewrite (packLoop_ok _ _ _ _ _ _ H), <- (arg_heads _ _ _ H). done.
Qed.

Lemma unpackLoop_ok args vs bs output i va : Forall (fun a => wf_ty (arg_Type a) = true) args -> in_memory output -> (0 <= va)%Z ->
  Forall2 (fun a v => has_type (arg_Type a) v) args vs -> Forall3 (fun a v b => packed (arg_Type a) v b) args vs bs ->
  places output (tuple_parts (arg_fields args) bs) (position i va) -> unpackLoop args output i va = mret vs.
Proof.
  intros Hw Hm Hva Hty H. revert i va Hva. induction H as [|a v b args vs bs Hb _ IH]; intros i va Hva Hpl; [done|].
  apply Forall_cons in Hw as [Ha Hw]. apply Forall2_cons in Hty as [Hv Hty]. destruct Hpl as [Hp Hpl]. cbn [unpackLoop].
  rewrite (decode_ok _ Ha v b _ output) by done. rewrite AM_ret_bind. cbn in Hpl. rewrite (packed_head _ _ _ Hb) in Hpl.
  pose proof (inlined_nonneg _ Ha). rewrite <- position_next in Hpl by (done || lia). rewrite (IH Hw Hty) by (done || lia). done.
Qed.

(** The arguments that can be packed and read back, and their values. *)
Definition readable (args : list Argument) : Prop := Forall (fun a => wf_ty (arg_Type a) = true /\ arg_Indexed a = false) args.
Definition typed (args : list Argument) (vs : list Value) : Prop := Forall2 (fun a v => has_type (arg_Type a) v) args vs.

Lemma args_packed args vs : readable args -> typed args vs -> exists bs, Forall3 (fun a v b => packed (arg_Type a) v b) args vs bs.
Proof.
  intros Hr Ht. induction Ht as [|a v args vs Hv _ IH]; [exists []; constructor|]. apply Forall_cons in Hr as [[Ha _] Hr].
  destruct (pack_total _ v Ha Hv) as [b Hb]. destruct (IH Hr) as [bs Hbs]. exists (b :: bs). by constructor.
Qed.

Lemma NonIndexed_id args : readable args -> NonIndexed args = args.
Proof. unfold NonIndexed. induction 1 as [|a args [_ Ha] _ IH]; [done|]. cbn. by rewrite Ha, IH. Qed.

Lemma Pack_UnpackValues args vs : readable args -> typed args vs ->
  exists data, Pack args vs = mret data /\ (in_memory data -> UnpackValues args data = mret vs).
Proof.
  intros Hr Ht. destruct (args_packed args vs Hr Ht) as [bs Hbs]. eexists. split; [by apply Pack_encode|]. intros Hm.
  unfold UnpackValues. rewrite NonIndexed_id by done. apply (unpackLoop_ok args vs bs); try done.
  - eapply Forall_impl; [exact Hr|]. by intros a [].
  - rewrite <- (app_nil_r (encode _)). apply encode_places.
Qed.

(** ** Calls *)

Section Calls.
Context `{K : Keccak} `{V : VisitOrder}.

Lemma length_Method_ID m : length (Method_ID m) = 4.
Proof. unfold Method_ID. rewrite length_take, keccak256_length. lia. Qed.

Definition distinct_ids (abi : ABI) : Prop := forall n1 n2 m1 m2,
  Methods abi !! n1 = Some m1 -> Methods abi !! n2 = Some m2 -> Method_ID m1 = Method_ID m2 -> m1 = m2.

Lemma MethodByID_ok abi name m data : Methods abi !! name = Some m -> distinct_ids abi -> MethodByID abi (Method_ID m ++ data) = mret m.
Proof.
  intros Hm Hd. unfold MethodByID. rewrite length_app, length_Method_ID. cbn [Nat.add]. rewrite (proj2 (Nat.ltb_ge _ _)) by lia.
  rewrite take_app_length' by (by rewrite length_Method_ID).
  destruct (list_find _ (visit (Methods abi))) as [[i [n m']]|] eqn:E.
  - apply list_find_Some in E as (Hi & Hid & _). apply list_elem_of_lookup_2, visit_lookup in Hi. by rewrite (Hd _ _ _ _ Hi Hm Hid).
  - exfalso. rewrite list_find_None, Forall_forall in E. apply (E (name, m)); [by apply visit_lookup|done].
Qed.

(** C32: calling a method through its ABI, within the types and values for which the coder works:
    packing the arguments succeeds; the method is found again from the data of the call, and, when the
    data are shorter than 2^63 bytes, its arguments read back are the ones given.  The conditions
    leave out what the coder gets wrong or refuses: a type with a fixed array whose elements are
    tuples of static types (misread, [array_of_tuples_misread]), empty fixed arrays and empty tuples,
    tuples whose fields get the same or an empty name in camel case, fixed bytes outside 1..32, hash
    and fixed-point types, indexed arguments; an empty slice of fixed arrays (packing panics,
    [empty_slice_of_arrays_panics]) and integers outside their width; and two methods of the
    ABI with the same four-byte id. *)
Theorem abi_call_roundtrip abi name m args :
  name <> EmptyString -> Methods abi !! name = Some m -> distinct_ids abi -> readable (m_Inputs m) -> typed (m_Inputs m) args ->
  exists data, ABI_Pack abi name args = mret data /\ MethodByID abi data = mret m /\
    (in_memory data -> UnpackValues (m_Inputs m) (drop 4 data) = mret args).
Proof.
  intros Hn Hm Hd Hr Ht. destruct (Pack_UnpackValues _ _ Hr Ht) as (packed & Ep & Eu). exists (Method_ID m ++ packed). split_and!.
  - unfold ABI_Pack. rewrite bool_decide_eq_false_2 by done. by rewrite Hm, Ep.
  - by apply (MethodByID_ok abi name).
  - intros Hlen. rewrite drop_app_length' by (by rewrite length_Method_ID). apply Eu. unfold in_memory in *. rewrite length_app in Hlen. lia.
Qed.

End Calls.

(** ** Overloaded names *)

Lemma string_app_inj (a b c : string) : (a +:+ b = a +:+ c)%string -> b = c.
Proof. induction a as [|x a IH]; [done|]. cbn. intros [= E]. auto. Qed.

(** If the loop ends without a name, every candidate so far is taken. *)
Lemma freeName_None {A} fuel (m : gmap string A) name idx : freeName fuel m name idx = None ->
  Forall (fun i => is_Some (m !! (name +:+ "@" +:+ pretty i)%string)) (seq idx fuel).
Proof.
  revert idx. induction fuel as [|fuel IH]; intros idx; cbn; [constructor|].
  destruct (m !! _) eqn:E; [|done]. intros Hf. constructor; [eauto|]. by apply IH.
Qed.

Lemma freeName_Some {A} fuel (m : gmap string A) name idx n : freeName fuel m name idx = Some n -> m !! n = None.
Proof.
  revert idx. induction fuel as [|fuel IH]; intros idx; [done|]. cbn. destruct (m !! (name +:+ _)) eqn:E; [apply IH|]. by intros [= <-].
Qed.

Lemma entryName_ok {A} (m : gmap string A) name : exists n, entryName m name = Some n /\ m !! n = None.
Proof.
  unfold entryName. destruct (m !! name) eqn:E; [|eauto]. destruct (freeName (S (size m)) m name 0) as [n|] eqn:Ef; [eauto using freeName_Some|].
  exfalso. apply freeName_None in Ef. set (f := fun i : nat => (name +:+ "@" +:+ pretty i)%string) in Ef.
  assert (S (size m) <= size (dom m)) as Hle; [|rewrite size_dom in Hle; lia].
  rewrite <- (length_seq (S (size m)) 0), <- (length_map f). rewrite <- (size_list_to_set (C := gset string) (map f _)).
  - apply subseteq_size. intros n Hn. apply elem_of_list_to_set, list_elem_of_fmap in Hn as (i & -> & Hi). rewrite Forall_forall in Ef. by apply elem_of_dom, Ef.
  - apply NoDup_fmap_2; [|apply NoDup_seq]. intros i j Hij. apply string_app_inj in Hij. by apply string_app_inj, (inj pretty) in Hij.
Qed.

(** The functions and the events of a text, as the entries say. *)
Definition is_function (f : Field) : bool := bool_decide (f_Type f = "function" \/ f_Type f = EmptyString).
Definition is_event (f : Field) : bool := bool_decide (f_Type f = "event").

Definition method_of (f : Field) : string * bool * list Argument * list Argument := (f_Name f, f_Constant f, f_Inputs f, f_Outputs f).
Definition method_data (m : Method) : string * bool * list Argument * list Argument := (m_RawName m, m_Const m, m_Inputs m, m_Outputs m).
Definition event_of (f : Field) : string * bool * list Argument := (f_Name f, f_Anonymous f, f_Inputs f).
Definition event_data (e : Event) : string * bool * list Argument := (e_RawName e, e_Anonymous e, e_Inputs e).

Definition methods_listed (abi : ABI) : list (string * bool * list Argument * list Argument) := (fun p => method_data p.2) <$> map_to_list (Methods abi).
Definition events_listed (abi : ABI) : list (string * bool * list Argument) := (fun p => event_data p.2) <$> map_to_list (Events abi).

Lemma addField_ok abi f : exists abi', addField abi f = Some abi' /\
  methods_listed abi' ≡ₚ (if is_function f then [method_of f] else []) ++ methods_listed abi /\
  events_listed abi' ≡ₚ (if is_event f then [event_of f] else []) ++ events_listed abi.
Proof.
  unfold addField, is_function, is_event. destruct (bool_decide_reflect (f_Type f = "constructor")) as [E|_].
  { rewrite E. eexists. split; [done|]. by split. }
  destruct (bool_decide_reflect (f_Type f = "function" \/ f_Type f = EmptyString)) as [Hf|Hf].
  - destruct (entryName_ok (Methods abi) (f_Name f)) as (n & -> & Hn). eexists. split; [done|]. rewrite bool_decide_eq_false_2 by (by destruct Hf as [-> | ->]). split; [|done].
    unfold methods_listed. cbn. by rewrite map_to_list_insert.
  - destruct (bool_decide_reflect (f_Type f = "event")) as [He|He]; [|eexists; split; [done|by split]].
    destruct (entryName_ok (Events abi) (f_Name f)) as (n & -> & Hn). eexists. split; [done|]. split; [done|]. unfold events_listed. cbn. by rewrite map_to_list_insert.
Qed.

Lemma addFields_ok fields abi : exists abi', addFields abi fields = Some abi' /\
  methods_listed abi' ≡ₚ map method_of (List.filter is_function fields) ++ methods_listed abi /\
  events_listed abi' ≡ₚ map event_of (List.filter is_event fields) ++ events_listed abi.
Proof.
  revert abi. induction fields as [|f fields IH]; intros abi; cbn [addFields]; [by exists abi|].
  destruct (addField_ok abi f) as (abi1 & -> & Hm1 & He1). destruct (IH abi1) as (abi2 & E & Hm2 & He2). exists abi2. split; [done|].
  cbn [List.filter]. rewrite Hm2, He2, Hm1, He1. destruct (is_function f), (is_event f); cbn [map app]; split; try done; by rewrite Permutation_middle.
Qed.

(** reading the interface of a contract never fails to find a name for an entry, and
    loses none: overloaded functions and events are all kept, each under a name of its own. *)
Theorem abi_entries_kept abi fields : exists abi', UnmarshalJSON abi fields = Some abi' /\
  methods_listed abi' ≡ₚ map method_of (List.filter is_function fields) /\ events_listed abi' ≡ₚ map event_of (List.filter is_event fields).
Proof.
  destruct (addFields_ok fields (mkABI (Constructor abi) ∅ ∅)) as (abi' & E & Hm & He). exists abi'. split; [done|].
  rewrite Hm, He. unfold methods_listed, events_listed. cbn. by rewrite !map_to_list_empty, !app_nil_r.
Qed.

(** ** Examples *)

Module AbiDemo.

#[export] Instance keccak : Keccak := {| keccak256 b := be32 (Big.SetBytes b); keccak256_length b := length_be32 _ |}.

#[export] Instance order : VisitOrder := {| visit K _ _ A m := map_to_list m; visit_perm K _ _ A m := reflexivity _ |}.

Definition arg (name : string) (t : Ty) (s : string) : Argument := mkArgument name t s false.

(** A method with an address, a slice of integers, a tuple and an array of names. *)
Definition note : Ty := TupleTy [("memo_text", StringTy); ("urgent", BoolTy); ("parts", ArrayTy 2 (IntTy 16))].
Definition pay : Method := mkMethod "pay" "pay" false
  [arg "to" AddressTy "address"; arg "values" (SliceTy (UintTy 256)) "uint256[]"; arg "note" note "(string,bool,int16[2])"; arg "names" (ArrayTy 2 StringTy) "string[2]"] [].
Definition demo : ABI := mkABI (mkMethod EmptyString EmptyString false [] []) {[ "pay" := pay ]} ∅.

Definition payment : list Value :=
  [byte_array (replicate 20 x41); VSlice KPtr [VBig 7; VBig (2 ^ 200)];
   VStruct [("MemoText", None, VString [x68; x69]); ("Urgent", None, VBool true); ("Parts", None, VArray KInt16 [VInt KInt16 (-5); VInt KInt16 300])];
   VArray KString [VString []; VString (replicate 40 x7a)]].

Lemma pay_readable : readable (m_Inputs pay).
Proof. repeat constructor. Qed.

Lemma payment_typed : typed (m_Inputs pay) payment.
Proof.
  repeat (apply Forall2_cons_2); [..|by apply Forall2_nil_2]; cbn.
  - by exists (replicate 20 x41).
  - eexists. split; [done|]. split; [|done]. repeat apply Forall_cons_2; [by cbn..|apply Forall_nil_2].
  - exists [VString [x68; x69]; VBool true; VArray KInt16 [VInt KInt16 (-5); VInt KInt16 300]]. split; [done|]. split_and!; [eauto..| |done].
    eexists. split; [done|]. split; [done|]. repeat apply Forall_cons_2; [by cbn..|apply Forall_nil_2].
  - eexists. split; [done|]. split; [done|]. repeat apply Forall_cons_2; [by eexists..|apply Forall_nil_2].
Qed.

Lemma demo_ids : distinct_ids demo.
Proof. intros n1 n2 m1 m2 H1 H2 _. cbn in H1, H2. apply lookup_singleton_Some in H1 as [_ <-], H2 as [_ <-]. done. Qed.

(** A static array of tuples takes more room than it is given: the argument after it is read
    from the middle of the array. *)
Definition pair_of_words : Ty := TupleTy [("a", UintTy 256); ("b", UintTy 256)].
Definition word_pair (x y : Z) : Value := VStruct [("A", None, VBig x); ("B", None, VBig y)].

Example array_of_tuples_misread :
  (Pack [arg "ps" (ArrayTy 2 pair_of_words) ""; arg "last" (UintTy 256) ""] [VArray KStruct [word_pair 1 2; word_pair 3 4]; VBig 5] ≫=
     UnpackValues [arg "ps" (ArrayTy 2 pair_of_words) ""; arg "last" (UintTy 256) ""]) =
  mret [VArray KStruct [word_pair 1 2; word_pair 3 4]; VBig 3].
Proof. vm_compute. reflexivity. Qed.

(** Packing an empty slice of arrays panics. *)
Example empty_slice_of_arrays_panics : pack (SliceTy (ArrayTy 3 (UintTy 8))) (VSlice KArray []) = abi_panic.
Proof. vm_compute. reflexivity. Qed.

(** Unpacking an array of strings whose offset is past the data panics. *)
Example array_offset_panics : toGoType 0 (ArrayTy 1 StringTy) (be32 1000) = abi_panic.
Proof. vm_compute. reflexivity. Qed.


Lemma abi_call_roundtrip_witness : exists data, ABI_Pack demo "pay" payment = mret data /\
  MethodByID demo data = mret pay /\ UnpackValues (m_Inputs pay) (drop 4 data) = mret payment.
Proof.
  destruct (abi_call_roundtrip demo "pay" pay payment) as (data & H1 & H2 & H3).
  - done.
  - reflexivity.
  - exact demo_ids.
  - exact pay_readable.
  - exact payment_typed.
  - exists data. split; [exact H1|]. split; [exact H2|]. apply H3. vm_compute in H1. injection H1 as <-. vm_compute. reflexivity.
Defined.

End AbiDemo.
