(* ===== verification/Transition.v ===== *)
(** * Transition: running a contract transaction (src/core/chain/state_transition.go,
      src/core/types/transaction_vm.go)

    A message buys its gas, pays for its data, runs in the virtual machine, and gets the price
    of the gas left back.  The fields of [StateTransition] that change are a record passed from
    step to step; the machine and its database are the state of the monad [G]. *)

From S2P Require Import Prelude Opcode Crypto Types Script ScriptKinds EvmMath EvmOpcode EvmState EvmMachine EvmGas EvmInstr EvmPrecompile EvmJump Evm EvmAnalysis EvmArith EvmInv EvmOps EvmCharge EvmStep EvmTable EvmSafe EvmMain Abi.
Import Kinds.

(** [VMTransaction]. *)
Record VMTransaction := mkVMTx {
  vt_from : bytes;
  vt_to : option bytes;
  vt_originTx : option bytes;
  vt_value : Z;
  vt_gasPrice : Z;
  vt_gas : Z;
  vt_nonce : Z;
  vt_code : bytes;
  vt_typ : ContractType
}.

Inductive TransErr := ErrInsufficientBalanceForGas | ErrVm (e : EvmErr).

Record StateTransition := mkST { st_gas : Z; st_initialGas : Z; st_gasRefoundTx : option Transaction; st_remaining : Z }.

(** The results of [TransitionDb] but for the error. *)
Record TransRes := mkTransRes {
  tr_ret : bytes;
  tr_usedGas : Z;
  tr_gasRemaining : Z;
  tr_failed : bool;
  tr_gasRefundTx : option Transaction
}.

#[global] Instance ContractType_eq_dec : EqDecision ContractType.
Proof. solve_decision. Defined.

Module Transition.

Definition TxGas : Z := 2100.
Definition TxGasContractCreation : Z := 5300.
Definition TxDataZeroGas : Z := 1.
Definition TxDataNonZeroGas : Z := 6.

Definition NewVMTransaction (value gas gasPrice nonce : Z) (hash : option bytes) (typ : ContractType) (code from : bytes) (to : option bytes) : VMTransaction :=
  mkVMTx from to hash value gasPrice gas nonce code typ.

(** [None] is [vm.ErrOutOfGas]. *)
Definition IntrinsicGas (data : bytes) (contractCreation : bool) : option Z :=
  let gas := if contractCreation then TxGasContractCreation else TxGas in
  if 0 <? length data then
    let nz := Z.of_nat (length (filter (fun b => b <> x00) data)) in
    if ((2 ^ 64 - 1 - gas) / TxDataNonZeroGas <? nz)%Z then None
    else
      let gas := u64 (gas + nz * TxDataNonZeroGas) in
      let z := (Z.of_nat (length data) - nz)%Z in
      if ((2 ^ 64 - 1 - gas) / TxDataZeroGas <? z)%Z then None else Some (u64 (gas + z * TxDataZeroGas))
  else Some gas.

Definition NewStateTransition : StateTransition := mkST 0 0 None 0.

Definition useGas (st : StateTransition) (amount : Z) : option StateTransition :=
  if (st_gas st <? amount)%Z then None
  else Some (mkST (u64 (st_gas st - amount)) (st_initialGas st) (st_gasRefoundTx st) (st_remaining st)).

Definition gasUsed (st : StateTransition) : Z := u64 (st_initialGas st - st_gas st).

Definition with_gas_left (st : StateTransition) (gas : Z) : StateTransition :=
  mkST gas (st_initialGas st) (st_gasRefoundTx st) (st_remaining st).

Definition createGasRefundUtxoTx (addrHash : bytes) (value nonce : Z) : Transaction :=
  mkTx UnknownTx 0 [mkTxIn Types.NewNullOutPoint (MakeContractScriptSig nonce) 0] [mkTxOut value (Script.PayToPubKeyHashScript addrHash)] None 0 0.

Section Transition.
Context {D : StateDB} `{C : Crypto} `{K : Keccak} `{E : Curves} `{R : Rlp} (ctx : Context) (msg : VMTransaction).

Definition buyGas (st : StateTransition) : G (option StateTransition) :=
  let mgval := (vt_gas msg * vt_gasPrice msg)%Z in
  balance ← db (GetBalance (vt_from msg));
  if (balance <? mgval)%Z then mret None
  else
    _ ← db (SubBalance (vt_from msg) mgval);
    mret (Some (mkST (u64 (st_gas st + vt_gas msg)) (vt_gas msg) (st_gasRefoundTx st) (st_remaining st))).

Definition preCheck : StateTransition -> G (option StateTransition) := buyGas.

Definition to : bytes := default Types.ZeroAddressHash (vt_to msg).

(** The call of the machine: what it returns, the gas left and its error. *)
Definition execute (st : StateTransition) : G (bytes * StateTransition * option EvmErr) :=
  if bool_decide (vt_typ msg = ContractCreationType) then
    '(_, addr, gas, vmerr) ← EVM_Create ctx (vt_from msg) (vt_code msg) (st_gas st) (vt_value msg);
    mret (addr, with_gas_left st gas, vmerr)
  else
    nonce ← db (GetNonce (vt_from msg));
    _ ← db (SetNonce (vt_from msg) (u64 (nonce + 1)));
    '(ret, gas, vmerr) ← EVM_Call ctx (vt_from msg) to (vt_code msg) (st_gas st) (vt_value msg);
    mret (ret, with_gas_left st gas, vmerr).

Definition refundGas (st : StateTransition) : G StateTransition :=
  let refund := (gasUsed st / 2)%Z in
  r ← db GetRefund;
  let refund := if (r <? refund)%Z then r else refund in
  let gas := u64 (st_gas st + refund) in
  let st := with_gas_left st gas in
  let remaining := (gas * vt_gasPrice msg)%Z in
  st ← (if (0 <? Big.Uint64 remaining)%Z then
          nonce ← db (GetNonce (vt_from msg));
          mret (mkST gas (st_initialGas st) (Some (createGasRefundUtxoTx (vt_from msg) (Big.Uint64 remaining) nonce)) remaining)
        else mret st);
  _ ← db (AddBalance (vt_from msg) remaining);
  mret st.

(** The message of a failed run, where it can be read. *)
Definition errorMessage (ret : bytes) (vmerr : option EvmErr) : G bytes :=
  match vmerr with
  | None => mret ret
  | Some _ =>
      if length ret =? 0 then mret ret
      else match Abi.UnpackErrMsg ret with
           | Panics => panic
           | Returns (Ok errmsg) => mret errmsg
           | Returns (Err _) => mret ret
           end
  end.

Definition TransitionDb : G (result TransErr TransRes) :=
  st ← preCheck NewStateTransition;
  match st with
  | None => mret (Err ErrInsufficientBalanceForGas)
  | Some st =>
      match IntrinsicGas (vt_code msg) (bool_decide (vt_typ msg = ContractCreationType)) with
      | None => mret (Err (ErrVm ErrOutOfGas))
      | Some gas =>
          match useGas st gas with
          | None => mret (Err (ErrVm ErrOutOfGas))
          | Some st =>
              '(ret, st, vmerr) ← execute st;
              if bool_decide (vmerr = Some ErrInsufficientBalance) then mret (Err (ErrVm ErrInsufficientBalance))
              else
                st ← refundGas st;
                _ ← db (SetError vmerr);
                ret ← errorMessage ret vmerr;
                mret (Ok (mkTransRes ret (gasUsed st) (Big.Uint64 (st_remaining st)) (bool_decide (is_Some vmerr)) (st_gasRefoundTx st)))
          end
      end
  end.

Definition ApplyMessage : G (result TransErr TransRes) := TransitionDb.

End Transition.

End Transition.
Import Transition.

(** * What a contract transaction costs, and what it can do

    A message run by [TransitionDb] always ends; the balances lose exactly the price of the gas
    used, whatever the contracts do; a failed run changes nothing but that and a nonce. *)

Import Kinds Transition.

(** ** Caps *)

Lemma capped_take T f a v : capped T f -> (0 <= v <= f a)%Z -> capped (T - v) (fupd f a (f a - v)%Z).
Proof.
  intros [H1 H2] Hv. split.
  - intros x. destruct (decide (x = a)) as [->|]; [rewrite fupd_eq; lia|by rewrite fupd_ne].
  - intros l Hl. rewrite Zsum_fupd by done. destruct (decide (a ∈ l)) as [Ha|Ha]; [specialize (H2 l Hl); lia|].
    specialize (H2 (a :: l) ltac:(by constructor)). rewrite fmap_cons in H2. cbn [Zsum foldr] in H2. fold (Zsum (f <$> l)) in H2. lia.
Qed.

Lemma capped_give T f a v : capped T f -> (0 <= v)%Z -> capped (T + v) (fupd f a (f a + v)%Z).
Proof.
  intros [H1 H2] Hv. split.
  - intros x. pose proof (H1 a). destruct (decide (x = a)) as [->|]; [rewrite fupd_eq; lia|by rewrite fupd_ne].
  - intros l Hl. rewrite Zsum_fupd by done. specialize (H2 l Hl). case_decide; lia.
Qed.

Lemma UnpackErrMsg_returns data : exists r, Abi.UnpackErrMsg data = Returns r.
Proof.
  unfold Abi.UnpackErrMsg. generalize (if bool_decide (take 4 data = Abi.errMsgPrefix) then drop 4 data else data). intros d.
  cbn [Abi.toGoType Abi.requiresLengthPrefix]. unfold Abi.lengthPrefixPointsTo. destruct (_ <? _); [by eexists|].
  destruct (_ <? _)%Z; [by eexists|]. destruct (_ <? _)%Z; [by eexists|]. destruct (_ <? _)%Z; [by eexists|]. destruct (_ <? _)%Z; by eexists.
Qed.

(** ** The intrinsic gas *)

Lemma IntrinsicGas_ok data b : (Z.of_nat (length data) < 2 ^ 58)%Z ->
  exists gas, IntrinsicGas data b = Some gas /\ (2100 <= gas)%Z /\
    gas = ((if b then TxGasContractCreation else TxGas) + 6 * Z.of_nat (length (filter (fun x => x <> x00) data)) + Z.of_nat (length (filter (fun x => x = x00) data)))%Z.
Proof.
  intros Hl. unfold IntrinsicGas, TxDataNonZeroGas, TxDataZeroGas.
  assert (length data = length (filter (fun x => x <> x00) data) + length (filter (fun x => x = x00) data)) as Hs.
  { clear Hl. induction data as [|x data IH]; [done|]. rewrite !filter_cons. repeat case_decide; cbn; lia || congruence. }
  set (nz := length (filter _ data)) in *. set (z := length (filter (fun x => x = x00) data)) in *.
  assert (2100 <= (if b then TxGasContractCreation else TxGas) <= 5300)%Z as Hb by (unfold TxGasContractCreation, TxGas; destruct b; lia).
  set (base := (if b then _ else _)) in *. destruct (Nat.ltb_spec 0 (length data)); [|exists base; split_and!; [done|lia|lia]].
  destruct (Z.ltb_spec ((2 ^ 64 - 1 - base) / 6) (Z.of_nat nz)) as [Hlt|_].
  { exfalso. apply Z.lt_nge in Hlt. apply Hlt. apply Z.div_le_lower_bound; lia. }
  unfold u64. rewrite (Z.mod_small (base + Z.of_nat nz * 6)) by lia. rewrite Z.div_1_r.
  destruct (Z.ltb_spec (2 ^ 64 - 1 - (base + Z.of_nat nz * 6)) (Z.of_nat (length data) - Z.of_nat nz)); [lia|].
  rewrite Z.mod_small by lia. eexists. split; [done|]. lia.
Qed.

Section Facts.
Context {D : StateDB} {V : StateDBView D} `{K : Keccak} {L : StateDBLaws D V} `{C : Crypto} `{E : Curves} {EL : CurvesLaws E} `{R : Rlp}.
Context (T : Z) (ctx : Context) (msg : VMTransaction).

(** The messages the theorems are about, on a machine in good order. *)
Record message_ok (g : Global) : Prop := mk_message_ok {
  mo_T : (0 <= T < 2 ^ 256)%Z;
  mo_ctx : ctx_ok ctx;
  mo_g : gok T g;
  mo_from : length (vt_from msg) = 20;
  mo_to : length (to msg) = 20;
  mo_code : (Z.of_nat (length (vt_code msg)) < 2 ^ 58)%Z;
  mo_gas : (0 <= vt_gas msg < 2 ^ 62)%Z;
  mo_price : (0 <= vt_gasPrice msg)%Z;
  mo_value : word (vt_value msg)
}.

Lemma gok_db_step T' g d : gok T g -> sdb_ok d -> wf_obs (obs d) -> capped T' (balance (obs d)) -> gok T' (with_db g d).
Proof. intros [H1 H2 H3 H4] Hd Hw Hc. by split. Qed.

Lemma buyGas_ok g st : message_ok g -> st_gas st = 0%Z ->
  gwp (buyGas msg st) (fun r g' =>
    match r with
    | None => O g' = O g /\ (balance (O g) (vt_from msg) < vt_gas msg * vt_gasPrice msg)%Z
    | Some st' => st' = mkST (vt_gas msg) (vt_gas msg) (st_gasRefoundTx st) (st_remaining st) /\
        (vt_gas msg * vt_gasPrice msg <= balance (O g) (vt_from msg))%Z /\ gok (T - vt_gas msg * vt_gasPrice msg) g' /\
        O g' = on_acct (vt_from msg) (set_balance (balance (O g) (vt_from msg) - vt_gas msg * vt_gasPrice msg)) (O g)
    end) (fun _ _ => False) g.
Proof.
  intros [HT Hctx Hg Hf Ht Hc Hgas Hp Hv] Hst. unfold buyGas. apply wp_bind. eapply (gwp_get T _ _ false); [law law_GetBalance|done|].
  intros g1 Hg1 _ HO1 _. cbn beta. destruct (Z.ltb_spec (balance (O g) (vt_from msg)) (vt_gas msg * vt_gasPrice msg)); [by apply wp_ret|].
  apply wp_bind. eapply gwp_db; [law law_SubBalance|apply Hg1|]. intros d K1 E1 _ _. apply wp_ret. rewrite HO1 in E1.
  assert (0 <= vt_gas msg * vt_gasPrice msg)%Z by nia. split_and!; [|done| |done].
  - rewrite Hst. unfold u64. by rewrite Z.mod_small by lia.
  - apply gok_db_step; [done|done| |]; rewrite E1; [apply wf_set_balance, Hg|].
    eapply capped_ext; [intros a; apply balance_on_acct|]. apply capped_take; [apply Hg|lia].
Qed.

Lemma transaction_of T' g gas : message_ok g -> (0 <= T' <= T)%Z -> (0 <= gas < 2 ^ 62)%Z -> forall g', gok T' g' ->
  transaction_ok T' ctx g' (vt_from msg) (to msg) (vt_code msg) gas (vt_value msg).
Proof. intros [HT Hctx Hg Hf Ht Hc Hgas Hp Hv] HT' Hgs g' Hg'. split_and!; try done; lia. Qed.

(** Running the machine. *)
Lemma execute_ok T' g0 g st : message_ok g0 -> (0 <= T' <= T)%Z -> gok T' g -> (0 <= st_gas st < 2 ^ 62)%Z ->
  gwp (execute ctx msg st) (fun '(ret, st', vmerr) g' => gok T' g' /\ (exists gas, st' = with_gas_left st gas /\ (0 <= gas <= st_gas st)%Z) /\
    (is_Some vmerr -> bumped (vt_from msg) (O g) (O g'))) (fun _ _ => False) g.
Proof.
  intros Hm HT' Hg Hst. pose proof Hm as [HT Hctx Hg0 Hf Ht Hc Hgas Hp Hv]. unfold execute. destruct (bool_decide _).
  - apply wp_bind. eapply wp_mono; [apply (EVM_Create_ok T')|intros [[[ret addr] gas] err] g' ((P1 & _ & P2 & _) & P3)|done].
    + destruct (transaction_of T' g0 (st_gas st) Hm HT' Hst g Hg) as (A1 & A2 & A3 & A4 & A5 & A6 & A7 & A8). split_and!; try done; lia.
    + apply wp_ret. split_and!; [done|by eexists|done].
  - apply wp_bind. eapply (gwp_get T' _ _ false); [law law_GetNonce|done|]. intros g1 Hg1 _ HO1 _.
    apply wp_bind. eapply (gwp_upd T' _ _ _ false); [law law_SetNonce|done| | |done|].
    { apply wf_on_acct; [apply Hg1|]. by intros a (W1 & W2 & W3). }
    { eapply capped_ext; [|apply Hg1]. intros a. by apply balance_keep. }
    intros g2 Hg2 _ HO2 _. rewrite HO1 in HO2. apply wp_bind.
    eapply wp_mono; [apply (EVM_Call_ok T'); by apply (transaction_of T' g0)|intros [[ret gas] err] g' ((P1 & _ & P2) & P3)|done].
    apply wp_ret. split_and!; [done|by eexists|]. intros He. right. by rewrite (P3 He), HO2.
Qed.

Lemma refundGas_ok T' g0 g st : message_ok g0 -> gok T' g -> (0 <= st_gas st <= st_initialGas st)%Z -> (st_initialGas st < 2 ^ 62)%Z ->
  gwp (refundGas msg st) (fun st' g' => st_initialGas st' = st_initialGas st /\
    (st_gas st <= st_gas st' <= st_initialGas st)%Z /\ (st_gas st' = st_gas st + Z.min (o_refund (O g)) ((st_initialGas st - st_gas st) / 2))%Z /\
    gok (T' + st_gas st' * vt_gasPrice msg) g' /\
    O g' = on_acct (vt_from msg) (set_balance (balance (O g) (vt_from msg) + st_gas st' * vt_gasPrice msg)) (O g) /\
    (st_remaining st = 0%Z -> st_remaining st' = 0%Z /\ Big.Uint64 (st_gas st' * vt_gasPrice msg) = 0%Z \/ st_remaining st' = (st_gas st' * vt_gasPrice msg)%Z))
    (fun _ _ => False) g.
Proof.
  intros Hm Hg Hst Hi. pose proof Hm as [HT Hctx Hg0 Hf Ht Hc Hgas Hp Hv]. unfold refundGas. apply wp_bind.
  eapply (gwp_get T' _ _ false); [apply law_GetRefund|done|]. intros g1 Hg1 _ HO1 _. cbn beta.
  destruct (gok_wf _ _ Hg) as [_ Hrf]. assert (gasUsed st = st_initialGas st - st_gas st)%Z as -> by (unfold gasUsed, u64; rewrite Z.mod_small; lia).
  set (used := (st_initialGas st - st_gas st)%Z). pose proof (Z.div_pos used 2 ltac:(lia) ltac:(lia)). pose proof (Z.mul_div_le used 2 ltac:(lia)).
  set (refund := if (o_refund (O g) <? used / 2)%Z then _ else _). assert (refund = Z.min (o_refund (O g)) (used / 2)) as Hmin by (subst refund; destruct (Z.ltb_spec (o_refund (O g)) (used / 2)); lia).
  assert (0 <= refund <= used / 2)%Z as Hr by lia.
  assert (u64 (st_gas st + refund) = st_gas st + refund)%Z as -> by (unfold u64; rewrite Z.mod_small; lia).
  set (rem := ((st_gas st + refund) * vt_gasPrice msg)%Z). assert (0 <= rem)%Z by (subst rem; nia).
  apply wp_bind. eapply (wp_mono _ _ (fun st' g' => gok T' g' /\ O g' = O g /\ st_initialGas st' = st_initialGas st /\ st_gas st' = (st_gas st + refund)%Z /\
    (st_remaining st = 0%Z -> st_remaining st' = 0%Z /\ Big.Uint64 rem = 0%Z \/ st_remaining st' = rem)) _ (fun _ _ => False)); [| |done].
  - destruct (Z.ltb_spec 0 (Big.Uint64 rem)) as [|Hz].
    + apply wp_bind. eapply (gwp_get T' _ _ false); [law law_GetNonce|done|]. intros g2 Hg2 _ HO2 _. apply wp_ret. split_and!; [done|congruence|done..|]. by right.
    + apply wp_ret. split_and!; [done|done|done..|]. intros Hr0. left. split; [done|]. unfold Big.Uint64, u64 in *.
      pose proof (Z.mod_pos_bound (Z.abs rem) (2 ^ 64) ltac:(lia)). lia.
  - intros st' g2 (Hg2 & HO2 & E1 & E2 & E3). apply wp_bind. eapply gwp_db; [law law_AddBalance|apply Hg2|]. intros d K1 Ed _ _. rewrite HO2 in Ed.
    apply wp_ret. rewrite E1, E2. fold rem. split_and!; [done|lia|lia|lia| |done|done].
    split; [done| | |apply Hg2..]; unfold O; cbn; rewrite Ed; [apply wf_set_balance, Hg|].
    eapply capped_ext; [intros a; apply balance_on_acct|]. apply capped_give; [apply Hg|done].
Qed.

(** The state after a run that only cost [fee]: one account has paid it and may have a new
    nonce. *)
Definition paid (from : bytes) (fee : Z) (o o' : Obs) : Prop :=
  (forall a, a <> from -> o_acct o' a = o_acct o a) /\
  (exists n, (n = nonce o from \/ n = u64 (nonce o from + 1)) /\
    o_acct o' from = Some (set_nonce n (set_balance (balance o from - fee) (default newAcct (o_acct o from))))) /\
  o_refund o' = o_refund o /\ o_logs o' = o_logs o /\ o_logSize o' = o_logSize o /\ o_tx o' = o_tx o.

Lemma paid_ok o o1 o2 o3 from v w :
  o1 = on_acct from (set_balance (balance o from - v)) o -> bumped from o1 o2 -> o3 = on_acct from (set_balance (balance o2 from + w)) o2 ->
  paid from (v - w) o o3.
Proof.
  intros -> Hb ->. set (o1 := on_acct from _ o) in *.
  assert (o_acct o1 from = Some (set_balance (balance o from - v) (default newAcct (o_acct o from)))) as E1 by apply fupd_eq.
  assert (nonce o1 from = nonce o from) as En by (unfold nonce; rewrite E1; cbn; by destruct (o_acct o from)).
  assert (forall a, a <> from -> o_acct o2 a = o_acct o a) as Ho.
  { intros a Ha. destruct Hb as [->| ->]; [by apply fupd_ne|]. cbn. rewrite fupd_ne by done. by apply fupd_ne. }
  assert (exists n, (n = nonce o from \/ n = u64 (nonce o from + 1)) /\ o_acct o2 from = Some (set_nonce n (set_balance (balance o from - v) (default newAcct (o_acct o from))))) as (n & Hn & E2).
  { destruct Hb as [->| ->].
    - exists (nonce o from). split; [by left|]. rewrite E1. f_equal. unfold nonce. by destruct (o_acct o from).
    - exists (u64 (nonce o from + 1)). split; [by right|]. rewrite En. unfold on_acct at 1, set_acct. cbn [o_acct]. by rewrite fupd_eq, E1. }
  split_and!; try (by destruct Hb as [->| ->]).
  - intros a Ha. cbn. rewrite fupd_ne by done. by apply Ho.
  - exists n. split; [done|]. cbn. rewrite fupd_eq, E2. cbn. unfold balance at 1. rewrite E2. cbn. unfold set_nonce, set_balance. cbn. do 2 f_equal. lia.
Qed.

(** The bill of a transaction: all its gas is paid for first; the machine runs with what the data of
    the transaction leave of it; the gas used is what the machine leaves, with the refund counter, up
    to half of the gas used, taken off; and the sender gets the price of the rest back. *)
Definition billed (g : Global) (res : TransRes) (g' : Global) : Prop := exists intrinsic g1 ret st vmerr g2,
  IntrinsicGas (vt_code msg) (bool_decide (vt_typ msg = ContractCreationType)) = Some intrinsic /\
  O g1 = on_acct (vt_from msg) (set_balance (balance (O g) (vt_from msg) - vt_gas msg * vt_gasPrice msg)) (O g) /\
  execute ctx msg (mkST (vt_gas msg - intrinsic) (vt_gas msg) None 0) g1 = (XOk (ret, st, vmerr), g2) /\
  tr_failed res = bool_decide (is_Some vmerr) /\
  (tr_usedGas res = vt_gas msg - (st_gas st + Z.min (o_refund (O g2)) ((vt_gas msg - st_gas st) / 2)))%Z /\
  O g' = on_acct (vt_from msg) (set_balance (balance (O g2) (vt_from msg) + (vt_gas msg - tr_usedGas res) * vt_gasPrice msg)) (O g2).

Lemma wp_run {S A} P (c : ST S A) Q R' s : wp P c Q R' s -> wp P c (fun a s' => c s = (XOk a, s') /\ Q a s') R' s.
Proof. unfold wp. by destruct (c s) as [[] s']. Qed.

(** What a transaction answers, and the state it leaves. *)
Definition outcome (g : Global) (r : result TransErr TransRes) (g' : Global) : Prop :=
  match r with
  | Err ErrInsufficientBalanceForGas => (balance (O g) (vt_from msg) < vt_gas msg * vt_gasPrice msg)%Z /\ O g' = O g
  | Err (ErrVm e) => e = ErrOutOfGas \/ e = ErrInsufficientBalance
  | Ok res =>
      (0 <= tr_usedGas res <= vt_gas msg)%Z /\ (2100 <= 2 * tr_usedGas res)%Z /\
      tr_gasRemaining res = Big.Uint64 ((vt_gas msg - tr_usedGas res) * vt_gasPrice msg) /\
      gok (T - tr_usedGas res * vt_gasPrice msg) g' /\
      (tr_failed res = true -> paid (vt_from msg) (tr_usedGas res * vt_gasPrice msg) (O g) (O g')) /\ billed g res g'
  end.

Lemma gwp_errorMessage ret vmerr (Q : bytes -> Global -> Prop) R' g : (forall r, Q r g) -> gwp (errorMessage ret vmerr) Q R' g.
Proof.
  intros HQ. unfold errorMessage. destruct vmerr; [|by apply wp_ret]. destruct (_ =? _); [by apply wp_ret|].
  destruct (UnpackErrMsg_returns ret) as [[x|x] ->]; by apply wp_ret.
Qed.

(** From the run to the answer. *)
Lemma finish_ok g g1 g2 st ret vmerr gas0 : IntrinsicGas (vt_code msg) (bool_decide (vt_typ msg = ContractCreationType)) = Some gas0 ->
  execute ctx msg (mkST (vt_gas msg - gas0) (vt_gas msg) None 0) g1 = (XOk (ret, st, vmerr), g2) -> message_ok g -> (vt_gas msg * vt_gasPrice msg <= balance (O g) (vt_from msg))%Z -> (2100 <= gas0)%Z ->
  O g1 = on_acct (vt_from msg) (set_balance (balance (O g) (vt_from msg) - vt_gas msg * vt_gasPrice msg)) (O g) ->
  gok (T - vt_gas msg * vt_gasPrice msg) g2 -> st_initialGas st = vt_gas msg -> st_remaining st = 0%Z -> (0 <= st_gas st <= vt_gas msg - gas0)%Z ->
  (is_Some vmerr -> bumped (vt_from msg) (O g1) (O g2)) ->
  gwp (st ← refundGas msg st; _ ← db (SetError vmerr); ret ← errorMessage ret vmerr;
       mret (Ok (mkTransRes ret (gasUsed st) (Big.Uint64 (st_remaining st)) (bool_decide (is_Some vmerr)) (st_gasRefoundTx st)))) (outcome g) (fun _ _ => False) g2.
Proof.
  intros Hin Hex Hm Hbal H0 E1 Hg2 Hi Hr Hst Hb. pose proof Hm as [HT Hctx Hg Hf Ht Hc Hgas Hp Hv].
  apply wp_bind. eapply wp_mono; [apply (refundGas_ok (T - vt_gas msg * vt_gasPrice msg) g); [done|done|lia|lia]| |done].
  intros st' g3 (Ei & Hst' & Hhalf & Hg3 & E3 & Erem). rewrite Hi in *.
  assert (gasUsed st' = vt_gas msg - st_gas st')%Z as Eu by (unfold gasUsed, u64; rewrite Ei, Z.mod_small; lia).
  apply wp_bind. eapply (gwp_get _ _ _ false); [apply law_SetError|exact Hg3|]. intros g4 Hg4 _ HO4 _.
  apply wp_bind, gwp_errorMessage. intros ret'. apply wp_ret. unfold outcome. cbn [tr_usedGas tr_gasRemaining tr_failed].
  rewrite Eu. replace (vt_gas msg - (vt_gas msg - st_gas st'))%Z with (st_gas st') by lia. split_and!.
  - lia.
  - lia.
  - pose proof (Z.mul_div_le (vt_gas msg - st_gas st) 2 ltac:(lia)). destruct (gok_wf _ _ Hg2) as [_ Hrf]. lia.
  - destruct (Erem Hr) as [[-> ->]| ->]; done.
  - replace (T - (vt_gas msg - st_gas st') * vt_gasPrice msg)%Z with (T - vt_gas msg * vt_gasPrice msg + st_gas st' * vt_gasPrice msg)%Z by lia. done.
  - intros He%bool_decide_eq_true. rewrite HO4. replace ((vt_gas msg - st_gas st') * vt_gasPrice msg)%Z with (vt_gas msg * vt_gasPrice msg - st_gas st' * vt_gasPrice msg)%Z by lia.
    by apply (paid_ok (O g) (O g1) (O g2)); [|apply Hb|].
  - exists gas0, g1, ret, st, vmerr, g2. cbn. rewrite HO4, E3. split_and!; [done|done|done|done|lia|].
    by replace (vt_gas msg - (vt_gas msg - st_gas st'))%Z with (st_gas st') by lia.
Qed.

Lemma TransitionDb_ok g : message_ok g -> gwp (TransitionDb ctx msg) (outcome g) (fun _ _ => False) g.
Proof.
  intros Hm. pose proof Hm as [HT Hctx Hg Hf Ht Hc Hgas Hp Hv]. unfold TransitionDb, preCheck. apply wp_bind.
  eapply wp_mono; [by apply buyGas_ok| |done]. intros [st|] g1; [|intros [H1 H2]; apply wp_ret; by split].
  intros (-> & Hbal & Hg1 & E1). destruct (IntrinsicGas_ok (vt_code msg) (bool_decide (vt_typ msg = ContractCreationType)) Hc) as (gas0 & Ein & Hg0 & _). rewrite Ein.
  unfold useGas. cbn [st_gas st_initialGas st_gasRefoundTx st_remaining]. destruct (Z.ltb_spec (vt_gas msg) gas0) as [|Hge]; [apply wp_ret; by left|].
  assert (u64 (vt_gas msg - gas0) = vt_gas msg - gas0)%Z as -> by (unfold u64; rewrite Z.mod_small; lia).
  assert (0 <= T - vt_gas msg * vt_gasPrice msg <= T)%Z as HT'.
  { pose proof (capped_le _ _ (vt_from msg) (gok_cap _ _ Hg)). nia. }
  apply wp_bind. eapply wp_mono; [apply wp_run, (execute_ok (T - vt_gas msg * vt_gasPrice msg) g g1); [done|exact HT'|done|cbn; lia]| |done].
  intros [[ret st] vmerr] g2 [Hex (Hg2 & (gas & -> & Hgs) & Hb)]. cbn in Hgs. destruct (bool_decide (vmerr = Some ErrInsufficientBalance)); [apply wp_ret; by right|].
  apply (finish_ok g g1 g2 _ _ _ gas0); try done.
Qed.

(** C29: running a contract transaction always ends with an answer, whatever the contract does
    (the only panic left open is after two codes with one hash).  It uses at most the gas it
    bought and at least half of what a plain transfer costs, and the refund it reports is the price
    of the rest.  The bill is exact: the sender first pays for all the gas; the machine runs with the
    gas that the intrinsic cost leaves; the gas used is what it has consumed less the refund counter,
    at most half of it; and the final accounts are those that the machine left with the price of
    the gas not used added to the sender.  All accounts together hold at most what they held less
    the price of the gas used (the machine may destroy value, not create it), and none is
    negative. *)
Theorem transaction_pays_its_gas g : message_ok g ->
  match TransitionDb ctx msg g with
  | (XOk (Ok res), g') =>
      (0 <= tr_usedGas res <= vt_gas msg)%Z /\ (TxGas <= 2 * tr_usedGas res)%Z /\
      tr_gasRemaining res = Big.Uint64 ((vt_gas msg - tr_usedGas res) * vt_gasPrice msg) /\
      billed g res g' /\
      (forall a, 0 <= balance (obs (g_db g')) a)%Z /\
      (forall l, NoDup l -> Zsum (balance (obs (g_db g')) <$> l) <= T - tr_usedGas res * vt_gasPrice msg)%Z
  | (XOk (Err e), g') => e = ErrInsufficientBalanceForGas \/ e = ErrVm ErrOutOfGas \/ e = ErrVm ErrInsufficientBalance
  | (XPanic, g') => g_clash g' = true
  | _ => False
  end.
Proof.
  intros Hm. pose proof (TransitionDb_ok g Hm) as H. unfold wp in H. destruct (TransitionDb ctx msg g) as [[[res|[|e]]|e| |] g']; try done.
  - destruct H as (H1 & H2 & H3 & H4 & _ & H5). split_and!; [lia|lia|done|done|done|apply (gok_cap _ _ H4)..].
  - by left.
  - right. destruct H as [->| ->]; auto.
Qed.

(** C30: a contract transaction whose run fails is paid for and does nothing else: every account
    but the sender's is as before, storage and code included, no log is left, and the sender has
    lost the price of the gas used and at most moved to the next nonce. *)
Theorem failed_transaction_only_pays g res g' : message_ok g ->
  TransitionDb ctx msg g = (XOk (Ok res), g') -> tr_failed res = true ->
  paid (vt_from msg) (tr_usedGas res * vt_gasPrice msg) (obs (g_db g)) (obs (g_db g')).
Proof.
  intros Hm Er Hf. pose proof (TransitionDb_ok g Hm) as H. unfold wp in H. rewrite Er in H. by apply H.
Qed.

End Facts.

(** ** Examples *)

Module TransitionDemo.
Import EvmDemo RefDB.
#[local] Existing Instance ToyCrypto.toy.

Definition rich (code : bytes) : Global :=
  mkGlobal (mkRef (on_acct contract (set_code code) (on_acct alice (set_balance 1000000) no_accounts)) [] 0) [] 0 ∅ [] ∅ false.

(** A call of the contract with a value of 3, at a price of 2. *)
Definition call (addr : bytes) (gas : Z) : VMTransaction := mkVMTx alice (Some addr) None 3 2 gas 1 [x01; x00] ContractCallType.

Lemma call_good code : length code <= 100 -> message_ok 1000000 ctx (call contract 4000) (rich code).
Proof.
  intros Hc. destruct (deployed_good no_accounts code 1000000 1000000) as [H1 H2]; [done|done|lia|done|].
  split; cbn; try lia; try done; [apply ctx_good|]. split; [constructor|exact H1|exact H2|by intros h x y|by apply no_records].
Qed.

Lemma transaction_pays_its_gas_witness :
  match TransitionDb ctx (call contract 4000) (rich adder) with
  | (XOk (Ok res), g') =>
      (0 <= tr_usedGas res <= 4000)%Z /\ (TxGas <= 2 * tr_usedGas res)%Z /\
      tr_gasRemaining res = Big.Uint64 ((4000 - tr_usedGas res) * 2) /\
      billed ctx (call contract 4000) (rich adder) res g' /\
      (forall a, 0 <= balance (obs (g_db g')) a)%Z /\
      (forall l, NoDup l -> Zsum (balance (obs (g_db g')) <$> l) <= 1000000 - tr_usedGas res * 2)%Z
  | (XOk (Err e), g') => e = ErrInsufficientBalanceForGas \/ e = ErrVm ErrOutOfGas \/ e = ErrVm ErrInsufficientBalance
  | (XPanic, g') => g_clash g' = true
  | _ => False
  end.
Proof. apply (transaction_pays_its_gas 1000000 ctx (call contract 4000)). apply call_good. cbn. lia. Defined.

Lemma failed_transaction_only_pays_witness :
  paid alice (2113 * 2) (obs (g_db (rich reverter))) (obs (g_db (TransitionDb ctx (call contract 4000) (rich reverter)).2)).
Proof.
  refine (failed_transaction_only_pays 1000000 ctx (call contract 4000) (rich reverter)
    (mkTransRes [] 2113 3774 true (Some (createGasRefundUtxoTx alice 3774 1))) _ _ _ _).
  - apply call_good. cbn. lia.
  - rewrite (surjective_pairing (TransitionDb ctx (call contract 4000) (rich reverter))) at 1. f_equal; vm_compute; reflexivity.
  - reflexivity.
Defined.

(** The refund counter is not set back between two transactions of a block: a contract that
    clears a slot of its storage makes the next transaction, of somebody else, half price.
    PUSH1 0 PUSH1 0 SSTORE STOP. *)
Definition clearer : bytes := [x60; x00; x60; x00; x55; x00].
Definition other : bytes := replicate 20 x04.

Definition two_contracts : Global :=
  mkGlobal (mkRef (on_acct other (set_code adder) (on_acct contract (set_storage (be32 0) (be32 7)) (r_obs (g_db (rich clearer))))) [] 0) [] 0 ∅ [] ∅ false.

(** The next transaction, in a machine of its own on the same database. *)
Definition next_machine (g : Global) : Global := mkGlobal (g_db g) [] 0 ∅ [] ∅ false.

Definition used (r : xres (result TransErr TransRes) * Global) : option Z :=
  match r.1 with XOk (Ok res) => Some (tr_usedGas res) | _ => None end.

Example refund_carried_over :
  used (TransitionDb ctx (call other 4000) two_contracts) = Some 2131%Z /\
  used (TransitionDb ctx (call other 4000) (next_machine (TransitionDb ctx (call contract 20000) two_contracts).2)) = Some 1066%Z.
Proof. split; vm_compute; reflexivity. Qed.

End TransitionDemo.
