(* ===== verification/Receipt.v ===== *)
(** * Receipt: the receipts of contract transactions (src/core/types/transaction_vm.go)

    A receipt says what a transaction did; its logs are summed up in a bloom filter, and the
    filters of a block's receipts are merged into the one of the block.  A search for an address
    or a topic that asks the filter first misses nothing. *)

From S2P Require Import Prelude Crypto Bytes Bloom EvmState.
Import Bloom.

Record Receipt := mkReceipt {
  rc_TxHash : bytes;
  rc_TxIndex : Z;
  rc_ContractAddress : bytes;
  rc_Deployed : bool;
  rc_Failed : bool;
  rc_GasUsed : Z;
  rc_BlockHash : bytes;
  rc_BlockHeight : Z;
  rc_InternalTxs : list (option bytes);
  rc_ErrMsg : bytes;
  rc_Logs : list Log;
  rc_Bloom : filter_t
}.

(** What the hash of the receipts covers. *)
Record hashLog := mkHashLog { hl_Address : bytes; hl_Topics : list bytes; hl_Data : bytes }.

Record hashReceipt := mkHashReceipt {
  hr_TxHash : bytes;
  hr_TxIndex : Z;
  hr_ContractAddress : bytes;
  hr_Deployed : bool;
  hr_Failed : bool;
  hr_GasUsed : Z;
  hr_BlockHeight : Z;
  hr_InternalTxs : list (option bytes);
  hr_ErrMsg : bytes;
  hr_Logs : list hashLog
}.

(** The generated encoding of these. *)
Class ReceiptCodec := { pb_receipts_marshal : list hashReceipt -> option bytes }.

Module Receipt.

Definition BloomByteLength : Z := 256.
Definition BloomBitLength : Z := 8 * BloomByteLength.
Definition BloomHashNum : Z := 3.

Definition emptyBloom : filter_t := NewFilterWithMK BloomBitLength BloomHashNum.

Fixpoint addTopics (topics : list bytes) (bloom : filter_t) : go filter_t :=
  match topics with
  | [] => Returns bloom
  | topic :: topics => bloom ← Add bloom topic; addTopics topics bloom
  end.

Fixpoint addLogs (logs : list Log) (bloom : filter_t) : go filter_t :=
  match logs with
  | [] => Returns bloom
  | log :: logs =>
      bloom ← Add bloom (log_Address log);
      bloom ← addTopics (log_Topics log) bloom;
      addLogs logs bloom
  end.

Definition createLogBloom (logs : list Log) : go filter_t := addLogs logs emptyBloom.

(** The error of [Merge] is not looked at. *)
Fixpoint mergeReceipts (rcs : list Receipt) (bloom : filter_t) : go filter_t :=
  match rcs with
  | [] => Returns bloom
  | rc :: rcs =>
      b ← createLogBloom (rc_Logs rc);
      mergeReceipts rcs (match Merge bloom b with Ok bloom => bloom | Err _ => bloom end)
  end.

Definition CreateReceiptsBloom (rcs : list Receipt) : go filter_t := mergeReceipts rcs emptyBloom.

Definition NewReceipt (txHash contractAddr : option bytes) (deployed failed : bool) (gasUsed : Z) (errMsg : bytes) (logs : list Log) : go Receipt :=
  bloom ← createLogBloom logs;
  Returns (mkReceipt (default Crypto.ZeroHash txHash) 0 (default (replicate 20 x00) contractAddr) deployed failed gasUsed Crypto.ZeroHash 0 [] errMsg logs bloom).

(** [WithTxIndex], [WithBlockHash] and [WithBlockHeight] together. *)
Definition WithBlock (rc : Receipt) (i : Z) (hash : option bytes) (h : Z) : Receipt :=
  mkReceipt (rc_TxHash rc) i (rc_ContractAddress rc) (rc_Deployed rc) (rc_Failed rc) (rc_GasUsed rc) (default Crypto.ZeroHash hash) h
    (rc_InternalTxs rc) (rc_ErrMsg rc) (rc_Logs rc) (rc_Bloom rc).

Definition ApppendInternalTxs (rc : Receipt) (hashes : list (option bytes)) : Receipt :=
  mkReceipt (rc_TxHash rc) (rc_TxIndex rc) (rc_ContractAddress rc) (rc_Deployed rc) (rc_Failed rc) (rc_GasUsed rc) (rc_BlockHash rc) (rc_BlockHeight rc)
    (rc_InternalTxs rc ++ hashes) (rc_ErrMsg rc) (rc_Logs rc) (rc_Bloom rc).

(** *** The hash of the receipts *)

(** [toHashLog]: the data is copied into a slice of length zero. *)
Definition toHashLog (log : Log) : hashLog := mkHashLog (log_Address log) (log_Topics log) (take (length (@nil byte)) (log_Data log)).

(** [None] is the error of copying a filter. *)
Fixpoint toHashReceipts (rcs : list Receipt) : option (list hashReceipt) :=
  match rcs with
  | [] => Some []
  | rc :: rcs =>
      match (Copy (rc_Bloom rc) (rc_Bloom rc)).2 with
      | Some _ => None
      | None =>
          rest ← toHashReceipts rcs;
          Some (mkHashReceipt (rc_TxHash rc) (rc_TxIndex rc) (rc_ContractAddress rc) (rc_Deployed rc) (rc_Failed rc) (rc_GasUsed rc) (rc_BlockHeight rc)
                  (rc_InternalTxs rc) (rc_ErrMsg rc) (map toHashLog (rc_Logs rc)) :: rest)
      end
  end.

(** [Receipts.Hash]; [None] is nil. *)
Definition Receipts_Hash `{C : Crypto} `{RC : ReceiptCodec} (rcs : list Receipt) : option bytes :=
  hashrcs ← toHashReceipts rcs;
  data ← pb_receipts_marshal hashrcs;
  Some (Crypto.DoubleHashH data).

End Receipt.
Import Receipt.

(** ** No log is missed *)

(** What a log can be found by. *)
Definition marks (l : Log) : list bytes := log_Address l :: log_Topics l.

Lemma addAll_extends ds bf : wf bf -> exists bf', addAll bf ds = Returns bf' /\ extends bf bf' /\ forall d, d ∈ ds -> Matches bf' d = Returns true.
Proof.
  revert bf. induction ds as [|d ds IH]; intros bf Hwf; cbn [addAll].
  - exists bf. split; [done|]. split; [done|]. intros d Hd. by apply not_elem_of_nil in Hd.
  - destruct (Add_extends bf d Hwf) as (bf1 & -> & Hext1 & Hm). cbn [mbind go_bind]. pose proof (extends_wf _ _ Hext1 Hwf) as Hwf1.
    destruct (IH bf1 Hwf1) as (bf' & E & Hext & Hds). exists bf'. split; [done|]. split; [by transitivity bf1|].
    intros d' [->|Hd']%elem_of_cons; [|by apply Hds]. by apply (Matches_extends bf1).
Qed.

Lemma go_bind_assoc {A B C'} (c : go A) (f : A -> go B) (h : B -> go C') : (c ≫= f) ≫= h = c ≫= (fun a => f a ≫= h).
Proof. by destruct c. Qed.

Lemma addAll_app ds1 ds2 bf : addAll bf (ds1 ++ ds2) = addAll bf ds1 ≫= (fun bf => addAll bf ds2).
Proof. revert bf. induction ds1 as [|d ds1 IH]; intros bf; [done|]. cbn [addAll app]. rewrite go_bind_assoc. destruct (Add bf d); [apply IH|done]. Qed.

Lemma addLogs_addAll logs bf : addLogs logs bf = addAll bf (concat (marks <$> logs)).
Proof.
  revert bf. induction logs as [|l logs IH]; intros bf; [done|]. cbn [addLogs concat fmap list_fmap marks app addAll].
  destruct (Add bf (log_Address l)) as [bf1|]; [|done]. cbn [mbind go_bind]. rewrite addAll_app.
  assert (forall ts b, addTopics ts b = addAll b ts) as -> by (induction ts as [|t ts IHt]; intros b; [done|]; cbn; destruct (Add b t); [apply IHt|done]).
  destruct (addAll bf1 (log_Topics l)); [apply IH|done].
Qed.

Lemma emptyBloom_wf : wf emptyBloom.
Proof. split; vm_compute; [lia|done]. Qed.

Lemma createLogBloom_ok logs : exists bf, createLogBloom logs = Returns bf /\ extends emptyBloom bf /\
  forall l d, l ∈ logs -> d ∈ marks l -> Matches bf d = Returns true.
Proof.
  unfold createLogBloom. rewrite addLogs_addAll. destruct (addAll_extends (concat (marks <$> logs)) emptyBloom emptyBloom_wf) as (bf & E & Hx & Hm).
  exists bf. split; [done|]. split; [done|]. intros l d Hl Hd. apply Hm, list_elem_of_In, in_concat. exists (marks l). split; [|by apply list_elem_of_In].
  apply list_elem_of_In. by apply list_elem_of_fmap_2.
Qed.

(** The parameters are those of the empty filter, so merging never fails. *)
Lemma Merge_extends a b : extends emptyBloom a -> extends emptyBloom b ->
  exists c, Merge a b = Ok c /\ extends emptyBloom c /\ extends a c /\ extends b c.
Proof.
  intros (La & Ha & Ta & _) (Lb & Hb & Tb & _). unfold Merge. rewrite Ha, Hb, La, Lb, Ta, Tb, Z.eqb_refl, Nat.eqb_refl, Z.eqb_refl. cbn [negb].
  eexists. split; [done|].
  assert (forall j, (0 <= j)%Z -> bitv (zip_with (fun x y => z2b (Z.lor (b2z x) (b2z y))) (f_filter a) (f_filter b)) j = bitv (f_filter a) j || bitv (f_filter b) j) as Hz.
  { intros. apply bitv_zip_or; [done|congruence]. }
  assert (length (zip_with (fun x y => z2b (Z.lor (b2z x) (b2z y))) (f_filter a) (f_filter b)) = length (f_filter emptyBloom)) as Hlen by (rewrite length_zip_with; lia).
  split_and!.
  - split_and!; cbn [with_filter f_filter f_hashFuncs f_tweak]; [done..|]. intros j Hj Hbit. exfalso. revert Hbit. unfold bitv, emptyBloom, NewFilterWithMK, newFilter. cbn [f_filter].
    destruct (_ !! _) as [x|] eqn:Ex; [|done]. apply lookup_replicate in Ex as [-> _]. by rewrite Z.bits_0.
  - split_and!; cbn [with_filter f_filter f_hashFuncs f_tweak]; [congruence|done..|]. intros j Hj Hbit. by rewrite Hz, Hbit.
  - split_and!; cbn [with_filter f_filter f_hashFuncs f_tweak]; [congruence..|]. intros j Hj Hbit. by rewrite Hz, Hbit, orb_true_r.
Qed.

Lemma mergeReceipts_ok rcs bf : extends emptyBloom bf -> exists bf', mergeReceipts rcs bf = Returns bf' /\ extends emptyBloom bf' /\ extends bf bf' /\
  forall rc l d, rc ∈ rcs -> l ∈ rc_Logs rc -> d ∈ marks l -> Matches bf' d = Returns true.
Proof.
  revert bf. induction rcs as [|rc rcs IH]; intros bf Hbf; cbn [mergeReceipts].
  - exists bf. split; [done|]. split; [done|]. split; [done|]. intros rc l d Hrc. by apply not_elem_of_nil in Hrc.
  - destruct (createLogBloom_ok (rc_Logs rc)) as (b & -> & Hb & Hm). cbn [mbind go_bind]. destruct (Merge_extends bf b Hbf Hb) as (c & -> & Hc & Hac & Hbc).
    destruct (IH c Hc) as (bf' & E & He & Hx & Hrest). exists bf'. split; [done|]. split; [done|]. split; [by transitivity c|].
    intros rc' l d [->|Hrc]%elem_of_cons Hl Hd; [|by apply (Hrest rc' l)]. apply (Matches_extends b); [by apply (extends_wf emptyBloom), emptyBloom_wf|by transitivity c|].
    by apply (Hm l).
Qed.

(** the bloom filter of a block's receipts misses nothing: building it never fails, and it
    matches the address and every topic of every log of every receipt. *)
Theorem receipts_bloom_complete rcs : exists bf, CreateReceiptsBloom rcs = Returns bf /\
  forall rc l d, rc ∈ rcs -> l ∈ rc_Logs rc -> d = log_Address l \/ d ∈ log_Topics l -> Matches bf d = Returns true.
Proof.
  destruct (mergeReceipts_ok rcs emptyBloom) as (bf & E & _ & _ & Hm); [done|]. exists bf. split; [done|].
  intros rc l d Hrc Hl Hd. apply (Hm rc l); [done|done|]. by apply elem_of_cons.
Qed.

(** A log with other data. *)
Definition with_data (l : Log) (data : bytes) : Log :=
  mkLog (log_Address l) (log_Topics l) data (log_BlockNumber l) (log_TxHash l) (log_BlockHash l) (log_TxIndex l) (log_Index l).

Definition with_logs (rc : Receipt) (logs : list Log) : Receipt :=
  mkReceipt (rc_TxHash rc) (rc_TxIndex rc) (rc_ContractAddress rc) (rc_Deployed rc) (rc_Failed rc) (rc_GasUsed rc) (rc_BlockHash rc) (rc_BlockHeight rc)
    (rc_InternalTxs rc) (rc_ErrMsg rc) logs (rc_Bloom rc).

(** The hash of the receipts does not cover the data of logs: it is the same whatever data the
    logs of a receipt carry. *)
Lemma receipts_hash_ignores_data `{C : Crypto} `{RC : ReceiptCodec} rcs1 rc rcs2 datas :
  length datas = length (rc_Logs rc) ->
  Receipts_Hash (rcs1 ++ with_logs rc (zip_with with_data (rc_Logs rc) datas) :: rcs2) = Receipts_Hash (rcs1 ++ rc :: rcs2).
Proof.
  intros Hl. unfold Receipts_Hash.
  enough (toHashReceipts (rcs1 ++ with_logs rc (zip_with with_data (rc_Logs rc) datas) :: rcs2) = toHashReceipts (rcs1 ++ rc :: rcs2)) as -> by done.
  assert (map toHashLog (zip_with with_data (rc_Logs rc) datas) = map toHashLog (rc_Logs rc)) as Hm.
  { revert datas Hl. induction (rc_Logs rc) as [|l logs IH]; intros [|d datas] Hl; try done. cbn. f_equal. apply IH. by injection Hl. }
  induction rcs1 as [|r rcs1 IH]; cbn [app toHashReceipts]; [|by rewrite IH]. cbn [with_logs rc_Bloom rc_Logs]. rewrite Hm. done.
Qed.
