(* ===== verification/Blocks.v ===== *)
(** * Blocks: blocks, their messages and their hashes (src/core/types/block.go)

    A block is identified by the hash of its header; the header commits to the transactions, to
    the state and to the receipts.  The protobuf encodings are generated code, the class
    [HeaderCodec]; the conversions to and from the messages are modelled here. *)

From S2P Require Import Prelude Crypto Bytes Bloom Types EvmState Receipt.

Record BlockHeader := mkHeader {
  h_Version : Z;
  h_PrevBlockHash : bytes;
  h_TxsRoot : bytes;
  h_InternalTxsRoot : bytes;
  h_UtxoRoot : bytes;
  h_ReceiptHash : bytes;
  h_TimeStamp : Z;
  h_Magic : Z;
  h_RootHash : bytes;
  h_DynastyHash : bytes;
  h_Height : Z;
  h_GasUsed : Z;
  h_BookKeeper : bytes;
  h_Bloom : option filter_t
}.

Record IrreversibleInfo := mkIrreversible { ii_Hash : bytes; ii_Signatures : list bytes }.

Record Block := mkBlock {
  b_Hash : option bytes;
  b_Header : BlockHeader;
  b_Txs : list Transaction;
  b_InternalTxs : list Transaction;
  b_Signature : bytes;
  b_Irreversible : option IrreversibleInfo
}.

(** The messages. *)
Record PbHeader := mkPbHeader {
  ph_Version : Z;
  ph_PrevBlockHash : bytes;
  ph_TxsRoot : bytes;
  ph_InternalTxsRoot : bytes;
  ph_UtxoRoot : bytes;
  ph_ReceiptHash : bytes;
  ph_TimeStamp : Z;
  ph_Magic : Z;
  ph_DynastyHash : bytes;
  ph_RootHash : bytes;
  ph_Height : Z;
  ph_GasUsed : Z;
  ph_BookKeeper : bytes;
  ph_Bloom : bytes
}.

Record PbBlock := mkPbBlock {
  pbb_Header : option PbHeader;
  pbb_Txs : list (option PbTransaction);
  pbb_InternalTxs : list (option PbTransaction);
  pbb_Signature : bytes;
  pbb_Irreversible : option IrreversibleInfo
}.

Class HeaderCodec := { pb_header_marshal : PbHeader -> option bytes }.

Inductive BlockErr := ErrEmptyBlockMessage | ErrBlockTx (e : Types.PbErr) | ErrBlockBloom (e : Bloom.BloomErr).

Module Blocks.

Definition with_bloom (h : BlockHeader) (b : filter_t) : BlockHeader :=
  mkHeader (h_Version h) (h_PrevBlockHash h) (h_TxsRoot h) (h_InternalTxsRoot h) (h_UtxoRoot h) (h_ReceiptHash h) (h_TimeStamp h) (h_Magic h)
    (h_RootHash h) (h_DynastyHash h) (h_Height h) (h_GasUsed h) (h_BookKeeper h) (Some b).

(** [BlockHeader.ToProtoMessage]: a header without a filter gets an empty one. *)
Definition Header_ToProtoMessage (h : BlockHeader) : PbHeader * BlockHeader :=
  let bloom := default Receipt.emptyBloom (h_Bloom h) in
  (mkPbHeader (h_Version h) (h_PrevBlockHash h) (h_TxsRoot h) (h_InternalTxsRoot h) (h_UtxoRoot h) (h_ReceiptHash h) (h_TimeStamp h) (h_Magic h)
     (h_DynastyHash h) (h_RootHash h) (h_Height h) (h_GasUsed h) (h_BookKeeper h) (Bloom.Marshal bloom),
   with_bloom h bloom).

(** [copy] into a zero address. *)
Definition copyAddress (a : bytes) : bytes := take 20 a ++ replicate (20 - length a) x00.

Definition Header_FromProtoMessage (message : option PbHeader) : go (result BlockErr BlockHeader) :=
  match message with
  | None => Returns (Err ErrEmptyBlockMessage)
  | Some m =>
      r ← Bloom.Unmarshal (ph_Bloom m);
      Returns (match r with
               | Err e => Err (ErrBlockBloom e)
               | Ok bloom =>
                   Ok (mkHeader (ph_Version m) (Types.copyHash (ph_PrevBlockHash m)) (Types.copyHash (ph_TxsRoot m)) (Types.copyHash (ph_InternalTxsRoot m))
                         (Types.copyHash (ph_UtxoRoot m)) (Types.copyHash (ph_ReceiptHash m)) (ph_TimeStamp m) (ph_Magic m) (Types.copyHash (ph_RootHash m))
                         (Types.copyHash (ph_DynastyHash m)) (ph_Height m) (ph_GasUsed m) (copyAddress (ph_BookKeeper m)) (Some bloom))
               end)
  end.

Definition Irreversible_FromProtoMessage (m : IrreversibleInfo) : IrreversibleInfo := mkIrreversible (Types.copyHash (ii_Hash m)) (ii_Signatures m).

Fixpoint txs_FromProtoMessage (txs : list (option PbTransaction)) : result BlockErr (list Transaction) :=
  match txs with
  | [] => Ok []
  | t :: txs =>
      match Types.Transaction_FromProtoMessage t with
      | Err e => Err (ErrBlockTx e)
      | Ok tx => rest ← txs_FromProtoMessage txs; Ok (tx :: rest)
      end
  end.

Definition ToProtoMessage (b : Block) : PbBlock :=
  mkPbBlock (Some (Header_ToProtoMessage (b_Header b)).1) (map (fun t => Some (Types.Transaction_ToProtoMessage t)) (b_Txs b))
    (map (fun t => Some (Types.Transaction_ToProtoMessage t)) (b_InternalTxs b)) (b_Signature b) (b_Irreversible b).

Section Hash.
Context `{C : Crypto} `{HC : HeaderCodec}.

Definition calcBlockHash (h : BlockHeader) : option bytes :=
  data ← pb_header_marshal (Header_ToProtoMessage h).1; Some (Crypto.DoubleHashH data).

(** [BlockHash]: the cached hash, or the hash of the header; [None] is nil. *)
Definition BlockHash (b : Block) : option bytes :=
  match b_Hash b with Some h => Some h | None => calcBlockHash (b_Header b) end.

Definition FromProtoMessage (message : option PbBlock) : go (result BlockErr Block) :=
  match message with
  | None => Returns (Err ErrEmptyBlockMessage)
  | Some m =>
      r ← Header_FromProtoMessage (pbb_Header m);
      Returns (
        header ← r;
        txs ← txs_FromProtoMessage (pbb_Txs m);
        internalTxs ← txs_FromProtoMessage (pbb_InternalTxs m);
        Ok (mkBlock (calcBlockHash header) header txs internalTxs (pbb_Signature m) (Irreversible_FromProtoMessage <$> pbb_Irreversible m)))
  end.

(** [NewBlock]; nil hashes are not modelled: the marshaller of a header does not fail. *)
Definition NewBlock (parent : Block) : Block :=
  mkBlock None (mkHeader 0 (default Crypto.ZeroHash (BlockHash parent)) Crypto.ZeroHash Crypto.ZeroHash Crypto.ZeroHash Crypto.ZeroHash 0
    (h_Magic (b_Header parent)) Crypto.ZeroHash Crypto.ZeroHash (u32 (h_Height (b_Header parent) + 1)) 0 (replicate 20 x00) None) [] [] [] None.

(** [Copy]: the cached hash is left out. *)
Definition Copy (b : Block) : Block :=
  mkBlock None (b_Header b) (map Types.Transaction_Copy (b_Txs b)) (map Types.Transaction_Copy (b_InternalTxs b)) (b_Signature b) (b_Irreversible b).

End Hash.

End Blocks.
Import Blocks.

(** ** Round trip *)

Definition tx_hashes (tx : Transaction) : Prop := Forall (fun i => length (op_hash (PrevOutPoint i)) = Crypto.HashSize) (Vin tx).

(** The numbers of a filter have 32 bits, and its bits are in memory. *)
Definition filter_sized (bf : filter_t) : Prop :=
  (0 <= f_hashFuncs bf < 2 ^ 32)%Z /\ (0 <= f_tweak bf < 2 ^ 32)%Z /\ (Z.of_nat (length (f_filter bf)) < 2 ^ 63)%Z.

(** Hashes are arrays of 32 bytes and addresses of 20. *)
Record header_ok (h : BlockHeader) : Prop := mk_header_ok {
  ho_hashes : Forall (fun x => length x = Crypto.HashSize) [h_PrevBlockHash h; h_TxsRoot h; h_InternalTxsRoot h; h_UtxoRoot h; h_ReceiptHash h; h_RootHash h; h_DynastyHash h];
  ho_keeper : length (h_BookKeeper h) = 20;
  ho_bloom : forall bf, h_Bloom h = Some bf -> filter_sized bf
}.

(** What the message keeps of a transaction. *)
Definition untyped (tx : Transaction) : Transaction := mkTx UnknownTx (Version tx) (Vin tx) (Vout tx) (Data tx) (Magic tx) (LockTime tx).

Lemma txs_roundtrip txs : Forall tx_hashes txs -> txs_FromProtoMessage (map (fun t => Some (Types.Transaction_ToProtoMessage t)) txs) = Ok (map untyped txs).
Proof.
  induction 1 as [|tx txs Hx _ IH]; [done|]. cbn [map txs_FromProtoMessage]. rewrite IH. unfold Types.Transaction_FromProtoMessage, Types.Transaction_ToProtoMessage.
  cbn [pb_Vin pb_Version pb_Vout pb_Data pb_Magic pb_LockTime]. by rewrite Types.vins_roundtrip by done.
Qed.

Lemma filter_wire bf : filter_sized bf -> Bloom.Unmarshal (Bloom.Marshal bf) = Returns (Ok bf).
Proof. intros (H1 & H2 & H3). by apply Bloom.bloom_roundtrip. Qed.

Lemma emptyBloom_sized : filter_sized Receipt.emptyBloom.
Proof. split_and!; vm_compute; congruence. Qed.

Lemma header_roundtrip h : header_ok h ->
  Header_FromProtoMessage (Some (Header_ToProtoMessage h).1) = Returns (Ok (Header_ToProtoMessage h).2).
Proof.
  intros [Hh Hk Hb]. unfold Header_FromProtoMessage, Header_ToProtoMessage. cbn [fst snd ph_Bloom].
  assert (Bloom.Unmarshal (Bloom.Marshal (default Receipt.emptyBloom (h_Bloom h))) = Returns (Ok (default Receipt.emptyBloom (h_Bloom h)))) as ->.
  { destruct (h_Bloom h) as [bf|]; [by apply filter_wire, Hb|apply filter_wire, emptyBloom_sized]. }
  cbn [mbind go_bind]. repeat (apply Forall_cons in Hh as [? Hh]). unfold copyAddress.
  cbn [ph_PrevBlockHash ph_TxsRoot ph_InternalTxsRoot ph_UtxoRoot ph_ReceiptHash ph_RootHash ph_DynastyHash ph_BookKeeper].
  rewrite Hk, Nat.sub_diag, take_ge, app_nil_r by lia. by rewrite !Types.copyHash_full by done.
Qed.

Lemma block_wire `{C : Crypto} `{HC : HeaderCodec} b :
  header_ok (b_Header b) -> Forall tx_hashes (b_Txs b) -> Forall tx_hashes (b_InternalTxs b) ->
  (forall ii, b_Irreversible b = Some ii -> length (ii_Hash ii) = Crypto.HashSize) ->
  FromProtoMessage (Some (ToProtoMessage b)) =
    Returns (Ok (mkBlock (calcBlockHash (b_Header b)) (with_bloom (b_Header b) (default Receipt.emptyBloom (h_Bloom (b_Header b)))) (map untyped (b_Txs b)) (map untyped (b_InternalTxs b))
      (b_Signature b) (b_Irreversible b))).
Proof.
  intros Hh Ht Hi Hr. unfold FromProtoMessage, ToProtoMessage. cbn [pbb_Header pbb_Txs pbb_InternalTxs pbb_Signature pbb_Irreversible].
  assert (Irreversible_FromProtoMessage <$> b_Irreversible b = b_Irreversible b) as ->.
  { destruct (b_Irreversible b) as [[hash sigs]|]; [|done]. unfold Irreversible_FromProtoMessage. cbn [fmap option_fmap option_map ii_Hash ii_Signatures].
    by rewrite Types.copyHash_full by (by apply (Hr (mkIrreversible hash sigs))). }
  rewrite header_roundtrip by done. cbn [mbind go_bind result_bind]. by rewrite !txs_roundtrip by done.
Qed.

(** C33: a block sent to a peer arrives as it was: converted to its message and back it has the
    same header with its filter of logs bit for bit, transactions, internal transactions and
    signatures; the hash is that of the header received, the types the node has noted are
    forgotten, and a missing filter has become an empty one.  Assumed are the sizes that the Go types
    give: hashes of 32 bytes, addresses of 20, and 32-bit numbers and bits that fit in memory in the
    filter. *)
Theorem block_message_roundtrip `{C : Crypto} `{HC : HeaderCodec} b :
  header_ok (b_Header b) -> Forall tx_hashes (b_Txs b) -> Forall tx_hashes (b_InternalTxs b) ->
  (forall ii, b_Irreversible b = Some ii -> length (ii_Hash ii) = Crypto.HashSize) ->
  FromProtoMessage (Some (ToProtoMessage b)) =
    Returns (Ok (mkBlock (calcBlockHash (b_Header b)) (with_bloom (b_Header b) (default Receipt.emptyBloom (h_Bloom (b_Header b)))) (map untyped (b_Txs b)) (map untyped (b_InternalTxs b))
      (b_Signature b) (b_Irreversible b))).
Proof. apply block_wire. Qed.

(** ** An example *)

Module BlockDemo.
#[local] Existing Instance ToyCrypto.toy.

Definition h32 (b : byte) : bytes := replicate 32 b.

#[export] Instance codec : HeaderCodec := {| pb_header_marshal m := Some (ph_PrevBlockHash m ++ ph_TxsRoot m ++ ph_Bloom m) |}.

Definition header : BlockHeader := mkHeader 1 (h32 x01) (h32 x02) (h32 x03) (h32 x04) (h32 x05) 1000 7 (h32 x06) (h32 x07) 12 500 (replicate 20 x08) (Some (mkFilter [x00; x81; x00; x7f] 3 5)).

Definition pay : Transaction := mkTx PayToPubkTx 1 [mkTxIn (mkOutPoint (h32 x09) 2) [x01] 3] [mkTxOut 5 [x02]] None 3 9.

Definition demo : Block := mkBlock None header [pay] [pay] [x0a; x0b] (Some (mkIrreversible (h32 x0c) [[x0d]])).

Lemma header_good : header_ok header.
Proof. split; [repeat constructor|done|]. intros bf [= <-]. split_and!; cbn; lia. Qed.

Lemma block_message_roundtrip_witness :
  FromProtoMessage (Some (ToProtoMessage demo)) =
    Returns (Ok (mkBlock (calcBlockHash header) header [untyped pay] [untyped pay] [x0a; x0b] (Some (mkIrreversible (h32 x0c) [[x0d]])))).
Proof.
  apply (block_message_roundtrip demo).
  - exact header_good.
  - repeat constructor.
  - repeat constructor.
  - intros ii E. injection E as <-. reflexivity.
Defined.

End BlockDemo.
