(* ===== verification/Processor.v ===== *)
(** * Processor: executing the contract transactions of a block (src/core/chain/state_processor.go)

    A contract transaction runs on the state database; what contracts pay becomes internal
    transactions that move the same amounts between the unspent outputs of the contracts.  The
    steps run in the monad [PM]: the database and the set of unspent outputs, an error, a panic.
    Entries of the set are pointers in Go; the model looks them up again at every use, so that
    two names of one entry see each other's changes.

    The state database is that of the virtual machine with the operations of [ChainDB].  Reading
    an account only to classify a transaction fills its cache; the model keeps the answer and
    drops the cached account ([peek]). *)

From S2P Require Import Prelude Opcode Crypto Bytes Bloom EvmMath EvmState EvmMachine EvmGas EvmInstr EvmPrecompile Evm Types Script ScriptKinds TxLogic Compress Keys UtxoSet UtxoDb Transition Receipt Blocks.
Import Kinds TxLogic Compress Utxo UtxoDb Transition Receipt Blocks.

(** Operations of the state database beyond the interface of the machine; [GetUtxo] answers
    [None] on an error of the trie. *)
Class ChainDB (D : StateDB) := {
  Prepare : bytes -> bytes -> Z -> sdb -> go (unit * sdb);
  GetUtxo : bytes -> sdb -> go (option (option bytes) * sdb)
}.

Inductive ProcErr :=
  | ErrTransition (e : TransErr) | ErrFromAddress | ErrFromUtxo | ErrToAddress | ErrToUtxo | ErrFromBalance
  | ErrRefundUtxo | ErrRefundBalance | ErrContractScript (e : ScriptErr) | ErrNonce | ErrTxHash | ErrOutOfBlockGasLimit.

Record PState `{D : StateDB} := mkPState { p_db : sdb; p_utxo : UtxoSet }.
Arguments mkPState {_} _ _.

(** ** The monad *)

Definition PM `{D : StateDB} (A : Type) : Type := PState -> xres (result ProcErr A) * PState.

Section Monad.
Context {D : StateDB}.

#[global] Instance PM_ret : MRet PM := fun A a s => (XOk (Ok a), s).
#[global] Instance PM_bind : MBind PM := fun A B k c s =>
  match c s with
  | (XOk (Ok a), s) => k a s
  | (XOk (Err e), s) => (XOk (Err e), s)
  | (XErr e, s) => (XErr e, s)
  | (XPanic, s) => (XPanic, s)
  | (XFuel, s) => (XFuel, s)
  end.

Definition p_fail {A} (e : ProcErr) : PM A := fun s => (XOk (Err e), s).
Definition p_panic {A} : PM A := fun s => (XPanic, s).
Definition p_gets {A} (f : PState -> A) : PM A := fun s => (XOk (Ok (f s)), s).

(** An operation of the state database, and one of the set. *)
Definition p_op {A} (op : sdb -> go (A * sdb)) : PM A := fun s =>
  match op (p_db s) with
  | Returns (a, d) => (XOk (Ok a), mkPState d (p_utxo s))
  | Panics => (XPanic, s)
  end.
Definition p_set (f : UtxoSet -> UtxoSet) : PM unit := fun s => (XOk (Ok tt), mkPState (p_db s) (f (p_utxo s))).
Definition p_go {A} (r : go A) : PM A := fun s => (match r with Returns a => XOk (Ok a) | Panics => XPanic end, s).

(** The answer of a getter. *)
Definition peek {A} (d : A) (op : sdb -> go (A * sdb)) (s : sdb) : A := match op s with Returns (a, _) => a | Panics => d end.

End Monad.

Module Processor.

Definition VoutLimit : nat := 1000.
Definition MaxBlockGasLimit : Z := 10000 * TransferFee.

(** The outpoint of a contract: [types.NewOutPoint(types.NormalizeAddressHash(addr), 0)]. *)
Definition contractOutPoint (addr : option bytes) : OutPoint := mkOutPoint (Types.NormalizeAddressHash addr) 0.
Arguments contractOutPoint : simpl never.

(** [uint64(x)] of a big integer. *)
Abbreviation Uint64 := Big.Uint64.

Section Processor.
Context {D : StateDB} {X : ChainDB D} `{C : Crypto} `{TC : TxCodec} `{HC : HeaderCodec} `{K : Keccak} `{E : Curves} `{R : Rlp} `{VO : VisitOrder}.

(** The table of the chain, with the buffer of its key pool; hashes of earlier blocks by
    height; the configuration of the machine. *)
Context (pool : bytes) (cdb : Db) (getHash : Z -> option bytes) (noRecursion enablePreimageRecording : bool).

(** ** Internal transactions *)

(** [GetContractUtxoFromStateDB] (blockchain.go); nil bytes cannot be decoded. *)
Definition GetContractUtxoFromStateDB (addr : bytes) : PM (option Types.UtxoWrap) :=
  r ← p_op (GetUtxo addr);
  match r with
  | None => mret None
  | Some b =>
      w ← p_go (DeserializeUtxoWrap (default [] b) []);
      mret (match w with Ok w => Some w | Err _ => None end)
  end.

Definition find (op : OutPoint) : PM (option Types.UtxoWrap) := p_gets (fun s => utxoMap (p_utxo s) !! op).

Definition put (op : OutPoint) (w : Types.UtxoWrap) : PM unit := p_set (fun u => with_map u (<[op := w]> (utxoMap u))).

(** One output of [makeTx]. *)
Definition makeVout (from : bytes) (inOp : OutPoint) (info : TransferInfo) : PM TxOut :=
  let to := ti_To info in
  if bool_decide (to = Types.ZeroAddressHash) then p_fail ErrToAddress
  else
    isContract ← p_op (IsContractAddr to);
    spk ← (if isContract : bool then
             spk ← match MakeContractScriptPubkey (Some from) (Some to) 1 0 0 with Ok spk => mret spk | Err _ => p_panic end;
             let outOp := contractOutPoint (Some to) in
             _ ← p_set (fun u => add_contract u outOp);
             w ← find outOp;
             w ← match w with
                 | Some w => mret w
                 | None =>
                     w ← GetContractUtxoFromStateDB to;
                     match w with Some w => mret w | None => p_fail ErrToUtxo end
                 end;
             _ ← put outOp (Types.AddValue w (ti_Value info));
             mret spk
           else mret (Script.PayToPubKeyHashScript to));
    w ← find inOp;
    match w with
    | None => p_panic
    | Some w =>
        let fromValue := u64 (Types.uw_value w - ti_Value info) in
        if (Types.uw_value w <? fromValue)%Z then p_fail ErrFromBalance
        else
          _ ← put inOp (Types.SetValue w fromValue);
          mret (mkTxOut (ti_Value info) spk)
    end.

Fixpoint makeVouts (from : bytes) (inOp : OutPoint) (infos : list TransferInfo) : PM (list TxOut) :=
  match infos with
  | [] => mret []
  | info :: infos =>
      vout ← makeVout from inOp info;
      vouts ← makeVouts from inOp infos;
      mret (vout :: vouts)
  end.

Definition makeTx (transferInfos : list TransferInfo) (senderNonce : Z) (voutBegin voutEnd : nat) : PM Transaction :=
  match transferInfos with
  | [] => p_panic
  | first :: _ =>
      let from := ti_From first in
      if bool_decide (Types.NormalizeAddressHash (Some from) = Crypto.ZeroHash) then p_fail ErrFromAddress
      else
        let inOp := contractOutPoint (Some from) in
        _ ← p_set (fun u => add_contract u inOp);
        w ← find inOp;
        _ ← match w with
            | Some _ => mret tt
            | None =>
                r ← p_go (fetchUtxoWrapFromDB pool cdb inOp);
                match r with
                | Ok (Some wrap) => put inOp wrap
                | _ => p_fail ErrFromUtxo
                end
            end;
        if (voutBegin <? voutEnd) && (length transferInfos <? voutEnd) then p_panic
        else
          vouts ← makeVouts from inOp (take (voutEnd - voutBegin) (drop voutBegin transferInfos));
          mret (Types.AppendVout (Types.AppendVin (Types.NewTx 0 0 0) [Types.NewTxIn inOp (MakeContractScriptSig senderNonce) 0]) vouts)
  end.

(** The end of the [i]-th batch of more than [VoutLimit] transfers, as the source computes it. *)
Definition batchEnd (n i : nat) : nat := if (i + 1) * VoutLimit <? n then (i + 1) * VoutLimit else n - i * VoutLimit.

Fixpoint makeBatches (v : list TransferInfo) (senderNonce : Z) (batches : list nat) : PM (list Transaction) :=
  match batches with
  | [] => mret []
  | i :: batches =>
      tx ← makeTx v senderNonce (i * VoutLimit) (batchEnd (length v) i);
      txs ← makeBatches v senderNonce batches;
      mret (tx :: txs)
  end.

Definition makeTxs (v : list TransferInfo) (senderNonce : Z) : PM (list Transaction) :=
  if VoutLimit <? length v then makeBatches v senderNonce (seq 0 (length v / VoutLimit + 1))
  else tx ← makeTx v senderNonce 0 (length v); mret [tx].

Fixpoint createUtxoTxLoop (transfers : list (bytes * list TransferInfo)) (senderNonce : Z) : PM (list Transaction) :=
  match transfers with
  | [] => mret []
  | (_, v) :: transfers =>
      txs ← makeTxs v senderNonce;
      rest ← createUtxoTxLoop transfers senderNonce;
      mret (txs ++ rest)
  end.

Definition createUtxoTx (transfers : gmap bytes (list TransferInfo)) (senderNonce : Z) : PM (list Transaction) :=
  createUtxoTxLoop (visit transfers) senderNonce.

Definition createRefundTx (vmtx : VMTransaction) (senderNonce : Z) (contractAddr : option bytes) : PM Transaction :=
  let outPoint := contractOutPoint contractAddr in
  let value := Uint64 (vt_value vmtx) in
  _ ← (if bool_decide (vt_typ vmtx = ContractCreationType) then mret tt
       else
         w ← find outPoint;
         match w with
         | None => p_fail ErrRefundUtxo
         | Some w =>
             if (Types.uw_value w <? value)%Z then p_fail ErrRefundBalance
             else put outPoint (Types.SetValue w (u64 (Types.uw_value w - value)))
         end);
  mret (mkTx UnknownTx 0 [mkTxIn outPoint (MakeContractScriptSig senderNonce) 0] [mkTxOut value (Script.PayToPubKeyHashScript (vt_from vmtx))] None 0 0).

Definition addNewContractUtxo (height : Z) (item : ContractCreatedItem) : PM unit :=
  let op := contractOutPoint (Some (cc_Address item)) in
  _ ← p_set (fun u => add_contract u op);
  w ← find op;
  match w with
  | Some w => put op (Types.AddValue w (cc_Value item))
  | None =>
      match MakeContractScriptPubkey (Some (cc_Caller item)) (Some (cc_Address item)) 1 (cc_Nonce item) 0 with
      | Err _ => p_panic
      | Ok scriptPubk =>
          isContract ← p_op (IsContractAddr (cc_Caller item));
          put op (Types.NewUtxoWrap (if isContract : bool then 0%Z else cc_Value item) scriptPubk height)
      end
  end.

Fixpoint addNewContractUtxos (items : list ContractCreatedItem) (height : Z) : PM unit :=
  match items with
  | [] => mret tt
  | item :: items => _ ← addNewContractUtxo height item; addNewContractUtxos items height
  end.

(** ** One transaction *)

Definition NewEVMContext (msg : VMTransaction) (header : BlockHeader) : Context :=
  mkContext (vt_from msg) (vt_gasPrice msg) (h_BookKeeper header) 0 (h_Height header) (h_TimeStamp header) getHash noRecursion enablePreimageRecording.

(** [vm.NewEVM] and [ApplyMessage]: the answer, the transfers and the contracts created. *)
Definition runMessage (tx : VMTransaction) (header : BlockHeader) : PM (TransRes * gmap bytes (list TransferInfo) * list ContractCreatedItem) := fun s =>
  match ApplyMessage (NewEVMContext tx header) tx (mkGlobal (p_db s) [] 0 ∅ [] ∅ false) with
  | (XOk (Ok res), g) => (XOk (Ok (res, g_Transfers g, g_Created g)), mkPState (g_db g) (p_utxo s))
  | (XOk (Err e), g) => (XOk (Err (ErrTransition e)), mkPState (g_db g) (p_utxo s))
  | (XErr e, g) => (XErr e, mkPState (g_db g) (p_utxo s))
  | (XPanic, g) => (XPanic, mkPState (g_db g) (p_utxo s))
  | (XFuel, g) => (XFuel, mkPState (g_db g) (p_utxo s))
  end.

(** A contract deployed where box had been paid before takes it over. *)
Definition takeOver (contractAddr : bytes) (value : Z) : PM unit :=
  b ← p_op (GetBalance contractAddr);
  let outPoint := contractOutPoint (Some contractAddr) in
  w ← find outPoint;
  match w with
  | None => p_panic
  | Some w => put outPoint (Types.AddValue w (u64 (Uint64 b - Uint64 value)))
  end.

Definition internalTxs (tx : VMTransaction) (fail : bool) (transfers : gmap bytes (list TransferInfo)) (senderNonce : Z) (contractAddr : option bytes) :
    PM (list Transaction) :=
  if negb fail && negb (bool_decide (transfers = ∅)) then createUtxoTx transfers senderNonce
  else if fail && (0 <? Uint64 (vt_value tx))%Z then tx ← createRefundTx tx senderNonce contractAddr; mret [tx]
  else mret [].

Definition ApplyTransaction (tx : VMTransaction) (header : BlockHeader) : PM (Receipt * Z * list Transaction) :=
  '(res, transfers, items) ← runMessage tx header;
  let fail := tr_failed res in
  let deployed := bool_decide (vt_typ tx = ContractCreationType) in
  _ ← (if negb fail then addNewContractUtxos items (h_Height header) else mret tt);
  let contractAddr := if deployed then Some (Evm.CreateAddress (vt_from tx) (vt_nonce tx)) else vt_to tx in
  _ ← (if deployed && negb fail then takeOver (Evm.CreateAddress (vt_from tx) (vt_nonce tx)) (vt_value tx) else mret tt);
  senderNonce ← p_op (GetNonce (vt_from tx));
  internal ← internalTxs tx fail transfers senderNonce contractAddr;
  let txs := option_list (tr_gasRefundTx res) ++ internal in
  logs ← p_op (GetLogs (default Crypto.ZeroHash (vt_originTx tx)));
  let errMsg := if fail && negb (length (tr_ret res) =? 0) then tr_ret res else [] in
  receipt ← p_go (NewReceipt (vt_originTx tx) contractAddr deployed fail (tr_usedGas res) errMsg logs);
  mret (ApppendInternalTxs receipt (map Types.CalcTxHash txs), tr_usedGas res, txs).

(** ** A block *)

(** [TxIn.AddressHash]: the address of the key at the end of the unlocking script. *)
Definition AddressHash (i : TxIn) : option bytes :=
  if bool_decide (op_hash (PrevOutPoint i) = Crypto.ZeroHash) then None
  else if length (ScriptSig i) <=? 33 then None
  else Some (Crypto.Hash160 (drop (length (ScriptSig i) - 33) (ScriptSig i))).

(** [GetContractVout] over the outputs left; a missing input or an input without an address is
    a nil dereference. *)
Fixpoint contractVoutLoop (ins : list TxIn) (outs : list TxOut) (s : sdb) : go (option TxOut) :=
  match outs with
  | [] => Returns None
  | o :: outs =>
      if IsContractPubkey (ScriptPubKey o) then Returns (Some o)
      else if IsPayToPubKeyHash (ScriptPubKey o) then
        match ExtractAddress (ScriptPubKey o) with
        | Err _ => Panics
        | Ok addr =>
            let h := default [] (Types.address_Hash160 addr) in
            if length (peek [] (GetCode h) s) =? 0 then contractVoutLoop ins outs s
            else match ins with
                 | [] => Panics
                 | i :: _ =>
                     match AddressHash i with
                     | None => Panics
                     | Some from =>
                         match MakeContractScriptPubkey (Some from) (Some h) TransferGasLimit (u64 (peek 0%Z (GetNonce from) s + 1)) 0 with
                         | Err _ => Panics
                         | Ok csc => Returns (Some (mkTxOut (Value o) csc))
                         end
                     end
                 end
        end
      else contractVoutLoop ins outs s
  end.

Definition GetContractVout (tx : Transaction) (s : sdb) : go (option TxOut) := contractVoutLoop (Vin tx) (Vout tx) s.

(** Whether an address is a contract, as the classification of transactions asks it. *)
Definition isContract (s : sdb) : bytes -> bool := fun a => peek false (IsContractAddr a) s.

Definition ExtractVMTransaction (tx : Transaction) : PM (option VMTransaction) :=
  s ← p_gets p_db;
  let '(_, typ) := GetTxType (Some (isContract s)) tx in
  if negb (bool_decide (typ = ContractTx)) then mret None
  else
    vout ← p_go (GetContractVout tx s);
    match vout with
    | None => p_panic
    | Some contractVout =>
        match ParseContractParams (ScriptPubKey contractVout) with
        | Err e => p_fail (ErrContractScript e)
        | Ok (p, t) =>
            let input := match Data tx with Some d => data_content d | None => [] end in
            let gasPrice := if IsCoinBase tx || IsInternalContract tx then 0%Z else FixedGasPrice in
            mret (Some (NewVMTransaction (i64 (Value contractVout)) (vp_GasLimit p) gasPrice (vp_Nonce p) (Types.CalcTxHash tx) t input (vp_From p)
              (if bool_decide (t = ContractCallType) then Some (vp_To p) else None)))
        end
    end.

(** What the loop of [Process] has gathered: gas paid to contracts, all gas, receipts and
    internal transactions. *)
Record Totals := mkTotals { usedGas : Z; sumGas : Z; receipts : list Receipt; utxoTxs : list Transaction }.

Definition cache_hash (b : Block) : Block := mkBlock (BlockHash b) (b_Header b) (b_Txs b) (b_InternalTxs b) (b_Signature b) (b_Irreversible b).

(** One turn of the loop, for the transaction at index [i]; the receipt asks the block for its
    hash, which the block then keeps. *)
Definition processTx (block : Block) (i : nat) (tx : Transaction) (t : Totals) : PM (Totals * Block) :=
  let header := b_Header block in
  if (MaxBlockGasLimit <? sumGas t)%Z then p_fail ErrOutOfBlockGasLimit
  else
    vmTx ← ExtractVMTransaction tx;
    match vmTx with
    | None => mret (mkTotals (usedGas t) (u64 (sumGas t + u64 (TransferFee + ExtraFee tx))) (receipts t) (utxoTxs t), block)
    | Some vmTx =>
        nonce ← p_op (GetNonce (vt_from vmTx));
        if negb (vt_nonce vmTx =? u64 (nonce + 1))%Z then p_fail ErrNonce
        else
          match Types.CalcTxHash tx with
          | None => p_fail ErrTxHash
          | Some thash =>
              _ ← p_op (Prepare thash (default Crypto.ZeroHash (b_Hash block)) (Z.of_nat i));
              '(receipt, gasUsedPerTx, txs) ← ApplyTransaction vmTx header;
              let gasThisTx := u64 (u64 (Uint64 (vt_gasPrice vmTx) * gasUsedPerTx) + ExtraFee tx) in
              mret (mkTotals (u64 (usedGas t + gasThisTx)) (u64 (sumGas t + gasThisTx))
                (receipts t ++ [WithBlock receipt (u32 (Z.of_nat i)) (BlockHash block) (h_Height header)]) (utxoTxs t ++ txs), cache_hash block)
          end
    end.

Fixpoint processTxs (block : Block) (i : nat) (txs : list Transaction) (t : Totals) : PM Totals :=
  match txs with
  | [] => mret t
  | tx :: txs => '(t, block) ← processTx block i tx t; processTxs block (S i) txs t
  end.

Definition Process (block : Block) : PM (list Receipt * Z * list Transaction) :=
  t ← processTxs block 0 (b_Txs block) (mkTotals 0 0 [] []);
  mret (receipts t, usedGas t, utxoTxs t).

End Processor.
End Processor.
Import Processor.
