(* ===== verification/ProcessorMain.v ===== *)
(** * ProcessorMain: internal transactions, and what a block can do to the balances *)

From S2P Require Import Prelude Opcode Crypto Types Script ScriptKinds Bytes Bloom TxLogic Compress Keys UtxoSet UtxoDb Trie TrieFacts TrieMap TrieRoot EvmMath EvmOpcode EvmState EvmMachine EvmGas EvmInstr EvmPrecompile EvmJump Evm EvmAnalysis EvmArith EvmInv EvmOps EvmCharge EvmStep EvmTable EvmSafe EvmMain WorldState WorldFacts WorldSteps WorldLaws Transition Receipt Blocks Processor.
Import Kinds TxLogic Compress Utxo UtxoDb Transition Receipt Blocks Processor.

(** ** Batches *)

(** With more transfers than fit one transaction, the last ones are in no batch: the end of
    the last batch is computed as a length and used as a position. *)
Lemma last_transfer_in_no_batch n i : VoutLimit < n -> ~ (i * VoutLimit <= n - 1 < batchEnd n i).
Proof.
  unfold batchEnd, VoutLimit. intros Hn [H1 H2]. destruct (Nat.ltb_spec ((i + 1) * 1000) n); lia.
Qed.

(** ** Conservation inside an internal transaction *)

(** The value of an entry. *)
Definition value_at (u : UtxoSet) (op : OutPoint) : Z := default 0%Z (Types.uw_value <$> utxoMap u !! op).

(** What is paid to an address. *)
Definition paid_to (infos : list TransferInfo) (a : bytes) : Z :=
  Zsum (ti_Value <$> filter (fun i => ti_To i = a) infos).

Abbreviation contract_op a := (contractOutPoint (Some a)).

Lemma contract_op_inj a b : a <> Types.ZeroAddressHash -> b <> Types.ZeroAddressHash -> contract_op a = contract_op b -> a = b.
Proof.
  intros Ha Hb. unfold contractOutPoint, Types.NormalizeAddressHash. rewrite !bool_decide_eq_false_2 by done. intros [= E]. done.
Qed.

Section Facts.
Context {D : StateDB} {X : ChainDB D} `{C : Crypto}.

(** A step that ends well. *)
Definition pwp {A} (c : PM A) (Q : A -> PState -> Prop) (s : PState) : Prop :=
  match c s with (XOk (Ok a), s') => Q a s' | _ => True end.

Lemma pwp_ret {A} (a : A) Q s : Q a s -> pwp (mret a) Q s.
Proof. done. Qed.

Lemma pwp_bind {A B} (c : PM A) (k : A -> PM B) Q s : pwp c (fun a => pwp (k a) Q) s -> pwp (c ≫= k) Q s.
Proof. unfold pwp, mbind, PM_bind. destruct (c s) as [[[a|e]|e| |] s']; done. Qed.

Lemma pwp_mono {A} (c : PM A) (Q Q' : A -> PState -> Prop) s : pwp c Q s -> (forall a s', Q a s' -> Q' a s') -> pwp c Q' s.
Proof. unfold pwp. destruct (c s) as [[[a|e]|e| |] s']; auto. Qed.

Lemma pwp_find op (Q : option Types.UtxoWrap -> PState -> Prop) s : Q (utxoMap (p_utxo s) !! op) s -> pwp (find op) Q s.
Proof. done. Qed.

Lemma pwp_put op w (Q : unit -> PState -> Prop) s : Q tt (mkPState (p_db s) (with_map (p_utxo s) (<[op := w]> (utxoMap (p_utxo s))))) -> pwp (put op w) Q s.
Proof. done. Qed.

Lemma pwp_set f (Q : unit -> PState -> Prop) s : Q tt (mkPState (p_db s) (f (p_utxo s))) -> pwp (p_set f) Q s.
Proof. done. Qed.

(** Operations that do not touch the set. *)
Definition idle {A} (c : PM A) : Prop := forall s, pwp c (fun _ s' => p_utxo s' = p_utxo s) s.

Lemma idle_op {A} (op : sdb -> go (A * sdb)) : idle (p_op op).
Proof. intros s. unfold pwp, p_op. by destruct (op (p_db s)) as [[a d]|]. Qed.

Lemma idle_go {A} (r : go A) : idle (p_go r).
Proof. intros s. unfold pwp, p_go. by destruct r. Qed.

Lemma idle_use {A B} (c : PM A) (k : A -> PM B) Q s : idle c -> (forall a s', p_utxo s' = p_utxo s -> pwp (k a) Q s') -> pwp (c ≫= k) Q s.
Proof. intros Hc Hk. apply pwp_bind. eapply pwp_mono; [apply Hc|]. intros a s' E. by apply Hk. Qed.

Lemma idle_GetContractUtxo a : idle (GetContractUtxoFromStateDB a).
Proof.
  intros s. apply idle_use; [apply idle_op|]. intros [b|] s1 E1; [|by apply pwp_ret].
  apply idle_use; [apply idle_go|]. intros w s2 E2. apply pwp_ret. congruence.
Qed.

Lemma value_at_put u op w op' : value_at (with_map u (<[op := w]> (utxoMap u))) op' = if decide (op = op') then Types.uw_value w else value_at u op'.
Proof. unfold value_at. cbn. case_decide as H; [subst; by rewrite lookup_insert_eq|by rewrite lookup_insert_ne]. Qed.

Lemma value_at_contract u op op' : value_at (add_contract u op) op' = value_at u op'.
Proof. done. Qed.

(** One output takes its value from the sender; another entry only grows, by what it is paid. *)
Lemma makeVout_ok from info s : ti_To info <> from -> from <> Types.ZeroAddressHash -> (0 <= ti_Value info < 2 ^ 64)%Z ->
  (0 <= value_at (p_utxo s) (contract_op from) < 2 ^ 64)%Z ->
  pwp (makeVout from (contract_op from) info) (fun vout s' => Value vout = ti_Value info /\ (ti_Value info <= value_at (p_utxo s) (contract_op from))%Z /\
    value_at (p_utxo s') (contract_op from) = (value_at (p_utxo s) (contract_op from) - ti_Value info)%Z /\
    forall op, op <> contract_op from -> op <> contract_op (ti_To info) -> value_at (p_utxo s') op = value_at (p_utxo s) op) s.
Proof.
  intros Hne Hz Hv Hf. unfold makeVout. destruct (bool_decide_reflect (ti_To info = Types.ZeroAddressHash)) as [|Hto]; [done|].
  assert (contract_op from <> contract_op (ti_To info)) as Hop by (intros E; by apply contract_op_inj in E).
  apply idle_use; [apply idle_op|]. intros isC s1 E1. apply pwp_bind.
  eapply (pwp_mono _ (fun _ s2 => forall op, op <> contract_op (ti_To info) -> value_at (p_utxo s2) op = value_at (p_utxo s) op)).
  - rewrite <- E1. clear s E1 Hf. destruct isC; [|by apply pwp_ret]. apply pwp_bind. destruct (MakeContractScriptPubkey _ _ _ _ _) as [spk|]; [|done]. apply pwp_ret.
    cbn zeta. apply pwp_bind, pwp_set. set (s2 := mkPState _ _). apply pwp_bind, pwp_find, pwp_bind. eapply (pwp_mono _ (fun _ s3 => p_utxo s3 = p_utxo s2)).
    + destruct (_ !! _); [by apply pwp_ret|]. apply idle_use; [apply idle_GetContractUtxo|]. intros [w|] s3 E3; [by apply pwp_ret|done].
    + intros w s3 E3. apply pwp_bind, pwp_put, pwp_ret. cbn [p_utxo]. rewrite E3. intros op Hne'. rewrite value_at_put, decide_False by done. done.
  - intros spk s2 H2. apply pwp_bind, pwp_find. destruct (utxoMap (p_utxo s2) !! contract_op from) as [w|] eqn:Ew; [|done].
    assert (value_at (p_utxo s) (contract_op from) = Types.uw_value w) as Ev by (rewrite <- (H2 _ Hop); unfold value_at; by rewrite Ew).
    rewrite Ev in *. destruct (Z.ltb_spec (Types.uw_value w) (u64 (Types.uw_value w - ti_Value info))) as [|Hle]; [done|].
    assert (ti_Value info <= Types.uw_value w)%Z as Hvle.
    { destruct (decide (ti_Value info <= Types.uw_value w)%Z) as [|Hgt]; [done|]. exfalso. unfold u64 in Hle.
      rewrite <- (Z.mod_unique_pos (Types.uw_value w - ti_Value info) (2 ^ 64) (-1) (Types.uw_value w - ti_Value info + 2 ^ 64)) in Hle; lia. }
    apply pwp_bind, pwp_put, pwp_ret. cbn [p_utxo Value]. split_and!; [done|done|..].
    + rewrite value_at_put, decide_True by done. cbn. unfold u64. rewrite Z.mod_small; lia.
    + intros op Hop1 Hop2. rewrite value_at_put, decide_False by done. by apply H2.
Qed.

Lemma makeVouts_ok from infos s : Forall (fun i => ti_To i <> from /\ (0 <= ti_Value i < 2 ^ 64)%Z) infos -> from <> Types.ZeroAddressHash ->
  (0 <= value_at (p_utxo s) (contract_op from) < 2 ^ 64)%Z ->
  pwp (makeVouts from (contract_op from) infos) (fun vouts s' => Value <$> vouts = ti_Value <$> infos /\
    value_at (p_utxo s') (contract_op from) = (value_at (p_utxo s) (contract_op from) - Zsum (ti_Value <$> infos))%Z /\ (0 <= value_at (p_utxo s') (contract_op from))%Z) s.
Proof.
  intros Hi Hz. revert s. induction Hi as [|info infos [Hne Hv] _ IH]; intros s Hf; cbn [makeVouts].
  { apply pwp_ret. cbn. split_and!; [done|lia|lia]. }
  apply pwp_bind. eapply pwp_mono; [by apply makeVout_ok|]. intros vout s1 (E1 & Hle & E2 & _). apply pwp_bind.
  eapply pwp_mono; [apply IH; lia|]. intros vouts s2 (E3 & E4 & H4). apply pwp_ret. cbn [fmap list_fmap Zsum foldr]. fold (Zsum (ti_Value <$> infos)).
  split_and!; [by rewrite E1, E3|lia|done].
Qed.

Lemma makeTx_ok pool cdb info infos nonce b e w s :
  Forall (fun i => ti_To i <> ti_From info /\ (0 <= ti_Value i < 2 ^ 64)%Z) (info :: infos) ->
  utxoMap (p_utxo s) !! contract_op (ti_From info) = Some w -> (0 <= Types.uw_value w < 2 ^ 64)%Z ->
  pwp (makeTx pool cdb (info :: infos) nonce b e) (fun tx s' =>
    PrevOutPoint <$> Vin tx = [contract_op (ti_From info)] /\
    Value <$> Vout tx = ti_Value <$> take (e - b) (drop b (info :: infos)) /\
    value_at (p_utxo s') (contract_op (ti_From info)) = (Types.uw_value w - Zsum (Value <$> Vout tx))%Z /\
    (0 <= value_at (p_utxo s') (contract_op (ti_From info)))%Z) s.
Proof.
  intros Hi Hw Hv. unfold makeTx. destruct (bool_decide_reflect (Types.NormalizeAddressHash (Some (ti_From info)) = Crypto.ZeroHash)) as [|Hz]; [done|].
  assert (ti_From info <> Types.ZeroAddressHash) as Hnz by (intros E; apply Hz; unfold Types.NormalizeAddressHash; by rewrite bool_decide_eq_true_2).
  cbn zeta. apply pwp_bind, pwp_set, pwp_bind, pwp_find. cbn [p_utxo utxoMap add_contract]. rewrite Hw. apply pwp_bind, pwp_ret.
  destruct (_ && _); [done|]. apply pwp_bind.
  assert (value_at (p_utxo s) (contract_op (ti_From info)) = Types.uw_value w) as Ev by (unfold value_at; by rewrite Hw).
  eapply pwp_mono; [apply makeVouts_ok; [by apply Forall_take, Forall_drop|done|cbn [p_utxo]; rewrite value_at_contract; lia]|].
  intros vouts s' (E1 & E2 & H2). apply pwp_ret. cbn [Types.AppendVout Types.AppendVin Types.NewTx Vin Vout app]. rewrite E1. split_and!; [done..| |done].
  rewrite E2. cbn [p_utxo]. by rewrite value_at_contract, Ev.
Qed.

(** an internal transaction spends what a contract sent and nothing else: it has the
    contract as its only input, one output per transfer with the value sent, and the entry of
    the contract loses exactly the sum of the outputs, which it had. *)
Theorem internal_transaction_balanced pool cdb info infos nonce b e w s tx s' :
  Forall (fun i => ti_To i <> ti_From info /\ (0 <= ti_Value i < 2 ^ 64)%Z) (info :: infos) ->
  utxoMap (p_utxo s) !! contract_op (ti_From info) = Some w -> (0 <= Types.uw_value w < 2 ^ 64)%Z ->
  makeTx pool cdb (info :: infos) nonce b e s = (XOk (Ok tx), s') ->
  PrevOutPoint <$> Vin tx = [contract_op (ti_From info)] /\
  Value <$> Vout tx = ti_Value <$> take (e - b) (drop b (info :: infos)) /\
  value_at (p_utxo s') (contract_op (ti_From info)) = (Types.uw_value w - Zsum (Value <$> Vout tx))%Z /\
  (0 <= value_at (p_utxo s') (contract_op (ti_From info)))%Z.
Proof.
  intros Hi Hw Hv E. pose proof (makeTx_ok pool cdb info infos nonce b e w s Hi Hw Hv) as H. unfold pwp in H. by rewrite E in H.
Qed.

End Facts.

(** * What a block can do to the accounts

    The contract transactions of a block run one after the other on the state database.  When
    the block is accepted no account is overdrawn, and all accounts together have lost at least
    the gas that the receipts record, at the price of their transactions. *)

Import Kinds TxLogic Compress Utxo UtxoDb Transition Receipt Blocks Processor.

(** ** The database *)

(** The observation with other names of the running transaction. *)
Definition set_tx (t : bytes * bytes * Z) (o : Obs) : Obs := mkObs (o_acct o) (o_refund o) (o_logs o) (o_logSize o) t.

Class ChainDBLaws (D : StateDB) (V : StateDBView D) (X : ChainDB D) : Prop := {
  law_Prepare th bh ti s : sdb_ok s -> exists s', Prepare th bh ti s = Returns (tt, s') /\ sdb_ok s' /\ obs s' = set_tx (th, bh, ti) (obs s);
  law_GetUtxo a s : length a = 20 -> sdb_ok s -> exists r s', GetUtxo a s = Returns (r, s') /\ sdb_ok s' /\ obs s' = obs s
}.

Section Quiet.
Context {D : StateDB} {V : StateDBView D} `{K : Keccak} {L : StateDBLaws D V} {X : ChainDB D} {XL : ChainDBLaws D V X} `{C : Crypto} `{TC : TxCodec} `{R : Rlp} `{VO : VisitOrder}.
Context (pool : bytes) (cdb : Db).

(** Steps that the accounts do not notice. *)
Definition quiet {A} (c : PM A) : Prop := forall s, sdb_ok (p_db s) ->
  pwp c (fun _ s' => sdb_ok (p_db s') /\ obs (p_db s') = obs (p_db s)) s.

Lemma quiet_ret {A} (a : A) : quiet (mret a).
Proof. by intros s Hs. Qed.
Lemma quiet_fail {A} e : quiet (p_fail (A := A) e).
Proof. by intros s Hs. Qed.
Lemma quiet_panic {A} : quiet (p_panic (A := A)).
Proof. by intros s Hs. Qed.
Lemma quiet_set f : quiet (p_set f).
Proof. by intros s Hs. Qed.
Lemma quiet_gets {A} (f : PState -> A) : quiet (p_gets f).
Proof. by intros s Hs. Qed.
Lemma quiet_go {A} (r : go A) : quiet (p_go r).
Proof. intros s Hs. unfold pwp, p_go. by destruct r. Qed.

Lemma quiet_bind {A B} (c : PM A) (k : A -> PM B) : quiet c -> (forall a, quiet (k a)) -> quiet (c ≫= k).
Proof.
  intros Hc Hk s Hs. apply pwp_bind. eapply pwp_mono; [by apply Hc|]. intros a s1 [Hs1 E1].
  eapply pwp_mono; [by apply Hk|]. intros b s2 [Hs2 E2]. split; [done|congruence].
Qed.

Lemma quiet_op {A} (op : sdb -> go (A * sdb)) ans : op_spec op ans id_obs -> quiet (p_op op).
Proof. intros H s Hs. unfold pwp, p_op. destruct (H _ Hs) as (s' & -> & H1 & H2 & _). done. Qed.

Lemma quiet_GetUtxo a : length a = 20 -> quiet (p_op (GetUtxo a)).
Proof. intros Ha s Hs. unfold pwp, p_op. destruct (law_GetUtxo a _ Ha Hs) as (r & s' & -> & H1 & H2). done. Qed.

(** A step that keeps quiet, with what is known of its answer. *)
Lemma quiet_use {A B} (c : PM A) (k : A -> PM B) Q s : quiet c -> sdb_ok (p_db s) ->
  (forall a s', sdb_ok (p_db s') -> obs (p_db s') = obs (p_db s) -> pwp (k a) Q s') -> pwp (c ≫= k) Q s.
Proof. intros Hc Hs Hk. apply pwp_bind. eapply pwp_mono; [by apply Hc|]. intros a s' [H1 H2]. by apply Hk. Qed.

End Quiet.

Create HintDb quiet discriminated.
#[export] Hint Resolve quiet_ret quiet_fail quiet_panic quiet_set quiet_gets quiet_go quiet_GetUtxo : quiet.

(** Walk through the binds and the branches of a computation. *)
Ltac quiet :=
  repeat first
    [ progress (cbn beta zeta)
    | solve [eauto with quiet]
    | apply quiet_bind; [|intros ?]
    | match goal with |- quiet (match ?x with _ => _ end) => destruct x end
    | match goal with |- quiet (p_op (IsContractAddr _)) => eapply quiet_op, law_IsContractAddr end
    | match goal with |- quiet (p_op (GetBalance _)) => eapply quiet_op, law_GetBalance end ].

Section InternalTxs.
Context {D : StateDB} {V : StateDBView D} `{K : Keccak} {L : StateDBLaws D V} {X : ChainDB D} {XL : ChainDBLaws D V X} `{C : Crypto} `{TC : TxCodec} `{R : Rlp} `{VO : VisitOrder}.
Context (pool : bytes) (cdb : Db).

Lemma quiet_makeVout from op info : length (ti_To info) = 20 -> quiet (makeVout from op info).
Proof. intros Hto. unfold makeVout, GetContractUtxoFromStateDB, find, put. quiet; done. Qed.

Lemma quiet_makeVouts from op infos : Forall (fun i => length (ti_To i) = 20) infos -> quiet (makeVouts from op infos).
Proof.
  induction 1 as [|info infos Hto _ IH]; cbn [makeVouts]; [quiet|].
  apply quiet_bind; [by apply quiet_makeVout|]. intros vout. quiet.
Qed.

Lemma quiet_makeTx infos nonce b e : Forall (fun i => length (ti_To i) = 20) infos -> quiet (makeTx pool cdb infos nonce b e).
Proof.
  intros Hi. unfold makeTx, find, put. destruct infos as [|info infos]; [quiet|].
  assert (forall from op, quiet (makeVouts from op (take (e - b) (drop b (info :: infos))))) by (intros; by apply quiet_makeVouts, Forall_take, Forall_drop). quiet.
Qed.

Lemma quiet_makeTxs infos nonce : Forall (fun i => length (ti_To i) = 20) infos -> quiet (makeTxs pool cdb infos nonce).
Proof.
  intros Hi. unfold makeTxs. destruct (_ <? _); [|apply quiet_bind; [by apply quiet_makeTx|intros; quiet]].
  generalize (seq 0 (length infos / VoutLimit + 1)). intros l. induction l as [|i l IH]; cbn [makeBatches]; [quiet|].
  apply quiet_bind; [by apply quiet_makeTx|]. intros tx. quiet.
Qed.

Lemma quiet_createUtxoTx transfers nonce : transfers_ok transfers -> quiet (createUtxoTx pool cdb transfers nonce).
Proof.
  intros Ht. unfold createUtxoTx. assert (Forall (fun p => transfers !! p.1 = Some p.2) (visit transfers)) as Hv.
  { apply Forall_forall. intros [a v]. rewrite visit_perm, elem_of_map_to_list. done. }
  induction Hv as [|[a v] l Ha _ IH]; cbn [createUtxoTxLoop]; [quiet|]. apply quiet_bind; [|intros txs; quiet].
  apply quiet_makeTxs. destruct (Ht _ _ Ha) as (_ & _ & Hf). eapply Forall_impl; [exact Hf|]. by intros i (_ & ? & _).
Qed.

Lemma quiet_addNewContractUtxos items height : created_ok items -> quiet (addNewContractUtxos items height).
Proof.
  induction 1 as [|item items [H1 H2] _ IH]; cbn [addNewContractUtxos]; [quiet|]. apply quiet_bind; [|done].
  unfold addNewContractUtxo, find, put. quiet; done.
Qed.

Lemma quiet_takeOver a v : length a = 20 -> quiet (takeOver a v).
Proof. intros Ha. unfold takeOver, find, put. by quiet. Qed.

Lemma quiet_internalTxs tx fail transfers nonce a : transfers_ok transfers -> quiet (internalTxs pool cdb tx fail transfers nonce a).
Proof.
  intros Ht. pose proof (quiet_createUtxoTx transfers nonce Ht). unfold internalTxs, createRefundTx, find, put. quiet.
Qed.

End InternalTxs.

(** ** One transaction *)

Section Block.
Context {D : StateDB} {V : StateDBView D} `{K : Keccak} {L : StateDBLaws D V} {X : ChainDB D} {XL : ChainDBLaws D V X}.
Context `{C : Crypto} `{TC : TxCodec} `{HC : HeaderCodec} `{E : Curves} {EL : CurvesLaws E} `{R : Rlp} `{VO : VisitOrder}.
Context (pool : bytes) (cdb : Db) (getHash : Z -> option bytes) (noRecursion enablePreimageRecording : bool).

Record db_good (T : Z) (d : sdb) : Prop := mk_db_good {
  dg_ok : sdb_ok d;
  dg_wf : wf_obs (obs d);
  dg_cap : capped T (balance (obs d))
}.

Lemma db_good_obs T d d' : db_good T d -> sdb_ok d' -> obs d' = obs d -> db_good T d'.
Proof. intros [H1 H2 H3] Hd Ho. split; rewrite ?Ho; done. Qed.

(** The machine of a transaction starts with nothing noted. *)
Lemma fresh_machine T d : db_good T d -> gok T (mkGlobal d [] 0 ∅ [] ∅ false).
Proof. intros [H1 H2 H3]. split; [done..|by intros h x y|by apply no_records]. Qed.

Record vmtx_ok (tx : VMTransaction) : Prop := mk_vmtx_ok {
  vo_from : length (vt_from tx) = 20;
  vo_to : length (to tx) = 20;
  vo_code : (Z.of_nat (length (vt_code tx)) < 2 ^ 58)%Z;
  vo_value : word (vt_value tx);
  vo_gas : (0 <= vt_gas tx)%Z /\ (vt_gasPrice tx = FixedGasPrice \/ vt_gasPrice tx = 0%Z /\ (vt_gas tx < 2 ^ 62)%Z)
}.

(** What the header and the chain give to the machine. *)
Definition header_gives (header : BlockHeader) : Prop :=
  length (h_BookKeeper header) = 20 /\ (0 <= h_Height header < 2 ^ 32)%Z /\
  forall n, (h_Height header - 257 < n < h_Height header -> 0 <= n -> exists h, getHash n = Some h /\ (length h <= 32)%nat)%Z.

(** Gas that costs more than there is cannot be bought. *)
Lemma cannot_pay T ctx tx g : gok T g -> length (vt_from tx) = 20 -> (T < vt_gas tx * vt_gasPrice tx)%Z ->
  gwp (TransitionDb ctx tx) (fun r _ => exists e, r = Err e) (fun _ _ => False) g.
Proof.
  intros Hg Hf Hp. unfold TransitionDb, preCheck, buyGas. apply wp_bind, wp_bind. eapply (gwp_get T _ _ false); [law law_GetBalance|done|].
  intros g1 Hg1 _ HO1 _. cbn beta. pose proof (capped_le _ _ (vt_from tx) (gok_cap _ _ Hg)).
  destruct (Z.ltb_spec (balance (O g) (vt_from tx)) (vt_gas tx * vt_gasPrice tx)); [|lia]. apply wp_ret, wp_ret. eauto.
Qed.

Lemma runMessage_ok T tx header s : vmtx_ok tx -> header_gives header -> (T < 2 ^ 62)%Z -> db_good T (p_db s) ->
  pwp (runMessage getHash noRecursion enablePreimageRecording tx header) (fun '(res, transfers, items) s' =>
    (0 <= tr_usedGas res)%Z /\ db_good (T - vt_gasPrice tx * tr_usedGas res) (p_db s') /\ transfers_ok transfers /\ created_ok items) s.
Proof.
  intros [H1 H2 H3 H4 [H5 H6]] (Hh1 & Hh2 & Hh3) HT Hd. unfold pwp, runMessage, ApplyMessage. pose proof (fresh_machine T _ Hd) as Hg. set (g := mkGlobal _ _ _ _ _ _ _) in *.
  set (ctx := NewEVMContext _ _ _ _ _). destruct (decide (vt_gas tx < 2 ^ 62)%Z) as [Hgas|Hgas].
  - assert (message_ok T ctx tx g) as Hm.
    { split; try done.
      - pose proof (capped_le _ _ [] (dg_cap _ _ Hd)). lia.
      - unfold ctx_ok, ctx. cbn. rewrite H1, Hh1. split_and!; try lia; [split; unfold FixedGasPrice in *; lia|]. done.
      - unfold FixedGasPrice in *. lia. }
    pose proof (TransitionDb_ok T ctx tx g Hm) as H. unfold wp in H. destruct (TransitionDb ctx tx g) as [[[res|e]|e| |] g']; try done.
    destruct H as ([H _] & _ & _ & Hg' & _). cbn [p_db]. rewrite Z.mul_comm. split_and!; [done|split; apply Hg'|apply (gok_records _ _ Hg')..].
  - assert (T < vt_gas tx * vt_gasPrice tx)%Z as Hp by (unfold FixedGasPrice in *; lia).
    pose proof (cannot_pay T ctx tx g Hg H1 Hp) as H. unfold wp in H. destruct (TransitionDb ctx tx g) as [[[res|e]|e| |] g']; try done. by destruct H.
Qed.

Lemma NewReceipt_gas h a d f gas msg logs rc : NewReceipt h a d f gas msg logs = Returns rc -> rc_GasUsed rc = gas.
Proof. unfold NewReceipt. destruct (createLogBloom logs) as [b|]; [|done]. cbn. by intros [= <-]. Qed.

Lemma ApplyTransaction_ok T tx header s : vmtx_ok tx -> header_gives header -> (T < 2 ^ 62)%Z -> db_good T (p_db s) ->
  pwp (ApplyTransaction pool cdb getHash noRecursion enablePreimageRecording tx header) (fun '(receipt, gas, _) s' =>
    rc_GasUsed receipt = gas /\ (0 <= gas)%Z /\ db_good (T - vt_gasPrice tx * gas) (p_db s')) s.
Proof.
  intros Htx Hh HT Hd. pose proof (vo_from _ Htx) as Hf. unfold ApplyTransaction. apply pwp_bind. eapply pwp_mono; [by apply (runMessage_ok T)|].
  intros [[res transfers] items] s1 (H0 & Hd1 & Ht & Hi). set (T' := (T - _)%Z) in *.
  assert (length (Evm.CreateAddress (vt_from tx) (vt_nonce tx)) = 20) as Hca by (unfold Evm.CreateAddress, BytesToAddressHash; by rewrite Crypto.length_SetBytes).
  apply quiet_use; [destruct (negb _); [by apply quiet_addNewContractUtxos|quiet]|apply Hd1|]. intros _ s2 H2 E2. cbn zeta.
  apply quiet_use; [destruct (_ && _); [by apply quiet_takeOver|quiet]|done|]. intros _ s3 H3 E3.
  apply quiet_use; [eapply quiet_op, law_GetNonce; done|done|]. intros nonce s4 H4 E4.
  apply quiet_use; [by apply quiet_internalTxs|done|]. intros itxs s5 H5 E5.
  apply quiet_use; [eapply quiet_op, law_GetLogs|done|]. intros logs s6 H6 E6.
  apply pwp_bind. unfold pwp, p_go. destruct (NewReceipt _ _ _ _ _ _ _) as [rc|] eqn:Erc; [|done].
  split_and!; [cbn; by eapply NewReceipt_gas|done|]. apply (db_good_obs _ (p_db s1)); [done|done|congruence].
Qed.

(** ** Transactions as they are in a block *)

(** The price of gas for a transaction; those made by the block producer itself do not pay. *)
Definition gas_price (tx : Transaction) : Z := if IsCoinBase tx || IsInternalContract tx then 0%Z else FixedGasPrice.

(** The sizes a transaction may have.  Gas that is paid for is bounded by what its sender holds; a
    transaction of the block producer names a limit below 2^62 in its contract outputs, as every
    script that [MakeContractScriptPubkey] builds does. *)
Record tx_ok (tx : Transaction) : Prop := mk_tx_ok {
  to_data : (Z.of_nat (length (default [] (data_content <$> Data tx))) < 2 ^ 58)%Z;
  to_values : Forall (fun o => 0 <= Value o < 2 ^ 63)%Z (Vout tx);
  to_gas : gas_price tx = 0%Z -> Forall (fun o => forall p t, ParseContractParams (ScriptPubKey o) = Ok (p, t) -> (vp_GasLimit p < 2 ^ 62)%Z) (Vout tx)
}.

(** The first input of a transaction that does not pay for gas names no address, so that its contract
    output is one of its own. *)
Lemma contractVoutLoop_own ins outs d o : (forall i, head ins = Some i -> AddressHash i = None) -> contractVoutLoop ins outs d = Returns (Some o) -> o ∈ outs.
Proof.
  intros Hi. induction outs as [|x outs IH]; cbn [contractVoutLoop]; [done|]. destruct (IsContractPubkey _); [intros [= <-]; by left|].
  destruct (IsPayToPubKeyHash _); [|intros H; right; by apply IH]. destruct (ExtractAddress _) as [a|e]; [|done].
  destruct (_ =? _); [intros H; right; by apply IH|]. destruct ins as [|i ins]; [done|]. by rewrite (Hi i eq_refl).
Qed.

Lemma unpaid_no_address tx i : IsCoinBase tx || IsInternalContract tx = true -> head (Vin tx) = Some i -> AddressHash i = None.
Proof.
  unfold IsCoinBase, IsInternalContract, AddressHash. destruct (Vin tx) as [|j [|j2 ins]]; [done| |done]. cbn. intros H [= <-].
  rewrite <- andb_orb_distrib_l in H. apply andb_prop in H as [_ H]. by rewrite H.
Qed.

Lemma contractVoutLoop_value ins outs d o : contractVoutLoop ins outs d = Returns (Some o) -> exists o', o' ∈ outs /\ Value o = Value o'.
Proof.
  induction outs as [|x outs IH]; cbn [contractVoutLoop]; [done|].
  assert (contractVoutLoop ins outs d = Returns (Some o) -> exists o', o' ∈ x :: outs /\ Value o = Value o') as Hin.
  { intros H. destruct (IH H) as (o' & Ho & Ev). exists o'. split; [by right|done]. }
  destruct (IsContractPubkey _); [intros [= <-]; exists x; split; [by left|done]|]. destruct (IsPayToPubKeyHash _); [|done].
  destruct (ExtractAddress _) as [a|e]; [|done]. destruct (_ =? _); [done|]. destruct ins as [|i ins]; [done|].
  destruct (AddressHash i) as [f|]; [|done]. destruct (MakeContractScriptPubkey _ _ _ _ _) as [csc|]; [|done]. intros [= <-]. exists x. split; [by left|done].
Qed.

Lemma ParseContractParams_ok s p t : ParseContractParams s = Ok (p, t) -> length (vp_From p) = 20 /\ length (vp_To p) = 20 /\ (0 <= vp_GasLimit p)%Z.
Proof.
  unfold ParseContractParams. destruct (Script.getNthOp s 0 0) as [[[oc ?] pc]|]; [|done]. destruct (negb _); [done|].
  destruct (operandAt s pc) as [[from pc1]|]; cbn; [|done]. destruct (Nat.eqb_spec (length from) Crypto.AddrSize) as [Hf|]; cbn; [|done].
  destruct (operandAt s pc1) as [[dest pc2]|]; cbn; [|done]. destruct (Nat.eqb_spec (length dest) Crypto.AddrSize) as [Ht|]; cbn; [|done].
  destruct (readUint64 s pc2) as [[nonce pc3]|]; cbn; [|done]. unfold readUint64. destruct (operandAt s pc3) as [[g pc4]|]; cbn; [|done].
  destruct (negb _); cbn; [done|]. destruct (readUint32 s pc4) as [[ver pc5] ?]. destruct (is_bound_error _); [|done]. intros [= <- _]. cbn.
  split_and!; [done|done|apply le_value_bound].
Qed.

Lemma ExtractVMTransaction_ok tx s : tx_ok tx ->
  pwp (ExtractVMTransaction tx) (fun r s' => s' = s /\ match r with None => True | Some v => vmtx_ok v /\ vt_gasPrice v = gas_price tx end) s.
Proof.
  intros [Hd Hv Hg]. unfold pwp, ExtractVMTransaction, p_gets, p_go, GetContractVout, mbind, PM_bind. cbn. destruct (GetTxType _ _) as [tx' typ]. destruct (negb _); [done|]. cbn.
  destruct (contractVoutLoop _ _ _) as [[o|]|] eqn:Eo; [|done..]. cbn. destruct (ParseContractParams _) as [[p t]|] eqn:Ep; [|done]. cbn.
  destruct (contractVoutLoop_value _ _ _ _ Eo) as (o' & Ho & Ev). rewrite Forall_forall in Hv. specialize (Hv o' Ho).
  destruct (ParseContractParams_ok _ _ _ Ep) as (P1 & P2 & P3). split_and!; [done| |done]. split; cbn; try done.
  - unfold to. cbn. case_bool_decide; [done|]. by vm_compute.
  - by destruct (Data tx).
  - rewrite Ev. unfold i64, word. rewrite Z.mod_small; lia.
  - split; [done|]. unfold gas_price in Hg. destruct (_ || _) eqn:Eb; [right|by left]. split; [done|]. specialize (Hg eq_refl).
    rewrite Forall_forall in Hg. eapply Hg; [|exact Ep]. eapply contractVoutLoop_own; [|exact Eo]. intros i Hi. by eapply unpaid_no_address.
Qed.

(** What a receipt costs, its transaction being the one at its index. *)
Definition cost (txs : list Transaction) (rc : Receipt) : Z :=
  (default 0 (gas_price <$> txs !! Z.to_nat (rc_TxIndex rc)) * rc_GasUsed rc)%Z.

Definition costs (txs : list Transaction) (rcs : list Receipt) : Z := Zsum (cost txs <$> rcs).

Lemma Zsum_app l1 l2 : (Zsum (l1 ++ l2) = Zsum l1 + Zsum l2)%Z.
Proof. unfold Zsum. induction l1 as [|x l IH]; cbn; lia. Qed.

Lemma processTx_ok T block i tx t s all : tx_ok tx -> header_gives (b_Header block) -> (T < 2 ^ 62)%Z -> all !! i = Some tx -> (Z.of_nat (length all) < 2 ^ 32)%Z ->
  db_good (T - costs all (receipts t)) (p_db s) -> (0 <= costs all (receipts t))%Z ->
  pwp (processTx pool cdb getHash noRecursion enablePreimageRecording block i tx t) (fun '(t', block') s' =>
    db_good (T - costs all (receipts t')) (p_db s') /\ b_Header block' = b_Header block /\ (0 <= costs all (receipts t'))%Z) s.
Proof.
  intros Htx Hh HT Hi Hn Hd Hc. unfold processTx. destruct (_ <? _)%Z; [done|]. apply pwp_bind. eapply pwp_mono; [by apply ExtractVMTransaction_ok|].
  intros [v|] s1 [-> Hv]; [|by apply pwp_ret]. destruct Hv as [Hv Ep]. apply quiet_use; [eapply quiet_op, law_GetNonce, Hv|apply Hd|]. intros nonce s2 H2 E2.
  destruct (negb _); [done|]. destruct (Types.CalcTxHash tx) as [thash|]; [|done].
  pose proof (db_good_obs _ _ _ Hd H2 E2) as Hd2. clear Hd. apply pwp_bind. unfold pwp at 1, p_op.
  destruct (law_Prepare thash (default Crypto.ZeroHash (b_Hash block)) (Z.of_nat i) _ H2) as (d & -> & Hd3 & Eo).
  apply pwp_bind. eapply pwp_mono; [apply (ApplyTransaction_ok (T - costs all (receipts t))); [done|done|lia|cbn [p_db]]|].
  { split; [done| |]; rewrite Eo; apply Hd2. }
  intros [[rc gas] txs] s4 (Hgas & Hpos & Hd4). apply pwp_ret. cbn [receipts]. rewrite Ep in Hd4.
  assert (costs all (receipts t ++ [WithBlock rc (u32 (Z.of_nat i)) (BlockHash block) (h_Height (b_Header block))]) = costs all (receipts t) + gas_price tx * gas)%Z as ->.
  { unfold costs. rewrite fmap_app, Zsum_app. f_equal. cbn. unfold cost. cbn. apply lookup_lt_Some in Hi as Hlt. unfold u32. rewrite Z.mod_small, Nat2Z.id, Hi, Hgas; cbn; lia. }
  split_and!; [by rewrite Z.sub_add_distr|done|]. unfold gas_price, FixedGasPrice. destruct (_ || _); lia.
Qed.
Lemma processTxs_ok T all block i txs t s : Forall tx_ok txs -> header_gives (b_Header block) -> (T < 2 ^ 62)%Z -> drop i all = txs -> (Z.of_nat (length all) < 2 ^ 32)%Z ->
  db_good (T - costs all (receipts t)) (p_db s) -> (0 <= costs all (receipts t))%Z ->
  pwp (processTxs pool cdb getHash noRecursion enablePreimageRecording block i txs t) (fun t' s' => db_good (T - costs all (receipts t')) (p_db s')) s.
Proof.
  intros Htxs. revert block i t s. induction Htxs as [|tx txs Htx _ IH]; intros block i t s Hh HT Hi Hn Hd Hc; cbn [processTxs]; [by apply pwp_ret|].
  assert (all !! i = Some tx) as Hl by (rewrite <- (Nat.add_0_r i), <- lookup_drop, Hi; done).
  apply pwp_bind. eapply pwp_mono; [by apply (processTx_ok T _ _ _ _ _ all)|]. intros [t' block'] s' (H1 & H2 & H3).
  apply IH; [by rewrite H2|done| |done|done|done]. apply drop_S in Hl. rewrite Hi in Hl. by injection Hl.
Qed.

(** C8: when Process accepts the transactions of a block, its coinbase included, no account is
    overdrawn, and no set of accounts holds more than there was before, less the gas that the
    receipts record at the price of their transactions (0 for the coinbase and internal
    transactions, FixedGasPrice for the others).  The bounds assumed: fewer than 2^62 units in all,
    output values below 2^63, call data below 2^58 bytes, gas limits of the unpaid transactions
    below 2^62, and a header whose numbers fit their widths and whose ancestors' hashes are known. *)
Theorem block_pays_its_gas T block s rcs gas txs s' :
  Forall tx_ok (b_Txs block) -> (Z.of_nat (length (b_Txs block)) < 2 ^ 32)%Z -> header_gives (b_Header block) -> (T < 2 ^ 62)%Z -> db_good T (p_db s) ->
  Process pool cdb getHash noRecursion enablePreimageRecording block s = (XOk (Ok (rcs, gas, txs)), s') ->
  (forall a, 0 <= balance (obs (p_db s')) a)%Z /\
  (forall l, NoDup l -> Zsum (balance (obs (p_db s')) <$> l) <= T - costs (b_Txs block) rcs)%Z.
Proof.
  intros Htx Hn Hh HT Hd Hp. pose proof (processTxs_ok T (b_Txs block) block 0 (b_Txs block) (mkTotals 0 0 [] []) s Htx Hh HT eq_refl Hn) as H.
  unfold costs in H at 1 2. cbn in H. rewrite Z.sub_0_r in H. specialize (H Hd ltac:(lia)). unfold Process, mbind, PM_bind, pwp in *.
  destruct (processTxs _ _ _ _ _ _ _ _ _ s) as [[[t|e]|e| |] s1]; try done. cbn in Hp. injection Hp as <- _ _ <-. apply H.
Qed.

End Block.

(** ** Examples *)

Module ProcessorDemo.
Import EvmDemo RefDB BlockDemo.
#[local] Existing Instance ToyCrypto.toy.
#[local] Existing Instance ToyCodec.toy_codec.

(** The abstract database, without a trie of unspent outputs. *)
#[export] Instance RefChainDB : ChainDB RefDB := {|
  Prepare th bh ti := ref_set (set_tx (th, bh, ti));
  GetUtxo a := ref_get (fun _ => Some None)
|}.

#[export] Instance RefChainLaws : ChainDBLaws RefDB RefView RefChainDB.
Proof. split; [intros th bh ti s Hs; eexists; by split_and!|intros a s Ha Hs; do 2 eexists; by split_and!]. Qed.

#[export] Instance forwards : VisitOrder := {| visit K _ _ A m := map_to_list m; visit_perm K _ _ A m := reflexivity _ |}.

Lemma backwards_perm {K} `{Countable K} {A} (m : gmap K A) : rev (map_to_list m) ≡ₚ map_to_list m.
Proof. symmetry. apply Permutation_rev. Qed.

Definition backwards : VisitOrder := {| visit K _ _ A m := rev (map_to_list m); visit_perm K _ _ A m := backwards_perm m |}.

(** Alice calls a contract, with a value of 3. *)
Definition script : bytes := match MakeContractScriptPubkey (Some alice) (Some contract) 4000 1 0 with Ok s => s | Err _ => [] end.
Definition call : Transaction := mkTx UnknownTx 1 [mkTxIn (mkOutPoint (h32 x09) 2) [x01] 3] [mkTxOut 3 script] None 3 9.

(** The coinbase of the miner, whose second output calls the same contract without paying for gas. *)
Definition coinbase_script : bytes := match MakeContractScriptPubkey (Some (replicate 20 x07)) (Some contract) 4000 1 0 with Ok s => s | Err _ => [] end.
Definition coinbase : Transaction :=
  mkTx UnknownTx 1 [mkTxIn (mkOutPoint Crypto.ZeroHash Types.MaxUint32) [x01; x02] 3] [mkTxOut 50 (Script.PayToPubKeyHashScript (replicate 20 x07)); mkTxOut 0 coinbase_script] None 3 9.
Definition block : Block := mkBlock None header [coinbase; pay; call] [] [] None.

Definition funded : PState := mkPState (mkRef (on_acct contract (set_code adder) (on_acct alice (set_balance 1000000) no_accounts)) [] 0) (mkUtxoSet ∅ ∅ ∅).

Abbreviation run := (Process [] ∅ (fun n => Some (be32 n)) false false block funded).
Definition results := match run.1 with XOk (Ok r) => r | _ => ([], 0%Z, []) end.

(** The call of the coinbase is run, and leaves a receipt. *)
Example coinbase_runs : IsCoinBase coinbase = true /\ map rc_TxIndex results.1.1 = [0; 2]%Z.
Proof. vm_compute. auto. Qed.

Lemma funded_good : db_good 1000000 (p_db funded).
Proof. destruct (deployed_good no_accounts adder 1000000 1000000) as [H1 H2]; [done|done|lia|cbn; lia|]. split; [constructor|done|done]. Qed.

Lemma header_fits : header_gives (fun n => Some (be32 n)) header.
Proof. split_and!; [done|done|done|]. intros n _ _. exists (be32 n). by rewrite length_be32. Qed.

Lemma run_accepted : run = (XOk (Ok (results.1.1, results.1.2, results.2)), run.2).
Proof.
  refine (eq_trans (surjective_pairing run) (f_equal (fun x => (x, run.2)) _)). vm_compute. reflexivity.
Qed.

Lemma fits_ok tx : (Z.of_nat (length (default [] (data_content <$> Data tx))) <? 2 ^ 58)%Z = true ->
  forallb (fun o => (0 <=? Value o) && (Value o <? 2 ^ 63) && match ParseContractParams (ScriptPubKey o) with Ok (p, _) => vp_GasLimit p <? 2 ^ 62 | Err _ => true end)%Z (Vout tx) = true -> tx_ok tx.
Proof.
  intros Hd Ho. rewrite forallb_forall in Ho. split; [lia| |intros _]; apply List.Forall_forall; intros o H; specialize (Ho o H).
  - destruct (ParseContractParams _) as [[p t]|]; lia.
  - intros p t E. rewrite E in Ho. lia.
Qed.

Lemma block_pays_its_gas_witness :
  (forall a, 0 <= balance (obs (p_db run.2)) a)%Z /\ (forall l, NoDup l -> Zsum (balance (obs (p_db run.2)) <$> l) <= 1000000 - 106200)%Z.
Proof.
  assert (costs (b_Txs block) results.1.1 = 106200)%Z as <- by (vm_compute; reflexivity).
  apply (block_pays_its_gas [] ∅ (fun n => Some (be32 n)) false false 1000000 block funded results.1.1 results.1.2 results.2).
  - apply Forall_cons; split; [|apply Forall_cons; split; [|apply Forall_cons; split; [|done]]]; apply fits_ok; vm_compute; reflexivity.
  - cbn. lia.
  - exact header_fits.
  - lia.
  - exact funded_good.
  - exact run_accepted.
Defined.

(** Two contracts pay; the order in which the map of transfers is visited is the order of the
    internal transactions, which is part of what the block commits to. *)
Definition other : bytes := replicate 20 x04.
Definition transfers : gmap bytes (list TransferInfo) := {[ contract := [mkTransferInfo contract alice 2]; other := [mkTransferInfo other alice 5] ]}.
Definition entry (v : Z) : Types.UtxoWrap := Types.NewUtxoWrap v [] 1.
Definition paying : PState := mkPState (p_db funded) (mkUtxoSet {[ contract_op contract := entry 9; contract_op other := entry 8 ]} ∅ ∅).

Definition values (r : xres (result ProcErr (list Transaction)) * PState) : option (list (list Z)) :=
  match r.1 with XOk (Ok txs) => Some ((fun tx => Value <$> Vout tx) <$> txs) | _ => None end.

Example internal_order_not_fixed :
  values (createUtxoTx (VO := forwards) [] ∅ transfers 1 paying) <> values (createUtxoTx (VO := backwards) [] ∅ transfers 1 paying).
Proof. vm_compute. discriminate. Qed.

Abbreviation payment := (makeTx [] ∅ [mkTransferInfo contract alice 2; mkTransferInfo contract (replicate 20 x05) 3] 1 0 2 paying).

Lemma internal_transaction_balanced_witness :
  PrevOutPoint <$> Vin (default (Types.NewTx 0 0 0) (match payment.1 with XOk (Ok tx) => Some tx | _ => None end)) = [contract_op contract] /\
  value_at (p_utxo payment.2) (contract_op contract) = 4%Z.
Proof.
  destruct (internal_transaction_balanced [] ∅ (mkTransferInfo contract alice 2) [mkTransferInfo contract (replicate 20 x05) 3] 1 0 2 (entry 9) paying
    (default (Types.NewTx 0 0 0) (match payment.1 with XOk (Ok tx) => Some tx | _ => None end)) payment.2) as (H1 & _ & H2 & _).
  - repeat constructor; cbn; done.
  - vm_compute. reflexivity.
  - cbn. lia.
  - refine (eq_trans (surjective_pairing payment) (f_equal (fun x => (x, payment.2)) _)). vm_compute. reflexivity.
  - split; [exact H1|]. refine (eq_trans H2 _). vm_compute. reflexivity.
Defined.

End ProcessorDemo.

(** * Blocks on the world state

    The world state of WorldState.v with its journal and its tries is the database of the
    processor: naming the running transaction and reading the trie of unspent outputs leave the
    accounts and the journal in order, so that the theorems above are about the database the program
    runs. *)

Import WorldState.

Section World.
Context `{C : Crypto} `{K : Keccak} {TC : TrieCodec} {TCL : TrieCodecLaws TC} {R : AccountRlp} {RL : AccountRlpLaws R}.

#[export] Instance WorldChainDB : ChainDB WorldDB := {|
  Processor.Prepare th bh ti := run (Prepare th bh ti);
  Processor.GetUtxo a := run (r ← GetUtxo a; mret (match r with Ok b => Some b | Err _ => None end))
|}.

(** The journal does not see the names of the transaction. *)
Lemma undo_set_tx d e t o : undo d e (set_tx t o) = set_tx t (undo d e o).
Proof. destruct e; cbn; unfold upd_acct; cbn; try done; by destruct (o_acct o _). Qed.

Lemma undo_all_set_tx d es t o : undo_all d es (set_tx t o) = set_tx t (undo_all d es o).
Proof. revert o. induction es as [|e es IH]; intros o; cbn; [done|]. by rewrite undo_set_tx, IH. Qed.

Lemma valid_set_tx d root es t o : valid d root es o -> valid d root es (set_tx t o).
Proof. revert o. induction es as [|e es IH]; intros o; cbn; [done|]. intros [H1 H2]. rewrite undo_set_tx. split; [by destruct e|by apply IH]. Qed.

Lemma Prepare_wok th bh ti s : wok s -> exists s', Prepare th bh ti s = (Returns tt, s') /\ wok s' /\ wobs s' = set_tx (th, bh, ti) (wobs s).
Proof.
  intros [[c1 c2 c3 c4 c5 c6 c7] H2 H3 H4 H5 H6 H7 H8]. eexists. split; [done|]. split; [|done]. split; try done.
  - by apply (valid_set_tx _ _ _ (th, bh, ti)) in H2.
  - intros a. etrans; [|apply (H8 a)]. change (o_acct (undo_all (db s) (rev (drop 0 (entries (jrnl s)))) (set_tx (th, bh, ti) (wobs s))) a = o_acct (back s 0) a).
    by rewrite undo_all_set_tx.
Qed.

#[export] Instance WorldChainLaws : ChainDBLaws WorldDB WorldView WorldChainDB.
Proof.
  split.
  - intros th bh ti s Hs. destruct (Prepare_wok th bh ti s Hs) as (s' & E & H). exists s'. split; [by apply run_eq|done].
  - intros a s Ha Hs. destruct (core_utxo _ (wok_core _ Hs)) as [m Hm]. exists (Some (m !! a)), s. split; [|done].
    apply run_eq. unfold GetUtxo, on_table, mbind, W_bind, gets. erewrite Get_contents by done. by destruct s.
Qed.

End World.
