(* ===== verification/Chain.v ===== *)
(** * Chain: the blockchain controller (src/core/chain/blockchain.go)

    Blocks that arrive extend the main chain, make or extend a side chain, replace the main chain
    when they are higher, or wait in the pool of orphans for their parent.  Executing a block, the
    records it writes and what consensus and synchronisation answer are the interface [Ledger] of
    this component.  Records of the database are kept in one map per kind of record; that keys of
    different kinds never meet is shown in Keys.v.  Reads and writes of the database do not
    fail.  The LRU caches and the protobuf encoding are third-party code, parameters with their
    documented laws. *)

From S2P Require Import Prelude Effects Crypto Bytes Bloom EvmState Types Receipt Blocks.
Import Blocks.

(** ** Interfaces *)

(** github.com/hashicorp/golang-lru.  [Get] marks the entry as used, [Contains] does not. *)
Class Lru (K V : Type) := {
  lru : Type;
  lru_Get : lru -> K -> option V * lru;
  lru_Contains : lru -> K -> bool;
  lru_Add : lru -> K -> V -> lru;
  lru_Remove : lru -> K -> lru
}.
Arguments lru _ _ {_}.

Class LruLaws (K V : Type) (C : Lru K V) := {
  lru_at : lru K V -> K -> option V;
  lru_Get_at c k : (lru_Get c k).1 = lru_at c k;
  lru_Get_keeps c k k' : lru_at (lru_Get c k).2 k' = lru_at c k';
  lru_Contains_at c k : lru_Contains c k = bool_decide (is_Some (lru_at c k));
  lru_Add_at c k v : lru_at (lru_Add c k v) k = Some v;
  lru_Add_other c k v k' w : k' <> k -> lru_at (lru_Add c k v) k' = Some w -> lru_at c k' = Some w;
  lru_Remove_at c k : lru_at (lru_Remove c k) k = None;
  lru_Remove_other c k k' : k' <> k -> lru_at (lru_Remove c k) k' = lru_at c k'
}.

(** The generated encoding of a block. *)
Class BlockCodec := {
  pb_block_marshal : PbBlock -> option bytes;
  pb_block_unmarshal : bytes -> option PbBlock
}.

Class BlockCodecLaws (B : BlockCodec) : Prop := {
  pb_block_roundtrip m d : pb_block_marshal m = Some d -> pb_block_unmarshal d = Some m
}.

(** What the controller asks of the rest of the node.  [adjustAndValidateState] gets the parent and
    the block and answers with the result and the internal transactions the block ends up with;
    [writeRecords] stands for the receipts, indexes, split transactions and unspent outputs of
    [writeBlockToDB], [revertRecords] for those of [tryDisConnectBlockFromMainChain]: all of them
    are written in one batch or not at all. *)
Class Ledger := {
  ledger : Type;
  ledgerErr : Type;
  execResult : Type;
  validateBlock : Block -> ledger -> option ledgerErr;
  consensus_Verify : Block -> ledger -> option ledgerErr * ledger;
  consensus_Finalize : Block -> ledger -> bool * ledger;
  adjustAndValidateState : Block -> Block -> ledger -> result ledgerErr (execResult * list Transaction) * ledger;
  writeRecords : Block -> execResult -> ledger -> result ledgerErr ledger;
  sealState : execResult -> ledger -> ledger;
  revertRecords : Block -> ledger -> result ledgerErr ledger;
  SetTailState : Block -> ledger -> result ledgerErr ledger;
  ActiveLightSync : string -> ledger -> option ledgerErr * ledger
}.

Inductive ChainErr `{L : Ledger} :=
  | ErrBlockExists | ErrRepeatedMintAtSameTime | ErrParentBlockNotExist | ErrWrongBlockHeight | ErrBlockInSideChain | ErrExpiredBlock
  | ErrNoExecuteResult | ErrBlockMarshal | ErrBlockIsNil | ErrBlockUnmarshal | ErrFailedToSetEternal | ErrLedger (e : ledgerErr).

Inductive TransferMode := DefaultMode | BroadcastMode | RelayMode.

(** What is published on the event bus and sent to other components and peers. *)
Inductive ChainEvent :=
  | ChainUpdate (attach detach : list Block) | DynastyUpdate | StartSync | SendBlock (mode : TransferMode) (b : Block) | NewBlock (b : Block).

Section State.
Context `{L : Ledger} `{BC : Lru bytes Block} `{MC : Lru Z Block}.

Record BlockChain := mkChain {
  c_blocks : gmap bytes bytes;
  c_index : gmap Z bytes;
  c_tailRecord : option bytes;
  c_eternalRecord : option bytes;
  c_ledger : ledger;
  c_genesis : Block;
  c_tail : Block;
  c_eternal : Block;
  c_LongestChainHeight : Z;
  c_blockcache : lru bytes Block;
  c_repeatedMintCache : lru Z Block;
  c_hashToOrphanBlock : gmap bytes Block;
  c_orphanBlockHashToChildren : gmap bytes (list Block);
  c_blockExecuteResults : gmap Z execResult;
  c_events : list ChainEvent
}.

Definition with_blocks (s : BlockChain) v := mkChain v (c_index s) (c_tailRecord s) (c_eternalRecord s) (c_ledger s) (c_genesis s) (c_tail s) (c_eternal s)
  (c_LongestChainHeight s) (c_blockcache s) (c_repeatedMintCache s) (c_hashToOrphanBlock s) (c_orphanBlockHashToChildren s) (c_blockExecuteResults s) (c_events s).
Definition with_index (s : BlockChain) v t := mkChain (c_blocks s) v t (c_eternalRecord s) (c_ledger s) (c_genesis s) (c_tail s) (c_eternal s)
  (c_LongestChainHeight s) (c_blockcache s) (c_repeatedMintCache s) (c_hashToOrphanBlock s) (c_orphanBlockHashToChildren s) (c_blockExecuteResults s) (c_events s).
Definition with_eternal (s : BlockChain) r b := mkChain (c_blocks s) (c_index s) (c_tailRecord s) r (c_ledger s) (c_genesis s) (c_tail s) b
  (c_LongestChainHeight s) (c_blockcache s) (c_repeatedMintCache s) (c_hashToOrphanBlock s) (c_orphanBlockHashToChildren s) (c_blockExecuteResults s) (c_events s).
Definition with_ledger (s : BlockChain) v := mkChain (c_blocks s) (c_index s) (c_tailRecord s) (c_eternalRecord s) v (c_genesis s) (c_tail s) (c_eternal s)
  (c_LongestChainHeight s) (c_blockcache s) (c_repeatedMintCache s) (c_hashToOrphanBlock s) (c_orphanBlockHashToChildren s) (c_blockExecuteResults s) (c_events s).
Definition with_tail (s : BlockChain) b mint := mkChain (c_blocks s) (c_index s) (c_tailRecord s) (c_eternalRecord s) (c_ledger s) (c_genesis s) b (c_eternal s)
  (h_Height (b_Header b)) (c_blockcache s) mint (c_hashToOrphanBlock s) (c_orphanBlockHashToChildren s) (c_blockExecuteResults s) (c_events s).
Definition with_caches (s : BlockChain) v mint := mkChain (c_blocks s) (c_index s) (c_tailRecord s) (c_eternalRecord s) (c_ledger s) (c_genesis s) (c_tail s) (c_eternal s)
  (c_LongestChainHeight s) v mint (c_hashToOrphanBlock s) (c_orphanBlockHashToChildren s) (c_blockExecuteResults s) (c_events s).
Definition with_orphans (s : BlockChain) pool children := mkChain (c_blocks s) (c_index s) (c_tailRecord s) (c_eternalRecord s) (c_ledger s) (c_genesis s) (c_tail s) (c_eternal s)
  (c_LongestChainHeight s) (c_blockcache s) (c_repeatedMintCache s) pool children (c_blockExecuteResults s) (c_events s).
Definition with_results (s : BlockChain) v := mkChain (c_blocks s) (c_index s) (c_tailRecord s) (c_eternalRecord s) (c_ledger s) (c_genesis s) (c_tail s) (c_eternal s)
  (c_LongestChainHeight s) (c_blockcache s) (c_repeatedMintCache s) (c_hashToOrphanBlock s) (c_orphanBlockHashToChildren s) v (c_events s).
Definition with_event (s : BlockChain) e := mkChain (c_blocks s) (c_index s) (c_tailRecord s) (c_eternalRecord s) (c_ledger s) (c_genesis s) (c_tail s) (c_eternal s)
  (c_LongestChainHeight s) (c_blockcache s) (c_repeatedMintCache s) (c_hashToOrphanBlock s) (c_orphanBlockHashToChildren s) (c_blockExecuteResults s) (c_events s ++ [e]).

End State.

Module Chain.

Definition Threshold : Z := 32.
Definition MaxBlocksPerSync : Z := 1024.
Definition SyncFlag : string := "sync".

Abbreviation height b := (h_Height (b_Header b)).

Section Chain.
Context `{L : Ledger} `{BC : Lru bytes Block} `{MC : Lru Z Block} `{C : Crypto} `{HC : HeaderCodec} `{PB : BlockCodec}.

Abbreviation CM := (EM BlockChain ChainErr).

Definition publish (e : ChainEvent) : CM unit := e_modify (fun s => with_event s e).

(** An operation of the rest of the node. *)
Definition on_ledger {A} (op : ledger -> A * ledger) : CM A := fun s => let '(a, l) := op (c_ledger s) in (EOk a, with_ledger s l).

Definition ledger_check (op : ledger -> option ledgerErr * ledger) : CM unit :=
  r ← on_ledger op; match r with Some e => e_fail (ErrLedger e) | None => mret tt end.

Definition ledger_write (op : ledger -> result ledgerErr ledger) : CM unit := fun s =>
  match op (c_ledger s) with Ok l => (EOk tt, with_ledger s l) | Err e => (EErr (ErrLedger e), s) end.

(** ** Blocks in the database and in the cache *)

Definition Marshal (block : Block) : CM bytes :=
  match pb_block_marshal (ToProtoMessage block) with Some d => mret d | None => e_fail ErrBlockMarshal end.

Definition LoadBlockByHash (hash : bytes) : CM Block :=
  r ← e_gets (fun s => c_blocks s !! hash);
  match r with
  | None => e_fail ErrBlockIsNil
  | Some data =>
      match pb_block_unmarshal data with
      | None => e_fail ErrBlockUnmarshal
      | Some m =>
          match FromProtoMessage (Some m) with
          | Panics => e_panic
          | Returns (Err _) => e_fail ErrBlockUnmarshal
          | Returns (Ok block) => mret block
          end
      end
  end.

Definition LoadBlockByHeight (h : Z) : CM Block :=
  if (h =? 0)%Z then e_gets c_genesis
  else
    r ← e_gets (fun s => c_index s !! h);
    match r with
    | None => e_fail ErrBlockIsNil
    | Some hash => LoadBlockByHash hash
    end.

Definition GetBlockHash (h : Z) : CM (option bytes) :=
  if (h =? 0)%Z then e_gets (fun s => BlockHash (c_genesis s))
  else
    r ← e_gets (fun s => c_index s !! h);
    match r with None => e_fail ErrBlockIsNil | Some hash => mret (Some hash) end.

Definition StoreBlock (block : Block) : CM unit :=
  hash ← mret (BlockHash block);
  data ← Marshal block;
  hash ← e_deref hash;
  e_modify (fun s => with_blocks s (<[hash := data]> (c_blocks s))).

Definition RemoveBlock (block : Block) : CM unit :=
  hash ← e_deref (BlockHash block);
  e_modify (fun s => with_blocks s (delete hash (c_blocks s))).

Definition blockcache_Get (hash : bytes) : CM (option Block) := fun s =>
  let '(b, c) := lru_Get (c_blockcache s) hash in (EOk b, with_caches s c (c_repeatedMintCache s)).

Definition repeatedMintCache_Get (t : Z) : CM (option Block) := fun s =>
  let '(b, c) := lru_Get (c_repeatedMintCache s) t in (EOk b, with_caches s (c_blockcache s) c).

Definition blockExists (blockHash : bytes) : CM bool :=
  cached ← e_gets (fun s => lru_Contains (c_blockcache s) blockHash);
  if cached : bool then mret true
  else
    r ← e_try (LoadBlockByHash blockHash);
    mret (match r with Ok _ => true | Err _ => false end).

Definition verifyExists : bytes -> CM bool := blockExists.

Definition verifyRepeatedMint (block : Block) : CM bool :=
  exist ← repeatedMintCache_Get (h_TimeStamp (b_Header block));
  mret (match exist with
        | Some b => negb (bool_decide (h_BookKeeper (b_Header block) = h_BookKeeper (b_Header b)))
        | None => true
        end).

Definition isInOrphanPool (blockHash : bytes) : CM bool := e_gets (fun s => bool_decide (is_Some (c_hashToOrphanBlock s !! blockHash))).

(** [GetParentBlock]; [None] is nil. *)
Definition GetParentBlock (block : Block) : CM (option Block) :=
  genesis ← e_gets c_genesis;
  if bool_decide (b_Hash block = BlockHash genesis) then mret (Some genesis)
  else if bool_decide (Some (h_PrevBlockHash (b_Header block)) = BlockHash genesis) then mret (Some genesis)
  else
    target ← blockcache_Get (h_PrevBlockHash (b_Header block));
    match target with
    | Some b => mret (Some b)
    | None =>
        r ← e_try (LoadBlockByHash (h_PrevBlockHash (b_Header block)));
        mret (match r with Ok b => Some b | Err _ => None end)
    end.

Definition addOrphanBlock (orphan : Block) (orphanHash parentHash : bytes) : CM unit := e_modify (fun s =>
  with_orphans s (<[orphanHash := orphan]> (c_hashToOrphanBlock s))
    (<[parentHash := default [] (c_orphanBlockHashToChildren s !! parentHash) ++ [orphan]]> (c_orphanBlockHashToChildren s))).

(** ** The tail *)

Definition ChangeNewTail (tail : Block) : CM unit :=
  ok ← on_ledger (consensus_Finalize tail);
  if ok : bool then e_modify (fun s => with_tail s tail (lru_Add (c_repeatedMintCache s) (h_TimeStamp (b_Header tail)) tail))
  else e_panic.

(** [tryToClearCache] for one block on either side. *)
Definition cacheBlock (block : Block) : CM unit :=
  hash ← e_deref (BlockHash block);
  e_modify (fun s => with_caches s (lru_Add (c_blockcache s) hash block) (c_repeatedMintCache s)).

Definition uncacheBlock (block : Block) : CM unit :=
  hash ← e_deref (BlockHash block);
  e_modify (fun s => with_caches s (lru_Remove (c_blockcache s) hash) (c_repeatedMintCache s)).

(** [writeBlockToDB]: the block itself is put at once, everything else in a batch. *)
Definition writeBlockToDB (block : Block) (res : execResult) : CM unit :=
  hash ← e_deref (BlockHash block);
  _ ← StoreBlock block;
  _ ← ledger_write (writeRecords block res);
  data ← Marshal block;
  e_modify (fun s => with_index s (<[height block := hash]> (c_index s)) (Some data)).

Definition sealBlock (block : Block) (res : execResult) : CM unit :=
  _ ← writeBlockToDB block res;
  _ ← ChangeNewTail block;
  e_modify (fun s => with_ledger s (sealState res (c_ledger s))).

Definition with_internal (b : Block) (txs : list Transaction) : Block :=
  mkBlock (b_Hash b) (b_Header b) (b_Txs b) txs (b_Signature b) (b_Irreversible b).

(** The result of executing a block, and the block with its internal transactions. *)
Definition executeBlock (block : Block) (messageFrom : string) : CM (execResult * Block) :=
  if bool_decide (messageFrom = EmptyString) then
    r ← e_gets (fun s => c_blockExecuteResults s !! height block);
    match r with
    | None => e_fail ErrNoExecuteResult
    | Some res =>
        _ ← e_modify (fun s => with_results s (delete (height block) (c_blockExecuteResults s)));
        mret (res, block)
    end
  else
    _ ← ledger_check (consensus_Verify block);
    parent ← GetParentBlock block;
    parent ← e_deref parent;
    r ← on_ledger (adjustAndValidateState parent block);
    match r with
    | Err e => e_fail (ErrLedger e)
    | Ok (res, txs) => mret (res, with_internal block txs)
    end.

(** The answer is the block itself, which execution may have changed. *)
Definition tryConnectBlockToMainChain (block : Block) (messageFrom : string) : CM Block :=
  '(res, block) ← executeBlock block messageFrom;
  _ ← sealBlock block res;
  _ ← cacheBlock block;
  _ ← publish (ChainUpdate [block] []);
  _ ← publish (NewBlock block);
  mret block.

Definition tryDisConnectBlockFromMainChain (block : Block) : CM unit :=
  _ ← ledger_write (revertRecords block);
  newTail ← GetParentBlock block;
  newTail ← e_deref newTail;
  data ← Marshal newTail;
  _ ← e_modify (fun s => with_index s (delete (height block) (c_index s)) (Some data));
  _ ← uncacheBlock block;
  _ ← publish (ChainUpdate [] [block]);
  _ ← ChangeNewTail newTail;
  ledger_write (SetTailState newTail).

(** ** Forks *)

(** Down the side chain to the height of the main chain. *)
Fixpoint climb (n : nat) (side : option Block) (attach : list Block) : CM (option Block * list Block) :=
  match n with
  | O => mret (side, attach)
  | S n =>
      b ← e_deref side;
      parent ← GetParentBlock b;
      climb n parent (attach ++ [b])
  end.

(** Down both chains until the blocks are the same. *)
Fixpoint meet (fuel : nat) (main side : option Block) (detach attach : list Block) : CM (Block * list Block * list Block) :=
  match fuel with
  | O => e_fuel
  | S fuel =>
      match main, side with
      | Some m, Some b =>
          if negb (height m =? height b)%Z then e_panic
          else if bool_decide (BlockHash m = BlockHash b) then mret (m, detach, attach)
          else
            m' ← GetParentBlock m;
            b' ← GetParentBlock b;
            meet fuel m' b' (detach ++ [m]) (attach ++ [b])
      | _, _ => e_panic
      end
  end.

Definition findFork (block : Block) : CM (Block * list Block * list Block) :=
  longest ← e_gets c_LongestChainHeight;
  if (height block <=? longest)%Z then e_panic
  else
    '(side, attach) ← climb (Z.to_nat (height block - longest)) (Some block) [];
    tail ← e_gets c_tail;
    '(fork, detach, attach) ← meet (S (Z.to_nat longest)) (Some tail) side [] attach;
    if length attach <=? length detach then e_panic else mret (fork, detach, attach).

Fixpoint removeBlocks (blocks : list Block) : CM unit :=
  match blocks with
  | [] => mret tt
  | b :: blocks =>
      hash ← e_deref (BlockHash b);
      _ ← e_modify (fun s => with_orphans s (delete hash (c_hashToOrphanBlock s)) (delete hash (c_orphanBlockHashToChildren s)));
      _ ← RemoveBlock b;
      removeBlocks blocks
  end.

Fixpoint disconnectAll (blocks : list Block) : CM unit :=
  match blocks with
  | [] => mret tt
  | b :: blocks => _ ← e_must (tryDisConnectBlockFromMainChain b); disconnectAll blocks
  end.

Fixpoint reconnectAll (blocks : list Block) (messageFrom : string) : CM unit :=
  match blocks with
  | [] => mret tt
  | b :: blocks =>
      _ ← publish DynastyUpdate;
      _ ← e_must (tryConnectBlockToMainChain b messageFrom);
      reconnectAll blocks messageFrom
  end.

(** Connect the blocks of the side chain from the fork upwards; [connected] are those that are in,
    the latest first.  An error takes the node back to the old chain. *)
Fixpoint attachAll (todo connected detached : list Block) (messageFrom : string) : CM (list Block) :=
  match todo with
  | [] => mret connected
  | b :: todo =>
      _ ← publish DynastyUpdate;
      r ← e_try (tryConnectBlockToMainChain b messageFrom);
      match r with
      | Ok b => attachAll todo (b :: connected) detached messageFrom
      | Err e =>
          _ ← disconnectAll connected;
          _ ← reconnectAll (rev detached) messageFrom;
          e_fail e
      end
  end.

(** The answer is again the block as it is now. *)
Definition reorganize (block : Block) (messageFrom : string) : CM Block :=
  '(forkpoint, detachBlocks, attachBlocks) ← findFork block;
  eternal ← e_gets c_eternal;
  if (height forkpoint <? height eternal)%Z then _ ← removeBlocks attachBlocks; mret block
  else
    _ ← disconnectAll detachBlocks;
    connected ← attachAll (rev attachBlocks) [] detachBlocks messageFrom;
    mret (default block (head connected)).

(** ** Accepting blocks *)

(** [tryAcceptBlock]; [orphans] is [processOrphans], which calls this function again. *)
Definition tryAcceptBlock (orphans : Block -> CM unit) (block : Block) (messageFrom : string) : CM Block :=
  parent ← GetParentBlock block;
  match parent with
  | None => e_fail ErrParentBlockNotExist
  | Some parent =>
      if negb (height block =? u32 (height parent + 1))%Z then e_fail ErrWrongBlockHeight
      else
        tail ← e_gets c_tail;
        if bool_decide (Some (h_PrevBlockHash (b_Header block)) = BlockHash tail) then tryConnectBlockToMainChain block messageFrom
        else
          longest ← e_gets c_LongestChainHeight;
          eternal ← e_gets c_eternal;
          if (height block <=? longest)%Z then
            if (height eternal <? height block)%Z then
              _ ← StoreBlock block;
              _ ← orphans block;
              e_fail ErrBlockInSideChain
            else e_fail ErrExpiredBlock
          else reorganize block messageFrom
  end.

(** The orphans whose parent has just been accepted. *)
Fixpoint acceptChildren (accept : Block -> CM Block) (children : list Block) : CM unit :=
  match children with
  | [] => mret tt
  | orphan :: children =>
      orphanHash ← e_deref (BlockHash orphan);
      _ ← e_modify (fun s => with_orphans s (delete orphanHash (c_hashToOrphanBlock s)) (c_orphanBlockHashToChildren s));
      _ ← accept orphan;
      acceptChildren accept children
  end.

(** [processOrphans] with the accepted blocks still to look at. *)
Fixpoint processOrphans (fuel : nat) (acceptedBlocks : list Block) (messageFrom : string) : CM unit :=
  match fuel with
  | O => e_fuel
  | S fuel =>
      match acceptedBlocks with
      | [] => mret tt
      | acceptedBlock :: acceptedBlocks =>
          acceptedBlockHash ← e_deref (BlockHash acceptedBlock);
          childOrphans ← e_gets (fun s => default [] (c_orphanBlockHashToChildren s !! acceptedBlockHash));
          _ ← acceptChildren (fun b => tryAcceptBlock (fun b => processOrphans fuel [b] messageFrom) b messageFrom) childOrphans;
          _ ← e_modify (fun s => with_orphans s (c_hashToOrphanBlock s) (delete acceptedBlockHash (c_orphanBlockHashToChildren s)));
          processOrphans fuel (acceptedBlocks ++ childOrphans) messageFrom
      end
  end.

(** What to do about a block whose parent is not known. *)
Definition askForParents (block : Block) (messageFrom : string) : CM unit :=
  h ← e_gets (fun s => height (c_tail s));
  if (h <? height block)%Z && negb (bool_decide (messageFrom = SyncFlag)) then
    if (u32 (height block - h) <? Threshold)%Z then ledger_check (ActiveLightSync messageFrom)
    else publish StartSync
  else mret tt.

(** [BlockHash] keeps the hash it has computed in the block. *)
Definition with_hash (b : Block) : Block := mkBlock (BlockHash b) (b_Header b) (b_Txs b) (b_InternalTxs b) (b_Signature b) (b_Irreversible b).

(** More than the turns that [processOrphans] can take. *)
Definition orphanFuel (s : BlockChain) : nat := S (S (length (concat (map_to_list (c_orphanBlockHashToChildren s)).*2))).

Definition ProcessBlock (block : Block) (transferMode : TransferMode) (messageFrom : string) : CM unit :=
  block ← mret (with_hash block);
  blockHash ← e_deref (BlockHash block);
  exists_ ← verifyExists blockHash;
  if exists_ : bool then e_fail ErrBlockExists
  else
    ok ← verifyRepeatedMint block;
    if negb ok then e_fail ErrRepeatedMintAtSameTime
    else
      _ ← ledger_check (fun l => (validateBlock block l, l));
      let prevHash := h_PrevBlockHash (b_Header block) in
      prevHashExists ← blockExists prevHash;
      if negb prevHashExists then
        inPool ← isInOrphanPool blockHash;
        if inPool : bool then mret tt
        else _ ← addOrphanBlock block blockHash prevHash; askForParents block messageFrom
      else
        fuel ← e_gets orphanFuel;
        block ← tryAcceptBlock (fun b => processOrphans fuel [b] messageFrom) block messageFrom;
        _ ← processOrphans fuel [block] messageFrom;
        publish (SendBlock transferMode block).

(** ** Final blocks *)

Definition SetEternal (block : Block) : CM unit :=
  eternal ← e_gets c_eternal;
  if (height eternal <? height block)%Z then
    data ← Marshal block;
    e_modify (fun s => with_eternal s (Some data) block)
  else e_fail ErrFailedToSetEternal.

End Chain.
End Chain.
