(* ===== verification/ChainFacts.v ===== *)
(** * ChainFacts: the main chain

    The blocks in play have distinct hashes ([universe]); a good state has a main chain of stored
    blocks from the tail to the genesis block, with its index of heights ([main]).  Every method
    of the controller keeps it, whatever it answers, and a chain above a block that is final is
    never left. *)

From S2P Require Import Prelude Effects Crypto Bytes Bloom EvmState Types Receipt Blocks Chain.
Import Blocks Chain.

(** ** Stored blocks *)

Lemma txs_decode txs : exists txs', txs_FromProtoMessage (map (fun t => Some (Types.Transaction_ToProtoMessage t)) txs) = Ok txs'.
Proof.
  induction txs as [|tx txs [txs' IH]]; [by exists []|]. cbn [map txs_FromProtoMessage]. rewrite IH. unfold Types.Transaction_FromProtoMessage, Types.Transaction_ToProtoMessage. cbn [pb_Vin].
  assert (exists vins, Types.vins_FromProtoMessage (map (fun v => Some (Types.TxIn_ToProtoMessage v)) (Vin tx)) = Ok vins) as [vins ->].
  { induction (Vin tx) as [|i l [vins IHl]]; [by exists []|]. cbn. rewrite IHl. eauto. }
  cbn. eauto.
Qed.

Section Hash.
Context `{C : Crypto} `{HC : HeaderCodec}.

Abbreviation prev b := (h_PrevBlockHash (b_Header b)).

Lemma decode_block b : header_ok (b_Header b) -> exists b', FromProtoMessage (Some (ToProtoMessage b)) = Returns (Ok b') /\
  b_Hash b' = calcBlockHash (b_Header b) /\ b_Header b' = with_bloom (b_Header b) (default Receipt.emptyBloom (h_Bloom (b_Header b))).
Proof.
  intros Hh. unfold FromProtoMessage, ToProtoMessage. cbn [pbb_Header pbb_Txs pbb_InternalTxs pbb_Signature pbb_Irreversible].
  rewrite header_roundtrip by done. destruct (txs_decode (b_Txs b)) as [txs Et], (txs_decode (b_InternalTxs b)) as [itxs Ei].
  cbn [mbind go_bind result_bind]. rewrite Et. cbn [mbind result_bind]. rewrite Ei. eexists. split; [done|]. split; done.
Qed.

(** ** The blocks in play *)

(** A hash with the parent's hash and the height of its block. *)
Record universe (U : bytes -> bytes -> Z -> Prop) : Prop := mk_universe {
  u_link k p h p' h' : U k p h -> U k p' h' -> p = p' /\ h = h';
  u_height k p h : U k p h -> (0 <= h < 2 ^ 32 - 1)%Z
}.

Context (U : bytes -> bytes -> Z -> Prop).

Record known (b : Block) (k : bytes) : Prop := mk_known {
  kn_header : header_ok (b_Header b);
  kn_hash : b_Hash b = Some k;
  kn_calc : calcBlockHash (b_Header b) = Some k;
  kn_link : U k (prev b) (height b)
}.

Lemma known_decoded b k b' : known b k -> b_Hash b' = calcBlockHash (b_Header b) ->
  b_Header b' = with_bloom (b_Header b) (default Receipt.emptyBloom (h_Bloom (b_Header b))) -> known b' k.
Proof.
  intros [[Hh Hk Hb] H2 H3 H4] E1 E2. split; rewrite ?E2.
  - split; [done|done|]. intros bf [= <-]. destruct (h_Bloom (b_Header b)) as [x|]; [by apply Hb|apply emptyBloom_sized].
  - by rewrite E1.
  - by destruct (b_Header b).
  - done.
Qed.

Lemma known_BlockHash b k : known b k -> BlockHash b = Some k.
Proof. intros H. unfold BlockHash. by rewrite (kn_hash _ _ H). Qed.

Lemma known_internal b k txs : known b k -> known (with_internal b txs) k.
Proof. by intros [H1 H2 H3 H4]. Qed.

(** A block one above its parent. *)
Definition linked (k : bytes) : Prop := exists p h p', U k p h /\ U p p' (h - 1)%Z.

End Hash.

(** ** Good states *)

Section Good.
Context `{L : Ledger} `{BC : Lru bytes Block} {BCL : LruLaws bytes Block BC} `{MC : Lru Z Block} `{C : Crypto} `{HC : HeaderCodec} `{PB : BlockCodec} {PBL : BlockCodecLaws PB}.
Context (U : bytes -> bytes -> Z -> Prop) (HU : universe U) (g : Block) (gk : bytes).

Abbreviation prev b := (h_PrevBlockHash (b_Header b)).

Definition placed (k : bytes) : Prop := k = gk \/ linked U k.

Record store_ok (s : BlockChain) : Prop := mk_store_ok {
  so_genesis : c_genesis s = g /\ known U g gk /\ height g = 0%Z;
  so_blocks k d : c_blocks s !! k = Some d -> placed k /\ exists b, known U b k /\ pb_block_marshal (ToProtoMessage b) = Some d;
  so_cache k b : lru_at (c_blockcache s) k = Some b -> placed k /\ known U b k;
  so_children k l : c_orphanBlockHashToChildren s !! k = Some l -> Forall (fun b => (exists k', known U b k') /\ prev b = k) l
}.

(** The hashes of a chain, the latest first, and the height of the first. *)
Inductive path : list bytes -> Z -> Prop :=
  | path_genesis : path [gk] 0
  | path_step k p h ks : U k p h -> path (p :: ks) (h - 1) -> path (k :: p :: ks) h.

Record main (s : BlockChain) (ks : list bytes) : Prop := mk_main {
  ma_store : store_ok s;
  ma_tail : exists k rest, ks = k :: rest /\ known U (c_tail s) k;
  ma_longest : c_LongestChainHeight s = height (c_tail s);
  ma_path : path ks (height (c_tail s));
  ma_stored : Forall (fun k => k = gk \/ is_Some (c_blocks s !! k)) ks;
  ma_index i : (1 <= i)%Z -> c_index s !! i = if (i <=? height (c_tail s))%Z then ks !! Z.to_nat (height (c_tail s) - i) else None
}.

(** What is not looked at may change. *)
Record frame (s s' : BlockChain) : Prop := mk_frame {
  fr_blocks : c_blocks s' = c_blocks s;
  fr_index : c_index s' = c_index s;
  fr_genesis : c_genesis s' = c_genesis s;
  fr_tail : c_tail s' = c_tail s;
  fr_eternal : c_eternal s' = c_eternal s;
  fr_longest : c_LongestChainHeight s' = c_LongestChainHeight s;
  fr_children : c_orphanBlockHashToChildren s' = c_orphanBlockHashToChildren s;
  fr_cache k : lru_at (c_blockcache s') k = lru_at (c_blockcache s) k
}.

Lemma chain_frame_refl s : frame s s.
Proof. done. Qed.

Lemma chain_frame_trans s1 s2 s3 : frame s1 s2 -> frame s2 s3 -> frame s1 s3.
Proof. intros [] []. split; intros; congruence. Qed.

Lemma frame_store s s' : frame s s' -> store_ok s -> store_ok s'.
Proof.
  intros [F1 F2 F3 F4 F5 F6 F7 F8] [H1 H2 H3 H4]. split.
  - by rewrite F3.
  - intros k d. rewrite F1. apply H2.
  - intros k b. rewrite F8. apply H3.
  - intros k l. rewrite F7. apply H4.
Qed.

Lemma frame_main s s' ks : frame s s' -> main s ks -> main s' ks.
Proof.
  intros F [H1 H2 H3 H4 H5 H6]. pose proof (frame_store _ _ F H1). destruct F as [F1 F2 F3 F4 F5 F6 F7 F8].
  split; [done|rewrite ?F1, ?F2, ?F4, ?F6; done..|]. intros i. rewrite F2, F4. apply H6.
Qed.

(** Paths. *)
Lemma path_head k ks h : (exists p, U gk p 0%Z) -> path (k :: ks) h -> exists p, U k p h.
Proof. intros Hg Hp. inversion Hp; subst; [done|eauto]. Qed.

Lemma path_length ks h : path ks h -> Z.of_nat (length ks) = (h + 1)%Z /\ (0 <= h)%Z.
Proof. induction 1 as [|k p h ks Hk Hp [IH1 IH2]]; cbn in *; lia. Qed.

Lemma path_lookup ks h j k : (exists p, U gk p 0%Z) -> path ks h -> ks !! j = Some k -> exists p, U k p (h - Z.of_nat j)%Z.
Proof.
  intros Hg Hp. revert j. induction Hp as [|k0 p h ks Hk Hp IH]; intros [|j] Hj; cbn in Hj.
  - injection Hj as <-. by replace (0 - Z.of_nat 0)%Z with 0%Z by lia.
  - done.
  - injection Hj as <-. exists p. by replace (h - Z.of_nat 0)%Z with h by lia.
  - destruct (IH j Hj) as [p' H]. exists p'. by replace (h - Z.of_nat (S j))%Z with (h - 1 - Z.of_nat j)%Z by lia.
Qed.

Lemma path_next ks h j k p : path ks h -> ks !! j = Some k -> ks !! S j = Some p -> exists h', U k p h'.
Proof.
  intros Hp. revert j. induction Hp as [|k0 p0 h ks Hk Hp IH]; intros [|j] H1 H2; cbn in *; try done; [|by eapply IH].
  injection H1 as <-. injection H2 as <-. eauto.
Qed.

Lemma path_tl k p ks h : path (k :: p :: ks) h -> U k p h /\ path (p :: ks) (h - 1).
Proof. intros Hp. by inversion Hp; subst. Qed.

(** ** Loading *)

Lemma ewp_load k (Q : Block -> BlockChain -> Prop) R s : store_ok s ->
  (c_blocks s !! k = None -> R ErrBlockIsNil s) -> (forall b, known U b k -> placed k -> Q b s) -> ewp (LoadBlockByHash k) Q R s.
Proof.
  intros Hs HR HQ. unfold LoadBlockByHash. apply ewp_bind, ewp_gets. destruct (c_blocks s !! k) as [d|] eqn:E; [|by apply ewp_fail, HR].
  destruct (so_blocks _ Hs _ _ E) as (Hp & b & Hb & Hd). rewrite (pb_block_roundtrip _ _ Hd).
  destruct (decode_block b (kn_header _ _ _ Hb)) as (b' & -> & E1 & E2). apply ewp_ret, HQ; [|done]. by eapply known_decoded.
Qed.

Lemma frame_caches s c : (forall k, lru_at c k = lru_at (c_blockcache s) k) -> frame s (with_caches s c (c_repeatedMintCache s)).
Proof. by split. Qed.

(** The parent of a block: the genesis block is its own. *)
Definition parent_of (s : BlockChain) (b : Block) (k : bytes) (p : option Block) : Prop :=
  match p with
  | Some p => (k = gk /\ p = g) \/ (known U p (prev b) /\ placed (prev b))
  | None => prev b <> gk /\ c_blocks s !! prev b = None
  end.

Lemma ewp_parent b k (Q : option Block -> BlockChain -> Prop) R s : store_ok s -> known U b k ->
  (forall p s', frame s s' -> parent_of s b k p -> Q p s') -> ewp (GetParentBlock b) Q R s.
Proof.
  intros Hs Hb HQ. destruct (so_genesis _ Hs) as (Eg & Hg & _). unfold GetParentBlock. apply ewp_bind, ewp_gets. rewrite Eg, (known_BlockHash _ _ _ Hg), (kn_hash _ _ _ Hb).
  case_bool_decide as E1; [injection E1 as ->; apply ewp_ret, HQ; [done|by left]|].
  case_bool_decide as E2; [injection E2 as E2; apply ewp_ret, HQ; [done|right; rewrite E2; split; [done|by left]]|].
  apply ewp_bind. unfold ewpf at 1, blockcache_Get. destruct (lru_Get (c_blockcache s) (prev b)) as [o c] eqn:Eo.
  assert (o = lru_at (c_blockcache s) (prev b)) as -> by (by rewrite <- lru_Get_at, Eo).
  assert (frame s (with_caches s c (c_repeatedMintCache s))) as F.
  { apply frame_caches. intros k'. by rewrite <- (lru_Get_keeps (c_blockcache s) (prev b) k'), Eo. }
  destruct (lru_at (c_blockcache s) (prev b)) as [p|] eqn:Ec.
  { apply ewp_ret, HQ; [done|]. right. by destruct (so_cache _ Hs _ _ Ec). }
  apply ewp_bind, ewp_try. apply ewp_load; [by apply (frame_store s)|..].
  - intros En. apply ewp_ret, HQ; [done|]. split; [congruence|done].
  - intros p Hp Hpl. apply ewp_ret, HQ; [done|]. by right.
Qed.

(** ** Growing and shrinking *)

Lemma main_genesis s ks : main s ks -> exists p, U gk p 0%Z.
Proof. intros H. destruct (so_genesis _ (ma_store _ _ H)) as (_ & Hg & <-). exists (prev g). apply Hg. Qed.

Lemma main_store_block s ks b k d : main s ks -> known U b k -> placed k -> pb_block_marshal (ToProtoMessage b) = Some d ->
  main (with_blocks s (<[k := d]> (c_blocks s))) ks.
Proof.
  intros [[S1 S2 S3 S4] H2 H3 H4 H5 H6] Hb Hp Hd. split; [split|..]; try done.
  - intros k' d'. cbn. intros [[<- <-]|[_ E]]%lookup_insert_Some; [eauto|by apply S2].
  - eapply Forall_impl; [exact H5|]. intros k' [->|[x Hx]]; [by left|]. right. cbn. destruct (decide (k = k')) as [<-|]; [rewrite lookup_insert_eq; eauto|rewrite lookup_insert_ne by done; eauto].
Qed.

Lemma main_cache s ks b k : main s ks -> known U b k -> placed k ->
  main (with_caches s (lru_Add (c_blockcache s) k b) (c_repeatedMintCache s)) ks.
Proof.
  intros [[S1 S2 S3 S4] H2 H3 H4 H5 H6] Hb Hp. split; [split|..]; try done. intros k' b' E. cbn in E. destruct (decide (k' = k)) as [->|Hne].
  - rewrite lru_Add_at in E. injection E as <-. done.
  - apply S3. by eapply lru_Add_other.
Qed.

Lemma main_uncache s ks k : main s ks -> main (with_caches s (lru_Remove (c_blockcache s) k) (c_repeatedMintCache s)) ks.
Proof.
  intros [[S1 S2 S3 S4] H2 H3 H4 H5 H6]. split; [split|..]; try done. intros k' b' E. cbn in E. destruct (decide (k' = k)) as [->|Hne].
  - by rewrite lru_Remove_at in E.
  - apply S3. by rewrite lru_Remove_other in E.
Qed.

(** The same but for the index and the tail. *)
Record moved (s s' : BlockChain) (index : gmap Z bytes) (b : Block) : Prop := mk_moved {
  mo_blocks : c_blocks s' = c_blocks s;
  mo_index : c_index s' = index;
  mo_genesis : c_genesis s' = c_genesis s;
  mo_tail : c_tail s' = b;
  mo_longest : c_LongestChainHeight s' = height b;
  mo_children : c_orphanBlockHashToChildren s' = c_orphanBlockHashToChildren s;
  mo_cache k : lru_at (c_blockcache s') k = lru_at (c_blockcache s) k
}.

Lemma moved_store s s' index b : moved s s' index b -> store_ok s -> store_ok s'.
Proof.
  intros [F1 F2 F3 F4 F5 F6 F7] [H1 H2 H3 H4]. split.
  - by rewrite F3.
  - intros k d. rewrite F1. apply H2.
  - intros k b'. rewrite F7. apply H3.
  - intros k l. rewrite F6. apply H4.
Qed.

Lemma linked_height b k t kt : known U b k -> linked U k -> known U t kt -> prev b = kt -> height b = (height t + 1)%Z.
Proof.
  intros Hb (p & h & p' & H1 & H2) Ht E. destruct (u_link _ HU _ _ _ _ _ (kn_link _ _ _ Hb) H1) as [<- ->].
  rewrite E in H2. destruct (u_link _ HU _ _ _ _ _ (kn_link _ _ _ Ht) H2) as [_ ->]. lia.
Qed.

Lemma main_extend s s' b k ks : main s ks -> known U b k -> linked U k -> head ks = Some (prev b) -> is_Some (c_blocks s !! k) ->
  moved s s' (<[height b := k]> (c_index s)) b -> main s' (k :: ks).
Proof.
  intros [H1 H2 H3 H4 H5 H6] Hb Hl Hks Hst Hm. pose proof (moved_store _ _ _ _ Hm H1) as Hs'. destruct Hm as [F1 F2 F3 F4 F5 F6 F7].
  destruct H2 as (kt & rest & -> & Ht). injection Hks as Hks. pose proof (linked_height _ _ _ _ Hb Hl Ht (eq_sym Hks)) as Eh. rewrite Hks in *.
  split; rewrite ?F1, ?F4; try done.
  - eauto.
  - apply path_step; [apply Hb|]. by replace (height b - 1)%Z with (height (c_tail s)) by lia.
  - constructor; [by right|done].
  - intros i Hi. rewrite F2. destruct (path_length _ _ H4) as [_ H0]. destruct (decide (i = height b)) as [->|Hne].
    { rewrite lookup_insert_eq, Z.leb_refl. by replace (Z.to_nat (height b - height b)) with 0 by lia. }
    rewrite lookup_insert_ne by done. rewrite H6 by done. destruct (Z.leb_spec i (height (c_tail s))), (Z.leb_spec i (height b)); try lia; [|done].
    by replace (Z.to_nat (height b - i)) with (S (Z.to_nat (height (c_tail s) - i))) by lia.
Qed.

Lemma main_shrink s s' t k kt ks : main s (k :: kt :: ks) -> known U t kt ->
  moved s s' (delete (height (c_tail s)) (c_index s)) t -> main s' (kt :: ks).
Proof.
  intros Hmain Ht Hm. pose proof (main_genesis _ _ Hmain) as Hg. destruct Hmain as [H1 H2 H3 H4 H5 H6]. pose proof (moved_store _ _ _ _ Hm H1) as Hs'. destruct Hm as [F1 F2 F3 F4 F5 F6 F7].
  destruct (path_tl _ _ _ _ H4) as [Hk Hp]. destruct (path_head _ _ _ Hg Hp) as [p' Hp'].
  destruct (u_link _ HU _ _ _ _ _ Hp' (kn_link _ _ _ Ht)) as [_ Eh]. split; rewrite ?F1, ?F4; try done.
  - eauto.
  - by rewrite <- Eh.
  - by apply Forall_inv_tail in H5.
  - intros i Hi. rewrite F2. destruct (path_length _ _ Hp) as [_ H0]. destruct (decide (i = height (c_tail s))) as [->|Hne].
    { rewrite lookup_delete_eq. destruct (Z.leb_spec (height (c_tail s)) (height t)); [lia|done]. }
    rewrite lookup_delete_ne by done. rewrite H6 by done. destruct (Z.leb_spec i (height (c_tail s))), (Z.leb_spec i (height t)); try lia; [|done].
    by replace (Z.to_nat (height (c_tail s) - i)) with (S (Z.to_nat (height t - i))) by lia.
Qed.

(** ** Connecting and disconnecting *)

(** The final block stays; orphans may leave the pool. *)
Definition kept (s s' : BlockChain) : Prop := c_eternal s' = c_eternal s /\ c_orphanBlockHashToChildren s' ⊆ c_orphanBlockHashToChildren s.

Lemma kept_refl s : kept s s.
Proof. done. Qed.
Lemma kept_trans s1 s2 s3 : kept s1 s2 -> kept s2 s3 -> kept s1 s3.
Proof. intros [E1 H1] [E2 H2]. split; [congruence|by etrans]. Qed.
Lemma frame_kept s s' : frame s s' -> kept s s'.
Proof. intros F. split; [apply F|by rewrite (fr_children _ _ F)]. Qed.

Lemma frame_ledger s l : frame s (with_ledger s l).
Proof. by split. Qed.
Lemma frame_event s e : frame s (with_event s e).
Proof. by split. Qed.
Lemma frame_results s r : frame s (with_results s r).
Proof. by split. Qed.

Lemma ewp_publish e (Q : unit -> BlockChain -> Prop) R s : (forall s', frame s s' -> Q tt s') -> ewp (publish e) Q R s.
Proof. intros HQ. apply ewp_modify, HQ, frame_event. Qed.

Lemma ewp_on_ledger {A} (op : ledger -> A * ledger) (Q : A -> BlockChain -> Prop) R s : (forall a s', frame s s' -> Q a s') -> ewp (on_ledger op) Q R s.
Proof. intros HQ. unfold ewpf, on_ledger. destruct (op (c_ledger s)) as [a l]. apply HQ, frame_ledger. Qed.

Lemma ewp_ledger_write op (Q : unit -> BlockChain -> Prop) (R : ChainErr -> BlockChain -> Prop) s :
  (forall s', frame s s' -> Q tt s') -> (forall e, R e s) -> ewp (ledger_write op) Q R s.
Proof. intros HQ HR. unfold ewpf, ledger_write. destruct (op (c_ledger s)) as [l|e]; [apply HQ, frame_ledger|apply HR]. Qed.

Lemma ewp_ledger_check op (Q : unit -> BlockChain -> Prop) (R : ChainErr -> BlockChain -> Prop) s :
  (forall s', frame s s' -> Q tt s') -> (forall e s', frame s s' -> R e s') -> ewp (ledger_check op) Q R s.
Proof. intros HQ HR. unfold ledger_check. apply ewp_bind, ewp_on_ledger. intros [e|] s' F; [by apply ewp_fail, HR|by apply ewp_ret, HQ]. Qed.

Lemma ewp_marshal b (Q : bytes -> BlockChain -> Prop) (R : ChainErr -> BlockChain -> Prop) s :
  (forall d, pb_block_marshal (ToProtoMessage b) = Some d -> Q d s) -> (forall e, R e s) -> ewp (Marshal b) Q R s.
Proof. intros HQ HR. unfold Marshal. destruct (pb_block_marshal _) as [d|]; [by apply ewp_ret, HQ|by apply ewp_fail, HR]. Qed.

Lemma ewp_StoreBlock b k ks (Q : unit -> BlockChain -> Prop) (R : ChainErr -> BlockChain -> Prop) s :
  main s ks -> known U b k -> placed k -> (forall s', main s' ks -> kept s s' -> is_Some (c_blocks s' !! k) -> Q tt s') -> (forall e, R e s) -> ewp (StoreBlock b) Q R s.
Proof.
  intros Hm Hb Hp HQ HR. unfold StoreBlock. apply ewp_bind, ewp_ret, ewp_bind, ewp_marshal; [|done]. intros d Hd.
  apply ewp_bind, ewp_deref. rewrite (known_BlockHash _ _ _ Hb). intros k' [= <-]. apply ewp_modify, HQ; [by eapply main_store_block|done|]. cbn. rewrite lookup_insert_eq. eauto.
Qed.

Lemma ewp_executeBlock b k from (Q : execResult * Block -> BlockChain -> Prop) (R : ChainErr -> BlockChain -> Prop) s : store_ok s -> known U b k ->
  (forall res b' s', frame s s' -> known U b' k -> b_Header b' = b_Header b -> Q (res, b') s') -> (forall e s', frame s s' -> R e s') -> ewp (executeBlock b from) Q R s.
Proof.
  intros Hs Hb HQ HR. unfold executeBlock. case_bool_decide.
  - apply ewp_bind, ewp_gets. destruct (_ !! _) as [res|]; [|by apply ewp_fail, HR]. apply ewp_bind, ewp_modify, ewp_ret, HQ; [apply frame_results|done|done].
  - apply ewp_bind, ewp_ledger_check; [|done]. intros s1 F1. apply ewp_bind. eapply ewp_parent; [by eapply frame_store|done|]. intros p s2 F2 _.
    apply ewp_bind, ewp_deref. intros q _. apply ewp_bind, ewp_on_ledger. intros r s3 F3.
    assert (frame s s3) as F by (by do 2 (eapply chain_frame_trans; [eassumption|])). destruct r as [[res txs]|e]; [|by apply ewp_fail, HR].
    apply ewp_ret, HQ; [done|by apply known_internal|done].
Qed.

Lemma ewp_connect b k from s ks : main s ks -> known U b k -> linked U k -> head ks = Some (prev b) ->
  ewp (tryConnectBlockToMainChain b from) (fun b' s' => main s' (k :: ks) /\ kept s s' /\ known U b' k /\ b_Header b' = b_Header b) (fun _ s' => main s' ks /\ kept s s') s.
Proof.
  intros Hm Hb Hl Hks. unfold tryConnectBlockToMainChain. apply ewp_bind. eapply ewp_executeBlock; [apply Hm|done| |].
  2: { intros e s' F. split; [by eapply frame_main|by apply frame_kept]. }
  intros res b' s1 F1 Hb' Eh. pose proof (frame_main _ _ _ F1 Hm) as Hm1. rewrite <- Eh in Hks. unfold sealBlock, writeBlockToDB.
  apply ewp_bind, ewp_bind, ewp_bind, ewp_deref. rewrite (known_BlockHash _ _ _ Hb'). intros k' [= <-].
  assert (forall s2, main s2 ks -> kept s1 s2 -> main s2 ks /\ kept s s2) as Hfail.
  { intros s2 Hm2 Hk2. split; [done|]. eapply kept_trans; [by apply frame_kept|done]. }
  apply ewp_bind. eapply (ewp_StoreBlock b' k ks); [done|done|by right| |intros e; by apply Hfail].
  intros s2 Hm2 Hk2 Hst. apply ewp_bind, ewp_ledger_write; [|intros e; by apply Hfail]. intros s3 F3. pose proof (frame_main _ _ _ F3 Hm2) as Hm3.
  assert (kept s1 s3) as Hk3 by (eapply kept_trans; [done|by apply frame_kept]).
  apply ewp_bind, ewp_marshal; [|intros e; by apply Hfail]. intros d Hd. apply ewp_modify. unfold ChangeNewTail.
  apply ewp_bind, ewp_bind, ewp_on_ledger. intros ok s4 F4. destruct ok; [|by apply ewp_panic]. apply ewp_modify, ewp_modify.
  set (s5 := with_ledger _ _). assert (main s5 (k :: ks)) as Hm5.
  { apply (main_extend s3 _ b'); [done|done|done|done|by rewrite (fr_blocks _ _ F3)|]. destruct F4. by split. }
  assert (kept s s5) as Hk5.
  { eapply kept_trans; [by apply frame_kept|]. eapply kept_trans; [exact Hk3|]. split; cbn; [apply F4|by rewrite (fr_children _ _ F4)]. }
  apply ewp_bind. unfold cacheBlock. apply ewp_bind, ewp_deref. rewrite (known_BlockHash _ _ _ Hb'). intros k' [= <-]. apply ewp_modify.
  assert (main (with_caches s5 (lru_Add (c_blockcache s5) k b') (c_repeatedMintCache s5)) (k :: ks)) as Hm6 by (apply main_cache; [done|done|by right]).
  apply ewp_bind, ewp_publish. intros s7 F7. apply ewp_bind, ewp_publish. intros s8 F8. apply ewp_ret. split_and!; [by eapply frame_main, frame_main| |done|done].
  do 2 (eapply kept_trans; [|by apply frame_kept]). done.
Qed.

Lemma path_linked k ks h : path (k :: ks) h -> k <> gk -> (exists p, U gk p 0%Z) -> linked U k /\ exists p rest, ks = p :: rest /\ U k p h.
Proof.
  intros Hp Hne Hg. inversion Hp as [|? p ? rest Hk Hp']; subst; [done|]. destruct (path_head _ _ _ Hg Hp') as [p' Hp'']. split; [|eauto].
  exists p, h, p'. done.
Qed.

Lemma path_above_genesis k p ks h : path (k :: p :: ks) h -> (exists p, U gk p 0%Z) -> k <> gk.
Proof.
  intros Hp [q Hq] ->. destruct (path_tl _ _ _ _ Hp) as [Hk Hp']. destruct (u_link _ HU _ _ _ _ _ Hq Hk) as [_ <-]. destruct (path_length _ _ Hp'). lia.
Qed.

Lemma ewp_disconnect b k kt ks s : main s (k :: kt :: ks) -> known U b k ->
  ewp (tryDisConnectBlockFromMainChain b) (fun _ s' => main s' (kt :: ks) /\ kept s s') (fun _ _ => True) s.
Proof.
  intros Hm Hb. pose proof (main_genesis _ _ Hm) as Hg. pose proof (path_above_genesis _ _ _ _ (ma_path _ _ Hm) Hg) as Hne.
  destruct (path_tl _ _ _ _ (ma_path _ _ Hm)) as [Hk Hp]. destruct (u_link _ HU _ _ _ _ _ (kn_link _ _ _ Hb) Hk) as [Eprev Eh].
  unfold tryDisConnectBlockFromMainChain. apply ewp_bind, ewp_ledger_write; [|done]. intros s1 F1. pose proof (frame_main _ _ _ F1 Hm) as Hm1.
  apply ewp_bind. eapply ewp_parent; [apply Hm1|done|]. intros p s2 F2 Hpar. pose proof (frame_main _ _ _ F2 Hm1) as Hm2.
  apply ewp_bind, ewp_deref. intros t ->. destruct Hpar as [[? _]|[Ht _]]; [done|]. rewrite Eprev in Ht.
  apply ewp_bind, ewp_marshal; [|done]. intros d Hd. apply ewp_bind, ewp_modify, ewp_bind. unfold uncacheBlock.
  apply ewp_bind, ewp_deref. rewrite (known_BlockHash _ _ _ Hb). intros k' [= <-]. apply ewp_modify. apply ewp_bind, ewp_publish. intros s4 F4.
  apply ewp_bind. unfold ChangeNewTail. apply ewp_bind, ewp_on_ledger. intros ok s5 F5. destruct ok; [|by apply ewp_panic]. apply ewp_modify.
  pose proof (main_uncache _ _ k Hm2) as Hm3. set (s3 := with_caches s2 _ _) in Hm3. set (s6 := with_tail s5 _ _).
  assert (main s6 (kt :: ks)) as Hm6.
  { apply (main_shrink s3 _ t k); [done|done|]. rewrite Eh in *. assert (c_tail s3 = c_tail s) as Et by (cbn; by rewrite (fr_tail _ _ F2), (fr_tail _ _ F1)). rewrite Et.
    destruct F4, F5. split; cbn in *; intros; try congruence. }
  apply ewp_ledger_write; [|done]. intros s7 F7. split; [by eapply frame_main|].
  eapply kept_trans; [|by apply frame_kept]. eapply kept_trans; [by apply frame_kept|]. eapply kept_trans; [by apply frame_kept|].
  destruct F4, F5. split; cbn in *; [congruence|]. by replace (c_orphanBlockHashToChildren s5) with (c_orphanBlockHashToChildren s2) by congruence.
Qed.

Lemma ewp_disconnectAll bs dks kt ks s : main s (dks ++ kt :: ks) -> Forall2 (known U) bs dks ->
  ewp (disconnectAll bs) (fun _ s' => main s' (kt :: ks) /\ kept s s') (fun _ _ => True) s.
Proof.
  intros Hm Hbs. revert s Hm. induction Hbs as [|b k bs dks Hb _ IH]; intros s Hm; cbn [disconnectAll app] in *; [by apply ewp_ret|].
  assert (exists kt' ks', dks ++ kt :: ks = kt' :: ks') as (kt' & ks' & E) by (destruct dks; cbn; eauto).
  apply ewp_bind, (ewp_must _ _ _ (fun _ _ => True)). rewrite E in Hm. eapply ewp_mono; [by apply (ewp_disconnect b k kt' ks')| |done]. intros _ s1 [Hm1 Hk1]. rewrite <- E in Hm1.
  eapply ewp_mono; [by apply IH| |done]. intros _ s2 [Hm2 Hk2]. split; [done|by eapply kept_trans].
Qed.

(** Blocks on top of one another, the highest first, above the block [p]. *)
Inductive stacked (p : bytes) : list Block -> list bytes -> Prop :=
  | stacked_nil : stacked p [] []
  | stacked_cons b k bs ks : known U b k -> linked U k -> head (ks ++ [p]) = Some (prev b) -> stacked p bs ks -> stacked p (b :: bs) (k :: ks).

Lemma stacked_snoc p bs ks b k : stacked k bs ks -> known U b k -> linked U k -> p = prev b -> stacked p (bs ++ [b]) (ks ++ [k]).
Proof.
  intros Hs Hb Hl ->. induction Hs as [|b' k' bs ks H1 H2 H3 H4 IH]; cbn; [apply stacked_cons; [done|done|done|constructor]|].
  apply stacked_cons; [done|done| |done]. by destruct ks.
Qed.

Lemma stacked_drop p xs ys ks : stacked p (xs ++ ys) ks -> exists k1 k2, ks = k1 ++ k2 /\ stacked p ys k2.
Proof.
  revert ks. induction xs as [|x xs IH]; intros ks; cbn; [by exists [], ks|]. intros H. inversion H as [|? k ? ks' ? ? ? Hs]; subst.
  destruct (IH _ Hs) as (k1 & k2 & -> & Hk2). by exists (k :: k1), k2.
Qed.

Lemma stacked_fun p bs ks ks' : stacked p bs ks -> stacked p bs ks' -> ks = ks'.
Proof.
  intros H. revert ks'. induction H as [|b k bs ks Hb _ _ _ IH]; intros ks' H'; inversion H'; subst; [done|]. f_equal; [|auto].
  match goal with H : known U b ?k |- _ = ?k => pose proof (kn_hash _ _ _ H); pose proof (kn_hash _ _ _ Hb) end. congruence.
Qed.

Lemma stacked_known p bs ks : stacked p bs ks -> Forall2 (known U) bs ks.
Proof. induction 1; by constructor. Qed.

Lemma stacked_path dks p rest h bs : path (dks ++ p :: rest) h -> (exists q, U gk q 0%Z) -> Forall2 (known U) bs dks -> stacked p bs dks.
Proof.
  intros Hp Hg Hb. revert h Hp. induction Hb as [|b k bs dks Hb _ IH]; intros h Hp; cbn in Hp; [constructor|].
  assert (exists k' r, dks ++ p :: rest = k' :: r /\ head (dks ++ [p]) = Some k') as (k' & r & E & Eh) by (destruct dks; cbn; eauto).
  rewrite E in Hp. destruct (path_linked _ _ _ Hp (path_above_genesis _ _ _ _ Hp Hg) Hg) as [Hl _]. destruct (path_tl _ _ _ _ Hp) as [Hk Hp'].
  constructor; [done|done| |by rewrite <- E in Hp'; eauto]. rewrite Eh. f_equal. symmetry. by destruct (u_link _ HU _ _ _ _ _ (kn_link _ _ _ Hb) Hk).
Qed.

(** ** Changing chains *)

Lemma must_no_error {A} (c : EM BlockChain ChainErr A) s : match (e_must c s).1 with EErr _ => False | _ => True end.
Proof. unfold e_must. by destruct (c s) as [[]]. Qed.

Lemma disconnectAll_no_error bs s : match (disconnectAll bs s).1 with EErr _ => False | _ => True end.
Proof.
  revert s. induction bs as [|b bs IH]; intros s; cbn [disconnectAll]; [done|]. unfold mbind, EM_bind. pose proof (must_no_error (tryDisConnectBlockFromMainChain b) s).
  destruct (e_must _ s) as [[]]; try done. apply IH.
Qed.

Lemma reconnectAll_no_error bs from s : match (reconnectAll bs from s).1 with EErr _ => False | _ => True end.
Proof.
  revert s. induction bs as [|b bs IH]; intros s; cbn [reconnectAll]; [done|]. unfold mbind, EM_bind, publish, e_modify. set (s1 := with_event s _).
  pose proof (must_no_error (tryConnectBlockToMainChain b from) s1). destruct (e_must _ s1) as [[]]; try done. apply IH.
Qed.

Lemma ewp_total {A} (c : EM BlockChain ChainErr A) Q R s : ewp c Q R s -> match (c s).1 with EErr _ => False | _ => True end -> ewp c Q (fun _ _ => False) s.
Proof. unfold ewpf. by destruct (c s) as [[] s']. Qed.

Lemma stacked_top p bs bs' ks b k : stacked p bs ks -> stacked p bs' ks -> head bs = Some b -> known U b k -> known U (default b (head bs')) k.
Proof.
  intros H1 H2 Hh Hb. destruct H1 as [|b1 k1 bs ks Hb1 _ _ _]; [done|]. injection Hh as ->. inversion H2 as [|b2 ? ? ? Hb2]; subst.
  assert (k1 = k) as <- by (pose proof (kn_hash _ _ _ Hb1); pose proof (kn_hash _ _ _ Hb); congruence). done.
Qed.

(** Execution changes a block, not its place. *)
Lemma stacked_same p up b b' k conn ks : stacked p (up ++ b :: conn) ks -> known U b k -> known U b' k -> b_Header b' = b_Header b -> stacked p (up ++ b' :: conn) ks.
Proof.
  intros Hs Hb Hb' E. revert ks Hs. induction up as [|x up IH]; intros ks Hs; cbn in *; inversion Hs as [|? k' ? ks' Hk Hl Hh Hs']; subst; [|constructor; eauto].
  assert (k' = k) as -> by (pose proof (kn_hash _ _ _ Hk); pose proof (kn_hash _ _ _ Hb); congruence). constructor; [done|done| |done]. by rewrite E.
Qed.

Lemma stacked_next p up b conn ks kc rest : stacked p ((up ++ [b]) ++ conn) ks -> stacked p conn kc ->
  exists k, known U b k /\ linked U k /\ head (kc ++ p :: rest) = Some (prev b) /\ stacked p (b :: conn) (k :: kc) /\ stacked p (up ++ b :: conn) ks.
Proof.
  intros Hs Hc. rewrite <- app_assoc in Hs. destruct (stacked_drop _ _ _ _ Hs) as (k1 & k2 & -> & H). cbn in H. inversion H as [|? k ? kc' Hb Hl Hh Hs']; subst.
  rewrite <- (stacked_fun _ _ _ _ Hs' Hc) in *. exists k. split_and!; [done|done| |done|done]. by destruct kc'.
Qed.

Lemma ewp_reconnectAll up conn ks kc p rest from s : stacked p (up ++ conn) ks -> stacked p conn kc -> main s (kc ++ p :: rest) ->
  ewp (reconnectAll (rev up) from) (fun _ s' => main s' (ks ++ p :: rest) /\ kept s s') (fun _ _ => True) s.
Proof.
  revert conn kc s. induction up as [|b up IH] using rev_ind; intros conn kc s Hs Hc Hm.
  { cbn [app] in Hs. rewrite (stacked_fun _ _ _ _ Hs Hc). by apply ewp_ret. }
  rewrite rev_app_distr. cbn [rev app reconnectAll]. destruct (stacked_next _ _ _ _ _ _ rest Hs Hc) as (k & Hb & Hl & Hh & Hc' & Hs').
  apply ewp_bind, ewp_publish. intros s1 F1. apply ewp_bind, (ewp_must _ _ _ (fun _ s' => main s' (kc ++ p :: rest) /\ kept s1 s')).
  eapply ewp_mono; [apply (ewp_connect b k); [by eapply frame_main|done..]| |done]. intros _ s2 (Hm2 & Hk2 & _).
  eapply ewp_mono; [by apply (IH (b :: conn) (k :: kc))| |done]. intros _ s3 [Hm3 Hk3]. split; [done|].
  eapply kept_trans; [by apply frame_kept|]. by eapply kept_trans.
Qed.

Lemma ewp_attachAll up conn ks kc p rest detached dks from s : stacked p (up ++ conn) ks -> stacked p conn kc -> stacked p detached dks -> main s (kc ++ p :: rest) ->
  ewp (attachAll (rev up) conn detached from) (fun conn' s' => main s' (ks ++ p :: rest) /\ kept s s' /\ stacked p conn' ks) (fun _ s' => main s' (dks ++ p :: rest) /\ kept s s') s.
Proof.
  intros Hs Hc Hd. revert conn kc s Hs Hc. induction up as [|b up IH] using rev_ind; intros conn kc s Hs Hc Hm.
  { cbn [app] in Hs. rewrite (stacked_fun _ _ _ _ Hs Hc). by apply ewp_ret. }
  rewrite rev_app_distr. cbn [rev app attachAll]. destruct (stacked_next _ _ _ _ _ _ rest Hs Hc) as (k & Hb & Hl & Hh & Hc' & Hs').
  apply ewp_bind, ewp_publish. intros s1 F1. apply ewp_bind, ewp_try.
  eapply ewp_mono; [apply (ewp_connect b k); [by eapply frame_main|done..]|intros b' s2 (Hm2 & Hk2 & Hb' & Eb')|intros e s2 [Hm2 Hk2]].
  - eapply ewp_mono; [apply (IH (b' :: conn) (k :: kc)); [by apply (stacked_same _ _ b _ k)|by apply (stacked_same _ [] b _ k)|done]|intros conn' s3 (Hm3 & Hk3 & Hc3)|intros e s3 [Hm3 Hk3]];
      (split; [done|]); [split; [|done]|]; (eapply kept_trans; [by apply frame_kept|]; by eapply kept_trans).
  - apply ewp_bind. apply (ewp_mono _ (fun _ s' => main s' (p :: rest) /\ kept s2 s') _ (fun _ _ => False)).
    + apply (ewp_total _ _ (fun _ _ => True)); [by eapply ewp_disconnectAll; [done|eapply stacked_known]|apply disconnectAll_no_error].
    + intros _ s3 [Hm3 Hk3]. apply ewp_bind. apply (ewp_mono _ (fun _ s' => main s' (dks ++ p :: rest) /\ kept s3 s') _ (fun _ _ => False)).
      * apply (ewp_total _ _ (fun _ _ => True)); [|apply reconnectAll_no_error]. apply (ewp_reconnectAll detached [] dks []); [by rewrite app_nil_r|constructor|done].
      * intros _ s4 [Hm4 Hk4]. apply ewp_fail. split; [done|]. apply (kept_trans _ s1); [by apply frame_kept|]. apply (kept_trans _ s2); [done|]. by apply (kept_trans _ s3).
      * done.
    + done.
Qed.

(** ** Finding the fork *)

Lemma path_fresh ks h k p h' : path ks h -> (exists q, U gk q 0%Z) -> U k p h' -> (h < h')%Z -> k ∉ ks.
Proof.
  intros Hp Hg Hk Hlt Hin. apply list_elem_of_lookup in Hin as [j Hj]. destruct (path_lookup _ _ _ _ Hg Hp Hj) as [q Hq].
  destruct (u_link _ HU _ _ _ _ _ Hk Hq). lia.
Qed.

Lemma placed_above b k : known U b k -> placed k -> known U g gk -> height g = 0%Z -> (0 < height b)%Z -> linked U k.
Proof. intros Hb [->|Hl] Hg E Hh; [|done]. destruct (u_link _ HU _ _ _ _ _ (kn_link _ _ _ Hb) (kn_link _ _ _ Hg)) as [_ E']. lia. Qed.

Lemma parent_height b k p : known U b k -> linked U k -> known U p (prev b) -> height p = (height b - 1)%Z.
Proof. intros Hb Hl Hp. pose proof (linked_height _ _ _ _ Hb Hl Hp eq_refl). lia. Qed.

(** The blocks of the side chain are not on the main chain. *)
Definition off (ks aks : list bytes) : Prop := Forall (fun k => k ∉ ks) aks.

(** On the way down from [top], at [side] with [attach] passed. *)
Definition at_side (top : Block) (ks : list bytes) (side : option Block) (attach : list Block) (h : Z) : Prop :=
  match side with
  | None => True
  | Some b => default b (head attach) = top /\ exists kb aks, known U b kb /\ placed kb /\ height b = h /\ stacked kb attach aks /\ off ks aks
  end.

Lemma top_snoc (attach : list Block) b p : default p (head (attach ++ [b])) = default b (head attach).
Proof. by destruct attach. Qed.

Lemma ewp_climb top n side attach ks s h : main s ks -> h = height (c_tail s) -> at_side top ks side attach (h + Z.of_nat n) ->
  ewp (climb n side attach) (fun '(side', attach') s' => frame s s' /\ at_side top ks side' attach' h) (fun _ _ => False) s.
Proof.
  intros Hm Eh. revert side attach s Hm Eh. induction n as [|n IH]; intros side attach s Hm Eh Ha; cbn [climb].
  { apply ewp_ret. split; [done|]. by replace (h + Z.of_nat 0)%Z with h in Ha by lia. }
  apply ewp_bind, ewp_deref. intros b ->. destruct Ha as (Etop & kb & aks & Hb & Hpl & Ehb & Hst & Hoff).
  destruct (so_genesis _ (ma_store _ _ Hm)) as (_ & Hg & Eg). destruct (path_length _ _ (ma_path _ _ Hm)) as [_ H0].
  assert (linked U kb) as Hl by (apply (placed_above b); try done; lia).
  assert (kb ∉ ks) as Hfresh by (eapply path_fresh; [apply Hm|by eapply main_genesis|apply Hb|lia]).
  apply ewp_bind. eapply ewp_parent; [apply Hm|done|]. intros p s1 F1 Hpar.
  eapply ewp_mono; [apply IH; [by eapply frame_main|by rewrite (fr_tail _ _ F1)|]|intros [side' attach'] s2 [F2 H2]; split; [by eapply chain_frame_trans|done]|done].
  destruct p as [p|]; [|done]. destruct Hpar as [[-> _]|[Hp Hpp]].
  { destruct (u_link _ HU _ _ _ _ _ (kn_link _ _ _ Hb) (kn_link _ _ _ Hg)). lia. }
  split; [by rewrite top_snoc|]. exists (prev b), (aks ++ [kb]). split_and!; [done|done|rewrite (parent_height b kb); [lia|done..]|by apply stacked_snoc|]. apply Forall_app. split; [done|by constructor].
Qed.

(** Where the chains meet. *)
Definition forked (top : Block) (ks : list bytes) (r : Block * list Block * list Block) : Prop :=
  let '(fork, detach, attach) := r in
  (attach = [] \/ head attach = Some top) /\ exists dks fk rest aks, ks = dks ++ fk :: rest /\ known U fork fk /\ Forall2 (known U) detach dks /\ stacked fk attach aks /\ off ks aks.

Lemma ewp_meet top fuel m km rest side detach dks attach ks s : main s ks -> ks = dks ++ km :: rest -> known U m km -> Forall2 (known U) detach dks ->
  length (km :: rest) <= fuel -> at_side top ks side attach (height m) ->
  ewp (meet fuel (Some m) side detach attach) (fun r s' => frame s s' /\ forked top ks r) (fun _ _ => False) s.
Proof.
  intros Hm Eks Hk Hd Hf Hs. revert m km rest side detach dks attach s Hm Eks Hk Hd Hf Hs. induction fuel as [|fuel IH]; intros m km rest side detach dks attach s Hm Eks Hk Hd Hf Hs; [cbn in Hf; lia|].
  cbn [meet]. destruct side as [b|]; [|apply ewp_panic]. destruct Hs as (Etop & kb & aks & Hb & Hpl & Ehb & Hst & Hoff).
  rewrite (proj2 (Z.eqb_eq _ _)) by done. cbn [negb]. rewrite (known_BlockHash _ _ _ Hk), (known_BlockHash _ _ _ Hb). case_bool_decide as E.
  { injection E as <-. apply ewp_ret. split; [done|]. split; [rewrite <- Etop; destruct attach; auto|]. exists dks, km, rest, aks. done. }
  pose proof (main_genesis _ _ Hm) as Hg0. destruct (so_genesis _ (ma_store _ _ Hm)) as (_ & Hg & Eg). pose proof (ma_path _ _ Hm) as Hp.
  assert (ks !! length dks = Some km) as Hat by (rewrite Eks; by apply list_lookup_middle).
  destruct (path_lookup _ _ _ _ Hg0 Hp Hat) as [q Hq]. destruct (u_link _ HU _ _ _ _ _ (kn_link _ _ _ Hk) Hq) as [_ Ehm].
  assert (km <> gk) as Hne.
  { intros ->. destruct (u_link _ HU _ _ _ _ _ (kn_link _ _ _ Hk) (kn_link _ _ _ Hg)) as [_ E0]. destruct Hpl as [->|(p & h & p' & H1 & H2)]; [done|].
    destruct (u_link _ HU _ _ _ _ _ (kn_link _ _ _ Hb) H1) as [_ <-]. pose proof (u_height _ HU _ _ _ H2). lia. }
  assert (kb ∉ ks) as Hfresh.
  { intros Hin. apply list_elem_of_lookup in Hin as [j Hj]. destruct (path_lookup _ _ _ _ Hg0 Hp Hj) as [q' Hq']. destruct (u_link _ HU _ _ _ _ _ (kn_link _ _ _ Hb) Hq') as [_ E'].
    assert (j = length dks) as -> by lia. congruence. }
  assert (exists h0, path (km :: rest) h0) as [h0 Hpm].
  { clear -Hp Eks. subst ks. revert Hp. generalize (height (c_tail s)). induction dks as [|k dks IH]; intros h Hp; [eauto|]. cbn in Hp. destruct (dks ++ km :: rest) as [|p r] eqn:E; [by destruct dks|].
    destruct (path_tl _ _ _ _ Hp) as [_ Hp']. eauto. }
  destruct (path_linked _ _ _ Hpm Hne Hg0) as [Hlm (p & rest' & -> & Hup)]. destruct (u_link _ HU _ _ _ _ _ (kn_link _ _ _ Hk) Hup) as [Eprev _].
  assert (linked U kb) as Hlb by (apply (placed_above b); try done; destruct Hlm as (? & ? & ? & H1 & H2); destruct (u_link _ HU _ _ _ _ _ (kn_link _ _ _ Hk) H1) as [_ <-]; pose proof (u_height _ HU _ _ _ H2); lia).
  apply ewp_bind. eapply ewp_parent; [apply Hm|done|]. intros m' s1 F1 Hpar. apply ewp_bind. eapply ewp_parent; [by eapply frame_store, (ma_store _ _ Hm)|done|]. intros b' s2 F2 Hparb.
  assert (frame s s2) as F by (by eapply chain_frame_trans). destruct m' as [m'|].
  2: { destruct Hpar as [Hnp Hno]. rewrite Eprev in *. exfalso. pose proof (ma_stored _ _ Hm) as Hall. rewrite Forall_forall in Hall.
       destruct (Hall p) as [->|[x Hx]]; [rewrite Eks; set_solver|done|congruence]. }
  destruct Hpar as [[? _]|[Hm' _]]; [done|]. rewrite Eprev in Hm'. eapply ewp_mono; [apply (IH m' p rest' b' _ (dks ++ [km])); [by eapply frame_main| |done| |cbn in *; lia|]| |done].
  - by rewrite Eks, <- app_assoc.
  - apply Forall2_app; [done|by constructor].
  - destruct b' as [b'|]; [|done]. destruct Hparb as [[-> _]|[Hb' Hpb']].
    { exfalso. destruct Hlb as (? & ? & ? & H1 & H2). destruct (u_link _ HU _ _ _ _ _ (kn_link _ _ _ Hg) H1) as [_ E0]. pose proof (u_height _ HU _ _ _ H2). lia. }
    split; [by rewrite top_snoc|]. exists (prev b), (aks ++ [kb]). split_and!; [done|done| |by apply stacked_snoc|apply Forall_app; split; [done|by constructor]].
    rewrite (parent_height b kb b') by done. rewrite (parent_height m km m') by (try done; by rewrite Eprev). lia.
  - intros r s3 [F3 H3]. split; [by eapply chain_frame_trans|done].
Qed.

Lemma ewp_findFork block k ks s : main s ks -> known U block k -> linked U k ->
  ewp (findFork block) (fun r s' => frame s s' /\ forked block ks r /\ length r.1.2 < length r.2) (fun _ _ => False) s.
Proof.
  intros Hm Hb Hl. unfold findFork. apply ewp_bind, ewp_gets. rewrite (ma_longest _ _ Hm). destruct (Z.leb_spec (height block) (height (c_tail s))) as [|Hlt]; [apply ewp_panic|].
  apply ewp_bind. eapply ewp_mono; [apply (ewp_climb block _ _ _ ks s _ Hm eq_refl)| |done].
  { split; [done|]. exists k, []. split_and!; [done|by right|lia|constructor|constructor]. }
  intros [side attach] s1 [F1 Hs1]. pose proof (frame_main _ _ _ F1 Hm) as Hm1. apply ewp_bind, ewp_gets, ewp_bind. destruct (ma_tail _ _ Hm1) as (kt & rest & -> & Ht).
  rewrite <- (fr_tail _ _ F1) in Hs1. eapply ewp_mono; [apply (ewp_meet block _ _ kt rest side [] [] attach _ s1 Hm1 eq_refl Ht)| |done].
  - constructor.
  - destruct (path_length _ _ (ma_path _ _ Hm)) as [E _]. cbn in E |- *. lia.
  - done.
  - intros [[fork detach] attach'] s2 [F2 H2]. destruct (Nat.leb_spec (length attach') (length detach)); [apply ewp_panic|]. apply ewp_ret.
    split_and!; [by eapply chain_frame_trans|done|done].
Qed.

(** ** Reorganisation *)

Lemma main_remove s ks k pool : main s ks -> k ∉ ks ->
  main (with_blocks (with_orphans s pool (delete k (c_orphanBlockHashToChildren s))) (delete k (c_blocks s))) ks.
Proof.
  intros [[S1 S2 S3 S4] H2 H3 H4 H5 H6] Hk. split; [split|..]; try done.
  - intros k' d'. cbn. intros [_ E]%lookup_delete_Some. by apply S2.
  - intros k' l. cbn. intros [_ E]%lookup_delete_Some. by apply S4.
  - apply Forall_forall. intros k' Hin. rewrite Forall_forall in H5. destruct (H5 k' Hin) as [->|Hst]; [by left|]. right. cbn. rewrite lookup_delete_ne; [done|]. by intros ->.
Qed.

Lemma ewp_removeBlocks bs aks ks s : main s ks -> Forall2 (known U) bs aks -> off ks aks ->
  ewp (removeBlocks bs) (fun _ s' => main s' ks /\ kept s s') (fun _ _ => False) s.
Proof.
  intros Hm Hbs. revert s Hm. induction Hbs as [|b k bs aks Hb _ IH]; intros s Hm Hoff; cbn [removeBlocks]; [by apply ewp_ret|].
  apply Forall_cons in Hoff as [Hk Hoff]. apply ewp_bind, ewp_deref. rewrite (known_BlockHash _ _ _ Hb). intros k' [= <-]. apply ewp_bind, ewp_modify.
  unfold RemoveBlock. apply ewp_bind, ewp_bind, ewp_deref. rewrite (known_BlockHash _ _ _ Hb). intros k' [= <-]. apply ewp_modify.
  eapply ewp_mono; [apply IH; [exact (main_remove s ks k _ Hm Hk)|done]|intros _ s' [H1 H2]|done]. split; [done|]. eapply kept_trans; [|exact H2]. split; [done|apply delete_subseteq].
Qed.

(** A reorganisation keeps the chain below a fork that is at least as high as the final block. *)
Lemma ewp_reorganize block k ks from s : main s ks -> known U block k -> linked U k ->
  let post s' := (exists pre fk rest ks', ks = pre ++ fk :: rest /\ main s' (ks' ++ fk :: rest) /\ (pre = ks' \/ height (c_eternal s) <= Z.of_nat (length rest))%Z) /\ kept s s' in
  ewp (reorganize block from) (fun b' s' => post s' /\ known U b' k) (fun _ s' => post s') s.
Proof.
  intros Hm Hb Hl post. unfold reorganize. apply ewp_bind. eapply ewp_mono; [by apply (ewp_findFork block k ks)| |done].
  intros [[fork detach] attach] s1 (F1 & (Htop & dks & fk & rest & aks & Eks & Hf & Hd & Ha & Hoff) & Hlen). cbn in Hlen. pose proof (frame_main _ _ _ F1 Hm) as Hm1. pose proof (frame_kept _ _ F1) as Hk1.
  apply ewp_bind, ewp_gets. rewrite (fr_eternal _ _ F1). pose proof (main_genesis _ _ Hm) as Hg.
  assert (height fork = Z.of_nat (length rest)) as Efork.
  { pose proof (ma_path _ _ Hm) as Hp. rewrite Eks in Hp. destruct (path_length _ _ Hp) as [E _]. destruct (path_lookup _ _ _ _ Hg Hp (list_lookup_middle dks rest fk _ eq_refl)) as [q Hq].
    destruct (u_link _ HU _ _ _ _ _ (kn_link _ _ _ Hf) Hq) as [_ E2]. rewrite length_app in E. cbn in E. lia. }
  destruct (Z.ltb_spec (height fork) (height (c_eternal s))) as [Hlow|Hhigh].
  { apply ewp_bind. eapply ewp_mono; [by apply (ewp_removeBlocks attach aks ks); [|eapply stacked_known|]| |done]. intros _ s2 [Hm2 Hk2].
    apply ewp_ret. split; [|done]. split; [|by eapply kept_trans]. exists dks, fk, rest, dks. rewrite Eks in Hm2. split_and!; [done|done|by left]. }
  apply ewp_bind. rewrite Eks in Hm1. eapply ewp_mono; [apply (ewp_total _ _ (fun _ _ => True)); [by apply (ewp_disconnectAll detach dks fk rest)|apply disconnectAll_no_error]| |done].
  intros _ s2 [Hm2 Hk2]. pose proof (stacked_path dks fk rest _ detach (ma_path _ _ Hm1) Hg Hd) as Hsd.
  apply ewp_bind. eapply ewp_mono; [apply (ewp_attachAll attach [] aks [] fk rest detach dks); [by rewrite app_nil_r|constructor|done|done]| |].
  - intros conn s3 (Hm3 & Hk3 & Hc). apply ewp_ret. split.
    + split; [|by do 2 (eapply kept_trans; [eassumption|])]. exists dks, fk, rest, aks. split_and!; [done|done|right; lia].
    + destruct Htop as [->|Htop]; [cbn in Hlen; lia|]. by apply (stacked_top fk attach conn aks).
  - intros e s3 [Hm3 Hk3]. split; [|by do 2 (eapply kept_trans; [eassumption|])]. exists dks, fk, rest, dks. split_and!; [done|done|by left].
Qed.

End Good.
