(* ===== verification/ChainMain.v ===== *)
(** * ChainMain: what is final stays

    Whatever blocks arrive, in whatever order and from whomever: handling a block ends, the main
    chain stays a chain of stored blocks with its index, and the part of it up to the final block
    stays where it is. *)

From S2P Require Import Prelude Effects Crypto Bytes Bloom EvmState Types Receipt Blocks Chain ChainFacts.
Import Blocks Chain.

(** ** Counting orphans *)

Section Count.

Definition entries (ch : gmap bytes (list Block)) : list Block := concat (map_to_list ch).*2.

Definition above (h : Z) (l : list Block) : nat := length (filter (fun b => (h < height b)%Z) l).

Lemma above_app h l1 l2 : above h (l1 ++ l2) = above h l1 + above h l2.
Proof. unfold above. by rewrite filter_app, length_app. Qed.

Lemma above_perm h l1 l2 : l1 ≡ₚ l2 -> above h l1 = above h l2.
Proof. intros H. unfold above. by rewrite H. Qed.

Lemma above_length h l : above h l <= length l.
Proof. apply length_filter. Qed.

Lemma above_all h l : Forall (fun b => (h < height b)%Z) l -> above h l = length l.
Proof. unfold above. induction 1 as [|b l Hb _ IH]; [done|]. rewrite filter_cons, decide_True by done. cbn. by rewrite IH. Qed.

Lemma above_mono h h' l : (h <= h')%Z -> above h' l <= above h l.
Proof.
  intros Hh. induction l as [|b l IH]; [done|]. unfold above in *. rewrite !filter_cons. repeat case_decide; cbn; lia.
Qed.

(** An orphan itself is not above its height. *)
Lemma above_lt h b l : b ∈ l -> (h < height b)%Z -> S (above (height b) l) <= above h l.
Proof.
  intros Hin Hh. apply list_elem_of_split in Hin as (l1 & l2 & ->). rewrite !above_app. unfold above at 2 4. rewrite !filter_cons, decide_False, decide_True by lia.
  cbn. pose proof (above_mono h (height b) l1 ltac:(lia)). pose proof (above_mono h (height b) l2 ltac:(lia)). unfold above in *. lia.
Qed.

Lemma entries_delete ch k l : ch !! k = Some l -> entries ch ≡ₚ l ++ entries (delete k ch).
Proof. intros H. unfold entries. rewrite <- (map_to_list_delete _ _ _ H). done. Qed.

Lemma above_subset h ch ch' : ch' ⊆ ch -> above h (entries ch') <= above h (entries ch).
Proof.
  revert ch. induction ch' as [|k l m Hk IH] using map_ind; intros ch Hsub; [unfold entries; rewrite map_to_list_empty; cbn; lia|].
  assert (ch !! k = Some l) as Hl by (eapply lookup_weaken; [apply lookup_insert_eq|done]).
  rewrite (above_perm _ _ _ (entries_delete _ _ _ Hl)), (above_perm _ (entries (<[k := l]> m)) (l ++ entries m)).
  - rewrite !above_app. specialize (IH (delete k ch) (insert_delete_subseteq _ _ _ _ Hk Hsub)). lia.
  - unfold entries. by rewrite map_to_list_insert.
Qed.

Lemma entries_in ch k l b : ch !! k = Some l -> b ∈ l -> b ∈ entries ch.
Proof. intros H Hb. rewrite (entries_delete _ _ _ H). set_solver. Qed.

End Count.

(** ** Accepting blocks *)

Section Final.
Context `{L : Ledger} `{BC : Lru bytes Block} {BCL : LruLaws bytes Block BC} `{MC : Lru Z Block} `{C : Crypto} `{HC : HeaderCodec} `{PB : BlockCodec} {PBL : BlockCodecLaws PB}.
Context (U : bytes -> bytes -> Z -> Prop) (HU : universe U) (g : Block) (gk : bytes).

Abbreviation prev b := (h_PrevBlockHash (b_Header b)).
Abbreviation main := (main U g gk).
Abbreviation path := (path U gk).

(** The main chain ends in [fin], whose first block is final. *)
Definition final (e : Block) (fin : list bytes) (s : BlockChain) : Prop :=
  c_eternal s = e /\ (exists k, head fin = Some k /\ known U e k) /\ exists pre, main s (pre ++ fin).

Lemma path_suffix pre fin h : path (pre ++ fin) h -> fin <> [] -> path fin (Z.of_nat (length fin) - 1).
Proof.
  revert h. induction pre as [|k pre IH]; intros h Hp Hne; cbn in Hp.
  - destruct (path_length _ _ _ _ Hp) as [E _]. by replace (Z.of_nat (length fin) - 1)%Z with h by lia.
  - destruct (pre ++ fin) as [|p r] eqn:E; [by destruct pre; cbn in E; subst|]. destruct (path_tl _ _ _ _ _ _ Hp) as [_ Hp']. eauto.
Qed.

Lemma final_height e fin s : final e fin s -> (height e = Z.of_nat (length fin) - 1)%Z.
Proof.
  intros (_ & (k & Hk & He) & pre & Hm). pose proof (main_genesis _ _ _ _ _ Hm) as Hg. destruct fin as [|k' fin]; [done|]. injection Hk as ->.
  destruct (path_head _ _ _ _ _ Hg (path_suffix _ _ _ (ma_path _ _ _ _ _ Hm) ltac:(done))) as [p Hp]. by destruct (u_link _ HU _ _ _ _ _ (kn_link _ _ _ He) Hp).
Qed.

Lemma final_frame e fin s s' : final e fin s -> frame s s' -> final e fin s'.
Proof. intros (He & Hk & pre & Hm) F. split; [by rewrite (fr_eternal _ _ F)|]. split; [done|]. exists pre. by eapply frame_main. Qed.

(** What the handling of a block may do. *)
Definition goes (e : Block) (fin : list bytes) (s s' : BlockChain) : Prop := final e fin s' /\ kept s s'.

Lemma goes_trans e fin s1 s2 s3 : kept s1 s2 -> goes e fin s2 s3 -> goes e fin s1 s3.
Proof. intros H1 [H2 H3]. split; [done|by eapply kept_trans]. Qed.

Lemma ewp_reorganize_final e fin b k from s : final e fin s -> known U b k -> linked U k ->
  ewp (reorganize b from) (fun b' s' => goes e fin s s' /\ known U b' k) (fun _ s' => goes e fin s s') s.
Proof.
  intros Hf Hb Hl. pose proof (final_height _ _ _ Hf) as Eh. destruct Hf as (He & Hk & pre & Hm).
  assert (forall s', (exists pre' fk rest ks', pre ++ fin = pre' ++ fk :: rest /\ main s' (ks' ++ fk :: rest) /\ (pre' = ks' \/ height (c_eternal s) <= Z.of_nat (length rest))%Z) /\ kept s s' -> goes e fin s s') as Hpost.
  { intros s' [(pre' & fk & rest & ks' & E & Hm' & Hor) Hkept]. split; [|done]. split; [by rewrite (proj1 Hkept)|]. split; [done|]. destruct Hor as [->|Hle]; [exists pre; by rewrite E|].
    rewrite He in Hle. apply app_eq_inv in E as [(mid & _ & E)|(mid & _ & E)].
    - exists (ks' ++ mid). by rewrite <- app_assoc, <- E.
    - rewrite E, length_app in Eh. destruct mid as [|x mid]; [exists ks'; by rewrite E|cbn in Eh; lia]. }
  eapply ewp_mono; [by apply (ewp_reorganize U HU g gk b k (pre ++ fin))|intros b' s' [H1 H2]; split; [by apply Hpost|done]|intros u s'; apply Hpost].
Qed.

Lemma ewp_tryAccept e fin orphans b k from s : final e fin s -> known U b k ->
  (forall s', final e fin s' -> kept s s' -> linked U k -> ewp (orphans b) (fun _ s'' => goes e fin s' s'') (fun _ s'' => goes e fin s' s'') s') ->
  ewp (tryAcceptBlock orphans b from) (fun b' s' => goes e fin s s' /\ linked U k /\ known U b' k) (fun _ s' => goes e fin s s') s.
Proof.
  intros Hf Hb Ho. pose proof Hf as (He & Hk & pre & Hm). unfold tryAcceptBlock. apply ewp_bind. eapply ewp_parent; [apply Hm|done|]. intros p s1 F1 Hpar.
  pose proof (final_frame _ _ _ _ Hf F1) as Hf1. pose proof (frame_kept _ _ F1) as Hk1. assert (goes e fin s s1) as Hg1 by done.
  destruct p as [p|]; [|by apply ewp_fail]. destruct (Z.eqb_spec (height b) (u32 (height p + 1))) as [Eh|]; cbn [negb]; [|by apply ewp_fail].
  destruct (so_genesis _ _ _ _ (ma_store _ _ _ _ _ Hm)) as (_ & Hgen & Egen). destruct Hpar as [[-> ->]|[Hp _]].
  { destruct (u_link _ HU _ _ _ _ _ (kn_link _ _ _ Hb) (kn_link _ _ _ Hgen)) as [_ E]. rewrite E, Egen in Eh. done. }
  assert (linked U k) as Hl.
  { pose proof (u_height _ HU _ _ _ (kn_link _ _ _ Hp)). unfold u32 in Eh. rewrite Z.mod_small in Eh by lia. exists (prev b), (height b), (prev p). split; [apply Hb|].
    replace (height b - 1)%Z with (height p) by lia. apply Hp. }
  apply ewp_bind, ewp_gets. destruct Hf1 as (He1 & _ & pre1 & Hm1). destruct (ma_tail _ _ _ _ _ Hm1) as (kt & rest & Eks & Ht). rewrite (known_BlockHash _ _ _ Ht). case_bool_decide as E.
  - injection E as <-. eapply ewp_mono; [apply (ewp_connect U HU g gk b k from s1 (pre1 ++ fin)); [done|done|done|by rewrite Eks]|intros b' s2 (Hm2 & Hk2 & Hb' & _)|intros _ s2 [Hm2 Hk2]].
    + split; [|done]. eapply goes_trans; [done|]. split; [|done]. split; [by rewrite (proj1 Hk2)|]. split; [done|]. by exists (k :: pre1).
    + eapply goes_trans; [done|]. split; [|done]. split; [by rewrite (proj1 Hk2)|]. split; [done|]. by exists pre1.
  - apply ewp_bind, ewp_gets, ewp_bind, ewp_gets. destruct (_ <=? _)%Z.
    + destruct (_ <? _)%Z; [|by apply ewp_fail]. apply ewp_bind. eapply (ewp_StoreBlock U g gk b k); [exact Hm1|done|by right| |done].
      intros s2 Hm2 Hk2 _. assert (final e fin s2) as Hf2 by (split; [by rewrite (proj1 Hk2)|]; split; [done|by exists pre1]).
      assert (kept s s2) as Hk02 by (by eapply kept_trans). apply ewp_bind. eapply ewp_mono; [by apply Ho|intros u s3 H3; apply ewp_fail; by eapply goes_trans|intros u s3 H3; by eapply goes_trans].
    + eapply ewp_mono; [apply (ewp_reorganize_final e fin b k); [by eapply final_frame|done|done]|intros b' s2 [H2 H3]; split; [by eapply goes_trans|done]|intros u s2 H2; by eapply goes_trans].
Qed.

(** ** Orphans *)

Definition waits (ch : gmap bytes (list Block)) : Prop := map_Forall (fun k l => Forall (fun b => (exists k', known U b k') /\ prev b = k) l) ch.

Lemma main_waits s ks pool ch : main s ks -> waits ch -> main (with_orphans s pool ch) ks.
Proof. intros [[S1 S2 S3 S4] H2 H3 H4 H5 H6] Hch. split; [split|..]; try done. Qed.

Lemma final_waits e fin s pool ch : final e fin s -> waits ch -> final e fin (with_orphans s pool ch).
Proof. intros (H1 & H2 & pre & Hm) Hch. split; [done|]. split; [done|]. exists pre. by apply main_waits. Qed.

Lemma waits_children e fin s : final e fin s -> waits (c_orphanBlockHashToChildren s).
Proof. intros (_ & _ & pre & Hm) k l H. by apply (so_children _ _ _ _ (ma_store _ _ _ _ _ Hm)). Qed.

Lemma final_fewer e fin s pool ch : final e fin s -> ch ⊆ c_orphanBlockHashToChildren s -> goes e fin s (with_orphans s pool ch).
Proof. intros Hf Hch. split; [|done]. apply final_waits; [done|]. intros k l H. apply (waits_children _ _ _ Hf). by eapply lookup_weaken. Qed.

Lemma ewp_acceptChildren e fin accept children s : final e fin s -> Forall (fun b => exists k, known U b k) children ->
  (forall b k s', b ∈ children -> known U b k -> final e fin s' -> kept s s' -> ewp (accept b) (fun _ s'' => goes e fin s' s'' /\ linked U k) (fun _ s'' => goes e fin s' s'') s') ->
  ewp (acceptChildren accept children) (fun _ s' => goes e fin s s' /\ Forall (fun b => exists k, known U b k /\ linked U k) children) (fun _ s' => goes e fin s s') s.
Proof.
  intros Hf Hc. revert s Hf. induction Hc as [|b children [k Hb] _ IH]; intros s Hf Hacc; cbn [acceptChildren]; [apply ewp_ret; split; [split; [done|apply kept_refl]|constructor]|].
  apply ewp_bind, ewp_deref. rewrite (known_BlockHash _ _ _ Hb). intros k' [= <-]. apply ewp_bind, ewp_modify, ewp_bind.
  set (s1 := with_orphans s _ _). assert (goes e fin s s1) as [Hf1 Hk1] by (by apply final_fewer).
  eapply ewp_mono; [apply (Hacc b k); [set_solver|done..]|intros _ s2 [[Hf2 Hk2] Hl]|intros err s2 H2; by eapply goes_trans].
  assert (kept s s2) as Hk by (by eapply kept_trans). eapply ewp_mono; [apply IH; [done|]|intros _ s3 [H3 H4]|intros err s3 H3; by eapply goes_trans].
  - intros b' k' s' Hin Hb' Hf' Hk'. apply Hacc; [set_solver|done|done|by eapply kept_trans].
  - split; [by eapply goes_trans|]. constructor; eauto.
Qed.

Lemma child_height a ak b kb : known U a ak -> known U b kb -> linked U kb -> prev b = ak -> height b = (height a + 1)%Z.
Proof. intros Ha Hb Hl E. by apply (linked_height U HU b kb a ak). Qed.

(** Looking at the accepted blocks ends: every turn takes a block from the queue or an orphan from
    the pool, and the nested calls look at higher blocks. *)
Lemma ewp_processOrphans e fin fuel q h from s : final e fin s -> Forall (fun b => exists k, known U b k /\ (h <= height b)%Z) q ->
  length q + above h (entries (c_orphanBlockHashToChildren s)) < fuel ->
  ewp (processOrphans fuel q from) (fun _ s' => goes e fin s s') (fun _ s' => goes e fin s s') s.
Proof.
  revert q h s. induction fuel as [|fuel IH]; intros q h s Hf Hq Hfuel; [lia|]. cbn [processOrphans]. destruct q as [|a q]; [by apply ewp_ret|].
  apply Forall_cons in Hq as [(ak & Ha & Hah) Hq]. cbn [length] in Hfuel. apply ewp_bind, ewp_deref. rewrite (known_BlockHash _ _ _ Ha). intros k' [= <-]. apply ewp_bind, ewp_gets.
  set (ch := c_orphanBlockHashToChildren s) in *. set (l := default [] (ch !! ak)).
  assert (Forall (fun b => (exists k, known U b k) /\ prev b = ak) l) as Hl.
  { unfold l. destruct (ch !! ak) as [l'|] eqn:E; [by apply (waits_children _ _ _ Hf)|constructor]. }
  assert (forall b, b ∈ l -> b ∈ entries ch) as Hent.
  { unfold l. intros b Hb. destruct (ch !! ak) as [l'|] eqn:E; [by eapply entries_in|by apply not_elem_of_nil in Hb]. }
  apply ewp_bind. eapply ewp_mono; [apply (ewp_acceptChildren e fin); [done|by eapply Forall_impl; [exact Hl|intros b [H _]]|]|intros _ s1 [[Hf1 Hk1] Hall]|done].
  - intros b kb s' Hin Hb Hf' Hk'. assert (prev b = ak) as Eb by (rewrite Forall_forall in Hl; by apply Hl).
    eapply ewp_mono; [apply (ewp_tryAccept e fin _ b kb); [done|done|]|by intros b' s'' (H1 & H2 & _)|done].
    intros s2 Hf2 Hk2 Hlk. pose proof (child_height _ _ _ _ Ha Hb Hlk Eb) as Ehb.
    apply (IH [b] (height b)); [done|constructor; [by exists kb|constructor]|]. cbn [length].
    pose proof (above_lt h b (entries ch) (Hent _ Hin) ltac:(lia)). pose proof (above_subset (height b) ch _ (proj2 (kept_trans _ _ _ Hk' Hk2))). lia.
  - apply ewp_bind, ewp_modify. set (s2 := with_orphans s1 _ _).
    assert (goes e fin s1 s2) as [Hf2 Hk2] by (apply final_fewer; [done|apply delete_subseteq]).
    assert (Forall (fun b => (h < height b)%Z) l) as Habove.
    { apply Forall_forall. intros b Hin. rewrite Forall_forall in Hall, Hl. destruct (Hall _ Hin) as (kb & Hb & Hlk). rewrite (child_height _ _ _ _ Ha Hb Hlk); [lia|by apply Hl]. }
    eapply ewp_mono; [apply (IH (q ++ l) h); [done| |]|intros u s3 H3; exact (goes_trans _ _ _ _ _ (kept_trans _ _ _ Hk1 Hk2) H3)|intros err s3 H3; exact (goes_trans _ _ _ _ _ (kept_trans _ _ _ Hk1 Hk2) H3)].
    + apply Forall_app. split; [done|]. apply Forall_forall. intros b Hin. rewrite Forall_forall in Hall, Habove. destruct (Hall _ Hin) as (kb & Hb & _). exists kb. split; [done|]. specialize (Habove _ Hin). lia.
    + rewrite length_app. cbn [s2 c_orphanBlockHashToChildren with_orphans].
      pose proof (above_subset h (delete ak ch) _ (delete_mono _ _ ak (proj2 Hk1))) as Hsub. revert Hfuel Habove Hsub. fold ch. unfold l. clear. destruct (ch !! ak) as [l'|] eqn:E; cbn [default]; intros Hfuel Habove Hsub.
      * rewrite (above_perm _ _ _ (entries_delete _ _ _ E)), above_app, (above_all h l') in Hfuel by done. cbn. lia.
      * rewrite (delete_id ch ak E) in Hsub. cbn. lia.
Qed.

(** ** Handling a block *)

Lemma ewp_blockExists k (Q : bool -> BlockChain -> Prop) R e fin s : final e fin s -> (forall b, Q b s) -> ewp (blockExists k) Q R s.
Proof.
  intros (_ & _ & pre & Hm) HQ. unfold blockExists. apply ewp_bind, ewp_gets. destruct (lru_Contains _ _); [by apply ewp_ret|]. apply ewp_bind, ewp_try.
  eapply ewp_load; [apply Hm|intros _; by apply ewp_ret|intros b _ _; by apply ewp_ret].
Qed.

Lemma ewp_verifyRepeatedMint b (Q : bool -> BlockChain -> Prop) R s : (forall ok s', frame s s' -> Q ok s') -> ewp (verifyRepeatedMint b) Q R s.
Proof.
  intros HQ. unfold verifyRepeatedMint. apply ewp_bind. unfold ewpf at 1, repeatedMintCache_Get. destruct (lru_Get _ _) as [o c]. apply ewp_ret, HQ. by split.
Qed.

Lemma final_addOrphan e fin b k s : final e fin s -> known U b k -> ewp (addOrphanBlock b k (prev b)) (fun _ s' => final e fin s') (fun _ _ => False) s.
Proof.
  intros Hf Hb. apply ewp_modify, final_waits; [done|]. apply map_Forall_insert_2; [|by eapply waits_children]. apply Forall_app. split; [|constructor; [by split; [exists k|]|constructor]].
  destruct (_ !! prev b) as [l|] eqn:E; [by apply (waits_children _ _ _ Hf)|constructor].
Qed.

Lemma ewp_askForParents e fin b from s : final e fin s -> ewp (askForParents b from) (fun _ s' => final e fin s') (fun _ s' => final e fin s') s.
Proof.
  intros Hf. unfold askForParents. apply ewp_bind, ewp_gets. destruct (_ && _); [|by apply ewp_ret]. destruct (_ <? _)%Z.
  - apply ewp_ledger_check; [|intros err]; intros s' F; by eapply final_frame.
  - apply ewp_publish. intros s' F. by eapply final_frame.
Qed.

Lemma orphanFuel_enough s s' h : kept s s' -> 1 + above h (entries (c_orphanBlockHashToChildren s')) < orphanFuel s.
Proof.
  intros [_ Hs]. pose proof (above_subset h _ _ Hs). pose proof (above_length h (entries (c_orphanBlockHashToChildren s))). unfold orphanFuel. unfold entries in *. lia.
Qed.

Lemma ewp_ProcessBlock e fin block k mode from s : final e fin s -> known U (with_hash block) k ->
  ewp (ProcessBlock block mode from) (fun _ s' => final e fin s') (fun _ s' => final e fin s') s.
Proof.
  intros Hf Hb. unfold ProcessBlock. apply ewp_bind, ewp_ret, ewp_bind, ewp_deref. rewrite (known_BlockHash _ _ _ Hb). intros k' [= <-].
  apply ewp_bind. eapply ewp_blockExists; [done|]. intros [|]; [by apply ewp_fail|]. apply ewp_bind, ewp_verifyRepeatedMint. intros ok s1 F1.
  assert (final e fin s1) as Hf1 by (by eapply final_frame). destruct ok; cbn [negb]; [|by apply ewp_fail].
  apply ewp_bind, ewp_ledger_check; [|intros err s2 F2; by eapply final_frame]. intros s2 F2. assert (final e fin s2) as Hf2 by (by eapply final_frame).
  apply ewp_bind. eapply ewp_blockExists; [done|]. intros [|]; cbn [negb].
  - apply ewp_bind, ewp_gets, ewp_bind. eapply ewp_mono; [apply (ewp_tryAccept e fin _ _ k); [done|done|]|intros b' s3 ([Hf3 Hk3] & _ & Hb')|by intros err s3 [Hf3 _]].
    + intros s3 Hf3 Hk3 _. apply (ewp_processOrphans e fin _ _ (height (with_hash block))); [done|constructor; [by exists k|constructor]|by apply orphanFuel_enough].
    + apply ewp_bind. eapply ewp_mono; [apply (ewp_processOrphans e fin _ _ (height b')); [done|constructor; [by exists k|constructor]|by apply orphanFuel_enough]|intros u s4 [Hf4 _]|by intros err s4 [Hf4 _]].
      apply ewp_publish. intros s5 F5. by eapply final_frame.
  - apply ewp_bind, ewp_gets. case_bool_decide; [by apply ewp_ret|]. apply ewp_bind. eapply ewp_mono; [by apply (final_addOrphan e fin _ k)| |done].
    intros u s3 Hf3. by apply ewp_askForParents.
Qed.

(** C14: Handling a block ends, whatever orphans wait for it and whatever forks it makes. *)
Theorem process_block_ends e fin block k mode from s : final e fin s -> known U (with_hash block) k -> (ProcessBlock block mode from s).1 <> EFuel.
Proof. intros Hf Hb E. pose proof (ewp_ProcessBlock e fin block k mode from s Hf Hb) as H. unfold ewpf in H. destruct (ProcessBlock block mode from s) as [r s']. cbn in E. by rewrite E in H. Qed.

(** C15: The fork of a block that is higher than the main chain: the main chain down to a common block
    is to be detached, the blocks from the new one down to it are to be attached, none of them is
    on the main chain, and they are more. *)
Theorem fork_point_found block k ks s fork detach attach s' : main s ks -> known U block k -> linked U k -> findFork block s = (EOk (fork, detach, attach), s') ->
  head attach = Some block /\ length detach < length attach /\
  exists dks fk rest aks, ks = dks ++ fk :: rest /\ known U fork fk /\ Forall2 (known U) detach dks /\ stacked U fk attach aks /\ Forall (fun k => k ∉ ks) aks.
Proof.
  intros Hm Hb Hl E. pose proof (ewp_findFork U HU g gk block k ks s Hm Hb Hl) as H. unfold ewpf in H. rewrite E in H. destruct H as (_ & (Htop & Hf) & Hlen). cbn in Hlen.
  split_and!; [|done|exact Hf]. destruct Htop as [->|Htop]; [cbn in Hlen; lia|done].
Qed.

End Final.
