(* ===== verification/Bpos.v ===== *)
(** * Bpos: who may make a block and which blocks are final (src/consensus/bpos)

    The delegates of the dynasty take turns of five seconds.  A block carries the signature of the
    delegate of its time, the hash of the dynasty and, sometimes, the signatures by which an earlier
    block became final.  The bft service collects the messages of the delegates: enough messages of
    preparation make the node send its own commitment, enough commitments make a block final.  The
    genesis contract, which keeps the dynasty, is a compiled file: what it answers is an operation
    of the class [Committee], as are the operations of the btcec package and the generated
    encodings.  The clock is an argument.  Goroutines started by a method run when it is done.
    Packing transactions and the scores, which are floating point, are not here. *)

From S2P Require Import Prelude Effects Crypto EvmMath EvmState EvmGas Abi AbiMethods Bytes Bloom Types Script ScriptKinds TxLogic Receipt Blocks Chain.
Import Script Kinds TxLogic Blocks Chain.

(** ** Delegates and messages (context.go) *)

Record Delegate := mkDelegate {
  dl_Addr : bytes; dl_PeerID : string; dl_Votes : option Z; dl_PledgeAmount : option Z; dl_Score : option Z; dl_ContinualPeriod : option Z;
  dl_CurDynastyOutputNumber : option Z; dl_TotalOutputNumber : option Z }.

Record Dynasty := mkDynasty { dy_delegates : list Delegate; dy_addrs : list bytes; dy_peers : list string }.

Record EternalBlockMsg := mkEternalBlockMsg { eb_Hash : bytes; eb_Signature : bytes; eb_Timestamp : Z }.

Record NetParams := mkNetParams { DynastySwitchThreshold : Z; BlockReward : Z; CalcScoreThreshold : Z }.

(** The generated messages; a message that is a pointer may be nil. *)
Record PbDelegate := mkPbDelegate {
  pd_Addr : bytes; pd_PeerID : string; pd_Votes : Z; pd_PledgeAmount : Z; pd_Score : Z; pd_CurDynastyOutputNumber : Z; pd_TotalOutputNumber : Z }.
Record PbEternal := mkPbEternal { pe_Hash : bytes; pe_Timestamp : Z; pe_Signature : bytes }.

Inductive PbMessage := PbDelegateMsg (m : option PbDelegate) | PbDynastyMsg (m : option (list (option PbDelegate))) | PbEternalMsg (m : option PbEternal).

Inductive BposErr `{L : Ledger} :=
  | ErrNotFoundBookkeeper | ErrNotBookkeeperPeer | ErrInvalidDynastyHash | ErrInvalidDynastySwitchTx | ErrMultipleDynastySwitchTx | ErrDynastySwitchIsNotAllowed
  | ErrFailedToVerifySign | ErrInvalidCoinbaseTx | ErrInvalidDelegateProtoMessage | ErrInvalidDynastyProtoMessage | ErrInvalidEternalBlockMsgProtoMessage | ErrEmptyMessage
  | ErrNoNeedToUpdateEternalBlock | ErrIllegalMsg | ErrNotMyTurnToProduce
  | ErrNotEnoughSignatures | ErrDuplicatedSignature | ErrInvalidSignature | ErrInvalidIrreversibleInfo
  | ErrMarshal | ErrSign | ErrAddress (e : Types.AddrError) | ErrScript (e : ScriptErr) | ErrAbi (e : AbiErr) | ErrChain (e : ChainErr) | ErrContract (e : ledgerErr).

Section Env.
Context `{L : Ledger} `{BC : Lru bytes Block} `{MC : Lru Z Block} `{C : Crypto}.

(** [btcec_RecoverCompact] answers with the key and whether the signature is for the compressed
    form of it, [None] is an error; [own_SignCompact] signs with the key of this node.
    [getDynasty], [getNetParams] and [adminNonce] read the state of the genesis contract. *)
Class Committee := {
  btcec_RecoverCompact : bytes -> bytes -> option (PublicKey * bool);
  pubkey_Serialize : PublicKey -> bytes;
  own_SignCompact : bytes -> option bytes;
  pb_dynasty_marshal : list PbDelegate -> option bytes;
  pb_eternal_unmarshal : bytes -> option PbEternal;
  ContractAddr : bytes;
  ContractAbi : ABI;
  getDynasty : Z -> BlockChain -> result ledgerErr (list Delegate);
  getNetParams : Z -> BlockChain -> result ledgerErr NetParams;
  adminNonce : Block -> bytes -> BlockChain -> result ledgerErr Z
}.

End Env.

Section State.
Context `{L : Ledger} `{BC : Lru bytes Block} `{MC : Lru Z Block} `{KC : Lru bytes bytes} `{DC : Lru Z Dynasty}.

Inductive MessageID := BlockPrepareMsg | BlockCommitMsg.

(** The parts of [Bpos], its context and its [BftService] that blocks and messages work on. *)
Record Bpos := mkBpos {
  bp_chain : BlockChain;
  bp_verifyDynasty : option Dynasty;
  bp_verifySwitchThreshold : option Z;
  bp_verifyScoreThreshold : option Z;
  bp_IsdynastyChange : bool;
  bp_IsdynastyChangeForVerify : bool;
  bp_prepareCache : gmap bytes (list bytes);
  bp_commitCache : gmap bytes (list bytes);
  bp_prepareKey : lru bytes bytes;
  bp_commitKey : lru bytes bytes;
  bp_dynastyCache : lru Z Dynasty;
  bp_sent : list (MessageID * EternalBlockMsg * list string)
}.

Definition with_chain (s : Bpos) v := mkBpos v (bp_verifyDynasty s) (bp_verifySwitchThreshold s) (bp_verifyScoreThreshold s) (bp_IsdynastyChange s) (bp_IsdynastyChangeForVerify s)
  (bp_prepareCache s) (bp_commitCache s) (bp_prepareKey s) (bp_commitKey s) (bp_dynastyCache s) (bp_sent s).
Definition with_verify (s : Bpos) d sw sc := mkBpos (bp_chain s) d sw sc (bp_IsdynastyChange s) false
  (bp_prepareCache s) (bp_commitCache s) (bp_prepareKey s) (bp_commitKey s) (bp_dynastyCache s) (bp_sent s).
Definition with_change (s : Bpos) v := mkBpos (bp_chain s) (bp_verifyDynasty s) (bp_verifySwitchThreshold s) (bp_verifyScoreThreshold s) v (bp_IsdynastyChangeForVerify s)
  (bp_prepareCache s) (bp_commitCache s) (bp_prepareKey s) (bp_commitKey s) (bp_dynastyCache s) (bp_sent s).
Definition with_prepare (s : Bpos) v k := mkBpos (bp_chain s) (bp_verifyDynasty s) (bp_verifySwitchThreshold s) (bp_verifyScoreThreshold s) (bp_IsdynastyChange s) (bp_IsdynastyChangeForVerify s)
  v (bp_commitCache s) k (bp_commitKey s) (bp_dynastyCache s) (bp_sent s).
Definition with_commit (s : Bpos) v k := mkBpos (bp_chain s) (bp_verifyDynasty s) (bp_verifySwitchThreshold s) (bp_verifyScoreThreshold s) (bp_IsdynastyChange s) (bp_IsdynastyChangeForVerify s)
  (bp_prepareCache s) v (bp_prepareKey s) k (bp_dynastyCache s) (bp_sent s).
Definition with_dynasties (s : Bpos) v := mkBpos (bp_chain s) (bp_verifyDynasty s) (bp_verifySwitchThreshold s) (bp_verifyScoreThreshold s) (bp_IsdynastyChange s) (bp_IsdynastyChangeForVerify s)
  (bp_prepareCache s) (bp_commitCache s) (bp_prepareKey s) (bp_commitKey s) v (bp_sent s).
Definition with_sent (s : Bpos) v := mkBpos (bp_chain s) (bp_verifyDynasty s) (bp_verifySwitchThreshold s) (bp_verifyScoreThreshold s) (bp_IsdynastyChange s) (bp_IsdynastyChangeForVerify s)
  (bp_prepareCache s) (bp_commitCache s) (bp_prepareKey s) (bp_commitKey s) (bp_dynastyCache s) (bp_sent s ++ [v]).

End State.

Module Bpos.

Definition SecondInMs : Z := 1000.
Definition BookkeeperRefreshInterval : Z := 5000.
Definition MaxEternalBlockMsgCacheTime : Z := 5.
Definition CalcBonus : string := "calcBonus".
Definition ExecBonus : string := "execBonus".
Definition Admin : string := "b1na9uCQXA26d94w1tWrttnnsfjKNz9M2EF".

(** ** Wire messages of the delegates (context.go) *)

Section Messages.
Context `{L : Ledger} `{BC : Lru bytes Block} `{MC : Lru Z Block} `{C : Crypto} {CO : Committee}.

Definition Delegate_ToProtoMessage (d : Delegate) : PbDelegate := mkPbDelegate (dl_Addr d) (dl_PeerID d) 0 0 0 0 0.

Definition Delegate_FromProtoMessage (d : Delegate) (message : PbMessage) : result BposErr Delegate :=
  match message with
  | PbDelegateMsg (Some m) =>
      Ok (mkDelegate (take 20 (pd_Addr m) ++ drop (length (pd_Addr m)) (dl_Addr d)) (pd_PeerID m) (Some (pd_Votes m)) (Some (pd_PledgeAmount m)) (Some (pd_Score m))
            (dl_ContinualPeriod d) (Some (pd_CurDynastyOutputNumber m)) (Some (pd_TotalOutputNumber m)))
  | PbDelegateMsg None => Err ErrEmptyMessage
  | _ => Err ErrInvalidDelegateProtoMessage
  end.

(** [new(Delegate)]. *)
Definition newDelegate : Delegate := mkDelegate Types.ZeroAddressHash EmptyString None None None None None None.

Definition Dynasty_ToProtoMessage (d : Dynasty) : list PbDelegate := map Delegate_ToProtoMessage (dy_delegates d).

Fixpoint delegates_FromProtoMessage (l : list (option PbDelegate)) : result BposErr (list Delegate) :=
  match l with
  | [] => Ok []
  | m :: l =>
      d ← Delegate_FromProtoMessage newDelegate (PbDelegateMsg m);
      ds ← delegates_FromProtoMessage l;
      Ok (d :: ds)
  end.

(** The addresses and peers are not set. *)
Definition Dynasty_FromProtoMessage (d : Dynasty) (message : PbMessage) : result BposErr Dynasty :=
  match message with
  | PbDynastyMsg (Some l) => ds ← delegates_FromProtoMessage l; Ok (mkDynasty ds (dy_addrs d) (dy_peers d))
  | PbDynastyMsg None => Err ErrEmptyMessage
  | _ => Err ErrInvalidDynastyProtoMessage
  end.

Definition Dynasty_Marshal (d : Dynasty) : result BposErr bytes :=
  match pb_dynasty_marshal (Dynasty_ToProtoMessage d) with Some data => Ok data | None => Err ErrMarshal end.

(** [Unmarshal] of a delegate and of a dynasty read another kind of message. *)
Definition Delegate_Unmarshal (d : Delegate) (data : bytes) : result BposErr Delegate :=
  match pb_eternal_unmarshal data with None => Err ErrMarshal | Some m => Delegate_FromProtoMessage d (PbEternalMsg (Some m)) end.

Definition Dynasty_Unmarshal (d : Dynasty) (data : bytes) : result BposErr Dynasty :=
  match pb_eternal_unmarshal data with None => Err ErrMarshal | Some m => Dynasty_FromProtoMessage d (PbEternalMsg (Some m)) end.

Definition EternalBlockMsg_ToProtoMessage (e : EternalBlockMsg) : PbEternal := mkPbEternal (eb_Hash e) (eb_Timestamp e) (eb_Signature e).

Definition EternalBlockMsg_FromProtoMessage (message : PbMessage) : result BposErr EternalBlockMsg :=
  match message with
  | PbEternalMsg (Some m) => Ok (mkEternalBlockMsg (Types.copyHash (pe_Hash m)) (pe_Signature m) (pe_Timestamp m))
  | PbEternalMsg None => Err ErrEmptyMessage
  | _ => Err ErrInvalidEternalBlockMsgProtoMessage
  end.

Definition EternalBlockMsg_Unmarshal (data : bytes) : result BposErr EternalBlockMsg :=
  match pb_eternal_unmarshal data with None => Err ErrMarshal | Some m => EternalBlockMsg_FromProtoMessage (PbEternalMsg (Some m)) end.

(** ** Signatures *)

(** [crypto.RecoverCompact]: the second answer of the package is read as a failure, and the
    message of an error that is nil is printed. *)
Definition RecoverCompact (digest sig : bytes) : go (option PublicKey) :=
  match btcec_RecoverCompact sig digest with
  | None => Returns None
  | Some (key, true) => Returns (Some key)
  | Some (_, false) => Panics
  end.

Definition NewAddressFromPubKey (key : PublicKey) : result BposErr bytes :=
  match Types.NewAddressPubKeyHash (Crypto.Hash160 (pubkey_Serialize key)) with Ok a => Ok a | Err e => Err (ErrAddress e) end.

Definition InAddresses (addr : bytes) (addrs : list bytes) : bool := bool_decide (addr ∈ addrs).
Definition InBytes (o : bytes) (l : list bytes) : bool := bool_decide (o ∈ l).
Definition InStrings (o : string) (l : list string) : bool := bool_decide (o ∈ l).

(** ** Turns *)

(** Division by a dynasty of nobody panics. *)
Definition FindProposerWithTimeStamp (timestamp : Z) (delegates : list Delegate) : go (result BposErr bytes) :=
  let dynastySize := Z.of_nat (length delegates) in
  if (dynastySize =? 0)%Z then Panics
  else
    let offsetPeriod := Z.rem (i64 (timestamp * SecondInMs)) (i64 (BookkeeperRefreshInterval * dynastySize)) in
    let offset := Z.rem (Z.quot offsetPeriod BookkeeperRefreshInterval) dynastySize in
    if (0 <=? offset)%Z && (offset <? dynastySize)%Z then
      match delegates !! Z.to_nat offset with Some d => Returns (Ok (dl_Addr d)) | None => Panics end
    else Returns (Err ErrNotFoundBookkeeper).

(** [own] is the address of the account of this node. *)
Definition verifyBookkeeper (own : bytes) (timestamp : Z) (delegates : list Delegate) : go (result BposErr unit) :=
  match FindProposerWithTimeStamp timestamp delegates with
  | Panics => Panics
  | Returns (Err e) => Returns (Err e)
  | Returns (Ok bookkeeper) => Returns (if bool_decide (bookkeeper = own) then Ok tt else Err ErrNotMyTurnToProduce)
  end.

(** The slice is made with its length and then appended to. *)
Definition filterCandidates (delegates miners : list Delegate) : list Delegate :=
  if length delegates <? length miners then []
  else
    replicate (length delegates - length miners) (mkDelegate Types.ZeroAddressHash EmptyString None None None None None None)
    ++ filter (fun d => dl_PeerID d ∉ map dl_PeerID miners) delegates.

End Messages.

(** ** Verifying a block (bpos.go) *)

Section Bpos.
Context `{L : Ledger} `{BC : Lru bytes Block} `{MC : Lru Z Block} `{KC : Lru bytes bytes} `{DC : Lru Z Dynasty}.
Context `{C : Crypto} `{HC : HeaderCodec} `{PB : BlockCodec} `{TC : TxCodec} `{K : Keccak} `{VO : VisitOrder} {CO : Committee}.

Abbreviation BM := (EM Bpos BposErr).

(** A call of the chain, of code that may panic, and of the contract. *)
Definition on_chain {A} (c : EM BlockChain ChainErr A) : BM A := fun s =>
  match c (bp_chain s) with
  | (EOk a, v) => (EOk a, with_chain s v)
  | (EErr e, v) => (EErr (ErrChain e), with_chain s v)
  | (EPanic, v) => (EPanic, with_chain s v)
  | (EFuel, v) => (EFuel, with_chain s v)
  end.

Definition from_result {A} (r : result BposErr A) : BM A := match r with Ok a => mret a | Err e => e_fail e end.

Definition from_go {A} (g : go A) : BM A := match g with Returns a => mret a | Panics => e_panic end.

Definition ask {A} (f : BlockChain -> result ledgerErr A) : BM A :=
  r ← e_gets (fun s => f (bp_chain s)); match r with Ok a => mret a | Err e => e_fail (ErrContract e) end.

Definition fetchDynastyByHeight (h : Z) : BM Dynasty :=
  dynasty ← ask (getDynasty h);
  mret (mkDynasty dynasty (map dl_Addr dynasty) (map dl_PeerID dynasty)).

Definition updateVerifyContext (block : Block) : BM unit :=
  let h := if (0 <? height block)%Z then (height block - 1)%Z else 0%Z in
  change ← e_gets bp_IsdynastyChangeForVerify;
  if change : bool then
    dynasty ← fetchDynastyByHeight h;
    netParams ← ask (getNetParams h);
    e_modify (fun s => with_verify s (Some dynasty) (Some (DynastySwitchThreshold netParams)) (Some (CalcScoreThreshold netParams)))
  else mret tt.

Definition the_verifyDynasty : BM Dynasty := d ← e_gets bp_verifyDynasty; e_deref d.

Definition verifySign (block : Block) : BM bool :=
  _ ← updateVerifyContext block;
  dynasty ← the_verifyDynasty;
  r ← from_go (FindProposerWithTimeStamp (h_TimeStamp (b_Header block)) (dy_delegates dynasty));
  bookkeeper ← from_result r;
  hash ← e_deref (BlockHash block);
  key ← from_go (RecoverCompact hash (b_Signature block));
  match key with
  | None => mret false
  | Some key => addr ← from_result (NewAddressFromPubKey key); mret (bool_decide (addr = bookkeeper))
  end.

Definition verifyDynasty (block : Block) : BM unit :=
  if (0 <? height block)%Z then
    dynasty ← the_verifyDynasty;
    dynastyBytes ← from_result (Dynasty_Marshal dynasty);
    if bool_decide (h_DynastyHash (b_Header block) = Crypto.DoubleHashH dynastyBytes) then mret tt else e_fail ErrInvalidDynastyHash
  else mret tt.

Definition quorum (d : Dynasty) : nat := 2 * length (dy_delegates d) / 3.

(** The signatures one after the other, with the addresses found so far. *)
Fixpoint checkSignatures (hash : bytes) (addrs : list bytes) (sigs remains : list bytes) : BM (list bytes) :=
  match sigs with
  | [] => mret remains
  | v :: sigs =>
      key ← from_go (RecoverCompact hash v);
      match key with
      | None => e_fail ErrInvalidSignature
      | Some key =>
          addr ← from_result (NewAddressFromPubKey key);
          if InAddresses addr addrs then
            if negb (InAddresses addr remains) then checkSignatures hash addrs sigs (remains ++ [addr]) else e_fail ErrDuplicatedSignature
          else e_fail ErrInvalidSignature
      end
  end.

Definition verifyIrreversibleInfo (block : Block) : BM unit :=
  match b_Irreversible block with
  | None => mret tt
  | Some info =>
      dynasty ← the_verifyDynasty;
      if length (ii_Signatures info) <? quorum dynasty then e_fail ErrNotEnoughSignatures
      else
        remains ← checkSignatures (ii_Hash info) (dy_addrs dynasty) (ii_Signatures info) [];
        if length remains <? quorum dynasty then e_fail ErrInvalidIrreversibleInfo else mret tt
  end.

(** ** Transactions of the genesis contract (blockchain.go, tx_utils.go) *)

Definition MakeContractCallVout (from : bytes) (to : bytes) (amount gas nonce : Z) : result ScriptErr TxOut :=
  vs ← MakeContractScriptPubkey (Some from) (Some to) gas nonce VMVersion;
  Ok (mkTxOut amount vs).

(** The error is not looked at; for this limit of gas there is none. *)
Definition MakeGenesisContractTx (blockHeight txIdx : Z) (from genesisAddr : bytes) (nonce : Z) (code : bytes) : Transaction :=
  let vout := match MakeContractCallVout from genesisAddr 0 1000000000 nonce with Ok v => [v] | Err _ => [] end in
  mkTx ContractTx 1 [mkTxIn (Types.NewOutPoint None txIdx) (Script.StandardCoinbaseSignatureScript blockHeight) Types.MaxUint32] vout (Some (mkTxData 1 code)) 0 0.

Definition adminAddress : BM bytes :=
  match Types.AddressPubKeyHash_SetString Admin with Ok a => mret a | Err e => e_fail (ErrAddress e) end.

Definition packCall (method : string) : BM bytes :=
  r ← from_go (AbiMethods.ABI_Pack ContractAbi method []); match r with Ok code => mret code | Err e => e_fail (ErrAbi e) end.

Definition MakeCoinBaseContractTx (bookKeeper : bytes) (reward txFee nonce blockHeight : Z) : BM Transaction :=
  contractAddr ← match Types.NewContractAddressFromHash ContractAddr with Ok a => mret a | Err e => e_fail (ErrAddress e) end;
  admin ← adminAddress;
  vout ← match MakeContractCallVout admin contractAddr reward 1000000000 nonce with Ok v => mret v | Err e => e_fail (ErrScript e) end;
  let feeVout := if (0 <? txFee)%Z then [MakeVout bookKeeper txFee] else [] in
  code ← packCall CalcBonus;
  mret (mkTx ContractTx 1 [mkTxIn (Types.NewOutPoint None Types.MaxUint32) (Script.StandardCoinbaseSignatureScript blockHeight) Types.MaxUint32]
          (vout :: feeVout) (Some (mkTxData 1 code)) 0 0).

Definition MakeDynastySwitchTx (from : bytes) (nonce blockHeight : Z) : BM Transaction :=
  code ← packCall ExecBonus;
  mret (MakeGenesisContractTx blockHeight (Types.MaxUint32 - 1) from ContractAddr nonce code).

Definition txMarshal (tx : Transaction) : BM bytes := match Types.tx_marshal tx with Some d => mret d | None => e_fail ErrMarshal end.

(** The two kinds of transaction that [verifyImmutableTx] is asked for. *)
Inductive ImmutableTx := CalcBonusTx | ExecBonusTx.

Definition verifyImmutableTx (block : Block) (ty : ImmutableTx) : BM unit :=
  parent ← on_chain (GetParentBlock block);
  parent ← e_deref parent;
  from ← adminAddress;
  nonce ← ask (adminNonce parent from);
  match ty with
  | CalcBonusTx =>
      coinbase ← e_deref (b_Txs block !! 0);
      reward ← e_deref (Vout coinbase !! 0);
      let totalTransferFee := match Vout coinbase !! 1 with Some o => Value o | None => 0%Z end in
      tx ← MakeCoinBaseContractTx (h_BookKeeper (b_Header block)) (Value reward) totalTransferFee (u64 (nonce + 1)) (height block);
      expect ← txMarshal tx;
      current ← txMarshal coinbase;
      if bool_decide (expect = current) then mret tt else e_fail ErrInvalidCoinbaseTx
  | ExecBonusTx =>
      tx ← MakeDynastySwitchTx from (u64 (nonce + 2)) (height block);
      expect ← txMarshal tx;
      second ← e_deref (b_Txs block !! 1);
      current ← txMarshal second;
      if bool_decide (expect = current) then mret tt else e_fail ErrInvalidDynastySwitchTx
  end.

(** [block.Txs[2:]] needs two transactions. *)
Definition verifyInternalContractTx (block : Block) : BM unit :=
  _ ← verifyImmutableTx block CalcBonusTx;
  sw ← e_gets bp_verifySwitchThreshold;
  sw ← e_deref sw;
  sc ← e_gets bp_verifyScoreThreshold;
  sc ← e_deref sc;
  let switchHeight := u64 sw in
  let scoreHeight := u64 sc in
  if (switchHeight =? 0)%Z then e_panic
  else
    let switches := ((u32 (height block + 1)) mod switchHeight =? 0)%Z in
    _ ← if switches then _ ← verifyImmutableTx block ExecBonusTx; e_modify (fun s => with_change s true) else mret tt;
    if switches || (height block mod switchHeight =? scoreHeight)%Z then
      if length (b_Txs block) <? 2 then e_panic
      else if existsb IsInternalContract (drop 2 (b_Txs block)) then e_fail ErrMultipleDynastySwitchTx else mret tt
    else if existsb IsInternalContract (b_Txs block) then e_fail ErrDynastySwitchIsNotAllowed else mret tt.

Definition Verify (block : Block) : BM unit :=
  ok ← verifySign block;
  if negb ok then e_fail ErrFailedToVerifySign
  else
    _ ← verifyInternalContractTx block;
    _ ← verifyDynasty block;
    verifyIrreversibleInfo block.

Definition SignCompact (digest : bytes) : BM bytes := match own_SignCompact digest with Some sig => mret sig | None => e_fail ErrSign end.

Definition signBlock (block : Block) : BM Block :=
  hash ← e_deref (BlockHash block);
  signature ← SignCompact hash;
  mret (mkBlock (Some hash) (b_Header block) (b_Txs block) (b_InternalTxs block) signature (b_Irreversible block)).

Definition BroadcastBFTMsgToBookkeepers (block : Block) (messageID : MessageID) : BM unit :=
  hash ← e_deref (BlockHash block);
  signature ← SignCompact hash;
  dynasty ← the_verifyDynasty;
  e_modify (fun s => with_sent s (messageID, mkEternalBlockMsg hash signature (h_TimeStamp (b_Header block)), dy_peers dynasty)).

(** ** Final blocks (bft_service.go) *)

(** The error of the load is not looked at, and the block is nil then. *)
Definition updateEternal (block : Block) : EM BlockChain ChainErr unit :=
  eternal ← e_gets c_eternal;
  if (height block <=? height eternal)%Z then mret tt
  else
    r ← e_try (LoadBlockByHeight (height block));
    b ← e_deref (match r with Ok b => Some b | Err _ => None end);
    if negb (Crypto.IsEqual (BlockHash b) (BlockHash block)) then mret tt
    else _ ← e_try (SetEternal block); mret tt.

Definition TryToUpdateEternalBlock (src : Block) : BM unit :=
  match b_Irreversible src with
  | None => mret tt
  | Some info =>
      dynasty ← the_verifyDynasty;
      if quorum dynasty <=? length (ii_Signatures info) then
        r ← e_try (on_chain (LoadBlockByHash (ii_Hash info)));
        match r with Err _ => mret tt | Ok block => on_chain (updateEternal block) end
      else mret tt
  end.

(** [IsBookkeeper] is an argument. *)
Definition Finalize (isBookkeeper : bool) (now : Z) (block : Block) : BM unit :=
  _ ← updateVerifyContext block;
  parent ← on_chain (GetParentBlock block);
  parent ← e_deref parent;
  _ ← if isBookkeeper && (i64 (now - h_TimeStamp (b_Header parent)) <? MaxEternalBlockMsgCacheTime)%Z
      then _ ← e_try (BroadcastBFTMsgToBookkeepers parent BlockPrepareMsg); mret tt else mret tt;
  TryToUpdateEternalBlock parent.

(** [from] is the peer that sent the message. *)
Definition preCheck (now : Z) (from : string) (body : bytes) : BM (EternalBlockMsg * Block) :=
  msg ← from_result (EternalBlockMsg_Unmarshal body);
  block ← on_chain (LoadBlockByHash (eb_Hash msg));
  eternal ← e_gets (fun s => c_eternal (bp_chain s));
  if (height block <? height eternal)%Z then e_fail ErrNoNeedToUpdateEternalBlock
  else
    dynasty ← fetchDynastyByHeight (height block);
    if negb (InStrings from (dy_peers dynasty)) then e_fail ErrNotBookkeeperPeer
    else if (now <? eb_Timestamp msg)%Z || (MaxEternalBlockMsgCacheTime <? i64 (now - eb_Timestamp msg))%Z then e_fail ErrIllegalMsg
    else mret (msg, block).

(** The dynasty of a height, from the cache if it is there; it is cached under the height of the
    block. *)
Definition dynastyAt (h blockHeight : Z) : BM Dynasty := fun s =>
  let '(o, c) := lru_Get (bp_dynastyCache s) h in
  match o with
  | Some d => (EOk d, with_dynasties s c)
  | None => (d ← fetchDynastyByHeight h; _ ← e_modify (fun s => with_dynasties s (lru_Add (bp_dynastyCache s) blockHeight d)); mret d) (with_dynasties s c)
  end.

(** The address that signed, when it is a delegate with this peer. *)
Definition isDelegate (d : Dynasty) (addr : bytes) (from : string) : bool :=
  existsb (fun v => bool_decide (dl_Addr v = addr) && bool_decide (from = dl_PeerID v)) (dy_delegates d).

Definition handleBlockPrepareMsg (now : Z) (from : string) (body : bytes) : BM unit :=
  '(msg, block) ← preCheck now from body;
  let key := eb_Hash msg in
  let signature := eb_Signature msg in
  done_ ← e_gets (fun s => lru_Contains (bp_prepareKey s) key);
  if done_ : bool then mret tt
  else
    pubkey ← from_go (RecoverCompact key signature);
    match pubkey with
    | None => mret tt
    | Some pubkey =>
        addr ← from_result (NewAddressFromPubKey pubkey);
        dynasty ← dynastyAt (height block) (height block);
        if negb (isDelegate dynasty addr from) then e_fail ErrNotBookkeeperPeer
        else
          cached ← e_gets (fun s => bp_prepareCache s !! key);
          match cached with
          | None => e_modify (fun s => with_prepare s (<[key := [signature]]> (bp_prepareCache s)) (bp_prepareKey s))
          | Some value =>
              if InBytes signature value then mret tt
              else
                let value := value ++ [signature] in
                _ ← e_modify (fun s => with_prepare s (<[key := value]> (bp_prepareCache s)) (bp_prepareKey s));
                if quorum dynasty <=? length value then
                  _ ← e_modify (fun s => with_prepare s (bp_prepareCache s) (lru_Add (bp_prepareKey s) key key));
                  _ ← e_try (BroadcastBFTMsgToBookkeepers block BlockCommitMsg);
                  e_modify (fun s => with_prepare s (delete key (bp_prepareCache s)) (bp_prepareKey s))
                else mret tt
          end
    end.

Definition handleBlockCommitMsg (now : Z) (from : string) (body : bytes) : BM unit :=
  '(msg, block) ← preCheck now from body;
  let key := eb_Hash msg in
  let signature := eb_Signature msg in
  done_ ← e_gets (fun s => lru_Contains (bp_commitKey s) key);
  if done_ : bool then mret tt
  else
    pubkey ← from_go (RecoverCompact key signature);
    match pubkey with
    | None => mret tt
    | Some pubkey =>
        addr ← from_result (NewAddressFromPubKey pubkey);
        dynasty ← dynastyAt (height block) (height block);
        if negb (isDelegate dynasty addr from) then e_fail ErrNotBookkeeperPeer
        else
          cached ← e_gets (fun s => bp_commitCache s !! key);
          match cached with
          | None => e_modify (fun s => with_commit s (<[key := [signature]]> (bp_commitCache s)) (bp_commitKey s))
          | Some value =>
              if InBytes signature value then mret tt
              else
                let value := value ++ [signature] in
                _ ← e_modify (fun s => with_commit s (<[key := value]> (bp_commitCache s)) (bp_commitKey s));
                if quorum dynasty <=? length value then
                  _ ← e_modify (fun s => with_commit s (bp_commitCache s) (lru_Add (bp_commitKey s) key key));
                  on_chain (updateEternal block)
                else mret tt
          end
    end.

(** The loop of [FetchIrreversibleInfo] in [n] turns, with the offset it ends with. *)
Fixpoint searchIrreversible (n : nat) (offset h : Z) : BM (option IrreversibleInfo * Z) :=
  match n with
  | O => mret (None, offset)
  | S n =>
      if (0 <=? offset)%Z && (0 <? h)%Z then
        r ← e_try (on_chain (LoadBlockByHeight h));
        match r with
        | Err _ => searchIrreversible n (offset - 1) (h - 1)
        | Ok block =>
            blockHash ← e_deref (BlockHash block);
            value ← e_gets (fun s => bp_commitCache s !! blockHash);
            match value with
            | None => searchIrreversible n (offset - 1) (h - 1)
            | Some signatures =>
                r ← e_try (dynastyAt h (height block));
                match r with
                | Err _ => searchIrreversible n (offset - 1) (h - 1)
                | Ok dynasty =>
                    if quorum dynasty <=? length signatures then
                      _ ← e_modify (fun s => with_commit s (delete blockHash (bp_commitCache s)) (bp_commitKey s));
                      mret (Some (mkIrreversible blockHash signatures), offset)
                    else searchIrreversible n (offset - 1) (h - 1)
                end
            end
        end
      else mret (None, offset)
  end.

Definition FetchIrreversibleInfo (now : Z) : BM (option IrreversibleInfo) :=
  tailHeight ← e_gets (fun s => height (c_tail (bp_chain s)));
  let interval := Z.quot BookkeeperRefreshInterval SecondInMs in
  let offset := Z.rem now interval in
  if (tailHeight =? 0)%Z then mret None
  else
    '(info, offset) ← searchIrreversible (Z.to_nat (offset + 1)) offset tailHeight;
    match info with
    | Some info => mret (Some info)
    | None =>
        if (offset =? interval - 1)%Z then _ ← e_modify (fun s => with_commit s ∅ (bp_commitKey s)); mret None
        else mret None
    end.

End Bpos.
End Bpos.
