(* ===== verification/BposFacts.v ===== *)
(** * BposFacts: final blocks stay, and are signed

    Whatever blocks and messages a node handles, in whatever order, the chain up to a block that
    was final stays part of its main chain.  The signatures a block carries for a final block are
    those of as many different delegates as the quorum asks for; the messages of the bft service
    are counted by signature only. *)

From S2P Require Import Prelude Effects Crypto EvmMath EvmState EvmGas Abi AbiMethods Bytes Bloom Types Script ScriptKinds TxLogic Receipt Blocks Chain ChainFacts ChainMain Bpos.
Import Script Kinds TxLogic Blocks Chain Bpos.

(** ** Finality *)

Section Finality.
Context `{L : Ledger} `{BC : Lru bytes Block} {BCL : LruLaws bytes Block BC} `{MC : Lru Z Block} `{KC : Lru bytes bytes} `{DC : Lru Z Dynasty}.
Context `{C : Crypto} `{HC : HeaderCodec} `{PB : BlockCodec} {PBL : BlockCodecLaws PB} `{TC : TxCodec} `{K : Keccak} `{VO : VisitOrder} {CO : Committee}.
Context (U : bytes -> bytes -> Z -> Prop) (HU : universe U) (g : Block) (gk : bytes).

Abbreviation final := (final U g gk).
Abbreviation BM := (EM Bpos BposErr).

(** The main chain still ends in [fin], and so does the final part of it. *)
Definition grows (fin : list bytes) (s : BlockChain) : Prop := exists e' fin', final e' fin' s /\ fin `suffix_of` fin'.

Lemma final_grows e fin s : final e fin s -> grows fin s.
Proof. intros H. exists e, fin. by split. Qed.

Lemma grows_frame fin s s' : grows fin s -> frame s s' -> grows fin s'.
Proof. intros (e & fin' & H & Hs) F. exists e, fin'. split; [by eapply final_frame|done]. Qed.

(** The block of a height is the one of the main chain. *)
Lemma ewp_loadByHeight h ks (Q : Block -> BlockChain -> Prop) (R : ChainErr -> BlockChain -> Prop) s : main U g gk s ks ->
  (forall b k, known U b k -> (h = 0%Z /\ k = gk \/ (ks !! Z.to_nat (height (c_tail s) - h) = Some k /\ h <= height (c_tail s))%Z) -> Q b s) -> (forall e, R e s) ->
  (0 <= h)%Z -> ewp (LoadBlockByHeight h) Q R s.
Proof.
  intros Hm HQ HR H0. unfold LoadBlockByHeight. destruct (so_genesis _ _ _ _ (ma_store _ _ _ _ _ Hm)) as (Eg & Hg & _).
  destruct (Z.eqb_spec h 0) as [->|Hne]; [apply ewp_gets; rewrite Eg; apply (HQ _ gk); [done|by left]|].
  apply ewp_bind, ewp_gets. rewrite (ma_index _ _ _ _ _ Hm) by lia. destruct (Z.leb_spec h (height (c_tail s))) as [Hle|]; [|by apply ewp_fail].
  destruct (ks !! _) as [k|] eqn:E; [|by apply ewp_fail]. eapply ewp_load; [apply Hm|done|]. intros b Hb _. apply (HQ b k); [done|by right].
Qed.

(** A block on the main chain above the final part. *)
Lemma final_move pre fin block k s r : main U g gk s (pre ++ fin) -> known U block k -> (Z.of_nat (length fin) <= height block <= height (c_tail s))%Z ->
  (pre ++ fin) !! Z.to_nat (height (c_tail s) - height block) = Some k -> grows fin (with_eternal s r block).
Proof.
  intros Hm Hb Hle Ej. destruct (path_length _ _ _ _ (ma_path _ _ _ _ _ Hm)) as [Elen _]. rewrite length_app in Elen. rewrite lookup_app_l in Ej by lia.
  apply list_elem_of_split_length in Ej as (p1 & p2 & -> & _). exists block, (k :: p2 ++ fin). split; [|by exists (k :: p2)].
  split; [done|]. split; [by exists k|]. exists p1. rewrite <- app_assoc in Hm. cbn in Hm. destruct Hm as [[S1 S2 S3 S4] H2 H3 H4 H5 H6]. by split; [split|..].
Qed.

Lemma ewp_updateEternal fin block k s : grows fin s -> known U block k -> ewp (updateEternal block) (fun _ s' => grows fin s') (fun _ _ => False) s.
Proof.
  intros (e & fin' & Hf & Hsuf) Hb. unfold updateEternal. apply ewp_bind, ewp_gets. pose proof Hf as (He & _ & pre0 & Hm). rewrite He.
  assert (grows fin s) as Hg by (by exists e, fin'). destruct (Z.leb_spec (height block) (height e)) as [|Hlt]; [by apply ewp_ret|].
  pose proof (u_height _ HU _ _ _ (kn_link _ _ _ Hb)). pose proof (final_height _ HU _ _ _ _ _ Hf) as Eh.
  assert (0 < length fin') as Hlen by (destruct Hf as (_ & (k0 & Hk0 & _) & _); destruct fin'; [done|cbn; lia]).
  apply ewp_bind, ewp_try. eapply ewp_loadByHeight; [exact Hm| |intros err; by apply ewp_bind, ewp_deref|lia].
  intros b kb Hkb [[? _]|[Hj Hle]]; [lia|]. apply ewp_bind, ewp_deref. intros b' [= <-]. rewrite (known_BlockHash _ _ _ Hkb), (known_BlockHash _ _ _ Hb). cbn [Crypto.IsEqual].
  case_bool_decide as E; cbn [negb]; [|by apply ewp_ret]. subst kb. apply ewp_bind, ewp_try. unfold SetEternal. apply ewp_bind, ewp_gets. rewrite He.
  destruct (Z.ltb_spec (height e) (height block)); [|by apply ewp_fail, ewp_ret]. apply ewp_bind, ewp_marshal; [|intros err; by apply ewp_ret]. intros d _. apply ewp_modify, ewp_ret.
  assert (grows fin' (with_eternal s (Some d) block)) as (e2 & fin2 & Hf2 & Hs2); [|exists e2, fin2; split; [done|by etrans]].
  eapply (final_move pre0 fin' block k s); [done|done|lia|done].
Qed.

(** ** Every handler keeps what is final *)

(** [c] keeps the final part of the chain, and its answer has the property [P]. *)
Definition keeps {A} (P : A -> Prop) (c : BM A) : Prop := forall fin s, grows fin (bp_chain s) ->
  ewp c (fun a s' => grows fin (bp_chain s') /\ P a) (fun _ s' => grows fin (bp_chain s')) s.

Lemma keeps_bind {A B} (P : A -> Prop) (Q : B -> Prop) (c : BM A) (k : A -> BM B) : keeps P c -> (forall a, P a -> keeps Q (k a)) -> keeps Q (c ≫= k).
Proof. intros Hc Hk fin s Hs. apply ewp_bind. eapply ewp_mono; [by apply Hc|intros a s' [H1 H2]; by apply Hk|done]. Qed.
Lemma keeps_ret {A} (P : A -> Prop) a : P a -> keeps P (mret a).
Proof. by intros H fin s Hs. Qed.
Lemma keeps_fail {A} (P : A -> Prop) e : keeps P (e_fail e).
Proof. by intros fin s Hs. Qed.
Lemma keeps_panic {A} (P : A -> Prop) : keeps P e_panic.
Proof. by intros fin s Hs. Qed.
Lemma keeps_gets {A} (f : Bpos -> A) : keeps (fun _ => True) (e_gets f).
Proof. by intros fin s Hs. Qed.
Lemma keeps_deref {A} (o : option A) : keeps (fun _ => True) (e_deref o).
Proof. intros fin s Hs. by destruct o. Qed.
Lemma keeps_modify f : (forall s, bp_chain (f s) = bp_chain s) -> keeps (fun _ => True) (e_modify f).
Proof. intros Hf fin s Hs. apply ewp_modify. by rewrite Hf. Qed.
Lemma keeps_from_go {A} (x : go A) : keeps (fun _ => True) (from_go x).
Proof. intros fin s Hs. by destruct x. Qed.
Lemma keeps_from_result {A} (r : result BposErr A) : keeps (fun _ => True) (from_result r).
Proof. intros fin s Hs. by destruct r. Qed.
Lemma keeps_ask {A} (f : BlockChain -> result ledgerErr A) : keeps (fun _ => True) (ask f).
Proof. intros fin s Hs. unfold ask. apply ewp_bind, ewp_gets. by destruct (f _). Qed.

Lemma keeps_try {A} (P : A -> Prop) (c : BM A) : keeps P c -> keeps (fun r => match r with Ok a => P a | Err _ => True end) (e_try c).
Proof. intros Hc fin s Hs. apply ewp_try. eapply ewp_mono; [by apply Hc|done|done]. Qed.

Lemma keeps_tried {A} (c : BM A) : keeps (fun _ => True) c -> keeps (fun _ => True) (e_try c).
Proof. intros Hc fin s Hs. apply ewp_try. eapply ewp_mono; [by apply Hc|done|done]. Qed.

Lemma keeps_on_chain {A} (P : A -> Prop) (c : EM BlockChain ChainErr A) :
  (forall fin s, grows fin s -> ewp c (fun a s' => grows fin s' /\ P a) (fun _ s' => grows fin s') s) -> keeps P (on_chain c).
Proof. intros Hc fin s Hs. specialize (Hc fin _ Hs). unfold ewpf, on_chain in *. by destruct (c (bp_chain s)) as [[] v]. Qed.

Create HintDb keeps discriminated.
#[local] Hint Resolve keeps_fail keeps_panic keeps_gets keeps_deref keeps_from_go keeps_from_result keeps_ask : keeps.

Ltac keeps_step :=
  match goal with
  | |- keeps _ (mret _) => apply keeps_ret; try done
  | |- keeps _ (e_modify _) => apply keeps_modify; done
  | |- keeps _ (_ ≫= _) => eapply keeps_bind; [solve [eauto with keeps]|intros ? ?]
  | |- keeps _ (_ ≫= _) => eapply (keeps_bind (fun _ => True)); [|intros ? ?]
  | |- keeps _ (match ?x with _ => _ end) => destruct x eqn:?
  | |- keeps _ _ => solve [eauto with keeps]
  end.
Ltac keeps := repeat keeps_step.

Lemma keeps_fetchDynasty h : keeps (fun _ => True) (fetchDynastyByHeight h).
Proof. unfold fetchDynastyByHeight. keeps. Qed.
#[local] Hint Resolve keeps_fetchDynasty : keeps.

Lemma keeps_verifyContext b : keeps (fun _ => True) (updateVerifyContext b).
Proof. unfold updateVerifyContext. keeps. Qed.
Lemma keeps_theDynasty : keeps (fun _ => True) the_verifyDynasty.
Proof. unfold the_verifyDynasty. keeps. Qed.
#[local] Hint Resolve keeps_verifyContext keeps_theDynasty : keeps.

Lemma keeps_verifySign b : keeps (fun _ => True) (verifySign b).
Proof. unfold verifySign. keeps. Qed.
Lemma keeps_verifyDynasty b : keeps (fun _ => True) (verifyDynasty b).
Proof. unfold verifyDynasty. keeps. Qed.
Lemma keeps_checkSignatures hash addrs sigs remains : keeps (fun _ => True) (checkSignatures hash addrs sigs remains).
Proof. revert remains. induction sigs as [|v sigs IH]; intros remains; cbn [checkSignatures]; keeps. Qed.
#[local] Hint Resolve keeps_verifySign keeps_verifyDynasty keeps_checkSignatures : keeps.

Lemma keeps_verifyIrreversible b : keeps (fun _ => True) (verifyIrreversibleInfo b).
Proof. unfold verifyIrreversibleInfo. keeps. Qed.
Lemma keeps_adminAddress : keeps (fun _ => True) adminAddress.
Proof. unfold adminAddress. keeps. Qed.
Lemma keeps_packCall m : keeps (fun _ => True) (packCall m).
Proof. unfold packCall. keeps. Qed.
Lemma keeps_txMarshal tx : keeps (fun _ => True) (txMarshal tx).
Proof. unfold txMarshal. keeps. Qed.
#[local] Hint Resolve keeps_verifyIrreversible keeps_adminAddress keeps_packCall keeps_txMarshal : keeps.
Lemma keeps_coinbase bk reward fee nonce h : keeps (fun _ => True) (MakeCoinBaseContractTx bk reward fee nonce h).
Proof. unfold MakeCoinBaseContractTx. keeps. Qed.
Lemma keeps_dynastySwitch from nonce h : keeps (fun _ => True) (MakeDynastySwitchTx from nonce h).
Proof. unfold MakeDynastySwitchTx. keeps. Qed.
#[local] Hint Resolve keeps_coinbase keeps_dynastySwitch : keeps.

Lemma grows_store fin s : grows fin s -> store_ok U g gk s.
Proof. intros (e & fin' & (_ & _ & pre & Hm) & _). apply Hm. Qed.

Lemma keeps_parent b k : known U b k -> keeps (fun _ => True) (on_chain (GetParentBlock b)).
Proof.
  intros Hb. apply keeps_on_chain. intros fin s Hs. eapply ewp_parent; [by eapply grows_store|done|]. intros p s' F _. split; [by eapply grows_frame|done].
Qed.

Lemma keeps_load hash : keeps (fun b => exists k, known U b k) (on_chain (LoadBlockByHash hash)).
Proof. apply keeps_on_chain. intros fin s Hs. eapply ewp_load; [by eapply grows_store|done|]. intros b Hb _. split; [done|by exists hash]. Qed.

Lemma keeps_update b k : known U b k -> keeps (fun _ => True) (on_chain (updateEternal b)).
Proof. intros Hb. apply keeps_on_chain. intros fin s Hs. eapply ewp_mono; [by eapply ewp_updateEternal|done|done]. Qed.
#[local] Hint Resolve keeps_parent keeps_load keeps_update : keeps.

Lemma keeps_immutable b k ty : known U b k -> keeps (fun _ => True) (verifyImmutableTx b ty).
Proof. intros Hb. unfold verifyImmutableTx. keeps. Qed.
#[local] Hint Resolve keeps_immutable : keeps.

Lemma keeps_internal b k : known U b k -> keeps (fun _ => True) (verifyInternalContractTx b).
Proof. intros Hb. unfold verifyInternalContractTx. keeps. Qed.
#[local] Hint Resolve keeps_internal : keeps.

Lemma keeps_Verify b k : known U b k -> keeps (fun _ => True) (Verify b).
Proof. intros Hb. unfold Verify. keeps. Qed.

Lemma keeps_dynastyAt h hb : keeps (fun _ => True) (dynastyAt h hb).
Proof.
  intros fin s Hs. unfold ewpf, dynastyAt. destruct (lru_Get _ _) as [[d|] c]; [done|].
  assert (keeps (fun _ => True) (d ← fetchDynastyByHeight h; _ ← e_modify (fun s => with_dynasties s (lru_Add (bp_dynastyCache s) hb d)); mret d)) as Hk by keeps.
  by apply Hk.
Qed.

Lemma keeps_SignCompact digest : keeps (fun _ => True) (SignCompact digest).
Proof. unfold SignCompact. keeps. Qed.
#[local] Hint Resolve keeps_dynastyAt keeps_SignCompact : keeps.

Lemma keeps_broadcast b m : keeps (fun _ => True) (BroadcastBFTMsgToBookkeepers b m).
Proof. unfold BroadcastBFTMsgToBookkeepers. keeps. Qed.

Lemma keeps_tryBroadcast b m : keeps (fun _ => True) (e_try (BroadcastBFTMsgToBookkeepers b m)).
Proof. apply keeps_tried, keeps_broadcast. Qed.

Lemma keeps_tryLoad hash : keeps (fun r => match r with Ok b => exists k, known U b k | Err _ => True end) (e_try (on_chain (LoadBlockByHash hash))).
Proof. apply keeps_try, keeps_load. Qed.

Lemma keeps_tryDynasty h hb : keeps (fun _ => True) (e_try (dynastyAt h hb)).
Proof. apply keeps_tried, keeps_dynastyAt. Qed.

Lemma keeps_tryHeight h : (0 <= h)%Z -> keeps (fun _ => True) (e_try (on_chain (LoadBlockByHeight h))).
Proof.
  intros H0. apply keeps_tried, keeps_on_chain. intros fin s Hs. pose proof Hs as (e & f & (_ & _ & pre & Hm) & _). by eapply ewp_loadByHeight; [exact Hm|..].
Qed.
#[local] Hint Resolve keeps_tryBroadcast keeps_tryLoad keeps_tryDynasty keeps_tryHeight : keeps.

Lemma keeps_tryToUpdate src : keeps (fun _ => True) (TryToUpdateEternalBlock src).
Proof. unfold TryToUpdateEternalBlock. keeps. destruct H0 as [k Hk]. eauto with keeps. Qed.
#[local] Hint Resolve keeps_tryToUpdate : keeps.

Lemma keeps_Finalize isB now b k : known U b k -> keeps (fun _ => True) (Finalize isB now b).
Proof. intros Hb. unfold Finalize. keeps. Qed.

Lemma keeps_preCheck now from body : keeps (fun r => exists k, known U r.2 k) (preCheck now from body).
Proof. unfold preCheck. keeps. Qed.
#[local] Hint Resolve keeps_preCheck : keeps.

Lemma keeps_prepare now from body : keeps (fun _ => True) (handleBlockPrepareMsg now from body).
Proof. unfold handleBlockPrepareMsg. keeps. Qed.

Lemma keeps_commit now from body : keeps (fun _ => True) (handleBlockCommitMsg now from body).
Proof.
  unfold handleBlockCommitMsg. eapply keeps_bind; [eauto with keeps|]. intros [msg block] [k Hk]. cbn in Hk. keeps.
Qed.

Lemma keeps_search n offset h : keeps (fun _ => True) (searchIrreversible n offset h).
Proof.
  revert offset h. induction n as [|n IH]; intros offset h; cbn [searchIrreversible]; [keeps|]. destruct (Z.ltb_spec 0 h); [|rewrite andb_false_r; keeps].
  destruct (_ && _); [|keeps]. eapply keeps_bind; [apply keeps_tryHeight; lia|]. intros r _. keeps.
Qed.
#[local] Hint Resolve keeps_search : keeps.

Lemma keeps_fetch now : keeps (fun _ => True) (FetchIrreversibleInfo now).
Proof. unfold FetchIrreversibleInfo. keeps. Qed.

Lemma keeps_process b k mode from : known U (with_hash b) k -> keeps (fun _ => True) (on_chain (ProcessBlock b mode from)).
Proof.
  intros Hb. apply keeps_on_chain. intros fin s (e & fin' & Hf & Hs). assert (forall s', final e fin' s' -> grows fin s') as Hg by (intros s' H; by exists e, fin').
  eapply ewp_mono; [by apply (ewp_ProcessBlock U HU g gk e fin' b k)|intros u s' H; by auto|intros u s' H; by auto].
Qed.

(** ** Runs of a node *)

(** [c] ends in [s'], with an answer or an error. *)
Definition runs {A} (c : BM A) (s s' : Bpos) : Prop := exists r, c s = (r, s') /\ r <> EPanic.

Lemma keeps_runs {A} (P : A -> Prop) (c : BM A) fin s s' : keeps P c -> runs c s s' -> grows fin (bp_chain s) -> grows fin (bp_chain s').
Proof. intros Hc (r & E & Hr) Hs. specialize (Hc fin s Hs). unfold ewpf in Hc. rewrite E in Hc. destruct r; naive_solver. Qed.

(** What happens to a node: a block arrives, consensus is asked to verify or to finalise a block,
    messages of delegates arrive, a block is made; and what the rest of the node does. *)
Inductive bpos_step : Bpos -> Bpos -> Prop :=
  | step_block b k mode from s s' : known U (with_hash b) k -> runs (on_chain (ProcessBlock b mode from)) s s' -> bpos_step s s'
  | step_verify b k s s' : known U b k -> runs (Verify b) s s' -> bpos_step s s'
  | step_finalize isB now b k s s' : known U b k -> runs (Finalize isB now b) s s' -> bpos_step s s'
  | step_prepare now from body s s' : runs (handleBlockPrepareMsg now from body) s s' -> bpos_step s s'
  | step_commit now from body s s' : runs (handleBlockCommitMsg now from body) s s' -> bpos_step s s'
  | step_fetch now s s' : runs (FetchIrreversibleInfo now) s s' -> bpos_step s s'
  | step_other s v : frame (bp_chain s) v -> bpos_step s (with_chain s v).

Lemma bpos_step_grows fin s s' : bpos_step s s' -> grows fin (bp_chain s) -> grows fin (bp_chain s').
Proof.
  intros Hs Hg. destruct Hs; [eapply keeps_runs; [|done..]..|by eapply grows_frame].
  - by eapply keeps_process.
  - by eapply keeps_Verify.
  - by eapply keeps_Finalize.
  - apply keeps_prepare.
  - apply keeps_commit.
  - apply keeps_fetch.
Qed.

Lemma bpos_steps_grow fin s s' : rtc bpos_step s s' -> grows fin (bp_chain s) -> grows fin (bp_chain s').
Proof. induction 1 as [|s1 s2 s3 H1 _ IH]; [done|]. intros Hg. apply IH. by eapply bpos_step_grows. Qed.

(** C2: In every run made of complete calls (blocks processed, verified and finalized, prepare and
    commit messages, irreversible information fetched, in any order, none of them ending in a
    panic), the chain up to a block that was final stays part of the final part of the main chain.
    The run is sequential: the final block moves only between two calls of ProcessBlock, as it would
    if chainLock were taken.  The code does not take it: Finalize starts the update in a goroutine
    and the loop of the bft service runs beside ProcessBlock; [race_detaches_final] is the run in
    which a block becomes final in the middle of reorganize and is then detached. *)
Theorem final_blocks_stay e fin s s' : rtc bpos_step s s' -> final e fin (bp_chain s) ->
  exists e' fin', final e' fin' (bp_chain s') /\ fin `suffix_of` fin'.
Proof. intros Hr Hf. eapply bpos_steps_grow; [done|by eapply final_grows]. Qed.

(** ** The index of the main chain *)

Lemma load_stored k d s : store_ok U g gk s -> c_blocks s !! k = Some d -> exists b, LoadBlockByHash k s = (EOk b, s) /\ known U b k.
Proof.
  intros Hs E. destruct (so_blocks _ _ _ _ Hs _ _ E) as (_ & b & Hb & Hd). unfold LoadBlockByHash, mbind, EM_bind, e_gets. rewrite E, (pb_block_roundtrip _ _ Hd).
  destruct (decode_block b (kn_header _ _ _ Hb)) as (b' & -> & E1 & E2). exists b'. split; [done|by eapply known_decoded].
Qed.

(** The block at a height of the main chain. *)
Lemma load_main h k ks s : main U g gk s ks -> (0 <= h <= height (c_tail s))%Z -> ks !! Z.to_nat (height (c_tail s) - h) = Some k ->
  exists b, LoadBlockByHeight h s = (EOk b, s) /\ known U b k /\ height b = h.
Proof.
  intros Hm Hh Hk. pose proof (main_genesis _ _ _ _ _ Hm) as Hg. destruct (path_lookup _ _ _ _ _ _ Hg (ma_path _ _ _ _ _ Hm) Hk) as [p Hp].
  replace (height (c_tail s) - Z.of_nat (Z.to_nat (height (c_tail s) - h)))%Z with h in Hp by lia.
  destruct (so_genesis _ _ _ _ (ma_store _ _ _ _ _ Hm)) as (Eg & Hgk & Ehg). unfold LoadBlockByHeight. destruct (Z.eqb_spec h 0) as [->|Hne].
  { exists g. unfold e_gets. rewrite Eg. split; [done|]. split; [|done]. destruct (path_length _ _ _ _ (ma_path _ _ _ _ _ Hm)) as [El _].
    assert (last ks = Some k) as Hlast. { rewrite last_lookup, <- Hk. f_equal. lia. } assert (forall l x, path U gk l x -> last l = Some gk) as Hend.
    { intros l x Hl. induction Hl as [|k0 p0 h0 ks0 _ _ IH]; [done|]. by rewrite last_cons_cons. } rewrite (Hend _ _ (ma_path _ _ _ _ _ Hm)) in Hlast. by injection Hlast as <-. }
  unfold mbind, EM_bind, e_gets. rewrite (ma_index _ _ _ _ _ Hm) by lia. rewrite (proj2 (Z.leb_le _ _)), Hk by lia.
  assert (k <> gk) as Hnk by (intros ->; destruct (u_link _ HU _ _ _ _ _ (kn_link _ _ _ Hgk) Hp); lia).
  pose proof (ma_stored _ _ _ _ _ Hm) as Hst. rewrite Forall_forall in Hst. destruct (Hst k) as [?|[d Hd]]; [by eapply list_elem_of_lookup_2|done|].
  destruct (load_stored k d s (ma_store _ _ _ _ _ Hm) Hd) as (b & -> & Hb). exists b. split_and!; [done|done|]. by destruct (u_link _ HU _ _ _ _ _ (kn_link _ _ _ Hb) Hp).
Qed.

(** Every height up to the tail has its block, and each block names the one below it. *)
Definition indexed (s : BlockChain) : Prop := forall h, (0 <= h <= height (c_tail s))%Z -> exists b, LoadBlockByHeight h s = (EOk b, s) /\ height b = h /\
  ((0 < h)%Z -> exists p, LoadBlockByHeight (h - 1) s = (EOk p, s) /\ BlockHash p = Some (h_PrevBlockHash (b_Header b))) /\ (h = height (c_tail s) -> BlockHash b = BlockHash (c_tail s)).

Lemma main_indexed s ks : main U g gk s ks -> indexed s.
Proof.
  intros Hm h Hh. destruct (path_length _ _ _ _ (ma_path _ _ _ _ _ Hm)) as [El _]. pose proof (main_genesis _ _ _ _ _ Hm) as Hg.
  destruct (lookup_lt_is_Some_2 ks (Z.to_nat (height (c_tail s) - h))) as [k Hk]; [lia|]. destruct (load_main h k ks s Hm Hh Hk) as (b & E & Hb & Ehb).
  exists b. split_and!; [done|done| |].
  - intros Hpos. destruct (lookup_lt_is_Some_2 ks (S (Z.to_nat (height (c_tail s) - h)))) as [k' Hk']; [lia|].
    assert (Z.to_nat (height (c_tail s) - (h - 1)) = S (Z.to_nat (height (c_tail s) - h))) as Ej by lia.
    destruct (load_main (h - 1) k' ks s Hm ltac:(lia) ltac:(by rewrite Ej)) as (p & E' & Hp & _). exists p. split; [done|]. rewrite (known_BlockHash _ _ _ Hp). f_equal.
    pose proof (ma_path _ _ _ _ _ Hm) as Hpath. pose proof (path_next U gk ks _ _ k k' Hpath Hk Hk') as (hx & Hx). destruct (u_link _ HU _ _ _ _ _ (kn_link _ _ _ Hb) Hx). done.
  - intros ->. destruct (ma_tail _ _ _ _ _ Hm) as (kt & rest & -> & Ht). replace (Z.to_nat _) with 0 in Hk by lia. injection Hk as <-.
    by rewrite (known_BlockHash _ _ _ Hb), (known_BlockHash _ _ _ Ht).
Qed.

(** C12: Whatever a node receives, every height up to the tail has a block that is found by its height,
    is the child of the one below, and the last is the tail. *)
Theorem main_chain_indexed e fin s s' : rtc bpos_step s s' -> final e fin (bp_chain s) -> indexed (bp_chain s').
Proof.
  intros Hr Hf. destruct (bpos_steps_grow fin s s' Hr (final_grows _ _ _ Hf)) as (e' & fin' & (_ & _ & pre & Hm) & _). by eapply main_indexed.
Qed.

End Finality.

(** ** Who signed *)

Section Signed.
Context `{L : Ledger} `{BC : Lru bytes Block} `{MC : Lru Z Block} `{KC : Lru bytes bytes} `{DC : Lru Z Dynasty}.
Context `{C : Crypto} `{HC : HeaderCodec} `{PB : BlockCodec} `{TC : TxCodec} `{K : Keccak} `{VO : VisitOrder} {CO : Committee}.

(** [sig] is a signature of [hash] with the key of the address. *)
Definition signed_by (hash sig addr : bytes) : Prop := exists key, btcec_RecoverCompact sig hash = Some (key, true) /\ NewAddressFromPubKey key = Ok addr.

Lemma RecoverCompact_spec digest sig key : RecoverCompact digest sig = Returns (Some key) <-> btcec_RecoverCompact sig digest = Some (key, true).
Proof. unfold RecoverCompact. destruct (btcec_RecoverCompact sig digest) as [[k []]|]; naive_solver. Qed.

(** The signers are delegates, different from each other and from those found before. *)
Definition fresh_delegates (addrs remains signers : list bytes) : Prop := NoDup signers /\ Forall (fun a => a ∈ addrs /\ a ∉ remains) signers.

Lemma fresh_cons addrs remains addr signers : fresh_delegates addrs remains (addr :: signers) <->
  addr ∈ addrs /\ (addr ∉ remains) /\ fresh_delegates addrs (remains ++ [addr]) signers.
Proof.
  unfold fresh_delegates. rewrite NoDup_cons, Forall_cons, !Forall_forall. split.
  - intros ([Hn Hd] & [H1 H2] & Hall). split_and!; [done|done|done|]. intros x Hx. specialize (Hall x Hx). set_solver.
  - intros (H1 & H2 & Hd & Hall). split_and!; [|done|done|done|]; [intros Hin; specialize (Hall _ Hin); set_solver|]. intros x Hx. specialize (Hall x Hx). set_solver.
Qed.

Lemma checkSignatures_spec hash addrs sigs remains r s s' : checkSignatures hash addrs sigs remains s = (EOk r, s') <->
  s' = s /\ exists signers, r = remains ++ signers /\ Forall2 (signed_by hash) sigs signers /\ fresh_delegates addrs remains signers.
Proof.
  revert remains. induction sigs as [|v sigs IH]; intros remains; cbn [checkSignatures].
  { split; [intros [= <- <-]; split; [done|]; exists []; rewrite app_nil_r; repeat split; constructor|]. intros (-> & signers & -> & Hf & _). apply Forall2_nil_inv_l in Hf as ->. by rewrite app_nil_r. }
  assert ((exists signers, r = remains ++ signers /\ Forall2 (signed_by hash) (v :: sigs) signers /\ fresh_delegates addrs remains signers) <->
    exists addr, signed_by hash v addr /\ addr ∈ addrs /\ (addr ∉ remains) /\ exists signers, r = (remains ++ [addr]) ++ signers /\ Forall2 (signed_by hash) sigs signers /\ fresh_delegates addrs (remains ++ [addr]) signers) as ->.
  { split.
    - intros (signers & -> & Hf & Hfr). apply Forall2_cons_inv_l in Hf as (addr & signers' & Hs & Hf & ->). apply fresh_cons in Hfr as (H1 & H2 & H3).
      exists addr. split_and!; [done..|]. exists signers'. by rewrite <- app_assoc.
    - intros (addr & Hs & H1 & H2 & signers & -> & Hf & Hfr). exists (addr :: signers). rewrite <- app_assoc. split_and!; [done|by constructor|by apply fresh_cons]. }
  unfold from_go, RecoverCompact, mbind, EM_bind. destruct (btcec_RecoverCompact v hash) as [[key []]|] eqn:Er.
  2,3: split; [done|]; intros (-> & addr & (key' & E & _) & _); congruence.
  cbn [mret EM_ret]. destruct (NewAddressFromPubKey key) as [addr|] eqn:Ea; cbn [mret EM_ret from_result e_fail].
  2: split; [done|]; intros (-> & addr & (key' & E & E') & _); congruence.
  assert (forall x, signed_by hash v x <-> x = addr) as Hone by (intros x; split; [intros (? & ? & ?); congruence|intros ->; by exists key]).
  unfold InAddresses. case_bool_decide as H1; [|split; [done|]; intros (_ & x & ->%Hone & Hx & _); done].
  case_bool_decide as H2; cbn [negb]; [split; [done|]; intros (_ & x & ->%Hone & _ & Hx & _); done|]. rewrite IH. split.
  - intros (-> & signers & H). split; [done|]. exists addr. split_and!; [by apply Hone|done|done|by exists signers].
  - intros (-> & x & ->%Hone & _ & _ & H). done.
Qed.

Lemma theDynasty_some s d : bp_verifyDynasty s = Some d -> the_verifyDynasty s = (EOk d, s).
Proof. intros E. unfold the_verifyDynasty, mbind, EM_bind, e_gets. by rewrite E. Qed.

(** As many different delegates as the quorum asks for have signed. *)
Definition quorum_signed (d : Dynasty) (info : IrreversibleInfo) : Prop :=
  exists signers, Forall2 (signed_by (ii_Hash info)) (ii_Signatures info) signers /\ NoDup signers /\ Forall (fun a => a ∈ dy_addrs d) signers /\ quorum d <= length signers.

Lemma verifyIrreversible_iff block info d s s' : b_Irreversible block = Some info -> bp_verifyDynasty s = Some d ->
  verifyIrreversibleInfo block s = (EOk tt, s') <-> s' = s /\ quorum_signed d info.
Proof.
  intros Ei Ed. unfold verifyIrreversibleInfo. rewrite Ei. unfold mbind at 1, EM_bind at 1. rewrite (theDynasty_some _ _ Ed).
  assert (forall signers, fresh_delegates (dy_addrs d) [] signers <-> NoDup signers /\ Forall (fun a => a ∈ dy_addrs d) signers) as Hfr.
  { intros signers. unfold fresh_delegates. rewrite !Forall_forall. split; intros [H1 H2]; (split; [done|]); intros x Hx; specialize (H2 x Hx); [by destruct H2|split; [done|by apply not_elem_of_nil]]. }
  destruct (Nat.ltb_spec (length (ii_Signatures info)) (quorum d)) as [Hlt|Hge].
  { split; [done|]. intros (_ & signers & Hf & _ & _ & Hq). apply Forall2_length in Hf. lia. }
  assert (forall signers, Forall2 (signed_by (ii_Hash info)) (ii_Signatures info) signers -> NoDup signers -> Forall (fun a => a ∈ dy_addrs d) signers ->
    checkSignatures (ii_Hash info) (dy_addrs d) (ii_Signatures info) [] s = (EOk signers, s)) as Hrun.
  { intros signers Hf Hd Hall. apply checkSignatures_spec. split; [done|]. exists signers. split_and!; [done|done|by apply Hfr]. }
  unfold mbind, EM_bind. split.
  - destruct (checkSignatures _ _ _ _ s) as [[r|e| |] s1] eqn:E; try done. apply checkSignatures_spec in E as (-> & signers & -> & Hf & Hfresh).
    cbn [app]. apply Hfr in Hfresh as [Hd Hall]. pose proof (Forall2_length _ _ _ Hf) as El. destruct (Nat.ltb_spec (length signers) (quorum d)); [done|].
    intros [= <-]. split; [done|]. by exists signers.
  - intros (-> & signers & Hf & Hd & Hall & Hq). rewrite (Hrun signers Hf Hd Hall). cbn [app]. by destruct (Nat.ltb_spec (length signers) (quorum d)); [lia|].
Qed.

(** ** Turns *)

Lemma slot_arith t n : (0 < n)%Z -> (0 <= t)%Z -> (t * SecondInMs < 2 ^ 63)%Z -> (BookkeeperRefreshInterval * n < 2 ^ 63)%Z ->
  Z.rem (Z.quot (Z.rem (i64 (t * SecondInMs)) (i64 (BookkeeperRefreshInterval * n))) BookkeeperRefreshInterval) n = ((t / 5) mod n)%Z.
Proof.
  unfold SecondInMs, BookkeeperRefreshInterval. intros Hn Ht H1 H2. rewrite !i64_small by lia. rewrite (Z.rem_mod_nonneg (t * 1000)) by lia.
  assert (0 <= (t * 1000) mod (5000 * n))%Z by (apply Z.mod_pos_bound; lia). rewrite Z.quot_div_nonneg by lia. rewrite Z.rem_mul_r, (Z.mul_comm 5000 ((_ / _) mod n)), Z.div_add by lia.
  rewrite (Z.div_small (_ mod 5000)) by (apply Z.mod_pos_bound; lia). assert (0 <= (t * 1000 / 5000) mod n < n)%Z by (apply Z.mod_pos_bound; lia).
  rewrite Z.add_0_l, Z.rem_mod_nonneg, Z.mod_mod by lia. f_equal. change 5000%Z with (5 * 1000)%Z. by rewrite Z.div_mul_cancel_r by lia.
Qed.

(** The delegate whose turn it is. *)
Definition turn (t : Z) (delegates : list Delegate) : option Delegate := delegates !! Z.to_nat ((t / 5) mod Z.of_nat (length delegates)).

Theorem proposers_take_turns t delegates : delegates <> [] -> (0 <= t < 2 ^ 63 / 1000)%Z -> (Z.of_nat (length delegates) < 2 ^ 50)%Z ->
  exists d, turn t delegates = Some d /\ FindProposerWithTimeStamp t delegates = Returns (Ok (dl_Addr d)).
Proof.
  intros Hne Ht Hn. set (n := Z.of_nat (length delegates)) in *. assert (0 < n)%Z as Hpos by (subst n; destruct delegates; [done|cbn; lia]).
  assert (t * 1000 < 2 ^ 63)%Z as Hsmall by (pose proof (Z.mul_div_le (2 ^ 63) 1000); lia). pose proof (slot_arith t n Hpos ltac:(lia) Hsmall ltac:(unfold BookkeeperRefreshInterval; lia)) as E.
  assert (0 <= (t / 5) mod n < n)%Z as Hr by (apply Z.mod_pos_bound; lia). unfold FindProposerWithTimeStamp, turn. fold n. rewrite E.
  destruct (Z.eqb_spec n 0); [lia|]. rewrite (proj2 (Z.leb_le _ _)), (proj2 (Z.ltb_lt _ _)) by lia. cbn [andb].
  destruct (lookup_lt_is_Some_2 delegates (Z.to_nat ((t / 5) mod n))) as [d Hd]; [lia|]. rewrite Hd. eauto.
Qed.

(** ** What an accepted block carries *)

Lemma bind_ok {S E A B} (c : EM S E A) (k : A -> EM S E B) s b s' : (c ≫= k) s = (EOk b, s') -> exists a s1, c s = (EOk a, s1) /\ k a s1 = (EOk b, s').
Proof. unfold mbind, EM_bind. destruct (c s) as [[a|e| |] s1]; intros H; try done. eauto. Qed.

(** The dynasty of verification stays. *)
Definition still {A} (c : EM Bpos BposErr A) : Prop := forall s, bp_verifyDynasty (c s).2 = bp_verifyDynasty s.

Lemma still_bind {A B} (c : EM Bpos BposErr A) (k : A -> EM Bpos BposErr B) : still c -> (forall a, still (k a)) -> still (c ≫= k).
Proof. intros Hc Hk s. unfold mbind, EM_bind. specialize (Hc s). destruct (c s) as [[a|e| |] s1]; cbn in *; try done. by rewrite Hk. Qed.
Lemma still_on_chain {A} (c : EM BlockChain ChainErr A) : still (on_chain c).
Proof. intros s. unfold on_chain. by destruct (c (bp_chain s)) as [[] v]. Qed.
Lemma still_deref {A} (o : option A) : still (e_deref o).
Proof. by destruct o. Qed.
Lemma still_from_go {A} (x : go A) : still (from_go x).
Proof. by destruct x. Qed.
Lemma still_ask {A} (f : BlockChain -> result ledgerErr A) : still (ask f).
Proof. intros s. unfold ask, mbind, EM_bind, e_gets. by destruct (f _). Qed.

Ltac still := repeat first [ apply still_bind; [|intros ?] | apply still_on_chain | apply still_deref | apply still_from_go | apply still_ask
  | match goal with |- still (match ?x with _ => _ end) => destruct x end | by intros s ].

Lemma still_internal b : still (verifyInternalContractTx b).
Proof. unfold verifyInternalContractTx, verifyImmutableTx, MakeCoinBaseContractTx, MakeDynastySwitchTx, packCall, adminAddress, txMarshal. still. Qed.

Lemma verifyDynasty_ok block s s' : verifyDynasty block s = (EOk tt, s') -> s' = s /\
  ((0 < height block)%Z -> exists d data, bp_verifyDynasty s = Some d /\ pb_dynasty_marshal (Dynasty_ToProtoMessage d) = Some data /\ h_DynastyHash (b_Header block) = Crypto.DoubleHashH data).
Proof.
  unfold verifyDynasty. destruct (Z.ltb_spec 0 (height block)); [|intros [= <-]; split; [done|lia]]. intros (d & s1 & E1 & E2)%bind_ok. unfold the_verifyDynasty, mbind, EM_bind, e_gets in E1.
  destruct (bp_verifyDynasty s) as [d'|] eqn:Ed; [|done]. injection E1 as -> <-. apply bind_ok in E2 as (data & s2 & E2 & E3). unfold Dynasty_Marshal in E2.
  destruct (pb_dynasty_marshal _) as [data'|] eqn:Em; [|done]. injection E2 as -> <-. case_bool_decide; [|done]. injection E3 as <-. split; [done|]. eauto.
Qed.

Lemma verifySign_ok block s s' : verifySign block s = (EOk true, s') ->
  exists d hash addr, bp_verifyDynasty s' = Some d /\ BlockHash block = Some hash /\ FindProposerWithTimeStamp (h_TimeStamp (b_Header block)) (dy_delegates d) = Returns (Ok addr) /\
    signed_by hash (b_Signature block) addr.
Proof.
  unfold verifySign. intros (u & s1 & _ & H)%bind_ok. apply bind_ok in H as (d & s2 & E2 & H). unfold the_verifyDynasty, mbind, EM_bind, e_gets in E2.
  destruct (bp_verifyDynasty s1) as [d'|] eqn:Ed; [|done]. injection E2 as -> <-. apply bind_ok in H as (r & s2 & E2 & H).
  destruct (FindProposerWithTimeStamp _ _) as [r'|] eqn:Ef; [|done]. injection E2 as -> <-. apply bind_ok in H as (addr & s2 & E2 & H). destruct r as [addr'|]; [|done]. injection E2 as -> <-.
  apply bind_ok in H as (hash & s2 & E2 & H). destruct (BlockHash block) as [hash'|] eqn:Eh; [|done]. injection E2 as -> <-.
  apply bind_ok in H as (key & s2 & E2 & H). destruct (RecoverCompact hash (b_Signature block)) as [key'|] eqn:Er; [|done]. injection E2 as -> <-. destruct key as [key|]; [|done].
  apply RecoverCompact_spec in Er. apply bind_ok in H as (a & s2 & E2 & H). destruct (NewAddressFromPubKey key) as [a'|] eqn:Ea; [|done]. injection E2 as -> <-.
  injection H as H <-. case_bool_decide; [|done]. subst a. exists d, hash, addr. split_and!; [done|done|done|]. by exists key.
Qed.

(** C11: A block that consensus accepts is signed by the delegate whose turn it is, names the dynasty,
    and what it says to be final is signed by a quorum of different delegates. *)
Theorem accepted_block_signed block s s' : Verify block s = (EOk tt, s') ->
  exists d hash addr, bp_verifyDynasty s' = Some d /\ BlockHash block = Some hash /\
    FindProposerWithTimeStamp (h_TimeStamp (b_Header block)) (dy_delegates d) = Returns (Ok addr) /\ signed_by hash (b_Signature block) addr /\
    ((0 < height block)%Z -> exists data, pb_dynasty_marshal (Dynasty_ToProtoMessage d) = Some data /\ h_DynastyHash (b_Header block) = Crypto.DoubleHashH data) /\
    (forall info, b_Irreversible block = Some info -> quorum_signed d info).
Proof.
  unfold Verify. intros (ok & s1 & E1 & H)%bind_ok. destruct ok; [|done]. cbn [negb] in H. destruct (verifySign_ok _ _ _ E1) as (d & hash & addr & Ed & Eh & Ef & Es).
  apply bind_ok in H as (u & s2 & E2 & H). pose proof (still_internal block s1) as Ei. rewrite E2 in Ei. cbn in Ei. rewrite Ed in Ei.
  apply bind_ok in H as ([] & s3 & E3 & H). destruct (verifyDynasty_ok _ _ _ E3) as [-> Hd].
  assert (bp_verifyDynasty s' = Some d /\ forall info, b_Irreversible block = Some info -> quorum_signed d info) as [Ed' Hinfo].
  { destruct (b_Irreversible block) as [info|] eqn:Einfo; [|unfold verifyIrreversibleInfo in H; rewrite Einfo in H; by injection H as <-].
    apply (verifyIrreversible_iff block info d) in H as [-> Hq]; [|done|done]. split; [done|]. by intros info' [= <-]. }
  exists d, hash, addr. split_and!; [done|done|done|done| |done]. intros Hh. destruct (Hd Hh) as (d' & data & E & Hm & Hdh). rewrite Ei in E. injection E as <-. eauto.
Qed.

End Signed.

(** ** What the bft service counts *)

Section Commits.
Context `{L : Ledger} `{BC : Lru bytes Block} `{MC : Lru Z Block} `{KC : Lru bytes bytes} `{DC : Lru Z Dynasty} {DCL : LruLaws Z Dynasty DC}.
Context `{C : Crypto} `{HC : HeaderCodec} `{PB : BlockCodec} `{TC : TxCodec} `{K : Keccak} `{VO : VisitOrder} {CO : Committee}.

Lemma with_chain_same s : with_chain s (bp_chain s) = s.
Proof. by destruct s. Qed.

Lemma load_pure hash s : (LoadBlockByHash hash s).2 = s.
Proof.
  unfold LoadBlockByHash, mbind, EM_bind, e_gets. destruct (c_blocks s !! hash); [|done]. destruct (pb_block_unmarshal _); [|done]. by destruct (FromProtoMessage _) as [[]|].
Qed.

Lemma on_load hash s : on_chain (LoadBlockByHash hash) s =
  (match (LoadBlockByHash hash (bp_chain s)).1 with EOk b => EOk b | EErr e => EErr (ErrChain e) | EPanic => EPanic | EFuel => EFuel end, s).
Proof.
  unfold on_chain. pose proof (load_pure hash (bp_chain s)) as E. destruct (LoadBlockByHash hash (bp_chain s)) as [r v]. cbn in *. subst v. by destruct r; rewrite with_chain_same.
Qed.

Lemma preCheck_pure now from body s : exists r, preCheck now from body s = (r, s) /\
  forall msg block, r = EOk (msg, block) -> (LoadBlockByHash (eb_Hash msg) (bp_chain s)).1 = EOk block.
Proof.
  unfold preCheck, from_result. destruct (EternalBlockMsg_Unmarshal body) as [msg|]; [|by eexists]. unfold mbind, EM_bind. cbn [mret EM_ret]. rewrite on_load.
  destruct (LoadBlockByHash _ _).1 as [block|e| |] eqn:El; try by eexists. unfold e_gets. destruct (_ <? _)%Z; [by eexists|].
  unfold fetchDynastyByHeight, ask, mbind, EM_bind, e_gets. destruct (getDynasty _ _); [|by eexists]. cbn [mret EM_ret dy_peers].
  destruct (InStrings _ _); cbn [negb]; [|by eexists]. destruct (_ || _); [by eexists|]. eexists. split; [done|]. by intros msg' block' [= <- <-].
Qed.

(** The dynasty the node takes for a height. *)
Definition dynasty_used (s : Bpos) (h : Z) (d : Dynasty) : Prop :=
  match lru_at (bp_dynastyCache s) h with
  | Some d' => d = d'
  | None => exists ds, getDynasty h (bp_chain s) = Ok ds /\ d = mkDynasty ds (map dl_Addr ds) (map dl_PeerID ds)
  end.

Lemma dynastyAt_pure h hb s : exists r c, dynastyAt h hb s = (r, with_dynasties s c) /\ forall d, r = EOk d -> dynasty_used s h d.
Proof.
  unfold dynastyAt, dynasty_used. pose proof (lru_Get_at (bp_dynastyCache s) h) as E. destruct (lru_Get _ _) as [[d|] c]; cbn in E; rewrite <- E.
  { exists (EOk d), c. split; [done|]. by intros d' [= <-]. }
  unfold fetchDynastyByHeight, ask, mbind, EM_bind, e_gets, e_modify, e_fail, mret, EM_ret. cbn [bp_chain with_dynasties]. destruct (getDynasty h (bp_chain s)) as [ds|e].
  - eexists _, _. split; [reflexivity|]. intros d' [= <-]. by exists ds.
  - eexists _, _. split; [reflexivity|]. done.
Qed.

Lemma updateEternal_block block s : c_eternal (updateEternal block s).2 = c_eternal s \/ c_eternal (updateEternal block s).2 = block.
Proof.
  unfold updateEternal, mbind, EM_bind, e_gets, e_try. destruct (_ <=? _)%Z; [by left|].
  assert ((LoadBlockByHeight (height block) s).2 = s) as E.
  { unfold LoadBlockByHeight, mbind, EM_bind, e_gets. destruct (_ =? 0)%Z; [done|]. destruct (c_index s !! _); [apply load_pure|done]. }
  destruct (LoadBlockByHeight (height block) s) as [[b|e| |] v]; cbn in E; subst v; try by left. cbn [e_deref mret EM_ret].
  destruct (Crypto.IsEqual _ _); cbn [negb]; [|by left]. unfold SetEternal, mbind, EM_bind, e_gets, Marshal. destruct (_ <? _)%Z; [|by left]. destruct (pb_block_marshal _); [by right|by left].
Qed.

(** A signature that was counted: of the block with that hash, by a delegate of the dynasty the node
    takes for its height, sent by the peer of that delegate. *)
Definition admitted (s : Bpos) (hash sig : bytes) : Prop := exists block d addr dl,
  (LoadBlockByHash hash (bp_chain s)).1 = EOk block /\ dynasty_used s (height block) d /\ signed_by hash sig addr /\ dl ∈ dy_delegates d /\ dl_Addr dl = addr.

Definition counts (hash sig : bytes) (s s' : Bpos) : Prop := admitted s hash sig /\ (sig ∉ default [] (bp_commitCache s !! hash)) /\
  bp_commitCache s' = <[hash := default [] (bp_commitCache s !! hash) ++ [sig]]> (bp_commitCache s).

(** Why a block became final: the node has collected as many signatures of it as the quorum of the
    dynasty it takes for that height. *)
Definition collected (s s' : Bpos) (hash : bytes) (sigs : list bytes) : Prop := exists d,
  (LoadBlockByHash hash (bp_chain s)).1 = EOk (c_eternal (bp_chain s')) /\ bp_commitCache s' !! hash = Some sigs /\
  dynasty_used s (height (c_eternal (bp_chain s'))) d /\ quorum d <= length sigs.

Lemma commit_update s s1 block hash d sigs v : (LoadBlockByHash hash (bp_chain s)).1 = EOk block -> bp_chain s1 = bp_chain s -> bp_commitCache s1 !! hash = Some sigs ->
  dynasty_used s (height block) d -> quorum d <= length sigs -> v = (updateEternal block (bp_chain s1)).2 ->
  c_eternal v <> c_eternal (bp_chain s) -> collected s (with_chain s1 v) hash sigs.
Proof.
  intros Hl Ec Hc Hd Hq -> Hne. destruct (updateEternal_block block (bp_chain s1)) as [E|E]; [congruence|]. exists d. cbn. by rewrite E.
Qed.

Lemma isDelegate_spec d addr from : isDelegate d addr from = true -> exists dl, dl ∈ dy_delegates d /\ dl_Addr dl = addr.
Proof. intros (dl & Hin & H)%existsb_exists. apply andb_prop in H as [H%bool_decide_eq_true _]. exists dl. split; [by apply list_elem_of_In|done]. Qed.

(** A commit message adds one admitted signature, or none. *)
Lemma commit_counts now from body s r s' : handleBlockCommitMsg now from body s = (r, s') ->
  (bp_commitCache s' = bp_commitCache s \/ exists hash sig, counts hash sig s s') /\
  (c_eternal (bp_chain s') <> c_eternal (bp_chain s) -> exists hash sigs, collected s s' hash sigs).
Proof.
  assert (bp_commitCache s = bp_commitCache s /\ c_eternal (bp_chain s) = c_eternal (bp_chain s)) as Hsame by done.
  unfold handleBlockCommitMsg. unfold mbind at 1, EM_bind at 1. destruct (preCheck_pure now from body s) as (r1 & -> & Hload).
  destruct r1 as [[msg block]|e| |]; [|by intros [= <- <-]; split; [left|]..]. specialize (Hload _ _ eq_refl). unfold mbind at 1, EM_bind at 1, e_gets at 1.
  destruct (lru_Contains _ _); [by intros [= <- <-]; split; [left|]|]. unfold mbind at 1, EM_bind at 1, from_go. destruct (RecoverCompact _ _) as [[key|]|] eqn:Er; [|by intros [= <- <-]; split; [left|]..]. cbn [mret EM_ret].
  apply RecoverCompact_spec in Er. unfold mbind at 1, EM_bind at 1, from_result. destruct (NewAddressFromPubKey key) as [addr|] eqn:Ea; [|by intros [= <- <-]; split; [left|]]. cbn [mret EM_ret].
  unfold mbind at 1, EM_bind at 1. destruct (dynastyAt_pure (height block) (height block) s) as (r2 & c & -> & Hd). destruct r2 as [d|e| |]; [|by intros [= <- <-]; split; [left|]..]. specialize (Hd _ eq_refl).
  set (s2 := with_dynasties s c). destruct (isDelegate _ _ _) eqn:Edl; cbn [negb]; [|by intros [= <- <-]; split; [left|]]. destruct (isDelegate_spec _ _ _ Edl) as (dl & Hdl & Haddr).
  assert (admitted s (eb_Hash msg) (eb_Signature msg)) as Had by (exists block, d, addr, dl; split_and!; [done|done|by exists key|done|done]).
  unfold mbind at 1, EM_bind at 1, e_gets at 1. cbn [s2 bp_commitCache with_dynasties]. destruct (bp_commitCache s !! eb_Hash msg) as [value|] eqn:Ev.
  2: { intros [= <- <-]. split; [|done]. right. exists (eb_Hash msg), (eb_Signature msg). unfold counts. rewrite Ev. split_and!; [done|set_solver|done]. }
  unfold InBytes. case_bool_decide as Hin; [by intros [= <- <-]; split; [left|]|]. set (value' := value ++ [eb_Signature msg]).
  unfold mbind at 1, EM_bind at 1, e_modify at 1. set (s3 := with_commit s2 _ _).
  assert (forall s', bp_commitCache s' = bp_commitCache s3 -> counts (eb_Hash msg) (eb_Signature msg) s s') as Hc by (intros t Et; unfold counts; by rewrite Ev, Et).
  destruct (Nat.leb_spec (quorum d) (length value')) as [Hq|]; [|intros [= <- <-]; split; [right; eauto|done]]. unfold mbind at 1, EM_bind at 1, e_modify at 1. set (s4 := with_commit s3 _ _). unfold on_chain.
  assert (forall v, (updateEternal block (bp_chain s4)).2 = v -> c_eternal (bp_chain (with_chain s4 v)) <> c_eternal (bp_chain s) -> collected s (with_chain s4 v) (eb_Hash msg) value') as Hfin.
  { intros v Ev' Hne. apply (commit_update s s4 block (eb_Hash msg) d value'); [done|done|apply lookup_insert_eq|done|done|done|done]. }
  destruct (updateEternal block (bp_chain s4)) as [[] v]; cbn in Hfin; intros [= <- <-]; (split; [right; eauto|eauto]).
Qed.

(** What the search does to the commitments, and the offset it ends with. *)
Definition searched (n : nat) (offset h : Z) (s : Bpos) (x : eres BposErr (option IrreversibleInfo * Z) * Bpos) : Prop :=
  match x with
  | (EOk (Some info, _), s') => bp_commitCache s' = delete (ii_Hash info) (bp_commitCache s)
  | (EOk (None, o), s') => bp_commitCache s' = bp_commitCache s /\ (o <= offset)%Z /\ ((0 < n)%nat -> 0 <= offset -> 0 < h -> o < offset)%Z
  | (_, s') => bp_commitCache s' = bp_commitCache s
  end.

Lemma searched_next n offset h s s1 x : bp_commitCache s1 = bp_commitCache s -> searched n (offset - 1) (h - 1) s1 x -> searched (S n) offset h s x.
Proof. intros E. unfold searched. destruct x as [[[[info|] o]|e| |] s']; rewrite E; [done| |done..]. intros (H1 & H2 & _). split_and!; [done|lia|lia]. Qed.

Lemma search_spec n offset h s : searched n offset h s (searchIrreversible n offset h s).
Proof.
  revert offset h s. induction n as [|n IH]; intros offset h s; cbn [searchIrreversible]; [split_and!; [done|lia|lia]|].
  destruct (Z.leb_spec 0 offset), (Z.ltb_spec 0 h); cbn [andb]; [|split_and!; [done|lia|lia]..].
  unfold mbind at 1, EM_bind at 1, e_try at 1, on_chain. destruct (LoadBlockByHeight h (bp_chain s)) as [[block|e| |] v]; [|by eapply searched_next; [|apply IH]|done..].
  unfold mbind at 1, EM_bind at 1. destruct (BlockHash block) as [blockHash|]; [|done]. cbn [e_deref mret EM_ret]. unfold mbind at 1, EM_bind at 1, e_gets at 1. cbn [bp_commitCache with_chain].
  destruct (bp_commitCache s !! blockHash) as [signatures|]; [|by eapply searched_next; [|apply IH]]. unfold mbind at 1, EM_bind at 1, e_try at 1.
  destruct (dynastyAt_pure h (height block) (with_chain s v)) as (r2 & c & -> & _). destruct r2 as [d|e| |]; [|by eapply searched_next; [|apply IH]|done..].
  destruct (_ <=? _); [done|by eapply searched_next; [|apply IH]].
Qed.

Theorem commits_never_cleared now s r s' : (0 <= height (c_tail (bp_chain s)))%Z -> FetchIrreversibleInfo now s = (r, s') ->
  bp_commitCache s' = match r with EOk (Some info) => delete (ii_Hash info) (bp_commitCache s) | _ => bp_commitCache s end.
Proof.
  intros H0. unfold FetchIrreversibleInfo. unfold mbind at 1, EM_bind at 1, e_gets at 1. destruct (Z.eqb_spec (height (c_tail (bp_chain s))) 0); [by intros [= <- <-]|].
  change (Z.quot BookkeeperRefreshInterval SecondInMs) with 5%Z. set (offset := Z.rem now _). assert (offset < 5)%Z as Hoff by (pose proof (Z.rem_bound_abs now 5 ltac:(done)); subst offset; lia). unfold mbind at 1, EM_bind at 1.
  pose proof (search_spec (Z.to_nat (offset + 1)) offset (height (c_tail (bp_chain s))) s) as Hs. destruct (searchIrreversible _ _ _ _) as [[[[info|] o]|e| |] s1]; cbn in Hs; [by intros [= <- <-]| |by intros [= <- <-]..].
  destruct Hs as (Hc & Hle & Hlt). destruct (Z.eqb_spec o (5 - 1)); [lia|]. by intros [= <- <-].
Qed.

End Commits.

(** ** The signatures a node has counted *)

Section Shrinks.
Context `{L : Ledger} `{BC : Lru bytes Block} `{MC : Lru Z Block} `{KC : Lru bytes bytes} `{DC : Lru Z Dynasty} {DCL : LruLaws Z Dynasty DC}.
Context `{C : Crypto} `{HC : HeaderCodec} `{PB : BlockCodec} `{TC : TxCodec} `{K : Keccak} `{VO : VisitOrder} {CO : Committee}.

(** [c] counts no signature. *)
Definition shrinks {A} (c : EM Bpos BposErr A) : Prop := forall s, bp_commitCache (c s).2 ⊆ bp_commitCache s.

Lemma shrinks_same {A} (c : EM Bpos BposErr A) : (forall s, bp_commitCache (c s).2 = bp_commitCache s) -> shrinks c.
Proof. intros H s. by rewrite H. Qed.
Lemma shrinks_bind {A B} (c : EM Bpos BposErr A) (k : A -> EM Bpos BposErr B) : shrinks c -> (forall a, shrinks (k a)) -> shrinks (c ≫= k).
Proof. intros Hc Hk s. unfold mbind, EM_bind. specialize (Hc s). destruct (c s) as [[a|e| |] s1]; cbn in *; [|done..]. etrans; [apply Hk|done]. Qed.
Lemma shrinks_try {A} (c : EM Bpos BposErr A) : shrinks c -> shrinks (e_try c).
Proof. intros Hc s. unfold e_try. specialize (Hc s). by destruct (c s) as [[] s1]. Qed.
Lemma shrinks_on_chain {A} (c : EM BlockChain ChainErr A) : shrinks (on_chain c).
Proof. apply shrinks_same. intros s. unfold on_chain. by destruct (c (bp_chain s)) as [[] v]. Qed.
Lemma shrinks_deref {A} (o : option A) : shrinks (e_deref o).
Proof. apply shrinks_same. by destruct o. Qed.
Lemma shrinks_from_go {A} (x : go A) : shrinks (from_go x).
Proof. apply shrinks_same. by destruct x. Qed.
Lemma shrinks_from_result {A} (x : result BposErr A) : shrinks (from_result x).
Proof. apply shrinks_same. by destruct x. Qed.
Lemma shrinks_ask {A} (f : BlockChain -> result ledgerErr A) : shrinks (ask f).
Proof. apply shrinks_same. intros s. unfold ask, mbind, EM_bind, e_gets. by destruct (f _). Qed.
Lemma shrinks_dynastyAt h hb : shrinks (dynastyAt h hb).
Proof. apply shrinks_same. intros s. destruct (dynastyAt_pure h hb s) as (r & c & -> & _). done. Qed.
Lemma shrinks_preCheck now from body : shrinks (preCheck now from body).
Proof. apply shrinks_same. intros s. by destruct (preCheck_pure now from body s) as (r & -> & _). Qed.

Ltac shrinks := repeat first [ apply shrinks_bind; [|intros ?] | apply shrinks_try | apply shrinks_on_chain | apply shrinks_deref | apply shrinks_from_go | apply shrinks_from_result
  | apply shrinks_ask | apply shrinks_dynastyAt | apply shrinks_preCheck | match goal with |- shrinks (match ?x with _ => _ end) => destruct x end | apply shrinks_same; by intros s ].

Lemma shrinks_checkSignatures hash addrs sigs remains : shrinks (checkSignatures hash addrs sigs remains).
Proof. revert remains. induction sigs as [|v sigs IH]; intros remains; cbn [checkSignatures]; shrinks; apply IH. Qed.

Lemma shrinks_verifySign b : shrinks (verifySign b).
Proof. unfold verifySign, updateVerifyContext, fetchDynastyByHeight, the_verifyDynasty. shrinks. Qed.
Lemma shrinks_adminAddress : shrinks adminAddress.
Proof. unfold adminAddress. shrinks. Qed.
Lemma shrinks_packCall m : shrinks (packCall m).
Proof. unfold packCall. shrinks. Qed.
Lemma shrinks_txMarshal tx : shrinks (txMarshal tx).
Proof. unfold txMarshal. shrinks. Qed.
Ltac shrinks_made := repeat first [apply shrinks_adminAddress | apply shrinks_packCall | match goal with |- shrinks (match ?x with _ => _ end) => destruct x end | apply shrinks_bind; [|intros ?] | apply shrinks_same; by intros s].
Lemma shrinks_coinbase bk reward fee nonce h : shrinks (MakeCoinBaseContractTx bk reward fee nonce h).
Proof. unfold MakeCoinBaseContractTx. shrinks_made. Qed.
Lemma shrinks_dynastySwitch from nonce h : shrinks (MakeDynastySwitchTx from nonce h).
Proof. unfold MakeDynastySwitchTx. shrinks_made. Qed.
Lemma shrinks_immutable b ty : shrinks (verifyImmutableTx b ty).
Proof.
  unfold verifyImmutableTx. repeat first [apply shrinks_coinbase | apply shrinks_dynastySwitch | apply shrinks_adminAddress | apply shrinks_txMarshal | apply shrinks_deref | apply shrinks_on_chain | apply shrinks_ask | apply shrinks_from_result
    | match goal with |- shrinks (match ?x with _ => _ end) => destruct x end | apply shrinks_bind; [|intros ?] | apply shrinks_same; by intros s].
Qed.
Lemma shrinks_verifyDynasty b : shrinks (verifyDynasty b).
Proof. unfold verifyDynasty, the_verifyDynasty. shrinks. Qed.
Lemma shrinks_irreversible b : shrinks (verifyIrreversibleInfo b).
Proof. unfold verifyIrreversibleInfo, the_verifyDynasty. shrinks; apply shrinks_checkSignatures. Qed.

Lemma shrinks_internal b : shrinks (verifyInternalContractTx b).
Proof.
  unfold verifyInternalContractTx. repeat first [apply shrinks_immutable | apply shrinks_deref | match goal with |- shrinks (match ?x with _ => _ end) => destruct x end | apply shrinks_bind; [|intros ?] | apply shrinks_same; by intros s].
Qed.

Lemma shrinks_Verify b : shrinks (Verify b).
Proof.
  unfold Verify. apply shrinks_bind; [apply shrinks_verifySign|]. intros []; [|by apply shrinks_same]. cbn [negb].
  apply shrinks_bind; [apply shrinks_internal|]. intros _. apply shrinks_bind; [apply shrinks_verifyDynasty|]. intros _. apply shrinks_irreversible.
Qed.

Lemma shrinks_Finalize isB now b : shrinks (Finalize isB now b).
Proof. unfold Finalize, updateVerifyContext, fetchDynastyByHeight, TryToUpdateEternalBlock, BroadcastBFTMsgToBookkeepers, SignCompact, the_verifyDynasty. shrinks. Qed.

Lemma shrinks_prepare now from body : shrinks (handleBlockPrepareMsg now from body).
Proof.
  unfold handleBlockPrepareMsg, BroadcastBFTMsgToBookkeepers, SignCompact, the_verifyDynasty. shrinks.
Qed.

Lemma shrinks_search n offset h : shrinks (searchIrreversible n offset h).
Proof.
  revert offset h. induction n as [|n IH]; intros offset h; cbn [searchIrreversible]; shrinks; try apply IH. intros s. apply delete_subseteq.
Qed.

Lemma shrinks_fetch now : shrinks (FetchIrreversibleInfo now).
Proof. unfold FetchIrreversibleInfo. shrinks; [apply shrinks_search|]. intros s. apply map_empty_subseteq. Qed.

End Shrinks.

Section Counted.
Context `{L : Ledger} `{BC : Lru bytes Block} {BCL : LruLaws bytes Block BC} `{MC : Lru Z Block} `{KC : Lru bytes bytes} `{DC : Lru Z Dynasty} {DCL : LruLaws Z Dynasty DC}.
Context `{C : Crypto} `{HC : HeaderCodec} `{PB : BlockCodec} {PBL : BlockCodecLaws PB} `{TC : TxCodec} `{K : Keccak} `{VO : VisitOrder} {CO : Committee}.
Context (U : bytes -> bytes -> Z -> Prop).

(** The signature was admitted in a state between [s0] and [s]. *)
Definition vouched (s0 : Bpos) (hash sig : bytes) : Prop := exists t, rtc (bpos_step U) s0 t /\ admitted t hash sig.

Definition all_vouched (s0 s : Bpos) : Prop := forall hash sigs, bp_commitCache s !! hash = Some sigs -> NoDup sigs /\ Forall (vouched s0 hash) sigs.

Lemma vouched_shrink s0 s s' : bp_commitCache s' ⊆ bp_commitCache s -> all_vouched s0 s -> all_vouched s0 s'.
Proof. intros Hsub Hs hash sigs E. apply Hs. by eapply lookup_weaken. Qed.

Lemma vouched_commit now from body s0 s r s' : rtc (bpos_step U) s0 s -> all_vouched s0 s -> handleBlockCommitMsg now from body s = (r, s') -> all_vouched s0 s'.
Proof.
  intros Hr Hs H. destruct (commit_counts _ _ _ _ _ _ H) as [[E|(h & sig & Had & Hnew & E)] _]; [apply (vouched_shrink s0 s); [by rewrite E|done]|].
  intros hash sigs. rewrite E. intros [[<- <-]|[_ Eh]]%lookup_insert_Some; [|by apply Hs].
  assert (NoDup (default [] (bp_commitCache s !! h)) /\ Forall (vouched s0 h) (default [] (bp_commitCache s !! h))) as [Hnd Hv].
  { destruct (bp_commitCache s !! h) as [old|] eqn:Eo; [by apply (Hs h)|split; constructor]. }
  split; [apply NoDup_app; split_and!; [done|set_solver|apply NoDup_singleton]|]. apply Forall_app. split; [done|]. constructor; [by exists s|constructor].
Qed.

Lemma vouched_step s0 s s' : rtc (bpos_step U) s0 s -> all_vouched s0 s -> bpos_step U s s' -> all_vouched s0 s'.
Proof.
  intros Hr Hs Hstep. assert (forall A (c : EM Bpos BposErr A), shrinks c -> runs c s s' -> all_vouched s0 s') as Hshr.
  { intros A c Hc (r & E & _). apply (vouched_shrink s0 s); [|done]. specialize (Hc s). by rewrite E in Hc. }
  destruct Hstep as [b k mode from s s' _ H|b k s s' _ H|isB now b k s s' _ H|now from body s s' H|now from body s s' (r & E & _)|now s s' H|s v _].
  - eapply Hshr, H. apply shrinks_on_chain.
  - eapply Hshr, H. apply shrinks_Verify.
  - eapply Hshr, H. apply shrinks_Finalize.
  - eapply Hshr, H. apply shrinks_prepare.
  - by eapply vouched_commit.
  - eapply Hshr, H. apply shrinks_fetch.
  - by apply (vouched_shrink s0 s).
Qed.

Lemma vouched_steps s0 s : bp_commitCache s0 = ∅ -> rtc (bpos_step U) s0 s -> all_vouched s0 s.
Proof.
  intros E0 Hr. refine (rtc_ind_r (all_vouched s0) s0 _ _ s Hr); [by intros hash sigs; rewrite E0|]. intros y z H1 H2 IH. by eapply vouched_step.
Qed.


End Counted.
