(* ===== verification/ChainDemo.v ===== *)
(** * ChainDemo: a node with a few blocks

    Small instances of the interfaces of the chain and of consensus, on which the theorems are
    applied and the runs of the node are evaluated. *)

From S2P Require Import Prelude Effects Crypto EvmMath EvmState EvmGas Abi AbiMethods Bytes Bloom Types Script ScriptKinds TxLogic Receipt Blocks Chain ChainFacts ChainMain Bpos BposFacts.
Import Script Kinds TxLogic Blocks Chain Bpos.

Module ChainDemo.

(** The stand-ins of [ToyCrypto], and the text of the address of the administrator. *)
#[export] Instance desk : Crypto := {|
  sha256 := ToyCrypto.pad 32;
  ripemd160 := ToyCrypto.pad 20;
  sha3_256 := ToyCrypto.pad 32;
  Signature := bytes;
  PublicKey := bytes;
  SigFromBytes b := if bool_decide (b = []) then None else Some b;
  PublicKeyFromBytes b := if bool_decide (b = []) then None else Some b;
  VerifySignature sg pk h := bool_decide (sg = pk ++ h);
  base58_Encode := String.string_of_list_byte;
  base58_Decode s := if bool_decide (s = Admin) then [x13; x26] ++ replicate 20 x0f ++ [x13; x26; x0f; x0f] else String.list_byte_of_string s
|}.

(** ** A cache of bounded size *)

Section Cache.
Context {K V : Type} `{EqDecision K}.

Fixpoint cache_at (c : list (K * V)) (k : K) : option V :=
  match c with [] => None | (k', v) :: c => if bool_decide (k' = k) then Some v else cache_at c k end.

Definition cache_drop (c : list (K * V)) (k : K) : list (K * V) := filter (fun p => p.1 <> k) c.

Lemma cache_drop_at c k : cache_at (cache_drop c k) k = None.
Proof. unfold cache_drop. induction c as [|[k' v] c IH]; [done|]. rewrite filter_cons. case_decide as H; cbn in *; [by rewrite bool_decide_eq_false_2|done]. Qed.
Lemma cache_drop_other c k k' : k' <> k -> cache_at (cache_drop c k) k' = cache_at c k'.
Proof.
  intros Hne. unfold cache_drop. induction c as [|[k0 v] c IH]; [done|]. rewrite filter_cons. case_decide as H; cbn in *; [by rewrite IH|].
  rewrite bool_decide_eq_false_2; [done|]. intros ->. destruct H. done.
Qed.
Lemma cache_take n c k v : cache_at (take n c) k = Some v -> cache_at c k = Some v.
Proof. revert n. induction c as [|[k' v'] c IH]; intros [|n]; cbn; try done. case_bool_decide; [done|apply IH]. Qed.

Definition cache (n : nat) : Lru K V := {|
  lru := list (K * V);
  lru_Get c k := (cache_at c k, c);
  lru_Contains c k := bool_decide (is_Some (cache_at c k));
  lru_Add c k v := (k, v) :: take n (cache_drop c k);
  lru_Remove c k := cache_drop c k
|}.

Definition cache_laws n : LruLaws K V (cache n).
Proof.
  refine (@Build_LruLaws K V (cache n) cache_at _ _ _ _ _ _ _); try done.
  - intros c k v. cbn. by rewrite bool_decide_eq_true_2.
  - intros c k v k' w Hne. cbn. rewrite bool_decide_eq_false_2 by done. intros H%cache_take. by rewrite cache_drop_other in H.
  - apply cache_drop_at.
  - intros c k k' Hne. by apply cache_drop_other.
Defined.

End Cache.

#[export] Instance blockcache : Lru bytes Block := cache 3.
#[export] Instance mintcache : Lru Z Block := cache 3.
#[export] Instance keycache : Lru bytes bytes := cache 3.
#[export] Instance dynastycache : Lru Z Dynasty := cache 3.
#[export] Instance blockcache_laws : LruLaws bytes Block blockcache := cache_laws 3.
#[export] Instance dynastycache_laws : LruLaws Z Dynasty dynastycache := cache_laws 3.

(** ** Blocks that are told apart by their time *)

#[export] Instance headers : HeaderCodec := {| pb_header_marshal m := Some (le_bytes 1 (ph_TimeStamp m)) |}.

Definition hash_of (t : Z) : bytes := ToyCrypto.pad 32 (le_bytes 1 t).

Definition block (t parent h : Z) : Block :=
  mkBlock (Some (hash_of t)) (mkHeader 1 (hash_of parent) (hash_of 0) (hash_of 0) (hash_of 0) (hash_of 0) t 0 (hash_of 0) (hash_of 0) h 0 (replicate 20 x00) (Some Receipt.emptyBloom)) [] [] [] None.

(** The main chain [b1], [b2]; a side chain [c1], [c2] with another block [x2] on [c1]. *)
Definition genesis := block 0 0 0.
Definition b1 := block 1 0 1.
Definition b2 := block 2 1 2.
Definition c1 := block 11 0 1.
Definition c2 := block 12 11 2.
Definition c3 := block 13 12 3.
Definition x2 := block 22 11 2.
Definition x3 := block 23 22 3.
Definition table : list Block := [genesis; b1; b2; c1; c2; c3; x2; x3].

(** An encoding that knows these blocks only: a block is its place in the table. *)
#[local] Instance TxData_eq_dec : EqDecision TxData.
Proof. solve_decision. Defined.
#[local] Instance PbOutPoint_eq_dec : EqDecision PbOutPoint.
Proof. solve_decision. Defined.
#[local] Instance PbTxIn_eq_dec : EqDecision PbTxIn.
Proof. solve_decision. Defined.
#[local] Instance PbTransaction_eq_dec : EqDecision PbTransaction.
Proof. solve_decision. Defined.
#[local] Instance Irreversible_eq_dec : EqDecision IrreversibleInfo.
Proof. solve_decision. Defined.
#[local] Instance PbHeader_eq_dec : EqDecision PbHeader.
Proof. solve_decision. Defined.
#[local] Instance PbBlock_eq_dec : EqDecision PbBlock.
Proof. solve_decision. Defined.

Definition place (m : PbBlock) : option nat := fst <$> list_find (fun b => ToProtoMessage b = m) table.

#[export] Instance blocks : BlockCodec := {|
  pb_block_marshal m := (fun i => le_bytes 1 (Z.of_nat i)) <$> place m;
  pb_block_unmarshal d := match d with [_] => ToProtoMessage <$> table !! Z.to_nat (le_value d) | _ => None end
|}.

#[export] Instance blocks_laws : BlockCodecLaws blocks.
Proof.
  split. intros m d. unfold pb_block_marshal, pb_block_unmarshal, blocks, place. destruct (list_find (fun b => ToProtoMessage b = m) table) as [[i b]|] eqn:E; [|done]. intros [= <-]. apply list_find_Some in E as (Hi & <- & _).
  assert (i < 8) as Hlt by (by apply lookup_lt_Some in Hi). change (le_bytes 1 (Z.of_nat i)) with [z2b (Z.of_nat i mod 256)]. cbn [le_value]. rewrite b2z_z2b.
  replace (Z.to_nat _) with i; [by rewrite Hi|]. rewrite !Z.mod_small by lia. lia.
Qed.

#[export] Instance node : Ledger := {|
  ledger := unit; ledgerErr := unit; execResult := unit;
  validateBlock _ _ := None; consensus_Verify _ l := (None, l); consensus_Finalize _ l := (true, l);
  adjustAndValidateState _ _ l := (Ok (tt, []), l); writeRecords _ _ l := Ok l; sealState _ l := l; revertRecords _ l := Ok l; SetTailState _ l := Ok l;
  ActiveLightSync _ l := (None, l)
|}.

(** The blocks in play. *)
Definition links : list (bytes * bytes * Z) := map (fun b => (default [] (b_Hash b), h_PrevBlockHash (b_Header b), height b)) table.
Definition U (k p : bytes) (h : Z) : Prop := (k, p, h) ∈ links.

Lemma links_ok : forallb (fun x => (0 <=? x.2)%Z && (x.2 <? 2 ^ 32 - 1)%Z && forallb (fun y => negb (bool_decide (x.1.1 = y.1.1)) || bool_decide (x.1.2 = y.1.2 /\ x.2 = y.2)) links) links = true.
Proof. vm_compute. reflexivity. Qed.

Lemma U_universe : universe U.
Proof.
  pose proof links_ok as Hok. rewrite forallb_forall in Hok. split.
  - intros k p h p' h' H1%list_elem_of_In H2%list_elem_of_In. apply Hok in H1. apply andb_prop in H1 as [_ H1]. rewrite forallb_forall in H1. apply H1 in H2. cbn in H2.
    rewrite bool_decide_eq_true_2 in H2 by done. cbn in H2. by apply bool_decide_eq_true in H2.
  - intros k p h H1%list_elem_of_In. apply Hok in H1. cbn in H1. lia.
Qed.

Lemma table_known b : b ∈ table -> known U b (default [] (b_Hash b)).
Proof.
  intros Hb. assert (exists t p h, b = block t p h /\ b_Hash b = Some (hash_of t)) as (t & p & h & -> & _) by (cbn in Hb; repeat (apply elem_of_cons in Hb as [->|Hb]; [by eexists _, _, _|]); by apply elem_of_nil in Hb).
  split.
  - split; [|done|by intros bf [= <-]; apply emptyBloom_sized]. repeat constructor; apply ToyCrypto.length_pad.
  - done.
  - reflexivity.
  - unfold U, links. apply list_elem_of_fmap. by exists (block t p h).
Qed.

(** ** Runs *)

Definition start : BlockChain := mkChain {[hash_of 0 := le_bytes 1 0]} ∅ None None tt genesis genesis genesis 0 [] [] ∅ ∅ ∅ [].

Lemma start_main : main U genesis (hash_of 0) start [hash_of 0].
Proof.
  pose proof (table_known genesis ltac:(by left)) as Hg. split; [split|..]; try done.
  - cbn. intros k d [<- <-]%lookup_singleton_Some. split; [by left|]. exists genesis. split; [done|]. vm_compute. reflexivity.
  - by exists (hash_of 0), [].
  - apply path_genesis.
  - repeat constructor.
  - intros i Hi. cbn. destruct (Z.leb_spec i 0); [lia|done].
Qed.

Lemma start_final : final U genesis (hash_of 0) genesis [hash_of 0] start.
Proof. split; [done|]. split; [exists (hash_of 0); split; [done|by apply (table_known genesis); left]|]. exists []. apply start_main. Qed.

Definition play (bs : list Block) (s : BlockChain) : BlockChain := foldl (fun s b => (ProcessBlock b RelayMode "peer" s).2) s bs.

Lemma b1_known : known U (with_hash b1) (hash_of 1).
Proof. apply (table_known b1). right. by left. Qed.

Lemma process_block_ends_witness : (ProcessBlock b1 RelayMode "peer" start).1 <> EFuel.
Proof. exact (process_block_ends U U_universe genesis (hash_of 0) genesis [hash_of 0] b1 (hash_of 1) RelayMode "peer" start start_final b1_known). Defined.

(** Orphans and a longer branch: the node follows it. *)
Example longer_branch_wins : let s := play [b1; c3; c2; c1] start in (b_Hash (c_tail s), height (c_tail s)) = (Some (hash_of 13), 3%Z).
Proof. vm_compute. reflexivity. Qed.

(** A peer stops the node: the blocks [c1] and [c2] of a side chain are removed when [c3] arrives
    above a final block, [x2] stays without its parent, and [x3] on it makes the search for the fork
    panic.  None of these blocks needs a signature. *)
Example side_chain_crash :
  let s := play [b1; b2; c1; c2; x2] start in
  let s := (updateEternal b1 s).2 in
  let s := play [c3] s in
  (b_Hash (c_eternal s), (ProcessBlock x3 RelayMode "peer" s).1) = (Some (hash_of 1), EPanic).
Proof. vm_compute. reflexivity. Qed.

(** [reorganize] while another goroutine runs [between] after the guard has been passed. *)
Definition reorganize_with (between : EM BlockChain ChainErr unit) (block : Block) (messageFrom : string) : EM BlockChain ChainErr Block :=
  '(forkpoint, detachBlocks, attachBlocks) ← findFork block;
  eternal ← e_gets c_eternal;
  if (height forkpoint <? height eternal)%Z then _ ← removeBlocks attachBlocks; mret block
  else
    _ ← between;
    _ ← disconnectAll detachBlocks;
    connected ← attachAll (rev attachBlocks) [] detachBlocks messageFrom;
    mret (default block (head connected)).

Lemma reorganize_alone b from s : reorganize_with (mret tt) b from s = reorganize b from s.
Proof.
  unfold reorganize_with, reorganize, mbind, EM_bind, mret, EM_ret, e_gets. destruct (findFork b s) as [[[[f d] a]|e| |] s1]; [|done..].
  by destruct (height f <? height (c_eternal s1))%Z.
Qed.

(** Nothing keeps the final block from moving during [reorganize]: when [b1] becomes final after the
    comparison with the fork point, it is detached all the same, and the final block of the node is
    not on its main chain any more. *)
Example race_detaches_final :
  let s := play [b1; c1] start in
  let s' := (reorganize_with (updateEternal b1) c2 "peer" s).2 in
  (b_Hash (c_eternal s'), height (c_eternal s'), height (c_tail s'), b_Hash <$> match (LoadBlockByHeight 1 s').1 with EOk b => Some b | _ => None end) =
  (Some (hash_of 1), 1%Z, 2%Z, Some (Some (hash_of 11))).
Proof. vm_compute. reflexivity. Qed.

(** ** Delegates *)

(** The first twenty bytes of a signature are the key, after a mark for its form; what follows can
    be anything. *)
Definition delegate (a : byte) (peer : string) : Delegate := mkDelegate (replicate 20 a) peer None None None None None None.
Definition delegates : list Delegate := [delegate x0a "alice"; delegate x0b "bob"; delegate x0c "carol"; delegate x0d "dave"].

Definition sign (a salt : byte) : bytes := x01 :: replicate 20 a ++ [salt].

Definition toyRecover (sig : bytes) : option (bytes * bool) :=
  match sig with [] => None | mark :: rest => Some (take 20 rest, bool_decide (mark = x01)) end.

#[export] Instance keccak : Keccak := AbiDemo.keccak.
#[export] Instance order : VisitOrder := AbiDemo.order.
#[export] Instance txs : TxCodec := {| pb_marshal m := Some (default [] (data_content <$> pb_Data m)) |}.

Definition abi : ABI :=
  mkABI (mkMethod EmptyString EmptyString false [] []) {[ CalcBonus := mkMethod CalcBonus CalcBonus false [] []; ExecBonus := mkMethod ExecBonus ExecBonus false [] [] ]} ∅.

(** A message is the time of a block and a signature. *)
#[export] Instance committee : Committee := {|
  btcec_RecoverCompact sig _ := toyRecover sig : option (PublicKey * bool);
  pubkey_Serialize key := key;
  own_SignCompact _ := Some (sign x0a x00);
  pb_dynasty_marshal l := Some (concat (map pd_Addr l));
  pb_eternal_unmarshal d := match d with [] => None | t :: sig => Some (mkPbEternal (ToyCrypto.pad 32 [t]) 100 sig) end;
  ContractAddr := replicate 20 x00;
  ContractAbi := abi;
  getDynasty _ _ := Ok delegates;
  getNetParams _ _ := Ok (mkNetParams 100 0 50);
  adminNonce _ _ _ := Ok 7%Z
|}.

Definition dynasty : Dynasty := mkDynasty delegates (map dl_Addr delegates) (map dl_PeerID delegates).

Definition node_at (s : BlockChain) : Bpos := mkBpos s None None None true true ∅ ∅ [] [] [] [].

(** A delegate that signs twice is a quorum of its own. *)
Example one_delegate_quorum :
  let s := node_at (play [b1; b2] start) in
  let s := (handleBlockCommitMsg 101 "dave" (x01 :: sign x0d x00) s).2 in
  let s' := (handleBlockCommitMsg 101 "dave" (x01 :: sign x0d x01) s).2 in
  (quorum dynasty, b_Hash (c_eternal (bp_chain s)), b_Hash (c_eternal (bp_chain s'))) = (2, Some (hash_of 0), Some (hash_of 1)).
Proof. vm_compute. reflexivity. Qed.

(** What the node then puts into its block is refused by the others. *)
Example own_block_refused :
  let s := node_at (play [b1; b2] start) in
  let s := (handleBlockCommitMsg 101 "dave" (x01 :: sign x0d x00) s).2 in
  let s := (handleBlockCommitMsg 101 "dave" (x01 :: sign x0d x01) s).2 in
  match (FetchIrreversibleInfo 101 s).1 with
  | EOk (Some info) =>
      (verifyIrreversibleInfo (mkBlock None (b_Header c3) [] [] [] (Some info)) (with_verify s (Some dynasty) None None)).1
  | _ => EPanic
  end = EErr ErrDuplicatedSignature.
Proof. vm_compute. reflexivity. Qed.

(** A signature for the other form of the key stops the node. *)
Example uncompressed_signature_crash :
  (verifySign (mkBlock (Some (hash_of 1)) (b_Header b1) [] [] (x00 :: replicate 20 x0a) None) (node_at start)).1 = EPanic.
Proof. vm_compute. reflexivity. Qed.

(** ** The theorems on this node *)

Lemma proposers_take_turns_witness : exists d, turn 1234 delegates = Some d /\ FindProposerWithTimeStamp 1234 delegates = Returns (Ok (dl_Addr d)).
Proof. apply (proposers_take_turns 1234 delegates); [done|done|done]. Defined.

(** The first block, with its coinbase transaction, made by the first delegate. *)
Definition coinbase : Transaction :=
  match (MakeCoinBaseContractTx (replicate 20 x00) 10 0 8 1 (node_at start)).1 with EOk tx => tx | _ => mkTx UnknownTx 0 [] [] None 0 0 end.
Definition minted : Block :=
  mkBlock (Some (hash_of 1)) (mkHeader 1 (hash_of 0) (hash_of 0) (hash_of 0) (hash_of 0) (hash_of 0) 1 0 (hash_of 0) (replicate 20 x0a ++ replicate 12 x0b) 1 0 (replicate 20 x00) None)
    [coinbase] [] (sign x0a x00) (Some (mkIrreversible (hash_of 0) [sign x0a x00; sign x0b x00])).

Abbreviation verified := (Verify minted (node_at start)).

Lemma verified_ok : verified = (EOk tt, verified.2).
Proof. refine (eq_trans (surjective_pairing verified) (f_equal (fun x => (x, verified.2)) _)). vm_compute. reflexivity. Qed.

Lemma accepted_block_signed_witness :
  exists d hash addr, bp_verifyDynasty verified.2 = Some d /\ BlockHash minted = Some hash /\
    FindProposerWithTimeStamp (h_TimeStamp (b_Header minted)) (dy_delegates d) = Returns (Ok addr) /\ signed_by hash (b_Signature minted) addr /\
    ((0 < height minted)%Z -> exists data, pb_dynasty_marshal (Dynasty_ToProtoMessage d) = Some data /\ h_DynastyHash (b_Header minted) = Crypto.DoubleHashH data) /\
    (forall info, b_Irreversible minted = Some info -> quorum_signed d info).
Proof. exact (accepted_block_signed minted (node_at start) verified.2 verified_ok). Defined.

(** Two delegates commit to the first block. *)
Definition one_commit : Bpos := (handleBlockCommitMsg 101 "dave" (x01 :: sign x0d x00) (node_at (play [b1; b2] start))).2.
Abbreviation two_commits := (handleBlockCommitMsg 101 "carol" (x01 :: sign x0c x00) one_commit).

Lemma one_commit_step : rtc (bpos_step U) (node_at (play [b1; b2] start)) one_commit.
Proof.
  apply rtc_once, (step_commit _ 101 "dave" (x01 :: sign x0d x00)). exists (handleBlockCommitMsg 101 "dave" (x01 :: sign x0d x00) (node_at (play [b1; b2] start))).1.
  split; [apply surjective_pairing|]. vm_compute. discriminate.
Qed.


Abbreviation fetched := (FetchIrreversibleInfo 101 two_commits.2).

Lemma commits_never_cleared_witness : bp_commitCache fetched.2 =
  match fetched.1 with EOk (Some info) => delete (ii_Hash info) (bp_commitCache two_commits.2) | _ => bp_commitCache two_commits.2 end.
Proof. apply (commits_never_cleared 101 two_commits.2 fetched.1 fetched.2); [vm_compute; discriminate|apply surjective_pairing]. Defined.

(** A block arrives and a delegate commits to it. *)
Definition arrived : Bpos := (on_chain (ProcessBlock b1 RelayMode "peer") (node_at start)).2.
Definition committed : Bpos := (handleBlockCommitMsg 101 "dave" (x01 :: sign x0d x00) arrived).2.

Lemma committed_steps : rtc (bpos_step U) (node_at start) committed.
Proof.
  apply (rtc_l _ _ arrived); [|apply rtc_once].
  - apply (step_block _ b1 (hash_of 1) RelayMode "peer"); [apply b1_known|]. exists (on_chain (ProcessBlock b1 RelayMode "peer") (node_at start)).1. split; [apply surjective_pairing|]. vm_compute. discriminate.
  - apply (step_commit _ 101 "dave" (x01 :: sign x0d x00)). exists (handleBlockCommitMsg 101 "dave" (x01 :: sign x0d x00) arrived).1. split; [apply surjective_pairing|]. vm_compute. discriminate.
Qed.

Lemma final_blocks_stay_witness : exists e fin, final U genesis (hash_of 0) e fin (bp_chain committed) /\ [hash_of 0] `suffix_of` fin.
Proof. exact (final_blocks_stay U U_universe genesis (hash_of 0) genesis [hash_of 0] (node_at start) committed committed_steps start_final). Defined.

Lemma main_chain_indexed_witness : indexed (bp_chain committed).
Proof. exact (main_chain_indexed U U_universe genesis (hash_of 0) genesis [hash_of 0] (node_at start) committed committed_steps start_final). Defined.

(** A fork. *)
Lemma process_final b k s : final U genesis (hash_of 0) genesis [hash_of 0] s -> known U (with_hash b) k -> (ProcessBlock b RelayMode "peer" s).1 <> EPanic ->
  final U genesis (hash_of 0) genesis [hash_of 0] (ProcessBlock b RelayMode "peer" s).2.
Proof.
  intros Hf Hb Hp. pose proof (ewp_ProcessBlock U U_universe genesis (hash_of 0) genesis [hash_of 0] b k RelayMode "peer" s Hf Hb) as H. unfold ewpf in H.
  destruct (ProcessBlock b RelayMode "peer" s) as [[] s']; done.
Qed.

Definition forked : BlockChain := play [b1; c1] start.

Lemma forked_final : final U genesis (hash_of 0) genesis [hash_of 0] forked.
Proof.
  apply (process_final c1 (hash_of 11)); [|by apply (table_known c1); do 3 right; left|vm_compute; discriminate].
  apply (process_final b1 (hash_of 1)); [apply start_final|apply b1_known|vm_compute; discriminate].
Qed.

Lemma c2_linked : linked U (hash_of 12).
Proof. exists (hash_of 11), 2%Z, (hash_of 0). split; unfold U, links; apply list_elem_of_fmap; [exists c2|exists c1]; (split; [done|]); set_solver. Qed.

Abbreviation fork_of_c2 := (findFork c2 forked).

Lemma fork_point_found_witness : exists ks, main U genesis (hash_of 0) forked ks /\
  match fork_of_c2.1 with
  | EOk (fork, detach, attach) => head attach = Some c2 /\ length detach < length attach /\
      exists dks fk rest aks, ks = dks ++ fk :: rest /\ known U fork fk /\ Forall2 (known U) detach dks /\ stacked U fk attach aks /\ Forall (fun k => k ∉ ks) aks
  | _ => False
  end.
Proof.
  destruct forked_final as (_ & _ & pre & Hm). exists (pre ++ [hash_of 0]). split; [exact Hm|].
  assert (match fork_of_c2.1 with EOk _ => True | _ => False end) as Hok by (vm_compute; exact I). destruct fork_of_c2 as [[[[fork detach] attach]|e| |] s'] eqn:E; try destruct Hok.
  apply (fork_point_found U U_universe genesis (hash_of 0) c2 (hash_of 12) (pre ++ [hash_of 0]) forked fork detach attach s'); [exact Hm| |exact c2_linked|exact E].
  apply (table_known c2). do 4 right. left.
Defined.

End ChainDemo.
