(* ===== verification/TxPool.v ===== *)
(** * TxPool: transactions that wait for a block (src/core/txpool/transaction_pool.go)

    A transaction whose inputs are unspent, in the database or among the outputs of the pool, is
    kept with an index of the outputs it spends; one whose inputs are not known waits as an orphan.
    Blocks that are connected or disconnected, failed scripts and time remove transactions.  Every
    operation is given the chain as it is then ([View]) and the time.  The channel of scripts to be
    checked is a list of the state; a send finds it full when it holds [TxScriptBufferChSize], and
    then the call waits for the loop of the pool, for ever when that loop made it.  What is sent to
    peers is a list of the state.  The type that other components cache
    in a transaction of the pool is not followed. *)

From S2P Require Import Prelude Effects Opcode Crypto Bytes Bloom EvmMath EvmState EvmMachine EvmGas EvmInstr EvmPrecompile Evm Types Script ScriptKinds TxLogic Compress Keys UtxoSet UtxoDb Validate Transition Receipt Blocks Processor Chain.
Import Kinds TxLogic Compress Utxo UtxoDb Validate Transition Processor.

Record TxWrap := mkTxWrap { tw_Tx : Transaction; tw_AddedTimestamp : Z; tw_Height : Z; tw_IsScriptValid : bool }.

Inductive PoolErr :=
  | ErrDuplicateTxInPool | ErrCoinbaseTx | ErrPoolNonStandard | ErrOrphanTransaction | ErrOutPutAlreadySpent | ErrSameInput | ErrPoolFee | ErrPoolCodeSize
  | ErrPoolOutOfGas | ErrPoolFrom | ErrContractNotFound | ErrNonceTooLow | ErrNonceTooBig | ErrNonceExists
  | ErrPoolMarshal | ErrPoolChain (e : Validate.ChainErr) | ErrPoolDb (e : DbErr) | ErrPoolScript (e : ScriptErr).

(** The chain that the pool looks at: the records, the state of the tail and its height. *)
Record View `{D : StateDB} := mkView { v_db : Db; v_state : sdb; v_LongestChainHeight : Z }.
Arguments mkView {_} _ _ _.

Section State.
Context `{SC : Lru bytes bool}.

Record TransactionPool := mkPool {
  tp_hashToTx : gmap bytes TxWrap;
  tp_outPointToTx : gmap OutPoint Transaction;
  tp_hashToOrphanTx : gmap bytes TxWrap;
  tp_outPointToOrphan : gmap OutPoint (gmap bytes Transaction);
  tp_txcache : lru bytes bool;
  tp_nonceMap : gmap bytes (gset Z);
  tp_scripts : list (Transaction * UtxoSet);
  tp_sent : list (TransferMode * Transaction)
}.

Definition with_txs (s : TransactionPool) h o := mkPool h o (tp_hashToOrphanTx s) (tp_outPointToOrphan s) (tp_txcache s) (tp_nonceMap s) (tp_scripts s) (tp_sent s).
Definition with_orphan (s : TransactionPool) h o := mkPool (tp_hashToTx s) (tp_outPointToTx s) h o (tp_txcache s) (tp_nonceMap s) (tp_scripts s) (tp_sent s).
Definition with_txcache (s : TransactionPool) c := mkPool (tp_hashToTx s) (tp_outPointToTx s) (tp_hashToOrphanTx s) (tp_outPointToOrphan s) c (tp_nonceMap s) (tp_scripts s) (tp_sent s).
Definition with_nonces (s : TransactionPool) m := mkPool (tp_hashToTx s) (tp_outPointToTx s) (tp_hashToOrphanTx s) (tp_outPointToOrphan s) (tp_txcache s) m (tp_scripts s) (tp_sent s).
Definition with_scripts (s : TransactionPool) l := mkPool (tp_hashToTx s) (tp_outPointToTx s) (tp_hashToOrphanTx s) (tp_outPointToOrphan s) (tp_txcache s) (tp_nonceMap s) l (tp_sent s).
Definition with_relayed (s : TransactionPool) x := mkPool (tp_hashToTx s) (tp_outPointToTx s) (tp_hashToOrphanTx s) (tp_outPointToOrphan s) (tp_txcache s) (tp_nonceMap s) (tp_scripts s) (tp_sent s ++ [x]).

End State.

Module TxPool.

(** An hour. *)
Definition txTTL : Z := 3600.

Definition TxScriptBufferChSize : Z := 65536.

Section TxPool.
Context `{SC : Lru bytes bool} {D : StateDB} `{C : Crypto} `{TC : TxCodec} {VO : VisitOrder} {MO : MapOrder} `{P : Pow10}.
Context (pool : bytes).

Abbreviation TM := (EM TransactionPool PoolErr).

Definition t_go {A} (x : go A) : TM A := match x with Returns a => mret a | Panics => e_panic end.

(** [tx.TxHash()] followed by a dereference. *)
Definition TxHash (tx : Transaction) : TM bytes := e_deref (Types.CalcTxHash tx).

Definition statedb (v : View) : option (bytes -> bool) := Some (isContract (v_state v)).

Definition isTransactionInPool (txHash : bytes) (s : TransactionPool) : bool := bool_decide (is_Some (tp_hashToTx s !! txHash)).
Definition isOrphanInPool (txHash : bytes) (s : TransactionPool) : bool := bool_decide (is_Some (tp_hashToOrphanTx s !! txHash)).
Definition FindTransaction (outpoint : OutPoint) (s : TransactionPool) : option Transaction := tp_outPointToTx s !! outpoint.

(** ** Adding *)

Definition addTx (now : Z) (tx : Transaction) (height : Z) : TM unit :=
  txHash ← TxHash tx;
  e_modify (fun s => with_txs s (<[txHash := mkTxWrap tx now height false]> (tp_hashToTx s))
    (foldl (fun m txIn => <[PrevOutPoint txIn := tx]> m) (tp_outPointToTx s) (Vin tx))).

(** [LoadOrStore] of a map with this orphan only: an outpoint that has a map keeps it. *)
Definition addOrphan (now : Z) (tx : Transaction) : TM unit :=
  txHash ← TxHash tx;
  e_modify (fun s => with_orphan s (<[txHash := mkTxWrap tx now 0 false]> (tp_hashToOrphanTx s))
    (foldl (fun m txIn => match m !! PrevOutPoint txIn with Some _ => m | None => <[PrevOutPoint txIn := {[ txHash := tx ]}]> m end) (tp_outPointToOrphan s) (Vin tx))).

Definition orphanGone (txHash : bytes) (m : gmap OutPoint (gmap bytes Transaction)) (txIn : TxIn) : gmap OutPoint (gmap bytes Transaction) :=
  match m !! PrevOutPoint txIn with
  | None => m
  | Some siblings =>
      let siblings := delete txHash siblings in
      if bool_decide (siblings = ∅) then delete (PrevOutPoint txIn) m else <[PrevOutPoint txIn := siblings]> m
  end.

Definition removeOrphan (tx : Transaction) : TM unit :=
  txHash ← TxHash tx;
  e_modify (fun s => with_orphan s (delete txHash (tp_hashToOrphanTx s)) (foldl (orphanGone txHash) (tp_outPointToOrphan s) (Vin tx))).

Fixpoint removeOrphans (txs : list Transaction) : TM unit :=
  match txs with [] => mret tt | tx :: txs => _ ← removeOrphan tx; removeOrphans txs end.

(** The orphans of one outpoint after the other. *)
Fixpoint doubleSpendOrphans (ins : list TxIn) : TM unit :=
  match ins with
  | [] => mret tt
  | txIn :: ins =>
      orphans ← e_gets (fun s => tp_outPointToOrphan s !! PrevOutPoint txIn);
      _ ← match orphans with None => mret tt | Some m => removeOrphans (visit m).*2 end;
      doubleSpendOrphans ins
  end.

Definition removeDoubleSpendOrphans (tx : Transaction) : TM unit := doubleSpendOrphans (Vin tx).

(** ** Checks *)

(** The inputs that a transaction of the pool spends, with that transaction. *)
Definition getPoolDoubleSpendTxs (tx : Transaction) (s : TransactionPool) : list (OutPoint * Transaction) :=
  omap (fun txIn => (fun t => (PrevOutPoint txIn, t)) <$> FindTransaction (PrevOutPoint txIn) s) (Vin tx).

Fixpoint sameInput (ins : list TxIn) (opSet : gset OutPoint) : bool :=
  match ins with
  | [] => false
  | txIn :: ins => if bool_decide (PrevOutPoint txIn ∈ opSet) then true else sameInput ins ({[ PrevOutPoint txIn ]} ∪ opSet)
  end.

Definition checkDoubleSpend (tx : Transaction) : TM unit :=
  ds ← e_gets (getPoolDoubleSpendTxs tx);
  if 0 <? length ds then e_fail ErrOutPutAlreadySpent
  else
    match Vin tx with
    | [_] => mret tt
    | [a; b] => if bool_decide (PrevOutPoint a = PrevOutPoint b) then e_fail ErrSameInput else mret tt
    | ins => if sameInput ins ∅ then e_fail ErrSameInput else mret tt
    end.

(** A contract transaction of the pool that spends the same output gives way to one with a lower
    nonce; the nonce it is compared with is read from the new transaction again. *)
Fixpoint replaceLoop (v : View) (tx : Transaction) (param : VMTxParams) (ds : list (OutPoint * Transaction)) : TM unit :=
  match ds with
  | [] => mret tt
  | (op, dsTx) :: ds =>
      if negb (bool_decide ((GetTxType (statedb v) dsTx).2 = ContractTx)) then replaceLoop v tx param ds
      else
        vout ← t_go (GetContractVout tx (v_state v));
        vout ← e_deref vout;
        match ParseContractParams (ScriptPubKey vout) with
        | Err _ => replaceLoop v tx param ds
        | Ok (p, _) =>
            if (vp_Nonce param <? vp_Nonce p)%Z then
              dsHash ← TxHash dsTx;
              _ ← e_modify (fun s =>
                    let nonces := default ∅ (tp_nonceMap s !! vp_From param) ∖ {[ vp_Nonce p ]} in
                    with_nonces (with_txs s (delete dsHash (tp_hashToTx s)) (delete op (tp_outPointToTx s)))
                      (if bool_decide (nonces = ∅) then delete (vp_From param) (tp_nonceMap s) else <[vp_From param := nonces]> (tp_nonceMap s)));
              replaceLoop v tx param ds
            else replaceLoop v tx param ds
        end
  end.

(** [FetchOutPointOwner]; [None] is an error. *)
Definition FetchOutPointOwner (op : OutPoint) (u : UtxoSet) : option Types.Address :=
  match FindUtxo u op with
  | None => None
  | Some w => match ExtractAddress (Types.uw_script w) with Ok a => Some a | Err _ => None end
  end.

Definition CheckGasAndNonce (v : View) (tx : Transaction) (u : UtxoSet) : TM unit :=
  r ← t_go (ValidateTxInputs u tx);
  txFee ← match r with Ok fee => mret fee | Err e => e_fail (ErrPoolChain e) end;
  if negb (bool_decide ((GetTxType (statedb v) tx).2 = ContractTx)) then
    if (txFee =? u64 (TransferFee + ExtraFee tx))%Z then mret tt else e_fail ErrPoolFee
  else
    vout ← t_go (GetContractVout tx (v_state v));
    if match Data tx with Some d => (MaxCodeSize <? Z.of_nat (length (data_content d)))%Z | None => false end then e_fail ErrPoolCodeSize
    else
      vout ← e_deref vout;
      '(param, ty) ← match ParseContractParams (ScriptPubKey vout) with Ok x => mret x | Err e => e_fail (ErrPoolScript e) end;
      if negb (txFee =? u64 (u64 (vp_GasLimit param * FixedGasPrice) + ExtraFee tx))%Z then e_fail ErrPoolFee
      else
        let contractCreation := bool_decide (ty = ContractCreationType) in
        data ← e_deref (Data tx);
        match IntrinsicGas (data_content data) contractCreation with
        | None => e_fail ErrPoolOutOfGas
        | Some gas =>
            if (vp_GasLimit param <? gas)%Z then e_fail ErrPoolOutOfGas
            else
              txIn ← e_deref (head (Vin tx));
              addr ← e_deref (FetchOutPointOwner (PrevOutPoint txIn) u);
              owner ← e_deref (Types.address_Hash160 addr);
              if negb (bool_decide (owner = vp_From param)) then e_fail ErrPoolFrom
              else if negb contractCreation && negb (peek false (Exist (vp_To param)) (v_state v)) then e_fail ErrContractNotFound
              else
                let nonceOnChain := peek 0%Z (GetNonce (vp_From param)) (v_state v) in
                if (vp_Nonce param <? u64 (nonceOnChain + 1))%Z then e_fail ErrNonceTooLow
                else if (u64 (nonceOnChain + 200) <? vp_Nonce param)%Z then e_fail ErrNonceTooBig
                else
                  nonces ← e_gets (fun s => tp_nonceMap s !! vp_From param);
                  _ ← match nonces with
                      | Some ns => if bool_decide (vp_Nonce param ∈ ns) then e_fail ErrNonceExists else mret tt
                      | None => e_modify (fun s => with_nonces s (<[vp_From param := ∅]> (tp_nonceMap s)))
                      end;
                  ds ← e_gets (getPoolDoubleSpendTxs tx);
                  _ ← replaceLoop v tx param ds;
                  nonces ← e_gets (fun s => tp_nonceMap s !! vp_From param);
                  ns ← e_deref nonces;
                  e_modify (fun s => with_nonces s (<[vp_From param := {[ vp_Nonce param ]} ∪ ns]> (tp_nonceMap s)))
        end.

(** ** Accepting *)

(** What the pool offers to spend. *)
Definition spendable (s : TransactionPool) : gmap bytes (Transaction * Z) := (fun w => (tw_Tx w, tw_Height w)) <$> tp_hashToTx s.

(** [tx_pool.newTxScriptCh <- x]. *)
Definition sendScript (x : Transaction * UtxoSet) : TM unit :=
  n ← e_gets (fun s => Z.of_nat (length (tp_scripts s)));
  if (n <? TxScriptBufferChSize)%Z then e_modify (fun s => with_scripts s (tp_scripts s ++ [x])) else e_block.

(** [Broadcast] or [Relay]: it fails when the transaction cannot be encoded; the connections are
    written to by goroutines of their own. *)
Definition transfer (mode : TransferMode) (tx : Transaction) : TM unit :=
  match mode with
  | DefaultMode => mret tt
  | mode =>
      match Types.tx_marshal tx with
      | None => e_fail ErrPoolMarshal
      | Some _ => e_modify (fun s => with_relayed s (mode, tx))
      end
  end.

Definition maybeAcceptTx (v : View) (now : Z) (tx : Transaction) (transferMode : TransferMode) (detectDupOrphan : bool) : TM unit :=
  txHash ← TxHash tx;
  known ← e_gets (fun s => isTransactionInPool txHash s || detectDupOrphan && isOrphanInPool txHash s || lru_Contains (tp_txcache s) txHash);
  if known : bool then e_fail ErrDuplicateTxInPool
  else
    match ValidateTransactionPreliminary tx with
    | Some e => e_fail (ErrPoolChain e)
    | None =>
        if IsCoinBase tx then e_fail ErrCoinbaseTx
        else
          let '(tx, standard) := IsStandardTx (statedb v) tx in
          if negb standard then e_fail ErrPoolNonStandard
          else
            txs ← e_gets spendable;
            r ← t_go (GetExtendedTxUtxoSet pool tx (v_db v) txs);
            u ← match r with Ok u => mret u | Err e => e_fail (ErrPoolDb e) end;
            if (TxInputAmount u tx =? 0)%Z then _ ← addOrphan now tx; e_fail ErrOrphanTransaction
            else
              _ ← CheckGasAndNonce v tx u;
              _ ← checkDoubleSpend tx;
              let tx := if bool_decide (tx_type tx = PayToPubkTx) then set_type tx UnknownTx else tx in
              _ ← sendScript (tx, u);
              _ ← addTx now tx (u32 (v_LongestChainHeight v + 1));
              _ ← e_modify (fun s => with_txcache s (lru_Add (tp_txcache s) txHash true));
              transfer transferMode tx
    end.

(** The orphans of an outpoint until one is accepted; errors are only logged. *)
Fixpoint acceptOne (v : View) (now : Z) (orphans : list Transaction) : TM (option Transaction) :=
  match orphans with
  | [] => mret None
  | orphan :: orphans =>
      r ← e_try (maybeAcceptTx v now orphan DefaultMode false);
      match r with
      | Err _ => acceptOne v now orphans
      | Ok _ => _ ← removeOrphan orphan; mret (Some orphan)
      end
  end.

(** The outputs [idx], ... of a transaction: the orphans that spend them and are accepted. *)
Fixpoint wakeOrphans (v : View) (now : Z) (txHash : bytes) (outs : list TxOut) (idx : nat) (accepted : list Transaction) : TM (list Transaction) :=
  match outs with
  | [] => mret accepted
  | _ :: outs =>
      orphans ← e_gets (fun s => tp_outPointToOrphan s !! mkOutPoint txHash (u32 (Z.of_nat idx)));
      match orphans with
      | None => wakeOrphans v now txHash outs (S idx) accepted
      | Some m =>
          r ← acceptOne v now (visit m).*2;
          wakeOrphans v now txHash outs (S idx) (accepted ++ option_list r)
      end
  end.

(** The accepted transactions, those still to look at first. *)
Fixpoint orphanLoop (fuel : nat) (v : View) (now : Z) (todo accepted : list Transaction) : TM (list Transaction) :=
  match fuel with
  | O => e_fuel
  | S fuel =>
      match todo with
      | [] => mret accepted
      | tx :: todo =>
          txHash ← TxHash tx;
          woken ← wakeOrphans v now txHash (Vout tx) 0 [];
          orphanLoop fuel v now (todo ++ woken) (accepted ++ [tx])
      end
  end.

Fixpoint removeDoubleSpends (txs : list Transaction) : TM unit :=
  match txs with [] => mret tt | tx :: txs => _ ← removeDoubleSpendOrphans tx; removeDoubleSpends txs end.

(** The orphans that wait, in any order. *)
Definition waiting (s : TransactionPool) : list (bytes * Transaction) := (map_to_list (tp_outPointToOrphan s)).*2 ≫= map_to_list.

(** More than the transactions that [processOrphans] can look at. *)
Definition wakeFuel (s : TransactionPool) : nat := S (S (length (waiting s))).

Definition processOrphans (v : View) (now : Z) (tx : Transaction) : TM unit :=
  fuel ← e_gets wakeFuel;
  accepted ← orphanLoop fuel v now [tx] [];
  removeDoubleSpends accepted.

Definition ProcessTx (v : View) (now : Z) (tx : Transaction) (transferMode : TransferMode) : TM unit :=
  _ ← maybeAcceptTx v now tx transferMode true;
  processOrphans v now tx.

(** ** Removing *)

(** The transactions that spend the same outputs leave the pool too, their other outputs stay in
    the index. *)
Fixpoint unspend (txHash : bytes) (ins : list TxIn) : TM unit :=
  match ins with
  | [] => mret tt
  | txIn :: ins =>
      ds ← e_gets (FindTransaction (PrevOutPoint txIn));
      _ ← match ds with
          | None => mret tt
          | Some dsTx =>
              _ ← e_modify (fun s => with_txs s (tp_hashToTx s) (delete (PrevOutPoint txIn) (tp_outPointToTx s)));
              let dsHash := Types.CalcTxHash dsTx in
              if Crypto.IsEqual dsHash (Some txHash) then mret tt
              else dsHash ← e_deref dsHash; e_modify (fun s => with_txs s (delete dsHash (tp_hashToTx s)) (tp_outPointToTx s))
          end;
      unspend txHash ins
  end.

(** The nonce of a contract transaction is free again. *)
Definition freeNonce (v : View) (tx : Transaction) : TM unit :=
  if negb (bool_decide ((GetTxType (statedb v) tx).2 = ContractTx)) then mret tt
  else
    vout ← t_go (GetContractVout tx (v_state v));
    vout ← e_deref vout;
    '(param, _) ← e_deref (match ParseContractParams (ScriptPubKey vout) with Ok x => Some x | Err _ => None end);
    e_modify (fun s =>
      let nonces := default ∅ (tp_nonceMap s !! vp_From param) ∖ {[ vp_Nonce param ]} in
      with_nonces s (if bool_decide (nonces = ∅) then delete (vp_From param) (tp_nonceMap s) else <[vp_From param := nonces]> (tp_nonceMap s))).

(** [removeTx] that is not recursive. *)
Definition removeOne (v : View) (tx : Transaction) : TM unit :=
  txHash ← TxHash tx;
  _ ← e_modify (fun s => with_txs s (delete txHash (tp_hashToTx s)) (tp_outPointToTx s));
  _ ← unspend txHash (Vin tx);
  freeNonce v tx.

(** The children of a removed transaction become orphans. *)
Fixpoint orphanChildren (v : View) (now : Z) (txHash : bytes) (outs : list TxOut) (idx : nat) (removed : list Transaction) : TM (list Transaction) :=
  match outs with
  | [] => mret removed
  | _ :: outs =>
      child ← e_gets (FindTransaction (mkOutPoint txHash (u32 (Z.of_nat idx))));
      match child with
      | None => orphanChildren v now txHash outs (S idx) removed
      | Some childTx =>
          _ ← removeOne v childTx;
          _ ← addOrphan now childTx;
          orphanChildren v now txHash outs (S idx) (removed ++ [childTx])
      end
  end.

Fixpoint removeLoop (fuel : nat) (v : View) (now : Z) (todo : list Transaction) : TM unit :=
  match fuel with
  | O => e_fuel
  | S fuel =>
      match todo with
      | [] => mret tt
      | tx :: todo =>
          txHash ← TxHash tx;
          children ← orphanChildren v now txHash (Vout tx) 0 [];
          removeLoop fuel v now (todo ++ children)
      end
  end.

Definition removeTx (v : View) (now : Z) (tx : Transaction) (recursive : bool) : TM unit :=
  _ ← removeOne v tx;
  if recursive then
    fuel ← e_gets (fun s => S (S (size (tp_outPointToTx s))));
    removeLoop fuel v now [tx]
  else mret tt.

Fixpoint removeTxs (v : View) (now : Z) (txs : list Transaction) : TM unit :=
  match txs with [] => mret tt | tx :: txs => _ ← removeTx v now tx true; removeTxs v now txs end.

Definition checkTxScript (v : View) (now : Z) (tx : Transaction) (u : UtxoSet) : TM unit :=
  match CheckTxScripts u tx false with
  | Err _ => removeTx v now tx true
  | Ok _ =>
      txHash ← TxHash tx;
      e_modify (fun s => with_txs s (alter (fun w => mkTxWrap (tw_Tx w) (tw_AddedTimestamp w) (tw_Height w) true) txHash (tp_hashToTx s)) (tp_outPointToTx s))
  end.

(** The loop receives from the channel and starts [checkTxScript] of what it got on a goroutine. *)
Definition takeScript : TM (option (Transaction * UtxoSet)) :=
  l ← e_gets tp_scripts;
  match l with [] => mret None | x :: l => _ ← e_modify (fun s => with_scripts s l); mret (Some x) end.

Definition expired (now : Z) (m : gmap bytes TxWrap) : list Transaction :=
  omap (fun p => if (tw_AddedTimestamp p.2 + txTTL <? now)%Z then Some (tw_Tx p.2) else None) (visit m).

Definition cleanExpiredTxs (v : View) (now : Z) : TM unit :=
  expiredOrphans ← e_gets (fun s => expired now (tp_hashToOrphanTx s));
  expiredTxs ← e_gets (fun s => expired now (tp_hashToTx s));
  _ ← removeOrphans expiredOrphans;
  removeTxs v now expiredTxs.

(** ** Blocks *)

Fixpoint confirm (v : View) (now : Z) (txs : list Transaction) : TM unit :=
  match txs with
  | [] => mret tt
  | tx :: txs =>
      txHash ← TxHash tx;
      _ ← e_modify (fun s => with_txcache s (lru_Add (tp_txcache s) txHash true));
      _ ← removeTx v now tx false;
      _ ← removeOrphan tx;
      _ ← removeDoubleSpendOrphans tx;
      confirm v now txs
  end.

(** [block.Txs[1:]] needs a transaction. *)
Definition removeBlockTxs (v : View) (now : Z) (txs : list Transaction) : TM unit :=
  match txs with [] => e_panic | _ :: txs => confirm v now txs end.

Fixpoint readmit (v : View) (now : Z) (txs : list Transaction) : TM unit :=
  match txs with
  | [] => mret tt
  | tx :: txs =>
      txHash ← TxHash tx;
      _ ← e_modify (fun s => with_txcache s (if lru_Contains (tp_txcache s) txHash then lru_Remove (tp_txcache s) txHash else tp_txcache s));
      _ ← e_try (maybeAcceptTx v now tx DefaultMode true);
      readmit v now txs
  end.

Fixpoint removeChildren (v : View) (now : Z) (txHash : bytes) (outs : list TxOut) (idx : nat) : TM unit :=
  match outs with
  | [] => mret tt
  | _ :: outs =>
      child ← e_gets (FindTransaction (mkOutPoint txHash (u32 (Z.of_nat idx))));
      _ ← match child with None => mret tt | Some childTx => removeTx v now childTx true end;
      removeChildren v now txHash outs (S idx)
  end.

Fixpoint removeAllChildren (v : View) (now : Z) (txs : list Transaction) : TM unit :=
  match txs with
  | [] => mret tt
  | tx :: txs =>
      txHash ← TxHash tx;
      _ ← removeChildren v now txHash (Vout tx) 0;
      removeAllChildren v now txs
  end.

(** A block that is disconnected, given by its transactions. *)
Definition detachBlock (v : View) (now : Z) (txs : list Transaction) : TM unit :=
  match txs with
  | [] => e_panic
  | _ :: rest => _ ← readmit v now rest; removeAllChildren v now txs
  end.

Fixpoint detachBlocks (v : View) (now : Z) (blocks : list (list Transaction)) : TM unit :=
  match blocks with [] => mret tt | b :: blocks => _ ← detachBlock v now b; detachBlocks v now blocks end.

Fixpoint attachBlocks (v : View) (now : Z) (blocks : list (list Transaction)) : TM unit :=
  match blocks with [] => mret tt | b :: blocks => _ ← removeBlockTxs v now b; attachBlocks v now blocks end.

Definition processChainUpdateMsg (v : View) (now : Z) (attach detach : list (list Transaction)) : TM unit :=
  _ ← detachBlocks v now detach; attachBlocks v now attach.

Definition GetAllTxs (s : TransactionPool) : list TxWrap := (visit (tp_hashToTx s)).*2.
Definition GetOrphaTxs (s : TransactionPool) : list TxWrap := (visit (tp_hashToOrphanTx s)).*2.

Definition GetTxByHash (hash : bytes) (s : TransactionPool) : option TxWrap * bool :=
  match tp_hashToTx s !! hash with
  | Some w => (Some w, true)
  | None => match tp_hashToOrphanTx s !! hash with Some w => (Some w, false) | None => (None, false) end
  end.

End TxPool.
End TxPool.
