(* ===== verification/TxPoolFacts.v ===== *)
(** * TxPoolFacts: the pool never holds two transactions that spend the same output

    Every operation, with whatever view of the chain and in whatever order, keeps the index of
    spent outputs in step with the pool; the loops over orphans and over children end, and a call
    waits only when the channel of scripts is full.  [room] counts the places that are left. *)

From S2P Require Import Prelude Effects Opcode Crypto Types Script ScriptKinds Bytes Bloom TxLogic Compress Keys UtxoSet UtxoDb Validate EvmMath EvmState EvmMachine EvmGas EvmInstr EvmPrecompile Evm EvmMain Transition Receipt Blocks Processor ProcessorMain Chain ChainDemo TxPool.
Import Kinds TxLogic Compress Utxo UtxoDb Validate Transition Processor TxPool.

Section Pool.
Context `{SC : Lru bytes bool} {D : StateDB} `{C : Crypto} `{TC : TxCodec} {VO : VisitOrder} {MO : MapOrder} `{P : Pow10}.
Context (pool : bytes).

Abbreviation TM := (EM TransactionPool PoolErr).
Abbreviation hash := Types.CalcTxHash.

Definition spends (tx : Transaction) : list OutPoint := map PrevOutPoint (Vin tx).

Lemma hash_type tx t : hash (set_type tx t) = hash tx.
Proof. done. Qed.

(** ** The invariant *)

(** Transactions are kept under their hashes; the outputs they spend point back to them; what the
    index points to spends the output; the channel holds no more scripts than it has places. *)
Record pool_ok (s : TransactionPool) : Prop := mk_pool_ok {
  po_hash h w : tp_hashToTx s !! h = Some w -> hash (tw_Tx w) = Some h;
  po_spent h w op : tp_hashToTx s !! h = Some w -> op ∈ spends (tw_Tx w) -> exists t, tp_outPointToTx s !! op = Some t /\ hash t = Some h;
  po_index op t : tp_outPointToTx s !! op = Some t -> op ∈ spends t;
  po_distinct h w : tp_hashToTx s !! h = Some w -> NoDup (spends (tw_Tx w));
  po_orphans op m h t : tp_outPointToOrphan s !! op = Some m -> m !! h = Some t -> hash t = Some h;
  po_places : (Z.of_nat (length (tp_scripts s)) <= TxScriptBufferChSize)%Z
}.

(** The orphans that wait have their hashes in [X]. *)
Definition waits_in (X : gset bytes) (s : TransactionPool) : Prop := forall op m h t, tp_outPointToOrphan s !! op = Some m -> m !! h = Some t -> h ∈ X.

(** What the state holds besides its transactions and scripts does not matter. *)
Lemma pool_ok_scripts s s' : tp_hashToTx s' = tp_hashToTx s -> tp_outPointToTx s' = tp_outPointToTx s -> tp_outPointToOrphan s' = tp_outPointToOrphan s ->
  (Z.of_nat (length (tp_scripts s')) <= TxScriptBufferChSize)%Z -> pool_ok s -> pool_ok s'.
Proof. intros E1 E2 E3 E4 [H1 H2 H3 H4 H5 _]. split; rewrite ?E1, ?E2, ?E3; done. Qed.

Lemma pool_ok_same s s' : tp_hashToTx s' = tp_hashToTx s -> tp_outPointToTx s' = tp_outPointToTx s -> tp_outPointToOrphan s' = tp_outPointToOrphan s -> tp_scripts s' = tp_scripts s -> pool_ok s -> pool_ok s'.
Proof. intros E1 E2 E3 E4 H. eapply pool_ok_scripts; [done..| |exact H]. rewrite E4. apply H. Qed.

Lemma pool_ok_orphans s h o : pool_ok s -> (forall op m k t, o !! op = Some m -> m !! k = Some t -> hash t = Some k) -> pool_ok (with_orphan s h o).
Proof. intros [H1 H2 H3 H4 H5 H6] Ho. by split. Qed.

(** The channel of scripts has no room. *)
Definition full (s : TransactionPool) : Prop := (TxScriptBufferChSize <= Z.of_nat (length (tp_scripts s)))%Z.

Section Outcome.

(** What may be the case when a request does not go on. *)
Context (F : TransactionPool -> Prop).

(** A full channel may stop the request, or [k] more scripts fit. *)
Definition room (k : nat) (s : TransactionPool) : Prop := (forall s, full s -> F s) \/ (Z.of_nat (length (tp_scripts s) + k) <= TxScriptBufferChSize)%Z.

Lemma room_same k s s' : tp_scripts s' = tp_scripts s -> room k s -> room k s'.
Proof. unfold room. by intros ->. Qed.
Lemma room_less k n s : n <= k -> room k s -> room n s.
Proof. intros Hn [H|H]; [by left|right; lia]. Qed.
Lemma room_sent k x s s' : tp_scripts s' = tp_scripts s ++ [x] -> room (S k) s -> room k s'.
Proof. intros E [H|H]; [by left|right]. rewrite E, length_app. cbn [length]. lia. Qed.

(** ** Orphans *)

Lemma addOrphan_map (Q : bytes -> Transaction -> Prop) (h : bytes) (tx : Transaction) (ins : list TxIn) (m : gmap OutPoint (gmap bytes Transaction)) : Q h tx ->
  (forall op x k t, m !! op = Some x -> x !! k = Some t -> Q k t) ->
  forall op x k t, foldl (fun m txIn => match m !! PrevOutPoint txIn with Some _ => m | None => <[PrevOutPoint txIn := {[ h := tx ]}]> m end) m ins !! op = Some x -> x !! k = Some t -> Q k t.
Proof.
  intros Hq. revert m. induction ins as [|i ins IH]; intros m Hm; cbn [foldl]; [done|]. apply IH. destruct (m !! PrevOutPoint i) eqn:E; [done|].
  intros op x k t [[<- <-]|[_ Ex]]%lookup_insert_Some Hk; [by apply lookup_singleton_Some in Hk as [<- <-]|by eapply Hm].
Qed.

Lemma orphanGone_map (Q : bytes -> Transaction -> Prop) (h : bytes) (ins : list TxIn) (m : gmap OutPoint (gmap bytes Transaction)) :
  (forall op x k t, m !! op = Some x -> x !! k = Some t -> Q k t) ->
  forall op x k t, foldl (orphanGone h) m ins !! op = Some x -> x !! k = Some t -> Q k t.
Proof.
  revert m. induction ins as [|i ins IH]; intros m Hm; cbn [foldl]; [done|]. apply IH. unfold orphanGone. destruct (m !! PrevOutPoint i) as [sib|] eqn:E; [|done]. case_bool_decide.
  - intros op x k t [_ Ex]%lookup_delete_Some. by eapply Hm.
  - intros op x k t [[<- <-]|[_ Ex]]%lookup_insert_Some Hk; [apply lookup_delete_Some in Hk as [_ Hk]; by eapply Hm|by eapply Hm].
Qed.

(** Only the orphans change. *)
Definition same_txs (s s' : TransactionPool) : Prop := (tp_hashToTx s' = tp_hashToTx s /\ tp_scripts s' = tp_scripts s) /\ tp_outPointToTx s' = tp_outPointToTx s.

Lemma same_txs_trans s1 s2 s3 : same_txs s1 s2 -> same_txs s2 s3 -> same_txs s1 s3.
Proof. intros [[H1 H2] H3] [[H4 H5] H6]. split; [split|]; congruence. Qed.

Definition quiet (X : gset bytes) (s s' : TransactionPool) : Prop := pool_ok s' /\ same_txs s s' /\ (waits_in X s -> waits_in X s').

Lemma quiet_refl X s : pool_ok s -> quiet X s s.
Proof. done. Qed.
Lemma quiet_trans X s1 s2 s3 : quiet X s1 s2 -> quiet X s2 s3 -> quiet X s1 s3.
Proof. intros (_ & H1 & H2) (H3 & H4 & H5). split; [done|]. split; [by eapply same_txs_trans|auto]. Qed.

Lemma ewp_addOrphan X now tx s : pool_ok s -> (forall h, hash tx = Some h -> h ∈ X) -> ewpf F (addOrphan now tx) (fun _ s' => quiet X s s') (fun _ _ => False) s.
Proof.
  intros Hs HX. unfold addOrphan, TxHash. apply ewp_bind, ewp_deref. intros h Eh. apply ewp_modify. split; [|split; [done|]].
  - apply pool_ok_orphans; [done|]. apply (addOrphan_map (fun k t => hash t = Some k)); [done|apply (po_orphans _ Hs)].
  - intros Hw. intros op m k t. apply (addOrphan_map (fun k _ => k ∈ X)); [by apply HX|exact Hw].
Qed.

Lemma ewp_removeOrphan X tx s : pool_ok s -> ewpf F (removeOrphan tx) (fun _ s' => quiet X s s') (fun _ _ => False) s.
Proof.
  intros Hs. unfold removeOrphan, TxHash. apply ewp_bind, ewp_deref. intros h Eh. apply ewp_modify. split; [|split; [done|]].
  - apply pool_ok_orphans; [done|]. apply (orphanGone_map (fun k t => hash t = Some k)), (po_orphans _ Hs).
  - intros Hw. intros op m k t. by apply (orphanGone_map (fun k _ => k ∈ X)).
Qed.

Lemma ewp_removeOrphans X txs s : pool_ok s -> ewpf F (removeOrphans txs) (fun _ s' => quiet X s s') (fun _ _ => False) s.
Proof.
  revert s. induction txs as [|tx txs IH]; intros s Hs; cbn [removeOrphans]; [by apply ewp_ret, quiet_refl|]. apply ewp_bind.
  eapply ewp_mono; [by apply (ewp_removeOrphan X)| |done]. intros u s1 H1. eapply ewp_mono; [apply IH, H1| |done]. intros u' s2 H2. exact (quiet_trans _ _ _ _ H1 H2).
Qed.

Lemma ewp_doubleSpendOrphans X ins s : pool_ok s -> ewpf F (doubleSpendOrphans ins) (fun _ s' => quiet X s s') (fun _ _ => False) s.
Proof.
  revert s. induction ins as [|i ins IH]; intros s Hs; cbn [doubleSpendOrphans]; [by apply ewp_ret, quiet_refl|]. apply ewp_bind, ewp_gets, ewp_bind.
  apply (ewp_mono _ (fun _ s' => quiet X s s') _ (fun _ _ => False)); [|intros u s1 H1|done].
  - destruct (_ !! _); [by apply ewp_removeOrphans|by apply ewp_ret, quiet_refl].
  - eapply ewp_mono; [apply IH, H1| |done]. intros u' s2 H2. exact (quiet_trans _ _ _ _ H1 H2).
Qed.

Lemma ewp_removeDoubleSpends X txs s : pool_ok s -> ewpf F (removeDoubleSpends txs) (fun _ s' => quiet X s s') (fun _ _ => False) s.
Proof.
  revert s. induction txs as [|tx txs IH]; intros s Hs; cbn [removeDoubleSpends]; [by apply ewp_ret, quiet_refl|]. apply ewp_bind.
  eapply ewp_mono; [by apply (ewp_doubleSpendOrphans X)| |done]. intros u s1 H1. eapply ewp_mono; [apply IH, H1| |done]. intros u' s2 H2. exact (quiet_trans _ _ _ _ H1 H2).
Qed.

(** ** Checks *)

(** Transactions, index and orphans are as before. *)
Definition idle (s s' : TransactionPool) : Prop := same_txs s s' /\ tp_outPointToOrphan s' = tp_outPointToOrphan s.

Lemma idle_refl s : idle s s.
Proof. done. Qed.
Lemma idle_trans s1 s2 s3 : idle s1 s2 -> idle s2 s3 -> idle s1 s3.
Proof. intros [H1 H2] [H3 H4]. split; [by eapply same_txs_trans|congruence]. Qed.
Lemma idle_ok s s' : idle s s' -> pool_ok s -> pool_ok s'.
Proof. intros [[[H1 H2] H3] H4]. by apply pool_ok_same. Qed.
Lemma idle_quiet X s s' : pool_ok s -> idle s s' -> quiet X s s'.
Proof. intros Hs H. split; [exact (idle_ok _ _ H Hs)|]. destruct H as [H1 H2]. split; [done|]. intros Hw. unfold waits_in. by rewrite H2. Qed.

(** The nonce of the new transaction is compared with itself: nothing gives way. *)
Lemma replace_never v tx vout param ty ds s : GetContractVout tx (v_state v) = Returns (Some vout) -> ParseContractParams (ScriptPubKey vout) = Ok (param, ty) ->
  replaceLoop v tx param ds s = (EOk tt, s).
Proof.
  intros Ev Ep. induction ds as [|[op dsTx] ds IH]; cbn [replaceLoop]; [done|]. case_bool_decide; cbn [negb]; [|done].
  rewrite Ev. unfold mbind, EM_bind. cbn [t_go mret EM_ret e_deref]. rewrite Ep, Z.ltb_irrefl. exact IH.
Qed.

(** A chain of checks that stay idle. *)
Definition checks {A} (c : TM A) : Prop := forall s0 s, idle s0 s -> ewpf F c (fun _ s' => idle s0 s') (fun _ s' => idle s0 s') s.

Lemma checks_bind {A B} (c : TM A) (k : A -> TM B) : checks c -> (forall a, checks (k a)) -> checks (c ≫= k).
Proof. intros Hc Hk s0 s Hs. apply ewp_bind. eapply ewp_mono; [by apply Hc|intros a s' H; by apply Hk|done]. Qed.
Lemma checks_ret {A} (a : A) : checks (mret a).
Proof. by intros s0 s H. Qed.
Lemma checks_fail {A} e : checks (e_fail e : TM A).
Proof. by intros s0 s H. Qed.
Lemma checks_panic {A} : checks (e_panic : TM A).
Proof. by intros s0 s H. Qed.
Lemma checks_gets {A} (f : TransactionPool -> A) : checks (e_gets f).
Proof. by intros s0 s H. Qed.
Lemma checks_deref {A} (o : option A) : checks (e_deref o).
Proof. intros s0 s H. by destruct o. Qed.
Lemma checks_go {A} (x : go A) : checks (t_go x).
Proof. intros s0 s H. by destruct x. Qed.
Lemma checks_known {A B} (a : A) (k : A -> TM B) : checks (k a) -> checks (mret a ≫= k).
Proof. intros Hk s0 s H. by apply Hk. Qed.
Lemma checks_modify f : (forall s, idle s (f s)) -> checks (e_modify f).
Proof. intros Hf s0 s H. apply ewp_modify. by eapply idle_trans. Qed.

Ltac checks := repeat first
  [ apply checks_bind; [|intros ?] | apply checks_ret | apply checks_fail | apply checks_panic | apply checks_gets | apply checks_deref | apply checks_go | by apply checks_modify
  | match goal with |- checks (match ?x with _ => _ end) => destruct x eqn:? end ].

Lemma checks_replace v tx vout param ty ds : GetContractVout tx (v_state v) = Returns (Some vout) -> ParseContractParams (ScriptPubKey vout) = Ok (param, ty) -> checks (replaceLoop v tx param ds).
Proof. intros Ev Ep s0 s H. unfold ewpf. by rewrite (replace_never v tx vout param ty). Qed.

Lemma checks_gas v tx u : checks (CheckGasAndNonce v tx u).
Proof.
  unfold CheckGasAndNonce. apply checks_bind; [apply checks_go|intros r]. apply checks_bind; [checks|intros fee]. case_bool_decide; cbn [negb]; [|checks].
  destruct (GetContractVout tx (v_state v)) as [vout|] eqn:Ev; [apply checks_known|by intros s0 s Hs].
  destruct (match Data tx with Some _ => _ | None => false end); [checks|]. destruct vout as [vout|]; [apply checks_known|by intros s0 s Hs].
  destruct (ParseContractParams (ScriptPubKey vout)) as [[param ty]|e] eqn:Ep; [apply checks_known|by intros s0 s Hs]. checks; by eapply checks_replace.
Qed.

Lemma sameInput_spec ins X : sameInput ins X = false -> NoDup (map PrevOutPoint ins) /\ forall op, op ∈ map PrevOutPoint ins -> op ∉ X.
Proof.
  revert X. induction ins as [|i ins IH]; intros X; cbn [sameInput map]; [intros _; split; [constructor|set_solver]|]. case_bool_decide as Hi; [done|]. intros H. destruct (IH _ H) as [H1 H2]. split.
  - constructor; [|done]. intros Hin. by apply (H2 _ Hin), elem_of_union_l, elem_of_singleton.
  - intros op [->|Hop]%elem_of_cons; [done|]. specialize (H2 _ Hop). set_solver.
Qed.

Lemma ewp_checkDoubleSpend tx s : ewpf F (checkDoubleSpend tx) (fun _ s' => s' = s /\ NoDup (spends tx) /\ forall op, op ∈ spends tx -> tp_outPointToTx s !! op = None) (fun _ s' => s' = s) s.
Proof.
  unfold checkDoubleSpend. apply ewp_bind, ewp_gets. destruct (Nat.ltb_spec 0 (length (getPoolDoubleSpendTxs tx s))) as [|Hlen]; [by apply ewp_fail|].
  assert (forall op, op ∈ spends tx -> tp_outPointToTx s !! op = None) as Hfree.
  { unfold spends. intros op Hop. apply list_elem_of_fmap in Hop as (i & -> & Hi). destruct (tp_outPointToTx s !! PrevOutPoint i) as [t|] eqn:E; [|done].
    assert ((PrevOutPoint i, t) ∈ getPoolDoubleSpendTxs tx s) as Hin; [|destruct (getPoolDoubleSpendTxs tx s); [by apply not_elem_of_nil in Hin|cbn in Hlen; lia]].
    apply list_elem_of_omap. exists i. split; [done|]. unfold FindTransaction. by rewrite E. }
  assert (sameInput (Vin tx) ∅ = false -> NoDup (spends tx)) as Hdup by (intros H; by apply sameInput_spec in H as [H _]).
  unfold spends in *. destruct (Vin tx) as [|a [|b [|c ins]]] eqn:Ev.
  - apply ewp_ret. split_and!; [done|constructor|done].
  - apply ewp_ret. split_and!; [done|apply NoDup_singleton|done].
  - case_bool_decide as Hab; [by apply ewp_fail|]. apply ewp_ret. split_and!; [done| |done]. cbn. constructor; [by intros Hin%list_elem_of_singleton|apply NoDup_singleton].
  - destruct (sameInput _ _) eqn:E; [by apply ewp_fail|]. apply ewp_ret. split_and!; [done|by apply Hdup|done].
Qed.

(** ** Adding a transaction *)

Lemma index_insert tx ins (m : gmap OutPoint Transaction) op :
  foldl (fun m txIn => <[PrevOutPoint txIn := tx]> m) m ins !! op = if decide (op ∈ map PrevOutPoint ins) then Some tx else m !! op.
Proof.
  revert m. induction ins as [|i ins IH]; intros m; cbn [foldl map]; [by rewrite decide_False by apply not_elem_of_nil|]. rewrite IH. destruct (decide (op ∈ map PrevOutPoint ins)).
  - by rewrite decide_True by (by right).
  - destruct (decide (op = PrevOutPoint i)) as [->|Hne]; [rewrite lookup_insert_eq, decide_True by left; done|]. rewrite lookup_insert_ne by done. rewrite decide_False; [done|]. by intros [?|?]%elem_of_cons.
Qed.

Lemma pool_ok_add s tx h now height : pool_ok s -> hash tx = Some h -> tp_hashToTx s !! h = None -> NoDup (spends tx) -> (forall op, op ∈ spends tx -> tp_outPointToTx s !! op = None) ->
  pool_ok (with_txs s (<[h := mkTxWrap tx now height false]> (tp_hashToTx s)) (foldl (fun m txIn => <[PrevOutPoint txIn := tx]> m) (tp_outPointToTx s) (Vin tx))).
Proof.
  intros [H1 H2 H3 H4 H5 H6] Eh Hnew Hd Hfree. split; cbn [tp_hashToTx tp_outPointToTx tp_outPointToOrphan with_txs]; [| | | |done|done].
  - intros h' w [[<- <-]|[_ E]]%lookup_insert_Some; [done|eauto].
  - intros h' w op Hw Hop. rewrite index_insert. apply lookup_insert_Some in Hw as [[<- <-]|[Hne E]].
    + rewrite decide_True by done. eauto.
    + destruct (H2 _ _ _ E Hop) as (t & Et & Ht). rewrite decide_False; [eauto|]. intros Hin. by rewrite (Hfree _ Hin) in Et.
  - intros op t. rewrite index_insert. case_decide; [by intros [= <-]|apply H3].
  - intros h' w [[<- <-]|[_ E]]%lookup_insert_Some; [done|eauto].
Qed.

(** How a transaction is kept that was accepted. *)
Definition kept (v : View) (now : Z) (tx : Transaction) (ty : TxType) : TxWrap := mkTxWrap (set_type tx ty) now (u32 (v_LongestChainHeight v + 1)) false.

(** What accepting a transaction does: it was not in the pool and is now, with its scripts sent to
    be checked; or the pool is as it was and it may wait as an orphan. *)
Definition accepted (v : View) (now : Z) (tx : Transaction) (s s' : TransactionPool) : Prop :=
  pool_ok s' /\ tp_outPointToOrphan s' = tp_outPointToOrphan s /\ exists h ty u, hash tx = Some h /\ tp_hashToTx s !! h = None /\
    tp_hashToTx s' = <[h := kept v now tx ty]> (tp_hashToTx s) /\ tp_scripts s' = tp_scripts s ++ [(set_type tx ty, u)].

Lemma set_type_same tx : set_type tx (tx_type tx) = tx.
Proof. by destruct tx. Qed.

Lemma IsStandardTx_type st tx : exists ty, (IsStandardTx st tx).1 = set_type tx ty.
Proof.
  unfold IsStandardTx, ParseTxType. case_bool_decide; cbn [negb]; [|exists (tx_type tx); by rewrite set_type_same].
  destruct (parseTypeLoop _ _ _ _ _ _) as [[field ?] ?]. by exists field.
Qed.

Lemma ewp_send x s Q R : room 1 s -> ((Z.of_nat (length (tp_scripts s ++ [x])) <= TxScriptBufferChSize)%Z -> Q tt (with_scripts s (tp_scripts s ++ [x]))) -> ewpf F (sendScript x) Q R s.
Proof.
  intros Hroom HQ. unfold sendScript. apply ewp_bind, ewp_gets. destruct (Z.ltb_spec (Z.of_nat (length (tp_scripts s))) TxScriptBufferChSize) as [|Hfull]; [apply ewp_modify, HQ; rewrite length_app; cbn [length]; lia|].
  destruct Hroom as [H|H]; [by apply H|lia].
Qed.

(** A transaction that has a hash can be encoded. *)
Lemma ewp_transfer mode tx h s (Q : unit -> TransactionPool -> Prop) R : hash tx = Some h -> (forall s', idle s s' -> Q tt s') -> ewpf F (transfer mode tx) Q R s.
Proof.
  intros Eh HQ. assert (exists d, Types.tx_marshal tx = Some d) as [d Ed] by (unfold hash, Types.CalcTxHash in Eh; destruct (Types.tx_marshal tx); [eauto|done]).
  unfold transfer. rewrite Ed. destruct mode; [by apply ewp_ret, HQ|by apply ewp_modify, HQ..].
Qed.

Lemma ewp_maybeAccept X v now tx mode detect s : pool_ok s -> (forall h, hash tx = Some h -> h ∈ X) -> (forall h, hash tx = Some h -> tp_hashToTx s !! h = None -> room 1 s) ->
  ewpf F (maybeAcceptTx pool v now tx mode detect) (fun _ s' => accepted v now tx s s') (fun _ s' => quiet X s s') s.
Proof.
  intros Hs HX Hroom. assert (quiet X s s) as Hq by (by apply quiet_refl). unfold maybeAcceptTx, TxHash at 1. apply ewp_bind, ewp_deref. intros h Eh. apply ewp_bind, ewp_gets.
  destruct (isTransactionInPool h s || _ || _) eqn:Eknown; [by apply ewp_fail|]. apply orb_false_elim in Eknown as [Eknown _]. apply orb_false_elim in Eknown as [Eknown _].
  apply bool_decide_eq_false in Eknown. assert (tp_hashToTx s !! h = None) as Hnew by (destruct (_ !! h); [exfalso; eauto|done]).
  destruct (ValidateTransactionPreliminary tx); [by apply ewp_fail|]. destruct (IsCoinBase tx); [by apply ewp_fail|].
  destruct (IsStandardTx_type (statedb v) tx) as [ty Ety]. specialize (Hroom h Eh Hnew).
  destruct (IsStandardTx (statedb v) tx) as [tx1 standard]. cbn [fst] in Ety. subst tx1. destruct standard; cbn [negb]; [|by apply ewp_fail].
  apply ewp_bind, ewp_gets, ewp_bind. destruct (GetExtendedTxUtxoSet _ _ _ _) as [[u|e]|]; [|apply ewp_ret; by apply ewp_bind, ewp_fail|apply ewp_panic]. apply ewp_ret, ewp_bind, ewp_ret.
  destruct (_ =? 0)%Z.
  { apply ewp_bind. eapply ewp_mono; [apply (ewp_addOrphan X now (set_type tx ty) s Hs)| |done]; [exact HX|]. intros r s1 H1. by apply ewp_fail. }
  apply ewp_bind. eapply ewp_mono; [apply (checks_gas v (set_type tx ty) u s s), idle_refl|intros r s1 H1|intros e s1 H1].
  2: { by apply idle_quiet. }
  pose proof (idle_quiet X _ _ Hs H1) as Hq1. pose proof (idle_ok _ _ H1 Hs) as Hs1.
  apply ewp_bind. eapply ewp_mono; [apply ewp_checkDoubleSpend|intros r' s2 (-> & Hd & Hfree)|by intros e s2 ->].
  assert (exists ty', (if bool_decide (tx_type (set_type tx ty) = PayToPubkTx) then set_type (set_type tx ty) UnknownTx else set_type tx ty) = set_type tx ty') as [ty' ->].
  { case_bool_decide; [by exists UnknownTx|by exists ty]. }
  apply ewp_bind, ewp_send; [apply (room_same _ s); [apply H1|done]|]. intros Hfit. apply ewp_bind. unfold addTx, TxHash. apply ewp_bind, ewp_deref. rewrite hash_type, Eh. intros h' [= <-]. apply ewp_modify, ewp_bind, ewp_modify.
  apply (ewp_transfer _ _ h); [by rewrite hash_type|]. intros s' [[[I1 I2] I3] I4]. destruct H1 as [[[E1 E2] E3] E4]. split_and!.
  - eapply pool_ok_same; [exact I1|exact I3|exact I4|exact I2|]. eapply (pool_ok_same (with_txs (with_scripts s1 _) _ _)); [done..|]. apply (pool_ok_add (with_scripts s1 _)); [by apply (pool_ok_scripts s1)|done|cbn; by rewrite E1|done|done].
  - by rewrite I4.
  - exists h, ty', u. split_and!; [done|done|rewrite I1; cbn; by rewrite E1|rewrite I2; cbn; by rewrite E2].
Qed.

(** ** Orphans that are woken *)

(** The orphans of [X] that are not in the pool yet. *)
Definition asleep (X : gset bytes) (s : TransactionPool) : nat := size (X ∖ dom (tp_hashToTx s)).

(** The transactions are still there and the scripts still to be checked. *)
Definition grows (s s' : TransactionPool) : Prop := tp_hashToTx s ⊆ tp_hashToTx s' /\ tp_scripts s `prefix_of` tp_scripts s'.

(** The pool after [s0]; [n] of the orphans of [X] at most can still be woken, and their scripts sent. *)
Definition awake (X : gset bytes) (s0 : TransactionPool) (n : nat) (s : TransactionPool) : Prop := pool_ok s /\ waits_in X s /\ asleep X s <= n /\ grows s0 s /\ room n s.

Lemma asleep_same X s s' : same_txs s s' -> asleep X s' = asleep X s.
Proof. intros [[E _] _]. unfold asleep. by rewrite E. Qed.

Lemma asleep_accept (X : gset bytes) (h : bytes) w s s' : h ∈ X -> tp_hashToTx s !! h = None -> tp_hashToTx s' = <[h := w]> (tp_hashToTx s) -> S (asleep X s') = asleep X s.
Proof.
  intros HX Hnew E. unfold asleep. rewrite E, dom_insert_L. apply not_elem_of_dom in Hnew. assert (X ∖ dom (tp_hashToTx s) = {[ h ]} ∪ X ∖ ({[ h ]} ∪ dom (tp_hashToTx s))) as ->.
  { apply set_eq. intros x. destruct (decide (x = h)) as [->|]; set_solver. }
  by rewrite (size_union {[ h ]} (X ∖ ({[ h ]} ∪ dom (tp_hashToTx s)))), size_singleton by set_solver.
Qed.

(** An orphan that is not in the pool is one of those that can be woken. *)
Lemma asleep_one X n s h : asleep X s <= n -> h ∈ X -> tp_hashToTx s !! h = None -> 1 <= n.
Proof.
  unfold asleep. intros Hn HX Hnew%not_elem_of_dom. assert (size (X ∖ dom (tp_hashToTx s)) <> 0); [|lia]. intros H0%size_empty_inv. set_solver.
Qed.

Lemma quiet_awake X s0 n s s' : quiet X s s' -> awake X s0 n s -> awake X s0 n s'.
Proof.
  intros (H1 & H2 & H3) (_ & H4 & H5 & H6 & H7). split_and!; [done|auto|by rewrite (asleep_same _ _ _ H2)| |by eapply room_same; [apply H2|]].
  destruct H2 as [[E1 E2] _]. unfold grows. by rewrite E1, E2.
Qed.

Lemma accepted_awake X s0 n v now tx s s' : (forall h, hash tx = Some h -> h ∈ X) -> awake X s0 n s -> accepted v now tx s s' -> 1 <= n /\ awake X s0 (n - 1) s'.
Proof.
  intros HX (H1 & H2 & H3 & [H4 H5] & H6) (A1 & A2 & h & ty & u & A3 & A4 & A5 & A6). pose proof (asleep_accept X h _ s s' (HX h A3) A4 A5) as Hlt. split; [lia|]. split_and!.
  - done.
  - unfold waits_in. by rewrite A2.
  - lia.
  - split; [rewrite A5; etransitivity; [exact H4|by apply insert_subseteq]|rewrite A6; by apply prefix_app_r].
  - apply (room_sent _ _ s _ A6). by replace (S (n - 1)) with n by lia.
Qed.

Lemma ewp_acceptOne X s0 n v now orphans s : (forall t h, t ∈ orphans -> hash t = Some h -> h ∈ X) -> awake X s0 n s ->
  ewpf F (acceptOne pool v now orphans) (fun r s' => length (option_list r) <= n /\ awake X s0 (n - length (option_list r)) s') (fun _ _ => False) s.
Proof.
  revert s. induction orphans as [|t orphans IH]; intros s HX Hs; cbn [acceptOne]; [by apply ewp_ret; rewrite Nat.sub_0_r; split; [apply le_0_n|]|]. apply ewp_bind, ewp_try.
  assert (forall h, hash t = Some h -> h ∈ X) as Ht by (intros h; apply HX; by left).
  eapply ewp_mono; [apply (ewp_maybeAccept X); [apply Hs|done|]|intros u s1 Hacc|intros e s1 Hq].
  - intros h Eh Hnew. destruct Hs as (_ & _ & H3 & _ & H5). eapply room_less; [|exact H5]. by eapply asleep_one; [exact H3|apply Ht|].
  - destruct (accepted_awake X s0 n v now t s s1 Ht Hs Hacc) as [H1 H2]. apply ewp_bind. eapply ewp_mono; [apply (ewp_removeOrphan X), H2|intros u' s2 Hq|done]. apply ewp_ret. change (length (option_list (Some t))) with 1.
    split; [done|]. by apply (quiet_awake _ _ _ _ _ Hq).
  - apply IH; [|by apply (quiet_awake _ _ _ _ _ Hq)]. intros t' h' Ht'. apply HX. by right.
Qed.

Lemma ewp_wakeOrphans X s0 n v now h outs idx acc s : awake X s0 n s ->
  ewpf F (wakeOrphans pool v now h outs idx acc) (fun r s' => exists k, length r = length acc + k /\ k <= n /\ awake X s0 (n - k) s') (fun _ _ => False) s.
Proof.
  revert n idx acc s. induction outs as [|o outs IH]; intros n idx acc s Hs; cbn [wakeOrphans].
  { apply ewp_ret. exists 0. rewrite Nat.sub_0_r. split_and!; [lia|lia|done]. }
  apply ewp_bind, ewp_gets. destruct (_ !! _) as [m|] eqn:Em; [|by apply IH]. apply ewp_bind.
  eapply ewp_mono; [apply (ewp_acceptOne X s0 n)|intros r s1 [Hr Hs1]|done]; [|done|].
  - intros t k (x & -> & Hx)%list_elem_of_fmap Hk. destruct x as [k' t]. rewrite visit_perm, elem_of_map_to_list in Hx. pose proof (po_orphans _ (proj1 Hs) _ _ _ _ Em Hx) as Ek. cbn in *. simplify_eq. by eapply Hs.
  - eapply ewp_mono; [by apply IH|intros l s2 (k & E & Hk & H2)|done]. exists (length (option_list r) + k). rewrite E, length_app. split_and!; [lia|lia|]. by rewrite Nat.sub_add_distr.
Qed.

Lemma ewp_orphanLoop X s0 fuel n v now todo acc s : length todo + n < fuel -> awake X s0 n s ->
  ewpf F (orphanLoop pool fuel v now todo acc) (fun _ s' => pool_ok s' /\ grows s0 s') (fun _ _ => False) s.
Proof.
  revert n todo acc s. induction fuel as [|fuel IH]; intros n todo acc s Hf Hs; [lia|]. cbn [orphanLoop]. destruct todo as [|tx todo]; [apply ewp_ret; by destruct Hs as (? & _ & _ & ? & _)|].
  apply ewp_bind, ewp_deref. intros h _. apply ewp_bind. eapply ewp_mono; [by apply (ewp_wakeOrphans X s0 n)|intros l s1 (k & E & Hk & H1)|done]. apply (IH (n - k)); [|done]. rewrite length_app, E. cbn in *. lia.
Qed.

(** The hashes of the orphans that wait are no more than the fuel allows for. *)
Lemma waiting_awake s : pool_ok s -> room (length (waiting s)) s -> awake (list_to_set (waiting s).*1) s (length (waiting s)) s.
Proof.
  intros Hs Hroom. split_and!; [done| | |done|done].
  - intros op m h t Em Et. apply elem_of_list_to_set, list_elem_of_fmap. exists (h, t). split; [done|]. apply list_elem_of_bind. exists m. split; [by apply elem_of_map_to_list|]. apply list_elem_of_fmap. exists (op, m). split; [done|by apply elem_of_map_to_list].
  - unfold asleep. etransitivity; [apply (subseteq_size _ (list_to_set (waiting s).*1 : gset bytes)); set_solver|]. rewrite <-(length_fmap fst (waiting s)). induction ((waiting s).*1) as [|a l IH]; [done|]. cbn [list_to_set length].
    destruct (decide (a ∈ (list_to_set l : gset bytes))) as [Hin|Hin]; [rewrite subseteq_union_1_L by set_solver; lia|]. rewrite size_union, size_singleton by set_solver. lia.
Qed.

Lemma ewp_poolOrphans v now tx s : pool_ok s -> room (length (waiting s)) s -> ewpf F (processOrphans pool v now tx) (fun _ s' => pool_ok s' /\ grows s s') (fun _ _ => False) s.
Proof.
  intros Hs Hroom. unfold processOrphans. apply ewp_bind, ewp_gets, ewp_bind. eapply ewp_mono; [apply (ewp_orphanLoop (list_to_set (waiting s).*1) s _ (length (waiting s))); [cbn; unfold wakeFuel; lia|by apply waiting_awake]|intros l s1 [H1 [Hd Hp]]|done].
  eapply ewp_mono; [by apply (ewp_removeDoubleSpends ∅)|intros u s2 (H2 & [[E1 E2] _] & _)|done]. unfold grows. by rewrite E1, E2.
Qed.

(** The outcome of [ProcessTx]. *)
Definition admitted (v : View) (now : Z) (tx : Transaction) (s s' : TransactionPool) : Prop :=
  pool_ok s' /\ exists h ty u, hash tx = Some h /\ tp_hashToTx s !! h = None /\
    <[h := kept v now tx ty]> (tp_hashToTx s) ⊆ tp_hashToTx s' /\ tp_scripts s ++ [(set_type tx ty, u)] `prefix_of` tp_scripts s'.

Lemma ewp_ProcessTx v now tx mode s : pool_ok s -> room (S (length (waiting s))) s ->
  ewpf F (ProcessTx pool v now tx mode) (fun _ s' => admitted v now tx s s') (fun _ s' => pool_ok s' /\ same_txs s s') s.
Proof.
  intros Hs Hroom. unfold ProcessTx. apply ewp_bind. set (X := match hash tx with Some h => {[ h ]} | None => ∅ end : gset bytes).
  eapply ewp_mono; [apply (ewp_maybeAccept X); [done|unfold X; intros h ->; set_solver|intros h _ _; eapply room_less; [|exact Hroom]; lia]| |intros e s1 (H1 & H2 & _); done].
  intros x s1 (H1 & Ew & h & ty & u & H2 & H3 & H4 & H5). assert (waiting s1 = waiting s) as Ewait by (unfold waiting; by rewrite Ew).
  eapply ewp_mono; [apply ewp_poolOrphans; [done|]|intros u' s2 [H6 [H7 H8]]|done].
  - rewrite Ewait. by eapply room_sent.
  - split; [done|]. exists h, ty, u. rewrite <-H4, <-H5. done.
Qed.

(** ** Removing *)

(** Fewer transactions and fewer entries of the index, as long as those that stay keep theirs. *)
Lemma pool_ok_less s h o : pool_ok s -> h ⊆ tp_hashToTx s -> o ⊆ tp_outPointToTx s ->
  (forall k w op, h !! k = Some w -> op ∈ spends (tw_Tx w) -> tp_outPointToTx s !! op = o !! op) -> pool_ok (with_txs s h o).
Proof.
  intros [H1 H2 H3 H4 H5 H6] Hh Ho Hkeep. split; cbn [tp_hashToTx tp_outPointToTx tp_outPointToOrphan with_txs]; [| | | |done|done].
  - intros k w E. by eapply H1, lookup_weaken.
  - intros k w op E Hop. rewrite <-(Hkeep _ _ _ E Hop). eapply H2; [by eapply lookup_weaken|done].
  - intros op t E. by eapply H3, lookup_weaken.
  - intros k w E. by eapply H4, lookup_weaken.
Qed.

(** The transaction [h] is gone, and pool and index lost entries only. *)
Definition shrunk (h : bytes) (s s' : TransactionPool) : Prop :=
  pool_ok s' /\ tp_hashToTx s' !! h = None /\ tp_outPointToTx s' ⊆ tp_outPointToTx s /\ tp_hashToTx s' ⊆ tp_hashToTx s /\ tp_scripts s' = tp_scripts s.

Lemma shrunk_trans h s1 s2 s3 : shrunk h s1 s2 -> shrunk h s2 s3 -> shrunk h s1 s3.
Proof. intros (_ & _ & H1 & H2 & H3) (H4 & H5 & H6 & H7 & H8). split_and!; [done|done|by etransitivity|by etransitivity|congruence]. Qed.

Lemma IsEqual_hash (o : option bytes) (h : bytes) : Crypto.IsEqual o (Some h) = true <-> o = Some h.
Proof. destruct o as [x|]; cbn; [rewrite bool_decide_eq_true; split; congruence|done]. Qed.

(** One input: the transaction that spends it leaves with its entry. *)
Lemma unspend_one h s op t : pool_ok s -> tp_hashToTx s !! h = None -> tp_outPointToTx s !! op = Some t ->
  forall k, hash t = Some k -> shrunk h s (with_txs s (delete k (tp_hashToTx s)) (delete op (tp_outPointToTx s))).
Proof.
  intros Hs Hh Et k Ek. split_and!; [|by apply lookup_delete_None; right|apply delete_subseteq|apply delete_subseteq|done].
  apply pool_ok_less; [done|apply delete_subseteq|apply delete_subseteq|]. intros k' w op' [Hne Ew]%lookup_delete_Some Hop.
  symmetry. apply lookup_delete_ne. intros <-. destruct (po_spent _ Hs _ _ _ Ew Hop) as (t' & E' & Ht'). congruence.
Qed.

Lemma ewp_unspend h ins s : pool_ok s -> tp_hashToTx s !! h = None ->
  ewpf F (unspend h ins) (fun _ s' => shrunk h s s' /\ forall op, op ∈ map PrevOutPoint ins -> tp_outPointToTx s' !! op = None) (fun _ _ => False) s.
Proof.
  revert s. induction ins as [|i ins IH]; intros s Hs Hh; cbn [unspend map]; [apply ewp_ret; split; [by split_and!|by intros op ?%not_elem_of_nil]|].
  apply ewp_bind, ewp_gets, ewp_bind. unfold FindTransaction.
  apply (ewp_mono _ (fun _ s1 => shrunk h s s1 /\ tp_outPointToTx s1 !! PrevOutPoint i = None) _ (fun _ _ => False)); [|intros u s1 [H1 Hi]|done].
  - destruct (tp_outPointToTx s !! PrevOutPoint i) as [t|] eqn:Et; [|by apply ewp_ret; split; [split_and!|]]. apply ewp_bind, ewp_modify. cbn [tp_hashToTx tp_outPointToTx with_txs].
    pose proof (unspend_one h s _ t Hs Hh Et) as Hone. destruct (Crypto.IsEqual _ _) eqn:Eq.
    + apply ewp_ret. apply IsEqual_hash in Eq. specialize (Hone h Eq). rewrite delete_id in Hone by done. split; [done|apply lookup_delete_eq].
    + apply ewp_bind, ewp_deref. intros k Ek. apply ewp_modify. split; [by apply Hone|apply lookup_delete_eq].
  - eapply ewp_mono; [apply IH; apply H1|intros u' s2 [H2 Hin]|done]. split; [exact (shrunk_trans _ _ _ _ H1 H2)|]. intros op [->|Hop]%elem_of_cons; [|by apply Hin].
    destruct H2 as (_ & _ & Hsub & _). eapply lookup_weaken_None; [exact Hi|done].
Qed.

Lemma ewp_freeNonce v tx s : ewpf F (freeNonce v tx) (fun _ s' => idle s s') (fun _ _ => False) s.
Proof.
  unfold freeNonce. case_bool_decide; cbn [negb]; [|by apply ewp_ret]. apply ewp_bind. destruct (GetContractVout _ _) as [vout|]; [apply ewp_ret|by apply ewp_panic].
  apply ewp_bind, ewp_deref. intros o _. apply ewp_bind, ewp_deref. intros [param ty] _. by apply ewp_modify.
Qed.

Lemma ewp_removeOne v tx s : pool_ok s ->
  ewpf F (removeOne v tx) (fun _ s' => exists h, hash tx = Some h /\ shrunk h s s' /\ forall op, op ∈ spends tx -> tp_outPointToTx s' !! op = None) (fun _ _ => False) s.
Proof.
  intros Hs. unfold removeOne, TxHash. apply ewp_bind, ewp_deref. intros h Eh. apply ewp_bind, ewp_modify.
  set (s1 := with_txs s (delete h (tp_hashToTx s)) (tp_outPointToTx s)). assert (shrunk h s s1) as H1.
  { split_and!; [|apply lookup_delete_eq|done|apply delete_subseteq|done]. by apply pool_ok_less; [|apply delete_subseteq| |]. }
  apply ewp_bind. eapply ewp_mono; [apply (ewp_unspend h); apply H1|intros u s2 [H2 Hin]|done].
  eapply ewp_mono; [apply ewp_freeNonce|intros u' s3 [[[E1 E3] E2] E4]|done]. exists h. destruct (shrunk_trans _ _ _ _ H1 H2) as (A1 & A2 & A3 & A4 & A5). split_and!; [done| |by rewrite E2].
  split_and!; [by eapply pool_ok_same|by rewrite E1|by rewrite E2|by rewrite E1|by rewrite E3].
Qed.

Lemma ewp_addOrphan_ok now tx s : pool_ok s -> ewpf F (addOrphan now tx) (fun _ s' => pool_ok s' /\ same_txs s s') (fun _ _ => False) s.
Proof.
  intros Hs. eapply ewp_mono; [apply (ewp_addOrphan (match hash tx with Some h => {[ h ]} | None => ∅ end) now tx s Hs); intros h ->; set_solver|by intros u s' (H1 & H2 & _)|done].
Qed.

(** The entries of the index pay for the children. *)
Definition paid (l : list (Transaction * UtxoSet)) (n : nat) (s : TransactionPool) : Prop := pool_ok s /\ size (tp_outPointToTx s) <= n /\ tp_scripts s = l.

Lemma ewp_orphanChildren l n v now h outs idx acc s : paid l n s ->
  ewpf F (orphanChildren v now h outs idx acc) (fun r s' => exists k, length r = length acc + k /\ k <= n /\ paid l (n - k) s') (fun _ _ => False) s.
Proof.
  revert n idx acc s. induction outs as [|o outs IH]; intros n idx acc s (Hs & Hn & Hl); cbn [orphanChildren].
  { apply ewp_ret. exists 0. rewrite Nat.sub_0_r. by split_and!; [lia|lia|]. }
  apply ewp_bind, ewp_gets. unfold FindTransaction. destruct (_ !! _) as [t|] eqn:Et; [|by apply IH]. apply ewp_bind.
  eapply ewp_mono; [by apply ewp_removeOne|intros u s1 (k & _ & H1 & Hgone)|done]. apply ewp_bind. eapply ewp_mono; [apply ewp_addOrphan_ok, H1|intros u' s2 [H2 [[_ El] E2]]|done].
  assert (S (size (tp_outPointToTx s2)) <= size (tp_outPointToTx s)) as Hless.
  { rewrite E2. specialize (Hgone _ (po_index _ Hs _ _ Et)). rewrite <-(map_size_insert_None _ t _ Hgone). apply map_subseteq_size, insert_subseteq_l; [done|apply H1]. }
  eapply ewp_mono; [apply (IH (n - 1)); split_and!; [done|lia|rewrite El, <-Hl; apply H1]|intros r s3 (k' & E & Hk & H3)|done]. exists (S k'). rewrite E, length_app. cbn. split_and!; [lia|lia|]. by replace (n - S k') with (n - 1 - k') by lia.
Qed.

Lemma ewp_removeLoop l n fuel v now todo s : length todo + n < fuel -> paid l n s -> ewpf F (removeLoop fuel v now todo) (fun _ s' => pool_ok s' /\ tp_scripts s' = l) (fun _ _ => False) s.
Proof.
  revert n todo s. induction fuel as [|fuel IH]; intros n todo s Hf Hs; [lia|]. cbn [removeLoop]. destruct todo as [|tx todo]; [apply ewp_ret; split; apply Hs|].
  apply ewp_bind, ewp_deref. intros h _. apply ewp_bind. eapply ewp_mono; [by apply (ewp_orphanChildren l n)|intros r s1 (k & E & Hk & H1)|done]. apply (IH (n - k)); [|done]. rewrite length_app, E. cbn in *. lia.
Qed.

(** A part of a request that keeps the pool in order and sends [n] scripts at most. *)
Definition orderly {A} (n : nat) (c : TM A) : Prop := forall k s, pool_ok s -> room (n + k) s ->
  ewpf F c (fun _ s' => pool_ok s' /\ room k s') (fun _ s' => pool_ok s' /\ room k s') s.

Lemma orderly_bind {A B} n m (c : TM A) (k : A -> TM B) : orderly n c -> (forall a, orderly m (k a)) -> orderly (n + m) (c ≫= k).
Proof. intros Hc Hk j s Hs Hr. rewrite <-Nat.add_assoc in Hr. apply ewp_bind. eapply ewp_mono; [by apply (Hc (m + j))|intros a s' [H1 H2]; by apply Hk|intros e s' [H1 H2]]. split; [done|]. by eapply room_less; [|exact H2]; lia. Qed.
Lemma orderly_then {A B} m (c : TM A) (k : A -> TM B) : orderly 0 c -> (forall a, orderly m (k a)) -> orderly m (c ≫= k).
Proof. apply (orderly_bind 0 m). Qed.
Lemma orderly_ret {A} (a : A) : orderly 0 (mret a).
Proof. by intros k s H Hr. Qed.
Lemma orderly_gets {A} (f : TransactionPool -> A) : orderly 0 (e_gets f).
Proof. by intros k s H Hr. Qed.
Lemma orderly_deref {A} (o : option A) : orderly 0 (e_deref o).
Proof. intros k s H Hr. by destruct o. Qed.
Lemma orderly_panic {A} n : orderly n (e_panic : TM A).
Proof. done. Qed.
Lemma orderly_try {A} n (c : TM A) : orderly n c -> orderly n (e_try c).
Proof. intros Hc k s H Hr. apply ewp_try. by apply Hc. Qed.
Lemma orderly_modify f : (forall s, pool_ok s -> pool_ok (f s)) -> (forall s, tp_scripts (f s) = tp_scripts s) -> orderly 0 (e_modify f).
Proof. intros Hf Hl k s H Hr. apply ewp_modify. split; [by apply Hf|exact (room_same k s (f s) (Hl s) Hr)]. Qed.

(** Nothing is sent and no error is returned. *)
Lemma orderly_never {A} (c : TM A) : (forall s, pool_ok s -> ewpf F c (fun _ s' => pool_ok s' /\ tp_scripts s' = tp_scripts s) (fun _ _ => False) s) -> orderly 0 c.
Proof. intros Hc k s Hs Hr. eapply ewp_mono; [by apply Hc|intros a s' [H1 H2]|done]. split; [done|exact (room_same k s s' H2 Hr)]. Qed.

Lemma orderly_removeTx v now tx recursive : orderly 0 (removeTx v now tx recursive).
Proof.
  apply orderly_never. intros s Hs. unfold removeTx. apply ewp_bind. eapply ewp_mono; [by apply ewp_removeOne|intros u s1 (h & _ & H1 & _)|done]. assert (pool_ok s1 /\ tp_scripts s1 = tp_scripts s) as [H2 H3] by (split; apply H1).
  destruct recursive; [|by apply ewp_ret]. apply ewp_bind, ewp_gets. apply (ewp_removeLoop _ (size (tp_outPointToTx s1))); [cbn; lia|done].
Qed.

Lemma orderly_removeTxs v now txs : orderly 0 (removeTxs v now txs).
Proof. induction txs as [|tx txs IH]; cbn [removeTxs]; [apply orderly_ret|]. apply orderly_then; [apply orderly_removeTx|by intros _]. Qed.

Lemma quiet_kept X s s' : quiet X s s' -> pool_ok s' /\ tp_scripts s' = tp_scripts s.
Proof. intros (H1 & [[_ H2] _] & _). done. Qed.

Lemma orderly_removeOrphan tx : orderly 0 (removeOrphan tx).
Proof. apply orderly_never. intros s Hs. eapply ewp_mono; [by apply (ewp_removeOrphan ∅)|by intros u s' H%quiet_kept|done]. Qed.
Lemma orderly_removeOrphans txs : orderly 0 (removeOrphans txs).
Proof. apply orderly_never. intros s Hs. eapply ewp_mono; [by apply (ewp_removeOrphans ∅)|by intros u s' H%quiet_kept|done]. Qed.
Lemma orderly_removeDoubleSpendOrphans tx : orderly 0 (removeDoubleSpendOrphans tx).
Proof. apply orderly_never. intros s Hs. eapply ewp_mono; [by apply (ewp_doubleSpendOrphans ∅)|by intros u s' H%quiet_kept|done]. Qed.

Lemma orderly_maybeAccept v now tx mode detect : orderly 1 (maybeAcceptTx pool v now tx mode detect).
Proof.
  intros k s Hs Hr. eapply ewp_mono; [apply (ewp_maybeAccept (match hash tx with Some h => {[ h ]} | None => ∅ end)); [done|intros h ->; set_solver|intros h _ _; by eapply room_less; [|exact Hr]; lia]| |].
  - intros x s' (H1 & _ & h & ty & u & _ & _ & _ & H2). split; [done|by eapply room_sent].
  - intros e s' [H1 H2]%quiet_kept. split; [done|]. eapply room_same; [exact H2|]. by eapply room_less; [|exact Hr]; lia.
Qed.

(** The flag of a wrapped transaction is all that a checked script changes. *)
Lemma pool_ok_flag s h f : pool_ok s -> (forall w, tw_Tx (f w) = tw_Tx w) -> pool_ok (with_txs s (alter f h (tp_hashToTx s)) (tp_outPointToTx s)).
Proof.
  intros [H1 H2 H3 H4 H5 H6] Hf. assert (forall k w, alter f h (tp_hashToTx s) !! k = Some w -> exists w', tp_hashToTx s !! k = Some w' /\ tw_Tx w = tw_Tx w') as Hback.
  { intros k w E. apply lookup_alter_Some in E as [(<- & w' & E & ->)|[_ E]]; eauto. }
  split; cbn [tp_hashToTx tp_outPointToTx tp_outPointToOrphan with_txs]; [| |done| |done|done].
  - intros k w (w' & E & ->)%Hback. eauto.
  - intros k w op (w' & E & ->)%Hback. eauto.
  - intros k w (w' & E & ->)%Hback. eauto.
Qed.

Lemma orderly_checkTxScript v now tx u : orderly 0 (checkTxScript v now tx u).
Proof.
  unfold checkTxScript. destruct (CheckTxScripts _ _ _); [|apply orderly_removeTx]. apply orderly_then; [apply orderly_deref|intros h]. apply orderly_modify; [|done]. intros s Hs. by apply pool_ok_flag.
Qed.

Lemma orderly_takeScript : orderly 0 takeScript.
Proof.
  intros k s Hs Hr. unfold takeScript. apply ewp_bind, ewp_gets. destruct (tp_scripts s) as [|x l] eqn:E; [by apply ewp_ret|]. apply ewp_bind, ewp_modify, ewp_ret.
  split; [apply (pool_ok_scripts s); [done..| |done]; pose proof (po_places _ Hs) as Hp; rewrite E in Hp; cbn [tp_scripts with_scripts length] in *; lia|]. destruct Hr as [Hr|Hr]; [by left|right]. rewrite E in Hr. cbn [tp_scripts with_scripts length] in *. lia.
Qed.

Lemma orderly_cleanExpired v now : orderly 0 (cleanExpiredTxs v now).
Proof.
  unfold cleanExpiredTxs. apply orderly_then; [apply orderly_gets|intros os]. apply orderly_then; [apply orderly_gets|intros ts].
  apply orderly_then; [apply orderly_removeOrphans|intros _; apply orderly_removeTxs].
Qed.

Lemma orderly_cache f : orderly 0 (e_modify (fun s => with_txcache s (f s))).
Proof. apply orderly_modify; [|done]. intros s. by apply pool_ok_same. Qed.

Lemma orderly_confirm v now txs : orderly 0 (confirm v now txs).
Proof.
  induction txs as [|tx txs IH]; cbn [confirm]; [apply orderly_ret|]. apply orderly_then; [apply orderly_deref|intros h]. apply orderly_then; [apply orderly_cache|intros _].
  apply orderly_then; [apply orderly_removeTx|intros _]. apply orderly_then; [apply orderly_removeOrphan|intros _]. apply orderly_then; [apply orderly_removeDoubleSpendOrphans|by intros _].
Qed.

Lemma orderly_readmit v now txs : orderly (length txs) (readmit pool v now txs).
Proof.
  induction txs as [|tx txs IH]; cbn [readmit length]; [apply orderly_ret|]. apply orderly_then; [apply orderly_deref|intros h]. apply orderly_then; [apply orderly_cache|intros _].
  apply (orderly_bind 1); [apply orderly_try, orderly_maybeAccept|by intros _].
Qed.

Lemma orderly_removeChildren v now h outs idx : orderly 0 (removeChildren v now h outs idx).
Proof.
  revert idx. induction outs as [|o outs IH]; intros idx; cbn [removeChildren]; [apply orderly_ret|]. apply orderly_then; [apply orderly_gets|intros [t|]].
  - apply orderly_then; [apply orderly_removeTx|intros _; apply IH].
  - apply orderly_then; [apply orderly_ret|intros _; apply IH].
Qed.

Lemma orderly_removeAllChildren v now txs : orderly 0 (removeAllChildren v now txs).
Proof.
  induction txs as [|tx txs IH]; cbn [removeAllChildren]; [apply orderly_ret|]. apply orderly_then; [apply orderly_deref|intros h]. apply orderly_then; [apply orderly_removeChildren|by intros _].
Qed.

(** The transactions of a disconnected block but the first are submitted again. *)
Lemma orderly_chainUpdate v now attach detach : orderly (sum_list_with (fun b => length (tail b)) detach) (processChainUpdateMsg pool v now attach detach).
Proof.
  unfold processChainUpdateMsg. rewrite <-(Nat.add_0_r (sum_list_with _ _)). apply orderly_bind; [|intros _].
  - induction detach as [|b bs IH]; cbn [detachBlocks sum_list_with]; [apply orderly_ret|]. apply orderly_bind; [|by intros _]. destruct b as [|cb txs]; [apply orderly_panic|]. cbn [detachBlock tail].
    rewrite <-(Nat.add_0_r (length txs)). apply orderly_bind; [apply orderly_readmit|intros _; apply orderly_removeAllChildren].
  - induction attach as [|b bs IH]; cbn [attachBlocks]; [apply orderly_ret|]. apply orderly_then; [|by intros _]. destruct b as [|cb txs]; [apply orderly_panic|]. apply orderly_confirm.
Qed.

(** ** The pool as it is used *)

(** What reaches the pool, with the chain and the time it finds: a script is taken from the channel
    by the loop and checked on a goroutine at any later time. *)
Inductive PoolRequest :=
  | Submitted (v : View) (now : Z) (tx : Transaction) (mode : TransferMode)
  | ScriptTaken
  | ScriptRead (v : View) (now : Z) (tx : Transaction) (u : UtxoSet)
  | Ticked (v : View) (now : Z)
  | ChainUpdated (v : View) (now : Z) (attach detach : list (list Transaction))
  | Invalid (v : View) (now : Z) (tx : Transaction) (recursive : bool).

Definition serve (r : PoolRequest) : TM unit :=
  match r with
  | Submitted v now tx mode => ProcessTx pool v now tx mode
  | ScriptTaken => _ ← takeScript; mret tt
  | ScriptRead v now tx u => checkTxScript v now tx u
  | Ticked v now => cleanExpiredTxs v now
  | ChainUpdated v now attach detach => processChainUpdateMsg pool v now attach detach
  | Invalid v now tx recursive => removeTx v now tx recursive
  end.

(** The scripts that a request may send: of the transaction and the orphans that wait, or of the
    transactions of the disconnected blocks. *)
Definition sends (r : PoolRequest) (s : TransactionPool) : nat :=
  match r with
  | Submitted _ _ _ _ => S (length (waiting s))
  | ChainUpdated _ _ _ detach => sum_list_with (fun b => length (tail b)) detach
  | _ => 0
  end.

Lemma serve_orderly r s : pool_ok s -> room (sends r s) s -> ewpf F (serve r) (fun _ s' => pool_ok s') (fun _ s' => pool_ok s') s.
Proof.
  assert (forall n (c : TM unit), orderly n c -> pool_ok s -> room n s -> ewpf F c (fun _ s' => pool_ok s') (fun _ s' => pool_ok s') s) as Hgo.
  { intros n c Hc Hs Hr. eapply ewp_mono; [apply (Hc 0); [done|by rewrite Nat.add_0_r]|by intros ? ? [? _]..]. }
  destruct r; cbn [sends serve].
  - intros Hs Hr. eapply ewp_mono; [by apply ewp_ProcessTx|by intros x s' [H _]|by intros e s' [H _]].
  - apply Hgo, orderly_then; [apply orderly_takeScript|intros _; apply orderly_ret].
  - apply Hgo, orderly_checkTxScript.
  - apply Hgo, orderly_cleanExpired.
  - apply Hgo, orderly_chainUpdate.
  - apply Hgo, orderly_removeTx.
Qed.

End Outcome.

(** A pool after any requests that were answered, with or without an error. *)
Inductive pool_reach : TransactionPool -> Prop :=
  | reach_new c : pool_reach (mkPool ∅ ∅ ∅ ∅ c ∅ [] [])
  | reach_ok s r s' u : pool_reach s -> serve r s = (EOk u, s') -> pool_reach s'
  | reach_err s r s' e : pool_reach s -> serve r s = (EErr e, s') -> pool_reach s'.

Lemma room_full k s : room full k s.
Proof. by left. Qed.

Lemma reach_pool_ok s : pool_reach s -> pool_ok s.
Proof.
  induction 1 as [c|s r s' u _ IH E|s r s' e _ IH E].
  - split; cbn [tp_hashToTx tp_outPointToTx tp_outPointToOrphan]; [intros *; rewrite lookup_empty; done..|done].
  - pose proof (serve_orderly full r s IH (room_full _ _)) as H. unfold ewpf in H. by rewrite E in H.
  - pose proof (serve_orderly full r s IH (room_full _ _)) as H. unfold ewpf in H. by rewrite E in H.
Qed.

(** C3: In every state the pool can reach, through any sequence of transactions, blocks connected and
    disconnected, script results and expiries, two transactions that spend the same output are the
    same one; a transaction in the pool is filed under its hash, spends no output twice, and each
    output it spends is found in the index of spent outputs under it. *)
Theorem pool_never_double_spends s h1 w1 h2 w2 op : pool_reach s -> tp_hashToTx s !! h1 = Some w1 -> tp_hashToTx s !! h2 = Some w2 -> op ∈ spends (tw_Tx w1) -> op ∈ spends (tw_Tx w2) ->
  h1 = h2 /\ hash (tw_Tx w1) = Some h1 /\ NoDup (spends (tw_Tx w1)) /\ exists t, FindTransaction op s = Some t /\ hash t = Some h1.
Proof.
  intros Hs%reach_pool_ok E1 E2 H1 H2. destruct (po_spent _ Hs _ _ _ E1 H1) as (t & Et & Ht). destruct (po_spent _ Hs _ _ _ E2 H2) as (t' & Et' & Ht').
  split_and!; [congruence|by eapply po_hash|by eapply po_distinct|]. by exists t.
Qed.

(** C26: From every reachable state a request to the pool ends, by an answer, an error or a panic,
    unless the channel of scripts is full: the searches for orphans to accept and for children to
    remove visit each transaction at most once.  A request that has to wait has found all the 65536
    places taken, and this needs more scripts than places: those in the channel together with the
    transaction and the orphans that wait, or with the transactions of the blocks it disconnects;
    scripts that are taken or checked, expiry and removal never wait. *)
Theorem pool_requests_end s r : pool_reach s -> let '(x, s') := serve r s in x = EFuel ->
  (TxScriptBufferChSize <= Z.of_nat (length (tp_scripts s')))%Z /\
  match r with
  | Submitted _ _ _ _ => (TxScriptBufferChSize < Z.of_nat (length (tp_scripts s) + 1 + length (waiting s)))%Z
  | ChainUpdated _ _ _ detach => (TxScriptBufferChSize < Z.of_nat (length (tp_scripts s) + sum_list_with (fun b => length (tail b)) detach))%Z
  | _ => False
  end.
Proof.
  intros Hs%reach_pool_ok. destruct (serve r s) as [x s'] eqn:E. intros ->. pose proof (po_places _ Hs) as Hcap. split.
  - pose proof (serve_orderly full r s Hs (room_full _ _)) as H. unfold ewpf in H. by rewrite E in H.
  - assert (~ (Z.of_nat (length (tp_scripts s) + sends r s) <= TxScriptBufferChSize)%Z) as Hmany.
    { intros Hfit. pose proof (serve_orderly (fun _ => False) r s Hs (or_intror Hfit)) as H. unfold ewpf in H. by rewrite E in H. }
    destruct r; cbn [sends] in Hmany; lia.
Qed.

(** C27: A transaction that [ProcessTx] accepts was not in the pool; it is in it afterwards under its
    hash, as it was but for its type, with the time, the height of the next block and a script that
    is not checked yet, its inputs are marked as spent by it, and its scripts are in the channel, after
    those that were.  One that it refuses is not added, and nothing is sent to be checked.  Either
    way every other transaction that spends none of the same outputs stays; nothing is claimed of one
    that does, where the code keeps it and a comment says that it may give way (lower_nonce_refused).
    A call that waits has found the channel of scripts full. *)
Theorem pool_admission v now tx mode s r s' : pool_reach s -> ProcessTx pool v now tx mode s = (r, s') ->
  let apart w := forall op, op ∈ spends tx -> op ∉ spends (tw_Tx w) in
  match r with
  | EOk _ => exists h ty u, hash tx = Some h /\ tp_hashToTx s !! h = None /\
      tp_hashToTx s' !! h = Some (mkTxWrap (set_type tx ty) now (u32 (v_LongestChainHeight v + 1)) false) /\
      (forall op, op ∈ spends tx -> exists t, FindTransaction op s' = Some t /\ hash t = Some h) /\
      tp_scripts s ++ [(set_type tx ty, u)] `prefix_of` tp_scripts s' /\
      forall h' w, tp_hashToTx s !! h' = Some w -> apart w -> tp_hashToTx s' !! h' = Some w
  | EErr _ => (forall h, hash tx = Some h -> tp_hashToTx s' !! h = tp_hashToTx s !! h) /\ tp_scripts s' = tp_scripts s /\
      forall h' w, apart w -> tp_hashToTx s' !! h' = Some w <-> tp_hashToTx s !! h' = Some w
  | EPanic => True
  | EFuel => (TxScriptBufferChSize <= Z.of_nat (length (tp_scripts s')))%Z
  end.
Proof.
  intros Hs%reach_pool_ok E apart. pose proof (ewp_ProcessTx full v now tx mode s Hs (room_full _ _)) as H. unfold ewpf in H. rewrite E in H. destruct r as [u|e| |]; [| |done|done].
  - destruct H as (Hs' & h & ty & u' & Eh & Hnew & Hsub & Hpre). assert (tp_hashToTx s' !! h = Some (kept v now tx ty)) as Ek by (eapply lookup_weaken; [apply lookup_insert_eq|exact Hsub]).
    exists h, ty, u'. split_and!; [done|done|done| |done|].
    + intros op Hop. by eapply (po_spent _ Hs' h _ op Ek).
    + intros h' w Ew _. eapply lookup_weaken; [|exact Hsub]. apply lookup_insert_Some. right. split; [congruence|done].
  - destruct H as [_ [[E1 E2] _]]. rewrite E1. done.
Qed.

End Pool.

(** * Runs of the pool

    Small instances of the interfaces, on which the theorems of the pool are applied and its runs
    are evaluated: orphans that wake up, and some that are forgotten. *)

Import Script Kinds TxLogic Compress Utxo UtxoDb Validate Transition Processor TxPool.

Module TxPoolDemo.
Import EvmDemo RefDB.
#[local] Existing Instance ToyCrypto.toy.
#[local] Existing Instance ProcessorDemo.forwards.

#[local] Instance txcache : Lru bytes bool := ChainDemo.cache 8.

(** A transaction is named by its data. *)
#[local] Instance names : TxCodec := {| pb_marshal m := Some (default [] (data_content <$> pb_Data m)) |}.

Definition name (b : byte) : bytes := ToyCrypto.pad 32 [b].
Definition key : bytes := replicate 20 x05.
Definition lock : bytes := PayToPubKeyHashScript key.

(** Transaction [b] spends [ins] and pays [v]. *)
Definition pay (b : byte) (ins : list OutPoint) (v : Z) : Transaction :=
  mkTx UnknownTx 1 ((fun op => mkTxIn op [x01] 0) <$> ins) [mkTxOut v lock] (Some (mkTxData 0 [b])) 0 0.

Definition coin (n : Z) : OutPoint := mkOutPoint (replicate 32 x07) n.
Definition out (b : byte) : OutPoint := mkOutPoint (name b) 0.

(** Two coins in the database; Alice has one more and a contract is deployed. *)
Definition buffer : bytes := replicate 37 x00.
Definition coins : UtxoSet := mkUtxoSet
  {[ coin 0 := Types.NewUtxoWrap 9000000 lock 1; coin 1 := Types.NewUtxoWrap 9000000 lock 1; coin 2 := Types.NewUtxoWrap 9000000 (PayToPubKeyHashScript alice) 1;
     coin 3 := Types.NewUtxoWrap 9000000 (PayToPubKeyHashScript alice) 1 ]} ∅ ∅.
Definition db : Db := match WriteUtxoSetToDB buffer coins ∅ with Returns (Ok d) => d | _ => ∅ end.
Definition view : View := mkView db (mkRef (state adder) [] 0) 10.
Definition new : TransactionPool := mkPool ∅ ∅ ∅ ∅ [] ∅ [] [].

Fixpoint answers (rs : list PoolRequest) (s : TransactionPool) : list (eres PoolErr unit) * TransactionPool :=
  match rs with
  | [] => ([], s)
  | r :: rs => let x := serve buffer r s in let y := answers rs x.2 in (x.1 :: y.1, y.2)
  end.

Definition submit (tx : Transaction) : PoolRequest := Submitted view 1000 tx DefaultMode.
Definition pooled (s : TransactionPool) : list bytes := (map_to_list (tp_hashToTx s)).*1.
Definition outcome (rs : list PoolRequest) : list (eres PoolErr unit) * list bytes := let x := answers rs new in (x.1, pooled x.2).

(** A child that comes before its parent. *)
Definition parent := pay x0a [coin 0] 7950000.
Definition child := pay x0c [out x0a] 6900000.

Example orphan_wakes : outcome [submit child; submit parent] = ([EErr ErrOrphanTransaction; EOk tt], [name x0c; name x0a]).
Proof. vm_compute. reflexivity. Qed.

(** A second orphan of the same output is not indexed: when the first is refused the second stays
    an orphan although it could be accepted. *)
Definition greedy := pay x0d [out x0a] 6800000.

Example orphan_forgotten : outcome [submit greedy; submit child; submit parent] = ([EErr ErrOrphanTransaction; EErr ErrOrphanTransaction; EOk tt], [name x0a]).
Proof. vm_compute. reflexivity. Qed.

(** A block spends one of the two outputs of a pooled transaction, which leaves the pool; its other
    output can not be spent any more. *)
Definition both := pay x0e [coin 0; coin 1] 16950000.
Definition mined := pay x0f [coin 0] 7950000.
Definition other := pay x10 [coin 1] 7950000.

Example output_stays_taken :
  outcome [submit both; ChainUpdated view 1000 [[pay x00 [] 0; mined]] []; submit other] = ([EOk tt; EOk tt; EErr ErrOutPutAlreadySpent], []).
Proof. vm_compute. reflexivity. Qed.

(** Contract calls of Alice with the same nonce; the first spends an output that is taken. *)
Definition callScript : bytes := match MakeContractScriptPubkey (Some alice) (Some contract) 100000 1 0 with Ok s => s | Err _ => [] end.
Definition call (b : byte) (op : OutPoint) : Transaction := mkTx UnknownTx 1 [mkTxIn op [x01] 0] [mkTxOut 4000000 callScript] (Some (mkTxData 0 [b])) 0 0.
Definition taker := pay x11 [coin 2] 7950000.

Example nonce_stays_reserved :
  outcome [submit taker; submit (call x12 (coin 2)); submit (call x13 (coin 3))] = ([EOk tt; EErr ErrOutPutAlreadySpent; EErr ErrNonceExists], [name x11]).
Proof. vm_compute. reflexivity. Qed.

(** A call with a lower nonce that spends the same output is refused, the pooled one stays. *)
Definition callWith (b : byte) (nonce : Z) (op : OutPoint) : Transaction :=
  mkTx UnknownTx 1 [mkTxIn op [x01] 0] [mkTxOut 4000000 (match MakeContractScriptPubkey (Some alice) (Some contract) 100000 nonce 0 with Ok s => s | Err _ => [] end)] (Some (mkTxData 0 [b])) 0 0.

Example lower_nonce_refused :
  outcome [submit (callWith x12 2 (coin 2)); submit (callWith x13 1 (coin 2))] = ([EOk tt; EErr ErrOutPutAlreadySpent], [name x12]).
Proof. vm_compute. reflexivity. Qed.

(** One place is left in the channel of scripts, and a block with two transactions is disconnected:
    the loop that would receive waits itself. *)
Definition busy : TransactionPool := with_scripts new (replicate (Z.to_nat 65535) (parent, coins)).

Example disconnecting_waits : (serve buffer (ChainUpdated view 1000 [] [[pay x00 [] 0; mined; other]]) busy).1 = EFuel.
Proof. vm_compute. reflexivity. Qed.

(** A payment to the address of a contract with a short input script. *)
Definition donation : Transaction := mkTx UnknownTx 1 [mkTxIn (coin 0) [x01] 0] [mkTxOut 7950000 (PayToPubKeyHashScript contract)] (Some (mkTxData 0 [x14])) 0 0.

Example donation_crash : outcome [submit donation] = ([EPanic], []).
Proof. vm_compute. reflexivity. Qed.

(** ** The theorems on a run *)

Abbreviation step1 := (serve buffer (submit child) new).
Abbreviation step2 := (serve buffer (submit parent) step1.2).

Lemma child_waits : serve buffer (submit child) new = (EErr ErrOrphanTransaction, step1.2).
Proof. refine (eq_trans (surjective_pairing step1) (f_equal (fun x => (x, step1.2)) _)). vm_compute. reflexivity. Qed.

Lemma waiting_reach : pool_reach buffer step1.2.
Proof. exact (reach_err _ _ _ _ _ (reach_new _ []) child_waits). Qed.

Lemma parent_accepted : serve buffer (submit parent) step1.2 = (EOk tt, step2.2).
Proof. refine (eq_trans (surjective_pairing step2) (f_equal (fun x => (x, step2.2)) _)). vm_compute. reflexivity. Qed.

Lemma woken_reach : pool_reach buffer step2.2.
Proof. exact (reach_ok _ _ _ _ _ waiting_reach parent_accepted). Qed.

Lemma pool_requests_end_witness : (serve buffer (Ticked view 9000) step2.2).1 <> EFuel.
Proof.
  intros E. pose proof (pool_requests_end buffer step2.2 (Ticked view 9000) woken_reach) as H. destruct (serve buffer (Ticked view 9000) step2.2) as [x s']. exact (proj2 (H E)).
Defined.

Definition wrapped : TxWrap := default (mkTxWrap child 0 0 false) (tp_hashToTx step2.2 !! name x0c).

Lemma pool_never_double_spends_witness : Types.CalcTxHash (tw_Tx wrapped) = Some (name x0c) /\ NoDup (spends (tw_Tx wrapped)) /\ exists t, FindTransaction (out x0a) step2.2 = Some t.
Proof.
  assert (tp_hashToTx step2.2 !! name x0c = Some wrapped) as E by (vm_compute; reflexivity).
  assert (out x0a ∈ spends (tw_Tx wrapped)) as Hin by (vm_compute; left).
  destruct (pool_never_double_spends buffer step2.2 (name x0c) wrapped (name x0c) wrapped (out x0a) woken_reach E E Hin Hin) as (_ & H1 & H2 & t & H3 & _). eauto.
Defined.

Lemma pool_admission_witness : exists ty, tp_hashToTx step2.2 !! name x0a = Some (mkTxWrap (set_type parent ty) 1000 11 false).
Proof.
  destruct (pool_admission buffer view 1000 parent DefaultMode step1.2 (EOk tt) step2.2 waiting_reach parent_accepted) as (h & ty & u & Eh & _ & Ew & _). exists ty. vm_compute in Eh. injection Eh as <-. exact Ew.
Defined.

End TxPoolDemo.
