(* ===== verification/PackOrder.v ===== *)
(** * PackOrder: the order of the transactions of a new block (src/consensus/bpos/bpos.go)

    [sortPendingTxs] takes the transactions of the pool, drops the contract transactions whose
    nonce is not the next of their sender together with all that spend their outputs, and sorts the
    rest: by time, but never a transaction before one it depends on.  Dropping visits a transaction
    once for every way that leads to it; its loop carries fuel.  The state of the monad is the list
    of transactions that are announced as invalid. *)

From Stdlib Require Import Sorted.
From S2P Require Import Prelude Effects Dag Opcode Crypto Bytes Bloom EvmMath EvmState EvmMachine EvmGas EvmInstr EvmPrecompile Evm Types Script ScriptKinds TxLogic Compress Keys UtxoSet UtxoDb Validate EvmMain Transition Receipt Blocks Processor ProcessorMain Chain ChainDemo TxPool TxPoolFacts.
Import Kinds TxLogic Compress Utxo UtxoDb Validate Transition Processor Heap Dag.

Inductive PackErr := ErrPackState | ErrPackProc (e : ProcErr) | ErrPackVm (e : EvmErr) | ErrCircleTxExistInDag.

(** The maps of [sortPendingTxs]. *)
Record Pending := mkPending {
  pd_pool : PriorityQueue TxWrap;
  pd_hashToTx : gmap bytes TxWrap;
  pd_outPointToTx : gmap OutPoint Transaction;
  pd_addressToTxs : gmap bytes (PriorityQueue VMTransaction);
  pd_hashToAddress : gmap bytes bytes
}.

Module PackOrder.

Definition lessFunc (a b : TxWrap) : bool := (tw_AddedTimestamp a <? tw_AddedTimestamp b)%Z.
Definition nonceFunc (a b : VMTransaction) : bool := (vt_nonce a <? vt_nonce b)%Z.

Section Order.
Context {D : StateDB} {X : ChainDB D} `{C : Crypto} `{TC : TxCodec} {VO : VisitOrder}.

Abbreviation SM := (EM (list Transaction) PackErr).

Definition s_go {A} (x : go A) : SM A := match x with Returns a => mret a | Panics => e_panic end.
Definition TxHash (tx : Transaction) : SM bytes := e_deref (Types.CalcTxHash tx).
Definition publish (tx : Transaction) : SM unit := e_modify (fun l => l ++ [tx]).

(** [chain.ExtractVMTransaction] on a state that it only reads. *)
Definition extract (s : sdb) (tx : Transaction) : SM (option VMTransaction) :=
  match (ExtractVMTransaction tx (mkPState s NewUtxoSet)).1 with
  | XOk (Ok vmTx) => mret vmTx
  | XOk (Err e) => e_fail (ErrPackProc e)
  | XErr e => e_fail (ErrPackVm e)
  | _ => e_panic
  end.

(** The type that [GetTxType] finds stays in the transaction. *)
Definition typed (tail : sdb) (w : TxWrap) : TxWrap :=
  mkTxWrap (GetTxType (Some (isContract tail)) (tw_Tx w)).1 (tw_AddedTimestamp w) (tw_Height w) (tw_IsScriptValid w).
Definition isContractTx (tail : sdb) (tx : Transaction) : bool := bool_decide ((GetTxType (Some (isContract tail)) tx).2 = ContractTx).

Definition addVmTx (txHash : bytes) (vmTx : VMTransaction) (p : Pending) : SM Pending :=
  let from := vt_from vmTx in
  match pd_addressToTxs p !! from with
  | Some v =>
      v ← s_go (heap_Push v vmTx);
      mret (mkPending (pd_pool p) (pd_hashToTx p) (pd_outPointToTx p) (<[from := v]> (pd_addressToTxs p)) (pd_hashToAddress p))
  | None =>
      nonceQueue ← s_go (NewPriorityQueue nonceFunc);
      nonceQueue ← s_go (heap_Push nonceQueue vmTx);
      mret (mkPending (pd_pool p) (pd_hashToTx p) (pd_outPointToTx p) (<[from := nonceQueue]> (pd_addressToTxs p)) (<[txHash := from]> (pd_hashToAddress p)))
  end.

(** Only transactions whose scripts have been verified. *)
Fixpoint collectTxs (tail statedb : sdb) (pendingTxs : list TxWrap) (p : Pending) : SM Pending :=
  match pendingTxs with
  | [] => mret p
  | w :: pendingTxs =>
      if negb (tw_IsScriptValid w) then collectTxs tail statedb pendingTxs p
      else
        txHash ← TxHash (tw_Tx w);
        let contract := isContractTx tail (tw_Tx w) in
        let w := typed tail w in
        pool ← s_go (heap_Push (pd_pool p) w);
        let p := mkPending pool (<[txHash := w]> (pd_hashToTx p)) (foldl (fun m txIn => <[PrevOutPoint txIn := tw_Tx w]> m) (pd_outPointToTx p) (Vin (tw_Tx w))) (pd_addressToTxs p) (pd_hashToAddress p) in
        p ← (if contract then vmTx ← extract statedb (tw_Tx w); vmTx ← e_deref vmTx; addVmTx txHash vmTx p else mret p);
        collectTxs tail statedb pendingTxs p
  end.

(** The transactions that spend the outputs of one that is removed. *)
Fixpoint dropOuts (hash : bytes) (outs : list TxOut) (idx : nat) (o : gmap OutPoint Transaction) (hashToTx : gmap bytes TxWrap) : SM (list Transaction * gmap bytes TxWrap) :=
  match outs with
  | [] => mret ([], hashToTx)
  | _ :: outs =>
      match o !! mkOutPoint hash (u32 (Z.of_nat idx)) with
      | None => dropOuts hash outs (S idx) o hashToTx
      | Some childTx =>
          childHash ← TxHash childTx;
          '(children, hashToTx) ← dropOuts hash outs (S idx) o (delete childHash hashToTx);
          mret (childTx :: children, hashToTx)
      end
  end.

Fixpoint dropLoop (fuel : nat) (removedTxs : list Transaction) (o : gmap OutPoint Transaction) (hashToTx : gmap bytes TxWrap) : SM (gmap bytes TxWrap) :=
  match removedTxs with
  | [] => mret hashToTx
  | removedTx :: removedTxs =>
      match fuel with
      | O => fun s => (EFuel, s)
      | S fuel =>
          removedTxHash ← TxHash removedTx;
          '(children, hashToTx) ← dropOuts removedTxHash (Vout removedTx) 0 o hashToTx;
          dropLoop fuel (removedTxs ++ children) o hashToTx
      end
  end.

(** The contract transactions of one sender in the order of their nonces. *)
Fixpoint nonceLoop (fuel : nat) (vmTxs : list VMTransaction) (o : gmap OutPoint Transaction) (currentNonce : Z) (hashToTx : gmap bytes TxWrap) : SM (list VMTransaction * gmap bytes TxWrap) :=
  match vmTxs with
  | [] => mret ([], hashToTx)
  | vmTx :: vmTxs =>
      hash ← e_deref (vt_originTx vmTx);
      match hashToTx !! hash with
      | None => nonceLoop fuel vmTxs o currentNonce hashToTx
      | Some w =>
          if negb (vt_nonce vmTx =? u64 (currentNonce + 1))%Z then
            _ ← (if (vt_nonce vmTx <? u64 (currentNonce + 1))%Z then publish (tw_Tx w) else mret tt);
            hashToTx ← dropLoop fuel [tw_Tx w] o hashToTx;
            nonceLoop fuel vmTxs o currentNonce (delete hash hashToTx)
          else
            '(l, hashToTx) ← nonceLoop fuel vmTxs o (u64 (currentNonce + 1)) hashToTx;
            mret (vmTx :: l, hashToTx)
      end
  end.

Fixpoint addressLoop (fuel : nat) (statedb : sdb) (addressToTxs : list (bytes * PriorityQueue VMTransaction)) (o : gmap OutPoint Transaction) (sorted : gmap bytes (list VMTransaction)) (hashToTx : gmap bytes TxWrap) :
    SM (gmap bytes (list VMTransaction) * gmap bytes TxWrap) :=
  match addressToTxs with
  | [] => mret (sorted, hashToTx)
  | (from, v) :: addressToTxs =>
      '(popped, _) ← s_go (drain v);
      '(vmtxs, hashToTx) ← nonceLoop fuel popped o (peek 0%Z (GetNonce from) statedb) hashToTx;
      addressLoop fuel statedb addressToTxs o (<[from := vmtxs]> sorted) hashToTx
  end.

(** ** The graph; errors of adding nodes and edges are not looked at *)

Definition addNode (d : Dag bytes) (k : bytes) (weight : Z) : Dag bytes := match AddNode d k weight with Ok d => d | Err _ => d end.
Definition addEdge (d : Dag bytes) (f t : bytes) : Dag bytes := match AddEdge d f t with Ok d => d | Err _ => d end.

Fixpoint handleVMTx (d : Dag bytes) (parentHash : option bytes) (sortedNonceTxs : list VMTransaction) (hashToTx : gmap bytes TxWrap) : SM (Dag bytes) :=
  match sortedNonceTxs with
  | [] => mret d
  | vmTx :: sortedNonceTxs =>
      hash ← e_deref (vt_originTx vmTx);
      originTx ← e_deref (hashToTx !! hash);
      let d := addNode d hash (tw_AddedTimestamp originTx) in
      let d := match parentHash with Some p => addEdge d p hash | None => d end in
      handleVMTx d (Some hash) sortedNonceTxs hashToTx
  end.

Definition inputEdge (txHash : bytes) (hashToTx : gmap bytes TxWrap) (d : Dag bytes) (txIn : TxIn) : Dag bytes :=
  let prevTxHash := op_hash (PrevOutPoint txIn) in
  match hashToTx !! prevTxHash with
  | Some wrap => addEdge (addNode d prevTxHash (tw_AddedTimestamp wrap)) prevTxHash txHash
  | None => d
  end.

Fixpoint graphLoop (tail : sdb) (pool : list TxWrap) (hashToTx : gmap bytes TxWrap) (hashToAddress : gmap bytes bytes) (sorted : gmap bytes (list VMTransaction)) (d : Dag bytes) : SM (Dag bytes) :=
  match pool with
  | [] => mret d
  | txWrap :: pool =>
      txHash ← TxHash (tw_Tx txWrap);
      match hashToTx !! txHash with
      | None => graphLoop tail pool hashToTx hashToAddress sorted d
      | Some _ =>
          let d := addNode d txHash (tw_AddedTimestamp txWrap) in
          '(d, sorted) ← (if isContractTx tail (tw_Tx txWrap) then
                            let from := default Types.ZeroAddressHash (hashToAddress !! txHash) in
                            d ← handleVMTx d None (default [] (sorted !! from)) hashToTx;
                            mret (d, delete from sorted)
                          else mret (d, sorted));
          graphLoop tail pool hashToTx hashToAddress sorted (foldl (inputEdge txHash hashToTx) d (Vin (tw_Tx txWrap)))
      end
  end.

(** [statedb] is the state opened at the root of the tail, or an error. *)
Definition sortPendingTxs (fuel : nat) (tail : sdb) (statedb : option sdb) (pendingTxs : list TxWrap) : SM (list (option TxWrap)) :=
  pool ← s_go (NewPriorityQueue lessFunc);
  statedb ← match statedb with Some s => mret s | None => e_fail ErrPackState end;
  p ← collectTxs tail statedb pendingTxs (mkPending pool ∅ ∅ ∅ ∅);
  '(sorted, hashToTx) ← addressLoop fuel statedb (visit (pd_addressToTxs p)) (pd_outPointToTx p) ∅ (pd_hashToTx p);
  '(popped, _) ← s_go (drain (pd_pool p));
  d ← graphLoop tail popped hashToTx (pd_hashToAddress p) sorted NewDag;
  circular ← s_go (IsCirclular d);
  if circular : bool then e_fail ErrCircleTxExistInDag
  else
    '(nodes, _) ← s_go (TopoSort d);
    mret (map (fun hash => hashToTx !! hash) nodes).

End Order.
End PackOrder.
Import PackOrder.

(** ** What is collected *)

Section Sorted.
Context {D : StateDB} {X : ChainDB D} `{C : Crypto} `{TC : TxCodec} {VO : VisitOrder}.

Abbreviation hash w := (Types.CalcTxHash (tw_Tx w)).
Definition inputs (w : TxWrap) : list bytes := (fun i => op_hash (PrevOutPoint i)) <$> Vin (tw_Tx w).

(** The transactions that may go into the block. *)
Definition packable (tail : sdb) (pendingTxs : list TxWrap) : list TxWrap := typed tail <$> filter (fun w => tw_IsScriptValid w = true) pendingTxs.

Lemma typed_tx tail tx : exists t, (GetTxType (Some (isContract tail)) tx).1 = set_type tx t.
Proof. unfold GetTxType, ParseTxType. case_bool_decide; cbn [negb]; [destruct (parseTypeLoop _ _ _ _ _ _) as [[f t] i]; by exists f|]. exists (tx_type tx). by destruct tx. Qed.

Lemma parse_field sd outs i idx r typ f t j : parseTypeLoop sd outs i idx r typ = (f, t, j) -> t = ErrorTx \/ f = t.
Proof.
  revert i idx r typ. induction outs as [|o outs IH]; intros i idx r typ; cbn [parseTypeLoop]; [case_bool_decide; intros [= <- <- <-]; by right|]. repeat case_match; try (by intros [= <- <- <-]; auto); apply IH.
Qed.

Lemma typed_contract tail w : isContractTx tail (tw_Tx w) = true -> isContractTx tail (tw_Tx (typed tail w)) = true.
Proof.
  unfold isContractTx, typed. cbn [tw_Tx]. intros H%bool_decide_eq_true. apply bool_decide_eq_true. revert H. unfold GetTxType at 1 3, ParseTxType. case_bool_decide as Eu; cbn [negb].
  - destruct (parseTypeLoop _ _ _ _ _ _) as [[f t] i] eqn:E. cbn [snd fst]. intros ->. apply parse_field in E as [?| ->]; [done|]. done.
  - cbn [snd fst]. intros E. unfold GetTxType. by rewrite E.
Qed.

Lemma typed_hash tail w : hash (typed tail w) = hash w /\ Vin (tw_Tx (typed tail w)) = Vin (tw_Tx w).
Proof. unfold typed. cbn [tw_Tx]. destruct (typed_tx tail (tw_Tx w)) as [t ->]. done. Qed.

Record collected (tail : sdb) (p : Pending) : Prop := {
  co_pool : heap_ok tw_AddedTimestamp (pd_pool p);
  co_hash : forall k w, pd_hashToTx p !! k = Some w -> hash w = Some k /\ w ∈ pq_items (pd_pool p);
  co_all : forall w, w ∈ pq_items (pd_pool p) -> exists k, hash w = Some k /\ is_Some (pd_hashToTx p !! k);
  co_spent : forall op tx, pd_outPointToTx p !! op = Some tx -> exists w, w ∈ pq_items (pd_pool p) /\ tw_Tx w = tx /\ op_hash op ∈ inputs w;
  co_nonces : forall from v, pd_addressToTxs p !! from = Some v -> heap_ok vt_nonce v /\
    forall t, t ∈ pq_items v -> exists w, w ∈ pq_items (pd_pool p) /\ isContractTx tail (tw_Tx w) = true /\ vt_originTx t = hash w
}.

Lemma ewp_go {S E A} (x : go A) (Q : A -> S -> Prop) (R : E -> S -> Prop) s : (forall a, x = Returns a -> Q a s) -> ewp (match x with Returns a => mret a | Panics => e_panic end) Q R s.
Proof. destruct x as [a|]; intros H; [apply ewp_ret; auto|apply ewp_panic]. Qed.

Lemma extract_origin st tx s : ewp (extract st tx) (fun v s' => forall t, v = Some t -> vt_originTx t = Types.CalcTxHash tx) (fun _ _ => True) s.
Proof.
  unfold ewpf, extract, ExtractVMTransaction, mbind, PM_bind, p_gets. cbn [p_db]. destruct (GetTxType _ tx) as [tx' typ]. destruct (negb _); [done|]. unfold p_go. destruct (GetContractVout tx st) as [[o|]|]; cbn; [|done|done].
  destruct (ParseContractParams (ScriptPubKey o)) as [[p t]|e]; cbn; [|done]. by intros ? [= <-].
Qed.

(** Pushing onto a queue that does not exist yet starts one. *)
Lemma new_queue {A} (key : A -> Z) (less : A -> A -> bool) : (forall a b, less a b = (key a <? key b)%Z) -> exists q, NewPriorityQueue less = Returns q /\ heap_ok key q /\ pq_items q = [].
Proof.
  intros Hl. unfold NewPriorityQueue. destruct (init_ok key (mkQueue less [])) as (l & -> & Hp & Hq); [done|]. apply Permutation_nil_r in Hp as ->. by eexists.
Qed.

Lemma ewp_addVmTx tail k vmTx p s : collected tail p -> (exists w, w ∈ pq_items (pd_pool p) /\ isContractTx tail (tw_Tx w) = true /\ vt_originTx vmTx = hash w) ->
  ewp (addVmTx k vmTx p) (fun p' _ => collected tail p' /\ pd_pool p' = pd_pool p) (fun _ _ => True) s.
Proof.
  intros [H1 H2 H3 H4 H5] Hv. assert (forall q, heap_ok vt_nonce q -> (forall t, t ∈ pq_items q -> exists w, w ∈ pq_items (pd_pool p) /\ isContractTx tail (tw_Tx w) = true /\ vt_originTx t = hash w) ->
    ewp (q ← s_go (heap_Push q vmTx); mret q) (fun q' _ => heap_ok vt_nonce q' /\ forall t, t ∈ pq_items q' -> exists w, w ∈ pq_items (pd_pool p) /\ isContractTx tail (tw_Tx w) = true /\ vt_originTx t = hash w) (fun (_ : PackErr) (_ : list Transaction) => True) s) as Hpush.
  { intros q Hq Ht. destruct (push_ok vt_nonce q vmTx Hq) as (l & -> & Hp & Hq'). apply ewp_bind, ewp_ret, ewp_ret. split; [done|]. cbn [with_items pq_items]. intros t. rewrite Hp, elem_of_cons. intros [->|Hin]; [done|by apply Ht]. }
  unfold addVmTx. destruct (pd_addressToTxs p !! vt_from vmTx) as [v|] eqn:Ev.
  - destruct (H5 _ _ Ev) as [Hq Ht]. specialize (Hpush v Hq Ht). destruct (push_ok vt_nonce v vmTx Hq) as (l & El & _). rewrite El in *. apply ewp_bind, ewp_ret, ewp_ret. split; [|done]. split; cbn [pd_pool pd_hashToTx pd_outPointToTx pd_addressToTxs]; [done..|].
    intros from v' [[<- <-]|[_ Hf]]%lookup_insert_Some; [exact Hpush|by eapply H5].
  - destruct (new_queue vt_nonce nonceFunc) as (q & -> & Hq & Hi); [done|]. apply ewp_bind, ewp_ret. specialize (Hpush q Hq). rewrite Hi in Hpush. specialize (Hpush ltac:(by intros t ?%not_elem_of_nil)).
    destruct (push_ok vt_nonce q vmTx Hq) as (l & El & _). rewrite El in *. apply ewp_bind, ewp_ret, ewp_ret. split; [|done]. split; cbn [pd_pool pd_hashToTx pd_outPointToTx pd_addressToTxs]; [done..|].
    intros from v' [[<- <-]|[_ Hf]]%lookup_insert_Some; [exact Hpush|by eapply H5].
Qed.

Lemma spent_insert ins tx (m : gmap OutPoint Transaction) op t : foldl (fun m txIn => <[PrevOutPoint txIn := tx]> m) m ins !! op = Some t -> (t = tx /\ op ∈ PrevOutPoint <$> ins) \/ m !! op = Some t.
Proof.
  revert m. induction ins as [|i ins IH]; intros m; cbn [foldl]; [by right|]. intros [[-> H]|[[<- <-]|[_ H]]%lookup_insert_Some]%IH; [left; split; [done|by right]|left; split; [done|by left]|by right].
Qed.

Lemma collected_add tail p w k l : collected tail p -> hash w = Some k -> l ≡ₚ w :: pq_items (pd_pool p) -> heap_ok tw_AddedTimestamp (with_items (pd_pool p) l) ->
  collected tail (mkPending (with_items (pd_pool p) l) (<[k := w]> (pd_hashToTx p)) (foldl (fun m txIn => <[PrevOutPoint txIn := tw_Tx w]> m) (pd_outPointToTx p) (Vin (tw_Tx w))) (pd_addressToTxs p) (pd_hashToAddress p)).
Proof.
  intros [H1 H2 H3 H4 H5] Hk Hl Hq. assert (forall x, x ∈ l <-> x = w \/ x ∈ pq_items (pd_pool p)) as Hin by (intros x; rewrite Hl; apply elem_of_cons). split; cbn [pd_pool pd_hashToTx pd_outPointToTx pd_addressToTxs with_items pq_items].
  - done.
  - intros k' w' [[<- <-]|[_ Hw]]%lookup_insert_Some; [split; [done|apply Hin; by left]|]. destruct (H2 _ _ Hw). split; [done|apply Hin; by right].
  - intros x [->|Hx]%Hin; [exists k; by rewrite lookup_insert_eq|]. destruct (H3 x Hx) as (k' & Hk' & Hs). exists k'. split; [done|]. destruct (decide (k' = k)) as [->|]; [by rewrite lookup_insert_eq|by rewrite lookup_insert_ne].
  - intros op tx [[-> Hop]|Hop]%spent_insert; [exists w; split_and!; [apply Hin; by left|done|]|].
    + apply list_elem_of_fmap in Hop as (i & -> & Hi). unfold inputs. apply list_elem_of_fmap. by exists i.
    + destruct (H4 _ _ Hop) as (w' & ? & ? & ?). exists w'. split_and!; [apply Hin; by right|done|done].
  - intros from v Hv. destruct (H5 _ _ Hv) as [Hq' Ht]. split; [done|]. intros t Hti. destruct (Ht t Hti) as (w' & ? & ? & ?). exists w'. split_and!; [apply Hin; by right|done|done].
Qed.

Lemma ewp_collectTxs tail st pending p s : collected tail p ->
  ewp (collectTxs tail st pending p) (fun p' _ => collected tail p' /\ pq_items (pd_pool p') ≡ₚ packable tail pending ++ pq_items (pd_pool p)) (fun _ _ => True) s.
Proof.
  revert p s. induction pending as [|w pending IH]; intros p s Hp; cbn [collectTxs]; [by apply ewp_ret|]. unfold packable. rewrite filter_cons. destruct (tw_IsScriptValid w) eqn:Ev; cbn [negb]; [rewrite decide_True by done|rewrite decide_False by done; by apply IH].
  apply ewp_bind, ewp_deref. intros k Hk. destruct (typed_hash tail w) as [Hth Htv]. destruct (push_ok tw_AddedTimestamp (pd_pool p) (typed tail w) (co_pool _ _ Hp)) as (l & El & Hl & Hq). rewrite El. apply ewp_bind, ewp_ret. cbv zeta.
  pose proof (collected_add tail p (typed tail w) k l Hp ltac:(by rewrite Hth) Hl Hq) as Hadd. set (p1 := mkPending _ _ _ _ _) in *. apply ewp_bind.
  eapply ewp_mono; [|intros p' s' H; exact H|done].
  assert (ewp (if isContractTx tail (tw_Tx w) then vmTx ← extract st (tw_Tx (typed tail w)); vmTx ← e_deref vmTx; addVmTx k vmTx p1 else mret p1) (fun p' _ => collected tail p' /\ pd_pool p' = pd_pool p1) (fun _ _ => True) s) as Hc.
  { destruct (isContractTx tail (tw_Tx w)) eqn:Ec; [|by apply ewp_ret]. apply ewp_bind. eapply ewp_mono; [apply extract_origin| |done]. intros v s1 Hv. cbn beta. apply ewp_bind, ewp_deref. intros vmTx ->. apply ewp_addVmTx; [done|].
    exists (typed tail w). split_and!; [cbn [p1 pd_pool with_items pq_items]; rewrite Hl; by left|by apply typed_contract|by apply Hv]. }
  eapply ewp_mono; [exact Hc| |done]. intros p' s' [Hp' Epool]. eapply ewp_mono; [by apply IH| |done]. intros p2 s2 [Hp2 Hperm]. split; [done|]. rewrite Hperm, Epool. cbn [p1 pd_pool with_items pq_items]. rewrite Hl. cbn. by rewrite Permutation_middle.
Qed.

(** ** What is dropped *)

(** [b] spends an output of [a]. *)
Definition child (ws : list TxWrap) (a b : bytes) : Prop := exists w, w ∈ ws /\ hash w = Some b /\ a ∈ inputs w.

(** Every transaction spends outputs of lower ones: no hash is reached from itself. *)
Definition ranked (ws : list TxWrap) (rank : bytes -> nat) (N M : nat) : Prop :=
  (forall a b, child ws a b -> rank a < rank b) /\ forall w k, w ∈ ws -> hash w = Some k -> rank k <= N /\ length (Vout (tw_Tx w)) <= M.

Context (ws : list TxWrap) (rank : bytes -> nat) (N M : nat) (Hranked : ranked ws rank N M).
Context (o : gmap OutPoint Transaction) (Hspent : forall op tx, o !! op = Some tx -> exists w, w ∈ ws /\ tw_Tx w = tx /\ op_hash op ∈ inputs w).

(** The visits that removing a transaction can take. *)
Definition visits (tx : Transaction) : nat := match Types.CalcTxHash tx with Some k => S M ^ (N - rank k) | None => 1 end.
Abbreviation total l := (sum_list_with visits l).

(** The hashes that are gone come from [l]. *)
Definition gone (l : list Transaction) (h h' : gmap bytes TxWrap) : Prop := h' ⊆ h /\ forall k, is_Some (h !! k) -> h' !! k = None -> exists t a, t ∈ l /\ Types.CalcTxHash t = Some a /\ rtc (child ws) a k.

Lemma ewp_dropOuts k outs idx h s : ewp (dropOuts k outs idx o h) (fun r s' => gone r.1 h r.2 /\ length r.1 <= length outs /\ forall t, t ∈ r.1 -> exists w b, w ∈ ws /\ tw_Tx w = t /\ hash w = Some b /\ child ws k b) (fun _ _ => False) s.
Proof.
  revert idx h s. induction outs as [|x outs IH]; intros idx h s; cbn [dropOuts].
  - apply ewp_ret. cbn. split_and!; [split; [done|intros k' [w Hw] Hn; congruence]|lia|by intros t ?%not_elem_of_nil].
  - destruct (o !! _) as [tx|] eqn:Eo; [|eapply ewp_mono; [apply IH| |done]; intros r s' (H1 & H2 & H3); split_and!; [done|cbn; lia|done]].
    destruct (Hspent _ _ Eo) as (w & Hw & <- & Hin). apply ewp_bind, ewp_deref. intros b Hb. apply ewp_bind. eapply ewp_mono; [apply IH| |done]. intros [l h'] s' ([Hsub Hg] & Hlen & Hl). cbn [fst snd] in *. apply ewp_ret. cbn [fst snd].
    assert (child ws k b) as Hc by (by exists w). split_and!; [split|cbn; lia|].
    + etrans; [done|apply delete_subseteq].
    + intros k' Hk Hn. destruct (decide (k' = b)) as [->|Hne]; [exists (tw_Tx w), b; split_and!; [by left|done|done]|]. destruct (Hg k' ltac:(by rewrite lookup_delete_ne by done) Hn) as (t & a & Ht & Ha & Hr). exists t, a. split_and!; [by right|done|done].
    + intros t [->|Ht]%elem_of_cons; [by exists w, b|by apply Hl].
Qed.

Lemma children_total k l : (forall t, t ∈ l -> exists w b, w ∈ ws /\ tw_Tx w = t /\ hash w = Some b /\ child ws k b) -> length l <= M -> total l < S M ^ (N - rank k).
Proof.
  intros Hl Hm. destruct Hranked as [Hr Hb]. destruct l as [|t0 l0]; [cbn; apply Nat.neq_0_lt_0, Nat.pow_nonzero; lia|]. destruct (Hl t0 ltac:(by left)) as (w0 & b0 & Hw0 & _ & Hb0 & Hc0).
  assert (S (rank k) <= N) as HN by (apply Hr in Hc0; destruct (Hb _ _ Hw0 Hb0); lia). replace (N - rank k) with (S (N - S (rank k))) by lia. rewrite Nat.pow_succ_r'.
  assert (forall t, t ∈ t0 :: l0 -> visits t <= S M ^ (N - S (rank k))) as Hv. { intros t Ht. destruct (Hl t Ht) as (w & b & Hw & <- & Hwb & Hc). unfold visits. rewrite Hwb. apply Nat.pow_le_mono_r; [done|]. apply Hr in Hc. lia. }
  assert (total (t0 :: l0) <= length (t0 :: l0) * S M ^ (N - S (rank k))) as Ht. { clear -Hv. induction (t0 :: l0) as [|t l IH]; [done|]. cbn [sum_list_with length]. pose proof (Hv t ltac:(by left)). specialize (IH ltac:(intros; apply Hv; by right)). lia. }
  assert (0 < S M ^ (N - S (rank k))) by (apply Nat.neq_0_lt_0, Nat.pow_nonzero; lia). nia.
Qed.

Lemma ewp_dropLoop fuel todo h s : (forall t, t ∈ todo -> exists w, w ∈ ws /\ tw_Tx w = t) -> total todo <= fuel -> ewp (dropLoop fuel todo o h) (fun h' _ => gone todo h h') (fun _ _ => False) s.
Proof.
  revert todo h s. induction fuel as [|fuel IH]; intros [|t todo] h s Hin Hf; cbn [dropLoop]; try (by apply ewp_ret; split; [|intros k [w Hw] Hn; congruence]).
  - exfalso. cbn in Hf. assert (0 < visits t); [|lia]. unfold visits. destruct (Types.CalcTxHash t); [apply Nat.neq_0_lt_0, Nat.pow_nonzero; lia|lia].
  - apply ewp_bind, ewp_deref. intros k Hk. destruct (Hin t ltac:(by left)) as (w & Hw & Ht). apply ewp_bind. eapply ewp_mono; [apply ewp_dropOuts| |done]. intros [l h1] s1 ([Hs1 Hg1] & Hlen & Hl). cbn [fst snd] in *. eapply ewp_mono; [apply IH| |done].
    + intros t' [Ht'|Ht']%elem_of_app; [apply Hin; by right|]. destruct (Hl t' Ht') as (w' & _ & ? & ? & _). by exists w'.
    + rewrite sum_list_with_app. cbn [sum_list_with] in Hf. subst t. destruct (proj2 Hranked w k Hw Hk) as [_ Hm]. pose proof (children_total k l Hl ltac:(lia)). unfold visits at 1 in Hf. rewrite Hk in Hf. lia.
    + intros h2 s2 [Hs2 Hg2]. split; [by etrans|]. intros k' Hk' Hn. destruct (h1 !! k') as [w'|] eqn:E1.
      * destruct (Hg2 k' ltac:(by rewrite E1) Hn) as (t' & a & [Ht'|Ht']%elem_of_app & Ha & Hr); [exists t', a; split_and!; [by right|done|done]|]. destruct (Hl t' Ht') as (w2 & b & _ & <- & Hb & Hc). rewrite Hb in Ha. injection Ha as <-. exists t, k. split_and!; [by left|done|by eapply rtc_l].
      * destruct (Hg1 k' Hk' E1) as (t' & a & Ht' & Ha & Hr). destruct (Hl t' Ht') as (w2 & b & _ & <- & Hb & Hc). rewrite Hb in Ha. injection Ha as <-. exists t, k. split_and!; [by left|done|by eapply rtc_l].
Qed.

Context (tail : sdb).

(** What is gone comes from a contract transaction. *)
Definition lost (h h' : gmap bytes TxWrap) : Prop := h' ⊆ h /\ forall k, is_Some (h !! k) -> h' !! k = None -> exists w a, w ∈ ws /\ isContractTx tail (tw_Tx w) = true /\ hash w = Some a /\ rtc (child ws) a k.

Lemma lost_refl h : lost h h.
Proof. split; [done|]. intros k [w Hw] Hn. congruence. Qed.

Lemma lost_trans h1 h2 h3 : lost h1 h2 -> lost h2 h3 -> lost h1 h3.
Proof. intros [S1 L1] [S2 L2]. split; [by etrans|]. intros k Hk Hn. destruct (h2 !! k) eqn:E2; [apply L2; [by rewrite E2|done]|by apply L1]. Qed.

Definition named (h : gmap bytes TxWrap) : Prop := forall k w, h !! k = Some w -> hash w = Some k /\ w ∈ ws.

Lemma named_sub h h' : named h -> h' ⊆ h -> named h'.
Proof. intros Hn Hs k w Hw. apply Hn. by eapply lookup_weaken. Qed.

Lemma visits_bound w : w ∈ ws -> visits (tw_Tx w) <= S M ^ N.
Proof. intros Hw. unfold visits. destruct (hash w) as [k|]; [apply Nat.pow_le_mono_r; lia|]. assert (S M ^ N <> 0) by (apply Nat.pow_nonzero; lia). lia. Qed.

(** The transactions of one sender. *)
Definition origins (l : list VMTransaction) : Prop := forall t, t ∈ l -> exists w, w ∈ ws /\ isContractTx tail (tw_Tx w) = true /\ vt_originTx t = hash w.

Lemma ewp_nonceLoop fuel vmTxs nonce h s : S M ^ N <= fuel -> origins vmTxs -> named h -> ewp (nonceLoop fuel vmTxs o nonce h) (fun r _ => lost h r.2) (fun _ _ => False) s.
Proof.
  intros Hf. revert nonce h s. induction vmTxs as [|t vmTxs IH]; intros nonce h s Ho Hn; cbn [nonceLoop]; [apply ewp_ret, lost_refl|]. assert (origins vmTxs) as Ho' by (intros t' Ht'; apply Ho; by right).
  apply ewp_bind, ewp_deref. intros k Hk. destruct (Ho t ltac:(by left)) as (w0 & Hw0 & Hc0 & Ek). rewrite Hk in Ek. destruct (h !! k) as [w|] eqn:Ew; [|by apply IH]. destruct (Hn _ _ Ew) as [Hwk Hw].
  destruct (vt_nonce t =? u64 (nonce + 1))%Z; cbn [negb].
  - apply ewp_bind. eapply ewp_mono; [by apply IH| |done]. intros [l h'] s' Hl. by apply ewp_ret.
  - apply ewp_bind. assert (forall s1, ewp (h1 ← dropLoop fuel [tw_Tx w] o h; nonceLoop fuel vmTxs o nonce (delete k h1)) (fun r _ => lost h r.2) (fun (_ : PackErr) _ => False) s1) as Hrest.
    { intros s1. apply ewp_bind. eapply ewp_mono; [apply ewp_dropLoop|intros h1 s2 [Hs Hg]|done].
      - intros t' ->%list_elem_of_singleton. by exists w.
      - cbn. pose proof (visits_bound w Hw). lia.
      - assert (lost h (delete k h1)) as Hl.
        { split; [etrans; [apply delete_subseteq|done]|]. intros k' Hk' Hd. destruct (decide (k' = k)) as [->|Hne]; [by exists w0, k|]. rewrite lookup_delete_ne in Hd by done. destruct (Hg k' Hk' Hd) as (t' & a & ->%list_elem_of_singleton & Ha & Hr). rewrite Hwk in Ha. injection Ha as <-. by exists w0, k. }
        eapply ewp_mono; [apply IH; [done|by eapply named_sub, Hl]| |done]. intros r s3 Hr. by eapply lost_trans. }
    destruct (vt_nonce t <? u64 (nonce + 1))%Z; [apply ewp_modify, Hrest|apply ewp_ret, Hrest].
Qed.

Lemma ewp_addressLoop fuel st l sorted h s : S M ^ N <= fuel -> (forall from v, (from, v) ∈ l -> heap_ok vt_nonce v /\ origins (pq_items v)) -> named h ->
  ewp (addressLoop fuel st l o sorted h) (fun r _ => lost h r.2) (fun _ _ => False) s.
Proof.
  intros Hf. revert sorted h s. induction l as [|[from v] l IH]; intros sorted h s Hl Hn; cbn [addressLoop]; [apply ewp_ret, lost_refl|]. destruct (Hl from v ltac:(by left)) as [Hv Ho]. destruct (drain_ok vt_nonce v Hv) as (popped & -> & Hp & _).
  apply ewp_bind, ewp_ret, ewp_bind. eapply ewp_mono; [apply ewp_nonceLoop; [done| |done]| |done]; [intros t Ht; apply Ho; by rewrite <-Hp|]. intros [vmtxs h1] s1 Hl1. cbn [fst snd] in *. eapply ewp_mono; [apply IH| |done].
  - intros f' v' Hin. apply (Hl f'). by right.
  - by eapply named_sub, Hl1.
  - intros r s2 Hr. by eapply lost_trans.
Qed.

End Sorted.

(** ** The graph *)

Section Graph.
Context {D : StateDB} {X : ChainDB D} `{C : Crypto} `{TC : TxCodec} {VO : VisitOrder}.

Abbreviation nodes d := (dom (d_nodes d)).

Lemma addNode_ok d k w : dag_ok d -> dag_ok (addNode d k w) /\ (forall a b, edge (addNode d k w) a b <-> edge d a b) /\ nodes (addNode d k w) = {[k]} ∪ nodes d.
Proof.
  intros Hd. unfold addNode. destruct (AddNode d k w) as [d'|e] eqn:E; [by eapply AddNode_ok|]. split_and!; [done|done|]. unfold AddNode in E. destruct (d_nodes d !! k) eqn:Ek; [|done]. assert (k ∈ nodes d) by (by apply elem_of_dom). set_solver.
Qed.

Lemma addEdge_ok d f t : dag_ok d -> f ∈ nodes d -> t ∈ nodes d -> dag_ok (addEdge d f t) /\ (forall a b, edge (addEdge d f t) a b <-> edge d a b \/ (a = f /\ b = t)) /\ nodes (addEdge d f t) = nodes d.
Proof.
  intros Hd [nf Hf]%elem_of_dom [nt Ht]%elem_of_dom. unfold addEdge. destruct (AddEdge d f t) as [d'|e] eqn:E; [by eapply AddEdge_ok|]. split_and!; [done| |done]. unfold AddEdge in E. rewrite Hf, Ht in E. case_bool_decide as Hin; [|done].
  intros a b. split; [by left|]. intros [|[-> ->]]; [done|]. by exists nf.
Qed.

(** The graph grows within the transactions that are left. *)
Record grown (h : gmap bytes TxWrap) (d d' : Dag bytes) : Prop := {
  gr_ok : dag_ok d';
  gr_edge : forall a b, edge d a b -> edge d' a b;
  gr_nodes : nodes d ⊆ nodes d';
  gr_known : nodes d' ⊆ dom h
}.

Lemma grown_trans h d1 d2 d3 : grown h d1 d2 -> grown h d2 d3 -> grown h d1 d3.
Proof. intros [] []. split; [done|auto|set_solver|done]. Qed.

Lemma grown_node h d k w : dag_ok d -> nodes d ⊆ dom h -> k ∈ dom h -> grown h d (addNode d k w) /\ k ∈ nodes (addNode d k w).
Proof. intros Hd Hn Hk. destruct (addNode_ok d k w Hd) as (H1 & H2 & H3). split; [split; [done|intros a b Hab; by apply H2|rewrite H3; set_solver|rewrite H3; set_solver]|rewrite H3; set_solver]. Qed.

Lemma grown_edge h d f t : dag_ok d -> nodes d ⊆ dom h -> f ∈ nodes d -> t ∈ nodes d -> grown h d (addEdge d f t) /\ edge (addEdge d f t) f t.
Proof. intros Hd Hn Hf Ht. destruct (addEdge_ok d f t Hd Hf Ht) as (H1 & H2 & H3). split; [split; [done|intros a b Hab; apply H2; by left|by rewrite H3|by rewrite H3]|apply H2; by right]. Qed.

Lemma grown_refl h d : dag_ok d -> nodes d ⊆ dom h -> grown h d d.
Proof. by split. Qed.

Lemma ewp_handleVMTx h d parent l s : dag_ok d -> nodes d ⊆ dom h -> (forall p, parent = Some p -> p ∈ nodes d) -> ewp (handleVMTx d parent l h) (fun d' _ => grown h d d') (fun _ _ => False) s.
Proof.
  revert d parent s. induction l as [|t l IH]; intros d parent s Hd Hn Hp; cbn [handleVMTx]; [by apply ewp_ret, grown_refl|]. apply ewp_bind, ewp_deref. intros k _. apply ewp_bind, ewp_deref. intros w Hw. assert (k ∈ dom h) as Hk by (by apply elem_of_dom).
  destruct (grown_node h d k (tw_AddedTimestamp w) Hd Hn Hk) as [G1 Hin]. set (d1 := addNode _ _ _) in *. assert (grown h d1 (match parent with Some p => addEdge d1 p k | None => d1 end)) as G2.
  { destruct parent as [p|]; [|apply grown_refl; apply G1]. apply grown_edge; [apply G1|apply G1| |done]. apply (gr_nodes _ _ _ G1). by apply Hp. }
  eapply ewp_mono; [apply IH| |done]; [apply G2|apply G2|intros p [= <-]; by apply (gr_nodes _ _ _ G2)|]. intros d' s' G3. eapply grown_trans; [done|]. by eapply grown_trans.
Qed.

Lemma inputEdges_ok h k ins d : dag_ok d -> nodes d ⊆ dom h -> k ∈ nodes d -> let d' := foldl (inputEdge k h) d ins in
  grown h d d' /\ forall i, i ∈ ins -> is_Some (h !! op_hash (PrevOutPoint i)) -> edge d' (op_hash (PrevOutPoint i)) k.
Proof.
  revert d. induction ins as [|i ins IH]; intros d Hd Hn Hk; cbn [foldl]; [split; [by apply grown_refl|by intros i ?%not_elem_of_nil]|].
  assert (grown h d (inputEdge k h d i) /\ (is_Some (h !! op_hash (PrevOutPoint i)) -> edge (inputEdge k h d i) (op_hash (PrevOutPoint i)) k)) as [G1 E1].
  { unfold inputEdge. destruct (h !! op_hash (PrevOutPoint i)) as [w|] eqn:Ew; [|split; [by apply grown_refl|by intros []]]. destruct (grown_node h d (op_hash (PrevOutPoint i)) (tw_AddedTimestamp w) Hd Hn ltac:(by apply elem_of_dom)) as [G Hin].
    destruct (grown_edge h (addNode d (op_hash (PrevOutPoint i)) (tw_AddedTimestamp w)) (op_hash (PrevOutPoint i)) k) as [G' He]; [apply G|apply G|done|by apply (gr_nodes _ _ _ G)|]. split; [by eapply grown_trans|done]. }
  destruct (IH (inputEdge k h d i)) as [G2 E2]; [apply G1|apply G1|by apply (gr_nodes _ _ _ G1)|]. split; [by eapply grown_trans|]. intros j [->|Hj]%elem_of_cons Hs; [apply (gr_edge _ _ _ G2); auto|by apply E2].
Qed.

(** A transaction that is left has its node and an edge from every transaction it spends. *)
Definition wired (h : gmap bytes TxWrap) (d : Dag bytes) (w : TxWrap) : Prop := forall k, Types.CalcTxHash (tw_Tx w) = Some k -> is_Some (h !! k) ->
  k ∈ nodes d /\ forall a, a ∈ inputs w -> is_Some (h !! a) -> edge d a k.

Lemma wired_grown h d d' w : grown h d d' -> wired h d w -> wired h d' w.
Proof. intros G H k Hk Hs. destruct (H k Hk Hs) as [H1 H2]. split; [by apply (gr_nodes _ _ _ G)|]. intros a Ha Hh. apply (gr_edge _ _ _ G). auto. Qed.

Lemma ewp_graphLoop tail pool h addr sorted d s : dag_ok d -> nodes d ⊆ dom h -> ewp (graphLoop tail pool h addr sorted d) (fun d' _ => grown h d d' /\ Forall (wired h d') pool) (fun _ _ => False) s.
Proof.
  revert sorted d s. induction pool as [|w pool IH]; intros sorted d s Hd Hn; cbn [graphLoop]; [apply ewp_ret; split; [by apply grown_refl|constructor]|]. apply ewp_bind, ewp_deref. intros k Hk. destruct (h !! k) as [w'|] eqn:Ew.
  - destruct (grown_node h d k (tw_AddedTimestamp w) Hd Hn ltac:(by apply elem_of_dom)) as [G1 Hin]. set (d1 := addNode _ _ _) in *. apply ewp_bind.
    assert (ewp (if isContractTx tail (tw_Tx w) then d2 ← handleVMTx d1 None (default [] (sorted !! default Types.ZeroAddressHash (addr !! k))) h; mret (d2, delete (default Types.ZeroAddressHash (addr !! k)) sorted) else mret (d1, sorted))
      (fun r _ => grown h d1 r.1) (fun (_ : PackErr) _ => False) s) as Hc.
    { destruct (isContractTx tail (tw_Tx w)); [|apply ewp_ret, grown_refl; apply G1]. apply ewp_bind. eapply ewp_mono; [apply ewp_handleVMTx; [apply G1|apply G1|done]| |done]. intros d2 s2 G2. by apply ewp_ret. }
    eapply ewp_mono; [exact Hc| |done]. intros [d2 sorted'] s2 G2. cbn [fst] in G2. assert (k ∈ nodes d2) as Hk2 by (by apply (gr_nodes _ _ _ G2)).
    destruct (inputEdges_ok h k (Vin (tw_Tx w)) d2 ltac:(apply G2) ltac:(apply G2) Hk2) as [G3 E3]. eapply ewp_mono; [apply IH; [apply G3|apply G3]| |done]. intros d' s' [G4 Hw]. split; [eapply grown_trans; [exact G1|]; eapply grown_trans; [exact G2|]; by eapply grown_trans|].
    constructor; [|done]. eapply wired_grown; [exact G4|]. intros k' Hk' Hs. rewrite Hk in Hk'. injection Hk' as <-. split; [by apply (gr_nodes _ _ _ G3)|]. unfold inputs. intros a (i & -> & Hi)%list_elem_of_fmap Ha. by apply E3.
  - eapply ewp_mono; [by apply IH| |done]. intros d' s' [G Hw]. split; [done|]. constructor; [|done]. intros k' Hk' [x Hx]. congruence.
Qed.

(** The transactions in their order: each once, none before one it spends; what is left out comes
    from a contract transaction. *)
Record sorted_ok (tail : sdb) (ws l : list TxWrap) : Prop := {
  so_from : forall w, w ∈ l -> w ∈ ws;
  so_once : NoDup ((fun w => Types.CalcTxHash (tw_Tx w)) <$> l);
  so_after : forall i j w w' k, l !! i = Some w -> l !! j = Some w' -> Types.CalcTxHash (tw_Tx w') = Some k -> k ∈ inputs w -> j < i;
  so_rest : forall w k, w ∈ ws -> Types.CalcTxHash (tw_Tx w) = Some k -> (exists w', w' ∈ l /\ Types.CalcTxHash (tw_Tx w') = Some k) \/
    exists c a, c ∈ ws /\ isContractTx tail (tw_Tx c) = true /\ Types.CalcTxHash (tw_Tx c) = Some a /\ rtc (child ws) a k
}.

Lemma sorted_list tail ws h0 h d l : named ws h0 -> (forall w, w ∈ ws -> exists k, Types.CalcTxHash (tw_Tx w) = Some k /\ is_Some (h0 !! k)) -> lost ws tail h0 h -> dag_ok d -> nodes d ⊆ dom h -> Forall (wired h d) ws ->
  NoDup l -> (forall k, k ∈ l <-> k ∈ nodes d) -> topological d l -> exists L, map (fun k => h !! k) l = Some <$> L /\ sorted_ok tail ws L.
Proof.
  intros Hn0 Hall Hlost Hd Hdom Hw Hnd Hl Ht. pose proof (named_sub ws _ _ Hn0 (proj1 Hlost)) as Hn. rewrite Forall_forall in Hw.
  assert (exists L, map (fun k => h !! k) l = Some <$> L /\ Forall2 (fun k w => h !! k = Some w) l L) as (L & EL & HL).
  { assert (Forall (fun k => is_Some (h !! k)) l) as Hf by (apply Forall_forall; intros k Hk%Hl%Hdom; by apply elem_of_dom). clear -Hf. induction Hf as [|k l [w Hw] _ (L & E & HL)]; [by exists []|]. exists (w :: L). cbn. rewrite Hw, E. split; [done|by constructor]. }
  assert (forall i w, L !! i = Some w -> exists k, l !! i = Some k /\ h !! k = Some w /\ Types.CalcTxHash (tw_Tx w) = Some k /\ w ∈ ws) as Hi.
  { intros i w Hw'. destruct (Forall2_lookup_r _ _ _ _ _ HL Hw') as (k & Hk & Hh). exists k. split_and!; [done..| |]; by apply (Hn k w). }
  exists L. split; [done|]. split.
  - intros w (i & Hx)%list_elem_of_lookup. destruct (Hi _ _ Hx) as (k & _ & _ & _ & ?). done.
  - apply NoDup_fmap_2_strong; [|]. 2: { apply NoDup_alt. intros i j w H1 H2. destruct (Hi _ _ H1) as (k & Hk & _ & Hkw & _). destruct (Hi _ _ H2) as (k' & Hk' & _ & Hkw' & _). rewrite Hkw in Hkw'. injection Hkw' as <-. by eapply NoDup_lookup. }
    intros w w' (i & H1)%list_elem_of_lookup (j & H2)%list_elem_of_lookup E. destruct (Hi _ _ H1) as (k & Hk & Hh & Hkw & _). destruct (Hi _ _ H2) as (k' & Hk' & Hh' & Hkw' & _). congruence.
  - intros i j w w' k H1 H2 Hk Hin. destruct (Hi _ _ H1) as (b & Hb & Hhb & Hwb & Hws). destruct (Hi _ _ H2) as (k' & Hk' & Hh' & Hwk' & _). rewrite Hk in Hwk'. injection Hwk' as <-.
    destruct (Hw w Hws b Hwb ltac:(by rewrite Hhb)) as [_ He]. destruct (Ht i b k Hb (He k Hin ltac:(by rewrite Hh'))) as (j' & Hj' & Hjk). by rewrite (NoDup_lookup _ _ _ _ Hnd Hk' Hjk).
  - intros w k Hws Hk. destruct (Hall w Hws) as (k' & Hk' & Hs). rewrite Hk in Hk'. injection Hk' as <-. destruct (h !! k) as [w'|] eqn:Eh; [left|right; by apply Hlost].
    destruct (Hw w Hws k Hk ltac:(by rewrite Eh)) as [Hkn _]. apply Hl in Hkn as (i & Hik)%list_elem_of_lookup. destruct (Forall2_lookup_l _ _ _ _ _ HL Hik) as (w2 & Hw2 & Hh2). exists w2. split; [by eapply list_elem_of_lookup_2|]. by apply (Hn k w2).
Qed.

(** The order in which a producer packs transactions: sorting ends; it lists transactions of the
    pool with verified scripts, each once and never before one whose output it spends; only
    contract transactions and what spends their outputs can be left out.  The hypothesis is that
    no transaction depends on itself through hashes. *)
Theorem pending_sorted fuel tail st pending rank N M s r s' : ranked (packable tail pending) rank N M -> S M ^ N <= fuel -> sortPendingTxs fuel tail st pending s = (r, s') ->
  match r with
  | EOk L => exists l, L = Some <$> l /\ sorted_ok tail (packable tail pending) l
  | EErr _ | EPanic => True
  | EFuel => False
  end.
Proof.
  intros Hr Hf E. assert (ewp (sortPendingTxs fuel tail st pending) (fun L _ => exists l, L = Some <$> l /\ sorted_ok tail (packable tail pending) l) (fun _ _ => True) s) as H; [|unfold ewpf in H; rewrite E in H; by destruct r].
  unfold sortPendingTxs. destruct (new_queue tw_AddedTimestamp lessFunc) as (q & -> & Hq & Hqi); [done|]. apply ewp_bind, ewp_ret, ewp_bind. destruct st as [st|]; [apply ewp_ret|by apply ewp_fail]. apply ewp_bind.
  eapply ewp_mono; [apply ewp_collectTxs|intros p s1 [Hp Hperm]|done]; [split; cbn [pd_pool pd_hashToTx pd_outPointToTx pd_addressToTxs]; [done|..]; intros *; rewrite ?lookup_empty, ?Hqi; try done; by intros ?%not_elem_of_nil|].
  cbn [pd_pool] in Hperm. rewrite Hqi, app_nil_r in Hperm. assert (forall w, w ∈ pq_items (pd_pool p) <-> w ∈ packable tail pending) as Hws by (intros w; by rewrite Hperm).
  assert (named (packable tail pending) (pd_hashToTx p)) as Hnamed by (intros k w Hw; rewrite <-Hws; by apply (co_hash _ _ Hp)). apply ewp_bind. eapply ewp_mono; [apply (ewp_addressLoop (packable tail pending) rank N M Hr _) with (tail := tail)|intros [sorted h] s2 Hlost|done].
  { intros op tx Hop. destruct (co_spent _ _ Hp _ _ Hop) as (w & Hw & ? & ?). exists w. by rewrite <-Hws. }
  { done. }
  { intros from v Hv%visit_lookup. destruct (co_nonces _ _ Hp _ _ Hv) as [H1 H2]. split; [done|]. intros t Ht. destruct (H2 t Ht) as (w & Hw & ? & ?). exists w. by rewrite <-Hws. }
  { done. }
  cbn [fst snd] in *. destruct (drain_ok tw_AddedTimestamp _ (co_pool _ _ Hp)) as (popped & -> & Hpp & _). apply ewp_bind, ewp_ret, ewp_bind. eapply ewp_mono; [apply ewp_graphLoop; [apply NewDag_ok|cbn; rewrite dom_empty_L; apply empty_subseteq]|intros d s3 [G Hwired]|done].
  pose proof (gr_ok _ _ _ G) as Hd. destruct (IsCirclular_ok d Hd) as (b & Eb & _). rewrite Eb. apply ewp_bind, ewp_ret. destruct b; [by apply ewp_fail|]. destruct (TopoSort_ok d Hd Eb) as (l & d' & -> & Hnd & Hl & Htopo). apply ewp_bind, ewp_ret, ewp_ret.
  eapply sorted_list; [exact Hnamed| |exact Hlost|exact Hd|apply G| |done|done|done].
  - intros w Hw%Hws. by apply (co_all _ _ Hp).
  - apply Forall_forall. intros w Hw. rewrite Forall_forall in Hwired. apply Hwired. by rewrite Hpp, Hws.
Qed.

End Graph.

(** * Orders of small pools *)

Module PackDemo.
Import EvmDemo RefDB TxPoolDemo.
#[local] Existing Instance ToyCrypto.toy.
#[local] Existing Instance ProcessorDemo.forwards.
#[local] Existing Instance ProcessorDemo.RefChainDB.
#[local] Existing Instance TxPoolDemo.names.

Definition tail : ref := mkRef (state adder) [] 0.
Definition pend (tx : Transaction) (t : Z) : TxWrap := mkTxWrap tx t 11 true.

(** The names in the order of packing. *)
Definition order (fuel : nat) (ws : list TxWrap) : option (list (option bytes)) :=
  match (sortPendingTxs fuel tail (Some tail) ws []).1 with EOk l => Some (map (fun w => w ≫= fun w => Types.CalcTxHash (tw_Tx w)) l) | _ => None end.

(** The child is older than its parent. *)
Definition family : list TxWrap := [pend child 1; pend taker 2; pend parent 3].

Example child_after_parent : order 10 family = Some [Some (name x11); Some (name x0a); Some (name x0c)].
Proof. vm_compute. reflexivity. Qed.

(** A contract call of [who] that also pays to the lock. *)
Definition callBy (who : bytes) (nonce : Z) (b : byte) (ops : list OutPoint) : Transaction :=
  let sc := match MakeContractScriptPubkey (Some who) (Some contract) 100000 nonce 0 with Ok s => s | Err _ => [] end in
  mkTx UnknownTx 1 ((fun op => mkTxIn op [x01] 0) <$> ops) [mkTxOut 1000 sc; mkTxOut 1000 lock; mkTxOut 1000 lock] (Some (mkTxData 0 [b])) 0 0.
Definition bob : bytes := replicate 20 x0b.

(** Bob's second call spends an output of a call of Alice with a gap before its nonce: it leaves the
    map of transactions, but not the list of Bob's calls, and the producer dereferences nil. *)
Example producer_crash :
  (sortPendingTxs 10 tail (Some tail) [pend (callBy bob 1 x01 [coin 0]) 1; pend (callBy alice 5 x02 [coin 1]) 2; pend (callBy bob 2 x03 [mkOutPoint (name x02) 1]) 3] []).1 = EPanic.
Proof. vm_compute. reflexivity. Qed.

(** The sender is recorded for the first of its calls only.  When that one is dropped, the others
    are not ordered by their nonces. *)
Example nonces_out_of_order :
  order 10 [pend (callBy alice 9 x01 [coin 0]) 1; pend (callBy alice 2 x02 [coin 1]) 2; pend (callBy alice 1 x03 [coin 2]) 3] = Some [Some (name x02); Some (name x03)].
Proof. vm_compute. reflexivity. Qed.

(** Each of these transactions spends two outputs of the one before; dropping them visits the
    [n]-th one 2 ^ n times. *)
Definition link (b p : byte) (i : Z) : Transaction := mkTx UnknownTx 1 [mkTxIn (mkOutPoint (name p) i) [x01] 0; mkTxIn (mkOutPoint (name p) (i + 1)) [x01] 0] [mkTxOut 900 lock; mkTxOut 900 lock] (Some (mkTxData 0 [b])) 0 0.
Definition links : list TxWrap := [pend (callBy alice 9 x01 [coin 0]) 1; pend (link x02 x01 1) 2; pend (link x03 x02 0) 3; pend (link x04 x03 0) 4; pend (link x05 x04 0) 5; pend (link x06 x05 0) 6].

Example dropping_is_exponential : (sortPendingTxs 62 tail (Some tail) links []).1 = EFuel /\ (sortPendingTxs 63 tail (Some tail) links []).1 = EOk [].
Proof. vm_compute. done. Qed.

(** ** The theorem on a small pool *)

Lemma ranked_check ws rank N M : forallb (fun w => match Types.CalcTxHash (tw_Tx w) with
    Some k => forallb (fun a => rank a <? rank k) (inputs w) && (rank k <=? N) && (length (Vout (tw_Tx w)) <=? M) | None => true end) ws = true -> ranked ws rank N M.
Proof.
  intros H. rewrite forallb_forall in H. split.
  - intros a b (w & Hw & Hb & Ha). apply list_elem_of_In, H in Hw. rewrite Hb in Hw. apply andb_true_iff in Hw as [[Hw _]%andb_true_iff _]. rewrite forallb_forall in Hw. apply Nat.ltb_lt, Hw. by apply list_elem_of_In.
  - intros w k Hw Hk. apply list_elem_of_In, H in Hw. rewrite Hk in Hw. apply andb_true_iff in Hw as [[_ H1]%andb_true_iff H2]. split; by apply Nat.leb_le.
Qed.

Definition heights (k : bytes) : nat := if bool_decide (k = name x0c) then 2 else if bool_decide (k = name x0a) || bool_decide (k = name x11) then 1 else 0.
Abbreviation sorting := (sortPendingTxs (D := RefDB) 10 tail (Some tail) family []).

Lemma pending_sorted_witness : exists l, sorted_ok tail (packable tail family) l /\ length l = 3.
Proof.
  assert (sorting = (sorting.1, sorting.2)) as E by apply surjective_pairing.
  pose proof (pending_sorted (D := RefDB) 10 tail (Some tail) family heights 2 1 [] sorting.1 sorting.2 ltac:(apply ranked_check; vm_compute; reflexivity) ltac:(vm_compute; lia) E) as H.
  assert (match sorting.1 with EOk l => length l =? 3 | _ => false end = true) as Hl by (vm_compute; reflexivity). destruct sorting.1 as [L| | |]; [|discriminate Hl..]. destruct H as (l & -> & Hok).
  exists l. split; [exact Hok|]. apply Nat.eqb_eq in Hl. by rewrite length_fmap in Hl.
Defined.

End PackDemo.
