(* ===== verification/Records.v ===== *)
(** * Records: what a block leaves in the database (src/core/chain/blockchain.go)

    Payments to a split address are divided among its parts; the index of split addresses, the
    copies of divided transactions, the index of transactions and the block itself are written in
    a batch when a block joins the main chain and removed when it leaves.  Reads see the database,
    not the batch.  The filter of split addresses is kept in memory only. *)

From S2P Require Import Prelude Effects Opcode Crypto Bytes Bloom Types Script ScriptKinds TxLogic Compress Keys Receipt Blocks Chain UtxoSet UtxoDb.
Import Script Kinds DbKey Blocks.

Record splitAddrInfo := mkSplitInfo { si_addrs : list bytes; si_weights : list Z }.

Inductive RecErr :=
  | ErrInvalidSplitInfo | ErrInvalidByteLength | ErrRecAddress | ErrRecTxHash | ErrRecMarshal | ErrRecScript (e : ScriptErr)
  | ErrTxIndexNotFound | ErrTxIndexBytes (e : IOErr) | ErrRecBlockIsNil | ErrRecUnmarshal | ErrSplitTxNotFound | ErrTxHashExpected.

Inductive TxKind := NormalTx | InternalTx | SplitTxKind.

(** The database, the filter and the batch that is being filled. *)
Record Store := mkStore { st_db : Db; st_filter : filter_t; st_batch : list (bytes * option bytes) }.

(** The generated decoder of a transaction. *)
Class TxDecoder := { pb_unmarshal : bytes -> option PbTransaction }.

Class TxDecoderLaws (TC : TxCodec) (TD : TxDecoder) : Prop := {
  pb_tx_roundtrip m d : pb_marshal m = Some d -> pb_unmarshal d = Some m
}.

Module Records.

Abbreviation RM := (EM Store RecErr).

Definition Put (k v : bytes) : RM unit := e_modify (fun s => mkStore (st_db s) (st_filter s) (st_batch s ++ [(k, Some v)])).
Definition Del (k : bytes) : RM unit := e_modify (fun s => mkStore (st_db s) (st_filter s) (st_batch s ++ [(k, None)])).

Definition written (d : Db) (op : bytes * option bytes) : Db := match op.2 with Some v => <[op.1 := v]> d | None => delete op.1 d end.
Definition batch_Write : RM unit := e_modify (fun s => mkStore (foldl written (st_db s) (st_batch s)) (st_filter s) []).

(** [db.Put] on the database itself. *)
Definition db_Put (k v : bytes) : RM unit := e_modify (fun s => mkStore (<[k := v]> (st_db s)) (st_filter s) (st_batch s)).

Definition r_go {A} (x : go A) : RM A := match x with Returns a => mret a | Panics => e_panic end.
Definition r_result {A E} (f : E -> RecErr) (x : result E A) : RM A := match x with Ok a => mret a | Err e => e_fail (f e) end.

(** ** Split addresses *)

Definition Marshall (s : splitAddrInfo) : result RecErr bytes :=
  if negb (length (si_addrs s) =? length (si_weights s)) then Err ErrInvalidSplitInfo
  else Ok (concat (zip_with (fun a w => a ++ le_bytes 4 w) (si_addrs s) (si_weights s))).

(** The first [count] pairs. *)
Fixpoint unmarshallLoop (count : nat) (data : bytes) (addrs : list bytes) (weights : list Z) : result RecErr splitAddrInfo :=
  match count with
  | O => Ok (mkSplitInfo addrs weights)
  | S count =>
      match Types.NewAddressPubKeyHash (take 20 data) with
      | Err _ => Err ErrRecAddress
      | Ok addr => unmarshallLoop count (drop 24 data) (addrs ++ [addr]) (weights ++ [le_value (take 4 (drop 20 data))])
      end
  end.

Definition Unmarshall (data : bytes) : result RecErr splitAddrInfo :=
  if negb (length data mod 24 =? 0) then Err ErrInvalidByteLength else unmarshallLoop (length data / 24) data [] [].

(** The parts of a split address; [None] when the address is not one, or its record is damaged. *)
Definition findSplitAddr (hash : bytes) : RM (option splitAddrInfo) :=
  filter ← e_gets st_filter;
  matched ← r_go (Bloom.Matches filter hash);
  if negb matched then mret None
  else
    data ← e_gets (fun s => st_db s !! SplitAddrKey hash);
    mret (data ≫= (fun d => match Unmarshall d with Ok info => Some info | Err _ => None end)).

(** The shares of the parts left, [i] of [n] on; the last part gets what the others leave. *)
Fixpoint splitShares (split : TxOut -> RM (list TxOut)) (value totalWeight : Z) (n i : nat) (addrs : list bytes) (weights : list Z) (totalValue : Z) : RM (list TxOut) :=
  match addrs with
  | [] => mret []
  | addr :: addrs =>
      weight ← e_deref (weights !! i);
      if (totalWeight =? 0)%Z then e_panic
      else
        let share := (u64 (value * weight) / totalWeight)%Z in
        let '(share, totalValue) := if i =? n - 1 then (u64 (value - totalValue), totalValue) else (share, u64 (totalValue + share)) in
        childTxOuts ← split (mkTxOut share (PayToPubKeyHashScript addr));
        rest ← splitShares split value totalWeight n (S i) addrs weights totalValue;
        mret (childTxOuts ++ rest)
  end.

Fixpoint splitTxOutput (fuel : nat) (txOut : TxOut) : RM (list TxOut) :=
  match fuel with
  | O => e_fuel
  | S fuel =>
      if negb (IsPayToPubKeyHash (ScriptPubKey txOut)) then mret [txOut]
      else
        match ExtractAddress (ScriptPubKey txOut) with
        | Err _ => mret [txOut]
        | Ok addr =>
            hash ← e_deref (Types.address_Hash160 addr);
            info ← findSplitAddr hash;
            match info with
            | None => mret [txOut]
            | Some sai =>
                let n := length (si_addrs sai) in
                let totalWeight := foldl (fun t w => u64 (t + w)) 0%Z (take n (si_weights sai)) in
                splitShares (splitTxOutput fuel) (Value txOut) totalWeight n 0 (si_addrs sai) (si_weights sai) 0
            end
        end
  end.

Fixpoint splitOutputs (fuel : nat) (outs : list TxOut) (vout : list TxOut) (isSplitTx : bool) : RM (list TxOut * bool) :=
  match outs with
  | [] => mret (vout, isSplitTx)
  | txOut :: outs =>
      txOuts ← splitTxOutput fuel txOut;
      splitOutputs fuel outs (vout ++ txOuts) (isSplitTx || (1 <? length txOuts))
  end.

Definition splitTxOutputs (fuel : nat) (tx : Transaction) : RM (Transaction * bool) :=
  '(vout, isSplitTx) ← splitOutputs fuel (Vout tx) [] false;
  mret (if isSplitTx : bool then mkTx SplitTx (Version tx) (Vin tx) vout (Data tx) (Magic tx) (LockTime tx) else tx, isSplitTx).

Section Hash.
Context `{C : Crypto} `{TC : TxCodec} {VO : VisitOrder}.

(** The transactions with their outputs divided, and those that changed under their old hashes. *)
Fixpoint splitTxsLoop (fuel : nat) (txs : list Transaction) (splitTxs : gmap bytes Transaction) : RM (list Transaction * gmap bytes Transaction) :=
  match txs with
  | [] => mret ([], splitTxs)
  | tx :: txs =>
      let hash := Types.CalcTxHash tx in
      '(tx, isSplit) ← splitTxOutputs fuel tx;
      splitTxs ← (if isSplit : bool then h ← e_deref hash; mret (<[h := tx]> splitTxs) else mret splitTxs);
      '(rest, splitTxs) ← splitTxsLoop fuel txs splitTxs;
      mret (tx :: rest, splitTxs)
  end.

Definition SplitBlockOutputs (fuel : nat) (block : Block) : RM (Block * gmap bytes Transaction) :=
  '(txs, splitTxs) ← splitTxsLoop fuel (b_Txs block) ∅;
  mret (mkBlock (b_Hash block) (b_Header block) txs (b_InternalTxs block) (b_Signature block) (b_Irreversible block), splitTxs).

Definition MakeSplitAddress (txHash : bytes) (idx : Z) (addrs : list bytes) (weights : list Z) : bytes :=
  Crypto.Hash160 (txHash ++ le_bytes 4 idx ++ Crypto.Hash160 (splitPairs [] addrs weights)).

(** The outputs of a transaction from index [i] on. *)
Fixpoint splitAddrOuts (write : bytes -> splitAddrInfo -> RM unit) (txHash : option bytes) (outs : list TxOut) (i : nat) : RM unit :=
  match outs with
  | [] => mret tt
  | vout :: outs =>
      _ ← (if IsSplitAddrScript (ScriptPubKey vout) then
             r ← r_go (ParseSplitAddrScript (ScriptPubKey vout));
             '(addrs, weights) ← r_result ErrRecScript r;
             h ← e_deref txHash;
             write (MakeSplitAddress h (u32 (Z.of_nat i)) addrs weights) (mkSplitInfo addrs weights)
           else mret tt);
      splitAddrOuts write txHash outs (S i)
  end.

Fixpoint splitAddrTxs (write : bytes -> splitAddrInfo -> RM unit) (txs : list Transaction) : RM unit :=
  match txs with
  | [] => mret tt
  | tx :: txs => _ ← splitAddrOuts write (Types.CalcTxHash tx) (Vout tx) 0; splitAddrTxs write txs
  end.

Definition addSplitAddr (addr : bytes) (sai : splitAddrInfo) : RM unit :=
  dataBytes ← r_result id (Marshall sai);
  _ ← Put (SplitAddrKey addr) dataBytes;
  filter ← e_gets st_filter;
  filter ← r_go (Bloom.Add filter addr);
  e_modify (fun s => mkStore (st_db s) filter (st_batch s)).

Definition WriteSplitAddrIndex (block : Block) : RM unit := splitAddrTxs addSplitAddr (b_Txs block).
Definition DeleteSplitAddrIndex (block : Block) : RM unit := splitAddrTxs (fun addr _ => Del (SplitAddrKey addr)) (b_Txs block).

(** ** Transactions *)

Definition MarshalTxIndex (height index : Z) : bytes := Bytes.WriteUint32 height ++ Bytes.WriteUint32 index.
Definition UnmarshalTxIndex (data : bytes) : result IOErr (Z * Z) := ((height ← Bytes.ReadUint32; index ← Bytes.ReadUint32; mret (height, index)) data).1.

Definition allTxs (block : Block) (splitTxs : gmap bytes Transaction) : list Transaction := b_Txs block ++ b_InternalTxs block ++ (visit splitTxs).*2.

Definition r_hash (tx : Transaction) : RM bytes := match Types.CalcTxHash tx with Some h => mret h | None => e_fail ErrRecTxHash end.

Fixpoint writeTxIndexLoop (height : Z) (idx : nat) (txs : list Transaction) : RM unit :=
  match txs with
  | [] => mret tt
  | tx :: txs =>
      txHash ← r_hash tx;
      _ ← Put (TxIndexKey txHash) (MarshalTxIndex height (u32 (Z.of_nat idx)));
      writeTxIndexLoop height (S idx) txs
  end.

Definition WriteTxIndex (block : Block) (splitTxs : gmap bytes Transaction) : RM unit := writeTxIndexLoop (h_Height (b_Header block)) 0 (allTxs block splitTxs).

Fixpoint delTxIndexLoop (txs : list Transaction) : RM unit :=
  match txs with
  | [] => mret tt
  | tx :: txs => txHash ← r_hash tx; _ ← Del (TxIndexKey txHash); delTxIndexLoop txs
  end.

Definition DelTxIndex (block : Block) (splitTxs : gmap bytes Transaction) : RM unit := delTxIndexLoop (allTxs block splitTxs).

(** A divided transaction is stored under its hash before and its hash after. *)
Fixpoint storeSplitLoop (txs : list (bytes * Transaction)) : RM unit :=
  match txs with
  | [] => mret tt
  | (hash, tx) :: txs =>
      txHash ← r_hash tx;
      txBin ← match Types.tx_marshal tx with Some b => mret b | None => e_fail ErrRecMarshal end;
      _ ← Put (SplitTxHashKey hash) txBin;
      _ ← Put (TxKey txHash) txBin;
      storeSplitLoop txs
  end.

Definition StoreSplitTxs (splitTxs : gmap bytes Transaction) : RM unit := storeSplitLoop (visit splitTxs).

Fixpoint delSplitLoop (txs : list (bytes * Transaction)) : RM unit :=
  match txs with
  | [] => mret tt
  | (hash, tx) :: txs =>
      txHash ← r_hash tx;
      _ ← Del (TxKey txHash);
      _ ← Del (SplitTxHashKey hash);
      delSplitLoop txs
  end.

Definition DelSplitTxs (splitTxs : gmap bytes Transaction) : RM unit := delSplitLoop (visit splitTxs).

(** ** Blocks *)

Context `{HC : HeaderCodec} `{PB : BlockCodec} {TD : TxDecoder}.

(** The hash in the batch, the block in the database at once. *)
Definition StoreBlock (block : Block) : RM unit :=
  hash ← e_deref (BlockHash block);
  data ← match pb_block_marshal (ToProtoMessage block) with Some d => mret d | None => e_fail ErrRecMarshal end;
  db_Put (BlockKey hash) data.

Definition StoreBlockWithIndex (block : Block) : RM unit :=
  hash ← e_deref (BlockHash block);
  _ ← Put (BlockHashKey (h_Height (b_Header block))) hash;
  StoreBlock block.

Definition LoadBlockByHash (hash : bytes) : RM Block :=
  blockBin ← e_gets (fun s => st_db s !! BlockKey hash);
  match blockBin with
  | None => e_fail ErrRecBlockIsNil
  | Some b =>
      match pb_block_unmarshal b with
      | None => e_fail ErrRecUnmarshal
      | Some m => r ← r_go (FromProtoMessage (Some m)); r_result (fun _ => ErrRecUnmarshal) r
      end
  end.

Definition LoadBlockByHeight (genesis : Block) (height : Z) : RM Block :=
  if (height =? 0)%Z then mret genesis
  else
    b ← e_gets (fun s => st_db s !! BlockHashKey height);
    match b with
    | None => e_fail ErrRecBlockIsNil
    | Some b => LoadBlockByHash (Types.copyHash b)
    end.

Definition LoadBlockInfoByTxHash (genesis : Block) (hash : bytes) : RM (Block * Transaction * TxKind) :=
  txIndex ← e_gets (fun s => default [] (st_db s !! TxIndexKey hash));
  if length txIndex =? 0 then e_fail ErrTxIndexNotFound
  else
    '(height, index) ← r_result ErrTxIndexBytes (UnmarshalTxIndex txIndex);
    block ← LoadBlockByHeight genesis height;
    let idx := Z.to_nat index in
    '(tx, kind) ←
      match b_Txs block !! idx with
      | Some tx => mret (tx, NormalTx)
      | None =>
          match b_InternalTxs block !! (idx - length (b_Txs block)) with
          | Some tx => mret (tx, InternalTx)
          | None =>
              txBin ← e_gets (fun s => st_db s !! TxKey hash);
              match txBin with
              | None => e_fail ErrSplitTxNotFound
              | Some b =>
                  match pb_unmarshal b with
                  | None => e_fail ErrRecUnmarshal
                  | Some m => tx ← r_result (fun _ => ErrRecUnmarshal) (Types.Transaction_FromProtoMessage (Some m)); mret (tx, SplitTxKind)
                  end
              end
          end
      end;
    target ← r_hash tx;
    if bool_decide (target = hash) then mret (block, tx, kind) else e_fail ErrTxHashExpected.

(** What [writeBlockToDB] does to the records of this file; the receipts, the unspent outputs and the
    tail, which it writes to the same batch, are other records. *)
Definition writeBlockRecords (block : Block) (splitTxs : gmap bytes Transaction) : RM unit :=
  _ ← StoreBlockWithIndex block;
  _ ← WriteTxIndex block splitTxs;
  _ ← StoreSplitTxs splitTxs;
  _ ← WriteSplitAddrIndex block;
  batch_Write.

(** What [tryDisConnectBlockFromMainChain] does to them, given the divided outputs that were written. *)
Definition removeBlockRecords (block : Block) (splitTxs : gmap bytes Transaction) : RM unit :=
  _ ← e_modify (fun s => mkStore (delete (BlockHashKey (h_Height (b_Header block))) (st_db s)) (st_filter s) (st_batch s));
  _ ← DelTxIndex block splitTxs;
  _ ← DelSplitTxs splitTxs;
  _ ← DeleteSplitAddrIndex block;
  batch_Write.

End Hash.
End Records.
