(* ===== verification/RecordsFacts.v ===== *)
(** * RecordsFacts: split payments keep their value, written records are found and removed again

    A payment to a split address is divided without loss at every depth; what a block writes to the
    index is what a lookup finds; disconnecting the block takes the records away. *)

From S2P Require Import Prelude Effects Opcode Crypto Types Script ScriptFacts ScriptKinds ScriptKindsFacts ScriptAddress Bytes Bloom TxLogic Compress Keys UtxoSet UtxoDb EvmInv Receipt Blocks Chain Records.
Import Script Kinds DbKey Blocks Records.

Lemma total_app (l1 l2 : list Z) : Zsum (l1 ++ l2) = (Zsum l1 + Zsum l2)%Z.
Proof. induction l1 as [|x l IH]; cbn; [done|]. fold (Zsum (l ++ l2)) (Zsum l). rewrite IH. lia. Qed.

(** ** The record of a split address *)

Definition info_wf (info : splitAddrInfo) : Prop :=
  length (si_addrs info) = length (si_weights info) /\ Forall (fun a => length a = 20) (si_addrs info) /\ Forall (fun w => 0 <= w < 2 ^ 32)%Z (si_weights info).

Lemma unmarshallLoop_wf n data addrs weights info : length data = 24 * n -> info_wf (mkSplitInfo addrs weights) -> unmarshallLoop n data addrs weights = Ok info -> info_wf info.
Proof.
  revert data addrs weights. induction n as [|n IH]; intros data addrs weights Hl Hw; cbn [unmarshallLoop]; [by intros [= <-]|].
  unfold Types.NewAddressPubKeyHash. rewrite length_take_le by lia. cbn. apply IH; [rewrite length_drop; lia|]. destruct Hw as (H1 & H2 & H3). cbn in *. split_and!; cbn.
  - rewrite !length_app. cbn. lia.
  - apply Forall_app. split; [done|]. constructor; [|done]. rewrite length_take. lia.
  - apply Forall_app. split; [done|]. constructor; [|done]. pose proof (le_value_bound (take 4 (drop 20 data))) as H. rewrite length_take_le in H by (rewrite length_drop; lia). exact H.
Qed.

Lemma Unmarshall_wf data info : Unmarshall data = Ok info -> info_wf info.
Proof.
  unfold Unmarshall. destruct (Nat.eqb_spec (length data mod 24) 0) as [E|]; [|done]. cbn [negb]. apply unmarshallLoop_wf; [|done]. pose proof (Nat.div_mod (length data) 24). lia.
Qed.

Lemma unmarshallLoop_marshalled addrs weights accA accW : length addrs = length weights -> Forall (fun a => length a = 20) addrs -> Forall (fun w => 0 <= w < 2 ^ 32)%Z weights ->
  unmarshallLoop (length addrs) (concat (zip_with (fun a w => a ++ le_bytes 4 w) addrs weights)) accA accW = Ok (mkSplitInfo (accA ++ addrs) (accW ++ weights)).
Proof.
  revert weights accA accW. induction addrs as [|a addrs IH]; intros [|w weights] accA accW Hl Ha Hw; try done; [by rewrite !app_nil_r|].
  apply Forall_cons in Ha as [Ha Has]. apply Forall_cons in Hw as [Hw Hws]. cbn [length zip_with concat unmarshallLoop]. rewrite <-!app_assoc.
  rewrite take_app_length' by lia. unfold Types.NewAddressPubKeyHash. rewrite Ha. cbn [Nat.eqb Crypto.AddrSize negb].
  rewrite (drop_app_length' a _ 20) by lia. rewrite take_app_length' by (by rewrite length_le_bytes). rewrite le_value_le_bytes_small by done.
  rewrite app_assoc, (drop_app_length' (a ++ le_bytes 4 w) _ 24) by (rewrite length_app, length_le_bytes; lia). rewrite IH by (cbn in Hl; auto; lia). by rewrite <-!app_assoc.
Qed.

(** What is stored for a split address is read back. *)
Lemma split_info_roundtrip info : info_wf info -> exists data, Marshall info = Ok data /\ Unmarshall data = Ok info.
Proof.
  intros (H1 & H2 & H3). unfold Marshall. rewrite H1, Nat.eqb_refl. cbn [negb]. eexists. split; [done|].
  assert (length (concat (zip_with (fun a w => a ++ le_bytes 4 w) (si_addrs info) (si_weights info))) = length (si_addrs info) * 24) as E.
  { clear H3. revert H1 H2. generalize (si_weights info). induction (si_addrs info) as [|a l IH]; intros [|w ws] Hl Ha; try done. apply Forall_cons in Ha as [Ha Has]. cbn [zip_with concat length]. rewrite !length_app, length_le_bytes, Ha, IH by (cbn in Hl; auto; lia). lia. }
  unfold Unmarshall. rewrite E, Nat.Div0.mod_mul, Nat.div_mul by done. cbn [Nat.eqb negb]. rewrite unmarshallLoop_marshalled by done. by destruct info.
Qed.

(** ** Dividing a payment *)

(** The index of split addresses: every address has parts, and its parts are of lower rank: they
    were known before the address was made. *)
Definition index_ok (d : Db) (rank : bytes -> nat) : Prop := forall a data info, d !! SplitAddrKey a = Some data -> Unmarshall data = Ok info ->
  0 < length (si_addrs info) <= MaxSplitAddrs /\ Forall (fun p => rank p < rank a) (si_addrs info).

(** A split address all of whose weights are 0; nothing keeps one from being made. *)
Definition weightless_known (d : Db) : Prop := exists a data info, d !! SplitAddrKey a = Some data /\ Unmarshall data = Ok info /\ Zsum (si_weights info) = 0%Z.

Definition out_rank (rank : bytes -> nat) (o : TxOut) : nat :=
  match ExtractAddress (ScriptPubKey o) with Ok a => default 0 (rank <$> Types.address_Hash160 a) | Err _ => 0 end.

Definition total (outs : list TxOut) : Z := Zsum (Value <$> outs).
Definition fits (o : TxOut) : Prop := (0 <= Value o < 2 ^ 64)%Z.

Lemma weights_sum n ws : n <= MaxSplitAddrs -> length ws = n -> Forall (fun w => 0 <= w < 2 ^ 32)%Z ws -> foldl (fun t w => u64 (t + w)) 0%Z (take n ws) = Zsum ws.
Proof.
  intros Hn Hl Hw. rewrite take_ge by lia. assert (forall l t, Forall (fun w => 0 <= w < 2 ^ 32)%Z l -> (0 <= t)%Z -> (t + 2 ^ 32 * Z.of_nat (length l) < 2 ^ 64)%Z -> foldl (fun t w => u64 (t + w)) t l = (t + Zsum l)%Z) as H.
  { induction l as [|w l IH]; intros t H Ht Hb; [cbn; lia|]. apply Forall_cons in H as [H1 H2]. cbn [foldl length] in *. rewrite IH; [unfold u64; rewrite Z.mod_small by lia; cbn [Zsum foldr]; fold (Zsum l); lia|done| |].
    - unfold u64. apply Z.mod_pos_bound. lia.
    - unfold u64. rewrite Z.mod_small by lia. lia. }
  rewrite H; [lia|done|lia|]. unfold MaxSplitAddrs in Hn. lia.
Qed.

Lemma Zsum_nonneg l : Forall (fun w => 0 <= w < 2 ^ 32)%Z l -> (0 <= Zsum l)%Z.
Proof. induction 1; cbn; [lia|]. fold (Zsum l). lia. Qed.

(** Dividing [v]: the outputs are worth [v], or an address without weights stopped the program. *)
Definition divides (v : Z) (s : Store) (r : eres RecErr (list TxOut) * Store) : Prop :=
  match r with
  | (EOk l, s') => s' = s /\ total l = v /\ Forall fits l
  | (EPanic, _) => weightless_known (st_db s)
  | _ => False
  end.

(** The parts before [i] have got no more than their weights allow for: the rest is what is left. *)
Lemma splitShares_total split value tw n i addrs weights tv s : (0 <= value < 2 ^ 64)%Z -> tw = Zsum weights -> (0 < tw)%Z -> length weights = n -> i + length addrs = n -> 0 < length addrs ->
  Forall (fun w => 0 <= w < 2 ^ 32)%Z weights -> (0 <= tv)%Z -> (tv * tw <= value * Zsum (take i weights))%Z ->
  (forall v a, (0 <= v < 2 ^ 64)%Z -> a ∈ addrs -> divides v s (split (mkTxOut v (PayToPubKeyHashScript a)) s)) ->
  divides (value - tv) s (splitShares split value tw n i addrs weights tv s).
Proof.
  intros Hv Etw Htw Hlw. revert i tv. induction addrs as [|a addrs IH]; intros i tv Hi Hpos Hw Htv Hle Hsplit; cbn [length] in *; [lia|]. clear Hpos.
  destruct (lookup_lt_is_Some_2 weights i) as [w Ew]; [lia|]. cbn [splitShares]. rewrite Ew. erewrite em_bind by done. destruct (Z.eqb_spec tw 0) as [|_]; [lia|].
  assert (Zsum (take (S i) weights) = Zsum (take i weights) + w)%Z as Es by (rewrite (take_S_r _ _ _ Ew), total_app; cbn; lia).
  assert (Zsum weights = Zsum (take (S i) weights) + Zsum (drop (S i) weights))%Z as Et by (rewrite <-total_app, take_drop; done).
  assert (0 <= w)%Z as Hw0 by (rewrite Forall_lookup in Hw; apply (Hw _ _ Ew)). pose proof (Zsum_nonneg _ (Forall_drop _ (S i) _ Hw)) as Hd.
  assert (tv <= value)%Z as Htvv by nia. destruct (Nat.eqb_spec i (n - 1)) as [Elast|Hmore].
  - assert (addrs = []) as -> by (destruct addrs; [done|cbn [length] in *; lia]). unfold u64 at 1. rewrite Z.mod_small by lia.
    pose proof (Hsplit (value - tv)%Z a ltac:(lia) ltac:(left)) as H1. unfold mbind, EM_bind. destruct (split _ s) as [[l|e| |] s1]; [|done..]. cbn [splitShares]. unfold mret, EM_ret. by rewrite app_nil_r.
  - set (share := (u64 (value * w) / tw)%Z). assert (0 <= share)%Z as Hs0 by (apply Z.div_pos; [apply Z.mod_pos_bound; lia|lia]).
    assert (share * tw <= value * w)%Z as Hsw. { pose proof (Z.mul_div_le (u64 (value * w)) tw Htw). assert (u64 (value * w) <= value * w)%Z by (apply Z.mod_le; nia). fold share in H. lia. }
    assert (tv + share <= value)%Z as Hle' by nia. unfold u64 at 1. rewrite (Z.mod_small (tv + share)) by lia.
    pose proof (Hsplit share a ltac:(lia) ltac:(left)) as H1. assert (divides (value - (tv + share)) s (splitShares split value tw n (S i) addrs weights (tv + share) s)) as H2.
    { apply IH; [lia|destruct addrs; cbn [length] in *; lia|done|lia|nia|intros; apply Hsplit; [done|by right]]. }
    unfold mbind, EM_bind. destruct (split _ s) as [[l1|e| |] s1]; [|done..]. destruct H1 as (-> & T1 & F1).
    destruct (splitShares _ _ _ _ _ _ _ _ s) as [[l2|e| |] s2]; [|done..]. destruct H2 as (-> & T2 & F2). cbn. split_and!; [done| |by apply Forall_app]. unfold total in *. rewrite fmap_app, total_app. lia.
Qed.

Lemma pubkey_address sc a : IsPayToPubKeyHash sc = true -> ExtractAddress sc = Ok a -> exists h, a = Types.AddressPubKeyHash h.
Proof.
  intros Hp. unfold ExtractAddress, PubkType. rewrite Hp. destruct (operandAt sc 2) as [[x pc]|]; cbn [mbind result_bind]; [|done]. destruct (Types.NewAddressPubKeyHash x); cbn; [|done]. intros [= <-]. eauto.
Qed.

Lemma findSplitAddr_eq h s : wf (st_filter s) -> exists r, findSplitAddr h s = (EOk r, s) /\
  forall info, r = Some info -> exists data, st_db s !! SplitAddrKey h = Some data /\ Unmarshall data = Ok info.
Proof.
  intros Hw. unfold findSplitAddr. erewrite em_bind by done. erewrite em_bind by (by rewrite Matches_spec). destruct (forallb _ _); cbn [negb]; [|by exists None].
  erewrite em_bind by done. eexists. split; [done|]. intros info E. destruct (st_db s !! SplitAddrKey h) as [d|]; [|done]. cbn in E. exists d. split; [done|]. destruct (Unmarshall d); congruence.
Qed.

Lemma splitTxOutput_total rank fuel o s : index_ok (st_db s) rank -> wf (st_filter s) -> fits o -> out_rank rank o < fuel -> divides (Value o) s (splitTxOutput fuel o s).
Proof.
  intros Hix Hw. revert o. induction fuel as [|fuel IH]; intros o Ho Hr; [lia|]. cbn [splitTxOutput].
  assert (divides (Value o) s (EOk [o], s)) as Hone by (unfold divides, total; cbn; split_and!; [done|lia|by constructor]).
  destruct (IsPayToPubKeyHash (ScriptPubKey o)) eqn:Ep; cbn [negb]; [|done]. destruct (ExtractAddress (ScriptPubKey o)) as [a|] eqn:Ea; [|done].
  destruct (pubkey_address _ _ Ep Ea) as [h ->]. cbn [Types.address_Hash160]. erewrite em_bind by done. destruct (findSplitAddr_eq h s Hw) as (r & Er & Hinfo). erewrite em_bind by done.
  destruct r as [info|]; [|done]. destruct (Hinfo info eq_refl) as (data & Ed & Eu). destruct (Hix _ _ _ Ed Eu) as ([Hpos Hmax] & Hrank). destruct (Unmarshall_wf _ _ Eu) as (Hl & Ha & Hws).
  rewrite weights_sum by done. pose proof (Zsum_nonneg _ Hws) as Hw0. destruct (decide (Zsum (si_weights info) = 0)%Z) as [Ez|Hz].
  { rewrite Ez. destruct (si_addrs info) as [|a0 addrs]; [cbn in Hpos; lia|]. destruct (si_weights info) as [|w0 ws] eqn:Ews; [done|]. cbn. exists h, data, info. by rewrite Ews. }
  pose proof (splitShares_total (splitTxOutput fuel) (Value o) (Zsum (si_weights info)) (length (si_addrs info)) 0 (si_addrs info) (si_weights info) 0 s) as H.
  rewrite Z.sub_0_r in H. apply H; clear H; try done; try lia.
  - rewrite take_0. change (Zsum []) with 0%Z. lia.
  - intros v p Hv Hp. apply (IH (mkTxOut v (PayToPubKeyHashScript p))); [done|]. rewrite Forall_forall in Ha, Hrank. unfold out_rank in *. cbn [ScriptPubKey]. rewrite (proj2 (std_p2pkh p (Ha _ Hp))).
    rewrite Ea in Hr. cbn in *. specialize (Hrank _ Hp). lia.
Qed.

Lemma splitOutputs_total rank fuel outs vout b s : index_ok (st_db s) rank -> wf (st_filter s) -> Forall fits outs -> Forall (fun o => out_rank rank o < fuel) outs ->
  match splitOutputs fuel outs vout b s with
  | (EOk (l, b'), s') => s' = s /\ total l = (total vout + total outs)%Z
  | (EPanic, _) => weightless_known (st_db s)
  | _ => False
  end.
Proof.
  intros Hix Hw Hf. revert vout b. induction Hf as [|o outs Ho Hf IH]; intros vout b Hr; cbn [splitOutputs]; [cbn; split; [done|lia]|]. apply Forall_cons in Hr as [Hr Hrs].
  pose proof (splitTxOutput_total rank fuel o s Hix Hw Ho Hr) as H1. unfold mbind, EM_bind. destruct (splitTxOutput fuel o s) as [[l|e| |] s1]; [|done..]. destruct H1 as (-> & Tl & _).
  specialize (IH (vout ++ l) (b || (1 <? length l)) Hrs). destruct (splitOutputs _ _ _ _ s) as [[[l2 b']|e| |] s2]; [|done..]. destruct IH as [-> T2]. split; [done|].
  rewrite T2. unfold total in *. rewrite fmap_app, total_app, fmap_cons. cbn [Zsum foldr]. fold (Zsum (Value <$> outs)). lia.
Qed.

(** C13: Dividing the outputs of a transaction among split addresses, which may pay to one another, ends.
    When it returns, the sum of the values is kept exactly although shares are computed in 64 bits,
    the inputs are kept, nothing changes when no output is divided, and the store is only read.  The
    one way in which it fails is a panic, a division by zero, and then the index holds a split address
    all of whose weights are 0, which the checks of its script let through ([zero_weights_crash]).
    Assumed of the index: an address has between 1 and MaxSplitAddrs parts, and no address is
    reached from itself through parts (a rank decreases), as when parts exist before the address that
    names them; the fuel exceeds the rank of each output. *)
Theorem split_keeps_value rank fuel tx s : index_ok (st_db s) rank -> wf (st_filter s) -> Forall fits (Vout tx) -> Forall (fun o => out_rank rank o < fuel) (Vout tx) ->
  match splitTxOutputs fuel tx s with
  | (EOk (tx', b), s') => s' = s /\ Zsum (Value <$> Vout tx') = Zsum (Value <$> Vout tx) /\ Vin tx' = Vin tx /\ (b = false -> tx' = tx)
  | (EPanic, _) => weightless_known (st_db s)
  | _ => False
  end.
Proof.
  intros Hix Hw Hf Hr. pose proof (splitOutputs_total rank fuel (Vout tx) [] false s Hix Hw Hf Hr) as H. unfold splitTxOutputs, mbind, EM_bind.
  destruct (splitOutputs _ _ _ _ s) as [[[l b]|e| |] s1]; [|done..]. destruct H as [-> T]. by destruct b.
Qed.

(** ** Batches *)

#[local] Instance record_eq_dec : EqDecision record.
Proof. solve_decision. Defined.

#[local] Instance RTxIndex_inj : Inj (=) (=) RTxIndex.
Proof. by intros x y [= ->]. Qed.

(** The key of a record; the buffer of the key pool is zero. *)
Definition rkey (r : record) : bytes := match record_key (replicate 37 x00) r with Returns k => k | Panics => [] end.

Definition writes := list (record * option bytes).
Definition wire (w : writes) : list (bytes * option bytes) := (fun p => (rkey p.1, p.2)) <$> w.
Definition batched (s : Store) (w : writes) : Store := mkStore (st_db s) (st_filter s) (st_batch s ++ wire w).

(** The last write to a record decides. *)
Fixpoint final (r : record) (w : writes) : option (option bytes) :=
  match w with
  | [] => None
  | p :: w => match final r w with Some v => Some v | None => if decide (p.1 = r) then Some p.2 else None end
  end.

Lemma rkey_eq r : (forall op, r <> RUtxo op) -> record_key (replicate 37 x00) r = Returns (rkey r).
Proof. intros H. destruct r; first [done|by destruct (H op)]. Qed.

Lemma rkey_inj r r' : record_ok r -> record_ok r' -> (forall op, r <> RUtxo op) -> (forall op, r' <> RUtxo op) -> rkey r = rkey r' -> r = r'.
Proof.
  intros H H' Hr Hr' E. apply (record_key_inj (replicate 37 x00) (replicate 37 x00)); try done. rewrite !rkey_eq by done. by rewrite E.
Qed.

(** Records with keys of their own. *)
Definition named (r : record) : Prop := record_ok r /\ forall op, r <> RUtxo op.

Lemma final_app r w1 w2 : final r (w1 ++ w2) = match final r w2 with Some v => Some v | None => final r w1 end.
Proof. induction w1 as [|p w1 IH]; cbn [app final]; [by destruct (final r w2)|]. rewrite IH. by destruct (final r w2). Qed.

Lemma final_other r w : (forall p, p ∈ w -> p.1 <> r) -> final r w = None.
Proof. induction w as [|p w IH]; intros H; cbn [final]; [done|]. rewrite IH by (intros q Hq; apply H; by right). rewrite decide_False; [done|]. apply H. by left. Qed.

Lemma final_in r v w : NoDup w.*1 -> (r, v) ∈ w -> final r w = Some v.
Proof.
  induction w as [|[r' v'] w IH]; intros Hn Hin; [by apply not_elem_of_nil in Hin|]. cbn [fmap list_fmap fst] in Hn. apply NoDup_cons in Hn as [Hout Hn]. cbn [final fst snd]. apply elem_of_cons in Hin as [[= <- <-]|Hin].
  - rewrite final_other, decide_True by done || (intros p Hp E; apply Hout, list_elem_of_fmap; by exists p). done.
  - by rewrite IH.
Qed.

Lemma final_written d w r : named r -> Forall (fun p => named p.1) w -> foldl written d (wire w) !! rkey r = match final r w with Some v => v | None => d !! rkey r end.
Proof.
  intros [Hr Hu] Hw. revert d. induction Hw as [|[r' v] w [Hr' Hu'] _ IH]; intros d; [done|]. cbn [wire fmap list_fmap foldl]. fold (wire w). rewrite IH. cbn [final fst snd] in *. destruct (final r w); [done|].
  destruct (decide (r' = r)) as [->|Hne].
  - unfold written. cbn. destruct v; [apply lookup_insert_eq|apply lookup_delete_eq].
  - assert (rkey r' <> rkey r) as Hk by (intros E; apply Hne; by apply rkey_inj). unfold written. cbn. destruct v; [by apply lookup_insert_ne|by apply lookup_delete_ne].
Qed.

Lemma not_written d b k : k ∉ b.*1 -> foldl written d b !! k = d !! k.
Proof.
  revert d. induction b as [|[k' v] b IH]; intros d Hk; [done|]. cbn [fmap list_fmap fst] in Hk. apply not_elem_of_cons in Hk as [Hne Hk]. cbn [foldl]. rewrite IH by done. unfold written. cbn. destruct v; [by apply lookup_insert_ne|by apply lookup_delete_ne].
Qed.

Lemma batched_app s w1 w2 : batched (batched s w1) w2 = batched s (w1 ++ w2).
Proof. unfold batched, wire. cbn. by rewrite fmap_app, app_assoc. Qed.
Lemma batched_nil s : batched s [] = s.
Proof. unfold batched. cbn. rewrite app_nil_r. by destruct s. Qed.

(** ** What a block writes *)

Section Written.
Context `{C : Crypto} {CL : CryptoLaws C} `{TC : TxCodec} {VO : VisitOrder} `{HC : HeaderCodec} `{PB : BlockCodec} {PBL : BlockCodecLaws PB} {TD : TxDecoder} {TDL : TxDecoderLaws TC TD}.

Abbreviation hash := Types.CalcTxHash.
Definition name_of (tx : Transaction) : bytes := default [] (hash tx).
Definition hashed (tx : Transaction) : Prop := is_Some (hash tx).

Lemma tx_hash_length tx h : hash tx = Some h -> length h = 32.
Proof. unfold Types.CalcTxHash. destruct (Types.tx_marshal tx); cbn; [|done]. intros [= <-]. apply sha256_length. Qed.

Lemma name_hash tx h : hash tx = Some h -> name_of tx = h.
Proof. intros E. unfold name_of. by rewrite E. Qed.
Lemma named_index tx : hashed tx -> named (RTxIndex (name_of tx)) /\ named (RTx (name_of tx)).
Proof. intros [h E]. rewrite (name_hash _ _ E). by split; (split; [apply (tx_hash_length _ _ E)|]). Qed.

Definition index_writes (height : Z) (idx : nat) (txs : list Transaction) : writes := imap (fun j tx => (RTxIndex (name_of tx), Some (MarshalTxIndex height (u32 (Z.of_nat (idx + j)))))) txs.

Lemma writeTxIndex_eq height idx txs s u s' : writeTxIndexLoop height idx txs s = (EOk u, s') -> Forall hashed txs /\ s' = batched s (index_writes height idx txs).
Proof.
  revert idx s. induction txs as [|tx txs IH]; intros idx s; cbn [writeTxIndexLoop]; [intros [= _ <-]; by rewrite batched_nil|]. unfold r_hash. destruct (hash tx) as [h|] eqn:Eh; [|done].
  erewrite em_bind by done. erewrite em_bind by done. intros [Hh ->]%IH. split; [constructor; [by exists h|done]|]. unfold index_writes. cbn [imap]. rewrite (name_hash _ _ Eh), Nat.add_0_r.
  change (mkStore _ _ _) with (batched s [(RTxIndex h, Some (MarshalTxIndex height (u32 (Z.of_nat idx))))]). rewrite batched_app. do 2 f_equal. apply imap_ext. intros j x _. unfold compose. by rewrite Nat.add_succ_r.
Qed.

Lemma delTxIndex_eq txs s : Forall hashed txs -> delTxIndexLoop txs s = (EOk tt, batched s ((fun tx => (RTxIndex (name_of tx), None)) <$> txs)).
Proof.
  intros H. revert s. induction H as [|tx txs [h Eh] _ IH]; intros s; cbn [delTxIndexLoop]; [by rewrite batched_nil|]. unfold r_hash. rewrite Eh. erewrite em_bind by done. erewrite em_bind by done. rewrite IH, fmap_cons, (name_hash _ _ Eh).
  change (mkStore _ _ _) with (batched s [(RTxIndex h, None)]). by rewrite batched_app.
Qed.

Definition encoded (tx : Transaction) : bytes := default [] (Types.tx_marshal tx).
Definition split_writes (txs : list (bytes * Transaction)) : writes := txs ≫= (fun p => [(RSplitTx p.1, Some (encoded p.2)); (RTx (name_of p.2), Some (encoded p.2))]).

Lemma storeSplit_eq txs s u s' : storeSplitLoop txs s = (EOk u, s') -> Forall (fun p => hashed p.2) txs /\ s' = batched s (split_writes txs).
Proof.
  revert s. induction txs as [|[h tx] txs IH]; intros s; cbn [storeSplitLoop]; [intros [= _ <-]; by rewrite batched_nil|]. unfold r_hash. destruct (hash tx) as [h'|] eqn:Eh; [|done].
  erewrite em_bind by done. destruct (Types.tx_marshal tx) as [b|] eqn:Eb; [|done]. do 3 erewrite em_bind by done. intros [Hh ->]%IH. split; [constructor; [by exists h'|done]|]. unfold split_writes. cbn [mbind list_bind]. cbn [fst snd].
  assert (encoded tx = b) as -> by (unfold encoded; by rewrite Eb). rewrite (name_hash _ _ Eh), <-batched_app. f_equal. unfold batched. cbn. by rewrite <-app_assoc.
Qed.

Lemma delSplit_eq txs s : Forall (fun p => hashed p.2) txs -> delSplitLoop txs s = (EOk tt, batched s (txs ≫= (fun p => [(RTx (name_of p.2), None); (RSplitTx p.1, None)]))).
Proof.
  intros H. revert s. induction H as [|[h tx] txs [h' Eh] _ IH]; intros s; cbn [delSplitLoop]; [by rewrite batched_nil|]. unfold r_hash. cbn [snd] in Eh. rewrite Eh. do 3 erewrite em_bind by done. rewrite IH. cbn [mbind list_bind]. cbn [fst snd].
  rewrite (name_hash _ _ Eh), <-batched_app. do 2 f_equal. unfold batched. cbn. by rewrite <-app_assoc.
Qed.
(** The split addresses that outputs make. *)
Fixpoint made_outs (h : option bytes) (outs : list TxOut) (i : nat) : list (bytes * splitAddrInfo) :=
  match outs with
  | [] => []
  | o :: outs =>
      (if IsSplitAddrScript (ScriptPubKey o) then
         match ParseSplitAddrScript (ScriptPubKey o) with
         | Returns (Ok (addrs, weights)) => [(MakeSplitAddress (default [] h) (u32 (Z.of_nat i)) addrs weights, mkSplitInfo addrs weights)]
         | _ => []
         end
       else []) ++ made_outs h outs (S i)
  end.
Definition made (txs : list Transaction) : list (bytes * splitAddrInfo) := txs ≫= (fun tx => made_outs (hash tx) (Vout tx) 0).

Definition info_bytes (info : splitAddrInfo) : bytes := match Marshall info with Ok d => d | Err _ => [] end.
Definition made_writes (l : list (bytes * splitAddrInfo)) : writes := (fun p => (RSplitAddr p.1, Some (info_bytes p.2))) <$> l.
Definition unmade_writes (l : list (bytes * splitAddrInfo)) : writes := (fun p => (RSplitAddr p.1, None)) <$> l.

(** Apart from the filter the addresses are written, and they can be removed. *)
Definition adds (s s' : Store) (w : writes) : Prop := st_db s' = st_db s /\ st_batch s' = st_batch s ++ wire w.

Lemma batch_trans s1 s2 s3 w1 w2 : adds s1 s2 w1 -> adds s2 s3 w2 -> adds s1 s3 (w1 ++ w2).
Proof. intros [H1 H2] [H3 H4]. split; [congruence|]. rewrite H4, H2. unfold wire. by rewrite fmap_app, app_assoc. Qed.
Lemma adds_batched s w : adds s (batched s w) w.
Proof. done. Qed.
Lemma batch_refl s : adds s s [].
Proof. split; [done|]. cbn. by rewrite app_nil_r. Qed.

Abbreviation unmake := (fun (addr : bytes) (_ : splitAddrInfo) => Del (SplitAddrKey addr)).

Lemma addSplitAddr_eq a info s u s' : addSplitAddr a info s = (EOk u, s') -> adds s s' [(RSplitAddr a, Some (info_bytes info))].
Proof.
  unfold addSplitAddr, r_result, info_bytes. destruct (Marshall info) as [d|]; [|done]. do 3 erewrite em_bind by done. destruct (Bloom.Add _ _) as [f|]; [|done]. cbn [r_go]. erewrite em_bind by done. by intros [= _ <-].
Qed.

Lemma splitAddrOuts_eq h outs i s u s' : splitAddrOuts addSplitAddr h outs i s = (EOk u, s') ->
  adds s s' (made_writes (made_outs h outs i)) /\ forall s2, splitAddrOuts unmake h outs i s2 = (EOk tt, batched s2 (unmade_writes (made_outs h outs i))).
Proof.
  revert i s. induction outs as [|o outs IH]; intros i s; cbn [splitAddrOuts made_outs]; [intros [= _ <-]; split; [apply batch_refl|intros; by rewrite batched_nil]|].
  destruct (IsSplitAddrScript (ScriptPubKey o)).
  - destruct (ParseSplitAddrScript (ScriptPubKey o)) as [[[addrs weights]|e]|]; [|done|done]. cbn [r_go r_result]. destruct h as [h|]; [|done]. cbn [default]. intros E.
    destruct (addSplitAddr (MakeSplitAddress h (u32 (Z.of_nat i)) addrs weights) (mkSplitInfo addrs weights) s) as [[v|e| |] s1] eqn:Ea; unfold mbind, EM_bind in E; cbn in E; rewrite Ea in E; try done.
    apply IH in E as [H1 H2]. split; [exact (batch_trans _ _ _ _ _ (addSplitAddr_eq _ _ _ _ _ Ea) H1)|]. intros s2. erewrite em_bind by reflexivity. rewrite H2. unfold unmade_writes. rewrite fmap_app, <-batched_app. done.
  - erewrite em_bind by done. intros [H1 H2]%IH. split; [done|]. intros s2. by erewrite em_bind by done.
Qed.

Lemma splitAddrTxs_eq txs s u s' : splitAddrTxs addSplitAddr txs s = (EOk u, s') ->
  adds s s' (made_writes (made txs)) /\ forall s2, splitAddrTxs unmake txs s2 = (EOk tt, batched s2 (unmade_writes (made txs))).
Proof.
  revert s. induction txs as [|tx txs IH]; intros s; cbn [splitAddrTxs]; [intros [= _ <-]; split; [apply batch_refl|intros; by rewrite batched_nil]|].
  destruct (splitAddrOuts addSplitAddr (hash tx) (Vout tx) 0 s) as [[v|e| |] s1] eqn:E1; unfold mbind at 1, EM_bind at 1; rewrite E1; try done. intros E. apply splitAddrOuts_eq in E1 as [H1 H2]. apply IH in E as [H3 H4].
  unfold made. cbn [mbind list_bind]. fold (made txs). unfold made_writes, unmade_writes. rewrite !fmap_app. split; [exact (batch_trans _ _ _ _ _ H1 H3)|]. intros s2. erewrite em_bind by done. rewrite H4. by rewrite batched_app.
Qed.

(** All that [block] writes besides itself, and all that is removed with it. *)
Definition block_writes (block : Block) (splitTxs : gmap bytes Transaction) (h : bytes) : writes :=
  (RBlockHash (h_Height (b_Header block)), Some h) :: index_writes (h_Height (b_Header block)) 0 (allTxs block splitTxs) ++ split_writes (visit splitTxs) ++ made_writes (made (b_Txs block)).
Definition block_removes (block : Block) (splitTxs : gmap bytes Transaction) : writes :=
  ((fun tx => (RTxIndex (name_of tx), None)) <$> allTxs block splitTxs) ++ (visit splitTxs ≫= (fun p => [(RTx (name_of p.2), None); (RSplitTx p.1, None)])) ++ unmade_writes (made (b_Txs block)).

(** The records [block] names. *)
Definition block_records (block : Block) (splitTxs : gmap bytes Transaction) : list record := (block_writes block splitTxs []).*1.

Lemma writeBlock_eq block splitTxs s u s' : st_batch s = [] -> writeBlockRecords block splitTxs s = (EOk u, s') ->
  exists h data, BlockHash block = Some h /\ pb_block_marshal (ToProtoMessage block) = Some data /\ Forall hashed (allTxs block splitTxs) /\ Forall (fun p => hashed p.2) (visit splitTxs) /\ st_batch s' = [] /\
    st_db s' = foldl written (<[BlockKey h := data]> (st_db s)) (wire (block_writes block splitTxs h)) /\
    forall s2, splitAddrTxs unmake (b_Txs block) s2 = (EOk tt, batched s2 (unmade_writes (made (b_Txs block)))).
Proof.
  intros Hb. unfold writeBlockRecords. intros (u1 & s1 & E1 & E)%em_bind_inv. unfold StoreBlockWithIndex, StoreBlock in E1. destruct (BlockHash block) as [h|] eqn:Eh; [|done]. cbn [e_deref] in E1.
  destruct (pb_block_marshal (ToProtoMessage block)) as [data|] eqn:Ed; [|done]. injection E1 as _ <-. apply em_bind_inv in E as (u2 & s2 & E2 & E). apply writeTxIndex_eq in E2 as [Hh ->].
  apply em_bind_inv in E as (u3 & s3 & E3 & E). apply storeSplit_eq in E3 as [Hs ->]. apply em_bind_inv in E as (u4 & s4 & E4 & E). apply splitAddrTxs_eq in E4 as [[Hd Hba] Hun]. injection E as _ <-.
  exists h, data. split_and!; try done. cbn [st_db]. rewrite Hd, Hba. cbn [batched st_db st_batch]. rewrite Hb. unfold block_writes, wire. rewrite fmap_cons, !fmap_app. cbn [app fst snd]. by rewrite <-app_assoc.
Qed.

Lemma removeBlock_eq block splitTxs s : st_batch s = [] -> Forall hashed (allTxs block splitTxs) -> Forall (fun p => hashed p.2) (visit splitTxs) ->
  (forall s2, splitAddrTxs unmake (b_Txs block) s2 = (EOk tt, batched s2 (unmade_writes (made (b_Txs block))))) ->
  removeBlockRecords block splitTxs s = (EOk tt, mkStore (foldl written (delete (BlockHashKey (h_Height (b_Header block))) (st_db s)) (wire (block_removes block splitTxs))) (st_filter s) []).
Proof.
  intros Hb Hh Hs Hun. unfold removeBlockRecords. erewrite em_bind by done. unfold DelTxIndex. erewrite em_bind by (by apply delTxIndex_eq). unfold DelSplitTxs. erewrite em_bind by (by apply delSplit_eq). unfold DeleteSplitAddrIndex. erewrite em_bind by apply Hun.
  rewrite !batched_app. unfold batch_Write, e_modify. cbn [st_db st_batch st_filter batched]. rewrite Hb. cbn [app]. done.
Qed.

Lemma deleted d (b : list (bytes * option bytes)) k : Forall (fun p => p.2 = None) b -> k ∈ b.*1 -> foldl written d b !! k = None.
Proof.
  intros H. revert d. induction H as [|[k' v] b Hv _ IH]; intros d Hk; [by apply not_elem_of_nil in Hk|]. cbn in Hv. subst v. cbn [foldl fmap list_fmap fst] in *. destruct (decide (k ∈ b.*1)) as [Hin|Hout]; [by apply IH|].
  rewrite not_written by done. apply elem_of_cons in Hk as [->|Hk]; [apply lookup_delete_eq|done].
Qed.

(** A transaction, a divided one or a split address of the block. *)
Definition mentioned (block : Block) (splitTxs : gmap bytes Transaction) (r : record) : Prop :=
  (exists tx, r = RTxIndex (name_of tx) /\ tx ∈ allTxs block splitTxs) \/
  (exists p, (r = RSplitTx p.1 \/ r = RTx (name_of p.2)) /\ p ∈ visit splitTxs) \/
  (exists p, r = RSplitAddr p.1 /\ p ∈ made (b_Txs block)).

Lemma split_records (f : bytes * Transaction -> writes) (txs : list (bytes * Transaction)) r : (forall p, (f p).*1 ≡ₚ [RSplitTx p.1; RTx (name_of p.2)]) ->
  r ∈ (txs ≫= f).*1 <-> exists p, (r = RSplitTx p.1 \/ r = RTx (name_of p.2)) /\ p ∈ txs.
Proof.
  intros Hf. rewrite list_elem_of_fmap. split.
  - intros (w & -> & Hw). apply list_elem_of_bind in Hw as (p & Hw & Hp). exists p. split; [|done]. assert (w.1 ∈ (f p).*1) as Hin by (apply list_elem_of_fmap; eauto). rewrite Hf in Hin. set_solver.
  - intros (p & Hr & Hp). assert (r ∈ (f p).*1) as Hin by (rewrite Hf; set_solver). apply list_elem_of_fmap in Hin as (w & -> & Hw). exists w. split; [done|]. apply list_elem_of_bind. eauto.
Qed.

Lemma index_records height idx txs : (index_writes height idx txs).*1 = (fun tx => RTxIndex (name_of tx)) <$> txs.
Proof. unfold index_writes. revert idx. induction txs as [|tx txs IH]; intros idx; [done|]. cbn [imap fmap list_fmap fst]. f_equal. rewrite <-(IH (S idx)). f_equal. apply imap_ext. intros j x _. unfold compose. by rewrite Nat.add_succ_r. Qed.

Lemma writes_mentioned block splitTxs h r : r ∈ (block_writes block splitTxs h).*1 <-> r = RBlockHash (h_Height (b_Header block)) \/ mentioned block splitTxs r.
Proof.
  unfold block_writes, mentioned, split_writes. rewrite fmap_cons, !fmap_app, index_records, elem_of_cons, !elem_of_app. cbn [fst]. rewrite list_elem_of_fmap, split_records by done. unfold made_writes. rewrite <-list_fmap_compose, list_elem_of_fmap. done.
Qed.

Lemma removes_mentioned block splitTxs r : r ∈ (block_removes block splitTxs).*1 <-> mentioned block splitTxs r.
Proof.
  unfold block_removes, mentioned. rewrite !fmap_app, !elem_of_app, <-list_fmap_compose, list_elem_of_fmap, split_records by (intros p; constructor). unfold unmade_writes. by rewrite <-list_fmap_compose, list_elem_of_fmap.
Qed.

(** Hashes of 32 bytes and a height of 32 bits. *)
Definition block_named (block : Block) (splitTxs : gmap bytes Transaction) : Prop :=
  (0 <= h_Height (b_Header block) < 2 ^ 32)%Z /\ (forall h, BlockHash block = Some h -> length h = 32) /\ map_Forall (fun h _ => length h = 32) splitTxs.

Lemma made_outs_length h outs i p : p ∈ made_outs h outs i -> length p.1 = 20.
Proof.
  revert i. induction outs as [|o outs IH]; intros i; cbn [made_outs]; [by intros ?%not_elem_of_nil|]. rewrite elem_of_app. intros [H|H]; [|exact (IH _ H)].
  destruct (IsSplitAddrScript _); [|by apply not_elem_of_nil in H]. destruct (ParseSplitAddrScript _) as [[[addrs weights]|]|]; try by apply not_elem_of_nil in H. apply list_elem_of_singleton in H as ->. apply ripemd160_length.
Qed.
Lemma made_length txs p : p ∈ made txs -> length p.1 = 20.
Proof. intros (tx & H & _)%list_elem_of_bind. by eapply made_outs_length. Qed.

Lemma mentioned_named block splitTxs r : block_named block splitTxs -> Forall hashed (allTxs block splitTxs) -> Forall (fun p => hashed p.2) (visit splitTxs) ->
  r = RBlockHash (h_Height (b_Header block)) \/ mentioned block splitTxs r -> named r.
Proof.
  intros (H1 & _ & H3) Ha Hs. rewrite Forall_forall in Ha; rewrite Forall_forall in Hs. intros [->|[(tx & -> & Htx)|[(p & [->| ->] & Hp)|(p & -> & Hp)]]]; [done| | | |].
  - by apply named_index, Ha.
  - destruct p as [h tx]. split; [|done]. apply (H3 h tx). by apply visit_lookup.
  - by apply named_index, Hs.
  - split; [by eapply made_length|done].
Qed.

Lemma wire_keys w k : k ∈ (wire w).*1 <-> exists r, r ∈ w.*1 /\ k = rkey r.
Proof.
  unfold wire. rewrite <-list_fmap_compose, list_elem_of_fmap. split; [intros (p & -> & Hp); exists p.1; split; [apply list_elem_of_fmap; eauto|done]|]. intros (r & (p & -> & Hp)%list_elem_of_fmap & ->). by exists p.
Qed.

Lemma removes_none block splitTxs : Forall (fun p => p.2 = None) (wire (block_removes block splitTxs)).
Proof.
  unfold wire, block_removes, unmade_writes. apply Forall_fmap, Forall_app. split; [apply Forall_fmap, Forall_true; done|]. apply Forall_app. split; [|apply Forall_fmap, Forall_true; done].
  apply Forall_forall. intros w (p & Hw & _)%list_elem_of_bind. cbn in *. set_solver.
Qed.

(** C24: Removing the records of a block just written gives back the database there was, with the block
    itself still stored, provided none of its records existed before. *)
Theorem disconnect_restores block splitTxs s s1 u : st_batch s = [] -> block_named block splitTxs ->
  (forall r, r = RBlockHash (h_Height (b_Header block)) \/ mentioned block splitTxs r -> st_db s !! rkey r = None) -> writeBlockRecords block splitTxs s = (EOk u, s1) ->
  exists s2 h data, removeBlockRecords block splitTxs s1 = (EOk tt, s2) /\ BlockHash block = Some h /\ st_batch s2 = [] /\ st_db s2 = <[BlockKey h := data]> (st_db s).
Proof.
  intros Hb Hn Hfresh E. destruct (writeBlock_eq _ _ _ _ _ Hb E) as (h & data & Eh & Ed & Ha & Hs & Hb1 & Edb & Hun). eexists _, h, data. split; [by apply removeBlock_eq|]. split_and!; [done|done|]. cbn [st_db].
  pose proof (fun r => mentioned_named _ _ r Hn Ha Hs) as Hnamed. assert (named (RBlock h)) as Hblock by (split; [apply Hn, Eh|done]). assert (forall r, r = RBlockHash (h_Height (b_Header block)) \/ mentioned block splitTxs r -> rkey r <> BlockKey h) as Hother.
  { intros r Hr Ek. destruct (Hnamed _ Hr) as [Hr1 Hr2]. assert (r = RBlock h) as -> by (apply rkey_inj; by try apply Hblock). destruct Hr as [|[(tx & ? & _)|[(p & [?|?] & _)|(p & ? & _)]]]; done. }
  apply map_eq. intros k. destruct (decide (k ∈ (wire (block_removes block splitTxs)).*1)) as [Hin|Hout].
  - rewrite deleted by (done || apply removes_none). apply wire_keys in Hin as (r & Hr & ->). apply removes_mentioned in Hr. rewrite lookup_insert_ne by (apply not_eq_sym, Hother; by right). symmetry. apply Hfresh. by right.
  - rewrite not_written by done. destruct (decide (k = BlockHashKey (h_Height (b_Header block)))) as [->|Hk].
    + rewrite lookup_delete_eq. pose proof (Hother _ (or_introl eq_refl)) as Hne. pose proof (Hfresh _ (or_introl eq_refl)) as Hnone. change (rkey (RBlockHash (h_Height (b_Header block)))) with (BlockHashKey (h_Height (b_Header block))) in *. rewrite lookup_insert_ne by done. done.
    + rewrite lookup_delete_ne by done. rewrite Edb. apply not_written. intros (r & Hr & ->)%wire_keys. apply writes_mentioned in Hr as [->|Hr]; [done|]. apply Hout, wire_keys. exists r. split; [by apply removes_mentioned|done].
Qed.

(** ** What a lookup finds *)

Lemma final_mem r v w : final r w = Some v -> (r, v) ∈ w.
Proof. induction w as [|[r' v'] w IH]; cbn [final fst snd]; [done|]. destruct (final r w) as [y|]; [intros [= <-]; right; by apply IH|]. case_decide; [|done]. subst. intros [= <-]. left. Qed.
Lemma final_absent r v w : final r w = None -> (r, v) ∉ w.
Proof.
  induction w as [|[r' v'] w IH]; cbn [final fst snd]; [intros _; apply not_elem_of_nil|]. destruct (final r w); [done|]. case_decide as Hne; [done|]. intros _ [[= -> ->]|Hin]%elem_of_cons; [done|by apply IH].
Qed.
Lemma final_same r v w : (r, v) ∈ w -> (forall v', (r, v') ∈ w -> v' = v) -> final r w = Some v.
Proof. intros Hin Hall. destruct (final r w) as [y|] eqn:E; [by rewrite (Hall y (final_mem _ _ _ E))|]. by destruct (final_absent r v w E). Qed.

Lemma txIndex_roundtrip height idx : (0 <= height < 2 ^ 32)%Z -> (0 <= idx < 2 ^ 32)%Z -> UnmarshalTxIndex (MarshalTxIndex height idx) = Ok (height, idx).
Proof.
  intros H1 H2. unfold UnmarshalTxIndex, MarshalTxIndex, mbind, reader_bind, rd_bind. rewrite (Bytes.wire_uint32 height (Bytes.WriteUint32 idx) H1). rewrite <-(app_nil_r (Bytes.WriteUint32 idx)). by rewrite (Bytes.wire_uint32 idx [] H2).
Qed.

Lemma decode_tx tx : tx_hashes tx -> Types.Transaction_FromProtoMessage (Some (Types.Transaction_ToProtoMessage tx)) = Ok (untyped tx).
Proof. intros H. unfold Types.Transaction_FromProtoMessage. cbn [pb_Vin Types.Transaction_ToProtoMessage]. by rewrite Types.vins_roundtrip. Qed.

Definition kind_at (block : Block) (j : nat) : TxKind :=
  if j <? length (b_Txs block) then NormalTx else if j <? length (b_Txs block) + length (b_InternalTxs block) then InternalTx else SplitTxKind.

(** A block that survives its encoding. *)
Definition block_sound (block : Block) : Prop :=
  header_ok (b_Header block) /\ Forall tx_hashes (b_Txs block) /\ Forall tx_hashes (b_InternalTxs block) /\ (forall ii, b_Irreversible block = Some ii -> length (ii_Hash ii) = Crypto.HashSize).

(** The block as it comes back. *)
Definition reloaded (block : Block) : Block :=
  mkBlock (calcBlockHash (b_Header block)) (with_bloom (b_Header block) (default Receipt.emptyBloom (h_Bloom (b_Header block)))) (map untyped (b_Txs block)) (map untyped (b_InternalTxs block)) (b_Signature block) (b_Irreversible block).

(** The records of a database in which [block] was written. *)
Record holds (block : Block) (splitTxs : gmap bytes Transaction) (h data : bytes) (d : Db) : Prop := mk_holds {
  ho_index j tx : allTxs block splitTxs !! j = Some tx -> d !! TxIndexKey (name_of tx) = Some (MarshalTxIndex (h_Height (b_Header block)) (u32 (Z.of_nat j)));
  ho_height : d !! BlockHashKey (h_Height (b_Header block)) = Some h;
  ho_block : d !! BlockKey h = Some data;
  ho_split p : p ∈ visit splitTxs -> d !! TxKey (name_of p.2) = Some (encoded p.2)
}.

Lemma load_block genesis block splitTxs h data s : holds block splitTxs h data (st_db s) -> block_sound block -> (h_Height (b_Header block) <> 0)%Z -> length h = 32 -> pb_block_marshal (ToProtoMessage block) = Some data ->
  LoadBlockByHeight genesis (h_Height (b_Header block)) s = (EOk (reloaded block), s).
Proof.
  intros Hh (B1 & B2 & B3 & B4) Hne Hl Ed. unfold LoadBlockByHeight, LoadBlockByHash. destruct (Z.eqb_spec (h_Height (b_Header block)) 0) as [|_]; [done|]. erewrite em_bind by done. rewrite (ho_height _ _ _ _ _ Hh), Types.copyHash_full by done.
  erewrite em_bind by done. rewrite (ho_block _ _ _ _ _ Hh), (pb_block_roundtrip _ _ Ed). rewrite (block_wire block B1 B2 B3 B4). by erewrite em_bind by done.
Qed.

Lemma lookup_found genesis block splitTxs h data s j tx : holds block splitTxs h data (st_db s) -> block_sound block -> Forall (fun p => tx_hashes p.2 /\ hashed p.2) (visit splitTxs) -> (0 < h_Height (b_Header block) < 2 ^ 32)%Z -> length h = 32 ->
  pb_block_marshal (ToProtoMessage block) = Some data -> (Z.of_nat (length (allTxs block splitTxs)) < 2 ^ 32)%Z -> allTxs block splitTxs !! j = Some tx -> hashed tx ->
  LoadBlockInfoByTxHash genesis (name_of tx) s = (EOk (reloaded block, untyped tx, kind_at block j), s).
Proof.
  intros Hh Hs Hsp Hht Hl Ed Hlen Ej [hh Ehh]. unfold LoadBlockInfoByTxHash. erewrite em_bind by done. rewrite (ho_index _ _ _ _ _ Hh _ _ Ej). cbn [default from_option id]. pose proof (lookup_lt_Some _ _ _ Ej) as Hj. unfold u32. rewrite (Z.mod_small (Z.of_nat j)) by lia.
  change (length (MarshalTxIndex _ _) =? 0) with false. rewrite txIndex_roundtrip by lia. cbn [r_result]. erewrite em_bind by done. cbn beta iota. erewrite em_bind by (eapply load_block; done || lia). rewrite Nat2Z.id.
  assert (r_hash (untyped tx) s = (EOk (name_of tx), s)) as Er. { unfold r_hash. change (hash (untyped tx)) with (hash tx). unfold name_of. by rewrite Ehh. }
  assert (forall i (l : list Transaction), map untyped l !! i = untyped <$> l !! i) as Hmap by (intros; apply list_lookup_fmap). cbn [reloaded b_Txs b_InternalTxs]. rewrite !Hmap, length_map. unfold kind_at. unfold allTxs in Ej.
  destruct (Nat.ltb_spec j (length (b_Txs block))) as [H1|H1]; [rewrite lookup_app_l in Ej by done; rewrite Ej|rewrite lookup_app_r in Ej by done; rewrite (lookup_ge_None_2 (b_Txs block)) by done].
  { cbn [fmap option_fmap option_map]. erewrite em_bind by done. cbn beta iota. erewrite em_bind by done. by rewrite bool_decide_eq_true_2. }
  cbn [fmap option_fmap option_map]. destruct (Nat.ltb_spec j (length (b_Txs block) + length (b_InternalTxs block))) as [H2|H2]; [rewrite lookup_app_l in Ej by lia; rewrite Ej|rewrite lookup_app_r in Ej by lia; rewrite (lookup_ge_None_2 (b_InternalTxs block)) by lia].
  { cbn [fmap option_fmap option_map]. erewrite em_bind by done. cbn beta iota. erewrite em_bind by done. by rewrite bool_decide_eq_true_2. }
  cbn [fmap option_fmap option_map]. apply list_elem_of_lookup_2, list_elem_of_fmap in Ej as (p & -> & Hp). rewrite Forall_forall in Hsp. destruct (Hsp _ Hp) as [Ht _].
  assert (Types.tx_marshal p.2 = Some (encoded p.2)) as Em. { unfold encoded. unfold Types.CalcTxHash in Ehh. by destruct (Types.tx_marshal p.2). }
  erewrite em_bind; [|erewrite em_bind by done; rewrite (ho_split _ _ _ _ _ Hh _ Hp), (pb_tx_roundtrip _ _ Em), decode_tx by done; by erewrite em_bind by done]. cbn beta iota. erewrite em_bind by done. by rewrite bool_decide_eq_true_2.
Qed.

Lemma index_in height txs j tx : txs !! j = Some tx -> (RTxIndex (name_of tx), Some (MarshalTxIndex height (u32 (Z.of_nat j)))) ∈ index_writes height 0 txs.
Proof. intros E. apply list_elem_of_lookup. exists j. unfold index_writes. rewrite list_lookup_imap, E. done. Qed.

(** Only one part of the writes of a block names a record of a kind. *)
Lemma part_final block splitTxs h r : final r (block_writes block splitTxs h) =
  match r with
  | RBlockHash n => if decide (h_Height (b_Header block) = n) then Some (Some h) else None
  | RTxIndex _ => final r (index_writes (h_Height (b_Header block)) 0 (allTxs block splitTxs))
  | RSplitTx _ | RTx _ => final r (split_writes (visit splitTxs))
  | RSplitAddr _ => final r (made_writes (made (b_Txs block)))
  | _ => None
  end.
Proof.
  unfold block_writes. cbn [final fst snd]. rewrite !final_app.
  assert (forall r, (forall n, r <> RTxIndex n) -> final r (index_writes (h_Height (b_Header block)) 0 (allTxs block splitTxs)) = None) as Hi.
  { intros r' Hr. apply final_other. intros p Hp E. assert (p.1 ∈ (index_writes (h_Height (b_Header block)) 0 (allTxs block splitTxs)).*1) as Hin by (apply list_elem_of_fmap; eauto). rewrite index_records in Hin. apply list_elem_of_fmap in Hin as (tx & Et & _). apply (Hr (name_of tx)). congruence. }
  assert (forall r, (forall n, r <> RSplitTx n) -> (forall n, r <> RTx n) -> final r (split_writes (visit splitTxs)) = None) as Hs.
  { intros r' Hr1 Hr2. apply final_other. intros p Hp E. apply list_elem_of_bind in Hp as (q & Hp & _). apply elem_of_cons in Hp as [->|Hp]; [by apply (Hr1 q.1)|]. apply list_elem_of_singleton in Hp as ->. by apply (Hr2 (name_of q.2)). }
  assert (forall r, (forall a, r <> RSplitAddr a) -> final r (made_writes (made (b_Txs block))) = None) as Hm.
  { intros r' Hr. apply final_other. intros p Hp E. unfold made_writes in Hp. apply list_elem_of_fmap in Hp as (q & -> & _). by apply (Hr q.1). }
  destruct r; rewrite ?Hi, ?Hs, ?Hm by done; try done; try (destruct (final _ _); done).
  case_decide as E; case_decide as E'; congruence.
Qed.

Lemma names_inj txs x y : NoDup (name_of <$> txs) -> x ∈ txs -> y ∈ txs -> name_of x = name_of y -> x = y.
Proof.
  intros Hn [i Hi]%list_elem_of_lookup [j Hj]%list_elem_of_lookup E. assert (i = j) as ->; [|congruence]. eapply NoDup_lookup; [exact Hn|by rewrite list_lookup_fmap, Hi|by rewrite list_lookup_fmap, Hj, E].
Qed.

Lemma written_holds block splitTxs h data d : block_named block splitTxs -> BlockHash block = Some h -> Forall hashed (allTxs block splitTxs) -> Forall (fun p => hashed p.2) (visit splitTxs) -> NoDup (name_of <$> allTxs block splitTxs) ->
  holds block splitTxs h data (foldl written (<[BlockKey h := data]> d) (wire (block_writes block splitTxs h))).
Proof.
  intros Hn Eh Ha Hs Hd. assert (Forall (fun p => named p.1) (block_writes block splitTxs h)) as Hw.
  { apply Forall_forall. intros p Hp. apply (mentioned_named block splitTxs); [done..|]. apply (writes_mentioned block splitTxs h), list_elem_of_fmap. eauto. }
  rewrite Forall_forall in Ha. rewrite Forall_forall in Hs. split.
  - intros j tx Ej. change (TxIndexKey (name_of tx)) with (rkey (RTxIndex (name_of tx))). rewrite final_written by (done || (apply named_index, Ha; by eapply list_elem_of_lookup_2)). rewrite part_final.
    by rewrite (final_in _ _ _ ltac:(rewrite index_records, (list_fmap_compose name_of RTxIndex); by apply (NoDup_fmap_2 RTxIndex)) (index_in _ _ _ _ Ej)).
  - change (BlockHashKey (h_Height (b_Header block))) with (rkey (RBlockHash (h_Height (b_Header block)))). rewrite final_written by (first [done|split; [apply Hn|done]]). by rewrite part_final, decide_True.
  - change (BlockKey h) with (rkey (RBlock h)). rewrite final_written by (first [done|split; [by apply Hn|done]]). rewrite part_final. apply lookup_insert_eq.
  - intros p Hp. change (TxKey (name_of p.2)) with (rkey (RTx (name_of p.2))). rewrite final_written by (done || apply named_index, Hs, Hp). rewrite part_final. erewrite (final_same _ (Some (encoded p.2))); [done| |].
    + apply list_elem_of_bind. exists p. split; [|done]. right. by left.
    + intros v (q & Hv & Hq)%list_elem_of_bind. cbn in Hv. apply elem_of_cons in Hv as [|Hv%list_elem_of_singleton]; [done|]. injection Hv as E ->. do 2 f_equal. symmetry. apply (names_inj (allTxs block splitTxs)); [done| | |done]; unfold allTxs; rewrite !elem_of_app; right; right; apply list_elem_of_fmap; eauto.
Qed.

(** C25: After a block is written, each of its transactions, internal and split ones included, is found
    by its hash, with the block and the kind of transaction it is. *)
Theorem written_found genesis block splitTxs s u s1 j tx : st_batch s = [] -> block_named block splitTxs -> block_sound block -> Forall (fun p => tx_hashes p.2) (visit splitTxs) -> (0 < h_Height (b_Header block))%Z ->
  NoDup (name_of <$> allTxs block splitTxs) -> (Z.of_nat (length (allTxs block splitTxs)) < 2 ^ 32)%Z -> writeBlockRecords block splitTxs s = (EOk u, s1) -> allTxs block splitTxs !! j = Some tx ->
  exists h, hash tx = Some h /\ LoadBlockInfoByTxHash genesis h s1 = (EOk (reloaded block, untyped tx, kind_at block j), s1).
Proof.
  intros Hb Hn Hbs Hts Hpos Hd Hlen E Ej. destruct (writeBlock_eq _ _ _ _ _ Hb E) as (h & data & Eh & Ed & Ha & Hs & Hb1 & Edb & _). pose proof (proj1 (Forall_forall _ _) Ha tx (list_elem_of_lookup_2 _ _ _ Ej)) as [th Eth].
  exists th. split; [done|]. rewrite <-(name_hash _ _ Eth). eapply (lookup_found genesis block splitTxs h data); [|done| |split; [done|apply Hn]|by apply Hn|done|done|done|by exists th].
  - rewrite Edb. by apply written_holds.
  - apply Forall_and. done.
Qed.

End Written.

(** * A split address and its block

    One block makes a split address, the next pays to it.  The theorems on records are applied to
    these blocks; two more split addresses show what the division does with large amounts and with
    weights that are all 0. *)

Import Script Kinds DbKey Blocks Records.

Module RecordsDemo.
#[local] Existing Instance ToyCrypto.toy.

#[local] Instance order : VisitOrder := {| visit K _ _ A m := map_to_list m; visit_perm K _ _ A m := reflexivity _ |}.

#[local] Instance TxData_eq_dec : EqDecision TxData.
Proof. solve_decision. Defined.
#[local] Instance PbOutPoint_eq_dec : EqDecision PbOutPoint.
Proof. solve_decision. Defined.
#[local] Instance PbTxIn_eq_dec : EqDecision PbTxIn.
Proof. solve_decision. Defined.
#[local] Instance PbTransaction_eq_dec : EqDecision PbTransaction.
Proof. solve_decision. Defined.

Definition alice : bytes := replicate 20 x0a.
Definition bob : bytes := replicate 20 x0b.
Definition coin (b : byte) : list TxIn := [mkTxIn (mkOutPoint (replicate 32 b) 0) [x01] 0].

(** The address of [addrs] with [weights], made by the transaction with hash [h]. *)
Definition shared (h : bytes) (addrs : list bytes) (weights : list Z) : bytes := MakeSplitAddress h 0 addrs weights.
Definition share_out (addrs : list bytes) (weights : list Z) : TxOut := mkTxOut 0 (default [] (SplitAddrScript addrs weights)).
Definition named_hash (b : byte) : bytes := ToyCrypto.pad 32 [b].

Definition make : Transaction := mkTx UnknownTx 1 (coin x01) [share_out [alice; bob] [1%Z; 3%Z]] None 0 0.
Definition address : bytes := shared (named_hash x00) [alice; bob] [1%Z; 3%Z].
Definition pay : Transaction := mkTx UnknownTx 1 (coin x02) [mkTxOut 101 (PayToPubKeyHashScript address); mkTxOut 7 (PayToPubKeyHashScript bob)] None 0 0.
Definition divided : Transaction :=
  mkTx SplitTx 1 (coin x02) [mkTxOut 25 (PayToPubKeyHashScript alice); mkTxOut 76 (PayToPubKeyHashScript bob); mkTxOut 7 (PayToPubKeyHashScript bob)] None 0 0.

(** Encodings that know these transactions only: each is its place in the table. *)
Definition table : list PbTransaction := Types.Transaction_ToProtoMessage <$> [make; pay; divided].

#[local] Instance txs : TxCodec := {| pb_marshal m := (fun p => le_bytes 1 (Z.of_nat p.1)) <$> list_find (fun x => x = m) table |}.
#[local] Instance tx_decoder : TxDecoder := {| pb_unmarshal d := match d with [b] => table !! Z.to_nat (b2z b) | _ => None end |}.

#[local] Instance tx_laws : TxDecoderLaws txs tx_decoder.
Proof.
  split. intros m d. cbn [pb_marshal txs]. destruct (list_find _ table) as [[i x]|] eqn:E; [|done]. apply list_find_Some in E as (Hi & -> & _). intros [= <-]. cbn [pb_unmarshal tx_decoder].
  pose proof (lookup_lt_Some _ _ _ Hi) as Hlt. unfold table in Hlt. rewrite length_fmap in Hlt. cbn [length] in Hlt. destruct i as [|[|[|i]]]; [exact Hi..|lia].
Qed.

#[local] Instance headers : HeaderCodec := {| pb_header_marshal m := Some (le_bytes 1 (ph_Height m)) |}.

Definition header (n : Z) : BlockHeader :=
  let z := replicate 32 x00 in mkHeader 1 z z z z z 0 0 z z n 0 (replicate 20 x00) (Some Receipt.emptyBloom).
Definition first : Block := mkBlock None (header 1) [make] [] [] None.
Definition second : Block := mkBlock None (header 2) [pay] [] [] None.

(** A block is its height. *)
Definition block_table : list PbBlock := ToProtoMessage <$> [first; second].
#[local] Instance Irreversible_eq_dec : EqDecision IrreversibleInfo.
Proof. solve_decision. Defined.
#[local] Instance PbHeader_eq_dec : EqDecision PbHeader.
Proof. solve_decision. Defined.
#[local] Instance PbBlock_eq_dec : EqDecision PbBlock.
Proof. solve_decision. Defined.
#[local] Instance blocks : BlockCodec := {|
  pb_block_marshal m := (fun p => le_bytes 1 (Z.of_nat p.1)) <$> list_find (fun x => x = m) block_table;
  pb_block_unmarshal d := match d with [b] => block_table !! Z.to_nat (b2z b) | _ => None end
|}.

#[local] Instance block_laws : BlockCodecLaws blocks.
Proof.
  split. intros m d. cbn [pb_block_marshal blocks]. destruct (list_find _ block_table) as [[i x]|] eqn:E; [|done]. apply list_find_Some in E as (Hi & -> & _). intros [= <-]. cbn [pb_block_unmarshal blocks].
  pose proof (lookup_lt_Some _ _ _ Hi) as Hlt. unfold block_table in Hlt. rewrite length_fmap in Hlt. cbn [length] in Hlt. destruct i as [|[|i]]; [exact Hi..|lia].
Qed.

(** ** Dividing *)

(** The database after the first block, as far as split addresses go. *)
Definition shares (addrs : list bytes) (weights : list Z) : bytes := match Marshall (mkSplitInfo addrs weights) with Ok d => d | Err _ => [] end.
Definition known (addr data : bytes) : Store :=
  mkStore {[ SplitAddrKey addr := data ]} (match Bloom.Add (Bloom.NewFilterWithMK 64 2) addr with Returns f => f | Panics => Bloom.NewFilterWithMK 64 2 end) [].
Definition start : Store := known address (shares [alice; bob] [1%Z; 3%Z]).

Definition outputs (r : eres RecErr (list TxOut) * Store) : option (list Z) := match r.1 with EOk l => Some (Value <$> l) | _ => None end.

Example address_made :
  (match (writeBlockRecords first ∅ (mkStore ∅ (Bloom.NewFilterWithMK 64 2) [])) with (EOk _, s) => Some (st_db s !! SplitAddrKey address, bool_decide (f_filter (st_filter s) = f_filter (st_filter start))) | _ => None end) =
  Some (Some (shares [alice; bob] [1%Z; 3%Z]), true).
Proof. vm_compute. reflexivity. Qed.

Example pay_divided : (match (SplitBlockOutputs 5 second start).1 with EOk (b, m) => Some (b_Txs b, map_to_list m) | _ => None end) = Some ([divided], [(named_hash x01, divided)]).
Proof. vm_compute. reflexivity. Qed.

(** Two parts of equal weight: the product of the amount and the weight wraps around, the first part
    gets nothing. *)
Definition even : bytes := shared (named_hash x05) [alice; bob] [2147483648%Z; 2147483648%Z].

Example large_share_wraps :
  outputs (splitTxOutput 5 (mkTxOut 8589934592 (PayToPubKeyHashScript even)) (known even (shares [alice; bob] [2147483648%Z; 2147483648%Z]))) = Some [0%Z; 8589934592%Z].
Proof. vm_compute. reflexivity. Qed.

(** All weights 0: a payment to the address is a division by zero. *)
Definition weightless : bytes := shared (named_hash x06) [alice; bob] [0%Z; 0%Z].

Example zero_weights_crash :
  IsSplitAddrScript (ScriptPubKey (share_out [alice; bob] [0%Z; 0%Z])) = true /\
  (splitTxOutput 5 (mkTxOut 10 (PayToPubKeyHashScript weightless)) (known weightless (shares [alice; bob] [0%Z; 0%Z]))).1 = EPanic.
Proof. vm_compute. done. Qed.

(** The parts are not split addresses. *)
Definition rank (a : bytes) : nat := if decide (SplitAddrKey a = SplitAddrKey address) then 1 else 0.

Lemma start_index : index_ok (st_db start) rank.
Proof.
  intros a data info Hl Hu. change (st_db start) with ({[ SplitAddrKey address := shares [alice; bob] [1%Z; 3%Z] ]} : Db) in Hl. apply lookup_singleton_Some in Hl as [Ek <-]. vm_compute in Hu. injection Hu as <-. split; [cbn; unfold MaxSplitAddrs; lia|].
  assert (rank a = 1) as -> by (unfold rank; by rewrite decide_True). repeat constructor; vm_compute; lia.
Qed.

Lemma split_keeps_value_witness :
  match splitTxOutputs 5 pay start with
  | (EOk (tx', b), s') => s' = start /\ Zsum (Value <$> Vout tx') = Zsum (Value <$> Vout pay) /\ Vin tx' = Vin pay /\ (b = false -> tx' = pay)
  | (EPanic, _) => weightless_known (st_db start)
  | _ => False
  end.
Proof.
  apply (split_keeps_value rank 5 pay start).
  - exact start_index.
  - split; [vm_compute; lia|vm_compute; reflexivity].
  - repeat constructor; cbn; lia.
  - repeat constructor; vm_compute; lia.
Defined.

(** ** The records of the second block *)

Definition splitTxs : gmap bytes Transaction := {[ named_hash x01 := divided ]}.
Abbreviation run := (writeBlockRecords second splitTxs start).

Lemma second_run : run = (EOk tt, run.2).
Proof. refine (eq_trans (surjective_pairing run) (f_equal (fun x => (x, run.2)) _)). vm_compute. reflexivity. Qed.

Lemma second_named : block_named second splitTxs.
Proof. split; [cbn; lia|]. split; [intros h E; vm_compute in E; by injection E as <-|]. apply map_Forall_singleton. reflexivity. Qed.

Lemma second_sound : block_sound second.
Proof.
  split_and!; [|repeat constructor..|done]. split; [repeat constructor|done|]. intros bf [= <-]. apply emptyBloom_sized.
Qed.

Lemma nothing_there : forallb (fun r => bool_decide (st_db start !! rkey r = None)) (block_writes second splitTxs []).*1 = true.
Proof. vm_compute. reflexivity. Qed.

Lemma disconnect_restores_witness : exists s2 data, removeBlockRecords second splitTxs run.2 = (EOk tt, s2) /\ st_db s2 = <[BlockKey (named_hash x02) := data]> (st_db start).
Proof.
  destruct (disconnect_restores second splitTxs start run.2 tt) as (s2 & h & data & E & Eh & _ & Ed).
  - reflexivity.
  - exact second_named.
  - intros r Hr. apply (writes_mentioned second splitTxs []) in Hr. apply (bool_decide_eq_true _), (proj1 (forallb_forall _ _) nothing_there), list_elem_of_In, Hr.
  - exact second_run.
  - assert (Some h = Some (named_hash x02)) as [= ->] by (rewrite <-Eh; vm_compute; reflexivity). exists s2, data. split; [exact E|exact Ed].
Defined.

Lemma written_found_witness : LoadBlockInfoByTxHash first (named_hash x02) run.2 = (EOk (reloaded second, untyped divided, SplitTxKind), run.2).
Proof.
  destruct (written_found first second splitTxs start tt run.2 1 divided) as (h & Eh & E).
  - reflexivity.
  - exact second_named.
  - exact second_sound.
  - unfold visit, order, splitTxs. rewrite map_to_list_singleton. by repeat constructor.
  - cbn. lia.
  - apply (bool_decide_eq_true _). vm_compute. reflexivity.
  - vm_compute. reflexivity.
  - exact second_run.
  - vm_compute. reflexivity.
  - assert (Some h = Some (named_hash x02)) as [= ->] by (rewrite <-Eh; vm_compute; reflexivity). exact E.
Defined.

End RecordsDemo.
