(* ===== verification/Sync.v ===== *)
(** * Sync: catching up with other nodes (src/blocksync)

    A node that is behind asks one peer for the hashes after the fork point, has two peers confirm
    the root of these hashes, fetches the blocks in chunks from any peer and processes them.  The
    sync loop, the handler of messages and the goroutines that process blocks are threads over one
    state; every step of [sync_step] is one of theirs between two points where it waits.  A node
    answers the same requests of others from its main chain.

    The connections are those of p2p/peer.go; the protobuf encodings are generated code, the class
    [SyncCodec].  Channels are modelled by what is in them, with their capacity. *)

From S2P Require Import Prelude Effects Crypto Bytes Bloom EvmState Types Receipt Blocks Merkle Chain.
Import Blocks.

Abbreviation peerID := bytes (only parsing).

(** ** Messages (types.go) *)

Record CheckHash := mkCheckHash { ch_BeginHash : bytes; ch_Length : Z }.
Record FetchBlockHeaders := mkFetch { fb_Idx : Z; fb_Check : CheckHash }.
Record SyncBlocks := mkSyncBlocks { sb_Idx : Z; sb_Blocks : list Block }.

Record PbCheckHash := mkPbCheckHash { pc_BeginHash : bytes; pc_Length : Z }.
Record PbFetch := mkPbFetch { pf_Idx : Z; pf_BeginHash : bytes; pf_Length : Z }.
Record PbSyncBlocks := mkPbSyncBlocks { ps_Idx : Z; ps_Blocks : list (option PbBlock) }.

(** [None] is an error of encoding or decoding. *)
Class SyncCodec := {
  pb_locate_marshal : list bytes -> option bytes;
  pb_locate_unmarshal : bytes -> option (list bytes);
  pb_headers_marshal : list bytes -> option bytes;
  pb_headers_unmarshal : bytes -> option (list bytes);
  pb_check_marshal : PbCheckHash -> option bytes;
  pb_check_unmarshal : bytes -> option PbCheckHash;
  pb_root_marshal : bytes -> option bytes;
  pb_root_unmarshal : bytes -> option bytes;
  pb_fetch_marshal : PbFetch -> option bytes;
  pb_fetch_unmarshal : bytes -> option PbFetch;
  pb_blocks_marshal : PbSyncBlocks -> option bytes;
  pb_blocks_unmarshal : bytes -> option PbSyncBlocks
}.

Class SyncCodecLaws (S : SyncCodec) : Prop := {
  locate_roundtrip m d : pb_locate_marshal m = Some d -> pb_locate_unmarshal d = Some m;
  headers_roundtrip m d : pb_headers_marshal m = Some d -> pb_headers_unmarshal d = Some m;
  check_roundtrip m d : pb_check_marshal m = Some d -> pb_check_unmarshal d = Some m;
  root_roundtrip m d : pb_root_marshal m = Some d -> pb_root_unmarshal d = Some m;
  fetch_roundtrip m d : pb_fetch_marshal m = Some d -> pb_fetch_unmarshal d = Some m;
  blocks_roundtrip m d : pb_blocks_marshal m = Some d -> pb_blocks_unmarshal d = Some m
}.

Module SyncTypes.
Section Types.
Context {SC : SyncCodec} `{C : Crypto} `{HC : HeaderCodec}.

(** Hashes are arrays; [copy] fills an array from a slice of any length. *)
Definition newCheckHash (hash : option bytes) (len : Z) : CheckHash := mkCheckHash (default Crypto.ZeroHash hash) len.
Definition newSyncCheckHash (hash : option bytes) : bytes := default Crypto.ZeroHash hash.
Definition newFetchBlockHeaders (idx : Z) (hash : option bytes) (len : Z) : FetchBlockHeaders := mkFetch idx (newCheckHash hash len).

(** The first hash that has another length is an error. *)
Fixpoint ConvBytesArrayToHashes (l : list bytes) : option (list bytes) :=
  match l with
  | [] => Some []
  | v :: l => if negb (length v =? 32) then None else rest ← ConvBytesArrayToHashes l; Some (v :: rest)
  end.

(** The error of the first block. *)
Fixpoint ConvPbBlocksToBlocks (l : list (option PbBlock)) : go (option (list Block)) :=
  match l with
  | [] => Returns (Some [])
  | v :: l =>
      r ← FromProtoMessage v;
      match r with
      | Err _ => Returns None
      | Ok b => rest ← ConvPbBlocksToBlocks l; Returns (match rest with Some bs => Some (b :: bs) | None => None end)
      end
  end.

Definition LocateHeaders_Marshal (hashes : list bytes) : option bytes := pb_locate_marshal hashes.
Definition SyncHeaders_Marshal (hashes : list bytes) : option bytes := pb_headers_marshal hashes.
Definition CheckHash_Marshal (ch : CheckHash) : option bytes := pb_check_marshal (mkPbCheckHash (ch_BeginHash ch) (ch_Length ch)).
Definition SyncCheckHash_Marshal (root : bytes) : option bytes := pb_root_marshal root.
Definition FetchBlockHeaders_Marshal (f : FetchBlockHeaders) : option bytes := pb_fetch_marshal (mkPbFetch (fb_Idx f) (ch_BeginHash (fb_Check f)) (ch_Length (fb_Check f))).
Definition SyncBlocks_Marshal (sb : SyncBlocks) : option bytes := pb_blocks_marshal (mkPbSyncBlocks (sb_Idx sb) (map (fun b => Some (ToProtoMessage b)) (sb_Blocks sb))).

Definition LocateHeaders_Unmarshal (data : bytes) : option (list bytes) := m ← pb_locate_unmarshal data; ConvBytesArrayToHashes m.
Definition SyncHeaders_Unmarshal (data : bytes) : option (list bytes) := m ← pb_headers_unmarshal data; ConvBytesArrayToHashes m.
Definition CheckHash_Unmarshal (data : bytes) : option CheckHash := m ← pb_check_unmarshal data; Some (mkCheckHash (Types.copyHash (pc_BeginHash m)) (pc_Length m)).
Definition SyncCheckHash_Unmarshal (data : bytes) : option bytes := m ← pb_root_unmarshal data; Some (Types.copyHash m).
Definition FetchBlockHeaders_Unmarshal (data : bytes) : option FetchBlockHeaders :=
  m ← pb_fetch_unmarshal data; Some (mkFetch (pf_Idx m) (mkCheckHash (Types.copyHash (pf_BeginHash m)) (pf_Length m))).
Definition SyncBlocks_Unmarshal (data : bytes) : go (option SyncBlocks) :=
  match pb_blocks_unmarshal data with
  | None => Returns None
  | Some m => bs ← ConvPbBlocksToBlocks (ps_Blocks m); Returns (match bs with Some bs => Some (mkSyncBlocks (ps_Idx m) bs) | None => None end)
  end.

End Types.
End SyncTypes.
Import SyncTypes.

(** ** The state *)

Inductive syncStatus := freeStatus | locateStatus | checkStatus | blocksStatus.
Inductive peerStatus := availablePeerStatus | locatePeerStatus | locateDonePeerStatus | checkedPeerStatus | checkedDonePeerStatus | blocksPeerStatus | blocksDonePeerStatus | errPeerStatus.
Inductive errFlag := errFlagNoHash | errFlagInSync | errFlagUnmarshal | errFlagWrongPeerStatus | errFlagCheckNumTooBig | errFlagRootHashMismatch.

#[export] Instance syncStatus_eq_dec : EqDecision syncStatus.
Proof. solve_decision. Defined.
#[export] Instance peerStatus_eq_dec : EqDecision peerStatus.
Proof. solve_decision. Defined.
#[export] Instance errFlag_eq_dec : EqDecision errFlag.
Proof. solve_decision. Defined.

Record blockCheckInfo := mkCheckInfo { ci_rootHash : bytes; ci_fbh : FetchBlockHeaders }.

(** What [reset] resets. *)
Record Progress := mkProgress {
  pg_checkNum : Z;
  pg_checkRootHash : bytes;
  pg_fetchHashes : list bytes;
  pg_peerBlockCheckInfo : gmap peerID (list (option blockCheckInfo));
  pg_checkHash : option CheckHash;
  pg_blocksSynced : Z
}.

(** What is in the channels. *)
Record Channels := mkChannels {
  cn_locateErr : option errFlag;
  cn_locateDone : bool;
  cn_checkErr : option errFlag;
  cn_checkOk : nat;
  cn_syncErr : bool;
  cn_blocksDone : nat;
  cn_blocksErr : list FetchBlockHeaders;
  cn_blocksProcessed : nat
}.

Inductive SyncCode := LocateForkPointRequest | LocateForkPointResponse | LocateCheckRequest | LocateCheckResponse | BlockChunkRequest | BlockChunkResponse | LightSyncRequest | LightSyncReponse.

Section State.
Context `{L : Ledger} `{BC : Lru bytes Block} `{MC : Lru Z Block}.

(** [sm_conns] are the connections with whether the peer says that it is synchronised, [sm_sent] the
    messages given to them, [sm_jobs] the goroutines that process blocks from a peer. *)
Record SyncManager := mkSync {
  sm_status : syncStatus;
  sm_progress : Progress;
  sm_stalePeers : gmap peerID peerStatus;
  sm_maliciousPeers : gmap peerID unit;
  sm_lastLocatedHash : option bytes;
  sm_channels : Channels;
  sm_chain : BlockChain;
  sm_conns : gmap peerID bool;
  sm_sent : list (peerID * SyncCode * bytes);
  sm_jobs : list (peerID * list Block);
  sm_mintStopped : bool;
  sm_synced : bool
}.

Definition with_status (s : SyncManager) v := mkSync v (sm_progress s) (sm_stalePeers s) (sm_maliciousPeers s) (sm_lastLocatedHash s) (sm_channels s) (sm_chain s) (sm_conns s) (sm_sent s) (sm_jobs s) (sm_mintStopped s) (sm_synced s).
Definition with_progress (s : SyncManager) v := mkSync (sm_status s) v (sm_stalePeers s) (sm_maliciousPeers s) (sm_lastLocatedHash s) (sm_channels s) (sm_chain s) (sm_conns s) (sm_sent s) (sm_jobs s) (sm_mintStopped s) (sm_synced s).
Definition with_stale (s : SyncManager) v := mkSync (sm_status s) (sm_progress s) v (sm_maliciousPeers s) (sm_lastLocatedHash s) (sm_channels s) (sm_chain s) (sm_conns s) (sm_sent s) (sm_jobs s) (sm_mintStopped s) (sm_synced s).
Definition with_malicious (s : SyncManager) v := mkSync (sm_status s) (sm_progress s) (sm_stalePeers s) v (sm_lastLocatedHash s) (sm_channels s) (sm_chain s) (sm_conns s) (sm_sent s) (sm_jobs s) (sm_mintStopped s) (sm_synced s).
Definition with_last (s : SyncManager) v := mkSync (sm_status s) (sm_progress s) (sm_stalePeers s) (sm_maliciousPeers s) v (sm_channels s) (sm_chain s) (sm_conns s) (sm_sent s) (sm_jobs s) (sm_mintStopped s) (sm_synced s).
Definition with_channels (s : SyncManager) v := mkSync (sm_status s) (sm_progress s) (sm_stalePeers s) (sm_maliciousPeers s) (sm_lastLocatedHash s) v (sm_chain s) (sm_conns s) (sm_sent s) (sm_jobs s) (sm_mintStopped s) (sm_synced s).
Definition with_blockchain (s : SyncManager) v := mkSync (sm_status s) (sm_progress s) (sm_stalePeers s) (sm_maliciousPeers s) (sm_lastLocatedHash s) (sm_channels s) v (sm_conns s) (sm_sent s) (sm_jobs s) (sm_mintStopped s) (sm_synced s).
Definition with_conns (s : SyncManager) v := mkSync (sm_status s) (sm_progress s) (sm_stalePeers s) (sm_maliciousPeers s) (sm_lastLocatedHash s) (sm_channels s) (sm_chain s) v (sm_sent s) (sm_jobs s) (sm_mintStopped s) (sm_synced s).
Definition with_sent_msg (s : SyncManager) v := mkSync (sm_status s) (sm_progress s) (sm_stalePeers s) (sm_maliciousPeers s) (sm_lastLocatedHash s) (sm_channels s) (sm_chain s) (sm_conns s) (sm_sent s ++ [v]) (sm_jobs s) (sm_mintStopped s) (sm_synced s).
Definition with_jobs (s : SyncManager) v := mkSync (sm_status s) (sm_progress s) (sm_stalePeers s) (sm_maliciousPeers s) (sm_lastLocatedHash s) (sm_channels s) (sm_chain s) (sm_conns s) (sm_sent s) v (sm_mintStopped s) (sm_synced s).
Definition with_mintStopped (s : SyncManager) v := mkSync (sm_status s) (sm_progress s) (sm_stalePeers s) (sm_maliciousPeers s) (sm_lastLocatedHash s) (sm_channels s) (sm_chain s) (sm_conns s) (sm_sent s) (sm_jobs s) v (sm_synced s).
Definition with_synced (s : SyncManager) v := mkSync (sm_status s) (sm_progress s) (sm_stalePeers s) (sm_maliciousPeers s) (sm_lastLocatedHash s) (sm_channels s) (sm_chain s) (sm_conns s) (sm_sent s) (sm_jobs s) (sm_mintStopped s) v.

Inductive SyncErr :=
  | errInSync | errNoPeerToSync | ErrFailedToSendMessageToPeer | errSyncUnmarshal | errSyncStatus | errSyncPeer | errTooManyChecks | errSyncCheck | errRetries | errTooFarBehind | errInvalidNum
  | errSyncChain (e : ChainErr).

End State.

Module Sync.

Definition maxCheckPeers : nat := 2.
Definition syncBlockChunkSize : nat := 64.
Definition maxSyncChunks : nat := Z.to_nat Chain.MaxBlocksPerSync / syncBlockChunkSize.
Definition locatorSeqPartLen : nat := 6.
Definition retryTimes : nat := 10.
Definition maxSyncTries : nat := 20.

(** ** Locators *)

(** The first portion, from [i] on. *)
Fixpoint seqPortion (n : nat) (height i : Z) : list Z :=
  match n with
  | O => []
  | S n => let h := u32 (height - i) in if (h =? 0)%Z then [h] else h :: seqPortion n height (i + 1)
  end.

Fixpoint skipPortion (fuel : nat) (step h : Z) : list Z * Z :=
  match fuel with
  | O => ([], h)
  | S fuel =>
      if (u32 (step + 1) <? h)%Z then
        let h := u32 (h - u32 (step + 1)) in
        let '(heights, last) := skipPortion fuel (u32 (step * 2)) h in (h :: heights, last)
      else ([], h)
  end.

(** Steps double, so that 33 turns are more than heights have bits. *)
Definition heightLocator (height : Z) : list Z :=
  let seq := seqPortion locatorSeqPartLen height 0 in
  match last seq with
  | Some h =>
      if (h =? 0)%Z then seq
      else
        let '(heights, h) := skipPortion 33 1 h in
        seq ++ heights ++ (if (0 <? h)%Z then [0%Z] else [])
  | None => []
  end.

Section Sync.
Context `{L : Ledger} `{BC : Lru bytes Block} `{MC : Lru Z Block} `{C : Crypto} `{HC : HeaderCodec} `{PB : BlockCodec} {SC : SyncCodec} {VO : VisitOrder}.

(** The identity of this node. *)
Context (own : peerID).

Abbreviation SM := (EM SyncManager SyncErr).

Definition on_chain {A} (c : EM BlockChain ChainErr A) : SM A := fun s =>
  let '(r, v) := c (sm_chain s) in
  (match r with EOk a => EOk a | EErr e => EErr (errSyncChain e) | EPanic => EPanic | EFuel => EFuel end, with_blockchain s v).
Definition sm_go {A} (x : go A) : SM A := match x with Returns a => mret a | Panics => e_panic end.

Definition set_progress (f : Progress -> Progress) : SM unit := e_modify (fun s => with_progress s (f (sm_progress s))).
Definition set_channels (f : Channels -> Channels) : SM unit := e_modify (fun s => with_channels s (f (sm_channels s))).
Definition storePeer (pid : peerID) (st : peerStatus) : SM unit := e_modify (fun s => with_stale s (<[pid := st]> (sm_stalePeers s))).
Definition setStatus (st : syncStatus) : SM unit := e_modify (fun s => with_status s st).
Definition getStatus : SM syncStatus := e_gets sm_status.

(** *** Channels *)

Definition pushLocateErr (v : errFlag) (c : Channels) : Channels :=
  mkChannels (match cn_locateErr c with Some x => Some x | None => Some v end) (cn_locateDone c) (cn_checkErr c) (cn_checkOk c) (cn_syncErr c) (cn_blocksDone c) (cn_blocksErr c) (cn_blocksProcessed c).
Definition pushLocateDone (c : Channels) : Channels := mkChannels (cn_locateErr c) true (cn_checkErr c) (cn_checkOk c) (cn_syncErr c) (cn_blocksDone c) (cn_blocksErr c) (cn_blocksProcessed c).
Definition pushCheckErr (v : errFlag) (c : Channels) : Channels :=
  mkChannels (cn_locateErr c) (cn_locateDone c) (match cn_checkErr c with Some x => Some x | None => Some v end) (cn_checkOk c) (cn_syncErr c) (cn_blocksDone c) (cn_blocksErr c) (cn_blocksProcessed c).
Definition pushCheckOk (c : Channels) : Channels :=
  mkChannels (cn_locateErr c) (cn_locateDone c) (cn_checkErr c) (if cn_checkOk c <? maxCheckPeers then S (cn_checkOk c) else cn_checkOk c) (cn_syncErr c) (cn_blocksDone c) (cn_blocksErr c) (cn_blocksProcessed c).
Definition pushSyncErr (c : Channels) : Channels := mkChannels (cn_locateErr c) (cn_locateDone c) (cn_checkErr c) (cn_checkOk c) true (cn_blocksDone c) (cn_blocksErr c) (cn_blocksProcessed c).
Definition pushBlocksDone (c : Channels) : Channels :=
  mkChannels (cn_locateErr c) (cn_locateDone c) (cn_checkErr c) (cn_checkOk c) (cn_syncErr c) (if cn_blocksDone c <? maxSyncChunks then S (cn_blocksDone c) else cn_blocksDone c) (cn_blocksErr c) (cn_blocksProcessed c).
Definition pushBlocksErr (v : FetchBlockHeaders) (c : Channels) : Channels :=
  mkChannels (cn_locateErr c) (cn_locateDone c) (cn_checkErr c) (cn_checkOk c) (cn_syncErr c) (cn_blocksDone c) (if length (cn_blocksErr c) <? maxSyncChunks then cn_blocksErr c ++ [v] else cn_blocksErr c) (cn_blocksProcessed c).
Definition pushBlocksProcessed (c : Channels) : Channels :=
  mkChannels (cn_locateErr c) (cn_locateDone c) (cn_checkErr c) (cn_checkOk c) (cn_syncErr c) (cn_blocksDone c) (cn_blocksErr c) (if cn_blocksProcessed c <? maxSyncChunks then S (cn_blocksProcessed c) else cn_blocksProcessed c).

Definition drainLocateChan (c : Channels) : Channels := mkChannels None false (cn_checkErr c) (cn_checkOk c) (cn_syncErr c) (cn_blocksDone c) (cn_blocksErr c) (cn_blocksProcessed c).
Definition drainCheckChan (c : Channels) : Channels := mkChannels (cn_locateErr c) (cn_locateDone c) None 0 (cn_syncErr c) (cn_blocksDone c) (cn_blocksErr c) (cn_blocksProcessed c).
Definition drainBlocksChan (c : Channels) : Channels := mkChannels (cn_locateErr c) (cn_locateDone c) (cn_checkErr c) (cn_checkOk c) false 0 [] 0.
Definition drainAllSyncChan (c : Channels) : Channels := drainBlocksChan (drainCheckChan (drainLocateChan c)).

Definition reset : SM unit := set_progress (fun _ => mkProgress 0 Crypto.ZeroHash [] ∅ None 0).
Definition resetAll : SM unit :=
  _ ← reset;
  _ ← setStatus freeStatus;
  _ ← e_modify (fun s => with_stale s ∅);
  set_channels drainAllSyncChan.

(** *** Peers (p2p/peer.go) *)

(** A message that can not be encoded is an error as well. *)
Definition SendMessageToPeer (code : SyncCode) (body : option bytes) (pid : peerID) : SM unit :=
  conns ← e_gets sm_conns;
  match body, conns !! pid with
  | Some body, Some _ => if bool_decide (pid = own) then e_fail ErrFailedToSendMessageToPeer else e_modify (fun s => with_sent_msg s (pid, code, body))
  | _, _ => e_fail ErrFailedToSendMessageToPeer
  end.

(** The first connection that is not excluded; no peer has the empty identity. *)
Definition PickOnePeer (peersExclusive : list peerID) : SM (option peerID) :=
  e_gets (fun s => head (filter (fun k => k ∉ peersExclusive) (visit (sm_conns s)).*1)).

(** Without a connection the assertion of its type panics. *)
Definition PeerSynced (pid : peerID) : SM bool := synced ← e_gets (fun s => sm_conns s !! pid); e_deref synced.

(** The range over [stalePeers]: the peers to leave out, or a peer that is preferred. *)
Fixpoint preferLoop (blocks : bool) (stale : list (peerID * peerStatus)) (ids : list peerID) : SM (list peerID + peerID) :=
  match stale with
  | [] => mret (inl ids)
  | (k, v) :: stale =>
      if blocks && (bool_decide (v = locateDonePeerStatus) || bool_decide (v = checkedDonePeerStatus)) then
        synced ← PeerSynced k;
        if synced : bool then
          malicious ← e_gets (fun s => bool_decide (is_Some (sm_maliciousPeers s !! k)));
          if malicious : bool then preferLoop blocks stale ids else mret (inr k)
        else preferLoop blocks stale (ids ++ [k])
      else preferLoop blocks stale (ids ++ [k])
  end.

(** The next synchronised peer, with the others that were found on the way. *)
Fixpoint pickLoop (fuel : nat) (ids syncIds : list peerID) : SM (option peerID * list peerID) :=
  match fuel with
  | O => e_fuel
  | S fuel =>
      pid ← PickOnePeer ids;
      match pid with
      | None => mret (None, syncIds)
      | Some pid =>
          synced ← PeerSynced pid;
          if synced : bool then mret (Some pid, syncIds) else pickLoop fuel (ids ++ [pid]) (syncIds ++ [pid])
      end
  end.

(** One turn per connection and one more. *)
Definition pickOnePeer (st : syncStatus) : SM peerID :=
  malicious ← e_gets (fun s => (visit (sm_maliciousPeers s)).*1);
  stale ← e_gets (fun s => visit (sm_stalePeers s));
  fuel ← e_gets (fun s => S (size (sm_conns s)));
  r ← preferLoop (bool_decide (st = blocksStatus)) stale malicious;
  match r with
  | inr pid => mret pid
  | inl ids =>
      '(pid, syncIds) ← pickLoop fuel ids [];
      match pid with
      | Some pid => mret pid
      | None =>
          let ids := malicious ++ (filter (fun p => p.2 = errPeerStatus \/ p.1 ∈ syncIds) stale).*1 in
          '(pid, _) ← pickLoop fuel ids [];
          match pid with Some pid => mret pid | None => e_fail errNoPeerToSync end
      end
  end.

Definition setTimeoutPeersErrStatus (st : peerStatus) : SM unit :=
  e_modify (fun s => with_stale s ((fun v => if bool_decide (v = st) then errPeerStatus else v) <$> sm_stalePeers s)).

Definition verifyPeerStatus (st : peerStatus) (pid : peerID) : SM bool := e_gets (fun s => bool_decide (sm_stalePeers s !! pid = Some st)).

(** ** Answers from the main chain (core/chain/blockchain.go) *)

Definition tailHeight : SM Z := e_gets (fun s => Chain.height (c_tail (sm_chain s))).
Definition loadHash (h : Z) : SM bytes := b ← on_chain (Chain.LoadBlockByHeight h); e_deref (BlockHash b).

(** The hashes at [n] heights from [h] on. *)
Fixpoint hashesFrom (n : nat) (h : Z) : SM (list bytes) :=
  match n with
  | O => mret []
  | S n => k ← loadHash h; rest ← hashesFrom n (u32 (h + 1)); mret (k :: rest)
  end.

(** The loop up to the tail, which the test before it bounds. *)
Fixpoint hashesTo (fuel : nat) (h tail : Z) : SM (list bytes) :=
  if (h <=? tail)%Z then
    match fuel with
    | O => e_fuel
    | S fuel => k ← loadHash h; rest ← hashesTo fuel (u32 (h + 1)) tail; mret (k :: rest)
    end
  else mret [].

(** The block at the height of a known block is dereferenced even if there is none. *)
Fixpoint LocateForkPointAndFetchHeaders (hashes : list bytes) : SM (list bytes) :=
  match hashes with
  | [] => mret []
  | hash :: hashes =>
      tailH ← tailHeight;
      r ← e_try (on_chain (Chain.LoadBlockByHash hash));
      match r with
      | Err _ => LocateForkPointAndFetchHeaders hashes
      | Ok block =>
          r ← e_try (on_chain (Chain.LoadBlockByHeight (Chain.height block)));
          match r with
          | Err _ => e_panic
          | Ok b =>
              if negb (Crypto.IsEqual (BlockHash b) (BlockHash block)) then LocateForkPointAndFetchHeaders hashes
              else
                let currentHeight := u32 (Chain.height block + 1) in
                if (u32 (u32 (tailH - Chain.height block) + 1) <? Chain.MaxBlocksPerSync)%Z
                then hashesTo (Z.to_nat Chain.MaxBlocksPerSync) currentHeight tailH
                else hashesFrom (Z.to_nat Chain.MaxBlocksPerSync) currentHeight
          end
      end
  end.

(** The last entry of the array; the array of no hashes has a negative size. *)
Definition merkleRootOf (hashes : list (option bytes)) : SM (option bytes) :=
  merkleRoot ← sm_go (Merkle.BuildMerkleRoot hashes);
  e_deref (last merkleRoot).

Definition CalcRootHashForNBlocks (hash : bytes) (num : Z) : SM (option bytes) :=
  block ← on_chain (Chain.LoadBlockByHash hash);
  tailH ← tailHeight;
  if (u32 (u32 (tailH - Chain.height block) + 1) <? num)%Z then e_fail errInvalidNum
  else hashes ← hashesFrom (Z.to_nat num) (Chain.height block); merkleRootOf (map Some hashes).

Fixpoint blocksFrom (n : nat) (h : Z) : SM (list Block) :=
  match n with
  | O => mret []
  | S n => b ← on_chain (Chain.LoadBlockByHeight h); rest ← blocksFrom n (u32 (h + 1)); mret (b :: rest)
  end.

Definition FetchNBlockAfterSpecificHash (hash : bytes) (num : Z) : SM (list Block) :=
  block ← on_chain (Chain.LoadBlockByHash hash);
  tailH ← tailHeight;
  if (num <=? 0)%Z || (u32 (u32 (tailH - Chain.height block) + 1) <? num)%Z then e_fail errInvalidNum
  else blocksFrom (Z.to_nat num) (Chain.height block).

(** *** Locating *)

Fixpoint hashesAt (heights : list Z) : SM (list bytes) :=
  match heights with
  | [] => mret []
  | h :: heights => k ← loadHash h; rest ← hashesAt heights; mret (k :: rest)
  end.

Definition getLatestBlockLocator : SM (list bytes) :=
  tailH ← tailHeight;
  if (tailH =? 0)%Z then g ← e_gets (fun s => c_genesis (sm_chain s)); k ← e_deref (BlockHash g); mret [k]
  else hashesAt (heightLocator tailH).

(** The hashes from the first one on that is not on this chain; [None] is nil. *)
Fixpoint rmOverlap (locateHashes : list bytes) : SM (option (list bytes)) :=
  match locateHashes with
  | [] => mret None
  | h :: rest =>
      r ← e_try (on_chain (Chain.LoadBlockByHash h));
      longest ← e_gets (fun s => c_LongestChainHeight (sm_chain s));
      match r with
      | Err _ => mret (Some locateHashes)
      | Ok block => if (longest <? Chain.height block)%Z then mret (Some locateHashes) else rmOverlap rest
      end
  end.

Definition locateHashes : SM unit :=
  lastHash ← e_gets sm_lastLocatedHash;
  hashes ← match lastHash with Some h => mret [h] | None => getLatestBlockLocator end;
  pid ← pickOnePeer locateStatus;
  _ ← storePeer pid locatePeerStatus;
  SendMessageToPeer LocateForkPointRequest (LocateHeaders_Marshal hashes) pid.

(** *** Checking *)

Fixpoint pickCheckPeers (n : nat) : SM (list peerID) :=
  match n with
  | O => mret []
  | S n => pid ← pickOnePeer checkStatus; _ ← storePeer pid checkedPeerStatus; rest ← pickCheckPeers n; mret (pid :: rest)
  end.

Fixpoint sendAll (code : SyncCode) (body : option bytes) (peers : list peerID) : SM unit :=
  match peers with [] => mret tt | pid :: peers => _ ← SendMessageToPeer code body pid; sendAll code body peers end.

Definition with_checkHash (p : Progress) v := mkProgress (pg_checkNum p) (pg_checkRootHash p) (pg_fetchHashes p) (pg_peerBlockCheckInfo p) v (pg_blocksSynced p).

(** [fetchHashes] is not empty when hashes are checked; an index out of range panics. *)
Definition checkHashes (checkTimes : nat) : SM unit :=
  peers ← pickCheckPeers checkTimes;
  hashes ← e_gets (fun s => pg_fetchHashes (sm_progress s));
  first ← e_deref (head hashes);
  let ch := newCheckHash (Some first) (u32 (Z.of_nat (length hashes))) in
  _ ← set_progress (fun p => with_checkHash p (Some ch));
  sendAll LocateCheckRequest (CheckHash_Marshal ch) peers.

Definition checkPass : SM bool := e_gets (fun s => (Z.of_nat maxCheckPeers <=? pg_checkNum (sm_progress s))%Z).

(** *** Fetching *)

Definition fetchRemoteBlocks (fbh : FetchBlockHeaders) : SM peerID :=
  pid ← pickOnePeer blocksStatus;
  _ ← storePeer pid blocksPeerStatus;
  _ ← SendMessageToPeer BlockChunkRequest (FetchBlockHeaders_Marshal fbh) pid;
  mret pid.

Fixpoint fetchRemoteBlocksWithRetry (fbh : FetchBlockHeaders) (times : nat) : SM peerID :=
  match times with
  | O => e_fail errRetries
  | S times => r ← e_try (fetchRemoteBlocks fbh); match r with Ok pid => mret pid | Err _ => fetchRemoteBlocksWithRetry fbh times end
  end.

Definition with_checkInfo (p : Progress) v := mkProgress (pg_checkNum p) (pg_checkRootHash p) (pg_fetchHashes p) v (pg_checkHash p) (pg_blocksSynced p).

(** The chunks left, from number [idx] on; [fuel] is more than there are. *)
Fixpoint fetchChunks (fuel : nat) (hashes : list bytes) (idx : Z) : SM unit :=
  match fuel, hashes with
  | _, [] => mret tt
  | O, _ => e_fuel
  | S fuel, first :: _ =>
      let chunk := take syncBlockChunkSize hashes in
      let fbh := newFetchBlockHeaders idx (Some first) (Z.of_nat (length chunk)) in
      pid ← fetchRemoteBlocksWithRetry fbh retryTimes;
      root ← merkleRootOf (map Some chunk);
      rootHash ← e_deref root;
      _ ← set_progress (fun p => with_checkInfo p (<[pid := default [] (pg_peerBlockCheckInfo p !! pid) ++ [Some (mkCheckInfo rootHash fbh)]]> (pg_peerBlockCheckInfo p)));
      fetchChunks fuel (drop syncBlockChunkSize hashes) (idx + 1)
  end.

Definition fetchAllBlocks (hashes : list bytes) : SM unit := fetchChunks (length hashes) hashes 0.

Definition completed : SM bool := e_gets (fun s => (Z.of_nat (length (pg_fetchHashes (sm_progress s))) <=? pg_blocksSynced (sm_progress s))%Z).
Definition moreSync : SM bool := e_gets (fun s => (Chain.MaxBlocksPerSync <=? Z.of_nat (length (pg_fetchHashes (sm_progress s))))%Z).

Definition merkleRootHashForBlocks (blocks : list Block) : SM bytes :=
  root ← merkleRootOf (map BlockHash blocks);
  e_deref root.

(** The first open entry with the index: what is left, or the request that failed. *)
Fixpoint clearInfo (rootHash : bytes) (idx : Z) (infos : list (option blockCheckInfo)) : option (list (option blockCheckInfo)) + FetchBlockHeaders :=
  match infos with
  | [] => inl None
  | None :: rest => match clearInfo rootHash idx rest with inl (Some l) => inl (Some (None :: l)) | r => r end
  | Some v :: rest =>
      if (fb_Idx (ci_fbh v) =? idx)%Z then
        if bool_decide (rootHash = ci_rootHash v) then inl (Some (None :: rest)) else inr (ci_fbh v)
      else match clearInfo rootHash idx rest with inl (Some l) => inl (Some (Some v :: l)) | r => r end
  end.

Definition checkBlocksAndClearInfo (sb : SyncBlocks) (pid : peerID) : SM (option FetchBlockHeaders * bool) :=
  infos ← e_gets (fun s => pg_peerBlockCheckInfo (sm_progress s) !! pid);
  match infos with
  | None => mret (None, false)
  | Some infos =>
      rootHash ← match sb_Blocks sb with [] => mret Crypto.ZeroHash | bs => merkleRootHashForBlocks bs end;
      match clearInfo rootHash (sb_Idx sb) infos with
      | inr fbh => mret (Some fbh, false)
      | inl cleared =>
          let infos := default infos cleared in
          _ ← set_progress (fun p => with_checkInfo p (if bool_decide (Forall (fun v => v = None) infos) then delete pid (pg_peerBlockCheckInfo p) else <[pid := infos]> (pg_peerBlockCheckInfo p)));
          mret (None, bool_decide (is_Some cleared))
      end
  end.

(** ** Messages (sync_server.go) *)

Definition from_option {A} (o : option A) : SM A := match o with Some a => mret a | None => e_fail errSyncUnmarshal end.

Definition onLocateRequest (from : peerID) (body : bytes) : SM unit :=
  st ← getStatus;
  if negb (bool_decide (st = freeStatus)) then SendMessageToPeer LocateForkPointResponse (SyncHeaders_Marshal [Crypto.ZeroHash]) from
  else
    lh ← from_option (LocateHeaders_Unmarshal body);
    hashes ← LocateForkPointAndFetchHeaders lh;
    SendMessageToPeer LocateForkPointResponse (SyncHeaders_Marshal hashes) from.

Definition with_located (p : Progress) hashes root := mkProgress (pg_checkNum p) root hashes (pg_peerBlockCheckInfo p) (pg_checkHash p) (pg_blocksSynced p).

(** The message about an error of decoding shows the first of no hashes. *)
Definition onLocateResponse (from : peerID) (body : bytes) : SM unit :=
  st ← getStatus;
  if negb (bool_decide (st = locateStatus)) then e_fail errSyncStatus
  else
    asked ← verifyPeerStatus locatePeerStatus from;
    if negb asked then
      _ ← storePeer from errPeerStatus;
      _ ← set_channels (pushLocateErr errFlagWrongPeerStatus);
      e_fail errSyncPeer
    else
      match SyncHeaders_Unmarshal body with
      | None => e_panic
      | Some hashes =>
          if bool_decide (hashes = [Crypto.ZeroHash]) then
            _ ← storePeer from errPeerStatus;
            set_channels (pushLocateErr errFlagUnmarshal)
          else
            match last hashes with
            | None =>
                _ ← storePeer from errPeerStatus;
                set_channels (pushLocateErr errFlagNoHash)
            | Some lastHash =>
                fresh ← rmOverlap hashes;
                match fresh with
                | None =>
                    _ ← e_modify (fun s => with_last s (Some lastHash));
                    set_channels (pushLocateErr errFlagNoHash)
                | Some hashes =>
                    root ← merkleRootOf (map Some hashes);
                    rootHash ← e_deref root;
                    _ ← set_progress (fun p => with_located p hashes rootHash);
                    _ ← storePeer from locateDonePeerStatus;
                    set_channels pushLocateDone
                end
            end
      end.

(** An error of computing the root is answered with the zero hash. *)
Definition onCheckRequest (from : peerID) (body : bytes) : SM unit :=
  st ← getStatus;
  if negb (bool_decide (st = freeStatus)) then SendMessageToPeer LocateCheckResponse (SyncCheckHash_Marshal Crypto.ZeroHash) from
  else
    ch ← from_option (CheckHash_Unmarshal body);
    r ← e_try (CalcRootHashForNBlocks (ch_BeginHash ch) (ch_Length ch));
    let hash := match r with Ok h => h | Err _ => None end in
    SendMessageToPeer LocateCheckResponse (SyncCheckHash_Marshal (newSyncCheckHash hash)) from.

Definition with_checkNum (p : Progress) v := mkProgress v (pg_checkRootHash p) (pg_fetchHashes p) (pg_peerBlockCheckInfo p) (pg_checkHash p) (pg_blocksSynced p).

Definition checkPeer (from : peerID) : SM bool :=
  a ← verifyPeerStatus checkedPeerStatus from;
  b ← verifyPeerStatus checkedDonePeerStatus from;
  mret (a || b).

Definition onCheckResponse (from : peerID) (body : bytes) : SM unit :=
  st ← getStatus;
  known ← checkPeer from;
  if negb (bool_decide (st = checkStatus)) then
    _ ← (if known : bool then mret tt else storePeer from errPeerStatus);
    e_fail errSyncStatus
  else if negb known then
    _ ← storePeer from errPeerStatus;
    _ ← set_channels (pushCheckErr errFlagWrongPeerStatus);
    e_fail errSyncPeer
  else
    checkNum ← e_gets (fun s => pg_checkNum (sm_progress s));
    if (Z.of_nat maxCheckPeers <? checkNum)%Z then
      _ ← storePeer from errPeerStatus;
      _ ← set_channels (pushCheckErr errFlagCheckNumTooBig);
      e_fail errTooManyChecks
    else
      match SyncCheckHash_Unmarshal body with
      | None =>
          _ ← storePeer from errPeerStatus;
          _ ← set_channels (pushCheckErr errFlagUnmarshal);
          e_fail errSyncUnmarshal
      | Some rootHash =>
          expected ← e_gets (fun s => pg_checkRootHash (sm_progress s));
          if negb (bool_decide (expected = rootHash)) then
            _ ← set_channels (pushCheckErr (if bool_decide (rootHash = Crypto.ZeroHash) then errFlagInSync else errFlagRootHashMismatch));
            storePeer from errPeerStatus
          else
            _ ← storePeer from checkedDonePeerStatus;
            _ ← set_channels pushCheckOk;
            set_progress (fun p => with_checkNum p (i32 (pg_checkNum p + 1)))
      end.

(** The deferred answer goes out in any case; its error is the one that is returned. *)
Definition onBlocksRequest (from : peerID) (body : bytes) : SM unit :=
  sb ← match FetchBlockHeaders_Unmarshal body with
       | None => mret (mkSyncBlocks Types.MaxUint32 [])
       | Some fbh =>
           st ← getStatus;
           if negb (bool_decide (st = freeStatus)) then
             _ ← e_try (SendMessageToPeer BlockChunkResponse (SyncBlocks_Marshal (mkSyncBlocks (fb_Idx fbh) [])) from);
             mret (mkSyncBlocks Types.MaxUint32 [])
           else
             r ← e_try (FetchNBlockAfterSpecificHash (ch_BeginHash (fb_Check fbh)) (ch_Length (fb_Check fbh)));
             mret (match r with Ok blocks => mkSyncBlocks (fb_Idx fbh) blocks | Err _ => mkSyncBlocks Types.MaxUint32 [] end)
       end;
  SendMessageToPeer BlockChunkResponse (SyncBlocks_Marshal sb) from.

Definition with_blocksSynced (p : Progress) v := mkProgress (pg_checkNum p) (pg_checkRootHash p) (pg_fetchHashes p) (pg_peerBlockCheckInfo p) (pg_checkHash p) v.

Definition onBlocksResponse (from : peerID) (body : bytes) : SM unit :=
  st ← getStatus;
  if negb (bool_decide (st = blocksStatus)) then e_fail errSyncStatus
  else
    a ← verifyPeerStatus blocksPeerStatus from;
    b ← verifyPeerStatus blocksDonePeerStatus from;
    if negb (a || b) then _ ← storePeer from errPeerStatus; e_fail errSyncPeer
    else
      r ← sm_go (SyncBlocks_Unmarshal body);
      match r with
      | None => _ ← storePeer from errPeerStatus; e_fail errSyncUnmarshal
      | Some sb =>
          if (sb_Idx sb =? Types.MaxUint32)%Z then _ ← storePeer from errPeerStatus; e_fail errSyncUnmarshal
          else
            hashes ← e_gets (fun s => pg_fetchHashes (sm_progress s));
            let maxChanLen := (length hashes + syncBlockChunkSize - 1) / syncBlockChunkSize in
            '(fbh, ok) ← checkBlocksAndClearInfo sb from;
            c ← e_gets sm_channels;
            if negb ok then
              _ ← storePeer from errPeerStatus;
              match fbh with
              | Some fbh => if maxChanLen <=? length (cn_blocksErr c) then mret tt else _ ← set_channels (pushBlocksErr fbh); e_fail errSyncCheck
              | None => e_fail errSyncCheck
              end
            else if maxChanLen <=? cn_blocksDone c then storePeer from errPeerStatus
            else
              _ ← storePeer from blocksDonePeerStatus;
              _ ← set_progress (fun p => with_blocksSynced p (i32 (pg_blocksSynced p + Z.of_nat (length (sb_Blocks sb)))));
              _ ← set_channels pushBlocksDone;
              e_modify (fun s => with_jobs s (sm_jobs s ++ [(from, sb_Blocks sb)]))
      end.

(** Errors that do not mean that the peer is malicious; ErrOrphanBlockExists, which the code names too,
    is returned by nothing. *)
Definition tolerated (e : ChainErr) : bool := match e with ErrBlockExists | ErrExpiredBlock | ErrBlockInSideChain => true | _ => false end.

Definition addMalicious (pid : peerID) : SM unit := e_modify (fun s => with_malicious s (<[pid := tt]> (sm_maliciousPeers s))).

(** One turn of a goroutine that processes blocks: what is left of it, [None] when it has ended. *)
Definition processJob (pid : peerID) (blocks : list Block) : SM (option (list Block)) :=
  match blocks with
  | [] => _ ← set_channels pushBlocksProcessed; mret None
  | b :: rest =>
      r ← e_try (on_chain (Chain.ProcessBlock b DefaultMode Chain.SyncFlag));
      match r with
      | Ok _ => mret (Some rest)
      | Err (errSyncChain e) => if tolerated e then mret (Some rest) else _ ← addMalicious pid; _ ← set_channels pushSyncErr; mret None
      | Err _ => mret None
      end
  end.

Fixpoint loadBlocks (hashes : list bytes) : SM (list Block) :=
  match hashes with
  | [] => mret []
  | h :: hashes => b ← on_chain (Chain.LoadBlockByHash h); rest ← loadBlocks hashes; mret (b :: rest)
  end.

Definition onLightSyncRequest (from : peerID) (body : bytes) : SM unit :=
  lh ← from_option (LocateHeaders_Unmarshal body);
  hashes ← LocateForkPointAndFetchHeaders lh;
  if (Chain.Threshold <? Z.of_nat (length hashes))%Z then e_fail errTooFarBehind
  else blocks ← loadBlocks hashes; SendMessageToPeer LightSyncReponse (SyncBlocks_Marshal (mkSyncBlocks 0 blocks)) from.

Fixpoint lightBlocks (from : peerID) (blocks : list Block) : SM unit :=
  match blocks with
  | [] => mret tt
  | b :: blocks =>
      r ← e_try (on_chain (Chain.ProcessBlock b DefaultMode Chain.SyncFlag));
      match r with
      | Ok _ => lightBlocks from blocks
      | Err (errSyncChain e) => if tolerated e then lightBlocks from blocks else _ ← addMalicious from; e_fail (errSyncChain e)
      | Err e => e_fail e
      end
  end.

(** Producing blocks goes on however processing ends, unless the node is synchronising. *)
Definition onLightSyncResponse (from : peerID) (body : bytes) : SM unit :=
  r ← sm_go (SyncBlocks_Unmarshal body);
  sb ← from_option r;
  r ← e_try (lightBlocks from (sb_Blocks sb));
  st ← getStatus;
  _ ← (if bool_decide (st = freeStatus) then e_modify (fun s => with_mintStopped s false) else mret tt);
  match r with Ok _ => mret tt | Err e => e_fail e end.

Definition handleSyncMessage (code : SyncCode) : peerID -> bytes -> SM unit :=
  match code with
  | LocateForkPointRequest => onLocateRequest
  | LocateForkPointResponse => onLocateResponse
  | LocateCheckRequest => onCheckRequest
  | LocateCheckResponse => onCheckResponse
  | BlockChunkRequest => onBlocksRequest
  | BlockChunkResponse => onBlocksResponse
  | LightSyncRequest => onLightSyncRequest
  | LightSyncReponse => onLightSyncResponse
  end.

Definition ActiveLightSync (pid : peerID) : SM unit :=
  st ← getStatus;
  if negb (bool_decide (st = freeStatus)) then e_fail errInSync
  else
    _ ← e_modify (fun s => with_mintStopped s true);
    hashes ← getLatestBlockLocator;
    SendMessageToPeer LightSyncRequest (LocateHeaders_Marshal hashes) pid.

(** ** The sync loop (manager.go) *)

(** Where the loop waits: it has been started, or waits for hashes, for their confirmation, for
    blocks, for [n] chunks to be processed, or has ended. *)
Inductive Phase := Spawned | Locating | Checking | Fetching | Waiting (n : nat) | Finished.

(** What the loop receives. *)
Inductive Signal := Begin | LocateDone | LocateErr | CheckOk | CheckErr | BlocksDone | BlocksErr | BlocksProcessed | SyncFailed | Timeout | Closing.

(** The deferred function. *)
Definition leave : SM (Phase * nat) :=
  _ ← resetAll;
  _ ← e_modify (fun s => with_synced s true);
  _ ← e_modify (fun s => with_mintStopped s false);
  mret (Finished, 0).

(** From the head of the loop to the first point where it waits, with the number of tries. *)
Fixpoint restart (fuel : nat) (needMore : bool) (tries : nat) : SM (Phase * nat) :=
  match fuel with
  | O => e_fuel
  | S fuel =>
      let tries := if needMore then tries else S tries in
      if negb needMore && (tries =? maxSyncTries) then leave
      else
        _ ← reset;
        _ ← set_channels drainAllSyncChan;
        _ ← setStatus locateStatus;
        r ← e_try locateHashes;
        match r with Ok _ => mret (Locating, tries) | Err _ => restart fuel false tries end
  end.

Definition again (needMore : bool) (tries : nat) : SM (Phase * nat) := restart (S maxSyncTries) needMore tries.

(** Every chunk whose answer is missing, in some order of the peers. *)
Fixpoint retryAll (fbhs : list FetchBlockHeaders) : SM unit :=
  match fbhs with [] => mret tt | fbh :: fbhs => _ ← fetchRemoteBlocksWithRetry fbh retryTimes; retryAll fbhs end.

Definition openChunks : SM (list FetchBlockHeaders) :=
  e_gets (fun s => map ci_fbh (concat (map (fun p => omap (fun v => v) p.2) (visit (pg_peerBlockCheckInfo (sm_progress s)))))).

(** What a loop that has given up or is done does about processed chunks is to make a new channel. *)
Definition quit : SM (Phase * nat) := _ ← set_channels (fun c => mkChannels (cn_locateErr c) (cn_locateDone c) (cn_checkErr c) (cn_checkOk c) (cn_syncErr c) (cn_blocksDone c) (cn_blocksErr c) 0); leave.

Definition onLocated (sg : Signal) (tries : nat) : SM (Phase * nat) :=
  match sg with
  | LocateDone =>
      _ ← set_channels (fun c => mkChannels (cn_locateErr c) false (cn_checkErr c) (cn_checkOk c) (cn_syncErr c) (cn_blocksDone c) (cn_blocksErr c) (cn_blocksProcessed c));
      _ ← e_modify (fun s => with_last s None);
      _ ← setStatus checkStatus;
      _ ← set_channels drainCheckChan;
      r ← e_try (checkHashes maxCheckPeers);
      match r with Ok _ => mret (Checking, tries) | Err _ => again false tries end
  | LocateErr =>
      ef ← e_gets (fun s => cn_locateErr (sm_channels s));
      _ ← set_channels (fun c => mkChannels None (cn_locateDone c) (cn_checkErr c) (cn_checkOk c) (cn_syncErr c) (cn_blocksDone c) (cn_blocksErr c) (cn_blocksProcessed c));
      lastHash ← e_gets sm_lastLocatedHash;
      if bool_decide (ef = Some errFlagNoHash) && bool_decide (lastHash = None) then leave else again false tries
  | Timeout => _ ← setTimeoutPeersErrStatus locatePeerStatus; again false tries
  | _ => leave
  end.

Definition onChecked (sg : Signal) (tries : nat) : SM (Phase * nat) :=
  match sg with
  | CheckOk =>
      _ ← set_channels (fun c => mkChannels (cn_locateErr c) (cn_locateDone c) (cn_checkErr c) (cn_checkOk c - 1) (cn_syncErr c) (cn_blocksDone c) (cn_blocksErr c) (cn_blocksProcessed c));
      pass ← checkPass;
      if negb pass then mret (Checking, tries)
      else
        _ ← setStatus blocksStatus;
        _ ← set_channels drainBlocksChan;
        hashes ← e_gets (fun s => pg_fetchHashes (sm_progress s));
        r ← e_try (fetchAllBlocks hashes);
        match r with Ok _ => mret (Fetching, tries) | Err _ => quit end
  | CheckErr =>
      ef ← e_gets (fun s => cn_checkErr (sm_channels s));
      _ ← set_channels (fun c => mkChannels (cn_locateErr c) (cn_locateDone c) None (cn_checkOk c) (cn_syncErr c) (cn_blocksDone c) (cn_blocksErr c) (cn_blocksProcessed c));
      if bool_decide (ef = Some errFlagRootHashMismatch) then again false tries
      else r ← e_try (checkHashes 1); match r with Ok _ => mret (Checking, tries) | Err _ => again false tries end
  | Timeout => _ ← setTimeoutPeersErrStatus checkedPeerStatus; again false tries
  | _ => leave
  end.

(** The chunks that [waitAllBlocksProcessed] waits for. *)
Definition chunks (hashes : list bytes) : nat := (length hashes + syncBlockChunkSize - 1) / syncBlockChunkSize.

Definition allProcessed (tries : nat) : SM (Phase * nat) :=
  more ← moreSync;
  if more : bool then again true tries else quit.

Definition onFetched (sg : Signal) (tries : nat) : SM (Phase * nat) :=
  match sg with
  | BlocksDone =>
      _ ← set_channels (fun c => mkChannels (cn_locateErr c) (cn_locateDone c) (cn_checkErr c) (cn_checkOk c) (cn_syncErr c) (cn_blocksDone c - 1) (cn_blocksErr c) (cn_blocksProcessed c));
      done ← completed;
      if negb done then mret (Fetching, tries)
      else
        hashes ← e_gets (fun s => pg_fetchHashes (sm_progress s));
        match chunks hashes with O => allProcessed tries | S n => mret (Waiting (S n), tries) end
  | BlocksErr =>
      fbh ← e_gets (fun s => head (cn_blocksErr (sm_channels s)));
      fbh ← e_deref fbh;
      _ ← set_channels (fun c => mkChannels (cn_locateErr c) (cn_locateDone c) (cn_checkErr c) (cn_checkOk c) (cn_syncErr c) (cn_blocksDone c) (tail (cn_blocksErr c)) (cn_blocksProcessed c));
      r ← e_try (fetchRemoteBlocksWithRetry fbh retryTimes);
      match r with Ok _ => mret (Fetching, tries) | Err _ => quit end
  | Timeout =>
      _ ← setTimeoutPeersErrStatus blocksPeerStatus;
      open ← openChunks;
      r ← e_try (retryAll open);
      match r with Ok _ => mret (Fetching, tries) | Err _ => quit end
  | _ => leave
  end.

Definition onWaited (sg : Signal) (n : nat) (tries : nat) : SM (Phase * nat) :=
  match sg with
  | BlocksProcessed =>
      _ ← set_channels (fun c => mkChannels (cn_locateErr c) (cn_locateDone c) (cn_checkErr c) (cn_checkOk c) (cn_syncErr c) (cn_blocksDone c) (cn_blocksErr c) (cn_blocksProcessed c - 1));
      match n with S (S n) => mret (Waiting (S n), tries) | _ => allProcessed tries end
  | _ => leave
  end.

(** The signals that are there to be received; any number of seconds may have gone by. *)
Definition ready (s : SyncManager) (ph : Phase) (sg : Signal) : bool :=
  let c := sm_channels s in
  match ph, sg with
  | Spawned, Begin => true
  | Locating, LocateDone => cn_locateDone c
  | Locating, LocateErr => bool_decide (is_Some (cn_locateErr c))
  | Checking, CheckOk => 0 <? cn_checkOk c
  | Checking, CheckErr => bool_decide (is_Some (cn_checkErr c))
  | Fetching, BlocksDone => 0 <? cn_blocksDone c
  | Fetching, BlocksErr => 0 <? length (cn_blocksErr c)
  | Waiting _, BlocksProcessed => 0 <? cn_blocksProcessed c
  | Waiting _, SyncFailed => cn_syncErr c
  | Locating, (Timeout | Closing) | Checking, (Timeout | Closing) | Fetching, (Timeout | Closing) => true
  | _, _ => false
  end.

Definition loopTurn (ph : Phase) (sg : Signal) (tries : nat) : SM (Phase * nat) :=
  match ph with
  | Spawned => _ ← setStatus locateStatus; _ ← e_modify (fun s => with_synced s false); again false 0
  | Locating => onLocated sg tries
  | Checking => onChecked sg tries
  | Fetching => onFetched sg tries
  | Waiting n => onWaited sg n tries
  | Finished => mret (Finished, tries)
  end.

(** [StartSync]: the status is set by the loop itself, when it begins; the last time of synchronising
    is compared with the interval for a message only. *)
Definition StartSync : SM bool :=
  st ← getStatus;
  if negb (bool_decide (st = freeStatus)) then mret false
  else _ ← e_modify (fun s => with_mintStopped s true); mret true.

(** The manager and the loops that have been started. *)
Definition node : Type := SyncManager * list (Phase * nat).

(** A thread runs up to the next point where it waits, and does not panic. *)
Definition runs {A} (c : SM A) (s : SyncManager) (s' : SyncManager) : Prop := exists r, c s = (r, s') /\ r <> EPanic /\ r <> EFuel.

(** [blocks] are the blocks that a message carries. *)
Definition carried (body : bytes) : list Block := match SyncBlocks_Unmarshal body with Returns (Some sb) => sb_Blocks sb | _ => [] end.

Inductive sync_step (allowed : Block -> Prop) : node -> node -> Prop :=
  | step_message code from body s s' ls : Forall allowed (carried body) -> runs (handleSyncMessage code from body) s s' -> sync_step allowed (s, ls) (s', ls)
  | step_start s s' ls started : StartSync s = (EOk started, s') -> sync_step allowed (s, ls) (s', if started : bool then ls ++ [(Spawned, 0)] else ls)
  | step_light pid s s' ls : runs (ActiveLightSync pid) s s' -> sync_step allowed (s, ls) (s', ls)
  | step_loop i ph sg tries s s' ls next : ls !! i = Some (ph, tries) -> ready s ph sg = true -> loopTurn ph sg tries s = (EOk next, s') -> sync_step allowed (s, ls) (s', <[i := next]> ls)
  | step_job i pid blocks s s' ls left : sm_jobs s !! i = Some (pid, blocks) -> processJob pid blocks s = (EOk left, s') ->
      sync_step allowed (s, ls) (with_jobs s' (match left with Some bs => <[i := (pid, bs)]> (sm_jobs s') | None => delete i (sm_jobs s') end), ls)
  | step_conns conns s ls : sync_step allowed (s, ls) (with_conns s conns, ls).

(** ** What is taken *)

(** The root was recorded for this chunk. *)
Lemma clearInfo_found root idx infos l : clearInfo root idx infos = inl (Some l) -> exists v, Some v ∈ infos /\ fb_Idx (ci_fbh v) = idx /\ ci_rootHash v = root.
Proof.
  revert l. induction infos as [|[v|] infos IH]; intros l; cbn [clearInfo]; [done| |].
  - destruct (Z.eqb_spec (fb_Idx (ci_fbh v)) idx) as [E|]; [case_bool_decide as Er; [|done]; intros _; exists v; split_and!; [left|done|done]|].
    destruct (clearInfo root idx infos) as [[l'|]|]; [|done|done]. destruct (IH l' eq_refl) as (v' & H & ?). intros _. exists v'. split; [by right|done].
  - destruct (clearInfo root idx infos) as [[l'|]|]; [|done|done]. destruct (IH l' eq_refl) as (v' & H & ?). intros _. exists v'. split; [by right|done].
Qed.

(** A request that waits for the answer of the peer, and the root of the hashes of these blocks. *)
Definition confirmed (s : SyncManager) (from : peerID) (idx : Z) (blocks : list Block) : Prop :=
  exists infos v, pg_peerBlockCheckInfo (sm_progress s) !! from = Some infos /\ Some v ∈ infos /\ fb_Idx (ci_fbh v) = idx /\
    match blocks with
    | [] => ci_rootHash v = Crypto.ZeroHash
    | _ => exists nodes, Merkle.BuildMerkleRoot (map BlockHash blocks) = Returns nodes /\ last nodes = Some (Some (ci_rootHash v))
    end.

Lemma ewp_checkBlocks sb from s :
  ewp (checkBlocksAndClearInfo sb from) (fun r s' => sm_jobs s' = sm_jobs s /\ (r.2 = true -> confirmed s from (sb_Idx sb) (sb_Blocks sb))) (fun _ _ => False) s.
Proof.
  unfold checkBlocksAndClearInfo. apply ewp_bind, ewp_gets. destruct (_ !! from) as [infos|] eqn:Ei; [|by apply ewp_ret]. apply ewp_bind.
  set (rooted := fun h : bytes => match sb_Blocks sb with [] => h = Crypto.ZeroHash | _ => exists nodes, Merkle.BuildMerkleRoot (map BlockHash (sb_Blocks sb)) = Returns nodes /\ last nodes = Some (Some h) end).
  apply (ewp_mono _ (fun h s1 => s1 = s /\ rooted h) _ (fun _ _ => False)); [|intros h s1 [-> Hh]|done].
  - destruct (sb_Blocks sb) as [|b bs] eqn:Eb; [by apply ewp_ret|]. unfold merkleRootHashForBlocks, merkleRootOf, sm_go. apply ewp_bind. destruct (Merkle.BuildMerkleRoot _) as [nodes|] eqn:Em; [|apply ewp_panic].
    apply ewp_bind, ewp_ret, ewp_deref. intros o Eo. apply ewp_deref. intros h ->. split; [done|]. exists nodes. by rewrite <-Eb in Em.
  - destruct (clearInfo h (sb_Idx sb) infos) as [[l|]|fbh] eqn:Ec; [|by apply ewp_bind, ewp_modify, ewp_ret|by apply ewp_ret].
    apply ewp_bind, ewp_modify, ewp_ret. split; [done|]. intros _. apply clearInfo_found in Ec as (v & Hv & Hidx & Hroot). exists infos, v. unfold rooted in Hh. rewrite <-Hroot in Hh. done.
Qed.

(** Blocks are given to a goroutine only while blocks are fetched, and only if a peer that was asked
    for this chunk sends them and their hashes have the root that was computed from the hashes that
    were located and confirmed. *)
Theorem blocks_confirmed from body s s' : runs (onBlocksResponse from body) s s' ->
  sm_jobs s' = sm_jobs s \/
  exists sb, SyncBlocks_Unmarshal body = Returns (Some sb) /\ sm_status s = blocksStatus /\
    (sm_stalePeers s !! from = Some blocksPeerStatus \/ sm_stalePeers s !! from = Some blocksDonePeerStatus) /\
    confirmed s from (sb_Idx sb) (sb_Blocks sb) /\ sm_jobs s' = sm_jobs s ++ [(from, sb_Blocks sb)].
Proof.
  intros (r & E & Hr1 & Hr2). pattern s'. match goal with |- ?P _ => set (Q := P) end. assert (ewp (onBlocksResponse from body) (fun _ => Q) (fun _ => Q) s) as H.
  2: { unfold ewpf in H. rewrite E in H. by destruct r. }
  assert (forall s1, sm_jobs s1 = sm_jobs s -> Q s1) as Hq by (by left).
  unfold onBlocksResponse, getStatus. apply ewp_bind, ewp_gets. case_bool_decide as Hst; cbn [negb]; [|by apply ewp_fail, Hq].
  unfold verifyPeerStatus. apply ewp_bind, ewp_gets, ewp_bind, ewp_gets. destruct (_ || _) eqn:Ea; cbn [negb]; [|by apply ewp_bind, ewp_modify, ewp_fail, Hq].
  apply orb_true_iff in Ea as Ha. rewrite !bool_decide_eq_true in Ha. apply ewp_bind. unfold sm_go. destruct (SyncBlocks_Unmarshal body) as [[sb|]|] eqn:Eu; [|by apply ewp_ret, ewp_bind, ewp_modify, ewp_fail, Hq|apply ewp_panic].
  apply ewp_ret. destruct (_ =? _)%Z; [by apply ewp_bind, ewp_modify, ewp_fail, Hq|]. apply ewp_bind, ewp_gets, ewp_bind.
  eapply ewp_mono; [apply ewp_checkBlocks|intros [fbh ok] s1 [Hj Hok]|done]. apply ewp_bind, ewp_gets. destruct ok; cbn [negb].
  - destruct (_ <=? _); [by apply ewp_modify, Hq|]. do 3 apply ewp_bind, ewp_modify. apply ewp_modify. right. exists sb. cbn. rewrite Hj. split_and!; auto.
  - apply ewp_bind, ewp_modify. destruct fbh as [fbh|]; [|by apply ewp_fail, Hq]. destruct (_ <=? _); [by apply ewp_ret, Hq|]. by apply ewp_bind, ewp_modify, ewp_fail, Hq.
Qed.

End Sync.

(** ** What is asked for *)

(** Strictly descending, below [top]. *)
Fixpoint descends (top : Z) (l : list Z) : Prop :=
  match l with [] => True | h :: l => (0 <= h < top)%Z /\ descends h l end.

(** The lowest height. *)
Fixpoint lowest (top : Z) (l : list Z) : Z := match l with [] => top | h :: l => lowest h l end.

Lemma descends_app top l l' : descends top l -> descends (lowest top l) l' -> descends top (l ++ l').
Proof. revert top. induction l as [|h l IH]; intros top; cbn [descends app lowest]; [done|]. intros [Hh Hl] Hl'. auto. Qed.
Lemma lowest_app top l l' : lowest top (l ++ l') = lowest (lowest top l) l'.
Proof. revert top. induction l as [|h l IH]; intros top; cbn; auto. Qed.

(** The skips double: a loop that goes on after [k] turns has come down by [2 ^ k], so that it ends
    before the skip wraps. *)
Lemma skip_spec fuel k h : (0 <= k <= 31)%Z -> (32 <= Z.of_nat fuel + k)%Z -> (0 <= h)%Z -> (h + 2 ^ k <= 2 ^ 32)%Z ->
  let r := skipPortion fuel (2 ^ k) h in
  descends h r.1 /\ r.2 = lowest h r.1 /\ (0 <= r.2)%Z /\ forall more, skipPortion (fuel + more) (2 ^ k) h = r.
Proof.
  revert k h. induction fuel as [|fuel IH]; intros k h Hk Hf Hh Hsum; [lia|]. cbn [skipPortion Nat.add].
  assert (1 <= 2 ^ k <= 2 ^ 31)%Z as Hp by (split; [apply (Z.pow_le_mono_r 2 0 k)|apply Z.pow_le_mono_r]; lia).
  rewrite !(u32_small (2 ^ k + 1)) by lia. destruct (Z.ltb_spec (2 ^ k + 1) h) as [Hlt|]; [|by split_and!].
  assert (2 ^ (k + 1) = 2 * 2 ^ k)%Z as Ek by (rewrite Z.pow_add_r by lia; lia).
  assert (k + 1 <= 31)%Z as Hk1. { destruct (Z.le_gt_cases (k + 1) 31); [done|]. assert (k = 31)%Z as -> by lia. lia. }
  rewrite !(u32_small (h - _)), !(u32_small (2 ^ k * 2)) by lia. replace (2 ^ k * 2)%Z with (2 ^ (k + 1))%Z by lia.
  destruct (IH (k + 1)%Z (h - (2 ^ k + 1))%Z) as (H1 & H2 & H3 & H4); [lia..|]. destruct (skipPortion fuel _ _) as [hs l] eqn:E. cbn [fst snd] in *.
  split_and!; [split; [lia|done]|done|done|]. intros more. by rewrite H4.
Qed.

(** The locator of a node starts with the height of its tail, goes down strictly and ends at the
    first block; the first portion of six heights has no gaps. *)
Theorem locator_covers height : (0 <= height < 2 ^ 32)%Z ->
  exists l, heightLocator height = height :: l /\ descends height l /\ lowest height l = 0%Z /\
    forall i, (0 <= i < 6)%Z -> (i <= height)%Z -> (height - i)%Z ∈ heightLocator height.
Proof.
  intros Hh. destruct (Z.ltb_spec height 6) as [Hlow|Hlow].
  { assert (height ∈ [0; 1; 2; 3; 4; 5]%Z) as Hin by (rewrite !elem_of_cons; lia). repeat (apply elem_of_cons in Hin as [->|Hin]); [..|by apply not_elem_of_nil in Hin].
    all: match goal with |- context [heightLocator ?h] => let x := eval vm_compute in (heightLocator h) in change (heightLocator h) with x end.
    all: eexists; split; [reflexivity|]; cbn [descends lowest]; split; [lia|]; split; [done|]; intros i Hi Hl; rewrite !elem_of_cons; lia. }
  unfold heightLocator, locatorSeqPartLen. cbn [seqPortion Z.add Pos.add Pos.succ].
  rewrite !u32_small, !(proj2 (Z.eqb_neq _ _)) by lia. cbn [last]. rewrite (proj2 (Z.eqb_neq _ _)) by lia.
  destruct (skip_spec 33 0 (height - 5)) as (H1 & H2 & H3 & _); [lia..|]. destruct (skipPortion 33 1 (height - 5)) as [hs h] eqn:E. change (2 ^ 0)%Z with 1%Z in *. rewrite E in *. cbn [fst snd] in *.
  change (0 + 1 + 1 + 1 + 1 + 1)%Z with 5%Z. rewrite Z.sub_0_r, E. eexists. split; [reflexivity|]. split_and!.
  - cbn [app descends]. split_and!; [lia..|]. apply descends_app; [done|]. rewrite <-H2. destruct (Z.ltb_spec 0 h); [|done]. split; [lia|done].
  - cbn [app lowest]. rewrite lowest_app, <-H2. destruct (Z.ltb_spec 0 h); cbn [lowest]; lia.
  - intros i Hi Hl. cbn [app]. assert (i = 0 \/ i = 1 \/ i = 2 \/ i = 3 \/ i = 4 \/ i = 5)%Z as Hcase by lia. rewrite !elem_of_cons. lia.
Qed.

End Sync.
