(* ===== verification/BlockExec.v ===== *)
(** * BlockExec: executing a block and checking its result (src/core/chain/blockchain.go, utxoset.go)

    [adjustAndValidateState] composes the components below it: unspent outputs are loaded, scripts
    and fees are checked, balances are moved, contracts run, and what comes out is compared with the
    header.  Everything runs on the state database and the set of unspent outputs ([PState]).

    Opening the database at a root, writing an entry of the trie of unspent outputs and committing
    are the class [CommitDB]; the reward of the block is read from a contract and is a parameter.
    Which of several script errors the validators report is left open by ScriptValidator.v; the
    model reports the first. *)

From S2P Require Import Prelude Effects Opcode Crypto Merkle Bytes Bloom EvmMath EvmState EvmMachine EvmGas EvmInstr EvmPrecompile Evm Types Script ScriptKinds TxLogic Compress Keys UtxoSet UtxoDb Validate Transition Receipt Blocks Processor Chain Bpos TxPool.
Import Kinds TxLogic Compress Utxo UtxoDb Validate Transition Receipt Processor Blocks.

(** [None] of [openState] and [Commit] and [false] of [UpdateUtxo] are errors. *)
Class CommitDB (D : StateDB) := {
  openState : bytes -> bytes -> go (option sdb);
  UpdateUtxo : bytes -> bytes -> sdb -> go (bool * sdb);
  Commit : sdb -> go (option (option bytes * option bytes) * sdb)
}.

Inductive ExecErr :=
  | ErrOpenState | ErrExecDb (e : DbErr) | ErrExecChain (e : Validate.ChainErr) | ErrExecUtxo (e : UtxoErr) | ErrExecProc (e : ProcErr) | ErrExecVm (e : EvmErr)
  | ErrAdminAddress | ErrInvalidInternalTxs | ErrInvalidGasUsed | ErrNetParams | ErrBadCoinbaseValue | ErrInvalidReceiptHash | ErrExecStore (e : StoreErr)
  | ErrUpdateUtxo | ErrCommit | ErrInvalidStateRoot | ErrInvalidUtxoRoot | ErrAmbiguousBalance | ErrRollbackBalance | ErrRollbackParams.

Record BlockExecuteResult `{D : StateDB} := mkExecResult { er_UtxoSet : UtxoSet; er_Receipts : list Receipt; er_StateDB : sdb }.
Arguments mkExecResult {_} _ _ _.

(** The database, the set, and the messages that the dynasty has changed. *)
Record XState `{D : StateDB} := mkXState { x_state : PState; x_dynasty : nat }.
Arguments mkXState {_} _ _.

Module BlockExec.

Section Exec.
Context {D : StateDB} {X : ChainDB D} {CD : CommitDB D} `{C : Crypto} `{TC : TxCodec} `{HC : HeaderCodec} `{RC : ReceiptCodec} `{K : Keccak} `{E : Curves} `{R : Rlp} {VO : VisitOrder} {MO : MapOrder} `{P : Pow10}.

(** The table of the chain with the buffer of its key pool, hashes of earlier blocks, the
    configuration of the machine. *)
Context (pool : bytes) (cdb : Db) (getHash : Z -> option bytes) (noRecursion enablePreimageRecording : bool).

Abbreviation XM := (EM XState ExecErr).

Definition x_go {A} (x : go A) : XM A := match x with Returns a => mret a | Panics => e_panic end.
Definition x_result {A F} (f : F -> ExecErr) (x : result F A) : XM A := match x with Ok a => mret a | Err e => e_fail (f e) end.
Definition x_pm {A} (c : PM A) : XM A := fun s =>
  let '(r, p) := c (x_state s) in
  let s := mkXState p (x_dynasty s) in
  match r with
  | XOk (Ok a) => (EOk a, s)
  | XOk (Err e) => (EErr (ErrExecProc e), s)
  | XErr e => (EErr (ErrExecVm e), s)
  | XPanic => (EPanic, s)
  | XFuel => (EFuel, s)
  end.
Definition x_db {A} (op : sdb -> go (A * sdb)) : XM A := x_pm (p_op op).
Definition x_set (u : UtxoSet) : XM unit := x_pm (p_set (fun _ => u)).
Definition x_sdb : XM sdb := e_gets (fun s => p_db (x_state s)).
Definition x_utxo : XM UtxoSet := e_gets (fun s => p_utxo (x_state s)).

(** An entry that can not be decoded is missing. *)
Definition contractUtxo (s : sdb) (addr : bytes) : option Types.UtxoWrap :=
  match peek None (GetUtxo addr) s with
  | None => None
  | Some b => match DeserializeUtxoWrap (default [] b) [] with Returns (Ok w) => Some w | _ => None end
  end.

Definition chainState (s : sdb) : ChainState := {| cs_IsContractAddr := isContract s; cs_ContractUtxo := contractUtxo s; UtxoSet.CreateAddress := Evm.CreateAddress |}.

Definition blockTxs (b : Block) : BlockTxs := mkBlockTxs (h_Height (b_Header b)) (b_Txs b) (b_InternalTxs b).

(** ** Scripts and fees *)

Definition validateBlockScripts (u : UtxoSet) (block : Block) : go (result Validate.ChainErr unit) :=
  match b_Txs block with
  | [] => Panics
  | _ :: txs =>
      Returns (items ← blockScriptItems u txs [];
               match head (omap validate_item items) with Some e => Err e | None => Ok tt end)
  end.

(** The fees of the transactions left, which come back with their types. *)
Fixpoint blockInputsLoop (txs : list Transaction) (u : UtxoSet) (s : sdb) (totalFees : Z) : go (result Validate.ChainErr (Z * list Transaction)) :=
  match txs with
  | [] => Returns (Ok (totalFees, []))
  | tx :: txs =>
      let '(tx, txType) := GetTxType (Some (isContract s)) tx in
      let continue (totalFees : Z) : go (result Validate.ChainErr (Z * list Transaction)) :=
        r ← blockInputsLoop txs u s totalFees;
        Returns (match r with Ok (fees, txs) => Ok (fees, tx :: txs) | Err e => Err e end) in
      if IsCoinBase tx || IsInternalContract tx then continue totalFees
      else
        r ← ValidateTxInputs u tx;
        match r with
        | Err e => Returns (Err e)
        | Ok txFee =>
            if negb (bool_decide (txType = ContractTx)) then
              if negb (txFee =? u64 (TransferFee + ExtraFee tx))%Z then Returns (Err ErrInvalidFee)
              else
                let sum := u64 (totalFees + txFee) in
                if (sum <? totalFees)%Z then Returns (Err ErrBadFees) else continue sum
            else if match Data tx with Some d => (MaxCodeSize <? Z.of_nat (length (data_content d)))%Z | None => false end then Returns (Err ErrMaxCodeSizeExceeded)
            else
              vout ← GetContractVout tx s;
              match vout with
              | None => Panics
              | Some contractVout =>
                  match ParseContractParams (ScriptPubKey contractVout) with
                  | Err e => Returns (Err (ErrChainScript e))
                  | Ok (param, _) =>
                      if negb (txFee =? u64 (u64 (vp_GasLimit param * FixedGasPrice) + ExtraFee tx))%Z then Returns (Err ErrInvalidFee)
                      else
                        match head (Vin tx) with
                        | None => Panics
                        | Some txIn =>
                            match TxPool.FetchOutPointOwner (PrevOutPoint txIn) u with
                            | None => Returns (Err ErrContractFromMismatch)
                            | Some addr =>
                                match Types.address_Hash160 addr with
                                | None => Panics
                                | Some h => if bool_decide (h = vp_From param) then continue totalFees else Returns (Err ErrContractFromMismatch)
                                end
                            end
                        end
                  end
              end
        end
  end.

Definition validateBlockInputs (txs : list Transaction) (u : UtxoSet) (s : sdb) : go (result Validate.ChainErr (Z * list Transaction)) := blockInputsLoop txs u s 0.

(** ** Balances *)

(** The transactions as [ApplyBlock] leaves them, with the types it has asked for. *)
Fixpoint appliedTxs `{CS : ChainState} (txs : list Transaction) (u : UtxoSet) (height : Z) : list Transaction :=
  match txs with
  | [] => []
  | tx :: txs =>
      match applyOuts (Vout tx) 0 u tx height with
      | Err _ => tx :: txs
      | Ok (u, tx) =>
          let '(u, tx) := if IsCoinBase tx || IsInternalContract tx then (u, tx) else applyIns (Vin tx) u tx in
          tx :: appliedTxs txs u height
      end
  end.

Definition balanceAdd (m : gmap bytes Z) (a : bytes) (v : Z) : gmap bytes Z := <[a := u64 (default 0%Z (m !! a) + v)]> m.

(** The account that an output pays, if it pays to a public key hash. *)
Definition payee (sc : bytes) : go (option bytes) :=
  if negb (IsPayToPubKeyHash sc) then Returns None
  else
    match ExtractAddress sc with
    | Err _ => Panics
    | Ok address => match Types.address_Hash160 address with None => Panics | Some h => Returns (Some h) end
    end.

Fixpoint addedOuts (outs : list TxOut) (m : gmap bytes Z) : go (gmap bytes Z) :=
  match outs with
  | [] => Returns m
  | vout :: outs =>
      a ← payee (ScriptPubKey vout);
      addedOuts outs (match a with Some a => balanceAdd m a (Value vout) | None => m end)
  end.

Fixpoint addedTxs (txs : list Transaction) (m : gmap bytes Z) : go (gmap bytes Z) :=
  match txs with
  | [] => Returns m
  | tx :: txs => m ← (if bool_decide (tx_type tx = ContractTx) then Returns m else addedOuts (Vout tx) m); addedTxs txs m
  end.

Fixpoint spentEntries (entries : list (OutPoint * Types.UtxoWrap)) (normal : gset OutPoint) (m : gmap bytes Z) : go (gmap bytes Z) :=
  match entries with
  | [] => Returns m
  | (o, w) :: entries =>
      if negb (bool_decide (o ∈ normal)) then spentEntries entries normal m
      else
        a ← payee (Types.uw_script w);
        spentEntries entries normal (match a with Some a => if Types.IsSpent w then balanceAdd m a (Types.uw_value w) else m | None => m end)
  end.

Definition calcNormalTxBalanceChanges (u : UtxoSet) (txs : list Transaction) : go (gmap bytes Z * gmap bytes Z) :=
  add ← addedTxs txs ∅;
  sub ← spentEntries (order_map (utxoMap u)) (normalTxUtxoSet u) ∅;
  Returns (add, sub).

Fixpoint balanceLoop (op : bytes -> Z -> sdb -> go (unit * sdb)) (changes : list (bytes * Z)) : XM unit :=
  match changes with [] => mret tt | (a, v) :: changes => _ ← x_db (op a v); balanceLoop op changes end.

Definition UpdateNormalTxBalanceState (txs : list Transaction) (u : UtxoSet) : XM unit :=
  '(bAdd, bSub) ← x_go (calcNormalTxBalanceChanges u txs);
  _ ← balanceLoop AddBalance (visit bAdd);
  balanceLoop SubBalance (visit bSub).

Fixpoint contractUtxoLoop (u : UtxoSet) (ops : list OutPoint) : XM unit :=
  match ops with
  | [] => mret tt
  | o :: ops =>
      let contractAddr := Types.BytesToAddressHash (op_hash o) in
      w ← e_deref (utxoMap u !! o);
      r ← x_go (SerializeUtxoWrap w);
      utxoBytes ← x_result ErrExecStore r;
      ok ← x_db (UpdateUtxo contractAddr (default [] utxoBytes));
      if ok : bool then contractUtxoLoop u ops else e_fail ErrUpdateUtxo
  end.

Definition UpdateContractUtxoState (u : UtxoSet) : XM unit := contractUtxoLoop u (order_set (contractUtxos u)).

(** ** The result of the execution *)

(** The block keeps the internal transactions it came with, unless none are due. *)
Definition checkInternalTxs (block : Block) (utxoTxs : list Transaction) : XM Block :=
  match utxoTxs with
  | [] => mret (mkBlock (b_Hash block) (b_Header block) (b_Txs block) [] (b_Signature block) (b_Irreversible block))
  | _ =>
      txsRoot ← x_go (Merkle.CalcTxsHash utxoTxs);
      if Crypto.IsEqual (Some (h_InternalTxsRoot (b_Header block))) txsRoot then mret block else e_fail ErrInvalidInternalTxs
  end.

(** [reward] is [netParams.BlockReward], or an error. *)
Definition ValidateExecuteResult (reward : option Z) (block : Block) (utxoTxs : list Transaction) (usedGas totalTxsFee : Z) (receipts : list Receipt) : XM Block :=
  block ← checkInternalTxs block utxoTxs;
  if negb (h_GasUsed (b_Header block) =? usedGas)%Z then e_fail ErrInvalidGasUsed
  else
    coinbase ← e_deref (head (b_Txs block));
    let totalCoinbaseOutput := foldl (fun t o => u64 (t + Value o)) 0%Z (Vout coinbase) in
    blockReward ← match reward with Some r => mret r | None => e_fail ErrNetParams end;
    let expectedCoinbaseOutput := u64 (u64 (Big.Uint64 blockReward + totalTxsFee) + usedGas) in
    if negb (totalCoinbaseOutput =? expectedCoinbaseOutput)%Z then e_fail ErrBadCoinbaseValue
    else
      receiptHash ← match receipts with [] => mret Crypto.ZeroHash | _ => e_deref (Receipts_Hash receipts) end;
      if negb (bool_decide (receiptHash = h_ReceiptHash (b_Header block))) then e_fail ErrInvalidReceiptHash else mret block.

(** The topics of the logs of the genesis contract that announce a new dynasty. *)
Definition dynastyTopics (contractAddr : bytes) (receipts : list Receipt) : nat :=
  let topics := filter (fun r => rc_ContractAddress r = contractAddr) receipts ≫= (fun r => rc_Logs r ≫= log_Topics) in
  length (filter (fun t => Crypto.NewHashType t = keccak256 (String.list_byte_of_string "DynastySwitch()")) topics).

(** The value of the entry of a contract is its balance. *)
Fixpoint balancesAgree (u : UtxoSet) (ops : list OutPoint) : XM unit :=
  match ops with
  | [] => mret tt
  | o :: ops =>
      w ← e_deref (utxoMap u !! o);
      balance ← x_db (GetBalance (Types.BytesToAddressHash (op_hash o)));
      if (Types.uw_value w =? Big.Uint64 balance)%Z then balancesAgree u ops else e_fail ErrAmbiguousBalance
  end.

Definition with_txs (b : Block) (txs : list Transaction) : Block := mkBlock (b_Hash b) (b_Header b) txs (b_InternalTxs b) (b_Signature b) (b_Irreversible b).

(** What the block pays its coinbase: to the administrator and the book keeper. *)
Definition payCoinbase (block : Block) : XM unit :=
  adminAddr ← x_result (fun _ => ErrAdminAddress) (Types.AddressPubKeyHash_SetString Bpos.Admin);
  coinbase ← e_deref (head (b_Txs block));
  vout ← e_deref (head (Vout coinbase));
  _ ← x_db (AddBalance adminAddr (Value vout));
  match Vout coinbase with
  | [_; keeper] => x_db (AddBalance (h_BookKeeper (b_Header block)) (i64 (Value keeper)))
  | _ => mret tt
  end.

(** The roots that the state comes to are those of the header. *)
Definition checkRoots (block : Block) (root utxoRoot : option bytes) : XM unit :=
  if negb (Crypto.IsEqual root (Some (h_RootHash (b_Header block)))) then e_fail ErrInvalidStateRoot
  else if (match utxoRoot with Some _ => negb (Crypto.IsEqual utxoRoot (Some (h_UtxoRoot (b_Header block)))) | None => false end)
          && negb (match utxoRoot with None => bool_decide (h_UtxoRoot (b_Header block) = Crypto.ZeroHash) | Some _ => false end)
  then e_fail ErrInvalidUtxoRoot
  else mret tt.

(** [blockCopy] is the block with its payments to split addresses divided; the block comes back
    with the types of its transactions and the internal transactions it ends up with. *)
Definition adjustAndValidateState (reward : option Z) (contractAddr : bytes) (parent block blockCopy : Block) : XM (BlockExecuteResult * Block) :=
  r ← x_go (openState (h_RootHash (b_Header parent)) (h_UtxoRoot (b_Header parent)));
  db ← match r with Some d => mret d | None => e_fail ErrOpenState end;
  _ ← e_modify (fun s => mkXState (mkPState db NewUtxoSet) (x_dynasty s));
  '(u, err) ← x_go (LoadBlockUtxos pool NewUtxoSet (blockTxs block) true cdb (CS := chainState db));
  _ ← match err with Some e => e_fail (ErrExecDb e) | None => mret tt end;
  r ← x_go (validateBlockScripts u block);
  _ ← x_result ErrExecChain r;
  r ← x_go (validateBlockInputs (b_Txs block) u db);
  '(totalTxsFee, txs) ← x_result ErrExecChain r;
  let block := with_txs block txs in
  _ ← payCoinbase block;
  db ← x_sdb;
  let copied := appliedTxs (CS := chainState db) (b_Txs blockCopy) u (h_Height (b_Header blockCopy)) in
  u ← x_result ErrExecUtxo (ApplyBlock (CS := chainState db) u (blockTxs blockCopy));
  _ ← x_set u;
  _ ← UpdateNormalTxBalanceState copied u;
  '(receipts, gasUsed, utxoTxs) ← x_pm (Process pool cdb getHash noRecursion enablePreimageRecording block);
  block ← ValidateExecuteResult reward block utxoTxs gasUsed totalTxsFee receipts;
  _ ← e_modify (fun s => mkXState (x_state s) (x_dynasty s + dynastyTopics contractAddr receipts));
  u ← x_utxo;
  let u := ApplyInternalTxs u (blockTxs block) in
  _ ← x_set u;
  _ ← UpdateContractUtxoState u;
  r ← x_db Commit;
  '(root, utxoRoot) ← match r with Some x => mret x | None => e_fail ErrCommit end;
  _ ← checkRoots block root utxoRoot;
  _ ← balancesAgree u (order_set (contractUtxos u));
  db ← x_sdb;
  mret (mkExecResult u receipts db, block).

(** ** Rolling back *)

(** The contract an output pays to. *)
Definition contractPayee (s : sdb) (sc : bytes) : go (result ExecErr (option bytes)) :=
  if negb (IsContractPubkey sc) then
    a ← payee sc;
    Returns (Ok (match a with Some a => if length (peek [] (GetCode a) s) =? 0 then None else Some a | None => None end))
  else
    match ParseContractParams sc with
    | Err e => Returns (Err ErrRollbackParams)
    | Ok (param, t) =>
        if bool_decide (t = ContractCreationType) then
          match MakeContractAddress (CS := chainState s) (vp_From param) (vp_Nonce param) with Some a => Returns (Ok (Some a)) | None => Panics end
        else Returns (Ok (Some (vp_To param)))
    end.

Fixpoint contractOuts (s : sdb) (outs : list TxOut) (m : gmap bytes Z) : go (result ExecErr (gmap bytes Z)) :=
  match outs with
  | [] => Returns (Ok m)
  | vout :: outs =>
      r ← contractPayee s (ScriptPubKey vout);
      match r with
      | Err e => Returns (Err e)
      | Ok a => contractOuts s outs (match a with Some a => balanceAdd m a (Value vout) | None => m end)
      end
  end.

Fixpoint contractTxs (s : sdb) (txs : list Transaction) (m : gmap bytes Z) : go (result ExecErr (gmap bytes Z)) :=
  match txs with
  | [] => Returns (Ok m)
  | tx :: txs => r ← contractOuts s (Vout tx) m; match r with Err e => Returns (Err e) | Ok m => contractTxs s txs m end
  end.

(** What contracts paid in internal transactions. *)
Fixpoint internalTxs (txs : list Transaction) (m : gmap bytes Z) : go (gmap bytes Z) :=
  match txs with
  | [] => Returns m
  | tx :: txs =>
      match head (Vin tx) with
      | None => Panics
      | Some txIn =>
          if negb (Types.IsContractType (PrevOutPoint txIn)) then internalTxs txs m
          else
            let spend := foldl (fun t o => u64 (t + Value o)) 0%Z (Vout tx) in
            internalTxs txs (balanceAdd m (Types.BytesToAddressHash (op_hash (PrevOutPoint txIn))) spend)
      end
  end.

Definition calcContractAddrBalanceChanges (block : Block) (s : sdb) : go (result ExecErr (gmap bytes Z * gmap bytes Z)) :=
  r ← contractTxs s (b_Txs block) ∅;
  match r with
  | Err e => Returns (Err e)
  | Ok add => sub ← internalTxs (b_InternalTxs block) ∅; Returns (Ok (add, sub))
  end.

(** The entry of a contract before the changes of the block: the balance now, less what was added,
    or more what was spent. *)
Definition rollbackEntry (s prev : sdb) (height : Z) (a : bytes) : go Types.UtxoWrap :=
  match MakeContractScriptPubkey (Some Types.ZeroAddressHash) (Some a) TransferGasLimit (peek 0%Z (GetNonce a) prev) 0 with
  | Err _ => Panics
  | Ok sc => Returns (Types.NewUtxoWrap (Big.Uint64 (peek 0%Z (GetBalance a) s)) sc height)
  end.

Fixpoint rollbackLoop (change : Z -> Z -> Z) (s prev : sdb) (height : Z) (changes : list (bytes * Z)) (um : gmap OutPoint Types.UtxoWrap) : go (gmap OutPoint Types.UtxoWrap) :=
  match changes with
  | [] => Returns um
  | (a, v) :: changes =>
      let op := contractOutPoint (Some a) in
      w ← match um !! op with Some w => Returns w | None => rollbackEntry s prev height a end;
      rollbackLoop change s prev height changes (<[op := Types.SetValue w (u64 (change (Types.uw_value w) v))]> um)
  end.

(** The entries must be what the state before the block had. *)
Fixpoint rollbackCheck (prev : sdb) (entries : list (OutPoint * Types.UtxoWrap)) (um : gmap OutPoint Types.UtxoWrap) : go (result ExecErr (gmap OutPoint Types.UtxoWrap)) :=
  match entries with
  | [] => Returns (Ok um)
  | (op, w) :: entries =>
      let ah := Types.BytesToAddressHash (op_hash op) in
      if negb (Types.uw_value w =? Big.Uint64 (peek 0%Z (GetBalance ah) prev))%Z then Returns (Err ErrRollbackBalance)
      else
        match peek None (GetUtxo ah) prev with
        | None => Returns (Err ErrRollbackParams)
        | Some None => rollbackCheck prev entries (<[op := Types.Spend w]> um)
        | Some (Some utxoBytes) =>
            r ← DeserializeUtxoWrap utxoBytes [];
            match r with
            | Err e => Returns (Err (ErrExecStore e))
            | Ok w => rollbackCheck prev entries (<[op := w]> um)
            end
        end
  end.

Definition MakeRollbackContractUtxos (block : Block) (s prev : sdb) : go (result ExecErr (gmap OutPoint Types.UtxoWrap)) :=
  r ← calcContractAddrBalanceChanges block s;
  match r with
  | Err e => Returns (Err e)
  | Ok (bAdd, bSub) =>
      um ← rollbackLoop Z.sub s prev (h_Height (b_Header block)) (visit bAdd) ∅;
      um ← rollbackLoop Z.add s prev (h_Height (b_Header block)) (visit bSub) um;
      rollbackCheck prev (order_map um) um
  end.

End Exec.
End BlockExec.
