(* ===== verification/BlockExecFacts.v ===== *)
(** * BlockExecFacts: what an executed block has been checked for

    The fees of a block are the exact difference between what its payments spend and what they
    pay; the coinbase takes the reward, the fees and the gas and nothing else; roots, receipts and
    the balances of contracts agree with the header. *)

From S2P Require Import Prelude Effects Opcode Crypto Types Script ScriptKinds Merkle Bytes Bloom TxLogic Compress Keys UtxoSet UtxoDb UtxoDbFacts Validate ValidateFacts EvmMath EvmState EvmMachine EvmGas EvmInstr EvmPrecompile Evm EvmMain Transition Receipt Blocks Processor ProcessorMain Chain Bpos ChainDemo TxPool BlockExec.
Import Kinds TxLogic Compress Utxo UtxoDb Validate Transition Receipt Processor Blocks BlockExec.

Section Exec.
Context {D : StateDB} {X : ChainDB D} {CD : CommitDB D} `{C : Crypto} `{TC : TxCodec} `{HC : HeaderCodec} `{RC : ReceiptCodec} `{K : Keccak} `{E : Curves} `{R : Rlp} {VO : VisitOrder} {MO : MapOrder} `{P : Pow10}.
Context (pool : bytes) (cdb : Db) (getHash : Z -> option bytes) (noRecursion enablePreimageRecording : bool).

(** ** Fees *)

Definition in_value (u : UtxoSet) (tx : Transaction) : Z := zsum (map (fun i => match FindUtxo u (PrevOutPoint i) with Some w => Types.uw_value w | None => 0%Z end) (Vin tx)).
Definition out_value (tx : Transaction) : Z := zsum (map Value (Vout tx)).

(** A payment: it is not a coinbase, not a call of the node itself and not a contract transaction. *)
Definition plain (s : sdb) (tx : Transaction) : bool := negb (IsCoinBase tx || IsInternalContract tx) && negb (bool_decide ((GetTxType (Some (isContract s)) tx).2 = ContractTx)).

Lemma spends_value u ins ws : spends u ins ws -> zsum (map (fun i => match FindUtxo u (PrevOutPoint i) with Some w => Types.uw_value w | None => 0%Z end) ins) = zsum (map Types.uw_value ws).
Proof. induction 1 as [|i w ins ws [Ew _] _ IH]; [done|]. cbn [map zsum]. by rewrite Ew, IH. Qed.

(** The type a transaction gets does not change anything else. *)
Lemma typed_same sd tx : exists t, (GetTxType sd tx).1 = set_type tx t.
Proof. unfold GetTxType, ParseTxType. case_bool_decide; cbn [negb]; [destruct (parseTypeLoop _ _ _ _ _ _) as [[f t] i]; by exists f|]. exists (tx_type tx). by destruct tx. Qed.

Definition tx_sound (tx : Transaction) : Prop := Forall (fun o => 0 <= Value o < 2 ^ 64)%Z (Vout tx) /\ ValidateTransactionPreliminary tx = None.

Definition fee_of (u : UtxoSet) (tx : Transaction) : Z := (in_value u tx - out_value tx)%Z.

Lemma blockInputs_fees txs u s t fees txs' : values_ok u -> Forall tx_sound txs -> (0 <= t < 2 ^ 64)%Z -> blockInputsLoop txs u s t = Returns (Ok (fees, txs')) ->
  fees = (t + zsum (map (fee_of u) (List.filter (plain s) txs)))%Z /\ (0 <= fees < 2 ^ 64)%Z /\ txs' = map (fun tx => (GetTxType (Some (isContract s)) tx).1) txs.
Proof.
  intros Hu Ht. revert t fees txs'. induction Ht as [|tx txs [Hv Hp] _ IH]; intros t fees txs' Hr; cbn [blockInputsLoop]; [intros [= <- <-]; cbn; split_and!; [lia|lia|lia|done]|].
  destruct (typed_same (Some (isContract s)) tx) as [ty Ety]. cbn [List.filter map]. unfold plain at 1. destruct (GetTxType (Some (isContract s)) tx) as [tx1 typ]. cbn [fst snd] in *. subst tx1.
  change (IsCoinBase (set_type tx ty)) with (IsCoinBase tx). change (IsInternalContract (set_type tx ty)) with (IsInternalContract tx).
  destruct (IsCoinBase tx || IsInternalContract tx) eqn:Ecb; cbn [negb andb].
  { destruct (blockInputsLoop txs u s t) as [[[f l]|]|] eqn:El; cbn; try done. intros [= <- <-]. destruct (IH _ _ _ Hr El) as (H1 & H2 & ->). done. }
  apply orb_false_elim in Ecb as [Ec Ei]. change (ValidateTxInputs u (set_type tx ty)) with (ValidateTxInputs u tx). destruct (ValidateTxInputs u tx) as [[fee|]|] eqn:Ef; cbn [mbind go_bind]; try done.
  destruct (value_kept u tx fee Hu Hv Ec Ei Hp Ef) as (ws & Hs & Hsum & Hfee & Hmax). assert (fee_of u tx = fee) as Efee by (unfold fee_of, in_value, out_value; rewrite (spends_value u (Vin tx) ws Hs); lia).
  assert (0 <= zsum (map Value (Vout tx)))%Z as Hout by (apply zsum_nonneg; rewrite List.Forall_map; eapply Forall_impl; [exact Hv|cbn; lia]). assert (fee < 2 ^ 64)%Z as Hfee64 by (unfold TotalSupply, DuPerBox in *; lia).
  case_bool_decide as Ect; cbn [negb andb].
  - cbv beta zeta. destruct (match Data _ with Some _ => _ | None => false end); [done|]. destruct (GetContractVout _ _) as [[vout|]|]; cbn [mbind go_bind]; try done. destruct (ParseContractParams _) as [[param pt]|]; [|done].
    destruct (_ =? _)%Z; cbn [negb]; [|done]. destruct (head _); [|done]. destruct (TxPool.FetchOutPointOwner _ _) as [a|]; [|done]. destruct (Types.address_Hash160 a) as [h|]; [|done]. case_bool_decide; [|done].
    destruct (blockInputsLoop txs u s t) as [[[f l]|]|] eqn:El; cbn; try done. intros [= <- <-]. destruct (IH _ _ _ Hr El) as (H1 & H2 & ->). done.
  - destruct (_ =? _)%Z; cbn [negb]; [|done]. destruct (Z.ltb_spec (u64 (t + fee)) t) as [|Hge]; [done|]. assert (u64 (t + fee) = t + fee)%Z as Eu.
    { unfold u64 in *. destruct (decide (t + fee < 2 ^ 64)%Z); [apply Z.mod_small; lia|]. rewrite (Z.mod_eq (t + fee) (2 ^ 64)) in Hge by lia. assert ((t + fee) / 2 ^ 64 = 1)%Z as Hd by (symmetry; apply (Z.div_unique_pos _ _ _ (t + fee - 2 ^ 64)); lia). rewrite Hd in Hge. lia. }
    rewrite Eu in *. destruct (blockInputsLoop txs u s (t + fee)) as [[[f l]|]|] eqn:El; cbn; try done. intros [= <- <-]. destruct (IH (t + fee)%Z f l) as (H1 & H2 & ->); [|done|].
    + pose proof (Z.mod_pos_bound (t + fee) (2 ^ 64)). unfold u64 in Eu. lia.
    + split_and!; [|lia|lia|done]. rewrite H1. cbn [zsum map]. lia.
Qed.

(** The transactions with their types, as the checks leave them. *)
Definition typed (s : sdb) (txs : list Transaction) : list Transaction := map (fun tx => (GetTxType (Some (isContract s)) tx).1) txs.

Lemma blockInputs_typed txs u s t fees txs' : blockInputsLoop txs u s t = Returns (Ok (fees, txs')) -> txs' = typed s txs.
Proof.
  revert t fees txs'. induction txs as [|tx txs IH]; intros t fees txs'; cbn [blockInputsLoop typed map]; [by intros [= _ <-]|].
  destruct (GetTxType (Some (isContract s)) tx) as [tx1 typ]. cbn [fst].
  assert (forall t, (r ← blockInputsLoop txs u s t; Returns (match r with Ok (f, l) => Ok (f, tx1 :: l) | Err e => Err e end)) = Returns (Ok (fees, txs')) -> txs' = tx1 :: typed s txs) as Hgo.
  { intros t'. destruct (blockInputsLoop txs u s t') as [[[f l]|]|] eqn:El; cbn; [|done..]. intros [= _ <-]. f_equal. by eapply IH. }
  destruct (_ || _); [apply Hgo|]. destruct (ValidateTxInputs u tx1) as [[fee|]|]; cbn [mbind go_bind]; [|done..]. destruct (negb (bool_decide _)).
  - destruct (negb _); [done|]. destruct (_ <? _)%Z; [done|apply Hgo].
  - destruct (match Data _ with Some _ => _ | None => _ end); [done|]. destruct (GetContractVout _ _) as [[vout|]|]; cbn [mbind go_bind]; [|done..]. destruct (ParseContractParams _) as [[param pt]|]; [|done].
    destruct (negb _); [done|]. destruct (head _); [|done]. destruct (TxPool.FetchOutPointOwner _ _) as [a|]; [|done]. destruct (Types.address_Hash160 a); [|done]. case_bool_decide; [apply Hgo|done].
Qed.

(** ** The run of an accepted block *)

(** The state in which the contracts of a block run: the database of the parent's roots with the
    coinbase paid and the balances of the payments moved, and the unspent outputs of the block, with
    payments to split addresses divided as in [copy], applied. *)
Definition prepared (block copy : Block) (db : sdb) (u : UtxoSet) (txs : list Transaction) (n : nat) (before : XState) : Prop := exists s1 u',
  payCoinbase (with_txs block txs) (mkXState (mkPState db NewUtxoSet) n) = (EOk tt, s1) /\
  ApplyBlock (CS := chainState (p_db (x_state s1))) u (blockTxs copy) = Ok u' /\
  UpdateNormalTxBalanceState (appliedTxs (CS := chainState (p_db (x_state s1))) (b_Txs copy) u (h_Height (b_Header copy))) u'
    (mkXState (mkPState (p_db (x_state s1)) u') (x_dynasty s1)) = (EOk tt, before).

Lemma x_go_inv {A} (x : go A) s a s' : x_go x s = (EOk a, s') -> x = Returns a /\ s' = s.
Proof. destruct x; [by intros [= <- <-]|done]. Qed.
Lemma x_result_inv {A F} (f : F -> ExecErr) (x : result F A) s a s' : x_result f x s = (EOk a, s') -> x = Ok a /\ s' = s.
Proof. destruct x; [by intros [= <- <-]|done]. Qed.

Lemma payCoinbase_head block s u s' : payCoinbase block s = (EOk u, s') -> exists cb, head (b_Txs block) = Some cb.
Proof. unfold payCoinbase. intros (a & s1 & _ & H)%em_bind_inv. destruct (head (b_Txs block)) as [cb|]; [eauto|done]. Qed.

Abbreviation adjust := (adjustAndValidateState pool cdb getHash noRecursion enablePreimageRecording).

(** The steps that decide. *)
Lemma adjust_inv reward ca parent block copy s res b' s' : adjust reward ca parent block copy s = (EOk (res, b'), s') ->
  exists db u fees txs gas utxoTxs s0 s1 s2 n s3 s4 root utxoRoot,
    openState (h_RootHash (b_Header parent)) (h_UtxoRoot (b_Header parent)) = Returns (Some db) /\
    LoadBlockUtxos pool NewUtxoSet (blockTxs block) true cdb (CS := chainState db) = Returns (u, None) /\
    validateBlockScripts u block = Returns (Ok tt) /\
    validateBlockInputs (b_Txs block) u db = Returns (Ok (fees, txs)) /\
    prepared block copy db u txs (x_dynasty s) s0 /\
    x_pm (Process pool cdb getHash noRecursion enablePreimageRecording (with_txs block txs)) s0 = (EOk (er_Receipts res, gas, utxoTxs), s1) /\
    ValidateExecuteResult reward (with_txs block txs) utxoTxs gas fees (er_Receipts res) s1 = (EOk b', s2) /\
    er_UtxoSet res = ApplyInternalTxs (p_utxo (x_state s2)) (blockTxs b') /\
    UpdateContractUtxoState (er_UtxoSet res) (mkXState (mkPState (p_db (x_state s2)) (er_UtxoSet res)) n) = (EOk tt, s3) /\
    x_db Commit s3 = (EOk (Some (root, utxoRoot)), s4) /\
    checkRoots b' root utxoRoot s4 = (EOk tt, s4) /\
    balancesAgree (er_UtxoSet res) (order_set (contractUtxos (er_UtxoSet res))) s4 = (EOk tt, s') /\ er_StateDB res = p_db (x_state s').
Proof.
  unfold adjustAndValidateState. intros H. apply em_bind_inv in H as (r & s0 & E0 & H). apply x_go_inv in E0 as [E0 ->].
  apply em_bind_inv in H as (db & s0 & E1 & H). destruct r as [d|]; [|done]. injection E1 as -> <-. apply em_bind_inv in H as (t & s1 & Et & H). injection Et as _ <-.
  apply em_bind_inv in H as ([u err] & s2 & E2 & H). apply x_go_inv in E2 as [E2 ->]. apply em_bind_inv in H as (t1 & s2 & E3 & H). destruct err as [e|]; [done|]. injection E3 as _ <-.
  apply em_bind_inv in H as (r & s3 & E4 & H). apply x_go_inv in E4 as [E4 ->]. apply em_bind_inv in H as ([] & s3 & E5 & H). apply x_result_inv in E5 as [-> ->].
  apply em_bind_inv in H as (r & s3 & E6 & H). apply x_go_inv in E6 as [E6 ->]. apply em_bind_inv in H as ([fees txs] & s3 & E7 & H). apply x_result_inv in E7 as [-> ->]. cbv zeta in H.
  apply em_bind_inv in H as ([] & s3 & Epay & H). apply em_bind_inv in H as (db2 & s4 & Edb & H). injection Edb as <- <-. apply em_bind_inv in H as (u2 & s5 & Eu2 & H). apply x_result_inv in Eu2 as [Eu2 ->].
  apply em_bind_inv in H as (t3 & s6 & Es6 & H). injection Es6 as _ <-. apply em_bind_inv in H as ([] & s7 & Eup & H). assert (prepared block copy db u txs (x_dynasty s) s7) as Hprep by (by exists s3, u2).
  apply em_bind_inv in H as ([[receipts gas] utxoTxs] & s8 & Ep & H). apply em_bind_inv in H as (b1 & s9 & E8 & H). apply em_bind_inv in H as (t5 & s10 & Em & H). injection Em as _ <-. apply em_bind_inv in H as (u3 & s11 & Eu & H). injection Eu as <- <-.
  apply em_bind_inv in H as (t6 & s12 & Es & H). injection Es as _ <-. apply em_bind_inv in H as ([] & s13 & Ec & H). apply em_bind_inv in H as (r & s14 & E9 & H). apply em_bind_inv in H as ([root utxoRoot] & s15 & E10 & H).
  destruct r as [x|]; [|done]. injection E10 as -> ->. apply em_bind_inv in H as ([] & s16 & E11 & H). assert (s16 = s15) as -> by (unfold checkRoots in E11; repeat case_match; by inversion E11).
  apply em_bind_inv in H as ([] & s17 & E12 & H). injection H as <- <- <-. cbn [x_state x_dynasty er_UtxoSet er_Receipts er_StateDB] in *. repeat eexists; eauto.
Qed.

Lemma sum64 outs t : foldl (fun t o => u64 (t + Value o)) (u64 t) outs = u64 (t + zsum (map Value outs)).
Proof.
  revert t. induction outs as [|o outs IH]; intros t; cbn [foldl map zsum]; [by rewrite Z.add_0_r|]. assert (u64 (u64 t + Value o) = u64 (t + Value o)) as -> by (unfold u64; apply Zplus_mod_idemp_l). rewrite IH. f_equal. lia.
Qed.

(** The receipts and the internal transactions that the header commits to. *)
Definition commits_to (h : BlockHeader) (rcs : list Receipt) (internal : list Transaction) : Prop :=
  match rcs with [] => h_ReceiptHash h = Crypto.ZeroHash | _ => Receipts_Hash rcs = Some (h_ReceiptHash h) end /\
  match internal with [] => True | _ => Merkle.CalcTxsHash internal = Returns (Some (h_InternalTxsRoot h)) end.

Lemma validateResult_inv reward b utxoTxs gas fees rcs s b' s' : ValidateExecuteResult reward b utxoTxs gas fees rcs s = (EOk b', s') ->
  s' = s /\ b_Header b' = b_Header b /\ b_Txs b' = b_Txs b /\ h_GasUsed (b_Header b) = gas /\ commits_to (b_Header b) rcs utxoTxs /\
  b_InternalTxs b' = (match utxoTxs with [] => [] | _ => b_InternalTxs b end) /\
  exists cb rw, head (b_Txs b) = Some cb /\ reward = Some rw /\ u64 (zsum (map Value (Vout cb))) = u64 (Big.Uint64 rw + fees + gas).
Proof.
  unfold ValidateExecuteResult. intros (b1 & s1 & E1 & H)%em_bind_inv. assert (s1 = s /\ b_Header b1 = b_Header b /\ b_Txs b1 = b_Txs b /\ b_InternalTxs b1 = (match utxoTxs with [] => [] | _ => b_InternalTxs b end) /\
    match utxoTxs with [] => True | _ => Merkle.CalcTxsHash utxoTxs = Returns (Some (h_InternalTxsRoot (b_Header b))) end) as (-> & Eh & Et & Ei & Er).
  { unfold checkInternalTxs in E1. destruct utxoTxs as [|t ts]; [by injection E1 as <- <-|]. apply em_bind_inv in E1 as (root & s2 & E2 & E1). apply x_go_inv in E2 as [E2 ->].
    destruct (Crypto.IsEqual _ root) eqn:Eq; [|done]. injection E1 as <- <-. destruct root as [root|]; [|done]. cbn in Eq. apply bool_decide_eq_true in Eq as <-. done. }
  rewrite Eh, Et in H. destruct (Z.eqb_spec (h_GasUsed (b_Header b)) gas) as [Eg|]; cbn [negb] in H; [|done]. apply em_bind_inv in H as (cb & s2 & E2 & H). destruct (head (b_Txs b)) as [cb'|]; [|done]. injection E2 as -> ->.
  apply em_bind_inv in H as (rw & s3 & E3 & H). destruct reward as [rw'|]; [|done]. injection E3 as -> ->. destruct (Z.eqb_spec (foldl (fun t o => u64 (t + Value o)) 0%Z (Vout cb)) (u64 (u64 (Big.Uint64 rw + fees) + gas))) as [Ev|]; cbn [negb] in H; [|done].
  apply em_bind_inv in H as (rh & s4 & E4 & H). assert (s4 = s3) as -> by (destruct rcs; [by injection E4|]; destruct (Receipts_Hash _); [by injection E4|done]).
  case_bool_decide as Ec; cbn [negb] in H; [|done]. injection H as <- <-. split_and!; try done.
  - split; [|done]. destruct rcs as [|rc rcs]; [by injection E4 as <-|]. destruct (Receipts_Hash (rc :: rcs)); [|done]. injection E4 as ->. by rewrite Ec.
  - exists cb, rw. split_and!; [done|done|]. pose proof (sum64 (Vout cb) 0) as Hs. change (u64 0) with 0%Z in Hs. rewrite Z.add_0_l in Hs. rewrite <-Hs, Ev. unfold u64. apply Zplus_mod_idemp_l.
Qed.

(** C7: When a block is accepted, the outputs of its coinbase sum, in 64 bits, to the reward plus the
    fees of its transactions outside contracts plus the gas used that the header states; the sum of
    the fees, which the code takes in 64 bits, has not wrapped. *)
Theorem coinbase_takes_fees reward ca parent block copy s res b' s' db u : openState (h_RootHash (b_Header parent)) (h_UtxoRoot (b_Header parent)) = Returns (Some db) ->
  LoadBlockUtxos pool NewUtxoSet (blockTxs block) true cdb (CS := chainState db) = Returns (u, None) -> values_ok u -> Forall tx_sound (b_Txs block) ->
  adjust reward ca parent block copy s = (EOk (res, b'), s') ->
  exists cb rw, head (b_Txs b') = Some cb /\ reward = Some rw /\ (zsum (map (fee_of u) (List.filter (plain db) (b_Txs block))) < 2 ^ 64)%Z /\
    u64 (out_value cb) = u64 (Big.Uint64 rw + zsum (map (fee_of u) (List.filter (plain db) (b_Txs block))) + h_GasUsed (b_Header block)).
Proof.
  intros Eo El Hu Ht H. apply adjust_inv in H as (db' & u' & fees & txs & gas & utxoTxs & s0 & s1 & s2 & n & s3 & s4 & root & utxoRoot & E1 & E2 & _ & E3 & _ & _ & E4 & _). rewrite Eo in E1. injection E1 as <-. rewrite El in E2. injection E2 as <-.
  destruct (blockInputs_fees _ _ _ 0%Z _ _ Hu Ht ltac:(lia) E3) as (-> & Hf & _). apply validateResult_inv in E4 as (_ & Eh & Et & Eg & _ & _ & cb & rw & Ecb & Erw & Ev).
  exists cb, rw. rewrite Et. split_and!; [done|done|lia|]. unfold out_value. rewrite Ev. cbn [with_txs b_Header] in Eg. by rewrite Eg.
Qed.

(** ** Rolling back *)

(** The entry of a contract as the state before the block had it, or gone if there was none. *)
Definition restored (prev : sdb) (op : OutPoint) (w : Types.UtxoWrap) : Prop :=
  match peek None (GetUtxo (Types.BytesToAddressHash (op_hash op))) prev with
  | Some (Some b) => DeserializeUtxoWrap b [] = Returns (Ok w)
  | Some None => Types.IsSpent w = true
  | None => False
  end.

Lemma spend_spent w : Types.IsSpent (Types.Spend w) = true.
Proof.
  unfold Types.Spend. destruct (Types.IsSpent w) eqn:Es; [done|]. unfold Types.IsSpent, Types.set_flags, Types.spent, Types.modified. cbn [Types.uw_flags]. change (Z.lor 1 2) with 3%Z. apply Z.eqb_eq.
  apply Z.bits_inj'. intros n Hn. rewrite Z.land_spec, Z.lor_spec. destruct (Z.eqb_spec n 0) as [->|]; [cbn; by rewrite orb_true_r|]. change 1%Z with (2 ^ 0)%Z. rewrite Z.pow2_bits_false by lia. by rewrite andb_false_r.
Qed.

Lemma rollbackCheck_spec prev entries um um' : rollbackCheck prev entries um = Returns (Ok um') ->
  Forall (fun p => Types.uw_value p.2 = Big.Uint64 (peek 0%Z (GetBalance (Types.BytesToAddressHash (op_hash p.1))) prev)) entries /\
  forall op w, um' !! op = Some w -> ((op ∉ entries.*1) /\ um !! op = Some w) \/ restored prev op w.
Proof.
  revert um. induction entries as [|[op w] entries IH]; intros um; cbn [rollbackCheck]; [intros [= <-]; split; [constructor|]; intros op w Hw; left; split; [apply not_elem_of_nil|done]|].
  destruct (Z.eqb_spec (Types.uw_value w) (Big.Uint64 (peek 0%Z (GetBalance (Types.BytesToAddressHash (op_hash op))) prev))) as [Eb|]; cbn [negb]; [|done].
  assert (forall w1, restored prev op w1 -> rollbackCheck prev entries (<[op := w1]> um) = Returns (Ok um') ->
    Forall (fun p => Types.uw_value p.2 = Big.Uint64 (peek 0%Z (GetBalance (Types.BytesToAddressHash (op_hash p.1))) prev)) ((op, w) :: entries) /\
    forall op' w', um' !! op' = Some w' -> ((op' ∉ ((op, w) :: entries).*1) /\ um !! op' = Some w') \/ restored prev op' w') as Hstep.
  { intros w1 Hw1 H. apply IH in H as [H1 H2]. split; [by constructor|]. intros op' w' Hl. destruct (H2 _ _ Hl) as [[Hnot Hold]|]; [|by right]. apply lookup_insert_Some in Hold as [[<- <-]|[Hne Hold]]; [by right|]. left. split; [|done]. rewrite fmap_cons, not_elem_of_cons. done. }
  unfold restored in Hstep. destruct (peek None (GetUtxo _) prev) as [[b|]|]; [|apply Hstep, spend_spent|done]. destruct (DeserializeUtxoWrap b []) as [[w1|]|] eqn:Ed; cbn [mbind go_bind]; [|done|done]. by apply Hstep.
Qed.

Lemma contractOutPoint_eq a : contractOutPoint (Some a) = mkOutPoint (replicate 12 x00 ++ a) 0.
Proof. unfold contractOutPoint, Types.NormalizeAddressHash. by case_bool_decide as Ea; [rewrite Ea|]. Qed.

#[local] Instance contractOutPoint_inj : Inj (=) (=) (fun a => contractOutPoint (Some a)).
Proof. intros a b. rewrite !contractOutPoint_eq. by intros [= ->]. Qed.

Lemma contract_address a : length a = 20 -> Types.BytesToAddressHash (op_hash (contractOutPoint (Some a))) = a.
Proof. intros Ha. rewrite contractOutPoint_eq. do 21 (destruct a as [|? a]; try done). Qed.

(** The value the loops start from, and what they come to. *)
Definition before (now : sdb) (um : gmap OutPoint Types.UtxoWrap) (a : bytes) : Z :=
  match um !! contractOutPoint (Some a) with Some w => Types.uw_value w | None => Big.Uint64 (peek 0%Z (GetBalance a) now) end.

Lemma rollbackLoop_spec change now prev height changes um um' : NoDup changes.*1 -> rollbackLoop change now prev height changes um = Returns um' ->
  dom um' = dom um ∪ list_to_set ((fun p => contractOutPoint (Some p.1)) <$> changes) /\
  forall a, before now um' a = match list_to_map (M := gmap bytes Z) changes !! a with Some v => u64 (change (before now um a) v) | None => before now um a end.
Proof.
  clear getHash. revert um. induction changes as [|[a v] changes IH]; intros um; cbn [rollbackLoop].
  - intros _ [= <-]. split; [set_solver|]. intros a. done.
  - rewrite fmap_cons, NoDup_cons. intros [Ha Hd] H. destruct (um !! contractOutPoint (Some a)) as [w|] eqn:Ew; [|unfold rollbackEntry in H; destruct (MakeContractScriptPubkey _ _ _ _ _) as [sc|]; [|done]]; cbn [mbind go_bind] in H.
    all: apply IH in H as [Hdom H]; [|done]; split; [rewrite Hdom; set_solver|]; intros b; rewrite H; cbn [list_to_map foldr fst snd].
    all: unfold before; destruct (decide (b = a)) as [->|Hne]; [rewrite lookup_insert_eq, not_elem_of_list_to_map_1, Ew by done; rewrite lookup_insert_eq; done|].
    all: rewrite !lookup_insert_ne by (done || (intros E'; by apply (inj (fun a => contractOutPoint (Some a))), eq_sym in E')); done.
Qed.

Lemma rollbackCheck_dom prev entries um um' : rollbackCheck prev entries um = Returns (Ok um') -> dom um ⊆ dom um'.
Proof.
  revert um. induction entries as [|[op w] entries IH]; intros um; cbn [rollbackCheck]; [by intros [= <-]|]. destruct (negb _); [done|]. destruct (peek None _ prev) as [[b|]|]; [|intros H%IH; set_solver|done].
  destruct (DeserializeUtxoWrap b []) as [[w1|]|]; cbn [mbind go_bind]; [intros H%IH; set_solver|done|done].
Qed.

Lemma visited (m : gmap bytes Z) : list_to_map (visit m) = m.
Proof. rewrite <-(list_to_map_to_list m) at 2. apply list_to_map_proper; [apply visit_nodup|apply visit_perm]. Qed.

Definition contract_of (o : OutPoint) : bytes := Types.BytesToAddressHash (op_hash o).

Lemma rollback_maps now prev height bAdd bSub um1 um2 um : rollbackLoop Z.sub now prev height (visit bAdd) ∅ = Returns um1 ->
  rollbackLoop Z.add now prev height (visit bSub) um1 = Returns um2 -> rollbackCheck prev (order_map um2) um2 = Returns (Ok um) ->
  (forall op w, um !! op = Some w -> restored prev op w) /\
  forall a, a ∈ dom bAdd ∪ dom bSub -> length a = 20 -> is_Some (um !! contractOutPoint (Some a)) /\
    Big.Uint64 (peek 0%Z (GetBalance a) prev) = u64 (Big.Uint64 (peek 0%Z (GetBalance a) now) - default 0%Z (bAdd !! a) + default 0%Z (bSub !! a)).
Proof.
  intros E1 E2 H. pose proof (rollbackCheck_dom _ _ _ _ H) as Hd. apply rollbackCheck_spec in H as [Hb H].
  apply rollbackLoop_spec in E1 as [D1 E1]; [|apply visit_nodup]. apply rollbackLoop_spec in E2 as [D2 E2]; [|apply visit_nodup]. split.
  - intros op w Hl. destruct (H _ _ Hl) as [[Hnot Hold]|]; [|done]. destruct Hnot. rewrite order_map_perm. apply list_elem_of_fmap. exists (op, w). split; [done|by apply elem_of_map_to_list].
  - intros a Ha Hlen. assert (contractOutPoint (Some a) ∈ dom um2) as Hin.
    { rewrite D2, D1, elem_of_union. apply elem_of_union in Ha as [[v Hv]%elem_of_dom|[v Hv]%elem_of_dom]; [left; apply elem_of_union_r|right]; apply elem_of_list_to_set, list_elem_of_fmap; exists (a, v); (split; [done|by apply visit_lookup]). }
    split; [by apply elem_of_dom, Hd|]. apply elem_of_dom in Hin as [w Hw]. rewrite Forall_forall in Hb. specialize (Hb (contractOutPoint (Some a), w)). cbn [fst snd] in Hb. rewrite contract_address in Hb by done.
    rewrite <-Hb by (rewrite order_map_perm; by apply elem_of_map_to_list). specialize (E2 a). specialize (E1 a). rewrite visited in E1, E2. unfold before in E1, E2. rewrite Hw in E2. rewrite lookup_empty in E1. rewrite E2.
    apply elem_of_union in Ha. rewrite !elem_of_dom in Ha. destruct (bAdd !! a), (bSub !! a); cbn [default]; rewrite ?E1; [|by rewrite ?Z.add_0_r| |by destruct Ha as [[]|[]]].
    + unfold u64. by rewrite Zplus_mod_idemp_l.
    + by rewrite Z.sub_0_r.
Qed.

(** What a block pays to a contract, and what the contract spends in it. *)

(** The contract that an output pays: the one that its contract script calls or creates, or the one
    whose address the script names, if there is code at that address. *)
Definition payee_contract (s : sdb) (o : TxOut) : option bytes :=
  let sc := ScriptPubKey o in
  if IsContractPubkey sc then
    match ParseContractParams sc with
    | Ok (p, ContractCreationType) => MakeContractAddress (CS := chainState s) (vp_From p) (vp_Nonce p)
    | Ok (p, _) => Some (vp_To p)
    | Err _ => None
    end
  else if IsPayToPubKeyHash sc then
    a ← match ExtractAddress sc with Ok a => Types.address_Hash160 a | Err _ => None end;
    if bool_decide (peek [] (GetCode a) s = []) then None else Some a
  else None.

Definition paid (s : sdb) (a : bytes) (outs : list TxOut) : Z := zsum (map Value (List.filter (fun o => bool_decide (payee_contract s o = Some a)) outs)).

(** Internal transactions of the contract: the first input is its entry. *)
Definition of_contract (a : bytes) (tx : Transaction) : bool :=
  match Vin tx with i :: _ => Types.IsContractType (PrevOutPoint i) && bool_decide (contract_of (PrevOutPoint i) = a) | [] => false end.
Definition spent (a : bytes) (txs : list Transaction) : Z := zsum (map out_value (List.filter (of_contract a) txs)).

Definition all_outs (txs : list Transaction) : list TxOut := txs ≫= Vout.

Lemma contractPayee_spec s o r : contractPayee s (ScriptPubKey o) = Returns (Ok r) -> payee_contract s o = r.
Proof.
  unfold contractPayee, payee_contract. destruct (IsContractPubkey _); cbn [negb].
  - destruct (ParseContractParams _) as [[p t]|]; [|done]. case_bool_decide as Et.
    + rewrite Et. destruct (MakeContractAddress _ _); [|done]. by intros [= <-].
    + intros [= <-]. by destruct t.
  - unfold payee. destruct (IsPayToPubKeyHash _); cbn [negb]; [|cbn; by intros [= <-]]. destruct (ExtractAddress _) as [a|]; [|done].
    destruct (Types.address_Hash160 a) as [h|]; [|done]. cbn. intros [= <-]. by destruct (peek [] (GetCode h) s).
Qed.

(** Sums in 64 bits under a key: the value that is there, and whether one is there. *)
Definition adds (m m' : gmap bytes Z) (a : bytes) (v : Z) (touched : Prop) : Prop :=
  u64 (default 0%Z (m' !! a)) = u64 (default 0%Z (m !! a) + v) /\ (is_Some (m' !! a) <-> is_Some (m !! a) \/ touched).

Lemma u64_add x y : u64 (u64 x + y) = u64 (x + y).
Proof. unfold u64. apply Zplus_mod_idemp_l. Qed.

Lemma adds_none m a (Q : Prop) : ~ Q -> adds m m a 0 Q.
Proof. intros Hp. split; [by rewrite Z.add_0_r|]. split; [by left|by intros [H|H]]. Qed.

Lemma adds_one m a b v : adds m (balanceAdd m b v) a (if bool_decide (b = a) then v else 0) (b = a).
Proof.
  unfold adds, balanceAdd. rewrite lookup_insert. case_decide as Eb; [subst b; rewrite bool_decide_true by done|rewrite bool_decide_false by done].
  - cbn. split; [unfold u64; by rewrite Z.mod_mod by lia|]. split; [by right|eauto].
  - split; [by rewrite Z.add_0_r|]. split; [by left|by intros [H|H]].
Qed.

Lemma adds_then m1 m2 m3 a v1 v2 (Q1 Q2 Q : Prop) : adds m1 m2 a v1 Q1 -> adds m2 m3 a v2 Q2 -> (Q <-> Q1 \/ Q2) -> adds m1 m3 a (v1 + v2) Q.
Proof.
  clear getHash. intros [H1 H2] [H3 H4] HP. split; [|tauto]. rewrite H3, <- u64_add, H1, u64_add. f_equal. lia.
Qed.

Lemma adds_eq m m' a v v' (Q Q' : Prop) : adds m m' a v Q -> v = v' -> (Q <-> Q') -> adds m m' a v' Q'.
Proof. clear getHash. intros [H1 H2] <- HP. split; [done|tauto]. Qed.

Lemma contractOuts_adds s outs m m' a : contractOuts s outs m = Returns (Ok m') -> adds m m' a (paid s a outs) (Exists (fun o => payee_contract s o = Some a) outs).
Proof.
  revert m. induction outs as [|o outs IH]; intros m; cbn [contractOuts]; [intros [= <-]; apply adds_none; by inversion 1|].
  destruct (contractPayee _ _) as [[r|]|] eqn:Er; cbn [mbind go_bind]; [|done..]. apply contractPayee_spec in Er. intros H%IH.
  eapply adds_eq; [eapply (adds_then _ _ _ _ (if bool_decide (r = Some a) then Value o else 0) _ (r = Some a) _ _); [|exact H|reflexivity]| |].
  - destruct r as [b|]; [|rewrite bool_decide_false by done; by apply adds_none]. eapply adds_eq; [apply adds_one| |]; [|split; [by intros ->|by intros [= ->]]].
    case_bool_decide; [by rewrite bool_decide_true by congruence|by rewrite bool_decide_false by congruence].
  - unfold paid. cbn [List.filter]. rewrite Er. by case_bool_decide.
  - by rewrite Exists_cons, Er.
Qed.

Lemma paid_app s a l1 l2 : paid s a (l1 ++ l2) = (paid s a l1 + paid s a l2)%Z.
Proof. unfold paid. by rewrite List.filter_app, map_app, zsum_app. Qed.

Lemma contractTxs_adds s txs m m' a : contractTxs s txs m = Returns (Ok m') -> adds m m' a (paid s a (all_outs txs)) (Exists (fun o => payee_contract s o = Some a) (all_outs txs)).
Proof.
  revert m. induction txs as [|tx txs IH]; intros m; cbn [contractTxs]; [intros [= <-]; apply adds_none; by inversion 1|].
  destruct (contractOuts _ _ _) as [[m1|]|] eqn:E1; cbn [mbind go_bind]; [|done..]. intros H%IH. apply (contractOuts_adds _ _ _ _ a) in E1.
  eapply adds_eq; [eapply adds_then; [exact E1|exact H|reflexivity]| |]; unfold all_outs; cbn [mbind list_bind]; [by rewrite paid_app|by rewrite Exists_app].
Qed.

Lemma internalTxs_adds txs m m' a : internalTxs txs m = Returns m' -> adds m m' a (spent a txs) (Exists (fun tx => of_contract a tx = true) txs).
Proof.
  revert m. induction txs as [|tx txs IH]; intros m; cbn [internalTxs]; [intros [= <-]; apply adds_none; by inversion 1|].
  destruct (Vin tx) as [|i ins] eqn:Ei; cbn [head]; [done|].
  assert (of_contract a tx = Types.IsContractType (PrevOutPoint i) && bool_decide (contract_of (PrevOutPoint i) = a)) as Eo by (unfold of_contract; by rewrite Ei).
  destruct (Types.IsContractType _); cbn [negb andb] in *.
  - pose proof (sum64 (Vout tx) 0) as Es. change (u64 0) with 0%Z in Es. rewrite Z.add_0_l in Es. rewrite Es. intros H%IH.
    assert (adds m (balanceAdd m (contract_of (PrevOutPoint i)) (u64 (out_value tx))) a (if bool_decide (contract_of (PrevOutPoint i) = a) then out_value tx else 0) (contract_of (PrevOutPoint i) = a)) as H0.
    { destruct (adds_one m a (contract_of (PrevOutPoint i)) (u64 (out_value tx))) as [H1 H2]. split; [|done]. rewrite H1. case_bool_decide; [|done]. by rewrite Z.add_comm, u64_add, Z.add_comm. }
    eapply adds_eq; [eapply adds_then; [exact H0|exact H|reflexivity]| |].
    + unfold spent. cbn [List.filter]. rewrite Eo. by case_bool_decide.
    + by rewrite Exists_cons, Eo, bool_decide_eq_true.
  - intros H%IH. eapply adds_eq; [exact H|unfold spent; cbn [List.filter]; by rewrite Eo|]. rewrite Exists_cons, Eo. split; [by right|by intros [?|?]].
Qed.

Lemma u64_difference x p q p' q' : u64 p = u64 p' -> u64 q = u64 q' -> u64 (x - p + q) = u64 (x - p' + q').
Proof.
  unfold u64. intros H1 H2. rewrite (Zplus_mod (x - p) q), (Zplus_mod (x - p') q'), H2. by rewrite (Zminus_mod x p), (Zminus_mod x p'), H1.
Qed.

(** C28: Every contract output that disconnecting a block computes is the one of the previous state:
    its stored form if it has one, otherwise an entry marked as spent.  Among them is every contract
    that an output of one of the block's transactions pays (a contract script that calls or creates
    it, or its address) and every contract whose entry is the first input of an internal transaction,
    and what it had before is, in 64 bits, what it has after the block less the sum of what these
    outputs pay to it plus the sum of all that these internal transactions pay out.  A contract that
    is only paid by an internal transaction of another contract is not among them: the code leaves
    this case to a TODO ([internal_payee_missed]). *)
Theorem rollback_restores block now prev um : MakeRollbackContractUtxos block now prev = Returns (Ok um) ->
  (forall op w, um !! op = Some w -> restored prev op w) /\
  forall a, length a = 20 ->
    Exists (fun o => payee_contract now o = Some a) (all_outs (b_Txs block)) \/ Exists (fun tx => of_contract a tx = true) (b_InternalTxs block) ->
    is_Some (um !! contractOutPoint (Some a)) /\
    Big.Uint64 (peek 0%Z (GetBalance a) prev) =
      u64 (Big.Uint64 (peek 0%Z (GetBalance a) now) - paid now a (all_outs (b_Txs block)) + spent a (b_InternalTxs block)).
Proof.
  unfold MakeRollbackContractUtxos, calcContractAddrBalanceChanges. destruct (contractTxs now (b_Txs block) ∅) as [[bAdd|]|] eqn:Ea; cbn [mbind go_bind]; [|done..].
  destruct (internalTxs (b_InternalTxs block) ∅) as [bSub|] eqn:Eb; cbn [mbind go_bind]; [|done]. destruct (rollbackLoop Z.sub _ _ _ _ _) as [um1|] eqn:E1; cbn [mbind go_bind]; [|done].
  destruct (rollbackLoop Z.add _ _ _ _ _) as [um2|] eqn:E2; cbn [mbind go_bind]; [|done]. intros H. destruct (rollback_maps now prev (h_Height (b_Header block)) bAdd bSub um1 um2 um E1 E2 H) as [Hr Hbal].
  split; [done|]. intros a Hlen Ht. apply (contractTxs_adds _ _ _ _ a) in Ea as [Ea Ta]. apply (internalTxs_adds _ _ _ a) in Eb as [Eb Tb]. rewrite !lookup_empty in *. cbn in Ea, Eb.
  destruct (Hbal a) as [H1 H2]; [|done|].
  { rewrite elem_of_union, !elem_of_dom, Ta, Tb. destruct Ht; [left|right]; by right. }
  split; [done|]. rewrite H2. apply u64_difference; [by rewrite Ea|by rewrite Eb].
Qed.

(** Reading the balances of the addresses one after the other, from one database to another. *)
Inductive reads : list bytes -> sdb -> list Z -> sdb -> Prop :=
  | reads_nil d : reads [] d [] d
  | reads_cons a l d v d1 vs d2 : GetBalance a d = Returns (v, d1) -> reads l d1 vs d2 -> reads (a :: l) d (v :: vs) d2.

Lemma balancesAgree_reads u ops s s' : balancesAgree u ops s = (EOk tt, s') ->
  exists vs, reads (map contract_of ops) (p_db (x_state s)) vs (p_db (x_state s')) /\
    Forall2 (fun o v => exists w, utxoMap u !! o = Some w /\ Types.uw_value w = Big.Uint64 v) ops vs.
Proof.
  revert s. induction ops as [|o ops IH]; intros s; cbn [balancesAgree map]; [intros [= <-]; exists []; split; constructor|]. intros (w & s1 & E1 & H)%em_bind_inv. destruct (utxoMap u !! o) as [w'|] eqn:Ew; [|done]. injection E1 as -> ->.
  apply em_bind_inv in H as (bal & s2 & E2 & H). unfold x_db, x_pm, p_op in E2. destruct (GetBalance (Types.BytesToAddressHash (op_hash o)) (p_db (x_state s1))) as [[v d]|] eqn:Eg; [|done]. injection E2 as -> <-.
  destruct (Z.eqb_spec (Types.uw_value w) (Big.Uint64 bal)) as [Eb|]; [|done]. apply IH in H as (vs & Hr & Hf). cbn [x_state p_db] in Hr. exists (bal :: vs). split; [by econstructor|]. constructor; [by exists w|done].
Qed.

(** C23: An accepted block keeps its header, and the header commits to what the node computed itself.
    The state opened at the roots of the parent, the unspent outputs loaded for the block and its
    scripts and fees are checked; the contracts of the block's own transactions, which only get their
    types, run in the state that follows from these by paying the coinbase, applying the outputs of
    the block and moving the balances of its payments.  The header has the gas used, the root of the
    receipts (zero if there are none), the root of the internal transactions due, if any are due
    (with none due it is not compared), the root of the committed state, and the root of its
    contract outputs, unless the state has none.  Every contract output has the value, in 64 bits, of
    the balance read of its contract in the committed state. *)
Theorem accepted_block_agrees reward ca parent block copy s res b' s' : adjust reward ca parent block copy s = (EOk (res, b'), s') ->
  b_Header b' = b_Header block /\
  exists db u fees before due after n committed utxoRoot d' balances,
    openState (h_RootHash (b_Header parent)) (h_UtxoRoot (b_Header parent)) = Returns (Some db) /\
    LoadBlockUtxos pool NewUtxoSet (blockTxs block) true cdb (CS := chainState db) = Returns (u, None) /\
    validateBlockScripts u block = Returns (Ok tt) /\
    validateBlockInputs (b_Txs block) u db = Returns (Ok (fees, typed db (b_Txs block))) /\
    prepared block copy db u (typed db (b_Txs block)) (x_dynasty s) before /\
    x_pm (Process pool cdb getHash noRecursion enablePreimageRecording (with_txs block (typed db (b_Txs block)))) before =
      (EOk (er_Receipts res, h_GasUsed (b_Header block), due), after) /\
    commits_to (b_Header block) (er_Receipts res) due /\
    er_UtxoSet res = ApplyInternalTxs (p_utxo (x_state after)) (blockTxs b') /\
    UpdateContractUtxoState (er_UtxoSet res) (mkXState (mkPState (p_db (x_state after)) (er_UtxoSet res)) n) = (EOk tt, committed) /\
    Commit (p_db (x_state committed)) = Returns (Some (Some (h_RootHash (b_Header block)), utxoRoot), d') /\
    (utxoRoot = None \/ utxoRoot = Some (h_UtxoRoot (b_Header block))) /\
    reads (map contract_of (order_set (contractUtxos (er_UtxoSet res)))) d' balances (er_StateDB res) /\
    Forall2 (fun o v => exists w, utxoMap (er_UtxoSet res) !! o = Some w /\ Types.uw_value w = Big.Uint64 v) (order_set (contractUtxos (er_UtxoSet res))) balances.
Proof.
  intros H. apply adjust_inv in H as (db & u & fees & txs & gas & utxoTxs & s0 & s1 & s2 & n & s3 & s4 & root & utxoRoot & E1 & E2 & Esc & E3 & Hprep & Ep & E4 & Eu & Es & E5 & E6 & E7 & Ed).
  apply validateResult_inv in E4 as (-> & Eh & _ & Eg & Hc & _). cbn [with_txs b_Header] in *. subst gas. split; [done|].
  pose proof (blockInputs_typed _ _ _ _ _ _ E3) as ->.
  unfold x_db, x_pm, p_op in E5. destruct (Commit (p_db (x_state s3))) as [[r d']|] eqn:Ec; [|done]. injection E5 as -> <-. cbn [x_state p_db] in *.
  unfold checkRoots in E6. rewrite Eh in E6. destruct (Crypto.IsEqual root _) eqn:Er; cbn [negb] in E6; [|done]. destruct root as [root|]; [|done]. cbn in Er. apply bool_decide_eq_true in Er as ->.
  apply balancesAgree_reads in E7 as (vs & Hr & Hf). cbn [x_state p_db] in Hr. rewrite <- Ed in Hr.
  exists db, u, fees, s0, utxoTxs, s1, n, s3, utxoRoot, d', vs. split_and!; [done..| |done|done].
  destruct utxoRoot as [ur|]; [|by left]. right. cbn in E6. case_bool_decide as Eu'; [by rewrite Eu'|done].
Qed.

End Exec.

(** * A block with a contract call

    Alice calls a contract and gets back the gas that is not used, in an internal transaction.  The
    whole of [adjustAndValidateState] runs on this block. *)

Import Script Kinds TxLogic Compress Utxo UtxoDb Validate Transition Receipt Processor Blocks BlockExec.

Module BlockExecDemo.
Import EvmDemo RefDB.
#[local] Existing Instance ChainDemo.desk.
#[local] Existing Instance ToyCodec.toy_codec.
#[local] Existing Instance ProcessorDemo.RefChainDB.
#[local] Existing Instance ProcessorDemo.forwards.
#[local] Instance headers : HeaderCodec := {| pb_header_marshal m := Some (le_bytes 1 (ph_Height m)) |}.
#[local] Instance receipts : ReceiptCodec := {| pb_receipts_marshal rs := Some (le_bytes 1 (Z.of_nat (length rs))) |}.

Definition h32 (b : byte) : bytes := replicate 32 b.

(** The database opens with the contract and with Alice's balance, whatever the root; it commits to
    a fixed root. *)
Definition accounts : ref := mkRef (on_acct contract (set_code adder) (on_acct alice (set_balance 1000000) no_accounts)) [] 0.
#[local] Instance commits : CommitDB RefDB := {|
  openState _ _ := Returns (Some accounts);
  UpdateUtxo _ _ := ref_get (fun _ => true);
  Commit := ref_get (fun _ => Some (Some (h32 x22), None))
|}.

(** Alice's coin and the entry of the contract. *)
Definition key : bytes := replicate 20 x01.
Definition coin : OutPoint := mkOutPoint (h32 x09) 2.
Definition lock : bytes := PayToPubKeyHashScript alice.
Definition callScript : bytes := match MakeContractScriptPubkey (Some alice) (Some contract) 4000 1 0 with Ok s => s | Err _ => [] end.
Definition buffer : bytes := replicate 37 x00.
Definition coins : UtxoSet := mkUtxoSet {[ coin := Types.NewUtxoWrap 200003 lock 1; contract_op contract := Types.NewUtxoWrap 0 callScript 1 ]} ∅ ∅.
Definition table : Db := match WriteUtxoSetToDB buffer coins ∅ with Returns (Ok d) => d | _ => ∅ end.

Definition unsigned : Transaction := mkTx UnknownTx 1 [mkTxIn coin [] 3] [mkTxOut 3 callScript] (Some (mkTxData 0 [])) 0 0.
Definition signature : bytes := match CalcTxHashForSig lock unsigned 0 with Ok d => key ++ d | Err _ => [] end.
Definition call : Transaction := mkTx UnknownTx 1 [mkTxIn coin (SignatureScript signature key) 3] [mkTxOut 3 callScript] (Some (mkTxData 0 [])) 0 0.
Definition coinbase : Transaction := mkTx UnknownTx 1 [mkTxIn (mkOutPoint Crypto.ZeroHash Types.MaxUint32) [x01; x02] 0] [mkTxOut 106205 (PayToPubKeyHashScript (replicate 20 x0e))] None 0 0.

Definition header (internalRoot receiptHash : bytes) : BlockHeader :=
  mkHeader 1 (h32 x01) (h32 x02) internalRoot Crypto.ZeroHash receiptHash 1000 7 (h32 x22) (h32 x00) 12 106200 (replicate 20 x0d) (Some Receipt.emptyBloom).
Definition parent : Block := mkBlock None (header (h32 x00) (h32 x00)) [] [] [] None.
Definition block (internalRoot receiptHash : bytes) (internal : list Transaction) : Block := mkBlock None (header internalRoot receiptHash) [coinbase; call] internal [] None.

Definition fresh : XState := mkXState (@mkPState RefDB accounts NewUtxoSet) 0.
Definition run (b : Block) := adjustAndValidateState buffer table (fun n => Some (be32 n)) false false (Some 5%Z) (h32 x00) parent b (Copy b) fresh.

(** What executing the block gives, as the node that made the block found it. *)
Definition execution := match (Process buffer table (fun n => Some (be32 n)) false false (block (h32 x00) (h32 x00) []) (mkPState accounts coins)).1 with XOk (Ok r) => r | _ => ([], 0%Z, []) end.
Definition due : list Transaction := execution.2.
Definition internalRoot : bytes := match Merkle.CalcTxsHash due with Returns (Some r) => r | _ => [] end.
Definition receiptHash : bytes := default [] (Receipts_Hash execution.1.1).

(** The refund of the gas, and one that pays Bob what nobody had. *)
Definition honest : Block := block internalRoot receiptHash due.
Definition bob : bytes := replicate 20 x0b.
Definition gift : Transaction := mkTx UnknownTx 1 [mkTxIn (contract_op contract) [] 0] [mkTxOut 50000000 (PayToPubKeyHashScript bob)] None 0 0.
Definition forged : Block := block internalRoot receiptHash [gift].

(** The unspent outputs an account has in a result. *)
Definition owns (r : eres ExecErr (BlockExecuteResult * Block)) (who : bytes) : option (list Z) :=
  match r with
  | EOk (res, _) => Some (omap (fun p => if bool_decide (Types.uw_script p.2 = PayToPubKeyHashScript who) && negb (Types.IsSpent p.2) then Some (Types.uw_value p.2) else None) (map_to_list (utxoMap (er_UtxoSet res))))
  | _ => None
  end.

Example refund_applied : owns (run honest).1 alice = Some [93800%Z] /\ owns (run honest).1 bob = Some [].
Proof. vm_compute. done. Qed.

(** The header, and with it the hash and the signature of the block, is the same; the internal
    transactions that the block carries are not compared with what the header commits to. *)
Example forged_internal_accepted : b_Header forged = b_Header honest /\ owns (run forged).1 bob = Some [50000000%Z] /\ owns (run forged).1 alice = Some [].
Proof. split; [reflexivity|]. vm_compute. done. Qed.

(** A state without a root of unspent outputs passes for any root in the header. *)
Example utxo_root_not_checked : (checkRoots honest (Some (h32 x22)) None (run honest).2).1 = EOk tt /\ (checkRoots (mkBlock None (mkHeader 1 (h32 x01) (h32 x02) (h32 x00) (h32 x77) (h32 x00) 1000 7 (h32 x22) (h32 x00) 12 0 (replicate 20 x0d) None) [] [] [] None) (Some (h32 x22)) None (run honest).2).1 = EOk tt.
Proof. vm_compute. done. Qed.

(** ** The theorems on this block *)

Abbreviation outcome := (match (run honest).1 with EOk x => x | _ => (@mkExecResult RefDB NewUtxoSet [] accounts, honest) end).

Lemma honest_accepted : run honest = (EOk (outcome.1, outcome.2), (run honest).2).
Proof.
  refine (eq_trans (surjective_pairing (run honest)) (f_equal (fun x => (x, (run honest).2)) _)).
  assert (match (run honest).1 with EOk _ => true | _ => false end = true) as Hok by (vm_compute; reflexivity). destruct (run honest).1 as [[res b]| | |]; [reflexivity|discriminate Hok..].
Qed.

Definition loaded : UtxoSet := match LoadBlockUtxos buffer NewUtxoSet (blockTxs honest) true table (CS := chainState accounts) with Returns (u, _) => u | Panics => NewUtxoSet end.

Lemma loaded_eq : LoadBlockUtxos buffer NewUtxoSet (blockTxs honest) true table (CS := chainState accounts) = Returns (loaded, None).
Proof.
  assert (match LoadBlockUtxos buffer NewUtxoSet (blockTxs honest) true table (CS := chainState accounts) with Returns (_, None) => true | _ => false end = true) as Hok by (vm_compute; reflexivity).
  unfold loaded. destruct (LoadBlockUtxos _ _ _ _ _) as [[u [e|]]|]; [discriminate Hok|reflexivity|discriminate Hok].
Qed.

Lemma coinbase_takes_fees_witness : exists cb rw, head (b_Txs outcome.2) = Some cb /\ Some 5%Z = Some rw /\ u64 (out_value cb) = u64 (Big.Uint64 rw + 0 + 106200).
Proof.
  destruct (coinbase_takes_fees (D := RefDB) buffer table (fun n => Some (be32 n)) false false (Some 5%Z) (h32 x00) parent honest (Copy honest) fresh outcome.1 outcome.2 (run honest).2 accounts loaded) as (cb & rw & H1 & H2 & _ & H3).
  - reflexivity.
  - exact loaded_eq.
  - apply (bool_decide_eq_true (map_Forall (fun _ w => 0 <= Types.uw_value w < 2 ^ 64)%Z (utxoMap loaded))). vm_compute. reflexivity.
  - repeat constructor; cbn; lia.
  - exact honest_accepted.
  - exists cb, rw. split; [exact H1|]. split; [exact H2|]. exact H3.
Defined.

Lemma accepted_block_agrees_witness : b_Header outcome.2 = b_Header honest /\ exists due, commits_to (b_Header honest) (er_Receipts outcome.1) due.
Proof.
  destruct (accepted_block_agrees (D := RefDB) buffer table (fun n => Some (be32 n)) false false (Some 5%Z) (h32 x00) parent honest (Copy honest) fresh outcome.1 outcome.2 (run honest).2) as (H & db & u & fees & b & due & a & n & c & ur & d & bs & _ & _ & _ & _ & _ & _ & Hc & _).
  - exact honest_accepted.
  - split; [exact H|]. exists due. exact Hc.
Defined.

(** Before the block the contract had nothing. *)
Definition after : ref := mkRef (on_acct contract (set_balance 3) (on_acct contract (set_code adder) (on_acct alice (set_balance 1000000) no_accounts))) [] 0.
Definition rolled : gmap OutPoint Types.UtxoWrap := match MakeRollbackContractUtxos honest after accounts with Returns (Ok um) => um | _ => ∅ end.

Lemma rolled_eq : MakeRollbackContractUtxos honest after accounts = Returns (Ok rolled).
Proof.
  assert (match MakeRollbackContractUtxos honest after accounts with Returns (Ok _) => true | _ => false end = true) as Hok by (vm_compute; reflexivity).
  unfold rolled. destruct (MakeRollbackContractUtxos (D := RefDB) honest after accounts) as [[um|]|]; [reflexivity|discriminate Hok..].
Qed.

Lemma rollback_restores_witness : is_Some (rolled !! contract_op contract) /\
  Big.Uint64 (peek 0%Z (GetBalance contract) accounts) = u64 (Big.Uint64 (peek 0%Z (GetBalance contract) after) - paid after contract (all_outs (b_Txs honest)) + spent contract (b_InternalTxs honest)).
Proof.
  apply (proj2 (rollback_restores (D := RefDB) honest after accounts rolled rolled_eq) contract).
  - reflexivity.
  - left. apply Exists_cons. right. apply Exists_cons. left. vm_compute. reflexivity.
Defined.

(** The contract pays another one: the entry of the payee is not restored. *)
Definition other : bytes := replicate 20 x04.
Definition paying : Transaction := mkTx UnknownTx 1 [mkTxIn (contract_op contract) [] 0] [mkTxOut 2 (PayToPubKeyHashScript other)] None 0 0.
Definition two_contracts (v : Z) : ref := mkRef (on_acct other (set_balance v) (on_acct other (set_code adder) (on_acct contract (set_balance (3 - v)) (on_acct contract (set_code adder) no_accounts)))) [] 0.
Definition internal_payment : Block := mkBlock None (header (h32 x00) (h32 x00)) [] [paying] [] None.

Example internal_payee_missed :
  match MakeRollbackContractUtxos internal_payment (two_contracts 2) (two_contracts 0) with
  | Returns (Ok um) => bool_decide (is_Some (um !! contract_op contract)) = true /\ bool_decide (is_Some (um !! contract_op other)) = false
  | _ => False
  end.
Proof. vm_compute. done. Qed.

End BlockExecDemo.
