(* ===== verification/Producer.v ===== *)
(** * Producer: how a book keeper makes a block (src/consensus/bpos/bpos.go)

    Transactions of the pool are sorted (PackOrder.v) and those that are fully funded are packed;
    the block is executed (BlockExec.v), the gas goes to the book keeper, the header commits to
    the result; the block is signed and given to the chain (Chain.v) as any other one is.

    The time left for packing is a number of turns, any number.  What the genesis contract answers
    and the scores of delegates, which are computed in floating point, are the class [Epochs]. *)

From S2P Require Import Prelude Effects Opcode Crypto Merkle Bytes Bloom EvmMath EvmState EvmMachine EvmGas EvmInstr EvmPrecompile Evm EvmMain Abi AbiMethods Types Script ScriptKinds TxLogic Compress Keys UtxoSet UtxoDb UtxoDbFacts Validate ValidateFacts Transition Receipt Blocks Processor ProcessorMain Chain Bpos ChainDemo TxPool PackOrder Records BlockExec BlockExecFacts.
Import Kinds TxLogic Compress Utxo UtxoDb Validate Transition Receipt Processor Blocks BlockExec PackOrder.

(** The part of [ConsensusContext] that blocks are made from. *)
Record ProduceContext := mkProduceContext {
  cx_timestamp : Z;
  cx_dynasty : option Dynasty;
  cx_bookKeeperReward : option Z;
  cx_dynastySwitchThreshold : option Z;
  cx_calcScoreThreshold : option Z;
  cx_currentEpoch : list Delegate;
  cx_LastEpoch : list Delegate;
  cx_candidates : list Delegate
}.

Section State.
Context {D : StateDB} `{L : Ledger} `{BC : Lru bytes Block} `{MC : Lru Z Block} `{KC : Lru bytes bytes} `{DC : Lru Z Dynasty}.

Class Epochs := {
  getLastEpochByHeight : Z -> BlockChain -> result ledgerErr (list Delegate);
  getCurrentEpochByHeight : Z -> BlockChain -> result ledgerErr (list Delegate);
  calcScores : ProduceContext -> Z -> list Z
}.

(** [pr_published] are the transactions that the pool is told to drop, [pr_exec] the state that
    the block is executed on, [pr_reorgs] the calls of [ReorgConns]. *)
Record Producer := mkProducer {
  pr_bpos : Bpos;
  pr_context : ProduceContext;
  pr_busy : bool;
  pr_disableMint : bool;
  pr_published : list Transaction;
  pr_exec : XState;
  pr_reorgs : nat
}.

Definition with_bpos (s : Producer) v := mkProducer v (pr_context s) (pr_busy s) (pr_disableMint s) (pr_published s) (pr_exec s) (pr_reorgs s).
Definition with_context (s : Producer) v := mkProducer (pr_bpos s) v (pr_busy s) (pr_disableMint s) (pr_published s) (pr_exec s) (pr_reorgs s).
Definition with_busy (s : Producer) v := mkProducer (pr_bpos s) (pr_context s) v (pr_disableMint s) (pr_published s) (pr_exec s) (pr_reorgs s).
Definition with_mint (s : Producer) v := mkProducer (pr_bpos s) (pr_context s) (pr_busy s) v (pr_published s) (pr_exec s) (pr_reorgs s).
Definition with_published (s : Producer) v := mkProducer (pr_bpos s) (pr_context s) (pr_busy s) (pr_disableMint s) v (pr_exec s) (pr_reorgs s).
Definition with_exec (s : Producer) v := mkProducer (pr_bpos s) (pr_context s) (pr_busy s) (pr_disableMint s) (pr_published s) v (pr_reorgs s).
Definition with_reorg (s : Producer) := mkProducer (pr_bpos s) (pr_context s) (pr_busy s) (pr_disableMint s) (pr_published s) (pr_exec s) (S (pr_reorgs s)).

Inductive ProdErr := ErrNoLegalPowerToProduce | ErrProdPack (e : PackErr) | ErrProdExec (e : ExecErr) | ErrProdBpos (e : BposErr).

End State.
Arguments Epochs {_ _ _}.

Module Producer.

Section Pack.
Context {D : StateDB} {X : ChainDB D} {CD : CommitDB D} `{C : Crypto} `{TC : TxCodec} `{HC : HeaderCodec} `{RC : ReceiptCodec} `{K : Keccak} `{E : Curves} `{R : Rlp} {VO : VisitOrder} {MO : MapOrder} `{P : Pow10}.
Context (pool : bytes) (cdb : Db) (getHash : Z -> option bytes) (noRecursion enablePreimageRecording : bool).

(** The filter and the records of split addresses. *)
Context (records : Store) (splitFuel : nat).

Abbreviation XM := (EM XState ExecErr).

(** ** Packing *)

(** What the goroutine of [PackTxs] packs in a number of turns: the transactions and the fees of
    those outside contracts.  [packedTxsRoughSize] is zero and stays zero. *)
Fixpoint packLoop (tail : sdb) (turns : nat) (sortedTxs : list (option TxWrap)) (packedTxsRoughSize : Z) (spendableTxs : gmap bytes (Transaction * Z)) (packedTxs : list Transaction) (totalTransferFee : Z) :
    EM (list Transaction) PackErr (list Transaction * Z) :=
  match turns, sortedTxs with
  | O, _ | _, [] => mret (packedTxs, totalTransferFee)
  | S turns, txWrap :: sortedTxs =>
      let continue := packLoop tail turns sortedTxs packedTxsRoughSize spendableTxs packedTxs totalTransferFee in
      txWrap ← e_deref txWrap;
      let tx := tw_Tx txWrap in
      if (MaxTxsRoughSize <? packedTxsRoughSize + RoughSize tx)%Z then mret (packedTxs, totalTransferFee)
      else
        r ← s_go (GetExtendedTxUtxoSet pool tx cdb spendableTxs);
        match r with
        | Err _ => continue
        | Ok utxoSet =>
            let totalInputAmount := TxInputAmount utxoSet tx in
            if (totalInputAmount =? 0)%Z then continue
            else
              let totalOutputAmount := OutputAmount tx in
              let contract := isContractTx tail tx in
              let tx := (GetTxType (Some (isContract tail)) tx).1 in
              let store (fee : Z) :=
                txHash ← e_deref (Types.CalcTxHash tx);
                packLoop tail turns sortedTxs packedTxsRoughSize (<[txHash := (tx, tw_Height txWrap)]> spendableTxs) (packedTxs ++ [tx]) fee in
              if contract then
                vmtx ← e_try (extract tail tx);
                match vmtx with
                | Err _ => continue
                | Ok vmtx =>
                    vmtx ← e_deref vmtx;
                    if negb (totalInputAmount =? u64 (u64 (totalOutputAmount + u64 (vt_gas vmtx * Big.Uint64 (vt_gasPrice vmtx))) + ExtraFee tx))%Z
                    then _ ← publish tx; continue
                    else store totalTransferFee
                end
              else if negb (totalInputAmount =? u64 (u64 (totalOutputAmount + TransferFee) + ExtraFee tx))%Z
              then _ ← publish tx; continue
              else store (u64 (totalTransferFee + u64 (TransferFee + ExtraFee tx)))
        end
  end.

(** ** Executing *)

Definition WithTxHash (rc : Receipt) (hash : bytes) : Receipt :=
  mkReceipt hash (rc_TxIndex rc) (rc_ContractAddress rc) (rc_Deployed rc) (rc_Failed rc) (rc_GasUsed rc) (rc_BlockHash rc) (rc_BlockHeight rc) (rc_InternalTxs rc) (rc_ErrMsg rc) (rc_Logs rc) (rc_Bloom rc).

(** Dividing outputs returns no error. *)
Definition x_records {A} (c : EM Store RecErr A) : XM A :=
  match (c records).1 with EOk a => mret a | EFuel => e_fuel | _ => e_panic end.

(** The outputs of the coinbase with the gas. *)
Definition gasOuts (keeper : bytes) (gasUsed : Z) (outs : list TxOut) : list TxOut :=
  match outs with
  | [o; fee] => [o; mkTxOut (u64 (Value fee + gasUsed)) (ScriptPubKey fee)]
  | _ => outs ++ [MakeVout keeper gasUsed]
  end.
Definition with_vout (tx : Transaction) (outs : list TxOut) : Transaction := mkTx (tx_type tx) (Version tx) (Vin tx) outs (Data tx) (Magic tx) (LockTime tx).

(** The hash of the coinbase that is in the cache is the one it was executed with. *)
Definition payGas (keeper : bytes) (gasUsed : Z) (block : Block) (receipts : list Receipt) : XM (Block * list Receipt) :=
  _ ← x_db (AddBalance keeper (i64 gasUsed));
  match b_Txs block with
  | [] => e_panic
  | coinbase :: txs =>
      let coinbaseHash := Types.CalcTxHash coinbase in
      let coinbase := with_vout coinbase (gasOuts keeper gasUsed (Vout coinbase)) in
      u ← x_utxo;
      let u := SpendUtxo u (Types.NewOutPoint coinbaseHash 1) in
      r ← x_go (AddUtxo u coinbase 1 (h_Height (b_Header block)));
      _ ← x_set (match r with Ok u' => u' | Err _ => u end);
      match receipts with
      | [] => e_panic
      | rc :: rcs =>
          newHash ← e_deref (Types.CalcTxHash coinbase);
          mret (with_txs block (coinbase :: txs), WithTxHash rc newHash :: rcs)
      end
  end.

(** The header of the executed block; a root that is nil is dereferenced. *)
Definition sealHeader (block : Block) (gasUsed : Z) (root utxoRoot : option bytes) (utxoTxs : list Transaction) (receipts : list Receipt) : XM BlockHeader :=
  let h := b_Header block in
  root ← e_deref root;
  r ← x_go (Merkle.CalcTxsHash (b_Txs block));
  txsRoot ← e_deref r;
  internalTxsRoot ← match utxoTxs with [] => mret (h_InternalTxsRoot h) | _ => r ← x_go (Merkle.CalcTxsHash utxoTxs); e_deref r end;
  bloom ← x_go (CreateReceiptsBloom receipts);
  receiptHash ← match receipts with [] => mret (h_ReceiptHash h) | _ => e_deref (Receipts_Hash receipts) end;
  mret (mkHeader (h_Version h) (h_PrevBlockHash h) txsRoot internalTxsRoot (default (h_UtxoRoot h) utxoRoot) receiptHash (h_TimeStamp h) (h_Magic h) root (h_DynastyHash h)
          (h_Height h) gasUsed (h_BookKeeper h) (Some bloom)).

Definition executeBlock (keeper contractAddr : bytes) (block : Block) : XM (Block * BlockExecuteResult) :=
  _ ← x_db (GetBalance contractAddr);
  db ← x_sdb;
  '(u, err) ← x_go (LoadBlockUtxos pool NewUtxoSet (blockTxs block) true cdb (CS := chainState db));
  _ ← match err with Some e => e_fail (ErrExecDb e) | None => mret tt end;
  '(blockCopy, _) ← x_records (Records.SplitBlockOutputs splitFuel (Copy block));
  let copied := appliedTxs (CS := chainState db) (b_Txs blockCopy) u (h_Height (b_Header blockCopy)) in
  u ← x_result ErrExecUtxo (ApplyBlock (CS := chainState db) u (blockTxs blockCopy));
  _ ← x_set u;
  _ ← UpdateNormalTxBalanceState copied u;
  '(receipts, gasUsed, utxoTxs) ← x_pm (Process pool cdb getHash noRecursion enablePreimageRecording block);
  '(block, receipts) ← (if (0 <? gasUsed)%Z then payGas keeper gasUsed block receipts else mret (block, receipts));
  let block := mkBlock (b_Hash block) (b_Header block) (b_Txs block) utxoTxs (b_Signature block) (b_Irreversible block) in
  u ← x_utxo;
  let u := ApplyInternalTxs u (blockTxs block) in
  _ ← x_set u;
  _ ← UpdateContractUtxoState u;
  r ← x_db Commit;
  '(root, utxoRoot) ← match r with Some x => mret x | None => e_fail ErrCommit end;
  header ← sealHeader block gasUsed root utxoRoot utxoTxs receipts;
  _ ← e_modify (fun s => mkXState (x_state s) (x_dynasty s + dynastyTopics contractAddr receipts));
  _ ← balancesAgree u (order_set (contractUtxos u));
  db ← x_sdb;
  mret (cache_hash (mkBlock None header (b_Txs block) (b_InternalTxs block) (b_Signature block) (b_Irreversible block)), mkExecResult u receipts db).

End Pack.

(** ** Making a block *)

Section Produce.
Context {D : StateDB} {X : ChainDB D} {CD : CommitDB D} `{RC : ReceiptCodec} `{E : Curves} `{R : Rlp} {MO : MapOrder} `{P : Pow10}.
Context `{L : Ledger} `{BC : Lru bytes Block} `{MC : Lru Z Block} `{KC : Lru bytes bytes} `{DC : Lru Z Dynasty} {EP : Epochs}.
Context `{C : Crypto} `{HC : HeaderCodec} `{PB : BlockCodec} `{TC : TxCodec} `{K : Keccak} `{VO : VisitOrder} {CO : Committee}.
Context (pool : bytes) (cdb : Db) (getHash : Z -> option bytes) (noRecursion enablePreimageRecording : bool) (records : Store) (splitFuel sortFuel : nat).

(** The state of the tail, the transactions of the pool, the turns of packing, the time, the hash
    of the book keeper; results of executing a block as the chain keeps them. *)
Context (tail : sdb) (pendingTxs : list TxWrap) (turns : nat) (now : Z) (keeper : bytes) (asResult : BlockExecuteResult -> execResult).

Abbreviation PrM := (EM Producer ProdErr).

Definition lifted {A F} (f : F -> ProdErr) (r : eres F A) : eres ProdErr A :=
  match r with EOk a => EOk a | EErr e => EErr (f e) | EPanic => EPanic | EFuel => EFuel end.

Definition on_bpos {A} (c : EM Bpos BposErr A) : PrM A := fun s => let '(r, v) := c (pr_bpos s) in (lifted ErrProdBpos r, with_bpos s v).
Definition on_pool {A} (c : EM (list Transaction) PackErr A) : PrM A := fun s => let '(r, v) := c (pr_published s) in (lifted ErrProdPack r, with_published s v).
Definition on_go {A} (x : go A) : PrM A := match x with Returns a => mret a | Panics => e_panic end.

(** A message that the dynasty changes is kept as a flag. *)
Definition on_exec {A} (c : EM XState ExecErr A) : PrM A := fun s =>
  let '(r, x) := c (pr_exec s) in
  let s := if x_dynasty (pr_exec s) <? x_dynasty x then with_bpos s (with_change (pr_bpos s) true) else s in
  (lifted ErrProdExec r, with_exec s x).

Definition the {A} (f : ProduceContext -> option A) : PrM A := o ← e_gets (fun s => f (pr_context s)); e_deref o.

Definition CalcScore : string := "calcScore".

Definition MakeCalcScoreTx (from : bytes) (nonce blockHeight : Z) (scores : list Z) : EM Bpos BposErr Transaction :=
  r ← Bpos.from_go (AbiMethods.ABI_Pack ContractAbi CalcScore [VSlice KPtr (map VBig scores)]);
  code ← match r with Ok code => mret code | Err e => e_fail (ErrAbi e) end;
  mret (Bpos.MakeGenesisContractTx blockHeight (Types.MaxUint32 - 1) from ContractAddr nonce code).

(** The call of the genesis contract that is due at this height. *)
Definition internalContractTx (adminAddr : bytes) (adminNonce : Z) (height : Z) : PrM (list Transaction) :=
  switch ← the cx_dynastySwitchThreshold;
  score ← the cx_calcScoreThreshold;
  let switchHeight := Big.Uint64 switch in
  let scoreHeight := Big.Uint64 score in
  if (switchHeight =? 0)%Z then e_panic
  else if (u64 (height + 1) mod switchHeight =? 0)%Z then
    tx ← on_bpos (Bpos.MakeDynastySwitchTx adminAddr (u64 (adminNonce + 1)) height);
    mret [tx]
  else if (height mod switchHeight =? scoreHeight)%Z then
    cx ← e_gets pr_context;
    h ← e_gets (fun s => c_LongestChainHeight (bp_chain (pr_bpos s)));
    tx ← on_bpos (MakeCalcScoreTx adminAddr (u64 (adminNonce + 1)) height (calcScores cx h));
    mret [tx]
  else mret [].

(** The state opened at the roots of a block. *)
Definition state_New (b : Block) : go (option sdb) := openState (h_RootHash (b_Header b)) (h_UtxoRoot (b_Header b)).

Definition with_keeper (b : Block) (keeper : bytes) : Block :=
  let h := b_Header b in
  mkBlock (b_Hash b) (mkHeader (h_Version h) (h_PrevBlockHash h) (h_TxsRoot h) (h_InternalTxsRoot h) (h_UtxoRoot h) (h_ReceiptHash h) (h_TimeStamp h) (h_Magic h) (h_RootHash h) (h_DynastyHash h)
    (h_Height h) (h_GasUsed h) keeper (h_Bloom h)) (b_Txs b) (b_InternalTxs b) (b_Signature b) (b_Irreversible b).

Definition PackTxs (block : Block) : PrM Block :=
  tailBlock ← e_gets (fun s => c_tail (bp_chain (pr_bpos s)));
  statedb ← on_go (state_New tailBlock);
  sortedTxs ← on_pool (sortPendingTxs sortFuel tail statedb pendingTxs);
  '(packedTxs, totalTransferFee) ← on_pool (packLoop pool cdb tail turns sortedTxs 0 ∅ [] 0);
  let block := with_keeper block keeper in
  parent ← on_bpos (Bpos.on_chain (Chain.LoadBlockByHash (h_PrevBlockHash (b_Header block))));
  r ← on_go (state_New parent);
  statedb ← match r with Some d => mret d | None => e_fail (ErrProdExec ErrOpenState) end;
  _ ← e_modify (fun s => with_exec s (mkXState (mkPState statedb NewUtxoSet) (x_dynasty (pr_exec s))));
  adminAddr ← on_bpos Bpos.adminAddress;
  nonce ← on_exec (x_db (GetNonce adminAddr));
  let adminNonce := u64 (nonce + 1) in
  reward ← the cx_bookKeeperReward;
  let bkReward := Big.Uint64 reward in
  _ ← on_exec (x_db (AddBalance adminAddr bkReward));
  _ ← (if (0 <? totalTransferFee)%Z then on_exec (x_db (AddBalance keeper (i64 totalTransferFee))) else mret tt);
  coinbaseTx ← on_bpos (Bpos.MakeCoinBaseContractTx keeper bkReward totalTransferFee adminNonce (h_Height (b_Header block)));
  internal ← internalContractTx adminAddr adminNonce (h_Height (b_Header block));
  let block := with_txs block (b_Txs block ++ [coinbaseTx] ++ internal ++ packedTxs) in
  '(block, res) ← on_exec (executeBlock pool cdb getHash noRecursion enablePreimageRecording records splitFuel keeper ContractAddr block);
  _ ← on_bpos (fun b => (EOk tt, Bpos.with_chain b (Chain.with_results (bp_chain b) (<[h_Height (b_Header block) := asResult res]> (c_blockExecuteResults (bp_chain b))))));
  info ← on_bpos (Bpos.FetchIrreversibleInfo now);
  mret (mkBlock (b_Hash block) (b_Header block) (b_Txs block) (b_InternalTxs block) (b_Signature block) info).

(** The header of a new block on the tail. *)
Definition newHeader (tailBlock : Block) (timestamp : Z) (dynastyHash : bytes) : Block :=
  let b := NewBlock tailBlock in
  let h := b_Header b in
  mkBlock (b_Hash b) (mkHeader (h_Version h) (h_PrevBlockHash h) (h_TxsRoot h) (h_InternalTxsRoot h) (h_UtxoRoot h) (h_ReceiptHash h) timestamp (h_Magic h) (h_RootHash h) dynastyHash
    (h_Height h) (h_GasUsed h) (h_BookKeeper h) (h_Bloom h)) (b_Txs b) (b_InternalTxs b) (b_Signature b) (b_Irreversible b).

(** An error of [ProcessBlock] is only logged; the broadcast is a goroutine. *)
Definition produceBlock : PrM unit :=
  tailBlock ← e_gets (fun s => c_tail (bp_chain (pr_bpos s)));
  timestamp ← e_gets (fun s => cx_timestamp (pr_context s));
  dynasty ← the cx_dynasty;
  dynastyBytes ← on_bpos (Bpos.from_result (Bpos.Dynasty_Marshal dynasty));
  block ← PackTxs (newHeader tailBlock timestamp (Crypto.DoubleHashH dynastyBytes));
  block ← on_bpos (Bpos.signBlock block);
  _ ← on_bpos (Bpos.on_chain (Chain.publish (SendBlock BroadcastMode block)));
  _ ← e_try (on_bpos (Bpos.on_chain (Chain.ProcessBlock block DefaultMode "")));
  mret tt.

Definition StopMint : PrM unit := e_modify (fun s => with_mint s true).
Definition RecoverMint : PrM unit := e_modify (fun s => with_mint s false).

(** The dynasty of the tail, when it has changed. *)
Definition updateContext : PrM unit :=
  h ← e_gets (fun s => c_LongestChainHeight (bp_chain (pr_bpos s)));
  dynasty ← on_bpos (Bpos.fetchDynastyByHeight h);
  netParams ← on_bpos (Bpos.ask (getNetParams h));
  _ ← e_modify (fun s => let cx := pr_context s in with_context s (mkProduceContext (cx_timestamp cx) (Some dynasty) (Some (BlockReward netParams)) (Some (DynastySwitchThreshold netParams)) (Some (CalcScoreThreshold netParams))
         (cx_currentEpoch cx) (cx_LastEpoch cx) (cx_candidates cx)));
  lastEpoch ← on_bpos (Bpos.ask (getLastEpochByHeight h));
  e_modify (fun s => let cx := pr_context s in
    let s := with_context s (mkProduceContext (cx_timestamp cx) (cx_dynasty cx) (cx_bookKeeperReward cx) (cx_dynastySwitchThreshold cx) (cx_calcScoreThreshold cx)
               (cx_currentEpoch cx) lastEpoch (Bpos.filterCandidates lastEpoch (dy_delegates dynasty))) in
    with_bpos (with_reorg s) (with_change (pr_bpos s) false)).

Definition runBody (timestamp : Z) : PrM unit :=
  disabled ← e_gets pr_disableMint;
  if disabled : bool then e_fail ErrNoLegalPowerToProduce
  else
    change ← e_gets (fun s => bp_IsdynastyChange (pr_bpos s));
    _ ← (if change : bool then updateContext else mret tt);
    h ← e_gets (fun s => c_LongestChainHeight (bp_chain (pr_bpos s)));
    currentEpoch ← on_bpos (Bpos.ask (getCurrentEpochByHeight h));
    _ ← e_modify (fun s => let cx := pr_context s in with_context s (mkProduceContext (cx_timestamp cx) (cx_dynasty cx) (cx_bookKeeperReward cx) (cx_dynastySwitchThreshold cx) (cx_calcScoreThreshold cx)
           currentEpoch (cx_LastEpoch cx) (cx_candidates cx)));
    dynasty ← the cx_dynasty;
    r ← on_go (Bpos.verifyBookkeeper keeper timestamp (dy_delegates dynasty));
    _ ← on_bpos (Bpos.from_result r);
    _ ← e_modify (fun s => let cx := pr_context s in with_context s (mkProduceContext timestamp (cx_dynasty cx) (cx_bookKeeperReward cx) (cx_dynastySwitchThreshold cx) (cx_calcScoreThreshold cx)
           (cx_currentEpoch cx) (cx_LastEpoch cx) (cx_candidates cx)));
    produceBlock.

(** The status is reset however the turn ends. *)
Definition run (timestamp : Z) : PrM unit := fun s => let '(r, s) := runBody timestamp (with_busy s true) in (r, with_busy s false).

End Produce.
End Producer.
Import Producer.

(** ** What is packed *)

Section Packed.
Context {D : StateDB} {X : ChainDB D} `{C : Crypto} `{TC : TxCodec} {VO : VisitOrder} {MO : MapOrder}.
Context (pool : bytes) (cdb : Db) (tail : sdb).

(** What a transaction has to leave besides its outputs: the limit of gas of a contract
    transaction, the fee of any other one. *)
Definition charge (tx : Transaction) (c : Z) : Prop :=
  if isContractTx tail tx then exists vm s, extract tail (GetTxType (Some (isContract tail)) tx).1 s = (EOk (Some vm), s) /\ c = (u64 (vt_gas vm * Big.Uint64 (vt_gasPrice vm)) + ExtraFee tx)%Z
  else c = (TransferFee + ExtraFee tx)%Z.

(** Each transaction spends outputs of the table and of those before it, all of them unspent, and
    leaves exactly what it has to. *)
Inductive funded : gmap bytes (Transaction * Z) -> list TxWrap -> Prop :=
  | funded_nil m : funded m []
  | funded_cons m w l u k c : GetExtendedTxUtxoSet pool (tw_Tx w) cdb m = Returns (Ok u) -> charge (tw_Tx w) c ->
      TxInputAmount u (tw_Tx w) = u64 (OutputAmount (tw_Tx w) + c) -> TxInputAmount u (tw_Tx w) <> 0%Z ->
      Types.CalcTxHash (tw_Tx w) = Some k -> funded (<[k := (tw_Tx (typed tail w), tw_Height w)]> m) l -> funded m (w :: l).

Definition transferFees (l : list TxWrap) : Z := zsum (map (fun w => if isContractTx tail (tw_Tx w) then 0%Z else TransferFee + ExtraFee (tw_Tx w))%Z l).

Lemma extract_same tx s r s' : extract tail tx s = (r, s') -> s' = s /\ forall s2, extract tail tx s2 = (r, s2).
Proof. unfold extract. repeat case_match; intros [= <- <-]; done. Qed.

(** From [packed] and [fee] on, [txs] and [fees] have been reached over some of the list. *)
Definition packs (sorted : list (option TxWrap)) (m : gmap bytes (Transaction * Z)) (packed : list Transaction) (fee : Z) (txs : list Transaction) (fees : Z) : Prop :=
  exists l, (Some <$> l) `sublist_of` sorted /\ txs = packed ++ ((fun w => tw_Tx (typed tail w)) <$> l) /\ fees = u64 (fee + transferFees l) /\ funded m l.

Lemma packs_stop sorted m packed fee : u64 fee = fee -> packs sorted m packed fee packed fee.
Proof. intros Hf. exists []. rewrite app_nil_r. cbn. rewrite Z.add_0_r, Hf. split_and!; [apply sublist_nil_l|done|done|constructor]. Qed.

Lemma packs_skip ow sorted m packed fee txs fees : packs sorted m packed fee txs fees -> packs (ow :: sorted) m packed fee txs fees.
Proof. intros (l & Hl & H). exists l. split; [by constructor|done]. Qed.

Lemma packs_store w sorted m packed fee fee' txs fees u k c : GetExtendedTxUtxoSet pool (tw_Tx w) cdb m = Returns (Ok u) -> charge (tw_Tx w) c ->
  TxInputAmount u (tw_Tx w) = u64 (OutputAmount (tw_Tx w) + c) -> TxInputAmount u (tw_Tx w) <> 0%Z -> Types.CalcTxHash (tw_Tx w) = Some k ->
  fee' = u64 (fee + if isContractTx tail (tw_Tx w) then 0 else TransferFee + ExtraFee (tw_Tx w)) ->
  packs sorted (<[k := (tw_Tx (typed tail w), tw_Height w)]> m) (packed ++ [tw_Tx (typed tail w)]) fee' txs fees -> packs (Some w :: sorted) m packed fee txs fees.
Proof.
  intros Hu Hc Ha H0 Hk -> (l & Hl & -> & -> & Hfd). exists (w :: l). split_and!; [by constructor|by rewrite <-app_assoc| |by econstructor].
  unfold transferFees. cbn [map zsum]. rewrite u64_add. f_equal. lia.
Qed.

Lemma packLoop_spec sorted turns size m packed fee s txs fees s' : u64 fee = fee -> packLoop pool cdb tail turns sorted size m packed fee s = (EOk (txs, fees), s') -> packs sorted m packed fee txs fees.
Proof.
  revert turns m packed fee s. induction sorted as [|ow sorted IH]; intros turns m packed fee s Hf.
  { destruct turns; cbn [packLoop]; intros [= <- <- <-]; by apply packs_stop. }
  destruct turns as [|turns]; cbn [packLoop]; [intros [= <- <- <-]; by apply packs_stop|]. intros (w & s1 & E1 & H)%em_bind_inv. destruct ow as [w'|]; [|done]. injection E1 as -> ->.
  destruct (_ <? _)%Z; [injection H as <- <- <-; by apply packs_stop|]. apply em_bind_inv in H as (r & s2 & E2 & H). destruct (GetExtendedTxUtxoSet _ _ _ _) as [r'|] eqn:Eu; [|done]. injection E2 as -> ->.
  destruct r as [u|]; [|apply packs_skip; by eapply IH]. destruct (Z.eqb_spec (TxInputAmount u (tw_Tx w)) 0) as [|H0]; [apply packs_skip; by eapply IH|]. cbv zeta in H.
  destruct (typed_tx tail (tw_Tx w)) as [ty Ety]. rewrite !Ety in H. assert (tw_Tx (typed tail w) = set_type (tw_Tx w) ty) as Etw by done. change (ExtraFee (set_type (tw_Tx w) ty)) with (ExtraFee (tw_Tx w)) in H.
  change (Types.CalcTxHash (set_type (tw_Tx w) ty)) with (Types.CalcTxHash (tw_Tx w)) in H. rewrite <-Etw in H. destruct (isContractTx tail (tw_Tx w)) eqn:Ec.
  - apply em_bind_inv in H as (vm & s3 & E3 & H). unfold e_try in E3. destruct (extract tail _ s2) as [[vm'|e| |] s4] eqn:Ex; try done; injection E3 as <- <-; [|apply packs_skip; by eapply IH].
    apply extract_same in Ex as [-> Ex]. apply em_bind_inv in H as (v & s5 & E5 & H). destruct vm' as [v'|]; [|done]. injection E5 as -> ->.
    destruct (Z.eqb_spec (TxInputAmount u (tw_Tx w)) (u64 (u64 (OutputAmount (tw_Tx w) + u64 (vt_gas v * Big.Uint64 (vt_gasPrice v))) + ExtraFee (tw_Tx w)))) as [Ea|]; cbn [negb] in H; [|apply em_bind_inv in H as (t & s6 & _ & H); apply packs_skip; by eapply IH].
    apply em_bind_inv in H as (k & s6 & E6 & H). destruct (Types.CalcTxHash (tw_Tx w)) as [k'|] eqn:Ek; [|done]. injection E6 as -> ->. eapply packs_store; [exact Eu| | |exact H0|exact Ek| |by eapply IH].
    + unfold charge. rewrite Ec. rewrite Ety, <-Etw. exists v, []. split; [apply Ex|reflexivity].
    + rewrite Ea, u64_add. f_equal. lia.
    + by rewrite Ec, Z.add_0_r.
  - destruct (Z.eqb_spec (TxInputAmount u (tw_Tx w)) (u64 (u64 (OutputAmount (tw_Tx w) + TransferFee) + ExtraFee (tw_Tx w)))) as [Ea|]; cbn [negb] in H; [|apply em_bind_inv in H as (t & s6 & _ & H); apply packs_skip; by eapply IH].
    apply em_bind_inv in H as (k & s6 & E6 & H). destruct (Types.CalcTxHash (tw_Tx w)) as [k'|] eqn:Ek; [|done]. injection E6 as -> ->. eapply packs_store; [exact Eu| | |exact H0|exact Ek| |by eapply IH; [|exact H]; unfold u64; rewrite Zmod_mod].
    + unfold charge. by rewrite Ec.
    + rewrite Ea, u64_add. f_equal. lia.
    + rewrite Ec. unfold u64. by rewrite Zplus_mod_idemp_r.
Qed.

End Packed.

(** ** What is executed *)

Section Executed.
Context {D : StateDB} {X : ChainDB D} {CD : CommitDB D} `{C : Crypto} `{TC : TxCodec} `{HC : HeaderCodec} `{RC : ReceiptCodec} `{K : Keccak} `{E : Curves} `{R : Rlp} {VO : VisitOrder} {MO : MapOrder} `{P : Pow10}.
Context (pool : bytes) (cdb : Db) (getHash : Z -> option bytes) (noRecursion enablePreimageRecording : bool) (records : Store) (splitFuel : nat) (keeper contractAddr : bytes).

Abbreviation execute := (executeBlock pool cdb getHash noRecursion enablePreimageRecording records splitFuel keeper contractAddr).

Definition with_gas (gas : Z) (txs : list Transaction) : list Transaction :=
  if (0 <? gas)%Z then match txs with cb :: txs => with_vout cb (gasOuts keeper gas (Vout cb)) :: txs | [] => [] end else txs.

Lemma payGas_inv gas block rcs s b rcs' s' : (if (0 <? gas)%Z then payGas keeper gas block rcs else mret (block, rcs)) s = (EOk (b, rcs'), s') ->
  b = with_txs block (with_gas gas (b_Txs block)) /\ (rcs = [] <-> rcs' = []).
Proof.
  unfold with_gas. destruct (0 <? gas)%Z; [|intros [= <- <- <-]; by destruct block]. unfold payGas. intros (t & s1 & _ & H)%em_bind_inv. destruct (b_Txs block) as [|cb txs]; [done|].
  apply em_bind_inv in H as (u & s2 & _ & H). apply em_bind_inv in H as (r & s3 & _ & H). apply em_bind_inv in H as (t' & s4 & _ & H). destruct rcs as [|rc rcs]; [done|].
  apply em_bind_inv in H as (k & s5 & _ & H). by injection H as <- <- <-.
Qed.

Lemma pwp_skip {A B} (c : PM A) (k : A -> PM B) Q s : (forall a s', pwp (k a) Q s') -> pwp (c ≫= k) Q s.
Proof. intros H. apply pwp_bind. unfold pwp at 1. repeat case_match; done. Qed.

Lemma processTxs_gas txs block i t s : (0 <= usedGas t)%Z -> pwp (processTxs pool cdb getHash noRecursion enablePreimageRecording block i txs t) (fun t' _ => (0 <= usedGas t')%Z) s.
Proof.
  revert block i t s. induction txs as [|tx txs IH]; intros block i t s Ht; cbn [processTxs]; [by apply pwp_ret|]. apply pwp_bind. eapply (pwp_mono _ (fun p _ => (0 <= usedGas p.1)%Z)); [|intros [t1 b1] s1 H1; by apply IH].
  unfold processTx. destruct (_ <? _)%Z; [done|]. apply pwp_skip. intros [vm|] s1; [|by apply pwp_ret]. apply pwp_skip. intros nonce s2. destruct (negb _); [done|]. destruct (Types.CalcTxHash tx); [|done].
  apply pwp_skip. intros _ s3. apply pwp_skip. intros [[rc g] txs'] s4. apply pwp_ret. cbn [fst usedGas]. unfold u64. by apply Z.mod_pos_bound.
Qed.

Lemma Process_gas block s rcs gas due s' : x_pm (Process pool cdb getHash noRecursion enablePreimageRecording block) s = (EOk (rcs, gas, due), s') -> (0 <= gas)%Z.
Proof.
  assert (pwp (Process pool cdb getHash noRecursion enablePreimageRecording block) (fun r _ => (0 <= r.1.2)%Z) (x_state s)) as H.
  { unfold Process. apply pwp_bind. eapply pwp_mono; [by apply processTxs_gas|]. intros t s1 Ht. by apply pwp_ret. }
  unfold pwp in H. unfold x_pm. destruct (Process _ _ _ _ _ _ _) as [[[a|]|e| |] p]; try done. by intros [= -> _].
Qed.

Lemma deref_inv {S F A} (o : option A) (s : S) a s' : (e_deref o : EM S F A) s = (EOk a, s') -> o = Some a /\ s' = s.
Proof. destruct o; [by intros [= -> ->]|done]. Qed.

(** The header commits to what it is given and keeps the rest. *)
Lemma sealHeader_inv block gas root utxoRoot due rcs s h s' : sealHeader block gas root utxoRoot due rcs s = (EOk h, s') ->
  s' = s /\ root = Some (h_RootHash h) /\ h_UtxoRoot h = default (h_UtxoRoot (b_Header block)) utxoRoot /\ h_GasUsed h = gas /\ Merkle.CalcTxsHash (b_Txs block) = Returns (Some (h_TxsRoot h)) /\
  (h_ReceiptHash (b_Header block) = Crypto.ZeroHash -> commits_to h rcs due) /\ h_Height h = h_Height (b_Header block) /\ h_BookKeeper h = h_BookKeeper (b_Header block) /\ h_PrevBlockHash h = h_PrevBlockHash (b_Header block).
Proof.
  unfold sealHeader. intros (rt & s1 & [-> ->]%deref_inv & H)%em_bind_inv. apply em_bind_inv in H as (r & s2 & [E2 ->]%x_go_inv & H). apply em_bind_inv in H as (tr & s3 & [-> ->]%deref_inv & H).
  apply em_bind_inv in H as (ir & s4 & E4 & H). apply em_bind_inv in H as (bloom & s5 & [_ ->]%x_go_inv & H). apply em_bind_inv in H as (rh & s6 & E6 & H). injection H as <- <-.
  assert (s4 = s /\ match due with [] => True | _ => Merkle.CalcTxsHash due = Returns (Some ir) end) as [-> Hi].
  { destruct due as [|t ts]; [by injection E4 as _ ->|]. apply em_bind_inv in E4 as (r & s7 & [E7 ->]%x_go_inv & E4). by apply deref_inv in E4 as [-> ->]. }
  assert (s6 = s /\ match rcs with [] => rh = h_ReceiptHash (b_Header block) | _ => Receipts_Hash rcs = Some rh end) as [-> Hr] by (destruct rcs; [by injection E6 as -> ->|by apply deref_inv in E6 as [? ->]]).
  split_and!; try done. intros Hz. split; [|done]. destruct rcs; [by rewrite Hr, Hz|done].
Qed.

(** The steps that decide. *)
Lemma executeBlock_inv block s b res s' : execute block s = (EOk (b, res), s') ->
  exists s0 rcs gas s1 n s3 s4 s5 root utxoRoot h,
    x_pm (Process pool cdb getHash noRecursion enablePreimageRecording block) s0 = (EOk (rcs, gas, b_InternalTxs b), s1) /\
    (rcs = [] <-> er_Receipts res = []) /\ b_Txs b = with_gas gas (b_Txs block) /\ b_Header b = h /\
    UpdateContractUtxoState (er_UtxoSet res) n = (EOk tt, s3) /\
    x_db Commit s3 = (EOk (Some (root, utxoRoot)), s4) /\
    sealHeader (mkBlock (b_Hash block) (b_Header block) (b_Txs b) (b_InternalTxs b) (b_Signature block) (b_Irreversible block)) gas root utxoRoot (b_InternalTxs b) (er_Receipts res) s4 = (EOk h, s4) /\
    x_state s5 = x_state s4 /\ balancesAgree (er_UtxoSet res) (order_set (contractUtxos (er_UtxoSet res))) s5 = (EOk tt, s') /\ er_StateDB res = p_db (x_state s').
Proof.
  unfold executeBlock. intros (bal & s1 & _ & H)%em_bind_inv. apply em_bind_inv in H as (db & s2 & _ & H). apply em_bind_inv in H as ([u err] & s3 & _ & H). apply em_bind_inv in H as (t & s4 & _ & H).
  apply em_bind_inv in H as ([copy m] & s5 & _ & H). cbv zeta in H. apply em_bind_inv in H as (u2 & s6 & _ & H). apply em_bind_inv in H as (t1 & s7 & _ & H). apply em_bind_inv in H as (t2 & s8 & _ & H).
  apply em_bind_inv in H as ([[rcs gas] due] & s9 & Ep & H). apply em_bind_inv in H as ([blk rcs'] & s10 & Eg & H). apply payGas_inv in Eg as [-> Hr]. cbv zeta in H.
  apply em_bind_inv in H as (u3 & s11 & _ & H). apply em_bind_inv in H as (t3 & s12 & _ & H). apply em_bind_inv in H as ([] & s13 & Ec & H). apply em_bind_inv in H as (r & s14 & E9 & H).
  apply em_bind_inv in H as ([root utxoRoot] & s15 & E10 & H). destruct r as [x|]; [|done]. injection E10 as -> ->. apply em_bind_inv in H as (h & s16 & Eh & H). assert (s16 = s15) as -> by (by apply sealHeader_inv in Eh as [? _]).
  apply em_bind_inv in H as (t4 & s17 & Em & H). injection Em as _ <-. apply em_bind_inv in H as ([] & s18 & Eb & H). injection H as <- <- <-.
  exists s8, rcs, gas, s9, s12, s13, s15, (mkXState (x_state s15) (x_dynasty s15 + dynastyTopics contractAddr rcs')), root, utxoRoot, h. split_and!; [done|done|done|done|exact Ec|exact E9|exact Eh|done|exact Eb|done].
Qed.

Lemma gas_value gas outs : (0 < gas)%Z -> u64 (zsum (map Value (gasOuts keeper gas outs))) = u64 (zsum (map Value outs) + gas).
Proof.
  intros Hg. assert (zsum (map Value (outs ++ [MakeVout keeper gas])) = zsum (map Value outs) + gas)%Z as Ha by (induction outs as [|o outs IH]; cbn in *; lia). destruct outs as [|o [|f [|x outs]]]; cbn [gasOuts]; try by rewrite Ha.
  cbn [map zsum Value]. unfold u64. rewrite !Z.add_0_r, Zplus_mod_idemp_r. f_equal. lia.
Qed.

(** A block that has been executed passes the checks of its own result. *)
Lemma executed_valid block s b res s' cb reward fees : execute block s = (EOk (b, res), s') -> h_ReceiptHash (b_Header block) = Crypto.ZeroHash -> head (b_Txs block) = Some cb ->
  u64 (zsum (map Value (Vout cb))) = u64 (Big.Uint64 reward + fees) -> 
  forall b2 x, b_Header b2 = b_Header b -> b_Txs b2 = b_Txs b -> b_InternalTxs b2 = b_InternalTxs b -> ValidateExecuteResult (Some reward) b2 (b_InternalTxs b2) (h_GasUsed (b_Header b2)) fees (er_Receipts res) x = (EOk b2, x).
Proof.
  intros H Hz Hcb Hv b2 x Eh2 Et2 Ei2. apply executeBlock_inv in H as (s0 & rcs & gas & s1 & n & s3 & s4 & s5 & root & utxoRoot & h & Hgas%Process_gas & Hr & Et & Eh & _ & _ & Es & _). apply sealHeader_inv in Es as (_ & _ & _ & Eg & _ & Hc & _). cbn [b_Header b_Txs] in *.
  destruct (Hc Hz) as [Hrc Hin]. rewrite Eh in *. rewrite Eh2, Eg, Ei2. unfold ValidateExecuteResult. rewrite (em_bind _ _ x b2 x).
  2: { unfold checkInternalTxs. destruct (b_InternalTxs b) as [|t ts] eqn:Ei; [destruct b2; cbn in *; by subst|]. rewrite (em_bind _ _ x (Some (h_InternalTxsRoot h)) x) by (by rewrite Hin). rewrite Eh2. cbn. by rewrite bool_decide_eq_true_2. }
  rewrite Eh2, Eg, Z.eqb_refl. cbn [negb]. rewrite Et2.
  assert (exists cb', head (b_Txs b) = Some cb' /\ u64 (zsum (map Value (Vout cb'))) = u64 (zsum (map Value (Vout cb)) + gas)) as (cb' & Ecb' & Hv').
  { rewrite Et. unfold with_gas. destruct (b_Txs block) as [|c txs]; [done|]. injection Hcb as ->. destruct (Z.ltb_spec 0 gas); eexists; (split; [reflexivity|]); [by apply gas_value|]. assert (gas = 0)%Z as -> by lia. by rewrite Z.add_0_r. }
  rewrite Ecb'. rewrite (em_bind _ _ x cb' x) by done. rewrite (em_bind _ _ x reward x) by done.
  assert (foldl (fun t o => u64 (t + Value o)) 0%Z (Vout cb') = u64 (u64 (Big.Uint64 reward + fees) + gas)) as Hsum.
  { pose proof (sum64 (Vout cb') 0) as Hs. change (u64 0) with 0%Z in Hs. rewrite Z.add_0_l in Hs. rewrite Hs, Hv', <-Hv, u64_add. done. }
  rewrite Hsum, Z.eqb_refl. cbn [negb]. rewrite (em_bind _ _ x (h_ReceiptHash h) x) by (destruct (er_Receipts res); [by rewrite Hrc|by rewrite Hrc]). by rewrite bool_decide_eq_true_2.
Qed.

End Executed.

(** ** What is produced *)

Section Coinbase.
Context `{L : Ledger} `{BC : Lru bytes Block} `{MC : Lru Z Block} `{KC : Lru bytes bytes} `{DC : Lru Z Dynasty} `{C : Crypto} `{HC : HeaderCodec} `{PB : BlockCodec} `{TC : TxCodec} `{K : Keccak} `{VO : VisitOrder} {CO : Committee}.

(** The coinbase pays the reward to the contract and the fee, if there is one, to the book keeper. *)
Lemma coinbase_inv keeper rw fee nonce h v tx v' : Bpos.MakeCoinBaseContractTx keeper rw fee nonce h v = (EOk tx, v') ->
  v' = v /\ exists o, Value o = rw /\ Vout tx = o :: (if (0 <? fee)%Z then [MakeVout keeper fee] else []) /\
    forall fee' v2, Bpos.MakeCoinBaseContractTx keeper rw fee' nonce h v2 = (EOk (with_vout tx (o :: (if (0 <? fee')%Z then [MakeVout keeper fee'] else []))), v2).
Proof.
  unfold Bpos.MakeCoinBaseContractTx, Bpos.adminAddress, Bpos.packCall. destruct (Types.NewContractAddressFromHash _) as [ca|]; [|done]. destruct (Types.AddressPubKeyHash_SetString _) as [ad|]; [|done].
  unfold mret, EM_ret, mbind, EM_bind. destruct (Bpos.MakeContractCallVout _ _ _ _ _) as [o|] eqn:Eo; [|done]. destruct (AbiMethods.ABI_Pack _ _ _) as [[code|]|]; try done. intros [= <- <-]. split; [done|]. exists o. split_and!; [|done|done].
  unfold Bpos.MakeContractCallVout in Eo. destruct (MakeContractScriptPubkey _ _ _ _ _); [|done]. by injection Eo as <-.
Qed.

Lemma gasOuts_fee keeper gas fee o : (0 < gas)%Z -> (0 <= fee)%Z -> (fee + gas < 2 ^ 64)%Z ->
  gasOuts keeper gas (o :: (if (0 <? fee)%Z then [MakeVout keeper fee] else [])) = o :: (if (0 <? fee + gas)%Z then [MakeVout keeper (fee + gas)] else []).
Proof.
  intros Hg Hf Hs. destruct (Z.ltb_spec 0 (fee + gas)); [|lia]. destruct (Z.ltb_spec 0 fee) as [|Hz]; cbn [gasOuts app].
  - cbn [MakeVout Value ScriptPubKey]. unfold u64. by rewrite Z.mod_small by lia.
  - assert (fee = 0)%Z as -> by lia. done.
Qed.

End Coinbase.

Section Produced.
Context {D : StateDB} {X : ChainDB D} {CD : CommitDB D} `{RC : ReceiptCodec} `{E : Curves} `{R : Rlp} {MO : MapOrder} `{P : Pow10}.
Context `{L : Ledger} `{BC : Lru bytes Block} `{MC : Lru Z Block} `{KC : Lru bytes bytes} `{DC : Lru Z Dynasty} {EP : Epochs}.
Context `{C : Crypto} `{HC : HeaderCodec} `{PB : BlockCodec} `{TC : TxCodec} `{K : Keccak} `{VO : VisitOrder} {CO : Committee}.
Context (pool : bytes) (cdb : Db) (getHash : Z -> option bytes) (noRecursion enablePreimageRecording : bool) (records : Store) (splitFuel sortFuel : nat).
Context (tail : sdb) (pendingTxs : list TxWrap) (turns : nat) (now : Z) (keeper : bytes) (asResult : BlockExecuteResult -> execResult).

Abbreviation pack := (PackTxs pool cdb getHash noRecursion enablePreimageRecording records splitFuel sortFuel tail pendingTxs turns now keeper asResult).

Lemma on_bpos_inv {A} (c : EM Bpos BposErr A) s a s' : on_bpos c s = (EOk a, s') -> exists v, c (pr_bpos s) = (EOk a, v) /\ s' = with_bpos s v.
Proof. unfold on_bpos. destruct (c (pr_bpos s)) as [[x|e| |] v]; try done. intros [= <- <-]. by exists v. Qed.

Lemma on_pool_inv {A} (c : EM (list Transaction) PackErr A) s a s' : on_pool c s = (EOk a, s') -> exists v, c (pr_published s) = (EOk a, v) /\ s' = with_published s v.
Proof. unfold on_pool. destruct (c (pr_published s)) as [[x|e| |] v]; try done. intros [= <- <-]. by exists v. Qed.

Lemma on_exec_inv {A} (c : EM XState ExecErr A) s a s' : on_exec c s = (EOk a, s') -> (exists x, c (pr_exec s) = (EOk a, x)) /\ pr_context s' = pr_context s.
Proof. unfold on_exec. destruct (c (pr_exec s)) as [[x|e| |] v]; try done. intros [= <- <-]. split; [by exists v|]. by destruct (_ <? _). Qed.

Lemma on_go_inv {A} (x : go A) s a s' : on_go x s = (EOk a, s') -> x = Returns a /\ s' = s.
Proof. destruct x; [by intros [= <- <-]|done]. Qed.

Lemma the_inv {A} (f : ProduceContext -> option A) s a s' : the f s = (EOk a, s') -> f (pr_context s) = Some a /\ s' = s.
Proof. unfold the. intros (o & s1 & [= <- <-] & H)%em_bind_inv. by apply deref_inv in H. Qed.

Lemma internal_inv admin nonce h s l s' : internalContractTx admin nonce h s = (EOk l, s') -> length l <= 1 /\ pr_context s' = pr_context s.
Proof.
  unfold internalContractTx. intros (sw & s1 & [_ ->]%the_inv & H)%em_bind_inv. apply em_bind_inv in H as (sc & s2 & [_ ->]%the_inv & H). destruct (_ =? _)%Z; [done|]. destruct (_ =? _)%Z.
  - apply em_bind_inv in H as (tx & s3 & (v & _ & ->)%on_bpos_inv & H). by injection H as <- <-.
  - destruct (_ =? _)%Z; [|injection H as <- <-; split; [cbn; lia|done]]. apply em_bind_inv in H as (cx & s3 & [= <- <-] & H). apply em_bind_inv in H as (hh & s4 & [= <- <-] & H).
    apply em_bind_inv in H as (tx & s5 & (v & _ & ->)%on_bpos_inv & H). by injection H as <- <-.
Qed.

(** What a block [b] made in state [s] is: [l] has been packed, [rw] is the reward, [fees] are the
    fees of payments, [nonce] is the nonce of the administrator, [cb] the coinbase, [internal] the
    call of the genesis contract that is due, [rcs] are the receipts. *)
Record produced (s : Producer) (b : Block) (l : list TxWrap) (rw fees nonce : Z) (cb : Transaction) (internal : list Transaction) (rcs : list Receipt) : Prop := {
  po_sorted : exists st sorted pub, sortPendingTxs sortFuel tail st pendingTxs (pr_published s) = (EOk sorted, pub) /\ (Some <$> l) `sublist_of` sorted;
  po_funded : funded pool cdb tail ∅ l;
  po_fees : fees = u64 (transferFees tail l);
  po_txs : b_Txs b = cb :: internal ++ ((fun w => tw_Tx (typed tail w)) <$> l) /\ length internal <= 1;
  po_reward : cx_bookKeeperReward (pr_context s) = Some rw;
  po_coinbase v : (fees + h_GasUsed (b_Header b) < 2 ^ 64)%Z ->
    Bpos.MakeCoinBaseContractTx keeper (Big.Uint64 rw) (fees + h_GasUsed (b_Header b)) nonce (h_Height (b_Header b)) v = (EOk cb, v);
  po_result x : ValidateExecuteResult (Some rw) b (b_InternalTxs b) (h_GasUsed (b_Header b)) fees rcs x = (EOk b, x);
  po_txsRoot : Merkle.CalcTxsHash (b_Txs b) = Returns (Some (h_TxsRoot (b_Header b)));
  po_roots : exists d utxoRoot d', Commit d = Returns (Some (Some (h_RootHash (b_Header b)), utxoRoot), d') /\ forall x, checkRoots b (Some (h_RootHash (b_Header b))) utxoRoot x = (EOk tt, x);
  po_keeper : h_BookKeeper (b_Header b) = keeper
}.

(** A block that a book keeper produces passes the checks of the result of executing it that other
    nodes make, with the fees of the transactions in it.  Its transactions are a coinbase, at most
    one call of the genesis contract, and transactions of the pool in the order that sorting gave,
    each of them funded in full by outputs of the chain and of those before it.  The coinbase is
    the one that verifying nodes rebuild from its values. *)
Theorem produced_block_valid block s b s' : b_Txs block = [] -> h_ReceiptHash (b_Header block) = Crypto.ZeroHash -> pack block s = (EOk b, s') ->
  exists l rw fees nonce cb internal rcs, produced s b l rw fees nonce cb internal rcs.
Proof.
  intros Htx Hz. unfold PackTxs. intros (tb & s1 & [= <- <-] & H)%em_bind_inv. apply em_bind_inv in H as (st & s1 & [_ ->]%on_go_inv & H). apply em_bind_inv in H as (sorted & s2 & (pub & Es & ->)%on_pool_inv & H).
  apply em_bind_inv in H as ([packed fees] & s3 & (pub2 & Ep & ->)%on_pool_inv & H). apply packLoop_spec in Ep as (l & Hl & -> & -> & Hfd); [|done]. cbv zeta in H.
  apply em_bind_inv in H as (parent & s4 & (v & _ & ->)%on_bpos_inv & H). apply em_bind_inv in H as (r & s5 & [_ ->]%on_go_inv & H). apply em_bind_inv in H as (db & s6 & E6 & H). destruct r as [d|]; [|done]. injection E6 as _ <-.
  apply em_bind_inv in H as (t & s7 & [= _ <-] & H). apply em_bind_inv in H as (admin & s8 & (v2 & _ & ->)%on_bpos_inv & H). apply em_bind_inv in H as (n & s9 & [_ E9]%on_exec_inv & H).
  apply em_bind_inv in H as (rw & s10 & [Erw ->]%the_inv & H). rewrite E9 in Erw. cbn [pr_context with_bpos with_exec with_published] in Erw. apply em_bind_inv in H as (t1 & s11 & _ & H). apply em_bind_inv in H as (t2 & s12 & _ & H).
  apply em_bind_inv in H as (cb & s13 & (v3 & Ecb & ->)%on_bpos_inv & H). apply em_bind_inv in H as (internal & s14 & [Hi _]%internal_inv & H). cbn [with_keeper b_Header b_Txs h_Height] in *. rewrite Htx in H. cbn [app] in H.
  apply em_bind_inv in H as ([b0 res] & s15 & [[x Ex] _]%on_exec_inv & H). apply em_bind_inv in H as (t3 & s16 & _ & H). apply em_bind_inv in H as (info & s17 & _ & H). injection H as <- _.
  apply coinbase_inv in Ecb as (-> & o & Ho & Hvo & Hcb).
  pose proof Ex as Ei. apply executeBlock_inv in Ei as (x0 & rcs & gas & x1 & x2 & x3 & x4 & x5 & root & utxoRoot & h & Hg%Process_gas & _ & Et & Eh & _ & Ec & Esh & _).
  apply sealHeader_inv in Esh as (_ & -> & Eur & Eg & Etr & _ & Ehh & Ehk & _). cbn [b_Header b_Txs with_txs with_keeper h_Height h_BookKeeper h_UtxoRoot] in *. set (fees := u64 (0 + transferFees tail l)) in *.
  set (cb' := if (0 <? gas)%Z then with_vout cb (gasOuts keeper gas (Vout cb)) else cb). assert (b_Txs b0 = cb' :: internal ++ ((fun w => tw_Tx (typed tail w)) <$> l)) as Et' by (rewrite Et; unfold with_gas, cb'; by destruct (0 <? gas)%Z).
  exists l, rw, fees, (u64 (n + 1)), cb', internal, (er_Receipts res). split; cbn [b_Header b_Txs b_InternalTxs]; rewrite ?Eh.
  - by exists st, sorted, pub.
  - done.
  - unfold fees. by rewrite Z.add_0_l.
  - done.
  - done.
  - intros v4 Hs. rewrite Eg in *. rewrite Ehh, Hcb. do 2 f_equal. unfold cb'. assert (0 <= fees)%Z by (unfold fees, u64; by apply Z.mod_pos_bound). destruct (Z.ltb_spec 0 gas).
    + by rewrite Hvo, gasOuts_fee.
    + assert (gas = 0)%Z as -> by lia. rewrite Z.add_0_r, <-Hvo. by destruct cb.
  - intros y. rewrite <-Eh. set (b2 := mkBlock _ _ _ _ _ _). change (ValidateExecuteResult (Some rw) b2 (b_InternalTxs b2) (h_GasUsed (b_Header b2)) fees (er_Receipts res) y = (EOk b2, y)). eapply executed_valid; [exact Ex|done|done| |done..]. cbn [with_txs b_Txs head]. rewrite Hvo. cbn [map zsum]. rewrite Ho. f_equal. f_equal. destruct (Z.ltb_spec 0 fees); cbn [map zsum MakeVout Value]; [lia|].
    assert (0 <= fees)%Z by (unfold fees, u64; by apply Z.mod_pos_bound). lia.
  - done.
  - unfold x_db, x_pm, p_op in Ec. destruct (Commit (p_db (x_state x3))) as [[cr d']|] eqn:Ecm; [|done]. injection Ec as -> _. exists (p_db (x_state x3)), utxoRoot, d'. split; [done|]. intros y. unfold checkRoots. cbn [Crypto.IsEqual b_Header]. rewrite ?Eh, bool_decide_eq_true_2 by done. cbn [negb].
    rewrite Eur. destruct utxoRoot as [ur|]; [|done]. cbn [default Crypto.IsEqual]. by rewrite bool_decide_eq_true_2.
  - done.
Qed.

End Produced.

(** * A block with a call and a payment *)

Module ProducerDemo.
Import Script EvmDemo RefDB.
#[local] Existing Instance ChainDemo.desk.
#[local] Existing Instance ChainDemo.headers.
#[local] Existing Instance ChainDemo.blocks.
#[local] Existing Instance ChainDemo.node.
#[local] Existing Instance ChainDemo.blockcache.
#[local] Existing Instance ChainDemo.mintcache.
#[local] Existing Instance ChainDemo.keycache.
#[local] Existing Instance ChainDemo.dynastycache.
#[local] Existing Instance ProcessorDemo.RefChainDB.
#[local] Existing Instance ProcessorDemo.forwards.
#[local] Existing Instance BlockExecDemo.receipts.
(** A hash shows where the inputs come from and what the outputs pay. *)
#[local] Instance inputsAndValues : TxCodec := {|
  pb_marshal m := Some (concat (map (fun i => take 1 (default [] (pb_Hash <$> (i ≫= pb_PrevOutPoint)))) (pb_Vin m)) ++ concat (map (fun o => le_bytes 4 (Value o)) (pb_Vout m)))
|}.
#[local] Instance noEpochs : Epochs := {| getLastEpochByHeight _ _ := Ok []; getCurrentEpochByHeight _ _ := Ok []; calcScores _ _ := [] |}.

#[local] Instance committee : Committee := {|
  btcec_RecoverCompact := @btcec_RecoverCompact _ _ _ _ ChainDemo.committee; pubkey_Serialize := @pubkey_Serialize _ _ _ _ ChainDemo.committee; own_SignCompact := @own_SignCompact _ _ _ _ ChainDemo.committee;
  pb_dynasty_marshal := @pb_dynasty_marshal _ _ _ _ ChainDemo.committee; pb_eternal_unmarshal := @pb_eternal_unmarshal _ _ _ _ ChainDemo.committee; ContractAddr := replicate 20 x0d; ContractAbi := ChainDemo.abi;
  getDynasty := @getDynasty _ _ _ _ ChainDemo.committee; getNetParams := @getNetParams _ _ _ _ ChainDemo.committee; adminNonce := @adminNonce _ _ _ _ ChainDemo.committee
|}.

(** At every root Alice has some coins and there is a contract. *)
Definition accounts (code : bytes) : ref := mkRef (on_acct contract (set_code code) (on_acct alice (set_balance 8000000) no_accounts)) [] 0.
Definition commits (code : bytes) : CommitDB RefDB := {|
  openState _ _ := Returns (Some (accounts code));
  UpdateUtxo _ _ := ref_get (fun _ => true);
  Commit := ref_get (fun _ => Some (Some (BlockExecDemo.h32 x22), None))
|}.

(** Alice calls the contract and pays Bob; the node hears of the payment first. *)
Definition lock : bytes := PayToPubKeyHashScript alice.
Definition callScript : bytes := match MakeContractScriptPubkey (Some alice) (Some contract) 100000 1 0 with Ok s => s | Err _ => [] end.
Definition coin (b : byte) : OutPoint := mkOutPoint (BlockExecDemo.h32 b) 0.
Definition coins : UtxoSet := mkUtxoSet {[ coin x09 := Types.NewUtxoWrap (FixedGasPrice * 100000 + 3) lock 1; coin x0a := Types.NewUtxoWrap (TransferFee + 500) lock 1; coin x0b := Types.NewUtxoWrap (TransferFee + 600) lock 1;
  contract_op contract := Types.NewUtxoWrap 0 callScript 1; contract_op ContractAddr := Types.NewUtxoWrap 0 callScript 1 ]} ∅ ∅.
Definition table : Db := match WriteUtxoSetToDB BlockExecDemo.buffer coins ∅ with Returns (Ok d) => d | _ => ∅ end.
Definition called (sig : bytes) : Transaction := mkTx UnknownTx 1 [mkTxIn (coin x09) sig 0] [mkTxOut 3 callScript] (Some (mkTxData 0 [])) 0 0.
Definition call : Transaction := called (match CalcTxHashForSig lock (called []) 0 with Ok d => SignatureScript (BlockExecDemo.key ++ d) BlockExecDemo.key | Err _ => [] end).
Definition payment (b : byte) (amount : Z) (data : option TxData) : Transaction := mkTx UnknownTx 1 [mkTxIn (coin b) [x01] 0] [MakeVout BlockExecDemo.bob amount] data 0 0.
Definition waiting : list TxWrap := [mkTxWrap call 2 0 true; mkTxWrap (payment x0a 500 None) 1 0 true].

Definition keeper : bytes := replicate 20 x0a.
Definition desk (code : bytes) : Producer :=
  mkProducer (ChainDemo.node_at ChainDemo.start) (mkProduceContext 1 (Some ChainDemo.dynasty) (Some 10%Z) (Some 100%Z) (Some 50%Z) [] [] []) false false [] (mkXState (@mkPState RefDB (accounts code) NewUtxoSet) 0) 0.
Definition store : Store := mkStore ∅ Receipt.emptyBloom [].
Definition fresh : Block := newHeader ChainDemo.genesis 1 (BlockExecDemo.h32 x00).
Definition make (code : bytes) (turns : nat) (pending : list TxWrap) :=
  PackTxs (CD := commits code) BlockExecDemo.buffer table (fun n => Some (be32 n)) false false store 5 10 (accounts code) pending turns 0 keeper (fun _ => tt) fresh (desk code).

(** What the outputs of the transactions and of the internal transactions pay, and the gas. *)
Definition summary (r : eres ProdErr Block) : option (list (list Z) * list (list Z) * Z) :=
  match r with EOk b => Some (map (fun t => map Value (Vout t)) (b_Txs b), map (fun t => map Value (Vout t)) (b_InternalTxs b), h_GasUsed (b_Header b)) | _ => None end.

(** With time for both transactions, and for one of them. *)
Example both_packed : summary (make adder 10 waiting).1 = Some ([[10; 1156200]; [500]; [3]], [[4893800]], 106200)%Z /\ summary (make adder 1 waiting).1 = Some ([[10; 1050000]; [500]], [], 0)%Z.
Proof. vm_compute. done. Qed.

(** ** A block that the others refuse *)

(** The contract stores the balance of the book keeper.  The producer pays the gas to the book
    keeper after the transactions, the validators before them: they find another amount of gas. *)
Definition curious : bytes := [x73] ++ keeper ++ [x31; x60; x00; x55; x00].
Definition refused : Block := match (make curious 10 [mkTxWrap call 1 0 true]).1 with EOk b => b | _ => fresh end.
Definition validate (code : bytes) (b : Block) :=
  adjustAndValidateState (CD := commits code) BlockExecDemo.buffer table (fun n => Some (be32 n)) false false (Some 10%Z) ContractAddr ChainDemo.genesis b (Copy b) (pr_exec (desk code)).

Definition verdict (r : eres ExecErr (BlockExecuteResult * Block)) : option ExecErr := match r with EErr e => Some e | _ => None end.

(** The same call of a contract that adds numbers is no difficulty. *)
Example accepted : match (make adder 10 [mkTxWrap call 1 0 true]).1 with EOk b => match (validate adder b).1 with EOk _ => true | _ => false end | _ => false end = true.
Proof. vm_compute. reflexivity. Qed.

(** A book keeper makes a block, from a pool with one call, that every node with the same state
    refuses: the gas is paid to the book keeper after the transactions when the block is made, and
    before them when it is checked, and a contract can tell. *)
Theorem own_gas_refused : match (make curious 10 [mkTxWrap call 1 0 true]).1 with EOk b => verdict (validate curious b).1 = Some ErrInvalidInternalTxs | _ => False end.
Proof.
  assert (match (make curious 10 [mkTxWrap call 1 0 true]).1 with EOk b => match verdict (validate curious b).1 with Some ErrInvalidInternalTxs => true | _ => false end | _ => false end = true) as H by (vm_compute; reflexivity).
  destruct (make curious 10 [mkTxWrap call 1 0 true]).1 as [b|e| |]; try discriminate H. destruct (verdict _) as [[]|]; try discriminate H. reflexivity.
Qed.

(** ** A block that is too large *)

(** The size of what is packed is never added up: two payments of more than two megabytes each make
    a block that is larger than [validateBlock] allows. *)
Definition large (b : byte) (amount : Z) : TxWrap := mkTxWrap (payment b amount (Some (mkTxData 0 (replicate (Z.to_nat 2200000) x00)))) 1 0 true.
Example too_large : match (packLoop BlockExecDemo.buffer table (accounts adder) 10 [Some (large x0a 500); Some (large x0b 600)] 0 ∅ [] 0 []).1 with
  EOk (txs, _) => (length txs =? 2) && (MaxTxsRoughSize <? zsum (map RoughSize txs))%Z | _ => false end = true.
Proof. vm_compute. reflexivity. Qed.

(** ** A turn of the producer *)

(** The first delegate produces the block of its second; the encoding of the demonstration does not
    know the block, so that storing it fails and the chain stays as it is.  The second delegate has
    to wait for its turn. *)
Definition turn (who : bytes) := run (CD := commits adder) BlockExecDemo.buffer table (fun n => Some (be32 n)) false false store 5 10 (accounts adder) waiting 10 0 who (fun _ => tt) 1 (desk adder).
Definition outcome (r : eres ProdErr unit) : option (option ProdErr) := match r with EOk _ => Some None | EErr e => Some (Some e) | _ => None end.

Example turns_taken : outcome (turn keeper).1 = Some None /\ outcome (turn (replicate 20 x0b)).1 = Some (Some (ErrProdBpos ErrNotMyTurnToProduce)) /\ pr_busy (turn keeper).2 = false /\
  match c_events (bp_chain (pr_bpos (turn keeper).2)) with [SendBlock BroadcastMode b] => length (b_Txs b) | _ => 0 end = 3.
Proof. vm_compute. done. Qed.

(** ** The theorem on this block *)

Abbreviation made := (make adder 10 waiting).

Lemma produced_block_valid_witness : exists b l rw fees nonce cb internal rcs, made.1 = EOk b /\
  produced (CD := commits adder) BlockExecDemo.buffer table 10 (accounts adder) waiting keeper (desk adder) b l rw fees nonce cb internal rcs.
Proof.
  assert (match made.1 with EOk _ => true | _ => false end = true) as Hok by (vm_compute; reflexivity). destruct made as [[b|e| |] s] eqn:Em; [|discriminate Hok..].
  destruct (produced_block_valid (CD := commits adder) (L := ChainDemo.node) BlockExecDemo.buffer table (fun n => Some (be32 n)) false false store 5 10 (accounts adder) waiting 10 0 keeper (fun _ => tt) fresh (desk adder) b s) as (l & rw & fees & nonce & cb & internal & rcs & H).
  - reflexivity.
  - reflexivity.
  - exact Em.
  - exists b, l, rw, fees, nonce, cb, internal, rcs. split; [reflexivity|exact H].
Defined.

End ProducerDemo.
